(* ===== verification/_CoqProject ===== *)
-Q . S2P
Prelude.v
Bytes.v
Text.v
Reader.v
ManifestV2.v
Traversal.v
ManifestSpec.v
ValidateProof.v
ValidateTheorem.v
OfferCodec.v
OfferProof.v
Frames.v
FramesProof.v
FramingProof.v
AuthFrame.v
BrokerConfig.v
CoreError.v
TokenBucket.v
Sources.v
Rooms.v
RoomsInv.v
RoomsTheorem.v
Timeline.v
CancelToken.v
Delivery.v
DeliveryStore.v
Ledger.v
Names.v
Proc.v
Invite.v
InviteProof.v
RoomInvite.v
RoomControl.v
RoomControlProof.v
RoomSystem.v
Relay.v
Pairing.v
PairingProof.v
Auth.v
AuthProof.v
RoomSession.v
RoomSessionProof.v
LocalFs.v
Destination.v
ReceivePlane.v
Provider.v
ProviderCommit.v
FsProof.v
LedgerInv.v
ReceiveInv.v
ProviderSafe.v
CommitSafe.v
DirectSave.v
DestinationProof.v
ReceiveSafe.v
SendPlane.v
Loops.v
Agreement.v
Resume.v
Transfer.v
LocalTransfer.v
CreatePlan.v
DeliverySystem.v
Broker.v
RoomSpec.v
Session.v
SessionPlane.v
SessionProof.v
SessionAgree.v
Job.v
JobWalk.v
JobInv.v
JobSeal.v
Witnesses.v
BrokerWitnesses.v
TransferWitnesses.v
JobWitnesses.v
RoomWitnesses.v
PairingWitnesses.v
SessionWitnesses.v
