(* ===== verification/Prelude.v ===== *)
(** * Envoix: a verified model of its transfers, rooms and rendezvous broker

    Envoix moves files between two devices.  A sender seals its selection into a
    _manifest_ and offers it; the receiver accepts, blocks of content follow, and
    the job ends when the receiver has proved that it saved the files.  The two
    devices find each other through a _rendezvous broker_, which pairs a creator
    and a joiner of one room code and relays their frames: one side makes an
    _invitation_, both authenticate each other with its secret, exchange an address
    and authenticate the data connection once more.  Devices can also stay in a
    _room_ and offer transfers to each other over a control connection.  This
    library models that core from the Rust sources under src/crates and proves what
    makes it correct.

    ** Parts of the program and where they are modelled

    - Manifest and offer (envoix-protocol/src/manifest_v2.rs).  [ManifestV2] holds
      the data, the limits, the errors and [validate], loop by loop: roots,
      entries with their tables (depths, path lengths, siblings, children), the
      depth-first traversal over a stack and the totals.  [OfferCodec] is the
      binary codec, over the checked [Reader] of file [Reader]; the wire form has
      paths where the manifest has parent ids.  [ManifestSpec] states, without
      loops, what a valid manifest is; [Traversal], [ValidateProof] and
      [ValidateTheorem] prove that [validate] decides it; [OfferProof] proves the
      codec.
    - Frames (envoix-protocol/src/manifest_v2_frames.rs).  [Frames] has the thirteen
      frames, their encoders and decoders, the header, and reading and writing on
      a stream; [FramesProof] and [FramingProof] prove them.
    - Authentication frames (envoix-protocol/src/lib.rs): [AuthFrame].
    - Delivery (envoix-transfer/src/delivery_v2.rs).  [Delivery] has the records of
      the two ends, the keyed proof, the stores and the two halves of the
      exchange.  A [&mut self] method returns the record it leaves, also when it
      fails.  [DeliveryStore] proves the parts;
      [DeliverySystem] composes the two ends into one system with failing writes,
      lost frames and crashes, in the way manifest_v2_session.rs uses them (load
      or create, save after every commit, drop the record on an error).
    - Data plane (envoix-transfer/src/manifest_v2_engine.rs).  [Ledger] has the
      receiver's ledger with its validation and store, the checks of accepts,
      blocks and resume messages, and the block codec.  [Proc] is the small
      monad both loops are written in: a world of incoming frames, outgoing
      frames (each with the store at the moment it was sent), record, store and
      sink, and an error that keeps the world.  [ReceivePlane] is [receive],
      [SendPlane] is [send], with the reconnection of a sender.  The sink is the
      class [PayloadSink]; what the receiver needs of it is the class
      [SinkSafety] ([ReceiveInv]).  [LedgerInv], [ReceiveInv] and [ReceiveSafe]
      carry the receiver's invariant through every operation; [Agreement]
      relates the two ends of one connection, [Resume] the two ends of a
      reconnection; [Transfer] has the theorems.
    - Destination (envoix-transfer/src/destination_v2.rs).  [LocalFs] is the file
      system: nodes at paths, contents by file number, directories that can be
      renamed, and a fault at any call.  [Names] has the names given to roots and
      entries and their collisions, [Destination] the planner (creation,
      reservations, reuse, validation, store, staging paths, initial accept),
      [Provider] the local provider's operations on entries and [ProviderCommit]
      its commit, opening and reconciliation.  [FsProof] says what file system
      calls leave alone; [ProviderSafe] and [CommitSafe] prove that the provider
      is a [SinkSafety]; [DirectSave], [DestinationProof] and [CreatePlan] have
      the theorems on commits (with a crash that the provider does not recover
      from), paths, plans and accepts; [LocalTransfer] puts the provider under the
      data plane.
    - Jobs (envoix-transfer/src/job.rs).  [Job] is the sender's transfer job: adding
      sources, their enumeration, decisions, digests, the inventory and its pages,
      sealing, [validate_durable], and the store with the staging it owns.  A method
      is a program over a world with the job, the clock, the files of the store and
      the disk, which is the class [SourceDisk]: every call may find another state.
      [JobWalk] proves the enumeration against [SourceDiskLaws], [JobInv] carries
      the invariant of a job through every operation, and [JobSeal] has what
      sealing makes of a job and what the store releases.
    - Stage timeline and cancellation token (envoix-transfer/src/lib.rs):
      [Timeline], [CancelToken], as state machines over the critical sections and
      atomic operations of concurrent tasks.
    - Broker (envoix-rendezvous/src).  [BrokerConfig] has the configuration and its
      validation (config.rs), the messages (protocol.rs) and the pure functions
      of broker.rs; [TokenBucket] the rate limiter, with [f64] as IEEE binary64;
      [Sources] the per-source admission control; [Rooms] the registry, one
      definition per critical section; [RoomsInv] its interleaving as a step
      relation and the invariant; [RoomsTheorem] what follows; [RoomSpec] the
      specification of a room, one event at a time, and that the registry refines it;
      [Relay] the control frames (io.rs) and the relay of a pair; [Broker] the
      connection handler, the creator's wait and [run_pair].
    - Invitations (envoix-invite/src/lib.rs).  [Invite] has room codes and their
      sampling, the public context, the invitation with its text, the bindings and
      the bootstrap of a creator and a joiner; [InviteProof] proves them.
    - Pairing (envoix-pairing/src, with the exchanges of
      envoix-rendezvous-iroh/src/lib.rs).  [Pairing] is the handshake in a room: the
      key exchange with its transcripts and confirmations, the sealed context and
      the sealed descriptors, every message within the limit of a control frame (the
      io.rs of the broker, in [Relay]).  [PairingProof] proves that it completes and what a
      confirmation means.
    - Authentication of the data connection (envoix-auth/src/lib.rs): [Auth] has the
      configurations, both ends of the handshake, credentials and remembered
      sessions; [AuthProof] the theorems.
    - Pairing through a room (envoix-session/src/room.rs): [RoomSession] joins the
      broker with retries, pairs and sends or receives, with the cleanup on every
      path; [RoomSessionProof] composes invitation, broker, pairing and
      authentication.
    - Sessions over a connection (envoix-session/src/manifest_v2_session.rs).
      [Session] has the receiver that waits for an authenticated offer, its session
      from the offer to the delivery proof over the three stores it keeps, pending
      receives with their cancellation, the sender's session, the routes to a
      receiver, and the errors both ends report.  [SessionPlane] adds what the
      sessions need of the data plane, [SessionProof] has the theorems of one end
      and [SessionAgree] that of both.
    - Room control (envoix-session/src/room_control.rs).  [RoomInvite] is the
      invitation to a room and its text, [RoomControl] the lifetime machine, the
      offers, the control frames and every method of a session; [RoomControlProof]
      has one session's theorems, [RoomSystem] two members whose tasks interleave.
    - Errors (envoix-error/src/lib.rs): [CoreError].

    [Prelude] and [Bytes] carry what all of them share: Rust's [Result] with its
    monad, machine integers with their widths, bytes, big-endian integers, UTF-8,
    the tactics [inv_ok] and [bool_prop] and the hint databases.  [Text] has decimal
    and hexadecimal numbers, the text functions and the textual form of IP
    addresses.  [Witnesses], [BrokerWitnesses], [TransferWitnesses], [JobWitnesses],
    [RoomWitnesses] (with a real base64 encoding that stands in for the library's),
    [PairingWitnesses] and [SessionWitnesses] evaluate the model on concrete inputs,
    the golden fixture of the repository, a directory that becomes a sealed job, a
    whole transfer onto a disk, a pairing from invitation to data connection and the
    sessions of both ends among them.

    ** How code becomes definitions

    Pure functions are functions into [result] or [option]; the [?] operator is
    the monad's bind.  Integers are [Z] with the width written where it matters
    ([checked_add], [wrapping_add], [as_u32]); the targets are 64-bit, so [usize]
    is [u64].  A Rust [str] is its bytes.  A lock or a mutex turns into one
    definition per critical section, with the clock value it read as an argument;
    tasks interleave as the steps of a relation.  A stream is the list of bytes
    still to come; a failing transport, file system or clock is an argument that
    says how the call ended.  Code outside the repository is a parameter: the NFC
    test of unicode-normalization, BLAKE3 in its three modes (only the length of
    the plain digest is assumed, and that key derivation has no collisions where
    a theorem compares result sets), serde_json (a written value is read back),
    zstd (decompression restores what was compressed, where a theorem needs it),
    lower-casing of Unicode names, the device number of a path, free space and
    random bytes; SHA-256, HKDF and HMAC (lengths only), SPAKE2 (the size of its
    messages, and that two ends with one password and crossed messages get one key),
    the AEAD (opening what was sealed, which is sixteen bytes longer), the JSON of the
    pairing messages (that it is written, and a bound on its length),
    base64 (its alphabet, its length and that decoding undoes it), endpoint ids and
    relay URLs (their canonical texts).  The theorems on pairing and authentication
    do not assume that a MAC has no collisions: their conclusions name the two
    inputs that would collide.  The sender's files are a parameter that opens an entry to its bytes.

    ** What the theorems show

    - Manifest: [validate_iff] ([validate] decides [valid_manifest]),
      [canonical_order_total] (its traversal ends and reaches every entry),
      [offer_roundtrip] and [offer_canonical] (one encoding per offer).
    - Frames: [frame_roundtrip], which characterises the frames that survive,
      [frame_canonical], [stream_roundtrip], [read_frame_consumes],
      [read_frame_oversize], [cancel_entry_out_of_range]; [auth_frame_roundtrip]
      and [auth_frame_canonical].
    - Delivery: [delivered_agreement] (a delivered job is durably saved at the
      receiver, with the same results), [delivered_is_final],
      [delivery_completes], [sender_record_consistent], [delivery_save_atomic].
    - Data plane: [receive_keeps_ledger] and [receive_writes_ahead] (the store
      always holds a true ledger and nothing is said before it is stored, for
      every peer and every failure), [receive_saves_verified],
      [summaries_agree], [transfer_integrity] against any safe sink and
      [local_transfer] on a disk; [block_roundtrip], [settled_agrees] and
      [reconnect_succeeds] for resumed sessions.
    - Sessions: [sessions_agree] (two sessions that end well have stored one proof for
      one set of results), [session_keeps_word] (what a receiver says is stored when
      it is said), [offer_of_authenticated_peer], [send_attempts_settle].
    - Destination: [staging_paths_apart], [created_plan_valid],
      [initial_accept_valid], [opened_provider_good], [direct_save_places], and
      [first_block_strands], a crash after which an entry cannot continue
      ([ledger_name_taken] is a plan that gives a root the ledgers' directory).
    - Jobs: [job_stays_durable] (whatever the disk answers and whatever fails, a job
      can be saved after every operation that [op_allowed] lets through), [seal_ready] (a ready job becomes a valid manifest of its
      inventory and every file entry finds its source),
      [staged_file_released_after_save] (a crash loses no source); and two defects:
      [sealed_cancel_not_saved] and [long_path_not_sealed].
    - Registry: [room_attempt_budget], [broker_refines_rooms] (each critical section
      is one event of the room specification, and each room makes its move),
      [joiner_matched_iff], [match_pairs_complementary], [room_accounting],
      [closed_room_refuses], [retry_after_capped], [creator_wait_ends],
      [serve_from_gate], [pair_replies_opposite], [joins_match_complementary];
      [waiting_limit_exceeded] shows a limit that is not one.
    - Sources and rates: [source_accounting], [source_limit_exceeded] (again a
      limit that is not one), [bucket_burst].
    - Relay: [relay_prefix], [relay_complete], [control_roundtrip].
    - Invitations: [invite_canonical] (one text per invitation, fresh and
      committed), [invite_roundtrip], [bindings_injective].
    - Pairing and authentication: [invitation_pairs] and [remembered_pairs] (both
      ends meet at the broker and end with one configuration),
      [pairing_authenticated] and [auth_authenticated] (what an accepted
      confirmation says about the peer), [auth_completes], [credential_canonical],
      [room_joins_bounded], [hybrid_receive_releases].
    - Room control: [offers_agree], [answers_known], [lifetime_agreed] and
      [methods_are_steps] for two members, [lifetime_invariant],
      [failed_mutation_closes] (all of [next_event] included; at the last revision
      [last_revision_changes] is the exception), [hello_agreement],
      [control_joins_match] and [room_invite_roundtrip] for one; [relay_fallback_refuses] is an invitation
      after which every offer is refused.
    - Termination: [data_loops_end] and [tree_walks_end].
    - Timeline and token: [timeline_delivery], [timeline_deltas],
      [pause_seen_when_cancelled], and [cancel_lost_wakeup], a race.

    ** Bounds and fuel

    The traversal of [validate] has the number of entries as fuel, which
    [canonical_order_total] proves to be enough; [relay_frames] has one unit per
    input byte, and every turn reads at least four ([relay_prefix] proves that it
    returns).  A run of the two data-plane loops is bounded by the frames still to
    come ([receive_frames] reads one in every turn) and by the blocks of a file
    ([send_fuel]); walks over a directory tree have the number of nodes as fuel
    ([tree_fuel]); [data_loops_end] and [tree_walks_end] prove that this is enough.
    A name has ten thousand candidates, as in the code; sampling a room code takes
    bytes from the entropy of the world until it has enough accepted ones; the
    rounds of a pairing are those of the retry policy; a receiver waits for an offer
    through at most [accept_limit] connections, one more than the failures it lets
    pass ([offer_of_authenticated_peer] proves that no more are needed).  The
    enumeration of a source recurses on the entries it may still add and, for one
    number of these, on its stack, so it ends by construction; the search for an item
    id, which in the code ends only when a salt gives a free one, is cut off after a
    parameter of tries with an outcome of its own, which no theorem on results takes
    for an error of the code.  All other recursion is structural.  The registry's theorems speak
    of fewer than 2^63 steps: every step takes at most two ids from a 64-bit
    counter, so the counter never wraps.  Room and source theorems assume a
    configuration that [BrokerConfig::validate] accepts and whose fields fit
    their types.

    ** What is not modelled

    The endpoints and transports below the sessions
    (endpoint.rs, connection.rs, datagram_transport.rs, native_transport.rs), the
    client, the bindings and the applications.
    Of the modelled files: [Debug] and [Display] output, log spans,
    [PeerDescriptor], the compilation targets' file replacement (persistence_v2.rs,
    which is taken to be atomic), the choice of random nonces, the timing of
    deadlines, of which only the outcome is kept, what a future had done when it
    lost a race, and of the destination: symbolic links, permission bits, file
    times, the volume identity on Windows, and the ledgers' directory as a part of the
    disk (the ledger store is the [store] of the data plane, apart from [Fs]); of jobs: the accessors that only return
    a field, and the [Err] branch of [prepare_selection], because
    [enumerate_local_selection] has no [Err].  [created_plan_valid] leaves out
    Windows, where names are rewritten.

    ** What could follow

    The sender's files of the data plane as the sources of a job, and the liveness of
    a whole transfer from invitation to proof. *)

From stdpp Require Import prelude.
From Stdlib Require Import ZArith Lia.

(** ** Rust's [Result] *)

Inductive result (E A : Type) : Type :=
| Ok (a : A)
| Err (e : E).
Arguments Ok {E A} a.
Arguments Err {E A} e.

#[export] Instance result_ret {E} : MRet (result E) := fun A a => Ok a.
#[export] Instance result_bind {E} : MBind (result E) :=
  fun A B f r => match r with Ok a => f a | Err e => Err e end.

(** [map_err f r] is [Result::map_err]. *)
Definition map_err {E F A} (f : E -> F) (r : result E A) : result F A :=
  match r with Ok a => Ok a | Err e => Err (f e) end.

(** [ok_or e o] is [Option::ok_or]. *)
Definition ok_or {E A} (e : E) (o : option A) : result E A :=
  match o with Some a => Ok a | None => Err e end.

(** [ensure b e] is the early return [if !b { return Err(e) }]. *)
Definition ensure {E} (b : bool) (e : E) : result E unit :=
  if b then Ok tt else Err e.

Definition is_ok {E A} (r : result E A) : bool :=
  match r with Ok _ => true | Err _ => false end.

Section ResultFacts.
Context {E A B : Type}.

Lemma result_bind_ok (r : result E A) (f : A -> result E B) (b : B) :
  r ≫= f = Ok b <-> exists a, r = Ok a /\ f a = Ok b.
Proof. destruct r; cbn; naive_solver. Qed.

Lemma Ok_inj (a a' : A) : Ok (E := E) a = Ok a' -> a = a'.
Proof. by intros [= ->]. Qed.

Lemma map_err_ok {F} (g : E -> F) (r : result E A) (a : A) :
  map_err g r = Ok a <-> r = Ok a.
Proof. destruct r; cbn; naive_solver. Qed.

Lemma ok_or_ok (e : E) (o : option A) (a : A) :
  ok_or e o = Ok a <-> o = Some a.
Proof. destruct o; cbn; naive_solver. Qed.

Lemma ensure_ok (b : bool) (e : E) (u : unit) :
  ensure b e = Ok u <-> b = true.
Proof. destruct b, u; cbn; naive_solver. Qed.
End ResultFacts.

#[export] Instance result_eq_dec {E A} `{EqDecision E, EqDecision A} :
  EqDecision (result E A).
Proof. solve_decision. Defined.

(** ** Automation *)

(** [inv_ok] decomposes every hypothesis that says a chain of [?]-style
    calls returned [Ok]. *)
Ltac inv_ok_step :=
  match goal with
  | H : Ok _ = Ok _ |- _ => apply Ok_inj in H; try subst
  | H : (_, _) = (_, _) |- _ => apply pair_equal_spec in H; destruct H; try subst
  | H : Err _ = Ok _ |- _ => discriminate H
  | H : Ok _ = Err _ |- _ => discriminate H
  | H : mret _ = Ok _ |- _ => unfold mret, result_ret in H
  | H : (_ ≫= _) = Ok _ |- _ =>
      let x := fresh "x" in let E1 := fresh "H" in
      apply result_bind_ok in H; destruct H as (x & E1 & H)
  | H : map_err _ _ = Ok _ |- _ => apply map_err_ok in H
  | H : ok_or _ _ = Ok _ |- _ => apply ok_or_ok in H
  | H : ensure _ _ = Ok _ |- _ => apply ensure_ok in H
  | H : (let (_, _) := ?p in _) = Ok _ |- _ => destruct p eqn:?
  | H : (if ?b then Err _ else _) = Ok _ |- _ => destruct b eqn:?; [discriminate H|]
  | H : (if ?b then _ else Err _) = Ok _ |- _ => destruct b eqn:?; [|discriminate H]
  | x : unit |- _ => destruct x
  end.
Ltac inv_ok := repeat inv_ok_step.

(** [bool_prop] turns boolean guards of the code into propositions. *)
Ltac bool_prop :=
  repeat match goal with
  | H : negb _ = true |- _ => apply negb_true_iff in H
  | H : negb _ = false |- _ => apply negb_false_iff in H
  | H : (_ && _) = true |- _ => apply andb_true_iff in H; destruct H
  | H : (_ || _) = false |- _ => apply orb_false_iff in H; destruct H
  | H : (_ =? _)%Z = true |- _ => apply Z.eqb_eq in H
  | H : (_ =? _)%Z = false |- _ => apply Z.eqb_neq in H
  | H : (_ <? _)%Z = true |- _ => apply Z.ltb_lt in H
  | H : (_ <? _)%Z = false |- _ => apply Z.ltb_ge in H
  | H : (_ <=? _)%Z = true |- _ => apply Z.leb_le in H
  | H : (_ <=? _)%Z = false |- _ => apply Z.leb_gt in H
  | H : bool_decide _ = true |- _ => apply bool_decide_eq_true in H
  | H : bool_decide _ = false |- _ => apply bool_decide_eq_false in H
  end.

(** ** Machine integers *)

Local Open Scope Z_scope.

Definition u8_max : Z := 2^8 - 1.
Definition u16_max : Z := 2^16 - 1.
Definition u32_max : Z := 2^32 - 1.
Definition u64_max : Z := 2^64 - 1.
(** The targets are 64-bit: [usize] is [u64]. *)
Definition usize_max : Z := u64_max.

Definition is_u8 (v : Z) : bool := (0 <=? v) && (v <=? u8_max).
Definition is_u16 (v : Z) : bool := (0 <=? v) && (v <=? u16_max).
Definition is_u32 (v : Z) : bool := (0 <=? v) && (v <=? u32_max).
Definition is_u64 (v : Z) : bool := (0 <=? v) && (v <=? u64_max).

(** [checked_add max a b] is [a.checked_add(b)] at the width with maximum [max]. *)
Definition checked_add (max a b : Z) : option Z :=
  if a + b <=? max then Some (a + b) else None.

(** [saturating_sub a b] is [a.saturating_sub(b)]. *)
Definition saturating_sub (a b : Z) : Z := Z.max 0 (a - b).

(** [wrapping_add max a b] is the wrap-around addition of atomics. *)
Definition wrapping_add (max a b : Z) : Z := (a + b) mod (max + 1).

(** [zlen l] is [l.len()]. *)
Definition zlen {A} (l : list A) : Z := Z.of_nat (length l).

Lemma checked_add_Some max a b c :
  checked_add max a b = Some c <-> c = a + b /\ a + b <= max.
Proof.
  unfold checked_add. destruct (Z.leb_spec (a + b) max); split.
  - intros [= <-]. lia.
  - intros [-> _]. reflexivity.
  - discriminate.
  - lia.
Qed.

Lemma zlen_nonneg {A} (l : list A) : 0 <= zlen l.
Proof. unfold zlen. lia. Qed.

Lemma zlen_app {A} (l k : list A) : zlen (l ++ k) = zlen l + zlen k.
Proof. unfold zlen. rewrite length_app. lia. Qed.

Lemma zlen_nil {A} : zlen (@nil A) = 0.
Proof. reflexivity. Qed.

Lemma zlen_cons {A} (x : A) l : zlen (x :: l) = 1 + zlen l.
Proof. unfold zlen. cbn [length]. lia. Qed.

(** [vec_get l i] is [l.get(i)]: [None] out of range. *)
Definition vec_get {A} (l : list A) (i : Z) : option A :=
  if (0 <=? i) && (i <? zlen l) then l !! Z.to_nat i else None.

Lemma vec_get_Some {A} (l : list A) i x :
  vec_get l i = Some x <-> 0 <= i /\ l !! Z.to_nat i = Some x.
Proof.
  unfold vec_get, zlen. destruct (_ && _) eqn:H.
  - bool_prop. naive_solver lia.
  - split; [discriminate|]. intros [H0 Hx]. apply lookup_lt_Some in Hx.
    apply andb_false_iff in H as [H|H]; bool_prop; lia.
Qed.

Lemma vec_get_nat {A} (l : list A) (i : nat) : vec_get l (Z.of_nat i) = l !! i.
Proof.
  unfold vec_get, zlen. destruct (_ && _) eqn:H.
  - now rewrite Nat2Z.id.
  - symmetry. apply lookup_ge_None. apply andb_false_iff in H as [H|H]; bool_prop; lia.
Qed.

Lemma elem_of_concat_map {A B} (f : A -> list B) (l : list A) (x : B) :
  x ∈ concat (map f l) <-> exists a, a ∈ l /\ x ∈ f a.
Proof.
  rewrite <- flat_map_concat_map, list_elem_of_In, in_flat_map.
  setoid_rewrite list_elem_of_In. done.
Qed.

(** How often [x] occurs in [l]. *)
Definition occ {A} `{EqDecision A} (l : list A) (x : A) : Z := zlen (filter (fun y => y = x) l).

Section Occurrences.
Context {A : Type} `{EqDecision A}.
Implicit Types (l : list A) (x y : A).

Lemma occ_nonneg l x : 0 <= occ l x.
Proof. apply zlen_nonneg. Qed.

Lemma occ_cons y l x : occ (y :: l) x = (if decide (y = x) then 1 else 0) + occ l x.
Proof. unfold occ. rewrite filter_cons. case_decide; [by rewrite zlen_cons|lia]. Qed.

Lemma occ_app l k x : occ (l ++ k) x = occ l x + occ k x.
Proof. unfold occ. by rewrite filter_app, zlen_app. Qed.

Lemma occ_middle l y k x :
  occ (l ++ y :: k) x = occ (l ++ k) x + (if decide (y = x) then 1 else 0).
Proof. rewrite !occ_app, occ_cons. lia. Qed.

Lemma occ_absent l x : x ∉ l -> occ l x = 0.
Proof.
  induction l as [|y l IH]; [done|]. rewrite not_elem_of_cons, occ_cons. intros [Hne Hl].
  rewrite decide_False by done. by rewrite IH.
Qed.
End Occurrences.

Create HintDb envoix discriminated.
#[export] Hint Resolve zlen_nonneg occ_nonneg : envoix.
