(* ===== verification/Bytes.v ===== *)
(** Bytes and strings: [u8] values, big-endian integers ([to_be_bytes] and
    [from_be_bytes]), and Rust's [str] as a byte list with the UTF-8 decoder
    of the standard library ([str::from_utf8], [str::chars]). *)

From stdpp Require Import prelude countable strings.
From Stdlib Require Import ZArith Lia Strings.Byte.
From S2P Require Import Prelude.

Local Open Scope Z_scope.

(** ** Bytes *)

#[export] Instance byte_eq_dec : EqDecision byte := Byte.byte_eq_dec.

#[export] Program Instance byte_countable : Countable byte :=
  inj_countable Byte.to_N Byte.of_N _.
Next Obligation. apply Byte.of_to_N. Qed.

(** The value of a [u8]. *)
Definition byte_val (b : byte) : Z := Z.of_N (Byte.to_N b).

(** The low eight bits of an integer: the cast [as u8]. *)
Definition byte_of (v : Z) : byte :=
  default Byte.x00 (Byte.of_N (Z.to_N (v mod 256))).

Lemma byte_val_bounds b : 0 <= byte_val b < 256.
Proof. unfold byte_val. pose proof (Byte.to_N_bounded b). lia. Qed.

Lemma byte_of_val b : byte_of (byte_val b) = b.
Proof.
  unfold byte_of. rewrite Z.mod_small by apply byte_val_bounds.
  unfold byte_val. now rewrite N2Z.id, Byte.of_to_N.
Qed.

Lemma byte_val_of v : byte_val (byte_of v) = v mod 256.
Proof.
  unfold byte_of, byte_val. pose proof (Z.mod_pos_bound v 256 ltac:(lia)).
  destruct (Byte.of_N _) as [b|] eqn:Hb; cbn.
  - apply Byte.to_of_N in Hb. lia.
  - apply Byte.of_N_None_iff in Hb. lia.
Qed.

(** ** Big-endian integers *)

(** [be_bytes n v] is [v.to_be_bytes()] for an [n]-byte integer. *)
Fixpoint be_bytes (n : nat) (v : Z) : list byte :=
  match n with
  | O => []
  | S n' => byte_of (Z.shiftr v (8 * Z.of_nat n')) :: be_bytes n' v
  end.

(** [be_value bs] is [from_be_bytes(bs)]. *)
Fixpoint be_value (bs : list byte) : Z :=
  match bs with
  | [] => 0
  | b :: bs' => Z.shiftl (byte_val b) (8 * Z.of_nat (length bs')) + be_value bs'
  end.

Lemma length_be_bytes n v : length (be_bytes n v) = n.
Proof. induction n; cbn; congruence. Qed.

Lemma be_value_bounds bs : 0 <= be_value bs < 2 ^ (8 * Z.of_nat (length bs)).
Proof.
  induction bs as [|b bs IH]; [cbn; lia|].
  cbn [be_value length]. rewrite Z.shiftl_mul_pow2 by lia.
  pose proof (byte_val_bounds b) as Hb.
  replace (8 * Z.of_nat (S (length bs))) with (8 + 8 * Z.of_nat (length bs)) by lia.
  rewrite Z.pow_add_r by lia. set (w := 2 ^ (8 * Z.of_nat (length bs))) in *.
  change (2 ^ 8) with 256. nia.
Qed.

Lemma be_bytes_mod n v : be_bytes n (v mod 2 ^ (8 * Z.of_nat n)) = be_bytes n v.
Proof.
  assert (Hgen : forall m w, (n <= m)%nat ->
    be_bytes n (w mod 2 ^ (8 * Z.of_nat m)) = be_bytes n w); [|by apply Hgen].
  induction n as [|n IH]; intros m w Hm; [reflexivity|].
  cbn [be_bytes]. rewrite IH by lia. f_equal.
  rewrite <- (byte_of_val (byte_of _)), byte_val_of.
  rewrite <- (byte_of_val (byte_of (Z.shiftr w _))), byte_val_of. f_equal.
  rewrite !Z.shiftr_div_pow2 by lia.
  replace (8 * Z.of_nat m)
    with (8 * Z.of_nat n + (8 + 8 * (Z.of_nat m - Z.of_nat n - 1))) by lia.
  change 256 with (2 ^ 8).
  rewrite <- !Z.land_ones, <- !Z.shiftr_div_pow2 by lia.
  apply Z.bits_inj'. intros i Hi.
  rewrite !Z.land_spec, !Z.shiftr_spec, Z.land_spec by lia.
  rewrite !Z.testbit_ones_nonneg by lia.
  destruct (Z.ltb_spec i 8); [|now rewrite !andb_false_r].
  rewrite (proj2 (Z.ltb_lt _ _)) by lia. now rewrite andb_true_r.
Qed.

Lemma be_value_be_bytes n v :
  be_value (be_bytes n v) = v mod 2 ^ (8 * Z.of_nat n).
Proof.
  induction n as [|n IH]; [now rewrite Z.mod_1_r|].
  cbn [be_bytes be_value].
  rewrite length_be_bytes, byte_val_of, IH.
  rewrite Z.shiftl_mul_pow2, Z.shiftr_div_pow2 by lia.
  replace (8 * Z.of_nat (S n)) with (8 * Z.of_nat n + 8) by lia.
  rewrite Z.pow_add_r by lia. change (2 ^ 8) with 256.
  rewrite Z.rem_mul_r by lia. lia.
Qed.

Lemma be_bytes_be_value bs : be_bytes (length bs) (be_value bs) = bs.
Proof.
  induction bs as [|b bs IH]; [reflexivity|].
  cbn [be_bytes be_value length].
  pose proof (be_value_bounds bs). pose proof (byte_val_bounds b).
  rewrite Z.shiftl_mul_pow2 by lia.
  rewrite Z.shiftr_div_pow2, Z.add_comm, Z.div_add, Z.div_small, Z.add_0_l by lia.
  rewrite byte_of_val. f_equal.
  rewrite <- be_bytes_mod, Z.mod_add, Z.mod_small by lia. exact IH.
Qed.

Lemma be_value_be_bytes_small n v :
  0 <= v < 2 ^ (8 * Z.of_nat n) -> be_value (be_bytes n v) = v.
Proof. intros. rewrite be_value_be_bytes. now apply Z.mod_small. Qed.

(** ** Strings *)

(** A Rust [str]: its bytes, which the type keeps valid UTF-8 ([utf8_valid]). *)
Abbreviation str := (list byte).

(** [lit s] is the byte string literal [b"..."]. *)
Definition lit (s : string) : str := Stdlib.Strings.String.list_byte_of_string s.
Arguments lit s%_string.
Lemma lit_inj s t : lit s = lit t -> s = t.
Proof.
  unfold lit. intros Heq. apply (f_equal Stdlib.Strings.String.string_of_list_byte) in Heq.
  now rewrite !Stdlib.Strings.String.string_of_list_byte_of_string in Heq.
Qed.

Definition in_range (lo hi : Z) (b : byte) : bool :=
  (lo <=? byte_val b) && (byte_val b <=? hi).
Definition is_cont (b : byte) : bool := in_range 0x80 0xBF b.
(** The six payload bits of a continuation byte. *)
Definition cont (b : byte) : Z := Z.land (byte_val b) 0x3F.

(** The scalar values of a byte string, [None] when it is not UTF-8: the
    table of well-formed sequences [str::from_utf8] accepts. *)
Fixpoint utf8_decode (bs : list byte) : option (list Z) :=
  match bs with
  | [] => Some []
  | b0 :: t0 =>
    let x := byte_val b0 in
    if x <? 0x80 then cons x <$> utf8_decode t0
    else match t0 with
    | [] => None
    | b1 :: t1 =>
      if (0xC2 <=? x) && (x <=? 0xDF) then
        if is_cont b1
        then cons (Z.shiftl (Z.land x 0x1F) 6 + cont b1) <$> utf8_decode t1
        else None
      else match t1 with
      | [] => None
      | b2 :: t2 =>
        if (0xE0 <=? x) && (x <=? 0xEF) then
          if (if x =? 0xE0 then in_range 0xA0 0xBF b1
              else if x =? 0xED then in_range 0x80 0x9F b1
              else is_cont b1) && is_cont b2
          then cons (Z.shiftl (Z.land x 0x0F) 12 + Z.shiftl (cont b1) 6 + cont b2)
                 <$> utf8_decode t2
          else None
        else match t2 with
        | [] => None
        | b3 :: t3 =>
          if (0xF0 <=? x) && (x <=? 0xF4) then
            if (if x =? 0xF0 then in_range 0x90 0xBF b1
                else if x =? 0xF4 then in_range 0x80 0x8F b1
                else is_cont b1) && is_cont b2 && is_cont b3
            then cons (Z.shiftl (Z.land x 0x07) 18 + Z.shiftl (cont b1) 12
                       + Z.shiftl (cont b2) 6 + cont b3) <$> utf8_decode t3
            else None
          else None
        end
      end
    end
  end.

Definition utf8_valid (bs : list byte) : bool :=
  match utf8_decode bs with Some _ => true | None => false end.

(** [from_utf8 bs] is [str::from_utf8(bs)]. *)
Definition from_utf8 (bs : list byte) : option str :=
  if utf8_valid bs then Some bs else None.

(** [chars s] is [s.chars()] of a valid string. *)
Definition chars (s : str) : list Z := default [] (utf8_decode s).

(** [char::is_control]: general category Cc. *)
Definition is_control (c : Z) : bool :=
  (c <=? 0x1F) || ((0x7F <=? c) && (c <=? 0x9F)).

(** Lexicographic comparison, as [Ord] is derived for slices. *)
Section LexCmp.
Context {A : Type} (cmp : A -> A -> comparison).

Fixpoint lex_cmp (s t : list A) : comparison :=
  match s, t with
  | [], [] => Eq
  | [], _ :: _ => Lt
  | _ :: _, [] => Gt
  | a :: s', b :: t' =>
    match cmp a b with
    | Eq => lex_cmp s' t'
    | c => c
    end
  end.

Context (cmp_eq : forall a b, cmp a b = Eq <-> a = b).
Context (cmp_antisym : forall a b, cmp b a = CompOpp (cmp a b)).
Context (cmp_trans : forall a b c, cmp a b = Lt -> cmp b c = Lt -> cmp a c = Lt).

Lemma lex_cmp_eq s t : lex_cmp s t = Eq <-> s = t.
Proof.
  revert t. induction s as [|a s IH]; intros [|b t]; cbn; try easy.
  pose proof (cmp_eq a b). destruct (cmp a b); [|naive_solver..].
  rewrite IH. naive_solver.
Qed.

Lemma lex_cmp_antisym s t : lex_cmp t s = CompOpp (lex_cmp s t).
Proof.
  revert t. induction s as [|a s IH]; intros [|b t]; cbn; try easy.
  rewrite (cmp_antisym a b). destruct (cmp a b); cbn; auto.
Qed.

Lemma lex_cmp_trans s t u :
  lex_cmp s t = Lt -> lex_cmp t u = Lt -> lex_cmp s u = Lt.
Proof.
  revert t u. induction s as [|a s IH]; intros [|b t] [|c u]; cbn; try easy.
  destruct (cmp a b) eqn:Hab; [|destruct (cmp b c) eqn:Hbc|easy].
  - apply cmp_eq in Hab as ->. destruct (cmp b c); eauto.
  - intros _ _. apply cmp_eq in Hbc as ->. now rewrite Hab.
  - intros _ _. now rewrite (cmp_trans _ _ _ Hab Hbc).
  - easy.
Qed.

Lemma lex_cmp_app_l p s t : lex_cmp (p ++ s) (p ++ t) = lex_cmp s t.
Proof.
  induction p as [|a p IH]; cbn; [done|].
  now rewrite (proj2 (cmp_eq a a) eq_refl).
Qed.
End LexCmp.

Lemma byte_val_inj a b : byte_val a = byte_val b -> a = b.
Proof. intros H. rewrite <- (byte_of_val a), <- (byte_of_val b). congruence. Qed.

Definition byte_cmp (a b : byte) : comparison := byte_val a ?= byte_val b.

Lemma byte_cmp_eq a b : byte_cmp a b = Eq <-> a = b.
Proof.
  unfold byte_cmp. rewrite Z.compare_eq_iff. split; [apply byte_val_inj|congruence].
Qed.

Lemma byte_cmp_antisym a b : byte_cmp b a = CompOpp (byte_cmp a b).
Proof. apply Z.compare_antisym. Qed.

Lemma byte_cmp_trans a b c : byte_cmp a b = Lt -> byte_cmp b c = Lt -> byte_cmp a c = Lt.
Proof. unfold byte_cmp. rewrite !Z.compare_lt_iff. lia. Qed.

(** [str::cmp]: lexicographic on bytes. *)
Definition str_cmp : str -> str -> comparison := lex_cmp byte_cmp.

Lemma str_cmp_eq s t : str_cmp s t = Eq <-> s = t.
Proof. apply lex_cmp_eq, byte_cmp_eq. Qed.

Lemma str_cmp_antisym s t : str_cmp t s = CompOpp (str_cmp s t).
Proof. apply lex_cmp_antisym, byte_cmp_antisym. Qed.

Lemma str_cmp_trans s t u : str_cmp s t = Lt -> str_cmp t u = Lt -> str_cmp s u = Lt.
Proof. apply lex_cmp_trans; [apply byte_cmp_eq|apply byte_cmp_trans]. Qed.

(** The order of paths: component by component, a directory before what is in it. *)
Definition path_cmp : list str -> list str -> comparison := lex_cmp str_cmp.
Definition path_lt (p q : list str) : Prop := path_cmp p q = Lt.

#[export] Instance path_lt_trans : Transitive path_lt.
Proof. intros p q r. apply lex_cmp_trans; [apply str_cmp_eq|apply str_cmp_trans]. Qed.

Lemma path_lt_irrefl p : ~ path_lt p p.
Proof.
  unfold path_lt, path_cmp.
  rewrite (proj2 (lex_cmp_eq _ str_cmp_eq p p) eq_refl). discriminate.
Qed.

Lemma path_lt_extend p a q : path_lt p (p ++ a :: q).
Proof.
  unfold path_lt, path_cmp. rewrite <- (app_nil_r p) at 1.
  now rewrite (lex_cmp_app_l _ str_cmp_eq).
Qed.

Lemma path_lt_siblings p a b q r :
  str_cmp a b = Lt -> path_lt (p ++ a :: q) (p ++ b :: r).
Proof.
  unfold path_lt, path_cmp. rewrite (lex_cmp_app_l _ str_cmp_eq). cbn. now intros ->.
Qed.

(** A path separator, as [matches!(character, '/' | '\\')] tests it. *)
Definition is_separator (c : Z) : bool := (c =? 0x2F) || (c =? 0x5C).

(** [bytes[from..from + len]], for a range inside [bytes]. *)
Definition slice (bs : list byte) (from len : nat) : list byte := take len (drop from bs).

Lemma slice_parts (a b c : list byte) :
  slice (a ++ b ++ c) (length a) (length b) = b.
Proof. unfold slice. by rewrite drop_app_length, take_app_length. Qed.

Lemma length_slice bs from len :
  (from + len <= length bs)%nat -> length (slice bs from len) = len.
Proof. intros H. unfold slice. rewrite length_take, length_drop. lia. Qed.

Lemma be_bytes_slice bs from len :
  (from + len <= length bs)%nat -> be_bytes len (be_value (slice bs from len)) = slice bs from len.
Proof. intros H. rewrite <- (length_slice bs from len H) at 1. apply be_bytes_be_value. Qed.
