(* ===== verification/Text.v ===== *)
(** Text as the invitations use it: the operations of the standard library on
    [str] that the parsers are written with ([trim], [split_once], [split],
    [to_ascii_lowercase], [from_str_radix], [to_string] of integers).  A [str] is
    its UTF-8 bytes; a separator is an ASCII byte.  Then socket
    addresses as text: the parser of [std::net::SocketAddr], which the invitations
    apply to the address of a broker; it works on bytes, and a reader that fails
    leaves the input where it was. *)

From stdpp Require Import prelude strings pretty.
From Stdlib Require Import ZArith Lia Strings.Byte.
From S2P Require Import Prelude Bytes.

Local Open Scope Z_scope.

(** ** Bytes *)

Definition eq_byte (a b : byte) : bool := bool_decide (a = b).

Definition is_ascii_lowercase (b : byte) : bool := in_range 97 122 b.
Definition is_ascii_uppercase (b : byte) : bool := in_range 65 90 b.
(** [u8::is_ascii] of every byte. *)
Definition is_ascii (s : str) : bool := forallb (fun b => byte_val b <? 128) s.
Definition byte_to_lowercase (b : byte) : byte :=
  if is_ascii_uppercase b then byte_of (byte_val b + 32) else b.
(** [str::to_ascii_lowercase] *)
Definition to_ascii_lowercase (s : str) : str := map byte_to_lowercase s.

(** ** White space *)

(** The UTF-8 forms of the scalar values with [char::is_whitespace], one, two
    and three bytes long: U+0009 to U+000D and U+0020; U+0085 and U+00A0; U+1680,
    U+2000 to U+200A, U+2028, U+2029, U+202F, U+205F and U+3000. *)
Definition is_ws1 (a : byte) : bool := in_range 0x09 0x0D a || eq_byte a x20.
Definition is_ws2 (a b : byte) : bool := eq_byte a xc2 && (eq_byte b x85 || eq_byte b xa0).
Definition is_ws3 (a b c : byte) : bool :=
  (eq_byte a xe1 && eq_byte b x9a && eq_byte c x80)
  || (eq_byte a xe2 && eq_byte b x80
      && (in_range 0x80 0x8A c || eq_byte c xa8 || eq_byte c xa9 || eq_byte c xaf))
  || (eq_byte a xe2 && eq_byte b x81 && eq_byte c x9f)
  || (eq_byte a xe3 && eq_byte b x80 && eq_byte c x80).

(** [str::trim_start] *)
Fixpoint str_trim_start (s : str) : str :=
  match s with
  | [] => []
  | a :: s1 =>
    if is_ws1 a then str_trim_start s1
    else match s1 with
    | [] => s
    | b :: s2 =>
      if is_ws2 a b then str_trim_start s2
      else match s2 with
      | [] => s
      | c :: s3 => if is_ws3 a b c then str_trim_start s3 else s
      end
    end
  end.
(** The same on a string from its end. *)
Fixpoint trim_reversed (s : str) : str :=
  match s with
  | [] => []
  | a :: s1 =>
    if is_ws1 a then trim_reversed s1
    else match s1 with
    | [] => s
    | b :: s2 =>
      if is_ws2 b a then trim_reversed s2
      else match s2 with
      | [] => s
      | c :: s3 => if is_ws3 c b a then trim_reversed s3 else s
      end
    end
  end.
(** [str::trim] *)
Definition str_trim (s : str) : str := rev (trim_reversed (rev (str_trim_start s))).

(** ** Splitting *)

(** [s.split_once(sep)] *)
Fixpoint split_once (sep : byte) (s : str) : option (str * str) :=
  match s with
  | [] => None
  | b :: rest =>
    if eq_byte b sep then Some ([], rest)
    else prod_map (cons b) id <$> split_once sep rest
  end.
(** [s.split(sep)]: at least one part. *)
Fixpoint str_split (sep : byte) (s : str) : list str :=
  match s with
  | [] => [[]]
  | b :: rest =>
    if eq_byte b sep then [] :: str_split sep rest
    else match str_split sep rest with
         | part :: parts => (b :: part) :: parts
         | [] => [[b]]
         end
  end.

(** ** Numbers *)

(** [char::to_digit(radix)] of an ASCII character. *)
Definition to_digit (radix : Z) (b : byte) : option Z :=
  let v := byte_val b in
  let d := if (48 <=? v) && (v <=? 57) then v - 48
           else if (97 <=? v) && (v <=? 122) then v - 87
           else if (65 <=? v) && (v <=? 90) then v - 55
           else 36 in
  if d <? radix then Some d else None.

(** The digits of an unsigned integer with maximum [max], with checked steps. *)
Fixpoint digits_value (radix max acc : Z) (s : str) : option Z :=
  match s with
  | [] => Some acc
  | b :: rest =>
    d ← to_digit radix b;
    let acc := acc * radix + d in
    if acc <=? max then digits_value radix max acc rest else None
  end.
(** [uN::from_str_radix(s, radix)]: an optional plus sign and digits. *)
Definition from_str_radix (radix max : Z) (s : str) : option Z :=
  match s with
  | [] => None
  | b :: rest =>
    if eq_byte b x2b then match rest with [] => None | _ => digits_value radix max 0 rest end
    else digits_value radix max 0 s
  end.
(** [s.parse::<u64>()] *)
Definition parse_u64 : str -> option Z := from_str_radix 10 u64_max.

(** [n.to_string()] *)
Definition to_decimal (n : Z) : str := lit (pretty (Z.to_N n)).

(** ** Lemmas *)

Lemma eq_byte_refl b : eq_byte b b = true.
Proof. by apply bool_decide_eq_true. Qed.
Lemma eq_byte_ne a b : a <> b -> eq_byte a b = false.
Proof. apply bool_decide_eq_false. Qed.

(** What has no separator is one part. *)
Lemma split_once_none sep s : sep ∉ s -> split_once sep s = None.
Proof.
  induction s as [|b s IH]; intros Hs; [done|]. apply not_elem_of_cons in Hs as [Hne Hs]. cbn.
  by rewrite eq_byte_ne, IH by congruence.
Qed.
Lemma split_once_app sep s t : sep ∉ s -> split_once sep (s ++ sep :: t) = Some (s, t).
Proof.
  induction s as [|b s IH]; intros Hs; cbn; [by rewrite eq_byte_refl|].
  apply not_elem_of_cons in Hs as [Hne Hs]. by rewrite eq_byte_ne, IH by congruence.
Qed.
Lemma str_split_one sep s : sep ∉ s -> str_split sep s = [s].
Proof.
  induction s as [|b s IH]; intros Hs; [done|]. apply not_elem_of_cons in Hs as [Hne Hs]. cbn.
  by rewrite eq_byte_ne, IH by congruence.
Qed.
Lemma str_split_app sep s t : sep ∉ s -> str_split sep (s ++ sep :: t) = s :: str_split sep t.
Proof.
  induction s as [|b s IH]; intros Hs; cbn; [by rewrite eq_byte_refl|].
  apply not_elem_of_cons in Hs as [Hne Hs]. by rewrite eq_byte_ne, IH by congruence.
Qed.

(** A string of ASCII that neither starts nor ends with white space is trimmed. *)
Definition plain (b : byte) : bool := (0x21 <=? byte_val b) && (byte_val b <=? 0x7E).

Lemma plain_ws b : plain b = true -> is_ws1 b = false.
Proof. by destruct b. Qed.
Lemma plain_ws2 a b : plain a = true -> is_ws2 a b = false.
Proof. by destruct a. Qed.
Lemma plain_ws2' a b : plain b = true -> is_ws2 a b = false.
Proof. unfold is_ws2. intros Hb. destruct (eq_byte a xc2); [|done]. by destruct b. Qed.
Lemma plain_ws3 a b c : plain a = true -> is_ws3 a b c = false.
Proof. by destruct a. Qed.
Lemma plain_ws3' a b c : plain c = true -> is_ws3 a b c = false.
Proof.
  unfold is_ws3. intros Hc.
  destruct (eq_byte a xe1), (eq_byte a xe2), (eq_byte a xe3), (eq_byte b x9a), (eq_byte b x80), (eq_byte b x81);
    by destruct c.
Qed.

Lemma trim_start_plain b s : plain b = true -> str_trim_start (b :: s) = b :: s.
Proof.
  intros Hb. cbn. rewrite plain_ws by done. destruct s as [|c s]; [done|]. rewrite plain_ws2 by done.
  destruct s as [|d s]; [done|]. by rewrite plain_ws3.
Qed.
Lemma trim_reversed_plain b s : plain b = true -> trim_reversed (b :: s) = b :: s.
Proof.
  intros Hb. cbn. rewrite plain_ws by done. destruct s as [|c s]; [done|]. rewrite plain_ws2' by done.
  destruct s as [|d s]; [done|]. by rewrite plain_ws3'.
Qed.
Lemma str_trim_plain a s b : plain a = true -> plain b = true -> str_trim (a :: s ++ [b]) = a :: s ++ [b].
Proof.
  intros Ha Hb. unfold str_trim. rewrite trim_start_plain by done.
  change (a :: s ++ [b]) with ((a :: s) ++ [b]). rewrite rev_app_distr. cbn [rev app].
  rewrite trim_reversed_plain by done. cbn [rev]. by rewrite rev_app_distr, rev_involutive.
Qed.

Lemma trim_start_length s : (length (str_trim_start s) <= length s)%nat.
Proof.
  induction s as [s IH] using (induction_ltof1 _ (@length byte)). unfold ltof in IH.
  destruct s as [|a s]; [cbn; lia|]. cbn [str_trim_start].
  destruct (is_ws1 a). { specialize (IH s ltac:(cbn; lia)). cbn. lia. }
  destruct s as [|b s]; [done|]. destruct (is_ws2 a b). { specialize (IH s ltac:(cbn; lia)). cbn. lia. }
  destruct s as [|c s]; [done|]. destruct (is_ws3 a b c); [|done].
  specialize (IH s ltac:(cbn; lia)). cbn. lia.
Qed.

(** The first character is not white space. *)
Definition starts_bare (s : str) : bool :=
  match s with
  | [] => true
  | [a] => negb (is_ws1 a)
  | [a; b] => negb (is_ws1 a || is_ws2 a b)
  | a :: b :: c :: _ => negb (is_ws1 a || is_ws2 a b || is_ws3 a b c)
  end.

Lemma trim_start_id s : str_trim_start s = s <-> starts_bare s = true.
Proof.
  assert (Hlt : forall (s t : str), (length t < length s)%nat -> str_trim_start t = s -> False).
  { intros s1 t Hl Heq. pose proof (trim_start_length t) as Hle. rewrite Heq in Hle. lia. }
  destruct s as [|a s]; [done|]. cbn [str_trim_start starts_bare].
  destruct (is_ws1 a) eqn:H1; cbn [orb negb].
  { split; [|by destruct s as [|? [|? ?]]]. intros Heq. exfalso. eapply Hlt; [|exact Heq]. cbn. lia. }
  destruct s as [|b s]; [done|]. destruct (is_ws2 a b) eqn:H2; cbn [orb negb].
  { split; [|by destruct s]. intros Heq. exfalso. eapply Hlt; [|exact Heq]. cbn. lia. }
  destruct s as [|c s]; [done|]. destruct (is_ws3 a b c) eqn:H3; cbn [orb negb]; [|done].
  split; [|done]. intros Heq. exfalso. eapply Hlt; [|exact Heq]. cbn. lia.
Qed.

Lemma trim_start_bare s : starts_bare (str_trim_start s) = true.
Proof.
  induction s as [s IH] using (induction_ltof1 _ (@length byte)). unfold ltof in IH.
  destruct s as [|a s]; [done|]. cbn [str_trim_start].
  destruct (is_ws1 a) eqn:H1. { apply IH. cbn. lia. }
  destruct s as [|b s]; [cbn; by rewrite H1|].
  destruct (is_ws2 a b) eqn:H2. { apply IH. cbn. lia. }
  destruct s as [|c s]; [cbn; by rewrite H1, H2|].
  destruct (is_ws3 a b c) eqn:H3; [|cbn; by rewrite H1, H2, H3]. apply IH. cbn. lia.
Qed.

Lemma bare_prefix s t : starts_bare (s ++ t) = true -> starts_bare s = true.
Proof.
  destruct s as [|a [|b [|c s]]]; cbn; [done| | |done].
  - destruct (is_ws1 a); [by destruct t as [|? [|? ?]]|done].
  - destruct (is_ws1 a), (is_ws2 a b); by destruct t.
Qed.

(** From the end, likewise. *)
Lemma trim_reversed_suffix s : exists p, s = p ++ trim_reversed s.
Proof.
  induction s as [s IH] using (induction_ltof1 _ (@length byte)). unfold ltof in IH.
  destruct s as [|a s]; [by exists []|]. cbn [trim_reversed].
  destruct (is_ws1 a). { destruct (IH s ltac:(cbn; lia)) as [p Hp]. exists (a :: p). cbn. by rewrite <- Hp. }
  destruct s as [|b s]; [by exists []|].
  destruct (is_ws2 b a). { destruct (IH s ltac:(cbn; lia)) as [p Hp]. exists (a :: b :: p). cbn. by rewrite <- Hp. }
  destruct s as [|c s]; [by exists []|]. destruct (is_ws3 c b a); [|by exists []].
  destruct (IH s ltac:(cbn; lia)) as [p Hp]. exists (a :: b :: c :: p). cbn. by rewrite <- Hp.
Qed.
Lemma trim_reversed_idem s : trim_reversed (trim_reversed s) = trim_reversed s.
Proof.
  induction s as [s IH] using (induction_ltof1 _ (@length byte)). unfold ltof in IH.
  destruct s as [|a s]; [done|]. cbn [trim_reversed].
  destruct (is_ws1 a) eqn:H1. { apply IH. cbn. lia. }
  destruct s as [|b s]; [cbn; by rewrite H1|].
  destruct (is_ws2 b a) eqn:H2. { apply IH. cbn. lia. }
  destruct s as [|c s]; [cbn; by rewrite H1, H2|].
  destruct (is_ws3 c b a) eqn:H3; [|cbn; by rewrite H1, H2, H3]. apply IH. cbn. lia.
Qed.

Lemma str_trim_idem s : str_trim (str_trim s) = str_trim s.
Proof.
  unfold str_trim at 1 3. set (t := str_trim_start s).
  assert (Hu : str_trim_start (rev (trim_reversed (rev t))) = rev (trim_reversed (rev t))).
  { apply trim_start_id. destruct (trim_reversed_suffix (rev t)) as [p Hp].
    apply (bare_prefix _ (rev p)). rewrite <- rev_app_distr, <- Hp, rev_involutive. apply trim_start_bare. }
  unfold str_trim. fold t. rewrite Hu, rev_involutive. by rewrite trim_reversed_idem.
Qed.

(** Decimals. *)
Definition is_digit (b : byte) : bool := in_range 48 57 b.

Lemma pretty_digit x : (x < 10)%N -> exists b, lit (String (pretty_N_char x) "") = [b]
  /\ is_digit b = true /\ to_digit 10 b = Some (Z.of_N x).
Proof.
  intros Hx. assert (x = 0 \/ x = 1 \/ x = 2 \/ x = 3 \/ x = 4 \/ x = 5 \/ x = 6 \/ x = 7 \/ x = 8 \/ x = 9)%N
    as Hcase by lia.
  repeat (destruct Hcase as [->|Hcase]; [eexists; by split_and!|]). subst x. eexists. by split_and!.
Qed.
Lemma decimal_go x s max : Z.of_N x <= max ->
  digits_value 10 max 0 (lit (pretty_N_go x s)) = digits_value 10 max (Z.of_N x) (lit s).
Proof.
  revert s. induction (N.lt_wf_0 x) as [x _ IH]. intros s Hmax.
  destruct (N.eq_0_gt_0_cases x) as [->|Hx]; [done|].
  rewrite pretty_N_go_step by done. pose proof (N.div_lt x 10 Hx eq_refl). rewrite IH by lia.
  pose proof (N.mod_lt x 10 ltac:(done)) as Hm. destruct (pretty_digit _ Hm) as (b & Hb & _ & Hd).
  change (lit (String (pretty_N_char (x `mod` 10)) s)) with (lit (String (pretty_N_char (x `mod` 10)) "") ++ lit s).
  rewrite Hb. cbn [app digits_value]. rewrite Hd. cbn [mbind option_bind].
  pose proof (N.div_mod x 10 ltac:(done)) as Hdm.
  replace (Z.of_N (x / 10) * 10 + Z.of_N (x `mod` 10)) with (Z.of_N x) by lia.
  by rewrite (proj2 (Z.leb_le _ _) Hmax).
Qed.

Lemma decimal_go_digits x s : forallb is_digit (lit s) = true -> forallb is_digit (lit (pretty_N_go x s)) = true.
Proof.
  revert s. induction (N.lt_wf_0 x) as [x _ IH]. intros s Hs.
  destruct (N.eq_0_gt_0_cases x) as [->|Hx]; [done|].
  rewrite pretty_N_go_step by done. apply IH; [by apply N.div_lt|].
  pose proof (N.mod_lt x 10 ltac:(done)) as Hm. destruct (pretty_digit _ Hm) as (b & Hb & Hd & _).
  change (lit (String (pretty_N_char (x `mod` 10)) s)) with (lit (String (pretty_N_char (x `mod` 10)) "") ++ lit s).
  rewrite Hb. cbn. by rewrite Hd.
Qed.
Lemma decimal_go_nonempty x s : (0 < x)%N \/ lit s <> [] -> lit (pretty_N_go x s) <> [].
Proof.
  revert s. induction (N.lt_wf_0 x) as [x _ IH]. intros s Hs.
  destruct (N.eq_0_gt_0_cases x) as [->|Hx]; [destruct Hs; [lia|done]|].
  rewrite pretty_N_go_step by done. apply IH; [by apply N.div_lt|]. by right.
Qed.

Lemma to_decimal_digits n : forallb is_digit (to_decimal n) = true /\ to_decimal n <> [].
Proof.
  unfold to_decimal, pretty, pretty_N. case_decide as H0; [done|].
  split; [by apply decimal_go_digits|]. apply decimal_go_nonempty. lia.
Qed.

(** A printed integer is read back. *)
Lemma parse_u64_decimal n : 0 <= n <= u64_max -> parse_u64 (to_decimal n) = Some n.
Proof.
  intros Hn. destruct (to_decimal_digits n) as [Hd Hne].
  assert (Hval : digits_value 10 u64_max 0 (to_decimal n) = Some n).
  { unfold to_decimal, pretty, pretty_N. case_decide as H0; [change (Some 0 = Some n); f_equal; lia|].
    rewrite decimal_go by lia. cbn. f_equal. lia. }
  unfold parse_u64, from_str_radix. destruct (to_decimal n) as [|b s]; [done|].
  cbn in Hd. bool_prop. rewrite eq_byte_ne; [done|]. by intros ->.
Qed.

Inductive SocketAddr :=
| SocketAddrV4 (octets : list Z) (port : Z)
| SocketAddrV6 (segments : list Z) (scope_id port : Z).

#[export] Instance SocketAddr_eq_dec : EqDecision SocketAddr.
Proof. solve_decision. Defined.

Abbreviation reader A := (str -> option (A * str)).

(** [read_given_char] *)
Definition read_given_char (c : byte) : reader unit := fun s =>
  match s with b :: rest => if eq_byte b c then Some (tt, rest) else None | [] => None end.

(** [read_separator]: nothing before the first element. *)
Definition read_separator {A} (sep : byte) (index : nat) (inner : reader A) : reader A := fun s =>
  match index with
  | O => inner s
  | S _ => '(_, s) ← read_given_char sep s; inner s
  end.

(** The digits at the start of the input. *)
Fixpoint take_digits (radix : Z) (s : str) : list Z * str :=
  match s with
  | [] => ([], [])
  | b :: rest =>
    match to_digit radix b with
    | Some d => let '(ds, rest) := take_digits radix rest in (d :: ds, rest)
    | None => ([], s)
    end
  end.
(** Their value, [None] past [max]. *)
Definition checked_value (radix max : Z) (ds : list Z) : option Z :=
  foldl (fun acc d => acc ≫= fun v => if v * radix + d <=? max then Some (v * radix + d) else None)
    (Some 0) ds.

(** [read_number] of an integer type with maximum [max]. *)
Definition read_number (radix : Z) (max_digits : option nat) (allow_zero_prefix : bool) (max : Z)
    : reader Z := fun s =>
  let '(ds, rest) := take_digits radix s in
  let has_leading_zero := match s with b :: _ => eq_byte b x30 | [] => false end in
  if match max_digits with Some m => (m <? length ds)%nat | None => false end then None
  else if (length ds =? 0)%nat then None
  else if negb allow_zero_prefix && has_leading_zero && (1 <? length ds)%nat then None
  else v ← checked_value radix max ds; Some (v, rest).

Fixpoint read_octets (n index : nat) : reader (list Z) := fun s =>
  match n with
  | O => Some ([], s)
  | S n =>
    '(v, s) ← read_separator x2e index (read_number 10 (Some 3%nat) false u8_max) s;
    '(vs, s) ← read_octets n (S index) s;
    Some (v :: vs, s)
  end.
Definition read_ipv4_addr : reader (list Z) := read_octets 4 0.

(** [read_groups]: as many groups as there are, up to the slots that are left,
    and whether the last two are an IPv4 address. *)
Fixpoint read_groups (slots index : nat) (s : str) : list Z * bool * str :=
  match slots with
  | O => ([], false, s)
  | S rest =>
    match (if (0 <? rest)%nat then read_separator x3a index read_ipv4_addr s else None) with
    | Some ([a; b; c; d], s) => ([a * 256 + b; c * 256 + d], true, s)
    | _ =>
      match read_separator x3a index (read_number 16 (Some 4%nat) true u16_max) s with
      | Some (g, s) => let '(gs, ipv4, s) := read_groups rest (S index) s in (g :: gs, ipv4, s)
      | None => ([], false, s)
      end
    end
  end.

Definition read_ipv6_addr : reader (list Z) := fun s =>
  let '(head, head_ipv4, s) := read_groups 8 0 s in
  if (length head =? 8)%nat then Some (head, s)
  else if (head_ipv4 : bool) then None
  else
    '(_, s) ← read_given_char x3a s;
    '(_, s) ← read_given_char x3a s;
    let '(tail, _, s) := read_groups (8 - (length head + 1)) 0 s in
    Some (head ++ replicate (8 - (length head + length tail)) 0 ++ tail, s).

Definition read_port : reader Z := fun s =>
  '(_, s) ← read_given_char x3a s; read_number 10 None true u16_max s.
Definition read_scope_id : reader Z := fun s =>
  '(_, s) ← read_given_char x25 s; read_number 10 None true u32_max s.

Definition read_socket_addr_v4 : reader SocketAddr := fun s =>
  '(octets, s) ← read_ipv4_addr s;
  '(port, s) ← read_port s;
  Some (SocketAddrV4 octets port, s).
Definition read_socket_addr_v6 : reader SocketAddr := fun s =>
  '(_, s) ← read_given_char x5b s;
  '(segments, s) ← read_ipv6_addr s;
  let '(scope_id, s) := default (0, s) (read_scope_id s) in
  '(_, s) ← read_given_char x5d s;
  '(port, s) ← read_port s;
  Some (SocketAddrV6 segments scope_id port, s).

(** [s.parse::<SocketAddr>()] *)
Definition parse_socket_addr (s : str) : option SocketAddr :=
  match (match read_socket_addr_v4 s with Some r => Some r | None => read_socket_addr_v6 s end) with
  | Some (addr, []) => Some addr
  | _ => None
  end.

(** Addresses of the documentation. *)
Example parse_v4 : parse_socket_addr (lit "127.0.0.1:8080") = Some (SocketAddrV4 [127; 0; 0; 1] 8080).
Proof. reflexivity. Qed.
Example parse_v6 :
  parse_socket_addr (lit "[2001:db8::1]:443") = Some (SocketAddrV6 [0x2001; 0xdb8; 0; 0; 0; 0; 0; 1] 0 443).
Proof. reflexivity. Qed.
Example parse_v6_mapped :
  parse_socket_addr (lit "[::ffff:10.0.0.1%3]:1") = Some (SocketAddrV6 [0; 0; 0; 0; 0; 0xffff; 0xa00; 1] 3 1).
Proof. reflexivity. Qed.
Example parse_octal : parse_socket_addr (lit "127.0.0.01:80") = None.
Proof. reflexivity. Qed.
Example parse_big_port : parse_socket_addr (lit "127.0.0.1:65536") = None.
Proof. reflexivity. Qed.
