(* ===== verification/Reader.v ===== *)
(** The bounded byte reader the three codecs of envoix-protocol share
    ([Reader] of manifest_v2.rs, [Reader] of manifest_v2_frames.rs and
    [PayloadReader] of lib.rs have the same fields and the same [take] step,
    and differ in the error values only), as a state-and-error monad, with the
    two laws the codec proofs are built from:

    - [reads p out a]: on input that starts with [out], [p] returns [a] and
      consumes exactly [out] (decoding what was encoded);
    - [accepts p P]: whenever [p] returns [a], the bytes it consumed satisfy
      [P a] (what was decoded could only have been encoded that way). *)

From stdpp Require Import prelude.
From Stdlib Require Import ZArith Lia Strings.Byte.
From S2P Require Import Prelude Bytes.

Local Open Scope Z_scope.

(** ** Operations *)

(** [struct Reader { bytes, offset }] *)
Record Reader := mkReader { rd_bytes : list byte; rd_offset : Z }.

Definition Reader_new (bytes : list byte) : Reader := mkReader bytes 0.

(** [fn remaining(&self) -> usize] *)
Definition remaining (r : Reader) : Z :=
  saturating_sub (zlen (rd_bytes r)) (rd_offset r).

(** [fn remaining_slice(&self) -> &[u8]] *)
Definition remaining_slice (r : Reader) : list byte :=
  drop (Z.to_nat (rd_offset r)) (rd_bytes r).

Definition parser (E A : Type) : Type := Reader -> result E (A * Reader).

#[export] Instance parser_ret {E} : MRet (parser E) := fun A a r => Ok (a, r).
#[export] Instance parser_bind {E} : MBind (parser E) :=
  fun A B f p r => match p r with Ok (a, r') => f a r' | Err e => Err e end.

(** A computation that does not touch the reader. *)
Definition lift {E A} (m : result E A) : parser E A :=
  fun r => match m with Ok a => Ok (a, r) | Err e => Err e end.

(** The two queries of the reader, which leave it as it is. *)
Definition r_remaining {E} : parser E Z := fun r => Ok (remaining r, r).
Definition r_remaining_slice {E} : parser E (list byte) := fun r => Ok (remaining_slice r, r).

Definition fail {E A} (e : E) : parser E A := lift (Err e).

Section Reads.
Context {E : Type} (overflow truncated : E).

(** [read_exact], [exact], [take]: checked end offset, bounds-checked slice. *)
Definition read_exact (len : Z) : parser E (list byte) := fun r =>
  match checked_add usize_max (rd_offset r) len with
  | None => Err overflow
  | Some stop =>
    if stop <=? zlen (rd_bytes r)
    then Ok (take (Z.to_nat len) (remaining_slice r), mkReader (rd_bytes r) stop)
    else Err truncated
  end.

(** [read_array::<N>]: the slice converted to [[u8; N]]. *)
Definition read_array (n : Z) : parser E (list byte) :=
  bs ← read_exact n;
  if zlen bs =? n then mret bs else fail truncated.

Definition read_u8 : parser E Z :=
  bs ← read_exact 1;
  match bs with
  | b :: _ => mret (byte_val b)
  | [] => fail truncated
  end.

Definition read_be (n : Z) : parser E Z :=
  bs ← read_array n;
  mret (be_value bs).
End Reads.

(** [read_n n p] runs the reader [p i] for [i] from [first] to [first + n - 1]:
    the loops [for index in 0..count] that push one item per turn. *)
Fixpoint read_n {E A} (n : nat) (first : Z) (p : Z -> parser E A) : parser E (list A) :=
  match n with
  | O => mret []
  | S n' => x ← p first; xs ← read_n n' (first + 1) p; mret (x :: xs)
  end.

(** [finish]: nothing may be left. *)
Definition finish {E} (trailing : E) : parser E unit := fun r =>
  if rd_offset r =? zlen (rd_bytes r) then Ok (tt, r) else Err trailing.

(** [reader.read_exact(&mut buffer).await] on a stream that delivers [input]
    and then ends: [UnexpectedEof] when it ends first. *)
Definition stream_read_exact {E} (eof : E) (n : Z) (input : list byte)
    : result E (list byte * list byte) :=
  if zlen input <? n then Err eof
  else Ok (take (Z.to_nat n) input, drop (Z.to_nat n) input).

(** ** Laws *)

Definition wf_reader (r : Reader) : Prop :=
  0 <= rd_offset r <= zlen (rd_bytes r) /\ zlen (rd_bytes r) <= usize_max.

Definition adv (r : Reader) (n : nat) : Reader :=
  mkReader (rd_bytes r) (rd_offset r + Z.of_nat n).

Definition reads {E A} (p : parser E A) (out : list byte) (a : A) : Prop :=
  forall r rest, wf_reader r -> remaining_slice r = out ++ rest ->
    p r = Ok (a, adv r (length out)).

Definition accepts {E A} (p : parser E A) (P : A -> list byte -> Prop) : Prop :=
  forall r a r', wf_reader r -> p r = Ok (a, r') ->
    wf_reader r' /\ rd_bytes r' = rd_bytes r /\
    exists out, remaining_slice r = out ++ remaining_slice r' /\ P a out.

Lemma wf_reader_new bs : zlen bs <= usize_max -> wf_reader (Reader_new bs).
Proof. unfold wf_reader, Reader_new. cbn. pose proof (zlen_nonneg bs). lia. Qed.

Lemma remaining_slice_new bs : remaining_slice (Reader_new bs) = bs.
Proof. unfold remaining_slice, Reader_new. cbn. apply drop_0. Qed.

Lemma adv_adv r n m : adv (adv r n) m = adv r (n + m).
Proof. unfold adv. cbn. f_equal. lia. Qed.

Lemma adv_0 r : adv r 0 = r.
Proof. destruct r. unfold adv. cbn. f_equal. lia. Qed.

Lemma remaining_spec r : wf_reader r -> remaining r = zlen (remaining_slice r).
Proof.
  intros [? _]. unfold remaining, remaining_slice, saturating_sub, zlen in *.
  rewrite length_drop. lia.
Qed.

Lemma wf_adv r out rest :
  wf_reader r -> remaining_slice r = out ++ rest -> wf_reader (adv r (length out)).
Proof.
  intros [? ?] Hr. unfold wf_reader, adv. cbn. split; [|done].
  apply (f_equal length) in Hr. unfold remaining_slice in Hr.
  rewrite length_drop, length_app in Hr. unfold zlen in *. lia.
Qed.

Lemma remaining_adv r out rest :
  wf_reader r -> remaining_slice r = out ++ rest ->
  remaining_slice (adv r (length out)) = rest.
Proof.
  intros [? ?] Hr. unfold remaining_slice, adv in *. cbn.
  rewrite Z2Nat.inj_add, Nat2Z.id, <- drop_drop by lia.
  rewrite Hr. apply drop_app_length.
Qed.

Section ReadsLaws.
Context {E : Type}.

Lemma reads_ret {A} (a : A) : reads (E := E) (mret a) [] a.
Proof. intros r rest _ _. cbn. now rewrite adv_0. Qed.

Lemma reads_bind {A B} (p : parser E A) (k : A -> parser E B) o1 o2 a b :
  reads p o1 a -> reads (k a) o2 b -> reads (p ≫= k) (o1 ++ o2) b.
Proof.
  intros Hp Hk r rest Hwf Hr. rewrite <- app_assoc in Hr.
  unfold mbind, parser_bind. rewrite (Hp _ _ Hwf Hr).
  rewrite (Hk (adv r (length o1)) rest) by eauto using wf_adv, remaining_adv.
  now rewrite adv_adv, length_app.
Qed.

(** A step that consumes nothing. *)
Lemma reads_bind_nil {A B} (p : parser E A) (k : A -> parser E B) o a b :
  reads p [] a -> reads (k a) o b -> reads (p ≫= k) o b.
Proof. apply (reads_bind p k []). Qed.

(** The last step that consumes something. *)
Lemma reads_bind_r {A B} (p : parser E A) (k : A -> parser E B) o a b :
  reads p o a -> reads (k a) [] b -> reads (p ≫= k) o b.
Proof. intros Hp Hk. rewrite <- (app_nil_r o). by eapply reads_bind. Qed.

Lemma reads_lift {A} (a : A) : reads (E := E) (lift (Ok a)) [] a.
Proof. apply reads_ret. Qed.

Lemma reads_read_exact (ov tr : E) bs n :
  n = zlen bs -> reads (read_exact ov tr n) bs bs.
Proof.
  intros -> r rest Hwf Hr. pose proof (wf_adv _ _ _ Hwf Hr) as [Hadv Hmax].
  unfold read_exact, checked_add. cbn in Hadv, Hmax. fold (zlen bs) in Hadv.
  rewrite (proj2 (Z.leb_le _ _)) by lia. rewrite (proj2 (Z.leb_le _ _)) by lia.
  rewrite Hr. unfold zlen at 1. rewrite Nat2Z.id, take_app_length. done.
Qed.

Lemma reads_read_array (ov tr : E) bs n :
  n = zlen bs -> reads (read_array ov tr n) bs bs.
Proof.
  intros Hn. unfold read_array. rewrite <- (app_nil_r bs) at 1.
  eapply reads_bind; [by apply reads_read_exact|].
  rewrite Hn, Z.eqb_refl. apply reads_ret.
Qed.

Lemma reads_read_u8 (ov tr : E) v :
  is_u8 v = true -> reads (read_u8 ov tr) [byte_of v] v.
Proof.
  intros Hv. unfold is_u8, u8_max in Hv. bool_prop.
  unfold read_u8. change [byte_of v] with ([byte_of v] ++ []).
  eapply reads_bind; [by apply reads_read_exact|].
  cbn. rewrite byte_val_of, Z.mod_small by lia. apply reads_ret.
Qed.

Lemma reads_read_be (ov tr : E) k v n :
  n = Z.of_nat k -> 0 <= v < 2 ^ (8 * Z.of_nat k) ->
  reads (read_be ov tr n) (be_bytes k v) v.
Proof.
  intros -> Hv. unfold read_be. rewrite <- (app_nil_r (be_bytes k v)).
  eapply reads_bind.
  - apply reads_read_array. unfold zlen. now rewrite length_be_bytes.
  - rewrite be_value_be_bytes_small by done. apply reads_ret.
Qed.

Lemma reads_be_u16 (ov tr : E) v :
  is_u16 v = true -> reads (read_be ov tr 2) (be_bytes 2 v) v.
Proof. intros Hv. unfold is_u16, u16_max in Hv. bool_prop. apply reads_read_be; [done|lia]. Qed.

Lemma reads_be_u32 (ov tr : E) v :
  is_u32 v = true -> reads (read_be ov tr 4) (be_bytes 4 v) v.
Proof. intros Hv. unfold is_u32, u32_max in Hv. bool_prop. apply reads_read_be; [done|lia]. Qed.

Lemma reads_be_u64 (ov tr : E) v :
  is_u64 v = true -> reads (read_be ov tr 8) (be_bytes 8 v) v.
Proof. intros Hv. unfold is_u64, u64_max in Hv. bool_prop. apply reads_read_be; [done|lia]. Qed.

Lemma reads_read_n {A} (p : Z -> parser E A) (enc : A -> list byte) l first :
  (forall i x, l !! i = Some x -> reads (p (first + Z.of_nat i)) (enc x) x) ->
  reads (read_n (length l) first p) (concat (map enc l)) l.
Proof.
  revert first. induction l as [|x l IH]; intros first H; cbn; [apply reads_ret|].
  eapply reads_bind.
  - specialize (H 0%nat x eq_refl). rewrite Z.add_0_r in H. exact H.
  - rewrite <- (app_nil_r (concat _)). eapply reads_bind; [|apply reads_ret].
    apply IH. intros i y Hi.
    replace (first + 1 + Z.of_nat i) with (first + Z.of_nat (S i)) by lia.
    now apply H.
Qed.
End ReadsLaws.

Section AcceptsLaws.
Context {E : Type}.

Lemma accepts_ret {A} (a : A) : accepts (E := E) (mret a) (fun x out => x = a /\ out = []).
Proof.
  intros r x r' Hwf [= <- <-]. split; [done|]. split; [done|].
  exists []. auto.
Qed.

Lemma accepts_fail {A} (e : E) (P : A -> list byte -> Prop) : accepts (fail e) P.
Proof. intros r x r' _ [=]. Qed.

Lemma accepts_lift {A} (m : result E A) :
  accepts (lift m) (fun x out => m = Ok x /\ out = []).
Proof.
  intros r x r' Hwf. unfold lift. destruct m; intros [=]. subst.
  split; [done|]. split; [done|]. exists []. auto.
Qed.

Lemma accepts_weaken {A} (p : parser E A) (P Q : A -> list byte -> Prop) :
  accepts p P -> (forall a out, P a out -> Q a out) -> accepts p Q.
Proof.
  intros Hp HPQ r a r' Hwf Ha.
  destruct (Hp _ _ _ Hwf Ha) as (? & ? & out & ? & ?). eauto 6.
Qed.

Lemma accepts_bind {A B} (p : parser E A) (k : A -> parser E B)
    (P : A -> list byte -> Prop) (Q : B -> list byte -> Prop) :
  accepts p P ->
  (forall a o1, P a o1 -> accepts (k a) (fun b o2 => Q b (o1 ++ o2))) ->
  accepts (p ≫= k) Q.
Proof.
  intros Hp Hk r b r' Hwf Hb. unfold mbind, parser_bind in Hb.
  destruct (p r) as [[a r1]|] eqn:Ha; [|discriminate].
  destruct (Hp _ _ _ Hwf Ha) as (Hwf1 & Hb1 & o1 & Ho1 & HP).
  destruct (Hk _ _ HP _ _ _ Hwf1 Hb) as (Hwf2 & Hb2 & o2 & Ho2 & HQ).
  split; [done|]. split; [congruence|]. exists (o1 ++ o2).
  rewrite Ho1, Ho2. split; [apply app_assoc|done].
Qed.

Lemma accepts_read_exact (ov tr : E) n :
  0 <= n -> accepts (read_exact ov tr n) (fun bs out => out = bs /\ zlen bs = n).
Proof.
  intros Hn r bs r' [Ho Hm] Hb. unfold read_exact in Hb.
  destruct (checked_add _ _ _) as [stop|] eqn:Hs; [|discriminate].
  apply checked_add_Some in Hs as [-> _]. inv_ok. bool_prop.
  simplify_eq. assert (Z.to_nat n <= length (remaining_slice r))%nat as Hlen.
  { unfold remaining_slice. rewrite length_drop. unfold zlen in *. lia. }
  split; [unfold wf_reader; cbn; lia|]. split; [done|].
  eexists. split; [|split; [reflexivity|]].
  - unfold remaining_slice. cbn. rewrite Z2Nat.inj_add by lia.
    now rewrite <- drop_drop, take_drop.
  - unfold zlen. rewrite length_take. lia.
Qed.

Lemma accepts_read_array (ov tr : E) n :
  0 <= n -> accepts (read_array ov tr n) (fun bs out => out = bs /\ zlen bs = n).
Proof.
  intros Hn. eapply accepts_bind; [by apply accepts_read_exact|].
  intros bs o1 [-> Hl]. rewrite Hl, Z.eqb_refl.
  eapply accepts_weaken; [apply accepts_ret|].
  intros ? ? [-> ->]. now rewrite app_nil_r.
Qed.

Lemma accepts_read_u8 (ov tr : E) :
  accepts (read_u8 ov tr) (fun v out => out = [byte_of v] /\ is_u8 v = true).
Proof.
  eapply accepts_bind; [by apply accepts_read_exact|].
  intros bs o1 [-> Hl]. destruct bs as [|b [|]];
    [discriminate Hl| |unfold zlen in Hl; cbn [length] in Hl; lia].
  eapply accepts_weaken; [apply accepts_ret|].
  intros ? ? [-> ->]. rewrite byte_of_val. split; [done|].
  pose proof (byte_val_bounds b). unfold is_u8, u8_max. lia.
Qed.

Lemma accepts_read_be (ov tr : E) k n :
  n = Z.of_nat k ->
  accepts (read_be ov tr n)
    (fun v out => out = be_bytes k v /\ 0 <= v < 2 ^ (8 * Z.of_nat k)).
Proof.
  intros ->. eapply accepts_bind; [apply accepts_read_array; lia|].
  intros bs o1 [-> Hl]. eapply accepts_weaken; [apply accepts_ret|].
  intros ? ? [-> ->]. unfold zlen in Hl. apply Nat2Z.inj in Hl as <-.
  rewrite app_nil_r, be_bytes_be_value. auto using be_value_bounds.
Qed.

Lemma accepts_be_u16 (ov tr : E) :
  accepts (read_be ov tr 2) (fun v out => out = be_bytes 2 v /\ is_u16 v = true).
Proof.
  eapply accepts_weaken; [by apply (accepts_read_be _ _ 2)|].
  intros v out [-> Hv]. split; [done|]. unfold is_u16, u16_max. lia.
Qed.

Lemma accepts_be_u32 (ov tr : E) :
  accepts (read_be ov tr 4) (fun v out => out = be_bytes 4 v /\ is_u32 v = true).
Proof.
  eapply accepts_weaken; [by apply (accepts_read_be _ _ 4)|].
  intros v out [-> Hv]. split; [done|]. unfold is_u32, u32_max. lia.
Qed.

Lemma accepts_be_u64 (ov tr : E) :
  accepts (read_be ov tr 8) (fun v out => out = be_bytes 8 v /\ is_u64 v = true).
Proof.
  eapply accepts_weaken; [by apply (accepts_read_be _ _ 8)|].
  intros v out [-> Hv]. split; [done|]. unfold is_u64, u64_max. lia.
Qed.

Lemma accepts_read_n {A} n (p : Z -> parser E A) (enc : A -> list byte)
    (P : Z -> A -> Prop) first :
  (forall i, accepts (p i) (fun x out => out = enc x /\ P i x)) ->
  accepts (read_n n first p) (fun l out =>
    out = concat (map enc l) /\ length l = n /\
    forall i x, l !! i = Some x -> P (first + Z.of_nat i) x).
Proof.
  intros Hp. revert first. induction n as [|n IH]; intros first; cbn [read_n].
  - eapply accepts_weaken; [apply accepts_ret|]. intros ? ? [-> ->].
    split; [done|]. split; [done|]. intros i x Hi. now rewrite lookup_nil in Hi.
  - eapply accepts_bind; [apply Hp|]. intros x o1 [-> Hx].
    eapply accepts_bind; [apply IH|]. intros xs o2 (-> & Hlen & Hxs).
    eapply accepts_weaken; [apply accepts_ret|]. intros ? ? [-> ->].
    rewrite app_nil_r. split; [done|]. split; [cbn; lia|].
    intros [|i] y Hi; cbn in Hi.
    + simplify_eq. now rewrite Z.add_0_r.
    + replace (first + Z.of_nat (S i)) with (first + 1 + Z.of_nat i) by lia. eauto.
Qed.
End AcceptsLaws.

Create HintDb reads discriminated.
#[export] Hint Resolve reads_ret reads_lift : reads.
Create HintDb accepts discriminated.

(** [read_step] takes one step of a reader whose input is written as the
    concatenation of what each step consumes; [accept_step H] opens the next
    step of an [accepts] goal and names what the step established. *)
Ltac read_step :=
  first
    [ eapply reads_bind; [solve [eauto with reads]|]
    | eapply reads_bind_r; [solve [eauto with reads]|]
    | eapply reads_bind_nil; [solve [eauto with reads]|] ];
  cbn beta iota.
Tactic Notation "accept_step" simple_intropattern(a) simple_intropattern(H) :=
  eapply accepts_bind; [solve [eauto with accepts]|]; cbn beta; intros a ? H.
Ltac accept_ret :=
  eapply accepts_weaken; [apply accepts_ret|]; intros ? ? [-> ->]; rewrite ?app_nil_r.

(** ** Readers that look at what is left

    A decoder that compares a length with [remaining()], hashes the rest of
    its input or refuses trailing bytes depends on where the input stops: the
    same two laws, for input that is exactly [out]. *)

Definition reads_all {E A} (p : parser E A) (out : list byte) (a : A) : Prop :=
  forall r, wf_reader r -> remaining_slice r = out -> p r = Ok (a, adv r (length out)).

Definition accepts_all {E A} (p : parser E A) (P : A -> list byte -> Prop) : Prop :=
  forall r a r', wf_reader r -> p r = Ok (a, r') -> P a (remaining_slice r).

Section WholeInput.
Context {E : Type}.

Lemma reads_all_of_reads {A} (p : parser E A) out a : reads p out a -> reads_all p out a.
Proof. intros H r Hwf Hr. apply (H r []); [done|]. by rewrite app_nil_r. Qed.

Lemma reads_all_bind {A B} (p : parser E A) (k : A -> parser E B) o1 o2 a b :
  reads p o1 a -> reads_all (k a) o2 b -> reads_all (p ≫= k) (o1 ++ o2) b.
Proof.
  intros Hp Hk r Hwf Hr. unfold mbind, parser_bind. rewrite (Hp _ _ Hwf Hr).
  rewrite (Hk (adv r (length o1))) by eauto using wf_adv, remaining_adv.
  now rewrite adv_adv, length_app.
Qed.

Lemma reads_all_bind_nil {A B} (p : parser E A) (k : A -> parser E B) o a b :
  reads p [] a -> reads_all (k a) o b -> reads_all (p ≫= k) o b.
Proof. apply (reads_all_bind p k []). Qed.

Lemma reads_all_bind_r {A B} (p : parser E A) (k : A -> parser E B) o a b :
  reads p o a -> reads_all (k a) [] b -> reads_all (p ≫= k) o b.
Proof. intros Hp Hk. rewrite <- (app_nil_r o). by eapply reads_all_bind. Qed.

Lemma reads_all_remaining {A} (k : Z -> parser E A) out a :
  reads_all (k (zlen out)) out a -> reads_all (r_remaining ≫= k) out a.
Proof.
  intros Hk r Hwf Hr. unfold mbind, parser_bind, r_remaining.
  rewrite remaining_spec, Hr by done. by apply Hk.
Qed.

Lemma reads_all_slice {A} (k : list byte -> parser E A) out a :
  reads_all (k out) out a -> reads_all (r_remaining_slice ≫= k) out a.
Proof.
  intros Hk r Hwf Hr. unfold mbind, parser_bind, r_remaining_slice. rewrite Hr. by apply Hk.
Qed.

Lemma reads_all_run {A} (p : parser E A) bs a :
  zlen bs <= usize_max -> reads_all p bs a -> exists r, p (Reader_new bs) = Ok (a, r).
Proof.
  intros Hbs Hp. eexists. apply Hp; [by apply wf_reader_new|apply remaining_slice_new].
Qed.

Lemma accepts_all_fail {A} (e : E) (P : A -> list byte -> Prop) : accepts_all (fail e) P.
Proof. intros r x r' _ [=]. Qed.

Lemma accepts_all_ret {A} (a : A) (P : A -> list byte -> Prop) :
  (forall out, P a out) -> accepts_all (E := E) (mret a) P.
Proof. intros HP r x r' _ [= <- <-]. apply HP. Qed.

Lemma accepts_all_bind {A B} (p : parser E A) (k : A -> parser E B)
    (P : A -> list byte -> Prop) (Q : B -> list byte -> Prop) :
  accepts p P ->
  (forall a o1, P a o1 -> accepts_all (k a) (fun b o2 => Q b (o1 ++ o2))) ->
  accepts_all (p ≫= k) Q.
Proof.
  intros Hp Hk r b r' Hwf Hb. unfold mbind, parser_bind in Hb.
  destruct (p r) as [[a r1]|] eqn:Ha; [|discriminate].
  destruct (Hp _ _ _ Hwf Ha) as (Hwf1 & _ & o1 & -> & HP).
  exact (Hk _ _ HP _ _ _ Hwf1 Hb).
Qed.

Lemma accepts_all_remaining {A} (k : Z -> parser E A) (Q : A -> list byte -> Prop) :
  (forall n, accepts_all (k n) (fun a out => zlen out = n -> Q a out)) ->
  accepts_all (r_remaining ≫= k) Q.
Proof.
  intros Hk r a r' Hwf Ha. apply (Hk (remaining r) r a r' Hwf Ha).
  by rewrite remaining_spec.
Qed.

Lemma accepts_all_slice {A} (k : list byte -> parser E A) (Q : A -> list byte -> Prop) :
  (forall s, accepts_all (k s) (fun a out => out = s -> Q a out)) ->
  accepts_all (r_remaining_slice ≫= k) Q.
Proof. intros Hk r a r' Hwf Ha. by apply (Hk (remaining_slice r) r a r' Hwf Ha). Qed.

Lemma accepts_all_run {A} (p : parser E A) (P : A -> list byte -> Prop) bs a r :
  zlen bs <= usize_max -> accepts_all p P -> p (Reader_new bs) = Ok (a, r) -> P a bs.
Proof.
  intros Hbs Hp Hr. rewrite <- (remaining_slice_new bs).
  exact (Hp _ _ _ (wf_reader_new _ Hbs) Hr).
Qed.
End WholeInput.

(** The same steps as above, for whole inputs. *)
Ltac read_all_step :=
  first
    [ eapply reads_all_remaining
    | eapply reads_all_slice
    | eapply reads_all_bind; [solve [eauto with reads]|]
    | eapply reads_all_bind_r; [solve [eauto with reads]|]
    | eapply reads_all_bind_nil; [solve [eauto with reads]|] ];
  cbn beta iota.
Tactic Notation "accept_all_step" simple_intropattern(a) simple_intropattern(H) :=
  eapply accepts_all_bind; [solve [eauto with accepts]|]; cbn beta; intros a ? H.

(** ** Refusals

    [refuses p out e]: on input that starts with [out], [p] returns the error [e]. *)

Definition refuses {E A} (p : parser E A) (out : list byte) (e : E) : Prop :=
  forall r rest, wf_reader r -> remaining_slice r = out ++ rest -> p r = Err e.

Section Refusals.
Context {E : Type}.

Lemma refuses_fail {A} (e : E) out : refuses (A := A) (fail e) out e.
Proof. by intros r rest _ _. Qed.

Lemma refuses_here {A B} (p : parser E A) (k : A -> parser E B) out e :
  refuses p out e -> refuses (p ≫= k) out e.
Proof. intros Hp r rest Hwf Hr. unfold mbind, parser_bind. by rewrite (Hp r rest). Qed.

Lemma refuses_later {A B} (p : parser E A) (k : A -> parser E B) o1 o2 a e :
  reads p o1 a -> refuses (k a) o2 e -> refuses (p ≫= k) (o1 ++ o2) e.
Proof.
  intros Hp Hk r rest Hwf Hr. rewrite <- app_assoc in Hr.
  unfold mbind, parser_bind. rewrite (Hp _ _ Hwf Hr).
  apply (Hk _ rest); eauto using wf_adv, remaining_adv.
Qed.
End Refusals.

Section EndOfInput.
Context {E : Type}.

Lemma finish_end (trailing : E) r :
  wf_reader r -> remaining_slice r = [] -> finish trailing r = Ok (tt, r).
Proof.
  intros Hwf Hr. unfold finish. pose proof (remaining_spec r Hwf) as H. rewrite Hr in H.
  destruct Hwf as [Hwf _]. unfold remaining, saturating_sub in H. unfold zlen at 2 in H.
  cbn [length] in H. by rewrite (proj2 (Z.eqb_eq _ _)) by lia.
Qed.

Lemma finish_ok (trailing : E) r x :
  wf_reader r -> finish trailing r = Ok x -> remaining_slice r = [].
Proof.
  intros [Hwf _] H. unfold finish in H.
  destruct (Z.eqb_spec (rd_offset r) (zlen (rd_bytes r))); [|discriminate].
  unfold remaining_slice. apply drop_ge. unfold zlen in *. lia.
Qed.

(** A reader followed by [finish], on a whole input. *)
Lemma run_finish {A} (p : parser E A) (trailing : E) a out :
  zlen out <= usize_max -> reads p out a ->
  ('(v, reader) ← p (Reader_new out); _ ← finish trailing reader; Ok v) = Ok a.
Proof.
  intros Hmax Hr. pose proof (wf_reader_new out Hmax) as Hwf.
  assert (Hrem : remaining_slice (Reader_new out) = out ++ [])
    by (by rewrite remaining_slice_new, app_nil_r).
  rewrite (Hr _ _ Hwf Hrem). cbn [mbind result_bind].
  by rewrite finish_end by eauto using wf_adv, remaining_adv.
Qed.

Lemma run_finish_ok {A} (p : parser E A) (trailing : E) (P : A -> list byte -> Prop) a out :
  zlen out <= usize_max -> accepts p P ->
  ('(v, reader) ← p (Reader_new out); _ ← finish trailing reader; Ok v) = Ok a -> P a out.
Proof.
  intros Hmax Hp H. inv_ok. simplify_eq.
  match goal with Hr : p _ = Ok _ |- _ =>
    apply Hp in Hr as (Hwr & _ & o & Ho & HP); [|by apply wf_reader_new] end.
  match goal with Hf : finish _ _ = Ok _ |- _ => apply finish_ok in Hf; [|done];
    rewrite Hf, app_nil_r, remaining_slice_new in Ho end. by subst o.
Qed.

Lemma stream_read_exact_app (eof : E) (a b : list byte) :
  stream_read_exact eof (zlen a) (a ++ b) = Ok (a, b).
Proof.
  unfold stream_read_exact. rewrite zlen_app. pose proof (zlen_nonneg b).
  rewrite (proj2 (Z.ltb_ge _ _)) by lia. unfold zlen. rewrite Nat2Z.id.
  by rewrite take_app_length, drop_app_length.
Qed.

Lemma stream_read_exact_ok (eof : E) n input bs rest :
  stream_read_exact eof n input = Ok (bs, rest) -> 0 <= n -> input = bs ++ rest /\ zlen bs = n.
Proof.
  unfold stream_read_exact. intros H Hn. inv_ok. bool_prop. simplify_eq.
  rewrite take_drop. split; [done|]. unfold zlen in *. rewrite length_take. lia.
Qed.
End EndOfInput.
