(* ===== verification/ManifestV2.v ===== *)
(** Manifest v2 (crates/envoix-protocol/src/manifest_v2.rs): the data of an
    offered job and [ManifestV2::validate].  The crate [unicode_normalization]
    is a parameter ([is_nfc]). *)

From stdpp Require Import prelude gmap strings.
From Stdlib Require Import ZArith Lia Strings.Byte.
From S2P Require Import Prelude Bytes.

Local Open Scope Z_scope.

(** ** Constants *)

Definition MANIFEST_V2_PROTOCOL_VERSION : Z := 2.
Definition MAX_MANIFEST_V2_ENCODED_BYTES : Z := 4 * 1024 * 1024.
Definition MAX_MANIFEST_V2_ENTRIES : Z := 10000.
Definition MAX_MANIFEST_V2_ROOTS : Z := 1024.
Definition MAX_MANIFEST_V2_COMPONENT_BYTES : Z := 255.
Definition MAX_MANIFEST_V2_PATH_BYTES : Z := 4096.
Definition MAX_MANIFEST_V2_PATH_DEPTH : Z := 64.
Definition DEFAULT_MANIFEST_V2_BLOCK_PLAINTEXT_BYTES : Z := 4 * 1024 * 1024.
Definition MAX_MANIFEST_V2_BLOCK_PLAINTEXT_BYTES : Z := 16 * 1024 * 1024.
Definition MAX_MANIFEST_V2_BLOCK_ENCODED_BYTES : Z :=
  MAX_MANIFEST_V2_BLOCK_PLAINTEXT_BYTES + 64 * 1024.
Definition OFFER_MAGIC : list byte := lit "ENV2".
Definition OFFER_HEADER_BYTES : Z := 12.
Definition DIGEST_BYTES : Z := 32.
Definition JOB_ID_BYTES : Z := 16.

(** ** Data *)

(** [struct JobIdV2(pub [u8; 16])] and [struct ContentDigestV2(pub [u8; 32])]:
    byte arrays, of the lengths [wf_job_id] and [wf_digest] state. *)
Abbreviation JobIdV2 := (list byte).
Abbreviation ContentDigestV2 := (list byte).

Inductive ManifestV2FrameType :=
| FT_Offer | FT_Accept | FT_EntryStart | FT_EntryContentDigest | FT_EntryBlock
| FT_EntryComplete | FT_EntryResult | FT_JobComplete | FT_DeliveryProof
| FT_ResumeRequest | FT_ResumeStatus | FT_Cancel | FT_Error.

(** The discriminants of [#[repr(u16)]]. *)
Definition frame_type_id (t : ManifestV2FrameType) : Z :=
  match t with
  | FT_Offer => 1 | FT_Accept => 2 | FT_EntryStart => 3 | FT_EntryContentDigest => 4
  | FT_EntryBlock => 5 | FT_EntryComplete => 6 | FT_EntryResult => 7
  | FT_JobComplete => 8 | FT_DeliveryProof => 9 | FT_ResumeRequest => 10
  | FT_ResumeStatus => 11 | FT_Cancel => 12 | FT_Error => 13
  end.

Inductive CompressionPolicyV2 := Never | Always | Smart.
Inductive ManifestEntryKindV2 := RegularFile | Directory.
Inductive EntryContentDigestV2 := Deferred | Known (digest : ContentDigestV2).
Inductive SourceCompletenessV2 :=
| Complete
| UserApprovedPartial (inaccessible_boundary_count : Z) (omitted_entry_count : option Z).

#[export] Instance ManifestV2FrameType_eq_dec : EqDecision ManifestV2FrameType.
Proof. solve_decision. Defined.
#[export] Instance CompressionPolicyV2_eq_dec : EqDecision CompressionPolicyV2.
Proof. solve_decision. Defined.
#[export] Instance ManifestEntryKindV2_eq_dec : EqDecision ManifestEntryKindV2.
Proof. solve_decision. Defined.
#[export] Instance EntryContentDigestV2_eq_dec : EqDecision EntryContentDigestV2.
Proof. solve_decision. Defined.
#[export] Instance SourceCompletenessV2_eq_dec : EqDecision SourceCompletenessV2.
Proof. solve_decision. Defined.

Definition compression_policy_id (p : CompressionPolicyV2) : Z :=
  match p with Never => 0 | Always => 1 | Smart => 2 end.
Definition entry_kind_id (k : ManifestEntryKindV2) : Z :=
  match k with RegularFile => 1 | Directory => 2 end.

Record ManifestRootV2 := mkRoot {
  root_id : Z;
  root_entry_id : Z;
  requested_name : str;
  completeness : SourceCompletenessV2;
}.

Record ManifestEntryV2 := mkEntry {
  entry_id : Z;
  entry_root_id : Z;
  parent_entry_id : option Z;
  component : str;
  kind : ManifestEntryKindV2;
  plaintext_size : Z;
  content_digest : EntryContentDigestV2;
}.

Record ManifestTotalsV2 := mkTotals {
  file_count : Z;
  directory_count : Z;
  total_plaintext_bytes : Z;
}.

Record ManifestV2 := mkManifest {
  job_id : JobIdV2;
  generation : Z;
  selection_revision : Z;
  compression_policy : CompressionPolicyV2;
  roots : list ManifestRootV2;
  entries : list ManifestEntryV2;
  totals : ManifestTotalsV2;
}.

Record ManifestOfferV2 := mkOffer {
  structural_digest : ContentDigestV2;
  manifest : ManifestV2;
}.

#[export] Instance ManifestRootV2_eq_dec : EqDecision ManifestRootV2.
Proof. solve_decision. Defined.
#[export] Instance ManifestEntryV2_eq_dec : EqDecision ManifestEntryV2.
Proof. solve_decision. Defined.
#[export] Instance ManifestTotalsV2_eq_dec : EqDecision ManifestTotalsV2.
Proof. solve_decision. Defined.
#[export] Instance ManifestV2_eq_dec : EqDecision ManifestV2.
Proof. solve_decision. Defined.
#[export] Instance ManifestOfferV2_eq_dec : EqDecision ManifestOfferV2.
Proof. solve_decision. Defined.

Inductive ManifestV2ComponentViolation :=
| CV_Empty | CV_CurrentDirectory | CV_ParentDirectory | CV_ControlOrSeparator
| CV_NonCanonicalUnicode | CV_TooLong (bytes maximum : Z).

Inductive ManifestV2ValidationError :=
| ZeroJobId
| ZeroGeneration
| ZeroSelectionRevision
| EmptyRoots
| TooManyRoots (count maximum : Z)
| EmptyEntries
| TooManyEntries (count maximum : Z)
| NonCanonicalRootId (expected actual : Z)
| UnsafeRootName (rid : Z) (violation : ManifestV2ComponentViolation)
| InvalidRootEntry (rid eid : Z)
| EmptyPartialFact (rid : Z)
| DuplicateRootEntry
| NonCanonicalEntryId (expected actual : Z)
| NonCanonicalEntryOrder (expected actual : Z)
| UnsafeComponent (eid : Z) (violation : ManifestV2ComponentViolation)
| UnknownRoot (eid rid : Z)
| UnexpectedRootEntry (eid : Z)
| RootNameMismatch (rid eid : Z)
| NonCanonicalParent (eid parent : Z)
| CrossRootParent (eid parent : Z)
| FileParent (eid parent : Z)
| PathSizeOverflow (eid : Z)
| PathTooDeep (eid depth maximum : Z)
| PathTooLong (eid bytes maximum : Z)
| DuplicateSiblingComponent (eid : Z)
| InvalidDirectoryMetadata (eid : Z)
| AggregateOverflow
| TotalsMismatch (declared actual : ManifestTotalsV2).

#[export] Instance ManifestV2ComponentViolation_eq_dec :
  EqDecision ManifestV2ComponentViolation.
Proof. solve_decision. Defined.
#[export] Instance ManifestV2ValidationError_eq_dec : EqDecision ManifestV2ValidationError.
Proof. solve_decision. Defined.

(** ** Type invariants of the Rust data *)

Definition wf_job_id (b : JobIdV2) : bool := zlen b =? JOB_ID_BYTES.
Definition wf_digest (b : ContentDigestV2) : bool := zlen b =? DIGEST_BYTES.
Definition wf_option {A} (wf : A -> bool) (o : option A) : bool :=
  match o with Some a => wf a | None => true end.

Definition wf_completeness (c : SourceCompletenessV2) : bool :=
  match c with
  | Complete => true
  | UserApprovedPartial n o => is_u64 n && wf_option is_u64 o
  end.

Definition wf_content_digest (d : EntryContentDigestV2) : bool :=
  match d with Deferred => true | Known b => wf_digest b end.

Definition wf_root (r : ManifestRootV2) : bool :=
  is_u32 (root_id r) && is_u32 (root_entry_id r) && utf8_valid (requested_name r)
  && wf_completeness (completeness r).

Definition wf_entry (e : ManifestEntryV2) : bool :=
  is_u32 (entry_id e) && is_u32 (entry_root_id e) && wf_option is_u32 (parent_entry_id e)
  && utf8_valid (component e) && is_u64 (plaintext_size e)
  && wf_content_digest (content_digest e).

Definition wf_totals (t : ManifestTotalsV2) : bool :=
  is_u32 (file_count t) && is_u32 (directory_count t) && is_u64 (total_plaintext_bytes t).

Definition wf_manifest (m : ManifestV2) : bool :=
  wf_job_id (job_id m) && is_u32 (generation m) && is_u64 (selection_revision m)
  && forallb wf_root (roots m) && forallb wf_entry (entries m) && wf_totals (totals m).

(** ** Sibling order *)

(** Stable insertion sort; [sort_unstable_by] gives the same list when no two
    elements compare equal, which [validate] has checked before it sorts. *)
Section InsertionSort.
Context {A : Type} (leb : A -> A -> bool).

Fixpoint insert_by (x : A) (l : list A) : list A :=
  match l with
  | [] => [x]
  | y :: l' => if leb x y then x :: l else y :: insert_by x l'
  end.

Definition sort_by (l : list A) : list A := foldr insert_by [] l.
End InsertionSort.

Definition str_leb (s t : str) : bool :=
  match str_cmp s t with Gt => false | _ => true end.

Definition component_at (es : list ManifestEntryV2) (i : nat) : str :=
  default [] (component <$> es !! i).

(** [children[i].sort_unstable_by(|l, r| entries[l].component.cmp(&entries[r].component))] *)
Definition sort_children (es : list ManifestEntryV2) (l : list nat) : list nat :=
  sort_by (fun a b => str_leb (component_at es a) (component_at es b)) l.

(** ** [ManifestV2::validate] *)

Section Validate.
Context (is_nfc : str -> bool).

Definition validate_component (c : str) : result ManifestV2ComponentViolation unit :=
  if bool_decide (c = []) then Err CV_Empty
  else if bool_decide (c = lit ".") then Err CV_CurrentDirectory
  else if bool_decide (c = lit "..") then Err CV_ParentDirectory
  else if MAX_MANIFEST_V2_COMPONENT_BYTES <? zlen c
  then Err (CV_TooLong (zlen c) MAX_MANIFEST_V2_COMPONENT_BYTES)
  else if existsb (fun ch => is_control ch || is_separator ch) (chars c)
  then Err CV_ControlOrSeparator
  else if negb (is_nfc c) then Err CV_NonCanonicalUnicode
  else Ok tt.

(** One turn of the loop over [self.roots], which inserts into [root_entry_ids]. *)
Definition validate_root (entry_count index : Z) (root : ManifestRootV2)
    (root_entry_ids : gset Z) : result ManifestV2ValidationError (gset Z) :=
  if negb (root_id root =? index)
  then Err (NonCanonicalRootId index (root_id root))
  else if negb (root_entry_id root <? entry_count)
  then Err (InvalidRootEntry (root_id root) (root_entry_id root))
  else
    _ ← map_err (UnsafeRootName (root_id root)) (validate_component (requested_name root));
    match completeness root with
    | UserApprovedPartial 0 _ => Err (EmptyPartialFact (root_id root))
    | _ => Ok ({[root_entry_id root]} ∪ root_entry_ids)
    end.

Fixpoint validate_roots (entry_count index : Z) (rs : list ManifestRootV2)
    (root_entry_ids : gset Z) : result ManifestV2ValidationError (gset Z) :=
  match rs with
  | [] => Ok root_entry_ids
  | root :: rs' =>
    ids ← validate_root entry_count index root root_entry_ids;
    validate_roots entry_count (index + 1) rs' ids
  end.

(** The locals the loop over [self.entries] updates. *)
Record entry_state := mkState {
  sibling_components : gset (Z * option Z * str);
  st_file_count : Z;
  st_directory_count : Z;
  st_total_plaintext_bytes : Z;
  depths : list Z;
  path_bytes : list Z;
  children : list (list nat);
}.

(** The parent checks: the entry's depth and path size, and the new [children]. *)
Definition validate_parent (m : ManifestV2) (index : nat) (entry : ManifestEntryV2)
    (root : ManifestRootV2) (st : entry_state)
    : result ManifestV2ValidationError (Z * Z * list (list nat)) :=
  match parent_entry_id entry with
  | None =>
    if negb (root_entry_id root =? entry_id entry)
    then Err (UnexpectedRootEntry (entry_id entry))
    else if negb (bool_decide (requested_name root = component entry))
    then Err (RootNameMismatch (root_id root) (entry_id entry))
    else Ok (0, 0, children st)
  | Some parent_id =>
    if Z.of_nat index <=? parent_id
    then Err (NonCanonicalParent (entry_id entry) parent_id)
    else
      parent ← ok_or (NonCanonicalParent (entry_id entry) parent_id)
                 (vec_get (entries m) parent_id);
      if negb (entry_root_id parent =? entry_root_id entry)
      then Err (CrossRootParent (entry_id entry) parent_id)
      else if negb (bool_decide (kind parent = Directory))
      then Err (FileParent (entry_id entry) parent_id)
      else
        let p := Z.to_nat parent_id in
        bytes ← ok_or (PathSizeOverflow (entry_id entry))
                  (b ← checked_add usize_max (default 0 (path_bytes st !! p))
                                  (zlen (component entry));
                   checked_add usize_max b 1);
        Ok (default 0 (depths st !! p) + 1, bytes,
            alter (fun l => l ++ [index]) p (children st))
  end.

(** The counters of [match entry.kind]. *)
Definition count_entry (entry : ManifestEntryV2) (files dirs bytes : Z)
    : result ManifestV2ValidationError (Z * Z * Z) :=
  match kind entry with
  | RegularFile =>
    files' ← ok_or AggregateOverflow (checked_add u32_max files 1);
    bytes' ← ok_or AggregateOverflow (checked_add u64_max bytes (plaintext_size entry));
    Ok (files', dirs, bytes')
  | Directory =>
    if negb (plaintext_size entry =? 0) || negb (bool_decide (content_digest entry = Deferred))
    then Err (InvalidDirectoryMetadata (entry_id entry))
    else
      dirs' ← ok_or AggregateOverflow (checked_add u32_max dirs 1);
      Ok (files, dirs', bytes)
  end.

(** One turn of the loop over [self.entries]. *)
Definition validate_entry (m : ManifestV2) (index : nat) (entry : ManifestEntryV2)
    (st : entry_state) : result ManifestV2ValidationError entry_state :=
  if negb (entry_id entry =? Z.of_nat index)
  then Err (NonCanonicalEntryId (Z.of_nat index) (entry_id entry))
  else
    _ ← map_err (UnsafeComponent (entry_id entry)) (validate_component (component entry));
    root ← ok_or (UnknownRoot (entry_id entry) (entry_root_id entry))
             (vec_get (roots m) (entry_root_id entry));
    '(depth, bytes, children') ← validate_parent m index entry root st;
    if MAX_MANIFEST_V2_PATH_DEPTH <? depth
    then Err (PathTooDeep (entry_id entry) depth MAX_MANIFEST_V2_PATH_DEPTH)
    else if MAX_MANIFEST_V2_PATH_BYTES <? bytes
    then Err (PathTooLong (entry_id entry) bytes MAX_MANIFEST_V2_PATH_BYTES)
    else
      let key := (entry_root_id entry, parent_entry_id entry, component entry) in
      if bool_decide (key ∈ sibling_components st)
      then Err (DuplicateSiblingComponent (entry_id entry))
      else
        '(files, dirs, total) ← count_entry entry (st_file_count st)
                                  (st_directory_count st) (st_total_plaintext_bytes st);
        Ok (mkState ({[key]} ∪ sibling_components st) files dirs total
              (depths st ++ [depth]) (path_bytes st ++ [bytes]) children').

Fixpoint validate_entries (m : ManifestV2) (index : nat) (es : list ManifestEntryV2)
    (st : entry_state) : result ManifestV2ValidationError entry_state :=
  match es with
  | [] => Ok st
  | entry :: es' =>
    st' ← validate_entry m index entry st;
    validate_entries m (S index) es' st'
  end.

Definition initial_state (entry_count : nat) : entry_state :=
  mkState ∅ 0 0 0 [] [] (replicate entry_count []).

(** [while let Some(entry_index) = stack.pop()]: the head of the list is the
    top of the stack, so [stack.extend(sorted.iter().rev())] puts the sorted
    children in front.  One unit of fuel per turn; [None] when it runs out. *)
Fixpoint visit (es : list ManifestEntryV2) (fuel : nat) (stack : list nat)
    (ch : list (list nat)) (order : list nat) : option (list (list nat) * list nat) :=
  match stack, fuel with
  | [], _ => Some (ch, order)
  | _ :: _, O => None
  | i :: stack', S fuel' =>
    let sorted := sort_children es (default [] (ch !! i)) in
    visit es fuel' (sorted ++ stack') (<[i := sorted]> ch) (order ++ [i])
  end.

(** [for root in &self.roots]: the traversal of each root in turn. *)
Fixpoint canonical_order (es : list ManifestEntryV2) (fuel : nat)
    (rs : list ManifestRootV2) (ch : list (list nat)) (order : list nat)
    : option (list nat) :=
  match rs with
  | [] => Some order
  | root :: rs' =>
    '(ch', order') ← visit es fuel [Z.to_nat (root_entry_id root)] ch order;
    canonical_order es fuel rs' ch' order'
  end.

(** [for (expected, actual) in canonical_order.into_iter().enumerate()] *)
Fixpoint check_order (expected : nat) (order : list nat)
    : result ManifestV2ValidationError unit :=
  match order with
  | [] => Ok tt
  | actual :: order' =>
    if negb (expected =? actual)%nat
    then Err (NonCanonicalEntryOrder (Z.of_nat expected) (Z.of_nat actual))
    else check_order (S expected) order'
  end.

(** The fuel of each root's traversal is the number of entries;
    [canonical_order_total] shows that it never runs out, so the last
    branch of the [match] is not reached. *)
Definition validate (m : ManifestV2) : result ManifestV2ValidationError unit :=
  if bool_decide (job_id m = replicate (Z.to_nat JOB_ID_BYTES) x00) then Err ZeroJobId
  else if generation m =? 0 then Err ZeroGeneration
  else if selection_revision m =? 0 then Err ZeroSelectionRevision
  else if bool_decide (roots m = []) then Err EmptyRoots
  else if MAX_MANIFEST_V2_ROOTS <? zlen (roots m)
  then Err (TooManyRoots (zlen (roots m)) MAX_MANIFEST_V2_ROOTS)
  else if bool_decide (entries m = []) then Err EmptyEntries
  else if MAX_MANIFEST_V2_ENTRIES <? zlen (entries m)
  then Err (TooManyEntries (zlen (entries m)) MAX_MANIFEST_V2_ENTRIES)
  else
    root_entry_ids ← validate_roots (zlen (entries m)) 0 (roots m) ∅;
    st ← validate_entries m 0 (entries m) (initial_state (length (entries m)));
    if negb (Z.of_nat (size root_entry_ids) =? zlen (roots m)) then Err DuplicateRootEntry
    else
      match canonical_order (entries m) (length (entries m)) (roots m) (children st) [] with
      | None => Err AggregateOverflow
      | Some order =>
        _ ← check_order 0 order;
        let actual := mkTotals (st_file_count st) (st_directory_count st)
                        (st_total_plaintext_bytes st) in
        if negb (bool_decide (totals m = actual))
        then Err (TotalsMismatch (totals m) actual)
        else Ok tt
      end.
End Validate.
