(* ===== verification/Traversal.v ===== *)
(** The preorder traversal of [ManifestV2::validate]: the explicit-stack loop
    [visit] computes the recursive preorder of the entry forest, visits no
    entry twice, never runs out of fuel, and lists the entries in strictly
    increasing path order. *)

From stdpp Require Import prelude sorting.
From Stdlib Require Import ZArith Lia Strings.Byte.
From S2P Require Import Prelude Bytes ManifestV2.

(** ** Sorting *)

Section SortFacts.
Context {A : Type} (leb : A -> A -> bool).
Context (leb_total : forall a b, leb a b = true \/ leb b a = true).
Context (leb_trans : forall a b c, leb a b = true -> leb b c = true -> leb a c = true).

Let R (a b : A) : Prop := leb a b = true.

Lemma insert_by_perm x l : insert_by leb x l ≡ₚ x :: l.
Proof.
  induction l as [|y l IH]; cbn; [done|].
  destruct (leb x y); [done|]. rewrite IH. apply perm_swap.
Qed.

Lemma sort_by_perm l : sort_by leb l ≡ₚ l.
Proof. induction l as [|x l IH]; cbn; [done|]. now rewrite insert_by_perm, IH. Qed.

Lemma insert_by_sorted x l : StronglySorted R l -> StronglySorted R (insert_by leb x l).
Proof.
  induction 1 as [|y l Hl IH Hy]; cbn; [repeat constructor|].
  destruct (leb x y) eqn:Hxy.
  - constructor; [by constructor|]. constructor; [done|].
    eapply Forall_impl; [exact Hy|]. intros z. by apply leb_trans.
  - constructor; [done|]. rewrite insert_by_perm. constructor; [|done].
    destruct (leb_total x y); [congruence|done].
Qed.

Lemma sort_by_sorted l : StronglySorted R (sort_by leb l).
Proof. induction l; cbn; [constructor|by apply insert_by_sorted]. Qed.

Lemma sort_by_id l : StronglySorted R l -> sort_by leb l = l.
Proof.
  induction 1 as [|x l Hl IH Hx]; cbn; [done|].
  change (foldr (insert_by leb) [] l) with (sort_by leb l). rewrite IH.
  destruct Hx as [|y l Hxy]; cbn; [done|]. by rewrite Hxy.
Qed.

Lemma sort_by_idemp l : sort_by leb (sort_by leb l) = sort_by leb l.
Proof. apply sort_by_id, sort_by_sorted. Qed.
End SortFacts.

Lemma str_leb_total s t : str_leb s t = true \/ str_leb t s = true.
Proof. unfold str_leb. rewrite (str_cmp_antisym s t). destruct (str_cmp s t); cbn; auto. Qed.

Lemma str_leb_spec s t : str_leb s t = true <-> s = t \/ str_cmp s t = Lt.
Proof.
  unfold str_leb. pose proof (str_cmp_eq s t). destruct (str_cmp s t); naive_solver.
Qed.

Lemma str_leb_trans s t u : str_leb s t = true -> str_leb t u = true -> str_leb s u = true.
Proof.
  rewrite !str_leb_spec. intros [->|?] [->|?]; eauto using str_cmp_trans.
Qed.

(** A sorted duplicate-free list is determined by its elements. *)
Lemma strict_sorted_unique {A} (R : A -> A -> Prop) `{!Transitive R} (l1 l2 : list A) :
  (forall x, ~ R x x) -> StronglySorted R l1 -> StronglySorted R l2 ->
  (forall x, x ∈ l1 <-> x ∈ l2) -> l1 = l2.
Proof.
  intros Hirr H1 H2 Hel.
  revert l2 H2 Hel. induction H1 as [|x l1 Hl1 IH Hx]; intros l2 H2 Hel.
  - destruct l2 as [|y l2]; [done|]. specialize (Hel y). set_solver.
  - destruct H2 as [|y l2 Hl2 Hy]; [specialize (Hel x); set_solver|].
    rewrite Forall_forall in Hx, Hy.
    assert (x = y) as <-.
    { assert (x = y \/ x ∈ l2) as [->|Hin] by (apply elem_of_cons, Hel; left); [done|].
      assert (y = x \/ y ∈ l1) as [->|Hin'] by (apply elem_of_cons, Hel; left); [done|].
      exfalso. apply (Hirr x). transitivity y; eauto. }
    f_equal. apply IH; [done|]. intros z.
    assert (x ∉ l1) by (intros ?; eapply (Hirr x), Hx; done).
    assert (x ∉ l2) by (intros ?; eapply (Hirr x), Hy; done).
    specialize (Hel z). rewrite !elem_of_cons in Hel.
    split; intros Hz; [destruct (proj1 Hel (or_intror Hz))|destruct (proj2 Hel (or_intror Hz))];
      try done; by subst.
Qed.

Lemma StronglySorted_concat {A B} (R : B -> B -> Prop) (S : A -> A -> Prop) (f : A -> list B) l :
  StronglySorted S l -> (forall a, a ∈ l -> StronglySorted R (f a)) ->
  (forall a b x y, S a b -> a ∈ l -> b ∈ l -> x ∈ f a -> y ∈ f b -> R x y) ->
  StronglySorted R (concat (map f l)).
Proof.
  induction 1 as [|a l Hl IH Ha]; cbn; intros Hf Hc; [constructor|].
  apply StronglySorted_app_2.
  - intros x y Hx (b & Hb & Hy)%elem_of_concat_map. rewrite Forall_forall in Ha.
    eapply Hc; [apply Ha, Hb|left|right; exact Hb|exact Hx|exact Hy].
  - apply Hf. left.
  - apply IH; [intros; apply Hf; by right|].
    intros b c x y Hbc Hb Hc'. apply Hc; [done|by right|by right].
Qed.

Lemma StronglySorted_impl_elem {A} (R S : A -> A -> Prop) l :
  StronglySorted R l -> (forall x y, x ∈ l -> y ∈ l -> R x y -> S x y) -> StronglySorted S l.
Proof.
  induction 1 as [|x l Hl IH Hx]; intros HRS; constructor.
  - apply IH. intros; apply HRS; [by right|by right|done].
  - rewrite Forall_forall in *. intros y Hy. apply HRS; [left|by right|auto].
Qed.

(** ** Preorder *)

Section Preorder.
Context (es : list ManifestEntryV2) (ch : list (list nat)) (path : nat -> list str).

(** The sorted children of an entry. *)
Definition kids_of (i : nat) : list nat := sort_children es (default [] (ch !! i)).

Fixpoint preorder (fuel i : nat) : list nat :=
  match fuel with
  | O => []
  | S fuel' => i :: concat (map (preorder fuel') (kids_of i))
  end.

(** The structure [validate] has established when the traversal starts. *)
Record forest (n : nat) : Prop := {
  forest_length : length ch = n;
  forest_later i j : j ∈ default [] (ch !! i) -> (i < j < n)%nat;
  forest_path i j : j ∈ default [] (ch !! i) -> path j = path i ++ [component_at es j];
  forest_nodup i : NoDup (default [] (ch !! i));
  forest_distinct i j k : j ∈ default [] (ch !! i) -> k ∈ default [] (ch !! i) ->
    component_at es j = component_at es k -> j = k;
}.

Context (n : nat) (Hf : forest n).

Lemma elem_of_kids i j : j ∈ kids_of i <-> j ∈ default [] (ch !! i).
Proof. unfold kids_of, sort_children. by rewrite sort_by_perm. Qed.

Lemma kids_sorted i :
  StronglySorted (fun a b => str_cmp (component_at es a) (component_at es b) = Lt) (kids_of i).
Proof.
  assert (Hnd : NoDup (kids_of i)).
  { unfold kids_of, sort_children. rewrite sort_by_perm. apply Hf. }
  assert (Hsub : forall j, j ∈ kids_of i -> j ∈ default [] (ch !! i))
    by (intros; by apply elem_of_kids).
  unfold kids_of, sort_children in *.
  set (leb := fun a b => str_leb (component_at es a) (component_at es b)) in *.
  pose proof (sort_by_sorted leb
    ltac:(intros; apply str_leb_total) ltac:(intros ???; apply str_leb_trans)
    (default [] (ch !! i))) as Hs.
  revert Hnd Hsub. induction Hs as [|x l Hl IH Hx]; intros Hnd Hsub; [constructor|].
  apply NoDup_cons in Hnd as [Hxl Hnd].
  constructor; [apply IH; [done|intros; apply Hsub; by right]|].
  rewrite Forall_forall in *. intros y Hy.
  destruct (proj1 (str_leb_spec _ _) (Hx y Hy)) as [Heq|]; [|done].
  exfalso. apply Hxl. erewrite (forest_distinct _ Hf i x y); [done|..|done].
  - apply Hsub. left.
  - apply Hsub. by right.
Qed.

Lemma preorder_fuel f1 f2 i : (n - i <= f1)%nat -> (n - i <= f2)%nat -> (i < n)%nat ->
  preorder f1 i = preorder f2 i.
Proof.
  revert f2 i. induction f1 as [|f1 IH]; intros [|f2] i H1 H2 Hi; try lia.
  cbn. f_equal. f_equal. apply map_ext_in. intros j Hj.
  apply list_elem_of_In, elem_of_kids, (forest_later _ Hf) in Hj. apply IH; lia.
Qed.

Lemma preorder_unfold i : (i < n)%nat ->
  preorder n i = i :: concat (map (preorder n) (kids_of i)).
Proof.
  intros Hi. rewrite (preorder_fuel n (S n)) by lia. reflexivity.
Qed.

(** Induction on a forest whose edges go to later entries. *)
Lemma forest_ind (P : nat -> Prop) :
  (forall i, (i < n)%nat -> (forall j, j ∈ kids_of i -> P j) -> P i) ->
  forall i, (i < n)%nat -> P i.
Proof.
  intros H i Hi. remember (n - i)%nat as d eqn:Hd. revert i Hi Hd.
  induction d as [d IH] using lt_wf_ind. intros i Hi ->.
  apply H; [done|]. intros j Hj%elem_of_kids. apply (forest_later _ Hf) in Hj.
  eapply IH; [|lia|reflexivity]. lia.
Qed.

Lemma preorder_bounds i : (i < n)%nat -> forall j, j ∈ preorder n i -> (i <= j < n)%nat.
Proof.
  revert i. apply (forest_ind (fun i => forall j, j ∈ preorder n i -> (i <= j < n)%nat)).
  intros i Hi IH j. rewrite preorder_unfold by done.
  rewrite elem_of_cons, elem_of_concat_map.
  intros [->|(k & Hk & Hj)]; [lia|]. specialize (IH _ Hk _ Hj).
  apply elem_of_kids, (forest_later _ Hf) in Hk. lia.
Qed.

Lemma preorder_prefix i : (i < n)%nat -> forall j, j ∈ preorder n i ->
  exists q, path j = path i ++ q /\ (j = i \/ q <> []).
Proof.
  revert i. apply (forest_ind (fun i => forall j, j ∈ preorder n i ->
    exists q, path j = path i ++ q /\ (j = i \/ q <> []))).
  intros i Hi IH j. rewrite preorder_unfold by done.
  rewrite elem_of_cons, elem_of_concat_map.
  intros [->|(k & Hk & Hj)]; [exists []; rewrite app_nil_r; auto|]. destruct (IH _ Hk _ Hj) as (q & Hq & _).
  apply elem_of_kids, (forest_path _ Hf) in Hk. rewrite Hq, Hk.
  exists (component_at es k :: q). rewrite <- app_assoc. auto.
Qed.

Lemma preorder_sorted i : (i < n)%nat ->
  StronglySorted (fun a b => path_lt (path a) (path b)) (preorder n i).
Proof.
  revert i. apply forest_ind. intros i Hi IH.
  assert (Hkid : forall k, k ∈ kids_of i ->
    path k = path i ++ [component_at es k] /\ (k < n)%nat).
  { intros k Hk%elem_of_kids. split; [by apply (forest_path _ Hf)|].
    apply (forest_later _ Hf) in Hk. lia. }
  rewrite preorder_unfold by done. constructor.
  - eapply StronglySorted_concat; [apply kids_sorted|exact IH|].
    intros a b x y Hab Ha Hb Hx Hy.
    destruct (Hkid _ Ha) as [Hpa Hna], (Hkid _ Hb) as [Hpb Hnb].
    apply preorder_prefix in Hx as (q & -> & _); [|done].
    apply preorder_prefix in Hy as (r & -> & _); [|done].
    rewrite Hpa, Hpb, <- !app_assoc. by apply path_lt_siblings.
  - rewrite Forall_forall. intros x (k & Hk & Hx)%elem_of_concat_map.
    destruct (Hkid _ Hk) as [Hpk Hnk].
    apply preorder_prefix in Hx as (q & -> & _); [|done].
    rewrite Hpk, <- app_assoc. apply path_lt_extend.
Qed.

Lemma preorder_nodup i : (i < n)%nat -> NoDup (preorder n i).
Proof.
  intros Hi. pose proof (preorder_sorted i Hi) as Hs.
  induction Hs as [|x l Hl IH Hx]; constructor; [|done].
  intros Hin. rewrite Forall_forall in Hx. apply Hx in Hin. by apply path_lt_irrefl in Hin.
Qed.

Lemma preorder_length i : (i < n)%nat -> (length (preorder n i) <= n)%nat.
Proof.
  intros Hi. transitivity (length (seq 0 n)); [|by rewrite length_seq].
  apply submseteq_length, NoDup_submseteq.
  - by apply preorder_nodup.
  - intros j Hj%preorder_bounds; [|done]. apply elem_of_seq. lia.
Qed.

(** A child is in the preorder of every entry whose preorder has its parent. *)
Lemma preorder_child i p j : (i < n)%nat ->
  p ∈ preorder n i -> j ∈ default [] (ch !! p) -> j ∈ preorder n i.
Proof.
  intros Hi. revert i Hi. apply (forest_ind (fun i => p ∈ preorder n i ->
    j ∈ default [] (ch !! p) -> j ∈ preorder n i)).
  intros i Hi IH Hp Hj. rewrite preorder_unfold in Hp |- * by done.
  rewrite elem_of_cons, elem_of_concat_map in Hp |- *.
  right. destruct Hp as [->|(k & Hk & Hp)]; [|eauto].
  exists j. split; [by apply elem_of_kids|].
  rewrite preorder_unfold; [left|]. apply (forest_later _ Hf) in Hj. lia.
Qed.
End Preorder.

(** ** The loop *)

Definition same_kids (es : list ManifestEntryV2) (ch ch' : list (list nat)) : Prop :=
  length ch' = length ch /\ forall i, kids_of es ch' i = kids_of es ch i.

Lemma same_kids_sort es ch i :
  same_kids es ch (<[i := sort_children es (default [] (ch !! i))]> ch).
Proof.
  split; [apply length_insert|]. intros j. unfold kids_of.
  destruct (decide (i = j)) as [<-|Hij]; [|by rewrite list_lookup_insert_ne].
  destruct (decide (i < length ch)%nat) as [Hi|Hi].
  - rewrite list_lookup_insert_eq by done. cbn. apply sort_by_idemp.
    + intros. apply str_leb_total.
    + intros ???. apply str_leb_trans.
  - by rewrite list_insert_ge by lia.
Qed.

Lemma preorder_same es ch ch' fuel i :
  same_kids es ch ch' -> preorder es ch' fuel i = preorder es ch fuel i.
Proof.
  intros [_ Hk]. revert i. induction fuel as [|fuel IH]; intros i; [done|].
  cbn. rewrite Hk. f_equal. f_equal. apply map_ext, IH.
Qed.

Lemma visit_preorder es ch path n fuel stack ch0 order :
  forest es ch path n -> same_kids es ch ch0 ->
  (forall i, i ∈ stack -> i < n)%nat ->
  (length (concat (map (preorder es ch n) stack)) <= fuel)%nat ->
  exists ch', same_kids es ch ch' /\
    visit es fuel stack ch0 order = Some (ch', order ++ concat (map (preorder es ch n) stack)).
Proof.
  intros Hf. revert stack ch0 order.
  induction fuel as [|fuel IH]; intros [|i stack] ch0 order Hch Hst Hlen;
    try (cbn; exists ch0; rewrite app_nil_r; done).
  - assert (i < n)%nat by (apply Hst; left). cbn in Hlen.
    rewrite (preorder_unfold _ _ _ _ Hf) in Hlen by done. cbn in Hlen. lia.
  - assert (Hi : (i < n)%nat) by (apply Hst; left).
    cbn [visit]. destruct Hch as [Hl0 Hk0].
    change (sort_children es (default [] (ch0 !! i))) with (kids_of es ch0 i).
    rewrite Hk0.
    assert (Hkids : concat (map (preorder es ch n) (kids_of es ch i ++ stack)) =
                    tail (concat (map (preorder es ch n) (i :: stack)))).
    { cbn. rewrite (preorder_unfold _ _ _ _ Hf) at 1 by done. cbn.
      by rewrite map_app, concat_app. }
    destruct (IH (kids_of es ch i ++ stack) (<[i := kids_of es ch i]> ch0) (order ++ [i]))
      as (ch' & Hch' & Hv).
    + pose proof (same_kids_sort es ch0 i) as [Hl Hk].
      change (sort_children es (default [] (ch0 !! i))) with (kids_of es ch0 i) in Hl, Hk.
      rewrite Hk0 in Hl, Hk. split; [congruence|]. intros j. by rewrite Hk, Hk0.
    + intros j [Hj|Hj]%elem_of_app; [|apply Hst; by right].
      apply elem_of_kids, (forest_later _ _ _ _ Hf) in Hj. lia.
    + rewrite Hkids. cbn in Hlen |- *.
      rewrite (preorder_unfold _ _ _ _ Hf) in Hlen |- * by done. cbn in Hlen |- *. lia.
    + exists ch'. split; [done|]. rewrite Hv, Hkids, <- app_assoc.
      do 3 f_equal. cbn. by rewrite (preorder_unfold _ _ _ _ Hf) by done.
Qed.

(** The traversal of all roots lists their preorders one after the other. *)
Lemma canonical_order_preorder es ch path n rs ch0 order :
  forest es ch path n -> same_kids es ch ch0 ->
  (forall r, r ∈ rs -> Z.to_nat (root_entry_id r) < n)%nat ->
  canonical_order es n rs ch0 order =
  Some (order ++ concat (map (fun r => preorder es ch n (Z.to_nat (root_entry_id r))) rs)).
Proof.
  intros Hf. revert ch0 order. induction rs as [|r rs IH]; intros ch0 order Hch Hrs.
  - cbn. by rewrite app_nil_r.
  - cbn [canonical_order].
    assert (Hr : (Z.to_nat (root_entry_id r) < n)%nat) by (apply Hrs; left).
    destruct (visit_preorder es ch path n n [Z.to_nat (root_entry_id r)] ch0 order)
      as (ch' & Hch' & Hv); [done|done| |..].
    + intros i Hi. by apply list_elem_of_singleton in Hi as ->.
    + cbn. rewrite app_nil_r. by eapply preorder_length.
    + rewrite Hv. cbn. rewrite app_nil_r, IH; [by rewrite <- app_assoc|done|].
      intros; apply Hrs; by right.
Qed.
