(* ===== verification/ValidateProof.v ===== *)
(** [ManifestV2::validate] decides [valid_manifest]: the loops over roots and
    entries against the specification of a prefix ([spec_state]), and the
    traversal against the sorted order. *)

From stdpp Require Import prelude gmap strings sorting.
From Stdlib Require Import ZArith Lia Strings.Byte.
From S2P Require Import Prelude Bytes ManifestV2 Traversal ManifestSpec.

Local Open Scope Z_scope.

(** ** Children lists *)

Definition parent_index (es : list ManifestEntryV2) (j : nat) : option nat :=
  e ← es !! j; Z.to_nat <$> parent_entry_id e.

Definition children_upto (es : list ManifestEntryV2) (k : nat) : list (list nat) :=
  (fun p => filter (fun j => parent_index es j = Some p) (seq 0 k)) <$> seq 0 (length es).

Lemma children_upto_lookup es k p :
  (p < length es)%nat ->
  children_upto es k !! p = Some (filter (fun j => parent_index es j = Some p) (seq 0 k)).
Proof.
  intros Hp. unfold children_upto. by rewrite list_lookup_fmap, lookup_seq_lt.
Qed.

Lemma length_children_upto es k : length (children_upto es k) = length es.
Proof. unfold children_upto. by rewrite length_fmap, length_seq. Qed.

Lemma elem_of_children_upto es k p j :
  j ∈ default [] (children_upto es k !! p) <->
  (p < length es)%nat /\ (j < k)%nat /\ parent_index es j = Some p.
Proof.
  destruct (decide (p < length es)%nat) as [Hp|Hp].
  - rewrite children_upto_lookup by done. cbn. rewrite list_elem_of_filter, elem_of_seq.
    naive_solver lia.
  - rewrite lookup_ge_None_2 by (rewrite length_children_upto; lia). cbn.
    rewrite elem_of_nil. tauto.
Qed.

Lemma children_upto_0 es : children_upto es 0 = replicate (length es) [].
Proof.
  unfold children_upto. cbn. generalize 0%nat. induction (length es); intros; cbn; [done|].
  by rewrite IHn.
Qed.

Lemma children_upto_S_root es k e :
  es !! k = Some e -> parent_entry_id e = None ->
  children_upto es (S k) = children_upto es k.
Proof.
  intros Hk He. apply list_fmap_ext. intros ? p _. rewrite seq_S, filter_app. cbn.
  rewrite decide_False; [by rewrite app_nil_r|].
  unfold parent_index. rewrite Hk. cbn. by rewrite He.
Qed.

Lemma children_upto_S_child es k e p :
  es !! k = Some e -> parent_entry_id e = Some p ->
  children_upto es (S k) = alter (fun l => l ++ [k]) (Z.to_nat p) (children_upto es k).
Proof.
  intros Hk He. assert (Hpi : parent_index es k = Some (Z.to_nat p)).
  { unfold parent_index. rewrite Hk. cbn. by rewrite He. }
  apply list_eq. intros q. destruct (decide (q < length es)%nat) as [Hq|Hq].
  - rewrite children_upto_lookup, seq_S, filter_app by done. cbn.
    destruct (decide (q = Z.to_nat p)) as [->|Hne].
    + rewrite list_lookup_alter_eq, children_upto_lookup by done. cbn.
      by rewrite decide_True by done.
    + rewrite list_lookup_alter_ne, children_upto_lookup by done.
      by rewrite decide_False, app_nil_r by congruence.
  - rewrite !lookup_ge_None_2; [done|..];
      rewrite ?length_alter, length_children_upto; lia.
Qed.

(** ** The loop over entries *)

Definition entry_key (e : ManifestEntryV2) : Z * option Z * str :=
  (entry_root_id e, parent_entry_id e, component e).

Section Entries.
Context (is_nfc : str -> bool) (m : ManifestV2).
Let es := entries m.

(** The loop state after the first [k] entries. *)
Definition spec_state (k : nat) : entry_state :=
  let pre := take k (entries m) in
  mkState (list_to_set (entry_key <$> pre))
    (file_total pre) (directory_total pre) (byte_total pre)
    ((fun p => zlen p) <$> take k (wire_paths (entries m)))
    (path_size <$> take k (wire_paths (entries m)))
    (children_upto (entries m) k).

#[local] Arguments spec_state : simpl never.

Lemma spec_state_0 : spec_state 0 = initial_state (length (entries m)).
Proof. unfold spec_state, initial_state. by rewrite children_upto_0. Qed.

Lemma wire_paths_take_S k e :
  es !! k = Some e ->
  take (S k) (wire_paths es) = take k (wire_paths es) ++ [path_at es k].
Proof.
  intros Hk. apply take_S_r. unfold path_at. by rewrite (wire_paths_lookup _ _ _ Hk).
Qed.

Lemma spec_state_S k e :
  es !! k = Some e ->
  spec_state (S k) =
  mkState ({[entry_key e]} ∪ sibling_components (spec_state k))
    (file_total (take (S k) es)) (directory_total (take (S k) es)) (byte_total (take (S k) es))
    (depths (spec_state k) ++ [zlen (path_at es k)])
    (path_bytes (spec_state k) ++ [path_size (path_at es k)])
    (children_upto es (S k)).
Proof.
  intros Hk. unfold spec_state. cbn.
  fold es. rewrite (wire_paths_take_S _ _ Hk), !fmap_app.
  rewrite (take_S_r _ _ _ Hk) at 1. rewrite fmap_app, list_to_set_app_L. cbn.
  f_equal. set_solver.
Qed.

Lemma spec_depth k p :
  (p < k)%nat -> (k <= length es)%nat ->
  default 0 (depths (spec_state k) !! p) = zlen (path_at es p) /\
  default 0 (path_bytes (spec_state k) !! p) = path_size (path_at es p).
Proof.
  intros Hp Hk. unfold spec_state. cbn. fold es.
  rewrite !list_lookup_fmap, !lookup_take_lt by done. unfold path_at.
  destruct (wire_paths es !! p) eqn:Hw; [done|].
  apply lookup_ge_None in Hw. rewrite length_wire_paths in Hw. lia.
Qed.

Lemma validate_parent_spec k e root d b ch :
  es !! k = Some e -> entry_id e = Z.of_nat k ->
  vec_get (roots m) (entry_root_id e) = Some root ->
  (validate_parent m k e root (spec_state k) = Ok (d, b, ch) /\
   b <= MAX_MANIFEST_V2_PATH_BYTES <->
   match parent_entry_id e with
   | None => root_entry_id root = Z.of_nat k /\ requested_name root = component e
   | Some p => p < Z.of_nat k /\ exists e', vec_get es p = Some e' /\
       entry_root_id e' = entry_root_id e /\ kind e' = Directory
   end /\ d = zlen (path_at es k) /\ b = path_size (path_at es k) /\
   ch = children_upto es (S k) /\ path_size (path_at es k) <= MAX_MANIFEST_V2_PATH_BYTES).
Proof.
  intros Hk Hid Hroot. unfold validate_parent.
  destruct (parent_entry_id e) as [p|] eqn:Hp.
  - destruct (Z.leb_spec (Z.of_nat k) p); [split; [by intros [? _]|lia]|].
    fold es. destruct (vec_get es p) as [e'|] eqn:He'; cbn;
      [|split; [by intros [? _]|naive_solver]].
    pose proof He' as [Hp0 _]%vec_get_Some.
    destruct (Z.eqb_spec (entry_root_id e') (entry_root_id e)); cbn;
      [|split; [by intros [? _]|naive_solver]].
    case_bool_decide; cbn; [|split; [by intros [? _]|naive_solver]].
    pose proof (lookup_lt_Some _ _ _ Hk) as Hkl.
    destruct (spec_depth k (Z.to_nat p)) as [-> ->]; [lia|lia|].
    rewrite (children_upto_S_child _ _ _ _ Hk Hp).
    rewrite (path_at_child _ _ _ _ Hk Hp) by lia. rewrite zlen_app, path_size_snoc.
    pose proof (path_size_nonneg (path_at es (Z.to_nat p))).
    pose proof (zlen_nonneg (component e)).
    unfold MAX_MANIFEST_V2_PATH_BYTES, checked_add, usize_max, u64_max in *.
    destruct (Z.leb_spec (path_size (path_at es (Z.to_nat p)) + zlen (component e))
      (2 ^ 64 - 1)); cbn; [|split; [by intros [? _]|lia]].
    destruct (Z.leb_spec (path_size (path_at es (Z.to_nat p)) + zlen (component e) + 1)
      (2 ^ 64 - 1)); cbn; [|split; [by intros [? _]|lia]].
    split; [intros [[= <- <- <-] ?]; naive_solver|].
    intros (_ & -> & -> & -> & ?). split; [done|lia].
  - rewrite (path_at_root _ _ _ Hk Hp), (children_upto_S_root _ _ _ Hk Hp), Hid.
    destruct (Z.eqb_spec (root_entry_id root) (Z.of_nat k)); cbn;
      [|split; [by intros [? _]|naive_solver]].
    case_bool_decide; cbn; [|split; [by intros [? _]|naive_solver]].
    split; [intros [[= <- <- <-] ?]; done|intros (_ & -> & -> & -> & ?); done].
Qed.

Definition totals_fit (l : list ManifestEntryV2) : Prop :=
  file_total l <= u32_max /\ directory_total l <= u32_max /\ byte_total l <= u64_max.

Lemma count_entry_spec k e f d b :
  es !! k = Some e -> entry_id e = Z.of_nat k -> totals_fit (take k es) ->
  (count_entry e (file_total (take k es)) (directory_total (take k es))
     (byte_total (take k es)) = Ok (f, d, b) <->
   (kind e = Directory -> plaintext_size e = 0 /\ content_digest e = Deferred) /\
   totals_fit (take (S k) es) /\
   f = file_total (take (S k) es) /\ d = directory_total (take (S k) es) /\
   b = byte_total (take (S k) es)).
Proof.
  intros Hk Hid (Hf & Hd & Hb). unfold totals_fit.
  rewrite (take_S_r _ _ _ Hk). unfold count_entry, file_total, directory_total, byte_total in *.
  rewrite !foldr_sum_app. cbn.
  set (F := foldr (fun e n => (if is_file e then 1 else 0) + n) 0 (take k es)) in *.
  set (D := foldr (fun e n => (if is_file e then 0 else 1) + n) 0 (take k es)) in *.
  set (B := foldr (fun e n => (if is_file e then plaintext_size e else 0) + n) 0
              (take k es)) in *.
  unfold is_file, checked_add.
  destruct (kind e); rewrite ?Z.add_0_r.
  - destruct (Z.leb_spec (F + 1) u32_max); cbn; [|split; [done|lia]].
    destruct (Z.leb_spec (B + plaintext_size e) u64_max); cbn; [|split; [done|lia]].
    split; [intros [= <- <- <-]; split; [naive_solver|lia]|].
    intros (_ & _ & -> & -> & ->). reflexivity.
  - destruct (Z.eqb_spec (plaintext_size e) 0); cbn; [|split; [done|naive_solver]].
    case_bool_decide; cbn; [|split; [done|naive_solver]].
    destruct (Z.leb_spec (D + 1) u32_max); cbn; [|split; [done|lia]].
    split; [intros [= <- <- <-]; split; [naive_solver|lia]|].
    intros (_ & _ & -> & -> & ->). reflexivity.
Qed.

Lemma validate_entry_spec k e st' :
  es !! k = Some e -> totals_fit (take k es) ->
  (validate_entry is_nfc m k e (spec_state k) = Ok st' <->
   valid_entry is_nfc m k e /\ entry_key e ∉ entry_key <$> take k es /\
   totals_fit (take (S k) es) /\ st' = spec_state (S k)).
Proof.
  intros Hk Hfit. unfold validate_entry.
  destruct (Z.eqb_spec (entry_id e) (Z.of_nat k)) as [Hid|]; cbn;
    [|split; [done|intros [[] _]; done]].
  destruct (validate_component is_nfc (component e)) as [[]|v] eqn:Hc; cbn.
  2:{ split; [done|]. intros [Hv _]. apply ve_component, validate_component_ok in Hv.
      congruence. }
  apply validate_component_ok in Hc.
  destruct (vec_get (roots m) (entry_root_id e)) as [root|] eqn:Hroot; cbn.
  2:{ split; [done|]. intros [[_ _ (r & Hr & _)] _]. congruence. }
  pose proof (fun d b ch => validate_parent_spec k e root d b ch Hk Hid Hroot) as Hpar.
  assert (Hkey : entry_key e ∈ sibling_components (spec_state k) <->
                 entry_key e ∈ entry_key <$> take k es).
  { unfold spec_state. cbn. by rewrite elem_of_list_to_set. }
  pose proof (fun f d b => count_entry_spec k e f d b Hk Hid Hfit) as Hcnt.
  split.
  - intros H. inv_ok. bool_prop.
    match goal with Hx : validate_parent _ _ _ _ _ = Ok (?d, ?b, ?ch) |- _ =>
      destruct (proj1 (Hpar d b ch)) as (Hp & -> & -> & -> & Hsz); [split; [done|lia]|] end.
    match goal with Hx : count_entry _ _ _ _ = _ |- _ => apply Hcnt in Hx as (Hdir & Hfit' & -> & -> & ->) end.
    split; [|split; [|split; [done|]]].
    + constructor; [done|done|eauto|done|done|done].
    + by rewrite <- Hkey.
    + by rewrite (spec_state_S _ _ Hk).
  - intros ([_ _ (r & Hr & Hp) Hdep Hsz Hdir] & Hfresh & Hfit' & ->).
    rewrite Hroot in Hr. injection Hr as <-.
    destruct (proj2 (Hpar _ _ _) (conj Hp (conj eq_refl (conj eq_refl (conj eq_refl Hsz)))))
      as [-> _].
    cbn. rewrite (proj2 (Z.ltb_ge _ _)) by done. rewrite (proj2 (Z.ltb_ge _ _)) by done.
    rewrite bool_decide_eq_false_2 by (by rewrite Hkey).
    change (st_file_count (spec_state k)) with (file_total (take k es)).
    change (st_directory_count (spec_state k)) with (directory_total (take k es)).
    change (st_total_plaintext_bytes (spec_state k)) with (byte_total (take k es)).
    rewrite (proj2 (Hcnt _ _ _) (conj Hdir (conj Hfit' (conj eq_refl (conj eq_refl eq_refl))))).
    cbn. by rewrite (spec_state_S _ _ Hk).
Qed.

(** Every entry from position [k] on is accepted. *)
Definition accepted_from (k : nat) : Prop :=
  forall i e, (k <= i)%nat -> es !! i = Some e ->
    valid_entry is_nfc m i e /\ entry_key e ∉ entry_key <$> take i es /\
    totals_fit (take (S i) es).

Lemma validate_entries_spec k st' :
  (k <= length es)%nat -> totals_fit (take k es) ->
  (validate_entries is_nfc m k (drop k es) (spec_state k) = Ok st' <->
   accepted_from k /\ st' = spec_state (length es)).
Proof.
  remember (length es - k)%nat as d eqn:Hd. revert k Hd.
  induction d as [|d IH]; intros k Hd Hk Hfit.
  - assert (k = length es) as -> by lia. rewrite drop_all. cbn.
    split; [intros [= <-]|intros [_ ->]; done]. split; [|done].
    intros i e Hi He%lookup_lt_Some. lia.
  - destruct (lookup_lt_is_Some_2 es k) as [e He]; [lia|].
    rewrite (drop_S _ _ _ He). cbn [validate_entries].
    pose proof (fun st => validate_entry_spec k e st He Hfit) as Hstep.
    split.
    + intros H. inv_ok. match goal with Hx : validate_entry _ _ _ _ _ = _ |- _ =>
        apply Hstep in Hx as (Hv & Hf & Hfit' & ->) end.
      apply IH in H as [Hacc ->]; [|lia|lia|done]. split; [|done].
      intros i e' Hi He'. destruct (decide (i = k)) as [->|]; [|apply Hacc; [lia|done]].
      rewrite He in He'. by injection He' as <-.
    + intros [Hacc ->]. destruct (Hacc k e ltac:(lia) He) as (Hv & Hf & Hfit').
      rewrite (proj2 (Hstep _) (conj Hv (conj Hf (conj Hfit' eq_refl)))). cbn.
      apply IH; [lia|lia|done|]. split; [|done]. intros i e' Hi. apply Hacc. lia.
Qed.
End Entries.

(** ** The loop over roots *)

Section Roots.
Context (is_nfc : str -> bool) (m : ManifestV2).

Definition root_accepted (i : nat) (r : ManifestRootV2) : Prop :=
  root_id r = Z.of_nat i /\ root_entry_id r < zlen (entries m) /\
  safe_component is_nfc (requested_name r) /\
  (forall o, completeness r <> UserApprovedPartial 0 o).

Lemma validate_root_spec i r ids ids' :
  validate_root is_nfc (zlen (entries m)) (Z.of_nat i) r ids = Ok ids' <->
  root_accepted i r /\ ids' = {[root_entry_id r]} ∪ ids.
Proof.
  unfold validate_root, root_accepted.
  destruct (Z.eqb_spec (root_id r) (Z.of_nat i)); cbn; [|split; [done|naive_solver]].
  destruct (Z.ltb_spec (root_entry_id r) (zlen (entries m))); cbn;
    [|split; [done|intros [(_ & ? & _) _]; lia]].
  destruct (validate_component is_nfc (requested_name r)) as [[]|v] eqn:Hc; cbn.
  2:{ split; [done|]. intros [(_ & _ & Hs & _) _].
      apply validate_component_ok in Hs. congruence. }
  apply validate_component_ok in Hc.
  destruct (completeness r) as [|[|p|p] o]; naive_solver.
Qed.

Lemma validate_roots_spec k rs ids ids' :
  validate_roots is_nfc (zlen (entries m)) (Z.of_nat k) rs ids = Ok ids' <->
  (forall i r, rs !! i = Some r -> root_accepted (k + i) r) /\
  ids' = ids ∪ list_to_set (root_entry_id <$> rs).
Proof.
  revert k ids. induction rs as [|r rs IH]; intros k ids; cbn [validate_roots].
  - cbn. split; [intros [= <-]; split; [done|set_solver]|intros [_ ->]; f_equal; set_solver].
  - replace (Z.of_nat k + 1) with (Z.of_nat (S k)) by lia. split.
    + intros H. inv_ok. match goal with Hx : validate_root _ _ _ _ _ = _ |- _ =>
        apply validate_root_spec in Hx as [Ha ->] end.
      apply IH in H as [Hrs ->]. split; [|cbn; set_solver].
      intros [|i] r' Hi; cbn in Hi; [simplify_eq; by rewrite Nat.add_0_r|].
      rewrite <- Nat.add_succ_comm. by apply Hrs.
    + intros [Hrs ->].
      rewrite (proj2 (validate_root_spec k r ids ({[root_entry_id r]} ∪ ids))).
      2:{ split; [|done]. specialize (Hrs 0%nat r eq_refl). by rewrite Nat.add_0_r in Hrs. }
      cbn. apply IH. split; [|cbn; set_solver].
      intros i r' Hi. rewrite Nat.add_succ_comm. by apply Hrs.
Qed.
End Roots.

Lemma size_list_to_set_NoDup (l : list Z) :
  size (list_to_set l : gset Z) = length l <-> NoDup l.
Proof.
  split; [|by apply size_list_to_set].
  induction l as [|x l IH]; cbn; [constructor|].
  assert (Hle : (size (list_to_set l : gset Z) <= length l)%nat).
  { clear. induction l as [|x l IH]; cbn; [by rewrite size_empty|].
    rewrite size_union_alt, size_singleton.
    pose proof (subseteq_size (list_to_set l ∖ {[x]} : gset Z) (list_to_set l)
      ltac:(set_solver)). lia. }
  intros Hs. destruct (decide (x ∈ l)) as [Hin|Hin].
  - assert (({[x]} ∪ list_to_set l : gset Z) = list_to_set l) as Heq by set_solver.
    rewrite Heq in Hs. lia.
  - constructor; [done|]. apply IH. rewrite size_union in Hs by set_solver.
    rewrite size_singleton in Hs. lia.
Qed.

Lemma check_order_spec k order :
  check_order k order = Ok tt <-> order = seq k (length order).
Proof.
  revert k. induction order as [|x order IH]; intros k; cbn; [done|].
  destruct (Nat.eqb_spec k x) as [->|]; cbn; [|split; [done|congruence]].
  rewrite IH. split; [intros Hs; congruence|intros [= Hs]; done].
Qed.
