(* ===== verification/ValidateTheorem.v ===== *)
(** The correctness theorems of [ManifestV2::validate]. *)

From stdpp Require Import prelude gmap strings sorting.
From Stdlib Require Import ZArith Lia Strings.Byte.
From S2P Require Import Prelude Bytes ManifestV2 Traversal ManifestSpec ValidateProof.

Local Open Scope Z_scope.

Section Order.
Context (is_nfc : str -> bool) (m : ManifestV2).
Let es := entries m.
Let n := length es.
Let ch := children_upto es n.
Let root_at (r : ManifestRootV2) : nat := Z.to_nat (root_entry_id r).

Context (Hacc : accepted_from is_nfc m 0).

Lemma accepted_entry i e : es !! i = Some e -> valid_entry is_nfc m i e.
Proof. intros He. by apply (Hacc i e); [lia|]. Qed.

Lemma child_parent i j :
  j ∈ default [] (ch !! i) ->
  exists ei ej p, es !! i = Some ei /\ es !! j = Some ej /\ parent_entry_id ej = Some p /\
    Z.to_nat p = i /\ 0 <= p < Z.of_nat j /\ entry_root_id ei = entry_root_id ej.
Proof.
  intros (Hi & Hj & Hp)%elem_of_children_upto. unfold parent_index in Hp.
  destruct (es !! j) as [ej|] eqn:Hej; [|done]. cbn in Hp.
  destruct (parent_entry_id ej) as [p|] eqn:Hpar; [|done]. injection Hp as <-.
  destruct (ve_parent _ _ _ _ (accepted_entry _ _ Hej)) as (r & _ & Hr).
  rewrite Hpar in Hr. destruct Hr as (Hlt & e' & He' & Hroot & _).
  apply vec_get_Some in He' as [Hp0 He']. exists e', ej, p. repeat split; done.
Qed.

Lemma accepted_forest : forest es ch (path_at es) n.
Proof.
  split.
  - apply length_children_upto.
  - intros i j Hj. destruct (child_parent _ _ Hj) as (ei & ej & p & _ & Hej & _ & <- & ? & _).
    apply lookup_lt_Some in Hej. unfold n. lia.
  - intros i j Hj.
    destruct (child_parent _ _ Hj) as (ei & ej & p & _ & Hej & Hpar & <- & Hp & _).
    rewrite (path_at_child _ _ _ _ Hej Hpar Hp). unfold component_at. by rewrite Hej.
  - intros i. unfold ch. destruct (decide (i < length es)%nat) as [Hi|Hi].
    + rewrite children_upto_lookup by done. cbn. apply NoDup_filter, NoDup_seq.
    + rewrite lookup_ge_None_2; [constructor|]. rewrite length_children_upto. lia.
  - intros i j k Hj Hk Hc.
    assert (Hkey : forall a b, a ∈ default [] (ch !! i) -> b ∈ default [] (ch !! i) ->
      component_at es a = component_at es b -> ~ (a < b)%nat).
    { intros a b Ha Hb Hab Hlt.
      destruct (child_parent _ _ Ha) as (e0 & ea & p & H0 & Hea & Hpa & Hp & ? & Hra).
      destruct (child_parent _ _ Hb) as (e1 & eb & q & H1 & Heb & Hqb & Hq & ? & Hrb).
      assert (p = q) as <- by lia. rewrite H0 in H1. injection H1 as <-.
      unfold component_at in Hab. rewrite Hea, Heb in Hab. cbn in Hab.
      destruct (Hacc b eb) as (_ & Hfresh & _); [lia|done|]. apply Hfresh.
      apply list_elem_of_fmap. exists ea. split; [unfold entry_key; congruence|].
      apply (list_elem_of_lookup_2 _ a). by rewrite lookup_take_lt. }
    pose proof (Hkey j k Hj Hk Hc). pose proof (Hkey k j Hk Hj (eq_sym Hc)). lia.
Qed.

(** An entry has the root of every entry below which it is. *)
Lemma preorder_root i j ei ej :
  (i < n)%nat -> j ∈ preorder es ch n i -> es !! i = Some ei -> es !! j = Some ej ->
  entry_root_id ej = entry_root_id ei.
Proof.
  intros Hi Hj Hei Hej. revert ei Hei Hj. revert i Hi.
  apply (forest_ind _ _ _ _ accepted_forest (fun i => forall ei, es !! i = Some ei ->
    j ∈ preorder es ch n i -> entry_root_id ej = entry_root_id ei)).
  intros i Hi IH ei Hei. rewrite (preorder_unfold _ _ _ _ accepted_forest) by done.
  rewrite elem_of_cons, elem_of_concat_map. intros [->|(k & Hk & Hj)]; [congruence|].
  pose proof Hk as Hk'%elem_of_kids.
  destruct (child_parent _ _ Hk') as (e0 & ek & p & H0 & Hek & _ & _ & _ & Hr).
  rewrite (IH k Hk ek Hek Hj). congruence.
Qed.

(** Every entry is below the entry of its root. *)
Lemma entry_reached i e :
  es !! i = Some e -> exists r, vec_get (roots m) (entry_root_id e) = Some r /\
    (parent_entry_id e = None -> root_at r = i) /\
    ((root_at r < n)%nat -> i ∈ preorder es ch n (root_at r)).
Proof.
  revert e. induction i as [i IH] using lt_wf_ind. intros e He.
  destruct (ve_parent _ _ _ _ (accepted_entry _ _ He)) as (r & Hr & Hp).
  exists r. split; [done|]. destruct (parent_entry_id e) as [p|] eqn:Hpar.
  - split; [done|]. intros Hlt. destruct Hp as (Hpi & e' & He' & Hroot & _).
    apply vec_get_Some in He' as [Hp0 He'].
    destruct (IH (Z.to_nat p) ltac:(lia) e' He') as (r' & Hr' & _ & Hin).
    rewrite Hroot, Hr in Hr'. injection Hr' as <-.
    eapply (preorder_child _ _ _ _ accepted_forest); [done|by apply Hin|].
    apply elem_of_children_upto. pose proof (lookup_lt_Some _ _ _ He).
    pose proof (lookup_lt_Some _ _ _ He'). repeat split; [done|done|].
    unfold parent_index. rewrite He. cbn. by rewrite Hpar.
  - destruct Hp as [Hroot _]. unfold root_at. rewrite Hroot, Nat2Z.id.
    split; [done|]. intros Hlt.
    rewrite (preorder_unfold _ _ _ _ accepted_forest) by done. left.
Qed.

(** The traversal of [validate], root after root. *)
Definition full_order : list nat :=
  concat (map (fun r => preorder es ch n (root_at r)) (roots m)).

Context (Hroots : forall r, r ∈ roots m -> (root_at r < n)%nat).

Lemma full_order_bounds i : i ∈ full_order <-> (i < n)%nat.
Proof.
  unfold full_order. rewrite elem_of_concat_map. split.
  - intros (r & Hr & Hi). eapply preorder_bounds in Hi; [lia|apply accepted_forest|auto].
  - intros Hi. destruct (lookup_lt_is_Some_2 es i Hi) as [e He].
    destruct (entry_reached i e He) as (r & Hr & _ & Hin).
    apply vec_get_Some in Hr as [_ Hr]. apply list_elem_of_lookup_2 in Hr. eauto.
Qed.

Lemma canonical_order_full :
  canonical_order es n (roots m) ch [] = Some full_order.
Proof.
  rewrite (canonical_order_preorder es ch (path_at es) n); [done|..].
  - apply accepted_forest.
  - split; done.
  - done.
Qed.

Context (Hids : forall i r, roots m !! i = Some r -> root_id r = Z.of_nat i).

Lemma full_order_sorted :
  (forall r, r ∈ roots m -> forall e, es !! root_at r = Some e ->
     entry_root_id e = root_id r) ->
  StronglySorted (position_lt m) full_order.
Proof.
  intros Hre.
  assert (Hroot_of : forall r j, r ∈ roots m -> j ∈ preorder es ch n (root_at r) ->
    exists ej, es !! j = Some ej /\ entry_root_id ej = root_id r).
  { intros r j Hr Hj. assert (Hlt := Hroots r Hr).
    destruct (lookup_lt_is_Some_2 es _ Hlt) as [e He].
    destruct (lookup_lt_is_Some_2 es j) as [ej Hej].
    - eapply preorder_bounds in Hj; [|apply accepted_forest|done]. unfold n in *. lia.
    - exists ej. split; [done|].
      rewrite (preorder_root (root_at r) j e ej) by done. by apply Hre. }
  eapply (StronglySorted_concat _ (fun a b => root_id a < root_id b)).
  - assert (Hs : forall k rs, (forall i r, rs !! i = Some r -> root_id r = Z.of_nat (k + i)) ->
      StronglySorted (fun a b => root_id a < root_id b) rs); [|by apply (Hs 0%nat)].
    intros k rs. revert k. induction rs as [|r rs IH]; intros k Hk; constructor.
    + apply (IH (S k)). intros i r' Hi. rewrite (Hk (S i) r' Hi). lia.
    + rewrite Forall_forall. intros r' [i Hi]%list_elem_of_lookup.
      rewrite (Hk 0%nat r eq_refl), (Hk (S i) r' Hi). lia.
  - intros r Hr. assert (Hlt := Hroots r Hr).
    eapply StronglySorted_impl_elem;
      [exact (preorder_sorted _ _ _ _ accepted_forest _ Hlt)|].
    intros x y Hx Hy Hxy. destruct (Hroot_of r x) as (ex & Hex & Hrx); [done..|].
    destruct (Hroot_of r y) as (ey & Hey & Hry); [done..|].
    exists ex, ey. split; [done|]. split; [done|]. right. split; [congruence|done].
  - intros a b x y Hab Ha Hb Hx Hy. destruct (Hroot_of a x) as (ex & Hex & Hrx); [done..|].
    destruct (Hroot_of b y) as (ey & Hey & Hry); [done..|].
    exists ex, ey. split; [done|]. split; [done|]. left. congruence.
Qed.
End Order.

Lemma NoDup_concat_map_inj {A B} (f : A -> list B) l i j a b x :
  NoDup (concat (map f l)) -> l !! i = Some a -> l !! j = Some b ->
  x ∈ f a -> x ∈ f b -> i = j.
Proof.
  revert i j. induction l as [|c l IH]; intros i j Hnd Hi Hj Hxa Hxb; [done|].
  cbn in Hnd. apply NoDup_app in Hnd as (_ & Hdis & Hnd).
  assert (Hrest : forall k d, l !! k = Some d -> x ∈ f d -> x ∈ concat (map f l)).
  { intros k d Hk Hx. apply elem_of_concat_map. eauto using list_elem_of_lookup_2. }
  destruct i as [|i], j as [|j]; cbn in Hi, Hj; simplify_eq; [done| | |].
  - exfalso. apply (Hdis x); [done|by eapply Hrest].
  - exfalso. apply (Hdis x); [done|by eapply Hrest].
  - f_equal. by eapply IH.
Qed.

Lemma seq_eq_length (l : list nat) n :
  l = seq 0 (length l) -> (forall i, i ∈ l <-> (i < n)%nat) -> l = seq 0 n.
Proof.
  intros Hl Hel. rewrite Hl. f_equal. set (k := length l) in *.
  assert (Hk : forall i, (i < k)%nat <-> (i < n)%nat).
  { intros i. rewrite <- Hel, Hl, elem_of_seq. lia. }
  pose proof (Hk k). pose proof (Hk n). lia.
Qed.

Lemma wf_manifest_root m r :
  wf_manifest m = true -> r ∈ roots m -> wf_root r = true.
Proof.
  unfold wf_manifest. intros Hwf Hr. bool_prop.
  match goal with H : forallb wf_root _ = true |- _ => rewrite forallb_forall in H; apply H end.
  by apply list_elem_of_In.
Qed.

Lemma wf_manifest_entry m e :
  wf_manifest m = true -> e ∈ entries m -> wf_entry e = true.
Proof.
  unfold wf_manifest. intros Hwf He. bool_prop.
  match goal with H : forallb wf_entry _ = true |- _ => rewrite forallb_forall in H; apply H end.
  by apply list_elem_of_In.
Qed.

Section Theorem_.
Context (is_nfc : str -> bool) (m : ManifestV2).
Context (Hwf : wf_manifest m = true).

Lemma root_entry_nonneg r : r ∈ roots m -> 0 <= root_entry_id r.
Proof.
  intros Hr%(wf_manifest_root m); [|done]. unfold wf_root, is_u32 in Hr. bool_prop. done.
Qed.

Lemma accepted_roots_bound :
  (forall i r, roots m !! i = Some r -> root_accepted is_nfc m i r) ->
  forall r, r ∈ roots m -> (Z.to_nat (root_entry_id r) < length (entries m))%nat.
Proof.
  intros Ha r Hr. pose proof (root_entry_nonneg r Hr).
  apply list_elem_of_lookup in Hr as [i Hi]. destruct (Ha i r Hi) as (_ & Hlt & _).
  unfold zlen in Hlt. lia.
Qed.

(** A traversal without repetition starts at parentless entries only. *)
Lemma sound_roots i r :
  accepted_from is_nfc m 0 ->
  (forall j s, roots m !! j = Some s -> root_accepted is_nfc m j s) ->
  NoDup (full_order m) -> roots m !! i = Some r -> valid_root is_nfc m i r.
Proof.
  intros Hacc Ha Hnd Hi. destruct (Ha i r Hi) as (Hid & Hlt & Hname & Hpart).
  pose proof (list_elem_of_lookup_2 _ _ _ Hi) as Hr. pose proof (root_entry_nonneg r Hr).
  pose proof (accepted_roots_bound Ha) as Hbound.
  destruct (lookup_lt_is_Some_2 (entries m) (Z.to_nat (root_entry_id r))) as [e He]; [auto|].
  assert (Hroot : forall j ej, entries m !! j = Some ej ->
    j ∈ preorder (entries m) (children_upto (entries m) (length (entries m)))
          (length (entries m)) (Z.to_nat (root_entry_id r)) ->
    entry_root_id ej = Z.of_nat i /\ (parent_entry_id ej = None ->
      Z.to_nat (root_entry_id r) = j)).
  { intros j ej Hej Hin.
    destruct (entry_reached is_nfc m Hacc j ej Hej) as (r' & Hr' & Hpn & Hin').
    apply vec_get_Some in Hr' as [H0 Hr'].
    specialize (Hin' (Hbound _ (list_elem_of_lookup_2 _ _ _ Hr'))).
    pose proof (NoDup_concat_map_inj _ _ _ _ _ _ _ Hnd Hi Hr' Hin Hin') as Heq.
    rewrite <- Heq, Hi in Hr'. injection Hr' as <-. split; [lia|done]. }
  destruct (Hroot _ _ He) as [Hrid _].
  { rewrite (preorder_unfold _ _ _ _ (accepted_forest is_nfc m Hacc)) by auto. left. }
  split; [done|done|done|]. exists e. split; [by apply vec_get_Some|].
  destruct (ve_parent _ _ _ _ (accepted_entry is_nfc m Hacc _ _ He)) as (r1 & Hr1 & Hp).
  apply vec_get_Some in Hr1 as [_ Hr1].
  rewrite Hrid, Nat2Z.id, Hi in Hr1. injection Hr1 as <-.
  destruct (parent_entry_id e) as [p|] eqn:Hpar.
  - exfalso. destruct Hp as (Hpi & e' & He' & Hr' & _). apply vec_get_Some in He' as [Hp0 He'].
    destruct (entry_reached is_nfc m Hacc _ _ He') as (r2 & Hr2 & _ & Hin).
    apply vec_get_Some in Hr2 as [_ Hr2].
    rewrite Hr', Hrid, Nat2Z.id, Hi in Hr2. injection Hr2 as <-.
    specialize (Hin (Hbound _ Hr)).
    eapply preorder_bounds in Hin; [|by eapply accepted_forest|auto]. lia.
  - destruct Hp as [_ Hn]. split; [done|]. split; [congruence|done].
Qed.

Lemma position_lt_irrefl i : ~ position_lt m i i.
Proof.
  intros (ei & ej & Hi & Hj & H). rewrite Hi in Hj. injection Hj as <-.
  destruct H as [|[_ H]]; [lia|]. by apply path_lt_irrefl in H.
Qed.

#[export] Instance position_lt_trans : Transitive (position_lt m).
Proof.
  intros i j k (ei & ej & Hi & Hj & H) (ej' & ek & Hj' & Hk & H').
  rewrite Hj in Hj'. injection Hj' as <-. exists ei, ek. split; [done|]. split; [done|].
  destruct H as [|[? ?]], H' as [|[? ?]]; [lia|lia|lia|right; split; [lia|]].
  by etransitivity.
Qed.

Lemma byte_total_take k :
  byte_total (take k (entries m)) <= byte_total (entries m).
Proof.
  rewrite <- (take_drop k (entries m)) at 2. unfold byte_total. rewrite foldr_sum_app.
  enough (0 <= foldr (fun e n => (if is_file e then plaintext_size e else 0) + n) 0
    (drop k (entries m))) by lia.
  assert (Hd : forall e, e ∈ drop k (entries m) -> 0 <= plaintext_size e).
  { intros e He. assert (e ∈ entries m) as Hin.
    { rewrite <- (take_drop k (entries m)). set_solver. }
    apply (wf_manifest_entry m) in Hin; [|done]. rename Hin into He'.
    unfold wf_entry, is_u64 in He'. bool_prop. done. }
  induction (drop k (entries m)) as [|e l IH]; cbn; [lia|].
  assert (0 <= plaintext_size e) by (apply Hd; left).
  assert (forall e, e ∈ l -> 0 <= plaintext_size e) by (intros; apply Hd; by right).
  specialize (IH ltac:(done)). destruct (is_file e); lia.
Qed.

Lemma count_totals_le l :
  file_total l <= zlen l /\ directory_total l <= zlen l.
Proof.
  unfold file_total, directory_total. induction l as [|e l IH]; cbn; [done|].
  rewrite zlen_cons. destruct (is_file e); lia.
Qed.

Lemma complete_accepted : valid_manifest is_nfc m -> accepted_from is_nfc m 0.
Proof.
  intros Hv i e _ He. split; [by apply Hv|]. split.
  - intros (e' & Hkey & Hin)%list_elem_of_fmap.
    apply list_elem_of_lookup in Hin as [j Hj].
    apply lookup_take_Some in Hj as [Hj Hji].
    pose proof (vm_order _ _ Hv) as Hs.
    pose proof (lookup_lt_Some _ _ _ He) as Hi.
    assert (Hlt : position_lt m j i).
    { replace (length (entries m)) with (i + (length (entries m) - i))%nat in Hs by lia.
      rewrite seq_app in Hs. eapply StronglySorted_app_1_elem_of; [exact Hs|..];
        apply elem_of_seq; lia. }
    destruct Hlt as (ej & ei & Hj' & Hi' & Hlt).
    assert (path_at (entries m) j = path_at (entries m) i) as Hpath.
    { unfold entry_key in Hkey. injection Hkey as Hr Hp Hc.
      destruct (ve_parent _ _ _ _ (vm_entry _ _ Hv _ _ Hj)) as (r0 & _ & Hpj).
      destruct (parent_entry_id e) as [p|] eqn:Hpe; rewrite <- Hp in Hpj.
      - destruct Hpj as (? & e2 & [? _]%vec_get_Some & _).
        rewrite (path_at_child _ j e' p), (path_at_child _ i e p) by (done || lia).
        by rewrite Hc.
      - by rewrite (path_at_root _ j e'), (path_at_root _ i e) by done. }
    rewrite Hj in Hj'. rewrite He in Hi'. injection Hj' as <-. injection Hi' as <-.
    injection Hkey as Hr _ _. destruct Hlt as [|[_ Hlt]]; [lia|].
    rewrite Hpath in Hlt. by apply path_lt_irrefl in Hlt.
  - pose proof (count_totals_le (take (S i) (entries m))) as [? ?].
    pose proof (byte_total_take (S i)). pose proof (vm_bytes _ _ Hv).
    destruct (vm_entries_bound _ _ Hv) as [_ Hb].
    assert (zlen (take (S i) (entries m)) <= zlen (entries m))
      by (unfold zlen; rewrite length_take; lia).
    unfold totals_fit, u32_max, MAX_MANIFEST_V2_ENTRIES in *. lia.
Qed.
End Theorem_.

(** The traversal of [validate] as its loops leave it. *)
Lemma canonical_order_spec is_nfc m st :
  wf_manifest m = true ->
  (forall i r, roots m !! i = Some r -> root_accepted is_nfc m i r) ->
  accepted_from is_nfc m 0 -> st = spec_state m (length (entries m)) ->
  canonical_order (entries m) (length (entries m)) (roots m) (children st) []
    = Some (full_order m).
Proof.
  intros Hwf Ha Hacc ->. apply (canonical_order_full is_nfc); [done|].
  by apply (accepted_roots_bound is_nfc m Hwf).
Qed.

Lemma validate_entries_start is_nfc m st :
  validate_entries is_nfc m 0 (entries m) (initial_state (length (entries m))) = Ok st <->
  accepted_from is_nfc m 0 /\ st = spec_state m (length (entries m)).
Proof.
  rewrite <- (spec_state_0 m), <- (drop_0 (entries m)) at 1.
  apply validate_entries_spec; [lia|]. repeat split; cbn; done.
Qed.

Lemma spec_state_totals m :
  let st := spec_state m (length (entries m)) in
  mkTotals (st_file_count st) (st_directory_count st) (st_total_plaintext_bytes st)
    = totals_of (entries m).
Proof. unfold spec_state, totals_of. cbn. by rewrite take_ge. Qed.

Lemma root_entry_ids_size m :
  Z.of_nat (size (∅ ∪ list_to_set (root_entry_id <$> roots m) : gset Z)) = zlen (roots m) <->
  NoDup (root_entry_id <$> roots m).
Proof.
  rewrite union_empty_l_L, <- size_list_to_set_NoDup, length_fmap. unfold zlen. lia.
Qed.

(** The parentless entries named by the roots are distinct. *)
Lemma valid_roots_NoDup is_nfc m :
  (forall i r, roots m !! i = Some r -> valid_root is_nfc m i r) ->
  NoDup (root_entry_id <$> roots m).
Proof.
  intros Hvr. apply NoDup_alt. intros i j x Hi Hj. rewrite !list_lookup_fmap in Hi, Hj.
  destruct (roots m !! i) as [ri|] eqn:Hri; [|done].
  destruct (roots m !! j) as [rj|] eqn:Hrj; [|done]. cbn in Hi, Hj. simplify_eq.
  destruct (Hvr i ri Hri) as [Hidi _ _ (ei & Hei & _ & Hrei & _)].
  destruct (Hvr j rj Hrj) as [Hidj _ _ (ej & Hej & _ & Hrej & _)].
  enough (root_id ri = root_id rj) by lia. congruence.
Qed.

(** The order of the traversal of a valid manifest is the order of its entries. *)
Lemma valid_full_order is_nfc m :
  wf_manifest m = true -> valid_manifest is_nfc m ->
  full_order m = seq 0 (length (entries m)).
Proof.
  intros Hwf Hv. pose proof (complete_accepted is_nfc m Hwf Hv) as Hacc.
  assert (Hbound : forall r, r ∈ roots m ->
    (Z.to_nat (root_entry_id r) < length (entries m))%nat).
  { intros r [i Hi]%list_elem_of_lookup.
    destruct (vm_root _ _ Hv i r Hi) as [_ _ _ (e & He & _)].
    apply vec_get_Some in He as [_ He]. by apply lookup_lt_Some in He. }
  apply (strict_sorted_unique (position_lt m)).
  - apply position_lt_irrefl.
  - apply (full_order_sorted is_nfc); [done|done| |].
    + intros i r Hi. by destruct (vm_root _ _ Hv i r Hi).
    + intros r [i Hi]%list_elem_of_lookup e He.
      destruct (vm_root _ _ Hv i r Hi) as [_ _ _ (e' & He' & _ & Hre & _)].
      apply vec_get_Some in He' as [_ He']. congruence.
  - apply Hv.
  - intros i. rewrite (full_order_bounds is_nfc) by done. rewrite elem_of_seq. lia.
Qed.

Lemma validate_sound is_nfc m :
  wf_manifest m = true -> validate is_nfc m = Ok tt -> valid_manifest is_nfc m.
Proof.
  intros Hwf.
  unfold validate. intros H. inv_ok. bool_prop.
  match goal with Hx : validate_roots _ _ _ _ _ = _ |- _ =>
    apply (validate_roots_spec is_nfc m 0) in Hx as [Ha ->] end.
  match goal with Hx : validate_entries _ _ _ _ _ = _ |- _ =>
    apply validate_entries_start in Hx as [Hacc ->] end.
  rewrite (canonical_order_spec is_nfc) in H by done. inv_ok. bool_prop.
  match goal with Hx : check_order _ _ = _ |- _ => apply check_order_spec in Hx as Hord end.
  pose proof (accepted_roots_bound is_nfc m Hwf Ha) as Hbound.
  assert (Hseq : full_order m = seq 0 (length (entries m))).
  { apply seq_eq_length; [done|]. by apply (full_order_bounds is_nfc). }
  assert (Hvr : forall i r, roots m !! i = Some r -> valid_root is_nfc m i r).
  { intros i r. apply sound_roots; [done..|]. rewrite Hseq. apply NoDup_seq. }
  rewrite spec_state_totals in *. constructor; try done.
  + by apply accepted_entry.
  + rewrite <- Hseq. apply (full_order_sorted is_nfc); [done|done| |].
    * intros i r Hi. by destruct (Hvr i r Hi).
    * intros r Hr e He. apply list_elem_of_lookup in Hr as [i Hi].
      destruct (Hvr i r Hi) as [Hid _ _ (e' & He' & _ & Hre & _)].
      apply vec_get_Some in He' as [_ He']. congruence.
  + destruct (lookup_lt_is_Some_2 (entries m) (length (entries m) - 1)) as [e He].
    { destruct (nil_or_length_pos (entries m)); [done|lia]. }
    destruct (Hacc _ _ (Nat.le_0_l _) He) as (_ & _ & _ & _ & Hb).
    rewrite take_ge in Hb; [done|]. apply lookup_lt_Some in He. lia.
Qed.

Lemma validate_complete is_nfc m :
  wf_manifest m = true -> valid_manifest is_nfc m -> validate is_nfc m = Ok tt.
Proof.
  intros Hwf.
  intros Hv. pose proof (complete_accepted is_nfc m Hwf Hv) as Hacc.
  pose proof (valid_full_order is_nfc m Hwf Hv) as Hfull.
  destruct Hv as [Hj Hg Hs [Hr0 Hr] [He0 He] Hvr _ _ Htot _].
  unfold validate.
  rewrite (bool_decide_eq_false_2 _ Hj), (bool_decide_eq_false_2 _ Hr0),
    (bool_decide_eq_false_2 _ He0), (proj2 (Z.eqb_neq _ _) Hg), (proj2 (Z.eqb_neq _ _) Hs),
    (proj2 (Z.ltb_ge _ _) Hr), (proj2 (Z.ltb_ge _ _) He).
  assert (Ha : forall i r, roots m !! i = Some r -> root_accepted is_nfc m i r).
  { intros i r Hi. destruct (Hvr i r Hi) as [? ? ? (e & He' & _)].
    split; [done|]. split; [|by split]. apply vec_get_Some in He' as [? He'].
    apply lookup_lt_Some in He'. unfold zlen. lia. }
  rewrite (proj2 (validate_roots_spec is_nfc m 0 (roots m) ∅ _) (conj Ha eq_refl)).
  cbn [mbind result_bind].
  rewrite (proj2 (validate_entries_start is_nfc m _) (conj Hacc eq_refl)).
  cbn [mbind result_bind]. rewrite (canonical_order_spec is_nfc) by done.
  rewrite (proj2 (Z.eqb_eq _ _)
    (proj2 (root_entry_ids_size m) (valid_roots_NoDup is_nfc m Hvr))).
  cbn [negb]. rewrite Hfull, (proj2 (check_order_spec 0 _)) by (by rewrite length_seq).
  cbn [mbind result_bind]. cbn zeta. rewrite spec_state_totals.
  by rewrite (bool_decide_eq_true_2 _ Htot).
Qed.

(** C7. [ManifestV2::validate] accepts exactly the manifests that are valid by
    the declarative specification: identity fields non-zero, root and entry
    counts within the limits, canonical ids, safe NFC components, every entry
    under a directory of its own root or the named entry of its root, depth and
    path size within the limits, exact totals that do not overflow, and entries
    strictly sorted by root and then by path. *)
Theorem validate_iff (is_nfc : str -> bool) (m : ManifestV2) :
  wf_manifest m = true ->
  (validate is_nfc m = Ok tt <-> valid_manifest is_nfc m).
Proof. split; [by apply validate_sound|by apply validate_complete]. Qed.

(** The stack loop of [validate] terminates: on every manifest that passes
    the loops over roots and entries, the traversal of all roots ends within
    one turn per entry and root, and it visits every entry and nothing else. *)
Theorem canonical_order_total (is_nfc : str -> bool) (m : ManifestV2) (ids : gset Z)
    (st : entry_state) :
  wf_manifest m = true ->
  validate_roots is_nfc (zlen (entries m)) 0 (roots m) ∅ = Ok ids ->
  validate_entries is_nfc m 0 (entries m) (initial_state (length (entries m))) = Ok st ->
  exists order,
    canonical_order (entries m) (length (entries m)) (roots m) (children st) [] = Some order /\
    forall i, i ∈ order <-> (i < length (entries m))%nat.
Proof.
  intros Hwf [Ha _]%(validate_roots_spec is_nfc m 0) [Hacc ->]%validate_entries_start.
  exists (full_order m). split; [by apply (canonical_order_spec is_nfc)|].
  apply (full_order_bounds is_nfc); [done|]. by apply (accepted_roots_bound is_nfc m Hwf).
Qed.
