(* ===== verification/OfferCodec.v ===== *)
(** The offer codec of manifest_v2.rs: [encode_manifest_offer_v2],
    [build_manifest_offer_v2], [decode_manifest_offer_v2] and the body codec.
    A function that appends to [output: &mut Vec<u8>] is modelled by the bytes
    it appends.  The crates [blake3] and [unicode_normalization] are parameters. *)

From stdpp Require Import prelude gmap strings.
From Stdlib Require Import ZArith Lia Strings.Byte.
From S2P Require Import Prelude Bytes Reader ManifestV2 ManifestSpec.

Local Open Scope Z_scope.

Inductive ManifestV2CodecError :=
| Validation (e : ManifestV2ValidationError)
| EncodedOfferTooLarge
| Truncated
| BadMagic
| UnsupportedVersion (version : Z)
| UnexpectedFrameType (frame_type : Z)
| LengthMismatch
| StructuralDigestMismatch
| UnknownCompressionPolicy (value : Z)
| UnknownEntryKind (value : Z)
| UnknownCompleteness (value : Z)
| UnknownDigestTag (value : Z)
| RootCountTooLarge (count : Z)
| EntryCountTooLarge (count : Z)
| ComponentTooLarge (len : Z)
| PathDepthTooLarge (depth : Z)
| PathBytesTooLarge (bytes : Z)
| UnknownRootInWire (rid : Z)
| MissingWireParent (eid : Z)
| DuplicateWirePath (eid : Z)
| InvalidUtf8
| TrailingBytes.

#[export] Instance ManifestV2CodecError_eq_dec : EqDecision ManifestV2CodecError.
Proof. solve_decision. Defined.

(** ** Writers *)

Definition push_u16 (v : Z) : list byte := be_bytes 2 v.
Definition push_u32 (v : Z) : list byte := be_bytes 4 v.
Definition push_u64 (v : Z) : list byte := be_bytes 8 v.
Definition push_u8 (v : Z) : list byte := [byte_of v].
Definition push_bytes (bs : list byte) : list byte := push_u32 (zlen bs) ++ bs.

Arguments push_u8 : simpl never.
Arguments push_u16 : simpl never.
Arguments push_u32 : simpl never.
Arguments push_u64 : simpl never.
Arguments push_bytes : simpl never.

Definition encode_completeness (c : SourceCompletenessV2) : list byte :=
  match c with
  | Complete => push_u8 0
  | UserApprovedPartial inaccessible omitted =>
    push_u8 1 ++ push_u64 inaccessible ++
    match omitted with
    | Some count => push_u8 1 ++ push_u64 count
    | None => push_u8 0
    end
  end.

Definition encode_root (root : ManifestRootV2) : list byte :=
  push_u32 (root_id root) ++ push_u32 (root_entry_id root) ++
  push_bytes (requested_name root) ++ encode_completeness (completeness root).

Definition encode_content_digest (d : EntryContentDigestV2) : list byte :=
  match d with
  | Deferred => push_u8 0
  | Known digest => push_u8 1 ++ digest
  end.

(** One turn of the loop over entries, given the entry's wire path. *)
Definition encode_entry (path : list str) (entry : ManifestEntryV2) : list byte :=
  push_u32 (entry_id entry) ++ push_u32 (entry_root_id entry) ++
  push_u32 (zlen path) ++ concat (map push_bytes path) ++
  push_u8 (entry_kind_id (kind entry)) ++ push_u64 (plaintext_size entry) ++
  encode_content_digest (content_digest entry).

(** The loop over entries; [wire_paths] are the paths written so far. *)
Fixpoint encode_entries (wire_paths : list (list str)) (es : list ManifestEntryV2)
    : list byte :=
  match es with
  | [] => []
  | entry :: es' =>
    let path := wire_path wire_paths entry in
    encode_entry path entry ++ encode_entries (wire_paths ++ [path]) es'
  end.

Definition encode_totals (t : ManifestTotalsV2) : list byte :=
  push_u32 (file_count t) ++ push_u32 (directory_count t) ++ push_u64 (total_plaintext_bytes t).

Definition encode_manifest_body (m : ManifestV2) : list byte :=
  job_id m ++ push_u32 (generation m) ++ push_u64 (selection_revision m) ++
  push_u8 (compression_policy_id (compression_policy m)) ++
  push_u32 (zlen (roots m)) ++ concat (map encode_root (roots m)) ++
  push_u32 (zlen (entries m)) ++ encode_entries [] (entries m) ++
  encode_totals (totals m).

(** ** Readers *)

Abbreviation reader A := (parser ManifestV2CodecError A).
Definition r_exact (n : Z) : reader (list byte) := read_exact Truncated Truncated n.
Definition r_array (n : Z) : reader (list byte) := read_array Truncated Truncated n.
Definition r_u8 : reader Z := read_u8 Truncated Truncated.
Definition r_u16 : reader Z := read_be Truncated Truncated 2.
Definition r_u32 : reader Z := read_be Truncated Truncated 4.
Definition r_u64 : reader Z := read_be Truncated Truncated 8.

Definition read_component : reader str :=
  len ← r_u32;
  if MAX_MANIFEST_V2_COMPONENT_BYTES <? len then fail (ComponentTooLarge len)
  else
    bytes ← r_exact len;
    lift (ok_or InvalidUtf8 (from_utf8 bytes)).

Definition compression_policy_try_from (v : Z) : result ManifestV2CodecError CompressionPolicyV2 :=
  match v with
  | 0 => Ok Never
  | 1 => Ok Always
  | 2 => Ok Smart
  | other => Err (UnknownCompressionPolicy other)
  end.

Definition entry_kind_try_from (v : Z) : result ManifestV2CodecError ManifestEntryKindV2 :=
  match v with
  | 1 => Ok RegularFile
  | 2 => Ok Directory
  | other => Err (UnknownEntryKind other)
  end.

Definition decode_completeness : reader SourceCompletenessV2 :=
  tag ← r_u8;
  match tag with
  | 0 => mret Complete
  | 1 =>
    inaccessible ← r_u64;
    tag' ← r_u8;
    match tag' with
    | 0 => mret (UserApprovedPartial inaccessible None)
    | 1 => count ← r_u64; mret (UserApprovedPartial inaccessible (Some count))
    | other => fail (UnknownCompleteness other)
    end
  | other => fail (UnknownCompleteness other)
  end.

Definition decode_root : reader ManifestRootV2 :=
  rid ← r_u32;
  eid ← r_u32;
  name ← read_component;
  completeness ← decode_completeness;
  mret (mkRoot rid eid name completeness).

(** [for index in 0..path_count]: the components, with the running size check. *)
Fixpoint decode_path (n : nat) (first : bool) (bytes : Z) : reader (list str) :=
  match n with
  | O => mret []
  | S n' =>
    c ← read_component;
    match (b ← checked_add usize_max bytes (zlen c);
           checked_add usize_max b (if first then 0 else 1)) with
    | None => fail (PathBytesTooLarge usize_max)
    | Some bytes' =>
      if MAX_MANIFEST_V2_PATH_BYTES <? bytes' then fail (PathBytesTooLarge bytes')
      else
        path ← decode_path n' false bytes';
        mret (c :: path)
    end
  end.

Definition decode_content_digest : reader EntryContentDigestV2 :=
  tag ← r_u8;
  match tag with
  | 0 => mret Deferred
  | 1 => digest ← r_array DIGEST_BYTES; mret (Known digest)
  | other => fail (UnknownDigestTag other)
  end.

(** The parent and component of an entry from its wire path. *)
Definition resolve_path (rs : list ManifestRootV2) (path_to_entry : gmap (Z * list str) Z)
    (eid rid : Z) (path : list str) : result ManifestV2CodecError (option Z * str) :=
  root ← ok_or (UnknownRootInWire rid) (vec_get rs rid);
  match last path with
  | Some component =>
    parent ← ok_or (MissingWireParent eid)
               (path_to_entry !! (rid, take (length path - 1) path));
    Ok (Some parent, component)
  | None => Ok (None, requested_name root)
  end.

(** One turn of the entry loop: the entry, its wire path, the updated map. *)
Definition decode_entry (rs : list ManifestRootV2) (path_to_entry : gmap (Z * list str) Z)
    : reader (ManifestEntryV2 * gmap (Z * list str) Z) :=
  eid ← r_u32;
  rid ← r_u32;
  path_count ← r_u32;
  if MAX_MANIFEST_V2_PATH_DEPTH <? path_count then fail (PathDepthTooLarge path_count)
  else
    path ← decode_path (Z.to_nat path_count) true 0;
    '(parent, component) ← lift (resolve_path rs path_to_entry eid rid path);
    kind_tag ← r_u8;
    kind ← lift (entry_kind_try_from kind_tag);
    size ← r_u64;
    digest ← decode_content_digest;
    match path_to_entry !! (rid, path) with
    | Some _ => fail (DuplicateWirePath eid)
    | None =>
      mret (mkEntry eid rid parent component kind size digest,
            <[(rid, path) := eid]> path_to_entry)
    end.

Fixpoint decode_entries (n : nat) (rs : list ManifestRootV2)
    (path_to_entry : gmap (Z * list str) Z) : reader (list ManifestEntryV2) :=
  match n with
  | O => mret []
  | S n' =>
    '(entry, path_to_entry') ← decode_entry rs path_to_entry;
    es ← decode_entries n' rs path_to_entry';
    mret (entry :: es)
  end.

Definition decode_totals : reader ManifestTotalsV2 :=
  files ← r_u32;
  dirs ← r_u32;
  bytes ← r_u64;
  mret (mkTotals files dirs bytes).

Definition decode_manifest_body : reader ManifestV2 :=
  jid ← r_array JOB_ID_BYTES;
  generation ← r_u32;
  revision ← r_u64;
  policy_tag ← r_u8;
  policy ← lift (compression_policy_try_from policy_tag);
  root_count ← r_u32;
  if MAX_MANIFEST_V2_ROOTS <? root_count then fail (RootCountTooLarge root_count)
  else
    rs ← read_n (Z.to_nat root_count) 0 (fun _ => decode_root);
    entry_count ← r_u32;
    if MAX_MANIFEST_V2_ENTRIES <? entry_count then fail (EntryCountTooLarge entry_count)
    else
      es ← decode_entries (Z.to_nat entry_count) rs ∅;
      totals ← decode_totals;
      mret (mkManifest jid generation revision policy rs es totals).

(** ** Offers *)

Section Offers.
Context (is_nfc : str -> bool) (blake3 : list byte -> list byte).

Definition build_manifest_offer_v2 (m : ManifestV2)
    : result ManifestV2CodecError ManifestOfferV2 :=
  _ ← map_err Validation (validate is_nfc m);
  Ok (mkOffer (blake3 (encode_manifest_body m)) m).

Definition encode_manifest_offer_v2 (m : ManifestV2) : result ManifestV2CodecError (list byte) :=
  offer ← build_manifest_offer_v2 m;
  let body := encode_manifest_body (manifest offer) in
  payload_len ← ok_or EncodedOfferTooLarge (checked_add usize_max DIGEST_BYTES (zlen body));
  encoded_len ← ok_or EncodedOfferTooLarge
                  (checked_add usize_max OFFER_HEADER_BYTES payload_len);
  if MAX_MANIFEST_V2_ENCODED_BYTES <? encoded_len then Err EncodedOfferTooLarge
  else if negb (is_u32 payload_len) then Err EncodedOfferTooLarge
  else
    Ok (OFFER_MAGIC ++ push_u16 MANIFEST_V2_PROTOCOL_VERSION ++
        push_u16 (frame_type_id FT_Offer) ++ push_u32 payload_len ++
        structural_digest offer ++ body).

(** After the payload length: the digest, the body, the validation. *)
Definition decode_offer_payload : reader ManifestOfferV2 :=
  claimed ← r_array DIGEST_BYTES;
  body ← r_remaining_slice;
  if negb (bool_decide (claimed = blake3 body)) then fail StructuralDigestMismatch
  else
    m ← decode_manifest_body;
    left ← r_remaining;
    if negb (left =? 0) then fail TrailingBytes
    else
      _ ← lift (map_err Validation (validate is_nfc m));
      mret (mkOffer claimed m).

(** Magic, version, frame type, and the payload length they announce. *)
Definition decode_offer_header : reader Z :=
  magic ← r_exact (zlen OFFER_MAGIC);
  if negb (bool_decide (magic = OFFER_MAGIC)) then fail BadMagic
  else
    version ← r_u16;
    if negb (version =? MANIFEST_V2_PROTOCOL_VERSION) then fail (UnsupportedVersion version)
    else
      frame_type ← r_u16;
      if negb (frame_type =? frame_type_id FT_Offer) then fail (UnexpectedFrameType frame_type)
      else r_u32.

Definition decode_offer : reader ManifestOfferV2 :=
  payload_len ← decode_offer_header;
  available ← r_remaining;
  if negb (payload_len =? available) then fail LengthMismatch
  else decode_offer_payload.

Definition decode_manifest_offer_v2 (encoded : list byte)
    : result ManifestV2CodecError ManifestOfferV2 :=
  if MAX_MANIFEST_V2_ENCODED_BYTES <? zlen encoded then Err EncodedOfferTooLarge
  else '(offer, _) ← decode_offer (Reader_new encoded); Ok offer.
End Offers.
