(* ===== verification/OfferProof.v ===== *)
(** The offer codec is a bijection between the valid manifests within the size
    budget and the byte strings the decoder accepts. *)

From stdpp Require Import prelude gmap strings sorting.
From Stdlib Require Import ZArith Lia Strings.Byte.
From S2P Require Import Prelude Bytes Reader ManifestV2 Traversal ManifestSpec ValidateProof.
From S2P Require Import ValidateTheorem OfferCodec.

Local Open Scope Z_scope.

(** ** Decoding what was encoded *)

Section Primitives.
Lemma reads_r_u8 v : is_u8 v = true -> reads r_u8 (push_u8 v) v.
Proof. apply reads_read_u8. Qed.

Lemma reads_r_u16 v : is_u16 v = true -> reads r_u16 (push_u16 v) v.
Proof. apply reads_be_u16. Qed.

Lemma reads_r_u32 v : is_u32 v = true -> reads r_u32 (push_u32 v) v.
Proof. apply reads_be_u32. Qed.

Lemma reads_r_u64 v : is_u64 v = true -> reads r_u64 (push_u64 v) v.
Proof. apply reads_be_u64. Qed.

Lemma reads_r_array bs n : zlen bs = n -> reads (r_array n) bs bs.
Proof. intros <-. by apply reads_read_array. Qed.

Lemma reads_r_exact bs n : zlen bs = n -> reads (r_exact n) bs bs.
Proof. intros <-. by apply reads_read_exact. Qed.
End Primitives.

#[export] Hint Resolve reads_r_u8 reads_r_u16 reads_r_u32 reads_r_u64 reads_r_array
  reads_r_exact : reads.
#[export] Hint Extern 1 (is_u8 _ = true) => reflexivity : reads.

Lemma is_u32_zlen {A} (l : list A) n :
  zlen l <= n -> n <= u32_max -> is_u32 (zlen l) = true.
Proof. intros. unfold is_u32. pose proof (zlen_nonneg l). lia. Qed.

(** A component as the wire admits it. *)
Definition wire_component (c : str) : Prop :=
  utf8_valid c = true /\ zlen c <= MAX_MANIFEST_V2_COMPONENT_BYTES.

Lemma reads_read_component c : wire_component c -> reads read_component (push_bytes c) c.
Proof.
  intros [Hu Hl]. unfold read_component, push_bytes.
  assert (is_u32 (zlen c) = true) by (by eapply is_u32_zlen; [exact Hl|]).
  read_step. rewrite (proj2 (Z.ltb_ge _ _)) by done. read_step.
  unfold from_utf8. rewrite Hu. apply reads_lift.
Qed.
#[export] Hint Resolve reads_read_component : reads.

Lemma reads_completeness c :
  wf_completeness c = true -> reads decode_completeness (encode_completeness c) c.
Proof.
  unfold decode_completeness. destruct c as [|n [o|]]; cbn; intros Hwf; bool_prop;
    repeat read_step; apply reads_ret.
Qed.
#[export] Hint Resolve reads_completeness : reads.

Lemma reads_root r :
  wf_root r = true -> wire_component (requested_name r) -> reads decode_root (encode_root r) r.
Proof.
  unfold wf_root. intros Hwf Hc. bool_prop. destruct r as [rid eid name c]. cbn in *.
  unfold decode_root, encode_root. cbn. repeat read_step. apply reads_ret.
Qed.

Lemma reads_content_digest d :
  wf_content_digest d = true -> reads decode_content_digest (encode_content_digest d) d.
Proof.
  unfold decode_content_digest. destruct d as [|b]; cbn; intros Hwf; repeat read_step.
  - apply reads_ret.
  - unfold wf_digest in Hwf. bool_prop. read_step. apply reads_ret.
Qed.
#[export] Hint Resolve reads_content_digest : reads.

Lemma reads_totals t : wf_totals t = true -> reads decode_totals (encode_totals t) t.
Proof.
  unfold wf_totals. intros Hwf. bool_prop. destruct t. cbn in *.
  unfold decode_totals, encode_totals. cbn. repeat read_step. apply reads_ret.
Qed.
#[export] Hint Resolve reads_totals : reads.

(** The size the decoder bounds has one separator less than [path_size]. *)
Lemma reads_path path first bytes :
  Forall wire_component path -> 0 <= bytes ->
  bytes + path_size path <= MAX_MANIFEST_V2_PATH_BYTES ->
  reads (decode_path (length path) first bytes) (concat (map push_bytes path)) path.
Proof.
  intros Hall. revert first bytes. induction Hall as [|c path Hc Hall IH];
    intros first bytes Hb Hs; cbn [decode_path length map concat]; [apply reads_ret|].
  read_step. cbn in Hs. pose proof (zlen_nonneg c). pose proof (path_size_nonneg path).
  fold (path_size path) in Hs. unfold MAX_MANIFEST_V2_PATH_BYTES in *.
  unfold checked_add, usize_max, u64_max.
  rewrite (proj2 (Z.leb_le (bytes + zlen c) _)) by lia. cbn [mbind option_bind].
  rewrite (proj2 (Z.leb_le _ _)) by (destruct first; lia).
  rewrite (proj2 (Z.ltb_ge _ _)) by (destruct first; lia).
  eapply reads_bind_r; [|apply reads_ret]. apply IH; destruct first; lia.
Qed.

(** ** The entries of a valid manifest *)

Section ValidEntries.
Context (is_nfc : str -> bool) (m : ManifestV2).
Context (Hwf : wf_manifest m = true) (Hv : valid_manifest is_nfc m).
Let es := entries m.

Lemma valid_wire_component i e : es !! i = Some e -> wire_component (component e).
Proof.
  intros He. destruct (ve_component _ _ _ _ (vm_entry _ _ Hv i e He)) as (_ & _ & _ & Hl & _).
  split; [|done]. apply list_elem_of_lookup_2, (wf_manifest_entry m) in He; [|done].
  unfold wf_entry in He. by bool_prop.
Qed.

Lemma valid_parent i e p :
  es !! i = Some e -> parent_entry_id e = Some p ->
  0 <= p < Z.of_nat i /\ exists ep, es !! Z.to_nat p = Some ep /\ entry_id ep = p /\
    entry_root_id ep = entry_root_id e.
Proof.
  intros He Hp. destruct (ve_parent _ _ _ _ (vm_entry _ _ Hv i e He)) as (r & _ & Hr).
  rewrite Hp in Hr. destruct Hr as (Hlt & ep & Hep & Hroot & _).
  apply vec_get_Some in Hep as [Hp0 Hep]. split; [lia|]. exists ep. split; [done|].
  split; [|done]. rewrite (ve_id _ _ _ _ (vm_entry _ _ Hv _ _ Hep)). lia.
Qed.

Lemma valid_path_components i :
  (i < length es)%nat -> Forall wire_component (path_at es i).
Proof.
  induction i as [i IH] using lt_wf_ind. intros Hi.
  destruct (lookup_lt_is_Some_2 es i Hi) as [e He].
  destruct (parent_entry_id e) as [p|] eqn:Hp.
  - destruct (valid_parent i e p He Hp) as [Hlt _].
    rewrite (path_at_child _ _ _ _ He Hp Hlt). apply Forall_app. split.
    + apply IH; lia.
    + constructor; [|done]. by eapply valid_wire_component.
  - by rewrite (path_at_root _ _ _ He Hp).
Qed.

(** No two entries of a valid manifest have the same root and path. *)
Lemma valid_paths_inj i j ei ej :
  es !! i = Some ei -> es !! j = Some ej -> entry_root_id ei = entry_root_id ej ->
  path_at es i = path_at es j -> i = j.
Proof.
  intros Hi Hj Hr Hp.
  assert (Hlt : forall a b, (a < b)%nat -> (b < length es)%nat -> position_lt m a b).
  { intros a b Hab Hb. pose proof (vm_order _ _ Hv) as Hs.
    replace (length (entries m)) with (b + (length es - b))%nat in Hs by (unfold es in *; lia).
    rewrite seq_app in Hs.
    eapply StronglySorted_app_1_elem_of; [exact Hs|..]; apply elem_of_seq; lia. }
  assert (Hno : forall a b ea eb, es !! a = Some ea -> es !! b = Some eb ->
    entry_root_id ea = entry_root_id eb -> path_at es a = path_at es b -> ~ (a < b)%nat).
  { intros a b ea eb Ha Hb Hrab Hpab Hab.
    destruct (Hlt a b Hab (lookup_lt_Some _ _ _ Hb)) as (e1 & e2 & H1 & H2 & [H|[_ H]]).
    - unfold es in *. rewrite Ha in H1. rewrite Hb in H2. simplify_eq. lia.
    - fold es in H. rewrite Hpab in H. by apply path_lt_irrefl in H. }
  pose proof (Hno i j ei ej). pose proof (Hno j i ej ei). destruct (lt_eq_lt_dec i j) as [[|]|];
    naive_solver.
Qed.

(** [path_to_entry] after the first [k] entries. *)
Definition path_map_ok (k : nat) (mp : gmap (Z * list str) Z) : Prop :=
  forall rid path v, mp !! (rid, path) = Some v <->
    exists i e, (i < k)%nat /\ es !! i = Some e /\ entry_root_id e = rid /\
      path_at es i = path /\ entry_id e = v.

Lemma path_map_insert k e mp :
  es !! k = Some e -> path_map_ok k mp ->
  mp !! (entry_root_id e, path_at es k) = None /\
  path_map_ok (S k) (<[(entry_root_id e, path_at es k) := entry_id e]> mp).
Proof.
  intros He Hmp. split.
  - destruct (mp !! _) as [v|] eqn:Hm; [|done]. exfalso.
    apply Hmp in Hm as (i & ei & Hi & Hei & Hr & Hp & _).
    pose proof (valid_paths_inj i k ei e Hei He Hr Hp). lia.
  - intros rid path v. destruct (decide ((entry_root_id e, path_at es k) = (rid, path))) as [Heq|Hne].
    + rewrite <- Heq, lookup_insert_eq. injection Heq as <- <-. split.
      * intros [= <-]. exists k, e. naive_solver lia.
      * intros (i & ei & _ & Hei & Hr & Hp & <-).
        rewrite (valid_paths_inj i k ei e Hei He Hr Hp) in Hei. congruence.
    + rewrite lookup_insert_ne by done. rewrite (Hmp rid path v). split.
      * intros (i & ei & Hi & Hrest). exists i, ei. split; [lia|done].
      * intros (i & ei & Hi & Hei & Hr & Hp & Hid). exists i, ei.
        split; [|done]. destruct (decide (i = k)) as [->|]; [|lia].
        exfalso. apply Hne. congruence.
Qed.

Lemma resolve_path_valid k e mp :
  es !! k = Some e -> path_map_ok k mp ->
  resolve_path (roots m) mp (entry_id e) (entry_root_id e) (path_at es k)
    = Ok (parent_entry_id e, component e).
Proof.
  intros He Hmp. unfold resolve_path.
  destruct (ve_parent _ _ _ _ (vm_entry _ _ Hv k e He)) as (r & Hr & Hp).
  rewrite Hr. cbn. destruct (parent_entry_id e) as [p|] eqn:Hpar.
  - destruct (valid_parent k e p He Hpar) as (Hlt & ep & Hep & Hid & Hroot).
    rewrite (path_at_child _ _ _ _ He Hpar Hlt), last_snoc, length_app. cbn.
    rewrite Nat.add_sub, take_app_length.
    rewrite (proj2 (Hmp _ _ p)); [done|]. exists (Z.to_nat p), ep.
    repeat split; try done. lia.
  - rewrite (path_at_root _ _ _ He Hpar). cbn. by destruct Hp as [_ ->].
Qed.

Lemma reads_entry k e mp :
  es !! k = Some e -> path_map_ok k mp ->
  reads (decode_entry (roots m) mp) (encode_entry (path_at es k) e)
    (e, <[(entry_root_id e, path_at es k) := entry_id e]> mp).
Proof.
  intros He Hmp. pose proof (vm_entry _ _ Hv k e He) as Hve.
  pose proof (list_elem_of_lookup_2 _ _ _ He) as Hin.
  apply (wf_manifest_entry m) in Hin; [|done]. unfold wf_entry in Hin. bool_prop.
  pose proof (lookup_lt_Some _ _ _ He) as Hk.
  assert (Hcount : is_u32 (zlen (path_at es k)) = true).
  { eapply is_u32_zlen; [exact (ve_depth _ _ _ _ Hve)|done]. }
  assert (Hkind : is_u8 (entry_kind_id (kind e)) = true) by (by destruct (kind e)).
  unfold decode_entry, encode_entry. do 3 read_step.
  rewrite (proj2 (Z.ltb_ge _ _)) by apply Hve.
  eapply reads_bind.
  { unfold zlen. rewrite Nat2Z.id. apply reads_path; [by apply valid_path_components|done|].
    rewrite Z.add_0_l. apply Hve. }
  rewrite (resolve_path_valid k e mp He Hmp). read_step.
  read_step. replace (entry_kind_try_from (entry_kind_id (kind e))) with
    (Ok (E := ManifestV2CodecError) (kind e)) by (by destruct (kind e)).
  read_step. read_step. read_step.
  destruct (path_map_insert k e mp He Hmp) as [-> _]. destruct e. apply reads_ret.
Qed.

Lemma reads_entries d k mp :
  (d + k = length es)%nat -> path_map_ok k mp ->
  reads (decode_entries d (roots m) mp)
    (encode_entries (take k (wire_paths es)) (drop k es)) (drop k es).
Proof.
  revert k mp. induction d as [|d IH]; intros k mp Hk Hmp.
  - rewrite drop_ge by lia. apply reads_ret.
  - destruct (lookup_lt_is_Some_2 es k) as [e He]; [lia|].
    rewrite (drop_S _ _ _ He). cbn [decode_entries encode_entries].
    assert (Hpath : wire_path (take k (wire_paths es)) e = path_at es k).
    { unfold path_at. by rewrite (wire_paths_lookup _ _ _ He). }
    rewrite Hpath. eapply reads_bind; [by apply reads_entry|]. cbn beta iota.
    pose proof (wire_paths_take_S m k e He) as Ht. fold es in Ht. rewrite <- Ht.
    eapply reads_bind_r; [|apply reads_ret].
    apply IH; [lia|]. by apply path_map_insert.
Qed.
End ValidEntries.

Lemma reads_manifest_body is_nfc m :
  wf_manifest m = true -> valid_manifest is_nfc m ->
  reads decode_manifest_body (encode_manifest_body m) m.
Proof.
  intros Hwf Hv. pose proof Hwf as Hw. unfold wf_manifest, wf_job_id in Hw. bool_prop.
  destruct (vm_roots_bound _ _ Hv) as [_ Hr]. destruct (vm_entries_bound _ _ Hv) as [_ He].
  assert (is_u32 (zlen (roots m)) = true) by (by eapply is_u32_zlen; [exact Hr|]).
  assert (is_u32 (zlen (entries m)) = true) by (by eapply is_u32_zlen; [exact He|]).
  assert (is_u8 (compression_policy_id (compression_policy m)) = true)
    by (by destruct (compression_policy m)).
  unfold decode_manifest_body, encode_manifest_body. do 4 read_step.
  replace (compression_policy_try_from (compression_policy_id (compression_policy m))) with
    (Ok (E := ManifestV2CodecError) (compression_policy m)) by (by destruct (compression_policy m)).
  do 2 read_step. rewrite (proj2 (Z.ltb_ge _ _)) by done.
  eapply reads_bind.
  { unfold zlen. rewrite Nat2Z.id. apply reads_read_n. intros i r Hi. apply reads_root.
    - eapply wf_manifest_root; [done|]. by eapply list_elem_of_lookup_2.
    - destruct (vr_name _ _ _ _ (vm_root _ _ Hv i r Hi)) as (_ & _ & _ & Hl & _).
      split; [|done]. apply list_elem_of_lookup_2, (wf_manifest_root m) in Hi; [|done].
      unfold wf_root in Hi. by bool_prop. }
  read_step. rewrite (proj2 (Z.ltb_ge _ _)) by done.
  eapply reads_bind.
  { unfold zlen. rewrite Nat2Z.id.
    apply (reads_entries is_nfc m Hwf Hv (length (entries m)) 0 ∅); [lia|].
    intros rid path v. rewrite lookup_empty. split; [done|]. intros (i & e & ? & _). lia. }
  read_step. rewrite drop_0. destruct m. apply reads_ret.
Qed.

Lemma zlen_push_u16 v : zlen (push_u16 v) = 2.
Proof. unfold zlen, push_u16. by rewrite length_be_bytes. Qed.
Lemma zlen_push_u32 v : zlen (push_u32 v) = 4.
Proof. unfold zlen, push_u32. by rewrite length_be_bytes. Qed.
Lemma zlen_push_u64 v : zlen (push_u64 v) = 8.
Proof. unfold zlen, push_u64. by rewrite length_be_bytes. Qed.
Lemma zlen_push_u8 v : zlen (push_u8 v) = 1.
Proof. reflexivity. Qed.
#[export] Hint Rewrite @zlen_app zlen_push_u8 zlen_push_u16 zlen_push_u32 zlen_push_u64 : zlen.

(** ** Encoding what was decoded *)

Section AcceptsPrimitives.
Lemma accepts_r_u8 : accepts r_u8 (fun v out => out = push_u8 v /\ is_u8 v = true).
Proof. apply accepts_read_u8. Qed.

Lemma accepts_r_u16 : accepts r_u16 (fun v out => out = push_u16 v /\ is_u16 v = true).
Proof. apply accepts_be_u16. Qed.

Lemma accepts_r_u32 : accepts r_u32 (fun v out => out = push_u32 v /\ is_u32 v = true).
Proof. apply accepts_be_u32. Qed.

Lemma accepts_r_u64 : accepts r_u64 (fun v out => out = push_u64 v /\ is_u64 v = true).
Proof. apply accepts_be_u64. Qed.

Lemma accepts_r_array n :
  0 <= n -> accepts (r_array n) (fun bs out => out = bs /\ zlen bs = n).
Proof. apply accepts_read_array. Qed.

Lemma accepts_r_exact n :
  0 <= n -> accepts (r_exact n) (fun bs out => out = bs /\ zlen bs = n).
Proof. apply accepts_read_exact. Qed.
End AcceptsPrimitives.

#[export] Hint Resolve accepts_r_u8 accepts_r_u16 accepts_r_u32 accepts_r_u64 accepts_r_array
  accepts_r_exact accepts_fail @accepts_lift : accepts.
#[export] Hint Extern 1 (0 <= _) => (done || lia) : accepts.

Lemma accepts_read_component :
  accepts read_component (fun c out => out = push_bytes c /\ wire_component c).
Proof.
  accept_step len [-> Hlen]. destruct (Z.ltb_spec MAX_MANIFEST_V2_COMPONENT_BYTES len);
    [apply accepts_fail|].
  unfold is_u32 in Hlen. bool_prop. accept_step bs [-> Hbs].
  eapply accepts_weaken; [apply accepts_lift|]. intros c out [Hc ->].
  unfold from_utf8 in Hc. destruct (utf8_valid bs) eqn:Hu; [|done]. injection Hc as <-.
  rewrite app_nil_r. unfold push_bytes, wire_component. rewrite Hbs. done.
Qed.
#[export] Hint Resolve accepts_read_component : accepts.

(** Splits on a tag byte the way the decoders' [match] does. *)
Ltac tag_cases v :=
  destruct v as [|[v|v|]|v]; try apply accepts_fail; try (destruct v; try apply accepts_fail).

Lemma accepts_completeness :
  accepts decode_completeness
    (fun c out => out = encode_completeness c /\ wf_completeness c = true).
Proof.
  accept_step tag [-> _]. tag_cases tag.
  - accept_ret. done.
  - accept_step n [-> Hn]. accept_step tag [-> _]. tag_cases tag.
    + accept_ret. cbn. by rewrite Hn.
    + accept_step o [-> Ho]. accept_ret. cbn. by rewrite Hn, Ho.
Qed.
#[export] Hint Resolve accepts_completeness : accepts.

Lemma accepts_root :
  accepts decode_root (fun r out => out = encode_root r /\ wf_root r = true).
Proof.
  accept_step rid [-> H1]. accept_step eid [-> H2]. accept_step name [-> [Hu Hl]].
  accept_step c [-> H3]. accept_ret. unfold encode_root, wf_root. cbn.
  rewrite H1, H2, Hu, H3, <- ?app_assoc. done.
Qed.

Lemma accepts_content_digest :
  accepts decode_content_digest
    (fun d out => out = encode_content_digest d /\ wf_content_digest d = true).
Proof.
  accept_step tag [-> _]. tag_cases tag.
  - accept_ret. done.
  - accept_step b [-> Hb]. accept_ret. cbn. unfold wf_digest. rewrite Hb. done.
Qed.
#[export] Hint Resolve accepts_content_digest : accepts.

Lemma accepts_totals :
  accepts decode_totals (fun t out => out = encode_totals t /\ wf_totals t = true).
Proof.
  accept_step f [-> H1]. accept_step d [-> H2]. accept_step b [-> H3]. accept_ret.
  unfold encode_totals, wf_totals. cbn. rewrite H1, H2, H3, <- ?app_assoc. done.
Qed.
#[export] Hint Resolve accepts_totals : accepts.

Lemma accepts_path n first bytes :
  accepts (decode_path n first bytes) (fun p out =>
    out = concat (map push_bytes p) /\ length p = n /\ Forall wire_component p).
Proof.
  revert first bytes. induction n as [|n IH]; intros first bytes; cbn [decode_path].
  - accept_ret. done.
  - accept_step c [-> Hc]. destruct (checked_add _ _ _ ≫= _) as [bytes'|];
      [|apply accepts_fail].
    destruct (MAX_MANIFEST_V2_PATH_BYTES <? bytes'); [apply accepts_fail|].
    eapply accepts_bind; [apply IH|]. intros p o (-> & Hlen & Hall). accept_ret.
    cbn. split; [done|]. split; [lia|by constructor].
Qed.

(** How the decoder links an entry to the entries before it. *)
Definition wire_link (es0 : list ManifestEntryV2) (ps0 : list (list str))
    (e : ManifestEntryV2) (p : list str) : Prop :=
  match parent_entry_id e with
  | None => p = []
  | Some q => exists j ej pj, es0 !! j = Some ej /\ ps0 !! j = Some pj /\
      entry_id ej = q /\ p = pj ++ [component e]
  end.

Inductive wire_rel : list ManifestEntryV2 -> list (list str) ->
    list ManifestEntryV2 -> list (list str) -> Prop :=
| wire_nil es0 ps0 : wire_rel es0 ps0 [] []
| wire_cons es0 ps0 e p es ps :
    wire_link es0 ps0 e p -> wire_rel (es0 ++ [e]) (ps0 ++ [p]) es ps ->
    wire_rel es0 ps0 (e :: es) (p :: ps).

Lemma wire_rel_encode es0 ps0 es ps :
  wire_rel es0 ps0 es ps -> length ps0 = length es0 ->
  (forall i e, (es0 ++ es) !! i = Some e -> entry_id e = Z.of_nat i) ->
  encode_entries ps0 es = concat (zip_with encode_entry ps es).
Proof.
  induction 1 as [|es0 ps0 e p es ps Hlink Hrel IH]; intros Hlen Hids; [done|]. cbn.
  assert (wire_path ps0 e = p) as ->.
  { unfold wire_link in Hlink. unfold wire_path.
    destruct (parent_entry_id e) as [q|]; [|done].
    destruct Hlink as (j & ej & pj & Hej & Hpj & <- & ->).
    rewrite (Hids j ej) by (by apply lookup_app_l_Some). rewrite Nat2Z.id, Hpj. done. }
  f_equal. apply IH; [rewrite !length_app; cbn; lia|].
  intros i e' He'. apply Hids. by rewrite <- app_assoc in He'.
Qed.

(** [path_to_entry] only knows entries already decoded. *)
Definition path_map_from (es0 : list ManifestEntryV2) (ps0 : list (list str))
    (mp : gmap (Z * list str) Z) : Prop :=
  forall rid path v, mp !! (rid, path) = Some v -> is_u32 v = true /\
    exists j e, es0 !! j = Some e /\ ps0 !! j = Some path /\ entry_id e = v.

Lemma accepts_entry rs es0 ps0 mp :
  Forall (fun r => wf_root r = true) rs -> path_map_from es0 ps0 mp ->
  accepts (decode_entry rs mp) (fun '(e, mp') out => exists p,
    out = encode_entry p e /\ wf_entry e = true /\ wire_link es0 ps0 e p /\
    mp' = <[(entry_root_id e, p) := entry_id e]> mp).
Proof.
  intros Hrs Hmp. accept_step eid [-> H1]. accept_step rid [-> H2]. accept_step n [-> Hn].
  destruct (MAX_MANIFEST_V2_PATH_DEPTH <? n); [apply accepts_fail|].
  eapply accepts_bind; [apply accepts_path|]. intros p o (-> & Hlen & Hall).
  eapply accepts_bind; [apply accepts_lift|]. intros [parent c] o [Hres ->].
  accept_step tag [-> _]. eapply accepts_bind; [apply accepts_lift|]. intros k o [Hk ->].
  accept_step size [-> H3]. accept_step d [-> H4].
  destruct (mp !! (rid, p)) eqn:Hfree; [apply accepts_fail|]. accept_ret.
  exists p. assert (tag = entry_kind_id k) as ->.
  { unfold entry_kind_try_from in Hk. destruct tag as [|[|[|[]|]|]|]; cbn in Hk; by simplify_eq. }
  assert (n = zlen p) as ->.
  { unfold is_u32 in Hn. bool_prop. unfold zlen. rewrite Hlen. lia. }
  split; [unfold encode_entry; cbn; by rewrite <- ?app_assoc|].
  unfold resolve_path in Hres. destruct (vec_get rs rid) as [root|] eqn:Hroot; [|done].
  cbn in Hres. unfold wf_entry, wire_link. cbn. rewrite H1, H2, H3, H4.
  destruct (last p) as [c'|] eqn:Hlast.
  - destruct (mp !! (rid, take (length p - 1) p)) as [q|] eqn:Hq; [|done]. cbn in Hres.
    simplify_eq. apply Hmp in Hq as (Hq32 & j & ej & Hej & Hpj & Hid).
    apply last_Some in Hlast as [p' ->].
    rewrite length_app, Nat.add_sub, take_app_length in Hpj.
    apply Forall_app in Hall as [_ [[Hu _] _]%Forall_cons]. cbn. rewrite Hq32, Hu.
    split; [done|]. split; [|done]. exists j, ej, p'. done.
  - simplify_eq. apply last_None in Hlast as ->.
    apply vec_get_Some in Hroot as [_ Hroot]. rewrite Forall_lookup in Hrs.
    apply Hrs in Hroot. unfold wf_root in Hroot. bool_prop. cbn.
    by match goal with Hx : utf8_valid _ = true |- _ => rewrite Hx end.
Qed.

Lemma accepts_entries n rs es0 ps0 mp :
  Forall (fun r => wf_root r = true) rs -> path_map_from es0 ps0 mp ->
  length ps0 = length es0 ->
  accepts (decode_entries n rs mp) (fun es out => exists ps,
    out = concat (zip_with encode_entry ps es) /\ length es = n /\
    Forall (fun e => wf_entry e = true) es /\ wire_rel es0 ps0 es ps).
Proof.
  intros Hrs. revert es0 ps0 mp. induction n as [|n IH]; intros es0 ps0 mp Hmp Hlen.
  - accept_ret. exists []. repeat split; [constructor|constructor].
  - cbn [decode_entries]. eapply accepts_bind; [by eapply (accepts_entry rs es0 ps0 mp)|].
    intros [e mp'] o (p & -> & Hwf & Hlink & ->).
    eapply accepts_bind; [apply (IH (es0 ++ [e]) (ps0 ++ [p]))|].
    + intros rid path v. destruct (decide ((entry_root_id e, p) = (rid, path))) as [Heq|Hne].
      * rewrite <- Heq, lookup_insert_eq. intros [= <-]. injection Heq as <- <-.
        split; [unfold wf_entry in Hwf; by bool_prop|].
        exists (length es0), e. rewrite <- Hlen at 2.
        by rewrite !list_lookup_middle.
      * rewrite lookup_insert_ne by done.
        intros (Hv & j & ej & Hej & Hpj & Hid)%Hmp. split; [done|]. exists j, ej.
        split; [by apply lookup_app_l_Some|]. split; [by apply lookup_app_l_Some|done].
    + rewrite !length_app. cbn. lia.
    + intros es o (ps & -> & Hes & Hall & Hrel). accept_ret. exists (p :: ps).
      cbn. split; [done|]. split; [lia|]. split; [by constructor|by constructor].
Qed.

(** What the body decoder accepts is the encoding of what it returns, once the
    entry ids are known to be canonical. *)
Lemma accepts_manifest_body :
  accepts decode_manifest_body (fun m out => wf_manifest m = true /\
    ((forall i e, entries m !! i = Some e -> entry_id e = Z.of_nat i) ->
     out = encode_manifest_body m)).
Proof.
  accept_step jid [-> Hj]. accept_step g [-> Hg]. accept_step rev [-> Hrev].
  accept_step tag [-> _]. eapply accepts_bind; [apply accepts_lift|]. intros pol o [Hpol ->].
  assert (tag = compression_policy_id pol) as ->.
  { unfold compression_policy_try_from in Hpol.
    destruct tag as [|[|[|[]|]|]|]; cbn in Hpol; by simplify_eq. }
  accept_step nr [-> Hnr]. destruct (MAX_MANIFEST_V2_ROOTS <? nr); [apply accepts_fail|].
  eapply accepts_bind.
  { apply (accepts_read_n _ _ encode_root (fun _ r => wf_root r = true)). intros _.
    apply accepts_root. }
  intros rs o (-> & Hlen & Hrs).
  accept_step ne [-> Hne]. destruct (MAX_MANIFEST_V2_ENTRIES <? ne); [apply accepts_fail|].
  assert (Hall : Forall (fun r => wf_root r = true) rs) by (by apply Forall_lookup).
  eapply accepts_bind; [by apply (accepts_entries _ rs [] [] ∅)|].
  intros es o (ps & -> & Hes & Hwf & Hrel). accept_step t [-> Ht]. accept_ret.
  unfold is_u32 in Hnr, Hne. bool_prop. split.
  - unfold wf_manifest, wf_job_id. cbn. rewrite Hj, Hg, Hrev, Ht.
    rewrite (proj2 (forallb_forall _ _)); [|by apply List.Forall_forall].
    by rewrite (proj2 (forallb_forall _ _)); [|by apply List.Forall_forall].
  - intros Hids. unfold encode_manifest_body. cbn.
    rewrite (wire_rel_encode [] [] es ps Hrel eq_refl Hids).
    replace (zlen rs) with nr by (unfold zlen; lia).
    replace (zlen es) with ne by (unfold zlen; lia). by rewrite <- ?app_assoc.
Qed.

(** ** The whole offer *)

Section Offer.
Context (is_nfc : str -> bool) (blake3 : list byte -> list byte).

(** The bytes of the offer of [m], without the checks on their number. *)
Definition offer_payload (m : ManifestV2) : list byte :=
  blake3 (encode_manifest_body m) ++ encode_manifest_body m.
Definition offer_header (payload_len : Z) : list byte :=
  OFFER_MAGIC ++ push_u16 MANIFEST_V2_PROTOCOL_VERSION ++
  push_u16 (frame_type_id FT_Offer) ++ push_u32 payload_len.

Lemma encode_offer_ok m bs :
  encode_manifest_offer_v2 is_nfc blake3 m = Ok bs <->
  validate is_nfc m = Ok tt /\
  bs = offer_header (DIGEST_BYTES + zlen (encode_manifest_body m)) ++ offer_payload m /\
  OFFER_HEADER_BYTES + (DIGEST_BYTES + zlen (encode_manifest_body m))
    <= MAX_MANIFEST_V2_ENCODED_BYTES.
Proof.
  unfold encode_manifest_offer_v2, build_manifest_offer_v2, offer_header, offer_payload.
  pose proof (zlen_nonneg (encode_manifest_body m)) as Hn.
  destruct (validate is_nfc m) as [[]|]; cbn; [|naive_solver].
  unfold checked_add, is_u32, usize_max, u64_max, u32_max, OFFER_HEADER_BYTES, DIGEST_BYTES,
    MAX_MANIFEST_V2_ENCODED_BYTES in *.
  rewrite <- !app_assoc.
  repeat match goal with |- context [(?a <=? ?b)%Z] => destruct (Z.leb_spec a b); cbn
    | |- context [(?a <? ?b)%Z] => destruct (Z.ltb_spec a b); cbn end;
    (split; [intros [=]; subst; repeat split; done || lia|]);
    intros (_ & -> & ?); done || lia.
Qed.

Lemma reads_offer_header n :
  is_u32 n = true -> reads decode_offer_header (offer_header n) n.
Proof.
  intros Hn. unfold decode_offer_header, offer_header.
  eapply reads_bind; [by apply reads_r_exact|]. cbn. do 2 read_step. by apply reads_r_u32.
Qed.

Lemma zlen_offer_header n : zlen (offer_header n) = OFFER_HEADER_BYTES.
Proof. unfold offer_header. by autorewrite with zlen. Qed.

Lemma reads_offer m :
  (forall b, zlen (blake3 b) = DIGEST_BYTES) -> wf_manifest m = true ->
  validate is_nfc m = Ok tt -> is_u32 (zlen (offer_payload m)) = true ->
  reads_all (decode_offer is_nfc blake3)
    (offer_header (zlen (offer_payload m)) ++ offer_payload m)
    (mkOffer (blake3 (encode_manifest_body m)) m).
Proof.
  intros Hhash Hwf Hval Hu. pose proof (validate_sound is_nfc m Hwf Hval) as Hv.
  unfold decode_offer. eapply reads_all_bind; [by apply reads_offer_header|].
  read_all_step. rewrite Z.eqb_refl. cbn [negb].
  unfold decode_offer_payload, offer_payload. read_all_step. read_all_step.
  rewrite bool_decide_eq_true_2 by done. cbn [negb].
  eapply reads_all_bind_r; [by eapply reads_manifest_body|].
  read_all_step. cbn. rewrite Hval. read_all_step. apply reads_all_of_reads, reads_ret.
Qed.

Lemma offer_payload_zlen m :
  (forall b, zlen (blake3 b) = DIGEST_BYTES) ->
  zlen (offer_payload m) = DIGEST_BYTES + zlen (encode_manifest_body m).
Proof. intros Hhash. unfold offer_payload. by rewrite zlen_app, Hhash. Qed.

Lemma offer_decode_encode m bs :
  (forall b, zlen (blake3 b) = DIGEST_BYTES) -> wf_manifest m = true ->
  encode_manifest_offer_v2 is_nfc blake3 m = Ok bs ->
  decode_manifest_offer_v2 is_nfc blake3 bs
    = Ok (mkOffer (blake3 (encode_manifest_body m)) m).
Proof.
  intros Hhash Hwf (Hval & -> & Hsize)%encode_offer_ok.
  rewrite <- offer_payload_zlen in * by done. set (n := zlen (offer_payload m)) in *.
  pose proof (zlen_nonneg (offer_payload m)) as Hn.
  assert (Hmax : MAX_MANIFEST_V2_ENCODED_BYTES <= u32_max) by done.
  assert (Hmax' : MAX_MANIFEST_V2_ENCODED_BYTES <= usize_max) by done.
  assert (Hu : is_u32 n = true).
  { unfold is_u32. assert (0 < OFFER_HEADER_BYTES) by done. lia. }
  assert (Hlen : zlen (offer_header n ++ offer_payload m) = OFFER_HEADER_BYTES + n)
    by (by rewrite zlen_app, zlen_offer_header).
  unfold decode_manifest_offer_v2. rewrite Hlen, (proj2 (Z.ltb_ge _ _)) by done.
  destruct (fun H => reads_all_run _ _ _ H (reads_offer m Hhash Hwf Hval Hu)) as [r Hr];
    [fold n; lia|].
  unfold n. rewrite Hr. done.
Qed.

Lemma accepts_offer_header :
  accepts decode_offer_header (fun n out => out = offer_header n /\ is_u32 n = true).
Proof.
  unfold decode_offer_header. accept_step magic [-> _].
  destruct (bool_decide _) eqn:Hm; [|apply accepts_fail]. bool_prop. subst magic. cbn [negb].
  accept_step v [-> _]. destruct (Z.eqb_spec v MANIFEST_V2_PROTOCOL_VERSION) as [->|];
    [|apply accepts_fail]. cbn [negb].
  accept_step t [-> _]. destruct (Z.eqb_spec t (frame_type_id FT_Offer)) as [->|];
    [|apply accepts_fail]. cbn [negb].
  eapply accepts_weaken; [apply accepts_r_u32|]. intros n out [-> Hn]. done.
Qed.

Lemma valid_entry_ids m i e :
  valid_manifest is_nfc m -> entries m !! i = Some e -> entry_id e = Z.of_nat i.
Proof. intros Hv He. exact (ve_id _ _ _ _ (vm_entry _ _ Hv i e He)). Qed.

Lemma accepts_offer_payload :
  accepts_all (decode_offer_payload is_nfc blake3) (fun o out =>
    out = offer_payload (manifest o) /\ wf_manifest (manifest o) = true /\
    validate is_nfc (manifest o) = Ok tt /\
    structural_digest o = blake3 (encode_manifest_body (manifest o))).
Proof.
  unfold decode_offer_payload. accept_all_step claimed [-> _].
  apply accepts_all_slice. intros body.
  destruct (bool_decide _) eqn:Hd; [|apply accepts_all_fail]. bool_prop. subst claimed.
  cbn [negb]. eapply accepts_all_bind; [apply accepts_manifest_body|].
  intros m out [Hwf Hbody]. apply accepts_all_remaining. intros left.
  destruct (Z.eqb_spec left 0) as [->|]; [|apply accepts_all_fail]. cbn [negb].
  eapply accepts_all_bind; [apply accepts_lift|]. intros u o0 [Hval%map_err_ok ->].
  destruct (validate is_nfc m) as [[]|] eqn:Hok; [|done].
  apply accepts_all_ret. cbn. intros o Ho Hb. destruct o; [|unfold zlen in Ho; cbn in Ho; lia].
  rewrite app_nil_r in Hb. subst body. pose proof (validate_sound _ _ Hwf Hok) as Hv.
  rewrite Hbody by eauto using valid_entry_ids. rewrite app_nil_r. done.
Qed.

Lemma offer_encode_decode bs o :
  (forall b, zlen (blake3 b) = DIGEST_BYTES) ->
  decode_manifest_offer_v2 is_nfc blake3 bs = Ok o ->
  encode_manifest_offer_v2 is_nfc blake3 (manifest o) = Ok bs /\
  wf_manifest (manifest o) = true /\ valid_manifest is_nfc (manifest o) /\
  structural_digest o = blake3 (encode_manifest_body (manifest o)).
Proof.
  intros Hhash H. unfold decode_manifest_offer_v2 in H. inv_ok. bool_prop.
  match goal with Hr : decode_offer _ _ _ = Ok (_, ?r) |- _ =>
    rename Hr into Hrun; rename r into r' end.
  eapply (accepts_all_run _ (fun o out =>
    out = offer_header (zlen (offer_payload (manifest o))) ++ offer_payload (manifest o) /\
    wf_manifest (manifest o) = true /\ validate is_nfc (manifest o) = Ok tt /\
    structural_digest o = blake3 (encode_manifest_body (manifest o)))) in Hrun.
  - destruct Hrun as (-> & Hwf & Hval & Hd).
    split; [|by eauto using validate_sound]. apply encode_offer_ok.
    rewrite <- offer_payload_zlen by done.
    rewrite zlen_app, zlen_offer_header in *. done.
  - assert (MAX_MANIFEST_V2_ENCODED_BYTES <= usize_max) by done. lia.
  - unfold decode_offer. eapply accepts_all_bind; [apply accepts_offer_header|].
    intros n out [-> _]. apply accepts_all_remaining. intros len.
    destruct (Z.eqb_spec n len) as [->|]; [|apply accepts_all_fail]. cbn [negb].
    intros r o' r'' Hwr Hr. destruct (accepts_offer_payload r o' r'' Hwr Hr) as (-> & ? & ? & ?).
    intros <-. done.
Qed.
(** Decoding an encoded offer gives back the manifest and its structural
    digest: whatever [encode_manifest_offer_v2] produces,
    [decode_manifest_offer_v2] returns the very manifest it was called with,
    with the digest of its body. *)
Theorem offer_roundtrip m bs :
  (forall b, zlen (blake3 b) = DIGEST_BYTES) -> wf_manifest m = true ->
  encode_manifest_offer_v2 is_nfc blake3 m = Ok bs ->
  decode_manifest_offer_v2 is_nfc blake3 bs
    = Ok (mkOffer (blake3 (encode_manifest_body m)) m).
Proof. apply offer_decode_encode. Qed.

(** C28. The encoding is canonical: the only bytes [decode_manifest_offer_v2]
    accepts are those [encode_manifest_offer_v2] produces for the manifest it
    returns, which is well-formed and valid, and the digest it reports is the
    digest of that manifest's body. *)
Theorem offer_canonical bs o :
  (forall b, zlen (blake3 b) = DIGEST_BYTES) ->
  decode_manifest_offer_v2 is_nfc blake3 bs = Ok o ->
  encode_manifest_offer_v2 is_nfc blake3 (manifest o) = Ok bs /\
  wf_manifest (manifest o) = true /\ valid_manifest is_nfc (manifest o) /\
  structural_digest o = blake3 (encode_manifest_body (manifest o)).
Proof. apply offer_encode_decode. Qed.
End Offer.
