(* ===== verification/Frames.v ===== *)
(** The data-plane frames of Manifest v2
    (crates/envoix-protocol/src/manifest_v2_frames.rs): the frame types, the
    payload encoders and decoders, the framing of a byte stream.  An encoder
    that pushes to [output: &mut Vec<u8>] and may stop with an error is a
    value of [writer]: the bytes it pushes, or the error. *)

From stdpp Require Import prelude gmap strings.
From Stdlib Require Import ZArith Lia Strings.Byte.
From S2P Require Import Prelude Bytes Reader ManifestV2 ManifestSpec OfferCodec.

Local Open Scope Z_scope.

(** ** Constants *)

Definition MAGIC : list byte := lit "ENV2".
Definition HEADER_BYTES : Z := 12.
Definition COMMON_PREFIX_BYTES : Z := 20.
Definition NONCE_BYTES : Z := 32.
Definition MAX_CONTROL_FRAME_BYTES : Z := MAX_MANIFEST_V2_ENCODED_BYTES.
Definition ENTRY_BLOCK_FIXED_PAYLOAD_BYTES : Z := COMMON_PREFIX_BYTES + 4 + 8 + 8 + 4 + 4.
Definition RESUME_REQUEST_FIXED_PAYLOAD_BYTES : Z :=
  COMMON_PREFIX_BYTES + 4 + DIGEST_BYTES * 2 + NONCE_BYTES.

(** ** Data *)

Record JobGenerationV2 := mkJobGeneration {
  jg_job_id : JobIdV2;
  jg_generation : Z;
}.

Inductive EntryDispositionV2 := ReceivePayload | DispositionReuseExisting.
Inductive EntryEncodingV2 := Identity | Zstd.
Inductive EntryDigestDecisionV2 := Proposed | ContinuePayload | DecisionReuseExisting.
Inductive EntryCompletionChoiceV2 := PayloadComplete | CompletionReuseChosen.
Inductive EntryResultKindV2 := Saved | ReusedExisting.
Inductive EntryArbiterV2 := PayloadOpen | ArbiterReuseChosen | PayloadCompleteChosen.
Inductive CancelScopeV2 := ScopeJob | ScopeEntry.
Inductive ManifestFailurePhaseV2 :=
| PhaseOffer | PhaseDestination | PhasePayload | PhaseVerify | PhaseSave | PhaseProof.

Record RootPlanV2 := mkRootPlan { rp_root_id : Z; planned_name : str }.
Record EntryPlanV2 := mkEntryPlan {
  ep_entry_id : Z;
  disposition : EntryDispositionV2;
  ep_next_plaintext_block : Z;
}.

Record ManifestAcceptV2 := mkAccept {
  acc_identity : JobGenerationV2;
  acc_manifest_digest : ContentDigestV2;
  accept_nonce : list byte;
  proof_capability : list byte;
  acc_plan_revision : Z;
  root_plans : list RootPlanV2;
  entry_plans : list EntryPlanV2;
}.

Record EntryStartV2 := mkEntryStart {
  es_identity : JobGenerationV2;
  es_entry_id : Z;
  encoding : EntryEncodingV2;
  plaintext_block_bytes : Z;
}.

Record EntryContentDigestFrameV2 := mkContentDigest {
  cd_identity : JobGenerationV2;
  cd_entry_id : Z;
  cd_digest : ContentDigestV2;
  decision : EntryDigestDecisionV2;
}.

Record EntryBlockV2 := mkBlock {
  eb_identity : JobGenerationV2;
  eb_entry_id : Z;
  block_index : Z;
  plaintext_offset : Z;
  plaintext_length : Z;
  encoded_bytes : list byte;
}.

Record EntryCompleteV2 := mkComplete {
  ec_identity : JobGenerationV2;
  ec_entry_id : Z;
  ec_final_size : Z;
  ec_final_digest : ContentDigestV2;
  completion_choice : EntryCompletionChoiceV2;
}.

Record EntryResultV2 := mkResult {
  er_identity : JobGenerationV2;
  er_entry_id : Z;
  er_result : EntryResultKindV2;
  er_final_size : Z;
  er_final_digest : option ContentDigestV2;
  final_component_override : option str;
}.

Record JobCompleteV2 := mkJobComplete {
  jc_identity : JobGenerationV2;
  sender_completion_set_digest : ContentDigestV2;
}.

Record DeliveryProofV2 := mkProof {
  dp_identity : JobGenerationV2;
  dp_manifest_digest : ContentDigestV2;
  result_set_digest : ContentDigestV2;
  proof_nonce : list byte;
  proof_mac : list byte;
}.

Record ResumeRequestV2 := mkResumeRequest {
  rr_identity : JobGenerationV2;
  rr_offer : ManifestOfferV2;
  rr_accept_body_digest : ContentDigestV2;
  sender_checkpoint_digest : ContentDigestV2;
  rr_challenge_nonce : list byte;
}.

Record ResumeEntryV2 := mkResumeEntry {
  re_entry_id : Z;
  arbiter : EntryArbiterV2;
  re_next_plaintext_block : Z;
  re_content_digest : option ContentDigestV2;
  entry_result : option EntryResultV2;
}.

Record ResumeStatusV2 := mkResumeStatus {
  rs_identity : JobGenerationV2;
  rs_accept_body_digest : ContentDigestV2;
  rs_plan_revision : Z;
  rs_entries : list ResumeEntryV2;
  rs_challenge_nonce : list byte;
  challenge_mac : list byte;
}.

Record CancelV2 := mkCancel {
  ca_identity : JobGenerationV2;
  scope : CancelScopeV2;
  ca_entry_id : option Z;
  ca_failure_code : Z;
}.

Record ManifestErrorV2 := mkError {
  me_identity : JobGenerationV2;
  me_failure_code : Z;
  phase : ManifestFailurePhaseV2;
  me_entry_id : option Z;
}.

Inductive ManifestV2Frame :=
| Offer (v : ManifestOfferV2)
| Accept (v : ManifestAcceptV2)
| EntryStart (v : EntryStartV2)
| EntryContentDigest (v : EntryContentDigestFrameV2)
| EntryBlock (v : EntryBlockV2)
| EntryComplete (v : EntryCompleteV2)
| EntryResult (v : EntryResultV2)
| JobComplete (v : JobCompleteV2)
| DeliveryProof (v : DeliveryProofV2)
| ResumeRequest (v : ResumeRequestV2)
| ResumeStatus (v : ResumeStatusV2)
| Cancel (v : CancelV2)
| Error (v : ManifestErrorV2).

(** Why the offer inside a frame was refused: the source keeps the message. *)
Inductive OfferRejection :=
| OfferCodecRejected (e : ManifestV2CodecError)
| OfferDigestDisagrees.

Inductive ManifestV2FrameCodecError :=
| FE_Truncated
| FE_BadMagic
| FE_UnsupportedVersion (v : Z)
| FE_UnknownFrameType (v : Z)
| FE_LengthMismatch (declared actual : Z)
| FE_FrameTooLarge
| FE_TrailingBytes
| FE_UnknownTag (name : string) (value : Z)
| FE_CountTooLarge
| FE_InvalidUtf8
| FE_UnsafeComponent
| FE_InvalidIdentity
| FE_InvalidChallenge
| FE_InvalidEntryId
| FE_InvalidRootId
| FE_InvalidBlock
| FE_InvalidOptional
| FE_InvalidCancelScope
| FE_Offer (why : OfferRejection)
| FE_UnexpectedOfferPayload
| FE_UnexpectedEof.

#[export] Instance JobGenerationV2_eq_dec : EqDecision JobGenerationV2.
Proof. solve_decision. Defined.
#[export] Instance EntryDispositionV2_eq_dec : EqDecision EntryDispositionV2.
Proof. solve_decision. Defined.
#[export] Instance EntryResultKindV2_eq_dec : EqDecision EntryResultKindV2.
Proof. solve_decision. Defined.
#[export] Instance EntryCompletionChoiceV2_eq_dec : EqDecision EntryCompletionChoiceV2.
Proof. solve_decision. Defined.
#[export] Instance EntryResultV2_eq_dec : EqDecision EntryResultV2.
Proof. solve_decision. Defined.
#[export] Instance OfferRejection_eq_dec : EqDecision OfferRejection.
Proof. solve_decision. Defined.
#[export] Instance ManifestV2FrameCodecError_eq_dec : EqDecision ManifestV2FrameCodecError.
Proof. solve_decision. Defined.

(** ** Writers *)

Abbreviation frame_result A := (result ManifestV2FrameCodecError A).
Abbreviation writer := (result ManifestV2FrameCodecError (list byte)).

Definition put (bs : list byte) : writer := Ok bs.
(** [if refused { return Err(e) }] *)
Definition refuse (refused : bool) (e : ManifestV2FrameCodecError) : writer :=
  if refused then Err e else Ok [].
(** One encoder after the other, the first error returned. *)
Definition write_seq (w1 w2 : writer) : writer := a ← w1; b ← w2; Ok (a ++ b).
Declare Scope writer_scope.
Delimit Scope writer_scope with writer.
Infix "⊕" := write_seq (at level 60, right associativity) : writer_scope.
Local Open Scope writer_scope.

Definition as_u32 (v : Z) : Z := v mod 2 ^ 32.

(** [for (index, item) in items.iter().enumerate()] *)
Fixpoint write_indexed {A} (index : Z) (w : Z -> A -> writer) (items : list A) : writer :=
  match items with
  | [] => put []
  | item :: items' => w index item ⊕ write_indexed (index + 1) w items'
  end.

Definition zero_bytes (n : Z) : list byte := replicate (Z.to_nat n) (byte_of 0).

Definition identity (v : JobGenerationV2) : writer :=
  refuse (bool_decide (jg_job_id v = zero_bytes JOB_ID_BYTES) || (jg_generation v =? 0))
    FE_InvalidIdentity ⊕
  put (jg_job_id v) ⊕ put (push_u32 (jg_generation v)).

Definition checked_entry_id (eid : Z) : frame_result unit :=
  if MAX_MANIFEST_V2_ENTRIES <=? eid then Err FE_InvalidEntryId else Ok tt.

(** [checked_entry_id(entry_id)?] inside an encoder. *)
Definition check_entry_id (eid : Z) : writer := _ ← checked_entry_id eid; Ok [].

Definition optional_digest (v : option ContentDigestV2) : list byte :=
  match v with Some d => push_u8 1 ++ d | None => push_u8 0 end.

Definition optional_u32 (v : option Z) : list byte :=
  match v with Some n => push_u8 1 ++ push_u32 n | None => push_u8 0 end.

Definition count (value maximum : Z) : writer :=
  refuse (maximum <? value) FE_CountTooLarge ⊕
  refuse (negb (is_u32 value)) FE_CountTooLarge ⊕
  put (push_u32 value).

Definition validate_frame_component (value : str) : frame_result unit :=
  if bool_decide (value = []) || bool_decide (value = lit ".") || bool_decide (value = lit "..")
     || (MAX_MANIFEST_V2_COMPONENT_BYTES <? zlen value)
     || existsb (fun ch => is_control ch || is_separator ch) (chars value)
  then Err FE_UnsafeComponent
  else Ok tt.

Definition write_component (value : str) : writer :=
  (_ ← validate_frame_component value; Ok []) ⊕
  refuse (negb (is_u32 (zlen value))) FE_UnsafeComponent ⊕
  put (push_u32 (zlen value)) ⊕ put value.

Arguments put : simpl never.
Arguments refuse : simpl never.
Arguments write_seq : simpl never.
Arguments check_entry_id : simpl never.
Arguments count : simpl never.

(** ** Tags *)

(** The discriminants ([#[repr(u8)]]) and the decoders of [tag_decoder!]. *)
Definition unknown_tag {A} (name : string) (value : Z) : frame_result A :=
  Err (FE_UnknownTag name value).

Definition entry_disposition_id (v : EntryDispositionV2) : Z :=
  match v with ReceivePayload => 0 | DispositionReuseExisting => 1 end.
Definition entry_disposition (value : Z) : frame_result EntryDispositionV2 :=
  match value with
  | 0 => Ok ReceivePayload
  | 1 => Ok DispositionReuseExisting
  | other => unknown_tag "entry disposition" other
  end.

Definition entry_encoding_id (v : EntryEncodingV2) : Z :=
  match v with Identity => 0 | Zstd => 1 end.
Definition entry_encoding (value : Z) : frame_result EntryEncodingV2 :=
  match value with
  | 0 => Ok Identity
  | 1 => Ok Zstd
  | other => unknown_tag "entry encoding" other
  end.

Definition entry_digest_decision_id (v : EntryDigestDecisionV2) : Z :=
  match v with Proposed => 0 | ContinuePayload => 1 | DecisionReuseExisting => 2 end.
Definition entry_digest_decision (value : Z) : frame_result EntryDigestDecisionV2 :=
  match value with
  | 0 => Ok Proposed
  | 1 => Ok ContinuePayload
  | 2 => Ok DecisionReuseExisting
  | other => unknown_tag "entry digest decision" other
  end.

Definition entry_completion_id (v : EntryCompletionChoiceV2) : Z :=
  match v with PayloadComplete => 0 | CompletionReuseChosen => 1 end.
Definition entry_completion (value : Z) : frame_result EntryCompletionChoiceV2 :=
  match value with
  | 0 => Ok PayloadComplete
  | 1 => Ok CompletionReuseChosen
  | other => unknown_tag "entry completion" other
  end.

Definition entry_result_kind_id (v : EntryResultKindV2) : Z :=
  match v with Saved => 0 | ReusedExisting => 1 end.
Definition entry_result_kind (value : Z) : frame_result EntryResultKindV2 :=
  match value with
  | 0 => Ok Saved
  | 1 => Ok ReusedExisting
  | other => unknown_tag "entry result" other
  end.

Definition entry_arbiter_id (v : EntryArbiterV2) : Z :=
  match v with PayloadOpen => 0 | ArbiterReuseChosen => 1 | PayloadCompleteChosen => 2 end.
Definition entry_arbiter (value : Z) : frame_result EntryArbiterV2 :=
  match value with
  | 0 => Ok PayloadOpen
  | 1 => Ok ArbiterReuseChosen
  | 2 => Ok PayloadCompleteChosen
  | other => unknown_tag "entry arbiter" other
  end.

Definition cancel_scope_id (v : CancelScopeV2) : Z :=
  match v with ScopeJob => 0 | ScopeEntry => 1 end.
Definition cancel_scope (value : Z) : frame_result CancelScopeV2 :=
  match value with
  | 0 => Ok ScopeJob
  | 1 => Ok ScopeEntry
  | other => unknown_tag "cancel scope" other
  end.

Definition failure_phase_id (v : ManifestFailurePhaseV2) : Z :=
  match v with
  | PhaseOffer => 0 | PhaseDestination => 1 | PhasePayload => 2
  | PhaseVerify => 3 | PhaseSave => 4 | PhaseProof => 5
  end.
Definition failure_phase (value : Z) : frame_result ManifestFailurePhaseV2 :=
  match value with
  | 0 => Ok PhaseOffer
  | 1 => Ok PhaseDestination
  | 2 => Ok PhasePayload
  | 3 => Ok PhaseVerify
  | 4 => Ok PhaseSave
  | 5 => Ok PhaseProof
  | other => unknown_tag "failure phase" other
  end.

(** ** The reader's composite operations *)

Abbreviation freader A := (parser ManifestV2FrameCodecError A).
Definition f_exact (n : Z) : freader (list byte) := read_exact FE_Truncated FE_Truncated n.
Definition f_array (n : Z) : freader (list byte) := read_array FE_Truncated FE_Truncated n.
Definition f_u8 : freader Z := read_u8 FE_Truncated FE_Truncated.
Definition f_u32 : freader Z := read_be FE_Truncated FE_Truncated 4.
Definition f_u64 : freader Z := read_be FE_Truncated FE_Truncated 8.

Definition f_identity : freader JobGenerationV2 :=
  jid ← f_array JOB_ID_BYTES;
  generation ← f_u32;
  if bool_decide (jid = zero_bytes JOB_ID_BYTES) || (generation =? 0)
  then fail FE_InvalidIdentity
  else mret (mkJobGeneration jid generation).

Definition f_digest : freader ContentDigestV2 := f_array DIGEST_BYTES.

Definition f_entry_id : freader Z :=
  eid ← f_u32;
  _ ← lift (checked_entry_id eid);
  mret eid.

Definition f_count (maximum : Z) : freader Z :=
  count ← f_u32;
  if maximum <? count then fail FE_CountTooLarge else mret count.

Definition f_bytes (maximum : Z) : freader (list byte) :=
  length ← f_u32;
  if maximum <? length then fail FE_FrameTooLarge else f_exact length.

Definition f_component : freader str :=
  bytes ← f_bytes MAX_MANIFEST_V2_COMPONENT_BYTES;
  value ← lift (ok_or FE_InvalidUtf8 (from_utf8 bytes));
  _ ← lift (validate_frame_component value);
  mret value.

(** [match self.u8()? { 0 => None, 1 => Some(..), _ => InvalidOptional }] *)
Definition f_optional {A} (p : freader A) : freader (option A) :=
  tag ← f_u8;
  match tag with
  | 0 => mret None
  | 1 => v ← p; mret (Some v)
  | _ => fail FE_InvalidOptional
  end.

Definition f_optional_u32 : freader (option Z) := f_optional f_entry_id.
Definition f_optional_digest : freader (option ContentDigestV2) := f_optional f_digest.

Definition f_tag {A} (decode : Z -> frame_result A) : freader A :=
  tag ← f_u8;
  lift (decode tag).

Definition f_entry_result : freader EntryResultV2 :=
  identity ← f_identity;
  eid ← f_entry_id;
  result ← f_tag entry_result_kind;
  size ← f_u64;
  digest ← f_optional_digest;
  component ← f_optional f_component;
  mret (mkResult identity eid result size digest component).

Definition f_finish : freader unit := finish FE_TrailingBytes.

(** ** Payloads *)

Section Payloads.
Context (is_nfc : str -> bool) (blake3 : list byte -> list byte).

Definition encode_entry_result_body (v : EntryResultV2) : writer :=
  identity (er_identity v) ⊕
  check_entry_id (er_entry_id v) ⊕
  put (push_u32 (er_entry_id v)) ⊕
  put (push_u8 (entry_result_kind_id (er_result v))) ⊕
  put (push_u64 (er_final_size v)) ⊕
  put (optional_digest (er_final_digest v)) ⊕
  match final_component_override v with
  | Some c => put (push_u8 1) ⊕ write_component c
  | None => put (push_u8 0)
  end.

(** The turns of the two loops of an Accept. *)
Definition write_root_plan (index : Z) (root : RootPlanV2) : writer :=
  refuse (negb (rp_root_id root =? as_u32 index)) FE_InvalidRootId ⊕
  put (push_u32 (rp_root_id root)) ⊕
  write_component (planned_name root).
Definition write_entry_plan (index : Z) (entry : EntryPlanV2) : writer :=
  refuse (negb (ep_entry_id entry =? as_u32 index)) FE_InvalidEntryId ⊕
  put (push_u32 (ep_entry_id entry)) ⊕
  put (push_u8 (entry_disposition_id (disposition entry))) ⊕
  put (push_u64 (ep_next_plaintext_block entry)).

Definition encode_accept (v : ManifestAcceptV2) : writer :=
  identity (acc_identity v) ⊕
  refuse (bool_decide (proof_capability v = zero_bytes DIGEST_BYTES)
          || (acc_plan_revision v =? 0)) FE_InvalidIdentity ⊕
  put (acc_manifest_digest v) ⊕
  put (accept_nonce v) ⊕
  put (proof_capability v) ⊕
  put (push_u32 (acc_plan_revision v)) ⊕
  count (zlen (root_plans v)) MAX_MANIFEST_V2_ROOTS ⊕
  write_indexed 0 write_root_plan (root_plans v) ⊕
  count (zlen (entry_plans v)) MAX_MANIFEST_V2_ENTRIES ⊕
  write_indexed 0 write_entry_plan (entry_plans v).

Definition encode_entry_start (v : EntryStartV2) : writer :=
  identity (es_identity v) ⊕
  check_entry_id (es_entry_id v) ⊕
  refuse ((plaintext_block_bytes v =? 0)
          || (MAX_MANIFEST_V2_BLOCK_PLAINTEXT_BYTES <? plaintext_block_bytes v))
    FE_InvalidBlock ⊕
  put (push_u32 (es_entry_id v)) ⊕
  put (push_u8 (entry_encoding_id (encoding v))) ⊕
  put (push_u32 (plaintext_block_bytes v)).

Definition encode_content_digest_frame (v : EntryContentDigestFrameV2) : writer :=
  identity (cd_identity v) ⊕
  check_entry_id (cd_entry_id v) ⊕
  put (push_u32 (cd_entry_id v)) ⊕
  put (cd_digest v) ⊕
  put (push_u8 (entry_digest_decision_id (decision v))).

Definition encode_entry_block (v : EntryBlockV2) : writer :=
  identity (eb_identity v) ⊕
  check_entry_id (eb_entry_id v) ⊕
  refuse ((plaintext_length v =? 0)
          || (MAX_MANIFEST_V2_BLOCK_PLAINTEXT_BYTES <? plaintext_length v)
          || (zlen (encoded_bytes v) =? 0)
          || (MAX_MANIFEST_V2_BLOCK_ENCODED_BYTES <? zlen (encoded_bytes v)))
    FE_InvalidBlock ⊕
  put (push_u32 (eb_entry_id v)) ⊕
  put (push_u64 (block_index v)) ⊕
  put (push_u64 (plaintext_offset v)) ⊕
  put (push_u32 (plaintext_length v)) ⊕
  refuse (negb (is_u32 (zlen (encoded_bytes v)))) FE_InvalidBlock ⊕
  put (push_u32 (zlen (encoded_bytes v))) ⊕
  put (encoded_bytes v).

Definition encode_entry_complete (v : EntryCompleteV2) : writer :=
  identity (ec_identity v) ⊕
  check_entry_id (ec_entry_id v) ⊕
  put (push_u32 (ec_entry_id v)) ⊕
  put (push_u64 (ec_final_size v)) ⊕
  put (ec_final_digest v) ⊕
  put (push_u8 (entry_completion_id (completion_choice v))).

Definition encode_job_complete (v : JobCompleteV2) : writer :=
  identity (jc_identity v) ⊕
  put (sender_completion_set_digest v).

Definition encode_delivery_proof (v : DeliveryProofV2) : writer :=
  identity (dp_identity v) ⊕
  put (dp_manifest_digest v) ⊕
  put (result_set_digest v) ⊕
  put (proof_nonce v) ⊕
  put (proof_mac v).

(** [build_manifest_offer_v2], the digest comparison, then
    [encode_manifest_offer_v2]. *)
Definition encode_checked_offer (offer : ManifestOfferV2) : writer :=
  rebuilt ← map_err (fun e => FE_Offer (OfferCodecRejected e))
              (build_manifest_offer_v2 is_nfc blake3 (manifest offer));
  if negb (bool_decide (structural_digest rebuilt = structural_digest offer))
  then Err (FE_Offer OfferDigestDisagrees)
  else map_err (fun e => FE_Offer (OfferCodecRejected e))
         (encode_manifest_offer_v2 is_nfc blake3 (manifest offer)).

Definition decode_checked_offer (encoded : list byte) : frame_result ManifestOfferV2 :=
  map_err (fun e => FE_Offer (OfferCodecRejected e))
    (decode_manifest_offer_v2 is_nfc blake3 encoded).

(** [identity.job_id != offer.manifest.job_id || identity.generation != ..] *)
Definition identity_differs (id : JobGenerationV2) (offer : ManifestOfferV2) : bool :=
  negb (bool_decide (jg_job_id id = job_id (manifest offer)))
  || negb (jg_generation id =? generation (manifest offer)).

Definition encode_resume_request (v : ResumeRequestV2) : writer :=
  identity (rr_identity v) ⊕
  refuse (bool_decide (rr_challenge_nonce v = zero_bytes NONCE_BYTES)) FE_InvalidChallenge ⊕
  refuse (identity_differs (rr_identity v) (rr_offer v)) FE_InvalidIdentity ⊕
  (encoded_offer ← encode_checked_offer (rr_offer v);
   refuse (negb (is_u32 (zlen encoded_offer))) FE_FrameTooLarge ⊕
   put (push_u32 (zlen encoded_offer)) ⊕
   put encoded_offer) ⊕
  put (rr_accept_body_digest v) ⊕
  put (sender_checkpoint_digest v) ⊕
  put (rr_challenge_nonce v).

Definition write_resume_entry (index : Z) (entry : ResumeEntryV2) : writer :=
  refuse (negb (re_entry_id entry =? as_u32 index)) FE_InvalidEntryId ⊕
  put (push_u32 (re_entry_id entry)) ⊕
  put (push_u8 (entry_arbiter_id (arbiter entry))) ⊕
  put (push_u64 (re_next_plaintext_block entry)) ⊕
  put (optional_digest (re_content_digest entry)) ⊕
  match entry_result entry with
  | Some result => put (push_u8 1) ⊕ encode_entry_result_body result
  | None => put (push_u8 0)
  end.

Definition encode_resume_status (v : ResumeStatusV2) : writer :=
  identity (rs_identity v) ⊕
  refuse (bool_decide (rs_challenge_nonce v = zero_bytes NONCE_BYTES)
          || bool_decide (challenge_mac v = zero_bytes DIGEST_BYTES)) FE_InvalidChallenge ⊕
  put (rs_accept_body_digest v) ⊕
  put (push_u32 (rs_plan_revision v)) ⊕
  count (zlen (rs_entries v)) MAX_MANIFEST_V2_ENTRIES ⊕
  write_indexed 0 write_resume_entry (rs_entries v) ⊕
  put (rs_challenge_nonce v) ⊕
  put (challenge_mac v).

(** [matches!(scope, CancelScopeV2::Job) != entry_id.is_none()] *)
Definition cancel_scope_disagrees (s : CancelScopeV2) (eid : option Z) : bool :=
  xorb (match s with ScopeJob => true | ScopeEntry => false end)
       (match eid with None => true | Some _ => false end).

Definition encode_cancel (v : CancelV2) : writer :=
  identity (ca_identity v) ⊕
  refuse (cancel_scope_disagrees (scope v) (ca_entry_id v)) FE_InvalidCancelScope ⊕
  put (push_u8 (cancel_scope_id (scope v))) ⊕
  put (optional_u32 (ca_entry_id v)) ⊕
  put (push_u32 (ca_failure_code v)).

Definition encode_error (v : ManifestErrorV2) : writer :=
  identity (me_identity v) ⊕
  put (push_u32 (me_failure_code v)) ⊕
  put (push_u8 (failure_phase_id (phase v))) ⊕
  put (optional_u32 (me_entry_id v)).

Definition encode_payload (frame : ManifestV2Frame)
    : frame_result (ManifestV2FrameType * list byte) :=
  let typed (t : ManifestV2FrameType) (w : writer) := out ← w; Ok (t, out) in
  match frame with
  | Offer _ => Err FE_UnexpectedOfferPayload
  | Accept v => typed FT_Accept (encode_accept v)
  | EntryStart v => typed FT_EntryStart (encode_entry_start v)
  | EntryContentDigest v => typed FT_EntryContentDigest (encode_content_digest_frame v)
  | EntryBlock v => typed FT_EntryBlock (encode_entry_block v)
  | EntryComplete v => typed FT_EntryComplete (encode_entry_complete v)
  | EntryResult v => typed FT_EntryResult (encode_entry_result_body v)
  | JobComplete v => typed FT_JobComplete (encode_job_complete v)
  | DeliveryProof v => typed FT_DeliveryProof (encode_delivery_proof v)
  | ResumeRequest v => typed FT_ResumeRequest (encode_resume_request v)
  | ResumeStatus v => typed FT_ResumeStatus (encode_resume_status v)
  | Cancel v => typed FT_Cancel (encode_cancel v)
  | Error v => typed FT_Error (encode_error v)
  end.

(** *** Decoders *)

Definition decode_root_plan (index : Z) : freader RootPlanV2 :=
  rid ← f_u32;
  if negb (rid =? as_u32 index) then fail FE_InvalidRootId
  else name ← f_component; mret (mkRootPlan rid name).

Definition decode_entry_plan (index : Z) : freader EntryPlanV2 :=
  eid ← f_u32;
  if negb (eid =? as_u32 index) then fail FE_InvalidEntryId
  else
    d ← f_tag entry_disposition;
    next ← f_u64;
    mret (mkEntryPlan eid d next).

Definition decode_accept : freader ManifestAcceptV2 :=
  id ← f_identity;
  digest ← f_digest;
  nonce ← f_array NONCE_BYTES;
  capability ← f_array DIGEST_BYTES;
  revision ← f_u32;
  if bool_decide (capability = zero_bytes DIGEST_BYTES) || (revision =? 0)
  then fail FE_InvalidIdentity
  else
    root_count ← f_count MAX_MANIFEST_V2_ROOTS;
    root_plans ← read_n (Z.to_nat root_count) 0 decode_root_plan;
    entry_count ← f_count MAX_MANIFEST_V2_ENTRIES;
    entry_plans ← read_n (Z.to_nat entry_count) 0 decode_entry_plan;
    mret (mkAccept id digest nonce capability revision root_plans entry_plans).

Definition decode_entry_start : freader EntryStartV2 :=
  id ← f_identity;
  eid ← f_entry_id;
  enc ← f_tag entry_encoding;
  block ← f_u32;
  if (block =? 0) || (MAX_MANIFEST_V2_BLOCK_PLAINTEXT_BYTES <? block)
  then fail FE_InvalidBlock
  else mret (mkEntryStart id eid enc block).

Definition decode_content_digest_frame : freader EntryContentDigestFrameV2 :=
  id ← f_identity;
  eid ← f_entry_id;
  digest ← f_digest;
  d ← f_tag entry_digest_decision;
  mret (mkContentDigest id eid digest d).

Definition decode_entry_block : freader EntryBlockV2 :=
  id ← f_identity;
  eid ← f_entry_id;
  index ← f_u64;
  offset ← f_u64;
  len ← f_u32;
  bytes ← f_bytes MAX_MANIFEST_V2_BLOCK_ENCODED_BYTES;
  if (len =? 0) || (MAX_MANIFEST_V2_BLOCK_PLAINTEXT_BYTES <? len) || (zlen bytes =? 0)
  then fail FE_InvalidBlock
  else mret (mkBlock id eid index offset len bytes).

Definition decode_entry_complete : freader EntryCompleteV2 :=
  id ← f_identity;
  eid ← f_entry_id;
  size ← f_u64;
  digest ← f_digest;
  choice ← f_tag entry_completion;
  mret (mkComplete id eid size digest choice).

Definition decode_job_complete : freader JobCompleteV2 :=
  id ← f_identity;
  digest ← f_digest;
  mret (mkJobComplete id digest).

Definition decode_delivery_proof : freader DeliveryProofV2 :=
  id ← f_identity;
  digest ← f_digest;
  results ← f_digest;
  nonce ← f_array NONCE_BYTES;
  mac ← f_array DIGEST_BYTES;
  mret (mkProof id digest results nonce mac).

Definition decode_resume_request : freader ResumeRequestV2 :=
  id ← f_identity;
  encoded_offer ← f_bytes MAX_MANIFEST_V2_ENCODED_BYTES;
  offer ← lift (decode_checked_offer encoded_offer);
  if identity_differs id offer then fail FE_InvalidIdentity
  else
    accept_digest ← f_digest;
    checkpoint ← f_digest;
    nonce ← f_array NONCE_BYTES;
    if bool_decide (nonce = zero_bytes NONCE_BYTES) then fail FE_InvalidChallenge
    else mret (mkResumeRequest id offer accept_digest checkpoint nonce).

(** [entry_result.is_some_and(|r| r.identity != identity || r.entry_id != entry_id)] *)
Definition result_mismatch (id : JobGenerationV2) (eid : Z) (r : option EntryResultV2) : bool :=
  match r with
  | Some r => negb (bool_decide (er_identity r = id)) || negb (er_entry_id r =? eid)
  | None => false
  end.

Definition decode_resume_entry (id : JobGenerationV2) (index : Z) : freader ResumeEntryV2 :=
  eid ← f_entry_id;
  if negb (eid =? as_u32 index) then fail FE_InvalidEntryId
  else
    arb ← f_tag entry_arbiter;
    next ← f_u64;
    digest ← f_optional_digest;
    result ← f_optional f_entry_result;
    if result_mismatch id eid result then fail FE_InvalidIdentity
    else mret (mkResumeEntry eid arb next digest result).

Definition decode_resume_status : freader ResumeStatusV2 :=
  id ← f_identity;
  accept_digest ← f_digest;
  revision ← f_u32;
  count ← f_count MAX_MANIFEST_V2_ENTRIES;
  entries ← read_n (Z.to_nat count) 0 (decode_resume_entry id);
  nonce ← f_array NONCE_BYTES;
  mac ← f_array DIGEST_BYTES;
  if bool_decide (nonce = zero_bytes NONCE_BYTES) || bool_decide (mac = zero_bytes DIGEST_BYTES)
  then fail FE_InvalidChallenge
  else mret (mkResumeStatus id accept_digest revision entries nonce mac).

Definition decode_cancel : freader CancelV2 :=
  id ← f_identity;
  s ← f_tag cancel_scope;
  eid ← f_optional_u32;
  if cancel_scope_disagrees s eid then fail FE_InvalidCancelScope
  else
    code ← f_u32;
    mret (mkCancel id s eid code).

Definition decode_error : freader ManifestErrorV2 :=
  id ← f_identity;
  code ← f_u32;
  ph ← f_tag failure_phase;
  eid ← f_optional_u32;
  mret (mkError id code ph eid).

Definition decode_payload (frame_type : ManifestV2FrameType) : freader ManifestV2Frame :=
  let wrap {A} (c : A -> ManifestV2Frame) (p : freader A) : freader ManifestV2Frame :=
    v ← p; mret (c v) in
  match frame_type with
  | FT_Offer => fail FE_UnexpectedOfferPayload
  | FT_Accept => wrap Accept decode_accept
  | FT_EntryStart => wrap EntryStart decode_entry_start
  | FT_EntryContentDigest => wrap EntryContentDigest decode_content_digest_frame
  | FT_EntryBlock => wrap EntryBlock decode_entry_block
  | FT_EntryComplete => wrap EntryComplete decode_entry_complete
  | FT_EntryResult => wrap EntryResult f_entry_result
  | FT_JobComplete => wrap JobComplete decode_job_complete
  | FT_DeliveryProof => wrap DeliveryProof decode_delivery_proof
  | FT_ResumeRequest => wrap ResumeRequest decode_resume_request
  | FT_ResumeStatus => wrap ResumeStatus decode_resume_status
  | FT_Cancel => wrap Cancel decode_cancel
  | FT_Error => wrap Error decode_error
  end.

(** ** Framing *)

Record Header := mkHeader { hd_frame_type : ManifestV2FrameType; payload_length : Z }.

(** The checked sums do not overflow a 64-bit [usize]. *)
Definition maximum_payload_bytes (t : ManifestV2FrameType) : frame_result Z :=
  match t with
  | FT_EntryBlock => ok_or FE_FrameTooLarge
      (checked_add usize_max ENTRY_BLOCK_FIXED_PAYLOAD_BYTES MAX_MANIFEST_V2_BLOCK_ENCODED_BYTES)
  | FT_ResumeRequest => ok_or FE_FrameTooLarge
      (checked_add usize_max RESUME_REQUEST_FIXED_PAYLOAD_BYTES MAX_MANIFEST_V2_ENCODED_BYTES)
  | _ => Ok (MAX_CONTROL_FRAME_BYTES - HEADER_BYTES)
  end.

Definition frame_type (value : Z) : frame_result ManifestV2FrameType :=
  match value with
  | 1 => Ok FT_Offer
  | 2 => Ok FT_Accept
  | 3 => Ok FT_EntryStart
  | 4 => Ok FT_EntryContentDigest
  | 5 => Ok FT_EntryBlock
  | 6 => Ok FT_EntryComplete
  | 7 => Ok FT_EntryResult
  | 8 => Ok FT_JobComplete
  | 9 => Ok FT_DeliveryProof
  | 10 => Ok FT_ResumeRequest
  | 11 => Ok FT_ResumeStatus
  | 12 => Ok FT_Cancel
  | 13 => Ok FT_Error
  | other => Err (FE_UnknownFrameType other)
  end.

Definition parse_header (encoded : list byte) : frame_result Header :=
  if zlen encoded <? HEADER_BYTES then Err FE_Truncated
  else
    let header := take (Z.to_nat HEADER_BYTES) encoded in
    if negb (bool_decide (slice header 0 4 = MAGIC)) then Err FE_BadMagic
    else
      let version := be_value (slice header 4 2) in
      if negb (version =? MANIFEST_V2_PROTOCOL_VERSION) then Err (FE_UnsupportedVersion version)
      else
        t ← frame_type (be_value (slice header 6 2));
        Ok (mkHeader t (be_value (slice header 8 4))).

Definition encode_manifest_v2_frame (frame : ManifestV2Frame) : writer :=
  match frame with
  | Offer offer => encode_checked_offer offer
  | _ =>
    '(t, payload) ← encode_payload frame;
    maximum ← maximum_payload_bytes t;
    if maximum <? zlen payload then Err FE_FrameTooLarge
    else if negb (is_u32 (zlen payload)) then Err FE_FrameTooLarge
    else Ok (MAGIC ++ push_u16 MANIFEST_V2_PROTOCOL_VERSION ++ push_u16 (frame_type_id t) ++
             push_u32 (zlen payload) ++ payload)
  end.

Definition decode_manifest_v2_frame (encoded : list byte) : frame_result ManifestV2Frame :=
  header ← parse_header encoded;
  if negb (zlen encoded =? HEADER_BYTES + payload_length header)
  then Err (FE_LengthMismatch (payload_length header) (saturating_sub (zlen encoded) HEADER_BYTES))
  else
    match hd_frame_type header with
    | FT_Offer => offer ← decode_checked_offer encoded; Ok (Offer offer)
    | t =>
      maximum ← maximum_payload_bytes t;
      if maximum <? payload_length header then Err FE_FrameTooLarge
      else
        '(frame, reader) ← decode_payload t (Reader_new (drop (Z.to_nat HEADER_BYTES) encoded));
        _ ← f_finish reader;
        Ok frame
    end.

Definition canonical_manifest_v2_frame_body_digest (frame : ManifestV2Frame)
    : frame_result ContentDigestV2 :=
  encoded ← encode_manifest_v2_frame frame;
  if zlen encoded <? HEADER_BYTES then Err FE_Truncated
  else Ok (blake3 (drop (Z.to_nat HEADER_BYTES) encoded)).

(** The frame, and what is left on the stream. *)
Definition read_manifest_v2_frame (input : list byte)
    : frame_result (ManifestV2Frame * list byte) :=
  '(header_bytes, input) ← stream_read_exact FE_UnexpectedEof HEADER_BYTES input;
  header ← parse_header header_bytes;
  maximum ← maximum_payload_bytes (hd_frame_type header);
  if maximum <? payload_length header then Err FE_FrameTooLarge
  else
    '(payload, input) ← stream_read_exact FE_UnexpectedEof (payload_length header) input;
    frame ← decode_manifest_v2_frame (header_bytes ++ payload);
    Ok (frame, input).

(** What has been written to the stream after the call. *)
Definition write_manifest_v2_frame (written : list byte) (frame : ManifestV2Frame) : writer :=
  encoded ← encode_manifest_v2_frame frame;
  Ok (written ++ encoded).
End Payloads.

Arguments result_mismatch : simpl never.
