(* ===== verification/FramesProof.v ===== *)
(** The frame codec: what the encoder writes the decoder reads back, and what
    the decoder accepts only the encoder writes.  The two frames on which the
    encoder is more liberal than the decoder are singled out by
    [wire_faithful]. *)

From stdpp Require Import prelude gmap strings.
From Stdlib Require Import ZArith Lia Strings.Byte.
From S2P Require Import Prelude Bytes Reader ManifestV2 ManifestSpec ValidateTheorem OfferCodec.
From S2P Require Import OfferProof Frames.

Local Open Scope Z_scope.
Local Open Scope writer_scope.

(** ** Type invariants of the frames *)

Definition wf_bytes (n : Z) (bs : list byte) : bool := zlen bs =? n.
Definition wf_identity (v : JobGenerationV2) : bool :=
  wf_job_id (jg_job_id v) && is_u32 (jg_generation v).
Definition wf_root_plan (v : RootPlanV2) : bool :=
  is_u32 (rp_root_id v) && utf8_valid (planned_name v).
Definition wf_entry_plan (v : EntryPlanV2) : bool :=
  is_u32 (ep_entry_id v) && is_u64 (ep_next_plaintext_block v).
Definition wf_accept (v : ManifestAcceptV2) : bool :=
  wf_identity (acc_identity v) && wf_digest (acc_manifest_digest v) &&
  wf_bytes NONCE_BYTES (accept_nonce v) && wf_bytes DIGEST_BYTES (proof_capability v) &&
  is_u32 (acc_plan_revision v) && forallb wf_root_plan (root_plans v) &&
  forallb wf_entry_plan (entry_plans v).
Definition wf_entry_start (v : EntryStartV2) : bool :=
  wf_identity (es_identity v) && is_u32 (es_entry_id v) && is_u32 (plaintext_block_bytes v).
Definition wf_content_digest_frame (v : EntryContentDigestFrameV2) : bool :=
  wf_identity (cd_identity v) && is_u32 (cd_entry_id v) && wf_digest (cd_digest v).
Definition wf_entry_block (v : EntryBlockV2) : bool :=
  wf_identity (eb_identity v) && is_u32 (eb_entry_id v) && is_u64 (block_index v) &&
  is_u64 (plaintext_offset v) && is_u32 (plaintext_length v).
Definition wf_entry_complete (v : EntryCompleteV2) : bool :=
  wf_identity (ec_identity v) && is_u32 (ec_entry_id v) && is_u64 (ec_final_size v) &&
  wf_digest (ec_final_digest v).
Definition wf_entry_result (v : EntryResultV2) : bool :=
  wf_identity (er_identity v) && is_u32 (er_entry_id v) && is_u64 (er_final_size v) &&
  wf_option wf_digest (er_final_digest v) && wf_option utf8_valid (final_component_override v).
Definition wf_job_complete (v : JobCompleteV2) : bool :=
  wf_identity (jc_identity v) && wf_digest (sender_completion_set_digest v).
Definition wf_delivery_proof (v : DeliveryProofV2) : bool :=
  wf_identity (dp_identity v) && wf_digest (dp_manifest_digest v) &&
  wf_digest (result_set_digest v) && wf_bytes NONCE_BYTES (proof_nonce v) &&
  wf_bytes DIGEST_BYTES (proof_mac v).
Definition wf_offer (v : ManifestOfferV2) : bool := wf_manifest (manifest v).
Definition wf_resume_request (v : ResumeRequestV2) : bool :=
  wf_identity (rr_identity v) && wf_offer (rr_offer v) && wf_digest (rr_accept_body_digest v) &&
  wf_digest (sender_checkpoint_digest v) && wf_bytes NONCE_BYTES (rr_challenge_nonce v).
Definition wf_resume_entry (v : ResumeEntryV2) : bool :=
  is_u32 (re_entry_id v) && is_u64 (re_next_plaintext_block v) &&
  wf_option wf_digest (re_content_digest v) && wf_option wf_entry_result (entry_result v).
Definition wf_resume_status (v : ResumeStatusV2) : bool :=
  wf_identity (rs_identity v) && wf_digest (rs_accept_body_digest v) &&
  is_u32 (rs_plan_revision v) && forallb wf_resume_entry (rs_entries v) &&
  wf_bytes NONCE_BYTES (rs_challenge_nonce v) && wf_bytes DIGEST_BYTES (challenge_mac v).
Definition wf_cancel (v : CancelV2) : bool :=
  wf_identity (ca_identity v) && wf_option is_u32 (ca_entry_id v) && is_u32 (ca_failure_code v).
Definition wf_error (v : ManifestErrorV2) : bool :=
  wf_identity (me_identity v) && is_u32 (me_failure_code v) && wf_option is_u32 (me_entry_id v).

Definition wf_frame (f : ManifestV2Frame) : bool :=
  match f with
  | Offer v => wf_offer v
  | Accept v => wf_accept v
  | EntryStart v => wf_entry_start v
  | EntryContentDigest v => wf_content_digest_frame v
  | EntryBlock v => wf_entry_block v
  | EntryComplete v => wf_entry_complete v
  | EntryResult v => wf_entry_result v
  | JobComplete v => wf_job_complete v
  | DeliveryProof v => wf_delivery_proof v
  | ResumeRequest v => wf_resume_request v
  | ResumeStatus v => wf_resume_status v
  | Cancel v => wf_cancel v
  | Error v => wf_error v
  end.

(** The entry id of a Cancel or Error is in the entry range, and the results
    inside a ResumeStatus speak of its own job and of their own entry: the
    decoder insists on it, the encoder does not look. *)
Definition small_entry_id (v : option Z) : bool :=
  match v with Some eid => eid <? MAX_MANIFEST_V2_ENTRIES | None => true end.
Definition wire_faithful (f : ManifestV2Frame) : bool :=
  match f with
  | ResumeStatus v =>
    forallb (fun e => negb (result_mismatch (rs_identity v) (re_entry_id e) (entry_result e)))
      (rs_entries v)
  | Cancel v => small_entry_id (ca_entry_id v)
  | Error v => small_entry_id (me_entry_id v)
  | _ => true
  end.

(** ** Writers *)

Section WriterFacts.
Lemma write_seq_ok w1 w2 out :
  w1 ⊕ w2 = Ok out <-> exists a b, w1 = Ok a /\ w2 = Ok b /\ out = a ++ b.
Proof. unfold write_seq. destruct w1, w2; cbn; naive_solver. Qed.

Lemma refuse_ok b e out : refuse b e = Ok out <-> b = false /\ out = [].
Proof. unfold refuse. destruct b; naive_solver. Qed.

Lemma check_entry_id_ok eid out :
  check_entry_id eid = Ok out <-> eid < MAX_MANIFEST_V2_ENTRIES /\ out = [].
Proof.
  unfold check_entry_id, checked_entry_id. destruct (Z.leb_spec MAX_MANIFEST_V2_ENTRIES eid);
    cbn; naive_solver lia.
Qed.

Lemma count_ok n maximum out :
  count n maximum = Ok out <-> n <= maximum /\ is_u32 n = true /\ out = push_u32 n.
Proof.
  unfold count. rewrite write_seq_ok. setoid_rewrite write_seq_ok.
  setoid_rewrite refuse_ok. unfold put. setoid_rewrite Z.ltb_ge. setoid_rewrite negb_false_iff.
  naive_solver.
Qed.

Lemma as_u32_small v : 0 <= v <= u32_max -> as_u32 v = v.
Proof. intros Hv. unfold as_u32, u32_max in *. rewrite Z.mod_small; lia. Qed.

Lemma write_indexed_cons {A} i (w : Z -> A -> writer) x l out :
  write_indexed i w (x :: l) = Ok out <->
  exists a b, w i x = Ok a /\ write_indexed (i + 1) w l = Ok b /\ out = a ++ b.
Proof. apply write_seq_ok. Qed.
End WriterFacts.

(** [write_inv] takes apart every successful encoder of the context;
    [write_ok] puts one together. *)
Ltac write_inv :=
  repeat match goal with
  | H : _ ⊕ _ = Ok _ |- _ => apply write_seq_ok in H; destruct H as (? & ? & ? & H & ->)
  | H : put _ = Ok _ |- _ => injection H as <-
  | H : refuse _ _ = Ok _ |- _ => apply refuse_ok in H; destruct H as [? ->]
  | H : check_entry_id _ = Ok _ |- _ => apply check_entry_id_ok in H; destruct H as [? ->]
  | H : count _ _ = Ok _ |- _ => apply count_ok in H; destruct H as (? & ? & ->)
  end; cbn [app].

(** ** Readers *)

Section FramePrimitives.
Lemma reads_f_u8 v : is_u8 v = true -> reads f_u8 (push_u8 v) v.
Proof. apply reads_read_u8. Qed.
Lemma reads_f_u32 v : is_u32 v = true -> reads f_u32 (push_u32 v) v.
Proof. apply reads_be_u32. Qed.
Lemma reads_f_u64 v : is_u64 v = true -> reads f_u64 (push_u64 v) v.
Proof. apply reads_be_u64. Qed.
Lemma reads_f_array bs n : wf_bytes n bs = true -> reads (f_array n) bs bs.
Proof. intros <-%Z.eqb_eq. by apply reads_read_array. Qed.
Lemma reads_f_digest bs : wf_digest bs = true -> reads f_digest bs bs.
Proof. apply reads_f_array. Qed.

Lemma accepts_f_u8 : accepts f_u8 (fun v out => out = push_u8 v /\ is_u8 v = true).
Proof. apply accepts_read_u8. Qed.
Lemma accepts_f_u32 : accepts f_u32 (fun v out => out = push_u32 v /\ is_u32 v = true).
Proof. apply accepts_be_u32. Qed.
Lemma accepts_f_u64 : accepts f_u64 (fun v out => out = push_u64 v /\ is_u64 v = true).
Proof. apply accepts_be_u64. Qed.
Lemma accepts_f_array n :
  0 <= n -> accepts (f_array n) (fun bs out => out = bs /\ wf_bytes n bs = true).
Proof.
  intros Hn. eapply accepts_weaken; [by apply accepts_read_array|].
  intros bs out [-> Hl]. split; [done|]. by apply Z.eqb_eq.
Qed.
Lemma accepts_f_digest : accepts f_digest (fun bs out => out = bs /\ wf_digest bs = true).
Proof. by apply accepts_f_array. Qed.
End FramePrimitives.

#[export] Hint Resolve reads_f_u8 reads_f_u32 reads_f_u64 reads_f_array reads_f_digest : reads.
#[export] Hint Resolve accepts_f_u8 accepts_f_u32 accepts_f_u64 accepts_f_array accepts_f_digest
  : accepts.

(** *** Tags *)

(** What an enum promises the codec: its discriminants are bytes, and its
    decoder inverts them. *)
Class WireTag {A : Type} (to : A -> Z) (from : Z -> frame_result A) : Prop := {
  tag_u8 a : is_u8 (to a) = true;
  tag_from_to a : from (to a) = Ok a;
  tag_to_from v a : from v = Ok a -> v = to a;
}.

Ltac solve_tag :=
  split; [by intros []|by intros []|];
  intros v a H; destruct v as [|[v|v|]|v]; try discriminate H;
  try (destruct v as [v|v|]; try discriminate H; try (destruct v; try discriminate H));
  injection H as <-; reflexivity.

#[export] Instance entry_disposition_tag : WireTag entry_disposition_id entry_disposition.
Proof. solve_tag. Qed.
#[export] Instance entry_encoding_tag : WireTag entry_encoding_id entry_encoding.
Proof. solve_tag. Qed.
#[export] Instance entry_digest_decision_tag :
  WireTag entry_digest_decision_id entry_digest_decision.
Proof. solve_tag. Qed.
#[export] Instance entry_completion_tag : WireTag entry_completion_id entry_completion.
Proof. solve_tag. Qed.
#[export] Instance entry_result_kind_tag : WireTag entry_result_kind_id entry_result_kind.
Proof. solve_tag. Qed.
#[export] Instance entry_arbiter_tag : WireTag entry_arbiter_id entry_arbiter.
Proof. solve_tag. Qed.
#[export] Instance cancel_scope_tag : WireTag cancel_scope_id cancel_scope.
Proof. solve_tag. Qed.
#[export] Instance failure_phase_tag : WireTag failure_phase_id failure_phase.
Proof. solve_tag. Qed.

Section Tags.
Context {A : Type} (to : A -> Z) (from : Z -> frame_result A).

Lemma reads_f_tag a : WireTag to from -> reads (f_tag from) (push_u8 (to a)) a.
Proof.
  intros HT. pose proof (tag_u8 a). eapply reads_bind_r; [by apply reads_f_u8|].
  rewrite tag_from_to. apply reads_lift.
Qed.

Lemma accepts_f_tag :
  WireTag to from -> accepts (f_tag from) (fun a out => out = push_u8 (to a)).
Proof.
  intros HT. eapply accepts_bind; [apply accepts_f_u8|]. intros v o [-> _].
  eapply accepts_weaken; [apply accepts_lift|]. intros a out [Ha ->].
  rewrite app_nil_r. by rewrite (tag_to_from v a Ha).
Qed.
End Tags.
#[export] Hint Resolve reads_f_tag : reads.
#[export] Hint Resolve accepts_f_tag : accepts.
#[export] Hint Extern 0 (WireTag _ _) => typeclasses eauto : reads accepts.

(** *** Composite readers *)

Section Composite.
Lemma reads_f_identity v out :
  wf_identity v = true -> identity v = Ok out -> reads f_identity out v.
Proof.
  unfold wf_identity. intros Hwf H. unfold identity in H. write_inv. bool_prop.
  destruct v as [jid g]. cbn in *. unfold f_identity.
  eapply reads_bind; [by apply reads_f_array|]. read_step.
  rewrite bool_decide_eq_false_2 by done. rewrite (proj2 (Z.eqb_neq _ _)) by done.
  apply reads_ret.
Qed.

Lemma accepts_f_identity :
  accepts f_identity (fun v out => identity v = Ok out /\ wf_identity v = true).
Proof.
  unfold f_identity. accept_step jid [-> Hj]. accept_step g [-> Hg].
  destruct (_ || _) eqn:Hz; [apply accepts_fail|]. accept_ret.
  unfold identity, wf_identity. cbn [jg_job_id jg_generation]. rewrite Hz, Hg. unfold wf_job_id.
  unfold wf_bytes in Hj. rewrite Hj. done.
Qed.

Lemma reads_f_entry_id v :
  is_u32 v = true -> v < MAX_MANIFEST_V2_ENTRIES -> reads f_entry_id (push_u32 v) v.
Proof.
  intros Hv Hlt. unfold f_entry_id. read_step. unfold checked_entry_id.
  rewrite (proj2 (Z.leb_gt _ _)) by done. read_step. apply reads_ret.
Qed.

Lemma accepts_f_entry_id :
  accepts f_entry_id (fun v out =>
    out = push_u32 v /\ is_u32 v = true /\ check_entry_id v = Ok []).
Proof.
  unfold f_entry_id. accept_step v [-> Hv].
  eapply accepts_bind; [apply accepts_lift|]. intros u o [Hc ->]. accept_ret.
  unfold check_entry_id. by rewrite Hc.
Qed.

Lemma reads_f_count n maximum :
  n <= maximum -> is_u32 n = true -> reads (f_count maximum) (push_u32 n) n.
Proof.
  intros Hn Hu. unfold f_count. read_step. rewrite (proj2 (Z.ltb_ge _ _)) by done.
  apply reads_ret.
Qed.

Lemma accepts_f_count maximum :
  accepts (f_count maximum) (fun n out => count n maximum = Ok out /\ is_u32 n = true).
Proof.
  unfold f_count. accept_step n [-> Hn].
  destruct (Z.ltb_spec maximum n); [apply accepts_fail|]. accept_ret.
  split; [by apply count_ok|done].
Qed.

Lemma reads_f_bytes bs maximum :
  zlen bs <= maximum -> is_u32 (zlen bs) = true ->
  reads (f_bytes maximum) (push_u32 (zlen bs) ++ bs) bs.
Proof.
  intros Hn Hu. unfold f_bytes. read_step. rewrite (proj2 (Z.ltb_ge _ _)) by done.
  by apply reads_read_exact.
Qed.

Lemma accepts_f_bytes maximum :
  accepts (f_bytes maximum) (fun bs out =>
    out = push_u32 (zlen bs) ++ bs /\ zlen bs <= maximum /\ is_u32 (zlen bs) = true).
Proof.
  unfold f_bytes. accept_step n [-> Hn].
  destruct (Z.ltb_spec maximum n); [apply accepts_fail|].
  assert (0 <= n) by (unfold is_u32 in Hn; bool_prop; lia).
  eapply accepts_weaken; [by apply accepts_read_exact|]. intros bs out [-> <-]. done.
Qed.

Lemma component_short c u :
  validate_frame_component c = Ok u -> zlen c <= MAX_MANIFEST_V2_COMPONENT_BYTES.
Proof. unfold validate_frame_component. intros H. inv_ok. bool_prop. done. Qed.

Lemma reads_f_component c out :
  utf8_valid c = true -> write_component c = Ok out -> reads f_component out c.
Proof.
  intros Hc H. unfold write_component in H. write_inv. inv_ok. bool_prop.
  match goal with Hv : validate_frame_component _ = _ |- _ => rename Hv into Hval end.
  pose proof (component_short _ _ Hval). unfold f_component. cbn [app].
  eapply reads_bind_r; [by apply reads_f_bytes|]. unfold from_utf8. rewrite Hc.
  read_step. rewrite Hval. read_step. apply reads_ret.
Qed.

Lemma accepts_f_component :
  accepts f_component (fun c out => write_component c = Ok out /\ utf8_valid c = true).
Proof.
  unfold f_component. eapply accepts_bind; [apply accepts_f_bytes|].
  intros bs o (-> & Hn & Hu).
  eapply accepts_bind; [apply accepts_lift|]. intros c o [Hc ->].
  eapply accepts_bind; [apply accepts_lift|]. intros u o [Hv ->]. accept_ret.
  unfold from_utf8 in Hc. destruct (utf8_valid bs) eqn:Hutf; [|done]. injection Hc as <-.
  unfold write_component. rewrite Hv, Hu. done.
Qed.

Lemma reads_f_some {A} (p : freader A) out v :
  reads p out v -> reads (f_optional p) (push_u8 1 ++ out) (Some v).
Proof. intros Hp. unfold f_optional. read_step. eapply reads_bind_r; [done|apply reads_ret]. Qed.

Lemma reads_f_none {A} (p : freader A) : reads (f_optional p) (push_u8 0) None.
Proof. unfold f_optional. read_step. apply reads_ret. Qed.

Lemma accepts_f_optional {A} (p : freader A) (P : A -> list byte -> Prop) :
  accepts p P ->
  accepts (f_optional p) (fun v out =>
    match v with
    | None => out = push_u8 0
    | Some a => exists o, out = push_u8 1 ++ o /\ P a o
    end).
Proof.
  intros Hp. unfold f_optional. accept_step tag [-> _]. tag_cases tag.
  - accept_ret. done.
  - eapply accepts_bind; [exact Hp|]. intros a o Ha. accept_ret. eauto.
Qed.

Lemma reads_f_optional_digest v :
  wf_option wf_digest v = true -> reads f_optional_digest (optional_digest v) v.
Proof.
  destruct v as [d|]; cbn; intros Hd; [|apply reads_f_none].
  apply reads_f_some. by apply reads_f_digest.
Qed.

Lemma accepts_f_optional_digest :
  accepts f_optional_digest (fun v out =>
    out = optional_digest v /\ wf_option wf_digest v = true).
Proof.
  eapply accepts_weaken; [apply accepts_f_optional, accepts_f_digest|].
  intros [d|] out; cbn; naive_solver.
Qed.

Lemma reads_f_optional_u32 v :
  wf_option is_u32 v = true -> small_entry_id v = true ->
  reads f_optional_u32 (optional_u32 v) v.
Proof.
  destruct v as [d|]; cbn; intros Hd Hs; [|apply reads_f_none].
  apply reads_f_some. bool_prop. by apply reads_f_entry_id.
Qed.

Lemma accepts_f_optional_u32 :
  accepts f_optional_u32 (fun v out =>
    out = optional_u32 v /\ wf_option is_u32 v = true /\ small_entry_id v = true).
Proof.
  eapply accepts_weaken; [apply accepts_f_optional, accepts_f_entry_id|].
  intros [d|] out; cbn; [|done]. intros (o & -> & -> & Hd & Hc).
  apply check_entry_id_ok in Hc as [Hc _]. split; [done|]. split; [done|]. by apply Z.ltb_lt.
Qed.
End Composite.

#[export] Hint Resolve reads_f_identity reads_f_entry_id reads_f_count reads_f_bytes
  reads_f_component reads_f_some reads_f_none reads_f_optional_digest reads_f_optional_u32 : reads.
#[export] Hint Resolve accepts_f_identity accepts_f_entry_id accepts_f_count accepts_f_bytes
  accepts_f_component accepts_f_optional_digest accepts_f_optional_u32 : accepts.

(** *** Loops *)

Section Loops.
Context {A : Type} (w : Z -> A -> writer) (p : Z -> freader A) (P : A -> Prop).

Lemma reads_indexed l i out :
  write_indexed i w l = Ok out -> Forall P l ->
  (forall k x o, P x -> i <= k < i + zlen l -> w k x = Ok o -> reads (p k) o x) ->
  reads (read_n (length l) i p) out l.
Proof.
  revert i out. induction l as [|x l IH]; intros i out Hout Hall Hp.
  - injection Hout as <-. apply reads_ret.
  - apply write_indexed_cons in Hout as (a & b & Ha & Hb & ->). cbn [length read_n].
    apply Forall_cons in Hall as [Hx Hall]. rewrite zlen_cons in Hp. pose proof (zlen_nonneg l).
    eapply reads_bind; [by apply Hp; [|lia|]|].
    eapply reads_bind_r; [|apply reads_ret]. apply IH; [done|done|].
    intros k y o Hy Hk. apply Hp; [done|lia].
Qed.

Lemma accepts_indexed n i :
  (forall k, i <= k < i + Z.of_nat n -> accepts (p k) (fun x out => w k x = Ok out /\ P x)) ->
  accepts (read_n n i p) (fun l out =>
    write_indexed i w l = Ok out /\ length l = n /\ Forall P l).
Proof.
  revert i. induction n as [|n IH]; intros i Hp; cbn [read_n].
  - accept_ret. done.
  - eapply accepts_bind; [apply Hp; lia|]. intros x o [Hx HP].
    eapply accepts_bind; [apply IH; intros k Hk; apply Hp; lia|].
    intros l o' (Hl & Hlen & Hall). accept_ret. split.
    + apply write_indexed_cons. eauto 6.
    + split; [cbn; lia|by constructor].
Qed.
End Loops.

Lemma forallb_Forall_true {A} (f : A -> bool) l :
  forallb f l = true <-> Forall (fun x => f x = true) l.
Proof. rewrite forallb_forall, List.Forall_forall. done. Qed.

(** [accept_finish] closes the goal an accepting reader ends in: the encoder
    takes the same decisions, and the type invariant holds. *)
Ltac rewrite_oks :=
  repeat match goal with
  | H : _ = Ok _ |- _ => rewrite H; clear H; cbn [mbind result_bind]
  | H : _ = true |- _ => rewrite H; clear H
  | H : _ = false |- _ => rewrite H; clear H
  end.
Ltac accept_finish :=
  cbn; unfold wf_digest, wf_bytes, NONCE_BYTES, DIGEST_BYTES in *; rewrite_oks; done.

(** ** Payloads *)

Section EntryFrames.
Lemma reads_entry_result v out :
  wf_entry_result v = true -> encode_entry_result_body v = Ok out ->
  reads f_entry_result out v.
Proof.
  unfold wf_entry_result, encode_entry_result_body. intros Hwf H. write_inv. bool_prop.
  destruct v as [id eid k size d [c|]]; cbn in *; write_inv;
    unfold f_entry_result; repeat read_step; apply reads_ret.
Qed.

Lemma accepts_entry_result :
  accepts f_entry_result (fun v out =>
    encode_entry_result_body v = Ok out /\ wf_entry_result v = true).
Proof.
  unfold f_entry_result. accept_step id [? ?]. accept_step eid [-> [? ?]].
  accept_step k ->. accept_step size [-> ?]. accept_step d [-> ?].
  eapply accepts_bind; [apply accepts_f_optional, accepts_f_component|].
  intros [c|] o Ho; [destruct Ho as (o' & -> & ? & ?)|subst o]; accept_ret;
    unfold encode_entry_result_body, wf_entry_result; accept_finish.
Qed.

Lemma reads_entry_start v out :
  wf_entry_start v = true -> encode_entry_start v = Ok out -> reads decode_entry_start out v.
Proof.
  unfold wf_entry_start, encode_entry_start. intros Hwf H. write_inv.
  destruct v. cbn in *. bool_prop. unfold decode_entry_start. repeat read_step.
  rewrite (proj2 (Z.eqb_neq _ _)) by done. rewrite (proj2 (Z.ltb_ge _ _)) by done.
  apply reads_ret.
Qed.

Lemma accepts_entry_start :
  accepts decode_entry_start (fun v out =>
    encode_entry_start v = Ok out /\ wf_entry_start v = true).
Proof.
  unfold decode_entry_start. accept_step id [? ?]. accept_step eid [-> [? ?]].
  accept_step k ->. accept_step size [-> ?].
  destruct (_ || _) eqn:?; [apply accepts_fail|]. accept_ret.
  unfold encode_entry_start, wf_entry_start. accept_finish.
Qed.

Lemma reads_content_digest_frame v out :
  wf_content_digest_frame v = true -> encode_content_digest_frame v = Ok out ->
  reads decode_content_digest_frame out v.
Proof.
  unfold wf_content_digest_frame, encode_content_digest_frame. intros Hwf H. write_inv.
  destruct v. cbn in *. bool_prop. unfold decode_content_digest_frame.
  repeat read_step. apply reads_ret.
Qed.

Lemma accepts_content_digest_frame :
  accepts decode_content_digest_frame (fun v out =>
    encode_content_digest_frame v = Ok out /\ wf_content_digest_frame v = true).
Proof.
  unfold decode_content_digest_frame. accept_step id [? ?].
  accept_step eid [-> [? ?]]. accept_step d [-> ?]. accept_step k ->. accept_ret.
  unfold encode_content_digest_frame, wf_content_digest_frame. accept_finish.
Qed.

Lemma reads_entry_block v out :
  wf_entry_block v = true -> encode_entry_block v = Ok out -> reads decode_entry_block out v.
Proof.
  unfold wf_entry_block, encode_entry_block. intros Hwf H. write_inv. destruct v.
  cbn in *. bool_prop. unfold decode_entry_block. do 5 read_step.
  eapply reads_bind_r; [by apply reads_f_bytes|]. cbn beta.
  rewrite !(proj2 (Z.eqb_neq _ _)) by done. rewrite (proj2 (Z.ltb_ge _ _)) by done.
  apply reads_ret.
Qed.

Lemma accepts_entry_block :
  accepts decode_entry_block (fun v out =>
    encode_entry_block v = Ok out /\ wf_entry_block v = true).
Proof.
  unfold decode_entry_block. accept_step id [? ?]. accept_step eid [-> [? ?]].
  accept_step i [-> ?]. accept_step o [-> ?]. accept_step n [-> ?].
  accept_step bs [-> [Hmax ?]].
  destruct (_ || _) eqn:?; [apply accepts_fail|]. accept_ret.
  apply Z.ltb_ge in Hmax. unfold encode_entry_block, wf_entry_block. accept_finish.
Qed.

Lemma reads_entry_complete v out :
  wf_entry_complete v = true -> encode_entry_complete v = Ok out ->
  reads decode_entry_complete out v.
Proof.
  unfold wf_entry_complete, encode_entry_complete. intros Hwf H. write_inv. destruct v.
  cbn in *. bool_prop. unfold decode_entry_complete. repeat read_step. apply reads_ret.
Qed.

Lemma accepts_entry_complete :
  accepts decode_entry_complete (fun v out =>
    encode_entry_complete v = Ok out /\ wf_entry_complete v = true).
Proof.
  unfold decode_entry_complete. accept_step id [? ?]. accept_step eid [-> [? ?]].
  accept_step size [-> ?]. accept_step d [-> ?]. accept_step k ->. accept_ret.
  unfold encode_entry_complete, wf_entry_complete. accept_finish.
Qed.
End EntryFrames.

Section JobFrames.
Context (is_nfc : str -> bool) (blake3 : list byte -> list byte).
Context (Hhash : forall b, zlen (blake3 b) = DIGEST_BYTES).

Lemma checked_offer_roundtrip offer bs :
  wf_offer offer = true -> encode_checked_offer is_nfc blake3 offer = Ok bs ->
  decode_checked_offer is_nfc blake3 bs = Ok offer /\
  zlen bs <= MAX_MANIFEST_V2_ENCODED_BYTES.
Proof.
  intros Hwf H. unfold encode_checked_offer, build_manifest_offer_v2 in H. inv_ok.
  cbn in *. bool_prop. match goal with He : encode_manifest_offer_v2 _ _ _ = _ |- _ =>
    rename He into Henc end.
  unfold decode_checked_offer. rewrite (offer_decode_encode _ _ _ _ Hhash Hwf Henc). split.
  - destruct offer. cbn in *. congruence.
  - apply encode_offer_ok in Henc as (_ & -> & Hs).
    rewrite zlen_app, zlen_offer_header, offer_payload_zlen by done. done.
Qed.

Lemma checked_offer_canonical offer bs :
  decode_checked_offer is_nfc blake3 bs = Ok offer ->
  encode_checked_offer is_nfc blake3 offer = Ok bs /\ wf_offer offer = true.
Proof.
  intros H%map_err_ok. destruct (offer_encode_decode _ _ _ _ Hhash H) as (Henc & Hwf & _ & Hd).
  split; [|done]. unfold encode_checked_offer, build_manifest_offer_v2. rewrite Henc.
  apply encode_offer_ok in Henc as (-> & _). cbn. rewrite bool_decide_eq_true_2; done.
Qed.

Lemma reads_accept v out :
  wf_accept v = true -> encode_accept v = Ok out -> reads decode_accept out v.
Proof.
  unfold wf_accept, encode_accept. intros Hwf H. write_inv. destruct v as [id d n c rev rs es].
  cbn in *. bool_prop. unfold decode_accept. do 5 read_step.
  rewrite bool_decide_eq_false_2 by done. rewrite (proj2 (Z.eqb_neq _ _)) by done. cbn [orb].
  read_step. unfold zlen at 1. rewrite Nat2Z.id. eapply reads_bind.
  { eapply reads_indexed; [done|by apply forallb_Forall_true|]. intros k [rid name] o Hx Hk Hw.
    unfold write_root_plan, wf_root_plan in *. cbn in *. write_inv. bool_prop. subst rid.
    unfold decode_root_plan. read_step. rewrite Z.eqb_refl. cbn [negb].
    repeat read_step. apply reads_ret. }
  read_step. unfold zlen at 1. rewrite Nat2Z.id. eapply reads_bind_r; [|apply reads_ret].
  eapply reads_indexed; [done|by apply forallb_Forall_true|]. intros k [eid di nx] o Hx Hk Hw.
  unfold write_entry_plan, wf_entry_plan in *. cbn in *. write_inv. bool_prop. subst eid.
  unfold decode_entry_plan. read_step. rewrite Z.eqb_refl. cbn [negb].
  repeat read_step. apply reads_ret.
Qed.

Lemma accepts_root_plan k :
  accepts (decode_root_plan k) (fun v out =>
    write_root_plan k v = Ok out /\ wf_root_plan v = true).
Proof.
  unfold decode_root_plan. accept_step rid [-> ?]. destruct (negb _) eqn:?; [apply accepts_fail|].
  accept_step name [? ?]. accept_ret. unfold write_root_plan, wf_root_plan. accept_finish.
Qed.

Lemma accepts_entry_plan k :
  accepts (decode_entry_plan k) (fun v out =>
    write_entry_plan k v = Ok out /\ wf_entry_plan v = true).
Proof.
  unfold decode_entry_plan. accept_step rid [-> ?]. destruct (negb _) eqn:?; [apply accepts_fail|].
  accept_step di ->. accept_step nx [-> ?]. accept_ret.
  unfold write_entry_plan, wf_entry_plan. accept_finish.
Qed.

Lemma zlen_of_count {A} (l : list A) n :
  is_u32 n = true -> length l = Z.to_nat n -> n = zlen l.
Proof. unfold is_u32, zlen. intros Hn Hl. bool_prop. lia. Qed.

Lemma accepts_accept :
  accepts decode_accept (fun v out => encode_accept v = Ok out /\ wf_accept v = true).
Proof.
  unfold decode_accept. accept_step id [? ?]. accept_step d [-> ?]. accept_step n [-> ?].
  accept_step c [-> ?]. accept_step rev [-> ?].
  destruct (_ || _) eqn:?; [apply accepts_fail|].
  accept_step nr [? Hnr]. eapply accepts_bind.
  { eapply (accepts_indexed write_root_plan). intros k _. apply accepts_root_plan. }
  intros rs o (? & Hlr%zlen_of_count & Hrs%forallb_Forall_true); [|done]. subst nr.
  accept_step ne [? Hne]. eapply accepts_bind.
  { eapply (accepts_indexed write_entry_plan). intros k _. apply accepts_entry_plan. }
  intros es o' (? & Hle%zlen_of_count & Hes%forallb_Forall_true); [|done]. subst ne.
  accept_ret. unfold encode_accept, wf_accept. accept_finish.
Qed.

Lemma reads_job_complete v out :
  wf_job_complete v = true -> encode_job_complete v = Ok out -> reads decode_job_complete out v.
Proof.
  unfold wf_job_complete, encode_job_complete. intros Hwf H. write_inv. destruct v.
  cbn in *. bool_prop. unfold decode_job_complete. repeat read_step. apply reads_ret.
Qed.

Lemma accepts_job_complete :
  accepts decode_job_complete (fun v out =>
    encode_job_complete v = Ok out /\ wf_job_complete v = true).
Proof.
  unfold decode_job_complete. accept_step id [? ?]. accept_step d [-> ?]. accept_ret.
  unfold encode_job_complete, wf_job_complete. accept_finish.
Qed.

Lemma reads_delivery_proof v out :
  wf_delivery_proof v = true -> encode_delivery_proof v = Ok out ->
  reads decode_delivery_proof out v.
Proof.
  unfold wf_delivery_proof, encode_delivery_proof. intros Hwf H. write_inv. destruct v.
  cbn in *. bool_prop. unfold decode_delivery_proof. repeat read_step. apply reads_ret.
Qed.

Lemma accepts_delivery_proof :
  accepts decode_delivery_proof (fun v out =>
    encode_delivery_proof v = Ok out /\ wf_delivery_proof v = true).
Proof.
  unfold decode_delivery_proof. accept_step id [? ?]. accept_step d [-> ?].
  accept_step r [-> ?]. accept_step n [-> ?]. accept_step m [-> ?]. accept_ret.
  unfold encode_delivery_proof, wf_delivery_proof. accept_finish.
Qed.

Lemma reads_resume_request v out :
  wf_resume_request v = true -> encode_resume_request is_nfc blake3 v = Ok out ->
  reads (decode_resume_request is_nfc blake3) out v.
Proof.
  unfold wf_resume_request, encode_resume_request. intros Hwf H. write_inv.
  destruct v as [id offer ad cd n]. cbn in *. inv_ok. write_inv.
  match goal with He : encode_checked_offer _ _ _ = Ok _ |- _ =>
    apply checked_offer_roundtrip in He as [Hdec Hsize]; [|by bool_prop] end.
  match goal with Hd : identity_differs _ _ = false |- _ => rename Hd into Hsame end.
  bool_prop. unfold decode_resume_request. read_step.
  eapply reads_bind; [by apply reads_f_bytes|]. rewrite Hdec. read_step. rewrite Hsame.
  repeat read_step. rewrite bool_decide_eq_false_2 by done. apply reads_ret.
Qed.

Lemma accepts_resume_request :
  accepts (decode_resume_request is_nfc blake3) (fun v out =>
    encode_resume_request is_nfc blake3 v = Ok out /\ wf_resume_request v = true).
Proof.
  unfold decode_resume_request. accept_step id [? ?]. accept_step bs [-> [? ?]].
  eapply accepts_bind; [apply accepts_lift|]. intros offer o [Hoff ->].
  apply checked_offer_canonical in Hoff as [? ?].
  destruct (identity_differs _ _) eqn:?; [apply accepts_fail|].
  accept_step ad [-> ?]. accept_step cd [-> ?]. accept_step n [-> ?].
  destruct (bool_decide _) eqn:?; [apply accepts_fail|]. accept_ret.
  unfold encode_resume_request, wf_resume_request. accept_finish.
Qed.
End JobFrames.

Section ControlFrames.
(** What the decoder insists on for one entry of a ResumeStatus. *)
Definition faithful_entry (id : JobGenerationV2) (e : ResumeEntryV2) : Prop :=
  wf_resume_entry e = true /\ result_mismatch id (re_entry_id e) (entry_result e) = false.

Lemma reads_resume_entry id k v out :
  faithful_entry id v -> 0 <= k < MAX_MANIFEST_V2_ENTRIES -> write_resume_entry k v = Ok out ->
  reads (decode_resume_entry id k) out v.
Proof.
  intros [Hwf Hm] Hk H. unfold write_resume_entry, wf_resume_entry in *.
  destruct v as [eid a nx d r]. cbn in *. write_inv. bool_prop. subst eid.
  rewrite as_u32_small in * by (unfold u32_max, MAX_MANIFEST_V2_ENTRIES in *; lia).
  unfold decode_resume_entry.
  eapply reads_bind; [apply reads_f_entry_id; [done|lia]|]. cbn beta.
  rewrite as_u32_small by (unfold u32_max, MAX_MANIFEST_V2_ENTRIES in *; lia).
  rewrite Z.eqb_refl. cbn [negb]. do 3 read_step.
  destruct r as [r|]; cbn in *; write_inv; (eapply reads_bind_r; [|rewrite Hm; apply reads_ret]).
  - apply reads_f_some. by apply reads_entry_result.
  - apply reads_f_none.
Qed.

Lemma accepts_resume_entry id k :
  accepts (decode_resume_entry id k) (fun v out =>
    write_resume_entry k v = Ok out /\ faithful_entry id v).
Proof.
  unfold decode_resume_entry. accept_step eid [-> [? ?]].
  destruct (negb _) eqn:?; [apply accepts_fail|].
  accept_step a ->. accept_step nx [-> ?]. accept_step d [-> ?].
  eapply accepts_bind; [apply accepts_f_optional, accepts_entry_result|].
  intros r o Ho. destruct (result_mismatch _ _ _) eqn:Hm; [apply accepts_fail|]. accept_ret.
  unfold faithful_entry, write_resume_entry, wf_resume_entry. cbn. rewrite Hm.
  destruct r as [r|]; [destruct Ho as (o' & -> & ? & ?)|subst o]; accept_finish.
Qed.

Lemma faithful_entries id es :
  Forall (faithful_entry id) es <->
  forallb wf_resume_entry es = true /\
  forallb (fun e => negb (result_mismatch id (re_entry_id e) (entry_result e))) es = true.
Proof.
  rewrite !forallb_Forall_true, <- Forall_and. apply Forall_iff. intros e.
  unfold faithful_entry. by rewrite negb_true_iff.
Qed.

Lemma reads_resume_status v out :
  wf_resume_status v = true -> wire_faithful (ResumeStatus v) = true ->
  encode_resume_status v = Ok out -> reads decode_resume_status out v.
Proof.
  unfold wf_resume_status, encode_resume_status. intros Hwf Hf H. write_inv.
  destruct v as [id d rev es n m]. cbn in *. bool_prop.
  assert (Hall : Forall (faithful_entry id) es) by (by apply faithful_entries).
  unfold decode_resume_status. do 4 read_step. unfold zlen at 1. rewrite Nat2Z.id.
  eapply reads_bind.
  { eapply reads_indexed; [done|exact Hall|]. intros k re o Hre Hk Hw.
    apply reads_resume_entry; [done| |done]. lia. }
  repeat read_step. rewrite !bool_decide_eq_false_2 by done. apply reads_ret.
Qed.

Lemma accepts_resume_status :
  accepts decode_resume_status (fun v out => encode_resume_status v = Ok out /\
    wf_resume_status v = true /\ wire_faithful (ResumeStatus v) = true).
Proof.
  unfold decode_resume_status. accept_step id [? ?]. accept_step d [-> ?].
  accept_step rev [-> ?]. accept_step ne [? Hne]. eapply accepts_bind.
  { eapply (accepts_indexed write_resume_entry). intros k _. apply (accepts_resume_entry id). }
  intros es o (? & Hle%zlen_of_count & [? ?]%faithful_entries); [|done]. subst ne.
  accept_step n [-> ?]. accept_step m [-> ?].
  destruct (_ || _) eqn:?; [apply accepts_fail|]. accept_ret.
  unfold encode_resume_status, wf_resume_status. accept_finish.
Qed.

Lemma reads_cancel v out :
  wf_cancel v = true -> wire_faithful (Cancel v) = true -> encode_cancel v = Ok out ->
  reads decode_cancel out v.
Proof.
  unfold wf_cancel, encode_cancel. intros Hwf Hf H. write_inv. destruct v. cbn in *.
  match goal with Hs : cancel_scope_disagrees _ _ = _ |- _ => rename Hs into Hscope end.
  bool_prop. unfold decode_cancel. do 3 read_step. rewrite Hscope. read_step. apply reads_ret.
Qed.

Lemma accepts_cancel :
  accepts decode_cancel (fun v out => encode_cancel v = Ok out /\
    wf_cancel v = true /\ wire_faithful (Cancel v) = true).
Proof.
  unfold decode_cancel. accept_step id [? ?]. accept_step s ->. accept_step eid [-> [? ?]].
  destruct (cancel_scope_disagrees _ _) eqn:?; [apply accepts_fail|].
  accept_step code [-> ?]. accept_ret. unfold encode_cancel, wf_cancel. accept_finish.
Qed.

Lemma reads_error v out :
  wf_error v = true -> wire_faithful (Error v) = true -> encode_error v = Ok out ->
  reads decode_error out v.
Proof.
  unfold wf_error, encode_error. intros Hwf Hf H. write_inv. destruct v. cbn in *.
  bool_prop. unfold decode_error. repeat read_step. apply reads_ret.
Qed.

Lemma accepts_error :
  accepts decode_error (fun v out => encode_error v = Ok out /\
    wf_error v = true /\ wire_faithful (Error v) = true).
Proof.
  unfold decode_error. accept_step id [? ?]. accept_step code [-> ?]. accept_step p ->.
  accept_step eid [-> [? ?]]. accept_ret. unfold encode_error, wf_error. accept_finish.
Qed.
End ControlFrames.

#[export] Hint Resolve reads_accept reads_entry_start reads_content_digest_frame reads_entry_block
  reads_entry_complete reads_entry_result reads_job_complete reads_delivery_proof
  reads_resume_request reads_resume_status reads_cancel reads_error : reads.
#[export] Hint Resolve accepts_accept accepts_entry_start accepts_content_digest_frame
  accepts_entry_block accepts_entry_complete accepts_entry_result accepts_job_complete
  accepts_delivery_proof accepts_resume_request accepts_resume_status accepts_cancel
  accepts_error : accepts.
