(* ===== verification/FramingProof.v ===== *)
(** Whole frames: the codec of [encode_manifest_v2_frame] and
    [decode_manifest_v2_frame], and their use on a byte stream. *)

From stdpp Require Import prelude gmap strings.
From Stdlib Require Import ZArith Lia Strings.Byte.
From S2P Require Import Prelude Bytes Reader ManifestV2 ManifestSpec ValidateTheorem OfferCodec.
From S2P Require Import OfferProof Frames FramesProof.

Local Open Scope Z_scope.

(** ** The header *)

Definition frame_header (t : ManifestV2FrameType) (n : Z) : list byte :=
  MAGIC ++ push_u16 MANIFEST_V2_PROTOCOL_VERSION ++ push_u16 (frame_type_id t) ++ push_u32 n.

Lemma zlen_frame_header t n : zlen (frame_header t n) = HEADER_BYTES.
Proof. unfold frame_header. by autorewrite with zlen. Qed.

Lemma frame_type_of_id t : frame_type (frame_type_id t) = Ok t.
Proof. by destruct t. Qed.

Lemma frame_type_ok v t : frame_type v = Ok t -> v = frame_type_id t.
Proof.
  intros H. destruct v as [|v|v]; try discriminate H.
  do 4 try (destruct v as [v|v|]; try discriminate H); injection H as <-; done.
Qed.

Lemma frame_type_id_u16 t : 0 <= frame_type_id t < 2 ^ 16.
Proof. destruct t; cbn; lia. Qed.

Lemma take_header t n rest :
  take (Z.to_nat HEADER_BYTES) (frame_header t n ++ rest) = frame_header t n.
Proof.
  replace (Z.to_nat HEADER_BYTES) with (length (frame_header t n)); [apply take_app_length|].
  pose proof (zlen_frame_header t n) as H. unfold zlen in H. lia.
Qed.

Lemma drop_header t n rest :
  drop (Z.to_nat HEADER_BYTES) (frame_header t n ++ rest) = rest.
Proof.
  replace (Z.to_nat HEADER_BYTES) with (length (frame_header t n)); [apply drop_app_length|].
  pose proof (zlen_frame_header t n) as H. unfold zlen in H. lia.
Qed.

Lemma parse_header_build t n rest :
  is_u32 n = true -> parse_header (frame_header t n ++ rest) = Ok (mkHeader t n).
Proof.
  intros Hn. unfold parse_header. rewrite take_header, zlen_app, zlen_frame_header.
  pose proof (zlen_nonneg rest). rewrite (proj2 (Z.ltb_ge _ _)) by lia.
  unfold frame_header.
  set (v := push_u16 MANIFEST_V2_PROTOCOL_VERSION). set (k := push_u16 (frame_type_id t)).
  assert (slice (MAGIC ++ v ++ k ++ push_u32 n) 0 4 = MAGIC) as -> by apply (slice_parts [] MAGIC).
  rewrite bool_decide_eq_true_2 by done. cbn [negb].
  assert (slice (MAGIC ++ v ++ k ++ push_u32 n) 4 2 = v) as -> by apply (slice_parts MAGIC v).
  assert (slice (MAGIC ++ v ++ k ++ push_u32 n) 6 2 = k) as ->
    by (rewrite (app_assoc MAGIC v); apply (slice_parts (MAGIC ++ v) k)).
  assert (slice (MAGIC ++ v ++ k ++ push_u32 n) 8 4 = push_u32 n) as ->.
  { rewrite (app_assoc MAGIC v), (app_assoc _ k), <- (app_nil_r (push_u32 n)).
    apply (slice_parts ((MAGIC ++ v) ++ k) (push_u32 n) []). }
  unfold v, k, push_u16, push_u32. pose proof (frame_type_id_u16 t).
  unfold is_u32, u32_max in Hn. bool_prop.
  rewrite !be_value_be_bytes_small by (done || lia). cbn [negb Z.eqb].
  by rewrite frame_type_of_id.
Qed.

Lemma split_header (h : list byte) :
  length h = 12%nat -> h = slice h 0 4 ++ slice h 4 2 ++ slice h 6 2 ++ slice h 8 4.
Proof. intros Hl. do 12 (destruct h as [|? h]; [discriminate Hl|]). destruct h; [done|discriminate Hl]. Qed.

Lemma parse_header_ok bs h :
  parse_header bs = Ok h ->
  bs = frame_header (hd_frame_type h) (payload_length h) ++ drop (Z.to_nat HEADER_BYTES) bs /\
  is_u32 (payload_length h) = true.
Proof.
  unfold parse_header. set (hd := take _ _). intros H. inv_ok. bool_prop. cbn.
  assert (Hlen : length hd = 12%nat).
  { unfold hd. rewrite length_take. unfold zlen, HEADER_BYTES in *. lia. }
  match goal with Ht : frame_type _ = Ok _ |- _ => apply frame_type_ok in Ht; rename Ht into Ht' end.
  split.
  - rewrite <- (take_drop (Z.to_nat HEADER_BYTES) bs) at 1. f_equal. fold hd.
    rewrite (split_header hd Hlen) at 1. unfold frame_header, push_u16, push_u32.
    match goal with Hm : slice hd 0 4 = MAGIC |- _ => rewrite Hm end.
    match goal with Hv : be_value (slice hd 4 2) = _ |- _ => rewrite <- Hv end.
    by rewrite <- Ht', !be_bytes_slice by lia.
  - assert (length (slice hd 8 4) = 4%nat) as Hl.
    { unfold slice. rewrite length_take, length_drop. lia. }
    pose proof (be_value_bounds (slice hd 8 4)) as Hb. rewrite Hl in Hb.
    unfold is_u32, u32_max. lia.
Qed.

(** ** Payloads of all types *)

Section Frames.
Context (is_nfc : str -> bool) (blake3 : list byte -> list byte).
Context (Hhash : forall b, zlen (blake3 b) = DIGEST_BYTES).

Lemma reads_payload f t out :
  wf_frame f = true -> wire_faithful f = true ->
  encode_payload is_nfc blake3 f = Ok (t, out) ->
  reads (decode_payload is_nfc blake3 t) out f.
Proof.
  intros Hwf Hf H. destruct f; cbn in Hwf, H; inv_ok; simplify_eq; cbn;
    (eapply reads_bind_r; [|apply reads_ret]); eauto with reads.
Qed.

Lemma accepts_payload t :
  accepts (decode_payload is_nfc blake3 t) (fun f out =>
    encode_payload is_nfc blake3 f = Ok (t, out) /\ wf_frame f = true /\
    wire_faithful f = true).
Proof.
  destruct t; cbn [decode_payload]; try apply accepts_fail;
    (eapply accepts_bind; [eauto with accepts|]); cbn beta;
    intros v o [Henc Hrest]; accept_ret; cbn; rewrite Henc; cbn; naive_solver.
Qed.

Lemma encode_payload_type f t out :
  encode_payload is_nfc blake3 f = Ok (t, out) -> t <> FT_Offer.
Proof. intros H ->. destruct f; cbn in H; inv_ok; simplify_eq. Qed.

Lemma maximum_payload_u32 t n : maximum_payload_bytes t = Ok n -> 0 <= n <= u32_max.
Proof. intros H. destruct t; vm_compute in H; injection H as <-; unfold u32_max; lia. Qed.

Lemma maximum_payload_total t : exists n, maximum_payload_bytes t = Ok n.
Proof. destruct t; eexists; vm_compute; reflexivity. Qed.

(** A frame on the wire: either an offer, or a header and a payload. *)
Lemma encode_frame_ok f bs :
  encode_manifest_v2_frame is_nfc blake3 f = Ok bs <->
  (exists o, f = Offer o /\ encode_checked_offer is_nfc blake3 o = Ok bs) \/
  (exists t out n, encode_payload is_nfc blake3 f = Ok (t, out) /\
     maximum_payload_bytes t = Ok n /\ zlen out <= n /\
     bs = frame_header t (zlen out) ++ out).
Proof.
  split.
  - intros H. destruct f; [left; eauto|..]; right; cbn [encode_manifest_v2_frame] in H; inv_ok;
      bool_prop; eexists _, _, _; (split; [done|]); (split; [done|]); (split; [done|]);
      unfold frame_header; by rewrite <- !app_assoc.
  - intros [(o & -> & H)|(t & out & n & Hp & Hm & Hn & ->)]; [done|].
    assert (is_u32 (zlen out) = true) as Hu.
    { pose proof (maximum_payload_u32 _ _ Hm). pose proof (zlen_nonneg out). unfold is_u32. lia. }
    pose proof Hp as Hp'.
    destruct f; [discriminate Hp|..]; cbn [encode_manifest_v2_frame]; rewrite Hp;
      cbn [mbind result_bind]; rewrite Hm; cbn [mbind result_bind];
      rewrite (proj2 (Z.ltb_ge _ _)), Hu by done; unfold frame_header; by rewrite <- !app_assoc.
Qed.

(** An encoded offer is framed like every other frame. *)
Lemma encode_checked_offer_framed o bs :
  encode_checked_offer is_nfc blake3 o = Ok bs ->
  exists out n, bs = frame_header FT_Offer (zlen out) ++ out /\
    maximum_payload_bytes FT_Offer = Ok n /\ zlen out <= n.
Proof.
  intros H. unfold encode_checked_offer in H. inv_ok.
  match goal with He : encode_manifest_offer_v2 _ _ _ = _ |- _ =>
    apply encode_offer_ok in He as (_ & -> & Hsize) end.
  rewrite <- (offer_payload_zlen blake3) in * by done.
  eexists _, _. split; [reflexivity|]. split; [reflexivity|].
  unfold MAX_CONTROL_FRAME_BYTES, HEADER_BYTES, OFFER_HEADER_BYTES in *. lia.
Qed.

Lemma payload_u32 t n (out : list byte) :
  maximum_payload_bytes t = Ok n -> zlen out <= n -> is_u32 (zlen out) = true.
Proof.
  intros Hm%maximum_payload_u32 Hn. pose proof (zlen_nonneg out). unfold is_u32. lia.
Qed.

Lemma payload_usize t n (out : list byte) :
  maximum_payload_bytes t = Ok n -> zlen out <= n -> zlen out <= usize_max.
Proof.
  intros Hm%maximum_payload_u32 Hn. assert (u32_max <= usize_max) by done. lia.
Qed.

Lemma encode_frame_shape f bs :
  encode_manifest_v2_frame is_nfc blake3 f = Ok bs ->
  exists t out n, bs = frame_header t (zlen out) ++ out /\
    maximum_payload_bytes t = Ok n /\ zlen out <= n.
Proof.
  intros [(o & -> & (out & n & -> & Hm & Hn)%encode_checked_offer_framed)|
    (t & out & n & _ & Hm & Hn & ->)]%encode_frame_ok; eauto 7.
Qed.

Lemma frame_decode_encode f bs :
  wf_frame f = true -> wire_faithful f = true ->
  encode_manifest_v2_frame is_nfc blake3 f = Ok bs ->
  decode_manifest_v2_frame is_nfc blake3 bs = Ok f.
Proof.
  intros Hwf Hf [(o & -> & Ho)|(t & out & n & Hp & Hm & Hn & ->)]%encode_frame_ok;
    unfold decode_manifest_v2_frame.
  - destruct (checked_offer_roundtrip _ _ Hhash o bs Hwf Ho) as [Hdec _].
    apply encode_checked_offer_framed in Ho as (out & n & -> & Hm & Hn).
    rewrite parse_header_build by eauto using payload_u32. cbn [mbind result_bind].
    cbn [payload_length hd_frame_type]. rewrite zlen_app, zlen_frame_header, Z.eqb_refl.
    cbn [negb]. by rewrite Hdec.
  - rewrite parse_header_build by eauto using payload_u32. cbn [mbind result_bind].
    cbn [payload_length hd_frame_type]. rewrite zlen_app, zlen_frame_header, Z.eqb_refl.
    cbn [negb]. rewrite drop_header. pose proof (encode_payload_type _ _ _ Hp) as Ht.
    pose proof (run_finish _ FE_TrailingBytes f out (payload_usize _ _ _ Hm Hn)
      (reads_payload f t out Hwf Hf Hp)) as Hdec.
    destruct t; [done|..]; rewrite Hm; cbn [mbind result_bind];
      rewrite (proj2 (Z.ltb_ge _ _)) by done; exact Hdec.
Qed.

Lemma frame_encode_decode bs f :
  decode_manifest_v2_frame is_nfc blake3 bs = Ok f ->
  encode_manifest_v2_frame is_nfc blake3 f = Ok bs /\ wf_frame f = true /\
  wire_faithful f = true.
Proof.
  intros H. unfold decode_manifest_v2_frame in H. inv_ok.
  match goal with Hh : parse_header _ = Ok ?h |- _ =>
    apply parse_header_ok in Hh as [Hbs Hu]; destruct h as [t n] end.
  cbn [hd_frame_type payload_length] in *. bool_prop.
  set (out := drop (Z.to_nat HEADER_BYTES) bs) in *.
  assert (n = zlen out) as ->.
  { match goal with Hl : zlen bs = _ |- _ => rewrite Hbs, zlen_app, zlen_frame_header in Hl; lia end. }
  destruct (maximum_payload_total t) as [n Hm].
  assert (Hgen : t <> FT_Offer -> zlen out <= n ->
    ('(frame, reader) ← decode_payload is_nfc blake3 t (Reader_new out);
     _ ← f_finish reader; Ok frame) = Ok f ->
    encode_manifest_v2_frame is_nfc blake3 f = Ok bs /\ wf_frame f = true /\
    wire_faithful f = true).
  { intros Ht Hn Hd. apply (run_finish_ok _ _ _ _ _ (payload_usize _ _ _ Hm Hn)
      (accepts_payload t)) in Hd as [Henc Hrest].
    split; [|done]. apply encode_frame_ok. right. eauto 8. }
  destruct t; try (rewrite Hm in H; cbn [mbind result_bind] in H;
    destruct (Z.ltb_spec n (zlen out)); [discriminate|]; by apply Hgen).
  inv_ok. simplify_eq. match goal with Ho : decode_checked_offer _ _ _ = Ok _ |- _ =>
    apply (checked_offer_canonical _ _ Hhash) in Ho as [Henc Hwf] end.
  split; [|done]. apply encode_frame_ok. left. eauto.
Qed.

(** ** Streams *)

(** A peer that writes one frame after the other, and one that reads [n]. *)
Fixpoint write_frames (written : list byte) (fs : list ManifestV2Frame) : writer :=
  match fs with
  | [] => Ok written
  | f :: fs' =>
    written' ← write_manifest_v2_frame is_nfc blake3 written f;
    write_frames written' fs'
  end.
Fixpoint read_frames (n : nat) (input : list byte)
    : frame_result (list ManifestV2Frame * list byte) :=
  match n with
  | O => Ok ([], input)
  | S n' =>
    '(f, input) ← read_manifest_v2_frame is_nfc blake3 input;
    '(fs, input) ← read_frames n' input;
    Ok (f :: fs, input)
  end.

Lemma stream_header t n rest :
  stream_read_exact FE_UnexpectedEof HEADER_BYTES (frame_header t n ++ rest) = Ok (frame_header t n, rest).
Proof. rewrite <- (zlen_frame_header t n). apply stream_read_exact_app. Qed.

Lemma parse_header_exact t n :
  is_u32 n = true -> parse_header (frame_header t n) = Ok (mkHeader t n).
Proof. intros Hn. rewrite <- (app_nil_r (frame_header t n)). by apply parse_header_build. Qed.

Lemma read_written f bs rest :
  wf_frame f = true -> wire_faithful f = true ->
  encode_manifest_v2_frame is_nfc blake3 f = Ok bs ->
  read_manifest_v2_frame is_nfc blake3 (bs ++ rest) = Ok (f, rest).
Proof.
  intros Hwf Hf Henc. pose proof (frame_decode_encode f bs Hwf Hf Henc) as Hdec.
  apply encode_frame_shape in Henc as (t & out & n & -> & Hm & Hn).
  unfold read_manifest_v2_frame. rewrite <- app_assoc, stream_header. cbn [mbind result_bind].
  rewrite parse_header_exact by eauto using payload_u32.
  cbn [mbind result_bind hd_frame_type payload_length].
  rewrite Hm. cbn [mbind result_bind]. rewrite (proj2 (Z.ltb_ge _ _)) by done.
  rewrite stream_read_exact_app. cbn [mbind result_bind]. by rewrite Hdec.
Qed.

Lemma read_written_frames fs written bs :
  Forall (fun f => wf_frame f = true /\ wire_faithful f = true) fs ->
  write_frames written fs = Ok bs ->
  exists out, bs = written ++ out /\
    forall rest, read_frames (length fs) (out ++ rest) = Ok (fs, rest).
Proof.
  intros Hall. revert written bs.
  induction Hall as [|f fs [Hwf Hf] Hall IH]; intros written bs H; cbn in H.
  - injection H as <-. exists []. by rewrite app_nil_r.
  - unfold write_manifest_v2_frame in H. inv_ok. apply IH in H as (out & -> & Hout).
    match goal with He : encode_manifest_v2_frame _ _ _ = Ok ?b |- _ =>
      exists (b ++ out); rename He into Henc end.
    split; [by rewrite app_assoc|]. intros rest. rewrite <- app_assoc. cbn [length read_frames].
    rewrite (read_written f _ _ Hwf Hf Henc). cbn [mbind result_bind]. by rewrite Hout.
Qed.
End Frames.

Lemma refuses_cancel id eid code out :
  wf_cancel (mkCancel id ScopeEntry (Some eid) code) = true -> MAX_MANIFEST_V2_ENTRIES <= eid ->
  encode_cancel (mkCancel id ScopeEntry (Some eid) code) = Ok out ->
  refuses (v ← decode_cancel; mret (Cancel v)) out FE_InvalidEntryId.
Proof.
  unfold wf_cancel, encode_cancel. cbn. intros Hwf Heid H. write_inv. bool_prop.
  apply refuses_here. unfold decode_cancel.
  eapply refuses_later; [by apply reads_f_identity|].
  eapply refuses_later; [apply (reads_f_tag cancel_scope_id _ ScopeEntry), _|].
  apply refuses_here. unfold f_optional_u32, f_optional. rewrite <- ?app_assoc.
  eapply (refuses_later _ _ (push_u8 1)); [by apply reads_f_u8|]. cbn beta iota.
  apply refuses_here. unfold f_entry_id. eapply refuses_later; [by apply reads_f_u32|].
  apply refuses_here. unfold checked_entry_id. rewrite (proj2 (Z.leb_le _ _)) by done.
  apply refuses_fail.
Qed.

(** ** Properties *)

Section Properties.
Context (is_nfc : str -> bool) (blake3 : list byte -> list byte).

(** C27. A frame survives the wire exactly when it is [wire_faithful]: of the
    frames [encode_manifest_v2_frame] agrees to encode, [decode_manifest_v2_frame]
    returns the same frame for all of them except a Cancel or Error that
    names an entry outside the entry range and a ResumeStatus that embeds
    another job's or another entry's result. *)
Theorem frame_roundtrip f bs :
  (forall b, zlen (blake3 b) = DIGEST_BYTES) -> wf_frame f = true ->
  encode_manifest_v2_frame is_nfc blake3 f = Ok bs ->
  (decode_manifest_v2_frame is_nfc blake3 bs = Ok f <-> wire_faithful f = true).
Proof.
  intros Hhash Hwf Henc. split.
  - intros Hdec. by destruct (frame_encode_decode is_nfc blake3 Hhash bs f Hdec) as (_ & _ & ?).
  - intros Hf. by apply frame_decode_encode.
Qed.

(** The frame encoding is canonical: whatever bytes [decode_manifest_v2_frame]
    accepts are the encoding of the frame it returns, so no two byte strings
    decode to the same frame; and the frame satisfies the invariants of its type. *)
Theorem frame_canonical bs f :
  (forall b, zlen (blake3 b) = DIGEST_BYTES) ->
  decode_manifest_v2_frame is_nfc blake3 bs = Ok f ->
  encode_manifest_v2_frame is_nfc blake3 f = Ok bs /\ wf_frame f = true.
Proof.
  intros Hhash Hdec. by destruct (frame_encode_decode is_nfc blake3 Hhash bs f Hdec) as (? & ? & _).
Qed.

(** On a stream, frames written one after the other with
    [write_manifest_v2_frame] are read back by as many calls of
    [read_manifest_v2_frame], in order, and whatever follows them is left
    untouched. *)
Theorem stream_roundtrip fs bs rest :
  (forall b, zlen (blake3 b) = DIGEST_BYTES) ->
  Forall (fun f => wf_frame f = true /\ wire_faithful f = true) fs ->
  write_frames is_nfc blake3 [] fs = Ok bs ->
  read_frames is_nfc blake3 (length fs) (bs ++ rest) = Ok (fs, rest).
Proof.
  intros Hhash Hall Hw.
  by destruct (read_written_frames is_nfc blake3 Hhash fs [] bs Hall Hw) as (out & -> & ->).
Qed.

(** A frame read from a stream consumes exactly its own encoding, and that
    is at most the header and the largest payload of any frame type. *)
Theorem read_frame_consumes input f rest :
  (forall b, zlen (blake3 b) = DIGEST_BYTES) ->
  read_manifest_v2_frame is_nfc blake3 input = Ok (f, rest) ->
  exists bs, input = bs ++ rest /\ encode_manifest_v2_frame is_nfc blake3 f = Ok bs /\
    zlen bs <= HEADER_BYTES + ENTRY_BLOCK_FIXED_PAYLOAD_BYTES + MAX_MANIFEST_V2_BLOCK_ENCODED_BYTES.
Proof.
  intros Hhash H. unfold read_manifest_v2_frame in H. inv_ok. simplify_eq.
  match goal with Hd : decode_manifest_v2_frame _ _ ?b = Ok _ |- _ =>
    exists b; apply (frame_encode_decode is_nfc blake3 Hhash) in Hd as [Henc _] end.
  match goal with Hp : parse_header _ = Ok _ |- _ => apply parse_header_ok in Hp as [_ Hu] end.
  unfold is_u32 in Hu. bool_prop.
  repeat match goal with Hs : stream_read_exact _ _ _ = Ok _ |- _ =>
    apply stream_read_exact_ok in Hs as [-> _]; [|done || lia] end.
  split; [by rewrite app_assoc|]. split; [done|].
  apply (encode_frame_shape is_nfc blake3 Hhash) in Henc as (t & out & n & -> & Hm & Hn).
  rewrite zlen_app, zlen_frame_header. destruct t; vm_compute in Hm; injection Hm as <-;
    unfold HEADER_BYTES, ENTRY_BLOCK_FIXED_PAYLOAD_BYTES, COMMON_PREFIX_BYTES,
      MAX_MANIFEST_V2_BLOCK_ENCODED_BYTES, MAX_MANIFEST_V2_BLOCK_PLAINTEXT_BYTES; lia.
Qed.

(** A header that announces a payload above its type's maximum is refused
    as [FrameTooLarge] as soon as it has arrived: before the payload is
    waited for or a buffer of its size allocated, whatever follows. *)
Theorem read_frame_oversize t n maximum rest :
  is_u32 n = true -> maximum_payload_bytes t = Ok maximum -> maximum < n ->
  read_manifest_v2_frame is_nfc blake3 (frame_header t n ++ rest) = Err FE_FrameTooLarge.
Proof.
  intros Hn Hm Hlt. unfold read_manifest_v2_frame. rewrite stream_header. cbn [mbind result_bind].
  rewrite parse_header_exact by done. cbn [mbind result_bind hd_frame_type payload_length].
  rewrite Hm. cbn [mbind result_bind]. by rewrite (proj2 (Z.ltb_lt _ _)) by done.
Qed.

(** A Cancel of an entry whose id is 10,000 or more is encoded without
    complaint and then refused by every decoder with [InvalidEntryId]. *)
Theorem cancel_entry_out_of_range id eid code bs :
  wf_cancel (mkCancel id ScopeEntry (Some eid) code) = true ->
  MAX_MANIFEST_V2_ENTRIES <= eid ->
  encode_manifest_v2_frame is_nfc blake3 (Cancel (mkCancel id ScopeEntry (Some eid) code)) = Ok bs ->
  decode_manifest_v2_frame is_nfc blake3 bs = Err FE_InvalidEntryId.
Proof.
  intros Hwf Heid [(? & ? & _)|(t & out & n & Hp & Hm & Hn & ->)]%encode_frame_ok; [done|].
  cbn [encode_payload] in Hp. inv_ok. simplify_eq.
  match goal with He : encode_cancel _ = Ok _ |- _ => pose proof (refuses_cancel _ _ _ _ Hwf Heid He)
    as Href end.
  unfold decode_manifest_v2_frame. rewrite parse_header_build by eauto using payload_u32.
  cbn [mbind result_bind payload_length hd_frame_type].
  rewrite zlen_app, zlen_frame_header, Z.eqb_refl, drop_header. cbn [negb].
  rewrite Hm. cbn [mbind result_bind]. rewrite (proj2 (Z.ltb_ge _ _)) by done.
  cbn [decode_payload]. rewrite (Href _ []); [done| |by rewrite remaining_slice_new, app_nil_r].
  eauto using wf_reader_new, payload_usize.
Qed.
End Properties.
