(* ===== verification/AuthFrame.v ===== *)
(** The authentication envelope (crates/envoix-protocol/src/lib.rs): the
    SPAKE2 frames that travel before the data plane starts, their codec and
    their framing on a byte stream.  A [CoreError::Protocol] message is a
    constructor of [AuthWireError]. *)

From stdpp Require Import prelude strings.
From Stdlib Require Import ZArith Lia Strings.Byte.
From S2P Require Import Prelude Bytes Reader OfferCodec OfferProof.

Local Open Scope Z_scope.

Definition AUTH_MAGIC : list byte := lit "ENVA".
Definition AUTH_WIRE_VERSION : Z := 2.
Definition AUTH_HEADER_BYTES : Z := 12.
Definition MAX_AUTH_FRAME_BYTES : Z := 64 * 1024.
Definition MANIFEST_V2_ALPN : list byte := lit "envoix/manifest/2".

(** ** Data *)

Inductive PeerRole := Sender | Receiver.

Record Spake2Start := mkStart {
  protocol_version : Z;
  role : PeerRole;
  st_nonce : list byte;
  st_message : list byte;
  st_remember_consent : bool;
}.
Record Spake2Message := mkMessage {
  sm_nonce : list byte;
  sm_message : list byte;
  sm_remember_consent : bool;
}.
Record Spake2Confirm := mkConfirm {
  proof : list byte;
  remember_contribution : option (list byte);
}.

(** [enum Frame] has the one constructor [Auth(AuthFrame)]. *)
Inductive AuthFrame :=
| AuthStart (v : Spake2Start)
| AuthMessage (v : Spake2Message)
| AuthConfirm (v : Spake2Confirm).

Inductive AuthEnvelopeType := EnvelopeAuth.
Inductive AuthFrameType := TypeStart | TypeMessage | TypeConfirm.

Inductive AuthWireError :=
| AW_BadMagic
| AW_UnsupportedVersion (version : Z)
| AW_UnknownEnvelope (value : Z)
| AW_InvalidHeader
| AW_TooLarge
| AW_UnknownFrameType (value : Z)
| AW_UnknownPeerRole (value : Z)
| AW_InvalidBoolean (value : Z)
| AW_FieldExceedsU32
| AW_LengthOverflow
| AW_Truncated
| AW_TrailingBytes
| AW_UnexpectedEof.

#[export] Instance PeerRole_eq_dec : EqDecision PeerRole.
Proof. solve_decision. Defined.
#[export] Instance Spake2Start_eq_dec : EqDecision Spake2Start.
Proof. solve_decision. Defined.
#[export] Instance Spake2Message_eq_dec : EqDecision Spake2Message.
Proof. solve_decision. Defined.
#[export] Instance Spake2Confirm_eq_dec : EqDecision Spake2Confirm.
Proof. solve_decision. Defined.
#[export] Instance AuthFrame_eq_dec : EqDecision AuthFrame.
Proof. solve_decision. Defined.
#[export] Instance AuthWireError_eq_dec : EqDecision AuthWireError.
Proof. solve_decision. Defined.

(** ** Protocol negotiation *)

Inductive TransferProtocol := ProtocolManifestV2.

Definition alpn (p : TransferProtocol) : list byte :=
  match p with ProtocolManifestV2 => MANIFEST_V2_ALPN end.

Definition from_alpn (bs : list byte) : option TransferProtocol :=
  if bool_decide (bs = MANIFEST_V2_ALPN) then Some ProtocolManifestV2 else None.

(** ** Encoding *)

Abbreviation auth_result A := (result AuthWireError A).

Definition auth_envelope_id (t : AuthEnvelopeType) : Z := match t with EnvelopeAuth => 1 end.
Definition auth_envelope_try_from (v : Z) : auth_result AuthEnvelopeType :=
  match v with 1 => Ok EnvelopeAuth | other => Err (AW_UnknownEnvelope other) end.

Definition auth_frame_type_id (t : AuthFrameType) : Z :=
  match t with TypeStart => 1 | TypeMessage => 2 | TypeConfirm => 3 end.
Definition auth_frame_type_try_from (v : Z) : auth_result AuthFrameType :=
  match v with
  | 1 => Ok TypeStart
  | 2 => Ok TypeMessage
  | 3 => Ok TypeConfirm
  | other => Err (AW_UnknownFrameType other)
  end.

Definition write_peer_role (r : PeerRole) : list byte :=
  push_u8 (match r with Sender => 1 | Receiver => 2 end).

Definition write_bytes (value : list byte) : auth_result (list byte) :=
  if is_u32 (zlen value) then Ok (push_u32 (zlen value) ++ value) else Err AW_FieldExceedsU32.

(** [u8::from(flag)] *)
Definition write_bool (flag : bool) : list byte := push_u8 (if flag then 1 else 0).

Definition encode_auth_frame (frame : AuthFrame) : auth_result (list byte) :=
  match frame with
  | AuthStart start =>
    nonce ← write_bytes (st_nonce start);
    message ← write_bytes (st_message start);
    Ok (push_u8 (auth_frame_type_id TypeStart) ++ push_u32 (protocol_version start) ++
        write_peer_role (role start) ++ nonce ++ message ++ write_bool (st_remember_consent start))
  | AuthMessage v =>
    nonce ← write_bytes (sm_nonce v);
    message ← write_bytes (sm_message v);
    Ok (push_u8 (auth_frame_type_id TypeMessage) ++ nonce ++ message ++
        write_bool (sm_remember_consent v))
  | AuthConfirm confirm =>
    proof ← write_bytes (proof confirm);
    contribution ←
      match remember_contribution confirm with
      | Some c => bytes ← write_bytes c; Ok (write_bool true ++ bytes)
      | None => Ok (write_bool false)
      end;
    Ok (push_u8 (auth_frame_type_id TypeConfirm) ++ proof ++ contribution)
  end.

(** What has been written to the stream after the call. *)
Definition write_frame (written : list byte) (frame : AuthFrame) : auth_result (list byte) :=
  payload ← encode_auth_frame frame;
  if MAX_AUTH_FRAME_BYTES <? zlen payload then Err AW_TooLarge
  else
    Ok (written ++ AUTH_MAGIC ++ push_u16 AUTH_WIRE_VERSION ++
        push_u8 (auth_envelope_id EnvelopeAuth) ++ push_u8 0 ++
        push_u32 (zlen payload) ++ payload).

(** ** Decoding: [PayloadReader] *)

Abbreviation areader A := (parser AuthWireError A).
Definition a_take (n : Z) : areader (list byte) := read_exact AW_LengthOverflow AW_Truncated n.
Definition a_u8 : areader Z := read_u8 AW_LengthOverflow AW_Truncated.
Definition a_u32 : areader Z := read_be AW_LengthOverflow AW_Truncated 4.

Definition read_peer_role : areader PeerRole :=
  v ← a_u8;
  match v with
  | 1 => mret Sender
  | 2 => mret Receiver
  | role => fail (AW_UnknownPeerRole role)
  end.

Definition read_bool : areader bool :=
  v ← a_u8;
  match v with
  | 0 => mret false
  | 1 => mret true
  | value => fail (AW_InvalidBoolean value)
  end.

Definition read_bytes : areader (list byte) :=
  length ← a_u32;
  a_take length.

Definition decode_start : areader Spake2Start :=
  version ← a_u32;
  role ← read_peer_role;
  nonce ← read_bytes;
  message ← read_bytes;
  consent ← read_bool;
  mret (mkStart version role nonce message consent).

Definition decode_message : areader Spake2Message :=
  nonce ← read_bytes;
  message ← read_bytes;
  consent ← read_bool;
  mret (mkMessage nonce message consent).

Definition decode_confirm : areader Spake2Confirm :=
  proof ← read_bytes;
  present ← read_bool;
  if (present : bool) then c ← read_bytes; mret (mkConfirm proof (Some c))
  else mret (mkConfirm proof None).

Definition decode_auth_body : areader AuthFrame :=
  tag ← a_u8;
  frame_type ← lift (auth_frame_type_try_from tag);
  match frame_type with
  | TypeStart => v ← decode_start; mret (AuthStart v)
  | TypeMessage => v ← decode_message; mret (AuthMessage v)
  | TypeConfirm => v ← decode_confirm; mret (AuthConfirm v)
  end.

Definition decode_auth_frame (payload : list byte) : auth_result AuthFrame :=
  '(auth, reader) ← decode_auth_body (Reader_new payload);
  _ ← finish AW_TrailingBytes reader;
  Ok auth.

(** The checks of [read_frame] on the 12 header bytes: the payload length. *)
Definition parse_auth_header (header : list byte) : auth_result Z :=
  if negb (bool_decide (slice header 0 4 = AUTH_MAGIC)) then Err AW_BadMagic
  else
    let version := be_value (slice header 4 2) in
    if negb (version =? AUTH_WIRE_VERSION) then Err (AW_UnsupportedVersion version)
    else
      _ ← auth_envelope_try_from (be_value (slice header 6 1));
      if negb (be_value (slice header 7 1) =? 0) then Err AW_InvalidHeader
      else
        let length := be_value (slice header 8 4) in
        if MAX_AUTH_FRAME_BYTES <? length then Err AW_TooLarge else Ok length.

(** The frame, and what is left on the stream. *)
Definition read_frame (input : list byte) : auth_result (AuthFrame * list byte) :=
  '(header, input) ← stream_read_exact AW_UnexpectedEof AUTH_HEADER_BYTES input;
  length ← parse_auth_header header;
  '(payload, input) ← stream_read_exact AW_UnexpectedEof length input;
  frame ← decode_auth_frame payload;
  Ok (frame, input).

(** ** Proofs *)

(** The type invariant: [protocol_version] is a [u32]. *)
Definition wf_auth_frame (f : AuthFrame) : bool :=
  match f with AuthStart v => is_u32 (protocol_version v) | _ => true end.

Section AuthReaders.
Lemma reads_a_u8 v : is_u8 v = true -> reads a_u8 (push_u8 v) v.
Proof. apply reads_read_u8. Qed.
Lemma reads_a_u32 v : is_u32 v = true -> reads a_u32 (push_u32 v) v.
Proof. apply reads_be_u32. Qed.
Lemma accepts_a_u8 : accepts a_u8 (fun v out => out = push_u8 v /\ is_u8 v = true).
Proof. apply accepts_read_u8. Qed.
Lemma accepts_a_u32 : accepts a_u32 (fun v out => out = push_u32 v /\ is_u32 v = true).
Proof. apply accepts_be_u32. Qed.
End AuthReaders.
#[export] Hint Resolve reads_a_u8 reads_a_u32 : reads.
#[export] Hint Resolve accepts_a_u8 accepts_a_u32 : accepts.

Section AuthFields.
Lemma reads_peer_role r : reads read_peer_role (write_peer_role r) r.
Proof.
  unfold read_peer_role, write_peer_role.
  destruct r; (eapply reads_bind_r; [by apply reads_a_u8|apply reads_ret]).
Qed.

Lemma accepts_peer_role : accepts read_peer_role (fun r out => out = write_peer_role r).
Proof.
  unfold read_peer_role. accept_step v [-> _]. tag_cases v; accept_ret; done.
Qed.

Lemma reads_bool b : reads read_bool (write_bool b) b.
Proof.
  unfold read_bool, write_bool.
  destruct b; (eapply reads_bind_r; [by apply reads_a_u8|apply reads_ret]).
Qed.

Lemma accepts_bool : accepts read_bool (fun b out => out = write_bool b).
Proof. unfold read_bool. accept_step v [-> _]. tag_cases v; accept_ret; done. Qed.

Lemma reads_bytes bs out : write_bytes bs = Ok out -> reads read_bytes out bs.
Proof.
  unfold write_bytes. destruct (is_u32 _) eqn:Hu; [|done]. intros <-%Ok_inj.
  unfold read_bytes. read_step. by apply reads_read_exact.
Qed.

Lemma accepts_bytes : accepts read_bytes (fun bs out => write_bytes bs = Ok out).
Proof.
  unfold read_bytes. accept_step n [-> Hn].
  eapply accepts_weaken; [apply accepts_read_exact; unfold is_u32 in Hn; bool_prop; lia|].
  intros bs out [-> <-]. unfold write_bytes. by rewrite Hn.
Qed.
End AuthFields.
#[export] Hint Resolve reads_peer_role reads_bool reads_bytes : reads.
#[export] Hint Resolve accepts_peer_role accepts_bool accepts_bytes : accepts.

Lemma reads_auth_body f out :
  wf_auth_frame f = true -> encode_auth_frame f = Ok out -> reads decode_auth_body out f.
Proof.
  intros Hwf H. unfold decode_auth_body.
  destruct f as [[v r n m c]|[n m c]|[p [c|]]]; cbn in Hwf, H; inv_ok;
    (eapply reads_bind; [by apply reads_a_u8|]); read_step;
    (eapply reads_bind_r; [|apply reads_ret]);
    unfold decode_start, decode_message, decode_confirm; repeat read_step; apply reads_ret.
Qed.

Lemma accepts_auth_body :
  accepts decode_auth_body (fun f out => encode_auth_frame f = Ok out /\ wf_auth_frame f = true).
Proof.
  unfold decode_auth_body. accept_step tag [-> _].
  eapply accepts_bind; [apply accepts_lift|]. intros t o [Ht ->].
  assert (tag = auth_frame_type_id t) as ->.
  { destruct tag as [|[[|[]|]|[|[]|]|]|]; cbn in Ht; by simplify_eq. }
  destruct t; unfold decode_start, decode_message, decode_confirm.
  - eapply accepts_bind with (P := fun v out =>
      encode_auth_frame (AuthStart v) = Ok (push_u8 (auth_frame_type_id TypeStart) ++ out) /\
      is_u32 (protocol_version v) = true); [|intros v o [Hv Hu]; accept_ret; done].
    accept_step v [-> Hv]. accept_step r ->. accept_step n Hn. accept_step m Hm. accept_step c ->.
    accept_ret. cbn. by rewrite Hn, Hm.
  - eapply accepts_bind with (P := fun v out =>
      encode_auth_frame (AuthMessage v) = Ok (push_u8 (auth_frame_type_id TypeMessage) ++ out));
      [|intros v o Hv; accept_ret; done].
    accept_step n Hn. accept_step m Hm. accept_step c ->. accept_ret. cbn. by rewrite Hn, Hm.
  - eapply accepts_bind with (P := fun v out =>
      encode_auth_frame (AuthConfirm v) = Ok (push_u8 (auth_frame_type_id TypeConfirm) ++ out));
      [|intros v o Hv; accept_ret; done].
    accept_step p Hp. accept_step [] ->.
    + accept_step c Hc. accept_ret. cbn. by rewrite Hp, Hc.
    + accept_ret. cbn. by rewrite Hp.
Qed.

(** *** Framing *)

Definition auth_header (n : Z) : list byte :=
  AUTH_MAGIC ++ push_u16 AUTH_WIRE_VERSION ++ push_u8 (auth_envelope_id EnvelopeAuth) ++
  push_u8 0 ++ push_u32 n.

Lemma zlen_auth_header n : zlen (auth_header n) = AUTH_HEADER_BYTES.
Proof. unfold auth_header. by autorewrite with zlen. Qed.

Lemma parse_auth_header_build n :
  0 <= n <= MAX_AUTH_FRAME_BYTES -> parse_auth_header (auth_header n) = Ok n.
Proof.
  intros Hn. set (pre := AUTH_MAGIC ++ push_u16 AUTH_WIRE_VERSION ++
    push_u8 (auth_envelope_id EnvelopeAuth) ++ push_u8 0).
  assert (be_value (slice (auth_header n) 8 4) = n) as Hlen.
  { assert (slice (pre ++ push_u32 n ++ []) (length pre) (length (push_u32 n)) = push_u32 n)
      as Hs by apply slice_parts.
    rewrite app_nil_r in Hs. change (slice (auth_header n) 8 4 = push_u32 n) in Hs.
    rewrite Hs. apply be_value_be_bytes_small. unfold MAX_AUTH_FRAME_BYTES in Hn. lia. }
  unfold parse_auth_header. rewrite Hlen, (proj2 (Z.ltb_ge _ _)) by lia. reflexivity.
Qed.

Lemma auth_split_header (h : list byte) :
  length h = 12%nat ->
  h = slice h 0 4 ++ slice h 4 2 ++ slice h 6 1 ++ slice h 7 1 ++ slice h 8 4.
Proof.
  intros Hl. do 12 (destruct h as [|? h]; [discriminate Hl|]). destruct h; [done|discriminate Hl].
Qed.

Lemma push_u8_slice h from :
  (from + 1 <= length h)%nat -> push_u8 (be_value (slice h from 1)) = slice h from 1.
Proof.
  intros H. pose proof (be_bytes_slice h from 1 H) as Hb. rewrite <- Hb at 2. cbn.
  by rewrite Z.shiftr_0_r.
Qed.

Lemma parse_auth_header_ok h n :
  length h = 12%nat -> parse_auth_header h = Ok n ->
  h = auth_header n /\ 0 <= n <= MAX_AUTH_FRAME_BYTES.
Proof.
  intros Hl H. unfold parse_auth_header in H. inv_ok. bool_prop.
  match goal with He : auth_envelope_try_from ?v = Ok _ |- _ =>
    assert (v = 1) by (destruct v as [|[]|]; by simplify_eq) end.
  pose proof (be_value_bounds (slice h 8 4)). split; [|lia].
  rewrite (auth_split_header h Hl) at 1. unfold auth_header, push_u16, push_u32.
  match goal with Hm : slice h 0 4 = _ |- _ => rewrite Hm end.
  rewrite <- (be_bytes_slice h 4 2), <- (be_bytes_slice h 8 4),
    <- (push_u8_slice h 6), <- (push_u8_slice h 7) by lia.
  repeat match goal with Hv : be_value _ = _ |- _ => rewrite Hv; clear Hv end.
  by rewrite !be_bytes_slice by lia.
Qed.

Lemma write_frame_ok w f bs :
  write_frame w f = Ok bs <-> exists payload, encode_auth_frame f = Ok payload /\
    zlen payload <= MAX_AUTH_FRAME_BYTES /\ bs = w ++ auth_header (zlen payload) ++ payload.
Proof.
  unfold write_frame, auth_header. destruct (encode_auth_frame f) as [p|]; cbn; [|naive_solver].
  destruct (Z.ltb_spec MAX_AUTH_FRAME_BYTES (zlen p)); split.
  - done.
  - naive_solver lia.
  - intros [= <-]. exists p. rewrite <- !app_assoc. done.
  - intros (? & [= <-] & _ & ->). by rewrite <- !app_assoc.
Qed.

(** Authentication frames survive the wire: a frame [write_frame] puts on
    a stream is the frame [read_frame] returns, and what follows it is left on
    the stream. *)
Theorem auth_frame_roundtrip f bs rest :
  wf_auth_frame f = true -> write_frame [] f = Ok bs -> read_frame (bs ++ rest) = Ok (f, rest).
Proof.
  intros Hwf (p & Henc & Hp & ->)%write_frame_ok. pose proof (zlen_nonneg p). cbn [app].
  unfold read_frame. rewrite <- app_assoc, <- (zlen_auth_header (zlen p)), stream_read_exact_app.
  cbn [mbind result_bind]. rewrite parse_auth_header_build by lia. cbn [mbind result_bind].
  rewrite stream_read_exact_app. cbn [mbind result_bind]. unfold decode_auth_frame.
  rewrite (run_finish _ _ f); [done| |by apply reads_auth_body].
  assert (MAX_AUTH_FRAME_BYTES <= usize_max) by done. lia.
Qed.

(** Whatever bytes [read_frame] accepts as an authentication frame are the
    ones [write_frame] writes for the frame it returns, and they are at most
    64 KiB and a header. *)
Theorem auth_frame_canonical input f rest :
  read_frame input = Ok (f, rest) ->
  exists bs, input = bs ++ rest /\ write_frame [] f = Ok bs /\ wf_auth_frame f = true /\
    zlen bs <= AUTH_HEADER_BYTES + MAX_AUTH_FRAME_BYTES.
Proof.
  intros H. unfold read_frame in H. inv_ok. simplify_eq.
  repeat match goal with Hs : stream_read_exact _ AUTH_HEADER_BYTES _ = Ok _ |- _ =>
    apply stream_read_exact_ok in Hs as [-> Hl]; [|done] end.
  match goal with Hp : parse_auth_header _ = Ok _ |- _ =>
    apply parse_auth_header_ok in Hp as [-> Hn]; [|unfold zlen, AUTH_HEADER_BYTES in Hl; lia] end.
  match goal with Hs : stream_read_exact _ _ _ = Ok _ |- _ =>
    apply stream_read_exact_ok in Hs as [-> <-]; [|lia] end.
  match goal with Hd : decode_auth_frame ?p = Ok f |- _ => rename p into payload; rename Hd into Hdec end.
  assert (Hmax : zlen payload <= usize_max)
    by (assert (MAX_AUTH_FRAME_BYTES <= usize_max) by done; lia).
  destruct (run_finish_ok _ _ _ f payload Hmax accepts_auth_body Hdec) as [Henc Hwf].
  exists (auth_header (zlen payload) ++ payload). rewrite <- app_assoc.
  split; [done|]. split; [apply write_frame_ok; exists payload; naive_solver|].
  split; [done|]. rewrite zlen_app, zlen_auth_header. lia.
Qed.

(** [from_alpn] inverts [alpn]. *)
Lemma from_alpn_spec bs p : from_alpn bs = Some p <-> bs = alpn p.
Proof.
  unfold from_alpn. destruct p. case_bool_decide; naive_solver.
Qed.
