(* ===== verification/BrokerConfig.v ===== *)
(** The rendezvous broker's policy and control protocol
    (crates/envoix-rendezvous/src/config.rs and protocol.rs, and the pure
    functions of broker.rs over them: [validate_join], [joins_match],
    [is_remembered_room_id], [role_for], [bounded_retry_after]).  A [Duration]
    and an [Instant] are nanosecond counts. *)

From stdpp Require Import prelude strings.
From Stdlib Require Import ZArith Lia Strings.Byte.
From S2P Require Import Prelude Bytes.

Local Open Scope Z_scope.

(** ** Configuration *)

Abbreviation Duration := Z (only parsing).
Abbreviation Instant := Z (only parsing).

Definition NANOS_PER_SEC : Z := 1000000000.
Definition from_secs (s : Z) : Duration := s * NANOS_PER_SEC.
Definition as_secs (d : Duration) : Z := d / NANOS_PER_SEC.
Definition subsec_nanos (d : Duration) : Z := d mod NANOS_PER_SEC.
(** The largest [Duration]: [u64::MAX] seconds and 999,999,999 nanoseconds. *)
Definition duration_max : Duration := (u64_max + 1) * NANOS_PER_SEC - 1.

Record RateLimitConfig := mkRate { events : Z; period : Duration; burst : Z }.

Definition per_minute (events burst : Z) : RateLimitConfig := mkRate events (from_secs 60) burst.

Inductive ConfigError :=
| RateLimitsMustBeNonZero
| DurationsMustBeNonZero
| LimitsMustBeNonZero
| WaitingCreatorsExceedRooms
| RetryAfterExceedsCap.

Definition rate_validate (r : RateLimitConfig) : result ConfigError unit :=
  if (events r =? 0) || (burst r =? 0) || (period r =? 0)
  then Err RateLimitsMustBeNonZero else Ok tt.

Record BrokerConfig := mkConfig {
  room_ttl : Duration;
  room_tombstone_ttl : Duration;
  room_attempt_limit : Z;
  room_attempt_rate : RateLimitConfig;
  endpoint_join_rate : RateLimitConfig;
  ip_join_rate : RateLimitConfig;
  subnet_join_rate : RateLimitConfig;
  max_connections : Z;
  max_connections_per_endpoint : Z;
  max_connections_per_room : Z;
  max_room_states : Z;
  max_waiting_creators : Z;
  max_source_states : Z;
  source_state_ttl : Duration;
  handshake_timeout : Duration;
  join_timeout : Duration;
  relay_ttl : Duration;
  relay_idle_timeout : Duration;
  slow_frame_timeout : Duration;
  close_grace : Duration;
  max_frame_body : Z;
  max_retry_after : Duration;
  unavailable_retry_after : Duration;
}.

Definition config_validate (c : BrokerConfig) : result ConfigError unit :=
  _ ← rate_validate (room_attempt_rate c);
  _ ← rate_validate (endpoint_join_rate c);
  _ ← rate_validate (ip_join_rate c);
  _ ← rate_validate (subnet_join_rate c);
  if (room_ttl c =? 0) || (room_tombstone_ttl c =? 0) || (source_state_ttl c =? 0)
     || (handshake_timeout c =? 0) || (join_timeout c =? 0) || (relay_ttl c =? 0)
     || (relay_idle_timeout c =? 0) || (slow_frame_timeout c =? 0) || (close_grace c =? 0)
     || (max_retry_after c =? 0)
  then Err DurationsMustBeNonZero
  else if (room_attempt_limit c =? 0) || (max_connections c =? 0)
     || (max_connections_per_endpoint c =? 0) || (max_connections_per_room c <? 2)
     || (max_room_states c =? 0) || (max_waiting_creators c =? 0) || (max_source_states c <? 3)
     || (max_frame_body c =? 0) || (u32_max <? max_frame_body c)
  then Err LimitsMustBeNonZero
  else if max_room_states c <? max_waiting_creators c then Err WaitingCreatorsExceedRooms
  else if max_retry_after c <? unavailable_retry_after c then Err RetryAfterExceedsCap
  else Ok tt.

Definition default_config : BrokerConfig :=
  mkConfig (from_secs 300) (from_secs 300) 6 (mkRate 6 (from_secs 300) 2)
    (per_minute 10 20) (per_minute 30 60) (per_minute 120 240)
    256 8 2 8192 4096 8192 (from_secs 600) (from_secs 10) (from_secs 10) (from_secs 120)
    (from_secs 30) (from_secs 10) (from_secs 10) (64 * 1024) (from_secs 300) (from_secs 1).

(** The type invariant: [u32] and [usize] fields, [Duration]s. *)
Definition wf_rate (r : RateLimitConfig) : bool :=
  is_u32 (events r) && is_u32 (burst r) && (0 <=? period r) && (period r <=? duration_max).
Definition wf_duration (d : Duration) : bool := (0 <=? d) && (d <=? duration_max).
Definition wf_config (c : BrokerConfig) : bool :=
  forallb wf_duration [room_ttl c; room_tombstone_ttl c; source_state_ttl c; handshake_timeout c;
    join_timeout c; relay_ttl c; relay_idle_timeout c; slow_frame_timeout c; close_grace c;
    max_retry_after c; unavailable_retry_after c] &&
  forallb wf_rate [room_attempt_rate c; endpoint_join_rate c; ip_join_rate c; subnet_join_rate c] &&
  is_u32 (room_attempt_limit c) &&
  forallb is_u64 [max_connections c; max_connections_per_endpoint c; max_connections_per_room c;
    max_room_states c; max_waiting_creators c; max_source_states c; max_frame_body c].

(** ** Control protocol *)

Definition RENDEZVOUS_PROTOCOL_VERSION : Z := 2.

Inductive Role := Initiator | Responder.
Inductive InvitationSide := Creator | Joiner.
Inductive TransferRole := TransferSender | TransferReceiver.
Inductive BootstrapKind := FullTicket | RoomCode.

#[export] Instance Role_eq_dec : EqDecision Role.
Proof. solve_decision. Defined.
#[export] Instance InvitationSide_eq_dec : EqDecision InvitationSide.
Proof. solve_decision. Defined.
#[export] Instance TransferRole_eq_dec : EqDecision TransferRole.
Proof. solve_decision. Defined.
#[export] Instance BootstrapKind_eq_dec : EqDecision BootstrapKind.
Proof. solve_decision. Defined.

Definition complement (r : TransferRole) : TransferRole :=
  match r with TransferSender => TransferReceiver | TransferReceiver => TransferSender end.

Record Join := mkJoin {
  version : Z;
  room_id : str;
  invitation_side : InvitationSide;
  transfer_role : TransferRole;
  bootstrap_methods : list BootstrapKind;
  selected_bootstrap_method : option BootstrapKind;
}.

Record Paired := mkPaired { paired_role : Role; paired_method : BootstrapKind }.

Inductive BrokerOutcome :=
| RoomNotFound | RoomExpired | RoomFull | RoomRateLimited | RoomUnderAttack
| EndpointRateLimited | IpRateLimited | ServerBusy | MalformedJoin | UnsupportedVersion.

#[export] Instance Join_eq_dec : EqDecision Join.
Proof. solve_decision. Defined.
#[export] Instance BrokerOutcome_eq_dec : EqDecision BrokerOutcome.
Proof. solve_decision. Defined.

Definition outcome_code (o : BrokerOutcome) : string :=
  match o with
  | RoomNotFound => "room_not_found"
  | RoomExpired => "room_expired"
  | RoomFull => "room_full"
  | RoomRateLimited => "room_rate_limited"
  | RoomUnderAttack => "room_under_attack"
  | EndpointRateLimited => "endpoint_rate_limited"
  | IpRateLimited => "ip_rate_limited"
  | ServerBusy => "server_busy"
  | MalformedJoin => "malformed_join"
  | UnsupportedVersion => "unsupported_version"
  end.

Record BrokerRejection := mkRejection { outcome : BrokerOutcome; retry_after : option Z }.

#[export] Instance BrokerRejection_eq_dec : EqDecision BrokerRejection.
Proof. solve_decision. Defined.

Inductive Reply :=
| ReplyPaired (p : Paired)
| ReplyRejected (r : BrokerRejection)
| ReplyExpired.

(** ** Pure functions of the broker *)

Definition ROOM_ID_LEN : Z := 6.
Definition REMEMBERED_ROOM_ID_PREFIX : str := lit "r1_".
Definition REMEMBERED_ROOM_ID_ENCODED_LEN : Z := 43.
Definition ROOM_CONTROL_LOCATOR_PREFIX : str := lit "c2_".

Definition is_ascii_digit (b : byte) : bool := (48 <=? byte_val b) && (byte_val b <=? 57).
Definition is_ascii_alphanumeric (b : byte) : bool :=
  is_ascii_digit b || ((65 <=? byte_val b) && (byte_val b <=? 90))
  || ((97 <=? byte_val b) && (byte_val b <=? 122)).

(** [value.strip_prefix(prefix)] *)
Definition strip_prefix (prefix value : str) : option str :=
  if bool_decide (take (length prefix) value = prefix) then Some (drop (length prefix) value)
  else None.

Definition six_digits (value : str) : bool :=
  (zlen value =? ROOM_ID_LEN) && forallb is_ascii_digit value.

Definition is_room_control_locator (value : str) : bool :=
  match strip_prefix ROOM_CONTROL_LOCATOR_PREFIX value with
  | Some room_id => six_digits room_id
  | None => false
  end.

Definition is_remembered_room_id (value : str) : bool :=
  match strip_prefix REMEMBERED_ROOM_ID_PREFIX value with
  | Some encoded =>
    (zlen encoded =? REMEMBERED_ROOM_ID_ENCODED_LEN) &&
    forallb (fun b => is_ascii_alphanumeric b || (byte_val b =? 45) || (byte_val b =? 95)) encoded
  | None => false
  end.

Definition bounded_retry_after (retry max : Duration) : option Z :=
  if retry =? 0 then None
  else
    let retry := Z.min retry max in
    Some (Z.min u64_max (as_secs retry + (if 0 <? subsec_nanos retry then 1 else 0))).

Definition validate_join (join : Join) : result BrokerOutcome unit :=
  if negb (version join =? RENDEZVOUS_PROTOCOL_VERSION) then Err UnsupportedVersion
  else
    let invitation_room := six_digits (room_id join) in
    let remembered_room := is_remembered_room_id (room_id join) in
    let room_control := is_room_control_locator (room_id join) in
    if negb invitation_room && negb remembered_room && negb room_control then Err MalformedJoin
    else
      match invitation_side join with
      | Creator =>
        let valid_methods :=
          if room_control then
            bool_decide (bootstrap_methods join = [RoomCode]) &&
            bool_decide (transfer_role join = TransferReceiver)
          else if remembered_room then
            bool_decide (bootstrap_methods join = [FullTicket]) &&
            bool_decide (transfer_role join = TransferReceiver)
          else bool_decide (bootstrap_methods join = [FullTicket; RoomCode]) in
        if negb valid_methods || negb (bool_decide (selected_bootstrap_method join = None))
        then Err MalformedJoin else Ok tt
      | Joiner =>
        let valid_selection :=
          if room_control then
            bool_decide (selected_bootstrap_method join = Some RoomCode) &&
            bool_decide (transfer_role join = TransferSender)
          else if remembered_room then
            bool_decide (selected_bootstrap_method join = Some FullTicket) &&
            bool_decide (transfer_role join = TransferSender)
          else negb (bool_decide (selected_bootstrap_method join = None)) in
        if negb (bool_decide (bootstrap_methods join = [])) || negb valid_selection
        then Err MalformedJoin else Ok tt
      end.

Definition joins_match (first second : Join) : option BootstrapKind :=
  match (match invitation_side first, invitation_side second with
         | Creator, Joiner => Some (first, second)
         | Joiner, Creator => Some (second, first)
         | _, _ => None
         end) with
  | None => None
  | Some (creator, joiner) =>
    if negb (bool_decide (complement (transfer_role creator) = transfer_role joiner)) then None
    else
      selected ← selected_bootstrap_method joiner;
      if bool_decide (selected ∈ bootstrap_methods creator) then Some selected else None
  end.

Definition role_for (join : Join) : Role :=
  match invitation_side join with Creator => Responder | Joiner => Initiator end.

(** ** Facts *)

Lemma default_config_valid :
  config_validate default_config = Ok tt /\ wf_config default_config = true.
Proof. split; vm_compute; reflexivity. Qed.

Lemma bounded_retry_after_spec retry max :
  0 <= retry -> 0 < max <= from_secs u64_max ->
  match bounded_retry_after retry max with
  | None => retry = 0
  | Some secs => 1 <= secs <= u64_max /\ (retry <= max -> retry <= from_secs secs) /\
      from_secs (secs - 1) < Z.min retry max
  end.
Proof.
  intros Hr Hm. unfold bounded_retry_after. destruct (Z.eqb_spec retry 0); [done|].
  set (r := Z.min retry max). assert (Hr0 : 0 < r <= max) by lia.
  assert (Hr1 : retry <= max -> retry = r) by lia. clearbody r.
  unfold as_secs, subsec_nanos, from_secs in *.
  assert (HN : 0 < NANOS_PER_SEC) by done. set (N := NANOS_PER_SEC) in *. clearbody N.
  pose proof (Z.div_mod r N ltac:(lia)) as Hd. pose proof (Z.mod_pos_bound r N HN) as Hb.
  set (q := r / N) in *. set (m := r mod N) in *.
  assert (0 <= q) by (apply Z.div_pos; lia).
  destruct (Z.ltb_spec 0 m); rewrite Z.min_r by nia; repeat split; nia.
Qed.

(** A retry hint is at least one second and never reaches a whole second above
    the cap. *)
Lemma bounded_retry_after_cap retry max secs :
  0 <= retry -> 0 < max -> bounded_retry_after retry max = Some secs ->
  1 <= secs /\ from_secs (secs - 1) < max.
Proof.
  intros Hr Hm. unfold bounded_retry_after. destruct (Z.eqb_spec retry 0); [done|].
  set (r := Z.min retry max). assert (Hr0 : 0 < r <= max) by lia. clearbody r.
  unfold as_secs, subsec_nanos, from_secs. intros [= <-].
  assert (HN : 0 < NANOS_PER_SEC) by done. assert (Hu : 1 <= u64_max) by done.
  set (N := NANOS_PER_SEC) in *. clearbody N.
  pose proof (Z.div_mod r N ltac:(lia)) as Hd. pose proof (Z.mod_pos_bound r N HN) as Hb.
  set (q := r / N) in *. set (m := r mod N) in *. assert (0 <= q) by (apply Z.div_pos; lia).
  destruct (Z.ltb_spec 0 m); split; nia.
Qed.

(** Two valid joins of one room, one from each side, match exactly when their
    transfer roles are complementary, and the method is the joiner's. *)
Lemma joins_match_same_room creator joiner :
  validate_join creator = Ok tt -> validate_join joiner = Ok tt ->
  room_id creator = room_id joiner ->
  invitation_side creator = Creator -> invitation_side joiner = Joiner ->
  joins_match creator joiner =
    (if bool_decide (complement (transfer_role creator) = transfer_role joiner)
     then selected_bootstrap_method joiner else None) /\
  joins_match joiner creator = joins_match creator joiner.
Proof.
  unfold validate_join, joins_match. intros Hc Hj Hid Hcs Hjs. rewrite Hcs, Hjs in *.
  rewrite <- Hid in Hj. inv_ok.
  split; [|done]. destruct (bool_decide (complement _ = _)); [|done]. cbn [negb].
  destruct (selected_bootstrap_method joiner) as [m|]; [|done]. cbn.
  rewrite bool_decide_eq_true_2; [done|].
  repeat match goal with
  | H : context [if is_room_control_locator ?x then _ else _] |- _ =>
      destruct (is_room_control_locator x)
  | H : context [if is_remembered_room_id ?x then _ else _] |- _ =>
      destruct (is_remembered_room_id x)
  end; bool_prop; simplify_eq; try (match goal with H : bootstrap_methods creator = _ |- _ =>
    rewrite H end); repeat match goal with m : BootstrapKind |- _ => destruct m end; set_solver.
Qed.

Lemma nonzero_pos x : x <> 0 -> 0 <= x -> 0 < x.
Proof. lia. Qed.

(** What a valid configuration promises the components that use it. *)
Lemma config_validate_bounds c :
  config_validate c = Ok tt -> wf_config c = true ->
  1 <= max_connections_per_endpoint c /\ 2 <= max_connections_per_room c /\
  3 <= max_source_states c /\ 1 <= room_attempt_limit c <= u32_max /\
  1 <= max_waiting_creators c <= max_room_states c /\ 0 < max_retry_after c <= duration_max /\
  0 <= unavailable_retry_after c <= max_retry_after c /\ 1 <= max_frame_body c <= u32_max /\
  0 < room_ttl c /\ 0 < room_tombstone_ttl c.
Proof.
  unfold config_validate, wf_config, wf_duration, is_u32, is_u64. cbn [forallb].
  intros Hv Hwf. inv_ok. bool_prop.
  repeat match goal with H : ?x <> 0, H' : 0 <= ?x |- _ =>
    pose proof (nonzero_pos x H H'); clear H H' end.
  repeat split; (assumption || lia).
Qed.
