(* ===== verification/CoreError.v ===== *)
(** Error categories (crates/envoix-error/src/lib.rs): the causes that recovery
    decides on, with their stable codes, and the error of the session layer. *)

From stdpp Require Import prelude strings.
From Stdlib Require Import ZArith.
From S2P Require Import Prelude Bytes BrokerConfig.

Local Open Scope Z_scope.

Inductive TransferCause :=
| NearbyHybridPreAuthTransportFailure
| SenderSourceUnavailable
| SenderPermissionLost
| SenderSourceChanged
| SenderItemRemoved
| SenderCanceled
| ProtocolOrIntegrityFailure
| ReceiverSpaceInsufficient
| ReceiverDestinationDecisionRequired
| ReceiverDestinationUnavailable
| ReceiverSaveFailed
| ReceiverReusedObjectLost
| ReceiverFinalizationOutcomeUnknown.
#[export] Instance TransferCause_eq_dec : EqDecision TransferCause.
Proof. solve_decision. Defined.

Definition transfer_cause_code (c : TransferCause) : string :=
  match c with
  | NearbyHybridPreAuthTransportFailure => "nearby_hybrid_pre_auth_transport_failure"
  | SenderSourceUnavailable => "sender_source_unavailable"
  | SenderPermissionLost => "sender_permission_lost"
  | SenderSourceChanged => "sender_source_changed"
  | SenderItemRemoved => "sender_item_removed"
  | SenderCanceled => "sender_canceled"
  | ProtocolOrIntegrityFailure => "protocol_or_integrity_failure"
  | ReceiverSpaceInsufficient => "receiver_space_insufficient"
  | ReceiverDestinationDecisionRequired => "receiver_destination_decision_required"
  | ReceiverDestinationUnavailable => "receiver_destination_unavailable"
  | ReceiverSaveFailed => "receiver_save_failed"
  | ReceiverReusedObjectLost => "receiver_reused_object_lost"
  | ReceiverFinalizationOutcomeUnknown => "receiver_finalization_outcome_unknown"
  end.

(** The causes have the names of the broker's outcomes. *)
Inductive RendezvousCause :=
| CauseRoomNotFound | CauseRoomExpired | CauseRoomFull | CauseRoomRateLimited | CauseRoomUnderAttack
| CauseEndpointRateLimited | CauseIpRateLimited | CauseServerBusy | CauseMalformedJoin | CauseUnsupportedVersion.
#[export] Instance RendezvousCause_eq_dec : EqDecision RendezvousCause.
Proof. solve_decision. Defined.

Definition rendezvous_cause_code (c : RendezvousCause) : string :=
  match c with
  | CauseRoomNotFound => "room_not_found"
  | CauseRoomExpired => "room_expired"
  | CauseRoomFull => "room_full"
  | CauseRoomRateLimited => "room_rate_limited"
  | CauseRoomUnderAttack => "room_under_attack"
  | CauseEndpointRateLimited => "endpoint_rate_limited"
  | CauseIpRateLimited => "ip_rate_limited"
  | CauseServerBusy => "server_busy"
  | CauseMalformedJoin => "malformed_join"
  | CauseUnsupportedVersion => "unsupported_version"
  end.

(** A message leaves out the text of another error inside it; [CoreIo] has only
    such text. *)
Inductive CoreError :=
| InvalidInput (message : string)
| CoreIo
| Protocol (message : string)
| Transport (message : string)
| Crypto (message : string)
| StorageError (message : string)
| Discovery (message : string)
| TransferError (message : string)
| CauseError (cause : TransferCause) (detail : string)
| RendezvousError (cause : RendezvousCause) (retry_after : option Z)
| InvitationConsumed (error : CoreError)
| Cancelled.
#[export] Instance CoreError_eq_dec : EqDecision CoreError.
Proof. unfold EqDecision, Decision. decide equality; solve_decision. Defined.
Abbreviation session := (result CoreError).

(** No two causes share a code. *)
Lemma transfer_cause_codes a b : transfer_cause_code a = transfer_cause_code b -> a = b.
Proof. by destruct a, b. Qed.
Lemma rendezvous_cause_codes a b : rendezvous_cause_code a = rendezvous_cause_code b -> a = b.
Proof. by destruct a, b. Qed.
