(* ===== verification/TokenBucket.v ===== *)
(** The token bucket of the broker (crates/envoix-rendezvous/src/broker.rs,
    [TokenBucket]).  The source keeps the tokens in an [f64]: the model uses
    the specification of binary64 arithmetic of the standard library, so every
    rounding of the source is a rounding of the model. *)

From stdpp Require Import prelude.
From Stdlib Require Import ZArith Lia Floats.SpecFloat.
From S2P Require Import Prelude BrokerConfig.

Local Open Scope Z_scope.

(** ** Binary64 *)

Abbreviation f64 := spec_float (only parsing).
Definition f64_add : f64 -> f64 -> f64 := SFadd 53 1024.
Definition f64_sub : f64 -> f64 -> f64 := SFsub 53 1024.
Definition f64_mul : f64 -> f64 -> f64 := SFmul 53 1024.
Definition f64_div : f64 -> f64 -> f64 := SFdiv 53 1024.

(** [f64::from(n)] and [n as f64]: to nearest, ties to even. *)
Definition f64_of_Z (n : Z) : f64 := binary_normalize 53 1024 n 0 false.

(** [a >= b]: false when either is NaN. *)
Definition f64_ge (a b : f64) : bool := SFleb b a.

(** [a.min(b)]: the other operand when one is NaN. *)
Definition f64_min (a b : f64) : f64 :=
  match SFcompare a b with
  | Some Gt => b
  | Some _ => a
  | None => match a with S754_nan => b | _ => a end
  end.

(** ** Durations *)

(** [Instant::saturating_duration_since] *)
Definition saturating_duration_since (now earlier : Instant) : Duration := Z.max 0 (now - earlier).

(** [Duration::as_secs_f64]: [secs as f64 + nanos as f64 / 1e9]. *)
Definition as_secs_f64 (d : Duration) : f64 :=
  f64_add (f64_of_Z (as_secs d)) (f64_div (f64_of_Z (subsec_nanos d)) (f64_of_Z NANOS_PER_SEC)).

(** [m * 2^e * 1e9] to the nearest integer, ties to even. *)
Definition round_nanos (m : Z) (e : Z) : Z :=
  if 0 <=? e then m * 2 ^ e * NANOS_PER_SEC
  else
    let d := 2 ^ (- e) in
    let n := m * NANOS_PER_SEC in
    let q := n / d in
    match Z.compare (2 * (n mod d)) d with
    | Lt => q
    | Eq => if Z.even q then q else q + 1
    | Gt => q + 1
    end.

(** [Duration::from_secs_f64]: [None] where it panics (negative, not finite or
    too large). *)
Definition from_secs_f64 (x : f64) : option Duration :=
  match x with
  | S754_zero _ => Some 0
  | S754_finite false m e =>
    let n := round_nanos (Zpos m) e in
    if n <=? duration_max then Some n else None
  | _ => None
  end.

(** ** The bucket *)

Record TokenBucket := mkBucket { tokens : f64; updated : Instant; policy : RateLimitConfig }.

Definition bucket_new (p : RateLimitConfig) (now : Instant) : TokenBucket :=
  mkBucket (f64_of_Z (burst p)) now p.

Inductive TakeResult :=
| Taken
| Denied (retry : Duration)
| TakePanicked.

Definition refill_per_second (p : RateLimitConfig) : f64 :=
  f64_div (f64_of_Z (events p)) (as_secs_f64 (period p)).

Definition bucket_take (b : TokenBucket) (now : Instant) : TokenBucket * TakeResult :=
  let elapsed := as_secs_f64 (saturating_duration_since now (updated b)) in
  let refill := refill_per_second (policy b) in
  let refilled :=
    f64_min (f64_add (tokens b) (f64_mul elapsed refill)) (f64_of_Z (burst (policy b))) in
  if f64_ge refilled (f64_of_Z 1)
  then (mkBucket (f64_sub refilled (f64_of_Z 1)) now (policy b), Taken)
  else
    (mkBucket refilled now (policy b),
     match from_secs_f64 (f64_div (f64_sub (f64_of_Z 1) refilled) refill) with
     | Some retry => Denied retry
     | None => TakePanicked
     end).

(** ** Integers are exact *)

Lemma digits2_pos_size p : Zpos (digits2_pos p) = Z.log2 (Zpos p) + 1.
Proof.
  induction p as [p IH|p IH|]; cbn [digits2_pos]; [..|done].
  - rewrite Pos2Z.inj_succ, IH, Pos2Z.inj_xI, Z.log2_succ_double by lia. lia.
  - rewrite Pos2Z.inj_succ, IH, Pos2Z.inj_xO, Z.log2_double by lia. lia.
Qed.

Lemma Zdigits2_pos n : 0 < n -> Zdigits2 n = Z.log2 n + 1.
Proof. destruct n; [lia| |lia]. intros _. apply digits2_pos_size. Qed.

Lemma iter_xO m d : Zpos (Pos.iter xO m d) = Zpos m * 2 ^ Zpos d.
Proof.
  induction d as [|d IH] using Pos.peano_ind; [cbn; lia|].
  rewrite Pos.iter_succ, Pos2Z.inj_xO, IH, Pos2Z.inj_succ, Z.pow_succ_r by lia. lia.
Qed.

Lemma shr_1_double m : 0 <= m ->
  shr_1 (Build_shr_record (2 * m) false false) = Build_shr_record m false false.
Proof. destruct m; [done|done|lia]. Qed.

(** Shifting right past zeros loses nothing. *)
Lemma shr_exact n m : 0 <= m ->
  iter_pos shr_1 n (Build_shr_record (m * 2 ^ Zpos n) false false) = Build_shr_record m false false.
Proof.
  revert m. induction n as [n IH|n IH|]; intros m Hm; cbn [iter_pos].
  - replace (m * 2 ^ Zpos n~1) with (2 * (m * 2 ^ Zpos n * 2 ^ Zpos n)).
    + rewrite shr_1_double, !IH by (try apply Z.mul_nonneg_nonneg; lia). done.
    + replace (Zpos n~1) with (Zpos n + Zpos n + 1) by lia.
      rewrite !Z.pow_add_r, Z.pow_1_r by lia. ring.
  - replace (m * 2 ^ Zpos n~0) with (m * 2 ^ Zpos n * 2 ^ Zpos n).
    + rewrite !IH by (try apply Z.mul_nonneg_nonneg; lia). done.
    + replace (Zpos n~0) with (Zpos n + Zpos n) by lia. rewrite Z.pow_add_r by lia. ring.
  - rewrite Z.pow_1_r, Z.mul_comm. by apply shr_1_double.
Qed.

Lemma shr_zero m e d : d <= 0 -> shr (Build_shr_record m false false) e d
  = (Build_shr_record m false false, e).
Proof. destruct d; [done|lia|done]. Qed.

Lemma shr_mul m e d : 0 <= m -> 0 <= d ->
  shr (Build_shr_record (m * 2 ^ d) false false) e d = (Build_shr_record m false false, e + d).
Proof.
  intros Hm Hd. destruct d as [|d|d]; [|cbn [shr]; by rewrite shr_exact|lia].
  by rewrite Z.pow_0_r, Z.mul_1_r, Z.add_0_r.
Qed.

(** The canonical form of [n * 2^e] when [n] fits in 53 bits. *)
Definition canonical (n e : Z) : f64 :=
  let d := Z.log2 n + 1 in S754_finite false (Z.to_pos (n * 2 ^ (53 - d))) (d + e - 53).

Lemma log2_mul_pow2' n k : 0 < n -> 0 <= k -> Z.log2 (n * 2 ^ k) = Z.log2 n + k.
Proof. intros. rewrite Z.log2_mul_pow2 by lia. lia. Qed.

(** Rounding is exact on a mantissa of at most 53 significant bits. *)
Lemma binary_round_aux_exact n k e :
  0 < n -> 0 <= k -> Z.log2 n + 1 <= 53 -> Z.log2 (n * 2 ^ k) + 1 >= 53 ->
  -1021 <= Z.log2 n + 1 + k + e <= 1024 ->
  binary_round_aux 53 1024 false (n * 2 ^ k) e loc_Exact = canonical n (k + e).
Proof.
  intros Hn Hk Hd Hw He. set (d := Z.log2 n + 1) in *.
  rewrite log2_mul_pow2' in Hw by lia. fold d in Hw.
  assert (Hm : 0 < n * 2 ^ k) by (apply Z.mul_pos_pos; [lia|apply Z.pow_pos_nonneg; lia]).
  assert (Hc : 0 < n * 2 ^ (53 - d)) by (apply Z.mul_pos_pos; [lia|apply Z.pow_pos_nonneg; lia]).
  unfold binary_round_aux, shr_fexp. cbn [shr_record_of_loc].
  rewrite Zdigits2_pos, log2_mul_pow2' by lia.
  replace (Z.log2 n + k + 1 + e) with (d + k + e) by lia.
  replace (fexp 53 1024 (d + k + e) - e) with (d + k - 53)
    by (unfold fexp, emin; lia).
  replace (n * 2 ^ k) with (n * 2 ^ (53 - d) * 2 ^ (d + k - 53))
    by (rewrite <- Z.mul_assoc, <- Z.pow_add_r by lia; f_equal; f_equal; lia).
  rewrite shr_mul by lia. cbn [shr_m loc_of_shr_record round_nearest_even].
  rewrite Zdigits2_pos, log2_mul_pow2' by lia. rewrite shr_zero by (unfold fexp, emin; lia).
  cbn [shr_m]. unfold canonical. fold d.
  destruct (n * 2 ^ (53 - d)) as [|p|p] eqn:Hp; [lia| |lia].
  rewrite (proj2 (Z.leb_le _ _)) by lia. f_equal. lia.
Qed.

Lemma shl_align_spec m e e' :
  e' <= e -> shl_align m e e' = (Z.to_pos (Zpos m * 2 ^ (e - e')), e').
Proof.
  intros He. unfold shl_align. destruct (e' - e) as [|d|d] eqn:Hd; [|lia|].
  - replace (e - e') with 0 by lia. rewrite Z.pow_0_r, Z.mul_1_r. cbn. f_equal. lia.
  - replace (e - e') with (Zpos d) by lia. rewrite <- iter_xO. done.
Qed.

Lemma shl_align_none m e e' : e <= e' -> shl_align m e e' = (m, e).
Proof. intros He. unfold shl_align. by destruct (e' - e) eqn:Hd; [|done|lia]. Qed.

Section Integers.
Lemma log2_digits n : 0 < n < 2 ^ 53 -> 0 <= Z.log2 n < 53.
Proof. intros Hn. split; [apply Z.log2_nonneg|]. apply Z.log2_lt_pow2; lia. Qed.

Lemma pow2_pos k : 0 <= k -> 0 < 2 ^ k.
Proof. intros. apply Z.pow_pos_nonneg; lia. Qed.

Lemma f64_of_pos n : 0 < n < 2 ^ 53 -> f64_of_Z n = canonical n 0.
Proof.
  intros Hn. pose proof (log2_digits n Hn) as Hd. pose proof (pow2_pos (53 - (Z.log2 n + 1))).
  destruct n as [|p|p]; [lia| |lia]. unfold f64_of_Z, binary_normalize, binary_round.
  rewrite digits2_pos_size. set (d := Z.log2 (Zpos p) + 1) in *.
  replace (fexp 53 1024 (d + 0)) with (d - 53) by (unfold fexp, emin; lia).
  rewrite shl_align_spec by lia. rewrite Z2Pos.id by (apply Z.mul_pos_pos; lia).
  replace (0 - (d - 53)) with (53 - d) by lia.
  rewrite binary_round_aux_exact; [f_equal; lia|lia|lia|lia| |lia].
  rewrite log2_mul_pow2' by lia. lia.
Qed.

Lemma f64_compare_pos m n : 0 < m < 2 ^ 53 -> 0 < n < 2 ^ 53 ->
  SFcompare (canonical m 0) (canonical n 0) = Some (m ?= n).
Proof.
  intros Hm Hn. pose proof (log2_digits m Hm). pose proof (log2_digits n Hn).
  unfold canonical. cbn [SFcompare]. f_equal.
  destruct (Z.compare_spec (Z.log2 m + 1 + 0 - 53) (Z.log2 n + 1 + 0 - 53)) as [He|He|He].
  - assert (Hlog : Z.log2 m = Z.log2 n) by lia. rewrite Hlog.
    set (k := 2 ^ (53 - (Z.log2 n + 1))). assert (0 < k) by (apply pow2_pos; lia).
    change (Pos.compare_cont Eq (Z.to_pos (m * k)) (Z.to_pos (n * k)))
      with (Z.to_pos (m * k) ?= Z.to_pos (n * k))%positive.
    rewrite <- Z2Pos.inj_compare by nia.
    destruct (Z.compare_spec m n) as [->|Hlt|Hgt];
      [apply Z.compare_refl|apply Z.compare_lt_iff; nia|apply Z.compare_gt_iff; nia].
  - symmetry. apply Z.compare_lt_iff. apply Z.log2_lt_cancel. lia.
  - symmetry. apply Z.compare_gt_iff. apply Z.log2_lt_cancel. lia.
Qed.

Lemma f64_compare m n : 0 <= m < 2 ^ 53 -> 0 <= n < 2 ^ 53 ->
  SFcompare (f64_of_Z m) (f64_of_Z n) = Some (m ?= n).
Proof.
  intros Hm Hn. destruct (Z.eq_dec m 0) as [->|], (Z.eq_dec n 0) as [->|]; [done|..].
  - rewrite (f64_of_pos n) by lia. destruct n; [lia|done|lia].
  - rewrite (f64_of_pos m) by lia. destruct m; [lia|done|lia].
  - rewrite !f64_of_pos by lia. apply f64_compare_pos; lia.
Qed.

Lemma f64_ge_of_Z m n : 0 <= m < 2 ^ 53 -> 0 <= n < 2 ^ 53 ->
  f64_ge (f64_of_Z m) (f64_of_Z n) = (n <=? m).
Proof.
  intros Hm Hn. unfold f64_ge, SFleb, Z.leb. rewrite f64_compare by done. by destruct (n ?= m).
Qed.

Lemma f64_min_of_Z m n : 0 <= m < 2 ^ 53 -> 0 <= n < 2 ^ 53 ->
  f64_min (f64_of_Z m) (f64_of_Z n) = f64_of_Z (Z.min m n).
Proof.
  intros Hm Hn. unfold f64_min. rewrite f64_compare by done. unfold Z.min. by destruct (m ?= n).
Qed.

Lemma f64_sub_one n : 0 < n < 2 ^ 53 -> f64_sub (f64_of_Z n) (f64_of_Z 1) = f64_of_Z (n - 1).
Proof.
  intros Hn. pose proof (log2_digits n Hn) as Hd. set (d := Z.log2 n + 1).
  assert (Hc : 0 < n * 2 ^ (53 - d)) by (apply Z.mul_pos_pos; [lia|apply pow2_pos; lia]).
  rewrite f64_of_pos by done. unfold canonical. fold d.
  change (f64_of_Z 1) with (S754_finite false (Z.to_pos (2 ^ 52)) (-52)).
  unfold f64_sub. cbn [SFsub cond_Zopp].
  replace (Z.min (d + 0 - 53) (-52)) with (-52) by lia.
  rewrite !shl_align_spec by lia. cbn [fst].
  rewrite !Z2Pos.id by (rewrite ?Z2Pos.id by lia; apply Z.mul_pos_pos; [lia|apply pow2_pos; lia]).
  rewrite !Z2Pos.id by lia.
  replace (n * 2 ^ (53 - d) * 2 ^ (d + 0 - 53 - -52)) with (n * 2 ^ 52)
    by (rewrite <- Z.mul_assoc, <- Z.pow_add_r by lia; f_equal; f_equal; lia).
  replace (n * 2 ^ 52 - 2 ^ 52 * 2 ^ (-52 - -52)) with ((n - 1) * 2 ^ 52) by (cbn; lia).
  destruct (Z.eq_dec n 1) as [->|Hne]; [done|].
  rewrite f64_of_pos by lia. pose proof (log2_digits (n - 1)) as Hd'.
  destruct ((n - 1) * 2 ^ 52) as [|p|p] eqn:Hp; [lia| |lia].
  cbn [binary_normalize]. unfold binary_round. rewrite digits2_pos_size, <- Hp.
  rewrite log2_mul_pow2' by lia. rewrite shl_align_none by (unfold fexp, emin; lia).
  rewrite <- Hp, binary_round_aux_exact; [f_equal; lia|lia|lia|lia| |lia].
  rewrite log2_mul_pow2' by lia. lia.
Qed.
End Integers.

(** ** Bursts *)

Definition f64_is_finite (x : f64) : bool :=
  match x with S754_zero _ | S754_finite _ _ _ => true | _ => false end.

(** The takes granted among [n] calls of [take] at the same instant. *)
Fixpoint grants (n : nat) (b : TokenBucket) (now : Instant) : Z :=
  match n with
  | O => 0
  | S n' =>
    let '(b', r) := bucket_take b now in
    (match r with Taken => 1 | _ => 0 end) + grants n' b' now
  end.

Section Burst.
Context (p : RateLimitConfig) (now : Instant).
Context (Hburst : is_u32 (burst p) = true).
Context (Hrefill : f64_is_finite (refill_per_second p) = true).

(** No time has passed, so nothing is refilled. *)
Lemma refill_none k :
  0 <= k <= burst p ->
  f64_min (f64_add (f64_of_Z k) (f64_mul (as_secs_f64 (saturating_duration_since now now))
    (refill_per_second p))) (f64_of_Z (burst p)) = f64_of_Z k.
Proof.
  intros Hk. unfold is_u32, u32_max in Hburst. bool_prop. unfold saturating_duration_since.
  rewrite Z.sub_diag. change (as_secs_f64 (Z.max 0 0)) with (S754_zero false).
  assert (f64_add (f64_of_Z k) (f64_mul (S754_zero false) (refill_per_second p)) = f64_of_Z k)
    as ->.
  { destruct (Z.eq_dec k 0) as [->|].
    - destruct (refill_per_second p) as [[]|[]| |[] ??]; done.
    - rewrite f64_of_pos by lia. destruct (refill_per_second p) as [[]|[]| |[] ??]; done. }
  rewrite f64_min_of_Z by lia. f_equal. lia.
Qed.

Lemma take_one k :
  0 < k <= burst p ->
  bucket_take (mkBucket (f64_of_Z k) now p) now = (mkBucket (f64_of_Z (k - 1)) now p, Taken).
Proof.
  intros Hk. pose proof Hburst as Hb. unfold is_u32, u32_max in Hb. bool_prop.
  unfold bucket_take. cbn [tokens updated policy]. rewrite refill_none by lia.
  rewrite f64_ge_of_Z by lia. rewrite (proj2 (Z.leb_le _ _)) by lia.
  by rewrite f64_sub_one by lia.
Qed.

Lemma take_empty :
  exists r, bucket_take (mkBucket (f64_of_Z 0) now p) now = (mkBucket (f64_of_Z 0) now p, r) /\
    r <> Taken.
Proof.
  pose proof Hburst as Hb. unfold is_u32, u32_max in Hb. bool_prop.
  unfold bucket_take. cbn [tokens updated policy]. rewrite refill_none by lia.
  rewrite f64_ge_of_Z by lia. rewrite (proj2 (Z.leb_gt _ _)) by lia.
  eexists. split; [reflexivity|]. by destruct (from_secs_f64 _).
Qed.

Lemma grants_from n k :
  0 <= k <= burst p -> grants n (mkBucket (f64_of_Z k) now p) now = Z.min (Z.of_nat n) k.
Proof.
  revert k. induction n as [|n IH]; intros k Hk; [cbn; lia|]. cbn [grants].
  destruct (Z.eq_dec k 0) as [->|].
  - destruct take_empty as (r & -> & Hr). rewrite IH by lia. destruct r; [done|lia|lia].
  - rewrite take_one, IH by lia. lia.
Qed.
End Burst.

(** A fresh token bucket grants exactly [burst] takes at one instant: of
    any number of calls of [take] before the clock moves, the first [burst]
    succeed and every later one is denied, with the tokens counted in [f64]. *)
Theorem bucket_burst (p : RateLimitConfig) (now : Instant) (n : nat) :
  is_u32 (burst p) = true -> f64_is_finite (refill_per_second p) = true ->
  grants n (bucket_new p now) now = Z.min (Z.of_nat n) (burst p).
Proof.
  intros Hb Hr. apply grants_from; [done|done|]. unfold is_u32 in Hb. bool_prop. lia.
Qed.
