(* ===== verification/Sources.v ===== *)
(** Source accounting of the broker (crates/envoix-rendezvous/src/broker.rs,
    [SourceTracker] and [SourceGuard]): rate limits and connection counts per
    endpoint, address and prefix, in a map of bounded size. *)

From stdpp Require Import prelude gmap.
From Stdlib Require Import ZArith Lia Strings.Byte.
From S2P Require Import Prelude Bytes BrokerConfig TokenBucket.

Local Open Scope Z_scope.

(** ** Data *)

(** The octets of an address: 4 or 16 bytes. *)
Inductive IpAddr := V4 (octets : list byte) | V6 (octets : list byte).
Inductive IpPrefix := PrefixV4 (octets : list byte) | PrefixV6 (octets : list byte).

Definition ip_prefix (ip : IpAddr) : IpPrefix :=
  match ip with
  | V4 octets => PrefixV4 (take 3 octets)
  | V6 octets => PrefixV6 (take 8 octets)
  end.

Inductive SourceKey :=
| KeyEndpoint (id : list byte)
| KeyIp (ip : IpAddr)
| KeyPrefix (prefix : IpPrefix).

Inductive SourceKind := KindEndpoint | KindIp | KindPrefix.

Record PeerSource := mkSource { endpoint_id : list byte; direct_ip : option IpAddr }.

Record SourceState := mkSourceState {
  bucket : TokenBucket;
  src_active_connections : Z;
  last_seen : Instant;
}.

#[export] Instance IpAddr_eq_dec : EqDecision IpAddr.
Proof. solve_decision. Defined.
#[export] Instance IpPrefix_eq_dec : EqDecision IpPrefix.
Proof. solve_decision. Defined.
#[export] Instance SourceKey_eq_dec : EqDecision SourceKey.
Proof. solve_decision. Defined.

#[export] Instance IpAddr_countable : Countable IpAddr.
Proof.
  refine (inj_countable' (fun ip => match ip with V4 o => inl o | V6 o => inr o end)
    (fun x => match x with inl o => V4 o | inr o => V6 o end) _). by intros [].
Defined.
#[export] Instance IpPrefix_countable : Countable IpPrefix.
Proof.
  refine (inj_countable' (fun ip => match ip with PrefixV4 o => inl o | PrefixV6 o => inr o end)
    (fun x => match x with inl o => PrefixV4 o | inr o => PrefixV6 o end) _). by intros [].
Defined.
#[export] Instance SourceKey_countable : Countable SourceKey.
Proof.
  refine (inj_countable'
    (fun k => match k with
              | KeyEndpoint i => inl i | KeyIp i => inr (inl i) | KeyPrefix p => inr (inr p)
              end)
    (fun x => match x with
              | inl i => KeyEndpoint i | inr (inl i) => KeyIp i | inr (inr p) => KeyPrefix p
              end) _). by intros [].
Defined.

Abbreviation entries_map := (gmap SourceKey SourceState).

(** ** Operations *)

Section Tracker.
Context (config : BrokerConfig).

Definition source_policy (kind : SourceKind) : RateLimitConfig :=
  match kind with
  | KindEndpoint => endpoint_join_rate config
  | KindIp => ip_join_rate config
  | KindPrefix => subnet_join_rate config
  end.

Definition source_rejection (o : BrokerOutcome) (retry : Duration) : BrokerRejection :=
  mkRejection o (bounded_retry_after retry (max_retry_after config)).

Definition source_size (m : entries_map) : Z := Z.of_nat (size m).

(** The entries [retain] keeps. *)
Definition source_kept (now : Instant) (st : SourceState) : bool :=
  (0 <? src_active_connections st)
  || (saturating_duration_since now (last_seen st) <? source_state_ttl config).

Definition ensure_capacity (m : entries_map) (keys : list (SourceKey * SourceKind))
    (now : Instant) : entries_map * result BrokerRejection unit :=
  let missing := zlen (filter (fun k : SourceKey * SourceKind => m !! k.1 = None) keys) in
  if source_size m + missing <=? max_source_states config then (m, Ok tt)
  else
    let m' := filter (fun kv : SourceKey * SourceState => source_kept now kv.2 = true) m in
    if max_source_states config <? source_size m' + missing
    then (m', Err (source_rejection ServerBusy (unavailable_retry_after config)))
    else (m', Ok tt).

(** What an operation that may meet a panic of [Duration::from_secs_f64] returns. *)
Inductive AdmitResult (A : Type) :=
| Granted (a : A)
| AdmitRejected (r : BrokerRejection)
| AdmitPanicked.
Arguments Granted {A} a.
Arguments AdmitRejected {A} r.
Arguments AdmitPanicked {A}.

Definition rate_outcome (kind : SourceKind) : BrokerOutcome :=
  match kind with KindEndpoint => EndpointRateLimited | KindIp | KindPrefix => IpRateLimited end.

(** The loop over keys: each entry created if absent, touched, and debited. *)
Fixpoint debit_keys (m : entries_map) (keys : list (SourceKey * SourceKind)) (now : Instant)
    : entries_map * AdmitResult unit :=
  match keys with
  | [] => (m, Granted tt)
  | (key, kind) :: keys' =>
    let st := match m !! key with
              | Some st => st
              | None => mkSourceState (bucket_new (source_policy kind) now) 0 now
              end in
    let '(b, r) := bucket_take (bucket st) now in
    let m' := <[key := mkSourceState b (src_active_connections st) now]> m in
    match r with
    | Taken => debit_keys m' keys' now
    | Denied retry => (m', AdmitRejected (source_rejection (rate_outcome kind) retry))
    | TakePanicked => (m', AdmitPanicked)
    end
  end.

Definition direct_keys (ip : IpAddr) : list (SourceKey * SourceKind) :=
  [(KeyIp ip, KindIp); (KeyPrefix (ip_prefix ip), KindPrefix)].

Definition source_keys (s : PeerSource) : list (SourceKey * SourceKind) :=
  (KeyEndpoint (endpoint_id s), KindEndpoint) ::
  match direct_ip s with Some ip => direct_keys ip | None => [] end.

(** [SourceTracker::admit]; [Granted key] is the guard, which holds [key]. *)
Definition admit_source (m : entries_map) (s : PeerSource) (now : Instant)
    : entries_map * AdmitResult SourceKey :=
  let keys := source_keys s in
  let endpoint_key := KeyEndpoint (endpoint_id s) in
  match ensure_capacity m keys now with
  | (m1, Err r) => (m1, AdmitRejected r)
  | (m1, Ok _) =>
    if match m1 !! endpoint_key with
       | Some st => max_connections_per_endpoint config <=? src_active_connections st
       | None => false
       end
    then (m1, AdmitRejected
                (source_rejection EndpointRateLimited (unavailable_retry_after config)))
    else
      match debit_keys m1 keys now with
      | (m2, AdmitRejected r) => (m2, AdmitRejected r)
      | (m2, AdmitPanicked) => (m2, AdmitPanicked)
      | (m2, Granted _) =>
        match m2 !! endpoint_key with
        | Some st =>
          (<[endpoint_key := mkSourceState (bucket st) (src_active_connections st + 1)
                               (last_seen st)]> m2, Granted endpoint_key)
        | None => (m2, AdmitPanicked)
        end
      end
  end.

Definition observe_direct (m : entries_map) (ip : IpAddr) (now : Instant)
    : entries_map * AdmitResult unit :=
  match ensure_capacity m (direct_keys ip) now with
  | (m1, Err r) => (m1, AdmitRejected r)
  | (m1, Ok _) => debit_keys m1 (direct_keys ip) now
  end.

(** [Drop for SourceGuard] *)
Definition drop_source_guard (m : entries_map) (key : SourceKey) : entries_map :=
  match m !! key with
  | Some st =>
    <[key := mkSourceState (bucket st) (saturating_sub (src_active_connections st) 1)
               (last_seen st)]> m
  | None => m
  end.
End Tracker.
Arguments Granted {A} a.
Arguments AdmitRejected {A} r.
Arguments AdmitPanicked {A}.

(** ** The tracker and its live guards *)

Record TrackerState := mkTracker { st_entries : entries_map; st_guards : list SourceKey }.

Definition tracker_init : TrackerState := mkTracker ∅ [].

(** One call under the tracker's lock, or the drop of one live guard. *)
Inductive source_step (config : BrokerConfig) : TrackerState -> TrackerState -> Prop :=
| step_admit st s now m r :
    admit_source config (st_entries st) s now = (m, r) ->
    source_step config st
      (mkTracker m (match r with Granted key => key :: st_guards st | _ => st_guards st end))
| step_observe st ip now m r :
    observe_direct config (st_entries st) ip now = (m, r) ->
    source_step config st (mkTracker m (st_guards st))
| step_drop st before key after :
    st_guards st = before ++ key :: after ->
    source_step config st
      (mkTracker (drop_source_guard (st_entries st) key) (before ++ after)).

Definition source_reachable (config : BrokerConfig) (st : TrackerState) : Prop :=
  rtc (source_step config) tracker_init st.

(** The connections the map records for a key. *)
Definition active (m : entries_map) (key : SourceKey) : Z :=
  match m !! key with Some st => src_active_connections st | None => 0 end.

Section Accounting.
Context (config : BrokerConfig).

Lemma active_insert m key st k :
  active (<[key := st]> m) k = if decide (key = k) then src_active_connections st else active m k.
Proof.
  unfold active. destruct (decide (key = k)) as [->|]; [by rewrite lookup_insert_eq|].
  by rewrite lookup_insert_ne.
Qed.

Lemma source_size_insert m key st :
  source_size (<[key := st]> m) = source_size m + (if m !! key then 0 else 1).
Proof.
  unfold source_size. destruct (m !! key) eqn:Hk.
  - rewrite map_size_insert_Some by eauto. lia.
  - rewrite map_size_insert_None by done. lia.
Qed.

Definition missing (m : entries_map) (keys : list (SourceKey * SourceKind)) : Z :=
  zlen (filter (fun k : SourceKey * SourceKind => m !! k.1 = None) keys).

Lemma missing_le m keys : 0 <= missing m keys <= zlen keys.
Proof.
  unfold missing, zlen. split; [lia|]. apply inj_le. apply length_filter.
Qed.

Lemma missing_cons m key kind keys :
  missing m ((key, kind) :: keys) = (if m !! key then 0 else 1) + missing m keys.
Proof.
  unfold missing. rewrite filter_cons. cbn [fst].
  destruct (m !! key); case_decide; try done. by rewrite zlen_cons.
Qed.

Lemma missing_insert m key st keys : missing (<[key := st]> m) keys <= missing m keys.
Proof.
  induction keys as [|[k kind] keys IH]; [done|]. rewrite !missing_cons.
  destruct (decide (key = k)) as [->|Hne].
  - rewrite lookup_insert_eq. destruct (m !! k); lia.
  - rewrite lookup_insert_ne by done. lia.
Qed.

Lemma debit_keys_size m keys now m' r :
  debit_keys config m keys now = (m', r) -> source_size m' <= source_size m + missing m keys.
Proof.
  revert m. induction keys as [|[key kind] keys IH]; intros m H; cbn in H.
  - simplify_eq. pose proof (missing_le m' []). lia.
  - destruct (bucket_take _ now) as [b t] eqn:Ht. rewrite missing_cons.
    set (st := mkSourceState _ _ _) in H. pose proof (missing_insert m key st keys).
    pose proof (source_size_insert m key st). pose proof (missing_le m keys).
    destruct t; simplify_eq; [apply IH in H|..]; lia.
Qed.

Lemma debit_keys_active m keys now m' r key :
  debit_keys config m keys now = (m', r) -> active m' key = active m key.
Proof.
  revert m. induction keys as [|[k kind] keys IH]; intros m H; cbn in H; [by simplify_eq|].
  destruct (bucket_take _ now) as [b t] eqn:Ht.
  set (m1 := <[k := _]> m) in H.
  assert (active m1 key = active m key).
  { unfold m1. rewrite active_insert. cbn. case_decide; [subst|done].
    unfold active. by destruct (m !! key). }
  destruct t; simplify_eq; [|done..]. by rewrite (IH _ H).
Qed.

Lemma debit_keys_present m keys now m' u key kind :
  debit_keys config m keys now = (m', Granted u) -> (key, kind) ∈ keys -> is_Some (m' !! key).
Proof.
  assert (Hkeep : forall keys m m' r, debit_keys config m keys now = (m', r) ->
    is_Some (m !! key) -> is_Some (m' !! key)).
  { clear. induction keys as [|[k kd] keys IH]; intros m m' r H Hs; cbn in H; [by simplify_eq|].
    destruct (bucket_take _ now) as [b t]. set (m1 := <[k := _]> m) in H.
    assert (is_Some (m1 !! key)) by (unfold m1; destruct (decide (k = key)) as [->|];
      [by rewrite lookup_insert_eq|by rewrite lookup_insert_ne]).
    destruct t; simplify_eq; eauto. }
  revert m. induction keys as [|[k kd] keys IH]; intros m H Hin; [by apply not_elem_of_nil in Hin|].
  cbn in H. destruct (bucket_take _ now) as [b t]. destruct t; simplify_eq.
  apply elem_of_cons in Hin as [[= <- <-]|Hin]; [|by eauto].
  eapply Hkeep; [exact H|]. by rewrite lookup_insert_eq.
Qed.

(** [retain] forgets no entry that has connections. *)
Lemma retain_active now m key :
  (forall k, 0 <= active m k) ->
  active (filter (fun kv : SourceKey * SourceState => source_kept config now kv.2 = true) m) key
    = active m key.
Proof.
  intros Hpos. specialize (Hpos key). unfold active in *.
  destruct (m !! key) as [st|] eqn:Hm.
  - destruct (source_kept config now st) eqn:Hk.
    + by rewrite (map_lookup_filter_Some_2 _ _ _ _ Hm Hk).
    + rewrite map_lookup_filter_None_2; [|right; intros x Hx; cbn; congruence].
      unfold source_kept in Hk. bool_prop. lia.
  - rewrite map_lookup_filter_None_2; [done|by left].
Qed.

Lemma ensure_capacity_active m keys now m' r key :
  (forall k, 0 <= active m k) ->
  ensure_capacity config m keys now = (m', r) -> active m' key = active m key.
Proof.
  intros Hpos H. unfold ensure_capacity in H.
  repeat case_match; simplify_eq; try done; by apply retain_active.
Qed.

(** After the check, the keys fit; by as many as were already present may
    the sum be short, when [retain] ran. *)
Lemma ensure_capacity_size m keys now m' r :
  ensure_capacity config m keys now = (m', r) ->
  source_size m' <= source_size m /\
  (r = Ok tt -> source_size m' + missing m' keys <= max_source_states config + zlen keys).
Proof.
  intros H. unfold ensure_capacity in H. fold (missing m keys) in H.
  pose proof (missing_le m keys) as Hm.
  destruct (Z.leb_spec (source_size m + missing m keys) (max_source_states config)).
  - simplify_eq. split; [done|]. intros _. pose proof (zlen_nonneg keys). lia.
  - assert (Hle : source_size (filter (fun kv : SourceKey * SourceState =>
      source_kept config now kv.2 = true) m) <= source_size m).
    { unfold source_size. apply inj_le, map_size_filter. }
    destruct (Z.ltb_spec (max_source_states config) (source_size (filter (fun kv : SourceKey * SourceState =>
      source_kept config now kv.2 = true) m) + missing m keys)); simplify_eq.
    + split; [done|discriminate].
    + split; [done|]. intros _. match goal with |- _ + missing ?f _ <= _ =>
        pose proof (missing_le f keys) end. lia.
Qed.
End Accounting.

(** ** Invariant *)

Record tracker_inv (config : BrokerConfig) (st : TrackerState) : Prop := {
  ti_size : source_size (st_entries st) <= max_source_states config + 3;
  ti_active : forall key, active (st_entries st) key = occ (st_guards st) key;
  ti_limit : forall key, occ (st_guards st) key <= max_connections_per_endpoint config;
}.

Section Preservation.
Context (config : BrokerConfig).
Context (Hmax : 1 <= max_connections_per_endpoint config).
Context (Hstates : 0 <= max_source_states config).

Lemma zlen_source_keys s : zlen (source_keys s) <= 3.
Proof. unfold source_keys. destruct (direct_ip s); done. Qed.

Lemma debit_inv st keys now m1 m2 r :
  tracker_inv config st -> zlen keys <= 3 ->
  ensure_capacity config (st_entries st) keys now = (m1, Ok tt) ->
  debit_keys config m1 keys now = (m2, r) ->
  tracker_inv config (mkTracker m2 (st_guards st)).
Proof.
  intros [Hsize Hact Hlim] Hk Hcap Hdeb.
  assert (Hpos : forall k, 0 <= active (st_entries st) k)
    by (intros k; rewrite Hact; apply occ_nonneg).
  split; cbn; [| |done].
  - apply debit_keys_size in Hdeb. apply ensure_capacity_size in Hcap as [_ Hcap].
    specialize (Hcap eq_refl). lia.
  - intros key. rewrite (debit_keys_active _ _ _ _ _ _ _ Hdeb).
    by rewrite (ensure_capacity_active _ _ _ _ _ _ _ Hpos Hcap).
Qed.

Lemma capacity_inv st keys now m1 r :
  tracker_inv config st -> ensure_capacity config (st_entries st) keys now = (m1, r) ->
  tracker_inv config (mkTracker m1 (st_guards st)).
Proof.
  intros [Hsize Hact Hlim] Hcap.
  assert (Hpos : forall k, 0 <= active (st_entries st) k)
    by (intros k; rewrite Hact; apply occ_nonneg).
  split; cbn; [| |done].
  - apply ensure_capacity_size in Hcap as [Hle _]. lia.
  - intros key. by rewrite (ensure_capacity_active _ _ _ _ _ _ _ Hpos Hcap).
Qed.

(** The new connection of an admitted endpoint. *)
Lemma connect_inv st key src :
  tracker_inv config st -> st_entries st !! key = Some src ->
  active (st_entries st) key < max_connections_per_endpoint config ->
  tracker_inv config (mkTracker
    (<[key := mkSourceState (bucket src) (src_active_connections src + 1) (last_seen src)]>
      (st_entries st)) (key :: st_guards st)).
Proof.
  intros [Hsize Hact Hlim] Hsrc Hlt. split; cbn.
  - rewrite source_size_insert, Hsrc. lia.
  - intros k. rewrite active_insert, occ_cons, <- Hact. cbn. case_decide; [subst|lia].
    unfold active. rewrite Hsrc. lia.
  - intros k. rewrite occ_cons. specialize (Hlim k). case_decide; [subst|lia].
    rewrite <- Hact. lia.
Qed.

Lemma admit_inv st s now m r :
  tracker_inv config st -> admit_source config (st_entries st) s now = (m, r) ->
  tracker_inv config
    (mkTracker m (match r with Granted key => key :: st_guards st | _ => st_guards st end)).
Proof.
  intros Hinv H. unfold admit_source in H.
  destruct (ensure_capacity _ _ _ _) as [m1 [[]|e]] eqn:Hcap;
    [|simplify_eq; by eapply capacity_inv].
  pose proof (capacity_inv _ _ _ _ _ Hinv Hcap) as Hinv1.
  destruct (match m1 !! _ with Some _ => _ | None => _ end) eqn:Hfull; [by simplify_eq|].
  destruct (debit_keys _ _ _ _) as [m2 [u|e|]] eqn:Hdeb; simplify_eq;
    pose proof (debit_inv _ _ _ _ _ _ Hinv (zlen_source_keys s) Hcap Hdeb) as Hinv2; [|done..].
  destruct (debit_keys_present config m1 _ now m2 u (KeyEndpoint (endpoint_id s)) KindEndpoint Hdeb)
    as [src Hsrc]; [unfold source_keys; by left|]. rewrite Hsrc in H. simplify_eq.
  apply (connect_inv (mkTracker m2 (st_guards st))); [done|done|]. cbn.
  rewrite (debit_keys_active _ _ _ _ _ _ _ Hdeb). unfold active.
  destruct (m1 !! KeyEndpoint (endpoint_id s)); bool_prop; lia.
Qed.

Lemma drop_inv st before key after :
  tracker_inv config st -> st_guards st = before ++ key :: after ->
  tracker_inv config (mkTracker (drop_source_guard (st_entries st) key) (before ++ after)).
Proof.
  intros [Hsize Hact Hlim] Hg.
  assert (Hlive : forall k, occ (st_guards st) k
    = occ (before ++ after) k + (if decide (key = k) then 1 else 0)).
  { intros k. rewrite Hg. apply occ_middle. }
  unfold drop_source_guard. pose proof (Hact key) as Hkey. rewrite Hlive in Hkey.
  rewrite decide_True in Hkey by done. pose proof (occ_nonneg (before ++ after) key).
  unfold active in Hkey. destruct (st_entries st !! key) as [src|] eqn:Hsrc; [|lia].
  split; cbn.
  - rewrite source_size_insert, Hsrc. lia.
  - intros k. rewrite active_insert. cbn. specialize (Hact k). rewrite Hlive in Hact.
    case_decide; [subst k|lia]. unfold saturating_sub. lia.
  - intros k. specialize (Hlim k). rewrite Hlive in Hlim. case_decide; lia.
Qed.

Lemma source_reachable_inv st : source_reachable config st -> tracker_inv config st.
Proof.
  intros Hr. pattern st. revert st Hr. apply rtc_ind_r.
  - split; [unfold source_size; cbn; rewrite map_size_empty; lia|done|].
    intros key. change (occ _ key) with 0. lia.
  - intros x y _ Hyz Hinv. destruct Hyz as [? s now m r H|? ip now m r H|? before key after H].
    + by eapply admit_inv.
    + unfold observe_direct in H. destruct (ensure_capacity _ _ _ _) as [m1 [[]|e]] eqn:Hcap.
      * by apply (debit_inv st (direct_keys ip) now m1 m r).
      * simplify_eq. by eapply capacity_inv.
    + by apply drop_inv.
Qed.
End Preservation.

(** The source tracker never loses count: in every state reachable under a
    valid configuration, the connections recorded for each source are exactly
    the guards that are alive (so no release is lost when stale sources are
    dropped), they never exceed the per-endpoint limit, and the map holds at
    most three entries more than [max_source_states]. *)
Theorem source_accounting (config : BrokerConfig) (st : TrackerState) :
  config_validate config = Ok tt -> wf_config config = true ->
  source_reachable config st ->
  (forall key, active (st_entries st) key = occ (st_guards st) key /\
               occ (st_guards st) key <= max_connections_per_endpoint config) /\
  source_size (st_entries st) <= max_source_states config + 3.
Proof.
  intros Hv Hwf Hr. destruct (config_validate_bounds config Hv Hwf) as (He & _ & Hs & _).
  destruct (source_reachable_inv config He ltac:(lia) st Hr) as [Hsize Hact Hlim].
  split; [by intros key|done].
Qed.

(** ** The limit can be passed *)

Definition with_source_states (n : Z) (c : BrokerConfig) : BrokerConfig :=
  mkConfig (room_ttl c) (room_tombstone_ttl c) (room_attempt_limit c) (room_attempt_rate c)
    (endpoint_join_rate c) (ip_join_rate c) (subnet_join_rate c) (max_connections c)
    (max_connections_per_endpoint c) (max_connections_per_room c) (max_room_states c)
    (max_waiting_creators c) n (source_state_ttl c) (handshake_timeout c) (join_timeout c)
    (relay_ttl c) (relay_idle_timeout c) (slow_frame_timeout c) (close_grace c)
    (max_frame_body c) (max_retry_after c) (unavailable_retry_after c).

Definition after_admit (c : BrokerConfig) (s : PeerSource) (now : Instant) (st : TrackerState)
    : TrackerState :=
  let '(m, r) := admit_source c (st_entries st) s now in
  mkTracker m (match r with Granted key => key :: st_guards st | _ => st_guards st end).

Definition after_drop (st : TrackerState) : TrackerState :=
  match st_guards st with
  | key :: after => mkTracker (drop_source_guard (st_entries st) key) after
  | [] => st
  end.

Lemma reach_admit c s now st : source_reachable c st -> source_reachable c (after_admit c s now st).
Proof.
  intros Hr. eapply rtc_r; [exact Hr|]. unfold after_admit.
  destruct (admit_source c (st_entries st) s now) as [m r] eqn:H. by econstructor.
Qed.

Lemma reach_drop c st : source_reachable c st -> source_reachable c (after_drop st).
Proof.
  intros Hr. unfold after_drop. destruct (st_guards st) as [|key after] eqn:H; [done|].
  eapply rtc_r; [exact Hr|]. by apply (step_drop c st [] key after).
Qed.

(** Endpoint A stays connected, B and C come and go, and after the source TTL B
    returns with a direct address. *)
Definition overflow_trace : TrackerState :=
  let c := with_source_states 3 default_config in
  let source i := mkSource (replicate 32 (byte_of i)) None in
  let later := from_secs 700 in
  after_admit c (mkSource (replicate 32 (byte_of 2)) (Some (V4 (map byte_of [10; 0; 0; 1])))) later
    (after_drop (after_admit c (source 3) 0
      (after_drop (after_admit c (source 2) 0 (after_admit c (source 1) 0 tracker_init))))).

(** C37. [max_source_states] is not an upper bound: [ensure_capacity] counts the
    missing keys before [retain] may drop one of the present ones, so a valid
    configuration with a limit of 3 reaches a state with 4 entries. *)
Theorem source_limit_exceeded :
  exists config st, config_validate config = Ok tt /\ wf_config config = true /\
    source_reachable config st /\ source_size (st_entries st) = max_source_states config + 1.
Proof.
  exists (with_source_states 3 default_config), overflow_trace.
  split; [vm_compute; reflexivity|]. split; [vm_compute; reflexivity|]. split.
  - unfold overflow_trace. cbv zeta.
    apply reach_admit, reach_drop, reach_admit, reach_drop, reach_admit, reach_admit, rtc_refl.
  - vm_compute. reflexivity.
Qed.
