(* ===== verification/Rooms.v ===== *)
(** The Room registry of the broker (crates/envoix-rendezvous/src/broker.rs,
    [RoomRegistry], [RoomState], [RoomSlotGuard], [BrokerMetrics]).  Each
    definition is one critical section: what a task does to the shared state
    while it holds the registry mutex, with the time it read and, where a
    oneshot channel is involved, whether its receiver still exists. *)

From stdpp Require Import prelude gmap.
From Stdlib Require Import ZArith Lia Strings.Byte.
From S2P Require Import Prelude Bytes BrokerConfig TokenBucket Sources.

Local Open Scope Z_scope.

(** ** Data *)

(** The fields of [BrokerMetrics]. *)
Inductive Counter :=
| Matches | ExhaustedRooms | ExpiredRooms | RoomNotFoundRejections | RoomFullRejections
| RoomRateLimitRejections | EndpointRateLimitRejections | IpRateLimitRejections
| ServerBusyRejections | Timeouts | MalformedJoins | UnsupportedVersions | OversizedFrames.

#[export] Instance Counter_eq_dec : EqDecision Counter.
Proof. solve_decision. Defined.

Definition BrokerMetrics : Type := Counter -> Z.
Definition metrics_zero : BrokerMetrics := fun _ => 0.

(** [counter.fetch_add(n, Ordering::Relaxed)] on an [AtomicU64]. *)
Definition metrics_add (m : BrokerMetrics) (c : Counter) (n : Z) : BrokerMetrics :=
  fun c' => if decide (c = c') then wrapping_add u64_max (m c') n else m c'.

(** [BrokerMetrics::rejection] *)
Definition metrics_rejection (m : BrokerMetrics) (o : BrokerOutcome) : BrokerMetrics :=
  match o with
  | RoomNotFound => metrics_add m RoomNotFoundRejections 1
  | RoomFull => metrics_add m RoomFullRejections 1
  | RoomRateLimited => metrics_add m RoomRateLimitRejections 1
  | EndpointRateLimited => metrics_add m EndpointRateLimitRejections 1
  | IpRateLimited => metrics_add m IpRateLimitRejections 1
  | ServerBusy => metrics_add m ServerBusyRejections 1
  | _ => m
  end.

(** The sending half of the oneshot channel is known by the waiter's id. *)
Record Waiter := mkWaiter { waiter_id : Z; waiter_join : Join }.

Inductive RoomStatus :=
| Live
| Expired (purge_at : Instant)
| Exhausted (purge_at : Instant).

Record RoomState := mkRoomState {
  instance : Z;
  expires_at : Instant;
  attempts : Z;
  consumed : bool;
  attempt_rate : TokenBucket;
  active_connections : Z;
  waiter : option Waiter;
  status : RoomStatus;
  short_code : bool;
}.

Definition is_live (s : RoomStatus) : bool := match s with Live => true | _ => false end.

(** A [RoomSlotGuard]: the room it counts in, and that room's instance. *)
Abbreviation RoomSlotGuard := (str * Z)%type.

Record Registry := mkRegistry {
  rooms : gmap str RoomState;
  next_id : Z;
  metrics : BrokerMetrics;
}.

Definition set_waiter (w : option Waiter) (r : RoomState) : RoomState :=
  mkRoomState (instance r) (expires_at r) (attempts r) (consumed r) (attempt_rate r)
    (active_connections r) w (status r) (short_code r).
Definition set_status (s : RoomStatus) (r : RoomState) : RoomState :=
  mkRoomState (instance r) (expires_at r) (attempts r) (consumed r) (attempt_rate r)
    (active_connections r) (waiter r) s (short_code r).
Definition set_active (n : Z) (r : RoomState) : RoomState :=
  mkRoomState (instance r) (expires_at r) (attempts r) (consumed r) (attempt_rate r)
    n (waiter r) (status r) (short_code r).
Definition set_rate (b : TokenBucket) (r : RoomState) : RoomState :=
  mkRoomState (instance r) (expires_at r) (attempts r) (consumed r) b
    (active_connections r) (waiter r) (status r) (short_code r).
Definition set_attempts (n : Z) (c : bool) (r : RoomState) : RoomState :=
  mkRoomState (instance r) (expires_at r) n c (attempt_rate r)
    (active_connections r) (waiter r) (status r) (short_code r).

(** ** Operations *)

Section Registry.
Context (config : BrokerConfig).

(** [RoomRegistry::with_config] on a valid configuration. *)
Definition registry_new : Registry := mkRegistry ∅ 0 metrics_zero.

Definition rejection (o : BrokerOutcome) (retry : option Duration) : BrokerRejection :=
  mkRejection o (d ← retry; bounded_retry_after d (max_retry_after config)).

(** The accounting of [reject]. *)
Definition reject (reg : Registry) (r : BrokerRejection) : Registry :=
  mkRegistry (rooms reg) (next_id reg) (metrics_rejection (metrics reg) (outcome r)).

(** *** Sweeping *)

Definition room_lapsed (now : Instant) (r : RoomState) : bool :=
  is_live (status r) && negb (consumed r) && (expires_at r <=? now).

Definition sweep_room (now : Instant) (r : RoomState) : RoomState :=
  if room_lapsed now r
  then set_status (Expired (now + room_tombstone_ttl config)) (set_waiter None r)
  else r.

(** What [retain] keeps. *)
Definition room_kept (now : Instant) (r : RoomState) : bool :=
  match status r with
  | Live => true
  | Expired purge_at | Exhausted purge_at => (0 <? active_connections r) || (now <? purge_at)
  end.

Definition sweep_rooms (reg : Registry) (now : Instant) : Registry :=
  let lapsed := filter (fun kv : str * RoomState => room_lapsed now kv.2 = true) (rooms reg) in
  mkRegistry
    (filter (fun kv : str * RoomState => room_kept now kv.2 = true) (sweep_room now <$> rooms reg))
    (next_id reg)
    (metrics_add (metrics reg) ExpiredRooms (Z.of_nat (size lapsed))).

(** *** Creators *)

Inductive CreatorDecision :=
| Parked (wid : Z) (expiry : Instant) (guard : RoomSlotGuard)
| CreatorRejected (r : BrokerRejection).

Definition waiting_creators (m : gmap str RoomState) : Z :=
  Z.of_nat (size (filter (fun kv : str * RoomState => is_Some (waiter kv.2)) m)).

Definition fetch_id (reg : Registry) : Z * Registry :=
  (next_id reg, mkRegistry (rooms reg) (wrapping_add u64_max (next_id reg) 1) (metrics reg)).

(** [park_creator], for a room known to exist. *)
Definition park_creator (reg : Registry) (rid : str) (room : RoomState) (join : Join)
    : Registry * CreatorDecision :=
  let '(wid, reg1) := fetch_id reg in
  let room' := set_active (active_connections room + 1)
                 (set_waiter (Some (mkWaiter wid join)) room) in
  (mkRegistry (<[rid := room']> (rooms reg1)) (next_id reg1) (metrics reg1),
   Parked wid (expires_at room) (rid, instance room)).

Definition new_room (id : Z) (rid : str) (now : Instant) : RoomState :=
  mkRoomState id (now + room_ttl config) 0 false (bucket_new (room_attempt_rate config) now)
    0 None Live (negb (is_remembered_room_id rid)).

(** Why an existing room takes no creator. *)
Definition creator_refusal (room : RoomState) : option BrokerOutcome :=
  match status room with
  | Expired _ => Some RoomExpired
  | Exhausted _ => Some RoomUnderAttack
  | Live =>
    if consumed room then Some RoomFull
    else if bool_decide (is_Some (waiter room))
            || (max_connections_per_room config <=? active_connections room)
    then Some RoomFull
    else None
  end.

(** [matches!(outcome, RoomFull).then_some(unavailable_retry_after)] *)
Definition full_retry (o : BrokerOutcome) : option Duration :=
  match o with RoomFull => Some (unavailable_retry_after config) | _ => None end.

Definition decide_creator (reg : Registry) (join : Join) (now : Instant)
    : Registry * CreatorDecision :=
  let reg := sweep_rooms reg now in
  let rid := room_id join in
  match rooms reg !! rid with
  | None =>
    if (max_room_states config <=? Z.of_nat (size (rooms reg)))
       || (max_waiting_creators config <=? waiting_creators (rooms reg))
    then (reg, CreatorRejected (rejection ServerBusy (Some (unavailable_retry_after config))))
    else
      let '(id, reg) := fetch_id reg in
      let room := new_room id rid now in
      park_creator (mkRegistry (<[rid := room]> (rooms reg)) (next_id reg) (metrics reg))
        rid room join
  | Some room =>
    match creator_refusal room with
    | Some o => (reg, CreatorRejected (rejection o (full_retry o)))
    | None => park_creator reg rid room join
    end
  end.

Definition serve_creator (reg : Registry) (join : Join) (now : Instant)
    : Registry * CreatorDecision :=
  match decide_creator reg join now with
  | (reg, CreatorRejected r) => (reject reg r, CreatorRejected r)
  | d => d
  end.

(** *** Joiners *)

(** A joiner is matched (its connection, with its guard, handed to the
    creator), or rejected; when the handoff itself failed it still holds the
    guard it took.  [JoinerPanicked]: [Duration::from_secs_f64] panicked. *)
Inductive JoinerDecision :=
| Matched (wid : Z) (guard : RoomSlotGuard)
| JoinerRejected (r : BrokerRejection) (guard : option RoomSlotGuard)
| JoinerPanicked.

Definition exhaust_room (m : BrokerMetrics) (room : RoomState) (now : Instant)
    : BrokerMetrics * RoomState :=
  if is_live (status room)
  then (metrics_add m ExhaustedRooms 1,
        set_status (Exhausted (now + room_tombstone_ttl config)) room)
  else (m, room).

(** [handoff_joiner]; [open] says whether the waiter's receiver still exists,
    that is, whether [ready.send(..)] succeeds. *)
Definition handoff_joiner (m : BrokerMetrics) (room : RoomState) (rid : str) (w : Waiter)
    (now : Instant) (open : bool) : BrokerMetrics * RoomState * JoinerDecision :=
  let room := set_active (active_connections room + 1) (set_waiter None room) in
  let guard := (rid, instance room) in
  if open then
    let room := set_attempts (attempts room + 1)
                  (if is_remembered_room_id rid then true else consumed room) room in
    let m := metrics_add m Matches 1 in
    let '(m, room) :=
      if short_code room && (room_attempt_limit config <=? attempts room)
      then exhaust_room m room now else (m, room) in
    (m, room, Matched (waiter_id w) guard)
  else
    (m, room, JoinerRejected
       (rejection RoomNotFound (Some (unavailable_retry_after config))) (Some guard)).

Definition joiner_refusal (room : RoomState) : option BrokerOutcome :=
  match status room with
  | Expired _ => Some RoomExpired
  | Exhausted _ => Some RoomUnderAttack
  | Live => if consumed room then Some RoomFull else None
  end.

(** The waiter the joiner is compatible with. *)
Definition compatible_waiter (room : RoomState) (join : Join) : option Waiter :=
  w ← waiter room;
  _ ← joins_match (waiter_join w) join;
  Some w.

(** The cases of [serve_joiner] on an existing room. *)
Definition join_room (m : BrokerMetrics) (room : RoomState) (join : Join) (now : Instant)
    (open : bool) : BrokerMetrics * RoomState * JoinerDecision :=
  let refuse o retry := (m, room, JoinerRejected (rejection o retry) None) in
  match joiner_refusal room with
  | Some o => refuse o (full_retry o)
  | None =>
    if short_code room && (room_attempt_limit config <=? attempts room) then
      let '(m, room) := exhaust_room m room now in
      (m, room, JoinerRejected (rejection RoomUnderAttack None) None)
    else if max_connections_per_room config <=? active_connections room then
      refuse RoomFull (Some (unavailable_retry_after config))
    else
      match compatible_waiter room join with
      | None => refuse RoomNotFound (Some (unavailable_retry_after config))
      | Some w =>
        if short_code room then
          let '(b, t) := bucket_take (attempt_rate room) now in
          let room := set_rate b room in
          match t with
          | Taken => handoff_joiner m room (room_id join) w now open
          | Denied retry =>
            (m, room, JoinerRejected (rejection RoomRateLimited (Some retry)) None)
          | TakePanicked => (m, room, JoinerPanicked)
          end
        else handoff_joiner m room (room_id join) w now open
      end
  end.

Definition decide_joiner (reg : Registry) (join : Join) (now : Instant) (open : bool)
    : Registry * JoinerDecision :=
  let reg := sweep_rooms reg now in
  match rooms reg !! room_id join with
  | Some room =>
    let '(m, room, d) := join_room (metrics reg) room join now open in
    (mkRegistry (<[room_id join := room]> (rooms reg)) (next_id reg) m, d)
  | None =>
    (reg, JoinerRejected (rejection RoomNotFound (Some (unavailable_retry_after config))) None)
  end.

Definition serve_joiner (reg : Registry) (join : Join) (now : Instant) (open : bool)
    : Registry * JoinerDecision :=
  match decide_joiner reg join now open with
  | (reg, JoinerRejected r g) => (reject reg r, JoinerRejected r g)
  | d => d
  end.

(** *** The end of a wait, and of a connection *)

Definition waits_as (room : RoomState) (wid : Z) : bool :=
  match waiter room with Some w => waiter_id w =? wid | None => false end.

Definition evict_waiter (reg : Registry) (rid : str) (wid : Z) : Registry :=
  match rooms reg !! rid with
  | Some room =>
    if waits_as room wid then
      let room := set_waiter None room in
      let release := is_remembered_room_id rid && is_live (status room)
                     && (active_connections room <=? 1) in
      mkRegistry (if release then delete rid (rooms reg) else <[rid := room]> (rooms reg))
        (next_id reg) (metrics reg)
    else reg
  | None => reg
  end.

Definition expire_room (reg : Registry) (rid : str) (wid : Z) (now : Instant) : Registry :=
  match rooms reg !! rid with
  | Some room =>
    if waits_as room wid && is_live (status room) then
      mkRegistry
        (<[rid := set_status (Expired (now + room_tombstone_ttl config)) (set_waiter None room)]>
          (rooms reg))
        (next_id reg) (metrics_add (metrics reg) ExpiredRooms 1)
    else reg
  | None => reg
  end.

Definition room_is_expired (reg : Registry) (rid : str) : bool :=
  match rooms reg !! rid with
  | Some room => match status room with Expired _ => true | _ => false end
  | None => false
  end.

(** [Drop for RoomSlotGuard] *)
Definition drop_room_guard (reg : Registry) (guard : RoomSlotGuard) : Registry :=
  let '(rid, inst) := guard in
  match rooms reg !! rid with
  | Some room =>
    if instance room =? inst then
      let room := set_active (saturating_sub (active_connections room) 1) room in
      let release := is_remembered_room_id rid && (active_connections room =? 0)
                     && bool_decide (waiter room = None) && is_live (status room) in
      mkRegistry (if release then delete rid (rooms reg) else <[rid := room]> (rooms reg))
        (next_id reg) (metrics reg)
    else reg
  | None => reg
  end.

(** [metrics_snapshot], the gauges over the rooms. *)
Record RoomGauges := mkGauges { g_active_rooms : Z; g_waiting : Z; g_room_connections : Z }.

Definition room_gauges (reg : Registry) (now : Instant) : Registry * RoomGauges :=
  let reg := sweep_rooms reg now in
  let live := filter (fun kv : str * RoomState => is_live (status kv.2) = true) (rooms reg) in
  (reg, mkGauges (Z.of_nat (size live)) (waiting_creators (rooms reg))
          (map_fold (fun _ room n => active_connections room + n) 0 (rooms reg))).
End Registry.
