(* ===== verification/RoomsInv.v ===== *)
(** The Room registry as a state machine: the tasks of the broker interleave
    their critical sections, guards live as long as connections do, and the
    matches made so far are recorded.  The invariant is proved by induction on
    the steps. *)

From stdpp Require Import prelude gmap.
From Stdlib Require Import ZArith Lia Strings.Byte.
From S2P Require Import Prelude Bytes BrokerConfig TokenBucket Sources Rooms.

Local Open Scope Z_scope.

(** ** Steps *)

(** The registry, the room guards alive, and every match made (a ghost). *)
Record BrokerState := mkBroker {
  registry : Registry;
  guards : list RoomSlotGuard;
  matches : list RoomSlotGuard;
}.

Definition broker_init : BrokerState := mkBroker registry_new [] [].

Inductive broker_step (config : BrokerConfig) : BrokerState -> BrokerState -> Prop :=
| step_creator st join now reg d :
    validate_join join = Ok tt -> invitation_side join = Creator ->
    serve_creator config (registry st) join now = (reg, d) ->
    broker_step config st (mkBroker reg
      (match d with Parked _ _ g => g :: guards st | _ => guards st end) (matches st))
| step_joiner st join now open reg d :
    validate_join join = Ok tt -> invitation_side join = Joiner ->
    serve_joiner config (registry st) join now open = (reg, d) ->
    broker_step config st (mkBroker reg
      (match d with
       | Matched _ g | JoinerRejected _ (Some g) => g :: guards st
       | _ => guards st
       end)
      (match d with Matched _ g => g :: matches st | _ => matches st end))
| step_evict st rid wid :
    broker_step config st (mkBroker (evict_waiter (registry st) rid wid) (guards st) (matches st))
| step_expire st rid wid now :
    broker_step config st
      (mkBroker (expire_room config (registry st) rid wid now) (guards st) (matches st))
| step_drop_guard st before g after :
    guards st = before ++ g :: after ->
    broker_step config st
      (mkBroker (drop_room_guard (registry st) g) (before ++ after) (matches st))
| step_snapshot st now :
    broker_step config st
      (mkBroker (room_gauges config (registry st) now).1 (guards st) (matches st)).

(** Reachable in [n] steps. *)
Definition broker_reachable (config : BrokerConfig) (n : nat) (st : BrokerState) : Prop :=
  nsteps (broker_step config) n broker_init st.

(** ** Invariant *)

(** How many matches one instance of a room may make. *)
Definition match_budget (config : BrokerConfig) (rid : str) : Z :=
  if is_remembered_room_id rid then 1 else room_attempt_limit config.

(** A creator's waiter: only in a live room that is still open. *)
Definition waiter_ok (next : Z) (rid : str) (room : RoomState) : Prop :=
  forall w, waiter room = Some w ->
    status room = Live /\ consumed room = false /\ 0 <= waiter_id w < next /\
    invitation_side (waiter_join w) = Creator /\ room_id (waiter_join w) = rid /\
    validate_join (waiter_join w) = Ok tt.

Record room_ok (config : BrokerConfig) (gs ms : list RoomSlotGuard) (next : Z)
    (rid : str) (room : RoomState) : Prop := {
  ro_instance : 0 <= instance room < next;
  ro_active : active_connections room = occ gs (rid, instance room);
  ro_limit : active_connections room <= max_connections_per_room config;
  ro_short : short_code room = negb (is_remembered_room_id rid);
  ro_attempts : attempts room = occ ms (rid, instance room);
  ro_budget : attempts room <= match_budget config rid;
  ro_open : status room = Live -> consumed room = false ->
    attempts room < match_budget config rid;
  ro_consumed : consumed room = true -> is_remembered_room_id rid = true;
  ro_waiter : waiter_ok next rid room;
}.

Definition issued (next : Z) (g : RoomSlotGuard) : Prop := 0 <= g.2 < next.

Record broker_inv (config : BrokerConfig) (st : BrokerState) : Prop := {
  bi_rooms : map_Forall (room_ok config (guards st) (matches st) (next_id (registry st)))
    (rooms (registry st));
  bi_size : Z.of_nat (size (rooms (registry st))) <= max_room_states config;
  bi_next : 0 <= next_id (registry st);
  bi_guards : Forall (issued (next_id (registry st))) (guards st);
  bi_matches : Forall (issued (next_id (registry st))) (matches st);
  bi_history : forall g, occ (matches st) g <= match_budget config g.1;
}.

Section Invariant.
Context (config : BrokerConfig).
Context (Hroom : 2 <= max_connections_per_room config).
Context (Hlimit : 1 <= room_attempt_limit config <= u32_max).

Lemma match_budget_pos rid : 1 <= match_budget config rid.
Proof. unfold match_budget. destruct (is_remembered_room_id rid); lia. Qed.

Lemma waiter_ok_mono next next' rid room :
  next <= next' -> waiter_ok next rid room -> waiter_ok next' rid room.
Proof. intros Hn Hw w Hs. destruct (Hw w Hs) as (? & ? & ? & ? & ? & ?). repeat split; (done || lia). Qed.

Lemma waiter_ok_none next rid room : waiter room = None -> waiter_ok next rid room.
Proof. intros Hn w Hs. congruence. Qed.

Lemma issued_mono next next' gs : next <= next' -> Forall (issued next) gs -> Forall (issued next') gs.
Proof. intros Hn Hf. eapply Forall_impl; [exact Hf|]. unfold issued. lia. Qed.

(** A room is not affected by what happens in other rooms. *)
Lemma room_ok_frame gs ms gs' ms' next next' rid room :
  next <= next' ->
  occ gs' (rid, instance room) = occ gs (rid, instance room) ->
  occ ms' (rid, instance room) = occ ms (rid, instance room) ->
  room_ok config gs ms next rid room -> room_ok config gs' ms' next' rid room.
Proof.
  intros Hn Hg Hm []. split; try done; try lia; try (etrans; [eassumption|symmetry; eassumption]).
  by eapply waiter_ok_mono.
Qed.

(** One room written, the others framed. *)
Lemma inv_insert st rid room gs ms next mt :
  broker_inv config st -> next_id (registry st) <= next ->
  (forall g, g.1 <> rid -> occ gs g = occ (guards st) g /\ occ ms g = occ (matches st) g) ->
  Forall (issued next) gs -> Forall (issued next) ms ->
  (forall i, occ ms (rid, i) <= match_budget config rid) ->
  (rooms (registry st) !! rid = None ->
    Z.of_nat (size (rooms (registry st))) + 1 <= max_room_states config) ->
  room_ok config gs ms next rid room ->
  broker_inv config (mkBroker (mkRegistry (<[rid := room]> (rooms (registry st))) next mt) gs ms).
Proof.
  intros Hinv Hnext Hframe Hgs Hms Hhist Hsize Hok. destruct Hinv. split; cbn; try done.
  - intros k r. destruct (decide (rid = k)) as [<-|Hne].
    + rewrite lookup_insert_eq. by intros [= <-].
    + rewrite lookup_insert_ne by done. intros Hk. apply bi_rooms0 in Hk.
      destruct (Hframe (k, instance r)) as [Hg Hm]; [cbn; congruence|].
      by eapply room_ok_frame.
  - destruct (rooms (registry st) !! rid) eqn:Hrid.
    + rewrite map_size_insert_Some by eauto. done.
    + rewrite map_size_insert_None by done. specialize (Hsize eq_refl). lia.
  - lia.
  - intros [k i]. destruct (decide (k = rid)) as [->|Hne]; [apply Hhist|].
    destruct (Hframe (k, i)) as [_ ->]; done.
Qed.

(** One room removed. *)
Lemma inv_delete st rid gs mt :
  broker_inv config st ->
  (forall g, g.1 <> rid -> occ gs g = occ (guards st) g) ->
  Forall (issued (next_id (registry st))) gs ->
  broker_inv config (mkBroker
    (mkRegistry (delete rid (rooms (registry st))) (next_id (registry st)) mt) gs (matches st)).
Proof.
  intros Hinv Hframe Hgs. destruct Hinv. split; cbn; try done.
  - intros k r. rewrite lookup_delete_Some. intros [Hne Hk]. apply bi_rooms0 in Hk.
    eapply room_ok_frame; [apply Z.le_refl| |done|done]. apply Hframe. cbn. congruence.
  - etrans; [|exact bi_size0]. apply inj_le, map_subseteq_size, delete_subseteq.
Qed.

(** Metrics do not matter. *)
Lemma inv_metrics reg gs ms mt :
  broker_inv config (mkBroker reg gs ms) ->
  broker_inv config (mkBroker (mkRegistry (rooms reg) (next_id reg) mt) gs ms).
Proof. intros []. by split. Qed.

(** A room rewritten without touching its identity or its counts. *)
Lemma inv_rewrite st rid room room' mt :
  broker_inv config st -> rooms (registry st) !! rid = Some room ->
  (room_ok config (guards st) (matches st) (next_id (registry st)) rid room ->
   room_ok config (guards st) (matches st) (next_id (registry st)) rid room') ->
  broker_inv config (mkBroker
    (mkRegistry (<[rid := room']> (rooms (registry st))) (next_id (registry st)) mt)
    (guards st) (matches st)).
Proof.
  intros Hinv Hrid Hok. pose proof Hinv as []. apply inv_insert; try done; try lia.
  - by rewrite Hrid.
  - apply Hok. by apply bi_rooms0.
Qed.

(** *** Sweeping *)

Lemma room_ok_expire gs ms next rid room t :
  room_ok config gs ms next rid room ->
  room_ok config gs ms next rid (set_status (Expired t) (set_waiter None room)).
Proof. intros []. split; cbn; solve [done|by apply waiter_ok_none]. Qed.

Lemma sweep_inv st now :
  broker_inv config st ->
  broker_inv config (mkBroker (sweep_rooms config (registry st) now) (guards st) (matches st)).
Proof.
  intros []. split; cbn; try done.
  - intros rid room. rewrite map_lookup_filter_Some, lookup_fmap_Some.
    intros [(r & <- & Hr%bi_rooms0) _]. unfold sweep_room.
    destruct (room_lapsed now r); [|done]. by apply room_ok_expire.
  - etrans; [|exact bi_size0]. apply inj_le. etrans; [apply map_size_filter|].
    by rewrite map_size_fmap.
Qed.

(** *** Ends of waits and of connections *)

Lemma room_ok_unwait gs ms next rid room :
  room_ok config gs ms next rid room -> room_ok config gs ms next rid (set_waiter None room).
Proof. intros []. split; cbn; solve [done|by apply waiter_ok_none]. Qed.

Lemma evict_inv st rid wid :
  broker_inv config st ->
  broker_inv config (mkBroker (evict_waiter (registry st) rid wid) (guards st) (matches st)).
Proof.
  intros Hinv. unfold evict_waiter. destruct st as [reg gs ms]; cbn in *.
  destruct (rooms reg !! rid) as [room|] eqn:Hrid; [|done].
  destruct (waits_as room wid); [|done].
  match goal with |- context [if ?b then delete _ _ else _] => destruct b end.
  - apply (inv_delete (mkBroker reg gs ms)); [done|done|apply Hinv].
  - apply (inv_rewrite (mkBroker reg gs ms) rid room); [done|done|apply room_ok_unwait].
Qed.

Lemma expire_inv st rid wid now :
  broker_inv config st ->
  broker_inv config (mkBroker (expire_room config (registry st) rid wid now) (guards st) (matches st)).
Proof.
  intros Hinv. unfold expire_room. destruct st as [reg gs ms]; cbn in *.
  destruct (rooms reg !! rid) as [room|] eqn:Hrid; [|done].
  destruct (_ && _); [|done].
  apply (inv_rewrite (mkBroker reg gs ms) rid room); [done|done|apply room_ok_expire].
Qed.

Lemma drop_guard_inv st before g after :
  broker_inv config st -> guards st = before ++ g :: after ->
  broker_inv config (mkBroker (drop_room_guard (registry st) g) (before ++ after) (matches st)).
Proof.
  intros Hinv Hg. destruct st as [reg gs ms], g as [rid inst]. cbn in *. subst gs.
  assert (Hgs : Forall (issued (next_id reg)) (before ++ after)).
  { pose proof (bi_guards _ _ Hinv) as Hall. cbn in Hall.
    apply Forall_app in Hall as [H1 H2]. apply Forall_cons in H2 as [_ H2]. by apply Forall_app. }
  assert (Hframe : forall k, k <> (rid, inst) ->
    occ (before ++ after) k = occ (before ++ (rid, inst) :: after) k).
  { intros k Hk. rewrite occ_middle, decide_False by congruence. lia. }
  assert (Hother : forall k, k.1 <> rid ->
    occ (before ++ after) k = occ (before ++ (rid, inst) :: after) k).
  { intros k Hk. apply Hframe. intros ->. done. }
  pose proof (bi_rooms _ _ Hinv) as Hrooms. cbn in Hrooms.
  (* the guard's room is gone or is another instance *)
  assert (Hgone : (forall r, rooms reg !! rid = Some r -> instance r <> inst) ->
    broker_inv config (mkBroker reg (before ++ after) ms)).
  { intros Hno. destruct Hinv. split; cbn in *; try done.
    intros k r Hr. eapply room_ok_frame; [apply Z.le_refl| |done|by apply Hrooms].
    apply Hframe. intros [= <- <-]. by eapply Hno. }
  unfold drop_room_guard. destruct (rooms reg !! rid) as [room|] eqn:Hrid; [|by apply Hgone].
  destruct (Z.eqb_spec (instance room) inst) as [Heq|]; [|apply Hgone; congruence].
  match goal with |- context [if ?b then delete _ _ else _] => destruct b end.
  - by apply (inv_delete (mkBroker reg (before ++ (rid, inst) :: after) ms)).
  - apply (inv_insert (mkBroker reg (before ++ (rid, inst) :: after) ms)); cbn; try done; try lia.
    + intros k Hk. split; [by apply Hother|done].
    + apply Hinv.
    + intros i. apply (bi_history _ _ Hinv (rid, i)).
    + by rewrite Hrid.
    + destruct (Hrooms _ _ Hrid). split; cbn; try done.
      * rewrite ro_active0, occ_middle, Heq, decide_True by done. unfold saturating_sub.
        pose proof (occ_nonneg (before ++ after) (rid, inst)). lia.
      * unfold saturating_sub. pose proof (occ_nonneg (before ++ (rid, inst) :: after) (rid, instance room)).
        lia.
Qed.

(** *** Creators *)

Lemma fetch_id_next reg :
  0 <= next_id reg -> next_id reg + 1 <= u64_max ->
  next_id (fetch_id reg).2 = next_id reg + 1.
Proof.
  intros. cbn. unfold wrapping_add. rewrite Z.mod_small; [done|]. unfold u64_max in *. lia.
Qed.

Lemma issued_absent next gs rid : Forall (issued next) gs -> occ gs (rid, next) = 0.
Proof.
  intros Hall. apply occ_absent. intros Hin. rewrite Forall_forall in Hall.
  apply Hall in Hin. unfold issued in Hin. cbn in Hin. lia.
Qed.

Lemma park_inv st rid room join reg d :
  broker_inv config st -> rooms (registry st) !! rid = Some room ->
  status room = Live -> consumed room = false ->
  active_connections room + 1 <= max_connections_per_room config ->
  validate_join join = Ok tt -> invitation_side join = Creator -> room_id join = rid ->
  next_id (registry st) + 1 <= u64_max ->
  park_creator (registry st) rid room join = (reg, d) ->
  exists wid, d = Parked wid (expires_at room) (rid, instance room) /\
    next_id reg = next_id (registry st) + 1 /\
    broker_inv config (mkBroker reg ((rid, instance room) :: guards st) (matches st)).
Proof.
  intros Hinv Hrid Hlive Hcons Hact Hval Hside Hjoin Hnext H. unfold park_creator in H.
  pose proof (fetch_id_next (registry st) (bi_next _ _ Hinv) Hnext) as Hn.
  destruct (fetch_id (registry st)) as [wid reg1] eqn:Hf. cbn [snd] in Hn.
  unfold fetch_id in Hf. simplify_eq. cbn in Hn. eexists. split; [done|]. cbn.
  split; [done|]. rewrite Hn. pose proof (bi_rooms _ _ Hinv _ _ Hrid) as Hok.
  pose proof (ro_instance _ _ _ _ _ _ Hok) as Hi.
  apply inv_insert; try done; try lia.
  - intros k Hk. rewrite occ_cons, decide_False by (intros <-; done). done.
  - constructor; [unfold issued; cbn; lia|]. eapply issued_mono; [|apply Hinv]. lia.
  - eapply issued_mono; [|apply Hinv]. lia.
  - intros i. apply (bi_history _ _ Hinv (room_id join, i)).
  - by rewrite Hrid.
  - destruct Hok. split; cbn; try done; try lia.
    + rewrite occ_cons, decide_True by done. lia.
    + intros w [= <-]. cbn. pose proof (bi_next _ _ Hinv). repeat split; (done || lia).
Qed.

Lemma new_room_inv st rid now mt :
  broker_inv config st -> rooms (registry st) !! rid = None ->
  Z.of_nat (size (rooms (registry st))) + 1 <= max_room_states config ->
  broker_inv config (mkBroker
    (mkRegistry (<[rid := new_room config (next_id (registry st)) rid now]> (rooms (registry st)))
      (next_id (registry st) + 1) mt) (guards st) (matches st)).
Proof.
  intros Hinv Hrid Hsize. pose proof (bi_next _ _ Hinv) as Hnext.
  pose proof (match_budget_pos rid) as Hbud.
  apply inv_insert; try done; try lia.
  - eapply issued_mono; [|apply Hinv]. lia.
  - eapply issued_mono; [|apply Hinv]. lia.
  - intros i. apply (bi_history _ _ Hinv (rid, i)).
  - split; cbn; try done; try lia.
    + symmetry. apply issued_absent, Hinv.
    + symmetry. apply issued_absent, Hinv.
Qed.

Lemma creator_refusal_none room :
  creator_refusal config room = None ->
  status room = Live /\ consumed room = false /\ waiter room = None /\
  active_connections room + 1 <= max_connections_per_room config.
Proof.
  unfold creator_refusal. destruct (status room); [|done..]. destruct (consumed room); [done|].
  destruct (_ || _) eqn:Hor; [done|]. bool_prop. intros _. repeat split; [|lia].
  by apply eq_None_not_Some.
Qed.

Lemma creator_inv st join now reg d :
  broker_inv config st -> validate_join join = Ok tt -> invitation_side join = Creator ->
  next_id (registry st) + 2 <= u64_max ->
  serve_creator config (registry st) join now = (reg, d) ->
  next_id reg <= next_id (registry st) + 2 /\
  broker_inv config (mkBroker reg
    (match d with Parked _ _ g => g :: guards st | _ => guards st end) (matches st)).
Proof.
  intros Hinv Hval Hside Hnext H. pose proof (sweep_inv st now Hinv) as Hswept.
  unfold serve_creator in H. destruct (decide_creator _ _ _ _) as [reg0 d0] eqn:Hdec.
  assert (Hcore : next_id reg0 <= next_id (registry st) + 2 /\ broker_inv config (mkBroker reg0
    (match d0 with Parked _ _ g => g :: guards st | _ => guards st end) (matches st))).
  { clear H. unfold decide_creator in Hdec.
    set (swept := sweep_rooms config (registry st) now) in *.
    assert (Hn : next_id swept = next_id (registry st)) by done. clearbody swept.
    destruct (rooms swept !! room_id join) as [room|] eqn:Hrid.
    - destruct (creator_refusal config room) as [o|] eqn:Href; [simplify_eq; split; [lia|done]|].
      apply creator_refusal_none in Href as (Hlive & Hcons & _ & Hact).
      destruct (park_inv (mkBroker swept (guards st) (matches st)) (room_id join) room join reg0 d0)
        as (wid & -> & Hn' & Hb); try done; cbn; [lia|]. split; [cbn in Hn'; lia|done].
    - destruct (_ || _) eqn:Hbusy; [simplify_eq; split; [lia|done]|]. bool_prop.
      pose proof (bi_next _ _ Hinv) as Hn0.
      pose proof (fetch_id_next swept ltac:(lia) ltac:(lia)) as Hf.
      destruct (fetch_id swept) as [id reg1] eqn:Hfetch. unfold fetch_id in Hfetch. simplify_eq.
      cbn [snd next_id rooms metrics] in *. rewrite Hf in Hdec.
      destruct (park_inv (mkBroker (mkRegistry
        (<[room_id join := new_room config (next_id swept) (room_id join) now]> (rooms swept))
        (next_id swept + 1) (metrics swept)) (guards st) (matches st)) (room_id join)
        (new_room config (next_id swept) (room_id join) now) join reg0 d0)
        as (wid & -> & Hn' & Hb); try done; cbn; try lia.
      + apply (new_room_inv (mkBroker swept (guards st) (matches st))); [done|done|cbn; lia].
      + by rewrite lookup_insert_eq.
      + split; [cbn in Hn'; lia|done]. }
  destruct d0; simplify_eq; [done|]. destruct Hcore as [Hn Hb]. split; [done|].
  by apply inv_metrics.
Qed.

(** *** Joiners *)

Lemma room_ok_rate gs ms next rid room b :
  room_ok config gs ms next rid room -> room_ok config gs ms next rid (set_rate b room).
Proof. by intros []. Qed.

(** The room a joiner was handed off in: closed when its budget is spent. *)
Lemma matched_room_ok gs ms next rid room c s :
  room_ok config gs ms next rid room -> status room = Live -> consumed room = false ->
  active_connections room + 1 <= max_connections_per_room config ->
  (c = true -> is_remembered_room_id rid = true) ->
  (s = Live -> c = false -> attempts room + 1 < match_budget config rid) ->
  room_ok config ((rid, instance room) :: gs) ((rid, instance room) :: ms) next rid
    (set_status s (set_attempts (attempts room + 1) c
      (set_active (active_connections room + 1) (set_waiter None room)))).
Proof.
  intros [] Hlive Hcons Hact Hc Hs. specialize (ro_open0 Hlive Hcons).
  split; cbn; try done; try lia; try by apply waiter_ok_none.
  - rewrite occ_cons, decide_True by done. lia.
  - rewrite occ_cons, decide_True by done. lia.
Qed.

Lemma handoff_room_ok gs ms next rid room w now mt mt' room' d :
  room_ok config gs ms next rid room -> status room = Live -> consumed room = false ->
  active_connections room + 1 <= max_connections_per_room config ->
  handoff_joiner config mt room rid w now true = (mt', room', d) ->
  d = Matched (waiter_id w) (rid, instance room) /\
  room_ok config ((rid, instance room) :: gs) ((rid, instance room) :: ms) next rid room'.
Proof.
  intros Hok Hlive Hcons Hact H. pose proof (ro_short _ _ _ _ _ _ Hok) as Hshort.
  unfold handoff_joiner, exhaust_room in H. cbn in H. rewrite Hlive, Hcons, Hshort in H.
  set (c := if is_remembered_room_id rid then true else false) in *.
  assert (Hc : c = true -> is_remembered_room_id rid = true)
    by (unfold c; by destruct (is_remembered_room_id rid)).
  assert (Hgen : forall s, (s = Live -> c = false -> attempts room + 1 < match_budget config rid) ->
    room_ok config ((rid, instance room) :: gs) ((rid, instance room) :: ms) next rid
      (mkRoomState (instance room) (expires_at room) (attempts room + 1) c (attempt_rate room)
        (active_connections room + 1) None s (short_code room)))
    by (intros s Hs; exact (matched_room_ok gs ms next rid room c s Hok Hlive Hcons Hact Hc Hs)).
  destruct (negb (is_remembered_room_id rid) && _) eqn:Hex; cbn in H; simplify_eq;
    (split; [done|]).
  - by apply Hgen.
  - unfold set_attempts, set_active, set_waiter. cbn. rewrite Hlive. apply Hgen. intros _ Hcf.
    unfold c, match_budget in *. destruct (is_remembered_room_id rid); [done|].
    cbn in Hex. bool_prop. lia.
Qed.

Lemma room_guards_issued st rid room :
  broker_inv config st -> room_ok config (guards st) (matches st) (next_id (registry st)) rid room ->
  Forall (issued (next_id (registry st))) ((rid, instance room) :: guards st) /\
  Forall (issued (next_id (registry st))) ((rid, instance room) :: matches st).
Proof. intros [] []. split; by constructor. Qed.

Lemma handoff_inv st rid room w now open mt mt' room' d :
  broker_inv config st -> room_ok config (guards st) (matches st) (next_id (registry st)) rid room ->
  is_Some (rooms (registry st) !! rid) ->
  status room = Live -> consumed room = false ->
  active_connections room + 1 <= max_connections_per_room config ->
  handoff_joiner config mt room rid w now open = (mt', room', d) ->
  broker_inv config (mkBroker
    (mkRegistry (<[rid := room']> (rooms (registry st))) (next_id (registry st)) mt')
    (match d with
     | Matched _ g | JoinerRejected _ (Some g) => g :: guards st
     | _ => guards st
     end)
    (match d with Matched _ g => g :: matches st | _ => matches st end)).
Proof.
  intros Hinv Hok [r0 Hrid] Hlive Hcons Hact H.
  destruct (room_guards_issued _ _ _ Hinv Hok) as [Hgs Hms].
  assert (Hframe : forall l k, k.1 <> rid -> occ ((rid, instance room) :: l) k = occ l k).
  { intros l k Hk. rewrite occ_cons, decide_False by (intros <-; done). lia. }
  destruct open.
  - apply (handoff_room_ok _ _ _ _ _ _ _ _ _ _ _ Hok Hlive Hcons Hact) in H as [-> Hok'].
    apply inv_insert; try done; try lia; [by intros k Hk; rewrite !Hframe| |by rewrite Hrid].
    intros i. rewrite occ_cons. pose proof (bi_history _ _ Hinv (rid, i)) as Hh. cbn in Hh.
    destruct (decide ((rid, instance room) = (rid, i))) as [[= <-]|]; [|lia].
    destruct Hok. specialize (ro_open0 Hlive Hcons). lia.
  - unfold handoff_joiner in H. cbn in H. simplify_eq.
    apply inv_insert; try done; try lia; try apply Hinv; [by intros k Hk; rewrite Hframe|..].
    + intros i. apply (bi_history _ _ Hinv (rid, i)).
    + by rewrite Hrid.
    + destruct Hok. split; cbn; try done; try lia; try by apply waiter_ok_none.
      rewrite occ_cons, decide_True by done. lia.
Qed.

Lemma joiner_refusal_none room :
  joiner_refusal room = None -> status room = Live /\ consumed room = false.
Proof. unfold joiner_refusal. by destruct (status room), (consumed room). Qed.

Lemma join_room_inv st join room now open mt' room' d :
  broker_inv config st -> rooms (registry st) !! room_id join = Some room ->
  join_room config (metrics (registry st)) room join now open = (mt', room', d) ->
  broker_inv config (mkBroker
    (mkRegistry (<[room_id join := room']> (rooms (registry st))) (next_id (registry st)) mt')
    (match d with
     | Matched _ g | JoinerRejected _ (Some g) => g :: guards st
     | _ => guards st
     end)
    (match d with Matched _ g => g :: matches st | _ => matches st end)).
Proof.
  intros Hinv Hrid H. pose proof (bi_rooms _ _ Hinv _ _ Hrid) as Hok. unfold join_room in H.
  destruct (joiner_refusal room) as [o|] eqn:Href; [simplify_eq; by eapply inv_rewrite|].
  apply joiner_refusal_none in Href as [Hlive Hcons].
  destruct (short_code room && (room_attempt_limit config <=? attempts room)) eqn:Hspent.
  { exfalso. pose proof (ro_open _ _ _ _ _ _ Hok Hlive Hcons) as Hopen.
    pose proof (ro_short _ _ _ _ _ _ Hok) as Hs. unfold match_budget in Hopen. bool_prop.
    destruct (is_remembered_room_id (room_id join)); [|lia]. by rewrite Hs in *. }
  destruct (Z.leb_spec (max_connections_per_room config) (active_connections room));
    [simplify_eq; by eapply inv_rewrite|].
  destruct (compatible_waiter room join) as [w|]; [|simplify_eq; by eapply inv_rewrite].
  destruct (short_code room).
  - destruct (bucket_take (attempt_rate room) now) as [b t]. destruct t.
    + eapply handoff_inv in H; [exact H|done|by apply room_ok_rate|by eexists|done..|cbn; lia].
    + simplify_eq. eapply inv_rewrite; [done|exact Hrid|apply room_ok_rate].
    + simplify_eq. eapply inv_rewrite; [done|exact Hrid|apply room_ok_rate].
  - eapply handoff_inv in H; [exact H|done|done|by eexists|done..|lia].
Qed.

Lemma joiner_inv st join now open reg d :
  broker_inv config st -> serve_joiner config (registry st) join now open = (reg, d) ->
  next_id reg = next_id (registry st) /\
  broker_inv config (mkBroker reg
    (match d with
     | Matched _ g | JoinerRejected _ (Some g) => g :: guards st
     | _ => guards st
     end)
    (match d with Matched _ g => g :: matches st | _ => matches st end)).
Proof.
  intros Hinv H. pose proof (sweep_inv st now Hinv) as Hswept.
  unfold serve_joiner in H. destruct (decide_joiner _ _ _ _ _) as [reg0 d0] eqn:Hdec.
  assert (Hcore : next_id reg0 = next_id (registry st) /\ broker_inv config (mkBroker reg0
    (match d0 with
     | Matched _ g | JoinerRejected _ (Some g) => g :: guards st
     | _ => guards st
     end)
    (match d0 with Matched _ g => g :: matches st | _ => matches st end))).
  { clear H. unfold decide_joiner in Hdec.
    set (swept := sweep_rooms config (registry st) now) in *.
    assert (Hn : next_id swept = next_id (registry st)) by done. clearbody swept.
    destruct (rooms swept !! room_id join) as [room|] eqn:Hrid; [|simplify_eq; done].
    destruct (join_room _ _ _ _ _ _) as [[m room'] d1] eqn:Hjoin. simplify_eq. split; [done|].
    exact (join_room_inv (mkBroker swept (guards st) (matches st)) _ _ _ _ _ _ _ Hswept Hrid Hjoin). }
  destruct d0; simplify_eq; [done| |done]. destruct Hcore as [Hn Hb]. split; [done|].
  by apply inv_metrics.
Qed.

(** *** All steps *)

Lemma step_inv st st' :
  broker_inv config st -> next_id (registry st) + 2 <= u64_max -> broker_step config st st' ->
  next_id (registry st') <= next_id (registry st) + 2 /\ broker_inv config st'.
Proof.
  intros Hinv Hnext Hstep. destruct Hstep.
  - by eapply creator_inv.
  - edestruct joiner_inv as [-> ?]; [done|done|]. cbn. split; [lia|done].
  - split; [|by apply evict_inv]. cbn. unfold evict_waiter. repeat case_match; cbn; lia.
  - split; [|by apply expire_inv]. cbn. unfold expire_room. repeat case_match; cbn; lia.
  - split; [|by apply drop_guard_inv]. cbn. unfold drop_room_guard. repeat case_match; cbn; lia.
  - split; [cbn; lia|]. by apply sweep_inv.
Qed.

Lemma init_inv : 0 <= max_room_states config -> broker_inv config broker_init.
Proof.
  intros Hmax. split; cbn; try done. intros g. change (occ [] g) with 0.
  pose proof (match_budget_pos g.1). lia.
Qed.

(** Each step takes at most two ids, so fewer than [2^63] steps never wrap
    the counter. *)
Lemma reachable_inv n st :
  0 <= max_room_states config -> 2 * Z.of_nat n <= u64_max -> broker_reachable config n st ->
  next_id (registry st) <= 2 * Z.of_nat n /\ broker_inv config st.
Proof.
  intros Hmax. revert st. induction n as [|n IH]; intros st Hn Hr.
  - inversion Hr; subst. split; [done|]. by apply init_inv.
  - apply nsteps_inv_r in Hr as (st0 & Hr & Hstep).
    destruct (IH st0 ltac:(lia) Hr) as [Hid Hinv].
    destruct (step_inv st0 st Hinv ltac:(lia) Hstep) as [Hid' Hinv']. split; [lia|done].
Qed.
End Invariant.
