(* ===== verification/RoomsTheorem.v ===== *)
(** What the Room registry guarantees: accounting, the attempt budget, the
    exact condition for a match, the tombstones, the retry hints. *)

From stdpp Require Import prelude gmap strings.
From Stdlib Require Import ZArith Lia Strings.Byte.
From S2P Require Import Prelude Bytes BrokerConfig TokenBucket Sources Rooms RoomsInv.

Local Open Scope Z_scope.

Section Safety.
Context (config : BrokerConfig).

Lemma valid_reachable_inv n st :
  config_validate config = Ok tt -> wf_config config = true ->
  2 * Z.of_nat n <= u64_max -> broker_reachable config n st -> broker_inv config st.
Proof.
  intros Hv Hwf Hn Hr.
  destruct (config_validate_bounds config Hv Hwf) as (_ & Hroom & _ & Hlim & Hw & _).
  destruct (reachable_inv config Hroom Hlim n st ltac:(lia) Hn Hr) as [_ Hinv]. exact Hinv.
Qed.

(** Room accounting: in every reachable state each room's
    [active_connections] is exactly the number of its guards that are alive
    and never exceeds [max_connections_per_room], and there are never more
    rooms than [max_room_states]. *)
Theorem room_accounting n st :
  config_validate config = Ok tt -> wf_config config = true ->
  2 * Z.of_nat n <= u64_max -> broker_reachable config n st ->
  Z.of_nat (size (rooms (registry st))) <= max_room_states config /\
  forall rid room, rooms (registry st) !! rid = Some room ->
    active_connections room = occ (guards st) (rid, instance room) /\
    active_connections room <= max_connections_per_room config.
Proof.
  intros Hv Hwf Hn Hr. destruct (valid_reachable_inv n st Hv Hwf Hn Hr) as [Hrooms Hsize _ _ _ _].
  split; [exact Hsize|]. intros rid room Hroom. destruct (Hrooms rid room Hroom). split; done.
Qed.

(** C15. The guessing budget of a room code: one instance of a room makes at
    most [room_attempt_limit] matches over the whole life of the broker, and
    a remembered room at most one, whatever the interleaving of creators,
    joiners, disconnections, expiries and sweeps. *)
Theorem room_attempt_budget n st rid inst :
  config_validate config = Ok tt -> wf_config config = true ->
  2 * Z.of_nat n <= u64_max -> broker_reachable config n st ->
  occ (matches st) (rid, inst)
    <= (if is_remembered_room_id rid then 1 else room_attempt_limit config).
Proof.
  intros Hv Hwf Hn Hr. exact (bi_history _ _ (valid_reachable_inv n st Hv Hwf Hn Hr) (rid, inst)).
Qed.
End Safety.

(** ** Matching *)

Section Matching.
Context (config : BrokerConfig).

(** A live, open room that has not lapsed is untouched by the sweep. *)
Lemma sweep_lookup_live reg now rid room :
  rooms reg !! rid = Some room -> status room = Live -> consumed room = true \/ now < expires_at room ->
  rooms (sweep_rooms config reg now) !! rid = Some room.
Proof.
  intros Hr Hlive Hfresh. cbn. apply map_lookup_filter_Some. split.
  - rewrite lookup_fmap, Hr. cbn. f_equal. unfold sweep_room, room_lapsed. rewrite Hlive. cbn.
    destruct Hfresh as [->|Hlt]; [done|]. by rewrite (proj2 (Z.leb_gt _ _)), andb_false_r by done.
  - cbn. unfold room_kept. by rewrite Hlive.
Qed.

Lemma sweep_lookup_inv reg now rid room :
  rooms (sweep_rooms config reg now) !! rid = Some room -> status room = Live ->
  rooms reg !! rid = Some room /\ (consumed room = true \/ now < expires_at room).
Proof.
  cbn. rewrite map_lookup_filter_Some, lookup_fmap_Some. intros [(r & <- & Hr) _] Hlive.
  unfold sweep_room in *. destruct (room_lapsed now r) eqn:Hl; [done|]. split; [done|].
  unfold room_lapsed in Hl. rewrite Hlive in Hl. cbn in Hl.
  apply andb_false_iff in Hl as [Hl|Hl]; bool_prop; [by left|by right].
Qed.

(** A handoff is a match exactly when the receiver is there. *)
Lemma handoff_matched mt room rid w now open wid g :
  (handoff_joiner config mt room rid w now open).2 = Matched wid g <->
  open = true /\ wid = waiter_id w /\ g = (rid, instance room).
Proof.
  unfold handoff_joiner. destruct open; cbn.
  - match goal with |- context [if ?b then _ else _] => destruct b end; [|cbn; naive_solver].
    destruct (exhaust_room _ _ _ _). cbn. naive_solver.
  - naive_solver.
Qed.

Definition rate_grants (room : RoomState) (now : Instant) : Prop :=
  short_code room = true -> (bucket_take (attempt_rate room) now).2 = Taken.

Lemma join_room_matched mt room join now open wid g :
  (short_code room && (room_attempt_limit config <=? attempts room)) = false \/
    joiner_refusal room <> None ->
  (join_room config mt room join now open).2 = Matched wid g <->
  open = true /\ status room = Live /\ consumed room = false /\
  active_connections room < max_connections_per_room config /\
  (exists w, waiter room = Some w /\ wid = waiter_id w /\ is_Some (joins_match (waiter_join w) join)) /\
  rate_grants room now /\ g = (room_id join, instance room).
Proof.
  intros Hspent. unfold join_room, rate_grants.
  destruct (joiner_refusal room) as [o|] eqn:Href.
  { split; [done|]. intros (_ & Hl & Hc & _). unfold joiner_refusal in Href.
    by rewrite Hl, Hc in Href. }
  apply joiner_refusal_none in Href as [Hlive Hcons]. destruct Hspent as [->|]; [|done].
  destruct (Z.leb_spec (max_connections_per_room config) (active_connections room)).
  { split; [done|]. intros (_ & _ & _ & Ha & _). lia. }
  unfold compatible_waiter. destruct (waiter room) as [w|] eqn:Hw; cbn;
    [|split; [done|]; naive_solver].
  destruct (joins_match (waiter_join w) join) as [k|] eqn:Hj; cbn.
  2: { split; [done|]. intros (_ & _ & _ & _ & (w' & [= <-] & _ & Hs) & _). rewrite Hj in Hs.
       by destruct Hs. }
  assert (Hw' : (exists w0, Some w = Some w0 /\ wid = waiter_id w0 /\
    is_Some (joins_match (waiter_join w0) join)) <-> wid = waiter_id w)
    by (split; [naive_solver|intros ->; exists w; rewrite Hj; eauto]).
  rewrite Hw'. destruct (short_code room) eqn:Hs.
  - destruct (bucket_take (attempt_rate room) now) as [b t]. destruct t; cbn.
    + rewrite handoff_matched. cbn. naive_solver.
    + naive_solver.
    + naive_solver.
  - rewrite handoff_matched. naive_solver.
Qed.

(** The joiner gets a match from [serve_joiner]. *)
Lemma serve_joiner_decision reg join now open wid g :
  (serve_joiner config reg join now open).2 = Matched wid g <->
  exists room, rooms (sweep_rooms config reg now) !! room_id join = Some room /\
    (join_room config (metrics (sweep_rooms config reg now)) room join now open).2 = Matched wid g.
Proof.
  unfold serve_joiner, decide_joiner.
  generalize (sweep_rooms config reg now). intros swept.
  destruct (rooms swept !! room_id join) as [room|] eqn:Hrid; [|cbn; naive_solver].
  transitivity ((join_room config (metrics swept) room join now open).2 = Matched wid g).
  - destruct (join_room _ _ _ _ _ _) as [[m r] d] eqn:Hj. by destruct d.
  - naive_solver.
Qed.

(** The exact condition for a match: in every reachable state a joiner is
    handed to the waiting creator [wid] if and only if that creator's task
    still listens, and its room is live, not consumed, not lapsed at [now],
    has a free slot and a waiter whose join is compatible, and, for a short
    code, the room's rate limiter grants the attempt.  In particular the
    attempt limit never refuses a room that is still live. *)
Theorem joiner_matched_iff n st join now open wid g :
  config_validate config = Ok tt -> wf_config config = true ->
  2 * Z.of_nat n <= u64_max -> broker_reachable config n st ->
  (serve_joiner config (registry st) join now open).2 = Matched wid g <->
  open = true /\ exists room w,
    rooms (registry st) !! room_id join = Some room /\
    status room = Live /\ consumed room = false /\ now < expires_at room /\
    active_connections room < max_connections_per_room config /\
    waiter room = Some w /\ waiter_id w = wid /\ is_Some (joins_match (waiter_join w) join) /\
    rate_grants room now /\ g = (room_id join, instance room).
Proof.
  intros Hv Hwf Hn Hr. pose proof (valid_reachable_inv config n st Hv Hwf Hn Hr) as Hinv.
  destruct (config_validate_bounds config Hv Hwf) as (_ & Hroom & _ & Hlim & _).
  pose proof (sweep_inv config st now Hinv) as Hswept.
  assert (Hspent : forall room, rooms (sweep_rooms config (registry st) now) !! room_id join = Some room ->
    (short_code room && (room_attempt_limit config <=? attempts room)) = false \/
    joiner_refusal room <> None).
  { intros room Hrid. destruct (bi_rooms _ _ Hswept _ _ Hrid). unfold joiner_refusal.
    destruct (status room) eqn:Hs, (consumed room) eqn:Hc; try (by right). left.
    specialize (ro_open eq_refl eq_refl). unfold match_budget in ro_open. rewrite ro_short.
    destruct (is_remembered_room_id (room_id join)); [done|]. cbn. apply Z.leb_gt. lia. }
  rewrite serve_joiner_decision. split.
  - intros (room & Hrid & Hj). apply join_room_matched in Hj; [|by apply Hspent].
    destruct Hj as (-> & Hl & Hc & Ha & (w & Hw & -> & Hm) & Hrate & ->). split; [done|].
    apply sweep_lookup_inv in Hrid as [Hrid [Hc'|Hlt]]; [congruence| |done].
    exists room, w. done.
  - intros (-> & room & w & Hrid & Hl & Hc & Hlt & Ha & Hw & <- & Hm & Hrate & ->).
    assert (Hrid' : rooms (sweep_rooms config (registry st) now) !! room_id join = Some room)
      by (apply sweep_lookup_live; auto).
    exists room. split; [done|]. apply join_room_matched; [by apply Hspent|].
    repeat split; try done. by exists w.
Qed.

(** A match pairs the two ends of one invitation: the joiner's creator
    advertised in the same room, from the other invitation side, with the
    complementary transfer role, and offers the method the joiner selected. *)
Theorem match_pairs_complementary n st join now open wid g :
  config_validate config = Ok tt -> wf_config config = true ->
  2 * Z.of_nat n <= u64_max -> broker_reachable config n st ->
  invitation_side join = Joiner ->
  (serve_joiner config (registry st) join now open).2 = Matched wid g ->
  exists creator m, room_id creator = room_id join /\ validate_join creator = Ok tt /\
    role_for creator = Responder /\ role_for join = Initiator /\
    transfer_role join = complement (transfer_role creator) /\
    selected_bootstrap_method join = Some m /\ m ∈ bootstrap_methods creator.
Proof.
  intros Hv Hwf Hn Hr Hside Hm. pose proof (valid_reachable_inv config n st Hv Hwf Hn Hr) as Hinv.
  destruct (config_validate_bounds config Hv Hwf) as (_ & Hroom & _ & Hlim & _).
  pose proof (sweep_inv config st now Hinv) as Hswept.
  apply serve_joiner_decision in Hm as (room & Hrid & Hj).
  destruct (bi_rooms _ _ Hswept _ _ Hrid) as [_ _ _ _ _ _ _ _ Hwait].
  unfold join_room in Hj. destruct (joiner_refusal room); [done|].
  destruct (_ && _); [by destruct (exhaust_room _ _ _ _)|].
  destruct (_ <=? _); [done|]. unfold compatible_waiter in Hj.
  destruct (waiter room) as [w|] eqn:Hw; cbn in Hj; [|done].
  destruct (joins_match (waiter_join w) join) as [m|] eqn:Hjm; [|done].
  destruct (Hwait w Hw) as (_ & _ & _ & Hc & Hid & Hval). exists (waiter_join w), m.
  unfold role_for. rewrite Hc, Hside. unfold joins_match in Hjm. rewrite Hc, Hside in Hjm.
  destruct (bool_decide _) eqn:Hcomp in Hjm; [|done]. cbn in Hjm.
  destruct (selected_bootstrap_method join) as [m'|]; [|done]. cbn in Hjm.
  destruct (bool_decide (m' ∈ _)) eqn:Hin; [|done]. simplify_eq. bool_prop.
  repeat split; done.
Qed.
End Matching.

(** ** Tombstones *)

(** The outcome a closed room answers with. *)
Definition closed_outcome (s : RoomStatus) : option (BrokerOutcome * Instant) :=
  match s with
  | Live => None
  | Expired t => Some (RoomExpired, t)
  | Exhausted t => Some (RoomUnderAttack, t)
  end.

Section Closed.
Context (config : BrokerConfig).

Lemma sweep_lookup_closed reg now rid room o t :
  rooms reg !! rid = Some room -> closed_outcome (status room) = Some (o, t) ->
  0 < active_connections room \/ now < t ->
  rooms (sweep_rooms config reg now) !! rid = Some room.
Proof.
  intros Hr Hs Hkept. cbn. apply map_lookup_filter_Some. split.
  - rewrite lookup_fmap, Hr. cbn. f_equal. unfold sweep_room, room_lapsed.
    by destruct (status room).
  - cbn. unfold room_kept. destruct (status room); simplify_eq/=;
      apply orb_true_iff; rewrite !Z.ltb_lt; done.
Qed.

(** A closed room stays closed: while an expired or exhausted room still
    has connections, or its tombstone has not been purged, every creator and
    every joiner of its code is refused with the room's own outcome and no
    retry hint, and the tombstone is left exactly as it was. *)
Theorem closed_room_refuses reg join now open room o t :
  rooms reg !! room_id join = Some room -> closed_outcome (status room) = Some (o, t) ->
  0 < active_connections room \/ now < t ->
  let '(reg1, d1) := serve_creator config reg join now in
  let '(reg2, d2) := serve_joiner config reg join now open in
  d1 = CreatorRejected (mkRejection o None) /\ rooms reg1 !! room_id join = Some room /\
  d2 = JoinerRejected (mkRejection o None) None /\ rooms reg2 !! room_id join = Some room.
Proof.
  intros Hr Hs Hkept. pose proof (sweep_lookup_closed reg now _ room o t Hr Hs Hkept) as Hswept.
  unfold serve_creator, decide_creator, serve_joiner, decide_joiner.
  revert Hswept. generalize (sweep_rooms config reg now). intros swept Hswept.
  rewrite Hswept. unfold creator_refusal, join_room, joiner_refusal.
  destruct (status room); simplify_eq/=; rewrite lookup_insert_eq; done.
Qed.

(** ** Retry hints *)

Lemma round_nanos_nonneg m e : 0 <= m -> 0 <= round_nanos m e.
Proof.
  intros Hm. unfold round_nanos. assert (0 <= NANOS_PER_SEC) by done.
  destruct (Z.leb_spec 0 e); [apply Z.mul_nonneg_nonneg; [apply Z.mul_nonneg_nonneg|]; lia|].
  pose proof (Z.pow_pos_nonneg 2 (- e) ltac:(lia) ltac:(lia)).
  assert (0 <= m * NANOS_PER_SEC / 2 ^ (- e)) by (apply Z.div_pos; [apply Z.mul_nonneg_nonneg|]; lia).
  repeat case_match; lia.
Qed.

Lemma bucket_take_denied b now b' retry :
  bucket_take b now = (b', Denied retry) -> 0 <= retry.
Proof.
  unfold bucket_take. destruct (f64_ge _ _); [done|].
  destruct (from_secs_f64 _) as [d|] eqn:Hd; [|done]. intros [= _ <-].
  unfold from_secs_f64 in Hd. repeat case_match; simplify_eq; [done|].
  by apply round_nanos_nonneg.
Qed.

(** The rejections a registry call may return. *)
Definition capped (r : BrokerRejection) : Prop :=
  forall secs, retry_after r = Some secs -> 1 <= secs /\ from_secs (secs - 1) < max_retry_after config.

Lemma rejection_capped o retry :
  0 < max_retry_after config -> (forall d, retry = Some d -> 0 <= d) ->
  capped (rejection config o retry).
Proof.
  intros Hmax Hd secs. unfold rejection. cbn. destruct retry as [d|]; [|done]. cbn.
  apply bounded_retry_after_cap; [by apply Hd|done].
Qed.

Lemma join_room_capped mt room join now open mt' room' r g :
  0 < max_retry_after config -> 0 <= unavailable_retry_after config ->
  join_room config mt room join now open = (mt', room', JoinerRejected r g) -> capped r.
Proof.
  intros Hmax Hu H.
  assert (Hun : forall o, capped (rejection config o (Some (unavailable_retry_after config)))).
  { intros o. apply rejection_capped; [done|]. by intros d [= <-]. }
  assert (Hnone : forall o, capped (rejection config o None)).
  { intros o. by apply rejection_capped. }
  assert (Hhand : forall rm w, handoff_joiner config mt rm (room_id join) w now open
    = (mt', room', JoinerRejected r g) -> capped r).
  { intros rm w. unfold handoff_joiner. destruct open; [|by intros [= _ _ <- _]].
    repeat case_match; done. }
  unfold join_room in H. destruct (joiner_refusal room) as [o|].
  { simplify_eq. destruct o; cbn; auto. }
  destruct (_ && _); [destruct (exhaust_room _ _ _ _); by simplify_eq|].
  destruct (_ <=? _); [by simplify_eq|].
  destruct (compatible_waiter room join) as [w|]; [|by simplify_eq].
  destruct (short_code room); [|by eapply Hhand].
  destruct (bucket_take (attempt_rate room) now) as [b t] eqn:Ht. destruct t; [by eapply Hhand| |done].
  simplify_eq. apply rejection_capped; [done|]. intros d [= <-]. by eapply bucket_take_denied.
Qed.

(** Every retry hint the registry sends is at least one second and stays
    below [max_retry_after] rounded up to a whole second. *)
Theorem retry_after_capped reg join now open :
  config_validate config = Ok tt -> wf_config config = true ->
  (forall reg' r, serve_creator config reg join now = (reg', CreatorRejected r) -> capped r) /\
  (forall reg' r g, serve_joiner config reg join now open = (reg', JoinerRejected r g) -> capped r).
Proof.
  intros Hv Hwf. destruct (config_validate_bounds config Hv Hwf)
    as (_ & _ & _ & _ & _ & [Hmax _] & [Hu _] & _).
  assert (Hun : forall o, capped (rejection config o (full_retry config o))).
  { intros o. apply rejection_capped; [done|]. destruct o; cbn; by intros d [= <-]. }
  split.
  - intros reg' r H. unfold serve_creator, decide_creator in H.
    generalize dependent (sweep_rooms config reg now). intros swept H.
    destruct (rooms swept !! room_id join) as [room|].
    + destruct (creator_refusal config room); [simplify_eq/=; apply Hun|].
      unfold park_creator in H. by destruct (fetch_id swept).
    + destruct (_ || _); [simplify_eq/=; apply (Hun RoomFull)|]. by unfold park_creator in H.
  - intros reg' r g H. unfold serve_joiner, decide_joiner in H.
    generalize dependent (sweep_rooms config reg now). intros swept H.
    destruct (rooms swept !! room_id join) as [room|].
    + destruct (join_room _ _ _ _ _ _) as [[m rm] d] eqn:Hj. destruct d; simplify_eq.
      by eapply join_room_capped.
    + simplify_eq/=. apply (Hun RoomFull).
Qed.
End Closed.

(** ** The limit on waiting creators *)

Definition with_waiting_creators (n : Z) (c : BrokerConfig) : BrokerConfig :=
  mkConfig (room_ttl c) (room_tombstone_ttl c) (room_attempt_limit c) (room_attempt_rate c)
    (endpoint_join_rate c) (ip_join_rate c) (subnet_join_rate c) (max_connections c)
    (max_connections_per_endpoint c) (max_connections_per_room c) (max_room_states c)
    n (max_source_states c) (source_state_ttl c) (handshake_timeout c) (join_timeout c)
    (relay_ttl c) (relay_idle_timeout c) (slow_frame_timeout c) (close_grace c)
    (max_frame_body c) (max_retry_after c) (unavailable_retry_after c).

Definition invitation_creator (rid : str) : Join :=
  mkJoin 2 rid Creator TransferReceiver [FullTicket; RoomCode] None.
Definition invitation_joiner (rid : str) : Join :=
  mkJoin 2 rid Joiner TransferSender [] (Some RoomCode).

Definition after_creator (c : BrokerConfig) (join : Join) (now : Instant) (st : BrokerState)
    : BrokerState :=
  let '(reg, d) := serve_creator c (registry st) join now in
  mkBroker reg (match d with Parked _ _ g => g :: guards st | _ => guards st end) (matches st).

Definition after_joiner (c : BrokerConfig) (join : Join) (now : Instant) (open : bool)
    (st : BrokerState) : BrokerState :=
  let '(reg, d) := serve_joiner c (registry st) join now open in
  mkBroker reg
    (match d with
     | Matched _ g | JoinerRejected _ (Some g) => g :: guards st
     | _ => guards st
     end)
    (match d with Matched _ g => g :: matches st | _ => matches st end).

Definition after_drop_guard (st : BrokerState) : BrokerState :=
  match guards st with
  | g :: gs => mkBroker (drop_room_guard (registry st) g) gs (matches st)
  | [] => st
  end.

Section Traces.
Context (c : BrokerConfig).

Lemma reach_creator n join now st :
  validate_join join = Ok tt -> invitation_side join = Creator ->
  broker_reachable c n st -> broker_reachable c (S n) (after_creator c join now st).
Proof.
  intros Hv Hs Hr. eapply nsteps_r; [exact Hr|]. unfold after_creator.
  destruct (serve_creator c (registry st) join now) as [reg d] eqn:H. by eapply step_creator.
Qed.

Lemma reach_joiner n join now open st :
  validate_join join = Ok tt -> invitation_side join = Joiner ->
  broker_reachable c n st -> broker_reachable c (S n) (after_joiner c join now open st).
Proof.
  intros Hv Hs Hr. eapply nsteps_r; [exact Hr|]. unfold after_joiner.
  destruct (serve_joiner c (registry st) join now open) as [reg d] eqn:H.
  by eapply step_joiner.
Qed.

Lemma reach_drop_guard n st g gs :
  guards st = g :: gs -> broker_reachable c n st ->
  broker_reachable c (S n) (after_drop_guard st).
Proof.
  intros Hg Hr. eapply nsteps_r; [exact Hr|]. unfold after_drop_guard. rewrite Hg.
  by apply (step_drop_guard c st [] g gs).
Qed.
End Traces.

(** A creator waits in room 111111 and is matched; both ends leave; another
    creator takes the one waiting place with room 222222; the first returns. *)
Definition waiting_config : BrokerConfig := with_waiting_creators 1 default_config.
Definition one_matched : BrokerState :=
  after_joiner waiting_config (invitation_joiner (lit "111111")) 0 true
    (after_creator waiting_config (invitation_creator (lit "111111")) 0 broker_init).
Definition both_left : BrokerState := after_drop_guard (after_drop_guard one_matched).
Definition two_waiting : BrokerState :=
  after_creator waiting_config (invitation_creator (lit "111111")) 0
    (after_creator waiting_config (invitation_creator (lit "222222")) 0 both_left).

Lemma one_matched_reachable : broker_reachable waiting_config 2 one_matched.
Proof.
  apply reach_joiner; [vm_compute; reflexivity|reflexivity|].
  apply reach_creator; [vm_compute; reflexivity|reflexivity|]. apply nsteps_O.
Qed.

Lemma two_waiting_reachable : broker_reachable waiting_config 6 two_waiting.
Proof.
  apply reach_creator; [vm_compute; reflexivity|reflexivity|].
  apply reach_creator; [vm_compute; reflexivity|reflexivity|].
  eapply reach_drop_guard; [vm_compute; reflexivity|].
  eapply reach_drop_guard; [vm_compute; reflexivity|]. apply one_matched_reachable.
Qed.

(** C36. [max_waiting_creators] is not an upper bound: it is only consulted when
    a creator opens a new room, so creators that return to rooms that outlived
    their match add waiters past the limit; a valid configuration with a limit
    of 1 reaches a state with two creators waiting. *)
Theorem waiting_limit_exceeded :
  exists config n st, config_validate config = Ok tt /\ wf_config config = true /\
    broker_reachable config n st /\
    waiting_creators (rooms (registry st)) = max_waiting_creators config + 1.
Proof.
  exists waiting_config, 6%nat, two_waiting.
  split; [vm_compute; reflexivity|]. split; [vm_compute; reflexivity|].
  split; [exact two_waiting_reachable|vm_compute; reflexivity].
Qed.

(** Two valid joins of one room, one from each side, match exactly when
    their transfer roles are complementary; the method agreed on is the
    joiner's, and the order of arrival does not matter. *)
Theorem joins_match_complementary creator joiner :
  validate_join creator = Ok tt -> validate_join joiner = Ok tt ->
  room_id creator = room_id joiner ->
  invitation_side creator = Creator -> invitation_side joiner = Joiner ->
  joins_match creator joiner =
    (if bool_decide (complement (transfer_role creator) = transfer_role joiner)
     then selected_bootstrap_method joiner else None) /\
  joins_match joiner creator = joins_match creator joiner.
Proof. apply joins_match_same_room. Qed.
