(* ===== verification/Timeline.v ===== *)
(** The stage timeline of one transfer attempt (crates/envoix-transfer/src/lib.rs,
    [TransferStage], [TransferStageTimelineState] and [TransferStageTimeline]):
    stages recorded by concurrent tasks, and a queue that one of them drains
    into the event sink without holding the lock. *)

From stdpp Require Import prelude sorting.
From Stdlib Require Import ZArith Lia.
From S2P Require Import Prelude.

Local Open Scope Z_scope.

(** ** Stages *)

Inductive TransferStage :=
| SessionStarted | ConnectionReady | AuthenticationStarted | AuthenticationComplete
| ManifestOffer | ManifestAccepted | FirstPayload | StagePayloadComplete | DeliveryComplete
| Canceled | Failed.

Definition stage_order (s : TransferStage) : Z :=
  match s with
  | SessionStarted => 0
  | ConnectionReady => 1
  | AuthenticationStarted => 2
  | AuthenticationComplete => 3
  | ManifestOffer => 4
  | ManifestAccepted => 5
  | FirstPayload => 6
  | StagePayloadComplete => 7
  | DeliveryComplete => 8
  | Canceled | Failed => 9
  end.

Definition stage_bit (s : TransferStage) : Z := Z.shiftl 1 (stage_order s).

Definition is_terminal (s : TransferStage) : bool :=
  match s with DeliveryComplete | Canceled | Failed => true | _ => false end.

Inductive TransferDirection := Send | Receive.

(** ** The recorder *)

Section Timeline.
Context {TransferId : Type}.

Record TimelineState := mkTimeline {
  transfer_id : option TransferId;
  seen : Z;
  last_order : option Z;
  last_elapsed_us : Z;
  terminal : bool;
}.

Definition timeline_new (id : option TransferId) : TimelineState := mkTimeline id 0 None 0 false.

(** [TransferEvent::StageTiming] *)
Record StageTiming := mkTiming {
  ev_transfer_id : option TransferId;
  ev_direction : TransferDirection;
  ev_attempt_id : Z;
  ev_stage : TransferStage;
  ev_elapsed_us : Z;
  ev_delta_us : Z;
}.

Definition bind_transfer_id (st : TimelineState) (id : TransferId) : TimelineState :=
  match transfer_id st with
  | None => mkTimeline (Some id) (seen st) (last_order st) (last_elapsed_us st) (terminal st)
  | Some _ => st
  end.

Definition record_at (st : TimelineState) (direction : TransferDirection) (attempt_id : Z)
    (stage : TransferStage) (elapsed_us : Z) : TimelineState * option StageTiming :=
  let order := stage_order stage in
  if terminal st || negb (Z.land (seen st) (stage_bit stage) =? 0)
     || match last_order st with Some last => order <? last | None => false end
  then (st, None)
  else
    let elapsed_us := Z.max elapsed_us (last_elapsed_us st) in
    let delta_us := saturating_sub elapsed_us (last_elapsed_us st) in
    (mkTimeline (transfer_id st) (Z.lor (seen st) (stage_bit stage)) (Some order) elapsed_us
       (is_terminal stage),
     Some (mkTiming (transfer_id st) direction attempt_id stage elapsed_us delta_us)).

(** ** Dispatch *)

(** The mutex's contents, the sink's log, the event a dispatching task has
    popped and not yet delivered, and every event recorded (a ghost). *)
Record Dispatch := mkDispatch {
  state : TimelineState;
  pending_events : list StageTiming;
  dispatching : bool;
  in_hand : option StageTiming;
  delivered : list StageTiming;
  recorded : list StageTiming;
}.

Definition dispatch_new (id : option TransferId) : Dispatch :=
  mkDispatch (timeline_new id) [] false None [] [].

(** The first critical section of [record]. *)
Definition enqueue (d : Dispatch) (direction : TransferDirection) (attempt_id : Z)
    (stage : TransferStage) (elapsed_us : Z) : Dispatch :=
  match record_at (state d) direction attempt_id stage elapsed_us with
  | (_, None) => d
  | (st, Some event) =>
    mkDispatch st (pending_events d ++ [event]) true (in_hand d) (delivered d)
      (recorded d ++ [event])
  end.

(** One turn of the loop: pop under the lock, or stop dispatching. *)
Definition pop_event (d : Dispatch) : Dispatch :=
  match pending_events d with
  | event :: rest =>
    mkDispatch (state d) rest (dispatching d) (Some event) (delivered d) (recorded d)
  | [] => mkDispatch (state d) [] false None (delivered d) (recorded d)
  end.

(** [self.events.on_event(event)], outside the lock. *)
Definition deliver (d : Dispatch) (event : StageTiming) : Dispatch :=
  mkDispatch (state d) (pending_events d) (dispatching d) None (delivered d ++ [event])
    (recorded d).

(** Any task may record or bind at any time; the task that found the queue
    idle alternates pops and deliveries until it pops nothing. *)
Inductive dispatch_step : Dispatch -> Dispatch -> Prop :=
| dstep_record d direction attempt stage elapsed :
    dispatch_step d (enqueue d direction attempt stage elapsed)
| dstep_bind d id :
    dispatch_step d (mkDispatch (bind_transfer_id (state d) id) (pending_events d) (dispatching d)
      (in_hand d) (delivered d) (recorded d))
| dstep_pop d :
    dispatching d = true -> in_hand d = None -> dispatch_step d (pop_event d)
| dstep_deliver d event :
    in_hand d = Some event -> dispatch_step d (deliver d event).

Definition dispatch_reachable (id : option TransferId) (d : Dispatch) : Prop :=
  rtc dispatch_step (dispatch_new id) d.

(** ** Invariant *)

Definition later (a b : StageTiming) : Prop :=
  stage_order (ev_stage a) < stage_order (ev_stage b) /\ ev_elapsed_us a <= ev_elapsed_us b /\
  is_terminal (ev_stage a) = false.

(** The recorder remembers the last recorded event and nothing later. *)
Record timeline_inv (st : TimelineState) (log : list StageTiming) : Prop := {
  tl_sorted : StronglySorted later log;
  tl_below : Forall (fun e => stage_order (ev_stage e) <= default (-1) (last_order st) /\
    ev_elapsed_us e <= last_elapsed_us st) log;
  tl_terminal : terminal st = false -> Forall (fun e => is_terminal (ev_stage e) = false) log;
  tl_seen : forall n, 0 <= n -> Z.testbit (seen st) n = true ->
    n <= default (-1) (last_order st);
  tl_last : forall n, last_order st = Some n -> Z.testbit (seen st) n = true;
  tl_deltas : foldr (fun e n => ev_delta_us e + n) 0 log = last_elapsed_us st;
  tl_final : forall e, last log = Some e -> ev_elapsed_us e = last_elapsed_us st;
}.

Record dispatch_inv (d : Dispatch) : Prop := {
  di_timeline : timeline_inv (state d) (recorded d);
  di_queue : recorded d = delivered d ++ option_list (in_hand d) ++ pending_events d;
  di_busy : dispatching d = false -> pending_events d = [] /\ in_hand d = None;
}.

Lemma stage_order_range s : 0 <= stage_order s <= 9.
Proof. destruct s; cbn; lia. Qed.

Lemma stage_bit_testbit s n : 0 <= n ->
  Z.testbit (stage_bit s) n = bool_decide (n = stage_order s).
Proof.
  intros Hn. unfold stage_bit. pose proof (stage_order_range s).
  rewrite Z.shiftl_1_l, Z.pow2_bits_eqb by lia. rewrite Z.eqb_sym.
  destruct (Z.eqb_spec n (stage_order s)); by case_bool_decide.
Qed.

Lemma seen_bit x s :
  (Z.land x (stage_bit s) =? 0) = negb (Z.testbit x (stage_order s)).
Proof.
  pose proof (stage_order_range s). unfold stage_bit. rewrite Z.shiftl_1_l.
  destruct (Z.testbit x (stage_order s)) eqn:Hb.
  - apply Z.eqb_neq. intros Hz. apply (f_equal (fun v => Z.testbit v (stage_order s))) in Hz.
    rewrite Z.land_spec, Hb, Z.pow2_bits_true, Z.bits_0 in Hz by lia. discriminate.
  - apply Z.eqb_eq. apply Z.bits_inj'. intros n Hn. rewrite Z.land_spec, Z.bits_0.
    destruct (Z.eq_dec n (stage_order s)) as [->|]; [by rewrite Hb|].
    rewrite Z.pow2_bits_false by lia. apply andb_false_r.
Qed.

Lemma sorted_snoc (log : list StageTiming) e :
  StronglySorted later log -> Forall (fun x => later x e) log -> StronglySorted later (log ++ [e]).
Proof.
  induction 1 as [|x log Hs IH Hx]; intros Hall; [by constructor; constructor|].
  apply Forall_cons in Hall as [Hxe Hall]. cbn. constructor; [by apply IH|].
  apply Forall_app. split; [done|constructor; [done|constructor]].
Qed.

Lemma record_inv st log direction attempt stage elapsed st' e :
  timeline_inv st log -> record_at st direction attempt stage elapsed = (st', Some e) ->
  timeline_inv st' (log ++ [e]).
Proof.
  intros [Hsort Hbelow Hterm Hseen Hlast Hsum _] H. unfold record_at in H.
  destruct (_ || _) eqn:Hg in H; [done|]. simplify_eq. apply orb_false_iff in Hg as [Hg Hord].
  apply orb_false_iff in Hg as [Htf Hbit]. rewrite seen_bit, negb_involutive in Hbit.
  pose proof (stage_order_range stage) as Hr.
  assert (Hlt : default (-1) (last_order st) < stage_order stage).
  { destruct (last_order st) as [n|] eqn:Hl; cbn; [|lia]. bool_prop.
    assert (n <> stage_order stage) by (intros ->; rewrite Hlast in Hbit; done). lia. }
  split; cbn.
  - apply sorted_snoc; [done|]. specialize (Hterm Htf). rewrite Forall_forall in *.
    intros x Hx. destruct (Hbelow x Hx). unfold later. cbn. split; [lia|]. split; [lia|by apply Hterm].
  - apply Forall_app. split; [|constructor; [cbn; lia|constructor]].
    eapply Forall_impl; [exact Hbelow|]. intros x [? ?]. lia.
  - intros Hst. apply Forall_app. split; [by apply Hterm|constructor; [done|constructor]].
  - intros n Hn. rewrite Z.lor_spec, stage_bit_testbit by done.
    intros [Hs|Hs]%orb_true_iff; [|bool_prop; lia]. specialize (Hseen n Hn Hs). lia.
  - intros n [= <-]. rewrite Z.lor_spec, stage_bit_testbit by lia.
    rewrite bool_decide_eq_true_2 by done. apply orb_true_r.
  - rewrite foldr_snoc. cbn. assert (Hfold : forall l a, foldr (fun e n => ev_delta_us e + n) a l
      = foldr (fun e n => ev_delta_us e + n) 0 l + a).
    { clear. induction l as [|x l IH]; intros a; cbn; [done|]. rewrite IH. lia. }
    rewrite Hfold, Hsum. unfold saturating_sub. lia.
  - rewrite last_snoc. by intros e [= <-].
Qed.

Lemma dispatch_step_inv d d' : dispatch_inv d -> dispatch_step d d' -> dispatch_inv d'.
Proof.
  intros [Htl Hq Hb] Hstep. destruct Hstep as [d dir att stage el|d id|d Hd Hh|d event Hh].
  - unfold enqueue. destruct (record_at _ _ _ _ _) as [st [e|]] eqn:Hrec; [|done].
    split; cbn; [by eapply record_inv| |done]. by rewrite Hq, <- !app_assoc.
  - split; cbn; [|done|done]. destruct Htl. unfold bind_transfer_id.
    destruct (transfer_id (state d)); by split.
  - unfold pop_event. rewrite Hh in Hq. destruct (pending_events d) as [|e rest];
      split; cbn; try done. by rewrite Hd.
  - rewrite Hh in Hq. split; cbn; [done| |].
    + by rewrite Hq, <- app_assoc.
    + intros Hdis. by destruct (Hb Hdis) as [? ?]; simplify_eq.
Qed.

Lemma dispatch_reachable_inv id d : dispatch_reachable id d -> dispatch_inv d.
Proof.
  intros Hr. pattern d. revert d Hr. apply rtc_ind_r.
  - split; [|done|done]. split; cbn; try done; [constructor|]. intros n _. by rewrite Z.bits_0.
  - intros x y _ Hxy Hinv. by eapply dispatch_step_inv.
Qed.

(** Whatever the interleaving of recording and dispatching tasks, the
    sink receives the recorded stages in the order they were recorded, none
    twice and none lost; the stages it sees are strictly increasing, end
    with the first terminal one, and have non-decreasing times; and an event
    is never left in the queue without a task that dispatches it. *)
Theorem timeline_delivery id d :
  dispatch_reachable id d ->
  recorded d = delivered d ++ option_list (in_hand d) ++ pending_events d /\
  StronglySorted later (recorded d) /\
  (dispatching d = false -> delivered d = recorded d).
Proof.
  intros Hr. destruct (dispatch_reachable_inv id d Hr) as [Htl Hq Hb].
  split; [done|]. split; [apply Htl|]. intros Hd. destruct (Hb Hd) as [Hp Hh].
  rewrite Hq, Hp, Hh. cbn. by rewrite app_nil_r.
Qed.

(** The time deltas of the recorded stages add up to the elapsed time of
    the last one. *)
Theorem timeline_deltas id d :
  dispatch_reachable id d ->
  foldr (fun e n => ev_delta_us e + n) 0 (recorded d) = last_elapsed_us (state d) /\
  forall e, last (recorded d) = Some e -> ev_elapsed_us e = last_elapsed_us (state d).
Proof.
  intros Hr. destruct (dispatch_reachable_inv id d Hr) as [[] _ _]. done.
Qed.
End Timeline.
