(* ===== verification/CancelToken.v ===== *)
(** The cancellation token of a transfer (crates/envoix-transfer/src/lib.rs,
    [TransferCancelToken]): two atomic flags and a [tokio::sync::Notify], used by
    concurrent tasks, as a state machine over their atomic operations.

    [Notify::notify_waiters] wakes the [Notified] futures that exist when it
    runs and leaves nothing behind for later ones. *)

From stdpp Require Import prelude.
From Stdlib Require Import ZArith Lia.
From S2P Require Import Prelude.

Local Open Scope nat_scope.

(** Where a task that awaits [cancelled] is: before the flag is read, after it
    was read as false, holding a [Notified] future, or returned. *)
Inductive WaiterPc := BeforeCheck | Checked | Waiting | Returned.

(** [notifying] counts the calls of [cancel] between their swap and
    [notify_waiters]; [pausing] the calls of [pause] that stored their flag and
    have yet to cancel. *)
Record CancelState := mkCancel {
  cancelled : bool;
  paused : bool;
  notifying : nat;
  pausing : nat;
  waiter : WaiterPc;
}.

Definition token_new : CancelState := mkCancel false false 0 0 BeforeCheck.

(** [cancelled.swap(true)], and the decision to notify. *)
Definition cancel_swap (st : CancelState) : CancelState :=
  if cancelled st then st
  else mkCancel true (paused st) (S (notifying st)) (pausing st) (waiter st).

(** [notify.notify_waiters()] *)
Definition notify_waiters (st : CancelState) : CancelState :=
  mkCancel (cancelled st) (paused st) (pred (notifying st)) (pausing st)
    (match waiter st with Waiting => Returned | pc => pc end).

(** [paused.store(true)] *)
Definition pause_store (st : CancelState) : CancelState :=
  mkCancel (cancelled st) true (notifying st) (S (pausing st)) (waiter st).

(** The call of [cancel] inside [pause]. *)
Definition pause_cancel (st : CancelState) : CancelState :=
  cancel_swap (mkCancel (cancelled st) (paused st) (notifying st) (pred (pausing st)) (waiter st)).

Definition set_waiter_pc (pc : WaiterPc) (st : CancelState) : CancelState :=
  mkCancel (cancelled st) (paused st) (notifying st) (pausing st) pc.

(** The two operations of [cancelled]: the load, and the creation of the
    [Notified] future it then awaits. *)
Definition wait_check (st : CancelState) : CancelState :=
  set_waiter_pc (if cancelled st then Returned else Checked) st.
Definition wait_register (st : CancelState) : CancelState := set_waiter_pc Waiting st.

(** [may_cancel]: whether some task calls [cancel] directly. *)
Inductive token_step (may_cancel : bool) : CancelState -> CancelState -> Prop :=
| tok_cancel st : may_cancel = true -> token_step may_cancel st (cancel_swap st)
| tok_notify st : 0 < notifying st -> token_step may_cancel st (notify_waiters st)
| tok_pause st : token_step may_cancel st (pause_store st)
| tok_pause_cancel st : 0 < pausing st -> token_step may_cancel st (pause_cancel st)
| tok_check st : waiter st = BeforeCheck -> token_step may_cancel st (wait_check st)
| tok_register st : waiter st = Checked -> token_step may_cancel st (wait_register st).

Definition token_reachable (may_cancel : bool) (st : CancelState) : Prop :=
  rtc (token_step may_cancel) token_new st.

(** ** Lost wake-ups *)

(** The token is cancelled, nobody will notify any more, and the waiter is past
    its check. *)
Definition lost (st : CancelState) : Prop :=
  cancelled st = true /\ notifying st = 0 /\ (waiter st = Checked \/ waiter st = Waiting).

Lemma cancel_swap_set st : cancelled st = true -> cancel_swap st = st.
Proof. intros H. unfold cancel_swap. by rewrite H. Qed.

Lemma lost_step may_cancel st st' : lost st -> token_step may_cancel st st' -> lost st'.
Proof.
  intros (Hc & Hn & Hw) Hstep. unfold lost. destruct Hstep; cbn.
  - rewrite cancel_swap_set by done. auto.
  - lia.
  - auto.
  - unfold pause_cancel. rewrite cancel_swap_set by done. cbn. auto.
  - destruct Hw; congruence.
  - auto.
Qed.

Lemma lost_forever may_cancel st st' :
  lost st -> rtc (token_step may_cancel) st st' -> waiter st' <> Returned.
Proof.
  intros Hl Hr. assert (Hl' : lost st').
  { revert Hl. induction Hr as [|x y z Hxy _ IH]; [done|]. intros Hx. eauto using lost_step. }
  destruct Hl' as (_ & _ & [Hw|Hw]); by rewrite Hw.
Qed.

(** C35. A cancellation can be missed: a task that awaits [cancelled] reads the
    flag before it creates its [Notified] future, so a whole [cancel] in between
    leaves it waiting on a cancelled token, and no later call of [cancel] or
    [pause] ever wakes it. *)
Theorem cancel_lost_wakeup :
  exists st, token_reachable true st /\ cancelled st = true /\ waiter st = Waiting /\
    forall st', rtc (token_step true) st st' -> waiter st' = Waiting.
Proof.
  exists (wait_register (notify_waiters (cancel_swap (wait_check token_new)))).
  set (st := wait_register _). assert (Hlost : lost st) by (repeat split; by right).
  split; [|split; [done|split; [done|]]].
  - eapply rtc_r; [eapply rtc_r; [eapply rtc_r; [apply rtc_once|]|]|].
    + by apply tok_check.
    + by apply tok_cancel.
    + apply tok_notify. cbn. lia.
    + by apply tok_register.
  - intros st' Hr. assert (Hw : waiter st = Waiting) by done. clearbody st. revert Hlost Hw.
    induction Hr as [|x y z Hxy _ IH]; [done|]. intros Hl Hw.
    apply IH; [by eapply lost_step|]. destruct Hl as (Hc & Hn & _).
    destruct Hxy; cbn; try congruence; try lia.
    + by rewrite cancel_swap_set.
    + unfold pause_cancel. by rewrite cancel_swap_set.
Qed.

(** ** Pausing *)

Lemma pause_inv st :
  token_reachable false st ->
  (cancelled st = true -> paused st = true) /\ (0 < pausing st -> paused st = true).
Proof.
  intros H. pattern st. revert st H. apply rtc_ind_r; [cbn; split; [done|lia]|].
  intros x y _ Hxy [IHc IHp]. destruct Hxy as [? [=]|st Hn|st|st Hp|st Hw|st Hw]; cbn; auto.
  unfold pause_cancel, cancel_swap. cbn. specialize (IHp Hp).
  destruct (cancelled st) eqn:Hc; cbn; rewrite IHp; auto.
Qed.

(** Only a cancelled token notifies, and only a cancelled token lets a waiter
    return. *)
Lemma returned_inv may_cancel st :
  token_reachable may_cancel st ->
  (0 < notifying st -> cancelled st = true) /\ (waiter st = Returned -> cancelled st = true).
Proof.
  intros H. pattern st. revert st H. apply rtc_ind_r; [cbn; split; [lia|done]|].
  intros x y _ Hxy [IHn IHw].
  destruct Hxy as [st _|st Hn|st|st Hp|st Hw|st Hw]; unfold pause_cancel, cancel_swap; cbn; auto.
  - destruct (cancelled st) eqn:Hc; cbn; auto.
  - destruct (cancelled st) eqn:Hc; cbn; auto.
  - split; [done|]. by destruct (cancelled st).
  - split; [done|]. by intros.
Qed.

(** A pause is never taken for a cancellation: [pause] sets its flag
    before it cancels, so while tasks only pause, whoever finds the token
    cancelled, or returns from [cancelled], finds [is_pause] true as well. *)
Theorem pause_seen_when_cancelled st :
  token_reachable false st -> cancelled st = true \/ waiter st = Returned -> paused st = true.
Proof.
  intros Hr Hc. destruct (pause_inv st Hr) as [Hp _]. destruct Hc as [Hc|Hw]; [by apply Hp|].
  apply Hp. by apply (returned_inv false st).
Qed.
