(* ===== verification/Delivery.v ===== *)
(** Save proofs and delivery records (crates/envoix-transfer/src/delivery_v2.rs):
    what the sender and the receiver of a job write down, the keyed proof that
    moves a sender to [Delivered], and the stores both records live in.

    BLAKE3's keyed and key-derivation modes are parameters, as is the JSON codec
    of the stored records. *)

From stdpp Require Import prelude gmap strings pretty.
From Stdlib Require Import ZArith Lia Strings.Byte.
From S2P Require Import Prelude Bytes ManifestV2 OfferCodec Frames.

Local Open Scope Z_scope.

(** ** Data *)

Definition SENDER_DELIVERY_SCHEMA_VERSION : Z := 3.
Definition LEGACY_SENDER_DELIVERY_SCHEMA_VERSION : Z := 2.
Definition RECEIVER_DELIVERY_SCHEMA_VERSION : Z := 1.

Definition SMART_COMPRESSIBLE_EXTENSIONS : list str := map lit
  ["c"; "cc"; "cfg"; "conf"; "cpp"; "css"; "csv"; "cxx"; "fish"; "go"; "graphql"; "h"; "hh";
   "hpp"; "htm"; "html"; "ini"; "java"; "js"; "json"; "jsonl"; "jsx"; "kt"; "kts"; "log"; "md";
   "markdown"; "ndjson"; "php"; "plist"; "py"; "rb"; "rs"; "rtf"; "sh"; "sql"; "srt"; "svg";
   "swift"; "text"; "toml"; "ts"; "tsx"; "tsv"; "txt"; "vtt"; "xml"; "yaml"; "yml"; "zsh"]%string.

Definition CHALLENGE_KEY_CONTEXT : str := lit "envoix/manifest/v2/accept-challenge-key".
Definition DELIVERY_KEY_CONTEXT : str := lit "envoix/manifest/v2/delivery-proof-key".
Definition CHALLENGE_TRANSCRIPT_CONTEXT : list byte := lit "envoix/manifest/v2/accept-challenge".
Definition DELIVERY_TRANSCRIPT_CONTEXT : list byte := lit "envoix/manifest/v2/delivery-proof".
Definition RESULT_SET_CONTEXT : str := lit "envoix/manifest/v2/result-set".

Inductive SenderTransferPhaseV2 :=
| Offering | Transferring | WaitingForReceiverSave | Delivered | TransferFailed | TransferCanceled.

Record SenderDeliveryRecordV2 := mkSenderRecord {
  sd_schema_version : Z;
  sd_identity : JobGenerationV2;
  sd_manifest_digest : ContentDigestV2;
  sd_phase : SenderTransferPhaseV2;
  sd_accept : option ManifestAcceptV2;
  sd_accept_body_digest : option ContentDigestV2;
  sd_completion_set_digest : option ContentDigestV2;
  sd_entry_results : list EntryResultV2;
  sd_delivery_proof : option DeliveryProofV2;
  sd_entry_encodings : list EntryEncodingV2;
}.

Record ReceiverDeliveryRecordV2 := mkReceiverRecord {
  rd_schema_version : Z;
  rd_identity : JobGenerationV2;
  rd_manifest_digest : ContentDigestV2;
  rd_result_set_digest : ContentDigestV2;
  rd_entry_results : list EntryResultV2;
  rd_proof_capability : list byte;
  rd_delivery_proof : option DeliveryProofV2;
}.

(** What the data planes of the two ends report (manifest_v2_engine.rs). *)
Record SenderDataPlaneSummaryV2 := mkSenderSummary {
  ss_identity : JobGenerationV2;
  ss_accept_body_digest : ContentDigestV2;
  ss_completion_set_digest : ContentDigestV2;
  ss_entry_results : list EntryResultV2;
}.
Record ReceiverDataPlaneSummaryV2 := mkReceiverSummary {
  rsum_identity : JobGenerationV2;
  rsum_completion_set_digest : ContentDigestV2;
  rsum_entry_results : list EntryResultV2;
}.

Inductive DeliveryAuthorityErrorV2 :=
| DE_IdentityMismatch
| DE_CapabilityMismatch
| DE_ResultMismatch
| DE_InvalidProof
| DE_InvalidRecord
| DE_Entropy
| DE_Io
| DE_Json
| DE_Codec (e : ManifestV2FrameCodecError)
| DE_Transport.

#[export] Instance SenderTransferPhaseV2_eq_dec : EqDecision SenderTransferPhaseV2.
Proof. solve_decision. Defined.
#[export] Instance EntryEncodingV2_eq_dec : EqDecision EntryEncodingV2.
Proof. solve_decision. Defined.
#[export] Instance RootPlanV2_eq_dec : EqDecision RootPlanV2.
Proof. solve_decision. Defined.
#[export] Instance EntryPlanV2_eq_dec : EqDecision EntryPlanV2.
Proof. solve_decision. Defined.
#[export] Instance ManifestAcceptV2_eq_dec : EqDecision ManifestAcceptV2.
Proof. solve_decision. Defined.
#[export] Instance DeliveryProofV2_eq_dec : EqDecision DeliveryProofV2.
Proof. solve_decision. Defined.
#[export] Instance DeliveryAuthorityErrorV2_eq_dec : EqDecision DeliveryAuthorityErrorV2.
Proof. solve_decision. Defined.

Abbreviation delivery A := (result DeliveryAuthorityErrorV2 A).

Definition set_phase (p : SenderTransferPhaseV2) (r : SenderDeliveryRecordV2) :=
  mkSenderRecord (sd_schema_version r) (sd_identity r) (sd_manifest_digest r) p (sd_accept r)
    (sd_accept_body_digest r) (sd_completion_set_digest r) (sd_entry_results r)
    (sd_delivery_proof r) (sd_entry_encodings r).
Definition set_accept (a : ManifestAcceptV2) (d : ContentDigestV2) (r : SenderDeliveryRecordV2) :=
  mkSenderRecord (sd_schema_version r) (sd_identity r) (sd_manifest_digest r) (sd_phase r) (Some a)
    (Some d) (sd_completion_set_digest r) (sd_entry_results r) (sd_delivery_proof r)
    (sd_entry_encodings r).
Definition set_results (rs : list EntryResultV2) (r : SenderDeliveryRecordV2) :=
  mkSenderRecord (sd_schema_version r) (sd_identity r) (sd_manifest_digest r) (sd_phase r)
    (sd_accept r) (sd_accept_body_digest r) (sd_completion_set_digest r) rs (sd_delivery_proof r)
    (sd_entry_encodings r).
Definition set_completion (d : ContentDigestV2) (r : SenderDeliveryRecordV2) :=
  mkSenderRecord (sd_schema_version r) (sd_identity r) (sd_manifest_digest r) (sd_phase r)
    (sd_accept r) (sd_accept_body_digest r) (Some d) (sd_entry_results r) (sd_delivery_proof r)
    (sd_entry_encodings r).
Definition set_proof (p : DeliveryProofV2) (r : SenderDeliveryRecordV2) :=
  mkSenderRecord (sd_schema_version r) (sd_identity r) (sd_manifest_digest r) (sd_phase r)
    (sd_accept r) (sd_accept_body_digest r) (sd_completion_set_digest r) (sd_entry_results r)
    (Some p) (sd_entry_encodings r).
Definition set_encodings (v : Z) (es : list EntryEncodingV2) (r : SenderDeliveryRecordV2) :=
  mkSenderRecord v (sd_identity r) (sd_manifest_digest r) (sd_phase r) (sd_accept r)
    (sd_accept_body_digest r) (sd_completion_set_digest r) (sd_entry_results r)
    (sd_delivery_proof r) es.
Definition set_receiver_proof (p : DeliveryProofV2) (r : ReceiverDeliveryRecordV2) :=
  mkReceiverRecord (rd_schema_version r) (rd_identity r) (rd_manifest_digest r)
    (rd_result_set_digest r) (rd_entry_results r) (rd_proof_capability r) (Some p).

(** ** Encodings *)

(** [rsplit_once('.')] *)
Fixpoint rsplit_dot (s : str) : option (str * str) :=
  match s with
  | [] => None
  | b :: s' =>
    match rsplit_dot s' with
    | Some (stem, ext) => Some (b :: stem, ext)
    | None => if bool_decide ([b] = lit ".") then Some ([], s') else None
    end
  end.

Definition to_ascii_lowercase (b : byte) : byte :=
  if in_range 65 90 b then byte_of (byte_val b + 32) else b.
Definition eq_ignore_ascii_case (s t : str) : bool :=
  bool_decide (map to_ascii_lowercase s = map to_ascii_lowercase t).

Definition is_smart_compression_candidate (component : str) : bool :=
  match rsplit_dot component with
  | None => false
  | Some (stem, extension) =>
    if bool_decide (stem = []) || bool_decide (extension = []) then false
    else existsb (eq_ignore_ascii_case extension) SMART_COMPRESSIBLE_EXTENSIONS
  end.

Definition initial_entry_encoding (entry : ManifestEntryV2) (policy : CompressionPolicyV2)
    : EntryEncodingV2 :=
  if bool_decide (kind entry = Directory) then Identity
  else
    match policy with
    | Never => Identity
    | Always => Zstd
    | Smart => if is_smart_compression_candidate (component entry) then Zstd else Identity
    end.

Definition validate_entry_encodings (offer : ManifestOfferV2) (encodings : list EntryEncodingV2)
    : delivery unit :=
  if negb (zlen encodings =? zlen (entries (manifest offer)))
     || existsb (fun '(entry, encoding) => bool_decide (kind entry = Directory)
                                            && negb (bool_decide (encoding = Identity)))
          (zip (entries (manifest offer)) encodings)
  then Err DE_InvalidRecord
  else Ok tt.

Definition identity_of (offer : ManifestOfferV2) : JobGenerationV2 :=
  mkJobGeneration (job_id (manifest offer)) (generation (manifest offer)).

(** [any(|(index, result)| result.identity != identity || result.entry_id != index as u32)] *)
Fixpoint results_misplaced (id : JobGenerationV2) (index : Z) (rs : list EntryResultV2) : bool :=
  match rs with
  | [] => false
  | r :: rs' =>
    negb (bool_decide (er_identity r = id)) || negb (er_entry_id r =? as_u32 index)
    || results_misplaced id (index + 1) rs'
  end.

(** ** Proofs *)

Section Authority.
Context (is_nfc : str -> bool) (blake3 : list byte -> list byte).
Context (derive_key : str -> list byte -> list byte) (keyed_hash : list byte -> list byte -> list byte).

(** The bytes [result_set_digest] feeds its hasher. *)
Fixpoint result_transcript (index : Z) (results : list EntryResultV2) : delivery (list byte) :=
  match results with
  | [] => Ok []
  | r :: results' =>
    if negb (er_entry_id r =? as_u32 index) then Err DE_ResultMismatch
    else
      encoded ← map_err DE_Codec (encode_manifest_v2_frame is_nfc blake3 (EntryResult r));
      rest ← result_transcript (index + 1) results';
      Ok (push_u32 (as_u32 (zlen encoded)) ++ encoded ++ rest)
  end.

Definition result_set_digest_of (results : list EntryResultV2) : delivery ContentDigestV2 :=
  transcript ← result_transcript 0 results;
  Ok (derive_key RESULT_SET_CONTEXT transcript).

Definition delivery_mac (capability : list byte) (id : JobGenerationV2)
    (manifest_digest results_digest : ContentDigestV2) (nonce : list byte) : list byte :=
  keyed_hash (derive_key DELIVERY_KEY_CONTEXT capability)
    (DELIVERY_TRANSCRIPT_CONTEXT ++ jg_job_id id ++ push_u32 (jg_generation id) ++
     manifest_digest ++ results_digest ++ nonce).

Definition challenge_mac (capability : list byte) (id : JobGenerationV2) (nonce : list byte)
    : list byte :=
  keyed_hash (derive_key CHALLENGE_KEY_CONTEXT capability)
    (CHALLENGE_TRANSCRIPT_CONTEXT ++ jg_job_id id ++ push_u32 (jg_generation id) ++ nonce).

Definition build_delivery_proof (id : JobGenerationV2)
    (manifest_digest results_digest : ContentDigestV2) (nonce capability : list byte)
    : DeliveryProofV2 :=
  mkProof id manifest_digest results_digest nonce
    (delivery_mac capability id manifest_digest results_digest nonce).

Definition answer_resume_challenge (id : JobGenerationV2) (nonce capability : list byte)
    : list byte := challenge_mac capability id nonce.

Definition verify_resume_challenge (id : JobGenerationV2) (nonce response capability : list byte)
    : delivery unit :=
  if negb (bool_decide (response = challenge_mac capability id nonce))
  then Err DE_InvalidProof else Ok tt.

(** The MAC comparison both records and the sender make. *)
Definition mac_differs (capability : list byte) (p : DeliveryProofV2) : bool :=
  negb (bool_decide (proof_mac p = delivery_mac capability (dp_identity p) (dp_manifest_digest p)
                                     (result_set_digest p) (proof_nonce p))).

(** ** The sender's record *)

Definition sender_new (offer : ManifestOfferV2) : SenderDeliveryRecordV2 :=
  mkSenderRecord SENDER_DELIVERY_SCHEMA_VERSION (identity_of offer) (structural_digest offer)
    Offering None None None [] None
    (map (fun entry => initial_entry_encoding entry (compression_policy (manifest offer)))
      (entries (manifest offer))).

Definition frozen_entry_encoding (r : SenderDeliveryRecordV2) (eid : Z)
    : delivery EntryEncodingV2 :=
  ok_or DE_InvalidRecord (vec_get (sd_entry_encodings r) eid).

Definition requires_entry_encoding_migration (r : SenderDeliveryRecordV2) : bool :=
  (sd_schema_version r =? LEGACY_SENDER_DELIVERY_SCHEMA_VERSION)
  && bool_decide (sd_entry_encodings r = []).

Definition proof_capability_of (r : SenderDeliveryRecordV2) : option (list byte) :=
  proof_capability <$> sd_accept r.

Definition completed_data_summary (r : SenderDeliveryRecordV2) : option SenderDataPlaneSummaryV2 :=
  accept_digest ← sd_accept_body_digest r;
  completion_digest ← sd_completion_set_digest r;
  if bool_decide (sd_entry_results r = []) then None
  else Some (mkSenderSummary (sd_identity r) accept_digest completion_digest (sd_entry_results r)).

(** The proof against the record, once its capability is known; the digest of
    the results is only computed when the manifest's agrees. *)
Definition check_sender_proof (r : SenderDeliveryRecordV2) (p : DeliveryProofV2) : delivery unit :=
  capability ← ok_or DE_InvalidRecord (proof_capability_of r);
  if negb (bool_decide (dp_manifest_digest p = sd_manifest_digest r)) then Err DE_InvalidRecord
  else
    digest ← result_set_digest_of (sd_entry_results r);
    if negb (bool_decide (result_set_digest p = digest)) || mac_differs capability p
    then Err DE_InvalidRecord
    else Ok tt.

Definition encoding_shape_is_valid (r : SenderDeliveryRecordV2) : bool :=
  if sd_schema_version r =? SENDER_DELIVERY_SCHEMA_VERSION
  then negb (bool_decide (sd_entry_encodings r = []))
  else if sd_schema_version r =? LEGACY_SENDER_DELIVERY_SCHEMA_VERSION
  then bool_decide (sd_entry_encodings r = [])
  else false.

Definition valid_phase (r : SenderDeliveryRecordV2) : bool :=
  let accepted := bool_decide (is_Some (sd_accept_body_digest r))
                  && bool_decide (is_Some (sd_accept r)) in
  let no_results := bool_decide (sd_entry_results r = []) in
  let no_proof := bool_decide (sd_delivery_proof r = None) in
  match sd_phase r with
  | Offering => negb accepted && no_results && no_proof
  | Transferring => accepted && no_results && no_proof
  | WaitingForReceiverSave => accepted && negb no_results && no_proof
  | Delivered => accepted && negb no_results && negb no_proof
  | TransferFailed | TransferCanceled => no_proof
  end.

Definition sender_validate (r : SenderDeliveryRecordV2) : delivery unit :=
  if negb (encoding_shape_is_valid r)
     || negb (Bool.eqb (bool_decide (is_Some (sd_accept_body_digest r)))
                (bool_decide (is_Some (sd_accept r))))
     || negb (Bool.eqb (bool_decide (sd_entry_results r = []))
                (bool_decide (sd_completion_set_digest r = None)))
     || results_misplaced (sd_identity r) 0 (sd_entry_results r)
     || match sd_delivery_proof r with
        | Some p => negb (bool_decide (dp_identity p = sd_identity r))
        | None => false
        end
  then Err DE_InvalidRecord
  else
    _ ← match sd_delivery_proof r with Some p => check_sender_proof r p | None => Ok tt end;
    if valid_phase r then Ok tt else Err DE_InvalidRecord.

Definition validate_offer (r : SenderDeliveryRecordV2) (offer : ManifestOfferV2) : delivery unit :=
  if negb (bool_decide (sd_identity r = identity_of offer))
     || negb (bool_decide (sd_manifest_digest r = structural_digest offer))
  then Err DE_InvalidRecord
  else
    _ ← (if sd_schema_version r =? SENDER_DELIVERY_SCHEMA_VERSION
         then validate_entry_encodings offer (sd_entry_encodings r)
         else if requires_entry_encoding_migration r then Ok tt
         else Err DE_InvalidRecord);
    sender_validate r.

(** A [&mut self] method returns the record as it leaves it. *)
Definition freeze_entry_encodings (r : SenderDeliveryRecordV2) (offer : ManifestOfferV2)
    (encodings : list EntryEncodingV2) : SenderDeliveryRecordV2 * delivery unit :=
  if negb (requires_entry_encoding_migration r) then (r, Err DE_InvalidRecord)
  else
    match validate_offer r offer with
    | Err e => (r, Err e)
    | Ok _ =>
      match validate_entry_encodings offer encodings with
      | Err e => (r, Err e)
      | Ok _ =>
        let r := set_encodings SENDER_DELIVERY_SCHEMA_VERSION encodings r in
        (r, validate_offer r offer)
      end
    end.

Definition commit_accept (r : SenderDeliveryRecordV2) (accept : ManifestAcceptV2)
    (digest : ContentDigestV2) : SenderDeliveryRecordV2 * delivery unit :=
  if bool_decide (sd_phase r = TransferFailed) || bool_decide (sd_phase r = TransferCanceled)
  then (r, Err DE_InvalidRecord)
  else if negb (bool_decide (acc_identity accept = sd_identity r))
          || negb (bool_decide (acc_manifest_digest accept = sd_manifest_digest r))
  then (r, Err DE_IdentityMismatch)
  else
    let advance r := if bool_decide (sd_phase r = Offering) then set_phase Transferring r else r in
    match sd_accept_body_digest r, sd_accept r with
    | Some existing_digest, Some existing_accept =>
      if bool_decide (existing_digest = digest) && bool_decide (existing_accept = accept)
      then (advance r, Ok tt) else (r, Err DE_CapabilityMismatch)
    | None, None => (advance (set_accept accept digest r), Ok tt)
    | _, _ => (r, Err DE_CapabilityMismatch)
    end.

Definition commit_results (r : SenderDeliveryRecordV2) (summary : SenderDataPlaneSummaryV2)
    : SenderDeliveryRecordV2 * delivery unit :=
  if negb (bool_decide (ss_identity summary = sd_identity r))
     || negb (bool_decide (sd_accept_body_digest r = Some (ss_accept_body_digest summary)))
  then (r, Err DE_IdentityMismatch)
  else if negb (bool_decide (sd_phase r = Transferring)
                || bool_decide (sd_phase r = WaitingForReceiverSave)
                || bool_decide (sd_phase r = Delivered))
  then (r, Err DE_InvalidRecord)
  else if negb (bool_decide (sd_entry_results r = []))
          && negb (bool_decide (sd_entry_results r = ss_entry_results summary))
  then (r, Err DE_ResultMismatch)
  else
    let r := if bool_decide (sd_entry_results r = [])
             then set_results (ss_entry_results summary) r else r in
    let finish r :=
      (if bool_decide (sd_phase r = Transferring) then set_phase WaitingForReceiverSave r else r,
       Ok tt) in
    match sd_completion_set_digest r with
    | Some existing =>
      if negb (bool_decide (existing = ss_completion_set_digest summary))
      then (r, Err DE_ResultMismatch) else finish r
    | None => finish (set_completion (ss_completion_set_digest summary) r)
    end.

(** ** The receiver's record *)

Definition receiver_validate (r : ReceiverDeliveryRecordV2) : delivery unit :=
  if negb (rd_schema_version r =? RECEIVER_DELIVERY_SCHEMA_VERSION)
     || results_misplaced (rd_identity r) 0 (rd_entry_results r)
  then Err DE_InvalidRecord
  else
    digest ← result_set_digest_of (rd_entry_results r);
    if negb (bool_decide (digest = rd_result_set_digest r)) then Err DE_InvalidRecord
    else
      match rd_delivery_proof r with
      | None => Ok tt
      | Some p =>
        if negb (bool_decide (dp_identity p = rd_identity r))
           || negb (bool_decide (dp_manifest_digest p = rd_manifest_digest r))
           || negb (bool_decide (result_set_digest p = rd_result_set_digest r))
           || mac_differs (rd_proof_capability r) p
        then Err DE_InvalidRecord
        else Ok tt
      end.

Definition receiver_new (offer : ManifestOfferV2) (accept : ManifestAcceptV2)
    (summary : ReceiverDataPlaneSummaryV2) : delivery ReceiverDeliveryRecordV2 :=
  if negb (bool_decide (acc_identity accept = rsum_identity summary))
     || negb (bool_decide (jg_job_id (acc_identity accept) = job_id (manifest offer)))
     || negb (jg_generation (acc_identity accept) =? generation (manifest offer))
     || negb (bool_decide (acc_manifest_digest accept = structural_digest offer))
     || negb (zlen (rsum_entry_results summary) =? zlen (entries (manifest offer)))
  then Err DE_IdentityMismatch
  else
    digest ← result_set_digest_of (rsum_entry_results summary);
    let r := mkReceiverRecord RECEIVER_DELIVERY_SCHEMA_VERSION (acc_identity accept)
               (structural_digest offer) digest (rsum_entry_results summary)
               (proof_capability accept) None in
    _ ← receiver_validate r;
    Ok r.
End Authority.

(** ** Stores *)

Definition hex_digit (n : Z) : byte := byte_of (if n <? 10 then 48 + n else 87 + n).
(** [format!("{byte:02x}")] of each byte. *)
Definition encode_job_id (id : JobIdV2) : str :=
  concat (map (fun b => [hex_digit (byte_val b / 16); hex_digit (byte_val b mod 16)]) id).

(** What [delivery_store!] is given, and what [serde_json] makes of a record. *)
Class DeliveryRecord (R : Type) := {
  record_identity : R -> JobGenerationV2;
  record_validate : R -> delivery unit;
  record_prefix : str;
  to_vec : R -> option (list byte);
  from_slice : list byte -> option R;
}.

(** How the file operations of one [save] end: all succeed; the directory cannot
    be made; a failure or a crash before the rename, which leaves a temporary
    file or none; or the rename is done and the directory sync fails. *)
Inductive SaveFault :=
| NoFault
| DirectoryFault
| WriteFault (left_behind : option (list byte))
| SyncFault.

(** The files of the store's directory, by name. *)
Abbreviation files := (gmap str (list byte)).

Section Store.
Context {R : Type} `{DeliveryRecord R}.

Definition file_stem (id : JobGenerationV2) : str :=
  record_prefix ++ lit "-" ++ encode_job_id (jg_job_id id) ++ lit "-" ++
  lit (pretty (Z.to_N (jg_generation id))).
Definition path (id : JobGenerationV2) : str := file_stem id ++ lit ".json".
(** [final_path.with_extension("tmp")] *)
Definition temporary_path (id : JobGenerationV2) : str := file_stem id ++ lit ".tmp".

Definition save (fs : files) (r : R) (fault : SaveFault) : files * delivery unit :=
  match record_validate r with
  | Err e => (fs, Err e)
  | Ok _ =>
    let final := path (record_identity r) in
    let tmp := temporary_path (record_identity r) in
    match fault, to_vec r with
    | DirectoryFault, _ => (fs, Err DE_Io)
    | _, None => (fs, Err DE_Json)
    | WriteFault None, Some _ => (fs, Err DE_Io)
    | WriteFault (Some part), Some _ => (<[tmp := part]> fs, Err DE_Io)
    | SyncFault, Some bytes => (<[final := bytes]> (delete tmp fs), Err DE_Io)
    | NoFault, Some bytes => (<[final := bytes]> (delete tmp fs), Ok tt)
    end
  end.

Definition load (fs : files) (id : JobGenerationV2) : delivery (option R) :=
  match fs !! path id with
  | None => Ok None
  | Some bytes =>
    r ← ok_or DE_Json (from_slice bytes);
    if negb (bool_decide (record_identity r = id)) || negb (is_ok (record_validate r))
    then Err DE_InvalidRecord
    else Ok (Some r)
  end.
End Store.

(** ** Sending and confirming a proof *)

Section Exchange.
Context (is_nfc : str -> bool) (blake3 : list byte -> list byte).
Context (derive_key : str -> list byte -> list byte) (keyed_hash : list byte -> list byte -> list byte).
Context (sender_to_vec : SenderDeliveryRecordV2 -> option (list byte))
  (sender_from_slice : list byte -> option SenderDeliveryRecordV2).
Context (receiver_to_vec : ReceiverDeliveryRecordV2 -> option (list byte))
  (receiver_from_slice : list byte -> option ReceiverDeliveryRecordV2).

#[local] Instance sender_delivery_store : DeliveryRecord SenderDeliveryRecordV2 := {
  record_identity := sd_identity;
  record_validate := sender_validate is_nfc blake3 derive_key keyed_hash;
  record_prefix := lit "sender-delivery";
  to_vec := sender_to_vec;
  from_slice := sender_from_slice;
}.
#[local] Instance receiver_delivery_store : DeliveryRecord ReceiverDeliveryRecordV2 := {
  record_identity := rd_identity;
  record_validate := receiver_validate is_nfc blake3 derive_key keyed_hash;
  record_prefix := lit "receiver-delivery";
  to_vec := receiver_to_vec;
  from_slice := receiver_from_slice;
}.

(** The record and the files after the call, the frame that was sent, and the
    result.  [nonce] is what the entropy source gave; [send_ok] says whether
    the transport took the frame. *)
Definition receiver_send_proof (r : ReceiverDeliveryRecordV2) (fs : files)
    (nonce : option (list byte)) (fault : SaveFault) (send_ok : bool)
    : ReceiverDeliveryRecordV2 * files * option ManifestV2Frame * delivery DeliveryProofV2 :=
  let send r fs p :=
    if send_ok then (r, fs, Some (DeliveryProof p), Ok p)
    else (r, fs, None, Err DE_Transport) in
  match rd_delivery_proof r with
  | Some p => send r fs p
  | None =>
    match nonce with
    | None => (r, fs, None, Err DE_Entropy)
    | Some n =>
      let p := build_delivery_proof derive_key keyed_hash (rd_identity r) (rd_manifest_digest r)
                 (rd_result_set_digest r) n (rd_proof_capability r) in
      let r := set_receiver_proof p r in
      match save fs r fault with
      | (fs, Err e) => (r, fs, None, Err e)
      | (fs, Ok _) => send r fs p
      end
    end
  end.

(** [frame] is what the transport delivered, [None] an error of it. *)
Definition sender_confirm_delivery (r : SenderDeliveryRecordV2) (fs : files)
    (frame : option ManifestV2Frame) (fault : SaveFault)
    : SenderDeliveryRecordV2 * files * delivery DeliveryProofV2 :=
  if negb (bool_decide (sd_phase r = WaitingForReceiverSave)
           || bool_decide (sd_phase r = Delivered))
  then (r, fs, Err DE_InvalidRecord)
  else
    match frame with
    | None => (r, fs, Err DE_Transport)
    | Some (DeliveryProof p) =>
      if bool_decide (sd_phase r = Delivered) then
        if negb (bool_decide (sd_delivery_proof r = Some p)) then (r, fs, Err DE_InvalidProof)
        else (r, fs, Ok p)
      else
        match proof_capability_of r with
        | None => (r, fs, Err DE_InvalidRecord)
        | Some capability =>
          match result_set_digest_of is_nfc blake3 derive_key (sd_entry_results r) with
          | Err e => (r, fs, Err e)
          | Ok digest =>
            if negb (bool_decide (dp_identity p = sd_identity r))
               || negb (bool_decide (dp_manifest_digest p = sd_manifest_digest r))
               || negb (bool_decide (result_set_digest p = digest))
               || mac_differs derive_key keyed_hash capability p
            then (r, fs, Err DE_InvalidProof)
            else
              let r := set_phase Delivered (set_proof p r) in
              match save fs r fault with
              | (fs, Err e) => (r, fs, Err e)
              | (fs, Ok _) => (r, fs, Ok p)
              end
          end
        end
    | Some _ => (r, fs, Err DE_InvalidProof)
    end.
End Exchange.
