(* ===== verification/DeliveryStore.v ===== *)
(** The delivery stores: file names are injective, [save] is atomic, and the
    digest of a result set determines it.  Then the delivery records: what
    [validate] accepts, and what every operation on a valid record can do to it. *)

From stdpp Require Import prelude gmap strings pretty.
From Stdlib Require Import ZArith Lia Strings.Byte.
From S2P Require Import Prelude Bytes ManifestV2 OfferCodec Frames FramesProof FramingProof Delivery.

Local Open Scope Z_scope.

(** ** File names *)

Lemma hex_digit_inj m n : 0 <= m < 16 -> 0 <= n < 16 -> hex_digit m = hex_digit n -> m = n.
Proof.
  intros Hm Hn H. apply (f_equal byte_val) in H. unfold hex_digit in H. rewrite !byte_val_of in H.
  destruct (Z.ltb_spec m 10), (Z.ltb_spec n 10); rewrite !Z.mod_small in H by lia; lia.
Qed.

Lemma encode_job_id_inj a b : encode_job_id a = encode_job_id b -> a = b.
Proof.
  unfold encode_job_id. revert b.
  induction a as [|x a IH]; intros [|y b] H; try done. cbn in H.
  injection H as H1 H2 H. f_equal; [|by apply IH].
  pose proof (byte_val_bounds x). pose proof (byte_val_bounds y).
  apply hex_digit_inj in H1, H2; try (apply Z.mod_pos_bound; lia);
    try (split; [apply Z.div_pos; lia|apply Z.div_lt_upper_bound; lia]).
  rewrite <- (byte_of_val x), <- (byte_of_val y). f_equal.
  rewrite (Z.div_mod (byte_val x) 16), (Z.div_mod (byte_val y) 16) by lia. lia.
Qed.

Lemma length_encode_job_id a : length (encode_job_id a) = (2 * length a)%nat.
Proof. unfold encode_job_id. induction a; cbn in *; lia. Qed.

Section StoreFacts.
Context {R : Type} `{DeliveryRecord R}.

Lemma file_stem_inj i j :
  wf_identity i = true -> wf_identity j = true -> file_stem i = file_stem j -> i = j.
Proof.
  destruct i as [a g], j as [b k]. unfold wf_identity, wf_job_id, wf_bytes. cbn. intros Hi Hj Heq.
  bool_prop. unfold file_stem in Heq. cbn [jg_job_id jg_generation] in Heq. apply app_inv_head in Heq.
  apply app_inv_head in Heq. apply app_inj_1 in Heq as [Ha Heq].
  - apply encode_job_id_inj in Ha as ->. apply app_inv_head, lit_inj in Heq.
    apply (inj pretty) in Heq. f_equal. unfold is_u32 in *. bool_prop. lia.
  - rewrite !length_encode_job_id. unfold zlen in *. lia.
Qed.

Lemma path_inj i j : wf_identity i = true -> wf_identity j = true -> path i = path j -> i = j.
Proof. intros Hi Hj Heq%app_inv_tail. by apply file_stem_inj. Qed.

Lemma temporary_path_ne i j : temporary_path i <> path j.
Proof. intros Heq%(f_equal last). unfold temporary_path, path in Heq. rewrite !last_app in Heq. done. Qed.

(** *** Saving *)

(** The files after a save: nothing changed but for a temporary file, or the
    record's own file holds it. *)
Lemma save_cases fs r fault fs' res :
  save fs r fault = (fs', res) ->
  (res <> Ok tt /\ forall id, fs' !! path id = fs !! path id) \/
  (record_validate r = Ok tt /\ exists bytes, to_vec r = Some bytes /\
     fs' !! path (record_identity r) = Some bytes /\
     forall id, path id <> path (record_identity r) -> fs' !! path id = fs !! path id).
Proof.
  unfold save. destruct (record_validate r) as [[]|e]; [|intros [= <- <-]; left; split; done].
  assert (Hnew : forall bytes id, path id <> path (record_identity r) ->
    (<[path (record_identity r) := bytes]> (delete (temporary_path (record_identity r)) fs)) !! path id
      = fs !! path id).
  { intros bytes id Hne. rewrite lookup_insert_ne, lookup_delete_ne; [done| |done].
    apply temporary_path_ne. }
  destruct fault as [| |[part|]|], (to_vec r) as [bytes|]; intros [= <- <-];
    try (left; split; done).
  - right. split; [done|]. exists bytes. rewrite lookup_insert_eq. eauto.
  - left. split; [done|]. intros id. rewrite lookup_insert_ne; [done|]. apply temporary_path_ne.
  - right. split; [done|]. exists bytes. rewrite lookup_insert_eq. eauto.
Qed.

Lemma save_succeeds fs r :
  record_validate r = Ok tt -> is_Some (to_vec r) -> exists fs', save fs r NoFault = (fs', Ok tt).
Proof. intros Hv [bytes Hb]. unfold save. rewrite Hv, Hb. eauto. Qed.

Context (serde : forall r bytes, to_vec r = Some bytes -> from_slice bytes = Some r).

Lemma load_stored fs r bytes :
  record_validate r = Ok tt -> to_vec r = Some bytes ->
  fs !! path (record_identity r) = Some bytes ->
  load fs (record_identity r) = Ok (Some r).
Proof.
  intros Hv Hb Hf. unfold load. rewrite Hf, (serde _ _ Hb). cbn. rewrite Hv.
  by rewrite bool_decide_eq_true_2.
Qed.

Lemma load_ext fs fs' id : fs' !! path id = fs !! path id -> load fs' id = load fs id.
Proof. intros Heq. unfold load. by rewrite Heq. Qed.

Lemma load_valid fs id r :
  load fs id = Ok (Some r) -> record_identity r = id /\ record_validate r = Ok tt.
Proof.
  unfold load. destruct (fs !! path id); [|done]. intros Hl. inv_ok. bool_prop.
  destruct (record_validate x) as [[]|] eqn:Hv; [|done]. split; congruence.
Qed.

(** One [save], seen through [load]. *)
Lemma save_load fs r fault fs' res :
  save fs r fault = (fs', res) ->
  (load fs' (record_identity r) = Ok (Some r) \/
   res <> Ok tt /\ load fs' (record_identity r) = load fs (record_identity r)) /\
  forall id, wf_identity id = true -> wf_identity (record_identity r) = true ->
    id <> record_identity r -> load fs' id = load fs id.
Proof.
  intros [[Hres Hsame]|(Hv & bytes & Hb & Hf & Hother)]%save_cases.
  - split; [right; split; [done|]; by apply load_ext|]. intros. by apply load_ext.
  - split; [left; by eapply load_stored|]. intros id Hid Hr Hne. apply load_ext, Hother.
    intros Heq. by apply Hne, path_inj.
Qed.

(** A successful save. *)
Lemma save_ok fs r fault fs' :
  save fs r fault = (fs', Ok tt) -> load fs' (record_identity r) = Ok (Some r).
Proof. intros [[?|[??]] _]%save_load; done. Qed.

(** [save] is atomic: however its file operations end, [load] afterwards
    returns the record that was saved or, only if [save] reported an error,
    what it returned before, never a mixture; and the stored record of every
    other job and generation is untouched, because file names are injective. *)
Theorem delivery_save_atomic fs r fault id :
  wf_identity (record_identity r) = true -> wf_identity id = true -> id <> record_identity r ->
  let '(fs', res) := save fs r fault in
  (load fs' (record_identity r) = Ok (Some r) \/
   res <> Ok tt /\ load fs' (record_identity r) = load fs (record_identity r)) /\
  load fs' id = load fs id.
Proof.
  intros Hr Hid Hne. destruct (save fs r fault) as [fs' res] eqn:Hs.
  destruct (save_load _ _ _ _ _ Hs) as [Hown Hother]. split; [done|]. by apply Hother.
Qed.
End StoreFacts.

(** ** Result sets *)

Section Results.
Context (is_nfc : str -> bool) (blake3 : list byte -> list byte).
Context (Hhash : forall b, zlen (blake3 b) = DIGEST_BYTES).

Lemma encoded_result_length r bs :
  encode_manifest_v2_frame is_nfc blake3 (EntryResult r) = Ok bs ->
  as_u32 (zlen bs) = zlen bs /\ zlen bs <= u32_max.
Proof.
  intros H. destruct (encode_frame_shape is_nfc blake3 Hhash _ _ H) as (t & out & n & -> & Hm & Hn).
  assert (Hb : 0 <= zlen (frame_header t (zlen out) ++ out) <= u32_max).
  { rewrite zlen_app, zlen_frame_header. pose proof (zlen_nonneg out).
    assert (n <= u32_max - HEADER_BYTES) by (destruct t; vm_compute in Hm; injection Hm as <-; vm_compute; discriminate).
    unfold HEADER_BYTES in *. lia. }
  split; [by apply as_u32_small|apply Hb].
Qed.

Lemma encode_result_inj r r' bs :
  wf_entry_result r = true -> wf_entry_result r' = true ->
  encode_manifest_v2_frame is_nfc blake3 (EntryResult r) = Ok bs ->
  encode_manifest_v2_frame is_nfc blake3 (EntryResult r') = Ok bs -> r = r'.
Proof.
  intros Hr Hr' H H'. apply (frame_decode_encode _ _ Hhash (EntryResult r) _ Hr eq_refl) in H.
  apply (frame_decode_encode _ _ Hhash (EntryResult r') _ Hr' eq_refl) in H'. congruence.
Qed.

(** A length-prefixed string at the head of a list. *)
Lemma prefixed_inj (x y a b : list byte) :
  zlen x <= u32_max -> zlen y <= u32_max ->
  push_u32 (zlen x) ++ x ++ a = push_u32 (zlen y) ++ y ++ b -> x = y /\ a = b.
Proof.
  intros Hx Hy Heq. pose proof (zlen_nonneg x). pose proof (zlen_nonneg y).
  apply app_inj_1 in Heq as [Hlen Heq]; [|by unfold push_u32; rewrite !length_be_bytes].
  apply app_inj_1 in Heq; [done|]. apply (f_equal be_value) in Hlen. unfold push_u32 in Hlen.
  unfold u32_max in *. rewrite !be_value_be_bytes_small in Hlen by lia. unfold zlen in Hlen. lia.
Qed.

(** The transcript of a result set determines the set. *)
Lemma result_transcript_inj rs rs' i out :
  forallb wf_entry_result rs = true -> forallb wf_entry_result rs' = true ->
  result_transcript is_nfc blake3 i rs = Ok out ->
  result_transcript is_nfc blake3 i rs' = Ok out -> rs = rs'.
Proof.
  assert (Hne : forall (v : Z) (a : list byte), push_u32 v ++ a <> []) by done.
  revert rs' i out. induction rs as [|r rs IH]; intros [|r' rs'] i out Hw Hw' H H'; [done|..];
    cbn [result_transcript] in H, H'; inv_ok.
  - match goal with Heq : _ ++ _ = [] |- _ => by apply Hne in Heq end.
  - match goal with Heq : _ ++ _ = [] |- _ => by apply Hne in Heq end.
  - cbn in Hw, Hw'. bool_prop.
    repeat match goal with He : encode_manifest_v2_frame _ _ _ = Ok ?bs |- _ =>
      destruct (encoded_result_length _ _ He) as [? ?]; revert He end. intros He1 He2.
    match goal with Heq : _ ++ _ = _ ++ _ |- _ => rename Heq into Ha end.
    repeat match goal with Hu : as_u32 _ = zlen _ |- _ => rewrite Hu in Ha; clear Hu end.
    apply prefixed_inj in Ha as [-> ->]; [|done..].
    f_equal; [by eapply encode_result_inj|by eapply IH].
Qed.
End Results.

Section Records.
Context (is_nfc : str -> bool) (blake3 : list byte -> list byte).
Context (derive_key : str -> list byte -> list byte) (keyed_hash : list byte -> list byte -> list byte).
Context (s_to_vec : SenderDeliveryRecordV2 -> option (list byte))
  (s_from_slice : list byte -> option SenderDeliveryRecordV2).

Local Notation digest_of := (result_set_digest_of is_nfc blake3 derive_key).
Local Notation validate := (sender_validate is_nfc blake3 derive_key keyed_hash).
Local Notation store := (sender_delivery_store is_nfc blake3 derive_key keyed_hash s_to_vec s_from_slice).
Local Notation confirm :=
  (sender_confirm_delivery is_nfc blake3 derive_key keyed_hash s_to_vec s_from_slice).

(** ** What [validate] accepts *)

(** A proof of this job, this manifest and these results, under the
    capability of the committed Accept. *)
Definition proof_fits (r : SenderDeliveryRecordV2) (p : DeliveryProofV2) : Prop :=
  exists accept digest, sd_accept r = Some accept /\ digest_of (sd_entry_results r) = Ok digest /\
    p = build_delivery_proof derive_key keyed_hash (sd_identity r) (sd_manifest_digest r) digest
          (proof_nonce p) (proof_capability accept).

Record sender_ok (r : SenderDeliveryRecordV2) : Prop := {
  so_encoding : encoding_shape_is_valid r = true;
  so_accept : is_Some (sd_accept_body_digest r) <-> is_Some (sd_accept r);
  so_results : sd_entry_results r = [] <-> sd_completion_set_digest r = None;
  so_placed : results_misplaced (sd_identity r) 0 (sd_entry_results r) = false;
  so_proof : forall p, sd_delivery_proof r = Some p -> proof_fits r p;
  so_phase : valid_phase r = true;
}.

Lemma eqb_bool_decide P Q `{Decision P, Decision Q} :
  Bool.eqb (bool_decide P) (bool_decide Q) = true <-> (P <-> Q).
Proof. repeat case_bool_decide; cbn; naive_solver. Qed.

Lemma mac_differs_false cap p :
  mac_differs derive_key keyed_hash cap p = false <->
  p = build_delivery_proof derive_key keyed_hash (dp_identity p) (dp_manifest_digest p)
        (result_set_digest p) (proof_nonce p) cap.
Proof.
  unfold mac_differs. rewrite negb_false_iff, bool_decide_eq_true. destruct p; cbn.
  unfold build_delivery_proof. split; [by intros ->|by intros [= ->]].
Qed.

Lemma check_sender_proof_ok r p :
  dp_identity p = sd_identity r /\
  check_sender_proof is_nfc blake3 derive_key keyed_hash r p = Ok tt <-> proof_fits r p.
Proof.
  unfold check_sender_proof, proof_capability_of, proof_fits. split.
  - intros [Hid H]. destruct (sd_accept r) as [accept|]; [|done]. cbn in H. inv_ok. bool_prop.
    match goal with Hm : mac_differs _ _ _ _ = false |- _ => apply mac_differs_false in Hm end.
    eexists accept, _. split; [done|]. split; [done|]. congruence.
  - intros (accept & digest & -> & Hd & Hp). cbn. rewrite Hd, Hp. cbn.
    rewrite !bool_decide_eq_true_2 by done. cbn.
    rewrite (proj2 (mac_differs_false _ _)); done.
Qed.

Lemma sender_validate_ok r : validate r = Ok tt <-> sender_ok r.
Proof.
  unfold sender_validate. split.
  - intros H. inv_ok. bool_prop.
    repeat match goal with Hb : Bool.eqb _ _ = true |- _ => apply eqb_bool_decide in Hb end.
    split; try done. intros p Hp. rewrite Hp in *. bool_prop. by apply check_sender_proof_ok.
  - intros [Henc Hacc Hres Hpl Hproof Hph].
    rewrite Henc, (proj2 (eqb_bool_decide _ _) Hacc), (proj2 (eqb_bool_decide _ _) Hres), Hpl, Hph.
    destruct (sd_delivery_proof r) as [p|]; [|done]. specialize (Hproof p eq_refl).
    apply check_sender_proof_ok in Hproof as [Hid Hc]. by rewrite Hc, bool_decide_eq_true_2.
Qed.

Lemma sender_ok_accepted r :
  sender_ok r -> sd_phase r = WaitingForReceiverSave \/ sd_phase r = Delivered ->
  exists accept, sd_accept r = Some accept.
Proof.
  intros [] Hp. unfold valid_phase in so_phase0.
  destruct Hp as [Hp|Hp]; rewrite Hp in so_phase0; bool_prop;
    match goal with Hs : is_Some (sd_accept r) |- _ => destruct Hs; eauto end.
Qed.

(** ** Opening a record *)

Lemma initial_encodings_valid (offer : ManifestOfferV2) policy :
  validate_entry_encodings offer
    (map (fun entry => initial_entry_encoding entry policy) (entries (manifest offer))) = Ok tt.
Proof.
  unfold validate_entry_encodings, zlen. rewrite length_map, Z.eqb_refl. cbn [negb orb].
  induction (entries (manifest offer)) as [|e es IH]; [done|]. cbn.
  case_bool_decide as Hk; [|exact IH]. rewrite bool_decide_eq_true_2; [exact IH|].
  unfold initial_entry_encoding. by rewrite bool_decide_eq_true_2.
Qed.

Lemma sender_new_valid offer :
  entries (manifest offer) <> [] ->
  validate_offer is_nfc blake3 derive_key keyed_hash (sender_new offer) offer = Ok tt.
Proof.
  intros Hne. unfold validate_offer. cbn.
  rewrite !bool_decide_eq_true_2, initial_encodings_valid by done. cbn.
  apply sender_validate_ok. split; cbn; try done.
  unfold encoding_shape_is_valid. cbn. destruct (entries (manifest offer)); done.
Qed.

(** ** Commits *)

Lemma commit_accept_cases r a d r' res :
  sender_ok r -> commit_accept r a d = (r', res) ->
  r' = r \/ (res = Ok tt /\ sd_phase r = Offering /\
             r' = set_phase Transferring (set_accept a d r)).
Proof.
  intros Hok H. unfold commit_accept in H. destruct (_ || _) eqn:Hterm in H; [simplify_eq; by left|].
  destruct (_ || _) in H; [simplify_eq; by left|]. pose proof (so_phase _ Hok) as Hph.
  unfold valid_phase in Hph. bool_prop.
  destruct (sd_accept_body_digest r) as [bd|] eqn:Hbd, (sd_accept r) as [ac|] eqn:Hac;
    try (simplify_eq; by left).
  - destruct (_ && _) in H; [|simplify_eq; by left]. simplify_eq.
    destruct (sd_phase r); cbn in Hph; try done; by left.
  - simplify_eq. cbn. destruct (sd_phase r) eqn:Hp; cbn in Hph; try done. right.
    by rewrite bool_decide_eq_true_2.
Qed.

Lemma commit_accept_ok r a d r' res :
  sender_ok r -> commit_accept r a d = (r', res) -> sender_ok r'.
Proof.
  intros Hok H. destruct (commit_accept_cases _ _ _ _ _ Hok H) as [->|(_ & Hp & ->)]; [done|].
  destruct Hok. unfold valid_phase in so_phase0. rewrite Hp in so_phase0. bool_prop.
  split; cbn; try done.
  - intros p Hp'. congruence.
  - unfold valid_phase. cbn. rewrite !bool_decide_eq_true_2; done.
Qed.

Lemma commit_results_cases r summary r' res :
  sender_ok r -> commit_results r summary = (r', res) ->
  r' = r \/ (res = Ok tt /\ sd_phase r = Transferring /\
             r' = set_phase WaitingForReceiverSave (set_completion (ss_completion_set_digest summary)
                    (set_results (ss_entry_results summary) r))).
Proof.
  intros Hok H. unfold commit_results in H. destruct (_ || _) in H; [simplify_eq; by left|].
  destruct (negb _) eqn:Hp in H; [simplify_eq; by left|].
  destruct (_ && _) in H; [simplify_eq; by left|].
  pose proof (so_phase _ Hok) as Hph. pose proof (so_results _ Hok) as Hres.
  unfold valid_phase in Hph. destruct (decide (sd_entry_results r = [])) as [Hnil|Hcons].
  - rewrite (bool_decide_eq_true_2 _ Hnil) in H. cbn in H. rewrite (proj1 Hres Hnil) in H.
    cbn in H. destruct (sd_phase r) eqn:Hphase; try done; bool_prop; try done.
    simplify_eq. by right.
  - rewrite (bool_decide_eq_false_2 _ Hcons) in H. cbn in H.
    destruct (sd_completion_set_digest r) eqn:Hd; [|by rewrite Hres in Hcons].
    destruct (negb _) in H; [simplify_eq; by left|].
    destruct (sd_phase r) eqn:Hphase; cbn in H; simplify_eq; try (by left). bool_prop. done.
Qed.

(** What the data plane guarantees of its report: every entry has its result. *)
Definition summary_ok (r : SenderDeliveryRecordV2) (summary : SenderDataPlaneSummaryV2) : Prop :=
  ss_entry_results summary <> [] /\
  results_misplaced (sd_identity r) 0 (ss_entry_results summary) = false.

Lemma commit_results_ok r summary r' res :
  sender_ok r -> summary_ok r summary -> commit_results r summary = (r', res) -> sender_ok r'.
Proof.
  intros Hok [Hne Hpl] H.
  destruct (commit_results_cases _ _ _ _ Hok H) as [->|(_ & Hp & ->)]; [done|].
  destruct Hok. unfold valid_phase in so_phase0. rewrite Hp in so_phase0. bool_prop.
  split; cbn; try done.
  - intros p Hp'. congruence.
  - unfold valid_phase. cbn. rewrite (bool_decide_eq_false_2 _ Hne), !bool_decide_eq_true_2; done.
Qed.

(** ** Confirmation *)

Lemma confirm_cases r fs frame fault r' fs' res :
  confirm r fs frame fault = (r', fs', res) ->
  (r' = r /\ fs' = fs /\
     forall p, res = Ok p -> sd_phase r = Delivered /\ frame = Some (DeliveryProof p) /\
       sd_delivery_proof r = Some p) \/
  (exists p saved, frame = Some (DeliveryProof p) /\ sd_phase r = WaitingForReceiverSave /\
     proof_fits r p /\ r' = set_phase Delivered (set_proof p r) /\
     @save _ store fs r' fault = (fs', saved) /\
     res = match saved with Ok _ => Ok p | Err e => Err e end).
Proof.
  assert (Hsame : forall e, (r, fs, Err e) = (r', fs', res) ->
    r' = r /\ fs' = fs /\ forall p, res = Ok p -> sd_phase r = Delivered /\
      frame = Some (DeliveryProof p) /\ sd_delivery_proof r = Some p).
  { by intros e [= <- <- <-]. }
  intros H. unfold sender_confirm_delivery in H.
  destruct (negb _) eqn:Hph in H; [left; by eapply Hsame|].
  destruct frame as [[]|]; try (left; by eapply Hsame).
  destruct (bool_decide (sd_phase r = Delivered)) eqn:Hdel.
  - destruct (negb _) eqn:Hp in H; [left; by eapply Hsame|]. simplify_eq. bool_prop. left.
    split; [done|]. split; [done|]. by intros ? [= <-].
  - rewrite orb_false_r in Hph. bool_prop. unfold proof_capability_of in H.
    destruct (sd_accept r) as [accept|] eqn:Hacc; cbn in H; [|left; by eapply Hsame].
    destruct (result_set_digest_of _ _ _ _) as [digest|e] eqn:Hd; [|left; by eapply Hsame].
    destruct (_ || _) eqn:Hc in H; [left; by eapply Hsame|]. bool_prop. right.
    destruct (save fs _ fault) as [fs1 saved] eqn:Hs in H. exists v, saved.
    match goal with Hm : mac_differs _ _ _ _ = false |- _ => apply mac_differs_false in Hm end.
    assert (proof_fits r v) by (exists accept, digest; repeat split; [done|done|congruence]).
    destruct saved; simplify_eq; repeat split; done.
Qed.

(** A fitting proof is accepted. *)
Lemma confirm_fitting r fs p fault fs' saved :
  sd_phase r = WaitingForReceiverSave -> proof_fits r p ->
  @save _ store fs (set_phase Delivered (set_proof p r)) fault = (fs', saved) ->
  confirm r fs (Some (DeliveryProof p)) fault
    = (set_phase Delivered (set_proof p r), fs', match saved with Ok _ => Ok p | Err e => Err e end).
Proof.
  intros Hph (accept & digest & Hacc & Hd & Hp) Hs. unfold sender_confirm_delivery.
  remember (proof_nonce p) as n eqn:Hn. clear Hn. subst p.
  rewrite Hph, (bool_decide_eq_false_2 (WaitingForReceiverSave = Delivered)) by done. cbn.
  unfold proof_capability_of. rewrite Hacc. cbn. rewrite Hd.
  rewrite (proj2 (mac_differs_false _ _)) by done. cbn.
  rewrite !bool_decide_eq_true_2 by done. cbn. rewrite Hs. by destruct saved.
Qed.

Lemma delivered_ok r p :
  sender_ok r -> sd_phase r = WaitingForReceiverSave -> proof_fits r p ->
  sender_ok (set_phase Delivered (set_proof p r)).
Proof.
  intros [] Hp Hfit. split; cbn; try done.
  - intros ? [= <-]. exact Hfit.
  - unfold valid_phase in *. cbn. rewrite Hp in so_phase0. bool_prop.
    repeat case_bool_decide; naive_solver.
Qed.

(** The sender's record stays consistent: a new record for a non-empty
    manifest is valid for its offer; on a valid record, committing an Accept,
    committing the results of a complete data plane, or confirming with any
    frame and any outcome of the write leaves a valid record again, and a
    refused commit leaves it untouched. *)
Theorem sender_record_consistent offer r accept digest summary fs frame fault :
  (entries (manifest offer) <> [] ->
    validate_offer is_nfc blake3 derive_key keyed_hash (sender_new offer) offer = Ok tt) /\
  (validate r = Ok tt ->
    (let '(r', res) := commit_accept r accept digest in
     validate r' = Ok tt /\ (res = Ok tt \/ r' = r)) /\
    (summary_ok r summary ->
     let '(r', res) := commit_results r summary in
     validate r' = Ok tt /\ (res = Ok tt \/ r' = r)) /\
    (let '(r', fs', res) := confirm r fs frame fault in validate r' = Ok tt)).
Proof.
  split; [apply sender_new_valid|]. rewrite sender_validate_ok. intros Hok. split_and!.
  - destruct (commit_accept r accept digest) as [r' res] eqn:H. rewrite sender_validate_ok.
    split; [by eapply commit_accept_ok|].
    eapply commit_accept_cases in H as [->|(-> & _)]; [by right|by left|done].
  - intros Hsum. destruct (commit_results r summary) as [r' res] eqn:H. rewrite sender_validate_ok.
    split; [by eapply commit_results_ok|].
    eapply commit_results_cases in H as [->|(-> & _)]; [by right|by left|done].
  - destruct (confirm r fs frame fault) as [[r' fs'] res] eqn:H. rewrite sender_validate_ok.
    apply confirm_cases in H as [(-> & _)|(p & saved & _ & Hp & Hfit & -> & _)]; [done|].
    by apply delivered_ok.
Qed.
End Records.
