(* ===== verification/Ledger.v ===== *)
(** The receiver's durable ledger and the pure checks of the data plane
    (crates/envoix-transfer/src/manifest_v2_engine.rs): checkpoints, the
    validation of accepts, blocks and resume boundaries, the completions both
    ends hash, the block codec, and the ledger's store.

    BLAKE3, the NFC test, zstd and serde_json are parameters. *)

From stdpp Require Import prelude gmap strings pretty.
From Stdlib Require Import ZArith Lia Strings.Byte.
From S2P Require Import Prelude Bytes ManifestV2 OfferCodec Frames Delivery.

Local Open Scope Z_scope.

(** ** Data *)

Definition RECEIVER_DATA_PLANE_SCHEMA_VERSION : Z := 1.
Definition LEGACY_SMART_COMPRESSION_SAMPLE_BYTES : Z := 64 * 1024.
Definition ZSTD_COMPRESSION_LEVEL : Z := 3.

(** [TransferJobError] (job.rs) and [DestinationPlanErrorV2] (destination_v2.rs);
    an [io::Error] or a [serde_json::Error] carries nothing. *)
Inductive TransferJobError :=
| JE_Entropy | JE_SealedMutation | JE_Canceled
| JE_UnknownSelection (id : Z) | JE_UnknownItem (id : Z)
| JE_DecisionNotRequired | JE_EmptyPartialRoot | JE_PartialNotAllowed
| JE_OverlappingSelection | JE_UnresolvedSourceDecision | JE_PreparationIncomplete
| JE_StaleInventoryCursor (expected actual : Z)
| JE_InvalidPageLimit | JE_InvalidComponent | JE_RootLimit | JE_EntryLimit
| JE_SourceChanged | JE_NotRegularFile | JE_SampleLimit
| JE_UnsupportedSchema (v : Z) | JE_InvalidRecord (what : string) | JE_Protocol
| JE_Io | JE_Json.

Inductive DestinationPlanErrorV2 :=
| PE_CopyDecisionRequired | PE_MissingCopyStaging | PE_UnsupportedProvider
| PE_UnknownCapacity | PE_ExceptionalTransferApprovalRequired
| PE_InsufficientSpace (required available : Z)
| PE_SpaceOverflow | PE_NameExhausted | PE_ReservationLost | PE_LateCollision
| PE_DestinationContended | PE_ReusedObjectLost | PE_InvalidEntryState | PE_Io
(** An index out of range: the call panics. *)
| PE_Panicked.

Inductive ManifestV2DataError :=
| D_JobNotSealed
| D_UnexpectedFrame (what : string)
| D_IdentityMismatch
| D_AcceptMismatch
| D_EntryOrder
| D_BlockOrder
| D_DigestConflict
| D_FinalMismatch
| D_UnsupportedEncoding
| D_InvalidCompressedBlock
| D_ReuseUnavailable
| D_InvalidLedger (what : string)
| D_ArithmeticOverflow
| D_Job (e : TransferJobError)
| D_Codec (e : ManifestV2FrameCodecError)
| D_Io
| D_Core
| D_Destination (e : DestinationPlanErrorV2)
| D_DestinationContract (what : string)
| D_Delivery (e : DeliveryAuthorityErrorV2)
| D_Internal
| D_Json
(** An index out of range: the call panics. *)
| D_Panicked.

Abbreviation data A := (result ManifestV2DataError A).

#[export] Instance TransferJobError_eq_dec : EqDecision TransferJobError.
Proof. solve_decision. Defined.
#[export] Instance DestinationPlanErrorV2_eq_dec : EqDecision DestinationPlanErrorV2.
Proof. solve_decision. Defined.
#[export] Instance ManifestV2DataError_eq_dec : EqDecision ManifestV2DataError.
Proof. solve_decision. Defined.
#[export] Instance EntryArbiterV2_eq_dec : EqDecision EntryArbiterV2.
Proof. solve_decision. Defined.
#[export] Instance EntryDigestDecisionV2_eq_dec : EqDecision EntryDigestDecisionV2.
Proof. solve_decision. Defined.
#[export] Instance EntryStartV2_eq_dec : EqDecision EntryStartV2.
Proof. solve_decision. Defined.
#[export] Instance EntryCompleteV2_eq_dec : EqDecision EntryCompleteV2.
Proof. solve_decision. Defined.

Record SavedEntryV2 := mkSavedEntry {
  se_entry_id : Z;
  se_result : EntryResultKindV2;
  se_final_component_override : option str;
}.

Record VerifiedEntryV2 := mkVerified {
  ve_entry_id : Z;
  ve_final_digest : option ContentDigestV2;
  ve_completion_choice : EntryCompletionChoiceV2;
}.

Record ReceiverEntryCheckpointV2 := mkCheckpoint {
  cp_entry_id : Z;
  cp_start : option EntryStartV2;
  cp_arbiter : EntryArbiterV2;
  cp_next_plaintext_block : Z;
  cp_plaintext_bytes : Z;
  cp_content_digest : option ContentDigestV2;
  cp_completion : option EntryCompleteV2;
  cp_result : option EntryResultV2;
  cp_payload_retired : bool;
}.

Record ReceiverDataPlaneLedgerV2 := mkLedger {
  rl_schema_version : Z;
  rl_identity : JobGenerationV2;
  rl_manifest_digest : ContentDigestV2;
  rl_accept : ManifestAcceptV2;
  rl_accept_body_digest : ContentDigestV2;
  rl_entries : list ReceiverEntryCheckpointV2;
  rl_sender_completion_set_digest : option ContentDigestV2;
}.

Inductive SenderResumeIntentV2 := ContinueData | AwaitDelivery.

(** ** Assignments to the fields of a checkpoint and of a ledger *)

Definition set_cp_start (v : EntryStartV2) (c : ReceiverEntryCheckpointV2) :=
  mkCheckpoint (cp_entry_id c) (Some v) (cp_arbiter c) (cp_next_plaintext_block c)
    (cp_plaintext_bytes c) (cp_content_digest c) (cp_completion c) (cp_result c)
    (cp_payload_retired c).
Definition set_cp_arbiter (v : EntryArbiterV2) (c : ReceiverEntryCheckpointV2) :=
  mkCheckpoint (cp_entry_id c) (cp_start c) v (cp_next_plaintext_block c)
    (cp_plaintext_bytes c) (cp_content_digest c) (cp_completion c) (cp_result c)
    (cp_payload_retired c).
Definition set_cp_boundary (next bytes : Z) (c : ReceiverEntryCheckpointV2) :=
  mkCheckpoint (cp_entry_id c) (cp_start c) (cp_arbiter c) next bytes (cp_content_digest c)
    (cp_completion c) (cp_result c) (cp_payload_retired c).
Definition set_cp_digest (v : option ContentDigestV2) (c : ReceiverEntryCheckpointV2) :=
  mkCheckpoint (cp_entry_id c) (cp_start c) (cp_arbiter c) (cp_next_plaintext_block c)
    (cp_plaintext_bytes c) v (cp_completion c) (cp_result c) (cp_payload_retired c).
Definition set_cp_completion (v : option EntryCompleteV2) (c : ReceiverEntryCheckpointV2) :=
  mkCheckpoint (cp_entry_id c) (cp_start c) (cp_arbiter c) (cp_next_plaintext_block c)
    (cp_plaintext_bytes c) (cp_content_digest c) v (cp_result c) (cp_payload_retired c).
Definition set_cp_result (v : EntryResultV2) (c : ReceiverEntryCheckpointV2) :=
  mkCheckpoint (cp_entry_id c) (cp_start c) (cp_arbiter c) (cp_next_plaintext_block c)
    (cp_plaintext_bytes c) (cp_content_digest c) (cp_completion c) (Some v) (cp_payload_retired c).
Definition set_cp_retired (v : bool) (c : ReceiverEntryCheckpointV2) :=
  mkCheckpoint (cp_entry_id c) (cp_start c) (cp_arbiter c) (cp_next_plaintext_block c)
    (cp_plaintext_bytes c) (cp_content_digest c) (cp_completion c) (cp_result c) v.

Definition set_rl_entries (es : list ReceiverEntryCheckpointV2) (l : ReceiverDataPlaneLedgerV2) :=
  mkLedger (rl_schema_version l) (rl_identity l) (rl_manifest_digest l) (rl_accept l)
    (rl_accept_body_digest l) es (rl_sender_completion_set_digest l).
Definition set_rl_completion (d : option ContentDigestV2) (l : ReceiverDataPlaneLedgerV2) :=
  mkLedger (rl_schema_version l) (rl_identity l) (rl_manifest_digest l) (rl_accept l)
    (rl_accept_body_digest l) (rl_entries l) d.
(** [ledger.entries[index] = f(ledger.entries[index])], in range. *)
Definition alter_entry (index : Z) (f : ReceiverEntryCheckpointV2 -> ReceiverEntryCheckpointV2)
    (l : ReceiverDataPlaneLedgerV2) : ReceiverDataPlaneLedgerV2 :=
  set_rl_entries (alter f (Z.to_nat index) (rl_entries l)) l.

(** [vec[index]] *)
Definition index_at {A} (l : list A) (index : Z) : data A := ok_or D_Panicked (vec_get l index).

(** [checked_mul] and [saturating_mul] of [u64]. *)
Definition checked_mul (max a b : Z) : option Z := if a * b <=? max then Some (a * b) else None.
Definition saturating_mul (max a b : Z) : Z := Z.min max (a * b).

(** [match entry.content_digest { Known(digest) => Some(digest), Deferred => None }] *)
Definition known_digest (entry : ManifestEntryV2) : option ContentDigestV2 :=
  match content_digest entry with Known d => Some d | Deferred => None end.

(** [iter().map(|entry| entry.result.clone()).collect::<Option<Vec<_>>>()] *)
Fixpoint collect_options {A} (l : list (option A)) : option (list A) :=
  match l with
  | [] => Some []
  | x :: l' => x ← x; rest ← collect_options l'; Some (x :: rest)
  end.

(** ** Accepts *)

Definition block_bytes : Z := DEFAULT_MANIFEST_V2_BLOCK_PLAINTEXT_BYTES.

(** The number of default-sized blocks of an entry, rounded up. *)
Definition total_blocks (entry : ManifestEntryV2) : data Z :=
  padded ← ok_or D_ArithmeticOverflow (checked_add u64_max (plaintext_size entry) (block_bytes - 1));
  Ok (padded / block_bytes).

Fixpoint check_root_plans (index : Z) (rs : list ManifestRootV2) (plans : list RootPlanV2)
    : data unit :=
  match rs, plans with
  | r :: rs', plan :: plans' =>
    if negb (root_id r =? as_u32 index) || negb (rp_root_id plan =? root_id r)
    then Err D_AcceptMismatch
    else check_root_plans (index + 1) rs' plans'
  | _, _ => Ok tt
  end.

Definition check_entry_plan (entry : ManifestEntryV2) (plan : EntryPlanV2) : data unit :=
  if negb (ep_entry_id plan =? entry_id entry)
     || bool_decide (kind entry = Directory)
        && (negb (bool_decide (disposition plan = ReceivePayload))
            || negb (ep_next_plaintext_block plan =? 0))
     || bool_decide (disposition plan = DispositionReuseExisting)
        && (bool_decide (known_digest entry = None)
            || negb (ep_next_plaintext_block plan =? 0))
  then Err D_AcceptMismatch
  else
    blocks ← total_blocks entry;
    if blocks <? ep_next_plaintext_block plan then Err D_AcceptMismatch else Ok tt.

Fixpoint check_entry_plans (es : list ManifestEntryV2) (plans : list EntryPlanV2) : data unit :=
  match es, plans with
  | e :: es', plan :: plans' => _ ← check_entry_plan e plan; check_entry_plans es' plans'
  | _, _ => Ok tt
  end.

Definition validate_accept (offer : ManifestOfferV2) (accept : ManifestAcceptV2) : data unit :=
  if negb (bool_decide (jg_job_id (acc_identity accept) = job_id (manifest offer)))
     || negb (jg_generation (acc_identity accept) =? generation (manifest offer))
     || negb (bool_decide (acc_manifest_digest accept = structural_digest offer))
     || negb (zlen (root_plans accept) =? zlen (roots (manifest offer)))
     || negb (zlen (entry_plans accept) =? zlen (entries (manifest offer)))
  then Err D_AcceptMismatch
  else
    _ ← check_root_plans 0 (roots (manifest offer)) (root_plans accept);
    check_entry_plans (entries (manifest offer)) (entry_plans accept).

(** ** Completions *)

Section Completions.
Context (is_nfc : str -> bool) (blake3 : list byte -> list byte).

Definition empty_digest : ContentDigestV2 := blake3 [].

Definition result_kind_of (choice : EntryCompletionChoiceV2) : EntryResultKindV2 :=
  match choice with PayloadComplete => Saved | CompletionReuseChosen => ReusedExisting end.
Definition choice_of (k : EntryResultKindV2) : EntryCompletionChoiceV2 :=
  match k with Saved => PayloadComplete | ReusedExisting => CompletionReuseChosen end.

Definition completion_from_result (entry : ManifestEntryV2) (r : EntryResultV2)
    : data EntryCompleteV2 :=
  if negb (er_entry_id r =? entry_id entry) || negb (er_final_size r =? plaintext_size entry)
  then Err D_FinalMismatch
  else
    final_digest ←
      match kind entry, er_final_digest r with
      | RegularFile, Some d => Ok d
      | RegularFile, None => Err D_FinalMismatch
      | Directory, None => Ok empty_digest
      | Directory, Some _ => Err D_FinalMismatch
      end;
    Ok (mkComplete (er_identity r) (er_entry_id r) (er_final_size r) final_digest
          (choice_of (er_result r))).

Definition completion_from_resume_checkpoint (id : JobGenerationV2) (entry : ManifestEntryV2)
    (checkpoint : ResumeEntryV2) : data EntryCompleteV2 :=
  '(final_digest, choice) ←
    match arbiter checkpoint with
    | PayloadOpen => Err (D_InvalidLedger "open payload cannot be treated as complete")
    | ArbiterReuseChosen =>
      d ← ok_or (D_InvalidLedger "reused entry is missing its content digest")
            (re_content_digest checkpoint);
      Ok (d, CompletionReuseChosen)
    | PayloadCompleteChosen =>
      d ← (if bool_decide (kind entry = Directory) then Ok empty_digest
           else ok_or (D_InvalidLedger "completed file is missing its content digest")
                  (re_content_digest checkpoint));
      Ok (d, PayloadComplete)
    end;
  Ok (mkComplete id (entry_id entry) (plaintext_size entry) final_digest choice).

(** The bytes the completion hasher has taken, after one more completion. *)
Definition update_completion_set (hasher : list byte) (completion : EntryCompleteV2)
    : data (list byte) :=
  bytes ← map_err D_Codec (encode_manifest_v2_frame is_nfc blake3 (EntryComplete completion));
  Ok (hasher ++ push_u32 (as_u32 (zlen bytes)) ++ bytes).

Definition validate_entry_result (entry : ManifestEntryV2) (id : JobGenerationV2)
    (completion : EntryCompleteV2) (r : EntryResultV2) : data unit :=
  if negb (bool_decide (er_identity r = id))
     || negb (er_entry_id r =? entry_id entry)
     || negb (bool_decide (er_result r = result_kind_of (completion_choice completion)))
     || negb (er_final_size r =? plaintext_size entry)
     || bool_decide (kind entry = Directory) && bool_decide (is_Some (er_final_digest r))
     || bool_decide (kind entry = RegularFile) && bool_decide (er_final_digest r = None)
     || bool_decide (kind entry = RegularFile)
        && negb (bool_decide (er_final_digest r = Some (ec_final_digest completion)))
  then Err D_FinalMismatch
  else Ok tt.

(** ** Resume boundaries *)

Definition result_matches_arbiter (checkpoint : ResumeEntryV2) : bool :=
  match entry_result checkpoint with
  | None => true
  | Some r =>
    match arbiter checkpoint, er_result r with
    | ArbiterReuseChosen, ReusedExisting | PayloadCompleteChosen, Saved => true
    | _, _ => false
    end
  end.

Definition arbiter_shape_valid (entry : ManifestEntryV2) (checkpoint : ResumeEntryV2) : bool :=
  match arbiter checkpoint with
  | PayloadOpen => bool_decide (entry_result checkpoint = None)
  | ArbiterReuseChosen =>
    bool_decide (kind entry = RegularFile)
    && (re_next_plaintext_block checkpoint =? 0)
    && bool_decide (is_Some (re_content_digest checkpoint))
  | PayloadCompleteChosen => true
  end.

Definition check_resume_entry (id : JobGenerationV2) (entry : ManifestEntryV2)
    (checkpoint : ResumeEntryV2) : data unit :=
  blocks ← total_blocks entry;
  if negb (re_entry_id checkpoint =? entry_id entry)
     || (blocks <? re_next_plaintext_block checkpoint)
     || negb (arbiter_shape_valid entry checkpoint)
     || negb (result_matches_arbiter checkpoint)
     || match entry_result checkpoint with
        | Some r => negb (bool_decide (er_identity r = id))
                    || negb (er_entry_id r =? entry_id entry)
                    || negb (is_ok (completion_from_result entry r))
        | None => false
        end
  then Err (D_InvalidLedger "receiver resume boundary is inconsistent")
  else Ok tt.

Fixpoint check_resume_entries (id : JobGenerationV2) (es : list ManifestEntryV2)
    (checkpoints : list ResumeEntryV2) : data unit :=
  match es, checkpoints with
  | e :: es', c :: cs' => _ ← check_resume_entry id e c; check_resume_entries id es' cs'
  | _, _ => Ok tt
  end.

Definition validate_resume_status (m : ManifestV2) (record : SenderDeliveryRecordV2)
    (status : ResumeStatusV2) : data unit :=
  accept ← ok_or (D_InvalidLedger "sender Accept is missing during resume") (sd_accept record);
  if negb (bool_decide (rs_identity status = sd_identity record))
     || negb (bool_decide (Some (rs_accept_body_digest status) = sd_accept_body_digest record))
     || negb (rs_plan_revision status =? acc_plan_revision accept)
     || negb (zlen (rs_entries status) =? zlen (entries m))
  then Err D_AcceptMismatch
  else
    _ ← check_resume_entries (rs_identity status) (entries m) (rs_entries status);
    if bool_decide (sd_phase record = WaitingForReceiverSave)
       || bool_decide (sd_phase record = Delivered)
    then
      completed ← ok_or (D_InvalidLedger "sender waiting-for-save record has no completed result set")
                    (completed_data_summary record);
      if negb (bool_decide (collect_options (map entry_result (rs_entries status))
                            = Some (ss_entry_results completed)))
      then Err (D_InvalidLedger "receiver resume result set differs from the sender checkpoint")
      else Ok tt
    else Ok tt.

Definition resume_entry_plaintext_bytes (entry : ManifestEntryV2) (checkpoint : ResumeEntryV2)
    : data Z :=
  if negb (re_entry_id checkpoint =? entry_id entry) then Err D_EntryOrder
  else if bool_decide (is_Some (entry_result checkpoint))
          || bool_decide (arbiter checkpoint = ArbiterReuseChosen)
          || bool_decide (arbiter checkpoint = PayloadCompleteChosen)
  then Ok (plaintext_size entry)
  else
    bytes ← ok_or D_ArithmeticOverflow
              (checked_mul u64_max (re_next_plaintext_block checkpoint) block_bytes);
    Ok (Z.min bytes (plaintext_size entry)).

(** [try_fold] from [total]. *)
Fixpoint fold_resume_bytes (total : Z) (es : list ManifestEntryV2)
    (checkpoints : list ResumeEntryV2) : data Z :=
  match es, checkpoints with
  | e :: es', c :: cs' =>
    bytes ← resume_entry_plaintext_bytes e c;
    total' ← ok_or D_ArithmeticOverflow (checked_add u64_max total bytes);
    fold_resume_bytes total' es' cs'
  | _, _ => Ok total
  end.

Definition resume_plaintext_bytes (m : ManifestV2) (status : ResumeStatusV2) : data Z :=
  fold_resume_bytes 0 (entries m) (rs_entries status).

End Completions.

(** ** Reconnect intent *)

Section Intent.
Context (derive_key : str -> list byte -> list byte).

Definition SENDER_CHECKPOINT_CONTEXT : str := lit "envoix/manifest/v2/sender-checkpoint".

(** [sender_checkpoint_digest] *)
Definition checkpoint_digest_of (manifest_digest accept_body_digest : ContentDigestV2)
    (intent : SenderResumeIntentV2) : ContentDigestV2 :=
  derive_key SENDER_CHECKPOINT_CONTEXT
    (manifest_digest ++ accept_body_digest ++
     push_u8 match intent with ContinueData => 1 | AwaitDelivery => 2 end).

Definition sender_resume_intent (manifest_digest accept_body_digest : ContentDigestV2)
    (request : ResumeRequestV2) : data SenderResumeIntentV2 :=
  let sent_as intent := bool_decide (sender_checkpoint_digest request
                     = checkpoint_digest_of manifest_digest accept_body_digest intent) in
  if sent_as ContinueData then Ok ContinueData
  else if sent_as AwaitDelivery then Ok AwaitDelivery
  else Err (D_InvalidLedger "sender reconnect intent is invalid").
End Intent.

(** ** Blocks *)

Section Blocks.
(** [zstd::bulk::compress(_, ZSTD_COMPRESSION_LEVEL)] and [zstd::bulk::decompress]. *)
Context (zstd_compress : list byte -> option (list byte)).
Context (zstd_decompress : list byte -> Z -> option (list byte)).

Definition encode_block (enc : EntryEncodingV2) (plaintext : list byte) : data (list byte) :=
  encoded ← match enc with
            | Identity => Ok plaintext
            | Zstd => ok_or D_InvalidCompressedBlock (zstd_compress plaintext)
            end;
  if bool_decide (encoded = []) || (MAX_MANIFEST_V2_BLOCK_ENCODED_BYTES <? zlen encoded)
  then Err D_InvalidCompressedBlock
  else Ok encoded.

Definition decode_block (enc : EntryEncodingV2) (block : EntryBlockV2) : data EntryBlockV2 :=
  let expected := plaintext_length block in
  plaintext ← match enc with
              | Identity => Ok (encoded_bytes block)
              | Zstd => ok_or D_InvalidCompressedBlock
                          (zstd_decompress (encoded_bytes block) expected)
              end;
  if negb (zlen plaintext =? expected) then Err D_InvalidCompressedBlock
  else Ok (mkBlock (eb_identity block) (eb_entry_id block) (block_index block)
             (plaintext_offset block) (plaintext_length block) plaintext).
End Blocks.

Definition validate_block (entry : ManifestEntryV2) (checkpoint : ReceiverEntryCheckpointV2)
    (block : EntryBlockV2) : data unit :=
  start ← ok_or (D_InvalidLedger "entry start is missing") (cp_start checkpoint);
  expected_offset ← ok_or D_ArithmeticOverflow
                      (checked_mul u64_max (block_index block) (plaintext_block_bytes start));
  stop ← ok_or D_ArithmeticOverflow
           (checked_add u64_max (plaintext_offset block) (plaintext_length block));
  if negb (bool_decide (eb_identity block = es_identity start))
     || negb (eb_entry_id block =? entry_id entry)
     || negb (block_index block =? cp_next_plaintext_block checkpoint)
     || negb (plaintext_offset block =? expected_offset)
     || (plaintext_size entry <? stop)
     || (plaintext_length block =? 0)
     || (plaintext_block_bytes start <? plaintext_length block)
     || bool_decide (encoded_bytes block = [])
     || (MAX_MANIFEST_V2_BLOCK_ENCODED_BYTES <? zlen (encoded_bytes block))
     || bool_decide (encoding start = Identity)
        && negb (plaintext_length block =? zlen (encoded_bytes block))
     || (stop <? plaintext_size entry)
        && negb (plaintext_length block =? plaintext_block_bytes start)
  then Err D_BlockOrder
  else Ok tt.

(** The checkpoint after the call. *)
Definition set_or_equal_digest (c : ReceiverEntryCheckpointV2) (digest : ContentDigestV2)
    : ReceiverEntryCheckpointV2 * data unit :=
  match cp_content_digest c with
  | Some existing => if negb (bool_decide (existing = digest)) then (c, Err D_DigestConflict)
                     else (c, Ok tt)
  | None => (set_cp_digest (Some digest) c, Ok tt)
  end.

(** What a retired or reset payload starts again from. *)
Definition retire_checkpoint (entry : ManifestEntryV2) (c : ReceiverEntryCheckpointV2)
    : ReceiverEntryCheckpointV2 :=
  mkCheckpoint (cp_entry_id c) (cp_start c) PayloadOpen 0 0 (known_digest entry) None
    (cp_result c) true.

(** ** The ledger *)

Section LedgerOps.
Context (is_nfc : str -> bool) (blake3 : list byte -> list byte).
Local Notation accept_digest a :=
  (map_err D_Codec (canonical_manifest_v2_frame_body_digest is_nfc blake3 (Accept a))).

(** The checkpoint of one entry of a fresh ledger. *)
Definition new_checkpoint (accept : ManifestAcceptV2) (entry : ManifestEntryV2)
    : data ReceiverEntryCheckpointV2 :=
  plan ← index_at (entry_plans accept) (entry_id entry);
  Ok (mkCheckpoint (entry_id entry) None PayloadOpen (ep_next_plaintext_block plan)
        (Z.min (saturating_mul u64_max (ep_next_plaintext_block plan) block_bytes)
           (plaintext_size entry))
        (known_digest entry) None None false).

Fixpoint new_checkpoints (accept : ManifestAcceptV2) (es : list ManifestEntryV2)
    : data (list ReceiverEntryCheckpointV2) :=
  match es with
  | [] => Ok []
  | e :: es' => c ← new_checkpoint accept e; cs ← new_checkpoints accept es'; Ok (c :: cs)
  end.

Definition ledger_new (offer : ManifestOfferV2) (accept : ManifestAcceptV2)
    : data ReceiverDataPlaneLedgerV2 :=
  _ ← validate_accept offer accept;
  accept_body_digest ← accept_digest accept;
  es ← new_checkpoints accept (entries (manifest offer));
  Ok (mkLedger RECEIVER_DATA_PLANE_SCHEMA_VERSION (acc_identity accept)
        (structural_digest offer) accept accept_body_digest es None).

Definition requires_authenticated_resume (l : ReceiverDataPlaneLedgerV2) : bool :=
  bool_decide (is_Some (rl_sender_completion_set_digest l))
  || existsb (fun c => bool_decide (is_Some (cp_start c))
                       || bool_decide (is_Some (cp_completion c))
                       || bool_decide (is_Some (cp_result c))
                       || (0 <? cp_next_plaintext_block c) || (0 <? cp_plaintext_bytes c))
       (rl_entries l).

(** The checks of one checkpoint against its place in the ledger. *)
Definition checkpoint_misplaced (id : JobGenerationV2) (index : Z) (c : ReceiverEntryCheckpointV2)
    : bool :=
  negb (cp_entry_id c =? as_u32 index)
  || match cp_result c with
     | Some r => negb (bool_decide (er_identity r = id)) || negb (er_entry_id r =? cp_entry_id c)
     | None => false
     end
  || match cp_start c with
     | Some s => negb (bool_decide (es_identity s = id)) || negb (es_entry_id s =? cp_entry_id c)
     | None => false
     end
  || match cp_completion c with
     | Some k => negb (bool_decide (ec_identity k = id)) || negb (ec_entry_id k =? cp_entry_id c)
     | None => false
     end.

Fixpoint checkpoints_misplaced (id : JobGenerationV2) (index : Z)
    (cs : list ReceiverEntryCheckpointV2) : bool :=
  match cs with
  | [] => false
  | c :: cs' => checkpoint_misplaced id index c || checkpoints_misplaced id (index + 1) cs'
  end.

Definition ledger_validate (l : ReceiverDataPlaneLedgerV2) (m : ManifestV2) : data unit :=
  rebuilt_offer ← map_err (fun e => D_Codec (FE_Offer (OfferCodecRejected e)))
                    (build_manifest_offer_v2 is_nfc blake3 m);
  if negb (rl_schema_version l =? RECEIVER_DATA_PLANE_SCHEMA_VERSION)
     || negb (bool_decide (jg_job_id (rl_identity l) = job_id m))
     || negb (jg_generation (rl_identity l) =? generation m)
     || negb (bool_decide (rl_manifest_digest l = structural_digest rebuilt_offer))
     || negb (zlen (rl_entries l) =? zlen (entries m))
     || negb (bool_decide (acc_identity (rl_accept l) = rl_identity l))
     || negb (bool_decide (acc_manifest_digest (rl_accept l) = rl_manifest_digest l))
  then Err (D_InvalidLedger "identity, schema, or entry count changed")
  else
    _ ← validate_accept rebuilt_offer (rl_accept l);
    if checkpoints_misplaced (rl_identity l) 0 (rl_entries l)
    then Err (D_InvalidLedger "entry checkpoint identity changed")
    else
      digest ← accept_digest (rl_accept l);
      if negb (bool_decide (digest = rl_accept_body_digest l))
      then Err (D_InvalidLedger "Accept bytes changed after commit")
      else Ok tt.

Definition resume_entry_of (c : ReceiverEntryCheckpointV2) : ResumeEntryV2 :=
  mkResumeEntry (cp_entry_id c) (cp_arbiter c) (cp_next_plaintext_block c) (cp_content_digest c)
    (cp_result c).

Definition resume_status (l : ReceiverDataPlaneLedgerV2) : ResumeStatusV2 :=
  mkResumeStatus (rl_identity l) (rl_accept_body_digest l) (acc_plan_revision (rl_accept l))
    (map resume_entry_of (rl_entries l)) (zero_bytes 32) (zero_bytes 32).

Definition validate_resume_request (l : ReceiverDataPlaneLedgerV2) (request : ResumeRequestV2)
    : data unit :=
  if negb (bool_decide (rr_identity request = rl_identity l))
     || negb (bool_decide (structural_digest (rr_offer request) = rl_manifest_digest l))
     || negb (bool_decide (rr_accept_body_digest request = rl_accept_body_digest l))
  then Err D_AcceptMismatch
  else Ok tt.

Definition completed_summary (l : ReceiverDataPlaneLedgerV2) : option ReceiverDataPlaneSummaryV2 :=
  digest ← rl_sender_completion_set_digest l;
  results ← collect_options (map cp_result (rl_entries l));
  Some (mkReceiverSummary (rl_identity l) digest results).

(** [filter] evaluates its closure on every entry: an index out of range panics. *)
Fixpoint pending_payload_from (accept : ManifestAcceptV2) (cs : list ReceiverEntryCheckpointV2)
    : data (list (Z * Z * Z * bool)) :=
  match cs with
  | [] => Ok []
  | c :: cs' =>
    pending ← (if bool_decide (cp_result c = None)
               then plan ← index_at (entry_plans accept) (cp_entry_id c);
                    Ok (bool_decide (disposition plan = ReceivePayload))
               else Ok false);
    rest ← pending_payload_from accept cs';
    Ok (if (pending : bool)
        then (cp_entry_id c, cp_next_plaintext_block c, cp_plaintext_bytes c,
              bool_decide (is_Some (cp_completion c))) :: rest
        else rest)
  end.

Definition pending_payload_boundaries (l : ReceiverDataPlaneLedgerV2)
    : data (list (Z * Z * Z * bool)) :=
  pending_payload_from (rl_accept l) (rl_entries l).

Definition pending_reuse_entries (l : ReceiverDataPlaneLedgerV2) : list (Z * ContentDigestV2) :=
  omap (fun c =>
    if bool_decide (cp_result c = None) && bool_decide (cp_arbiter c = ArbiterReuseChosen)
    then (fun d => (cp_entry_id c, d)) <$> cp_content_digest c
    else None) (rl_entries l).

(** ** The store *)

Context (ledger_to_vec : ReceiverDataPlaneLedgerV2 -> option (list byte)).
Context (ledger_from_slice : list byte -> option ReceiverDataPlaneLedgerV2).

Definition ledger_stem (id : JobGenerationV2) : str :=
  lit "receiver-" ++ encode_job_id (jg_job_id id) ++ lit "-" ++
  lit (pretty (Z.to_N (jg_generation id))).
Definition ledger_path (id : JobGenerationV2) : str := ledger_stem id ++ lit ".json".
(** [final_path.with_extension("tmp")] *)
Definition ledger_temporary_path (id : JobGenerationV2) : str := ledger_stem id ++ lit ".tmp".

Definition ledger_save (fs : files) (l : ReceiverDataPlaneLedgerV2) (fault : SaveFault)
    : files * data unit :=
  let final := ledger_path (rl_identity l) in
  let tmp := ledger_temporary_path (rl_identity l) in
  match fault, ledger_to_vec l with
  | DirectoryFault, _ => (fs, Err D_Io)
  | _, None => (fs, Err D_Json)
  | WriteFault None, Some _ => (fs, Err D_Io)
  | WriteFault (Some part), Some _ => (<[tmp := part]> fs, Err D_Io)
  | SyncFault, Some bytes => (<[final := bytes]> (delete tmp fs), Err D_Io)
  | NoFault, Some bytes => (<[final := bytes]> (delete tmp fs), Ok tt)
  end.

Definition ledger_load (fs : files) (id : JobGenerationV2)
    : data (option ReceiverDataPlaneLedgerV2) :=
  match fs !! ledger_path id with
  | None => Ok None
  | Some bytes => l ← ok_or D_Json (ledger_from_slice bytes); Ok (Some l)
  end.

(** The ledger in memory and the files after the call. *)
Definition reset_payload_checkpoint (l : ReceiverDataPlaneLedgerV2) (m : ManifestV2) (eid : Z)
    (fs : files) (fault : SaveFault) : ReceiverDataPlaneLedgerV2 * files * data unit :=
  match
    (entry ← ok_or D_EntryOrder (vec_get (entries m) eid);
     _ ← ensure (entry_id entry =? eid) D_EntryOrder;
     plan ← ok_or D_EntryOrder (vec_get (entry_plans (rl_accept l)) eid);
     _ ← ensure (ep_entry_id plan =? eid) D_EntryOrder;
     c ← ok_or D_EntryOrder (vec_get (rl_entries l) eid);
     _ ← ensure (cp_entry_id c =? eid) D_EntryOrder;
     if bool_decide (is_Some (cp_result c))
        || negb (bool_decide (disposition plan = ReceivePayload))
     then Err (D_InvalidLedger "cannot reset a terminal or reuse payload checkpoint")
     else Ok entry)
  with
  | Err e => (l, fs, Err e)
  | Ok entry =>
    let reset c := mkCheckpoint (cp_entry_id c) None PayloadOpen 0 0 (known_digest entry) None
                     (cp_result c) true in
    let l := set_rl_completion None (alter_entry eid reset l) in
    let '(fs, saved) := ledger_save fs l fault in
    (l, fs, saved)
  end.
End LedgerOps.
