(* ===== verification/Names.v ===== *)
(** The names a receiver gives to what it saves
    (crates/envoix-transfer/src/destination_v2.rs): names that the platform
    takes, numbered variants of a name, and the choice of one that is free. *)

From stdpp Require Import prelude gmap strings pretty.
From Stdlib Require Import ZArith Lia Strings.Byte.
From S2P Require Import Prelude Bytes ManifestV2 Ledger.

Local Open Scope Z_scope.

(** [target_os], as far as names depend on it. *)
Inductive Platform := Windows | MacOS | OtherOs.
#[export] Instance Platform_eq_dec : EqDecision Platform.
Proof. solve_decision. Defined.

Abbreviation plan_result A := (result DestinationPlanErrorV2 A).

Definition is_byte (a b : byte) : bool := byte_val a =? byte_val b.

(** [value.ends_with(' ') || value.ends_with('.')], then [pop]: of the reversed
    value. *)
Fixpoint trim_end (rev_value : list byte) : list byte :=
  match rev_value with
  | b :: rest => if is_byte b x20 || is_byte b x2e then trim_end rest else rev_value
  | [] => []
  end.

(** [value.split('.').next()] *)
Fixpoint until_dot (s : str) : str :=
  match s with
  | [] => []
  | b :: rest => if is_byte b x2e then [] else b :: until_dot rest
  end.

Definition ascii_uppercase (b : byte) : byte :=
  if (97 <=? byte_val b) && (byte_val b <=? 122) then byte_of (byte_val b - 32) else b.

(** Less, greater, colon, double quote, slash, backslash, bar, question mark and
    star. *)
Definition windows_forbidden (b : byte) : bool :=
  existsb (is_byte b) [x3c; x3e; x3a; x22; x2f; x5c; x7c; x3f; x2a].

(** The prefix with one digit from 1 to 9. *)
Definition numbered_device (prefix stem : str) : bool :=
  existsb (fun n => bool_decide (stem = prefix ++ [n])) [x31; x32; x33; x34; x35; x36; x37; x38; x39].

Definition provider_safe_component (os : Platform) (component : str) : str :=
  match os with
  | Windows =>
    let value := map (fun b => if windows_forbidden b then x5f else b) component in
    let value := rev (trim_end (rev value)) in
    let stem := map ascii_uppercase (until_dot value) in
    let value :=
      if existsb (fun d => bool_decide (stem = d)) [lit "CON"; lit "PRN"; lit "AUX"; lit "NUL"]
         || numbered_device (lit "COM") stem || numbered_device (lit "LPT") stem
      then x5f :: value else value in
    if bool_decide (value = []) then [x5f] else value
  | MacOS | OtherOs => component
  end.

(** [str::rfind('.')] *)
Fixpoint rfind_dot (s : str) : option nat :=
  match s with
  | [] => None
  | b :: rest =>
    match rfind_dot rest with
    | Some i => Some (S i)
    | None => if is_byte b x2e then Some 0%nat else None
    end
  end.

(** [str::is_char_boundary]: the byte there does not continue a character. *)
Definition is_char_boundary (s : str) (index : nat) : bool :=
  match index with
  | O => true
  | _ =>
    match s !! index with
    | None => (index =? length s)%nat
    | Some b => negb ((128 <=? byte_val b) && (byte_val b <? 192))
    end
  end.

(** [while !stem.is_char_boundary(end) { end -= 1; }] *)
Fixpoint boundary_before (s : str) (stop : nat) : nat :=
  if is_char_boundary s stop then stop
  else match stop with O => O | S stop => boundary_before s stop end.

(** [format!(" ({suffix})")] *)
Definition suffix_text (suffix : N) : str := lit " (" ++ lit (pretty suffix) ++ lit ")".

(** The stem and the extension that stays behind the number: from the last dot,
    when that is not the first byte and leaves room. *)
Definition split_extension (base suffix : str) (preserve_extension : bool) : str * str :=
  let extension_offset :=
    if preserve_extension
    then match rfind_dot base with Some (S offset) => Some (S offset) | _ => None end else None in
  match extension_offset with
  | Some offset =>
    if (length (drop offset base) + length suffix <=? 255)%nat
    then (take offset base, drop offset base) else (base, [])
  | None => (base, [])
  end.

Definition component_with_suffix (base : str) (suffix : N) (preserve_extension : bool) : str :=
  let suffix := suffix_text suffix in
  let '(stem, extension) := split_extension base suffix preserve_extension in
  let maximum_stem_bytes := (255 - (length suffix + length extension))%nat in
  let stop := boundary_before stem (length stem `min` maximum_stem_bytes) in
  take stop stem ++ suffix ++ extension.

(** The candidate of one turn of the loops that look for a free name. *)
Definition candidate_name (base : str) (preserve_extension : bool) (suffix : N) : str :=
  if (suffix =? 0)%N then base else component_with_suffix base suffix preserve_extension.

(** [for suffix in 0_u32..10_000] *)
Definition SUFFIXES : list N := map N.of_nat (seq 0 (N.to_nat 10000)).

Section Keys.
Context (os : Platform) (to_lowercase : str -> str).

Definition name_equivalence_key (component : str) : str :=
  match os with MacOS | Windows => to_lowercase component | OtherOs => component end.

(** The first candidate whose key is not taken; the names taken after it. *)
Fixpoint allocate_from (suffixes : list N) (base : str) (preserve_extension : bool)
    (occupied : gset str) : plan_result (str * gset str) :=
  match suffixes with
  | [] => Err PE_NameExhausted
  | suffix :: rest =>
    let candidate := candidate_name base preserve_extension suffix in
    let key := name_equivalence_key candidate in
    if bool_decide (key ∈ occupied) then allocate_from rest base preserve_extension occupied
    else Ok (candidate, {[ key ]} ∪ occupied)
  end.

Definition allocate_in_memory_name := allocate_from SUFFIXES.
End Keys.

(** ** Candidates *)

Definition is_digit_byte (b : byte) : bool := (48 <=? byte_val b) && (byte_val b <=? 57).

Lemma suffixes_in n : n ∈ SUFFIXES <-> (n < 10000)%N.
Proof.
  unfold SUFFIXES. rewrite list_elem_of_fmap. setoid_rewrite elem_of_seq. split.
  - intros (k & -> & _ & Hk). lia.
  - intros Hn. exists (N.to_nat n). lia.
Qed.

(** The decimal texts of the suffixes: digits, at most four. *)
Lemma suffix_digits n :
  n ∈ SUFFIXES -> forallb is_digit_byte (lit (pretty n)) = true /\ (length (lit (pretty n)) <= 4)%nat.
Proof.
  assert (Hall : forallb (fun n => forallb is_digit_byte (lit (pretty n))
    && (length (lit (pretty n)) <=? 4)%nat) SUFFIXES = true) by (vm_compute; reflexivity).
  rewrite forallb_forall in Hall. intros Hn%list_elem_of_In%Hall. bool_prop. split; [done|].
  by apply Nat.leb_le.
Qed.

Lemma suffix_text_length n : n ∈ SUFFIXES -> (length (suffix_text n) <= 7)%nat.
Proof.
  intros [_ Hn]%suffix_digits. unfold suffix_text. rewrite !length_app. cbn. lia.
Qed.

Lemma boundary_before_le s n : (boundary_before s n <= n)%nat.
Proof.
  induction n as [|n IH]; [done|]. cbn [boundary_before]. destruct (is_char_boundary s (S n)); lia.
Qed.

(** A numbered variant is a component of at most 255 bytes. *)
Lemma component_with_suffix_fits base n preserve :
  n ∈ SUFFIXES -> (length (component_with_suffix base n preserve) <= 255)%nat.
Proof.
  intros Hn%suffix_text_length. unfold component_with_suffix.
  assert (He : (length (split_extension base (suffix_text n) preserve).2
                + length (suffix_text n) <= 255)%nat).
  { unfold split_extension. destruct (if preserve then _ else _) as [o|]; [|cbn [snd length]; lia].
    destruct (Nat.leb_spec (length (drop o base) + length (suffix_text n)) 255); cbn [snd length]; lia. }
  destruct (split_extension base (suffix_text n) preserve) as [stem ext]. cbn [snd] in He.
  rewrite !length_app, length_take.
  pose proof (boundary_before_le stem (length stem `min` (255 - (length (suffix_text n) + length ext)))).
  lia.
Qed.

(** The text before the digits of a suffix ends in a byte that is no digit. *)
Lemma digits_suffix_eq (x y d1 d2 : list byte) (a b : byte) :
  forallb is_digit_byte d1 = true -> forallb is_digit_byte d2 = true ->
  is_digit_byte a = false -> is_digit_byte b = false ->
  x ++ a :: d1 = y ++ b :: d2 -> d1 = d2.
Proof.
  intros H1 H2 Ha Hb Heq. revert d2 H2 Heq.
  induction d1 as [|c d1 IH] using rev_ind; intros d2 H2 Heq.
  - destruct d2 as [|c' d2' _] using rev_ind; [done|]. exfalso.
    rewrite app_comm_cons, app_assoc in Heq. apply app_inj_tail in Heq as [_ ->].
    rewrite forallb_app in H2. cbn in H2. bool_prop. congruence.
  - rewrite forallb_app in H1. cbn in H1. bool_prop.
    destruct d2 as [|c' d2 _] using rev_ind.
    + exfalso. rewrite app_comm_cons, app_assoc in Heq. apply app_inj_tail in Heq as [_ ->]. congruence.
    + rewrite !app_comm_cons, !app_assoc in Heq. apply app_inj_tail in Heq as [Heq ->].
      rewrite forallb_app in H2. cbn in H2. bool_prop. f_equal. by apply IH.
Qed.

(** The extension that a numbered variant keeps, when there is always room. *)
Definition kept_extension (base : str) (preserve : bool) : str :=
  if preserve then match rfind_dot base with Some (S o) => drop (S o) base | _ => [] end else [].

Lemma component_with_suffix_shape base n preserve :
  n ∈ SUFFIXES -> (length (kept_extension base preserve) <= 248)%nat ->
  exists stem, component_with_suffix base n preserve
    = stem ++ suffix_text n ++ kept_extension base preserve.
Proof.
  intros Hn%suffix_text_length. unfold component_with_suffix, split_extension, kept_extension.
  destruct preserve; [|cbn; eauto].
  destruct (rfind_dot base) as [[|o]|]; [cbn; eauto| |cbn; eauto].
  intros Hl. rewrite (proj2 (Nat.leb_le _ _)) by lia. eauto.
Qed.

(** Different numbers give different variants. *)
Lemma component_with_suffix_inj base n k preserve :
  n ∈ SUFFIXES -> k ∈ SUFFIXES -> (length (kept_extension base preserve) <= 248)%nat ->
  component_with_suffix base n preserve = component_with_suffix base k preserve -> n = k.
Proof.
  intros Hn Hk Hl Heq. destruct (component_with_suffix_shape base n preserve Hn Hl) as (x & Hx).
  destruct (component_with_suffix_shape base k preserve Hk Hl) as (y & Hy).
  rewrite Hx, Hy, !app_assoc in Heq. apply app_inv_tail in Heq. unfold suffix_text in Heq.
  rewrite !app_assoc in Heq. apply app_inj_tail in Heq as [Heq _].
  change (lit " (") with ([x20] ++ [x28]) in Heq. rewrite !app_assoc, <- !(app_assoc _ [x28]) in Heq.
  apply suffix_digits in Hn as [Hdn _]. apply suffix_digits in Hk as [Hdk _].
  apply digits_suffix_eq in Heq; [|done..]. apply lit_inj in Heq. by apply (inj pretty) in Heq.
Qed.

(** ** Free names *)

Section Allocation.
Context (to_lowercase : str -> str).
Local Notation allocate := (allocate_from OtherOs to_lowercase).

(** The name given is new, and is the only one added. *)
Lemma allocate_from_fresh os ns base preserve occupied name occupied' :
  allocate_from os to_lowercase ns base preserve occupied = Ok (name, occupied') ->
  name_equivalence_key os to_lowercase name ∉ occupied /\
  occupied' = {[ name_equivalence_key os to_lowercase name ]} ∪ occupied /\
  exists n, n ∈ ns /\ name = candidate_name base preserve n.
Proof.
  induction ns as [|n ns IH]; cbn; [done|]. case_bool_decide as Hin.
  - intros (Hf & Ho & k & Hk & Hn)%IH. split; [done|]. split; [done|]. exists k. set_solver.
  - intros [= <- <-]. split; [done|]. split; [done|]. exists n. set_solver.
Qed.

Lemma allocate_from_exhausted ns base preserve occupied e :
  allocate ns base preserve occupied = Err e ->
  forall n, n ∈ ns -> candidate_name base preserve n ∈ occupied.
Proof.
  induction ns as [|n ns IH]; cbn; [set_solver|]. case_bool_decide as Hin; [|done].
  intros He k [->|Hk]%elem_of_cons; [done|]. by apply IH.
Qed.

(** The loop finds a name as long as fewer than 9,999 are taken. *)
Lemma allocate_finds base preserve occupied :
  Z.of_nat (size occupied) < 9999 -> (length (kept_extension base preserve) <= 248)%nat ->
  exists name occupied', allocate SUFFIXES base preserve occupied = Ok (name, occupied').
Proof.
  intros Hsize Hext. destruct (allocate SUFFIXES base preserve occupied) as [[name o']|e] eqn:Ha; [eauto|].
  exfalso. pose proof (allocate_from_exhausted _ _ _ _ _ Ha) as Hall.
  pose (names := map (fun n => component_with_suffix base n preserve)
    (map N.of_nat (seq 1 (N.to_nat 9999)))).
  assert (Hin : forall n, n ∈ map N.of_nat (seq 1 (N.to_nat 9999)) -> n ∈ SUFFIXES /\ n <> 0%N).
  { intros n (k & -> & Hk)%list_elem_of_fmap. apply elem_of_seq in Hk. rewrite suffixes_in. lia. }
  assert (Hnd : NoDup names).
  { apply NoDup_fmap_2_strong.
    - intros n k [Hn _]%Hin [Hk _]%Hin. by apply component_with_suffix_inj.
    - apply NoDup_fmap_2; [apply _|]. apply NoDup_seq. }
  assert (Hsub : list_to_set names ⊆ occupied).
  { intros x Hx%elem_of_list_to_set. apply list_elem_of_fmap in Hx as (n & -> & Hn).
    destruct (Hin n Hn) as [Hs H0]. specialize (Hall n Hs). unfold candidate_name in Hall.
    by rewrite (proj2 (N.eqb_neq _ _) H0) in Hall. }
  apply subseteq_size in Hsub. rewrite size_list_to_set in Hsub by done.
  unfold names in Hsub. rewrite !length_map, length_seq in Hsub. lia.
Qed.
End Allocation.
