(* ===== verification/Proc.v ===== *)
(** Effectful code of the data plane: an async function with [&mut] arguments is
    a function from the world it can touch to the world it leaves and its
    result, also when it fails.  The world has the connection, the store with
    the durable record, the sink or source, and the progress reports. *)

From stdpp Require Import prelude gmap strings.
From Stdlib Require Import ZArith Lia Strings.Byte.
From S2P Require Import Prelude Bytes ManifestV2 Frames Timeline Delivery Ledger.

Local Open Scope Z_scope.

Definition proc (W E A : Type) : Type := W -> W * result E A.

#[export] Instance proc_ret {W E} : MRet (proc W E) := fun A a w => (w, Ok a).
#[export] Instance proc_bind {W E} : MBind (proc W E) := fun A B f m w =>
  match m w with (w', Ok a) => f a w' | (w', Err e) => (w', Err e) end.

(** A pure result, [return Err(e)] and a conditional early return. *)
Definition pure {W E A} (r : result E A) : proc W E A := fun w => (w, r).
Definition throw {W E A} (e : E) : proc W E A := fun w => (w, Err e).
Definition throw_if {W E} (b : bool) (e : E) : proc W E unit :=
  fun w => (w, if b then Err e else Ok tt).

(** The outcome of a call as a value, for code that looks at its error. *)
Definition attempt {W E A} (m : proc W E A) : proc W E (result E A) :=
  fun w => let '(w', r) := m w in (w', Ok r).

(** ** Weakest preconditions *)

(** From [w], [m] ends in [Q] with a value or in [X] with an error. *)
Definition wp {W E A} (m : proc W E A) (Q : A -> W -> Prop) (X : E -> W -> Prop) (w : W) : Prop :=
  match m w with (w', Ok a) => Q a w' | (w', Err e) => X e w' end.

Section Wp.
Context {W E : Type}.
Implicit Types (w : W) (X : E -> W -> Prop).

Lemma wp_bind {A B} (m : proc W E A) (f : A -> proc W E B) Q X w :
  wp m (fun a => wp (f a) Q X) X w -> wp (m ≫= f) Q X w.
Proof. unfold wp, mbind, proc_bind. by destruct (m w) as [w' [a|e]]. Qed.

Lemma wp_mono {A} (m : proc W E A) (Q Q' : A -> W -> Prop) (X X' : E -> W -> Prop) w :
  wp m Q' X' w -> (forall a w', Q' a w' -> Q a w') -> (forall e w', X' e w' -> X e w') -> wp m Q X w.
Proof. unfold wp. intros H HQ HX. destruct (m w) as [w' [a|e]]; auto. Qed.

Lemma wp_ret {A} (a : A) (Q : A -> W -> Prop) X w : Q a w -> wp (mret a) Q X w.
Proof. done. Qed.

Lemma wp_throw {A} (e : E) (Q : A -> W -> Prop) X w : X e w -> wp (throw e) Q X w.
Proof. done. Qed.

Lemma wp_throw_if (b : bool) (e : E) (Q : unit -> W -> Prop) X w :
  (b = true -> X e w) -> (b = false -> Q tt w) -> wp (throw_if b e) Q X w.
Proof. unfold wp, throw_if. destruct b; auto. Qed.

Lemma wp_pure {A} (r : result E A) (Q : A -> W -> Prop) X w :
  (forall a, r = Ok a -> Q a w) -> (forall e, r = Err e -> X e w) -> wp (pure r) Q X w.
Proof. unfold wp, pure. destruct r; eauto. Qed.

Lemma wp_attempt {A} (m : proc W E A) (Q : result E A -> W -> Prop) X w :
  wp m (fun a => Q (Ok a)) (fun e => Q (Err e)) w -> wp (attempt m) Q X w.
Proof. unfold wp, attempt. by destruct (m w) as [w' [a|e]]. Qed.

(** Inverting a run that returns. *)
Lemma bind_ok {A B} (m : proc W E A) (f : A -> proc W E B) w w' b :
  (m ≫= f) w = (w', Ok b) -> exists w1 a, m w = (w1, Ok a) /\ f a w1 = (w', Ok b).
Proof. unfold mbind, proc_bind. destruct (m w) as [w1 [a|e]]; [eauto|done]. Qed.

Lemma bind_run {A B} (m : proc W E A) (f : A -> proc W E B) w w' r :
  (m ≫= f) w = (w', r) ->
  (exists e, m w = (w', Err e) /\ r = Err e) \/ exists w1 a, m w = (w1, Ok a) /\ f a w1 = (w', r).
Proof.
  unfold mbind, proc_bind. destruct (m w) as [w1 [a|e]]; [eauto|]. intros [= <- <-]. eauto.
Qed.

Lemma pure_ok {A} (r : result E A) w w' a : pure r w = (w', Ok a) -> r = Ok a /\ w' = w.
Proof. by intros [= <- ->]. Qed.

Lemma throw_if_ok (b : bool) (e : E) w w' : throw_if b e w = (w', Ok tt) -> b = false /\ w' = w.
Proof. unfold throw_if. destruct b; by intros [= <-]. Qed.

Lemma proc_bind_eq {A B} (m : proc W E A) (f : A -> proc W E B) w w1 a :
  m w = (w1, Ok a) -> (m ≫= f) w = f a w1.
Proof. unfold mbind, proc_bind. by intros ->. Qed.
End Wp.

(** ** The world *)

Inductive ManifestV2ProgressPhase :=
| PhTransferring | PhVerifying | PhSaving | PhWaitingForReceiverSave | PhFinalizingDelivery.

(** The calls of [ManifestV2ProgressSink]. *)
Inductive Report :=
| on_progress (completed_plaintext_bytes total_plaintext_bytes : Z)
| on_phase (p : ManifestV2ProgressPhase)
| on_stage (s : TransferStage).

(** The frames the peer has still to deliver, after which the connection fails;
    the frames sent, each with the files of the store at that moment; how many
    more frames the connection takes; how the next writes of the store end (no
    fault once the list is used up); the store's files; the record behind
    [&mut]; the sink or source; the progress counter and the reports made. *)
Record World (R S : Type) := mkWorld {
  incoming : list ManifestV2Frame;
  outgoing : list (ManifestV2Frame * files);
  sends_left : nat;
  save_faults : list SaveFault;
  store : files;
  record : R;
  sink : S;
  completed : Z;
  reports : list Report;
}.
Arguments mkWorld {R S}.
Arguments incoming {R S}.
Arguments outgoing {R S}.
Arguments sends_left {R S}.
Arguments save_faults {R S}.
Arguments store {R S}.
Arguments record {R S}.
Arguments sink {R S}.
Arguments completed {R S}.
Arguments reports {R S}.

Section World.
Context {R S : Type}.
Local Notation M := (proc (World R S) ManifestV2DataError).

(** [connection.recv_manifest_v2_frame().await?] *)
Definition recv : M ManifestV2Frame := fun w =>
  match incoming w with
  | [] => (w, Err D_Core)
  | f :: rest =>
    (mkWorld rest (outgoing w) (sends_left w) (save_faults w) (store w) (record w) (sink w)
       (completed w) (reports w), Ok f)
  end.

(** [connection.send_manifest_v2_frame(frame).await?] *)
Definition send_frame (f : ManifestV2Frame) : M unit := fun w =>
  match sends_left w with
  | O => (w, Err D_Core)
  | Datatypes.S n =>
    (mkWorld (incoming w) (outgoing w ++ [(f, store w)]) n (save_faults w) (store w) (record w)
       (sink w) (completed w) (reports w), Ok tt)
  end.

(** The frames still to come: fuel for a loop that takes one per turn. *)
Definition get_incoming : M (list ManifestV2Frame) := fun w => (w, Ok (incoming w)).

Definition get_record : M R := fun w => (w, Ok (record w)).

Definition put_record (r : R) : M unit := fun w =>
  (mkWorld (incoming w) (outgoing w) (sends_left w) (save_faults w) (store w) r (sink w)
     (completed w) (reports w), Ok tt).

(** [store.save(record).await?] of a store whose [save] is [sv]. *)
Definition save_record (sv : files -> R -> SaveFault -> files * data unit) : M unit := fun w =>
  let '(fault, faults) :=
    match save_faults w with [] => (NoFault, []) | f :: fs => (f, fs) end in
  let '(fs, saved) := sv (store w) (record w) fault in
  (mkWorld (incoming w) (outgoing w) (sends_left w) faults fs (record w) (sink w) (completed w)
     (reports w), saved).

(** A method of the sink or source. *)
Definition call_sink {A} (op : S -> S * data A) : M A := fun w =>
  let '(s, r) := op (sink w) in
  (mkWorld (incoming w) (outgoing w) (sends_left w) (save_faults w) (store w) (record w) s
     (completed w) (reports w), r).

Definition get_completed : M Z := fun w => (w, Ok (completed w)).

Definition set_completed (v : Z) : M unit := fun w =>
  (mkWorld (incoming w) (outgoing w) (sends_left w) (save_faults w) (store w) (record w) (sink w)
     v (reports w), Ok tt).

(** [progress.on_..(..)] *)
Definition report (r : Report) : M unit := fun w =>
  (mkWorld (incoming w) (outgoing w) (sends_left w) (save_faults w) (store w) (record w) (sink w)
     (completed w) (reports w ++ [r]), Ok tt).

(** [*completed = completed.checked_add(amount).ok_or(ArithmeticOverflow)?] and
    the report that follows it everywhere. *)
Definition advance (amount total : Z) : M unit :=
  c ← get_completed;
  c' ← pure (ok_or D_ArithmeticOverflow (checked_add u64_max c amount));
  _ ← set_completed c';
  report (on_progress c' total).
End World.

(** ** Rules of the primitives *)

(** What the invariants of a plane speak about. *)
Definition core {R S} (w : World R S) : R * files * S * list (ManifestV2Frame * files) :=
  (record w, store w, sink w, outgoing w).

Section Rules.
Context {R S : Type}.
Implicit Types (w : World R S).
Local Notation M := (proc (World R S) ManifestV2DataError).

Lemma wp_recv (Q : ManifestV2Frame -> World R S -> Prop) X w :
  X D_Core w ->
  (forall f w', core w' = core w -> incoming w = f :: incoming w' -> Q f w') ->
  wp recv Q X w.
Proof. intros HX HQ. unfold wp, recv. destruct (incoming w) eqn:Hin; [done|]. by apply HQ. Qed.

Lemma wp_send f (Q : unit -> World R S -> Prop) X w :
  X D_Core w ->
  (forall w', core w' = (record w, store w, sink w, outgoing w ++ [(f, store w)]) ->
     incoming w' = incoming w -> Q tt w') ->
  wp (send_frame f) Q X w.
Proof. intros HX HQ. unfold wp, send_frame. destruct (sends_left w); [done|]. by apply HQ. Qed.

Lemma wp_get_record (Q : R -> World R S -> Prop) (X : ManifestV2DataError -> World R S -> Prop) w :
  Q (record w) w -> wp get_record Q X w.
Proof. done. Qed.

Lemma wp_put_record r (Q : unit -> World R S -> Prop) (X : ManifestV2DataError -> World R S -> Prop) w :
  (forall w', core w' = (r, store w, sink w, outgoing w) -> incoming w' = incoming w -> Q tt w') ->
  wp (put_record r) Q X w.
Proof. intros HQ. by apply HQ. Qed.

Lemma wp_call_sink {A} (op : S -> S * data A) (Q : A -> World R S -> Prop) X w :
  (forall s r w', op (sink w) = (s, r) -> core w' = (record w, store w, s, outgoing w) ->
     incoming w' = incoming w -> match r with Ok a => Q a w' | Err e => X e w' end) ->
  wp (call_sink op) Q X w.
Proof.
  intros HQ. unfold wp, call_sink. destruct (op (sink w)) as [s r] eqn:Hop.
  set (w' := mkWorld _ _ _ _ _ _ _ _ _). exact (HQ s r w' eq_refl eq_refl eq_refl).
Qed.

Lemma wp_save_record sv (Q : unit -> World R S -> Prop) X w :
  (forall fault fs r w', sv (store w) (record w) fault = (fs, r) ->
     core w' = (record w, fs, sink w, outgoing w) -> incoming w' = incoming w ->
     match r with Ok _ => Q tt w' | Err e => X e w' end) ->
  wp (save_record sv) Q X w.
Proof.
  intros HQ. unfold wp, save_record.
  destruct (match save_faults w with [] => _ | _ => _ end) as [fault faults].
  destruct (sv (store w) (record w) fault) as [fs r] eqn:Hsv.
  set (w' := mkWorld _ _ _ _ _ _ _ _ _). specialize (HQ fault fs r w' Hsv eq_refl eq_refl).
  by destruct r as [[]|].
Qed.

Lemma wp_set_completed v (Q : unit -> World R S -> Prop) (X : ManifestV2DataError -> World R S -> Prop) w :
  (forall w', core w' = core w -> incoming w' = incoming w -> Q tt w') -> wp (set_completed v) Q X w.
Proof. intros HQ. by apply HQ. Qed.

Lemma wp_report v (Q : unit -> World R S -> Prop) (X : ManifestV2DataError -> World R S -> Prop) w :
  (forall w', core w' = core w -> incoming w' = incoming w -> Q tt w') -> wp (report v) Q X w.
Proof. intros HQ. by apply HQ. Qed.

Lemma wp_advance amount total (Q : unit -> World R S -> Prop) X w :
  X D_ArithmeticOverflow w ->
  (forall w', core w' = core w -> incoming w' = incoming w -> Q tt w') ->
  wp (advance amount total) Q X w.
Proof.
  intros HX HQ. unfold advance. apply wp_bind.
  unfold wp at 1, get_completed. apply wp_bind, wp_pure.
  - intros a _. apply wp_bind, wp_set_completed. intros w1 Hc1 Hi1. apply wp_report.
    intros w2 Hc2 Hi2. apply HQ; congruence.
  - intros e. destruct (checked_add _ _ _); [done|]. by intros [= <-].
Qed.

Lemma wp_get_incoming (Q : list ManifestV2Frame -> World R S -> Prop)
    (X : ManifestV2DataError -> World R S -> Prop) w :
  Q (incoming w) w -> wp get_incoming Q X w.
Proof. done. Qed.
End Rules.
