(* ===== verification/Invite.v ===== *)
(** Invitations (crates/envoix-invite/src/lib.rs): room codes, the public context
    with its commitment, the complete invitation and its text, and the two ends
    of its bootstrap.  All checks are the code's own;
    SHA-256, HKDF, base64url, the JSON codec, endpoint ids and relay URLs belong to
    other crates and are the class [InviteLibs], with what the code relies on in
    [InviteLaws].  The entropy source is the bytes it has still to give. *)

From stdpp Require Import prelude strings.
From Stdlib Require Import ZArith Lia Strings.Byte.
From S2P Require Import Prelude Bytes Text BrokerConfig Proc.

Local Open Scope Z_scope.

(** ** Constants *)

Definition INVITE_V2_PREFIX : str := lit "envoix://invite/v2/".
Definition INVITE_VERSION : Z := 2.
Definition TRANSFER_PROTOCOL_VERSION : Z := 1.
Definition INVITE_TTL_SECS : Z := 5 * 60.
Definition MAX_ENCODED_PAYLOAD_LEN : Z := 8 * 1024.
Definition MAX_DECODED_PAYLOAD_LEN : Z := 4 * 1024.
Definition PAKE_SUITE : str := lit "spake2-ed25519-sha256-hkdf-hmac".
Definition FULL_TICKET_METHOD : str := lit "full-ticket-v1".
Definition ROOM_CODE_METHOD : str := lit "room-code-v1".
Definition MANIFEST_V1_CAPABILITY : str := lit "manifest-v1".
Definition INVITE_ID_LEN : nat := 16.
Definition TICKET_LEN : nat := 32.
Definition COMMITMENT_LEN : nat := 32.
Definition ROOM_ID_BYTES : nat := 6.
Definition ROOM_SECRET_LEN : nat := 8.
Definition FULL_CONTROL_PASSWORD_INFO : str := lit "envoix invite v2 full-ticket control password".
Definition ROOM_CONTROL_PASSWORD_INFO : str := lit "envoix invite v2 room-code control password".
Definition DATA_PASSWORD_INFO : str := lit "envoix invite v2 data authentication password".

(** ** Errors *)

(** A message of [Malformed] leaves out the text of a parser's own error. *)
Inductive InvitationError :=
| Malformed (message : string)
| Oversized
| Expired
| InviteVersionUnsupported
| UnsupportedCapability (name : str)
| RoleConflict
| AuthenticationFailed
| Replay.

#[export] Instance InvitationError_eq_dec : EqDecision InvitationError.
Proof. solve_decision. Defined.

(** [InvitationError::code] and [InvitationErrorCode::as_str] *)
Definition invitation_error_code (e : InvitationError) : string :=
  match e with
  | Malformed _ => "malformed"
  | Oversized => "oversized"
  | Expired => "expired"
  | InviteVersionUnsupported => "unsupported_version"
  | UnsupportedCapability _ => "unsupported_capability"
  | RoleConflict => "role_conflict"
  | AuthenticationFailed => "authentication_failure"
  | Replay => "replay"
  end.
Abbreviation invited := (result InvitationError).

(** ** Data *)

(** [InviteId], [Commitment] and [TicketSecret] are arrays of 16, 32 and 32 bytes. *)
Record Capabilities := mkCapabilities { required : list str; optional : list str }.
#[export] Instance Capabilities_eq_dec : EqDecision Capabilities.
Proof. solve_decision. Defined.

Inductive BootstrapMethod :=
| MethodFullTicket (ticket_commitment : list byte)
| MethodRoomCode (method_room_id : str).
#[export] Instance BootstrapMethod_eq_dec : EqDecision BootstrapMethod.
Proof. solve_decision. Defined.

Record InvitationPublicContext := mkPublicContext {
  pc_version : Z;
  pc_invite_id : list byte;
  pc_protocol_version : Z;
  creator_transfer_role : TransferRole;
  joiner_transfer_role : TransferRole;
  pc_broker : str;
  relay_urls : list str;
  pc_capabilities : Capabilities;
  pc_expires_at : Z;
  pc_bootstrap_methods : list BootstrapMethod;
}.
#[export] Instance InvitationPublicContext_eq_dec : EqDecision InvitationPublicContext.
Proof. solve_decision. Defined.

Record InviteV2 := mkInvite {
  public_context : InvitationPublicContext;
  context_commitment : list byte;
  ticket : list byte;
}.
#[export] Instance InviteV2_eq_dec : EqDecision InviteV2.
Proof. solve_decision. Defined.

(** The documents that are written as JSON. *)
Record BootstrapDocument := mkBootstrapDocument {
  bd_id : str; bd_pake : str; bd_ticket_commitment : option str; bd_room_id : option str }.
Record PublicContextDocument := mkContextDocument {
  cd_version : Z;
  cd_invite_id : str;
  cd_protocol_version : Z;
  cd_creator_transfer_role : TransferRole;
  cd_joiner_transfer_role : TransferRole;
  cd_broker : str;
  cd_relay_urls : list str;
  cd_capabilities : Capabilities;
  cd_expires_at : Z;
  cd_bootstrap_methods : list BootstrapDocument;
}.
(** The twelve fields of [InviteDocument]: those of the public context, the
    commitment and the presented credential. *)
Record InviteDocument := mkInviteDocument {
  id_context : PublicContextDocument;
  id_context_commitment : str;
  presented_method : str;
  presented_ticket : str;
}.

Record CreatedInvitation := mkCreated {
  created_payload : str;
  created_room_code : str;
  created_creator_role : TransferRole;
  created_joiner_role : TransferRole;
  created_expires_at : Z;
  created_invitation : InviteV2;
}.

(** ** What other crates do *)

Class InviteLibs := {
  sha256 : list byte -> list byte;
  (** [Hkdf::<Sha256>::new(Some(salt), ikm).expand(info)], 32 bytes. *)
  hkdf : list byte -> list byte -> list byte -> list byte;
  b64_encode : list byte -> str;
  b64_decode : str -> option (list byte);
  endpoint_id_valid : str -> bool;
  (** The normal form of a relay URL. *)
  parse_relay_url : str -> option str;
  (** [to_value] and [to_vec], and [from_slice]. *)
  invite_to_json : InviteDocument -> option (list byte);
  invite_from_json : list byte -> option InviteDocument;
  context_to_json : PublicContextDocument -> option (list byte);
  context_from_json : list byte -> option PublicContextDocument;
}.

(** SHA-256 has 32 bytes; base64url without padding has one text per byte string
    and no equals sign; JSON is read back, and is never empty. *)
Class InviteLaws `{InviteLibs} : Prop := {
  sha256_length : forall x, length (sha256 x) = COMMITMENT_LEN;
  b64_decode_encode : forall x, b64_decode (b64_encode x) = Some x;
  b64_encode_decode : forall s x, b64_decode s = Some x -> b64_encode x = s;
  b64_unpadded : forall x, x3d ∉ b64_encode x;
  b64_empty : b64_encode [] = [];
  invite_read_back : forall d bs, invite_to_json d = Some bs -> invite_from_json bs = Some d /\ bs <> [];
  context_read_back : forall d bs, context_to_json d = Some bs -> context_from_json bs = Some d;
}.

(** ** Entropy *)

Abbreviation random := (proc (list byte) InvitationError).

Definition fill_random (n : nat) : random (list byte) := fun entropy =>
  if (n <=? length entropy)%nat then (drop n entropy, Ok (take n entropy))
  else ([], Err (Malformed "entropy source unavailable")).

(** The loop of [sample_below]. *)
Fixpoint sample_loop (upper accepted : Z) (entropy : list byte) : list byte * invited Z :=
  match entropy with
  | [] => ([], Err (Malformed "entropy source unavailable"))
  | b :: rest =>
    if byte_val b <? accepted then (rest, Ok (byte_val b mod upper))
    else sample_loop upper accepted rest
  end.
Definition sample_below (upper : Z) : random Z :=
  sample_loop upper (u8_max - u8_max mod upper).

(** ** Room codes *)

(** [RoomCode::generate]: pairs of digits, then characters of base 36. *)
Fixpoint generate_digits (pairs : nat) : random str :=
  match pairs with
  | O => mret []
  | S pairs =>
    value ← sample_below 100;
    rest ← generate_digits pairs;
    mret (byte_of (48 + value / 10) :: byte_of (48 + value mod 10) :: rest)
  end.
Definition secret_char (value : Z) : byte :=
  if value <=? 9 then byte_of (48 + value) else byte_of (97 + value - 10).
Fixpoint generate_secret (n : nat) : random str :=
  match n with
  | O => mret []
  | S n =>
    value ← sample_below 36;
    rest ← generate_secret n;
    mret (secret_char value :: rest)
  end.
(** [format!("{}-{}-{}", id, secret[..4], secret[4..])] *)
Definition code_text (room secret : str) : str :=
  room ++ lit "-" ++ take 4 secret ++ lit "-" ++ drop 4 secret.
Definition room_code_generate : random str :=
  room ← generate_digits (ROOM_ID_BYTES / 2);
  secret ← generate_secret ROOM_SECRET_LEN;
  mret (code_text room secret).

Definition room_code_parse (input : str) : invited str :=
  if negb (is_ascii input) then Err (Malformed "Room Code must contain only ASCII")
  else
    compact ←
      (if (zlen input =? 14) && negb (bool_decide (x2d ∈ input)) then Ok (to_ascii_lowercase input)
       else if (zlen input =? 16) && bool_decide (input !! 6%nat = Some x2d)
               && bool_decide (input !! 11%nat = Some x2d)
       then Ok (to_ascii_lowercase (slice input 0 6 ++ slice input 7 4 ++ slice input 12 4))
       else Err (Malformed "Room Code must be dddddd-xxxx-xxxx"));
    if negb (Nat.eqb (length compact) (ROOM_ID_BYTES + ROOM_SECRET_LEN))
       || negb (forallb is_ascii_digit (take ROOM_ID_BYTES compact))
       || negb (forallb (fun b => is_ascii_digit b || is_ascii_lowercase b) (drop ROOM_ID_BYTES compact))
    then Err (Malformed "Room Code contains invalid characters")
    else Ok (code_text (take 6 compact) (drop 6 compact)).

(** [RoomCode::room_id] *)
Definition room_code_id (code : str) : str := take ROOM_ID_BYTES code.

(** ** Framing and passwords *)

Definition append_len_prefixed (output value : list byte) : list byte :=
  output ++ be_bytes 8 (zlen value) ++ value.

Definition transfer_role_bytes (role : TransferRole) : str :=
  match role with TransferSender => lit "sender" | TransferReceiver => lit "receiver" end.

(** [BootstrapKind::id] *)
Definition bootstrap_kind_id (k : BootstrapKind) : str :=
  match k with FullTicket => FULL_TICKET_METHOD | RoomCode => ROOM_CODE_METHOD end.
(** [BootstrapMethod::id] and [kind] *)
Definition method_id (m : BootstrapMethod) : str :=
  match m with MethodFullTicket _ => FULL_TICKET_METHOD | MethodRoomCode _ => ROOM_CODE_METHOD end.
Definition method_kind (m : BootstrapMethod) : BootstrapKind :=
  match m with MethodFullTicket _ => FullTicket | MethodRoomCode _ => RoomCode end.

(** ** Validation *)

Definition validate_room_id (value : str) : invited unit :=
  ensure (six_digits value) (Malformed "room_id must contain exactly six digits").

(** [capabilities.windows(2).all(|pair| pair[0] < pair[1])] *)
Fixpoint strictly_sorted (names : list str) : bool :=
  match names with
  | a :: ((b :: _) as rest) => bool_decide (str_cmp a b = Lt) && strictly_sorted rest
  | _ => true
  end.
Definition capability_byte (b : byte) : bool := is_ascii_lowercase b || is_ascii_digit b || eq_byte b x2d.
Definition capability_name_valid (name : str) : bool :=
  match name with
  | [] => false
  | b :: _ => (zlen name <=? 64) && (is_ascii_lowercase b || is_ascii_digit b) && forallb capability_byte name
  end.
Definition validate_capability_list (names : list str) : invited unit :=
  if negb (strictly_sorted names)
  then Err (Malformed "capabilities must be unique and sorted by ASCII byte order")
  else ensure (forallb capability_name_valid names) (Malformed "invalid capability name").

(** The first capability that is required and not known. *)
Fixpoint check_required (names : list str) : invited unit :=
  match names with
  | [] => Ok tt
  | name :: rest =>
    if negb (bool_decide (name = MANIFEST_V1_CAPABILITY)) then Err (UnsupportedCapability name)
    else check_required rest
  end.
(** [Capabilities::validate] and [current] *)
Definition validate_capabilities (c : Capabilities) : invited unit :=
  _ ← validate_capability_list (required c);
  _ ← validate_capability_list (optional c);
  if existsb (fun name => bool_decide (name ∈ required c)) (optional c)
  then Err (Malformed "capability is both required and optional")
  else check_required (required c).
Definition current_capabilities : Capabilities := mkCapabilities [] [MANIFEST_V1_CAPABILITY].

Section Invitations.
Context `{InviteLibs}.

(** [derive_password] *)
Definition derive_password (ikm salt info binding : list byte) : str :=
  let framed_info := append_len_prefixed (append_len_prefixed [] info) binding in
  b64_encode (hkdf salt ikm framed_info).

(** [TicketSecret::control_pake_password] and [data_auth_password],
    [RoomCode::control_pake_password], [derive_room_data_auth_password] *)
Definition ticket_control_password (secret context : list byte) : str :=
  derive_password secret context FULL_CONTROL_PASSWORD_INFO FULL_TICKET_METHOD.
Definition ticket_data_password (secret context invite_id : list byte) : str :=
  derive_password secret context DATA_PASSWORD_INFO invite_id.
Definition room_code_password (code : str) : str :=
  derive_password code (room_code_id code) ROOM_CONTROL_PASSWORD_INFO ROOM_CODE_METHOD.
Definition derive_room_data_auth_password (control_key context invite_id : list byte) : str :=
  derive_password control_key context DATA_PASSWORD_INFO invite_id.

(** [validate_broker] *)
Definition validate_broker (value : str) : invited unit :=
  '(endpoint_id, address) ←
    ok_or (Malformed "broker must be <endpoint-id>@<ip:port>") (split_once x40 value);
  if negb (endpoint_id_valid endpoint_id) then Err (Malformed "invalid broker endpoint id")
  else match parse_socket_addr address with
       | Some _ => Ok tt
       | None => Err (Malformed "invalid broker socket address")
       end.

(** [validate_relays], with the URLs seen so far. *)
Fixpoint validate_relays (seen : list str) (relays : list str) : invited unit :=
  match relays with
  | [] => Ok tt
  | relay :: rest =>
    parsed ← ok_or (Malformed "invalid relay URL") (parse_relay_url relay);
    if bool_decide (parsed ∈ seen) then Err (Malformed "duplicate relay URL")
    else validate_relays (parsed :: seen) rest
  end.

(** The loop over the methods at the end of [validate_public_context]. *)
Fixpoint validate_methods (ids : list str) (methods : list BootstrapMethod) : invited unit :=
  match methods with
  | [] => Ok tt
  | m :: rest =>
    if bool_decide (method_id m ∈ ids) then Err (Malformed "duplicate bootstrap method")
    else
      _ ← match m with MethodRoomCode room => validate_room_id room | MethodFullTicket _ => Ok tt end;
      validate_methods (method_id m :: ids) rest
  end.

Definition validate_public_context (context : InvitationPublicContext) (now : Z) : invited unit :=
  if negb (pc_version context =? INVITE_VERSION)
     || negb (pc_protocol_version context =? TRANSFER_PROTOCOL_VERSION)
  then Err InviteVersionUnsupported
  else if negb (bool_decide (complement (creator_transfer_role context) = joiner_transfer_role context))
  then Err RoleConflict
  else if pc_expires_at context <=? now then Err Expired
  else
    _ ← validate_broker (pc_broker context);
    _ ← validate_relays [] (relay_urls context);
    _ ← validate_capabilities (pc_capabilities context);
    match pc_bootstrap_methods context with
    | [first; second] =>
      if negb (bool_decide (method_id first = FULL_TICKET_METHOD))
         || negb (bool_decide (method_id second = ROOM_CODE_METHOD))
      then Err (Malformed "bootstrap methods must be full-ticket-v1 then room-code-v1")
      else validate_methods [] (pc_bootstrap_methods context)
    | _ => Err (Malformed "bootstrap methods must be full-ticket-v1 then room-code-v1")
    end.

(** ** Documents *)

Definition decode_fixed (n : nat) (value : str) (field : string) : invited (list byte) :=
  if bool_decide (x3d ∈ value) then Err (Malformed (field ++ " must use unpadded base64url"))
  else
    decoded ← ok_or (Malformed ("invalid " ++ field)) (b64_decode value);
    if Nat.eqb (length decoded) n then Ok decoded
    else Err (Malformed (field ++ " has the wrong length")).

(** [BootstrapDocument::from_method] and [into_method] *)
Definition document_of_method (m : BootstrapMethod) : BootstrapDocument :=
  match m with
  | MethodFullTicket c => mkBootstrapDocument FULL_TICKET_METHOD PAKE_SUITE (Some (b64_encode c)) None
  | MethodRoomCode room => mkBootstrapDocument ROOM_CODE_METHOD PAKE_SUITE None (Some room)
  end.
Definition method_of_document (d : BootstrapDocument) : invited BootstrapMethod :=
  if negb (bool_decide (bd_pake d = PAKE_SUITE)) then Err (UnsupportedCapability (bd_pake d))
  else if bool_decide (bd_id d = FULL_TICKET_METHOD) then
    if bool_decide (is_Some (bd_room_id d)) then Err (Malformed "full-ticket bootstrap contains room_id")
    else
      commitment ← ok_or (Malformed "full-ticket commitment is missing") (bd_ticket_commitment d);
      c ← decode_fixed COMMITMENT_LEN commitment "ticket_commitment";
      Ok (MethodFullTicket c)
  else if bool_decide (bd_id d = ROOM_CODE_METHOD) then
    if bool_decide (is_Some (bd_ticket_commitment d))
    then Err (Malformed "room-code bootstrap contains ticket commitment")
    else
      room ← ok_or (Malformed "room-code room_id is missing") (bd_room_id d);
      _ ← validate_room_id room;
      Ok (MethodRoomCode room)
  else Err (UnsupportedCapability (bd_id d)).
Fixpoint methods_of_documents (ds : list BootstrapDocument) : invited (list BootstrapMethod) :=
  match ds with
  | [] => Ok []
  | d :: ds => m ← method_of_document d; ms ← methods_of_documents ds; Ok (m :: ms)
  end.

(** [PublicContextDocument::from_context] and [into_context] *)
Definition document_of_context (c : InvitationPublicContext) : PublicContextDocument :=
  mkContextDocument (pc_version c) (b64_encode (pc_invite_id c)) (pc_protocol_version c)
    (creator_transfer_role c) (joiner_transfer_role c) (pc_broker c) (relay_urls c)
    (pc_capabilities c) (pc_expires_at c) (document_of_method <$> pc_bootstrap_methods c).
Definition context_of_document (d : PublicContextDocument) : invited InvitationPublicContext :=
  invite_id ← decode_fixed INVITE_ID_LEN (cd_invite_id d) "invite_id";
  methods ← methods_of_documents (cd_bootstrap_methods d);
  Ok (mkPublicContext (cd_version d) invite_id (cd_protocol_version d)
        (cd_creator_transfer_role d) (cd_joiner_transfer_role d) (cd_broker d) (cd_relay_urls d)
        (cd_capabilities d) (cd_expires_at d) methods).

(** [InviteDocument::from_invitation] and [into_invitation] *)
Definition document_of_invitation (i : InviteV2) : InviteDocument :=
  mkInviteDocument (document_of_context (public_context i)) (b64_encode (context_commitment i))
    FULL_TICKET_METHOD (b64_encode (ticket i)).
Definition invitation_of_document (d : InviteDocument) : invited InviteV2 :=
  if negb (bool_decide (presented_method d = FULL_TICKET_METHOD))
  then Err (Malformed "full invitation selected an invalid credential")
  else
    let c := id_context d in
    invite_id ← decode_fixed INVITE_ID_LEN (cd_invite_id c) "invite_id";
    commitment ← decode_fixed COMMITMENT_LEN (id_context_commitment d) "context_commitment";
    secret ← decode_fixed TICKET_LEN (presented_ticket d) "ticket";
    methods ← methods_of_documents (cd_bootstrap_methods c);
    Ok (mkInvite
          (mkPublicContext (cd_version c) invite_id (cd_protocol_version c)
             (cd_creator_transfer_role c) (cd_joiner_transfer_role c) (cd_broker c) (cd_relay_urls c)
             (cd_capabilities c) (cd_expires_at c) methods)
          commitment secret).

(** [jcs_public_document], [jcs_document], [jcs_context] *)
Definition jcs_public_document (d : PublicContextDocument) : invited (list byte) :=
  ok_or (Malformed "JSON") (context_to_json d).
Definition jcs_document (d : InviteDocument) : invited (list byte) :=
  ok_or (Malformed "JSON") (invite_to_json d).
(** [InvitationPublicContext::canonical_json] *)
Definition jcs_context (c : InvitationPublicContext) : invited (list byte) :=
  jcs_public_document (document_of_context c).
Definition commitment_for_context (c : InvitationPublicContext) : invited (list byte) :=
  bytes ← jcs_context c; Ok (sha256 bytes).
Definition ticket_commitment_of (secret : list byte) : list byte := sha256 secret.

(** [room_id_from_context], and the same search for the ticket's commitment *)
Definition room_id_from_context (c : InvitationPublicContext) : option str :=
  head (omap (fun m => match m with MethodRoomCode room => Some room | MethodFullTicket _ => None end)
          (pc_bootstrap_methods c)).
Definition advertised_ticket (c : InvitationPublicContext) : option (list byte) :=
  head (omap (fun m => match m with MethodFullTicket t => Some t | MethodRoomCode _ => None end)
          (pc_bootstrap_methods c)).

(** [InvitationPublicContext::parse_canonical] *)
Definition parse_canonical (bytes : list byte) (expected_room_id : str) (local_joiner_role : TransferRole)
    (now : Z) : invited (InvitationPublicContext * list byte) :=
  if MAX_DECODED_PAYLOAD_LEN <? zlen bytes then Err Oversized
  else
    document ← ok_or (Malformed "invalid public context JSON") (context_from_json bytes);
    canonical ← jcs_public_document document;
    if negb (bool_decide (canonical = bytes)) then Err (Malformed "public context JSON is not canonical JCS")
    else
      context ← context_of_document document;
      _ ← validate_public_context context now;
      if negb (bool_decide (joiner_transfer_role context = local_joiner_role)) then Err RoleConflict
      else
        room ← ok_or (Malformed "room-code bootstrap is missing") (room_id_from_context context);
        if negb (bool_decide (room = expected_room_id)) then Err AuthenticationFailed
        else
          commitment ← commitment_for_context context;
          Ok (context, commitment).

(** ** Complete invitations *)

(** [InviteV2::encode] *)
Definition invite_encode (i : InviteV2) : invited str :=
  bytes ← jcs_document (document_of_invitation i);
  if MAX_DECODED_PAYLOAD_LEN <? zlen bytes then Err Oversized
  else
    let encoded := b64_encode bytes in
    if MAX_ENCODED_PAYLOAD_LEN <? zlen encoded then Err Oversized
    else Ok (INVITE_V2_PREFIX ++ encoded).

(** [InviteV2::create] *)
Definition invite_create (broker : str) (relays : list str) (creator_role : TransferRole)
    (capabilities : Capabilities) (now : Z) : random CreatedInvitation :=
  expires_at ← pure (ok_or (Malformed "invitation expiry overflow")
                       (checked_add u64_max now INVITE_TTL_SECS));
  invite_id ← fill_random INVITE_ID_LEN;
  secret ← fill_random TICKET_LEN;
  room_code ← room_code_generate;
  let joiner_role := complement creator_role in
  let context := mkPublicContext INVITE_VERSION invite_id TRANSFER_PROTOCOL_VERSION creator_role joiner_role
    broker relays capabilities expires_at
    [MethodFullTicket (ticket_commitment_of secret); MethodRoomCode (room_code_id room_code)] in
  _ ← pure (validate_public_context context now);
  commitment ← pure (commitment_for_context context);
  let invitation := mkInvite context commitment secret in
  payload ← pure (invite_encode invitation);
  mret (mkCreated payload room_code creator_role joiner_role expires_at invitation).

(** [InviteV2::parse] *)
Definition invite_parse (input : str) (now : Z) : invited InviteV2 :=
  if (bool_decide (is_Some (strip_prefix (lit "envoix:") input))
      && bool_decide (strip_prefix INVITE_V2_PREFIX input = None))
     || bool_decide (is_Some (strip_prefix (lit "envoix://pair/") input))
  then Err InviteVersionUnsupported
  else
    encoded ← ok_or (Malformed "missing InviteV2 prefix") (strip_prefix INVITE_V2_PREFIX input);
    if MAX_ENCODED_PAYLOAD_LEN <? zlen encoded then Err Oversized
    else if bool_decide (encoded = []) || bool_decide (x3d ∈ encoded)
    then Err (Malformed "payload must be unpadded base64url")
    else
      decoded ← ok_or (Malformed "invalid base64url payload") (b64_decode encoded);
      if MAX_DECODED_PAYLOAD_LEN <? zlen decoded then Err Oversized
      else
        document ← ok_or (Malformed "invalid invitation JSON") (invite_from_json decoded);
        canonical ← jcs_document document;
        if negb (bool_decide (canonical = decoded))
        then Err (Malformed "invitation JSON is not canonical JCS")
        else
          invitation ← invitation_of_document document;
          _ ← validate_public_context (public_context invitation) now;
          expected_context ← commitment_for_context (public_context invitation);
          if negb (bool_decide (expected_context = context_commitment invitation))
          then Err AuthenticationFailed
          else
            advertised ← ok_or (Malformed "full-ticket bootstrap is missing")
                           (advertised_ticket (public_context invitation));
            if negb (bool_decide (ticket_commitment_of (ticket invitation) = advertised))
            then Err AuthenticationFailed
            else Ok invitation.

(** [ValidatedInvitation::require_local_role], [InviteV2::parse_for_role] *)
Definition require_local_role (i : InviteV2) (role : TransferRole) : invited unit :=
  ensure (bool_decide (joiner_transfer_role (public_context i) = role)) RoleConflict.
Definition invite_parse_for_role (input : str) (local_role : TransferRole) (now : Z) : invited InviteV2 :=
  invitation ← invite_parse input now;
  _ ← require_local_role invitation local_role;
  Ok invitation.
End Invitations.

(** ** Bindings *)

Record InvitationAuthContext := mkAuthContext {
  ac_invite_id : list byte;
  ac_context_commitment : list byte;
  ac_selected : BootstrapKind;
  ac_creator_role : TransferRole;
  ac_joiner_role : TransferRole;
  control_transcript_hash : option (list byte);
}.
#[export] Instance InvitationAuthContext_eq_dec : EqDecision InvitationAuthContext.
Proof. solve_decision. Defined.

Record InvitationControlContext := mkControlContext {
  cc_room_id : str;
  cc_selected : BootstrapKind;
  cc_creator_role : TransferRole;
  cc_joiner_role : TransferRole;
}.
#[export] Instance InvitationControlContext_eq_dec : EqDecision InvitationControlContext.
Proof. solve_decision. Defined.

(** [InvitationControlContext::new], [remembered] and [room_control] *)
Definition control_context_new (room : str) (selected : BootstrapKind) (creator joiner : TransferRole)
    : invited InvitationControlContext :=
  _ ← validate_room_id room;
  if negb (bool_decide (complement creator = joiner)) then Err RoleConflict
  else Ok (mkControlContext room selected creator joiner).
Definition validate_remembered_room_id (value : str) : invited unit :=
  match strip_prefix REMEMBERED_ROOM_ID_PREFIX value with
  | None => Err (Malformed "remembered room_id has an invalid prefix")
  | Some encoded =>
    ensure ((zlen encoded =? REMEMBERED_ROOM_ID_ENCODED_LEN)
            && forallb (fun b => is_ascii_alphanumeric b || eq_byte b x2d || eq_byte b x5f) encoded)
      (Malformed "remembered room_id is invalid")
  end.
Definition control_context_remembered (room : str) : invited InvitationControlContext :=
  _ ← validate_remembered_room_id room;
  Ok (mkControlContext room FullTicket TransferReceiver TransferSender).
Definition control_context_room_control (room : str) : invited InvitationControlContext :=
  if negb (is_room_control_locator room) then Err (Malformed "room control locator is invalid")
  else Ok (mkControlContext room RoomCode TransferReceiver TransferSender).

(** The two [framed_binding]s. *)
Definition control_framed_binding (c : InvitationControlContext) : list byte :=
  foldl append_len_prefixed []
    [cc_room_id c; bootstrap_kind_id (cc_selected c); transfer_role_bytes (cc_creator_role c);
     transfer_role_bytes (cc_joiner_role c)].
Definition auth_framed_binding (c : InvitationAuthContext) : list byte :=
  foldl append_len_prefixed []
    [ac_invite_id c; ac_context_commitment c; bootstrap_kind_id (ac_selected c);
     transfer_role_bytes (ac_creator_role c); transfer_role_bytes (ac_joiner_role c);
     default [] (control_transcript_hash c)].

(** [InvitationAuthContext::new] *)
Definition auth_context_new (public : InvitationPublicContext) (commitment : list byte)
    (selected : BootstrapKind) (hash : option (list byte)) : InvitationAuthContext :=
  mkAuthContext (pc_invite_id public) commitment selected (creator_transfer_role public)
    (joiner_transfer_role public) hash.

(** ** The bootstrap of one transfer *)

Inductive InvitationBootstrap :=
| BootstrapCreator (invitation : InviteV2) (room_code : str)
| FullTicketJoiner (invitation : InviteV2)
| RoomCodeJoiner (room_code : str) (local_role : TransferRole).

Section Bootstrap.
Context `{InviteLibs}.

Definition bootstrap_side (b : InvitationBootstrap) : InvitationSide :=
  match b with BootstrapCreator _ _ => Creator | _ => Joiner end.
Definition bootstrap_local_role (b : InvitationBootstrap) : TransferRole :=
  match b with
  | BootstrapCreator i _ => creator_transfer_role (public_context i)
  | FullTicketJoiner i => joiner_transfer_role (public_context i)
  | RoomCodeJoiner _ role => role
  end.
(** [None] where the code's [expect] panics. *)
Definition bootstrap_room_id (b : InvitationBootstrap) : option str :=
  match b with
  | BootstrapCreator _ code | RoomCodeJoiner code _ => Some (room_code_id code)
  | FullTicketJoiner i => room_id_from_context (public_context i)
  end.
Definition advertised_methods (b : InvitationBootstrap) : list BootstrapKind :=
  match b with BootstrapCreator _ _ => [FullTicket; RoomCode] | _ => [] end.
Definition selected_method (b : InvitationBootstrap) : option BootstrapKind :=
  match b with
  | BootstrapCreator _ _ => None
  | FullTicketJoiner _ => Some FullTicket
  | RoomCodeJoiner _ _ => Some RoomCode
  end.

Definition bootstrap_control_context (b : InvitationBootstrap) (selected : BootstrapKind)
    : invited InvitationControlContext :=
  if match selected_method b with Some expected => negb (bool_decide (expected = selected)) | None => false end
  then Err AuthenticationFailed
  else
    let local_role := bootstrap_local_role b in
    let '(creator_role, joiner_role) :=
      match bootstrap_side b with
      | Creator => (local_role, complement local_role)
      | Joiner => (complement local_role, local_role)
      end in
    room ← ok_or (Malformed "validated full invitation has room bootstrap") (bootstrap_room_id b);
    control_context_new room selected creator_role joiner_role.

(** [InvitationBootstrap::control_pake_password] *)
Definition bootstrap_password (b : InvitationBootstrap) (selected : BootstrapKind) : invited str :=
  match b, selected with
  | (BootstrapCreator i _ | FullTicketJoiner i), FullTicket =>
    Ok (ticket_control_password (ticket i) (context_commitment i))
  | (BootstrapCreator _ code | RoomCodeJoiner code _), RoomCode => Ok (room_code_password code)
  | _, _ => Err AuthenticationFailed
  end.

Definition creator_public_context (b : InvitationBootstrap) : invited (option (list byte)) :=
  match b with
  | BootstrapCreator i _ => bytes ← jcs_context (public_context i); Ok (Some bytes)
  | _ => Ok None
  end.

(** What the peer delivered, or what the invitation has. *)
Definition presented_context (b : InvitationBootstrap) (peer_public_context : option (list byte)) (now : Z)
    : invited (InvitationPublicContext * list byte) :=
  match b with
  | BootstrapCreator i _ =>
    if bool_decide (is_Some peer_public_context) then Err AuthenticationFailed
    else Ok (public_context i, context_commitment i)
  | FullTicketJoiner i =>
    received ← ok_or AuthenticationFailed peer_public_context;
    canonical ← jcs_context (public_context i);
    if negb (bool_decide (received = canonical)) then Err AuthenticationFailed
    else Ok (public_context i, context_commitment i)
  | RoomCodeJoiner code role =>
    received ← ok_or AuthenticationFailed peer_public_context;
    parse_canonical received (room_code_id code) role now
  end.
Definition authenticated_public_context (b : InvitationBootstrap) (selected : BootstrapKind)
    (peer_public_context : option (list byte)) (now : Z)
    : invited (InvitationPublicContext * list byte) :=
  '(public, commitment) ← presented_context b peer_public_context now;
  _ ← validate_public_context public now;
  if negb (bool_decide (selected = default selected (selected_method b))) then Err AuthenticationFailed
  else
    _ ← validate_public_context public now;
    Ok (public, commitment).

(** [validate_control_context] and [finish_control] *)
Definition validate_control_context (b : InvitationBootstrap) (selected : BootstrapKind)
    (peer_public_context : option (list byte)) (now : Z) : invited unit :=
  _ ← authenticated_public_context b selected peer_public_context now; Ok tt.
Definition finish_control (b : InvitationBootstrap) (selected : BootstrapKind)
    (peer_public_context : option (list byte)) (control_key transcript_hash : list byte) (now : Z)
    : invited (str * InvitationAuthContext) :=
  '(public, commitment) ← authenticated_public_context b selected peer_public_context now;
  data_password ←
    match b, selected with
    | (BootstrapCreator i _ | FullTicketJoiner i), FullTicket =>
      Ok (ticket_data_password (ticket i) commitment (pc_invite_id public))
    | _, RoomCode => Ok (derive_room_data_auth_password control_key commitment (pc_invite_id public))
    | _, _ => Err AuthenticationFailed
    end;
  Ok (data_password, auth_context_new public commitment selected (Some transcript_hash)).
End Bootstrap.
