(* ===== verification/InviteProof.v ===== *)
(** What the invitations promise: a created invitation is read back as it is from
    its only text; both ends of its bootstrap, by ticket or by room code, come to
    the same context, the same passwords and the same binding; codes are drawn
    without bias and read back; bindings of different contexts differ. *)

From stdpp Require Import prelude strings.
From Stdlib Require Import ZArith Lia Strings.Byte.
From S2P Require Import Prelude Bytes Text BrokerConfig Proc Invite.

Local Open Scope Z_scope.

(** ** Sampling *)

(** The outcomes of a byte: [None] when it is drawn again. *)
Definition sample_outcome (upper : Z) (b : byte) : option Z :=
  if byte_val b <? u8_max - u8_max mod upper then Some (byte_val b mod upper) else None.

Definition all_bytes : list byte := byte_of <$> seqZ 0 256.

Lemma byte_of_inj a b : 0 <= a < 256 -> 0 <= b < 256 -> byte_of a = byte_of b -> a = b.
Proof. intros Ha Hb Heq%(f_equal byte_val). by rewrite !byte_val_of, !Z.mod_small in Heq by lia. Qed.
Lemma map_byte_NoDup l : NoDup l -> Forall (fun v => 0 <= v < 256) l -> NoDup (byte_of <$> l).
Proof.
  induction l as [|v l IH]; intros Hnd Hall; [constructor|].
  apply NoDup_cons in Hnd as [Hv Hnd]. apply Forall_cons in Hall as [Hb Hall]. cbn. constructor; [|auto].
  rewrite list_elem_of_fmap. intros (v' & Heq & Hin). rewrite Forall_forall in Hall.
  apply byte_of_inj in Heq; [by subst|done|auto].
Qed.
Lemma all_bytes_elem b : b ∈ all_bytes.
Proof.
  apply list_elem_of_fmap. exists (byte_val b). rewrite byte_of_val. split; [done|].
  apply elem_of_seqZ. pose proof (byte_val_bounds b). lia.
Qed.
Lemma all_bytes_NoDup : NoDup all_bytes.
Proof. apply map_byte_NoDup; [apply NoDup_seqZ|]. apply Forall_forall. intros v Hv%elem_of_seqZ. lia. Qed.

(** Sampling is fair: of the 256 bytes that the entropy source can give, every
    value below [upper] is the outcome of exactly as many, and at least one byte
    gives an outcome; the bytes that give none are drawn again. *)
Theorem sample_fair upper r :
  0 < upper <= u8_max -> 0 <= r < upper ->
  Z.of_nat (length (filter (fun b => sample_outcome upper b = Some r) all_bytes)) = u8_max / upper /\
  0 < u8_max / upper /\
  forall b rest, sample_below upper (b :: rest)
    = match sample_outcome upper b with Some v => (rest, Ok v) | None => sample_below upper rest end.
Proof.
  intros Hu Hr. pose proof (Z.div_mod u8_max upper ltac:(lia)) as Hdm.
  pose proof (Z.mod_pos_bound u8_max upper ltac:(lia)). change u8_max with 255 in *.
  set (q := 255 / upper) in *.
  assert (Hq : 0 < q) by nia. split; [|split; [done|]].
  - transitivity (Z.of_nat (length (byte_of <$> ((fun k => r + upper * k) <$> seqZ 0 q))));
      [|rewrite !length_fmap, length_seqZ; lia].
    f_equal. apply Permutation_length, NoDup_Permutation.
    + apply NoDup_filter, all_bytes_NoDup.
    + apply map_byte_NoDup.
      * apply NoDup_fmap_2; [|apply NoDup_seqZ]. intros a b Hab. nia.
      * apply Forall_fmap, Forall_forall. intros k Hk%elem_of_seqZ. cbn. nia.
    + intros b. rewrite list_elem_of_filter, !list_elem_of_fmap. unfold sample_outcome. change u8_max with 255.
      pose proof (byte_val_bounds b). split.
      * intros [Hb _]. destruct (Z.ltb_spec (byte_val b) (255 - 255 mod upper)); [|done].
        injection Hb as Hb. exists (byte_val b). rewrite byte_of_val. split; [done|].
        apply list_elem_of_fmap. exists (byte_val b / upper).
        pose proof (Z.div_mod (byte_val b) upper ltac:(lia)). split; [lia|]. apply elem_of_seqZ.
        split; [apply Z.div_pos; lia|]. apply Z.div_lt_upper_bound; lia.
      * intros (v & -> & (k & -> & Hk)%list_elem_of_fmap). apply elem_of_seqZ in Hk.
        split; [|apply all_bytes_elem]. rewrite byte_val_of, Z.mod_small by nia.
        rewrite (proj2 (Z.ltb_lt _ _)) by nia. f_equal.
        rewrite Z.mul_comm, Z.mod_add by lia. by apply Z.mod_small.
  - intros b rest. unfold sample_below, sample_outcome. cbn [sample_loop]. change u8_max with 255. by destruct (_ <? _).
Qed.

(** ** Room codes *)

Definition code_char (b : byte) : bool := is_ascii_digit b || is_ascii_lowercase b.
(** [dddddd-xxxx-xxxx] *)
Definition code_ok (code : str) : Prop :=
  exists room secret, code = code_text room secret /\ length room = ROOM_ID_BYTES /\
    length secret = ROOM_SECRET_LEN /\ forallb is_ascii_digit room = true /\ forallb code_char secret = true.

Lemma code_char_lower b : code_char b = true -> byte_to_lowercase b = b /\ (byte_val b <? 128) = true.
Proof. by destruct b. Qed.
Lemma digit_code_char b : is_ascii_digit b = true -> code_char b = true.
Proof. unfold code_char. by intros ->. Qed.
Lemma code_chars_lower s : forallb code_char s = true -> to_ascii_lowercase s = s /\ is_ascii s = true.
Proof.
  unfold to_ascii_lowercase, is_ascii. induction s as [|b s IH]; [done|]. cbn [map forallb]. intros Hs. bool_prop.
  destruct (IH ltac:(done)) as [-> ->]. by destruct (code_char_lower b ltac:(done)) as [-> ->].
Qed.
Lemma forallb_impl {A} (f g : A -> bool) l : (forall x, f x = true -> g x = true) -> forallb f l = true -> forallb g l = true.
Proof. rewrite !forallb_forall. auto. Qed.

Lemma parse_code_ok input code : room_code_parse input = Ok code -> code_ok code.
Proof.
  unfold room_code_parse. intros Hp. inv_ok. clear H.
  match goal with H : _ || _ = false |- _ => apply orb_false_iff in H as [[Hl Hd]%orb_false_iff Hs] end.
  bool_prop. apply Nat.eqb_eq in Hl. exists (take 6 x), (drop 6 x).
  unfold ROOM_ID_BYTES, ROOM_SECRET_LEN in *. rewrite length_take, length_drop. split_and!; [done|lia|lia|done|done].
Qed.

Lemma code_ok_parse code : code_ok code -> room_code_parse code = Ok code.
Proof.
  intros (room & secret & -> & Hr & Hs & Hdr & Hds). unfold ROOM_ID_BYTES, ROOM_SECRET_LEN in *.
  assert (Hall : forallb code_char (room ++ secret) = true).
  { rewrite forallb_app, Hds. by rewrite (forallb_impl _ _ _ digit_code_char Hdr). }
  destruct (code_chars_lower _ Hall) as [Hlow Hasc].
  assert (Hcode : code_text room secret = room ++ x2d :: take 4 secret ++ x2d :: drop 4 secret) by done.
  assert (Hparts : slice (code_text room secret) 0 6 ++ slice (code_text room secret) 7 4
            ++ slice (code_text room secret) 12 4 = room ++ secret).
  { do 7 (destruct room as [|? room]; try done). do 9 (destruct secret as [|? secret]; try done). }
  assert (Hlen : length (code_text room secret) = 16%nat).
  { rewrite Hcode, length_app. cbn. rewrite length_app. cbn. rewrite length_take, length_drop. lia. }
  assert (Hdash : code_text room secret !! 6%nat = Some x2d /\ code_text room secret !! 11%nat = Some x2d).
  { rewrite Hcode. do 7 (destruct room as [|? room]; try done). do 9 (destruct secret as [|? secret]; try done). }
  assert (Hascii : is_ascii (code_text room secret) = true).
  { rewrite Hcode. unfold is_ascii in *. rewrite forallb_app in *. cbn. rewrite forallb_app. cbn. bool_prop.
    rewrite <- (take_drop 4 secret), forallb_app in H0. bool_prop.
    repeat match goal with H : _ = true |- _ => rewrite H end. done. }
  unfold room_code_parse. rewrite Hascii. cbn [negb]. unfold zlen at 1 2. rewrite Hlen. cbn -[code_text slice take drop].
  rewrite (bool_decide_eq_true_2 _ (proj1 Hdash)), (bool_decide_eq_true_2 _ (proj2 Hdash)).
  rewrite Hparts, Hlow. change (Z.of_nat 16 =? 14) with false. change (Z.of_nat 16 =? 16) with true.
  cbn [andb mbind result_bind]. rewrite length_app, Hr, Hs. unfold ROOM_ID_BYTES, ROOM_SECRET_LEN. cbn [Nat.eqb negb orb].
  rewrite take_app_length', drop_app_length' by done. unfold code_char in Hds. by rewrite Hdr, Hds.
Qed.

Lemma code_ok_compact room secret :
  length room = ROOM_ID_BYTES -> length secret = ROOM_SECRET_LEN ->
  forallb is_ascii_digit room = true -> forallb code_char secret = true ->
  room_code_parse (room ++ secret) = Ok (code_text room secret).
Proof.
  intros Hr Hs Hdr Hds. unfold ROOM_ID_BYTES, ROOM_SECRET_LEN in *.
  assert (Hall : forallb code_char (room ++ secret) = true).
  { rewrite forallb_app, Hds. by rewrite (forallb_impl _ _ _ digit_code_char Hdr). }
  destruct (code_chars_lower _ Hall) as [Hlow Hasc].
  assert (Hdash : x2d ∉ room ++ secret).
  { intros Hin%list_elem_of_In. rewrite forallb_forall in Hall. by apply Hall in Hin. }
  unfold room_code_parse. rewrite Hasc. cbn [negb]. unfold zlen. rewrite length_app, Hr, Hs.
  rewrite bool_decide_eq_false_2 by done. change (Z.of_nat (6 + 8) =? 14) with true.
  cbn [andb negb mbind result_bind]. rewrite Hlow, length_app, Hr, Hs. unfold ROOM_ID_BYTES, ROOM_SECRET_LEN. cbn [Nat.eqb negb orb].
  rewrite take_app_length', drop_app_length' by done. unfold code_char in Hds. by rewrite Hdr, Hds.
Qed.

Lemma sample_bounds upper entropy entropy' v :
  0 < upper -> sample_below upper entropy = (entropy', Ok v) -> 0 <= v < upper.
Proof.
  intros Hu. unfold sample_below. generalize (u8_max - u8_max mod upper). intros accepted.
  induction entropy as [|b rest IH]; cbn; [done|]. destruct (byte_val b <? accepted); [|done].
  intros [= _ <-]. by apply Z.mod_pos_bound.
Qed.

Lemma digit_of v : 0 <= v <= 9 -> is_ascii_digit (byte_of (48 + v)) = true.
Proof. intros Hv. unfold is_ascii_digit. rewrite byte_val_of, Z.mod_small by lia. lia. Qed.

Lemma generate_digits_ok pairs entropy entropy' room :
  generate_digits pairs entropy = (entropy', Ok room) ->
  length room = (2 * pairs)%nat /\ forallb is_ascii_digit room = true.
Proof.
  revert entropy entropy' room. induction pairs as [|pairs IH]; intros entropy entropy' room Hrun; cbn [generate_digits] in Hrun.
  { by injection Hrun as _ <-. }
  apply bind_ok in Hrun as (e1 & v & Hv%sample_bounds & Hrun); [|done].
  apply bind_ok in Hrun as (e2 & rest & [Hl Hd]%IH & Hrun). injection Hrun as _ <-. cbn.
  pose proof (Z.mod_pos_bound v 10 ltac:(done)).
  assert (0 <= v / 10 <= 9) by (split; [apply Z.div_pos; lia|apply Z.lt_succ_r, Z.div_lt_upper_bound; lia]).
  rewrite !digit_of, Hd by lia. split; [lia|done].
Qed.
Lemma generate_secret_ok n entropy entropy' secret :
  generate_secret n entropy = (entropy', Ok secret) -> length secret = n /\ forallb code_char secret = true.
Proof.
  revert entropy entropy' secret. induction n as [|n IH]; intros entropy entropy' secret Hrun; cbn [generate_secret] in Hrun.
  { by injection Hrun as _ <-. }
  apply bind_ok in Hrun as (e1 & v & Hv%sample_bounds & Hrun); [|done].
  apply bind_ok in Hrun as (e2 & rest & [Hl Hd]%IH & Hrun). injection Hrun as _ <-. cbn.
  rewrite Hd, Hl, andb_true_r. split; [done|]. unfold secret_char, code_char.
  destruct (Z.leb_spec v 9); [by rewrite digit_of by lia|].
  unfold is_ascii_lowercase, in_range. rewrite byte_val_of, Z.mod_small by lia. lia.
Qed.
Lemma generate_code entropy entropy' code :
  room_code_generate entropy = (entropy', Ok code) ->
  exists room secret, code = code_text room secret /\ length room = ROOM_ID_BYTES /\
    length secret = ROOM_SECRET_LEN /\ forallb is_ascii_digit room = true /\ forallb code_char secret = true.
Proof.
  unfold room_code_generate. intros Hrun. apply bind_ok in Hrun as (e1 & room & [Hr Hdr]%generate_digits_ok & Hrun).
  apply bind_ok in Hrun as (e2 & secret & [Hs Hds]%generate_secret_ok & Hrun). injection Hrun as _ <-.
  exists room, secret. by split_and!.
Qed.

Lemma code_ok_id code : code_ok code -> six_digits (room_code_id code) = true.
Proof.
  intros (room & secret & -> & Hr & _ & Hd & _). unfold room_code_id, code_text, six_digits.
  rewrite take_app_length' by done. rewrite Hd. unfold zlen. by rewrite Hr.
Qed.

(** A generated room code has the form [dddddd-xxxx-xxxx]; typed as it is
    shown, or without its dashes, it is read back as the same code; whatever text
    is accepted is read as a code of that form, which is read back as itself; and
    its first six digits are a room id that the broker accepts. *)
Theorem room_code_roundtrip :
  (forall entropy entropy' code, room_code_generate entropy = (entropy', Ok code) ->
     room_code_parse code = Ok code /\ room_code_parse (filter (.≠ x2d) code) = Ok code) /\
  (forall input code, room_code_parse input = Ok code ->
     room_code_parse code = Ok code /\ six_digits (room_code_id code) = true).
Proof.
  split.
  - intros entropy entropy' code Hg. destruct (generate_code _ _ _ Hg) as (room & secret & -> & Hr & Hs & Hdr & Hds).
    split; [apply code_ok_parse; by exists room, secret|].
    assert (Hfilter : filter (.≠ x2d) (code_text room secret) = room ++ secret).
    { assert (Hno : forall s, forallb code_char s = true -> filter (.≠ x2d) s = s).
      { induction s as [|b s IH]; [done|]. cbn [forallb]. intros Hb. bool_prop.
        rewrite filter_cons_True, IH by (done || by intros ->). done. }
      unfold code_text. rewrite !filter_app. cbn [app].
      rewrite <- (take_drop 4 secret), forallb_app in Hds. bool_prop.
      replace (filter (.≠ x2d) (lit "-")) with (@nil byte) by done. cbn [app].
      rewrite !Hno by eauto using forallb_impl, digit_code_char. by rewrite take_drop. }
    rewrite Hfilter. by apply code_ok_compact.
  - intros input code Hp%parse_code_ok. split; [by apply code_ok_parse|by apply code_ok_id].
Qed.

(** ** Documents *)

Section Documents.
Context `{HL : InviteLibs} {laws : InviteLaws}.

Lemma decode_fixed_encode n x field : length x = n -> decode_fixed n (b64_encode x) field = Ok x.
Proof.
  intros Hn. unfold decode_fixed. rewrite bool_decide_eq_false_2 by apply b64_unpadded.
  rewrite b64_decode_encode. cbn. by rewrite Hn, Nat.eqb_refl.
Qed.
Lemma decode_fixed_ok n s field x :
  decode_fixed n s field = Ok x -> s = b64_encode x /\ length x = n.
Proof.
  unfold decode_fixed. intros Hd. inv_ok. split; [|by apply Nat.eqb_eq].
  symmetry. by apply b64_encode_decode.
Qed.

Definition wf_method (m : BootstrapMethod) : Prop :=
  match m with
  | MethodFullTicket c => length c = COMMITMENT_LEN
  | MethodRoomCode room => six_digits room = true
  end.
Definition wf_context (c : InvitationPublicContext) : Prop :=
  length (pc_invite_id c) = INVITE_ID_LEN /\ Forall wf_method (pc_bootstrap_methods c).
Definition wf_invite (i : InviteV2) : Prop :=
  wf_context (public_context i) /\ length (context_commitment i) = COMMITMENT_LEN /\ length (ticket i) = TICKET_LEN.

Lemma method_iff d m : method_of_document d = Ok m <-> d = document_of_method m /\ wf_method m.
Proof.
  split.
  - unfold method_of_document. intros Hm. inv_ok. bool_prop.
    case_bool_decide as Hid; [|case_bool_decide as Hid'; [|done]]; inv_ok; bool_prop.
    + match goal with H : decode_fixed _ _ _ = Ok _ |- _ => apply decode_fixed_ok in H as [Hc Hl] end.
      destruct d as [id pake [c|] [r|]]; cbn in *; simplify_eq; try done.
      by contradict Heqb0.
    + unfold validate_room_id in *. inv_ok. destruct d as [id pake [c|] [r|]]; cbn in *; simplify_eq; try done.
      by contradict Heqb0.
  - intros [-> Hwf]. unfold method_of_document. destruct m as [c|room]; cbn in Hwf |- *.
    + rewrite !bool_decide_eq_true_2 by done. cbn. by rewrite decode_fixed_encode.
    + rewrite !bool_decide_eq_true_2 by done. rewrite bool_decide_eq_false_2 by done. cbn.
      unfold validate_room_id. by rewrite Hwf.
Qed.
Lemma methods_iff ds ms :
  methods_of_documents ds = Ok ms <-> ds = document_of_method <$> ms /\ Forall wf_method ms.
Proof.
  revert ms. induction ds as [|d ds IH]; intros ms; cbn [methods_of_documents].
  - split; [by intros [= <-]|]. intros [Hms _]. by destruct ms.
  - rewrite result_bind_ok. setoid_rewrite result_bind_ok. setoid_rewrite IH. setoid_rewrite method_iff. split.
    + intros (m & [-> Hm] & ms' & [-> Hms] & [= <-]). auto.
    + destruct ms as [|m ms]; [by intros [? _]|]. intros [[= -> ->] [Hm Hms]%Forall_cons]. eauto 10.
Qed.

Lemma context_iff d c : context_of_document d = Ok c <-> d = document_of_context c /\ wf_context c.
Proof.
  unfold context_of_document, wf_context. split.
  - intros Hc. inv_ok.
    match goal with H : decode_fixed _ _ _ = Ok _ |- _ => apply decode_fixed_ok in H as [Hid Hl] end.
    match goal with H : methods_of_documents _ = Ok _ |- _ => apply methods_iff in H as [Hm Hw] end.
    destruct d. cbn in *. by subst.
  - intros [-> [Hl Hm]]. cbn. rewrite decode_fixed_encode by done. cbn.
    rewrite (proj2 (methods_iff _ _) (conj eq_refl Hm)). by destruct c.
Qed.

Lemma invitation_iff d i : invitation_of_document d = Ok i <-> d = document_of_invitation i /\ wf_invite i.
Proof.
  unfold invitation_of_document, wf_invite, wf_context. split.
  - intros Hi. inv_ok. bool_prop.
    repeat match goal with H : decode_fixed _ _ _ = Ok _ |- _ => apply decode_fixed_ok in H as [? ?] end.
    match goal with H : methods_of_documents _ = Ok _ |- _ => apply methods_iff in H as [? ?] end.
    destruct d as [[] ? ? ?]. cbn in *. by subst.
  - intros (-> & (Hid & Hm) & Hc & Ht). cbn. rewrite bool_decide_eq_true_2 by done. cbn.
    rewrite !decode_fixed_encode by done. cbn.
    rewrite (proj2 (methods_iff _ _) (conj eq_refl Hm)). by destruct i as [[] ? ?].
Qed.

(** ** Validation *)

Lemma validate_later c now now' :
  validate_public_context c now = Ok tt -> now' < pc_expires_at c -> validate_public_context c now' = Ok tt.
Proof.
  unfold validate_public_context. intros Hv Hnow.
  destruct (negb (pc_version c =? INVITE_VERSION) || _); [done|].
  destruct (negb (bool_decide _)); [done|]. destruct (pc_expires_at c <=? now); [done|].
  by rewrite (proj2 (Z.leb_gt _ _) Hnow).
Qed.

Lemma validated_shape c now :
  validate_public_context c now = Ok tt ->
  joiner_transfer_role c = complement (creator_transfer_role c) /\ now < pc_expires_at c /\
  exists t room, pc_bootstrap_methods c = [MethodFullTicket t; MethodRoomCode room] /\ six_digits room = true.
Proof.
  unfold validate_public_context. intros Hv. inv_ok. bool_prop. split; [congruence|]. split; [lia|].
  destruct (pc_bootstrap_methods c) as [|first [|second [|? ?]]]; try done.
  inv_ok. bool_prop.
  destruct first as [t|]; [|done]. destruct second as [|room]; [done|]. exists t, room. split; [done|].
  cbn [validate_methods method_id] in Hv. inv_ok. unfold validate_room_id in *. by inv_ok.
Qed.

(** ** The text of an invitation *)

Lemma strip_prefix_app p s : strip_prefix p (p ++ s) = Some s.
Proof. unfold strip_prefix. rewrite bool_decide_eq_true_2 by apply take_app_length. by rewrite drop_app_length. Qed.
Lemma strip_prefix_Some p s t : strip_prefix p s = Some t -> s = p ++ t.
Proof.
  unfold strip_prefix. case_bool_decide as Hp; [|done]. intros [= <-]. rewrite <- Hp at 1. by rewrite take_drop.
Qed.

(** What a text of an invitation is checked for. *)
Definition consistent_invite (i : InviteV2) (now : Z) : Prop :=
  wf_invite i /\ validate_public_context (public_context i) now = Ok tt /\
  commitment_for_context (public_context i) = Ok (context_commitment i) /\
  advertised_ticket (public_context i) = Some (ticket_commitment_of (ticket i)).

Lemma parse_encoded i payload now :
  consistent_invite i now -> invite_encode i = Ok payload -> invite_parse payload now = Ok i.
Proof.
  intros (Hwf & Hv & Hc & Ht) He. unfold invite_encode in He. inv_ok.
  match goal with H : jcs_document _ = Ok _ |- _ => rename H into Hj; rename x into bytes end.
  unfold jcs_document in Hj. inv_ok. destruct (invite_read_back _ _ Hj) as [Hread Hne].
  unfold invite_parse. rewrite strip_prefix_app.
  replace (strip_prefix (lit "envoix://pair/") (INVITE_V2_PREFIX ++ b64_encode bytes)) with (@None str) by done.
  rewrite (bool_decide_eq_false_2 (Some (b64_encode bytes) = None)), andb_false_r by done.
  rewrite bool_decide_eq_false_2 by (by intros []). cbn [orb ok_or mbind result_bind].
  match goal with H : (MAX_ENCODED_PAYLOAD_LEN <? _) = false |- _ => rewrite H end.
  rewrite (bool_decide_eq_false_2 (x3d ∈ _)) by apply b64_unpadded.
  rewrite bool_decide_eq_false_2.
  2: { intros He. rewrite <- b64_empty in He. apply (f_equal b64_decode) in He. rewrite !b64_decode_encode in He.
       by injection He. }
  cbn [orb]. rewrite b64_decode_encode. cbn [ok_or mbind result_bind].
  match goal with H : (MAX_DECODED_PAYLOAD_LEN <? _) = false |- _ => rewrite H end.
  rewrite Hread. cbn [ok_or mbind result_bind]. unfold jcs_document. rewrite Hj. cbn [ok_or mbind result_bind].
  rewrite bool_decide_eq_true_2 by done. cbn [negb].
  rewrite (proj2 (invitation_iff _ _) (conj eq_refl Hwf)). cbn [ok_or mbind result_bind].
  rewrite Hv, Hc. cbn [ok_or mbind result_bind]. rewrite bool_decide_eq_true_2 by done. cbn [negb].
  rewrite Ht. cbn [ok_or mbind result_bind]. by rewrite bool_decide_eq_true_2.
Qed.

Lemma parsed_consistent input now i :
  invite_parse input now = Ok i -> consistent_invite i now /\ invite_encode i = Ok input.
Proof.
  unfold invite_parse. intros Hp. inv_ok. bool_prop.
  match goal with H : invitation_of_document _ = Ok _ |- _ => apply invitation_iff in H as [-> Hwf] end.
  match goal with H : strip_prefix _ _ = Some _ |- _ => apply strip_prefix_Some in H as -> end.
  match goal with H : b64_decode _ = Some _ |- _ => apply b64_encode_decode in H as <- end. subst.
  split; [by split_and!|]. unfold invite_encode.
  match goal with H : jcs_document _ = Ok _ |- _ => rewrite H end. cbn [mbind result_bind].
  by repeat (rewrite (proj2 (Z.ltb_ge _ _)) by done).
Qed.

Lemma commitment_length c d : commitment_for_context c = Ok d -> length d = COMMITMENT_LEN.
Proof. unfold commitment_for_context. intros Hc. inv_ok. apply sha256_length. Qed.

Lemma created_consistent broker relays role caps now entropy entropy' c now' :
  invite_create broker relays role caps now entropy = (entropy', Ok c) -> now' < created_expires_at c ->
  consistent_invite (created_invitation c) now' /\ invite_encode (created_invitation c) = Ok (created_payload c) /\
  pc_expires_at (public_context (created_invitation c)) = created_expires_at c /\
  pc_bootstrap_methods (public_context (created_invitation c))
    = [MethodFullTicket (ticket_commitment_of (ticket (created_invitation c)));
       MethodRoomCode (room_code_id (created_room_code c))] /\
  creator_transfer_role (public_context (created_invitation c)) = created_creator_role c /\
  joiner_transfer_role (public_context (created_invitation c)) = created_joiner_role c /\
  created_joiner_role c = complement (created_creator_role c) /\ code_ok (created_room_code c).
Proof.
  unfold invite_create. intros Hrun Hnow.
  apply bind_ok in Hrun as (e1 & expires & [He ->]%pure_ok & Hrun).
  apply bind_ok in Hrun as (e2 & id & Hid & Hrun). apply bind_ok in Hrun as (e3 & secret & Hsec & Hrun).
  apply bind_ok in Hrun as (e4 & code & Hcode%generate_code & Hrun).
  apply bind_ok in Hrun as (e5 & [] & [Hv ->]%pure_ok & Hrun).
  apply bind_ok in Hrun as (e6 & com & [Hc ->]%pure_ok & Hrun).
  apply bind_ok in Hrun as (e7 & payload & [Hp ->]%pure_ok & Hrun). injection Hrun as _ <-. cbn in Hnow |- *.
  assert (Hfill : forall n e e' x, fill_random n e = (e', Ok x) -> length x = n).
  { intros n e e' x. unfold fill_random. destruct (Nat.leb_spec n (length e)); [|done]. intros [= _ <-].
    rewrite length_take. lia. }
  split; [|by split_and!]. split_and!.
  - split_and!; cbn; [split; cbn|by eapply commitment_length|by eapply Hfill].
    + by eapply Hfill.
    + repeat constructor; cbn; [apply sha256_length|]. by apply code_ok_id.
  - by eapply validate_later.
  - done.
  - done.
Qed.

(** An invitation that is created is read back from its text, as it was made,
    at every moment before it expires. *)
Theorem invite_roundtrip broker relays role caps now entropy entropy' c now' :
  invite_create broker relays role caps now entropy = (entropy', Ok c) -> now' < created_expires_at c ->
  invite_parse (created_payload c) now' = Ok (created_invitation c).
Proof. intros Hc Hnow. destruct (created_consistent _ _ _ _ _ _ _ _ _ Hc Hnow) as (Hi & He & _). by eapply parse_encoded. Qed.

(** C20. Every text that is accepted as an invitation is the only text of that
    invitation; it has not expired, its roles are complementary, its commitment is
    the hash of its public context and its ticket the one it is committed to, so no
    field of the context can be changed without changing the commitment. *)
Theorem invite_canonical input now i :
  invite_parse input now = Ok i ->
  invite_encode i = Ok input /\ now < pc_expires_at (public_context i) /\
  joiner_transfer_role (public_context i) = complement (creator_transfer_role (public_context i)) /\
  commitment_for_context (public_context i) = Ok (context_commitment i) /\
  advertised_ticket (public_context i) = Some (ticket_commitment_of (ticket i)) /\
  length (pc_invite_id (public_context i)) = INVITE_ID_LEN.
Proof.
  intros [(((Hid & _) & _ & _) & Hv & Hc & Ht) He]%parsed_consistent.
  destruct (validated_shape _ _ Hv) as (Hr & Hnow & _). by split_and!.
Qed.

(** ** The two ends of a bootstrap *)

(** The ways to join: with the complete invitation, or with its room code in the
    role the invitation leaves. *)
Definition joins_with (c : CreatedInvitation) (now : Z) (selected : BootstrapKind) (joiner : InvitationBootstrap) : Prop :=
  match selected with
  | FullTicket => exists i, invite_parse (created_payload c) now = Ok i /\ joiner = FullTicketJoiner i
  | RoomCode => exists typed code, room_code_parse typed = Ok code /\ code = created_room_code c /\
      joiner = RoomCodeJoiner code (created_joiner_role c)
  end.

Lemma complement_complement r : complement (complement r) = r.
Proof. by destruct r. Qed.

Lemma control_new_ok room selected role :
  six_digits room = true ->
  control_context_new room selected role (complement role)
  = Ok (mkControlContext room selected role (complement role)).
Proof.
  intros Hr. unfold control_context_new, validate_room_id. rewrite Hr. cbn. by rewrite bool_decide_eq_true_2.
Qed.

Lemma parse_context_canonical c bytes now :
  wf_context c -> validate_public_context c now = Ok tt -> jcs_context c = Ok bytes ->
  zlen bytes <= MAX_DECODED_PAYLOAD_LEN -> forall room d, room_id_from_context c = Some room ->
  commitment_for_context c = Ok d ->
  parse_canonical bytes room (joiner_transfer_role c) now = Ok (c, d).
Proof.
  intros Hwf Hv Hj Hlen room d Hroom Hd. unfold parse_canonical. rewrite (proj2 (Z.ltb_ge _ _) Hlen).
  unfold jcs_context, jcs_public_document in Hj. inv_ok.
  rewrite (context_read_back _ _ Hj). cbn [ok_or mbind result_bind].
  unfold jcs_public_document at 1. rewrite Hj. cbn [ok_or mbind result_bind].
  rewrite bool_decide_eq_true_2 by done. cbn [negb].
  rewrite (proj2 (context_iff _ _) (conj eq_refl Hwf)). cbn [ok_or mbind result_bind]. rewrite Hv. cbn [mbind result_bind].
  rewrite bool_decide_eq_true_2 by done. cbn [negb]. rewrite Hroom. cbn [ok_or mbind result_bind].
  rewrite bool_decide_eq_true_2 by done. cbn [negb]. by rewrite Hd.
Qed.

(** What both ends take as the public context. *)
Lemma authenticated_ok b selected peer now public d :
  presented_context b peer now = Ok (public, d) -> validate_public_context public now = Ok tt ->
  selected = default selected (selected_method b) ->
  authenticated_public_context b selected peer now = Ok (public, d).
Proof.
  intros Hp Hv Hs. unfold authenticated_public_context. rewrite Hp. cbn. rewrite Hv. cbn.
  by rewrite <- Hs, bool_decide_eq_true_2.
Qed.

Lemma joiner_cases c now selected joiner :
  invite_parse (created_payload c) now = Ok (created_invitation c) -> joins_with c now selected joiner ->
  (selected = FullTicket /\ joiner = FullTicketJoiner (created_invitation c)) \/
  (selected = RoomCode /\ joiner = RoomCodeJoiner (created_room_code c) (created_joiner_role c)).
Proof.
  intros Hp. destruct selected; cbn.
  - intros (i & Hp' & ->). rewrite Hp in Hp'. injection Hp' as <-. by left.
  - intros (typed & code & _ & -> & ->). by right.
Qed.

(** The two ends of a created invitation, of which the joiner has read the text or
    the code at the moment [read]. *)
Section Ends.
Context (c : CreatedInvitation) (selected : BootstrapKind) (joiner : InvitationBootstrap) (bytes : list byte).
Context (broker : str) (relays : list str) (role : TransferRole) (caps : Capabilities) (created read : Z) (e e' : list byte).
Hypothesis Hcreate : invite_create broker relays role caps created e = (e', Ok c).
Hypothesis Hread : read < created_expires_at c.
Hypothesis Hjoin : joins_with c read selected joiner.
Hypothesis Hbytes : jcs_context (public_context (created_invitation c)) = Ok bytes.
Hypothesis Hlen : zlen bytes <= MAX_DECODED_PAYLOAD_LEN.

Definition created_end : InvitationBootstrap := BootstrapCreator (created_invitation c) (created_room_code c).

Lemma joiner_is : (selected = FullTicket /\ joiner = FullTicketJoiner (created_invitation c)) \/
  (selected = RoomCode /\ joiner = RoomCodeJoiner (created_room_code c) (created_joiner_role c)).
Proof.
  destruct (created_consistent _ _ _ _ _ _ _ _ _ Hcreate Hread) as (Hi & He & _).
  eapply joiner_cases; [|exact Hjoin]. by apply parse_encoded.
Qed.

(** Both ends take the creator's public context for that of the invitation. *)
Lemma ends_authenticate now : now < created_expires_at c ->
  authenticated_public_context created_end selected None now
    = Ok (public_context (created_invitation c), context_commitment (created_invitation c)) /\
  authenticated_public_context joiner selected (Some bytes) now
    = Ok (public_context (created_invitation c), context_commitment (created_invitation c)).
Proof.
  intros Hnow. destruct (created_consistent _ _ _ _ _ _ _ _ _ Hcreate Hnow) as (Hi & He & Hexp & Hm & Hcr & Hjr & Hcomp & Hcode).
  destruct Hi as (Hwf & Hv & Hcom & Ht).
  assert (Hroom : room_id_from_context (public_context (created_invitation c)) = Some (room_code_id (created_room_code c)))
    by (unfold room_id_from_context; by rewrite Hm).
  destruct joiner_is as [[-> ->]|[-> ->]]; (split; [by apply authenticated_ok|]); apply authenticated_ok; try done; cbn.
  - rewrite Hbytes. cbn. by rewrite bool_decide_eq_true_2.
  - rewrite <- Hjr. apply parse_context_canonical; try done. apply Hwf.
Qed.

(** Both ends bind the control channel to one context, with one password. *)
Definition agreed_context : InvitationControlContext :=
  mkControlContext (room_code_id (created_room_code c)) selected (created_creator_role c) (created_joiner_role c).
Lemma ends_control :
  bootstrap_control_context created_end selected = Ok agreed_context /\
  bootstrap_control_context joiner selected = Ok agreed_context /\
  exists password, bootstrap_password created_end selected = Ok password /\ bootstrap_password joiner selected = Ok password.
Proof.
  destruct (created_consistent _ _ _ _ _ _ _ _ _ Hcreate Hread) as (Hi & He & Hexp & Hm & Hcr & Hjr & Hcomp & Hcode).
  pose proof (code_ok_id _ Hcode) as Hsix. unfold agreed_context, bootstrap_control_context. cbn [created_end selected_method bootstrap_side bootstrap_local_role].
  rewrite Hcr, Hcomp. split; [by apply control_new_ok|].
  destruct joiner_is as [[-> ->]|[-> ->]]; cbn [selected_method bootstrap_side bootstrap_local_role bootstrap_room_id];
    rewrite ?Hjr, Hcomp, complement_complement; (split; [|by eexists]).
  - unfold room_id_from_context. rewrite Hm. by apply control_new_ok.
  - by apply control_new_ok.
Qed.

(** And both finish with one password and one binding for the data connection. *)
Definition agreed_password (key : list byte) : str :=
  let i := created_invitation c in
  match selected with
  | FullTicket => ticket_data_password (ticket i) (context_commitment i) (pc_invite_id (public_context i))
  | RoomCode => derive_room_data_auth_password key (context_commitment i) (pc_invite_id (public_context i))
  end.
Definition agreed_binding (hash : list byte) : InvitationAuthContext :=
  let i := created_invitation c in auth_context_new (public_context i) (context_commitment i) selected (Some hash).
Lemma ends_finish now key hash : now < created_expires_at c ->
  finish_control created_end selected None key hash now = Ok (agreed_password key, agreed_binding hash) /\
  finish_control joiner selected (Some bytes) key hash now = Ok (agreed_password key, agreed_binding hash).
Proof.
  intros Hnow. destruct (ends_authenticate now Hnow) as [Hc Hj]. unfold finish_control. rewrite Hc, Hj. cbn [mbind result_bind].
  unfold agreed_password, agreed_binding. destruct joiner_is as [[-> ->]|[-> ->]]; done.
Qed.
End Ends.
End Documents.

(** ** Bindings *)

Definition frame_part (v : list byte) : list byte := be_bytes 8 (zlen v) ++ v.
Lemma framed_parts output parts :
  foldl append_len_prefixed output parts = output ++ concat (map frame_part parts).
Proof.
  revert output. induction parts as [|v parts IH]; intros output; cbn [foldl map concat]; [by rewrite app_nil_r|].
  rewrite IH. unfold append_len_prefixed, frame_part. by rewrite <- !app_assoc.
Qed.

(** Parts with their lengths, before anything else. *)
Lemma frame_parts_inj ps qs x y :
  Forall (fun v => zlen v <= u64_max) ps -> Forall (fun v => zlen v <= u64_max) qs -> length ps = length qs ->
  concat (map frame_part ps) ++ x = concat (map frame_part qs) ++ y -> ps = qs /\ x = y.
Proof.
  revert qs. induction ps as [|p ps IH]; intros [|q qs] Hp Hq Hlen Heq; try done.
  apply Forall_cons in Hp as [Hp Hps], Hq as [Hq Hqs]. cbn [map concat] in Heq.
  unfold frame_part in Heq at 1 3. rewrite <- !app_assoc in Heq.
  apply app_inj_1 in Heq as [Hl Heq]; [|by rewrite !length_be_bytes].
  apply (f_equal be_value) in Hl. pose proof (zlen_nonneg p). pose proof (zlen_nonneg q).
  unfold u64_max in *. rewrite !be_value_be_bytes_small in Hl by (cbn -[Z.pow] in *; lia).
  apply app_inj_1 in Heq as [-> Heq]; [|unfold zlen in Hl; lia]. apply IH in Heq as [-> ->]; auto.
Qed.
Lemma framed_inj ps qs :
  Forall (fun v => zlen v <= u64_max) ps -> Forall (fun v => zlen v <= u64_max) qs -> length ps = length qs ->
  foldl append_len_prefixed [] ps = foldl append_len_prefixed [] qs -> ps = qs.
Proof.
  intros Hp Hq Hlen. rewrite !framed_parts. cbn [app]. intros Heq.
  apply (frame_parts_inj ps qs [] []); [done..|]. by rewrite !app_nil_r.
Qed.

Lemma control_binding_inj c c' : zlen (cc_room_id c) <= u64_max -> zlen (cc_room_id c') <= u64_max ->
  control_framed_binding c = control_framed_binding c' -> c = c'.
Proof.
  assert (Hkind : forall k k', bootstrap_kind_id k = bootstrap_kind_id k' -> k = k') by (by intros [] []).
  assert (Hrole : forall r r', transfer_role_bytes r = transfer_role_bytes r' -> r = r') by (by intros [] []).
  assert (Hk : forall k, zlen (bootstrap_kind_id k) <= u64_max) by (by intros []).
  assert (Hr : forall r, zlen (transfer_role_bytes r) <= u64_max) by (by intros []).
  destruct c, c'. intros H1 H2 Heq. unfold control_framed_binding in Heq.
  apply framed_inj in Heq; [|by repeat constructor..|done]. cbn in Heq.
  injection Heq as -> ?%Hkind ?%Hrole ?%Hrole. by subst.
Qed.

(** Different contexts have different bindings: neither the binding of the
    control channel nor that of the data authentication lets two contexts be taken
    for each other, as every part carries its length. *)
Theorem bindings_injective :
  (forall c c', zlen (cc_room_id c) <= u64_max -> zlen (cc_room_id c') <= u64_max ->
     control_framed_binding c = control_framed_binding c' -> c = c') /\
  (forall c c',
     length (ac_invite_id c) = INVITE_ID_LEN -> length (ac_invite_id c') = INVITE_ID_LEN ->
     length (ac_context_commitment c) = COMMITMENT_LEN -> length (ac_context_commitment c') = COMMITMENT_LEN ->
     (forall h, control_transcript_hash c = Some h -> length h = COMMITMENT_LEN) ->
     (forall h, control_transcript_hash c' = Some h -> length h = COMMITMENT_LEN) ->
     auth_framed_binding c = auth_framed_binding c' -> c = c').
Proof.
  split; [apply control_binding_inj|].
  assert (Hkind : forall k k', bootstrap_kind_id k = bootstrap_kind_id k' -> k = k') by (by intros [] []).
  assert (Hrole : forall r r', transfer_role_bytes r = transfer_role_bytes r' -> r = r') by (by intros [] []).
  assert (Hk : forall k, zlen (bootstrap_kind_id k) <= u64_max) by (by intros []).
  assert (Hr : forall r, zlen (transfer_role_bytes r) <= u64_max) by (by intros []).
  assert (Hfix : forall (x : list byte) n, length x = n -> (n <= 32)%nat -> zlen x <= u64_max)
    by (intros x n <- ?; unfold zlen, u64_max; lia).
  intros [? ? ? ? ? h] [? ? ? ? ? h'] H1 H2 H3 H4 H5 H6 Heq. unfold auth_framed_binding in Heq.
    cbn in H1, H2, H3, H4, H5, H6.
    assert (Hh : forall o : option (list byte), (forall h, o = Some h -> length h = COMMITMENT_LEN) -> zlen (default [] o) <= u64_max).
    { intros [x|] Hx; [|done]. eapply Hfix; [by apply Hx|done]. }
    apply framed_inj in Heq; [|repeat (apply Forall_cons; split; [cbn|]);
      [by apply (Hfix _ 16%nat); [|lia]|by apply (Hfix _ 32%nat)|apply Hk|apply Hr|apply Hr|by apply Hh|constructor]..|done].
    cbn in Heq. injection Heq as -> -> ?%Hkind ?%Hrole ?%Hrole Hd. subst. f_equal.
    destruct h as [x|], h' as [y|]; cbn in Hd; [by subst|..|done].
    + specialize (H5 _ eq_refl). by subst.
    + specialize (H6 _ eq_refl). by subst.
Qed.
