(* ===== verification/RoomInvite.v ===== *)
(** Room invitations (crates/envoix-session/src/room_control.rs): a room code with
    the broker, the relay and the expiry of its room, as a text that can be typed
    or scanned, with the percent-encoding of its fields.  The clock is the seconds
    since the epoch, [None] when it is before it. *)

From stdpp Require Import prelude strings.
From Stdlib Require Import ZArith Lia Strings.Byte.
From S2P Require Import Prelude Bytes Text BrokerConfig CoreError Proc Invite InviteProof.

Local Open Scope Z_scope.

(** ** Percent encoding *)

Definition unreserved (b : byte) : bool :=
  is_ascii_alphanumeric b || existsb (eq_byte b) [x2d; x2e; x5f; x7e].
(** An upper-case hexadecimal digit. *)
Definition hex_digit (d : Z) : byte := if d <=? 9 then byte_of (48 + d) else byte_of (55 + d).
Definition percent_byte (b : byte) : str :=
  if unreserved b then [b] else [x25; hex_digit (byte_val b / 16); hex_digit (byte_val b mod 16)].
Definition percent_encode (value : str) : str := concat (map percent_byte value).

Fixpoint percent_bytes (value : str) : session (list byte) :=
  match value with
  | [] => Ok []
  | b :: rest =>
    if eq_byte b x25 then
      match rest with
      | high :: low :: rest =>
        encoded ← ok_or (InvalidInput "invalid percent escape") (from_utf8 [high; low]);
        v ← ok_or (InvalidInput "invalid percent escape") (from_str_radix 16 u8_max encoded);
        output ← percent_bytes rest;
        Ok (byte_of v :: output)
      | _ => Err (InvalidInput "truncated percent escape")
      end
    else output ← percent_bytes rest; Ok (b :: output)
  end.
Definition percent_decode (value : str) : session str :=
  output ← percent_bytes value;
  ok_or (InvalidInput "room invitation is not UTF-8") (from_utf8 output).

(** ** Invitations *)

Definition ROOM_URI_PREFIX : str := lit "envoix://room/".
Definition ROOM_INVITE_TTL : Z := 300.

Record RoomControlInvite := mkRoomInvite {
  ri_code : str;
  ri_broker : str;
  ri_relay : option str;
  expires_at_unix_secs : Z;
}.
#[export] Instance RoomControlInvite_eq_dec : EqDecision RoomControlInvite.
Proof. solve_decision. Defined.

Definition clock_secs (now : option Z) : session Z :=
  ok_or (InvalidInput "system clock precedes Unix epoch") now.
(** [a.saturating_add(b)] of [u64]s *)
Definition u64_saturating_add (a b : Z) : Z := Z.min u64_max (a + b).

Definition normalize_room_code (code : str) : session str :=
  let code := str_trim code in
  if match code with b :: _ => eq_byte b x52 || eq_byte b x72 | [] => false end
  then Err (InvalidInput "legacy R-prefixed room codes are not supported")
  else map_err (fun _ => InvalidInput "room code") (room_code_parse code).

(** A relay that is blank is none. *)
Definition trimmed_relay (relay : option str) : option str :=
  r ← relay; let r := str_trim r in if bool_decide (r = []) then None else Some r.

Definition room_invite_from_parts (code broker : str) (relay : option str) (expires : Z)
    : session RoomControlInvite :=
  code ← normalize_room_code code;
  let broker := str_trim broker in
  if bool_decide (broker = []) then Err (InvalidInput "room control invitation needs a broker")
  else Ok (mkRoomInvite code broker (trimmed_relay relay) expires).

(** [RoomControlInvite::generate], over the entropy of the code. *)
Definition room_invite_generate (broker : str) (relay : option str) (now : option Z) (entropy : list byte)
    : list byte * session RoomControlInvite :=
  let '(entropy, code) := room_code_generate entropy in
  (entropy,
   code ← map_err (fun _ => InvalidInput "room code") code;
   secs ← clock_secs now;
   room_invite_from_parts code broker relay (u64_saturating_add secs ROOM_INVITE_TTL)).

(** The fields of the query: broker, relay and expiry. *)
Definition query : Type := option str * option str * option Z.
Definition query_field (q : query) (field : str) : session query :=
  let '(broker, relay, expires) := q in
  let '(key, value) := default (field, []) (split_once x3d field) in
  if bool_decide (key = lit "broker") then v ← percent_decode value; Ok (Some v, relay, expires)
  else if bool_decide (key = lit "relay") then v ← percent_decode value; Ok (broker, Some v, expires)
  else if bool_decide (key = lit "expires") then
    v ← percent_decode value;
    n ← ok_or (InvalidInput "invalid room invitation expiry") (parse_u64 v);
    Ok (broker, relay, Some n)
  else Ok q.
Fixpoint query_fields (q : query) (fields : list str) : session query :=
  match fields with
  | [] => Ok q
  | field :: rest =>
    if bool_decide (field = []) then query_fields q rest
    else q ← query_field q field; query_fields q rest
  end.

(** [RoomControlInvite::parse] *)
Definition room_invite_parse (input fallback_broker : str) (fallback_relay : option str) (now : option Z)
    : session RoomControlInvite :=
  let input := str_trim input in
  match strip_prefix ROOM_URI_PREFIX input with
  | Some rest =>
    let '(encoded_code, query) := default (rest, []) (split_once x3f rest) in
    code ← percent_decode encoded_code;
    '(broker, relay, expires) ← query_fields (None, None, None) (str_split x26 query);
    room_invite_from_parts code (default fallback_broker broker)
      (match relay with Some r => Some r | None => fallback_relay end)
      (default (u64_saturating_add (default 0 now) ROOM_INVITE_TTL) expires)
  | None =>
    secs ← clock_secs now;
    room_invite_from_parts input fallback_broker fallback_relay (u64_saturating_add secs ROOM_INVITE_TTL)
  end.

(** [RoomControlInvite::payload] *)
Definition room_invite_payload (i : RoomControlInvite) : str :=
  ROOM_URI_PREFIX ++ percent_encode (ri_code i)
  ++ lit "?broker=" ++ percent_encode (ri_broker i)
  ++ match ri_relay i with Some relay => lit "&relay=" ++ percent_encode relay | None => [] end
  ++ lit "&expires=" ++ to_decimal (expires_at_unix_secs i).

(** [RoomControlInvite::room_id] ([None] where [expect] panics) and [ensure_fresh] *)
Definition room_invite_locator (i : RoomControlInvite) : option str :=
  match room_code_parse (ri_code i) with
  | Ok code => Some (ROOM_CONTROL_LOCATOR_PREFIX ++ room_code_id code)
  | Err _ => None
  end.
Definition ensure_fresh (i : RoomControlInvite) (now : option Z) : session unit :=
  secs ← clock_secs now;
  if expires_at_unix_secs i <=? secs then Err (InvalidInput "room control invitation has expired") else Ok tt.

(** ** Percent decoding undoes encoding *)

Lemma percent_byte_decode b rest :
  percent_bytes (percent_byte b ++ rest) = (output ← percent_bytes rest; Ok (b :: output)).
Proof. destruct b; try reflexivity. Qed.
Lemma percent_bytes_encode s : percent_bytes (percent_encode s) = Ok s.
Proof.
  induction s as [|b s IH]; [done|]. unfold percent_encode in *. cbn [map concat].
  rewrite percent_byte_decode, IH. done.
Qed.
Lemma percent_roundtrip s : utf8_valid s = true -> percent_decode (percent_encode s) = Ok s.
Proof. intros Hs. unfold percent_decode, from_utf8. rewrite percent_bytes_encode. cbn. by rewrite Hs. Qed.

(** No separator of the text is in an encoded field. *)
Lemma percent_byte_safe b c : c ∈ percent_byte b -> unreserved c = true \/ c = x25.
Proof.
  intros Hin%list_elem_of_In.
  assert (Hall : forallb (fun c => unreserved c || eq_byte c x25) (percent_byte b) = true) by (by destruct b).
  rewrite forallb_forall in Hall. apply Hall in Hin. apply orb_true_iff in Hin as [?|?%bool_decide_eq_true]; auto.
Qed.
Lemma percent_encode_safe s c : c ∈ percent_encode s -> unreserved c = true \/ c = x25.
Proof.
  unfold percent_encode. induction s as [|b s IH]; cbn; [by intros ?%not_elem_of_nil|].
  intros [?%percent_byte_safe|?]%elem_of_app; auto.
Qed.
Lemma percent_encode_without s c : unreserved c = false -> c <> x25 -> c ∉ percent_encode s.
Proof. intros Hc Hne Hin. destruct (percent_encode_safe _ _ Hin); congruence. Qed.

Lemma percent_digits s : forallb is_digit s = true -> percent_encode s = s.
Proof.
  unfold percent_encode. induction s as [|b s IH]; [done|]. cbn. intros Hs. bool_prop. rewrite IH by done.
  by destruct b.
Qed.
Lemma ascii_utf8 s : is_ascii s = true -> utf8_valid s = true.
Proof.
  unfold utf8_valid. induction s as [|b s IH]; [done|]. cbn [is_ascii forallb utf8_decode]. intros [Hb Hs]%andb_true_iff.
  rewrite Hb. specialize (IH Hs). by destruct (utf8_decode s).
Qed.
Lemma digits_utf8 s : forallb is_digit s = true -> utf8_valid s = true.
Proof. intros Hs. apply ascii_utf8. eapply forallb_impl; [|exact Hs]. by intros []. Qed.

(** ** Round trip *)

Lemma code_text_plain code : code_ok code -> exists a s b, code = a :: s ++ [b] /\ plain a = true /\ plain b = true
  /\ eq_byte a x52 || eq_byte a x72 = false.
Proof.
  intros (room & secret & -> & Hr & Hs & Hdr & Hds). unfold ROOM_ID_BYTES, ROOM_SECRET_LEN, code_text in *.
  destruct room as [|a room]; [done|]. destruct (exists_last (l := secret)) as (init & b & ->); [by destruct secret|].
  rewrite length_app in Hs. cbn in Hs. assert (Hi : length init = 7%nat) by lia.
  exists a, (room ++ lit "-" ++ take 4 init ++ lit "-" ++ drop 4 init), b. split.
  { rewrite take_app_le, drop_app_le by lia. cbn [app]. by rewrite <- !app_assoc. }
  cbn in Hdr. rewrite forallb_app in Hds. cbn in Hds. bool_prop. by split_and!; [destruct a|destruct b|destruct a].
Qed.

Lemma normalize_code code : code_ok code -> normalize_room_code code = Ok code.
Proof.
  intros Hc. destruct (code_text_plain _ Hc) as (a & s & b & Heq & Ha & Hb & Hr).
  unfold normalize_room_code. rewrite Heq, str_trim_plain, Hr by done. rewrite <- Heq. by rewrite code_ok_parse.
Qed.

Lemma normalized_ok code code' : normalize_room_code code = Ok code' -> code_ok code'.
Proof. unfold normalize_room_code. intros Hn. inv_ok. by eapply parse_code_ok. Qed.

(** The parts that [from_parts] leaves are the same when they are trimmed again. *)
Lemma from_parts_again code broker relay expires i :
  room_invite_from_parts code broker relay expires = Ok i ->
  code_ok (ri_code i) /\ expires_at_unix_secs i = expires /\
  str_trim (ri_broker i) = ri_broker i /\ ri_broker i <> [] /\ trimmed_relay (ri_relay i) = ri_relay i.
Proof.
  unfold room_invite_from_parts. intros Hf. inv_ok. bool_prop.
  match goal with H : normalize_room_code _ = Ok _ |- _ => apply normalized_ok in H as Hok end.
  split; [done|]. split; [done|]. cbn [ri_broker ri_relay]. rewrite str_trim_idem. split; [done|]. split; [done|].
  unfold trimmed_relay. destruct relay as [r|]; cbn [mbind option_bind]; [|done].
  case_bool_decide as Hr; [done|]. cbn [mbind option_bind]. by rewrite str_trim_idem, bool_decide_eq_false_2.
Qed.

(** One field of the query, and the fields that [payload] writes. *)
Lemma query_broker q broker :
  utf8_valid broker = true ->
  query_field q (lit "broker=" ++ percent_encode broker) = Ok (Some broker, q.1.2, q.2).
Proof.
  intros Hb. destruct q as [[b r] x]. unfold query_field.
  change (lit "broker=" ++ percent_encode broker) with (lit "broker" ++ x3d :: percent_encode broker).
  rewrite split_once_app by (vm_compute; set_solver). cbn [from_option id fst snd]. rewrite bool_decide_eq_true_2 by done.
  by rewrite percent_roundtrip.
Qed.
Lemma query_relay q relay :
  utf8_valid relay = true -> query_field q (lit "relay=" ++ percent_encode relay) = Ok (q.1.1, Some relay, q.2).
Proof.
  intros Hb. destruct q as [[b r] x]. unfold query_field.
  change (lit "relay=" ++ percent_encode relay) with (lit "relay" ++ x3d :: percent_encode relay).
  rewrite split_once_app by (vm_compute; set_solver). cbn [from_option id fst snd].
  rewrite bool_decide_eq_false_2, bool_decide_eq_true_2 by done. by rewrite percent_roundtrip.
Qed.
Lemma query_expires q n :
  0 <= n <= u64_max -> query_field q (lit "expires=" ++ to_decimal n) = Ok (q.1, Some n).
Proof.
  intros Hn. destruct q as [[b r] x]. unfold query_field. destruct (to_decimal_digits n) as [Hd _].
  change (lit "expires=" ++ to_decimal n) with (lit "expires" ++ x3d :: to_decimal n).
  rewrite split_once_app by (vm_compute; set_solver). cbn [from_option id fst snd].
  rewrite !bool_decide_eq_false_2, bool_decide_eq_true_2 by done.
  rewrite <- (percent_digits _ Hd), percent_roundtrip by (by apply digits_utf8). cbn.
  by rewrite parse_u64_decimal.
Qed.

Lemma digits_no s c : forallb is_digit s = true -> is_digit c = false -> c ∉ s.
Proof. rewrite forallb_forall. intros Hs Hc Hin%list_elem_of_In%Hs. congruence. Qed.

Lemma query_fields_step q field rest :
  field <> [] -> query_fields q (field :: rest) = (q ← query_field q field; query_fields q rest).
Proof. intros Hf. cbn. by rewrite bool_decide_eq_false_2. Qed.

(** The query of [payload], split into its fields. *)
Lemma payload_fields broker relay n :
  str_split x26 (lit "broker=" ++ percent_encode broker
    ++ match relay with Some r => lit "&relay=" ++ percent_encode r | None => [] end
    ++ lit "&expires=" ++ to_decimal n)
  = (lit "broker=" ++ percent_encode broker)
    :: match relay with Some r => [lit "relay=" ++ percent_encode r] | None => [] end
    ++ [lit "expires=" ++ to_decimal n].
Proof.
  destruct (to_decimal_digits n) as [Hd _].
  assert (Hp : forall k s, x26 ∉ k -> x26 ∉ k ++ percent_encode s).
  { intros k s Hk [?|?]%elem_of_app; [done|]. by eapply (percent_encode_without s x26). }
  assert (He : str_split x26 (lit "expires=" ++ to_decimal n) = [lit "expires=" ++ to_decimal n]).
  { apply str_split_one. intros [Hin|Hin]%elem_of_app; [revert Hin; vm_compute; set_solver|]. by eapply digits_no in Hin. }
  assert (Hcut : forall k s t, x26 ∉ k ->
    str_split x26 (k ++ percent_encode s ++ x26 :: t) = (k ++ percent_encode s) :: str_split x26 t).
  { intros k s t Hk. rewrite app_assoc. by apply str_split_app, Hp. }
  change (lit "&expires=" ++ to_decimal n) with (x26 :: lit "expires=" ++ to_decimal n).
  destruct relay as [r|].
  - change (lit "&relay=" ++ percent_encode r) with (x26 :: lit "relay=" ++ percent_encode r).
    rewrite <- (app_comm_cons _ (_ :: _)), Hcut by (vm_compute; set_solver). f_equal.
    rewrite <- app_assoc, Hcut by (vm_compute; set_solver). by rewrite He.
  - cbn [app]. rewrite Hcut by (vm_compute; set_solver). by rewrite He.
Qed.

(** The text of an invitation is trimmed already. *)
Lemma payload_trim i : str_trim (room_invite_payload i) = room_invite_payload i.
Proof.
  unfold room_invite_payload. destruct (to_decimal_digits (expires_at_unix_secs i)) as [Hd Hne].
  destruct (exists_last Hne) as (init & b & Heq). rewrite Heq in Hd |- *. rewrite forallb_app in Hd. cbn in Hd. bool_prop.
  set (middle := percent_encode (ri_code i) ++ _).
  assert (Hend : exists m, middle = m ++ [b]).
  { unfold middle. rewrite !app_assoc. by eexists. }
  destruct Hend as [m ->].
  change (ROOM_URI_PREFIX ++ m ++ [b]) with (x65 :: (lit "nvoix://room/" ++ m ++ [b])).
  rewrite app_assoc. apply str_trim_plain; [done|]. by destruct b.
Qed.

Lemma payload_parse code broker relay expires i fallback_broker fallback_relay now :
  room_invite_from_parts code broker relay expires = Ok i ->
  utf8_valid (ri_broker i) = true -> utf8_valid (default [] (ri_relay i)) = true ->
  0 <= expires <= u64_max ->
  room_invite_parse (room_invite_payload i) fallback_broker fallback_relay now
  = Ok (mkRoomInvite (ri_code i) (ri_broker i)
          (match ri_relay i with Some r => Some r | None => trimmed_relay fallback_relay end) expires).
Proof.
  intros Hf Hb Hr He. destruct (from_parts_again _ _ _ _ _ Hf) as (Hok & Hexp & Htb & Hbne & Htr).
  assert (Hcode : utf8_valid (ri_code i) = true).
  { apply ascii_utf8. pose proof (code_ok_parse _ Hok) as Hp. unfold room_code_parse in Hp.
    by destruct (is_ascii (ri_code i)). }
  unfold room_invite_parse. rewrite payload_trim. unfold room_invite_payload. rewrite strip_prefix_app, Hexp.
  change (lit "?broker=" ++ percent_encode (ri_broker i)
    ++ match ri_relay i with Some r => lit "&relay=" ++ percent_encode r | None => [] end ++ lit "&expires=" ++ to_decimal expires)
    with (x3f :: lit "broker=" ++ percent_encode (ri_broker i)
    ++ match ri_relay i with Some r => lit "&relay=" ++ percent_encode r | None => [] end ++ lit "&expires=" ++ to_decimal expires).
  rewrite split_once_app by (by apply percent_encode_without). cbn [from_option id].
  rewrite percent_roundtrip, payload_fields by done. cbn [mbind result_bind].
  rewrite query_fields_step, query_broker by done. cbn [mbind result_bind fst snd].
  assert (Hlast : forall q, query_fields q [lit "expires=" ++ to_decimal expires] = Ok (q.1, Some expires)).
  { intros q. rewrite query_fields_step, query_expires by done. done. }
  assert (Hparts : forall relay, room_invite_from_parts (ri_code i) (ri_broker i) relay expires
    = Ok (mkRoomInvite (ri_code i) (ri_broker i) (trimmed_relay relay) expires)).
  { intros r. unfold room_invite_from_parts. rewrite normalize_code by done. cbn [mbind result_bind].
    rewrite Htb. by rewrite bool_decide_eq_false_2. }
  destruct (ri_relay i) as [r|] eqn:Hrel; cbn [app].
  - rewrite query_fields_step, query_relay by done. cbn [mbind result_bind fst snd]. rewrite Hlast.
    cbn [mbind result_bind fst snd from_option id]. by rewrite Hparts, Htr.
  - rewrite Hlast. cbn [mbind result_bind fst snd from_option id]. by rewrite Hparts.
Qed.

(** A room invitation is read back from its text: [parse] of the [payload] of
    an invitation that [from_parts] made gives the invitation again, whatever
    broker is the reader's own and whatever its clock.  Only the relay can differ:
    an invitation without one takes the reader's. *)
Theorem room_invite_roundtrip code broker relay expires i fallback_broker fallback_relay now :
  room_invite_from_parts code broker relay expires = Ok i ->
  utf8_valid (ri_broker i) = true -> utf8_valid (default [] (ri_relay i)) = true ->
  0 <= expires <= u64_max ->
  room_invite_parse (room_invite_payload i) fallback_broker fallback_relay now
  = Ok (mkRoomInvite (ri_code i) (ri_broker i)
          (match ri_relay i with Some r => Some r | None => trimmed_relay fallback_relay end) expires).
Proof. apply payload_parse. Qed.
