(* ===== verification/RoomControl.v ===== *)
(** The foreground room (crates/envoix-session/src/room_control.rs): two members of
    an authenticated connection exchange offers, decisions and the lifetime of the
    room.  A session is its state behind the mutexes with the messages it has still
    to receive, those it has sent, how its coming writes end and what its clock
    reads; a method is a program over it, which leaves the state it leaves also
    when it fails.  A poisoned mutex is not represented. *)

From stdpp Require Import prelude gmap strings.
From Stdlib Require Import ZArith Lia Strings.Byte.
From S2P Require Import Prelude Bytes Text BrokerConfig CoreError Proc Invite RoomInvite.

Local Open Scope Z_scope.

Definition ROOM_CONTROL_VERSION : Z := 5.
Definition ROOM_IDLE_TIMEOUT_MS : Z := 15 * 60 * 1000.
Definition MAX_CONTROL_FRAME_BYTES : Z := 64 * 1024.
Definition MAX_TRANSFER_INVITE_BYTES : Z := 8 * 1024.
Definition MAX_OFFER_ID_BYTES : Z := 128.
Definition MAX_ROOT_NAME_BYTES : Z := 255.
Definition MAX_ROOT_PREVIEWS : Z := 3.
Definition MAX_SEEN_OFFER_IDS : nat := 256.

(** ** Messages *)

Inductive RoomLifetimePolicy := Idle15Minutes | UntilForegroundEnds.
#[export] Instance RoomLifetimePolicy_eq_dec : EqDecision RoomLifetimePolicy.
Proof. solve_decision. Defined.

Record RoomLifetimeState := mkLifetime {
  revision : Z;
  policy : RoomLifetimePolicy;
  idle_deadline_unix_ms : option Z;
}.
#[export] Instance RoomLifetimeState_eq_dec : EqDecision RoomLifetimeState.
Proof. solve_decision. Defined.

Inductive RoomCloseReason :=
| UserEnded | IdleExpired | InvitationExpired | PeerEnded | Backgrounded | NetworkLost | ProtocolFailure.
#[export] Instance RoomCloseReason_eq_dec : EqDecision RoomCloseReason.
Proof. solve_decision. Defined.

Inductive RoomOfferRejection := OfferDeclined | OfferBusy | OfferExpired | OfferInvalid.
#[export] Instance RoomOfferRejection_eq_dec : EqDecision RoomOfferRejection.
Proof. solve_decision. Defined.

Record RoomTransferOffer := mkRoomOffer {
  offer_id : str;
  transfer_invite : str;
  root_names : list str;
  item_count : Z;
  directory_count : Z;
  total_bytes : Z;
}.
#[export] Instance RoomTransferOffer_eq_dec : EqDecision RoomTransferOffer.
Proof. solve_decision. Defined.

Inductive ControlSessionKind := KindInvitation | KindRemembered.
#[export] Instance ControlSessionKind_eq_dec : EqDecision ControlSessionKind.
Proof. solve_decision. Defined.

Inductive ControlMessage :=
| CHello (protocol_version : Z) (session_kind : ControlSessionKind) (display_name : str) (creator : bool)
    (pairing_binding : list byte) (lifetime : option RoomLifetimeState)
| CTransferOffer (offer : RoomTransferOffer)
| COfferAccepted (id : str)
| COfferRejected (id : str) (reason : RoomOfferRejection)
| CLifetimeChanged (state : RoomLifetimeState)
| CActivity
| CTransferActive (active : bool)
| CClose (reason : RoomCloseReason)
| CPing (nonce : Z)
| CPong (nonce : Z).
#[export] Instance ControlMessage_eq_dec : EqDecision ControlMessage.
Proof. solve_decision. Defined.

Inductive RoomControlEvent :=
| IncomingOffer (offer : RoomTransferOffer)
| EventAccepted (id : str)
| EventRejected (id : str) (reason : RoomOfferRejection)
| EventLifetime (state : RoomLifetimeState)
| PeerClosed (reason : RoomCloseReason)
| EventPong (nonce : Z).

(** ** Lifetime *)

(** [RoomLifetimeState::initial], [remembered] and [validate] *)
Definition lifetime_initial (now_unix_ms : Z) : RoomLifetimeState :=
  mkLifetime 1 Idle15Minutes (Some (u64_saturating_add now_unix_ms ROOM_IDLE_TIMEOUT_MS)).
Definition lifetime_remembered : RoomLifetimeState := mkLifetime 1 UntilForegroundEnds None.
Definition lifetime_validate (s : RoomLifetimeState) : session unit :=
  if revision s =? 0 then Err (Protocol "room lifetime revision must be positive")
  else if bool_decide (policy s = UntilForegroundEnds) && bool_decide (is_Some (idle_deadline_unix_ms s))
  then Err (Protocol "foreground room lifetime cannot have an idle deadline")
  else Ok tt.
Definition validate_initial_lifetime (s : RoomLifetimeState) : session unit :=
  _ ← lifetime_validate s;
  if negb (revision s =? 1) || negb (bool_decide (policy s = Idle15Minutes))
     || bool_decide (idle_deadline_unix_ms s = None)
  then Err (Protocol "room creator sent an invalid initial lifetime") else Ok tt.

Record RoomLifetimeMachine := mkMachine {
  lm_state : RoomLifetimeState;
  local_transfer_active : bool;
  peer_transfer_active : bool;
}.
Abbreviation machine A := (proc RoomLifetimeMachine CoreError A).

Definition machine_new (s : RoomLifetimeState) : RoomLifetimeMachine := mkMachine s false false.
Definition any_transfer_active (m : RoomLifetimeMachine) : bool :=
  local_transfer_active m || peer_transfer_active m.
Definition get_machine : machine RoomLifetimeMachine := fun m => (m, Ok m).
Definition put_machine (m : RoomLifetimeMachine) : machine unit := fun _ => (m, Ok tt).

Definition lifetime_advance (deadline : option Z) : machine RoomLifetimeState :=
  m ← get_machine;
  next ← pure (ok_or (Protocol "room lifetime revision exhausted") (checked_add u64_max (revision (lm_state m)) 1));
  let state := mkLifetime next (policy (lm_state m)) deadline in
  _ ← put_machine (mkMachine state (local_transfer_active m) (peer_transfer_active m));
  mret state.
Definition machine_note_activity (now_unix_ms : Z) : machine (option RoomLifetimeState) :=
  m ← get_machine;
  if negb (bool_decide (policy (lm_state m) = Idle15Minutes)) || any_transfer_active m then mret None
  else s ← lifetime_advance (Some (u64_saturating_add now_unix_ms ROOM_IDLE_TIMEOUT_MS)); mret (Some s).
Definition apply_transfer_edge (was_active : bool) (now_unix_ms : Z) : machine (option RoomLifetimeState) :=
  m ← get_machine;
  let is_active := any_transfer_active m in
  if Bool.eqb was_active is_active || negb (bool_decide (policy (lm_state m) = Idle15Minutes)) then mret None
  else
    s ← lifetime_advance (if is_active then None
                          else Some (u64_saturating_add now_unix_ms ROOM_IDLE_TIMEOUT_MS));
    mret (Some s).
Definition machine_set_local (active : bool) (now_unix_ms : Z) : machine (option RoomLifetimeState) :=
  m ← get_machine;
  if Bool.eqb (local_transfer_active m) active then mret None
  else
    _ ← put_machine (mkMachine (lm_state m) active (peer_transfer_active m));
    apply_transfer_edge (any_transfer_active m) now_unix_ms.
Definition machine_set_peer (active : bool) (now_unix_ms : Z) : machine (option RoomLifetimeState) :=
  m ← get_machine;
  if Bool.eqb (peer_transfer_active m) active then mret None
  else
    _ ← put_machine (mkMachine (lm_state m) (local_transfer_active m) active);
    apply_transfer_edge (any_transfer_active m) now_unix_ms.
Definition machine_set_policy (p : RoomLifetimePolicy) (now_unix_ms : Z) : machine (option RoomLifetimeState) :=
  m ← get_machine;
  if bool_decide (policy (lm_state m) = p) then mret None
  else
    _ ← put_machine (mkMachine (mkLifetime (revision (lm_state m)) p (idle_deadline_unix_ms (lm_state m)))
                       (local_transfer_active m) (peer_transfer_active m));
    s ← lifetime_advance
          (match p with
           | Idle15Minutes => if any_transfer_active m then None
                              else Some (u64_saturating_add now_unix_ms ROOM_IDLE_TIMEOUT_MS)
           | UntilForegroundEnds => None
           end);
    mret (Some s).
Definition apply_authoritative (state : RoomLifetimeState) : machine RoomLifetimeState :=
  _ ← pure (lifetime_validate state);
  m ← get_machine;
  if revision state <=? revision (lm_state m) then throw (Protocol "room lifetime revision did not advance")
  else
    _ ← put_machine (mkMachine state (local_transfer_active m) (peer_transfer_active m));
    mret state.

(** ** Offers *)

Record OfferState := mkOffers {
  pending_local : option str;
  pending_remote : option str;
  seen : gset str;
  seen_order : list str;
}.
Definition no_offers : OfferState := mkOffers None None ∅ [].

(** The loop at the end of [OfferState::remember]. *)
Fixpoint forget_old (known : gset str) (order : list str) : gset str * list str :=
  match order with
  | expired :: rest =>
    if (MAX_SEEN_OFFER_IDS <? length order)%nat then forget_old (known ∖ {[ expired ]}) rest
    else (known, order)
  | [] => (known, [])
  end.
Definition remember (id : str) (o : OfferState) : OfferState :=
  let order := if bool_decide (id ∈ seen o) then seen_order o else seen_order o ++ [id] in
  let '(known, order) := forget_old ({[ id ]} ∪ seen o) order in
  mkOffers (pending_local o) (pending_remote o) known order.

(** The critical sections on the offers: of [offer_transfer], of [next_event] on
    an offer ([true] when it is busy), [resolve_remote_offer] and
    [resolve_local_offer]. *)
Definition begin_local_offer (id : str) (o : OfferState) : OfferState * session unit :=
  if bool_decide (is_Some (pending_local o)) || bool_decide (is_Some (pending_remote o))
  then (o, Err (InvalidInput "another room offer is waiting for a decision"))
  else if bool_decide (id ∈ seen o)
  then (o, Err (InvalidInput "room offer id has already been used"))
  else (remember id (mkOffers (Some id) (pending_remote o) (seen o) (seen_order o)), Ok tt).
Definition receive_offer (id : str) (o : OfferState) : OfferState * bool :=
  if bool_decide (is_Some (pending_local o)) || bool_decide (is_Some (pending_remote o))
     || bool_decide (id ∈ seen o)
  then (o, true)
  else (remember id (mkOffers (pending_local o) (Some id) (seen o) (seen_order o)), false).
Definition resolve_remote_offer (id : str) (o : OfferState) : OfferState * session unit :=
  if negb (bool_decide (pending_remote o = Some id))
  then (o, Err (InvalidInput "this room offer is not waiting for a local decision"))
  else (mkOffers (pending_local o) None (seen o) (seen_order o), Ok tt).
Definition resolve_local_offer (id : str) (o : OfferState) : OfferState * session unit :=
  if negb (bool_decide (pending_local o = Some id))
  then (o, Err (Protocol "peer responded to an unknown room offer"))
  else (mkOffers None (pending_remote o) (seen o) (seen_order o), Ok tt).
Definition clear_local_offer (o : OfferState) : OfferState :=
  mkOffers None (pending_remote o) (seen o) (seen_order o).

(** ** Modes, names and offers *)

Inductive RoomControlSessionMode := ModeInvitation (creator : bool) | ModeRemembered (generation : Z).
#[export] Instance RoomControlSessionMode_eq_dec : EqDecision RoomControlSessionMode.
Proof. solve_decision. Defined.
Definition session_kind_of (m : RoomControlSessionMode) : ControlSessionKind :=
  match m with ModeInvitation _ => KindInvitation | ModeRemembered _ => KindRemembered end.
Definition mode_is_creator (m : RoomControlSessionMode) : bool :=
  match m with ModeInvitation creator => creator | ModeRemembered _ => false end.
Definition mode_is_remembered (m : RoomControlSessionMode) : bool :=
  match m with ModeInvitation _ => false | ModeRemembered _ => true end.

Definition validate_display_name (name : str) : session unit :=
  let trimmed := str_trim name in
  if bool_decide (trimmed = []) || (48 <? zlen (chars trimmed)) || existsb is_control (chars trimmed)
  then Err (InvalidInput "room display name must contain 1-48 visible characters") else Ok tt.

Definition offer_id_valid (id : str) : bool :=
  negb (bool_decide (id = [])) && (zlen id <=? MAX_OFFER_ID_BYTES)
  && forallb (fun b => is_ascii_alphanumeric b || eq_byte b x2d || eq_byte b x5f) id.
Definition root_name_invalid (name : str) : bool :=
  bool_decide (name = []) || (MAX_ROOT_NAME_BYTES <? zlen name)
  || bool_decide (name = lit ".") || bool_decide (name = lit "..")
  || existsb (fun c => is_control c || is_separator c) (chars name).

Section Offers.
Context `{InviteLibs}.

(** [RoomTransferOffer::validate] *)
Definition offer_validate (o : RoomTransferOffer) (expected_broker : str) (expected_relay : option str)
    (now : option Z) : session unit :=
  if negb (offer_id_valid (offer_id o))
  then Err (InvalidInput "room offer id must be 1-128 ASCII letters, digits, '-' or '_'")
  else if MAX_TRANSFER_INVITE_BYTES <? zlen (transfer_invite o)
  then Err (InvalidInput "room offer needs a bounded directional sender invitation")
  else
    secs ← clock_secs now;
    invite ← map_err (fun _ => InvalidInput "room offer needs a valid directional InviteV2")
               (invite_parse_for_role (transfer_invite o) TransferReceiver secs);
    let route := public_context invite in
    let relay_matches := bool_decide (relay_urls route = match expected_relay with Some r => [r] | None => [] end) in
    if negb (bool_decide (pc_broker route = expected_broker)) || negb relay_matches
    then Err (InvalidInput "room offer transfer route differs from room control route")
    else if item_count o <? directory_count o
    then Err (InvalidInput "room offer directory count exceeds item count")
    else if MAX_ROOT_PREVIEWS <? zlen (root_names o)
    then Err (InvalidInput "room offer has more than three root previews")
    else if existsb root_name_invalid (root_names o)
    then Err (InvalidInput "room offer contains an invalid root preview")
    else Ok tt.
End Offers.

(** ** Control frames *)

Section Frames.
Context (message_to_json : ControlMessage -> option (list byte))
  (message_from_json : list byte -> option ControlMessage).

Definition CONTROL_MAGIC : str := lit "ENRC".

(** [write_control_message]: the bytes written. *)
Definition write_control_message (m : ControlMessage) : session (list byte) :=
  payload ← ok_or (Protocol "JSON") (message_to_json m);
  if MAX_CONTROL_FRAME_BYTES <? zlen payload
  then Err (InvalidInput "room control message exceeds its allocation bound")
  else Ok (CONTROL_MAGIC ++ be_bytes 2 ROOM_CONTROL_VERSION ++ be_bytes 4 (zlen payload) ++ payload).

(** [read_exact] from the bytes still to come. *)
Definition read_exact (n : nat) (stream : list byte) : session (list byte * list byte) :=
  if (n <=? length stream)%nat then Ok (take n stream, drop n stream) else Err CoreIo.
(** [read_control_message]: the message and what is left of the stream. *)
Definition read_control_message (stream : list byte) : session (ControlMessage * list byte) :=
  '(header, stream) ← read_exact 10 stream;
  if negb (bool_decide (take 4 header = CONTROL_MAGIC)) then Err (Protocol "bad room control frame magic")
  else if negb (be_value (slice header 4 2) =? ROOM_CONTROL_VERSION)
  then Err (Protocol "unsupported room control frame version")
  else
    let length := be_value (slice header 6 4) in
    if MAX_CONTROL_FRAME_BYTES <? length
    then Err (Protocol "room control frame exceeds its allocation bound")
    else
      '(payload, stream) ← read_exact (Z.to_nat length) stream;
      m ← ok_or (Protocol "JSON") (message_from_json payload);
      Ok (m, stream).
End Frames.

(** ** Sessions *)

(** How a write ends: [SendFails] is an error of the stream, [SendTimesOut] the
    deadline of the write, after which the connection is closed. *)
Inductive SendOutcome := SendOk | SendFails | SendTimesOut.

Record RoomControlSession := mkSession {
  rc_offers : OfferState;
  rc_lifetime : RoomLifetimeMachine;
  rc_broker : str;
  rc_relay : option str;
  rc_mode : RoomControlSessionMode;
  rc_open : bool;
  rc_sent : list ControlMessage;
  rc_inbox : list ControlMessage;
  rc_writes : list SendOutcome;
  rc_clock : list (option Z);
}.
Abbreviation rc A := (proc RoomControlSession CoreError A).

Definition set_offers (o : OfferState) (s : RoomControlSession) : RoomControlSession :=
  mkSession o (rc_lifetime s) (rc_broker s) (rc_relay s) (rc_mode s) (rc_open s) (rc_sent s) (rc_inbox s)
    (rc_writes s) (rc_clock s).
Definition set_machine (m : RoomLifetimeMachine) (s : RoomControlSession) : RoomControlSession :=
  mkSession (rc_offers s) m (rc_broker s) (rc_relay s) (rc_mode s) (rc_open s) (rc_sent s) (rc_inbox s)
    (rc_writes s) (rc_clock s).
Definition close_connection (s : RoomControlSession) : RoomControlSession :=
  mkSession (rc_offers s) (rc_lifetime s) (rc_broker s) (rc_relay s) (rc_mode s) false (rc_sent s) (rc_inbox s)
    (rc_writes s) (rc_clock s).

Definition this : rc RoomControlSession := fun s => (s, Ok s).
Definition on_offers {A} (f : OfferState -> OfferState * session A) : rc A := fun s =>
  let '(o, r) := f (rc_offers s) in (set_offers o s, r).
Definition on_lifetime {A} (f : machine A) : rc A := fun s =>
  let '(m, r) := f (rc_lifetime s) in (set_machine m s, r).
Definition closing : rc unit := fun s => (close_connection s, Ok tt).

(** The clock, in milliseconds; [now_unix_secs] has the whole seconds. *)
Definition read_clock : rc (option Z) := fun s =>
  match rc_clock s with
  | [] => (s, Ok None)
  | now :: rest =>
    (mkSession (rc_offers s) (rc_lifetime s) (rc_broker s) (rc_relay s) (rc_mode s) (rc_open s) (rc_sent s)
       (rc_inbox s) (rc_writes s) rest, Ok now)
  end.
Definition now_unix_millis : rc Z :=
  now ← read_clock; pure (ok_or (InvalidInput "system clock precedes Unix epoch") now).

(** A guard of [CloseOnIncompleteMutation]: an early return closes the connection. *)
Definition guarded {A} (body : rc A) : rc A := fun s =>
  match body s with
  | (s, Err e) => (close_connection s, Err e)
  | done => done
  end.
Section Methods.
Context `{InviteLibs} (message_to_json : ControlMessage -> option (list byte)).

(** [RoomControlSession::send] *)
Definition room_send (m : ControlMessage) : rc unit := fun s =>
  match write_control_message message_to_json m with
  | Err e => (s, Err e)
  | Ok _ =>
    if negb (rc_open s) then (s, Err CoreIo)
    else
      let '(outcome, rest) := match rc_writes s with [] => (SendOk, []) | o :: rest => (o, rest) end in
      let s' sent open := mkSession (rc_offers s) (rc_lifetime s) (rc_broker s) (rc_relay s) (rc_mode s) open sent
                       (rc_inbox s) rest (rc_clock s) in
      match outcome with
      | SendOk => (s' (rc_sent s ++ [m]) true, Ok tt)
      | SendFails => (s' (rc_sent s) true, Err CoreIo)
      | SendTimesOut => (s' (rc_sent s) false, Err (Transport "room control write timed out"))
      end
  end.
(** [send_offer_response] *)
Definition send_offer_response (m : ControlMessage) : rc unit :=
  result ← attempt (room_send m);
  _ ← (if is_ok result then mret tt else closing);
  pure result.

(** [update_creator_lifetime] *)
Definition update_creator_lifetime (transition : Z -> machine (option RoomLifetimeState))
    : rc (option RoomLifetimeState) :=
  now ← now_unix_millis;
  state ← on_lifetime (transition now);
  _ ← match state with
      | Some st => guarded (room_send (CLifetimeChanged st))
      | None => mret tt
      end;
  mret state.

Definition note_activity : rc (option RoomLifetimeState) :=
  s ← this;
  if mode_is_remembered (rc_mode s) then mret None
  else if mode_is_creator (rc_mode s) then update_creator_lifetime machine_note_activity
  else _ ← room_send CActivity; mret None.

Definition offer_transfer (offer : RoomTransferOffer) : rc (option RoomLifetimeState) :=
  s ← this;
  now ← read_clock;
  _ ← pure (offer_validate offer (rc_broker s) (rc_relay s) ((fun ms => ms / 1000) <$> now));
  _ ← on_offers (begin_local_offer (offer_id offer));
  guarded
    (noted ← attempt note_activity;
     match noted with
     | Err e => _ ← on_offers (fun o => (clear_local_offer o, Ok tt)); throw e
     | Ok lifetime =>
       sent ← attempt (room_send (CTransferOffer offer));
       match sent with
       | Err e => _ ← on_offers (fun o => (clear_local_offer o, Ok tt)); throw e
       | Ok _ => mret lifetime
       end
     end).

Definition answer_offer (id : str) (response : ControlMessage) : rc (option RoomLifetimeState) :=
  _ ← on_offers (resolve_remote_offer id);
  guarded
    (lifetime ← note_activity;
     _ ← send_offer_response response;
     mret lifetime).
Definition accept_offer (id : str) : rc (option RoomLifetimeState) := answer_offer id (COfferAccepted id).
Definition reject_offer (id : str) (reason : RoomOfferRejection) : rc (option RoomLifetimeState) :=
  answer_offer id (COfferRejected id reason).

(** [set_policy], [set_local_transfer_active], [ping] *)
Definition set_policy (p : RoomLifetimePolicy) : rc (option RoomLifetimeState) :=
  s ← this;
  if mode_is_remembered (rc_mode s)
  then throw (InvalidInput "remembered room lifetime is fixed while connected")
  else if negb (mode_is_creator (rc_mode s))
  then throw (InvalidInput "only the room creator can change its lifetime")
  else update_creator_lifetime (machine_set_policy p).

(** The section of a joiner: whether its flag changed. *)
Definition set_own_flag (active : bool) : machine bool :=
  m ← get_machine;
  if Bool.eqb (local_transfer_active m) active then mret false
  else _ ← put_machine (mkMachine (lm_state m) active (peer_transfer_active m)); mret true.
Definition set_local_transfer_active (active : bool) : rc (option RoomLifetimeState) :=
  s ← this;
  if mode_is_remembered (rc_mode s) then mret None
  else if mode_is_creator (rc_mode s) then update_creator_lifetime (machine_set_local active)
  else
    changed ← on_lifetime (set_own_flag active);
    _ ← (if (changed : bool) then guarded (room_send (CTransferActive active)) else mret tt);
    mret None.

Definition ping (nonce : Z) : rc unit := room_send (CPing nonce).

(** [close]: the connection is closed whatever the write does. *)
Definition idle_expired (m : RoomLifetimeMachine) (now : Z) : bool :=
  bool_decide (policy (lm_state m) = Idle15Minutes) && negb (any_transfer_active m)
  && match idle_deadline_unix_ms (lm_state m) with Some deadline => deadline <=? now | None => false end.
Definition close (reason : RoomCloseReason) : rc unit :=
  s ← this;
  _ ← (if bool_decide (reason = IdleExpired) then
         if mode_is_remembered (rc_mode s)
         then throw (InvalidInput "remembered room control has no idle deadline")
         else if negb (mode_is_creator (rc_mode s))
         then throw (InvalidInput "only the room creator can expire its idle deadline")
         else
           now ← now_unix_millis;
           s ← this;
           throw_if (negb (idle_expired (rc_lifetime s) now)) (InvalidInput "room idle deadline has not expired")
       else mret tt);
  result ← attempt (room_send (CClose reason));
  _ ← closing;
  pure (match result with
        | Err (Transport _) => Err (Transport "room control close timed out")
        | r => r
        end).

(** [receive]: the next message of the peer. *)
Definition room_receive : rc ControlMessage := fun s =>
  match rc_inbox s with
  | [] => (s, Err CoreIo)
  | m :: rest =>
    (mkSession (rc_offers s) (rc_lifetime s) (rc_broker s) (rc_relay s) (rc_mode s) (rc_open s) (rc_sent s)
       rest (rc_writes s) (rc_clock s), Ok m)
  end.

(** One turn of [next_event]: an event, or [None] when the loop goes on. *)
Definition handle_message (m : ControlMessage) : rc (option RoomControlEvent) :=
  s ← this;
  let remembered := mode_is_remembered (rc_mode s) in
  let creator := mode_is_creator (rc_mode s) in
  match m with
  | CHello _ _ _ _ _ _ => throw (Protocol "duplicate room control hello")
  | CTransferOffer offer =>
    now ← read_clock;
    match offer_validate offer (rc_broker s) (rc_relay s) ((fun ms => ms / 1000) <$> now) with
    | Err e => _ ← attempt (room_send (COfferRejected (offer_id offer) OfferInvalid)); throw e
    | Ok _ =>
      busy ← on_offers (fun o => let '(o, busy) := receive_offer (offer_id offer) o in (o, Ok busy));
      if (busy : bool) then _ ← room_send (COfferRejected (offer_id offer) OfferBusy); mret None
      else mret (Some (IncomingOffer offer))
    end
  | COfferAccepted id => _ ← on_offers (resolve_local_offer id); mret (Some (EventAccepted id))
  | COfferRejected id reason => _ ← on_offers (resolve_local_offer id); mret (Some (EventRejected id reason))
  | CLifetimeChanged state =>
    if remembered then throw (Protocol "remembered room lifetime cannot change")
    else if creator then throw (Protocol "the room joiner cannot publish lifetime state")
    else st ← on_lifetime (apply_authoritative state); mret (Some (EventLifetime st))
  | CActivity =>
    if remembered then throw (Protocol "remembered room control has no activity authority")
    else if negb creator then throw (Protocol "the room creator cannot send an activity hint")
    else st ← update_creator_lifetime machine_note_activity; mret (EventLifetime <$> st)
  | CTransferActive active =>
    if remembered then throw (Protocol "remembered room control has no transfer activity authority")
    else if negb creator then throw (Protocol "the room creator cannot send a transfer activity hint")
    else st ← update_creator_lifetime (machine_set_peer active); mret (EventLifetime <$> st)
  | CClose reason =>
    if remembered && bool_decide (reason = IdleExpired)
    then throw (Protocol "remembered room control peer cannot expire an idle deadline")
    else if creator && bool_decide (reason = IdleExpired)
    then throw (Protocol "the room joiner cannot expire the idle deadline")
    else _ ← closing; mret (Some (PeerClosed reason))
  | CPing nonce => _ ← room_send (CPong nonce); mret None
  | CPong nonce => mret (Some (EventPong nonce))
  end.
(** [next_event]: a turn takes a message, so there are at most as many turns. *)
Fixpoint next_event_loop (fuel : nat) : rc RoomControlEvent :=
  m ← room_receive;
  event ← handle_message m;
  match event, fuel with
  | Some e, _ => mret e
  | None, S fuel => next_event_loop fuel
  | None, O => throw CoreIo
  end.
Definition next_event : rc RoomControlEvent := fun s => next_event_loop (length (rc_inbox s)) s.
End Methods.

(** ** Connecting *)

(** The hello that [connect_room_control_inner] sends and the lifetime of its own. *)
Definition local_lifetime (mode : RoomControlSessionMode) (now_unix_ms : Z) : option RoomLifetimeState :=
  match mode with ModeInvitation true => Some (lifetime_initial now_unix_ms) | _ => None end.
Definition control_hello (mode : RoomControlSessionMode) (display_name : str) (binding : list byte)
    (lifetime : option RoomLifetimeState) : ControlMessage :=
  CHello ROOM_CONTROL_VERSION (session_kind_of mode) display_name (mode_is_creator mode) binding lifetime.

Definition validate_control_hello (peer_hello : ControlMessage) (mode : RoomControlSessionMode)
    (expected_binding : list byte) (own_lifetime : option RoomLifetimeState)
    : session (str * RoomLifetimeState) :=
  match peer_hello with
  | CHello version peer_kind peer_name peer_creator peer_binding peer_lifetime =>
    if negb (version =? ROOM_CONTROL_VERSION) then Err (Protocol "unsupported room control version")
    else
      _ ← validate_display_name peer_name;
      if negb (bool_decide (peer_kind = session_kind_of mode))
      then Err (Protocol "room control peer selected a different session mode")
      else if negb (bool_decide (peer_binding = expected_binding))
      then Err (Crypto "room control channel is not bound to its pairing")
      else
        lifetime ←
          match mode, own_lifetime, peer_creator, peer_lifetime with
          | ModeInvitation true, Some state, false, None => Ok state
          | ModeInvitation false, None, true, Some state => _ ← validate_initial_lifetime state; Ok state
          | ModeRemembered _, None, false, None => Ok lifetime_remembered
          | ModeRemembered _, _, _, _ =>
            Err (Protocol "remembered room peers cannot claim creator or lifetime ownership")
          | _, _, _, _ => Err (Protocol "only the room creator can establish its lifetime")
          end;
        Ok (peer_name, lifetime)
  | _ => Err (Protocol "room control peer did not send hello first")
  end.

(** The session that a finished connection starts with. *)
Definition session_new (mode : RoomControlSessionMode) (broker : str) (relay : option str)
    (lifetime : RoomLifetimeState) (inbox : list ControlMessage) (writes : list SendOutcome)
    (clock : list (option Z)) : RoomControlSession :=
  mkSession no_offers (machine_new lifetime) broker relay mode true [] inbox writes clock.

(** The join that [pair_control] sends to the broker. *)
Definition control_join (responder : bool) (locator : str) (kind : BootstrapKind) : Join :=
  mkJoin RENDEZVOUS_PROTOCOL_VERSION locator (if responder then Creator else Joiner)
    (if responder then TransferReceiver else TransferSender)
    (if responder then [kind] else []) (if responder then None else Some kind).
