(* ===== verification/RoomControlProof.v ===== *)
(** What one room session promises: its lifetime machine keeps a deadline exactly
    while the room is idle, frames are read back, two hellos that pass agree, the
    joins of both members are matched by the broker, and a failed mutation closes
    the connection. *)

From stdpp Require Import prelude gmap strings.
From Stdlib Require Import ZArith Lia Strings.Byte.
From S2P Require Import Prelude Bytes Text BrokerConfig CoreError Proc Invite InviteProof RoomInvite RoomControl.

Local Open Scope Z_scope.

(** ** The lifetime machine *)

(** A deadline exactly when the policy is idle and no transfer is active. *)
Definition lifetime_ok (m : RoomLifetimeMachine) : Prop :=
  1 <= revision (lm_state m) /\
  (is_Some (idle_deadline_unix_ms (lm_state m)) <->
   policy (lm_state m) = Idle15Minutes /\ any_transfer_active m = false).

(** The transitions of a creator's lifetime. *)
Inductive transition : (Z -> machine (option RoomLifetimeState)) -> Prop :=
| TActivity : transition machine_note_activity
| TLocal active : transition (machine_set_local active)
| TPeer active : transition (machine_set_peer active)
| TPolicy p : transition (machine_set_policy p).

(** What a transition does: nothing to the state, or the next revision of it. *)
Definition moved (m m' : RoomLifetimeMachine) (r : session (option RoomLifetimeState)) : Prop :=
  match r with
  | Ok None => lm_state m' = lm_state m
  | Ok (Some st) => lm_state m' = st /\ revision st = revision (lm_state m) + 1 /\ revision st <= u64_max
  | Err _ => revision (lm_state m') = revision (lm_state m) /\ revision (lm_state m) = u64_max
  end.

Lemma advance_run deadline m m' r :
  revision (lm_state m) <= u64_max ->
  lifetime_advance deadline m = (m', r) ->
  match r with
  | Ok st => st = mkLifetime (revision (lm_state m) + 1) (policy (lm_state m)) deadline /\
      revision st <= u64_max /\ m' = mkMachine st (local_transfer_active m) (peer_transfer_active m)
  | Err _ => m' = m /\ revision (lm_state m) = u64_max
  end.
Proof.
  intros Hmax. unfold lifetime_advance, mbind, proc_bind, get_machine, pure, put_machine, mret, proc_ret.
  unfold checked_add. destruct (Z.leb_spec (revision (lm_state m) + 1) u64_max); cbn; intros [= <- <-].
  - by cbn.
  - split; [done|lia].
Qed.

Lemma transition_run f now m m' r :
  transition f -> revision (lm_state m) <= u64_max -> f now m = (m', r) -> moved m m' r.
Proof.
  intros Hf Hmax Hrun.
  assert (Hedge : forall was m1 m' r, revision (lm_state m1) <= u64_max ->
    apply_transfer_edge was now m1 = (m', r) -> moved m1 m' r).
  { intros was m1 m1' r1 Hmax1 Hr. unfold apply_transfer_edge in Hr. apply bind_run in Hr.
    destruct Hr as [(e & Hr & _)|(w & a & [= <- <-] & Hr)]; [done|].
    destruct (_ || _); [by injection Hr as <- <-|]. apply bind_run in Hr.
    destruct Hr as [(e & Hr & ->)|(w & st & Hr & [= <- <-])]; apply advance_run in Hr; try done; cbn.
    - destruct Hr as [-> ?]. done.
    - destruct Hr as (-> & ? & ->). done. }
  destruct Hf; (apply bind_run in Hrun as [(e & Hr & _)|(w & a & [= <- <-] & Hrun)]; [done|]).
  - destruct (_ || _); [by injection Hrun as <- <-|]. apply bind_run in Hrun.
    destruct Hrun as [(e & Hr & ->)|(w & st & Hr & [= <- <-])]; apply advance_run in Hr; try done; cbn.
    + destruct Hr as [-> ?]. done.
    + destruct Hr as (-> & ? & ->). done.
  - destruct (Bool.eqb _ _); [by injection Hrun as <- <-|]. apply bind_run in Hrun.
    destruct Hrun as [(e & Hr & _)|(w & [] & [= <-] & Hrun)]; [done|]. apply Hedge in Hrun; done.
  - destruct (Bool.eqb _ _); [by injection Hrun as <- <-|]. apply bind_run in Hrun.
    destruct Hrun as [(e & Hr & _)|(w & [] & [= <-] & Hrun)]; [done|]. apply Hedge in Hrun; done.
  - case_bool_decide; [by injection Hrun as <- <-|]. apply bind_run in Hrun.
    destruct Hrun as [(e & Hr & _)|(w & [] & [= <-] & Hrun)]; [done|]. apply bind_run in Hrun.
    destruct Hrun as [(e & Hr & ->)|(w & st & Hr & [= <- <-])]; apply advance_run in Hr; try done; cbn in *.
    + destruct Hr as [-> ?]. done.
    + destruct Hr as (-> & ? & ->). done.
Qed.

Lemma lifetime_ok_valid m : lifetime_ok m -> lifetime_validate (lm_state m) = Ok tt.
Proof.
  intros [Hrev Hd]. unfold lifetime_validate. destruct (Z.eqb_spec (revision (lm_state m)) 0); [lia|].
  case_bool_decide as Hp; [|done]. rewrite bool_decide_eq_false_2; [done|]. rewrite Hd, Hp. by intros [].
Qed.

(** With the deadline that fits, the next revision is in order. *)
Lemma advance_ok deadline m m' st :
  0 <= revision (lm_state m) <= u64_max -> lifetime_advance deadline m = (m', Ok st) ->
  (is_Some deadline <-> policy (lm_state m) = Idle15Minutes /\ any_transfer_active m = false) ->
  lifetime_ok m'.
Proof. intros Hmax (-> & _ & ->)%advance_run Hd; [|lia]. split; [cbn; lia|done]. Qed.

Lemma edge_ok was now m m' o :
  1 <= revision (lm_state m) <= u64_max -> apply_transfer_edge was now m = (m', Ok o) ->
  (was = any_transfer_active m -> lifetime_ok m) ->
  (policy (lm_state m) = UntilForegroundEnds -> idle_deadline_unix_ms (lm_state m) = None) -> lifetime_ok m'.
Proof.
  intros Hmax Hrun Hsame Huntil. unfold apply_transfer_edge in Hrun.
  apply bind_ok in Hrun as (m1 & m2 & [= <- <-] & Hrun).
  destruct (Bool.eqb was (any_transfer_active m)) eqn:Heq; cbn [orb] in Hrun.
  { injection Hrun as <- <-. by apply Hsame, eqb_prop. }
  case_bool_decide as Hp; cbn [negb] in Hrun.
  - apply bind_ok in Hrun as (m3 & st & Hadv & [= <- <-]). eapply advance_ok; [|exact Hadv|]; [lia|].
    destruct (any_transfer_active m); [|naive_solver]. split; [by intros []|by intros []].
  - injection Hrun as <- <-. split; [lia|]. destruct (policy (lm_state m)); [done|]. rewrite Huntil by done.
    split; [by intros []|by intros []].
Qed.

Lemma transition_ok f now m m' o :
  transition f -> lifetime_ok m -> revision (lm_state m) <= u64_max -> f now m = (m', Ok o) -> lifetime_ok m'.
Proof.
  intros Hf Hok Hmax Hrun. pose proof Hok as [Hrev Hd].
  assert (Huntil : policy (lm_state m) = UntilForegroundEnds -> idle_deadline_unix_ms (lm_state m) = None).
  { intros Hp. destruct (idle_deadline_unix_ms (lm_state m)) as [d|]; [|done].
    destruct (proj1 Hd ltac:(eauto)) as [Hi _]. congruence. }
  destruct Hf; apply bind_ok in Hrun as (m1 & m2 & [= <- <-] & Hrun).
  - destruct (negb _ || any_transfer_active m) eqn:Hb; [by injection Hrun as <- <-|]. bool_prop.
    apply bind_ok in Hrun as (m3 & st & Hadv & [= <- <-]). eapply advance_ok; [|exact Hadv|]; [lia|naive_solver].
  - destruct (Bool.eqb _ _) eqn:Heq; [by injection Hrun as <- <-|].
    apply bind_ok in Hrun as (m3 & [] & [= <-] & Hrun). eapply edge_ok; [|exact Hrun|..]; [done| |done].
    intros Hw. split; [done|]. cbn [lm_state]. by rewrite <- Hw.
  - destruct (Bool.eqb _ _) eqn:Heq; [by injection Hrun as <- <-|].
    apply bind_ok in Hrun as (m3 & [] & [= <-] & Hrun). eapply edge_ok; [|exact Hrun|..]; [done| |done].
    intros Hw. split; [done|]. cbn [lm_state]. by rewrite <- Hw.
  - case_bool_decide; [by injection Hrun as <- <-|].
    apply bind_ok in Hrun as (m3 & [] & [= <-] & Hrun). apply bind_ok in Hrun as (m4 & st & Hadv & [= <- <-]).
    eapply advance_ok; [|exact Hadv|]; [cbn [lm_state revision]; lia|]. cbn [lm_state policy any_transfer_active local_transfer_active peer_transfer_active].
    change (any_transfer_active _) with (any_transfer_active m).
    destruct p; [|split; [by intros []|by intros []]]. destruct (any_transfer_active m); [|naive_solver].
    split; [by intros []|by intros []].
Qed.

(** The lifetime of a room: whatever its creator does and hears, the room has
    a deadline exactly while it is idle (the policy is the idle one and no transfer
    is active on either side), every state it publishes is the next revision and
    passes the joiner's check, and a transition fails only when the revisions of a
    64-bit counter are used up. *)
Theorem lifetime_invariant f now m m' r :
  transition f -> lifetime_ok m -> revision (lm_state m) <= u64_max -> f now m = (m', r) ->
  match r with
  | Ok o => lifetime_ok m' /\ revision (lm_state m') <= u64_max /\
      lm_state m' = default (lm_state m) o /\
      (forall st, o = Some st -> revision st = revision (lm_state m) + 1 /\ lifetime_validate st = Ok tt)
  | Err _ => revision (lm_state m) = u64_max
  end.
Proof.
  intros Hf Hok Hmax Hrun. pose proof (transition_run _ _ _ _ _ Hf Hmax Hrun) as Hm.
  destruct r as [o|e]; [|by destruct Hm]. pose proof (transition_ok _ _ _ _ _ Hf Hok Hmax Hrun) as Hok'.
  split; [done|]. destruct o as [st|]; cbn in Hm |- *.
  - destruct Hm as (Hs & Hr & Hle). split; [by rewrite Hs|]. split; [done|]. intros st' [= <-]. split; [done|].
    rewrite <- Hs. by apply lifetime_ok_valid.
  - rewrite Hm. done.
Qed.


(** ** Frames *)

Section Frames.
Context (message_to_json : ControlMessage -> option (list byte))
  (message_from_json : list byte -> option ControlMessage).

(** A control message that is written is read back from the stream, with
    exactly the bytes after it left. *)
Theorem control_frame_roundtrip m bytes rest :
  (forall m payload, message_to_json m = Some payload -> message_from_json payload = Some m) ->
  write_control_message message_to_json m = Ok bytes ->
  read_control_message message_from_json (bytes ++ rest) = Ok (m, rest).
Proof.
  intros Hjson Hw. unfold write_control_message in Hw.
  destruct (message_to_json m) as [payload|] eqn:Hp; [|done]. cbn [ok_or mbind result_bind] in Hw. inv_ok. bool_prop.
  assert (Hlen : 0 <= zlen payload <= MAX_CONTROL_FRAME_BYTES) by (unfold zlen in *; lia).
  unfold MAX_CONTROL_FRAME_BYTES in *. set (size := be_bytes 4 (zlen payload)).
  assert (Hs : be_value size = zlen payload) by (apply be_value_be_bytes_small; lia).
  assert (Hl : length size = 4%nat) by apply length_be_bytes.
  replace (_ ++ rest) with ((CONTROL_MAGIC ++ be_bytes 2 ROOM_CONTROL_VERSION ++ size) ++ payload ++ rest)
    by (by rewrite <- !app_assoc).
  unfold read_control_message, read_exact. rewrite (proj2 (Nat.leb_le _ _)) by (rewrite !length_app, Hl; cbn; lia).
  rewrite take_app_length', drop_app_length' by (by rewrite !length_app, Hl). cbn [mbind result_bind].
  rewrite bool_decide_eq_true_2 by done.
  replace (slice _ 6 4) with size by (symmetry; apply take_ge; by rewrite Hl).
  change (be_value (slice _ 4 2) =? ROOM_CONTROL_VERSION) with true. cbn [negb]. rewrite Hs.
  unfold MAX_CONTROL_FRAME_BYTES. rewrite (proj2 (Z.ltb_ge _ _)) by lia. unfold zlen in *. rewrite Nat2Z.id, length_app.
  rewrite (proj2 (Nat.leb_le _ _)) by lia. rewrite take_app_length, drop_app_length. cbn [mbind result_bind].
  by rewrite (Hjson _ _ Hp).
Qed.
End Frames.

(** ** Connecting *)

(** Agreement of two hellos: when each member accepts the hello of the other,
    both are bound to one pairing, they name each other, either both remember each
    other or exactly one created the room, and both start with the same lifetime,
    which is in order. *)
Theorem hello_agreement mode1 mode2 name1 name2 binding1 binding2 now1 now2 peer1 peer2 life1 life2 :
  let own1 := local_lifetime mode1 now1 in
  let own2 := local_lifetime mode2 now2 in
  validate_control_hello (control_hello mode2 name2 binding2 own2) mode1 binding1 own1 = Ok (peer1, life1) ->
  validate_control_hello (control_hello mode1 name1 binding1 own1) mode2 binding2 own2 = Ok (peer2, life2) ->
  binding1 = binding2 /\ peer1 = name2 /\ peer2 = name1 /\
  ((mode_is_remembered mode1 = true /\ mode_is_remembered mode2 = true) \/
   (mode1, mode2) = (ModeInvitation true, ModeInvitation false) \/
   (mode1, mode2) = (ModeInvitation false, ModeInvitation true)) /\
  life1 = life2 /\ lifetime_ok (machine_new life1).
Proof.
  cbn zeta. unfold control_hello, validate_control_hello. intros H1 H2.
  rewrite Z.eqb_refl in H1, H2. cbn [negb] in H1, H2. inv_ok. bool_prop.
  assert (Hinit : forall now, lifetime_ok (machine_new (lifetime_initial now))).
  { intros now. split; [done|]. cbn. naive_solver. }
  assert (Hrem : lifetime_ok (machine_new lifetime_remembered)).
  { split; [done|]. cbn. split; [by intros []|by intros []]. }
  destruct mode1 as [[]|], mode2 as [[]|]; cbn in *; inv_ok; simplify_eq; naive_solver.
Qed.

(** The joins of the two members of a room are in order for the broker, which
    pairs them by the code: whoever holds the invitation asks for the room that its
    creator waits in, a room that no transfer invitation names. *)
Theorem control_joins_match code broker relay expires i :
  room_invite_from_parts code broker relay expires = Ok i ->
  exists locator, room_invite_locator i = Some locator /\ six_digits locator = false /\
    let creator := control_join true locator RoomCode in
    let joiner := control_join false locator RoomCode in
    validate_join creator = Ok tt /\ validate_join joiner = Ok tt /\
    joins_match creator joiner = Some RoomCode /\ joins_match joiner creator = Some RoomCode.
Proof.
  intros (Hok & _)%from_parts_again. exists (ROOM_CONTROL_LOCATOR_PREFIX ++ room_code_id (ri_code i)).
  pose proof (code_ok_id _ Hok) as Hid.
  set (locator := ROOM_CONTROL_LOCATOR_PREFIX ++ _).
  assert (Hloc : is_room_control_locator locator = true).
  { unfold is_room_control_locator, locator. by rewrite strip_prefix_app. }
  split; [unfold room_invite_locator; by rewrite code_ok_parse|]. split.
  { unfold six_digits, locator. apply andb_false_iff. by right. }
  unfold validate_join, control_join. cbn [version room_id]. rewrite Hloc.
  cbn [negb andb orb]. rewrite !andb_false_r. done.
Qed.

(** ** Routes *)

Section Routes.
Context `{InviteLibs}.

(** C38. A fallback relay makes a room useless: an invitation without a relay that
    is read on a device with a relay of its own gives that device's relay to the
    joiner's session, which then refuses every offer that the creator's own check
    lets through. *)
Theorem relay_fallback_refuses code broker expires i fallback relay now :
  room_invite_from_parts code broker None expires = Ok i -> utf8_valid (ri_broker i) = true ->
  0 <= expires <= u64_max -> str_trim relay <> [] ->
  exists j, room_invite_parse (room_invite_payload i) fallback (Some relay) now = Ok j /\
    ri_code j = ri_code i /\ ri_broker j = ri_broker i /\
    forall o now', offer_validate o (ri_broker i) (ri_relay i) now' = Ok tt ->
      offer_validate o (ri_broker j) (ri_relay j) now'
      = Err (InvalidInput "room offer transfer route differs from room control route").
Proof.
  intros Hi Hb He Hr. assert (Hnone : ri_relay i = None) by (unfold room_invite_from_parts in Hi; by inv_ok).
  eexists. split; [eapply payload_parse; [exact Hi|done|by rewrite Hnone|done]|]. split; [done|]. split; [done|].
  rewrite Hnone. cbn [ri_broker ri_relay].
  assert (Hrelay : trimmed_relay (Some relay) = Some (str_trim relay)).
  { unfold trimmed_relay. cbn. by rewrite bool_decide_eq_false_2. }
  rewrite Hrelay. intros o now'. unfold offer_validate.
  destruct (offer_id_valid (offer_id o)); cbn [negb]; [|done].
  destruct (MAX_TRANSFER_INVITE_BYTES <? zlen (transfer_invite o)); [done|].
  destruct (clock_secs now') as [secs|]; cbn [mbind result_bind]; [|done].
  destruct (map_err _ _) as [invite|]; cbn [mbind result_bind]; [|done].
  destruct (bool_decide (pc_broker _ = _)); cbn [negb orb]; [|done].
  case_bool_decide as Hrel; cbn [negb]; [|done]. rewrite Hrel. by rewrite bool_decide_eq_false_2.
Qed.
End Routes.

(** ** Mutations that do not finish *)

Section Mutations.
Context `{InviteLibs} (message_to_json : ControlMessage -> option (list byte)).

(** The methods of a session that change it, with the message that [next_event]
    has read for a turn of its loop. *)
Inductive session_op : option ControlMessage -> rc unit -> Prop :=
| OpActivity : session_op None (_ ← note_activity message_to_json; mret tt)
| OpOffer o : session_op None (_ ← offer_transfer message_to_json o; mret tt)
| OpAccept id : session_op None (_ ← accept_offer message_to_json id; mret tt)
| OpReject id reason : session_op None (_ ← reject_offer message_to_json id reason; mret tt)
| OpPolicy p : session_op None (_ ← set_policy message_to_json p; mret tt)
| OpActive active : session_op None (_ ← set_local_transfer_active message_to_json active; mret tt)
| OpMessage m : session_op (Some m) (_ ← handle_message message_to_json m; mret tt).

Definition same_state (s s' : RoomControlSession) : Prop :=
  rc_offers s' = rc_offers s /\ rc_lifetime s' = rc_lifetime s.
(** A program that changes nothing shared, one whose failure closes the
    connection, and one that fails with the connection closed or nothing changed. *)
Definition keeps {A} (p : rc A) : Prop := forall s, same_state s (p s).1.
Definition closes {A} (p : rc A) : Prop := forall s s' e, p s = (s', Err e) -> rc_open s' = false.
Definition tidy {A} (p : rc A) : Prop := forall s s' e,
  1 <= revision (lm_state (rc_lifetime s)) < u64_max -> p s = (s', Err e) ->
  rc_open s' = false \/ same_state s s'.

Lemma keeps_tidy {A} (p : rc A) : keeps p -> tidy p.
Proof. intros Hp s s' e _ Hr. right. specialize (Hp s). by rewrite Hr in Hp. Qed.
Lemma closes_tidy {A} (p : rc A) : closes p -> tidy p.
Proof. intros Hp s s' e _ Hr. left. by eapply Hp. Qed.
Lemma guarded_closes {A} (p : rc A) : closes (guarded p).
Proof. intros s s' e. unfold guarded. destruct (p s) as [s1 []]; [done|]. by intros [= <- _]. Qed.
Lemma guarded_ok {A} (p : rc A) s s' a : guarded p s = (s', Ok a) -> p s = (s', Ok a).
Proof. unfold guarded. by destruct (p s) as [s1 []]. Qed.
Lemma ret_keeps {A} (a : A) : keeps (mret a).
Proof. done. Qed.
Lemma throw_keeps {A} e : keeps (throw e : rc A).
Proof. done. Qed.
Lemma pure_keeps {A} (r : session A) : keeps (pure r).
Proof. by destruct r. Qed.
Lemma this_keeps : keeps this.
Proof. done. Qed.
Lemma clock_keeps : keeps read_clock.
Proof. intros s. unfold read_clock. by destruct (rc_clock s). Qed.
Lemma send_keeps m : keeps (room_send message_to_json m).
Proof. intros s. unfold room_send. by repeat case_match. Qed.
Lemma closing_keeps : keeps closing.
Proof. done. Qed.
Lemma attempt_keeps {A} (p : rc A) : keeps p -> keeps (attempt p).
Proof. intros Hp s. specialize (Hp s). unfold attempt. by destruct (p s). Qed.
Lemma bind_keeps {A B} (p : rc A) (f : A -> rc B) : keeps p -> (forall a, keeps (f a)) -> keeps (p ≫= f).
Proof.
  intros Hp Hf s. specialize (Hp s). unfold mbind, proc_bind. destruct (p s) as [s1 [a|e]]; [|done].
  destruct Hp as [Ho Hl], (Hf a s1) as [Ho' Hl']. unfold same_state in *. cbn in *. by rewrite Ho', Hl', Ho, Hl.
Qed.
Lemma bind_tidy {A B} (p : rc A) (f : A -> rc B) : keeps p -> (forall a, tidy (f a)) -> tidy (p ≫= f).
Proof.
  intros Hp Hf s s' e Hrev Hrun. specialize (Hp s). apply bind_run in Hrun.
  destruct Hrun as [(e' & Hr & [= <-])|(s1 & a & Hr & Hrun)]; rewrite Hr in Hp; [by right|].
  destruct Hp as [Ho Hl]. cbn in *. rewrite <- Hl in Hrev.
  destruct (Hf a s1 s' e Hrev Hrun) as [?|[Ho' Hl']]; [by left|right]. unfold same_state. by rewrite Ho', Hl', Ho, Hl.
Qed.
Lemma then_tidy {A B} (p : rc A) (f : A -> rc B) : tidy p -> (forall a, closes (f a)) -> tidy (p ≫= f).
Proof.
  intros Hp Hf s s' e Hrev Hrun. apply bind_run in Hrun.
  destruct Hrun as [(e' & Hr & [= <-])|(s1 & a & Hr & Hrun)]; [by eapply Hp|left; by eapply Hf].
Qed.
Lemma ret_closes {A} (a : A) : closes (mret a).
Proof. intros s s' e [=]. Qed.
Lemma bind_closes {A B} (p : rc A) (f : A -> rc B) : closes p -> (forall a, closes (f a)) -> closes (p ≫= f).
Proof.
  intros Hp Hf s s' e Hrun. apply bind_run in Hrun.
  destruct Hrun as [(e' & Hr & [= <-])|(s1 & a & Hr & Hrun)]; [by eapply Hp|by eapply Hf].
Qed.
(** A section on the offers or on the lifetime that fails leaves them. *)
Lemma on_offers_tidy {A} (f : OfferState -> OfferState * session A) :
  (forall o o' e, f o = (o', Err e) -> o' = o) -> tidy (on_offers f).
Proof.
  intros Hf s s' e _. unfold on_offers. destruct (f (rc_offers s)) as [o []] eqn:Hr; [done|].
  intros [= <- _]. right. split; [|done]. by eapply Hf.
Qed.
Lemma on_lifetime_tidy {A} (f : machine A) :
  (forall m m' e, 1 <= revision (lm_state m) < u64_max -> f m = (m', Err e) -> m' = m) -> tidy (on_lifetime f).
Proof.
  intros Hf s s' e Hrev. unfold on_lifetime. destruct (f (rc_lifetime s)) as [m []] eqn:Hr; [done|].
  intros [= <- _]. right. split; [done|]. by eapply Hf.
Qed.

Create HintDb room.
#[local] Hint Resolve ret_keeps throw_keeps pure_keeps this_keeps clock_keeps send_keeps closing_keeps attempt_keeps
  bind_keeps guarded_closes ret_closes bind_closes closes_tidy keeps_tidy : room.

Lemma update_tidy f : transition f -> tidy (update_creator_lifetime message_to_json f).
Proof.
  intros Hf. unfold update_creator_lifetime. apply bind_tidy; [unfold now_unix_millis; eauto with room|]. intros now.
  apply then_tidy; [|intros []; eauto with room].
  apply on_lifetime_tidy. intros m m' e Hrev Hr.
  assert (Hle : revision (lm_state m) <= u64_max) by lia.
  destruct (transition_run _ _ _ _ _ Hf Hle Hr). lia.
Qed.
Lemma note_activity_tidy : tidy (note_activity message_to_json).
Proof.
  apply bind_tidy; [auto with room|]. intros s. case_match; [auto with room|].
  case_match; [apply update_tidy; constructor|eauto with room].
Qed.
Lemma answer_tidy id m : tidy (answer_offer message_to_json id m).
Proof.
  apply then_tidy; [|auto with room]. apply on_offers_tidy. unfold resolve_remote_offer. intros o o' e.
  case_match; naive_solver.
Qed.
Lemma offer_tidy o : tidy (offer_transfer message_to_json o).
Proof.
  apply bind_tidy; [auto with room|]. intros s. apply bind_tidy; [auto with room|]. intros now.
  apply bind_tidy; [auto with room|]. intros _. apply then_tidy; [|auto with room]. apply on_offers_tidy.
  unfold begin_local_offer. intros o1 o2 e. repeat case_match; naive_solver.
Qed.
Lemma set_active_tidy active : tidy (set_local_transfer_active message_to_json active).
Proof.
  apply bind_tidy; [auto with room|]. intros s. case_match; [auto with room|].
  case_match; [apply update_tidy; constructor|]. apply then_tidy.
  - apply on_lifetime_tidy. intros m m' e _. unfold set_own_flag, mbind, proc_bind, get_machine. by case_match.
  - intros []; eauto with room.
Qed.
Lemma receive_busy id o o' : receive_offer id o = (o', true) -> o' = o.
Proof. unfold receive_offer. case_match; naive_solver. Qed.
Lemma message_tidy m : tidy (handle_message message_to_json m).
Proof.
  apply bind_tidy; [auto with room|]. intros s. destruct m; cbv zeta.
  - auto with room.
  - apply bind_tidy; [auto with room|]. intros now. destruct (offer_validate _ _ _ _); [|auto 6 with room].
    intros s1 s2 e _ Hrun. right. apply bind_run in Hrun. unfold on_offers in Hrun.
    destruct (receive_offer (offer_id offer) (rc_offers s1)) as [o busy] eqn:Hrec. cbn in Hrun.
    destruct Hrun as [(e' & Hr & _)|(s3 & b & [= <- <-] & Hrun)]; [done|].
    destruct busy; [|done]. apply receive_busy in Hrec as ->. apply bind_run in Hrun.
    destruct Hrun as [(e' & Hr & _)|(s3 & b & Hr & Hrun)]; [|done].
    pose proof (send_keeps (COfferRejected (offer_id offer) OfferBusy) (set_offers (rc_offers s1) s1)) as Hk.
    rewrite Hr in Hk. exact Hk.
  - apply then_tidy; [apply on_offers_tidy|auto with room]. unfold resolve_local_offer. intros o o' e. case_match; naive_solver.
  - apply then_tidy; [apply on_offers_tidy|auto with room]. unfold resolve_local_offer. intros o o' e. case_match; naive_solver.
  - repeat case_match; auto with room. apply then_tidy; [apply on_lifetime_tidy|auto with room].
    intros m m' e _ Hrun. apply bind_run in Hrun. destruct Hrun as [(e' & Hr & _)|(m1 & [] & Hr & Hrun)].
    { by destruct (lifetime_validate state); injection Hr as <- _. }
    apply pure_ok in Hr as [_ ->]. apply bind_run in Hrun. destruct Hrun as [(e' & Hr & _)|(m1 & m2 & [= <- <-] & Hrun)]; [done|].
    case_match; [by injection Hrun|done].
  - repeat case_match; auto with room. apply then_tidy; [apply update_tidy; constructor|auto with room].
  - repeat case_match; auto with room. apply then_tidy; [apply update_tidy; constructor|auto with room].
  - repeat case_match; eauto with room.
  - eauto with room.
  - auto with room.
Qed.

(** The methods of a session, and whether one reads what the peer sends. *)
Inductive session_method : bool -> rc unit -> Prop :=
| MethodOwn p : session_op None p -> session_method false p
| MethodPing nonce : session_method false (ping message_to_json nonce)
| MethodClose reason : session_method false (close message_to_json reason)
| MethodNext : session_method true (_ ← next_event message_to_json; mret tt).

(** What is left of the peer's messages: the offers, the state of the lifetime and
    the session's own flag are as they were, and the flag of the peer is as it was
    or as one of the messages has it. *)
Definition heard (ms : list ControlMessage) (s s' : RoomControlSession) : Prop :=
  rc_offers s' = rc_offers s /\ lm_state (rc_lifetime s') = lm_state (rc_lifetime s) /\
  local_transfer_active (rc_lifetime s') = local_transfer_active (rc_lifetime s) /\
  (peer_transfer_active (rc_lifetime s') = peer_transfer_active (rc_lifetime s) \/
   CTransferActive (peer_transfer_active (rc_lifetime s')) ∈ ms).

Lemma same_heard ms s s' : same_state s s' -> heard ms s s'.
Proof. intros [Ho Hl]. unfold heard. rewrite Ho, Hl. auto. Qed.
Lemma heard_trans ms s s1 s' : heard ms s s1 -> heard ms s1 s' -> heard ms s s'.
Proof.
  intros (Ho & Hs & Hl & Hp) (Ho' & Hs' & Hl' & Hp'). split_and!; try congruence.
  destruct Hp' as [Hp'|]; [|by right]. rewrite Hp'. exact Hp.
Qed.
Lemma heard_more ms ms' s s' : ms ⊆ ms' -> heard ms s s' -> heard ms' s s'.
Proof. intros Hms (Ho & Hs & Hl & Hp). split_and!; [done..|]. destruct Hp as [|Hp]; [by left|right; by apply Hms]. Qed.

Lemma own_tidy p : session_op None p -> tidy p.
Proof.
  assert (Ht : forall A (q : rc A), tidy q -> tidy (q ≫= fun _ => mret tt)).
  { intros A q Hq. apply then_tidy; [done|auto with room]. }
  remember None as read. destruct 1; try done; apply Ht;
    eauto using note_activity_tidy, offer_tidy, answer_tidy, set_active_tidy.
  apply bind_tidy; [auto with room|]. intros s. repeat case_match; auto with room. apply update_tidy. constructor.
Qed.
Lemma close_keeps reason : keeps (close message_to_json reason).
Proof.
  apply bind_keeps; [auto with room|]. intros s. apply bind_keeps.
  - repeat case_match; auto with room. apply bind_keeps; [unfold now_unix_millis; apply bind_keeps; auto with room|].
    intros now. apply bind_keeps; [auto with room|]. intros s1. unfold throw_if. case_match; auto with room.
  - intros _. apply bind_keeps; [auto with room|]. intros r. apply bind_keeps; auto with room.
Qed.

(** A section of the creator that has no new state to publish. *)
Lemma update_none f s s' : update_creator_lifetime message_to_json f s = (s', Ok None) ->
  rc_inbox s' = rc_inbox s /\ rc_offers s' = rc_offers s /\
  exists now, f now (rc_lifetime s) = (rc_lifetime s', Ok None).
Proof.
  intros Hrun. apply bind_ok in Hrun as (s1 & now & Hnow & Hrun).
  apply bind_ok in Hnow as (s0 & c & Hclock & Hnow). apply pure_ok in Hnow as [_ ->].
  assert (Hc : rc_inbox s0 = rc_inbox s /\ rc_offers s0 = rc_offers s /\ rc_lifetime s0 = rc_lifetime s).
  { revert Hclock. unfold read_clock. destruct (rc_clock s); by intros [= <- _]. }
  destruct Hc as (Hi & Ho & Hl). apply bind_ok in Hrun as (s2 & st & Hf & Hrun). unfold on_lifetime in Hf.
  destruct (f now (rc_lifetime s0)) as [m r] eqn:Hfm. injection Hf as <- ->. rewrite Hl in Hfm.
  apply bind_ok in Hrun as (s3 & [] & Hsend & [= <- ->]). injection Hsend as <-.
  split_and!; [done..|]. by exists now.
Qed.
(** A turn that goes on. *)
Lemma turn_heard m s s' : handle_message message_to_json m s = (s', Ok None) ->
  rc_inbox s' = rc_inbox s /\ heard [m] s s'.
Proof.
  intros Hrun. apply bind_ok in Hrun as (s0 & x & [= <- <-] & Hrun). cbv zeta in Hrun.
  assert (Hsend : forall c s1 s2, room_send message_to_json c s1 = (s2, Ok tt) -> rc_inbox s2 = rc_inbox s1).
  { intros c s1 s2. unfold room_send. repeat case_match; by intros [= <-]. }
  destruct m.
  - done.
  - apply bind_ok in Hrun as (s1 & now & Hclock & Hrun). pose proof (clock_keeps s) as Hk. rewrite Hclock in Hk.
    assert (Hi : rc_inbox s1 = rc_inbox s) by (revert Hclock; unfold read_clock; destruct (rc_clock s); by intros [= <- _]).
    destruct (offer_validate _ _ _ _); [|by apply bind_ok in Hrun as (? & ? & _ & ?)].
    apply bind_ok in Hrun as (s2 & busy & Hrec & Hrun). unfold on_offers in Hrec.
    destruct (receive_offer _ _) as [o b] eqn:Hr. injection Hrec as <- ->. destruct busy; [|done].
    apply receive_busy in Hr as ->. apply bind_ok in Hrun as (s3 & [] & Hs & [= <-]).
    split; [by rewrite (Hsend _ _ _ Hs)|]. pose proof (send_keeps (COfferRejected (offer_id offer) OfferBusy) (set_offers (rc_offers s1) s1)) as [Ho Hl].
    rewrite Hs in Ho, Hl. apply same_heard. destruct Hk as [Hko Hkl]. cbn in *. split; congruence.
  - by apply bind_ok in Hrun as (? & ? & _ & ?).
  - by apply bind_ok in Hrun as (? & ? & _ & ?).
  - repeat case_match; try done. by apply bind_ok in Hrun as (? & ? & _ & ?).
  - repeat case_match; try done. apply bind_ok in Hrun as (s1 & [st|] & Hu & [= <-]).
    apply update_none in Hu as (Hi & Ho & now & Hf). split; [done|]. apply same_heard. split; [done|].
    apply bind_ok in Hf as (m1 & m2 & [= <- <-] & Hf). case_match; [by injection Hf|].
    by apply bind_ok in Hf as (? & ? & _ & ?).
  - repeat case_match; try done. apply bind_ok in Hrun as (s1 & [st|] & Hu & [= <-]).
    apply update_none in Hu as (Hi & Ho & now & Hf). split; [done|]. split; [done|].
    apply bind_ok in Hf as (m1 & m2 & [= <- <-] & Hf). case_match; [injection Hf as <-; auto|].
    apply bind_ok in Hf as (m1 & [] & [= <-] & Hf). unfold apply_transfer_edge in Hf.
    apply bind_ok in Hf as (m1 & m2 & [= <- <-] & Hf). case_match; [|by apply bind_ok in Hf as (? & ? & _ & ?)].
    injection Hf as <-. cbn. split_and!; [done..|]. right. by left.
  - repeat case_match; try done; by apply bind_ok in Hrun as (? & ? & _ & ?).
  - apply bind_ok in Hrun as (s1 & [] & Hs & [= <-]). split; [by eapply Hsend|]. apply same_heard.
    pose proof (send_keeps (CPong nonce) s) as Hk. by rewrite Hs in Hk.
  - done.
Qed.
Lemma inbox_run s s1 r : room_receive s = (s1, r) ->
  same_state s s1 /\ forall m, r = Ok m -> rc_inbox s = m :: rc_inbox s1.
Proof. unfold room_receive. destruct (rc_inbox s); intros [= <- <-]; (split; [done|]); by intros ? [=]; subst. Qed.
(** The loop of [next_event]. *)
Lemma loop_heard fuel s s' e :
  1 <= revision (lm_state (rc_lifetime s)) < u64_max -> next_event_loop message_to_json fuel s = (s', Err e) ->
  rc_open s' = false \/ heard (rc_inbox s) s s'.
Proof.
  revert s. induction fuel as [|fuel IH]; intros s Hrev Hrun; cbn in Hrun; apply bind_run in Hrun;
    (destruct Hrun as [(e1 & Hr & _)|(s1 & m & Hr & Hrun)]; apply inbox_run in Hr as [Hs Hin];
     [right; by apply same_heard|]; specialize (Hin m eq_refl);
     rewrite <- (proj2 Hs) in Hrev; apply bind_run in Hrun;
     destruct Hrun as [(e1 & Hm & _)|(s2 & ev & Hm & Hrun)];
     [destruct (message_tidy m _ _ _ Hrev Hm) as [?|Hs'];
      [by left|right; apply heard_trans with s1; by apply same_heard]|]);
    (destruct ev; [done|]); apply turn_heard in Hm as [Hi Hm];
    (assert (Hh : heard (rc_inbox s) s s2);
     [apply heard_trans with s1; [by apply same_heard|eapply heard_more; [|exact Hm]; rewrite Hin; set_solver]|]).
  - injection Hrun as <- _. by right.
  - destruct (IH s2) as [?|Hh']; [destruct Hm as (_ & -> & _); done|done|by left|right].
    eapply heard_trans; [done|]. eapply heard_more; [|exact Hh']. rewrite Hi, Hin. set_solver.
Qed.

(** C31. No half-done mutation stays on an open connection: when a method of a
    session fails, either the connection is closed, so that the peer hears of it,
    or the offers and the state of the lifetime are as they were, and so is the
    session's own flag. The flag of the peer is as it was too, or, in a
    [next_event] that read several messages before it failed, as one of the
    messages it read has it. All of [next_event] is meant, not one turn of it. The
    revision must not have reached the last one, [u64::MAX]: there [set_policy]
    changes the policy before the new revision is refused, outside any guard
    ([last_revision_changes]). *)
Theorem failed_mutation_closes listens p s s' e :
  session_method listens p -> 1 <= revision (lm_state (rc_lifetime s)) < u64_max -> p s = (s', Err e) ->
  rc_open s' = false \/
  (rc_offers s' = rc_offers s /\ lm_state (rc_lifetime s') = lm_state (rc_lifetime s) /\
   local_transfer_active (rc_lifetime s') = local_transfer_active (rc_lifetime s) /\
   (peer_transfer_active (rc_lifetime s') = peer_transfer_active (rc_lifetime s) \/
    listens = true /\ CTransferActive (peer_transfer_active (rc_lifetime s')) ∈ rc_inbox s)).
Proof.
  intros Hp Hrev Hrun.
  assert (Hsame : tidy p -> rc_open s' = false \/ heard [] s s').
  { intros Ht. destruct (Ht _ _ _ Hrev Hrun) as [?|Hs]; [by left|right; by apply same_heard]. }
  assert (Hread : rc_open s' = false \/ heard (if listens then rc_inbox s else []) s s').
  { destruct Hp; [by apply Hsame, own_tidy|apply Hsame, keeps_tidy, send_keeps|apply Hsame, keeps_tidy, close_keeps|].
    apply bind_run in Hrun as [(e' & Hrun & _)|(s1 & ev & _ & ?)]; [|done]. by eapply loop_heard. }
  destruct Hread as [?|(Ho & Hs & Hl & Hpeer)]; [by left|right]. split_and!; [done..|].
  destruct Hpeer as [|Hpeer]; [by left|right]. destruct listens; [done|by apply not_elem_of_nil in Hpeer].
Qed.

(** At the last revision a policy changes on an open connection. *)
Theorem last_revision_changes s now p :
  rc_mode s = ModeInvitation true -> rc_clock s = [Some now] ->
  revision (lm_state (rc_lifetime s)) = u64_max -> policy (lm_state (rc_lifetime s)) <> p ->
  exists s' e, set_policy message_to_json p s = (s', Err e) /\ rc_open s' = rc_open s /\ rc_sent s' = rc_sent s /\
    policy (lm_state (rc_lifetime s')) = p.
Proof.
  intros Hmode Hclock Hrev Hp. unfold set_policy, this, mbind, proc_bind. rewrite Hmode. cbn.
  unfold update_creator_lifetime, now_unix_millis, read_clock, on_lifetime, mbind, proc_bind. rewrite Hclock. cbn.
  unfold machine_set_policy, mbind, proc_bind. cbn. rewrite bool_decide_eq_false_2 by done. cbn.
  unfold lifetime_advance, mbind, proc_bind. cbn. rewrite Hrev. cbn. eauto 10.
Qed.
End Mutations.
