(* ===== verification/RoomSystem.v ===== *)
(** The two members of a room together (crates/envoix-session/src/room_control.rs).

    A step of [Offers] is one critical section of a method on one side, the write
    of one message that a section decided on (tasks of a side write in any order),
    or the reading of the next message of the peer; the stream keeps the order of
    what is written.  A step of [Lifetime] is one update under [lifetime_updates],
    the write that still holds that lock, or the reading of a message.  A failed
    write closes the connection ([failed_mutation_closes]), after which there are
    no steps.  The theorems are about all runs from the state after the hellos. *)

From stdpp Require Import prelude gmap strings.
From Stdlib Require Import ZArith Lia Strings.Byte Relations.
From S2P Require Import Prelude Bytes Text BrokerConfig CoreError Proc Invite InviteProof RoomInvite RoomControl RoomControlProof.

Local Open Scope Z_scope.

(** ** Offers and their answers *)

Module Offers.

(** A member: its offers, the messages its tasks have still to write, those the
    peer has still to read, and what happened: the offers it made, the offers it
    showed, the ids it accepted and the ids it was told are accepted. *)
Record party := mkParty {
  p_offers : OfferState;
  p_unsent : list ControlMessage;
  p_wire : list ControlMessage;
  p_offered : list RoomTransferOffer;
  p_shown : list RoomTransferOffer;
  p_accepted : list str;
  p_told : list str;
}.
Definition party_new : party := mkParty no_offers [] [] [] [] [] [].

Definition offer_of (m : ControlMessage) : option RoomTransferOffer :=
  match m with CTransferOffer o => Some o | _ => None end.
Definition answer_of (m : ControlMessage) : option (str * bool) :=
  match m with COfferAccepted id => Some (id, true) | COfferRejected id _ => Some (id, false) | _ => None end.
Definition other (m : ControlMessage) : Prop := offer_of m = None /\ answer_of m = None.
Definition accepted_by (m : ControlMessage) : list str :=
  match m with COfferAccepted id => [id] | _ => [] end.

(** What a member does with the next message of its peer. *)
Inductive reads : ControlMessage -> party -> party -> Prop :=
| ReadInvalid o p :
  reads (CTransferOffer o) p
    (mkParty (p_offers p) (p_unsent p ++ [COfferRejected (offer_id o) OfferInvalid]) (p_wire p) (p_offered p)
       (p_shown p) (p_accepted p) (p_told p))
| ReadBusy o p st :
  receive_offer (offer_id o) (p_offers p) = (st, true) ->
  reads (CTransferOffer o) p
    (mkParty st (p_unsent p ++ [COfferRejected (offer_id o) OfferBusy]) (p_wire p) (p_offered p)
       (p_shown p) (p_accepted p) (p_told p))
| ReadOffer o p st :
  receive_offer (offer_id o) (p_offers p) = (st, false) ->
  reads (CTransferOffer o) p
    (mkParty st (p_unsent p) (p_wire p) (p_offered p) (p_shown p ++ [o]) (p_accepted p) (p_told p))
| ReadAnswer m id yes p st :
  answer_of m = Some (id, yes) -> resolve_local_offer id (p_offers p) = (st, Ok tt) ->
  reads m p
    (mkParty st (p_unsent p) (p_wire p) (p_offered p) (p_shown p) (p_accepted p) (p_told p ++ accepted_by m))
| ReadOther m p : other m -> reads m p p.

(** A step of one member, beside its peer. *)
Inductive act : party -> party -> party -> party -> Prop :=
| ActOffer o st p q :
  begin_local_offer (offer_id o) (p_offers p) = (st, Ok tt) ->
  act p q (mkParty st (p_unsent p ++ [CTransferOffer o]) (p_wire p) (p_offered p ++ [o]) (p_shown p)
             (p_accepted p) (p_told p)) q
| ActAnswer m id yes st p q :
  answer_of m = Some (id, yes) -> resolve_remote_offer id (p_offers p) = (st, Ok tt) ->
  act p q (mkParty st (p_unsent p ++ [m]) (p_wire p) (p_offered p) (p_shown p)
             (p_accepted p ++ accepted_by m) (p_told p)) q
| ActOther m p q :
  other m ->
  act p q (mkParty (p_offers p) (p_unsent p ++ [m]) (p_wire p) (p_offered p) (p_shown p) (p_accepted p) (p_told p)) q
| ActWrite m before after p q :
  p_unsent p = before ++ m :: after ->
  act p q (mkParty (p_offers p) (before ++ after) (p_wire p ++ [m]) (p_offered p) (p_shown p) (p_accepted p) (p_told p)) q
| ActRead m rest p p' q :
  p_wire q = m :: rest -> reads m p p' ->
  act p q p' (mkParty (p_offers q) (p_unsent q) rest (p_offered q) (p_shown q) (p_accepted q) (p_told q)).

Inductive step : party * party -> party * party -> Prop :=
| StepLeft p q p' q' : act p q p' q' -> step (p, q) (p', q')
| StepRight p q p' q' : act q p q' p' -> step (p, q) (p', q').
Definition reachable (s : party * party) : Prop := rtc step (party_new, party_new) s.

(** *** The invariant of one direction *)

Definition flight (p : party) : list ControlMessage := p_wire p ++ p_unsent p.
Definition offers_in (p : party) : list RoomTransferOffer := omap offer_of (flight p).
Definition answers_in (p : party) : list (str * bool) := omap answer_of (flight p).
Definition yes_of (a : str * bool) : list str := if a.2 then [a.1] else [].

(** From one side's offers to the other and back: nothing is open, or the offer is
    on its way, or the other decides on it, or its answer is on its way.  [pl],
    [offers], [offered] and [told] are of the side that offers. *)
Inductive direction (pl : option str) (offers offered : list RoomTransferOffer) (told : list str)
    (pr : option str) (answers : list (str * bool)) (accepted : list str) (shown : list RoomTransferOffer) : Prop :=
| DirIdle :
  pl = None -> offers = [] -> pr = None -> answers = [] -> accepted = told ->
  shown `sublist_of` offered -> accepted `sublist_of` (offer_id <$> shown) ->
  direction pl offers offered told pr answers accepted shown
| DirOffered o before :
  pl = Some (offer_id o) -> offers = [o] -> pr = None -> answers = [] -> accepted = told ->
  offered = before ++ [o] -> shown `sublist_of` before -> accepted `sublist_of` (offer_id <$> shown) ->
  direction pl offers offered told pr answers accepted shown
| DirShown o before :
  pl = Some (offer_id o) -> offers = [] -> pr = Some (offer_id o) -> answers = [] -> accepted = told ->
  shown = before ++ [o] -> shown `sublist_of` offered -> accepted `sublist_of` (offer_id <$> before) ->
  direction pl offers offered told pr answers accepted shown
| DirAnswered a :
  pl = Some a.1 -> offers = [] -> pr = None -> answers = [a] -> accepted = told ++ yes_of a ->
  shown `sublist_of` offered -> accepted `sublist_of` (offer_id <$> shown) ->
  direction pl offers offered told pr answers accepted shown.
Definition dir (p q : party) : Prop :=
  direction (pending_local (p_offers p)) (offers_in p) (p_offered p) (p_told p)
    (pending_remote (p_offers q)) (answers_in q) (p_accepted q) (p_shown q).

(** One side decides at a time, on its own offer or on the peer's. *)
Definition side_ok (p : party) : Prop :=
  pending_local (p_offers p) = None \/ pending_remote (p_offers p) = None.
Definition good (s : party * party) : Prop := dir s.1 s.2 /\ dir s.2 s.1 /\ side_ok s.1 /\ side_ok s.2.

(** *** What the critical sections do to the open offers *)

Lemma remember_pending id o :
  pending_local (remember id o) = pending_local o /\ pending_remote (remember id o) = pending_remote o.
Proof. unfold remember. by destruct (forget_old _ _). Qed.
Lemma begin_open id o st : begin_local_offer id o = (st, Ok tt) ->
  pending_local o = None /\ pending_remote o = None /\ pending_local st = Some id /\ pending_remote st = None.
Proof.
  unfold begin_local_offer. destruct (_ || _) eqn:Hb; [done|]. destruct (bool_decide (id ∈ seen o)); [done|]. intros [= <-]. bool_prop.
  destruct (remember_pending id (mkOffers (Some id) (pending_remote o) (seen o) (seen_order o))) as [-> ->].
  cbn. by rewrite !eq_None_not_Some.
Qed.
Lemma receive_open id o st : receive_offer id o = (st, false) ->
  pending_local o = None /\ pending_remote o = None /\ pending_local st = None /\ pending_remote st = Some id.
Proof.
  unfold receive_offer. destruct (_ || _) eqn:Hb; [done|]. intros [= <-]. bool_prop.
  destruct (remember_pending id (mkOffers (pending_local o) (Some id) (seen o) (seen_order o))) as [-> ->].
  cbn. by rewrite !eq_None_not_Some.
Qed.
Lemma remote_open id o st : resolve_remote_offer id o = (st, Ok tt) ->
  pending_remote o = Some id /\ pending_local st = pending_local o /\ pending_remote st = None.
Proof. unfold resolve_remote_offer. case_bool_decide; [|done]. by intros [= <-]. Qed.
Lemma local_open id o st : resolve_local_offer id o = (st, Ok tt) ->
  pending_local o = Some id /\ pending_local st = None /\ pending_remote st = pending_remote o.
Proof. unfold resolve_local_offer. case_bool_decide; [|done]. by intros [= <-]. Qed.

(** *** What is in flight *)

Lemma unsent_snoc {A} (f : ControlMessage -> option A) wire unsent m :
  omap f (wire ++ unsent ++ [m]) = omap f (wire ++ unsent) ++ omap f [m].
Proof. by rewrite app_assoc, omap_app. Qed.
Lemma written {A} (f : ControlMessage -> option A) wire before m after l :
  (length l <= 1)%nat ->
  omap f (wire ++ before ++ m :: after) = l -> omap f ((wire ++ [m]) ++ before ++ after) = l.
Proof.
  intros Hl Heq. assert (Hp : omap f ((wire ++ [m]) ++ before ++ after) ≡ₚ l).
  { rewrite <- Heq. apply omap_Permutation. rewrite <- app_assoc. cbn. by rewrite Permutation_middle. }
  destruct l as [|x [|]]; [by apply Permutation_nil_r in Hp|by apply Permutation_singleton_r in Hp|cbn in Hl; lia].
Qed.
Lemma answer_yes m id yes : answer_of m = Some (id, yes) -> accepted_by m = yes_of (id, yes) /\ offer_of m = None.
Proof. by destruct m; intros [= <- <-]. Qed.


(** *** Preservation *)

Lemma dir_frame p q p' q' :
  dir p q -> pending_local (p_offers p') = pending_local (p_offers p) -> offers_in p' = offers_in p ->
  p_offered p' = p_offered p -> p_told p' = p_told p ->
  pending_remote (p_offers q') = pending_remote (p_offers q) -> answers_in q' = answers_in q ->
  p_accepted q' = p_accepted q -> p_shown q' = p_shown q -> dir p' q'.
Proof. unfold dir. by intros H -> -> -> -> -> -> -> ->. Qed.
Lemma dir_small p q : dir p q -> (length (offers_in p) <= 1 /\ length (answers_in q) <= 1)%nat.
Proof. intros []; simplify_eq/=; repeat match goal with H : _ = _ |- _ => rewrite H end; cbn; lia. Qed.
Lemma offers_snoc st unsent wire offered shown accepted told m :
  offers_in (mkParty st (unsent ++ [m]) wire offered shown accepted told)
  = offers_in (mkParty st unsent wire offered shown accepted told) ++ omap offer_of [m].
Proof. apply unsent_snoc. Qed.
Lemma answers_snoc st unsent wire offered shown accepted told m :
  answers_in (mkParty st (unsent ++ [m]) wire offered shown accepted told)
  = answers_in (mkParty st unsent wire offered shown accepted told) ++ omap answer_of [m].
Proof. apply unsent_snoc. Qed.
(** What is read is taken from the flight. *)
Lemma offers_read q m rest : p_wire q = m :: rest ->
  offers_in q = omap offer_of [m] ++ omap offer_of (rest ++ p_unsent q).
Proof. unfold offers_in, flight. intros ->. cbn. by destruct (offer_of m). Qed.
Lemma answers_read q m rest : p_wire q = m :: rest ->
  answers_in q = omap answer_of [m] ++ omap answer_of (rest ++ p_unsent q).
Proof. unfold answers_in, flight. intros ->. cbn. by destruct (answer_of m). Qed.

Ltac parts := cbn [p_offers p_offered p_shown p_accepted p_told]; try done.
Ltac framed H := apply (dir_frame _ _ _ _ H); parts.

(** The direction of the offers of the member that moves. *)
Lemma act_out p q p' q' : act p q p' q' -> dir p q -> dir q p -> dir p' q'.
Proof.
  intros Hact Hd Hb. destruct Hact as [o st p q Hs|m id yes st p q Hm Hs|m p q [Hm _]|m before after p q Hu|m rest p p' q Hw Hr].
  - apply begin_open in Hs as (Hl & _ & Hl' & _). destruct Hd; simplify_eq; try congruence.
    eapply (DirOffered _ _ _ _ _ _ _ _ o (p_offered p)); parts.
    rewrite offers_snoc. unfold offers_in, flight in *. cbn. by rewrite H0.
  - apply remote_open in Hs as (_ & Hl & _). apply answer_yes in Hm as [_ Hm]. framed Hd.
    rewrite offers_snoc. cbn. rewrite Hm. apply app_nil_r.
  - framed Hd. rewrite offers_snoc. cbn. rewrite Hm. apply app_nil_r.
  - framed Hd. eapply written; [apply (dir_small _ _ Hd)|]. unfold offers_in, flight. by rewrite Hu.
  - pose proof (answers_read _ _ _ Hw) as Ha. destruct Hr as [o p|o p st Hs|o p st Hs|m id yes p st Hm Hs|m p [_ Hm]].
    + framed Hd. rewrite offers_snoc. apply app_nil_r.
    + apply receive_busy in Hs as ->. framed Hd. rewrite offers_snoc. apply app_nil_r.
    + apply receive_open in Hs as (? & _ & ? & _). framed Hd. congruence.
    + apply local_open in Hs as (Hl & Hl' & _). cbn in Ha. rewrite Hm in Ha. cbn in Ha.
      destruct (answer_yes _ _ _ Hm) as [Hy _].
      destruct Hd as [|? ? ? ? ? Hx|? ? ? ? ? Hx|a ? ? ? Hx]; try congruence.
      rewrite Hx in Ha. injection Ha as -> Ha. apply DirIdle; parts. by rewrite Hy.
    + framed Hd. cbn in Ha. rewrite Hm in Ha. by rewrite Ha.
Qed.
(** An offer that arrives is the one its sender waits for. *)
Lemma offer_arrives q p o tail : dir q p -> offers_in q = o :: tail ->
  pending_local (p_offers q) = Some (offer_id o) /\ tail = [] /\ pending_remote (p_offers p) = None /\
  answers_in p = [] /\ p_accepted p = p_told q /\
  exists before, p_offered q = before ++ [o] /\ p_shown p `sublist_of` before /\
    p_accepted p `sublist_of` (offer_id <$> p_shown p).
Proof.
  intros Hd Ho. destruct Hd as [|o' before Hl Hx Hr Ha He Hof Hs Hb|?|?]; try congruence.
  rewrite Hx in Ho. injection Ho as -> <-. naive_solver.
Qed.
Lemma refuse_in q p o rest reason :
  p_wire q = CTransferOffer o :: rest -> dir q p ->
  dir (mkParty (p_offers q) (p_unsent q) rest (p_offered q) (p_shown q) (p_accepted q) (p_told q))
    (mkParty (p_offers p) (p_unsent p ++ [COfferRejected (offer_id o) reason]) (p_wire p) (p_offered p)
       (p_shown p) (p_accepted p) (p_told p)).
Proof.
  intros Hw Hd. pose proof (offers_read _ _ _ Hw) as Ho. cbn in Ho.
  destruct (offer_arrives _ _ _ _ Hd Ho) as (Hl & Ht & Hr & Ha & Hacc & before & Hof & Hsh & Hsub).
  apply (DirAnswered _ _ _ _ _ _ _ _ (offer_id o, false)); parts.
  - rewrite answers_snoc. unfold answers_in, flight in *. cbn. by rewrite Ha.
  - by rewrite app_nil_r.
  - rewrite Hof. by apply sublist_inserts_r.
Qed.
(** The direction of the offers of its peer. *)
Lemma act_in p q p' q' : act p q p' q' -> dir p q -> dir q p -> dir q' p'.
Proof.
  intros Hact Hb Hd. destruct Hact as [o st p q Hs|m id yes st p q Hm Hs|m p q [_ Hm]|m before after p q Hu|m rest p p' q Hw Hr].
  - apply begin_open in Hs as (_ & Hr & _ & Hr'). framed Hd; [congruence|]. rewrite answers_snoc. apply app_nil_r.
  - apply remote_open in Hs as (Hr & _ & Hr'). destruct (answer_yes _ _ _ Hm) as [Hy _].
    destruct Hd as [|?|o before Hl Ho Hx Ha ? Hsh ? ?|?]; try congruence.
    assert (offer_id o = id) as <- by congruence.
    apply (DirAnswered _ _ _ _ _ _ _ _ (offer_id o, yes)); parts.
    + rewrite answers_snoc. cbn. rewrite Hm. unfold answers_in, flight in *. cbn. by rewrite Ha.
    + rewrite Hy. by f_equal.
    + rewrite Hy, Hsh, fmap_app. apply sublist_app; [done|]. destruct yes; [done|]. apply sublist_nil_l.
  - framed Hd. rewrite answers_snoc. cbn. rewrite Hm. apply app_nil_r.
  - framed Hd. eapply written; [apply (dir_small _ _ Hd)|]. unfold answers_in, flight. by rewrite Hu.
  - pose proof (offers_read _ _ _ Hw) as Ho. destruct Hr as [o p|o p st Hs|o p st Hs|m id yes p st Hm Hs|m p [Hm _]].
    + by eapply refuse_in.
    + apply receive_busy in Hs as ->. by eapply refuse_in.
    + cbn in Ho. destruct (offer_arrives _ _ _ _ Hd Ho) as (Hl & Ht & _ & Ha & Hacc & before & Hof & Hsh & Hsub).
      apply receive_open in Hs as (_ & _ & _ & Hr'). apply (DirShown _ _ _ _ _ _ _ _ o (p_shown p)); parts.
      rewrite Hof. by apply sublist_app.
    + apply local_open in Hs as (_ & _ & Hr). apply answer_yes in Hm as [_ Hm]. cbn in Ho. rewrite Hm in Ho. framed Hd.
    + cbn in Ho. rewrite Hm in Ho. framed Hd.
Qed.
Lemma act_side p q p' q' : act p q p' q' -> side_ok p -> side_ok q -> side_ok p' /\ side_ok q'.
Proof.
  intros [o st p1 q1 Hs|m id yes st p1 q1 Hm Hs|m p1 q1 Hm|m b a p1 q1 Hu|m rest p1 p2 q1 Hw Hr] Hp Hq; (split; [|done]);
    unfold side_ok in *; cbn; try done.
  - apply begin_open in Hs. tauto.
  - apply remote_open in Hs. tauto.
  - destruct Hr as [| o p1 st Hs | o p1 st Hs | m id yes p1 st Hm Hs|]; cbn; try done.
    + by apply receive_busy in Hs as ->.
    + apply receive_open in Hs. tauto.
    + apply local_open in Hs. tauto.
Qed.

Lemma step_good s s' : step s s' -> good s -> good s'.
Proof.
  intros [p q p' q' Ha|p q p' q' Ha] (Hpq & Hqp & Hp & Hq); cbn in *;
    pose proof (act_out _ _ _ _ Ha) as Ho; pose proof (act_in _ _ _ _ Ha) as Hi;
    pose proof (act_side _ _ _ _ Ha) as Hs; unfold good; cbn; tauto.
Qed.
Lemma reachable_good s : reachable s -> good s.
Proof.
  revert s. apply (rtc_ind_r good); [|intros; by eapply step_good].
  split; [|split; [|split]]; try by left. all: apply DirIdle; try done; apply sublist_nil_l.
Qed.

(** *** What the members can rely on *)

(** Every answer is to a question: in a room of two members, whatever their
    tasks do and in whichever order they write, an answer that is read is to the
    offer its reader waits for, so the session never ends on an unknown answer. *)
Theorem answers_known p q m rest id yes :
  reachable (p, q) -> p_wire q = m :: rest -> answer_of m = Some (id, yes) ->
  exists st, resolve_local_offer id (p_offers p) = (st, Ok tt) /\ pending_local st = None.
Proof.
  intros (Hpq & Hqp & Hp & Hq)%reachable_good Hw Hm. cbn in *.
  pose proof (answers_read _ _ _ Hw) as Ha. cbn in Ha. rewrite Hm in Ha. cbn in Ha.
  destruct Hpq as [|? ? ? ? ? Hx|? ? ? ? ? Hx|a Hl ? Hr Hx]; try congruence.
  rewrite Hx in Ha. injection Ha as -> _. unfold resolve_local_offer.
  eexists. by rewrite bool_decide_eq_true_2.
Qed.

(** C12. Both members agree on what was accepted: the offers a member shows are
    offers its peer made, whole and in their order; what it accepts are offers it
    showed; and the peer is told of exactly these acceptances, in their order,
    at most the last of them being still on its way.  The two members never both
    have an offer to decide on. *)
Theorem offers_agree p q :
  reachable (p, q) ->
  p_shown q `sublist_of` p_offered p /\
  p_accepted q `sublist_of` (offer_id <$> p_shown q) /\
  (p_accepted q = p_told p \/ exists id, p_accepted q = p_told p ++ [id] /\ pending_local (p_offers p) = Some id) /\
  ~ (is_Some (pending_remote (p_offers p)) /\ is_Some (pending_remote (p_offers q))).
Proof.
  intros (Hpq & _ & Hp & _)%reachable_good. unfold side_ok in Hp. cbn in *.
  destruct Hpq as [Hl Ho Hr|o before Hl Ho Hr Ha He Hof Hs Hb|o before Hl Ho Hr Ha He Hsh Hs Hb|a Hl Ho Hr Ha He Hs Hb].
  - split_and!; [done|done|by left|]. rewrite Hr. by intros [_ []].
  - split_and!; [|done|by left|]; [rewrite Hof; by apply sublist_inserts_r|]. rewrite Hr. by intros [_ []].
  - split_and!; [done| |by left|]; [rewrite Hsh, fmap_app; by apply sublist_inserts_r|].
    destruct Hp as [Hp|Hp]; [congruence|]. rewrite Hp. by intros [[] _].
  - split_and!; [done|done| |rewrite Hr; by intros [_ []]].
    destruct a as [id []]; cbn in *; [right; by exists id|left; by rewrite app_nil_r in He].
Qed.

(** *** The methods of a session are steps *)

Section Methods.
Context `{InviteLibs} (message_to_json : ControlMessage -> option (list byte)).

(** Only messages about something else are sent, and the offers stay. *)
Definition quiet {A} (prog : rc A) : Prop := forall s s' r, prog s = (s', r) ->
  rc_offers s' = rc_offers s /\ exists ms, rc_sent s' = rc_sent s ++ ms /\ Forall other ms.

Lemma quiet_nop {A} (prog : rc A) :
  (forall s s' r, prog s = (s', r) -> rc_offers s' = rc_offers s /\ rc_sent s' = rc_sent s) -> quiet prog.
Proof. intros Hq s s' r Hr. apply Hq in Hr as [-> ->]. split; [done|]. exists []. by rewrite app_nil_r. Qed.
Lemma quiet_ret {A} (a : A) : quiet (mret a).
Proof. apply quiet_nop. by intros s s' r [= <- _]. Qed.
Lemma quiet_throw {A} e : quiet (throw e : rc A).
Proof. apply quiet_nop. by intros s s' r [= <- _]. Qed.
Lemma quiet_this : quiet this.
Proof. apply quiet_nop. by intros s s' r [= <- _]. Qed.
Lemma quiet_clock : quiet now_unix_millis.
Proof.
  apply quiet_nop. intros s s' r. unfold now_unix_millis, read_clock, mbind, proc_bind. destruct (rc_clock s) as [|[n|] rest];
    cbn; by intros [= <- _].
Qed.
Lemma quiet_lifetime {A} (f : machine A) : quiet (on_lifetime f).
Proof. apply quiet_nop. intros s s' r. unfold on_lifetime. destruct (f _). by intros [= <- _]. Qed.
Lemma quiet_closing : quiet closing.
Proof. apply quiet_nop. by intros s s' r [= <- _]. Qed.
Lemma send_run m s s' r : room_send message_to_json m s = (s', r) ->
  rc_offers s' = rc_offers s /\ (rc_sent s' = rc_sent s /\ r <> Ok tt \/ rc_sent s' = rc_sent s ++ [m] /\ r = Ok tt).
Proof.
  unfold room_send. destruct (write_control_message _ _) as [x|e]; [|intros [= <- <-]; split; [done|by left]].
  destruct (rc_open s); cbn [negb]; [|intros [= <- <-]; split; [done|by left]].
  destruct (rc_writes s) as [|[] rest]; intros [= <- <-]; cbn; auto.
  all: split; [done|by left].
Qed.
Lemma quiet_send m : other m -> quiet (room_send message_to_json m).
Proof.
  intros Hm s s' r (Ho & [[Hs _]|[Hs _]])%send_run; (split; [done|]).
  - exists []. by rewrite app_nil_r.
  - exists [m]. auto.
Qed.
Lemma quiet_bind {A B} (prog : rc A) (f : A -> rc B) : quiet prog -> (forall a, quiet (f a)) -> quiet (prog ≫= f).
Proof.
  intros Hp Hf s s' r Hrun. apply bind_run in Hrun as [(e & Hr & _)|(s1 & a & Hr & Hrun)]; [by eapply Hp|].
  apply Hp in Hr as (Ho & ms & Hs & Hm). apply Hf in Hrun as (Ho' & ms' & Hs' & Hm'). split; [congruence|].
  exists (ms ++ ms'). split; [|by apply Forall_app]. by rewrite Hs', Hs, app_assoc.
Qed.
Lemma quiet_guarded {A} (prog : rc A) : quiet prog -> quiet (guarded prog).
Proof.
  intros Hp s s' r. unfold guarded. destruct (prog s) as [s1 r1] eqn:Hr. apply Hp in Hr.
  destruct r1; by intros [= <- _].
Qed.
#[local] Hint Resolve quiet_ret quiet_throw quiet_this quiet_clock quiet_lifetime quiet_closing quiet_send quiet_bind
  quiet_guarded : quiet.
#[local] Hint Extern 1 (other _) => by split : quiet.

Lemma quiet_update f : quiet (update_creator_lifetime message_to_json f).
Proof.
  apply quiet_bind; [auto with quiet|]. intros now. apply quiet_bind; [auto with quiet|].
  intros []; eauto 6 with quiet.
Qed.
Lemma quiet_note_activity : quiet (note_activity message_to_json).
Proof.
  apply quiet_bind; [auto with quiet|]. intros s. repeat case_match; eauto using quiet_update with quiet.
Qed.

(** Messages about something else, decided on and written at once. *)
Lemma others_run q ms p : Forall other ms ->
  rtc (fun p1 p2 => act p1 q p2 q) p
    (mkParty (p_offers p) (p_unsent p) (p_wire p ++ ms) (p_offered p) (p_shown p) (p_accepted p) (p_told p)).
Proof.
  revert p. induction ms as [|m ms IH]; intros p Hms.
  { rewrite app_nil_r. by destruct p. }
  inversion_clear Hms as [|? ? Hm Hms']. eapply rtc_l; [by apply (ActOther m)|].
  eapply rtc_l; [by apply (ActWrite m (p_unsent p) [])|]. cbn. rewrite app_nil_r.
  specialize (IH (mkParty (p_offers p) (p_unsent p) (p_wire p ++ [m]) (p_offered p) (p_shown p) (p_accepted p) (p_told p)) Hms').
  cbn in IH. by rewrite <- app_assoc in IH.
Qed.

Definition accepted_in (ms : list ControlMessage) : list str := concat (accepted_by <$> ms).
(** The steps of [p] beside [q] that a run from [s] to [s'] is. *)
Definition linked (s s' : RoomControlSession) (p p' : party) : Prop :=
  p_offers p' = rc_offers s' /\ p_unsent p' = p_unsent p /\
  exists ms, rc_sent s' = rc_sent s ++ ms /\ p_wire p' = p_wire p ++ ms /\
    p_offered p' = p_offered p ++ omap offer_of ms /\ p_accepted p' = p_accepted p ++ accepted_in ms.
Definition run_of (q : party) (s s' : RoomControlSession) (p p' : party) : Prop :=
  rtc (fun p1 p2 => act p1 q p2 q) p p' /\ linked s s' p p'.

Lemma others_nothing ms : Forall other ms -> omap offer_of ms = [] /\ accepted_in ms = [].
Proof.
  induction 1 as [|m ms [Hm Ha] _ [IH1 IH2]]; [done|]. unfold accepted_in in *. cbn. rewrite Hm, IH1, IH2.
  by destruct m.
Qed.
Lemma quiet_run {A} (prog : rc A) q s s' r p :
  quiet prog -> prog s = (s', r) -> p_offers p = rc_offers s -> exists p', run_of q s s' p p'.
Proof.
  intros Hq (Ho & ms & Hs & Hms)%Hq Hp. eexists. split; [by apply (others_run q ms p)|]. unfold linked. cbn.
  destruct (others_nothing _ Hms) as [He Ha]. split; [congruence|]. split; [done|]. exists ms.
  by rewrite He, Ha, !app_nil_r.
Qed.
(** A section decides on [m], something else is sent, then [m] is. *)
Lemma decided_run {A} (quietly : rc A) q s s1 s' p p1 m r :
  act p q p1 q -> p_offers p1 = rc_offers s -> p_unsent p1 = p_unsent p ++ [m] -> p_wire p1 = p_wire p ->
  p_offered p1 = p_offered p ++ omap offer_of [m] -> p_accepted p1 = p_accepted p ++ accepted_in [m] ->
  quiet quietly -> quietly s = (s1, r) -> rc_offers s' = rc_offers s1 -> rc_sent s' = rc_sent s1 ++ [m] ->
  exists p', run_of q s s' p p'.
Proof.
  intros Hact Ho1 Hu1 Hw1 Hf1 Ha1 Hq (Ho & ms & Hs & Hms)%Hq Ho' Hs'. eexists. split.
  { eapply rtc_l; [exact Hact|]. eapply rtc_r; [by apply (others_run q ms p1)|].
    by apply (ActWrite m (p_unsent p) []). }
  unfold linked. cbn. destruct (others_nothing _ Hms) as [He Ha]. split; [congruence|]. split; [apply app_nil_r|]. exists (ms ++ [m]).
  split; [by rewrite Hs', Hs, app_assoc|]. split; [by rewrite Hw1, app_assoc|].
  unfold accepted_in in *. rewrite omap_app, fmap_app, concat_app, He, Ha. done.
Qed.
Lemma offer_run o q s s' l p : offer_transfer message_to_json o s = (s', Ok l) -> p_offers p = rc_offers s ->
  exists p', run_of q s s' p p'.
Proof.
  intros Hrun Hp. apply bind_ok in Hrun as (s0 & x & [= <- <-] & Hrun). apply bind_ok in Hrun as (s1 & now & Hclock & Hrun).
  apply bind_ok in Hrun as (s2 & [] & Hval & Hrun). apply pure_ok in Hval as [_ ->].
  assert (Hc : rc_offers s1 = rc_offers s /\ rc_sent s1 = rc_sent s).
  { revert Hclock. unfold read_clock. destruct (rc_clock s); by intros [= <- _]. }
  apply bind_ok in Hrun as (s3 & [] & Hbegin & Hrun). unfold on_offers in Hbegin.
  destruct (begin_local_offer _ _) as [st r] eqn:Hb. injection Hbegin as <- ->.
  apply guarded_ok in Hrun. apply bind_ok in Hrun as (s5 & noted & Hn & Hrun). unfold attempt in Hn.
  destruct (note_activity message_to_json (set_offers st s1)) as [s6 rn] eqn:Hnote. injection Hn as -> <-.
  destruct rn as [lifetime|e]; [|by apply bind_ok in Hrun as (? & ? & _ & ?)].
  apply bind_ok in Hrun as (s7 & sent & Hs & Hrun). unfold attempt in Hs.
  destruct (room_send _ _ s5) as [s8 rs] eqn:Hsend. injection Hs as -> <-.
  destruct rs as [[]|e]; [|by apply bind_ok in Hrun as (? & ? & _ & ?)]. injection Hrun as <- _.
  apply send_run in Hsend as (Ho & [[_ Hbad]|[Hsent _]]); [done|].
  destruct Hc as [Hc1 Hc2]. rewrite Hc1, <- Hp in Hb.
  destruct (decided_run (note_activity message_to_json) q (set_offers st s1) s5 s7 p _ (CTransferOffer o) (Ok lifetime)
    (ActOffer o st p q Hb)) as [p' Hp']; cbn; auto using quiet_note_activity.
  { by rewrite app_nil_r. }
  exists p'. unfold run_of, linked in *. cbn in Hp'. by rewrite <- Hc2.
Qed.
Lemma answer_run id m yes q s s' l p : answer_of m = Some (id, yes) ->
  answer_offer message_to_json id m s = (s', Ok l) -> p_offers p = rc_offers s -> exists p', run_of q s s' p p'.
Proof.
  intros Hm Hrun Hp. apply bind_ok in Hrun as (s1 & [] & Hres & Hrun). unfold on_offers in Hres.
  destruct (resolve_remote_offer _ _) as [st r] eqn:Hb. injection Hres as <- ->.
  apply guarded_ok in Hrun. apply bind_ok in Hrun as (s5 & life & Hnote & Hrun). apply bind_ok in Hrun as (s6 & [] & Hs & Hret). injection Hret as -> _.
  apply bind_ok in Hs as (s7 & sent & Hs & Hrun). unfold attempt in Hs.
  destruct (room_send _ _ s5) as [s8 rs] eqn:Hsend. injection Hs as -> <-.
  apply bind_ok in Hrun as (s9 & [] & Hclose & Hrun). apply pure_ok in Hrun as [-> ->]. injection Hclose as ->.
  apply send_run in Hsend as (Ho & [[_ Hbad]|[Hsent _]]); [done|]. rewrite <- Hp in Hb.
  destruct (decided_run (note_activity message_to_json) q (set_offers st s) s5 s9 p _ m (Ok life)
    (ActAnswer m id yes st p q Hm Hb)) as [p' Hp']; cbn; auto using quiet_note_activity.
  { destruct (answer_yes _ _ _ Hm) as [_ ->]. by rewrite app_nil_r. }
  { unfold accepted_in. cbn. by rewrite app_nil_r. }
  by exists p'.
Qed.

Definition read_from (q : party) (rest : list ControlMessage) : party :=
  mkParty (p_offers q) (p_unsent q) rest (p_offered q) (p_shown q) (p_accepted q) (p_told q).
Lemma act_steps q p p' : rtc (fun p1 p2 => act p1 q p2 q) p p' -> rtc step (p, q) (p', q).
Proof. induction 1 as [|p1 p2 p3 Ha _ IH]; [done|]. eapply rtc_l; [by apply StepLeft|done]. Qed.
Lemma quiet_message m : other m -> quiet (handle_message message_to_json m).
Proof.
  intros [Hm Ha]. apply quiet_bind; [auto with quiet|]. intros s. cbv zeta.
  destruct m; try done; repeat case_match; eauto using quiet_update with quiet.
Qed.
(** An offer that is read: it is refused and the refusal is sent, or it is shown. *)
Lemma offer_read o rest q s s' ev p : handle_message message_to_json (CTransferOffer o) s = (s', Ok ev) ->
  p_offers p = rc_offers s -> p_wire q = CTransferOffer o :: rest ->
  exists p', rtc step (p, q) (p', read_from q rest) /\ linked s s' p p'.
Proof.
  intros Hrun Hp Hw. apply bind_ok in Hrun as (s0 & x & [= <- <-] & Hrun). cbv zeta in Hrun.
  apply bind_ok in Hrun as (s1 & now & Hclock & Hrun).
  assert (Hc : rc_offers s1 = rc_offers s /\ rc_sent s1 = rc_sent s).
  { revert Hclock. unfold read_clock. destruct (rc_clock s); by intros [= <- _]. }
  destruct Hc as [Hc1 Hc2]. destruct (offer_validate _ _ _ _); [|by apply bind_ok in Hrun as (? & ? & _ & ?)].
  apply bind_ok in Hrun as (s2 & busy & Hrec & Hrun). unfold on_offers in Hrec. rewrite Hc1, <- Hp in Hrec.
  destruct (receive_offer (offer_id o) (p_offers p)) as [st b] eqn:Hr. injection Hrec as <- ->. destruct busy.
  - apply bind_ok in Hrun as (s3 & [] & Hsend & [= <- _]).
    apply send_run in Hsend as (Ho & [[_ Hbad]|[Hsent _]]); [done|]. cbn in Ho, Hsent. eexists. split.
    + eapply rtc_l; [apply StepLeft, (ActRead _ rest _ _ q Hw), (ReadBusy o p st Hr)|].
      apply rtc_once, StepLeft. by eapply (ActWrite _ (p_unsent p) []).
    + split; [done|]. split; [apply app_nil_r|]. eexists. rewrite Hsent, Hc2. split; [done|]. cbn.
      by rewrite !app_nil_r.
  - injection Hrun as <- _. eexists. split.
    + apply rtc_once, StepLeft, (ActRead _ rest _ _ q Hw), (ReadOffer o p st Hr).
    + split; [done|]. split; [done|]. exists []. cbn. by rewrite Hc2, !app_nil_r.
Qed.
Lemma answer_read m id yes rest q s s' ev p : answer_of m = Some (id, yes) ->
  handle_message message_to_json m s = (s', Ok ev) -> p_offers p = rc_offers s -> p_wire q = m :: rest ->
  exists p', rtc step (p, q) (p', read_from q rest) /\ linked s s' p p'.
Proof.
  intros Hm Hrun Hp Hw. assert (Hres : exists st, resolve_local_offer id (p_offers p) = (st, Ok tt) /\ s' = set_offers st s).
  { apply bind_ok in Hrun as (s0 & x & [= <- <-] & Hrun). cbv zeta in Hrun. rewrite Hp.
    destruct m; try done; injection Hm as -> <-; apply bind_ok in Hrun as (s1 & [] & Hres & [= <- _]);
      unfold on_offers in Hres; destruct (resolve_local_offer id (rc_offers s)) as [st r]; naive_solver. }
  destruct Hres as (st & Hres & ->). eexists. split.
  - apply rtc_once, StepLeft, (ActRead _ rest _ _ q Hw), (ReadAnswer m id yes p st Hm Hres).
  - split; [done|]. split; [done|]. exists []. cbn. by rewrite !app_nil_r.
Qed.
Lemma message_run m rest q s s' ev p : handle_message message_to_json m s = (s', Ok ev) ->
  p_offers p = rc_offers s -> p_wire q = m :: rest ->
  exists p', rtc step (p, q) (p', read_from q rest) /\ linked s s' p p'.
Proof.
  intros Hrun Hp Hw. destruct (offer_of m) as [o|] eqn:Ho.
  { destruct m; try done. by eapply offer_read. }
  destruct (answer_of m) as [[id yes]|] eqn:Ha; [by eapply answer_read|].
  assert (Hm : other m) by done.
  destruct (quiet_run _ (read_from q rest) _ _ _ p (quiet_message m Hm) Hrun Hp) as (p' & Hsteps & Hl).
  exists p'. split; [|done]. eapply rtc_l; [apply StepLeft, (ActRead m rest _ _ q Hw), (ReadOther m p Hm)|].
  by apply act_steps.
Qed.

(** C19. The methods of a session are what the system is made of: a method that
    returns, called on its own, is a run of steps of its member, with the messages
    it sent written in their order and nothing left to write; a turn of
    [next_event] takes the next message of the peer. *)
Theorem methods_are_steps read prog s s' p q rest :
  session_op message_to_json read prog -> prog s = (s', Ok tt) -> p_offers p = rc_offers s ->
  p_wire q = from_option (fun m => [m]) [] read ++ rest ->
  exists p', rtc step (p, q) (p', read_from q rest) /\ linked s s' p p'.
Proof.
  intros Hop Hrun Hp Hw.
  assert (Hcase : read = None -> (exists p', run_of q s s' p p') ->
    exists p', rtc step (p, q) (p', read_from q rest) /\ linked s s' p p').
  { intros -> (p' & Hr & Hl). exists p'. split; [|done]. cbn in Hw. subst rest. destruct q. by apply act_steps. }
  destruct Hop; apply bind_ok in Hrun as (s1 & l & Hrun & [= <-]);
    [apply Hcase; [done|]..|by eapply message_run].
  - by eapply quiet_run; [apply quiet_note_activity|..].
  - by eapply offer_run.
  - by eapply answer_run; [|exact Hrun|done].
  - by eapply answer_run; [|exact Hrun|done].
  - eapply quiet_run; [|done..]. apply quiet_bind; [auto with quiet|]. intros x.
    repeat case_match; auto using quiet_update with quiet.
  - eapply quiet_run; [|done..]. apply quiet_bind; [auto with quiet|]. intros x.
    repeat case_match; auto using quiet_update with quiet. apply quiet_bind; [auto with quiet|].
    intros []; eauto 6 with quiet.
Qed.
End Methods.
End Offers.

(** ** The lifetime of the room *)

Module Lifetime.

(** The creator and the joiner: their machines, the update that is being written
    under the lock, and what the other has still to read. *)
Record room := mkRoom {
  creator_machine : RoomLifetimeMachine;
  publishing : option RoomLifetimeState;
  published : list RoomLifetimeState;
  joiner_machine : RoomLifetimeMachine;
  hinting : option bool;
  hinted : list bool;
}.
(** Both after the hellos. *)
Definition room_new (now_unix_ms : Z) : room :=
  mkRoom (machine_new (lifetime_initial now_unix_ms)) None [] (machine_new (lifetime_initial now_unix_ms)) None [].

(** A transition of the creator on its own account, or on an activity hint. *)
Inductive creator_transition : (Z -> machine (option RoomLifetimeState)) -> Prop :=
| CActivityNoted : creator_transition machine_note_activity
| CLocal active : creator_transition (machine_set_local active)
| CPolicy p : creator_transition (machine_set_policy p).

Inductive step : room -> room -> Prop :=
| Update f now m st c pub j h hs :
  creator_transition f -> f now c = (m, Ok st) ->
  step (mkRoom c None pub j h hs) (mkRoom m st pub j h hs)
| Publish st c pub j h hs :
  step (mkRoom c (Some st) pub j h hs) (mkRoom c None (pub ++ [st]) j h hs)
| ReadState st m r c p pub j hs :
  apply_authoritative st j = (m, r) -> is_ok r = true ->
  step (mkRoom c p (st :: pub) j None hs) (mkRoom c p pub m None hs)
| SetActive active m c p pub j hs changed :
  set_own_flag active j = (m, Ok changed) ->
  step (mkRoom c p pub j None hs) (mkRoom c p pub m (if changed : bool then Some active else None) hs)
| Hint active c p pub j hs :
  step (mkRoom c p pub j (Some active) hs) (mkRoom c p pub j None (hs ++ [active]))
| ReadHint active now m st c pub j h hs :
  machine_set_peer active now c = (m, Ok st) ->
  step (mkRoom c None pub j h (active :: hs)) (mkRoom m st pub j h hs).
Definition reachable now (r : room) : Prop := rtc step (room_new now) r.

(** States each the next revision of the one before it, from one to another. *)
Fixpoint follows (from : RoomLifetimeState) (states : list RoomLifetimeState) (last : RoomLifetimeState) : Prop :=
  match states with
  | [] => from = last
  | st :: rest => revision st = revision from + 1 /\ lifetime_validate st = Ok tt /\ follows st rest last
  end.
Definition in_flight (r : room) : list RoomLifetimeState := published r ++ option_list (publishing r).
Definition hints (r : room) : list bool := hinted r ++ option_list (hinting r).
Definition good (r : room) : Prop :=
  lifetime_ok (creator_machine r) /\ revision (lm_state (creator_machine r)) <= u64_max /\
  follows (lm_state (joiner_machine r)) (in_flight r) (lm_state (creator_machine r)) /\
  peer_transfer_active (joiner_machine r) = false /\
  local_transfer_active (joiner_machine r) = default (peer_transfer_active (creator_machine r)) (last (hints r)).

Lemma follows_snoc from states last st :
  follows from states last -> revision st = revision last + 1 -> lifetime_validate st = Ok tt ->
  follows from (states ++ [st]) st.
Proof. revert from. induction states as [|s states IH]; intros from; cbn; [intros ->; auto|naive_solver]. Qed.
Lemma follows_revision from states last : follows from states last -> revision last = revision from + zlen states.
Proof.
  revert from. induction states as [|s states IH]; intros from; unfold zlen in *; cbn [follows length]; [intros ->; lia|].
  intros (Hr & _ & ->%IH). lia.
Qed.

Lemma creator_transitions f : creator_transition f -> transition f.
Proof. intros []; constructor. Qed.
(** The flags after an update: only [machine_set_peer] moves the flag of the peer. *)
Lemma advance_flags deadline m m' r : lifetime_advance deadline m = (m', r) ->
  local_transfer_active m' = local_transfer_active m /\ peer_transfer_active m' = peer_transfer_active m.
Proof.
  unfold lifetime_advance, mbind, proc_bind, get_machine, pure, put_machine, mret, proc_ret.
  destruct (checked_add _ _ _); cbn; by intros [= <- _].
Qed.
Lemma edge_flags was now m m' o : apply_transfer_edge was now m = (m', Ok o) ->
  local_transfer_active m' = local_transfer_active m /\ peer_transfer_active m' = peer_transfer_active m.
Proof.
  intros Hrun. apply bind_ok in Hrun as (m1 & x & [= <- <-] & Hrun). cbv zeta in Hrun.
  destruct (_ || _); [by injection Hrun as <- _|].
  apply bind_ok in Hrun as (m2 & st & Ha & [= <- _]). by eapply advance_flags.
Qed.
Lemma creator_flag f now m m' o : creator_transition f -> f now m = (m', Ok o) ->
  peer_transfer_active m' = peer_transfer_active m.
Proof.
  intros Hf Hrun. destruct Hf; apply bind_ok in Hrun as (m1 & x & [= <- <-] & Hrun).
  - destruct (_ || _); [by injection Hrun as <- _|]. apply bind_ok in Hrun as (m2 & st & Ha & [= <- _]).
    by eapply advance_flags.
  - destruct (Bool.eqb _ _); [by injection Hrun as <- _|]. apply bind_ok in Hrun as (m2 & [] & [= <-] & Hrun).
    by destruct (edge_flags _ _ _ _ _ Hrun).
  - destruct (bool_decide _); [by injection Hrun as <- _|]. apply bind_ok in Hrun as (m2 & [] & [= <-] & Hrun).
    apply bind_ok in Hrun as (m3 & st & Ha & [= <- _]). by destruct (advance_flags _ _ _ _ Ha).
Qed.
Lemma set_peer_flag active now m m' o : machine_set_peer active now m = (m', Ok o) -> peer_transfer_active m' = active.
Proof.
  intros Hrun. apply bind_ok in Hrun as (m1 & x & [= <- <-] & Hrun).
  destruct (Bool.eqb _ _) eqn:He; [injection Hrun as <- _; by apply eqb_prop|].
  apply bind_ok in Hrun as (m2 & [] & [= <-] & Hrun). by destruct (edge_flags _ _ _ _ _ Hrun) as [_ ->].
Qed.

(** An update of the creator and its publication. *)
Lemma update_follows f now c m o from states :
  transition f -> lifetime_ok c -> revision (lm_state c) <= u64_max -> f now c = (m, Ok o) ->
  follows from states (lm_state c) ->
  lifetime_ok m /\ revision (lm_state m) <= u64_max /\ follows from (states ++ option_list o) (lm_state m).
Proof.
  intros Hf Hok Hmax Hrun Hs. pose proof (transition_run _ _ _ _ _ Hf Hmax Hrun) as Hm.
  pose proof (transition_ok _ _ _ _ _ Hf Hok Hmax Hrun) as Hok'. split; [done|].
  destruct o as [st|]; cbn in Hm |- *.
  - destruct Hm as (Hst & Hr & Hle). rewrite Hst. split; [done|]. eapply follows_snoc; [done..|].
    rewrite <- Hst. by apply lifetime_ok_valid.
  - rewrite Hm, app_nil_r. done.
Qed.
(** What the joiner reads is accepted, and its flags stay. *)
Lemma authoritative_next st m : revision st = revision (lm_state m) + 1 -> lifetime_validate st = Ok tt ->
  apply_authoritative st m = (mkMachine st (local_transfer_active m) (peer_transfer_active m), Ok st).
Proof.
  intros Hr Hv. unfold apply_authoritative, mbind, proc_bind. rewrite Hv. cbn.
  by rewrite (proj2 (Z.leb_gt _ _)) by lia.
Qed.

Lemma room_step_good r r' : step r r' -> good r -> good r'.
Proof.
  intros Hstep (Hok & Hmax & Hfol & Hpeer & Hflag). unfold good, in_flight, hints in *.
  destruct Hstep as [f now m st c pub j h hs Hf Hrun|st c pub j h hs|st m r c p pub j hs Hrun Hr
    |active m c p pub j hs changed Hrun|active c p pub j hs|active now m st c pub j h hs Hrun]; cbn in *.
  - rewrite app_nil_r in Hfol. destruct (update_follows f now c m st _ _ (creator_transitions _ Hf) Hok Hmax Hrun Hfol) as (? & ? & ?).
    by rewrite (creator_flag _ _ _ _ _ Hf Hrun).
  - by rewrite app_nil_r.
  - destruct Hfol as (Hrev & Hval & Hfol). rewrite authoritative_next in Hrun by done. by injection Hrun as <- _.
  - unfold set_own_flag, mbind, proc_bind, get_machine in Hrun. cbn in Hrun.
    destruct (Bool.eqb (local_transfer_active j) active) eqn:He; injection Hrun as <- <-; [done|]. cbn.
    split_and!; try done. by rewrite last_snoc.
  - by rewrite app_nil_r.
  - rewrite app_nil_r in Hfol. destruct (update_follows _ now c m st _ _ (TPeer active) Hok Hmax Hrun Hfol) as (? & ? & ?).
    split_and!; try done. rewrite Hflag, (set_peer_flag _ _ _ _ _ Hrun). cbn.
    destruct (hs ++ option_list h) as [|b rest]; [done|]. rewrite last_cons_cons.
    by destruct (proj2 (last_is_Some (b :: rest)) ltac:(done)) as [x ->].
Qed.
Lemma room_reachable_good now r : reachable now r -> good r.
Proof.
  revert r. apply (rtc_ind_r good); [|intros; by eapply room_step_good].
  unfold good, room_new, in_flight, hints. cbn. split_and!; try done.
Qed.

(** C18. The room has one lifetime: whatever both members do, every state that the
    joiner reads is accepted as the next revision; the joiner is behind by exactly
    the states that are on their way; and when nothing is, both members hold the
    same state, which has a deadline exactly while neither transfers and the idle
    policy holds. *)
Theorem lifetime_agreed now r :
  reachable now r ->
  (forall st rest, published r = st :: rest -> exists m, apply_authoritative st (joiner_machine r) = (m, Ok st)) /\
  revision (lm_state (creator_machine r)) = revision (lm_state (joiner_machine r)) + zlen (in_flight r) /\
  (in_flight r = [] -> lm_state (joiner_machine r) = lm_state (creator_machine r)) /\
  (in_flight r = [] -> hints r = [] ->
   (is_Some (idle_deadline_unix_ms (lm_state (joiner_machine r))) <->
    policy (lm_state (creator_machine r)) = Idle15Minutes /\
    local_transfer_active (creator_machine r) = false /\ local_transfer_active (joiner_machine r) = false)).
Proof.
  intros (Hok & Hmax & Hfol & Hpeer & Hflag)%room_reachable_good. split_and!.
  - intros st rest Hp. unfold in_flight in Hfol. rewrite Hp in Hfol. destruct Hfol as (Hr & Hv & _).
    eexists. by apply authoritative_next.
  - by apply follows_revision.
  - intros Hnone. by rewrite Hnone in Hfol.
  - intros Hnone Hh. rewrite Hnone in Hfol. rewrite Hh in Hflag. cbn in Hfol, Hflag. rewrite Hfol, Hflag.
    destruct Hok as [_ ->]. unfold any_transfer_active. by rewrite orb_false_iff.
Qed.

End Lifetime.
