(* ===== verification/Relay.v ===== *)
(** What the broker does to bytes: the length-prefixed control frames
    (crates/envoix-rendezvous/src/io.rs), with [serde_json] a parameter, and
    the relay between two paired peers ([relay_frames] of broker.rs). *)

From stdpp Require Import prelude strings.
From Stdlib Require Import ZArith Lia Strings.Byte.
From S2P Require Import Prelude Bytes Reader OfferCodec BrokerConfig Rooms.

Local Open Scope Z_scope.

Inductive RendezvousError :=
| RE_Io
| RE_BadMessage
| RE_FrameTooLarge
| RE_Expired
| RE_Rejected (o : BrokerOutcome)
| RE_Timeout.

Definition DEFAULT_MAX_FRAME_BODY : Z := 64 * 1024.

(** ** Control frames *)

Section Control.
Context {T : Type} (to_vec : T -> option (list byte)) (from_slice : list byte -> option T).

Definition write_framed (written : list byte) (value : T) : result RendezvousError (list byte) :=
  body ← ok_or RE_BadMessage (to_vec value);
  if DEFAULT_MAX_FRAME_BODY <? zlen body then Err RE_FrameTooLarge
  else Ok (written ++ push_u32 (zlen body) ++ body).

(** The value, and what is left on the stream. *)
Definition read_framed_with_limit (max : Z) (input : list byte)
    : result RendezvousError (T * list byte) :=
  '(len, input) ← stream_read_exact RE_Io 4 input;
  let len := be_value len in
  if max <? len then Err RE_FrameTooLarge
  else
    '(body, input) ← stream_read_exact RE_Io len input;
    value ← ok_or RE_BadMessage (from_slice body);
    Ok (value, input).

Definition read_framed (input : list byte) : result RendezvousError (T * list byte) :=
  read_framed_with_limit DEFAULT_MAX_FRAME_BODY input.
End Control.

(** ** Relay *)

(** How a peer's stream behaves once its bytes are used up. *)
Inductive StreamEnd := Closed | Stalled | Broken.

(** [read_exact] under a deadline: enough bytes, or the stream's end shows. *)
Definition timed_read (n : Z) (input : list byte) (stop : StreamEnd)
    : (list byte * list byte) + StreamEnd :=
  if zlen input <? n then inr stop
  else inl (take (Z.to_nat n) input, drop (Z.to_nat n) input).

(** How the other peer's stream takes what is written to it: everything, or
    [capacity] more bytes and then it stalls or breaks. *)
Inductive SinkEnd := SinkStalled | SinkBroken.
Inductive Sink := Unlimited | Limited (capacity : nat) (fault : SinkEnd).

(** [write_all] under a deadline: the bytes that went out, and what stopped it. *)
Definition timed_write (sink : Sink) (bs : list byte) : list byte * Sink * option SinkEnd :=
  match sink with
  | Unlimited => (bs, Unlimited, None)
  | Limited capacity fault =>
    if (length bs <=? capacity)%nat then (bs, Limited (capacity - length bs) fault, None)
    else (take capacity bs, Limited 0 fault, Some fault)
  end.

(** The loop, with what it has written; [None] is running out of fuel. *)
Fixpoint relay_loop (fuel : nat) (max : Z) (input : list byte) (stop : StreamEnd) (sink : Sink)
    (written : list byte) : option (list byte * result RendezvousError unit) :=
  match fuel with
  | O => None
  | S fuel' =>
    match timed_read 4 input stop with
    | inr Stalled => Some (written, Err RE_Timeout)
    | inr Closed => Some (written, Ok tt)
    | inr Broken => Some (written, Err RE_Io)
    | inl (length, input) =>
      let body_length := be_value length in
      if max <? body_length then Some (written, Err RE_FrameTooLarge)
      else
        match timed_read body_length input stop with
        | inr Stalled => Some (written, Err RE_Timeout)
        | inr _ => Some (written, Err RE_Io)
        | inl (body, input) =>
          match timed_write sink (length ++ body) with
          | (out, sink, None) => relay_loop fuel' max input stop sink (written ++ out)
          | (out, _, Some SinkStalled) => Some (written ++ out, Err RE_Timeout)
          | (out, _, Some SinkBroken) => Some (written ++ out, Err RE_Io)
          end
        end
    end
  end.

(** Every turn reads at least the four bytes of a length. *)
Definition relay_frames (max : Z) (input : list byte) (stop : StreamEnd) (sink : Sink)
    : option (list byte * result RendezvousError unit) :=
  relay_loop (S (length input)) max input stop sink [].

(** [record_relay_result] *)
Definition record_relay_result (m : BrokerMetrics) (r : result RendezvousError unit)
    : BrokerMetrics :=
  match r with
  | Err RE_Timeout => metrics_add m Timeouts 1
  | Err RE_FrameTooLarge => metrics_add m OversizedFrames 1
  | _ => m
  end.

(** ** Properties *)

Lemma zlen_push_u32' v : zlen (push_u32 v) = 4.
Proof. unfold zlen, push_u32. by rewrite length_be_bytes. Qed.

Lemma be_value_push_u32 v : 0 <= v <= u32_max -> be_value (push_u32 v) = v.
Proof. intros Hv. apply be_value_be_bytes_small. unfold u32_max in Hv. lia. Qed.

Section ControlProof.
Context {T : Type} (to_vec : T -> option (list byte)) (from_slice : list byte -> option T).

(** Control frames survive the wire: given that [serde_json] reads back
    what it writes, a value [write_framed] accepts is the value
    [read_framed_with_limit] returns, for every limit at least as large as
    its body, and the bytes after it are left on the stream. *)
Theorem control_roundtrip value body bs max rest :
  to_vec value = Some body -> from_slice body = Some value ->
  write_framed to_vec [] value = Ok bs -> zlen body <= max ->
  read_framed_with_limit from_slice max (bs ++ rest) = Ok (value, rest).
Proof.
  intros Hto Hfrom Hw Hmax. unfold write_framed in Hw. rewrite Hto in Hw. cbn in Hw.
  destruct (Z.ltb_spec DEFAULT_MAX_FRAME_BODY (zlen body)) as [|Hb]; [done|].
  apply Ok_inj in Hw as <-. pose proof (zlen_nonneg body).
  assert (DEFAULT_MAX_FRAME_BODY <= u32_max) by done.
  unfold read_framed_with_limit. rewrite <- app_assoc, <- (zlen_push_u32' (zlen body)).
  rewrite stream_read_exact_app. cbn [mbind result_bind]. rewrite be_value_push_u32 by lia.
  rewrite (proj2 (Z.ltb_ge _ _)) by done. rewrite stream_read_exact_app.
  cbn [mbind result_bind]. by rewrite Hfrom.
Qed.
End ControlProof.

Section RelayProof.
Context (max : Z).

Definition framed (body : list byte) : list byte := push_u32 (zlen body) ++ body.
Definition relayable (body : list byte) : Prop := zlen body <= max /\ zlen body <= u32_max.

Lemma timed_read_app (a b : list byte) stop : timed_read (zlen a) (a ++ b) stop = inl (a, b).
Proof.
  unfold timed_read. rewrite zlen_app. pose proof (zlen_nonneg b).
  rewrite (proj2 (Z.ltb_ge _ _)) by lia. unfold zlen. rewrite Nat2Z.id.
  by rewrite take_app_length, drop_app_length.
Qed.

Lemma timed_read_inl n input stop a b :
  0 <= n -> timed_read n input stop = inl (a, b) -> input = a ++ b /\ zlen a = n.
Proof.
  intros Hn. unfold timed_read. destruct (Z.ltb_spec (zlen input) n); [done|]. intros [= <- <-].
  rewrite take_drop. split; [done|]. unfold zlen in *. rewrite length_take. lia.
Qed.

Lemma length_framed body : (4 <= length (framed body))%nat.
Proof. unfold framed, push_u32. rewrite length_app, length_be_bytes. lia. Qed.

(** A length and as many bytes are a frame. *)
Lemma framed_read len body :
  zlen len = 4 -> zlen body = be_value len -> len ++ body = framed body.
Proof.
  intros Hlen Hbody. unfold framed, push_u32. rewrite Hbody. f_equal.
  assert (Hl4 : length len = 4%nat) by (unfold zlen in Hlen; lia).
  rewrite <- Hl4 at 1. symmetry. apply be_bytes_be_value.
Qed.

(** What a sink took is all, or a strict prefix and a fault. *)
Lemma timed_write_prefix sink bs out sink' fault :
  timed_write sink bs = (out, sink', fault) ->
  exists later, bs = out ++ later /\ (fault = None <-> later = []) /\
    (sink = Unlimited -> sink' = Unlimited /\ fault = None).
Proof.
  unfold timed_write. destruct sink as [|cap f].
  - intros [= <- <- <-]. exists []. by rewrite app_nil_r.
  - destruct (Nat.leb_spec (length bs) cap); intros [= <- <- <-].
    + exists []. by rewrite app_nil_r.
    + exists (drop cap bs). rewrite take_drop. split; [done|]. split; [|done]. split; [done|].
      intros Hd%(f_equal length). rewrite length_drop in Hd. cbn in Hd. lia.
Qed.

(** What a run writes: whole frames, and then perhaps the part of one more
    frame that a failing writer took. *)
Definition relayed (sink : Sink) (input out : list byte) (r : result RendezvousError unit) : Prop :=
  exists bodies partial rest, out = concat (map framed bodies) ++ partial /\
    input = out ++ rest /\ Forall relayable bodies /\
    (partial = [] \/ sink <> Unlimited /\ r <> Ok tt /\
       exists body later, relayable body /\ framed body = partial ++ later /\ later <> []).

Lemma relayed_nil sink input r : relayed sink input [] r.
Proof. exists [], [], input. cbn. auto. Qed.

Lemma relayed_part sink body out later input r :
  sink <> Unlimited -> r <> Ok tt -> relayable body -> framed body = out ++ later ->
  later <> [] -> relayed sink (framed body ++ input) out r.
Proof.
  intros Hs Hr Hb Hf Hl. exists [], out, (later ++ input). cbn. rewrite app_assoc, <- Hf.
  split; [done|]. split; [done|]. split; [done|]. right. eauto 10.
Qed.

Lemma relayed_cons sink sink' body input out r :
  (sink = Unlimited -> sink' = Unlimited) -> relayable body -> relayed sink' input out r ->
  relayed sink (framed body ++ input) (framed body ++ out) r.
Proof.
  intros Hs Hb (bodies & partial & rest & -> & -> & Hall & Hp).
  exists (body :: bodies), partial, rest. cbn. rewrite <- !app_assoc.
  split; [done|]. split; [done|]. split; [by constructor|].
  destruct Hp as [->|(Hs' & Hp)]; [by left|right]. split; [|done]. intros H. by apply Hs', Hs.
Qed.

Lemma relay_loop_spec fuel input stop sink written :
  (length input < fuel)%nat ->
  exists out r, relay_loop fuel max input stop sink written = Some (written ++ out, r) /\
    relayed sink input out r.
Proof.
  revert input sink written. induction fuel as [|fuel IH]; intros input sink written Hf; [lia|].
  assert (Hstop : forall r, exists out r', Some (written, r) = Some (written ++ out, r') /\
    relayed sink input out r').
  { intros r. exists [], r. rewrite app_nil_r. split; [done|apply relayed_nil]. }
  cbn [relay_loop]. destruct (timed_read 4 input stop) as [[len input1]|[]] eqn:Hr;
    [|apply Hstop..].
  apply timed_read_inl in Hr as [-> Hlen]; [|done].
  destruct (Z.ltb_spec max (be_value len)); [apply Hstop|].
  pose proof (be_value_bounds len) as Hb.
  replace (length len) with 4%nat in Hb by (unfold zlen in Hlen; lia).
  destruct (timed_read (be_value len) input1 stop) as [[body input2]|[]] eqn:Hr2;
    [|apply Hstop..].
  apply timed_read_inl in Hr2 as [-> Hbody]; [|lia]. clear Hstop.
  rewrite app_assoc, (framed_read len body) in * by done.
  assert (Hrel : relayable body) by (unfold relayable, u32_max; lia).
  destruct (timed_write sink (framed body)) as [[out sink'] fault] eqn:Hw.
  apply timed_write_prefix in Hw as (later & Hout & Hfault & Hsink).
  destruct fault as [f|].
  - assert (Hlater : later <> []) by (intros H'; by apply Hfault in H').
    assert (Hlim : sink <> Unlimited) by (intros ->; by destruct (Hsink eq_refl)).
    destruct f; eexists out, _; (split; [done|]); by eapply relayed_part.
  - destruct Hfault as [Hnil _]. rewrite (Hnil eq_refl), app_nil_r in Hout. subst out.
    pose proof (length_framed body). rewrite length_app in Hf.
    destruct (IH input2 sink' (written ++ framed body) ltac:(lia)) as (out & r & Hrun & Hspec).
    exists (framed body ++ out), r. rewrite Hrun, <- app_assoc. split; [done|].
    eapply relayed_cons; [apply Hsink|done|done].
Qed.

(** The relay never alters, invents or reorders: it always terminates,
    whatever the two streams do, and the bytes it has written are a prefix of
    the bytes the peer sent, made of whole frames within the size limit,
    followed by a part of one more frame only when the other peer's stream
    failed in the middle of it, which ends the relay with an error. *)
Theorem relay_prefix input stop sink :
  exists out r, relay_frames max input stop sink = Some (out, r) /\ relayed sink input out r.
Proof. apply (relay_loop_spec (S (length input)) input stop sink []). lia. Qed.

Lemma relay_loop_all bodies fuel stop written :
  Forall relayable bodies -> (length bodies < fuel)%nat ->
  relay_loop fuel max (concat (map framed bodies)) stop Unlimited written
    = Some (written ++ concat (map framed bodies),
            match stop with Closed => Ok tt | Stalled => Err RE_Timeout | Broken => Err RE_Io end).
Proof.
  intros Hall. revert fuel written. induction Hall as [|body bodies [Hmax Hu] Hall IH];
    intros fuel written Hf; (destruct fuel as [|fuel]; [cbn in Hf; lia|]).
  - cbn. rewrite app_nil_r. by destruct stop.
  - pose proof (zlen_nonneg body). cbn [map concat relay_loop]. unfold framed at 1.
    rewrite <- app_assoc, <- (zlen_push_u32' (zlen body)) at 1. rewrite timed_read_app.
    rewrite be_value_push_u32 by lia. rewrite (proj2 (Z.ltb_ge _ _)) by done.
    rewrite timed_read_app. cbn [timed_write]. change (push_u32 (zlen body) ++ body) with (framed body).
    rewrite IH; [by rewrite <- app_assoc|cbn in Hf; lia].
Qed.

(** Everything a well-behaved peer sends arrives: complete frames within
    the limit followed by a close are all relayed and the relay ends without
    an error. *)
Theorem relay_complete bodies :
  Forall relayable bodies ->
  relay_frames max (concat (map framed bodies)) Closed Unlimited
    = Some (concat (map framed bodies), Ok tt).
Proof.
  intros Hall. unfold relay_frames. rewrite relay_loop_all; [done|done|]. clear Hall.
  induction bodies as [|body bodies IH]; [cbn; lia|]. cbn [map concat length].
  rewrite length_app. pose proof (length_framed body). lia.
Qed.
End RelayProof.
