(* ===== verification/Pairing.v ===== *)
(** The control handshake (crates/envoix-pairing: handshake.rs, bundle.rs and
    wire.rs) and the exchange over it (crates/envoix-rendezvous-iroh/src/lib.rs:
    [authenticate_invitation], [exchange_descriptor], [drive_pairing]).  SPAKE2,
    HMAC-SHA256, ChaCha20-Poly1305, the BLAKE3 key derivation and serde_json belong
    to other crates and are the class [PakeLibs].  One side is a program over the messages
    it has still to read, those it has written and the entropy it has still to
    draw; the randomness that SPAKE2 draws for itself is the argument [seed]. *)

From stdpp Require Import prelude strings.
From Stdlib Require Import ZArith Lia Strings.Byte.
From S2P Require Import Relay Prelude Bytes BrokerConfig Proc Invite.

Local Open Scope Z_scope.

(** ** What other crates do *)

Class PakeLibs := {
  (** [Spake2::<Ed25519Group>]: its state, [start_a] and [start_b] with password
      and the two identities, and [finish]. *)
  Spake2 : Type;
  start_a : list byte -> list byte -> list byte -> list byte -> Spake2 * list byte;
  start_b : list byte -> list byte -> list byte -> list byte -> Spake2 * list byte;
  spake_finish : Spake2 -> list byte -> option (list byte);
  (** HMAC-SHA256 of a message under a key. *)
  hmac : list byte -> list byte -> list byte;
  (** [blake3::derive_key(context, key)] *)
  derive_key : list byte -> list byte -> list byte;
  (** ChaCha20-Poly1305: key, nonce, associated data, text. *)
  aead_encrypt : list byte -> list byte -> list byte -> list byte -> option (list byte);
  aead_decrypt : list byte -> list byte -> list byte -> list byte -> option (list byte);
  (** [serde_json::to_vec] of an opening, by its nonce and its message, of a
      [Confirm] and of a [Vec<u8>]. *)
  opening_json : list byte -> list byte -> option (list byte);
  confirm_json : list byte -> option (list byte);
  bytes_json : list byte -> option (list byte);
}.

(** Two ends with one password and the same identities finish with one key; a text
    within the cipher's limit is encrypted, and what is encrypted is decrypted under
    the same key, nonce and associated data.  A SPAKE2 message is a side and a point
    of 32 bytes, an HMAC-SHA256 tag has 32 bytes, a sealed text the 16 bytes of its
    tag more; and the JSON text of a byte array has at most three digits and a comma
    for each byte, with the brackets and the names of the fields. *)
Class PakeLaws `{PakeLibs} : Prop := {
  spake_agree : forall password ida idb seed_a seed_b,
    let '(a, message_a) := start_a password ida idb seed_a in
    let '(b, message_b) := start_b password ida idb seed_b in
    exists key, spake_finish a message_b = Some key /\ spake_finish b message_a = Some key;
  aead_seals : forall key nonce aad text,
    length nonce = 12%nat -> zlen text <= u32_max -> is_Some (aead_encrypt key nonce aad text);
  aead_open : forall key nonce aad text sealed,
    aead_encrypt key nonce aad text = Some sealed -> aead_decrypt key nonce aad sealed = Some text;
  spake_size_a : forall password ida idb seed, zlen (start_a password ida idb seed).2 <= 33;
  spake_size_b : forall password ida idb seed, zlen (start_b password ida idb seed).2 <= 33;
  hmac_size : forall key message, zlen (hmac key message) <= 32;
  aead_size : forall key nonce aad text sealed,
    aead_encrypt key nonce aad text = Some sealed -> zlen sealed <= zlen text + 16;
  opening_text : forall nonce message, exists text,
    opening_json nonce message = Some text /\ zlen text <= 4 * (zlen nonce + zlen message) + 21;
  confirm_text : forall mac, exists text, confirm_json mac = Some text /\ zlen text <= 4 * zlen mac + 10;
  bytes_text : forall bytes, exists text, bytes_json bytes = Some text /\ zlen text <= 4 * zlen bytes + 2;
}.

(** A JSON codec of a type. *)
Class Json (A : Type) := {
  to_json : A -> option (list byte);
  from_json : list byte -> option A;
}.
Class JsonLaws (A : Type) `{Json A} : Prop := {
  json_read_back : forall a bytes, to_json a = Some bytes -> from_json bytes = Some a;
}.

(** ** Handshake (handshake.rs) *)

Definition PAKE_DOMAIN : list byte := lit "envoix-invite-control-spake2-v2".
Definition INITIATOR_ID : list byte := lit "envoix invitation joiner".
Definition RESPONDER_ID : list byte := lit "envoix invitation creator".
Definition INITIATOR_CONFIRM_LABEL : list byte := lit "joiner-confirm".
Definition RESPONDER_CONFIRM_LABEL : list byte := lit "creator-confirm".
Definition PAKE_NONCE_LEN : nat := 32.

Inductive PairingError :=
| EntropyError
| BundleMalformed
| DecryptError
| BadJson
| Spake2Error
| ConfirmError
| BadMessage (message : string).
Abbreviation paired := (result PairingError).

(** [PakeStart] and [PakeResponse] have the same fields. *)
Record PakeMessage := mkPake { pake_nonce : list byte; pake_msg : list byte }.
Record PairedKey := mkPaired_ { paired_key : list byte; paired_hash : list byte }.

Section Handshake.
Context `{InviteLibs, PakeLibs}.

Definition pake_transcript (context : InvitationControlContext) (initiator responder : PakeMessage) : list byte :=
  foldl append_len_prefixed []
    [PAKE_DOMAIN; INITIATOR_ID; RESPONDER_ID; control_framed_binding context; pake_nonce initiator;
     pake_nonce responder; pake_msg initiator; pake_msg responder].
Definition pake_proof (key transcript label : list byte) : list byte :=
  hmac key (append_len_prefixed transcript label).
Definition pake_verify (key transcript label received : list byte) : paired unit :=
  ensure (bool_decide (received = hmac key (append_len_prefixed transcript label))) ConfirmError.

Record InitiatorPending := mkPending {
  ip_spake : Spake2; ip_start : PakeMessage; ip_context : InvitationControlContext }.
(** [InitiatorConfirming] and [ResponderConfirming] have the same fields. *)
Record Confirming := mkConfirming { conf_key : list byte; conf_transcript : list byte }.

Definition initiator_start (password : str) (context : InvitationControlContext) (seed nonce : list byte)
    : InitiatorPending * PakeMessage :=
  let '(spake, msg) := start_a password INITIATOR_ID RESPONDER_ID seed in
  let start := mkPake nonce msg in
  (mkPending spake start context, start).
(** [InitiatorPending::finish] *)
Definition initiator_finish (p : InitiatorPending) (response : PakeMessage) : paired (Confirming * list byte) :=
  if negb (Nat.eqb (length (pake_nonce response)) PAKE_NONCE_LEN) then Err (BadMessage "creator nonce length")
  else
    key ← ok_or Spake2Error (spake_finish (ip_spake p) (pake_msg response));
    let transcript := pake_transcript (ip_context p) (ip_start p) response in
    Ok (mkConfirming key transcript, pake_proof key transcript INITIATOR_CONFIRM_LABEL).
(** [InitiatorConfirming::verify] *)
Definition initiator_verify (c : Confirming) (creator_confirm : list byte) : paired PairedKey :=
  _ ← pake_verify (conf_key c) (conf_transcript c) RESPONDER_CONFIRM_LABEL creator_confirm;
  Ok (mkPaired_ (conf_key c) (sha256 (conf_transcript c))).

(** The check of [responder_respond] before it draws its nonce, and the rest of it. *)
Definition check_start (start : PakeMessage) : paired unit :=
  ensure (Nat.eqb (length (pake_nonce start)) PAKE_NONCE_LEN) (BadMessage "joiner nonce length").
Definition responder_respond (password : str) (context : InvitationControlContext) (seed nonce : list byte)
    (start : PakeMessage) : paired (Confirming * PakeMessage) :=
  let '(spake, msg) := start_b password INITIATOR_ID RESPONDER_ID seed in
  key ← ok_or Spake2Error (spake_finish spake (pake_msg start));
  let response := mkPake nonce msg in
  Ok (mkConfirming key (pake_transcript context start response), response).
(** [ResponderConfirming::verify] *)
Definition responder_verify (c : Confirming) (joiner_confirm : list byte) : paired (PairedKey * list byte) :=
  _ ← pake_verify (conf_key c) (conf_transcript c) INITIATOR_CONFIRM_LABEL joiner_confirm;
  Ok (mkPaired_ (conf_key c) (sha256 (conf_transcript c)),
      pake_proof (conf_key c) (conf_transcript c) RESPONDER_CONFIRM_LABEL).
End Handshake.

(** ** Sealed bundles (bundle.rs) *)

Definition BUNDLE_KEY_CONTEXT : list byte := lit "envoix-pairing bundle key v1".
Definition BUNDLE_NONCE_LEN : nat := 12.

Section Bundles.
Context `{PakeLibs}.

Definition bundle_key (k : list byte) : list byte := derive_key BUNDLE_KEY_CONTEXT k.
Definition open (k aad sealed : list byte) : paired (list byte) :=
  if (length sealed <? BUNDLE_NONCE_LEN)%nat then Err BundleMalformed
  else ok_or DecryptError (aead_decrypt (bundle_key k) (take BUNDLE_NONCE_LEN sealed) aad (drop BUNDLE_NONCE_LEN sealed)).
Definition open_json {A} `{Json A} (k aad sealed : list byte) : paired A :=
  json ← open k aad sealed;
  ok_or BadJson (from_json json).
End Bundles.

(** ** Framing (wire.rs) *)

Definition MAX_PAIRING_FRAME_BODY : Z := 64 * 1024.
Definition pairing_frame {A} `{Json A} (value : A) : paired (list byte) :=
  body ← ok_or BadJson (to_json value);
  if MAX_PAIRING_FRAME_BODY <? zlen body then Err (BadMessage "frame body too large")
  else Ok (be_bytes 4 (zlen body) ++ body).
Definition pairing_unframe {A} `{Json A} (body : list byte) : paired A :=
  ok_or BadJson (from_json body).

(** ** The exchange over the broker *)

Definition JOINER_CONTEXT_AAD : list byte := lit "envoix-invite control context joiner v2".
Definition CREATOR_CONTEXT_AAD : list byte := lit "envoix-invite control context creator v2".
Definition JOINER_DESCRIPTOR_AAD : list byte := lit "envoix-invite endpoint descriptor joiner v2".
Definition CREATOR_DESCRIPTOR_AAD : list byte := lit "envoix-invite endpoint descriptor creator v2".

(** A control message, as its JSON tells it apart: the two openings of the
    handshake look alike. *)
Inductive PairingMessage :=
| PakeOpening (m : PakeMessage)
| PakeConfirm (mac : list byte)
| SealedBundle (bytes : list byte).

Inductive ControlError :=
| MethodMismatch
| PairingFailed (e : PairingError)
| StreamFailed
| BadMessageBody
| FrameTooLarge
| FrameMismatch
| DescriptorOmitted.

(** A side of the exchange. *)
Record Control := mkControl {
  ct_incoming : list PairingMessage;
  ct_written : list PairingMessage;
  ct_entropy : list byte;
}.
Abbreviation control A := (proc Control ControlError A).

Section Frames.
Context `{PakeLibs}.

(** The body of the frame that carries a message. *)
Definition message_body (m : PairingMessage) : option (list byte) :=
  match m with
  | PakeOpening p => opening_json (pake_nonce p) (pake_msg p)
  | PakeConfirm mac => confirm_json mac
  | SealedBundle bytes => bytes_json bytes
  end.
Definition push_message (m : PairingMessage) : control unit := fun w =>
  (mkControl (ct_incoming w) (ct_written w ++ [m]) (ct_entropy w), Ok tt).
(** [write_framed] and [read_framed] (crates/envoix-rendezvous/src/io.rs): both refuse
    a frame whose body is too large.  A message still to come stands for the frame of its
    own encoding. *)
Definition write_message (m : PairingMessage) : control unit :=
  body ← pure (ok_or BadMessageBody (message_body m));
  _ ← throw_if (DEFAULT_MAX_FRAME_BODY <? zlen body) FrameTooLarge;
  push_message m.
Definition next_message : control PairingMessage := fun w =>
  match ct_incoming w with
  | [] => (w, Err StreamFailed)
  | m :: rest => (mkControl rest (ct_written w) (ct_entropy w), Ok m)
  end.
Definition read_message : control PairingMessage :=
  m ← next_message;
  body ← pure (ok_or BadMessageBody (message_body m));
  _ ← throw_if (DEFAULT_MAX_FRAME_BODY <? zlen body) FrameTooLarge;
  mret m.
Definition read_opening : control PakeMessage :=
  m ← read_message; match m with PakeOpening p => mret p | _ => throw FrameMismatch end.
Definition read_confirm : control (list byte) :=
  m ← read_message; match m with PakeConfirm mac => mret mac | _ => throw FrameMismatch end.
Definition read_sealed : control (list byte) :=
  m ← read_message; match m with SealedBundle b => mret b | _ => throw FrameMismatch end.
End Frames.

(** [getrandom::fill] *)
Definition draw (n : nat) : control (list byte) := fun w =>
  if (n <=? length (ct_entropy w))%nat
  then (mkControl (ct_incoming w) (ct_written w) (drop n (ct_entropy w)), Ok (take n (ct_entropy w)))
  else (w, Err (PairingFailed EntropyError)).
Definition pairing {A} (r : paired A) : control A := pure (map_err PairingFailed r).

(** [AuthenticatedControl], without its streams. *)
Record AuthenticatedControl := mkAuthenticated {
  ac_role : Role;
  ac_method : BootstrapKind;
  control_key : list byte;
  pake_transcript_hash : list byte;
  peer_public_context : option (list byte);
  my_context_sealed : list byte;
  peer_context_sealed : list byte;
}.
Record RoomPairing (D : Type) := mkRoomPairing {
  rp_peer : D;
  rp_public_context : option (list byte);
  rp_method : BootstrapKind;
  rp_control_key : list byte;
  control_transcript : list byte;
}.
Arguments mkRoomPairing {D}.
Arguments rp_peer {D}.
Arguments rp_public_context {D}.
Arguments rp_method {D}.
Arguments rp_control_key {D}.
Arguments control_transcript {D}.

(** [ContextBundle] and [DescriptorBundle] have one optional field each. *)
Record ContextBundle := mkContextBundle { bundle_context : option (list byte) }.
Record DescriptorBundle (D : Type) := mkDescriptorBundle { bundle_peer : option D }.
Arguments mkDescriptorBundle {D}.
Arguments bundle_peer {D}.

(** [seal] and [seal_json] (bundle.rs) *)
Section Seal.
Context `{PakeLibs}.
Definition seal (k aad plaintext : list byte) : control (list byte) :=
  nonce ← draw BUNDLE_NONCE_LEN;
  ciphertext ← pairing (ok_or DecryptError (aead_encrypt (bundle_key k) nonce aad plaintext));
  mret (nonce ++ ciphertext).
Definition seal_json {A} `{Json A} (k aad : list byte) (value : A) : control (list byte) :=
  json ← pairing (ok_or BadJson (to_json value));
  seal k aad json.
End Seal.

Section Exchange.
Context `{InviteLibs, PakeLibs, Json ContextBundle}.
Context {D : Type} `{Json (DescriptorBundle D)}.

Definition context_aads (role : Role) : list byte * list byte :=
  match role with
  | Initiator => (JOINER_CONTEXT_AAD, CREATOR_CONTEXT_AAD)
  | Responder => (CREATOR_CONTEXT_AAD, JOINER_CONTEXT_AAD)
  end.
Definition descriptor_aads (role : Role) : list byte * list byte :=
  match role with
  | Initiator => (JOINER_DESCRIPTOR_AAD, CREATOR_DESCRIPTOR_AAD)
  | Responder => (CREATOR_DESCRIPTOR_AAD, JOINER_DESCRIPTOR_AAD)
  end.

(** The handshake of [authenticate_invitation]. *)
Definition run_initiator (password : str) (context : InvitationControlContext) (seed : list byte) : control PairedKey :=
  nonce ← draw PAKE_NONCE_LEN;
  let '(pending, start) := initiator_start password context seed nonce in
  _ ← write_message (PakeOpening start);
  response ← read_opening;
  '(confirming, confirm) ← pairing (initiator_finish pending response);
  _ ← write_message (PakeConfirm confirm);
  responder_confirm ← read_confirm;
  pairing (initiator_verify confirming responder_confirm).
Definition run_responder (password : str) (context : InvitationControlContext) (seed : list byte) : control PairedKey :=
  start ← read_opening;
  _ ← pairing (check_start start);
  nonce ← draw PAKE_NONCE_LEN;
  '(confirming, response) ← pairing (responder_respond password context seed nonce start);
  _ ← write_message (PakeOpening response);
  initiator_confirm ← read_confirm;
  '(key, confirm) ← pairing (responder_verify confirming initiator_confirm);
  _ ← write_message (PakeConfirm confirm);
  mret key.
(** Sealing what is ours and opening what the peer sent: what both exchanges do. *)
Definition exchange {A} `{Json A} (key my_aad peer_aad : list byte) (mine : A) : control (list byte * list byte * A) :=
  my_sealed ← seal_json key my_aad mine;
  _ ← write_message (SealedBundle my_sealed);
  peer_sealed ← read_sealed;
  bundle ← pairing (open_json key peer_aad peer_sealed);
  mret (my_sealed, peer_sealed, bundle).

Definition authenticate_invitation (role : Role) (selected : BootstrapKind) (password : str)
    (context : InvitationControlContext) (public_context : option (list byte)) (seed : list byte)
    : control AuthenticatedControl :=
  _ ← throw_if (negb (bool_decide (selected = cc_selected context))) MethodMismatch;
  key ← match role with
        | Initiator => run_initiator password context seed
        | Responder => run_responder password context seed
        end;
  let '(my_aad, peer_aad) := context_aads role in
  '(my_sealed, peer_sealed, bundle) ← exchange (paired_key key) my_aad peer_aad (mkContextBundle public_context);
  mret (mkAuthenticated role selected (paired_key key) (paired_hash key) (bundle_context bundle) my_sealed peer_sealed).

Definition complete_control_transcript_hash (pake_hash : list byte) (role : Role)
    (my_context peer_context my_descriptor peer_descriptor : list byte) : list byte :=
  let '(creator_context, joiner_context, creator_descriptor, joiner_descriptor) :=
    match role with
    | Initiator => (peer_context, my_context, peer_descriptor, my_descriptor)
    | Responder => (my_context, peer_context, my_descriptor, peer_descriptor)
    end in
  sha256 (foldl append_len_prefixed []
    [pake_hash; creator_context; joiner_context; creator_descriptor; joiner_descriptor]).
(** [AuthenticatedControl::exchange_descriptor]; the close that follows is not
    represented. *)
Definition exchange_descriptor (c : AuthenticatedControl) (mine : option D) : control (RoomPairing (option D)) :=
  let '(my_aad, peer_aad) := descriptor_aads (ac_role c) in
  '(my_sealed, peer_sealed, bundle) ← exchange (control_key c) my_aad peer_aad (mkDescriptorBundle mine);
  mret (mkRoomPairing (bundle_peer bundle) (peer_public_context c) (ac_method c) (control_key c)
    (complete_control_transcript_hash (pake_transcript_hash c) (ac_role c) (my_context_sealed c) (peer_context_sealed c)
       my_sealed peer_sealed)).
Definition drive_pairing (role : Role) (selected : BootstrapKind) (password : str)
    (context : InvitationControlContext) (mine : D) (public_context : option (list byte)) (seed : list byte)
    : control (RoomPairing D) :=
  c ← authenticate_invitation role selected password context public_context seed;
  p ← exchange_descriptor c (Some mine);
  match rp_peer p with
  | None => throw DescriptorOmitted
  | Some peer =>
    mret (mkRoomPairing peer (rp_public_context p) (rp_method p) (rp_control_key p) (control_transcript p))
  end.
End Exchange.
