(* ===== verification/PairingProof.v ===== *)
(** What the control handshake promises: two ends with one password and one context
    that hear each other pair with the same key and the same transcript; and a side
    that pairs has confirmed exactly the conversation that the maker of the
    confirmation had, unless HMAC gives two inputs one tag. *)

From stdpp Require Import prelude strings.
From Stdlib Require Import ZArith Lia Strings.Byte.
From S2P Require Import Relay Prelude Bytes BrokerConfig Proc Invite InviteProof Pairing.

Local Open Scope Z_scope.

(** ** One side, message by message *)

Lemma draw_run n i w e : (n <= length e)%nat ->
  draw n (mkControl i w e) = (mkControl i w (drop n e), Ok (take n e)).
Proof. intros Hn. unfold draw. cbn. by rewrite (proj2 (Nat.leb_le _ _) Hn). Qed.
Lemma pairing_run {A} (r : paired A) a w : r = Ok a -> pairing r w = (w, Ok a).
Proof. intros ->. done. Qed.
Lemma pairing_ok {A} (r : paired A) w w' a : pairing r w = (w', Ok a) -> r = Ok a /\ w' = w.
Proof. unfold pairing. intros [Hr ->]%pure_ok. by apply map_err_ok in Hr. Qed.

Section Frames.
Context `{PakeLibs}.

(** A message whose frame both ends take. *)
Definition carried (m : PairingMessage) : Prop :=
  exists body, message_body m = Some body /\ zlen body <= DEFAULT_MAX_FRAME_BODY.

Lemma write_run m i w e : carried m -> write_message m (mkControl i w e) = (mkControl i (w ++ [m]) e, Ok tt).
Proof.
  intros (body & Hb & Hl). unfold write_message. rewrite Hb.
  unfold mbind, proc_bind, pure, throw_if. cbn [ok_or]. by rewrite (proj2 (Z.ltb_ge _ _) Hl).
Qed.
Lemma read_run m i w e : carried m -> read_message (mkControl (m :: i) w e) = (mkControl i w e, Ok m).
Proof.
  intros (body & Hb & Hl). unfold read_message, next_message, mbind, proc_bind. cbn [ct_incoming ct_written ct_entropy].
  rewrite Hb. unfold pure, throw_if. cbn [ok_or]. by rewrite (proj2 (Z.ltb_ge _ _) Hl).
Qed.
Lemma read_opening_run p i w e : carried (PakeOpening p) ->
  read_opening (mkControl (PakeOpening p :: i) w e) = (mkControl i w e, Ok p).
Proof. intros Hm. unfold read_opening. by erewrite proc_bind_eq by (by apply read_run). Qed.
Lemma read_confirm_run mac i w e : carried (PakeConfirm mac) ->
  read_confirm (mkControl (PakeConfirm mac :: i) w e) = (mkControl i w e, Ok mac).
Proof. intros Hm. unfold read_confirm. by erewrite proc_bind_eq by (by apply read_run). Qed.
Lemma read_sealed_run b i w e : carried (SealedBundle b) ->
  read_sealed (mkControl (SealedBundle b :: i) w e) = (mkControl i w e, Ok b).
Proof. intros Hm. unfold read_sealed. by erewrite proc_bind_eq by (by apply read_run). Qed.

(** What a write that is made, and a read that returns, did; a write that is
    refused leaves the stream as it was. *)
Lemma write_cases m w w' r : write_message m w = (w', r) ->
  (r = Ok tt /\ w' = mkControl (ct_incoming w) (ct_written w ++ [m]) (ct_entropy w)) \/
  (w' = w /\ exists e, r = Err e).
Proof.
  unfold write_message, mbind, proc_bind, pure, throw_if. destruct (message_body m) as [body|]; cbn.
  - destruct (_ <? _); intros [= <- <-]; eauto.
  - intros [= <- <-]. eauto.
Qed.
Lemma read_cases m w w' r : read_message w = (w', r) -> r = Ok m ->
  exists rest, ct_incoming w = m :: rest /\ w' = mkControl rest (ct_written w) (ct_entropy w).
Proof.
  unfold read_message, next_message, mbind, proc_bind, pure, throw_if.
  destruct (ct_incoming w) as [|x rest]; [by intros [= <- <-]|]. cbn [ok_or].
  destruct (message_body x) as [body|]; cbn; [|by intros [= <- <-]].
  destruct (_ <? _); intros [= <- <-] Hr; [done|]. injection Hr as ->. eauto.
Qed.
(** Reading writes nothing, whatever comes of it. *)
Lemma read_keeps_written w : ct_written (read_message w).1 = ct_written w.
Proof.
  unfold read_message, next_message, mbind, proc_bind, pure, throw_if.
  destruct (ct_incoming w) as [|x rest]; [done|]. cbn [ok_or].
  destruct (message_body x) as [body|]; cbn; [|done]. by destruct (_ <? _).
Qed.
Lemma read_as_written {A} (f : PairingMessage -> control A) w :
  (forall m w', (f m w').1 = w') -> ct_written ((m ← read_message; f m) w).1 = ct_written w.
Proof.
  intros Hf. pose proof (read_keeps_written w) as Hw. unfold mbind, proc_bind.
  destruct (read_message w) as [w1 [m|]]; cbn in *; [|done]. by rewrite Hf.
Qed.
Lemma read_opening_written w : ct_written (read_opening w).1 = ct_written w.
Proof. apply read_as_written. by intros [] w'. Qed.
Lemma read_confirm_written w : ct_written (read_confirm w).1 = ct_written w.
Proof. apply read_as_written. by intros [] w'. Qed.

Lemma read_opening_ok w w' p : read_opening w = (w', Ok p) ->
  exists rest, ct_incoming w = PakeOpening p :: rest /\ w' = mkControl rest (ct_written w) (ct_entropy w).
Proof.
  unfold read_opening. intros (w1 & [] & Hr & Hm)%bind_ok; try done. injection Hm as <- <-.
  by eapply read_cases.
Qed.
Lemma read_confirm_ok w w' mac : read_confirm w = (w', Ok mac) ->
  exists rest, ct_incoming w = PakeConfirm mac :: rest /\ w' = mkControl rest (ct_written w) (ct_entropy w).
Proof.
  unfold read_confirm. intros (w1 & [] & Hr & Hm)%bind_ok; try done. injection Hm as <- <-.
  by eapply read_cases.
Qed.
End Frames.

Lemma draw_ok n w w' bytes : draw n w = (w', Ok bytes) ->
  length bytes = n /\ ct_incoming w' = ct_incoming w /\ ct_written w' = ct_written w.
Proof.
  unfold draw. destruct (Nat.leb_spec n (length (ct_entropy w))); [|done]. intros [= <- <-].
  cbn. rewrite length_take. split; [lia|done].
Qed.

Ltac next_step := erewrite proc_bind_eq by first
  [ apply write_run; assumption | apply read_opening_run; assumption | apply read_confirm_run; assumption
  | apply read_sealed_run; assumption
  | apply draw_run; assumption | apply pairing_run; eassumption ]; cbv beta iota.

Section Completes.
Context `{InviteLibs, PakeLibs, !PakeLaws, Json ContextBundle, !JsonLaws ContextBundle}.
Context {D : Type} `{Json (DescriptorBundle D), !JsonLaws (DescriptorBundle D)}.

Lemma carried_opening nonce msg : zlen nonce <= 32 -> zlen msg <= 33 -> carried (PakeOpening (mkPake nonce msg)).
Proof.
  intros Hn Hm. destruct (opening_text nonce msg) as (body & Hb & Hl). exists body. split; [done|].
  unfold DEFAULT_MAX_FRAME_BODY. lia.
Qed.
Lemma carried_proof k t label : carried (PakeConfirm (pake_proof k t label)).
Proof.
  destruct (confirm_text (pake_proof k t label)) as (body & Hb & Hl). exists body. split; [done|].
  pose proof (hmac_size k (append_len_prefixed t label)). unfold pake_proof, DEFAULT_MAX_FRAME_BODY in *. lia.
Qed.

(** A bundle that has a JSON text which, sealed, goes into a frame, whatever the
    cipher makes of it: the nonce and the tag are 28 bytes more, and each byte is at
    most four characters of the frame. *)
Definition sealed_fits (json : list byte) : Prop := 4 * (zlen json + 28) + 2 <= DEFAULT_MAX_FRAME_BODY.

(** A bundle that one side seals is opened by the other. *)
Lemma sealed_opens {A} `{Json A} `{!JsonLaws A} key aad (a : A) json e :
  to_json a = Some json -> sealed_fits json -> (BUNDLE_NONCE_LEN <= length e)%nat ->
  exists sealed, carried (SealedBundle sealed) /\
    (forall i w, seal_json key aad a (mkControl i w e) = (mkControl i w (drop BUNDLE_NONCE_LEN e), Ok sealed)) /\
    open_json key aad sealed = Ok a.
Proof.
  intros Hj Hfits He. unfold seal_json, open_json, open, seal.
  assert (Hlen : zlen json <= u32_max) by (unfold sealed_fits, DEFAULT_MAX_FRAME_BODY, u32_max in *; lia).
  assert (Hn : length (take BUNDLE_NONCE_LEN e) = BUNDLE_NONCE_LEN) by (rewrite length_take; lia).
  destruct (aead_seals (bundle_key key) (take BUNDLE_NONCE_LEN e) aad json Hn Hlen) as [ct Hct].
  exists (take BUNDLE_NONCE_LEN e ++ ct).
  assert (Hok : ok_or BadJson (to_json a) = Ok json) by (by rewrite Hj).
  assert (Henc : ok_or DecryptError (aead_encrypt (bundle_key key) (take BUNDLE_NONCE_LEN e) aad json) = Ok ct) by (by rewrite Hct).
  split.
  { destruct (bytes_text (take BUNDLE_NONCE_LEN e ++ ct)) as (body & Hb & Hl). exists body. split; [done|].
    pose proof (aead_size _ _ _ _ _ Hct) as Hsize. unfold sealed_fits in Hfits. unfold zlen in *.
    rewrite length_app, Hn in Hl. unfold BUNDLE_NONCE_LEN in *. lia. }
  split; [intros i w; by repeat next_step|]. rewrite (proj2 (Nat.ltb_ge _ _)) by (rewrite length_app, Hn; lia).
  rewrite take_app_length', drop_app_length' by done. rewrite (aead_open _ _ _ _ _ Hct). cbn.
  by rewrite (json_read_back _ _ Hj).
Qed.

(** One exchange, against a bundle of the peer. *)
Lemma exchange_run {A} `{Json A} key my_aad peer_aad (mine theirs : A) my_sealed peer_sealed i w e e' :
  seal_json key my_aad mine (mkControl (SealedBundle peer_sealed :: i) w e)
    = (mkControl (SealedBundle peer_sealed :: i) w e', Ok my_sealed) ->
  carried (SealedBundle my_sealed) -> carried (SealedBundle peer_sealed) ->
  open_json key peer_aad peer_sealed = Ok theirs ->
  exchange key my_aad peer_aad mine (mkControl (SealedBundle peer_sealed :: i) w e)
    = (mkControl i (w ++ [SealedBundle my_sealed]) e', Ok (my_sealed, peer_sealed, theirs)).
Proof.
  intros Hs Hmy Hpeer Ho. unfold exchange. erewrite proc_bind_eq by exact Hs. next_step. next_step.
  by erewrite proc_bind_eq by (apply pairing_run; exact Ho).
Qed.

(** The two handshakes, against each other. *)
Lemma handshake_runs password context seed_i seed_r ei er :
  (PAKE_NONCE_LEN <= length ei)%nat -> (PAKE_NONCE_LEN <= length er)%nat ->
  exists start response ci cr key,
    (forall i w, run_initiator password context seed_i (mkControl (PakeOpening response :: PakeConfirm cr :: i) w ei)
      = (mkControl i (w ++ [PakeOpening start; PakeConfirm ci]) (drop PAKE_NONCE_LEN ei), Ok key)) /\
    (forall i w, run_responder password context seed_r (mkControl (PakeOpening start :: PakeConfirm ci :: i) w er)
      = (mkControl i (w ++ [PakeOpening response; PakeConfirm cr]) (drop PAKE_NONCE_LEN er), Ok key)).
Proof.
  intros Hei Her. pose proof (spake_agree password INITIATOR_ID RESPONDER_ID seed_i seed_r) as Hspake.
  unfold run_initiator, run_responder, initiator_start, responder_respond.
  destruct (start_a password INITIATOR_ID RESPONDER_ID seed_i) as [a ma] eqn:Ha.
  destruct (start_b password INITIATOR_ID RESPONDER_ID seed_r) as [b mb] eqn:Hb.
  destruct Hspake as (k & Hka & Hkb).
  set (start := mkPake (take PAKE_NONCE_LEN ei) ma). set (response := mkPake (take PAKE_NONCE_LEN er) mb).
  set (t := pake_transcript context start response).
  assert (Hls : length (pake_nonce start) = PAKE_NONCE_LEN) by (subst start response; cbn [pake_nonce]; rewrite length_take; lia).
  assert (Hlr : length (pake_nonce response) = PAKE_NONCE_LEN) by (subst start response; cbn [pake_nonce]; rewrite length_take; lia).
  exists start, response, (pake_proof k t INITIATOR_CONFIRM_LABEL), (pake_proof k t RESPONDER_CONFIRM_LABEL),
    (mkPaired_ k (sha256 t)).
  assert (Hcs : carried (PakeOpening start)).
  { apply carried_opening; [unfold zlen; rewrite length_take; unfold PAKE_NONCE_LEN; lia|].
    pose proof (spake_size_a password INITIATOR_ID RESPONDER_ID seed_i) as Hsize. by rewrite Ha in Hsize. }
  assert (Hcr : carried (PakeOpening response)).
  { apply carried_opening; [unfold zlen; rewrite length_take; unfold PAKE_NONCE_LEN; lia|].
    pose proof (spake_size_b password INITIATOR_ID RESPONDER_ID seed_r) as Hsize. by rewrite Hb in Hsize. }
  pose proof (carried_proof k t INITIATOR_CONFIRM_LABEL) as Hci.
  pose proof (carried_proof k t RESPONDER_CONFIRM_LABEL) as Hcc.
  assert (Hverify : forall label, pake_verify k t label (pake_proof k t label) = Ok tt).
  { intros label. unfold pake_verify, pake_proof. by rewrite bool_decide_eq_true_2. }
  split; intros i w.
  - next_step. cbv zeta. fold start. next_step. next_step.
    assert (Hfin : initiator_finish (mkPending a start context) response
      = Ok (mkConfirming k t, pake_proof k t INITIATOR_CONFIRM_LABEL)).
    { unfold initiator_finish. rewrite Hlr. cbn. by rewrite Hka. }
    next_step. next_step. next_step.
    erewrite pairing_run by (unfold initiator_verify; cbn [conf_key conf_transcript]; by rewrite Hverify).
    by rewrite <- app_assoc.
  - next_step.
    assert (Hcheck : check_start start = Ok tt) by (unfold check_start; by rewrite Hls).
    next_step. next_step.
    assert (Hresp : (key ← ok_or Spake2Error (spake_finish b (pake_msg start));
      Ok (mkConfirming key (pake_transcript context start (mkPake (take PAKE_NONCE_LEN er) mb)),
          mkPake (take PAKE_NONCE_LEN er) mb)) = Ok (mkConfirming k t, response)) by (cbn [pake_msg start]; by rewrite Hkb).
    next_step. next_step. next_step.
    assert (Hver : responder_verify (mkConfirming k t) (pake_proof k t INITIATOR_CONFIRM_LABEL)
      = Ok (mkPaired_ k (sha256 t), pake_proof k t RESPONDER_CONFIRM_LABEL)).
    { unfold responder_verify. cbn [conf_key conf_transcript]. by rewrite Hverify. }
    next_step. next_step. unfold mret, proc_ret. by rewrite <- app_assoc.
Qed.

(** Two ends that agree: one key and one transcript so far, each with what the
    other sealed. *)
Definition ends_agree (ci cr : AuthenticatedControl) : Prop :=
  ac_role ci = Initiator /\ ac_role cr = Responder /\ ac_method ci = ac_method cr /\
  control_key ci = control_key cr /\ pake_transcript_hash ci = pake_transcript_hash cr /\
  my_context_sealed ci = peer_context_sealed cr /\ my_context_sealed cr = peer_context_sealed ci.

Lemma authenticate_runs password context pub_i pub_r ji jr seed_i seed_r ei er :
  to_json (mkContextBundle pub_i) = Some ji -> to_json (mkContextBundle pub_r) = Some jr ->
  sealed_fits ji -> sealed_fits jr ->
  (PAKE_NONCE_LEN + BUNDLE_NONCE_LEN <= length ei)%nat -> (PAKE_NONCE_LEN + BUNDLE_NONCE_LEN <= length er)%nat ->
  exists mi mr ci cr,
    (forall rest w, authenticate_invitation Initiator (cc_selected context) password context pub_i seed_i
       (mkControl (mr ++ rest) w ei) = (mkControl rest (w ++ mi) (drop BUNDLE_NONCE_LEN (drop PAKE_NONCE_LEN ei)), Ok ci)) /\
    (forall rest w, authenticate_invitation Responder (cc_selected context) password context pub_r seed_r
       (mkControl (mi ++ rest) w er) = (mkControl rest (w ++ mr) (drop BUNDLE_NONCE_LEN (drop PAKE_NONCE_LEN er)), Ok cr)) /\
    ends_agree ci cr /\ peer_public_context ci = pub_r /\ peer_public_context cr = pub_i /\
    ac_method ci = cc_selected context.
Proof.
  intros Hji Hjr Hli Hlr Hei Her.
  destruct (handshake_runs password context seed_i seed_r ei er) as (start & response & pi & pr & key & Hi & Hr); [lia..|].
  assert (Hei' : (BUNDLE_NONCE_LEN <= length (drop PAKE_NONCE_LEN ei))%nat) by (rewrite length_drop; lia).
  assert (Her' : (BUNDLE_NONCE_LEN <= length (drop PAKE_NONCE_LEN er))%nat) by (rewrite length_drop; lia).
  destruct (sealed_opens (paired_key key) JOINER_CONTEXT_AAD _ ji _ Hji Hli Hei') as (si & Hfi & Hsi & Hoi).
  destruct (sealed_opens (paired_key key) CREATOR_CONTEXT_AAD _ jr _ Hjr Hlr Her') as (sr & Hfr & Hsr & Hor).
  exists [PakeOpening start; PakeConfirm pi; SealedBundle si], [PakeOpening response; PakeConfirm pr; SealedBundle sr].
  eexists _, _. split_and!.
  - intros rest w. unfold authenticate_invitation. rewrite bool_decide_eq_true_2 by done.
    erewrite proc_bind_eq by reflexivity. cbn [app]. erewrite proc_bind_eq by apply Hi. unfold context_aads.
    erewrite proc_bind_eq by (eapply exchange_run; [apply Hsi|exact Hfi|exact Hfr|exact Hor]). unfold mret, proc_ret. by rewrite <- app_assoc.
  - intros rest w. unfold authenticate_invitation. rewrite bool_decide_eq_true_2 by done.
    erewrite proc_bind_eq by reflexivity. cbn [app]. erewrite proc_bind_eq by apply Hr. unfold context_aads.
    erewrite proc_bind_eq by (eapply exchange_run; [apply Hsr|exact Hfr|exact Hfi|exact Hoi]). unfold mret, proc_ret. by rewrite <- app_assoc.
  - done.
  - done.
  - done.
  - done.
Qed.

Lemma descriptors_run ci cr di dr ji jr ei er :
  ends_agree ci cr ->
  to_json (mkDescriptorBundle di) = Some ji -> to_json (mkDescriptorBundle dr) = Some jr ->
  sealed_fits ji -> sealed_fits jr ->
  (BUNDLE_NONCE_LEN <= length ei)%nat -> (BUNDLE_NONCE_LEN <= length er)%nat ->
  exists si sr pi pr,
    (forall rest w, exchange_descriptor ci di (mkControl (SealedBundle sr :: rest) w ei)
      = (mkControl rest (w ++ [SealedBundle si]) (drop BUNDLE_NONCE_LEN ei), Ok pi)) /\
    (forall rest w, exchange_descriptor cr dr (mkControl (SealedBundle si :: rest) w er)
      = (mkControl rest (w ++ [SealedBundle sr]) (drop BUNDLE_NONCE_LEN er), Ok pr)) /\
    rp_peer pi = dr /\ rp_peer pr = di /\
    rp_public_context pi = peer_public_context ci /\ rp_public_context pr = peer_public_context cr /\
    rp_method pi = ac_method ci /\ rp_method pr = ac_method cr /\
    rp_control_key pi = rp_control_key pr /\ control_transcript pi = control_transcript pr.
Proof.
  intros (Hri & Hrr & Hm & Hk & Hh & Hc1 & Hc2) Hji Hjr Hli Hlr Hei Her.
  destruct (sealed_opens (control_key ci) JOINER_DESCRIPTOR_AAD _ ji ei Hji Hli Hei) as (si & Hfi & Hsi & Hoi).
  destruct (sealed_opens (control_key ci) CREATOR_DESCRIPTOR_AAD _ jr er Hjr Hlr Her) as (sr & Hfr & Hsr & Hor).
  exists si, sr. eexists _, _. split_and!.
  - intros rest w. unfold exchange_descriptor. rewrite Hri. unfold descriptor_aads.
    by erewrite proc_bind_eq by (eapply exchange_run; [apply Hsi|exact Hfi|exact Hfr|exact Hor]).
  - intros rest w. unfold exchange_descriptor. rewrite Hrr, <- Hk. unfold descriptor_aads.
    by erewrite proc_bind_eq by (eapply exchange_run; [apply Hsr|exact Hfr|exact Hfi|exact Hoi]).
  - done.
  - done.
  - done.
  - done.
  - done.
  - done.
  - done.
  - cbn. by rewrite Hh, Hc1, Hc2.
Qed.
End Completes.

(** ** What a confirmation confirms *)

Section Confirms.
Context `{InviteLibs, PakeLibs}.

(** These two messages are different and have one tag. *)
Definition tag_clash (k m k' m' : list byte) : Prop := m <> m' /\ hmac k m = hmac k' m'.
Lemma tag_cases k m k' m' : hmac k m = hmac k' m' -> m = m' \/ tag_clash k m k' m'.
Proof. intros Heq. unfold tag_clash. destruct (decide (m = m')); auto. Qed.

(** What a confirmation is the tag of. *)
Definition confirmed (context : InvitationControlContext) (start response : PakeMessage) (label : list byte) : list byte :=
  append_len_prefixed (pake_transcript context start response) label.

Definition sized (m : PakeMessage) : Prop := zlen (pake_nonce m) <= u64_max /\ zlen (pake_msg m) <= u64_max.
Definition room_sized (c : InvitationControlContext) : Prop :=
  zlen (control_framed_binding c) <= u64_max /\ zlen (cc_room_id c) <= u64_max.

Lemma proof_parts context start response label :
  append_len_prefixed (pake_transcript context start response) label
  = foldl append_len_prefixed [] ([PAKE_DOMAIN; INITIATOR_ID; RESPONDER_ID; control_framed_binding context; pake_nonce start;
     pake_nonce response; pake_msg start; pake_msg response] ++ [label]).
Proof. by rewrite foldl_app. Qed.

(** The same proof is about the same context, messages and role. *)
Lemma proof_inj context context' start start' response response' label label' :
  room_sized context -> room_sized context' -> sized start -> sized start' -> sized response -> sized response' ->
  zlen label <= u64_max -> zlen label' <= u64_max ->
  append_len_prefixed (pake_transcript context start response) label
  = append_len_prefixed (pake_transcript context' start' response') label' ->
  context = context' /\ start = start' /\ response = response' /\ label = label'.
Proof.
  intros [Hc Hr] [Hc' Hr'] [] [] [] [] Hl Hl'. rewrite !proof_parts. intros Heq.
  remember (control_framed_binding context) as b eqn:Eb. remember (control_framed_binding context') as b' eqn:Eb'.
  apply framed_inj in Heq.
  - cbn [app] in Heq. injection Heq as Hb Hn1 Hn2 Hm1 Hm2 Hlab. destruct start, start', response, response'. cbn in *.
    subst b b'. apply control_binding_inj in Hb; [|done..]. by subst.
  - by repeat constructor.
  - by repeat constructor.
  - done.
Qed.

Lemma verify_ok key transcript label received :
  pake_verify key transcript label received = Ok tt <-> received = pake_proof key transcript label.
Proof. unfold pake_verify. rewrite ensure_ok, bool_decide_eq_true. done. Qed.

(** The keys that the two ends take from SPAKE2, given the peer's opening. *)
Definition responder_shared (password : str) (seed : list byte) (start : PakeMessage) : option (list byte) :=
  spake_finish (start_b password INITIATOR_ID RESPONDER_ID seed).1 (pake_msg start).
Definition initiator_shared (password : str) (seed : list byte) (response : PakeMessage) : option (list byte) :=
  spake_finish (start_a password INITIATOR_ID RESPONDER_ID seed).1 (pake_msg response).

Lemma no_more {A} (l : list A) x out : l = l ++ x :: out -> False.
Proof. intros Hl%(f_equal length). rewrite length_app in Hl. cbn in Hl. lia. Qed.
Lemma only_one {A} (l : list A) x y out : l ++ [x] = l ++ y :: out -> x = y /\ out = [].
Proof. by intros [= -> <-]%app_inv_head. Qed.
Lemma pairing_same {A} (r : paired A) w w' x : pairing r w = (w', x) -> w' = w.
Proof. by intros [= <- _]. Qed.
Lemma draw_written n w w' x : draw n w = (w', x) ->
  ct_incoming w' = ct_incoming w /\ ct_written w' = ct_written w.
Proof. unfold draw. destruct (_ <=? _)%nat; by intros [= <- _]. Qed.

(** What a run of the responder that has answered an opening has found out, however
    it ends: a confirmation that it wrote is that of its conversation, and it accepts
    no other one. *)
Lemma responder_said password context seed w w' r start rest response out :
  run_responder password context seed w = (w', r) ->
  ct_incoming w = PakeOpening start :: rest ->
  ct_written w' = ct_written w ++ PakeOpening response :: out ->
  exists k, responder_shared password seed start = Some k /\
    let t := pake_transcript context start response in
    (forall mac, PakeConfirm mac ∈ out -> mac = pake_proof k t RESPONDER_CONFIRM_LABEL) /\
    (forall key mac, r = Ok key -> head rest = Some (PakeConfirm mac) ->
       mac = pake_proof k t INITIATOR_CONFIRM_LABEL /\ paired_hash key = sha256 t).
Proof.
  unfold run_responder. intros Hrun Hin Hout.
  apply bind_run in Hrun as [(e & Hr & ->)|(w1 & start0 & Hr & Hrun)].
  { pose proof (read_opening_written w) as Hw. rewrite Hr in Hw. cbn in Hw. rewrite Hw in Hout.
    by apply no_more in Hout. }
  apply read_opening_ok in Hr as (rest0 & Hin0 & ->). rewrite Hin in Hin0. injection Hin0 as <- <-.
  apply bind_run in Hrun as [(e & ->%pairing_same & ->)|(w2 & [] & ->%pairing_same & Hrun)];
    [by apply no_more in Hout|].
  apply bind_run in Hrun as [(e & [_ Hw]%draw_written & ->)|(w3 & nonce & [Hi3 Hw3]%draw_written & Hrun)];
    [rewrite Hw in Hout; by apply no_more in Hout|]. cbn [ct_incoming ct_written] in *.
  apply bind_run in Hrun as [(e & ->%pairing_same & ->)|(w4 & [conf response0] & [Hresp ->]%pairing_ok & Hrun)];
    [rewrite Hw3 in Hout; by apply no_more in Hout|].
  unfold responder_respond in Hresp. unfold responder_shared.
  destruct (start_b password INITIATOR_ID RESPONDER_ID seed) as [spake msg]. cbn [fst].
  destruct (spake_finish spake (pake_msg start)) as [k|] eqn:Hk; [|done]. cbn -[pake_transcript] in Hresp.
  injection Hresp as <- <-. exists k. split; [done|]. cbv zeta.
  apply bind_run in Hrun as [(e & Hwr & ->)|(w5 & [] & Hwr & Hrun)];
    apply write_cases in Hwr as [[He ->]|[-> [e' He]]]; try discriminate He;
    [rewrite Hw3 in Hout; by apply no_more in Hout|].
  rewrite Hi3, Hw3 in Hrun. clear Hi3.
  apply bind_run in Hrun as [(e & Hr & ->)|(w6 & mac & Hr & Hrun)].
  { pose proof (read_confirm_written (mkControl rest (ct_written w ++ [PakeOpening (mkPake nonce msg)]) (ct_entropy w3))) as Hw.
    rewrite Hr in Hw. cbn in Hw. rewrite Hw in Hout. apply only_one in Hout as [[= <-] ->].
    split; [by intros mac ?%elem_of_nil|done]. }
  apply read_confirm_ok in Hr as (rest6 & Hin6 & ->). cbn [ct_incoming ct_written ct_entropy] in *. subst rest.
  apply bind_run in Hrun as [(e & ->%pairing_same & ->)|(w7 & [pk confirm] & [Hver ->]%pairing_ok & Hrun)].
  { apply only_one in Hout as [[= <-] ->]. split; [by intros ? ?%elem_of_nil|done]. }
  unfold responder_verify in Hver. cbn [conf_key conf_transcript] in Hver. inv_ok. simplify_eq.
  match goal with H : pake_verify _ _ _ _ = Ok _ |- _ => apply verify_ok in H end.
  assert (Hdone : response = mkPake nonce msg /\
    (out = [] \/ out = [PakeConfirm (pake_proof k (pake_transcript context start (mkPake nonce msg)) RESPONDER_CONFIRM_LABEL)]) /\
    (forall key, r = Ok key -> paired_hash key = sha256 (pake_transcript context start (mkPake nonce msg)))).
  { apply bind_run in Hrun as [(e & Hwr & ->)|(w8 & [] & Hwr & Hrun)];
      apply write_cases in Hwr as [[He ->]|[-> [e' He]]]; try discriminate He; cbn [ct_written] in *.
    - apply only_one in Hout as [[= <-] ->]. split_and!; [done|by left|done].
    - injection Hrun as <- <-. cbn [ct_written] in Hout. rewrite <- app_assoc in Hout.
      apply app_inv_head in Hout. injection Hout as <- <-. split_and!; [done|by right|]. by intros key [= <-]. }
  destruct Hdone as (-> & Hmac & Hkey). split.
  - intros mac' Hm. destruct Hmac as [->| ->]; [by apply elem_of_nil in Hm|].
    apply list_elem_of_singleton in Hm. by injection Hm.
  - intros key mac' Hr Hh. cbn in Hh. injection Hh as <-. split; [done|by apply Hkey].
Qed.

(** The same of the initiator. *)
Lemma initiator_said password context seed w w' r response rest start out :
  run_initiator password context seed w = (w', r) ->
  ct_incoming w = PakeOpening response :: rest ->
  ct_written w' = ct_written w ++ PakeOpening start :: out ->
  let t := pake_transcript context start response in
  (forall mac, PakeConfirm mac ∈ out -> exists k, initiator_shared password seed response = Some k /\
     mac = pake_proof k t INITIATOR_CONFIRM_LABEL) /\
  (forall key mac, r = Ok key -> head rest = Some (PakeConfirm mac) ->
     exists k, initiator_shared password seed response = Some k /\
       mac = pake_proof k t RESPONDER_CONFIRM_LABEL /\ paired_hash key = sha256 t).
Proof.
  unfold run_initiator. intros Hrun Hin Hout.
  apply bind_run in Hrun as [(e & [_ Hw]%draw_written & ->)|(w1 & nonce & [Hi1 Hw1]%draw_written & Hrun)];
    [rewrite Hw in Hout; by apply no_more in Hout|].
  unfold initiator_start in Hrun. unfold initiator_shared.
  destruct (start_a password INITIATOR_ID RESPONDER_ID seed) as [spake msg]. cbv zeta in Hrun. cbn [fst].
  apply bind_run in Hrun as [(e & Hwr & ->)|(w2 & [] & Hwr & Hrun)];
    apply write_cases in Hwr as [[He ->]|[-> [e' He]]]; try discriminate He;
    [rewrite Hw1 in Hout; by apply no_more in Hout|].
  rewrite Hi1, Hw1 in Hrun.
  assert (Hnone : forall out', ct_written w' = ct_written w ++ [PakeOpening (mkPake nonce msg)] ++ out' ->
    start = mkPake nonce msg /\ out = out').
  { intros out' Hw'. rewrite Hw' in Hout. by apply app_inv_head in Hout as [= <- <-]. }
  assert (Hempty : ct_written w' = ct_written w ++ [PakeOpening (mkPake nonce msg)] -> start = mkPake nonce msg /\ out = [])
    by exact (Hnone []). clear Hout.
  apply bind_run in Hrun as [(e & Hr & ->)|(w3 & response0 & Hr & Hrun)].
  { pose proof (read_opening_written (mkControl (ct_incoming w) (ct_written w ++ [PakeOpening (mkPake nonce msg)]) (ct_entropy w1))) as Hw.
    rewrite Hr in Hw. destruct (Hempty Hw) as [_ ->]. split; [by intros ? ?%elem_of_nil|done]. }
  apply read_opening_ok in Hr as (rest0 & Hin0 & ->). cbn [ct_incoming ct_written ct_entropy] in *.
  rewrite Hin in Hin0. injection Hin0 as <- <-.
  apply bind_run in Hrun as [(e & ->%pairing_same & ->)|(w4 & [conf confirm] & [Hfin ->]%pairing_ok & Hrun)].
  { destruct (Hempty eq_refl) as [_ ->]. split; [by intros ? ?%elem_of_nil|done]. }
  unfold initiator_finish in Hfin. cbn [ip_spake ip_context ip_start] in Hfin.
  destruct (negb _); [done|]. destruct (spake_finish spake (pake_msg response)) as [k|] eqn:Hk; [|done]. cbn -[pake_transcript pake_proof] in Hfin.
  injection Hfin as <- <-.
  set (t := pake_transcript context (mkPake nonce msg) response) in *.
  assert (Hsaid : forall out', (out' = [] \/ out' = [PakeConfirm (pake_proof k t INITIATOR_CONFIRM_LABEL)]) ->
    ct_written w' = ct_written w ++ [PakeOpening (mkPake nonce msg)] ++ out' ->
    start = mkPake nonce msg /\ forall mac, PakeConfirm mac ∈ out -> exists k0, Some k = Some k0 /\
      mac = pake_proof k0 (pake_transcript context start response) INITIATOR_CONFIRM_LABEL).
  { intros out' Hcases Hw'. destruct (Hnone _ Hw') as [-> ->]. split; [done|]. intros mac Hm. exists k. split; [done|].
    destruct Hcases as [->| ->]; [by apply elem_of_nil in Hm|].
    apply list_elem_of_singleton in Hm. by injection Hm. }
  apply bind_run in Hrun as [(e & Hwr & ->)|(w5 & [] & Hwr & Hrun)];
    apply write_cases in Hwr as [[Hf ->]|[-> [e2 Hf]]]; try discriminate Hf; cbn [ct_incoming ct_written ct_entropy] in *.
  { split; [by apply (Hsaid [] (or_introl eq_refl) eq_refl)|done]. }
  rewrite <- app_assoc in Hrun. specialize (Hsaid _ (or_intror eq_refl)).
  apply bind_run in Hrun as [(e & Hr & ->)|(w6 & mac & Hr & Hrun)].
  { match type of Hr with read_confirm ?v = _ => pose proof (read_confirm_written v) as Hw end.
    rewrite Hr in Hw. split; [by apply Hsaid|done]. }
  apply read_confirm_ok in Hr as (rest6 & Hin6 & ->). cbn [ct_incoming ct_written ct_entropy] in *. subst rest.
  pose proof (pairing_same _ _ _ _ Hrun) as ->. destruct (Hsaid eq_refl) as [-> Hconfirm].
  split; [done|]. intros key mac' -> Hh. cbn in Hh. injection Hh as <-. exists k. split; [done|]. apply pairing_ok in Hrun as [Hver _].
  unfold initiator_verify in Hver. cbn [conf_key conf_transcript] in Hver. inv_ok. simplify_eq.
  match goal with H : pake_verify _ _ _ _ = Ok _ |- _ => by apply verify_ok in H end.
Qed.

(** C17. Pairing is authenticated in both directions: when a side accepts a
    confirmation that a peer wrote in a run of its own, whichever password, context
    and messages that peer had, whatever the broker did in between and however the
    run of that peer went on and ended, the peer was in the same context and both saw
    the very same opening messages, and the transcript hash of the side that accepts
    is that of the peer's conversation; otherwise the two conversations, which are
    then different, have the same HMAC tag under the keys that the two ends took from
    SPAKE2. *)
Theorem pairing_authenticated password context seed w w' r start rest response out
    password' context' seed' v v' r' response' rest' start' out' :
  run_responder password context seed w = (w', r) ->
  ct_incoming w = PakeOpening start :: rest -> ct_written w' = ct_written w ++ PakeOpening response :: out ->
  run_initiator password' context' seed' v = (v', r') ->
  ct_incoming v = PakeOpening response' :: rest' -> ct_written v' = ct_written v ++ PakeOpening start' :: out' ->
  room_sized context -> room_sized context' -> Forall sized [start; response; start'; response'] ->
  let agreed label key t' :=
    (context = context' /\ start = start' /\ response = response' /\ paired_hash key = sha256 t') \/
    exists k k', responder_shared password seed start = Some k /\ initiator_shared password' seed' response' = Some k' /\
      tag_clash k (confirmed context start response label) k' (confirmed context' start' response' label) in
  (forall key mac, r = Ok key -> head rest = Some (PakeConfirm mac) -> PakeConfirm mac ∈ out' ->
     agreed INITIATOR_CONFIRM_LABEL key (pake_transcript context' start' response')) /\
  (forall key mac, r' = Ok key -> head rest' = Some (PakeConfirm mac) -> PakeConfirm mac ∈ out ->
     agreed RESPONDER_CONFIRM_LABEL key (pake_transcript context start response)).
Proof.
  intros Hr Hin Hout Hi Hin' Hout' Hc Hc' Hs agreed.
  destruct (responder_said _ _ _ _ _ _ _ _ _ _ Hr Hin Hout) as (k & Hk & Hwrote & Htook).
  destruct (initiator_said _ _ _ _ _ _ _ _ _ _ Hi Hin' Hout') as [Hwrote' Htook'].
  rewrite !Forall_cons in Hs. destruct Hs as (? & ? & ? & ? & _).
  assert (Hcase : forall label k', zlen label <= u64_max -> initiator_shared password' seed' response' = Some k' ->
    pake_proof k (pake_transcript context start response) label
      = pake_proof k' (pake_transcript context' start' response') label ->
    (context = context' /\ start = start' /\ response = response') \/
    exists k k', responder_shared password seed start = Some k /\ initiator_shared password' seed' response' = Some k' /\
      tag_clash k (confirmed context start response label) k' (confirmed context' start' response' label)).
  { intros label k' Hl Hk' Htag. apply tag_cases in Htag as [Hp|Hp]; [left|right; by exists k, k'].
    by apply proof_inj in Hp as (-> & -> & -> & _). }
  split; intros key mac Hok Hhead Hmem; unfold agreed.
  - destruct (Htook _ _ Hok Hhead) as [Hmac Hhash]. destruct (Hwrote' _ Hmem) as (k' & Hk' & Hmac').
    destruct (Hcase INITIATOR_CONFIRM_LABEL k') as [(-> & -> & ->)|]; [done|done|congruence|by left|by right].
  - destruct (Htook' _ _ Hok Hhead) as (k' & Hk' & Hmac & Hhash). specialize (Hwrote _ Hmem).
    destruct (Hcase RESPONDER_CONFIRM_LABEL k') as [(-> & -> & ->)|]; [done|done|congruence|by left|by right].
Qed.
End Confirms.
