(* ===== verification/Auth.v ===== *)
(** Data-plane authentication (crates/envoix-auth/src/lib.rs): remembered
    credentials, the configuration of a pairing, and the SPAKE2 exchange over the
    live connection with its confirmation bound to the TLS exporter and to the
    invitation.  A side is a program over the frames it has still to read, those it
    has sent, its entropy and the exporter of its connection. *)

From stdpp Require Import prelude strings.
From Stdlib Require Import ZArith Lia Strings.Byte.
From S2P Require Import Prelude Bytes Text BrokerConfig CoreError AuthFrame Proc Invite Pairing.

Local Open Scope Z_scope.

Definition PROTOCOL_VERSION : Z := 1.
Definition MIN_SHARED_TOKEN_LEN : Z := 12.
Definition is_valid_shared_token (token : str) : bool := is_ascii token && (MIN_SHARED_TOKEN_LEN <=? zlen token).

Definition SPAKE2_DOMAIN : list byte := lit "envoix-auth-spake2-v1".
Definition INVITE_V2_SPAKE2_DOMAIN : list byte := lit "envoix-auth-invite-v2".
Definition REMEMBERED_V1_SPAKE2_DOMAIN : list byte := lit "envoix-auth-remembered-v1".
Definition NONCE_LEN : nat := 32.
Definition SENDER_IDENTITY : list byte := lit "envoix sender".
Definition RECEIVER_IDENTITY : list byte := lit "envoix receiver".
Definition EXPORTER_CONTEXT : list byte := lit "pairing".
Definition SENDER_CONFIRM_LABEL : list byte := lit "sender-confirm".
Definition RECEIVER_CONFIRM_LABEL : list byte := lit "receiver-confirm".
Definition REMEMBER_COMBINE_DOMAIN : list byte := lit "envoix invite v2 remember combine".
Definition REMEMBERED_CREDENTIAL_MAGIC : list byte := lit "ENVR".
Definition REMEMBERED_CREDENTIAL_VERSION : byte := x01.
Definition REMEMBERED_CREDENTIAL_LEN : nat := 4 + 1 + 32.
Definition REMEMBERED_ROOM_ID_LABEL : list byte := lit "envoix room id".
Definition REMEMBERED_ROOM_AUTH_LABEL : list byte := lit "envoix room auth".
Definition REMEMBERED_PRESENCE_TAG_LABEL : list byte := lit "envoix presence tag".
Definition REMEMBERED_DATA_AUTH_LABEL : list byte := lit "envoix remembered data auth".
Definition REMEMBERED_CONTROL_PAIRING_LABEL : list byte := lit "envoix verified device from room control".
Definition REMEMBERED_PRESENCE_TAG_PREFIX : str := lit "p1_".

(** ** Remembered credentials *)

(** The 32 bytes of a [RememberedCredential], and of a [RememberSecret]. *)
Definition RememberedCredential : Type := list byte.

Record RememberedSession := mkRemembered {
  rs_generation : Z;
  rs_room_id : str;
  room_auth : list byte;
}.
Record RememberedAuthContext := mkRememberedAuth {
  ra_generation : Z;
  ra_room_id : str;
  ra_broker : str;
  ra_transcript_hash : list byte;
}.

Definition credential_to_opaque (secret : RememberedCredential) : list byte :=
  REMEMBERED_CREDENTIAL_MAGIC ++ [REMEMBERED_CREDENTIAL_VERSION] ++ secret.
Definition credential_from_opaque (bytes : list byte) : session RememberedCredential :=
  if negb (Nat.eqb (length bytes) REMEMBERED_CREDENTIAL_LEN)
     || negb (bool_decide (take 4 bytes = REMEMBERED_CREDENTIAL_MAGIC))
  then Err (StorageError "remembered credential is corrupt or unsupported")
  else if negb (bool_decide (bytes !! 4%nat = Some REMEMBERED_CREDENTIAL_VERSION))
  then Err (StorageError "remembered credential version is unsupported")
  else Ok (drop 5 bytes).

(** [RememberedAuthContext::framed_binding] *)
Definition remembered_framed_binding (c : RememberedAuthContext) : list byte :=
  let output := append_len_prefixed [] (lit "remembered-peer-v1") in
  let output := output ++ be_bytes 8 (ra_generation c) in
  foldl append_len_prefixed output
    [ra_room_id c; ra_broker c; lit "receiver-responder"; lit "sender-initiator"; ra_transcript_hash c].

(** ** Configuration *)

Inductive PairingConfig :=
| Spake2SharedToken (token : str)
| InvitationV2 (password : str) (context : InvitationAuthContext)
| RememberedV1 (password : str) (context : RememberedAuthContext).

Definition config_valid (c : PairingConfig) : session unit :=
  match c with
  | Spake2SharedToken token =>
    ensure (is_valid_shared_token token) (InvalidInput "SPAKE2 shared token must be at least 12 ASCII bytes")
  | InvitationV2 password context =>
    ensure (is_valid_shared_token password
            && bool_decide (complement (ac_creator_role context) = ac_joiner_role context))
      (InvalidInput "invalid InviteV2 authentication context")
  | RememberedV1 password context =>
    ensure (is_valid_shared_token password && bool_decide (is_Some (strip_prefix (lit "r1_") (ra_room_id context)))
            && negb (bool_decide (ra_broker context = [])))
      (InvalidInput "invalid remembered-device authentication context")
  end.
(** [spake2_shared_token], [invitation_v2] and [remembered_v1] *)
Definition checked_config (c : PairingConfig) : session PairingConfig := _ ← config_valid c; Ok c.
Definition invitation_v2 (password : str) (context : InvitationAuthContext) : session PairingConfig :=
  checked_config (InvitationV2 password context).
Definition remembered_v1 (password : str) (context : RememberedAuthContext) : session PairingConfig :=
  checked_config (RememberedV1 password context).

Definition is_invitation (c : PairingConfig) : bool := match c with InvitationV2 _ _ => true | _ => false end.
Definition validate_data_role (c : PairingConfig) (local_role : TransferRole) : session unit :=
  match c with
  | InvitationV2 _ context =>
    if negb (bool_decide (ac_creator_role context = local_role)) && negb (bool_decide (ac_joiner_role context = local_role))
    then Err (InvalidInput "InviteV2 authentication role conflict") else Ok tt
  | _ => Ok tt
  end.

Record AuthProfile := mkProfile {
  profile_password : str;
  profile_domain : list byte;
  exporter_context : list byte;
  invitation_binding : list byte;
}.
Definition auth_profile (c : PairingConfig) : AuthProfile :=
  match c with
  | Spake2SharedToken token => mkProfile token SPAKE2_DOMAIN EXPORTER_CONTEXT []
  | InvitationV2 password context =>
    let binding := auth_framed_binding context in mkProfile password INVITE_V2_SPAKE2_DOMAIN binding binding
  | RememberedV1 password context =>
    let binding := remembered_framed_binding context in mkProfile password REMEMBERED_V1_SPAKE2_DOMAIN binding binding
  end.

(** HKDF and HMAC-SHA256 give 32 bytes, of which URL-safe base64 without padding
    makes 43 characters. *)
Definition url_safe (b : byte) : bool := is_ascii_alphanumeric b || (byte_val b =? 45) || (byte_val b =? 95).
Class EncodingLaws `{InviteLibs, PakeLibs} : Prop := {
  hkdf_length : forall salt ikm info, length (hkdf salt ikm info) = 32%nat;
  hmac_length : forall key message, length (hmac key message) = 32%nat;
  b64_length : forall x, length x = 32%nat -> length (b64_encode x) = 43%nat;
  b64_url_safe : forall x, forallb url_safe (b64_encode x) = true;
}.

Section Derivations.
Context `{InviteLibs, PakeLibs}.

Definition derive_remembered_value (secret : list byte) (generation : Z) (label extra : list byte) : list byte :=
  hmac secret (append_len_prefixed (append_len_prefixed [] label ++ be_bytes 8 generation) extra).
(** [RememberedCredential::from_control_pairing], [derive_session] and
    [derive_presence_tag] *)
Definition credential_from_pairing (control_key transcript : list byte) : RememberedCredential :=
  hmac control_key (foldl append_len_prefixed [] [REMEMBERED_CONTROL_PAIRING_LABEL; transcript]).
Definition derive_session (secret : RememberedCredential) (generation : Z) : RememberedSession :=
  mkRemembered generation
    (lit "r1_" ++ b64_encode (derive_remembered_value secret generation REMEMBERED_ROOM_ID_LABEL []))
    (derive_remembered_value secret generation REMEMBERED_ROOM_AUTH_LABEL []).
Definition derive_presence_tag (secret : RememberedCredential) (generation : Z) : str :=
  REMEMBERED_PRESENCE_TAG_PREFIX ++ b64_encode (derive_remembered_value secret generation REMEMBERED_PRESENCE_TAG_LABEL []).

(** [RememberedSession::control_context], [control_password] and [finish_pairing] *)
Definition remembered_control_context (s : RememberedSession) : session InvitationControlContext :=
  map_err (fun _ => InvalidInput "invitation") (control_context_remembered (rs_room_id s)).
Definition remembered_password (s : RememberedSession) : str := b64_encode (room_auth s).
Definition finish_pairing (s : RememberedSession) (broker : str) (control_key transcript_hash : list byte)
    : session PairingConfig :=
  let context := mkRememberedAuth (rs_generation s) (rs_room_id s) broker transcript_hash in
  let extra := foldl append_len_prefixed [] [control_key; transcript_hash; remembered_framed_binding context] in
  remembered_v1 (b64_encode (derive_remembered_value (room_auth s) (rs_generation s) REMEMBERED_DATA_AUTH_LABEL extra))
    context.
End Derivations.

(** ** Authentication *)

Record ConfirmationTranscript := mkTranscript {
  sender_nonce : list byte;
  receiver_nonce : list byte;
  sender_message : list byte;
  receiver_message : list byte;
  tr_exporter : list byte;
  tr_domain : list byte;
  tr_binding : list byte;
  sender_consent : bool;
  receiver_consent : bool;
}.

(** [validate_nonce], [validate_start] and [validate_remember_contribution] *)
Definition validate_nonce (nonce : list byte) : session unit :=
  ensure (Nat.eqb (length nonce) NONCE_LEN) (Protocol "SPAKE2 nonce must be 32 bytes").
Definition validate_start (s : Spake2Start) : session unit :=
  if negb (protocol_version s =? PROTOCOL_VERSION) then Err (Protocol "unsupported auth protocol version")
  else if negb (bool_decide (role s = Sender)) then Err (Protocol "expected sender SPAKE2 role")
  else validate_nonce (st_nonce s).
Definition validate_remember_contribution (expected : bool) (value : option (list byte)) : session (option (list byte)) :=
  match expected, value with
  | false, None => Ok None
  | true, Some v =>
    if Nat.eqb (length v) NONCE_LEN then Ok (Some v)
    else Err (Protocol "invalid Remember contribution in authentication confirmation")
  | _, _ => Err (Protocol "invalid Remember contribution in authentication confirmation")
  end.

(** A side of the exchange. *)
Record AuthWorld := mkAuthWorld {
  aw_incoming : list AuthFrame;
  aw_sent : list AuthFrame;
  aw_entropy : list byte;
  export_keying_material : list byte -> list byte -> session (list byte);
}.
Abbreviation auth A := (proc AuthWorld CoreError A).

Definition send_frame (f : AuthFrame) : auth unit := fun w =>
  (mkAuthWorld (aw_incoming w) (aw_sent w ++ [f]) (aw_entropy w) (export_keying_material w), Ok tt).
Definition recv_frame : auth AuthFrame := fun w =>
  match aw_incoming w with
  | [] => (w, Err CoreIo)
  | f :: rest => (mkAuthWorld rest (aw_sent w) (aw_entropy w) (export_keying_material w), Ok f)
  end.
Definition random_nonce : auth (list byte) := fun w =>
  if (NONCE_LEN <=? length (aw_entropy w))%nat
  then (mkAuthWorld (aw_incoming w) (aw_sent w) (drop NONCE_LEN (aw_entropy w)) (export_keying_material w),
        Ok (take NONCE_LEN (aw_entropy w)))
  else (w, Err (Crypto "entropy")).
Definition exporter_of (domain context : list byte) : auth (list byte) := fun w =>
  (w, export_keying_material w domain context).

Definition expect_spake2_start (f : AuthFrame) : session Spake2Start :=
  match f with AuthStart s => Ok s | _ => Err (Protocol "expected SPAKE2 start") end.
Definition expect_spake2_message (f : AuthFrame) : session Spake2Message :=
  match f with AuthMessage m => Ok m | _ => Err (Protocol "expected SPAKE2 message") end.
Definition expect_spake2_confirm (f : AuthFrame) : session Spake2Confirm :=
  match f with AuthConfirm c => Ok c | _ => Err (Protocol "expected SPAKE2 confirmation") end.
(** [mutual_remember.then(random_nonce).transpose()?] *)
Definition contribution (mutual : bool) : auth (option (list byte)) :=
  if mutual then n ← random_nonce; mret (Some n) else mret None.

Section Exchange.
Context `{InviteLibs, PakeLibs}.

(** [update_confirmation_mac] and [update_optional_contribution]: what goes into
    the MAC. *)
Definition confirmation_input (t : ConfirmationTranscript) (label : list byte)
    (sender_contribution receiver_contribution : option (list byte)) : list byte :=
  let input := append_len_prefixed [] (tr_domain t) ++ be_bytes 4 PROTOCOL_VERSION in
  let input := foldl append_len_prefixed input
    [SENDER_IDENTITY; RECEIVER_IDENTITY; sender_nonce t; receiver_nonce t; sender_message t; receiver_message t;
     tr_exporter t; tr_binding t] in
  let input := input ++ write_bool (sender_consent t) ++ write_bool (receiver_consent t) in
  foldl append_len_prefixed input [label; default [] sender_contribution; default [] receiver_contribution].
Definition confirmation_proof (key : list byte) (t : ConfirmationTranscript) (label : list byte)
    (sender_contribution receiver_contribution : option (list byte)) : list byte :=
  hmac key (confirmation_input t label sender_contribution receiver_contribution).
Definition verify_confirmation (key : list byte) (t : ConfirmationTranscript) (label received : list byte)
    (sender_contribution receiver_contribution : option (list byte)) : session unit :=
  ensure (bool_decide (received = confirmation_proof key t label sender_contribution receiver_contribution))
    (Crypto "SPAKE2 confirmation proof mismatch").
Definition finish_spake2 (state : Spake2) (peer_message : list byte) : session (list byte) :=
  ok_or (Crypto "SPAKE2 failed") (spake_finish state peer_message).
(** [None] also where [expect] would panic, which the callers exclude. *)
Definition combine_remember (mutual : bool) (sender receiver : option (list byte)) (binding : list byte)
    : option (list byte) :=
  if mutual then s ← sender; r ← receiver; Some (sha256 (REMEMBER_COMBINE_DOMAIN ++ s ++ r ++ binding)) else None.

Definition authenticate_sender_with_remember (config : PairingConfig) (consent : bool) (seed : list byte)
    : auth (option (list byte)) :=
  _ ← pure (config_valid config);
  _ ← pure (validate_data_role config TransferSender);
  let consent := consent && is_invitation config in
  let profile := auth_profile config in
  exporter ← exporter_of (profile_domain profile) (exporter_context profile);
  sender_nonce ← random_nonce;
  let '(state, sender_message) := start_a (profile_password profile) SENDER_IDENTITY RECEIVER_IDENTITY seed in
  _ ← send_frame (AuthStart (mkStart PROTOCOL_VERSION Sender sender_nonce sender_message consent));
  frame ← recv_frame;
  response ← pure (expect_spake2_message frame);
  _ ← pure (validate_nonce (sm_nonce response));
  shared_key ← pure (finish_spake2 state (sm_message response));
  let transcript := mkTranscript sender_nonce (sm_nonce response) sender_message (sm_message response) exporter
    (profile_domain profile) (invitation_binding profile) consent (sm_remember_consent response) in
  let mutual := consent && sm_remember_consent response in
  sender_contribution ← contribution mutual;
  let sender_proof := confirmation_proof shared_key transcript SENDER_CONFIRM_LABEL sender_contribution None in
  _ ← send_frame (AuthConfirm (mkConfirm sender_proof sender_contribution));
  frame ← recv_frame;
  receiver_confirm ← pure (expect_spake2_confirm frame);
  receiver_contribution ← pure (validate_remember_contribution mutual (remember_contribution receiver_confirm));
  _ ← pure (verify_confirmation shared_key transcript RECEIVER_CONFIRM_LABEL (proof receiver_confirm)
              sender_contribution receiver_contribution);
  mret (combine_remember mutual sender_contribution receiver_contribution (invitation_binding profile)).

Definition authenticate_receiver_with_remember (config : PairingConfig) (consent : bool) (seed : list byte)
    : auth (option (list byte)) :=
  _ ← pure (config_valid config);
  _ ← pure (validate_data_role config TransferReceiver);
  let consent := consent && is_invitation config in
  let profile := auth_profile config in
  exporter ← exporter_of (profile_domain profile) (exporter_context profile);
  frame ← recv_frame;
  start ← pure (expect_spake2_start frame);
  _ ← pure (validate_start start);
  receiver_nonce ← random_nonce;
  let '(state, receiver_message) := start_b (profile_password profile) SENDER_IDENTITY RECEIVER_IDENTITY seed in
  _ ← send_frame (AuthMessage (mkMessage receiver_nonce receiver_message consent));
  shared_key ← pure (finish_spake2 state (st_message start));
  let transcript := mkTranscript (st_nonce start) receiver_nonce (st_message start) receiver_message exporter
    (profile_domain profile) (invitation_binding profile) (st_remember_consent start) consent in
  frame ← recv_frame;
  sender_confirm ← pure (expect_spake2_confirm frame);
  let mutual := st_remember_consent start && consent in
  sender_contribution ← pure (validate_remember_contribution mutual (remember_contribution sender_confirm));
  _ ← pure (verify_confirmation shared_key transcript SENDER_CONFIRM_LABEL (proof sender_confirm) sender_contribution None);
  receiver_contribution ← contribution mutual;
  let receiver_proof := confirmation_proof shared_key transcript RECEIVER_CONFIRM_LABEL sender_contribution
    receiver_contribution in
  _ ← send_frame (AuthConfirm (mkConfirm receiver_proof receiver_contribution));
  mret (combine_remember mutual sender_contribution receiver_contribution (invitation_binding profile)).
(** [authenticate_sender] and [authenticate_receiver] *)
Definition authenticate_sender (config : PairingConfig) (seed : list byte) : auth unit :=
  _ ← authenticate_sender_with_remember config false seed; mret tt.
Definition authenticate_receiver (config : PairingConfig) (seed : list byte) : auth unit :=
  _ ← authenticate_receiver_with_remember config false seed; mret tt.
End Exchange.
