(* ===== verification/AuthProof.v ===== *)
(** What data-plane authentication promises: two ends of one connection with one
    configuration authenticate and agree on whether, and as what, to remember each
    other; a side that authenticates has confirmed the conversation, the connection
    and the configuration of the maker of the confirmation; stored credentials read
    back, and give both ends of a remembered pair one room and one configuration. *)

From stdpp Require Import prelude strings.
From Stdlib Require Import ZArith Lia Strings.Byte.
From S2P Require Import Prelude Bytes Text BrokerConfig CoreError AuthFrame Proc Invite InviteProof Pairing PairingProof Auth.

Local Open Scope Z_scope.

(** ** One side, step by step *)

Lemma auth_send_run f i s e x : send_frame f (mkAuthWorld i s e x) = (mkAuthWorld i (s ++ [f]) e x, Ok tt).
Proof. done. Qed.
Lemma recv_run f i s e x : recv_frame (mkAuthWorld (f :: i) s e x) = (mkAuthWorld i s e x, Ok f).
Proof. done. Qed.
Lemma nonce_run i s e x : (NONCE_LEN <= length e)%nat ->
  random_nonce (mkAuthWorld i s e x) = (mkAuthWorld i s (drop NONCE_LEN e) x, Ok (take NONCE_LEN e)).
Proof. intros He. unfold random_nonce. cbn [aw_entropy]. by rewrite (proj2 (Nat.leb_le _ _) He). Qed.
Lemma exporter_run domain context i s e x v : x domain context = Ok v ->
  exporter_of domain context (mkAuthWorld i s e x) = (mkAuthWorld i s e x, Ok v).
Proof. intros Hx. unfold exporter_of. cbn [export_keying_material]. by rewrite Hx. Qed.
Lemma pure_run {A} (r : session A) (a : A) (w : AuthWorld) : r = Ok a -> pure r w = (w, Ok a).
Proof. by intros ->. Qed.

(** What a mutual wish to remember draws, and what it leaves of the entropy. *)
Definition drawn (mutual : bool) (e : list byte) : option (list byte) := if mutual then Some (take NONCE_LEN e) else None.
Definition left (mutual : bool) (e : list byte) : list byte := if mutual then drop NONCE_LEN e else e.
Lemma contribution_run mutual i s e x : (NONCE_LEN <= length e)%nat ->
  contribution mutual (mkAuthWorld i s e x) = (mkAuthWorld i s (left mutual e) x, Ok (drawn mutual e)).
Proof. intros He. destruct mutual; [|done]. unfold contribution. by erewrite proc_bind_eq by (by apply nonce_run). Qed.
Lemma drawn_valid mutual e : (NONCE_LEN <= length e)%nat ->
  validate_remember_contribution mutual (drawn mutual e) = Ok (drawn mutual e).
Proof. intros He. destruct mutual; [|done]. cbn [drawn validate_remember_contribution]. by rewrite length_take_le. Qed.
Lemma take_nonce_valid e : (NONCE_LEN <= length e)%nat -> validate_nonce (take NONCE_LEN e) = Ok tt.
Proof. intros He. unfold validate_nonce. by rewrite length_take_le. Qed.

Ltac auth_step := erewrite proc_bind_eq by first
  [ apply auth_send_run | apply recv_run | apply nonce_run; assumption | apply exporter_run; eassumption
  | apply contribution_run; assumption | apply pure_run; eassumption | apply pure_run; reflexivity ]; cbv beta iota zeta.

Lemma config_roles config r : config_valid config = Ok tt -> validate_data_role config r = Ok tt.
Proof.
  destruct config as [|password context|]; [done| |done]. cbn [config_valid validate_data_role].
  intros [_ Hr%bool_decide_eq_true]%ensure_ok%andb_true_iff. rewrite <- Hr.
  destruct r, (ac_creator_role context); done.
Qed.

Section Completes.
Context `{InviteLibs, PakeLibs, !PakeLaws}.

(** C22. Two ends of one connection that hold the same valid configuration and draw
    entropy authenticate: each, fed what the other sends, returns, and both return
    the same Remember secret, which is there exactly when both consented and the
    configuration is that of an invitation. *)
Theorem auth_completes config consent_s consent_r seed_s seed_r es er material exporter :
  config_valid config = Ok tt ->
  material (profile_domain (auth_profile config)) (exporter_context (auth_profile config)) = Ok exporter ->
  (NONCE_LEN + NONCE_LEN <= length es)%nat -> (NONCE_LEN + NONCE_LEN <= length er)%nat ->
  exists sent_s sent_r secret es' er',
    (forall rest s, authenticate_sender_with_remember config consent_s seed_s (mkAuthWorld (sent_r ++ rest) s es material)
       = (mkAuthWorld rest (s ++ sent_s) es' material, Ok secret)) /\
    (forall rest s, authenticate_receiver_with_remember config consent_r seed_r (mkAuthWorld (sent_s ++ rest) s er material)
       = (mkAuthWorld rest (s ++ sent_r) er' material, Ok secret)) /\
    bool_decide (is_Some secret) = consent_s && consent_r && is_invitation config.
Proof.
  intros Hvalid Hexp Hes Her. pose proof (config_roles _ TransferSender Hvalid) as Hrole_s.
  pose proof (config_roles _ TransferReceiver Hvalid) as Hrole_r.
  set (profile := auth_profile config) in *.
  pose proof (spake_agree (profile_password profile) SENDER_IDENTITY RECEIVER_IDENTITY seed_s seed_r) as Hspake.
  unfold authenticate_sender_with_remember, authenticate_receiver_with_remember. fold profile.
  destruct (start_a (profile_password profile) _ _ seed_s) as [a ma]. destruct (start_b (profile_password profile) _ _ seed_r) as [b mb].
  destruct Hspake as (k & Hka & Hkb).
  set (cs := consent_s && is_invitation config). set (cr := consent_r && is_invitation config). set (mutual := cs && cr).
  set (ns := take NONCE_LEN es). set (nr := take NONCE_LEN er).
  assert (Hes1 : (NONCE_LEN <= length es)%nat) by lia. assert (Her1 : (NONCE_LEN <= length er)%nat) by lia.
  assert (Hes2 : (NONCE_LEN <= length (drop NONCE_LEN es))%nat) by (rewrite length_drop; lia).
  assert (Her2 : (NONCE_LEN <= length (drop NONCE_LEN er))%nat) by (rewrite length_drop; lia).
  set (t := mkTranscript ns nr ma mb exporter (profile_domain profile) (invitation_binding profile) cs cr).
  set (ds := drawn mutual (drop NONCE_LEN es)). set (dr := drawn mutual (drop NONCE_LEN er)).
  set (ps := confirmation_proof k t SENDER_CONFIRM_LABEL ds None).
  set (pr := confirmation_proof k t RECEIVER_CONFIRM_LABEL ds dr).
  assert (Hvs : verify_confirmation k t SENDER_CONFIRM_LABEL ps ds None = Ok tt)
    by (unfold verify_confirmation; by rewrite bool_decide_eq_true_2).
  assert (Hvr : verify_confirmation k t RECEIVER_CONFIRM_LABEL pr ds dr = Ok tt)
    by (unfold verify_confirmation; by rewrite bool_decide_eq_true_2).
  pose proof (drawn_valid mutual _ Hes2) as Hds. pose proof (drawn_valid mutual _ Her2) as Hdr. fold ds in Hds. fold dr in Hdr.
  pose proof (take_nonce_valid _ Hes1) as Hns. pose proof (take_nonce_valid _ Her1) as Hnr. fold ns in Hns. fold nr in Hnr.
  assert (Hfa : finish_spake2 a mb = Ok k) by (unfold finish_spake2; by rewrite Hka).
  assert (Hfb : finish_spake2 b ma = Ok k) by (unfold finish_spake2; by rewrite Hkb).
  exists [AuthStart (mkStart PROTOCOL_VERSION Sender ns ma cs); AuthConfirm (mkConfirm ps ds)],
    [AuthMessage (mkMessage nr mb cr); AuthConfirm (mkConfirm pr dr)],
    (combine_remember mutual ds dr (invitation_binding profile)), (left mutual (drop NONCE_LEN es)), (left mutual (drop NONCE_LEN er)).
  cbn [app]. split_and!.
  - intros rest s. do 15 auth_step. unfold mret, proc_ret. by rewrite <- app_assoc.
  - intros rest s. do 15 auth_step. unfold mret, proc_ret. by rewrite <- app_assoc.
  - unfold mutual, ds, dr, cs, cr, mutual. destruct consent_s, consent_r, (is_invitation config); done.
Qed.
End Completes.

(** ** What a confirmation confirms *)

Section Confirms.
Context `{InviteLibs, PakeLibs}.

(** What both sides have of a conversation, and what the two confirmations are the
    tags of. *)
Definition transcript_of (profile : AuthProfile) (exporter : list byte) (start : Spake2Start) (m : Spake2Message)
    : ConfirmationTranscript :=
  mkTranscript (st_nonce start) (sm_nonce m) (st_message start) (sm_message m) exporter (profile_domain profile)
    (invitation_binding profile) (st_remember_consent start) (sm_remember_consent m).
Definition sender_confirms (t : ConfirmationTranscript) (s : Spake2Confirm) : list byte :=
  confirmation_input t SENDER_CONFIRM_LABEL (remember_contribution s) None.
Definition receiver_confirms (t : ConfirmationTranscript) (s r : Spake2Confirm) : list byte :=
  confirmation_input t RECEIVER_CONFIRM_LABEL (remember_contribution s) (remember_contribution r).
Definition agreed_secret (profile : AuthProfile) (start : Spake2Start) (m : Spake2Message) (s r : Spake2Confirm)
    : option (list byte) :=
  combine_remember (st_remember_consent start && sm_remember_consent m) (remember_contribution s)
    (remember_contribution r) (invitation_binding profile).
Definition well_started (start : Spake2Start) : Prop :=
  protocol_version start = PROTOCOL_VERSION /\ role start = Sender /\ length (st_nonce start) = NONCE_LEN.
Definition contributes (mutual : bool) (c : Spake2Confirm) : Prop :=
  validate_remember_contribution mutual (remember_contribution c) = Ok (remember_contribution c).

Lemma contribution_valid expected value v : validate_remember_contribution expected value = Ok v -> v = value.
Proof. destruct expected, value; cbn; try done; [|by intros [= <-]]. destruct (Nat.eqb _ _); [by intros [= <-]|done]. Qed.
Lemma send_ok f w w' u : send_frame f w = (w', Ok u) ->
  w' = mkAuthWorld (aw_incoming w) (aw_sent w ++ [f]) (aw_entropy w) (export_keying_material w).
Proof. by intros [= <- _]. Qed.
Lemma recv_ok w w' f : recv_frame w = (w', Ok f) -> exists rest,
  aw_incoming w = f :: rest /\ w' = mkAuthWorld rest (aw_sent w) (aw_entropy w) (export_keying_material w).
Proof. unfold recv_frame. destruct (aw_incoming w) as [|x rest]; [done|]. intros [= <- <-]. eauto. Qed.
Lemma nonce_ok w w' n : random_nonce w = (w', Ok n) -> length n = NONCE_LEN /\ exists e,
  w' = mkAuthWorld (aw_incoming w) (aw_sent w) e (export_keying_material w).
Proof.
  unfold random_nonce. destruct (Nat.leb_spec NONCE_LEN (length (aw_entropy w))); [|done]. intros [= <- <-].
  rewrite length_take_le by done. eauto.
Qed.
Lemma exporter_ok domain context w w' v : exporter_of domain context w = (w', Ok v) ->
  export_keying_material w domain context = Ok v /\ w' = w.
Proof. unfold exporter_of. by intros [= <- ?]. Qed.
Lemma contribution_ok mutual w w' c : contribution mutual w = (w', Ok c) ->
  validate_remember_contribution mutual c = Ok c /\ exists e, w' = mkAuthWorld (aw_incoming w) (aw_sent w) e (export_keying_material w).
Proof.
  unfold contribution. destruct mutual.
  - intros (w1 & n & [Hn He]%nonce_ok & [= <- <-])%bind_ok. split; [|done]. cbn. by rewrite Hn.
  - intros [= <- <-]. split; [done|]. exists (aw_entropy w). by destruct w.
Qed.
Lemma start_expected f s : expect_spake2_start f = Ok s -> f = AuthStart s.
Proof. destruct f; cbn; congruence. Qed.
Lemma message_expected f m : expect_spake2_message f = Ok m -> f = AuthMessage m.
Proof. destruct f; cbn; congruence. Qed.
Lemma confirm_expected f c : expect_spake2_confirm f = Ok c -> f = AuthConfirm c.
Proof. destruct f; cbn; congruence. Qed.
Lemma confirmation_ok key t label received sc rc u : verify_confirmation key t label received sc rc = Ok u ->
  received = hmac key (confirmation_input t label sc rc).
Proof. destruct u. unfold verify_confirmation. by intros ?%ensure_ok%bool_decide_eq_true. Qed.
Lemma started s u : validate_start s = Ok u -> well_started s.
Proof.
  destruct u.
  unfold validate_start. destruct (protocol_version s =? _) eqn:Hv; [|done]. destruct (bool_decide _) eqn:Hr; [|done].
  cbn [negb]. unfold validate_nonce. intros ?%ensure_ok%Nat.eqb_eq. bool_prop. done.
Qed.

(** A conversation that a side with this profile and key took for valid. *)
Definition conversed (profile : AuthProfile) (exporter : list byte) (start : Spake2Start) (m : Spake2Message)
    (s r : Spake2Confirm) (key : list byte) (secret : option (list byte)) : Prop :=
  let t := transcript_of profile exporter start m in
  let mutual := st_remember_consent start && sm_remember_consent m in
  well_started start /\ length (sm_nonce m) = NONCE_LEN /\ contributes mutual s /\ contributes mutual r /\
  proof s = hmac key (sender_confirms t s) /\ proof r = hmac key (receiver_confirms t s r) /\
  secret = agreed_secret profile start m s r.

(** What the sender has checked and drawn when it sends its confirmation. *)
Definition sender_said (profile : AuthProfile) (exporter : list byte) (start : Spake2Start) (m : Spake2Message)
    (s : Spake2Confirm) (key : list byte) : Prop :=
  well_started start /\ length (sm_nonce m) = NONCE_LEN /\
  contributes (st_remember_consent start && sm_remember_consent m) s /\
  proof s = hmac key (sender_confirms (transcript_of profile exporter start m) s).
Lemma conversed_sender profile exporter start m s r key secret :
  conversed profile exporter start m s r key secret -> sender_said profile exporter start m s key.
Proof. unfold conversed, sender_said. tauto. Qed.

(** The keys that the two ends take from SPAKE2. *)
Definition sender_key (profile : AuthProfile) (seed : list byte) (m : Spake2Message) : session (list byte) :=
  finish_spake2 (start_a (profile_password profile) SENDER_IDENTITY RECEIVER_IDENTITY seed).1 (sm_message m).
Definition receiver_key (profile : AuthProfile) (seed : list byte) (start : Spake2Start) : session (list byte) :=
  finish_spake2 (start_b (profile_password profile) SENDER_IDENTITY RECEIVER_IDENTITY seed).1 (st_message start).

(** What does not touch the frames sent. *)
Lemma pure_same {A} (r : session A) (w w' : AuthWorld) x : pure r w = (w', x) -> w' = w.
Proof. by intros [= <- _]. Qed.
Lemma exporter_same domain context w w' x : exporter_of domain context w = (w', x) -> w' = w.
Proof. by intros [= <- _]. Qed.
Lemma nonce_sent w w' x : random_nonce w = (w', x) -> aw_sent w' = aw_sent w.
Proof. unfold random_nonce. destruct (_ <=? _)%nat; by intros [= <- _]. Qed.
Lemma contribution_sent mutual w w' x : contribution mutual w = (w', x) -> aw_sent w' = aw_sent w.
Proof.
  unfold contribution. destruct mutual; [|by intros [= <- _]]. unfold mbind, proc_bind.
  destruct (random_nonce w) as [w1 [n|]] eqn:Hn; intros [= <- _]; by eapply nonce_sent.
Qed.
Lemma recv_sent w w' x : recv_frame w = (w', x) -> aw_sent w' = aw_sent w.
Proof. unfold recv_frame. destruct (aw_incoming w); by intros [= <- _]. Qed.
Lemma send_always f w w' x : send_frame f w = (w', x) ->
  x = Ok tt /\ w' = mkAuthWorld (aw_incoming w) (aw_sent w ++ [f]) (aw_entropy w) (export_keying_material w).
Proof. by intros [= <- <-]. Qed.

(** One step of a run: it fails there, or goes on. *)
Ltac auth_run :=
  match goal with
  | Hr : _ = (?w', ?r) |- _ =>
    apply bind_run in Hr as [(?e & ?Hstep & ->)|(?w & ?a & ?Hstep & ?Hrun)]
  end.
(** What was sent by a run that fails at this step. *)
Ltac auth_fails Hout :=
  match goal with
  | H : pure _ _ = (_, Err _) |- _ => apply pure_same in H; rewrite H in Hout
  | H : exporter_of _ _ _ = (_, Err _) |- _ => apply exporter_same in H; rewrite H in Hout
  | H : random_nonce _ = (_, Err _) |- _ => apply nonce_sent in H; rewrite H in Hout
  | H : contribution _ _ = (_, Err _) |- _ => apply contribution_sent in H; rewrite H in Hout
  | H : recv_frame _ = (_, Err _) |- _ => apply recv_sent in H; rewrite H in Hout
  | H : send_frame _ _ = (_, Err _) |- _ => apply send_always in H as [[=] _]
  end;
  cbn [aw_sent] in Hout; rewrite <- ?app_assoc in Hout; cbn [app] in Hout;
  try (exfalso; by apply no_more in Hout).

(** A run that has failed after its opening. *)
Ltac auth_silent Hout := apply only_one in Hout as [_ ->]; split; [by intros ? ?%elem_of_nil|done].

(** What a run of the sender that was answered has found out, however it ends. *)
Lemma sender_facts config consent seed w w' x m rest start out exporter :
  authenticate_sender_with_remember config consent seed w = (w', x) ->
  aw_incoming w = AuthMessage m :: rest -> aw_sent w' = aw_sent w ++ AuthStart start :: out ->
  let profile := auth_profile config in
  export_keying_material w (profile_domain profile) (exporter_context profile) = Ok exporter ->
  (forall s, AuthConfirm s ∈ out ->
     exists key, sender_key profile seed m = Ok key /\ sender_said profile exporter start m s key) /\
  (forall secret r, x = Ok secret -> head rest = Some (AuthConfirm r) ->
     exists s key, AuthConfirm s ∈ out /\ sender_key profile seed m = Ok key /\
       conversed profile exporter start m s r key secret).
Proof.
  intros Hrun Hin Hout profile Hexp. unfold authenticate_sender_with_remember in Hrun. unfold sender_key. fold profile in Hrun. cbv zeta in Hrun.
  auth_run; [auth_fails Hout|]. apply pure_ok in Hstep as [_ ->].
  auth_run; [auth_fails Hout|]. apply pure_ok in Hstep as [_ ->].
  auth_run; [auth_fails Hout|]. apply exporter_ok in Hstep as [Hx ->].
  pose proof (eq_trans (eq_sym Hexp) Hx) as [= <-].
  auth_run; [auth_fails Hout|]. apply nonce_ok in Hstep as [Hns [e ->]].
  destruct (start_a _ _ _ _) as [state ms]. cbn [fst].
  auth_run; [auth_fails Hout|]. apply send_ok in Hstep as ->.
  set (cs := consent && is_invitation config) in *.
  set (start0 := mkStart PROTOCOL_VERSION Sender _ ms cs) in *.
  auth_run; [auth_fails Hout; auth_silent Hout|]. apply recv_ok in Hstep as (rest0 & Hin0 & ->).
  cbn [aw_incoming aw_sent] in *. rewrite Hin in Hin0. injection Hin0 as <- <-.
  auth_run; [auth_fails Hout; auth_silent Hout|]. apply pure_ok in Hstep as [[= <-] ->].
  auth_run; [auth_fails Hout; auth_silent Hout|]. apply pure_ok in Hstep as [Hm%ensure_ok%Nat.eqb_eq ->].
  auth_run; [auth_fails Hout; auth_silent Hout|]. apply pure_ok in Hstep as [Hkey ->].
  auth_run; [auth_fails Hout; auth_silent Hout|]. apply contribution_ok in Hstep as [Hsc [e' ->]].
  auth_run; [by auth_fails Hout|]. apply send_ok in Hstep as ->. cbn [aw_incoming aw_sent] in *.
  match type of Hrun with context [AuthConfirm (mkConfirm ?p ?c)] => set (s := mkConfirm p c) in * end.
  assert (Hsaid : sender_said profile exporter start0 m s a4) by (by split_and!).
  assert (Hone : aw_sent w ++ [AuthStart start0; AuthConfirm s] = aw_sent w ++ AuthStart start :: out ->
    start = start0 /\ out = [AuthConfirm s]) by (by intros [= <- <-]%app_inv_head).
  assert (Hin_out : forall s', AuthConfirm s' ∈ [AuthConfirm s] ->
    exists key, finish_spake2 state (sm_message m) = Ok key /\ sender_said profile exporter start0 m s' key).
  { intros s' [= ->]%list_elem_of_singleton. eauto. }
  auth_run; [auth_fails Hout; destruct (Hone Hout) as [-> ->]; by split|]. apply recv_ok in Hstep as (rest' & Hin' & ->).
  cbn [aw_incoming aw_sent] in *. subst rest.
  auth_run; [auth_fails Hout; destruct (Hone Hout) as [-> ->]; by split|]. apply pure_ok in Hstep as [->%confirm_expected ->].
  auth_run; [auth_fails Hout; destruct (Hone Hout) as [-> ->]; by split|]. apply pure_ok in Hstep as [Hrc ->].
  pose proof (contribution_valid _ _ _ Hrc) as ->.
  auth_run; [auth_fails Hout; destruct (Hone Hout) as [-> ->]; by split|]. apply pure_ok in Hstep as [Hver%confirmation_ok ->].
  injection Hrun as <- <-. cbn [aw_sent] in Hout. rewrite <- app_assoc in Hout. destruct (Hone Hout) as [-> ->].
  split; [exact Hin_out|]. intros secret r [= <-] Hhead. cbn in Hhead. injection Hhead as <-.
  exists s, a4. split; [by left|]. split; [exact Hkey|]. by split_and!.
Qed.

(** The same of the receiver, whose confirmation is its last step. *)
Lemma receiver_facts config consent seed w w' x start rest m out exporter :
  authenticate_receiver_with_remember config consent seed w = (w', x) ->
  aw_incoming w = AuthStart start :: rest -> aw_sent w' = aw_sent w ++ AuthMessage m :: out ->
  let profile := auth_profile config in
  export_keying_material w (profile_domain profile) (exporter_context profile) = Ok exporter ->
  (forall r, AuthConfirm r ∈ out -> exists s key secret, head rest = Some (AuthConfirm s) /\ x = Ok secret /\
     receiver_key profile seed start = Ok key /\ conversed profile exporter start m s r key secret) /\
  (forall secret s, x = Ok secret -> head rest = Some (AuthConfirm s) -> exists r key,
     receiver_key profile seed start = Ok key /\ conversed profile exporter start m s r key secret).
Proof.
  intros Hrun Hin Hout profile Hexp. unfold authenticate_receiver_with_remember in Hrun. unfold receiver_key. fold profile in Hrun. cbv zeta in Hrun.
  auth_run; [auth_fails Hout|]. apply pure_ok in Hstep as [_ ->].
  auth_run; [auth_fails Hout|]. apply pure_ok in Hstep as [_ ->].
  auth_run; [auth_fails Hout|]. apply exporter_ok in Hstep as [Hx ->].
  pose proof (eq_trans (eq_sym Hexp) Hx) as [= <-].
  auth_run; [auth_fails Hout|]. apply recv_ok in Hstep as (rest0 & Hin0 & ->).
  rewrite Hin in Hin0. injection Hin0 as <- <-.
  auth_run; [auth_fails Hout|]. apply pure_ok in Hstep as [[= <-] ->].
  auth_run; [auth_fails Hout|]. apply pure_ok in Hstep as [Hs%started ->].
  auth_run; [auth_fails Hout|]. apply nonce_ok in Hstep as [Hnr [e ->]].
  destruct (start_b _ _ _ _) as [state mr]. cbn [fst].
  auth_run; [by auth_fails Hout|]. apply send_ok in Hstep as ->. cbn [aw_incoming aw_sent] in *.
  set (cr := consent && is_invitation config) in *.
  auth_run; [auth_fails Hout; auth_silent Hout|]. apply pure_ok in Hstep as [Hkey ->].
  auth_run; [auth_fails Hout; auth_silent Hout|]. apply recv_ok in Hstep as (rest' & Hin' & ->).
  cbn [aw_incoming aw_sent] in *. subst rest.
  auth_run; [auth_fails Hout; auth_silent Hout|]. apply pure_ok in Hstep as [->%confirm_expected ->].
  auth_run; [auth_fails Hout; auth_silent Hout|]. apply pure_ok in Hstep as [Hsc ->].
  pose proof (contribution_valid _ _ _ Hsc) as ->.
  auth_run; [auth_fails Hout; auth_silent Hout|]. apply pure_ok in Hstep as [Hver%confirmation_ok ->].
  auth_run; [auth_fails Hout; auth_silent Hout|]. apply contribution_ok in Hstep as [Hrc [e' ->]].
  auth_run; [by auth_fails Hout|]. apply send_ok in Hstep as ->. injection Hrun as <- <-.
  cbn [aw_sent] in Hout. rewrite <- app_assoc in Hout. apply app_inv_head in Hout.
  match type of Hout with context [AuthConfirm (mkConfirm ?p ?c)] => set (r := mkConfirm p c) in * end.
  injection Hout as <- <-. cbn [head].
  split.
  - intros r' [= ->]%list_elem_of_singleton. eexists _, _, _. split; [done|]. split; [done|]. split; [exact Hkey|]. by split_and!.
  - intros secret s [= <-] [= <-]. exists r. eexists. split; [exact Hkey|]. by split_and!.
Qed.

(** Everything in a confirmation can be read back from what it is the tag of. *)
Definition transcript_sized (t : ConfirmationTranscript) : Prop :=
  Forall (fun v => zlen v <= u64_max)
    [sender_nonce t; receiver_nonce t; sender_message t; receiver_message t; tr_exporter t; tr_domain t; tr_binding t].
Lemma confirmation_parts t label sc rc : confirmation_input t label sc rc =
  concat (map frame_part [tr_domain t]) ++ be_bytes 4 PROTOCOL_VERSION ++
  concat (map frame_part [SENDER_IDENTITY; RECEIVER_IDENTITY; sender_nonce t; receiver_nonce t; sender_message t;
    receiver_message t; tr_exporter t; tr_binding t]) ++
  write_bool (sender_consent t) ++ write_bool (receiver_consent t) ++
  concat (map frame_part [label; default [] sc; default [] rc]) ++ [].
Proof. unfold confirmation_input. rewrite !framed_parts. cbn [app map concat]. unfold append_len_prefixed, frame_part.
  rewrite <- ?app_assoc, ?app_nil_r. done. Qed.
Lemma confirmation_inj t t' label label' sc sc' rc rc' :
  transcript_sized t -> transcript_sized t' ->
  Forall (fun v => zlen v <= u64_max) [label; default [] sc; default [] rc] ->
  Forall (fun v => zlen v <= u64_max) [label'; default [] sc'; default [] rc'] ->
  confirmation_input t label sc rc = confirmation_input t' label' sc' rc' ->
  t = t' /\ label = label' /\ default [] sc = default [] sc' /\ default [] rc = default [] rc'.
Proof.
  unfold transcript_sized. rewrite !Forall_cons. intros Ht Ht' Hl Hl'. rewrite !confirmation_parts. intros Heq.
  apply frame_parts_inj in Heq as [[= Hd] Heq]; [|constructor; [tauto|done]..|done].
  apply app_inj_1 in Heq as [_ Heq]; [|by rewrite !length_be_bytes].
  apply frame_parts_inj in Heq as [Hp Heq]; [|by repeat (constructor; [first [done|tauto]|])..|done].
  assert (Hb : forall b, length (write_bool b) = 1%nat) by (by intros []).
  assert (Hbi : forall b b', write_bool b = write_bool b' -> b = b') by (by intros [] []).
  apply app_inj_1 in Heq as [Hc1%Hbi Heq]; [|by rewrite !Hb]. apply app_inj_1 in Heq as [Hc2%Hbi Heq]; [|by rewrite !Hb].
  apply frame_parts_inj in Heq as [Hq _]; [|by rewrite !Forall_cons..|done].
  injection Hp as ? ? ? ? ? ?. injection Hq as ? ? ?. destruct t, t'. cbn in *. by subst.
Qed.

(** Two sides that took their conversations for valid, where one accepted the
    confirmation that the other made. *)
Definition agrees (profile : AuthProfile) (exporter : list byte) (start : Spake2Start) (m : Spake2Message)
    (profile' : AuthProfile) (exporter' : list byte) (start' : Spake2Start) (m' : Spake2Message) : Prop :=
  start = start' /\ m = m' /\ exporter = exporter' /\ profile_domain profile = profile_domain profile' /\
  invitation_binding profile = invitation_binding profile'.
Lemma transcripts_agree profile exporter start m profile' exporter' start' m' :
  well_started start -> well_started start' ->
  transcript_of profile exporter start m = transcript_of profile' exporter' start' m' ->
  agrees profile exporter start m profile' exporter' start' m'.
Proof.
  destruct start, start', m, m'. unfold well_started, agrees. cbn. intros (-> & -> & _) (-> & -> & _) Heq. unfold transcript_of in Heq. cbn in Heq.
  injection Heq as -> -> -> -> -> -> -> -> ->. done.
Qed.
Lemma contributed_size mutual c : contributes mutual c -> zlen (default [] (remember_contribution c)) <= u64_max.
Proof.
  unfold contributes. destruct c as [p [v|]]; [|done]. destruct mutual; [|done]. cbn.
  destruct (Nat.eqb_spec (length v) NONCE_LEN) as [Hv|]; [|done]. intros _. unfold zlen, u64_max. rewrite Hv. done.
Qed.
Lemma contributed_same mutual c c' : contributes mutual c -> contributes mutual c' ->
  default [] (remember_contribution c) = default [] (remember_contribution c') ->
  remember_contribution c = remember_contribution c'.
Proof. unfold contributes. destruct c as [? [|]], c' as [? [|]], mutual; cbn; congruence. Qed.

Lemma sender_confirmed profile exporter start m s key profile' exporter' start' m' key' :
  sender_said profile exporter start m s key -> sender_said profile' exporter' start' m' s key' ->
  transcript_sized (transcript_of profile exporter start m) -> transcript_sized (transcript_of profile' exporter' start' m') ->
  agrees profile exporter start m profile' exporter' start' m' \/
  tag_clash key (sender_confirms (transcript_of profile exporter start m) s)
            key' (sender_confirms (transcript_of profile' exporter' start' m') s).
Proof.
  intros (Hw & _ & Hs & Hp) (Hw' & _ & Hs' & Hp') Ht Ht'.
  rewrite Hp in Hp'. apply tag_cases in Hp' as [Heq|?]; [left|by right].
  apply contributed_size in Hs. unfold sender_confirms in Heq. apply confirmation_inj in Heq as (Heq & _ & _ & _).
  - by apply transcripts_agree.
  - assumption.
  - assumption.
  - rewrite !Forall_cons. split_and!; [done|exact Hs|done..].
  - rewrite !Forall_cons. split_and!; [done|exact Hs|done..].
Qed.
Lemma receiver_confirmed profile exporter start m s r key secret profile' exporter' start' m' s' r' key' secret' :
  conversed profile exporter start m s r key secret -> conversed profile' exporter' start' m' s' r' key' secret' ->
  transcript_sized (transcript_of profile exporter start m) -> transcript_sized (transcript_of profile' exporter' start' m') ->
  r = r' ->
  (agrees profile exporter start m profile' exporter' start' m' /\ secret = secret') \/
  tag_clash key (receiver_confirms (transcript_of profile exporter start m) s r)
            key' (receiver_confirms (transcript_of profile' exporter' start' m') s' r').
Proof.
  intros (Hw & _ & Hs & Hr & _ & Hp & ->) (Hw' & _ & Hs' & Hr' & _ & Hp' & ->) Ht Ht' <-.
  rewrite Hp in Hp'. apply tag_cases in Hp' as [Heq|?]; [left|by right].
  pose proof (contributed_size _ _ Hs). pose proof (contributed_size _ _ Hs'). pose proof (contributed_size _ _ Hr).
  unfold receiver_confirms in Heq. apply confirmation_inj in Heq as (Heq & _ & Hsc & _).
  - apply transcripts_agree in Heq; [|assumption..]. split; [exact Heq|]. destruct Heq as (-> & -> & -> & Hd & Hb).
    unfold agreed_secret. rewrite Hb. f_equal. eapply contributed_same; eassumption.
  - assumption.
  - assumption.
  - rewrite !Forall_cons. split_and!; [done|assumption..|done].
  - rewrite !Forall_cons. split_and!; [done|assumption..|done].
Qed.

(** C10. Authentication is of the peer, of the connection and of the configuration:
    when a receiver accepts a confirmation that a sender sent in a run of its own, or
    a sender one that a receiver sent, whatever passwords and connections the two
    used, whatever was done to the frames in between and however the run of that peer
    went on and ended, then both saw the same opening messages with the same wishes
    to remember, export the same keying material from their connections and use the
    same domain and binding, so the same kind of configuration in the same context;
    and the receiver of a sender that accepts has returned the same Remember secret.
    Otherwise the two different conversations have one HMAC tag under the keys that
    the two took from SPAKE2. *)
Theorem auth_authenticated config consent seed w w' x start m rest out exporter
    config' consent' seed' v v' x' start' m' rest' out' exporter' :
  authenticate_sender_with_remember config consent seed w = (w', x) ->
  aw_incoming w = AuthMessage m :: rest -> aw_sent w' = aw_sent w ++ AuthStart start :: out ->
  authenticate_receiver_with_remember config' consent' seed' v = (v', x') ->
  aw_incoming v = AuthStart start' :: rest' -> aw_sent v' = aw_sent v ++ AuthMessage m' :: out' ->
  let profile := auth_profile config in let profile' := auth_profile config' in
  export_keying_material w (profile_domain profile) (exporter_context profile) = Ok exporter ->
  export_keying_material v (profile_domain profile') (exporter_context profile') = Ok exporter' ->
  let t := transcript_of profile exporter start m in let t' := transcript_of profile' exporter' start' m' in
  transcript_sized t -> transcript_sized t' ->
  let clash said said' := exists key key', sender_key profile seed m = Ok key /\
    receiver_key profile' seed' start' = Ok key' /\ tag_clash key said key' said' in
  (forall secret s, x' = Ok secret -> head rest' = Some (AuthConfirm s) -> AuthConfirm s ∈ out ->
     agrees profile exporter start m profile' exporter' start' m' \/
     clash (sender_confirms t s) (sender_confirms t' s)) /\
  (forall secret r, x = Ok secret -> head rest = Some (AuthConfirm r) -> AuthConfirm r ∈ out' ->
     (agrees profile exporter start m profile' exporter' start' m' /\ x' = Ok secret) \/
     exists s s', AuthConfirm s ∈ out /\ head rest' = Some (AuthConfirm s') /\
       clash (receiver_confirms t s r) (receiver_confirms t' s' r)).
Proof.
  intros Hs Hin Hout Hr Hin' Hout' profile profile' Hex Hex' t t' Ht Ht' clash.
  destruct (sender_facts _ _ _ _ _ _ _ _ _ _ _ Hs Hin Hout Hex) as [Hsaid Htook].
  destruct (receiver_facts _ _ _ _ _ _ _ _ _ _ _ Hr Hin' Hout' Hex') as [Hsaid' Htook'].
  split.
  - intros secret s Hx Hhead Hmem. destruct (Hsaid _ Hmem) as (key & Hkey & Hsender).
    destruct (Htook' _ _ Hx Hhead) as (r & key' & Hkey' & Hc%conversed_sender).
    destruct (sender_confirmed _ _ _ _ _ _ _ _ _ _ _ Hsender Hc Ht Ht'); [by left|right; by exists key, key'].
  - intros secret r Hx Hhead Hmem. destruct (Htook _ _ Hx Hhead) as (s & key & Hs_out & Hkey & Hc).
    destruct (Hsaid' _ Hmem) as (s' & key' & secret' & Hhead' & -> & Hkey' & Hc').
    destruct (receiver_confirmed _ _ _ _ _ _ _ _ _ _ _ _ _ _ _ _ Hc Hc' Ht Ht' eq_refl) as [[? <-]|]; [by left|].
    right. exists s, s'. split; [done|]. split; [done|]. by exists key, key'.
Qed.
End Confirms.

(** ** Credentials and remembered sessions *)

(** A stored credential is read back, and nothing else is read: the bytes that
    are accepted are exactly those that some credential of 32 bytes is stored as. *)
Theorem credential_canonical bytes secret :
  credential_from_opaque bytes = Ok secret <-> bytes = credential_to_opaque secret /\ length secret = 32%nat.
Proof.
  unfold credential_from_opaque, credential_to_opaque. split.
  - destruct (Nat.eqb_spec (length bytes) REMEMBERED_CREDENTIAL_LEN) as [Hl|]; [|done].
    destruct (bool_decide_reflect (take 4 bytes = REMEMBERED_CREDENTIAL_MAGIC)) as [Hm|]; [|done].
    destruct (bool_decide_reflect (bytes !! 4%nat = Some REMEMBERED_CREDENTIAL_VERSION)) as [Hv|]; [|done].
    cbn [negb orb]. intros [= <-]. rewrite length_drop, Hl. split; [|done].
    rewrite <- Hm at 1. rewrite <- (take_drop 4 bytes) at 1. f_equal. by apply drop_S.
  - intros [-> Hl].
    assert (Hlen : length (REMEMBERED_CREDENTIAL_MAGIC ++ [REMEMBERED_CREDENTIAL_VERSION] ++ secret) = REMEMBERED_CREDENTIAL_LEN)
      by (rewrite !length_app, Hl; done).
    rewrite Hlen. rewrite bool_decide_eq_true_2 by done. by rewrite bool_decide_eq_true_2.
Qed.

Section Remembered.
Context `{InviteLibs, PakeLibs, !EncodingLaws}.

Lemma url_safe_ascii s : forallb url_safe s = true -> is_ascii s = true.
Proof.
  induction s as [|b s IH]; [done|]. cbn [forallb]. intros [Hb Hs]%andb_true_iff.
  change (is_ascii (b :: s)) with ((byte_val b <? 128) && is_ascii s). rewrite IH, andb_true_r by done.
  unfold url_safe, is_ascii_alphanumeric, is_ascii_digit in Hb. apply Z.ltb_lt.
  repeat (apply orb_true_iff in Hb as [Hb|Hb]); repeat (apply andb_true_iff in Hb as [? Hb]); lia.
Qed.
(** What 32 bytes are encoded as is a valid password. *)
Lemma encoded_password x : length x = 32%nat -> is_valid_shared_token (b64_encode x) = true.
Proof.
  intros Hx. unfold is_valid_shared_token. rewrite url_safe_ascii by apply b64_url_safe.
  unfold zlen. by rewrite (b64_length _ Hx).
Qed.
Lemma remembered_room secret generation : is_remembered_room_id (rs_room_id (derive_session secret generation)) = true.
Proof.
  unfold is_remembered_room_id, derive_session. cbn [rs_room_id]. rewrite strip_prefix_app. unfold zlen.
  unfold derive_remembered_value. rewrite (b64_length _ (hmac_length _ _)). apply b64_url_safe.
Qed.
Lemma room_ids_agree room : is_remembered_room_id room = true -> validate_remembered_room_id room = Ok tt.
Proof.
  unfold is_remembered_room_id, validate_remembered_room_id. destruct (strip_prefix _ _) as [encoded|]; [|done].
  intros [Hl Hc]%andb_true_iff. apply ensure_ok. rewrite Hl. cbn [andb]. revert Hc. apply forallb_impl. by intros [].
Qed.
Lemma remembered_context secret generation :
  remembered_control_context (derive_session secret generation)
  = Ok (mkControlContext (rs_room_id (derive_session secret generation)) FullTicket TransferReceiver TransferSender).
Proof.
  unfold remembered_control_context, control_context_remembered. by rewrite (room_ids_agree _ (remembered_room _ _)).
Qed.
Lemma remembered_config secret generation broker key hash : broker <> [] ->
  exists config, finish_pairing (derive_session secret generation) broker key hash = Ok config /\ config_valid config = Ok tt.
Proof.
  intros Hb. unfold finish_pairing, remembered_v1, checked_config. set (c := RememberedV1 _ _).
  assert (Hc : config_valid c = Ok tt).
  { apply ensure_ok. unfold derive_remembered_value. rewrite encoded_password by apply hmac_length.
    unfold derive_session. cbn [ra_room_id ra_broker rs_room_id]. rewrite strip_prefix_app. by rewrite bool_decide_eq_true_2, bool_decide_eq_false_2. }
  exists c. by rewrite Hc.
Qed.
End Remembered.
