(* ===== verification/RoomSession.v ===== *)
(** Pairing through a room (crates/envoix-session/src/room.rs, with the policy and
    configuration of lib.rs and [join_invitation] of
    crates/envoix-rendezvous-iroh/src/lib.rs): joining the broker with retries, the
    control handshake, the descriptors, and what is sent or received over the data
    connection that follows.  The endpoints, the broker's answers, the clock and the
    winners of the races against cancellation and timers are scripts of the world;
    [send_offer] and [receive_offer] stand for a whole attempt over the data
    connection.  What a future that loses a race did before it is dropped is not
    represented. *)

From stdpp Require Import prelude strings.
From Stdlib Require Import ZArith Lia Strings.Byte.
From S2P Require Import Prelude Bytes BrokerConfig CoreError Frames Timeline Delivery Proc Invite Pairing Auth.

Local Open Scope Z_scope.

(** ** Policy and configuration (lib.rs) *)

Record RendezvousRetryPolicy := mkPolicy {
  pairing_attempts : Z;
  server_retries : Z;
  max_retry_after : Duration;
}.
Definition default_policy : RendezvousRetryPolicy := mkPolicy 4 4 (from_secs 30).

(** The fields that room pairing looks at. *)
Record SessionConfig := mkSessionConfig {
  sc_relay : option str;
  relay_only : bool;
  direct_only : bool;
  rendezvous_retry : RendezvousRetryPolicy;
}.
Definition data_relay (c : SessionConfig) : option str := if direct_only c then None else sc_relay c.
Definition with_relay_only (c : SessionConfig) : SessionConfig :=
  mkSessionConfig (sc_relay c) true (direct_only c) (rendezvous_retry c).

(** [iroh::EndpointAddr] *)
Inductive TransportAddr :=
| AddrIp (addr : list byte)
| AddrRelay (url : str)
| AddrCustom (id : Z) (data : list byte).
Record EndpointAddr := mkEndpointAddr { ep_id : list byte; ep_addrs : list TransportAddr }.
#[export] Instance TransportAddr_eq_dec : EqDecision TransportAddr.
Proof. solve_decision. Defined.
#[export] Instance EndpointAddr_eq_dec : EqDecision EndpointAddr.
Proof. solve_decision. Defined.

(** ** Answers of the broker *)

Definition retryable_broker_outcome (o : BrokerOutcome) : bool :=
  match o with
  | RoomNotFound | RoomFull | RoomRateLimited | EndpointRateLimited | IpRateLimited | ServerBusy => true
  | _ => false
  end.
Definition broker_retry_delay (r : BrokerRejection) (retries_completed : Z) (policy : RendezvousRetryPolicy)
    : option Duration :=
  secs ← retry_after r;
  let delay := from_secs secs in
  if (retries_completed <? server_retries policy) && retryable_broker_outcome (outcome r)
     && (delay <=? max_retry_after policy)
  then Some delay else None.
Definition rejection_cause (o : BrokerOutcome) : RendezvousCause :=
  match o with
  | RoomNotFound => CauseRoomNotFound
  | RoomExpired => CauseRoomExpired
  | RoomFull => CauseRoomFull
  | RoomRateLimited => CauseRoomRateLimited
  | RoomUnderAttack => CauseRoomUnderAttack
  | EndpointRateLimited => CauseEndpointRateLimited
  | IpRateLimited => CauseIpRateLimited
  | ServerBusy => CauseServerBusy
  | MalformedJoin => CauseMalformedJoin
  | UnsupportedVersion => CauseUnsupportedVersion
  end.
Definition broker_rejection (r : BrokerRejection) : CoreError :=
  RendezvousError (rejection_cause (outcome r)) (retry_after r).

(** [needle] occurs in [s]. *)
Fixpoint str_contains (needle s : str) : bool :=
  bool_decide (take (length needle) s = needle) ||
  match s with [] => false | _ :: rest => str_contains needle rest end.
(** How [join_invitation] fails: with a rejection, with a message that is no reply,
    or with the transport. *)
Inductive JoinFailure :=
| JoinRejected (r : BrokerRejection)
| JoinBadMessage (message : str)
| JoinTransport.
Definition unstructured_broker_error (e : JoinFailure) : CoreError :=
  match e with
  | JoinBadMessage message =>
    if str_contains (lit "selected_bootstrap_method") message then RendezvousError CauseUnsupportedVersion None
    else Protocol "rendezvous broker returned a malformed control message"
  | _ => Transport ""
  end.

(** ** The world *)

Inductive PairingStep := Joining | Matched | Exchanged.
Inductive RoomEvent :=
| EvPairing (step : PairingStep)
| EvConnecting
| EvDiagnostic (message : string).
(** What an operation opens and closes. *)
Inductive Resource := RendezvousEndpoint | DataEndpoint | DatagramBridge.
#[export] Instance Resource_eq_dec : EqDecision Resource.
Proof. solve_decision. Defined.
(** What the broker does with a join: it replies, and then relays these messages of
    the peer, in time or not; or the connection fails. *)
Inductive Answer :=
| Replied (reply : Reply) (relayed : list PairingMessage) (in_time : bool)
| Unreachable (e : JoinFailure).
Inductive Race := Finishes | CancelWins | TimerWins.
(** A panic of the code is no error value. *)
Inductive RoomError := Returned (e : CoreError) | Panicked.

Record RoomWorld := mkRoomWorld {
  answers : list Answer;
  joins_sent : list Join;
  slept : list Duration;
  events : list RoomEvent;
  stream : Control;
  in_time : bool;
  races : list Race;
  is_cancelled : bool;
  opens : list (session unit);
  is_open : list Resource;
  clock : list (session Z);
  stages : list TransferStage;
}.
Abbreviation room A := (proc RoomWorld RoomError A).

Definition set_events v w := mkRoomWorld (answers w) (joins_sent w) (slept w) v (stream w) (in_time w) (races w)
  (is_cancelled w) (opens w) (is_open w) (clock w) (stages w).
Definition set_joined a j s t w := mkRoomWorld a j (slept w) (events w) s t (races w)
  (is_cancelled w) (opens w) (is_open w) (clock w) (stages w).
Definition set_slept v w := mkRoomWorld (answers w) (joins_sent w) v (events w) (stream w) (in_time w) (races w)
  (is_cancelled w) (opens w) (is_open w) (clock w) (stages w).
Definition set_stream v w := mkRoomWorld (answers w) (joins_sent w) (slept w) (events w) v (in_time w) (races w)
  (is_cancelled w) (opens w) (is_open w) (clock w) (stages w).
Definition set_raced r c w := mkRoomWorld (answers w) (joins_sent w) (slept w) (events w) (stream w) (in_time w) r
  c (opens w) (is_open w) (clock w) (stages w).
Definition set_open o v w := mkRoomWorld (answers w) (joins_sent w) (slept w) (events w) (stream w) (in_time w) (races w)
  (is_cancelled w) o v (clock w) (stages w).
Definition set_clock v w := mkRoomWorld (answers w) (joins_sent w) (slept w) (events w) (stream w) (in_time w) (races w)
  (is_cancelled w) (opens w) (is_open w) v (stages w).
Definition set_stages v w := mkRoomWorld (answers w) (joins_sent w) (slept w) (events w) (stream w) (in_time w) (races w)
  (is_cancelled w) (opens w) (is_open w) (clock w) v.

Definition fail {A} (e : CoreError) : room A := throw (Returned e).
Definition returns {A} (r : session A) : room A := pure (map_err Returned r).
Definition on_event (e : RoomEvent) : room unit := fun w => (set_events (events w ++ [e]) w, Ok tt).
Definition sleep (d : Duration) : room unit := fun w => (set_slept (slept w ++ [d]) w, Ok tt).
Definition close_endpoint (r : Resource) : room unit := fun w => (set_open (opens w) (filter (fun x => x <> r) (is_open w)) w, Ok tt).
(** Opening these together, or, when it fails, none of them. *)
Definition open_all (rs : list Resource) : room unit := fun w =>
  match opens w with
  | Err e :: rest => (set_open rest (is_open w) w, Err (Returned e))
  | Ok _ :: rest => (set_open rest (is_open w ++ rs) w, Ok tt)
  | [] => (set_open [] (is_open w ++ rs) w, Ok tt)
  end.
Definition open_endpoint (r : Resource) : room unit := open_all [r].
Definition unix_now : room Z := fun w =>
  match clock w with
  | now :: rest => (set_clock rest w, map_err Returned now)
  | [] => (w, Err (Returned (InvalidInput "system clock before Unix epoch")))
  end.
(** [timeline.record(stage)], and [timeline.record(failure_stage(cancel))] *)
Definition record_stage (s : TransferStage) : room unit := fun w => (set_stages (stages w ++ [s]) w, Ok tt).
Definition failure_stage (cancelled : bool) : TransferStage := if cancelled then Canceled else Failed.
Definition record_failure : room unit := fun w => (set_stages (stages w ++ [failure_stage (is_cancelled w)]) w, Ok tt).
(** [tokio::select!] of a future, the cancellation and, if there is one, a timer. *)
Definition race {A} (timer : option CoreError) (future : room A) : room A := fun w =>
  match races w, timer with
  | CancelWins :: rest, _ => (set_raced rest true w, Err (Returned Cancelled))
  | TimerWins :: rest, Some e => (set_raced rest (is_cancelled w) w, Err (Returned e))
  | _ :: rest, _ => future (set_raced rest (is_cancelled w) w)
  | [], _ => future w
  end.
(** Cleaning up after an error, which is then returned; a panic is not caught. *)
Definition or_cleanup {A} (m : room A) (cleanup : room unit) : room A :=
  r ← attempt m;
  match r with
  | Ok a => mret a
  | Err (Returned e) => _ ← cleanup; fail e
  | Err Panicked => throw Panicked
  end.

(** ** Joining *)

Section Joins.
Context `{InviteLibs}.

(** The join of [authenticate_in_room_retrying]; [None] where [room_id] panics. *)
Definition invitation_join (b : InvitationBootstrap) : option Join :=
  room ← bootstrap_room_id b;
  Some (mkJoin RENDEZVOUS_PROTOCOL_VERSION room (bootstrap_side b) (bootstrap_local_role b) (advertised_methods b)
    (selected_method b)).
(** The join of [authenticate_remembered_in_room_retrying]. *)
Definition remembered_join (s : RememberedSession) (local_role : TransferRole) : Join :=
  let '(side, methods, selected) :=
    match local_role with
    | TransferSender => (Joiner, [], Some FullTicket)
    | TransferReceiver => (Creator, [FullTicket], None)
    end in
  mkJoin RENDEZVOUS_PROTOCOL_VERSION (rs_room_id s) side local_role methods selected.
End Joins.

(** A session with the broker: the role and the method it gave. *)
Definition join_invitation (join : Join) : room (result JoinFailure (Role * BootstrapKind)) := fun w =>
  let fresh messages := mkControl messages [] (ct_entropy (stream w)) in
  let sent := joins_sent w ++ [join] in
  match answers w with
  | [] => (set_joined [] sent (fresh []) true w, Ok (Err JoinTransport))
  | Unreachable e :: rest => (set_joined rest sent (fresh []) true w, Ok (Err e))
  | Replied reply relayed in_time :: rest =>
    (set_joined rest sent (fresh relayed) in_time w,
     Ok match reply with
        | ReplyPaired p => Ok (paired_role p, paired_method p)
        | ReplyRejected r => Err (JoinRejected r)
        | ReplyExpired => Err (JoinRejected (mkRejection RoomExpired None))
        end)
  end.

(** [for retry in 0..=policy.server_retries], of which [n] rounds are left. *)
Fixpoint join_rounds (n : nat) (retry : Z) (join : Join) (policy : RendezvousRetryPolicy)
    : room (Role * BootstrapKind) :=
  match n with
  | O => throw Panicked
  | S n =>
    joined ← join_invitation join;
    match joined with
    | Ok session => mret session
    | Err (JoinRejected rejection) =>
      match broker_retry_delay rejection retry policy with
      | None => fail (broker_rejection rejection)
      | Some retry_after => _ ← sleep retry_after; join_rounds n (retry + 1) join policy
      end
    | Err e => fail (unstructured_broker_error e)
    end
  end.
Definition join_broker_with_retry (join : Join) (policy : RendezvousRetryPolicy) : room (Role * BootstrapKind) :=
  join_rounds (S (Z.to_nat (server_retries policy))) 0 join policy.

(** ** Pairing *)

(** A call on the control stream of the session; its errors are transport errors. *)
Definition on_stream {A} (m : control A) : room (session A) := fun w =>
  let '(s, r) := m (stream w) in (set_stream s w, Ok (map_err (fun _ => Transport "") r)).
(** [tokio::time::timeout] *)
Definition timely {A} (late : string) (m : room (session A)) : room (session A) := fun w =>
  if in_time w then m w else (w, Ok (Err (Transport late))).
Definition invitation_error {A} (r : invited A) : session A := map_err (fun _ => InvalidInput "invitation") r.

(** [for _ in 0..retry_policy.pairing_attempts.max(1)], of which [n] rounds are left. *)
Fixpoint pairing_rounds {A} (n : nat) (last : option CoreError) (round : room (session A)) : room A :=
  match n with
  | O => match last with Some e => fail e | None => throw Panicked end
  | S n =>
    r ← round;
    match r with Ok a => mret a | Err e => pairing_rounds n (Some e) round end
  end.
Definition attempts_of (policy : RendezvousRetryPolicy) : nat := Z.to_nat (Z.max 1 (pairing_attempts policy)).

Section Pairing.
Context `{InviteLibs, PakeLibs, Json ContextBundle, Json (DescriptorBundle EndpointAddr)}.
(** The randomness of SPAKE2, for each join made so far. *)
Variable seeds : nat -> list byte.

(** What both kinds of pairing do in a round, once the join is known. *)
Definition join_room (join : Join) (policy : RendezvousRetryPolicy) : room (Role * BootstrapKind) :=
  _ ← on_event (EvPairing Joining);
  session ← join_broker_with_retry join policy;
  _ ← on_event (EvPairing Matched);
  mret session.
Definition control_handshake (role : Role) (selected : BootstrapKind) (password : str)
    (context : InvitationControlContext) (public_context : option (list byte)) : room (session AuthenticatedControl) :=
  timely "rendezvous pairing stalled" (fun w =>
    on_stream (authenticate_invitation role selected password context public_context (seeds (length (joins_sent w)))) w).

Definition invitation_round (b : InvitationBootstrap) (public_context : option (list byte))
    (policy : RendezvousRetryPolicy) : room (session AuthenticatedControl) :=
  match invitation_join b with
  | None => throw Panicked
  | Some join =>
    '(role, selected) ← join_room join policy;
    context ← returns (invitation_error (bootstrap_control_context b selected));
    password ← returns (invitation_error (bootstrap_password b selected));
    control_handshake role selected password context public_context
  end.
Definition authenticate_in_room_retrying (b : InvitationBootstrap) (public_context : option (list byte))
    (policy : RendezvousRetryPolicy) : room AuthenticatedControl :=
  pairing_rounds (attempts_of policy) None (invitation_round b public_context policy).

Definition remembered_round (s : RememberedSession) (local_role : TransferRole) (context : InvitationControlContext)
    (policy : RendezvousRetryPolicy) : room (session AuthenticatedControl) :=
  '(role, selected) ← join_room (remembered_join s local_role) policy;
  control_handshake role selected (remembered_password s) context None.
Definition authenticate_remembered_in_room_retrying (s : RememberedSession) (local_role : TransferRole)
    (policy : RendezvousRetryPolicy) : room AuthenticatedControl :=
  context ← returns (remembered_control_context s);
  pairing_rounds (attempts_of policy) None (remembered_round s local_role context policy).

(** [pair_or_cancel] and [pair_remembered_or_cancel] *)
Definition timed_out (message : string) (timeout : bool) : option CoreError :=
  if timeout then Some (Transport message) else None.
Definition pair_or_cancel (b : InvitationBootstrap) (public_context : option (list byte))
    (policy : RendezvousRetryPolicy) (timeout : bool) : room AuthenticatedControl :=
  or_cleanup (race (timed_out "rendezvous pairing timed out" timeout) (authenticate_in_room_retrying b public_context policy))
    (close_endpoint RendezvousEndpoint).
Definition pair_remembered_or_cancel (s : RememberedSession) (local_role : TransferRole)
    (policy : RendezvousRetryPolicy) (timeout : bool) : room AuthenticatedControl :=
  or_cleanup (race (timed_out "remembered rendezvous pairing timed out" timeout)
                (authenticate_remembered_in_room_retrying s local_role policy))
    (close_endpoint RendezvousEndpoint).

Definition authenticate_room (b : InvitationBootstrap) (config : SessionConfig) (timeout : bool)
    : room AuthenticatedControl :=
  _ ← open_endpoint RendezvousEndpoint;
  public_context ← returns (invitation_error (creator_public_context b));
  or_cleanup (pair_or_cancel b public_context (rendezvous_retry config) timeout) (close_endpoint RendezvousEndpoint).
Definition validate_authenticated_context (b : InvitationBootstrap) (c : AuthenticatedControl) : room unit :=
  now ← unix_now;
  returns (invitation_error (validate_control_context b (ac_method c) (peer_public_context c) now)).
Definition exchange_descriptor_or_cancel (c : AuthenticatedControl) (mine : option EndpointAddr)
    : room (RoomPairing (option EndpointAddr)) :=
  race (Some (Transport "rendezvous descriptor exchange stalled"))
    (r ← on_stream (exchange_descriptor c mine); returns r).
Definition finish_invitation_pairing (b : InvitationBootstrap) (p : RoomPairing (option EndpointAddr)) : room PairingConfig :=
  now ← unix_now;
  '(password, context) ← returns (invitation_error
    (finish_control b (rp_method p) (rp_public_context p) (rp_control_key p) (control_transcript p) now));
  returns (invitation_v2 password context).
Definition require_bootstrap_role (b : InvitationBootstrap) (expected : TransferRole) : room unit :=
  throw_if (negb (bool_decide (bootstrap_local_role b = expected)))
    (Returned (InvalidInput "invitation transfer role conflicts with selected operation")).

Definition pair_room_sender (b : InvitationBootstrap) (config : SessionConfig) : room (EndpointAddr * PairingConfig) :=
  control ← authenticate_room b config true;
  _ ← validate_authenticated_context b control;
  pairing ← exchange_descriptor_or_cancel control None;
  _ ← close_endpoint RendezvousEndpoint;
  _ ← on_event (EvPairing Exchanged);
  auth ← finish_invitation_pairing b pairing;
  match rp_peer pairing with
  | None => fail (Protocol "receiver omitted endpoint descriptor")
  | Some peer => mret (peer, auth)
  end.
(** [my_addr] is what [ready_endpoint_addr] gives. *)
Definition complete_receiver_pairing (c : AuthenticatedControl) (my_addr : EndpointAddr) (b : InvitationBootstrap)
    : room PairingConfig :=
  pairing ← exchange_descriptor_or_cancel c (Some my_addr);
  _ ← on_event (EvPairing Exchanged);
  _ ← on_event EvConnecting;
  finish_invitation_pairing b pairing.
End Pairing.

(** ** Transfers through a room *)

Definition WIFI_AWARE_TRANSPORT_ID : Z := 0x656e766f6978.
Definition is_wifi_aware (a : TransportAddr) : bool :=
  match a with AddrCustom id _ => id =? WIFI_AWARE_TRANSPORT_ID | _ => false end.
Definition wifi_aware_first_peer (room_peer wifi_aware_peer : EndpointAddr) : session EndpointAddr :=
  if negb (bool_decide (ep_id room_peer = ep_id wifi_aware_peer))
  then Err (Crypto "Wi-Fi Aware peer identity does not match the authenticated room peer")
  else
    let custom_addrs := List.filter is_wifi_aware (ep_addrs wifi_aware_peer) in
    if bool_decide (custom_addrs = [])
    then Err (InvalidInput "Wi-Fi Aware bootstrap produced no custom peer address")
    else Ok (mkEndpointAddr (ep_id room_peer) custom_addrs).

Definition invitation_consumed (e : CoreError) : CoreError :=
  match e with InvitationConsumed _ => e | _ => InvitationConsumed e end.
Definition classify_hybrid_failure (e : CoreError) (authenticated connected : bool) : CoreError :=
  if authenticated then invitation_consumed e
  else match e with
       | Transport detail => if negb connected then CauseError NearbyHybridPreAuthTransportFailure detail else e
       | _ => e
       end.
Definition should_retry_room_with_relay (config : SessionConfig) (e : CoreError)
    (sender_phase : option SenderTransferPhaseV2) : bool :=
  negb (relay_only config) && bool_decide (is_Some (data_relay config))
  && bool_decide (sender_phase = Some Offering)
  && match e with
     | Transport _ => true
     | Protocol message => bool_decide (message = "authentication timed out"%string)
     | _ => false
     end.

(** An attempt over a data connection: whether the handler of authentication was
    called ([TrackedAuthentication]), whether the connection was announced
    ([TrackedHybridEvents]), the files of the sender's store, and the result. *)
Record Attempt (A : Type) := mkAttempt {
  authenticated : bool;
  connected : bool;
  at_store : files;
  at_result : session A;
}.
Arguments mkAttempt {A}.
Arguments authenticated {A}.
Arguments connected {A}.
Arguments at_store {A}.
Arguments at_result {A}.
(** A step of the world that ends in an attempt, as a call. *)
Abbreviation attempted A := (RoomWorld -> RoomWorld * Attempt A).
Definition perform {A} (f : attempted A) : room (Attempt A) := fun w => let '(w', a) := f w in (w', Ok a).

Section Transfers.
Context `{InviteLibs, PakeLibs, Json ContextBundle, Json (DescriptorBundle EndpointAddr)}.
Context `{DeliveryRecord SenderDeliveryRecordV2}.
Variable seeds : nat -> list byte.
Context {Summary Pending : Type}.
Variable send_offer : EndpointAddr -> SessionConfig -> PairingConfig -> attempted Summary.
Variable send_from_endpoint : EndpointAddr -> PairingConfig -> attempted Summary.
Variable receive_offer : PairingConfig -> attempted Pending.

Definition sender_delivery_phase (store : files) (job : option JobGenerationV2) : option SenderTransferPhaseV2 :=
  identity ← job;
  match load store identity with Ok (Some r) => Some (sd_phase r) | _ => None end.
Definition start_manifest_v2_receive_attempt : room unit := record_stage SessionStarted.
Definition start_manifest_v2_send_attempt (job : option JobGenerationV2) : room unit :=
  match job with
  | None => fail (InvalidInput "transfer job must be sealed before dialing")
  | Some _ => record_stage SessionStarted
  end.

Definition receive_via_room (b : InvitationBootstrap) (config : SessionConfig) (my_addr : EndpointAddr) : room Pending :=
  _ ← require_bootstrap_role b TransferReceiver;
  control ← authenticate_room seeds b config false;
  _ ← validate_authenticated_context b control;
  _ ← start_manifest_v2_receive_attempt;
  _ ← or_cleanup (open_endpoint DataEndpoint) (_ ← record_failure; close_endpoint RendezvousEndpoint);
  auth ← or_cleanup (complete_receiver_pairing control my_addr b)
           (_ ← record_failure; _ ← close_endpoint DataEndpoint; close_endpoint RendezvousEndpoint);
  _ ← close_endpoint RendezvousEndpoint;
  attempt ← perform (receive_offer auth);
  returns (if authenticated attempt then map_err invitation_consumed (at_result attempt) else at_result attempt).

Definition close_hybrid : room unit := _ ← close_endpoint DataEndpoint; close_endpoint DatagramBridge.
(** [bind_hybrid_datagram_endpoint] opens both or, when it fails, leaves neither: what
    it had built by then is dropped when it returns the error. *)
Definition bind_hybrid : room unit := open_all [DataEndpoint; DatagramBridge].
Definition hybrid_diagnostic : string :=
  "Nearby hybrid endpoint admitted Wi-Fi Aware with iroh IP fallback discovery".

Definition receive_via_room_hybrid (b : InvitationBootstrap) (config : SessionConfig) (my_addr : EndpointAddr) : room Pending :=
  _ ← require_bootstrap_role b TransferReceiver;
  _ ← start_manifest_v2_receive_attempt;
  _ ← or_cleanup bind_hybrid record_failure;
  _ ← on_event (EvDiagnostic hybrid_diagnostic);
  control ← or_cleanup (authenticate_room seeds b config false) (_ ← record_failure; close_hybrid);
  _ ← or_cleanup (validate_authenticated_context b control)
        (_ ← record_stage Failed; _ ← close_hybrid; close_endpoint RendezvousEndpoint);
  auth ← or_cleanup (complete_receiver_pairing control my_addr b)
           (_ ← record_failure; _ ← close_hybrid; close_endpoint RendezvousEndpoint);
  _ ← close_endpoint RendezvousEndpoint;
  attempt ← perform (receive_offer auth);
  or_cleanup (returns (map_err (fun e => classify_hybrid_failure e (authenticated attempt) (connected attempt)) (at_result attempt)))
    close_hybrid.

Definition receive_via_remembered (broker_binding : str) (s : RememberedSession) (config : SessionConfig)
    (my_addr : EndpointAddr) : room Pending :=
  _ ← open_endpoint RendezvousEndpoint;
  control ← pair_remembered_or_cancel seeds s TransferReceiver (rendezvous_retry config) false;
  _ ← start_manifest_v2_receive_attempt;
  _ ← or_cleanup (open_endpoint DataEndpoint) (_ ← record_failure; close_endpoint RendezvousEndpoint);
  let cleanup := _ ← record_failure; _ ← close_endpoint DataEndpoint; close_endpoint RendezvousEndpoint in
  pairing ← or_cleanup (exchange_descriptor_or_cancel control (Some my_addr)) cleanup;
  _ ← on_event (EvPairing Exchanged);
  _ ← on_event EvConnecting;
  auth ← or_cleanup (returns (finish_pairing s broker_binding (rp_control_key pairing) (control_transcript pairing))) cleanup;
  _ ← close_endpoint RendezvousEndpoint;
  attempt ← perform (receive_offer auth);
  returns (at_result attempt).

Definition send_via_room (b : InvitationBootstrap) (job : option JobGenerationV2) (config : SessionConfig) : room Summary :=
  _ ← require_bootstrap_role b TransferSender;
  '(peer, auth) ← pair_room_sender seeds b config;
  first ← perform (send_offer peer config auth);
  match at_result first with
  | Ok summary => mret summary
  | Err e =>
    if authenticated first then fail (invitation_consumed e)
    else if negb (should_retry_room_with_relay config e (sender_delivery_phase (at_store first) job)) then fail e
    else
      _ ← on_event (EvDiagnostic "direct connection failed before the offer; retrying through the relay");
      second ← perform (send_offer peer (with_relay_only config) auth);
      returns (if authenticated second then map_err invitation_consumed (at_result second) else at_result second)
  end.

Definition send_via_remembered (broker_binding : str) (s : RememberedSession) (config : SessionConfig) : room Summary :=
  _ ← open_endpoint RendezvousEndpoint;
  control ← pair_remembered_or_cancel seeds s TransferSender (rendezvous_retry config) true;
  pairing ← exchange_descriptor_or_cancel control None;
  _ ← close_endpoint RendezvousEndpoint;
  _ ← on_event (EvPairing Exchanged);
  auth ← returns (finish_pairing s broker_binding (rp_control_key pairing) (control_transcript pairing));
  match rp_peer pairing with
  | None => fail (Protocol "receiver omitted endpoint descriptor")
  | Some peer => attempt ← perform (send_offer peer config auth); returns (at_result attempt)
  end.

(** [wifi_aware_peer] is the peer of the datagram channel. *)
Definition send_via_room_hybrid (b : InvitationBootstrap) (job : option JobGenerationV2) (config : SessionConfig)
    (wifi_aware_peer : EndpointAddr) : room Summary :=
  _ ← require_bootstrap_role b TransferSender;
  _ ← start_manifest_v2_send_attempt job;
  _ ← or_cleanup bind_hybrid record_failure;
  _ ← on_event (EvDiagnostic hybrid_diagnostic);
  '(room_peer, auth) ← or_cleanup (pair_room_sender seeds b config) (_ ← record_failure; close_hybrid);
  peer ← or_cleanup (returns (wifi_aware_first_peer room_peer wifi_aware_peer)) (_ ← record_stage Failed; close_hybrid);
  attempt ← perform (send_from_endpoint peer auth);
  _ ← close_endpoint DatagramBridge;
  returns (map_err (fun e => classify_hybrid_failure e (authenticated attempt) (connected attempt)) (at_result attempt)).
End Transfers.
