(* ===== verification/RoomSessionProof.v ===== *)
(** Pairing through a room: how often a client joins and how long it waits, that
    the two ends of one invitation, and two remembered devices, pair with each other
    and configure the same authentication, that a consumed invitation is not used
    again, and that a failed nearby transfer releases what it opened. *)

From stdpp Require Import prelude strings.
From Stdlib Require Import ZArith Lia Strings.Byte.
From S2P Require Import Prelude Bytes Text BrokerConfig CoreError Frames Timeline Delivery Proc Invite InviteProof.
From S2P Require Import Pairing PairingProof Auth AuthProof RoomSession.

Local Open Scope Z_scope.

(** ** How often a client joins *)

(** From [w] to [w'] the client has made at most [n] joins, all of them this one,
    and waited after at most [k] of them, each time no longer than the policy
    allows. *)
Definition joined_within (join : Join) (policy : RendezvousRetryPolicy) (n k : nat) (w w' : RoomWorld) : Prop :=
  exists js ds, joins_sent w' = joins_sent w ++ js /\ slept w' = slept w ++ ds /\
    Forall (eq join) js /\ Forall (fun d => d <= max_retry_after policy) ds /\
    (length js <= n)%nat /\ (length ds <= k)%nat.

Lemma within_trans join policy n k n' k' w1 w2 w3 :
  joined_within join policy n k w1 w2 -> joined_within join policy n' k' w2 w3 ->
  joined_within join policy (n + n') (k + k') w1 w3.
Proof.
  intros (js & ds & Hj & Hd & Hjs & Hds & Hn & Hk) (js' & ds' & Hj' & Hd' & Hjs' & Hds' & Hn' & Hk').
  exists (js ++ js'), (ds ++ ds'). rewrite Hj', Hd', Hj, Hd, !app_assoc, !length_app.
  split_and!; [done|done|by apply Forall_app|by apply Forall_app|lia|lia].
Qed.
Lemma within_mono join policy n k n' k' w w' : (n <= n')%nat -> (k <= k')%nat ->
  joined_within join policy n k w w' -> joined_within join policy n' k' w w'.
Proof. intros ? ? (js & ds & ? & ? & ? & ? & ? & ?). exists js, ds. split_and!; (done || lia). Qed.
(** Steps that neither join nor wait. *)
Definition quiet (w w' : RoomWorld) : Prop := joins_sent w' = joins_sent w /\ slept w' = slept w.
Lemma quiet_within join policy w w' : quiet w w' -> joined_within join policy 0 0 w w'.
Proof. intros [Hj Hs]. exists [], []. rewrite Hj, Hs, !app_nil_r. by split_and!. Qed.

Lemma join_invitation_run join w : exists joined w', join_invitation join w = (w', Ok joined) /\
  joins_sent w' = joins_sent w ++ [join] /\ slept w' = slept w.
Proof. unfold join_invitation. destruct (answers w) as [|[[]|] ?]; eauto. Qed.
Lemma retry_delay_ok r retry policy d : broker_retry_delay r retry policy = Some d ->
  retry < server_retries policy /\ retryable_broker_outcome (outcome r) = true /\ d <= max_retry_after policy.
Proof.
  unfold broker_retry_delay. destruct (retry_after r) as [secs|]; [|done]. cbn.
  destruct (_ && _ && _) eqn:Hg; [|done]. intros [= <-]. bool_prop. split_and!; [lia|done|lia].
Qed.

Lemma join_rounds_bounded n retry join policy w w' r :
  Z.of_nat n = server_retries policy - retry ->
  join_rounds (S n) retry join policy w = (w', r) -> r <> Err Panicked /\ joined_within join policy (S n) n w w'.
Proof.
  revert retry w. induction n as [|n IH]; intros retry w Hn; destruct (join_invitation_run join w) as (joined & w1 & Hrun & Hj & Hs);
    remember (S n) as m eqn:Hm || idtac; cbn [join_rounds]; erewrite proc_bind_eq by exact Hrun; subst;
    (assert (H1 : joined_within join policy 1 0 w w1)
      by (exists [join], []; rewrite Hj, Hs, app_nil_r; split_and!; try done; by repeat constructor));
    (destruct joined as [session|[rejection|message|]]; [| | |]);
    try (intros [= <- <-]; split; [done|eapply within_mono; [| |exact H1]; lia]);
    (destruct (broker_retry_delay rejection retry policy) as [d|] eqn:Hd;
      [|intros [= <- <-]; split; [done|eapply within_mono; [| |exact H1]; lia]]);
    apply retry_delay_ok in Hd as (Hlt & _ & Hmax); [lia|].
  erewrite proc_bind_eq by reflexivity. intros Hr. apply IH in Hr as [Hp Hw]; [|lia]. split; [done|].
  apply (within_mono _ _ (1 + (0 + S n)) (0 + (1 + n))); [lia..|].
  eapply within_trans; [exact H1|]. eapply within_trans; [|exact Hw].
  exists [], [d]. cbn. rewrite app_nil_r. split_and!; try done. by repeat constructor.
Qed.
Lemma join_broker_bounded join policy w w' r : 0 <= server_retries policy ->
  join_broker_with_retry join policy w = (w', r) ->
  r <> Err Panicked /\
  joined_within join policy (S (Z.to_nat (server_retries policy))) (Z.to_nat (server_retries policy)) w w'.
Proof. intros Hs. apply join_rounds_bounded. lia. Qed.

(** A round of a loop over attempts to pair. *)
Definition round_bounded {A} (join : Join) (policy : RendezvousRetryPolicy) (n k : nat) (m : room A) : Prop :=
  forall w w' r, m w = (w', r) -> r <> Err Panicked /\ joined_within join policy n k w w'.
Lemma bounded_bind {A B} join policy n k n' k' (m : room A) (f : A -> room B) :
  round_bounded join policy n k m -> (forall a, round_bounded join policy n' k' (f a)) ->
  round_bounded join policy (n + n') (k + k') (m ≫= f).
Proof.
  intros Hm Hf w w' r [(e & Hrun & ->)|(w1 & a & Hrun & Hr)]%bind_run.
  - apply Hm in Hrun as [Hp Hw]. split; [congruence|]. eapply within_mono; [| |exact Hw]; lia.
  - apply Hm in Hrun as [_ Hw]. apply Hf in Hr as [Hp Hw']. split; [done|]. by eapply within_trans.
Qed.
Lemma bounded_quiet {A} join policy (m : room A) :
  (forall w, quiet w (m w).1 /\ (m w).2 <> Err Panicked) -> round_bounded join policy 0 0 m.
Proof. intros Hm w w' r Hr. specialize (Hm w). rewrite Hr in Hm. split; [apply Hm|apply quiet_within, Hm]. Qed.
Lemma bounded_mono {A} join policy n k n' k' (m : room A) : (n <= n')%nat -> (k <= k')%nat ->
  round_bounded join policy n k m -> round_bounded join policy n' k' m.
Proof. intros Hn Hk Hm w w' r Hr. apply Hm in Hr as [? ?]. split; [done|]. by eapply within_mono. Qed.

Lemma pairing_rounds_bounded {A} n last join policy p q (round : room (session A)) :
  (n <> 0%nat \/ is_Some last) -> round_bounded join policy p q round ->
  round_bounded join policy (n * p) (n * q) (pairing_rounds n last round).
Proof.
  revert last. induction n as [|n IH]; intros last Hn Hround; cbn [pairing_rounds].
  - destruct Hn as [|[e ->]]; [done|]. apply bounded_quiet. done.
  - cbn [Nat.mul]. apply bounded_bind; [done|]. intros [a|e].
    + apply (bounded_mono _ _ 0 0); [lia..|]. apply bounded_quiet. done.
    + apply IH; [right; eauto|done].
Qed.

Section Bounded.
Context `{InviteLibs, PakeLibs, Json ContextBundle}.
Variable seeds : nat -> list byte.

Lemma join_room_bounded join policy : 0 <= server_retries policy ->
  round_bounded join policy (S (Z.to_nat (server_retries policy))) (Z.to_nat (server_retries policy)) (join_room join policy).
Proof.
  intros Hs. pose proof (fun w w' r => join_broker_bounded join policy w w' r Hs) as Hjoin.
  generalize dependent (Z.to_nat (server_retries policy)). intros retries Hjoin.
  apply (bounded_mono _ _ (0 + (S retries + 0)) (0 + (retries + 0))); [lia..|].
  apply bounded_bind; [by apply bounded_quiet|]. intros _. apply bounded_bind.
  - exact Hjoin.
  - intros session. apply (bounded_bind _ _ 0 0 0 0); intros; apply bounded_quiet; done.
Qed.
Lemma handshake_bounded join policy role selected password context public :
  round_bounded join policy 0 0 (control_handshake seeds role selected password context public).
Proof.
  apply bounded_quiet. intros w. unfold control_handshake, timely. destruct (in_time w); [|done].
  unfold on_stream. by destruct (authenticate_invitation _ _ _ _ _ _ _).
Qed.
Lemma returns_bounded {A} join policy (r : session A) : round_bounded join policy 0 0 (returns r).
Proof. apply bounded_quiet. intros w. by destruct r. Qed.

(** A client does not wear the broker out: however the broker answers, a
    pairing joins only the room it was given, at most [server_retries + 1] times for
    each of its attempts, waits at most [server_retries] times for each and never
    longer than the policy's longest delay, and its two loops return, without
    reaching the panics that end them. *)
Theorem room_joins_bounded policy : 0 <= server_retries policy ->
  let retries := Z.to_nat (server_retries policy) in
  let n := (attempts_of policy * S retries)%nat in let k := (attempts_of policy * retries)%nat in
  (forall b join public w w' r, invitation_join b = Some join ->
     authenticate_in_room_retrying seeds b public policy w = (w', r) ->
     r <> Err Panicked /\ joined_within join policy n k w w') /\
  (forall s local_role w w' r, authenticate_remembered_in_room_retrying seeds s local_role policy w = (w', r) ->
     r <> Err Panicked /\ joined_within (remembered_join s local_role) policy n k w w').
Proof.
  intros Hs. pose proof (fun join => join_room_bounded join policy Hs) as Hroom. cbv zeta.
  generalize dependent (Z.to_nat (server_retries policy)). intros retries Hroom. assert (Ha : attempts_of policy <> 0%nat) by (unfold attempts_of; lia).
  split; [intros b join public w w' r Hj|intros s local_role w w' r].
  - revert w w' r. apply pairing_rounds_bounded; [by left|]. unfold invitation_round. rewrite Hj.
    apply (bounded_mono _ _ (S retries + 0) (retries + 0)); [lia..|]. apply bounded_bind; [apply Hroom|].
    intros [role selected]. apply (bounded_bind _ _ 0 0 0 0); [apply returns_bounded|]. intros context.
    apply (bounded_bind _ _ 0 0 0 0); [apply returns_bounded|]. intros password. apply handshake_bounded.
  - revert w w' r. apply (bounded_bind _ _ 0 0 (attempts_of policy * S retries) (attempts_of policy * retries)); [apply returns_bounded|].
    intros context. apply pairing_rounds_bounded; [by left|].
    apply (bounded_mono _ _ (S retries + 0) (retries + 0)); [lia..|]. apply bounded_bind; [apply Hroom|].
    intros [role selected]. apply handshake_bounded.
Qed.
End Bounded.

(** ** Two ends pair *)

(** Six digits are no other kind of room. *)
Lemma six_no_prefix room prefix : six_digits room = true ->
  match prefix with b :: _ => is_ascii_digit b = false | [] => False end -> strip_prefix prefix room = None.
Proof.
  unfold six_digits, strip_prefix. intros [_ Hd]%andb_true_iff Hp. destruct prefix as [|b prefix]; [done|].
  rewrite bool_decide_eq_false_2; [done|]. destruct room as [|a room]; [done|]. cbn. intros [= -> _].
  cbn in Hd. by rewrite Hp in Hd.
Qed.

(** A client that has done nothing yet, whose broker answers its join by pairing it
    in this role by this method, and then relays these messages of the peer. *)
Definition matched (role : Role) (selected : BootstrapKind) (relayed : list PairingMessage) (entropy : list byte)
    (clock : list (session Z)) : RoomWorld :=
  mkRoomWorld [Replied (ReplyPaired (mkPaired role selected)) relayed true] [] [] [] (mkControl [] [] entropy) true [] false
    [] [] clock [].
(** The same client when its handshake is over. *)
Definition after_handshake (join : Join) (s : Control) (clock : list (session Z)) : RoomWorld :=
  mkRoomWorld [] [join] [] [EvPairing Joining; EvPairing Matched] s true [] false [] [RendezvousEndpoint] clock [].
Definition pairing_entropy : nat := PAKE_NONCE_LEN + BUNDLE_NONCE_LEN + BUNDLE_NONCE_LEN.

Section Pairs.
Context `{InviteLibs, !InviteLaws, PakeLibs, !PakeLaws, !EncodingLaws}.
Context `{Json ContextBundle, !JsonLaws ContextBundle}.
Context `{Json (DescriptorBundle EndpointAddr), !JsonLaws (DescriptorBundle EndpointAddr)}.
Variable seeds : nat -> list byte.

(** The broker's session of a client, from its first join. *)
Lemma client_join_matched join role selected relayed e clock opened policy :
  join_room join policy
    (mkRoomWorld [Replied (ReplyPaired (mkPaired role selected)) relayed true] [] [] [] (mkControl [] [] e) true [] false [] opened clock [])
  = (mkRoomWorld [] [join] [] [EvPairing Joining; EvPairing Matched] (mkControl relayed [] e) true [] false [] opened clock [],
     Ok (role, selected)).
Proof. done. Qed.
Lemma handshake_matched role selected password context public join relayed e clock opened s c evs :
  authenticate_invitation role selected password context public (seeds 1) (mkControl relayed [] e) = (s, Ok c) ->
  control_handshake seeds role selected password context public
    (mkRoomWorld [] [join] [] evs (mkControl relayed [] e) true [] false [] opened clock [])
  = (mkRoomWorld [] [join] [] evs s true [] false [] opened clock [], Ok (Ok c)).
Proof. intros Hrun. unfold control_handshake, timely, on_stream. cbn. by rewrite Hrun. Qed.
Lemma first_round_wins {A} policy (round : room (session A)) w w' a :
  round w = (w', Ok (Ok a)) -> pairing_rounds (attempts_of policy) None round w = (w', Ok a).
Proof.
  intros Hr. destruct (attempts_of policy) as [|n] eqn:Hn; [unfold attempts_of in Hn; lia|].
  cbn [pairing_rounds]. by erewrite proc_bind_eq by exact Hr.
Qed.
Lemma cleanup_ok {A} (m : room A) cleanup w w' a : m w = (w', Ok a) -> or_cleanup m cleanup w = (w', Ok a).
Proof. intros Hm. unfold or_cleanup, attempt, mbind, proc_bind. by rewrite Hm. Qed.

Lemma authenticate_room_run b config timeout join role selected context password public relayed e clock s c :
  invitation_join b = Some join -> bootstrap_control_context b selected = Ok context ->
  bootstrap_password b selected = Ok password -> creator_public_context b = Ok public ->
  authenticate_invitation role selected password context public (seeds 1) (mkControl relayed [] e) = (s, Ok c) ->
  authenticate_room seeds b config timeout (matched role selected relayed e clock) = (after_handshake join s clock, Ok c).
Proof.
  intros Hj Hc Hp Hpub Hrun. unfold authenticate_room. erewrite proc_bind_eq by reflexivity.
  rewrite Hpub. erewrite proc_bind_eq by reflexivity. apply cleanup_ok, cleanup_ok, first_round_wins.
  unfold invitation_round. rewrite Hj. erewrite proc_bind_eq by apply client_join_matched. cbv beta iota.
  rewrite Hc, Hp. erewrite proc_bind_eq by reflexivity. erewrite proc_bind_eq by reflexivity. by apply handshake_matched.
Qed.

(** A bundle that has a JSON text which, sealed, goes into a control frame. *)
Definition sendable {A} `{Json A} (a : A) : Prop := exists json, to_json a = Some json /\ sealed_fits json.

(** Handshake and descriptors of two ends with one context and one password, each
    fed what the other writes. *)
Lemma controls_pair password context pub_i pub_r di dr seed_i seed_r ei er :
  sendable (mkContextBundle pub_i) -> sendable (mkContextBundle pub_r) ->
  sendable (mkDescriptorBundle di) -> sendable (mkDescriptorBundle dr) ->
  (pairing_entropy <= length ei)%nat -> (pairing_entropy <= length er)%nat ->
  exists from_i from_r si si' sr sr' ci cr pi pr,
    authenticate_invitation Initiator (cc_selected context) password context pub_i seed_i (mkControl from_r [] ei) = (si, Ok ci) /\
    exchange_descriptor ci di si = (si', Ok pi) /\ ct_written si' = from_i /\
    authenticate_invitation Responder (cc_selected context) password context pub_r seed_r (mkControl from_i [] er) = (sr, Ok cr) /\
    exchange_descriptor cr dr sr = (sr', Ok pr) /\ ct_written sr' = from_r /\
    ac_method ci = cc_selected context /\ ac_method cr = cc_selected context /\
    peer_public_context ci = pub_r /\ peer_public_context cr = pub_i /\
    rp_peer pi = dr /\ rp_peer pr = di /\ rp_public_context pi = pub_r /\ rp_public_context pr = pub_i /\
    rp_method pi = cc_selected context /\ rp_method pr = cc_selected context /\
    rp_control_key pi = rp_control_key pr /\ control_transcript pi = control_transcript pr.
Proof.
  intros (ji & Hji & Hli) (jr & Hjr & Hlr) (ki & Hki & Hmi) (kr & Hkr & Hmr) Hei Her. unfold pairing_entropy in *.
  destruct (authenticate_runs password context pub_i pub_r ji jr seed_i seed_r ei er)
    as (mi & mr & ci & cr & Hi & Hr & Hends & Hpi & Hpr & Hm); [done..|lia|lia|].
  set (ei' := drop BUNDLE_NONCE_LEN (drop PAKE_NONCE_LEN ei)) in *. set (er' := drop BUNDLE_NONCE_LEN (drop PAKE_NONCE_LEN er)) in *.
  assert (Hei' : (BUNDLE_NONCE_LEN <= length ei')%nat) by (unfold ei'; rewrite !length_drop; lia).
  assert (Her' : (BUNDLE_NONCE_LEN <= length er')%nat) by (unfold er'; rewrite !length_drop; lia).
  destruct (descriptors_run ci cr di dr ki kr ei' er') as (si & sr & pi & pr & Hdi & Hdr & Hrest); [done..|].
  destruct Hrest as (Hp1 & Hp2 & Hc1 & Hc2 & Hm1 & Hm2 & Hk & Ht). pose proof Hends as (_ & _ & Hmm & _).
  exists (mi ++ [SealedBundle si]), (mr ++ [SealedBundle sr]). eexists _, _, _, _, ci, cr, pi, pr.
  split_and!; [apply Hi|apply Hdi|done|apply Hr|apply Hdr|done|congruence..].
Qed.

(** The operations of the two ends, after what they share. *)
Lemma sender_pairs b config join role selected context password public relayed e t1 t2 s1 c s2 p peer binding key_password :
  invitation_join b = Some join -> bootstrap_control_context b selected = Ok context ->
  bootstrap_password b selected = Ok password -> creator_public_context b = Ok public ->
  authenticate_invitation role selected password context public (seeds 1) (mkControl relayed [] e) = (s1, Ok c) ->
  validate_control_context b (ac_method c) (peer_public_context c) t1 = Ok tt ->
  exchange_descriptor c None s1 = (s2, Ok p) -> rp_peer p = Some peer ->
  finish_control b (rp_method p) (rp_public_context p) (rp_control_key p) (control_transcript p) t2 = Ok (key_password, binding) ->
  config_valid (InvitationV2 key_password binding) = Ok tt ->
  exists w, pair_room_sender seeds b config (matched role selected relayed e [Ok t1; Ok t2])
      = (w, Ok (peer, InvitationV2 key_password binding)) /\ stream w = s2.
Proof.
  intros Hj Hc Hp Hpub Hauth Hv Hx Hpeer Hf Hok. eexists. split.
  - unfold pair_room_sender. erewrite proc_bind_eq by (eapply authenticate_room_run; eassumption).
    erewrite proc_bind_eq by (unfold validate_authenticated_context; erewrite proc_bind_eq by reflexivity; by rewrite Hv).
    erewrite proc_bind_eq by (unfold exchange_descriptor_or_cancel, race, on_stream, mbind, proc_bind; cbn; by rewrite Hx).
    erewrite proc_bind_eq by reflexivity. erewrite proc_bind_eq by reflexivity.
    erewrite proc_bind_eq by (unfold finish_invitation_pairing; erewrite proc_bind_eq by reflexivity; rewrite Hf;
      erewrite proc_bind_eq by reflexivity; unfold invitation_v2, checked_config; by rewrite Hok).
    by rewrite Hpeer.
  - done.
Qed.
Lemma receiver_pairs {Pending} (receive_offer : PairingConfig -> attempted Pending) b config my_addr join role selected context
    password public relayed e t1 t2 s1 c s2 p binding key_password :
  bootstrap_local_role b = TransferReceiver ->
  invitation_join b = Some join -> bootstrap_control_context b selected = Ok context ->
  bootstrap_password b selected = Ok password -> creator_public_context b = Ok public ->
  authenticate_invitation role selected password context public (seeds 1) (mkControl relayed [] e) = (s1, Ok c) ->
  validate_control_context b (ac_method c) (peer_public_context c) t1 = Ok tt ->
  exchange_descriptor c (Some my_addr) s1 = (s2, Ok p) ->
  finish_control b (rp_method p) (rp_public_context p) (rp_control_key p) (control_transcript p) t2 = Ok (key_password, binding) ->
  config_valid (InvitationV2 key_password binding) = Ok tt ->
  exists w, receive_via_room seeds receive_offer b config my_addr (matched role selected relayed e [Ok t1; Ok t2])
      = (attempt ← perform (receive_offer (InvitationV2 key_password binding));
         returns (if authenticated attempt then map_err invitation_consumed (at_result attempt) else at_result attempt)) w /\
    stream w = s2 /\ is_open w = [DataEndpoint].
Proof.
  intros Hrole Hj Hc Hp Hpub Hauth Hv Hx Hf Hok. eexists. split.
  - unfold receive_via_room, require_bootstrap_role. rewrite Hrole. erewrite proc_bind_eq by reflexivity.
    erewrite proc_bind_eq by (eapply authenticate_room_run; eassumption).
    erewrite proc_bind_eq by (unfold validate_authenticated_context; erewrite proc_bind_eq by reflexivity; by rewrite Hv).
    erewrite proc_bind_eq by reflexivity. erewrite proc_bind_eq by (apply cleanup_ok; reflexivity).
    erewrite proc_bind_eq.
    2:{ apply cleanup_ok. unfold complete_receiver_pairing.
        erewrite proc_bind_eq by (unfold exchange_descriptor_or_cancel, race, on_stream, mbind, proc_bind; cbn; by rewrite Hx).
        erewrite proc_bind_eq by reflexivity. erewrite proc_bind_eq by reflexivity.
        unfold finish_invitation_pairing; erewrite proc_bind_eq by reflexivity; rewrite Hf;
          erewrite proc_bind_eq by reflexivity; unfold invitation_v2, checked_config; by rewrite Hok. }
    by erewrite proc_bind_eq by reflexivity.
  - done.
Qed.

(** The joins of the two ends of an invitation are in order for the broker, which
    matches them. *)
Definition joins_meet (first second : Join) (selected : BootstrapKind) : Prop :=
  validate_join first = Ok tt /\ validate_join second = Ok tt /\
  joins_match first second = Some selected /\ joins_match second first = Some selected.
Lemma invitation_joins_meet c selected joiner broker relays role caps created read e e' :
  invite_create broker relays role caps created e = (e', Ok c) -> read < created_expires_at c -> joins_with c read selected joiner ->
  exists jc jj, invitation_join (created_end c) = Some jc /\ invitation_join joiner = Some jj /\ joins_meet jc jj selected /\
    role_for jc = Responder /\ role_for jj = Initiator.
Proof.
  intros Hcreate Hread Hjoin.
  pose proof (joiner_is c selected joiner broker relays role caps created read e e' Hcreate Hread Hjoin) as Hj.
  destruct (created_consistent _ _ _ _ _ _ _ _ _ Hcreate Hread) as (_ & _ & _ & Hm & Hcr & Hjr & Hcomp & Hcode).
  pose proof (code_ok_id _ Hcode) as Hsix. unfold created_end, invitation_join at 1. cbn [bootstrap_room_id].
  eexists _, _. split; [reflexivity|].
  destruct Hj as [[-> ->]|[-> ->]]; (split; [unfold invitation_join; cbn [bootstrap_room_id]; unfold room_id_from_context; rewrite ?Hm; reflexivity|]);
    (split; [|done]); unfold joins_meet, validate_join, joins_match;
    cbn [version room_id invitation_side transfer_role bootstrap_methods selected_bootstrap_method bootstrap_side bootstrap_local_role advertised_methods selected_method];
    rewrite Hsix, Hcr, ?Hjr, Hcomp; unfold is_remembered_room_id, is_room_control_locator;
    rewrite (six_no_prefix _ _ Hsix), (six_no_prefix _ _ Hsix) by done;
    by destruct (created_creator_role c).
Qed.
End Pairs.

Section Agree.
Context `{InviteLibs, !InviteLaws, PakeLibs, !PakeLaws, !EncodingLaws}.
Context `{Json ContextBundle, !JsonLaws ContextBundle}.
Context `{Json (DescriptorBundle EndpointAddr), !JsonLaws (DescriptorBundle EndpointAddr)}.

Lemma agreed_config_valid c selected broker relays role caps created e e' now key hash :
  invite_create broker relays role caps created e = (e', Ok c) -> now < created_expires_at c ->
  config_valid (InvitationV2 (agreed_password c selected key) (agreed_binding c selected hash)) = Ok tt.
Proof.
  intros Hc Hnow. destruct (created_consistent _ _ _ _ _ _ _ _ _ Hc Hnow) as (_ & _ & _ & _ & Hcr & Hjr & Hcomp & _).
  apply ensure_ok. apply andb_true_iff. split.
  - unfold agreed_password. destruct selected; apply encoded_password, hkdf_length.
  - apply bool_decide_eq_true. cbn. by rewrite Hcr, Hjr.
Qed.
Lemma created_side_public c bytes : creator_public_context (created_end c) = Ok (Some bytes) ->
  jcs_context (public_context (created_invitation c)) = Ok bytes.
Proof. cbn. intros Hb. inv_ok. by simplify_eq. Qed.
Lemma joiner_public c selected joiner broker relays role caps created read e e' :
  invite_create broker relays role caps created e = (e', Ok c) -> read < created_expires_at c -> joins_with c read selected joiner ->
  creator_public_context joiner = Ok None /\ bootstrap_local_role joiner = complement (bootstrap_local_role (created_end c)).
Proof.
  intros Hc Hr Hj. destruct (created_consistent _ _ _ _ _ _ _ _ _ Hc Hr) as (_ & _ & _ & _ & Hcr & Hjr & Hcomp & _).
  destruct (joiner_is c selected joiner _ _ _ _ _ _ _ _ Hc Hr Hj) as [[-> ->]|[-> ->]]; cbn; split; try done; congruence.
Qed.

(** An end of an invitation: what it asks of the broker, what it shows its peer and
    what it makes of what the peer shows. *)
Definition ready_end (c : CreatedInvitation) (selected : BootstrapKind) (password : str) (b : InvitationBootstrap)
    (join : Join) (role : Role) (public peer : option (list byte)) : Prop :=
  invitation_join b = Some join /\ role_for join = role /\
  bootstrap_control_context b selected = Ok (agreed_context c selected) /\
  bootstrap_password b selected = Ok password /\ creator_public_context b = Ok public /\
  forall now, now < created_expires_at c -> validate_control_context b selected peer now = Ok tt /\
    forall key hash, finish_control b selected peer key hash now = Ok (agreed_password c selected key, agreed_binding c selected hash).
Definition agreed_auth (c : CreatedInvitation) (selected : BootstrapKind) (p : RoomPairing (option EndpointAddr)) : PairingConfig :=
  InvitationV2 (agreed_password c selected (rp_control_key p)) (agreed_binding c selected (control_transcript p)).

Lemma both_ready c selected joiner bytes broker relays role caps created read e e' :
  invite_create broker relays role caps created e = (e', Ok c) -> read < created_expires_at c -> joins_with c read selected joiner ->
  creator_public_context (created_end c) = Ok (Some bytes) -> zlen bytes <= MAX_DECODED_PAYLOAD_LEN ->
  exists password jc jj, joins_meet jc jj selected /\
    ready_end c selected password (created_end c) jc Responder (Some bytes) None /\
    ready_end c selected password joiner jj Initiator None (Some bytes).
Proof.
  intros Hc Hread Hj Hcp Hlen. pose proof (created_side_public _ _ Hcp) as Hpub.
  destruct (invitation_joins_meet c selected joiner _ _ _ _ _ _ _ _ Hc Hread Hj) as (jc & jj & Hjc & Hjj & Hmeet & Hrc & Hrj).
  destruct (joiner_public c selected joiner _ _ _ _ _ _ _ _ Hc Hread Hj) as [Hjp _].
  destruct (ends_control c selected joiner _ _ _ _ _ _ _ _ Hc Hread Hj) as (Hcc & Hcj & password & Hpc & Hpj).
  exists password, jc, jj. split; [done|].
  assert (Hnow : forall now, now < created_expires_at c -> _ /\ _)
    by (intros now Hnow; exact (ends_authenticate c selected joiner bytes _ _ _ _ _ _ _ _ Hc Hread Hj Hpub Hlen now Hnow)).
  pose proof (fun now key hash => ends_finish c selected joiner bytes _ _ _ _ _ _ _ _ Hc Hread Hj Hpub Hlen now key hash) as Hfin.
  split; split_and!; try done; intros now Hn; (split; [unfold validate_control_context; destruct (Hnow now Hn) as [Ha Hb]; by rewrite ?Ha, ?Hb|]);
    intros key hash; by apply Hfin.
Qed.

Lemma ready_sends c selected password b join role public peer seeds relayed e t1 t2 s1 ctl s2 p addr config :
  ready_end c selected password b join role public peer -> t1 < created_expires_at c -> t2 < created_expires_at c ->
  config_valid (agreed_auth c selected p) = Ok tt ->
  authenticate_invitation role selected password (agreed_context c selected) public (seeds 1%nat) (mkControl relayed [] e) = (s1, Ok ctl) ->
  exchange_descriptor ctl None s1 = (s2, Ok p) -> ac_method ctl = selected -> peer_public_context ctl = peer ->
  rp_peer p = Some addr -> rp_public_context p = peer -> rp_method p = selected ->
  exists w, pair_room_sender seeds b config (matched role selected relayed e [Ok t1; Ok t2]) = (w, Ok (addr, agreed_auth c selected p)) /\
    stream w = s2.
Proof.
  intros (Hj & _ & Hc & Hp & Hpub & Hnow) Ht1 Ht2 Hv Ha Hx Hm Hpp Hpeer Hpc Hpm.
  eapply sender_pairs; try eassumption; [rewrite Hm, Hpp; by apply Hnow|rewrite Hpm, Hpc; by apply Hnow].
Qed.
Lemma ready_receives {Pending} (receive_offer : PairingConfig -> attempted Pending) c selected password b join role public peer
    seeds relayed e t1 t2 s1 ctl s2 p addr config :
  ready_end c selected password b join role public peer -> bootstrap_local_role b = TransferReceiver ->
  t1 < created_expires_at c -> t2 < created_expires_at c ->
  config_valid (agreed_auth c selected p) = Ok tt ->
  authenticate_invitation role selected password (agreed_context c selected) public (seeds 1%nat) (mkControl relayed [] e) = (s1, Ok ctl) ->
  exchange_descriptor ctl (Some addr) s1 = (s2, Ok p) -> ac_method ctl = selected -> peer_public_context ctl = peer ->
  rp_public_context p = peer -> rp_method p = selected ->
  exists w, receive_via_room seeds receive_offer b config addr (matched role selected relayed e [Ok t1; Ok t2])
      = (attempt ← perform (receive_offer (agreed_auth c selected p));
         returns (if authenticated attempt then map_err invitation_consumed (at_result attempt) else at_result attempt)) w /\
    stream w = s2.
Proof.
  intros (Hj & _ & Hc & Hp & Hpub & Hnow) Hrole Ht1 Ht2 Hv Ha Hx Hm Hpp Hpc Hpm.
  destruct (receiver_pairs seeds receive_offer b config addr join role selected (agreed_context c selected) password public relayed e t1 t2
    s1 ctl s2 p (agreed_binding c selected (control_transcript p)) (agreed_password c selected (rp_control_key p)))
    as (w & Hw & Hs & _); try eassumption; [rewrite Hm, Hpp; by apply Hnow|rewrite Hpm, Hpc; by apply Hnow|by exists w].
Qed.

(** The end of the invitation that has this role in the transfer. *)
Definition end_in_role (c : CreatedInvitation) (joiner : InvitationBootstrap) (role : TransferRole) : InvitationBootstrap :=
  if bool_decide (bootstrap_local_role (created_end c) = role) then created_end c else joiner.

(** C9. Whoever creates an invitation and whoever joins it pair, whichever of them
    sends and whether the joiner has the ticket or the room code, until the
    invitation expires: the broker takes both joins and matches them; and when it
    matches them and relays what each writes, the sender gets the address of the
    receiver and both go on to the data connection with the same configuration of
    its authentication, which is valid. *)
Theorem invitation_pairs c selected joiner bytes broker relays role caps created read e e' addr seeds_s seeds_r es er t1 t2 t3 t4 :
  invite_create broker relays role caps created e = (e', Ok c) -> joins_with c read selected joiner ->
  creator_public_context (created_end c) = Ok (Some bytes) -> zlen bytes <= MAX_DECODED_PAYLOAD_LEN ->
  sendable (mkContextBundle (Some bytes)) -> sendable (mkContextBundle None) ->
  sendable (mkDescriptorBundle (Some addr)) -> sendable (mkDescriptorBundle (None : option EndpointAddr)) ->
  (pairing_entropy <= length es)%nat -> (pairing_entropy <= length er)%nat ->
  Forall (fun t => t < created_expires_at c) [read; t1; t2; t3; t4] ->
  let s := end_in_role c joiner TransferSender in let r := end_in_role c joiner TransferReceiver in
  exists js jr, invitation_join s = Some js /\ invitation_join r = Some jr /\ joins_meet js jr selected /\
  exists from_s from_r auth, config_valid auth = Ok tt /\
    (forall config, exists w,
       pair_room_sender seeds_s s config (matched (role_for js) selected from_r es [Ok t1; Ok t2]) = (w, Ok (addr, auth)) /\
       ct_written (stream w) = from_s) /\
    (forall Pending (receive_offer : PairingConfig -> attempted Pending) config, exists w,
       receive_via_room seeds_r receive_offer r config addr (matched (role_for jr) selected from_s er [Ok t3; Ok t4])
       = (attempt ← perform (receive_offer auth);
          returns (if authenticated attempt then map_err invitation_consumed (at_result attempt) else at_result attempt)) w /\
       ct_written (stream w) = from_r).
Proof.
  intros Hc Hj Hpub Hlen Hb1 Hb2 Hd1 Hd2 Hes Her Ht s r.
  rewrite !Forall_cons in Ht. destruct Ht as (Hread & Ht1 & Ht2 & Ht3 & Ht4 & _).
  destruct (both_ready c selected joiner bytes _ _ _ _ _ _ _ _ Hc Hread Hj Hpub Hlen) as (password & jc & jj & Hmeet & Hrc & Hrj).
  destruct (joiner_public c selected joiner _ _ _ _ _ _ _ _ Hc Hread Hj) as [_ Hjrole].
  pose proof (fun p : RoomPairing (option EndpointAddr) => agreed_config_valid c selected _ _ _ _ _ _ _ read (rp_control_key p) (control_transcript p) Hc Hread) as Hvalid.
  pose proof Hrc as (Hjc & Hrole_c & _). pose proof Hrj as (Hjj & Hrole_j & _).
  assert (Hsym : joins_meet jj jc selected) by (destruct Hmeet as (? & ? & ? & ?); by split_and!).
  subst s r. unfold end_in_role. destruct (bootstrap_local_role (created_end c)) eqn:Hrole; cbn in Hjrole.
  - rewrite bool_decide_eq_true_2, bool_decide_eq_false_2 by done. exists jc, jj. split_and!; [done..|]. rewrite Hrole_c, Hrole_j.
    destruct (controls_pair password (agreed_context c selected) None (Some bytes) (Some addr) None (seeds_r 1%nat) (seeds_s 1%nat) er es)
      as (from_r & from_s & sr & sr' & ss & ss' & cr & cs & pr & ps & Hi & Hdi & Hwi & Hr & Hdr & Hwr & Hm1 & Hm2 & Hp1 & Hp2 & Hq1 & Hq2
          & Hc1 & Hc2 & Hn1 & Hn2 & Hk & Htr); [done..|]. cbn [agreed_context cc_selected] in *.
    assert (Hsame : agreed_auth c selected pr = agreed_auth c selected ps) by (unfold agreed_auth; by rewrite Hk, Htr).
    exists from_s, from_r, (agreed_auth c selected ps). split; [apply Hvalid|]. split.
    + intros config. edestruct ready_sends as (w & Hw & Hst); [exact Hrc|exact Ht1|exact Ht2|apply Hvalid|exact Hr|exact Hdr|done..|].
      exists w. by rewrite Hw, Hst.
    + intros Pending receive_offer config. rewrite <- Hsame.
      edestruct (ready_receives receive_offer) as (w & Hw & Hst); [exact Hrj|exact Hjrole|exact Ht3|exact Ht4|apply Hvalid|exact Hi|exact Hdi|done..|].
      exists w. by rewrite Hw, Hst.
  - rewrite bool_decide_eq_false_2, bool_decide_eq_true_2 by done. exists jj, jc. split_and!; [done..|]. rewrite Hrole_c, Hrole_j.
    destruct (controls_pair password (agreed_context c selected) None (Some bytes) None (Some addr) (seeds_s 1%nat) (seeds_r 1%nat) es er)
      as (from_s & from_r & ss & ss' & sr & sr' & cs & cr & ps & pr & Hi & Hdi & Hwi & Hr & Hdr & Hwr & Hm1 & Hm2 & Hp1 & Hp2 & Hq1 & Hq2
          & Hc1 & Hc2 & Hn1 & Hn2 & Hk & Htr); [done..|]. cbn [agreed_context cc_selected] in *.
    assert (Hsame : agreed_auth c selected pr = agreed_auth c selected ps) by (unfold agreed_auth; by rewrite Hk, Htr).
    exists from_s, from_r, (agreed_auth c selected ps). split; [apply Hvalid|]. split.
    + intros config. edestruct ready_sends as (w & Hw & Hst); [exact Hrj|exact Ht1|exact Ht2|apply Hvalid|exact Hi|exact Hdi|done..|].
      exists w. by rewrite Hw, Hst.
    + intros Pending receive_offer config. rewrite <- Hsame.
      edestruct (ready_receives receive_offer) as (w & Hw & Hst); [exact Hrc|exact Hrole|exact Ht3|exact Ht4|apply Hvalid|exact Hr|exact Hdr|done..|].
      exists w. by rewrite Hw, Hst.
Qed.

(** What pairs remembered devices, from the first join on. *)
Lemma remembered_run seeds s local_role timeout context role relayed e clock st c policy :
  remembered_control_context s = Ok context ->
  authenticate_invitation role FullTicket (remembered_password s) context None (seeds 1%nat) (mkControl relayed [] e) = (st, Ok c) ->
  pair_remembered_or_cancel seeds s local_role policy timeout
    (set_open [] [RendezvousEndpoint] (matched role FullTicket relayed e clock))
  = (after_handshake (remembered_join s local_role) st clock, Ok c).
Proof.
  intros Hc Hrun. apply cleanup_ok. unfold race, matched. cbn [races set_open].
  unfold authenticate_remembered_in_room_retrying. rewrite Hc. erewrite proc_bind_eq by reflexivity.
  apply first_round_wins. unfold remembered_round. erewrite proc_bind_eq by apply client_join_matched. by apply handshake_matched.
Qed.
Lemma remembered_joins_meet secret generation :
  let s := derive_session secret generation in joins_meet (remembered_join s TransferSender) (remembered_join s TransferReceiver) FullTicket.
Proof.
  intros s. pose proof (remembered_room secret generation) as Hr. fold s in Hr.
  assert (Hno : is_room_control_locator (rs_room_id s) = false) by done.
  unfold joins_meet, validate_join, joins_match. cbn [remembered_join version room_id invitation_side transfer_role bootstrap_methods selected_bootstrap_method].
  rewrite Hr, Hno, andb_false_r. done.
Qed.

(** C21. Two devices that remember each other pair: from one credential and one
    generation both derive the same room, which the broker takes from the sender and
    the receiver and matches them in; and when it relays what each writes, the sender
    gets the address of the receiver and both go on to the data connection with the
    same configuration of its authentication, which is valid. *)
Theorem remembered_pairs secret generation broker addr seeds_s seeds_r es er :
  broker <> [] -> sendable (mkContextBundle None) ->
  sendable (mkDescriptorBundle (Some addr)) -> sendable (mkDescriptorBundle (None : option EndpointAddr)) ->
  (pairing_entropy <= length es)%nat -> (pairing_entropy <= length er)%nat ->
  let s := derive_session secret generation in
  let js := remembered_join s TransferSender in let jr := remembered_join s TransferReceiver in
  joins_meet js jr FullTicket /\
  exists from_s from_r auth, config_valid auth = Ok tt /\
    (forall Summary (send_offer : EndpointAddr -> SessionConfig -> PairingConfig -> attempted Summary) config, exists w,
       send_via_remembered seeds_s send_offer broker s config (matched (role_for js) FullTicket from_r es [])
       = (attempt ← perform (send_offer addr config auth); returns (at_result attempt)) w /\ ct_written (stream w) = from_s) /\
    (forall Pending (receive_offer : PairingConfig -> attempted Pending) config, exists w,
       receive_via_remembered seeds_r receive_offer broker s config addr (matched (role_for jr) FullTicket from_s er [])
       = (attempt ← perform (receive_offer auth); returns (at_result attempt)) w /\ ct_written (stream w) = from_r).
Proof.
  intros Hb Hc Hd1 Hd2 Hes Her s js jr. split; [apply remembered_joins_meet|].
  pose proof (remembered_context secret generation) as Hctx. fold s in Hctx.
  destruct (controls_pair (remembered_password s) (mkControlContext (rs_room_id s) FullTicket TransferReceiver TransferSender) None None None (Some addr) (seeds_s 1%nat) (seeds_r 1%nat) es er Hc Hc Hd2 Hd1 Hes Her)
    as (from_s & from_r & ss & ss' & sr & sr' & cs & cr & ps & pr & Hi & Hdi & Hwi & Hr & Hdr & Hwr & _ & _ & _ & _ & Hq1 & _ & _ & _ & _ & _ & Hk & Htr).
  destruct (remembered_config secret generation broker (rp_control_key ps) (control_transcript ps) Hb) as (auth & Hauth & Hvalid).
  fold s in Hauth. exists from_s, from_r, auth. split; [done|]. split.
  - intros Summary send_offer config. eexists. split.
    + unfold send_via_remembered. erewrite proc_bind_eq by reflexivity.
      erewrite proc_bind_eq by (eapply remembered_run; [exact Hctx|exact Hi]).
      erewrite proc_bind_eq by (unfold exchange_descriptor_or_cancel, race, on_stream, mbind, proc_bind; cbn; by rewrite Hdi).
      erewrite proc_bind_eq by reflexivity. erewrite proc_bind_eq by reflexivity. rewrite Hauth, Hq1.
      by erewrite proc_bind_eq by reflexivity.
    + exact Hwi.
  - intros Pending receive_offer config. eexists. split.
    + unfold receive_via_remembered. erewrite proc_bind_eq by reflexivity.
      erewrite proc_bind_eq by (eapply remembered_run; [exact Hctx|exact Hr]).
      erewrite proc_bind_eq by reflexivity. erewrite proc_bind_eq by (apply cleanup_ok; reflexivity). cbv zeta.
      erewrite proc_bind_eq by (apply cleanup_ok; unfold exchange_descriptor_or_cancel, race, on_stream, mbind, proc_bind; cbn; by rewrite Hdr).
      erewrite proc_bind_eq by reflexivity. erewrite proc_bind_eq by reflexivity. rewrite <- Hk, <- Htr, Hauth.
      erewrite proc_bind_eq by (apply cleanup_ok; reflexivity). by erewrite proc_bind_eq by reflexivity.
    + exact Hwr.
Qed.
End Agree.

(** ** What a failed transfer leaves open *)

Section Releases.
Context `{InviteLibs, PakeLibs, Json ContextBundle, Json (DescriptorBundle EndpointAddr)}.
Variable seeds : nat -> list byte.

(** What [m] leaves open: [opened] where it returns, [failed] where it returns an
    error.  (Nothing is said of a panic, which these operations do not catch.) *)
Definition leaves {A} (m : room A) (before opened failed : list Resource) : Prop :=
  forall w, is_open w = before ->
    wp m (fun _ w' => is_open w' = opened) (fun e w' => e <> Panicked -> is_open w' = failed) w.
Lemma leaves_open_bind {A B} (m : room A) (f : A -> room B) before middle opened failed :
  leaves m before middle failed -> (forall a, leaves (f a) middle opened failed) -> leaves (m ≫= f) before opened failed.
Proof.
  intros Hm Hf w Hw. apply wp_bind. eapply wp_mono; [by apply Hm| |done]. intros a w' Hw'. by apply Hf.
Qed.
Lemma leaves_cleanup {A} (m : room A) cleanup before opened failed released :
  leaves m before opened failed -> leaves cleanup failed released released -> leaves (or_cleanup m cleanup) before opened released.
Proof.
  intros Hm Hc w Hw. apply wp_bind, wp_attempt. eapply wp_mono; [by apply Hm|by intros a w' Hw'|].
  intros [e|] w' Hw'; [|by cbn]. apply wp_bind. eapply wp_mono; [by apply Hc, Hw'| |].
  - intros [] w'' Hw''. by cbn.
  - by intros e' w'' Hw''.
Qed.
Lemma leaves_same {A} (m : room A) before failed : (forall w, is_open (m w).1 = is_open w) -> before = failed ->
  leaves m before before failed.
Proof. intros Hm <- w Hw. specialize (Hm w). unfold wp. destruct (m w) as [w' []]; cbn in Hm; congruence. Qed.
Lemma leaves_close r before : leaves (close_endpoint r) before (filter (fun x => x <> r) before) (filter (fun x => x <> r) before).
Proof. by intros w <-. Qed.
Lemma leaves_open rs before : leaves (open_all rs) before (before ++ rs) before.
Proof. intros w <-. unfold wp, open_all. destruct (opens w) as [|[] ?]; done. Qed.
Lemma leaves_open_weaken {A} (m : room A) before opened failed opened' failed' :
  leaves m before opened failed -> opened = opened' -> failed = failed' -> leaves m before opened' failed'.
Proof. by intros Hm <- <-. Qed.
Lemma leaves_race {A} timer (m : room A) before opened failed : leaves m before opened failed -> before = failed ->
  leaves (race timer m) before opened failed.
Proof.
  intros Hm <- w Hw. unfold wp, race. destruct (races w) as [|[] rest], timer; try done; by apply Hm.
Qed.

(** The steps that open and close nothing. *)
Lemma open_returns {A} (r : session A) w : is_open ((returns r : room A) w).1 = is_open w.
Proof. done. Qed.
Lemma open_now w : is_open (unix_now w).1 = is_open w.
Proof. unfold unix_now. by destruct (clock w). Qed.
Lemma open_stream {A} (m : control A) w : is_open (on_stream m w).1 = is_open w.
Proof. unfold on_stream. by destruct (m (stream w)). Qed.
Lemma open_joined join w : is_open (join_invitation join w).1 = is_open w.
Proof. unfold join_invitation. by destruct (answers w) as [|[[]|] ?]. Qed.
Lemma open_bind {A B} (m : room A) (f : A -> room B) w :
  (forall w, is_open (m w).1 = is_open w) -> (forall a w, is_open (f a w).1 = is_open w) -> is_open ((m ≫= f) w).1 = is_open w.
Proof.
  intros Hm Hf. unfold mbind, proc_bind. specialize (Hm w). destruct (m w) as [w' [a|]]; cbn in Hm; [|done]. by rewrite Hf.
Qed.
Lemma open_rounds n retry join policy w : is_open (join_rounds n retry join policy w).1 = is_open w.
Proof.
  revert retry w. induction n as [|n IH]; intros retry w; [done|]. cbn [join_rounds]. apply open_bind; [apply open_joined|].
  intros [session|[rejection|message|]] w'; try done. destruct (broker_retry_delay _ _ _); [|done].
  apply open_bind; [done|]. intros _ w''. apply IH.
Qed.
Lemma open_pairing {A} n last (round : room (session A)) w : (forall w, is_open (round w).1 = is_open w) ->
  is_open (pairing_rounds n last round w).1 = is_open w.
Proof.
  intros Hr. revert last w. induction n as [|n IH]; intros last w; cbn [pairing_rounds]; [by destruct last|].
  apply open_bind; [done|]. intros [a|e] w'; [done|apply IH].
Qed.
Lemma open_invitation b public policy w : is_open (authenticate_in_room_retrying seeds b public policy w).1 = is_open w.
Proof.
  apply open_pairing. intros w'. unfold invitation_round. destruct (invitation_join b) as [join|]; [|done].
  apply open_bind; [intros w1; unfold join_room; repeat (apply open_bind; [done || (intros; apply open_rounds)|intros]); done|].
  intros [role selected] w2. apply open_bind; [done|]. intros context w3. apply open_bind; [done|]. intros password w4.
  unfold control_handshake, timely. destruct (in_time w4); [|done]. apply open_stream.
Qed.

Lemma leaves_skip {A} (m : room unit) (k : room A) before opened failed :
  (forall w, exists w', m w = (w', Ok tt) /\ is_open w' = is_open w) -> leaves k before opened failed ->
  leaves (m ≫= fun _ => k) before opened failed.
Proof. intros Hm Hk w Hw. destruct (Hm w) as (w' & Hrun & Ho). unfold wp. rewrite (proc_bind_eq _ _ _ _ _ Hrun). apply Hk. congruence. Qed.
Lemma leaves_then_close {A} r (k : room A) before opened failed :
  leaves k (filter (fun x => x <> r) before) opened failed -> leaves (close_endpoint r ≫= fun _ => k) before opened failed.
Proof. intros Hk w Hw. apply Hk. cbn. by rewrite Hw. Qed.
Lemma leaves_perform {A} (f : attempted A) before failed : (forall w, is_open (f w).1 = is_open w) ->
  leaves (perform f) before before failed.
Proof. intros Hf w Hw. specialize (Hf w). unfold wp, perform. destruct (f w) as [w' a]. cbn in Hf. congruence. Qed.
Lemma leaves_close_all : leaves (close_hybrid ≫= fun _ => close_endpoint RendezvousEndpoint)
  [DataEndpoint; DatagramBridge; RendezvousEndpoint] [] [].
Proof. intros [] Hw. cbn in Hw. by subst. Qed.
Lemma leaves_validate b c before : leaves (validate_authenticated_context b c) before before before.
Proof. apply leaves_same; [|done]. intros w. by apply open_bind; [intros; apply open_now|]. Qed.
Lemma leaves_close_hybrid : leaves close_hybrid [DataEndpoint; DatagramBridge] [] [].
Proof. intros [] Hw. cbn in Hw. by subst. Qed.
Lemma leaves_room b config timeout public : creator_public_context b = Ok public ->
  leaves (authenticate_room seeds b config timeout) [DataEndpoint; DatagramBridge]
    [DataEndpoint; DatagramBridge; RendezvousEndpoint] [DataEndpoint; DatagramBridge].
Proof.
  intros Hp. unfold authenticate_room. eapply leaves_open_bind; [apply leaves_open|]. intros _. rewrite Hp.
  eapply leaves_open_bind; [intros w Hw; exact Hw|]. intros p. cbn [app].
  eapply leaves_cleanup; [|apply (leaves_close RendezvousEndpoint [DataEndpoint; DatagramBridge])].
  eapply leaves_cleanup; [apply leaves_race; [|done]; apply leaves_same; [|done]|apply leaves_close].
  intros w. apply open_invitation.
Qed.
Lemma leaves_complete c addr b before : leaves (complete_receiver_pairing c addr b) before before before.
Proof.
  eapply leaves_open_bind; [apply leaves_race; [|done]; apply leaves_same; [|done]; intros w; by apply open_bind; [intros; apply open_stream|]|].
  intros p. apply leaves_same; [|done]. intros w. do 3 (apply open_bind; [done || apply open_now|intros ?; clear w; intros w]).
  apply open_bind; [done|]. by intros [].
Qed.

(** C30. A nearby receive that fails leaves nothing open: whatever fails, from the
    bootstrap of the datagram channel to the transfer itself, and however it is
    cancelled, the data endpoint, its bridge and the endpoint of the rendezvous are
    closed when the error is returned; and when an offer is returned, exactly the
    data endpoint and its bridge are open. *)
Theorem hybrid_receive_releases {Pending} (receive_offer : PairingConfig -> attempted Pending) b config addr public w w' r :
  creator_public_context b = Ok public -> (forall auth w, is_open (receive_offer auth w).1 = is_open w) ->
  is_open w = [] -> receive_via_room_hybrid seeds receive_offer b config addr w = (w', r) ->
  match r with
  | Ok _ => is_open w' = [DataEndpoint; DatagramBridge]
  | Err (Returned _) => is_open w' = []
  | Err Panicked => True
  end.
Proof.
  intros Hp Hoffer Hw Hrun.
  assert (Hl : leaves (receive_via_room_hybrid seeds receive_offer b config addr) [] [DataEndpoint; DatagramBridge] []).
  2:{ specialize (Hl w Hw). unfold wp in Hl. rewrite Hrun in Hl. destruct r as [|[]]; [done|by apply Hl|done]. }
  unfold receive_via_room_hybrid. eapply leaves_open_bind; [by apply leaves_same|]. intros _.
  apply leaves_skip; [by eexists|].
  eapply leaves_open_bind; [eapply leaves_cleanup; [apply leaves_open|by apply leaves_same]|]. intros _. cbn [app].
  apply leaves_skip; [by eexists|].
  eapply leaves_open_bind; [eapply leaves_cleanup; [by eapply leaves_room|apply leaves_skip; [by eexists|apply leaves_close_hybrid]]|].
  intros c. eapply leaves_open_bind; [eapply leaves_cleanup; [apply leaves_validate|apply leaves_skip; [by eexists|apply leaves_close_all]]|].
  intros _. eapply leaves_open_bind; [eapply leaves_cleanup; [apply leaves_complete|apply leaves_skip; [by eexists|apply leaves_close_all]]|].
  intros auth. apply leaves_then_close. eapply leaves_open_bind; [by apply leaves_perform|].
  intros a. eapply leaves_cleanup; [by apply leaves_same|apply leaves_close_hybrid].
Qed.
End Releases.
