(* ===== verification/LocalFs.v ===== *)
(** The file system as the local provider uses it: [tokio::fs] and the exclusive
    rename of the platform.  Paths are absolute and canonical, a list of
    components; there are directories and regular files, each with a number (its
    inode), a file with contents; symbolic links are not represented.  Any call can
    fail: [io_faults] says which of the coming calls do, and how far they get. *)

From stdpp Require Import prelude gmap strings.
From Stdlib Require Import ZArith Lia Strings.Byte.
From S2P Require Import Prelude Bytes Delivery Proc Names.

Local Open Scope Z_scope.

(** ** Paths *)

Abbreviation path := (list str).

(** [path.join(name)] of one component. *)
Definition join (p : path) (name : str) : path := p ++ [name].
(** [path.parent()] *)
Definition parent (p : path) : option path :=
  match p with [] => None | _ => Some (removelast p) end.
(** [path.starts_with(base)] *)
Definition starts_with (p base : path) : bool := bool_decide (base `prefix_of` p).

(** Where the extension of a file name starts: at its last dot, not the first byte. *)
Definition extension_offset (name : str) : option nat :=
  match rfind_dot name with Some (S o) => Some (S o) | _ => None end.
(** [path.extension()] *)
Definition extension (p : path) : option str :=
  name ← last p; o ← extension_offset name; Some (drop (S o) name).
(** [path.with_extension(ext)] *)
Definition with_extension (p : path) (ext : str) : path :=
  match last p with
  | None => p
  | Some name =>
    removelast p ++ [match extension_offset name with Some o => take o name | None => name end
                     ++ lit "." ++ ext]
  end.

(** ** State *)

Inductive Node := DirNode (ino : Z) | FileNode (ino : Z).
#[export] Instance Node_eq_dec : EqDecision Node.
Proof. solve_decision. Defined.

(** [io::ErrorKind], as far as the provider looks at it, and as far as jobs and
    sessions do. *)
Inductive IoError := IoNotFound | IoAlreadyExists | IoOther.
#[export] Instance IoError_eq_dec : EqDecision IoError.
Proof. solve_decision. Defined.
Inductive IoErrorKind := KindPermissionDenied | KindNotFound | KindOther.

Record Fs := mkFs {
  nodes : gmap path Node;
  contents : gmap Z (list byte);
  next_ino : Z;
  io_faults : list (option nat);
}.
Abbreviation io := (proc Fs IoError).

Definition set_nodes (n : gmap path Node) (fs : Fs) : Fs :=
  mkFs n (contents fs) (next_ino fs) (io_faults fs).
Definition set_contents (c : gmap Z (list byte)) (fs : Fs) : Fs :=
  mkFs (nodes fs) c (next_ino fs) (io_faults fs).

(** The fault of the next call. *)
Definition take_fault : io (option nat) := fun fs =>
  match io_faults fs with
  | [] => (fs, Ok None)
  | f :: rest => (mkFs (nodes fs) (contents fs) (next_ino fs) rest, Ok f)
  end.
(** A call that fails without effect. *)
Definition may_fail : io unit := f ← take_fault; throw_if (bool_decide (is_Some f)) IoOther.

Definition get_fs : io Fs := fun fs => (fs, Ok fs).
Definition modify_fs (f : Fs -> Fs) : io unit := fun fs => (f fs, Ok tt).

(** ** Calls *)

Definition node_at (p : path) : io Node :=
  fs ← get_fs; pure (ok_or IoNotFound (nodes fs !! p)).

Definition try_exists (p : path) : io bool :=
  _ ← may_fail; fs ← get_fs; mret (bool_decide (is_Some (nodes fs !! p))).

(** What is not a file is a directory. *)
Record Metadata := mkMetadata { md_is_file : bool; md_len : Z; md_ino : Z }.
Definition metadata_of (fs : Fs) (n : Node) : Metadata :=
  match n with
  | DirNode ino => mkMetadata false 0 ino
  | FileNode ino => mkMetadata true (zlen (default [] (contents fs !! ino))) ino
  end.
(** [fs::metadata] and [fs::symlink_metadata] *)
Definition metadata (p : path) : io Metadata :=
  _ ← may_fail; n ← node_at p; fs ← get_fs; mret (metadata_of fs n).

(** A new directory. *)
Definition make_dir (p : path) (fs : Fs) : Fs :=
  mkFs (<[p := DirNode (next_ino fs)]> (nodes fs)) (contents fs) (next_ino fs + 1) (io_faults fs).

Fixpoint create_dirs (ps : list path) : io unit :=
  match ps with
  | [] => mret tt
  | p :: ps' =>
    fs ← get_fs;
    match nodes fs !! p with
    | Some (DirNode _) => create_dirs ps'
    | Some (FileNode _) => throw IoOther
    | None => _ ← modify_fs (make_dir p); create_dirs ps'
    end
  end.
(** Every prefix of a path, the shortest first. *)
Definition prefixes (p : path) : list path := map (fun n => take n p) (seq 0 (S (length p))).
(** [fs::create_dir_all]; one that fails may have made some of the directories. *)
Definition create_dir_all (p : path) : io unit :=
  f ← take_fault;
  match f with
  | None => create_dirs (prefixes p)
  | Some n => _ ← create_dirs (take n (prefixes p)); throw IoOther
  end.

(** The directory a new object is made in. *)
Definition parent_is_dir (fs : Fs) (p : path) : bool :=
  match parent p ≫= (nodes fs !!.) with Some (DirNode _) => true | _ => false end.

(** A new file with these contents. *)
Definition make_file (p : path) (bytes : list byte) : io Z :=
  fs ← get_fs;
  if parent_is_dir fs p then
    _ ← modify_fs (fun fs => mkFs (<[p := FileNode (next_ino fs)]> (nodes fs))
          (<[next_ino fs := bytes]> (contents fs)) (next_ino fs + 1) (io_faults fs));
    mret (next_ino fs)
  else throw IoNotFound.

(** [OpenOptions::new().create(true).truncate(false).read(true).write(true)] *)
Definition open_create (p : path) : io Z :=
  _ ← may_fail;
  fs ← get_fs;
  match nodes fs !! p with
  | Some (FileNode ino) => mret ino
  | Some (DirNode _) => throw IoOther
  | None => make_file p []
  end.

(** [OpenOptions::new().create_new(true).write(true)] *)
Definition open_new (p : path) : io Z :=
  _ ← may_fail;
  fs ← get_fs;
  match nodes fs !! p with Some _ => throw IoAlreadyExists | None => make_file p [] end.

(** [File::open] of a file, and of a directory to flush it. *)
Definition open_file (p : path) : io Z :=
  _ ← may_fail;
  n ← node_at p;
  match n with FileNode ino => mret ino | DirNode _ => throw IoOther end.
Definition sync_directory (p : path) : io unit := _ ← may_fail; _ ← node_at p; may_fail.

(** Through an open file. *)
Definition file_len (ino : Z) : io Z :=
  _ ← may_fail; fs ← get_fs; mret (zlen (default [] (contents fs !! ino))).
Definition read_all (ino : Z) : io (list byte) :=
  _ ← may_fail; fs ← get_fs; mret (default [] (contents fs !! ino)).
Definition sync_file (ino : Z) : io unit := may_fail.

(** Bytes written from a position, over or past what is there. *)
Definition write_at (pos : nat) (bytes content : list byte) : list byte :=
  take pos content ++ replicate (pos - length content) x00 ++ bytes
  ++ drop (pos + length bytes) content.
(** [write_all] at the file's position; one that fails may have written a part. *)
Definition write_all (ino : Z) (pos : Z) (bytes : list byte) : io unit :=
  f ← take_fault;
  let part := match f with None => bytes | Some n => take n bytes end in
  _ ← modify_fs (fun fs => set_contents
        (<[ino := write_at (Z.to_nat pos) part (default [] (contents fs !! ino))]> (contents fs)) fs);
  throw_if (bool_decide (is_Some f)) IoOther.

Definition remove_file (p : path) : io unit :=
  _ ← may_fail;
  n ← node_at p;
  match n with
  | FileNode _ => modify_fs (fun fs => set_nodes (delete p (nodes fs)) fs)
  | DirNode _ => throw IoOther
  end.

(** What is not at or below a path. *)
Definition outside (p : path) (ns : gmap path Node) : gmap path Node :=
  filter (fun kv => starts_with kv.1 p = false) ns.
(** [fs::remove_dir_all]; one that fails may have removed nothing. *)
Definition remove_dir_all (p : path) : io unit :=
  _ ← may_fail; _ ← node_at p; modify_fs (fun fs => set_nodes (outside p (nodes fs)) fs).

(** The objects at and below [src], at and below [dst]. *)
Definition moved (src dst : path) (ns : gmap path Node) : gmap path Node :=
  list_to_map (omap (fun kv : path * Node =>
    if starts_with kv.1 src then Some (dst ++ drop (length src) kv.1, kv.2) else None)
    (map_to_list ns)).
(** [exclusive_rename]: it replaces nothing. *)
Definition exclusive_rename (src dst : path) : io unit :=
  _ ← may_fail;
  fs ← get_fs;
  if bool_decide (nodes fs !! src = None) || negb (parent_is_dir fs dst) then throw IoNotFound
  else if bool_decide (is_Some (nodes fs !! dst)) then throw IoAlreadyExists
  else if starts_with dst src then throw IoOther
  else modify_fs (fun fs => set_nodes (moved src dst (nodes fs) ∪ outside src (nodes fs)) fs).

(** [fs::read_dir]: the names in a directory. *)
Definition children (p : path) (ns : gmap path Node) : list str :=
  omap (fun kv : path * Node => match parent kv.1 with
                  | Some q => if bool_decide (q = p) then last kv.1 else None
                  | None => None
                  end) (map_to_list ns).
Definition read_dir (p : path) : io (list str) :=
  _ ← may_fail;
  n ← node_at p;
  match n with
  | DirNode _ => fs ← get_fs; mret (children p (nodes fs))
  | FileNode _ => throw IoOther
  end.

(** [fs::copy]; one that fails may have copied a part. *)
Definition copy_file (src dst : path) : io unit :=
  f ← take_fault;
  n ← node_at src;
  match n with
  | DirNode _ => throw IoOther
  | FileNode from =>
    fs ← get_fs;
    let bytes := default [] (contents fs !! from) in
    let part := match f with None => bytes | Some n => take n bytes end in
    _ ← match nodes fs !! dst with
        | Some (FileNode to) =>
          modify_fs (fun fs => set_contents (<[to := part]> (contents fs)) fs)
        | Some (DirNode _) => throw IoOther
        | None => _ ← make_file dst part; mret tt
        end;
    throw_if (bool_decide (is_Some f)) IoOther
  end.

(** [fs::create_dir] *)
Definition create_dir (p : path) : io unit :=
  _ ← may_fail;
  fs ← get_fs;
  match nodes fs !! p with
  | Some _ => throw IoAlreadyExists
  | None =>
    if parent_is_dir fs p then modify_fs (make_dir p)
    else throw IoNotFound
  end.

(** [fs::write]: the file is made or emptied first. *)
Definition write_file (p : path) (bytes : list byte) : io unit :=
  f ← take_fault;
  fs ← get_fs;
  let part := match f with None => bytes | Some n => take n bytes end in
  _ ← match nodes fs !! p with
      | Some (FileNode ino) => modify_fs (fun fs => set_contents (<[ino := part]> (contents fs)) fs)
      | Some (DirNode _) => throw IoOther
      | None => _ ← make_file p part; mret tt
      end;
  throw_if (bool_decide (is_Some f)) IoOther.

(** [fs::canonicalize] of a path that is canonical already. *)
Definition canonicalize (p : path) : io path := _ ← may_fail; _ ← node_at p; mret p.

(** [let _ = call.await], and a call whose [NotFound] is no error. *)
Definition ignore_error (call : io unit) : io unit := r ← attempt call; mret tt.
Definition unless_missing (call : io unit) : io unit :=
  r ← attempt call;
  match r with Ok _ | Err IoNotFound => mret tt | Err e => throw e end.
