(* ===== verification/Destination.v ===== *)
(** The receiver's write plan (crates/envoix-transfer/src/destination_v2.rs):
    how a plan is made for an offer, what a resumed job checks of it, the accept
    it gives rise to, its store, and the staging path of every entry. *)

From stdpp Require Import prelude gmap strings pretty.
From Stdlib Require Import ZArith Lia Strings.Byte.
From S2P Require Import Prelude Bytes ManifestV2 OfferCodec Frames Delivery Ledger Names Proc LocalFs.

Local Open Scope Z_scope.

Definition POST_SAVE_RESERVE_BYTES : Z := 64 * 1024 * 1024.
Definition AUTO_RECEIVE_PLAINTEXT_LIMIT_BYTES : Z := 64 * 1024 * 1024 * 1024.

Inductive DestinationModeV2 := DirectSave | CopyAfterVerify.
Inductive DestinationDecisionV2 := UseDirectSave | ContinueWithCopyAfterVerify.
#[export] Instance DestinationModeV2_eq_dec : EqDecision DestinationModeV2.
Proof. solve_decision. Defined.
#[export] Instance DestinationDecisionV2_eq_dec : EqDecision DestinationDecisionV2.
Proof. solve_decision. Defined.

Record StorageDomainIdentityV2 := mkStorageDomain {
  sd_provider : str;
  opaque_volume_id : str;
  sd_stable_object_identity : bool;
}.
#[export] Instance StorageDomainIdentityV2_eq_dec : EqDecision StorageDomainIdentityV2.
Proof. solve_decision. Defined.

Record DestinationRequestV2 := mkRequest {
  dr_target_directory : path;
  dr_copy_staging_directory : option path;
  dr_decision : DestinationDecisionV2;
  target_allocatable_bytes : option Z;
  staging_allocatable_bytes : option Z;
  dr_stable_object_identity : bool;
  dr_exceptional_transfer_approved : bool;
  preplanned_root_names : option (list RootPlanV2);
}.

Record DestinationWritePlanV2 := mkPlan {
  pl_job_id : JobIdV2;
  pl_generation : Z;
  pl_mode : DestinationModeV2;
  storage_domain : StorageDomainIdentityV2;
  pl_plan_revision : Z;
  pl_root_plans : list RootPlanV2;
  pl_exceptional_transfer_approved : bool;
  pl_target_directory : path;
  pl_staging_directory : path;
  reservations : list path;
  reuse_entry_ids : list Z;
}.
#[export] Instance DestinationWritePlanV2_eq_dec : EqDecision DestinationWritePlanV2.
Proof. solve_decision. Defined.

Definition STAGING_NAME : str := lit ".envoix-staging-v2".
Definition COPY_STAGING_NAME : str := lit "envoix-staging-v2".
Definition RESERVATIONS_NAME : str := lit ".envoix-reservations-v2".
(** The directory of the plan and save ledgers, which are kept apart from [Fs]. *)
Definition LEDGERS_NAME : str := lit ".envoix-ledgers-v2".

(** ** Checks *)

Definition validate_space (m : ManifestV2) (request : DestinationRequestV2) (mode : DestinationModeV2)
    (copy_staging_same_domain : bool) : plan_result unit :=
  let plaintext := total_plaintext_bytes (totals m) in
  let copying := bool_decide (mode = CopyAfterVerify) in
  target_payload ← (if copying && copy_staging_same_domain
                    then ok_or PE_SpaceOverflow (checked_mul u64_max plaintext 2)
                    else Ok plaintext);
  target_required ← ok_or PE_SpaceOverflow (checked_add u64_max target_payload POST_SAVE_RESERVE_BYTES);
  target_available ← ok_or PE_UnknownCapacity (target_allocatable_bytes request);
  if target_available <? target_required
  then Err (PE_InsufficientSpace target_required target_available)
  else if copying && negb copy_staging_same_domain then
    staging_available ← ok_or PE_UnknownCapacity (staging_allocatable_bytes request);
    if staging_available <? target_required
    then Err (PE_InsufficientSpace target_required staging_available)
    else Ok tt
  else Ok tt.

(** [windows(2).any(|pair| pair[0] >= pair[1])] *)
Fixpoint not_increasing (l : list Z) : bool :=
  match l with
  | x :: (y :: _) as l' => (y <=? x) || not_increasing l'
  | _ => false
  end.

(** The reuse plan of entries that are not known root files. *)
Definition reuse_is_invalid (m : ManifestV2) (eid : Z) : plan_result bool :=
  match vec_get (entries m) eid with
  | None => Ok true
  | Some entry =>
    root ← ok_or PE_Panicked (vec_get (roots m) (entry_root_id entry));
    Ok (negb (entry_id entry =? eid) || negb (entry_id entry =? root_entry_id root)
        || negb (bool_decide (kind entry = RegularFile))
        || bool_decide (known_digest entry = None))
  end.
Fixpoint any_reuse_invalid (m : ManifestV2) (ids : list Z) : plan_result bool :=
  match ids with
  | [] => Ok false
  | eid :: ids' =>
    invalid ← reuse_is_invalid m eid;
    if (invalid : bool) then Ok true else any_reuse_invalid m ids'
  end.

Definition plan_differs (plan : DestinationWritePlanV2) (m : ManifestV2) : bool :=
  negb (bool_decide (pl_job_id plan = job_id m)) || negb (pl_generation plan =? generation m)
  || negb (zlen (pl_root_plans plan) =? zlen (roots m)).

Section Names.
Context (os : Platform) (to_lowercase : str -> str).
Local Notation key := (name_equivalence_key os to_lowercase).

(** [roots.iter().enumerate().any(..)] of a plan's root names. *)
Fixpoint root_names_invalid (index : Z) (rs : list RootPlanV2) : bool :=
  match rs with
  | [] => false
  | r :: rs' =>
    negb (rp_root_id r =? as_u32 index) || bool_decide (planned_name r = [])
    || negb (bool_decide (provider_safe_component os (planned_name r) = planned_name r))
    || root_names_invalid (index + 1) rs'
  end.

Definition validate_shape (plan : DestinationWritePlanV2) : plan_result unit :=
  let unique_root_names : gset str := list_to_set (map (fun r => key (planned_name r)) (pl_root_plans plan)) in
  let unique_reservations : gset path := list_to_set (reservations plan) in
  let reservation_directory := join (pl_target_directory plan) RESERVATIONS_NAME in
  if bool_decide (pl_job_id plan = replicate 16 x00) || (pl_generation plan =? 0)
     || (pl_plan_revision plan =? 0) || bool_decide (pl_root_plans plan = [])
     || negb (zlen (pl_root_plans plan) =? zlen (reservations plan))
     || negb (Z.of_nat (size unique_root_names) =? zlen (pl_root_plans plan))
     || negb (Z.of_nat (size unique_reservations) =? zlen (reservations plan))
     || not_increasing (reuse_entry_ids plan) || root_names_invalid 0 (pl_root_plans plan)
  then Err PE_InvalidEntryState
  else if existsb (fun r => negb (bool_decide (parent r = Some reservation_directory))
                            || negb (bool_decide (extension r = Some (lit "reservation"))))
            (reservations plan)
  then Err PE_InvalidEntryState
  else if bool_decide (pl_mode plan = DirectSave)
          && negb (starts_with (pl_staging_directory plan) (join (pl_target_directory plan) STAGING_NAME))
  then Err PE_InvalidEntryState
  else Ok tt.

(** The names are collected as the check goes. *)
Fixpoint preplanned_invalid (index : Z) (rs : list RootPlanV2) (names : gset str) : bool :=
  match rs with
  | [] => false
  | r :: rs' =>
    negb (rp_root_id r =? as_u32 index) || bool_decide (planned_name r = [])
    || negb (bool_decide (provider_safe_component os (planned_name r) = planned_name r))
    || bool_decide (key (planned_name r) ∈ names)
    || preplanned_invalid (index + 1) rs' ({[ key (planned_name r) ]} ∪ names)
  end.
Definition validate_preplanned_roots (m : ManifestV2) (rs : list RootPlanV2) : plan_result unit :=
  if negb (zlen rs =? zlen (roots m)) || preplanned_invalid 0 rs ∅ then Err PE_InvalidEntryState
  else Ok tt.

(** ** Paths of the entries *)

Definition root_name (rid : Z) : str := lit "root-" ++ lit (pretty (Z.to_N rid)).

(** [(a != b).then(|| a)] *)
Definition override_of (final original : str) : option str :=
  if bool_decide (final = original) then None else Some final.

Fixpoint build_paths (plan : DestinationWritePlanV2) (m : ManifestV2) (es : list ManifestEntryV2)
    (paths : list path) (overrides : list (option str)) (occupied : gmap Z (gset str))
    : plan_result (list path * list (option str)) :=
  match es with
  | [] => Ok (paths, overrides)
  | entry :: es' =>
    root ← ok_or PE_Panicked (vec_get (roots m) (entry_root_id entry));
    if entry_id entry =? root_entry_id root then
      rp ← ok_or PE_Panicked (vec_get (pl_root_plans plan) (root_id root));
      build_paths plan m es' (paths ++ [join (pl_staging_directory plan) (root_name (root_id root))])
        (overrides ++ [override_of (planned_name rp) (requested_name root)]) occupied
    else
      parent_id ← ok_or PE_InvalidEntryState (parent_entry_id entry);
      above ← ok_or PE_InvalidEntryState (vec_get paths parent_id);
      let siblings := default ∅ (occupied !! parent_id) in
      '(final_name, siblings) ← allocate_in_memory_name os to_lowercase
          (provider_safe_component os (component entry)) (bool_decide (kind entry = RegularFile)) siblings;
      build_paths plan m es' (paths ++ [join above final_name])
        (overrides ++ [override_of final_name (component entry)]) (<[parent_id := siblings]> occupied)
  end.

Definition build_entry_paths (plan : DestinationWritePlanV2) (m : ManifestV2)
    : plan_result (list path * list (option str)) :=
  build_paths plan m (entries m) [] [] ∅.
End Names.

Definition target_path_for_root (plan : DestinationWritePlanV2) (rid : Z) : option path :=
  rp ← vec_get (pl_root_plans plan) rid;
  if rp_root_id rp =? rid then Some (join (pl_target_directory plan) (planned_name rp)) else None.

(** [nonce] and [capability] are what the entropy source gave. *)
Definition create_initial_accept (plan : DestinationWritePlanV2) (offer : ManifestOfferV2)
    (nonce capability : option (list byte)) : plan_result ManifestAcceptV2 :=
  let m := manifest offer in
  invalid ← (if plan_differs plan m then Ok true else any_reuse_invalid m (reuse_entry_ids plan));
  if (invalid : bool) then Err PE_InvalidEntryState
  else
    accept_nonce ← ok_or PE_Io nonce;
    capability ← ok_or PE_Io capability;
    if bool_decide (capability = zero_bytes 32) then Err PE_Io
    else
      Ok (mkAccept (mkJobGeneration (pl_job_id plan) (pl_generation plan)) (structural_digest offer)
            accept_nonce capability (pl_plan_revision plan) (pl_root_plans plan)
            (map (fun entry => mkEntryPlan (entry_id entry)
                   (if bool_decide (entry_id entry ∈ reuse_entry_ids plan)
                    then DispositionReuseExisting else ReceivePayload) 0) (entries m))).

(** ** Making a plan *)

Section Planning.
Context (os : Platform) (to_lowercase : str -> str) (blake3 : list byte -> list byte).
(** The volume of an object, as [dev()] or the volume's GUID names it. *)
Context (volume_of : path -> str).
Local Notation key := (name_equivalence_key os to_lowercase).
Local Notation P := (proc Fs DestinationPlanErrorV2).

(** [?] on an [io::Error] *)
Definition io_plan {A} (call : io A) : P A := fun fs =>
  let '(fs, r) := call fs in (fs, map_err (fun _ => PE_Io) r).

Definition local_storage_domain (target : path) (stable : bool) : io StorageDomainIdentityV2 :=
  canonical ← canonicalize target;
  _ ← metadata canonical;
  mret (mkStorageDomain (lit "local_path") (volume_of canonical) stable).
Definition same_storage_domain (left right : path) : io bool :=
  l ← local_storage_domain left false;
  r ← local_storage_domain right false;
  mret (bool_decide (opaque_volume_id l = opaque_volume_id r)).

(** [token] is the process id and the number of the probe. *)
Definition exclusive_rename_probe (token : str) (directory : path) : io bool :=
  let source := join directory (lit ".envoix-rename-probe-" ++ token ++ lit ".source") in
  let target := join directory (lit ".envoix-rename-probe-" ++ token ++ lit ".target") in
  _ ← ignore_error (remove_file source);
  _ ← ignore_error (remove_file target);
  _ ← write_file source (lit "source");
  _ ← write_file target (lit "target");
  collision ← attempt (exclusive_rename source target);
  let collision_safe := bool_decide (collision = Err IoAlreadyExists) in
  source_retained ← try_exists source;
  ino ← open_file target;
  bytes ← read_all ino;
  let target_unchanged := bool_decide (bytes = lit "target") in
  _ ← remove_file target;
  renamed ← attempt (exclusive_rename source target);
  let success := is_ok renamed in
  _ ← ignore_error (remove_file source);
  _ ← ignore_error (remove_file target);
  mret (collision_safe && source_retained && target_unchanged && success).

Definition exclusive_rename_supported : bool := true.

Definition destination_names (directory : path) : io (gset str) :=
  names ← read_dir directory; mret (list_to_set (map key names)).

Definition hash_open_file (ino : Z) : io ContentDigestV2 := bytes ← read_all ino; mret (blake3 bytes).

(** The roots whose file is in the target directory already. *)
Fixpoint discover_from (m : ManifestV2) (target : path) (rs : list ManifestRootV2) : P (list Z) :=
  match rs with
  | [] => mret []
  | root :: rs' =>
    entry ← pure (ok_or PE_Panicked (vec_get (entries m) (root_entry_id root)));
    found ←
      match known_digest entry with
      | None => mret false
      | Some expected =>
        if negb (bool_decide (kind entry = RegularFile)) then mret false
        else
          let p := join target (provider_safe_component os (requested_name root)) in
          looked ← io_plan (attempt (metadata p));
          match looked with
          | Err IoNotFound => mret false
          | Err _ => throw PE_Io
          | Ok md =>
            if md_is_file md && (md_len md =? plaintext_size entry) then
              ino ← io_plan (open_file p);
              len ← io_plan (file_len ino);
              if len =? md_len md then
                digest ← io_plan (hash_open_file ino);
                mret (bool_decide (digest = expected))
              else mret false
            else mret false
          end
      end;
    rest ← discover_from m target rs';
    mret (if (found : bool) then entry_id entry :: rest else rest)
  end.
Definition discover_known_reuse_entries (m : ManifestV2) (target : path) (stable : bool) : P (list Z) :=
  if stable then discover_from m target (roots m) else mret [].

Definition reservation_path (directory : path) (k : str) : path :=
  join directory (encode_job_id (blake3 k) ++ lit ".reservation").
Definition reservation_text (job : JobIdV2) (rid : Z) : list byte :=
  encode_job_id job ++ lit ":" ++ lit (pretty (Z.to_N rid)).

Definition write_reservation (ino : Z) (job : JobIdV2) (rid : Z) : P unit :=
  _ ← io_plan (write_all ino 0 (reservation_text job rid)); io_plan (sync_file ino).

Fixpoint reserve_from (suffixes : list N) (directory : path) (base : str) (preserve_extension : bool)
    (occupied : gset str) (job : JobIdV2) (rid : Z) : P (str * path * gset str) :=
  match suffixes with
  | [] => throw PE_NameExhausted
  | suffix :: rest =>
    let candidate := candidate_name base preserve_extension suffix in
    let k := key candidate in
    if bool_decide (k ∈ occupied) then reserve_from rest directory base preserve_extension occupied job rid
    else
      let reservation := reservation_path directory k in
      opened ← io_plan (attempt (open_new reservation));
      match opened with
      | Ok ino =>
        _ ← write_reservation ino job rid;
        mret (candidate, reservation, {[ k ]} ∪ occupied)
      | Err IoAlreadyExists =>
        reserve_from rest directory base preserve_extension occupied job rid
      | Err _ => throw PE_Io
      end
  end.
Definition reserve_keep_both_name := reserve_from SUFFIXES.

Definition reserve_exact_name (directory : path) (name : str) (occupied : gset str) (job : JobIdV2)
    (rid : Z) : P (path * gset str) :=
  let k := key name in
  if bool_decide (k ∈ occupied) then throw PE_DestinationContended
  else
    let reservation := reservation_path directory k in
    opened ← io_plan (attempt (open_new reservation));
    match opened with
    | Ok ino => _ ← write_reservation ino job rid; mret (reservation, {[ k ]} ∪ occupied)
    | Err IoAlreadyExists => throw PE_DestinationContended
    | Err _ => throw PE_Io
    end.

(** The loops over the roots. *)
Fixpoint reserve_preplanned (directory : path) (rs : list RootPlanV2) (occupied : gset str)
    (job : JobIdV2) : P (list RootPlanV2 * list path) :=
  match rs with
  | [] => mret ([], [])
  | root :: rs' =>
    '(reservation, occupied) ←
      reserve_exact_name directory (planned_name root) occupied job (rp_root_id root);
    '(plans, reserved) ← reserve_preplanned directory rs' occupied job;
    mret (root :: plans, reservation :: reserved)
  end.
Fixpoint reserve_requested (m : ManifestV2) (directory : path) (rs : list ManifestRootV2)
    (occupied : gset str) : P (list RootPlanV2 * list path) :=
  match rs with
  | [] => mret ([], [])
  | root :: rs' =>
    entry ← pure (ok_or PE_Panicked (vec_get (entries m) (root_entry_id root)));
    '(name, reservation, occupied) ←
      reserve_keep_both_name directory (provider_safe_component os (requested_name root))
        (bool_decide (kind entry = RegularFile)) occupied (job_id m) (root_id root);
    '(plans, reserved) ← reserve_requested m directory rs' occupied;
    mret (mkRootPlan (root_id root) name :: plans, reservation :: reserved)
  end.

Definition private_directory (p : path) : P unit :=
  _ ← io_plan (create_dir_all p); io_plan may_fail.

Definition create (token : str) (offer : ManifestOfferV2) (request : DestinationRequestV2)
    : P DestinationWritePlanV2 :=
  let m := manifest offer in
  _ ← io_plan (create_dir_all (dr_target_directory request));
  target ← io_plan (canonicalize (dr_target_directory request));
  copy_staging ← match dr_copy_staging_directory request with
                 | None => mret None
                 | Some staging =>
                   _ ← io_plan (create_dir_all staging);
                   staging ← io_plan (canonicalize staging);
                   mret (Some staging)
                 end;
  target_available ← pure (ok_or PE_UnknownCapacity (target_allocatable_bytes request));
  let plaintext := total_plaintext_bytes (totals m) in
  let exceptional := (AUTO_RECEIVE_PLAINTEXT_LIMIT_BYTES <? plaintext)
                     || (target_available / 2 <? plaintext) in
  _ ← throw_if (exceptional && negb (dr_exceptional_transfer_approved request))
        PE_ExceptionalTransferApprovalRequired;
  direct_supported ← (if exclusive_rename_supported
                      then io_plan (exclusive_rename_probe token target) else mret false);
  mode ← match dr_decision request with
         | UseDirectSave =>
           if (direct_supported : bool) then mret DirectSave else throw PE_CopyDecisionRequired
         | ContinueWithCopyAfterVerify => mret CopyAfterVerify
         end;
  _ ← throw_if (bool_decide (mode = CopyAfterVerify) && negb direct_supported) PE_UnsupportedProvider;
  same_domain ← (if bool_decide (mode = CopyAfterVerify) then
                   staging ← pure (ok_or PE_MissingCopyStaging copy_staging);
                   _ ← io_plan (create_dir_all staging);
                   io_plan (same_storage_domain target staging)
                 else mret false);
  _ ← pure (validate_space m request mode same_domain);
  let job_hex := encode_job_id (job_id m) in
  staging_directory ← match mode with
                      | DirectSave => mret (join (join target STAGING_NAME) job_hex)
                      | CopyAfterVerify =>
                        staging ← pure (ok_or PE_MissingCopyStaging copy_staging);
                        mret (join (join staging COPY_STAGING_NAME) job_hex)
                      end;
  _ ← private_directory staging_directory;
  let reservation_directory := join target RESERVATIONS_NAME in
  _ ← private_directory reservation_directory;
  occupied ← io_plan (destination_names target);
  '(plans, reserved) ←
    match preplanned_root_names request with
    | Some preplanned =>
      _ ← pure (validate_preplanned_roots os to_lowercase m preplanned);
      reserve_preplanned reservation_directory preplanned occupied (job_id m)
    | None => reserve_requested m reservation_directory (roots m) occupied
    end;
  reuse ← discover_known_reuse_entries m target (dr_stable_object_identity request);
  domain ← io_plan (local_storage_domain target (dr_stable_object_identity request));
  mret (mkPlan (job_id m) (generation m) mode domain 1 plans exceptional target staging_directory
          reserved reuse).

Definition validate_resume_plan (plan : DestinationWritePlanV2) (offer : ManifestOfferV2)
    (request : DestinationRequestV2) : P unit :=
  let m := manifest offer in
  _ ← pure (validate_shape os to_lowercase plan);
  target ← io_plan (canonicalize (dr_target_directory request));
  let mode_matches := match pl_mode plan, dr_decision request with
                      | DirectSave, UseDirectSave
                      | CopyAfterVerify, ContinueWithCopyAfterVerify => true
                      | _, _ => false
                      end in
  _ ← throw_if (plan_differs plan m || negb (bool_decide (pl_target_directory plan = target))
          || negb (Bool.eqb (sd_stable_object_identity (storage_domain plan))
                     (dr_stable_object_identity request))
          || negb mode_matches
          || pl_exceptional_transfer_approved plan && negb (dr_exceptional_transfer_approved request)
          || match preplanned_root_names request with
             | Some rs => negb (bool_decide (rs = pl_root_plans plan))
             | None => false
             end) PE_InvalidEntryState;
  let copying := bool_decide (pl_mode plan = CopyAfterVerify) in
  _ ← (if copying then
         staging ← pure (ok_or PE_MissingCopyStaging (dr_copy_staging_directory request));
         staging ← io_plan (canonicalize staging);
         throw_if (negb (starts_with (pl_staging_directory plan) (join staging COPY_STAGING_NAME)))
           PE_InvalidEntryState
       else mret tt);
  current ← io_plan (local_storage_domain (pl_target_directory plan)
                       (sd_stable_object_identity (storage_domain plan)));
  _ ← throw_if (negb (bool_decide (current = storage_domain plan))) PE_InvalidEntryState;
  same_domain ← (if copying then
                   staging ← pure (ok_or PE_MissingCopyStaging (dr_copy_staging_directory request));
                   io_plan (same_storage_domain (pl_target_directory plan) staging)
                 else mret false);
  pure (validate_space m request (pl_mode plan) same_domain).
End Planning.

(** ** The plan's store *)

Section PlanStore.
Context (os : Platform) (to_lowercase : str -> str).
Context (plan_to_vec : DestinationWritePlanV2 -> option (list byte)).
Context (plan_from_slice : list byte -> option DestinationWritePlanV2).

Definition plan_stem (job : JobIdV2) (gen : Z) : str :=
  lit "destination-" ++ encode_job_id job ++ lit "-" ++ lit (pretty (Z.to_N gen)).
Definition plan_path (job : JobIdV2) (gen : Z) : str := plan_stem job gen ++ lit ".json".
Definition plan_temporary_path (job : JobIdV2) (gen : Z) : str := plan_stem job gen ++ lit ".tmp".

Definition plan_save (fs : files) (plan : DestinationWritePlanV2) (fault : SaveFault)
    : files * plan_result unit :=
  match validate_shape os to_lowercase plan with
  | Err e => (fs, Err e)
  | Ok _ =>
    let final := plan_path (pl_job_id plan) (pl_generation plan) in
    let tmp := plan_temporary_path (pl_job_id plan) (pl_generation plan) in
    match fault, plan_to_vec plan with
    | DirectoryFault, _ | _, None | WriteFault None, _ => (fs, Err PE_Io)
    | WriteFault (Some part), Some _ => (<[tmp := part]> fs, Err PE_Io)
    | SyncFault, Some bytes => (<[final := bytes]> (delete tmp fs), Err PE_Io)
    | NoFault, Some bytes => (<[final := bytes]> (delete tmp fs), Ok tt)
    end
  end.

Definition plan_load (fs : files) (job : JobIdV2) (gen : Z)
    : plan_result (option DestinationWritePlanV2) :=
  match fs !! plan_path job gen with
  | None => Ok None
  | Some bytes =>
    plan ← ok_or PE_Io (plan_from_slice bytes);
    _ ← validate_shape os to_lowercase plan;
    Ok (Some plan)
  end.
End PlanStore.
