(* ===== verification/ReceivePlane.v ===== *)
(** The receiving half of the data plane
    (crates/envoix-transfer/src/manifest_v2_engine.rs): [receive] and what it
    calls, over any payload sink and any result gate. *)

From stdpp Require Import prelude gmap strings.
From Stdlib Require Import ZArith Lia Strings.Byte.
From S2P Require Import Prelude Bytes ManifestV2 OfferCodec Frames Timeline Delivery Ledger Proc.

Local Open Scope Z_scope.

(** ** The sink and the gate *)

(** [trait ManifestV2PayloadSink] *)
Class PayloadSink (S : Type) := {
  begin_entry : ManifestEntryV2 -> EntryStartV2 -> Z -> S -> S * data unit;
  write_block : ManifestEntryV2 -> EntryBlockV2 -> S -> S * data unit;
  try_choose_reuse : ManifestEntryV2 -> ContentDigestV2 -> S -> S * data bool;
  verify_payload : ManifestEntryV2 -> ContentDigestV2 -> S -> S * data unit;
  stage_directory : ManifestEntryV2 -> S -> S * data unit;
  commit_job : ManifestV2 -> list VerifiedEntryV2 -> S -> S * data (list SavedEntryV2);
  retire_payload : ManifestEntryV2 -> S -> S * data unit;
}.

(** [trait ManifestV2ResultGate]: the entries as the gate leaves them. *)
Abbreviation ResultGate :=
  (ManifestV2 -> list SavedEntryV2 -> list SavedEntryV2 * data unit).
Definition noop_commit_results : ResultGate := fun _ saved => (saved, Ok tt).

Section Receive.
Context (is_nfc : str -> bool) (blake3 : list byte -> list byte).
Context (zstd_decompress : list byte -> Z -> option (list byte)).
Context (ledger_to_vec : ReceiverDataPlaneLedgerV2 -> option (list byte)).
Context {S : Type} `{PayloadSink S}.
Context (gate_commit_results : ResultGate).
Local Notation M := (proc (World ReceiverDataPlaneLedgerV2 S) ManifestV2DataError).

Definition save_ledger : M unit := save_record (ledger_save ledger_to_vec).

(** [ledger.entries[index]], read and assigned. *)
Definition entry_at (index : Z) : M ReceiverEntryCheckpointV2 :=
  l ← get_record; pure (index_at (rl_entries l) index).
Definition modify_entry (index : Z) (f : ReceiverEntryCheckpointV2 -> ReceiverEntryCheckpointV2)
    : M unit :=
  _ ← entry_at index;
  l ← get_record;
  put_record (alter_entry index f l).

Definition recv_entry_start (id : JobGenerationV2) (eid : Z) : M EntryStartV2 :=
  frame ← recv;
  match frame with
  | EntryStart start =>
    if bool_decide (es_identity start = id) && (es_entry_id start =? eid)
    then mret start else throw (D_UnexpectedFrame "waiting for EntryStart")
  | _ => throw (D_UnexpectedFrame "waiting for EntryStart")
  end.

Definition receive_directory (entry : ManifestEntryV2) (id : JobGenerationV2) (index : Z) : M unit :=
  frame ← recv;
  match frame with
  | EntryComplete completion =>
    if negb (bool_decide (ec_identity completion = id))
       || negb (ec_entry_id completion =? entry_id entry)
       || negb (ec_final_size completion =? 0)
       || negb (bool_decide (ec_final_digest completion = empty_digest blake3))
       || negb (bool_decide (completion_choice completion = PayloadComplete))
    then throw D_FinalMismatch
    else
      _ ← call_sink (stage_directory entry);
      _ ← modify_entry index (fun c =>
            set_cp_completion (Some completion) (set_cp_arbiter PayloadCompleteChosen c));
      save_ledger
  | _ => throw (D_UnexpectedFrame "waiting for directory completion")
  end.

Definition retire_mismatch (entry : ManifestEntryV2) (index : Z) : M unit :=
  _ ← modify_entry index (retire_checkpoint entry);
  _ ← save_ledger;
  call_sink (retire_payload entry).

(** [set_or_equal_digest(&mut ledger.entries[index], digest).is_err()] *)
Definition digest_refused (index : Z) (digest : ContentDigestV2) : M bool :=
  c ← entry_at index;
  _ ← modify_entry index (fun c => fst (set_or_equal_digest c digest));
  mret (negb (is_ok (snd (set_or_equal_digest c digest)))).

Definition receive_file_completion (entry : ManifestEntryV2) (index : Z)
    (final_digest : ContentDigestV2) : M unit :=
  c ← entry_at index;
  completion ← pure (ok_or (D_InvalidLedger "completion was not committed") (cp_completion c));
  _ ← match completion_choice completion with
      | CompletionReuseChosen =>
        throw_if (negb (bool_decide (cp_arbiter c = ArbiterReuseChosen))) D_ReuseUnavailable
      | PayloadComplete =>
        if negb (bool_decide (cp_arbiter c = PayloadOpen))
           || negb (cp_plaintext_bytes c =? plaintext_size entry)
        then _ ← retire_mismatch entry index; throw D_FinalMismatch
        else
          verified ← attempt (call_sink (verify_payload entry final_digest));
          match verified with
          | Err error => _ ← retire_mismatch entry index; throw error
          | Ok _ =>
            _ ← modify_entry index (set_cp_arbiter PayloadCompleteChosen);
            save_ledger
          end
      end;
  _ ← modify_entry index (set_cp_completion (Some completion));
  save_ledger.

(** The three kinds of frame [receive_file] accepts. *)
Definition receive_digest (entry : ManifestEntryV2) (index : Z) (total : Z)
    (frame : EntryContentDigestFrameV2) : M unit :=
  l ← get_record;
  let id := rl_identity l in
  if negb (bool_decide (cd_identity frame = id)) || negb (cd_entry_id frame =? entry_id entry)
  then throw D_IdentityMismatch
  else if negb (bool_decide (decision frame = Proposed))
  then throw (D_UnexpectedFrame "receiver expected a proposed content digest")
  else
    refused ← digest_refused index (cd_digest frame);
    if (refused : bool)
    then _ ← retire_mismatch entry index; throw D_DigestConflict
    else
      c ← entry_at index;
      reuse ← (if bool_decide (cp_arbiter c = PayloadOpen)
               then call_sink (try_choose_reuse entry (cd_digest frame)) else mret false);
      _ ← (if (reuse : bool)
           then
             _ ← modify_entry index (fun c =>
                   set_cp_boundary 0 0 (set_cp_arbiter ArbiterReuseChosen c));
             advance (saturating_sub (plaintext_size entry) (cp_plaintext_bytes c)) total
           else mret tt);
      _ ← save_ledger;
      c ← entry_at index;
      send_frame (EntryContentDigest
        (mkContentDigest id (entry_id entry) (cd_digest frame)
           (if bool_decide (cp_arbiter c = ArbiterReuseChosen)
            then DecisionReuseExisting else ContinuePayload))).

Definition receive_block (entry : ManifestEntryV2) (index : Z) (total : Z) (block : EntryBlockV2)
    : M unit :=
  c ← entry_at index;
  _ ← pure (validate_block entry c block);
  if negb (bool_decide (cp_arbiter c = PayloadOpen)) then throw D_BlockOrder
  else
    start ← pure (ok_or (D_InvalidLedger "entry start is missing") (cp_start c));
    plaintext_block ← pure (decode_block zstd_decompress (encoding start) block);
    _ ← call_sink (write_block entry plaintext_block);
    next ← pure (ok_or D_ArithmeticOverflow (checked_add u64_max (cp_next_plaintext_block c) 1));
    _ ← modify_entry index (fun c => set_cp_boundary next (cp_plaintext_bytes c) c);
    stop ← pure (ok_or D_ArithmeticOverflow
                   (checked_add u64_max (plaintext_offset block) (plaintext_length block)));
    _ ← modify_entry index (fun c => set_cp_boundary (cp_next_plaintext_block c) stop c);
    _ ← save_ledger;
    _ ← report (on_stage FirstPayload);
    advance (plaintext_length block) total.

Definition receive_complete (entry : ManifestEntryV2) (index : Z) (completion : EntryCompleteV2)
    : M unit :=
  l ← get_record;
  if negb (bool_decide (ec_identity completion = rl_identity l))
     || negb (ec_entry_id completion =? entry_id entry)
  then throw D_IdentityMismatch
  else
    refused ← digest_refused index (ec_final_digest completion);
    if (refused : bool)
    then _ ← retire_mismatch entry index; throw D_DigestConflict
    else if negb (ec_final_size completion =? plaintext_size entry)
    then _ ← retire_mismatch entry index; throw D_FinalMismatch
    else
      _ ← modify_entry index (set_cp_completion (Some completion));
      _ ← report (on_phase PhVerifying);
      outcome ← attempt (receive_file_completion entry index (ec_final_digest completion));
      _ ← report (on_phase PhTransferring);
      pure outcome.

(** The loop, one turn per frame; [recv] fails before the fuel is used up when
    there is one unit per incoming frame. *)
Fixpoint receive_frames (fuel : nat) (entry : ManifestEntryV2) (index : Z) (total : Z) : M unit :=
  match fuel with
  | O => throw D_Core
  | Datatypes.S fuel =>
    l ← get_record;
    let id := rl_identity l in
    frame ← recv;
    match frame with
    | EntryContentDigest digest_frame =>
      _ ← receive_digest entry index total digest_frame;
      receive_frames fuel entry index total
    | EntryBlock block =>
      _ ← receive_block entry index total block;
      receive_frames fuel entry index total
    | EntryComplete completion => receive_complete entry index completion
    | Cancel cancel =>
      throw (D_UnexpectedFrame (if bool_decide (ca_identity cancel = id)
                                then "peer canceled entry" else "receiving entry payload"))
    | Error error =>
      throw (D_UnexpectedFrame (if bool_decide (me_identity error = id)
                                then "peer reported failure" else "receiving entry payload"))
    | _ => throw (D_UnexpectedFrame "receiving entry payload")
    end
  end.

Definition receive_file (entry : ManifestEntryV2) (plan : EntryPlanV2) (index : Z) (total : Z)
    : M unit :=
  c ← entry_at index;
  _ ← (if bool_decide (disposition plan = DispositionReuseExisting)
       then
         digest ← pure (ok_or D_ReuseUnavailable (cp_content_digest c));
         chosen ← call_sink (try_choose_reuse entry digest);
         _ ← throw_if (negb chosen) D_ReuseUnavailable;
         _ ← modify_entry index (set_cp_arbiter ArbiterReuseChosen);
         _ ← save_ledger;
         if negb (bool_decide (cp_arbiter c = ArbiterReuseChosen))
         then advance (plaintext_size entry) total else mret tt
       else mret tt);
  frames ← get_incoming;
  receive_frames (length frames) entry index total.

(** ** One entry of [receive] *)

(** The completion of an entry that needs no payload any more. *)
Definition settled_completion (id : JobGenerationV2) (entry : ManifestEntryV2)
    (c : ReceiverEntryCheckpointV2) : data EntryCompleteV2 :=
  match cp_completion c with
  | Some completion => Ok completion
  | None =>
    if bool_decide (cp_arbiter c = ArbiterReuseChosen) then
      digest ← ok_or (D_InvalidLedger "reused entry is missing its content digest")
                 (cp_content_digest c);
      Ok (mkComplete id (entry_id entry) (plaintext_size entry) digest CompletionReuseChosen)
    else Err (D_InvalidLedger "completed payload is missing its completion fact")
  end.

(** An [EntryStart] against the one of an earlier session. *)
Definition commit_start (index : Z) (start : EntryStartV2) : M unit :=
  c ← entry_at index;
  _ ← match cp_start c with
      | Some existing =>
        throw_if (negb (bool_decide (existing = start))) D_DigestConflict
      | None => modify_entry index (set_cp_start start)
      end;
  modify_entry index (set_cp_retired false).

(** The completion hasher's bytes after one entry. *)
Definition receive_entry (entry : ManifestEntryV2) (total : Z) (hasher : list byte)
    : M (list byte) :=
  l ← get_record;
  let id := rl_identity l in
  let index := entry_id entry in
  c ← entry_at index;
  if bool_decide (is_Some (cp_result c)) then
    completion ← pure (ok_or (D_InvalidLedger "completed entry is missing its completion fact")
                         (cp_completion c));
    pure (update_completion_set is_nfc blake3 hasher completion)
  else if negb (bool_decide (cp_arbiter c = PayloadOpen)) then
    completion ← pure (settled_completion id entry c);
    _ ← modify_entry index (set_cp_completion (Some completion));
    _ ← save_ledger;
    pure (update_completion_set is_nfc blake3 hasher completion)
  else
    plan ← pure (index_at (entry_plans (rl_accept l)) index);
    start ← recv_entry_start id (entry_id entry);
    _ ← commit_start index start;
    _ ← save_ledger;
    _ ← (if bool_decide (kind entry = Directory)
         then receive_directory entry id index
         else
           c ← entry_at index;
           _ ← (if bool_decide (disposition plan = ReceivePayload)
                then call_sink (begin_entry entry start (cp_next_plaintext_block c))
                else mret tt);
           receive_file entry plan index total);
    c ← entry_at index;
    completion ← pure (ok_or (D_InvalidLedger "entry completion missing") (cp_completion c));
    pure (update_completion_set is_nfc blake3 hasher completion).

Fixpoint receive_entries (es : list ManifestEntryV2) (total : Z) (hasher : list byte)
    : M (list byte) :=
  match es with
  | [] => mret hasher
  | e :: es' => hasher ← receive_entry e total hasher; receive_entries es' total hasher
  end.

(** ** The end of the job *)

Definition receive_job_complete (id : JobGenerationV2) (hasher : list byte) : M ContentDigestV2 :=
  frame ← recv;
  sender_digest ←
    match frame with
    | JobComplete complete =>
      if bool_decide (jc_identity complete = id)
      then mret (sender_completion_set_digest complete)
      else throw (D_UnexpectedFrame "waiting for JobComplete")
    | _ => throw (D_UnexpectedFrame "waiting for JobComplete")
    end;
  _ ← throw_if (negb (bool_decide (sender_digest = blake3 hasher))) D_DigestConflict;
  l ← get_record;
  _ ← match rl_sender_completion_set_digest l with
      | Some existing =>
        throw_if (negb (bool_decide (existing = sender_digest))) D_DigestConflict
      | None => put_record (set_rl_completion (Some sender_digest) l)
      end;
  _ ← save_ledger;
  _ ← report (on_stage StagePayloadComplete);
  mret sender_digest.

Fixpoint send_results (rs : list EntryResultV2) : M unit :=
  match rs with
  | [] => mret tt
  | r :: rs' => _ ← send_frame (EntryResult r); send_results rs'
  end.

Fixpoint verified_entries (m : ManifestV2) (cs : list ReceiverEntryCheckpointV2)
    : data (list VerifiedEntryV2) :=
  match cs with
  | [] => Ok []
  | c :: cs' =>
    completion ← ok_or (D_InvalidLedger "entry completion missing") (cp_completion c);
    entry ← index_at (entries m) (cp_entry_id c);
    rest ← verified_entries m cs';
    Ok (mkVerified (cp_entry_id c)
          (if bool_decide (kind entry = RegularFile)
           then Some (ec_final_digest completion) else None)
          (completion_choice completion) :: rest)
  end.

(** The loop over manifest, verified and saved entries. *)
Fixpoint commit_entries (id : JobGenerationV2) (es : list ManifestEntryV2)
    (vs : list VerifiedEntryV2) (saved : list SavedEntryV2) : M (list EntryResultV2) :=
  match es, vs, saved with
  | entry :: es', v :: vs', s :: saved' =>
    _ ← throw_if (negb (se_entry_id s =? entry_id entry)
                  || negb (bool_decide (se_result s = result_kind_of (ve_completion_choice v))))
          (D_DestinationContract "destination result set is noncanonical");
    let r := mkResult id (entry_id entry) (se_result s) (plaintext_size entry)
               (ve_final_digest v) (se_final_component_override s) in
    _ ← modify_entry (entry_id entry) (set_cp_result r);
    rest ← commit_entries id es' vs' saved';
    mret (r :: rest)
  | _, _, _ => mret []
  end.

Definition finish_job (m : ManifestV2) (id : JobGenerationV2) (sender_digest : ContentDigestV2)
    : M ReceiverDataPlaneSummaryV2 :=
  l ← get_record;
  if forallb (fun c => bool_decide (is_Some (cp_result c))) (rl_entries l) then
    entry_results ← pure (ok_or (D_InvalidLedger "completed result set is sparse")
                            (collect_options (map cp_result (rl_entries l))));
    _ ← send_results entry_results;
    _ ← report (on_phase PhFinalizingDelivery);
    mret (mkReceiverSummary id sender_digest entry_results)
  else
    vs ← pure (verified_entries m (rl_entries l));
    _ ← report (on_phase PhSaving);
    saved ← call_sink (commit_job m vs);
    let '(saved, gated) := gate_commit_results m saved in
    _ ← pure gated;
    _ ← throw_if (negb (zlen saved =? zlen (entries m)))
          (D_DestinationContract "destination returned an incomplete result set");
    entry_results ← commit_entries id (entries m) vs saved;
    _ ← save_ledger;
    _ ← send_results entry_results;
    _ ← report (on_phase PhFinalizingDelivery);
    mret (mkReceiverSummary id sender_digest entry_results).

Definition receive (offer : ManifestOfferV2) : M ReceiverDataPlaneSummaryV2 :=
  l ← get_record;
  _ ← pure (ledger_validate is_nfc blake3 l (manifest offer));
  let id := rl_identity l in
  let total := total_plaintext_bytes (totals (manifest offer)) in
  c ← pure (resume_plaintext_bytes (manifest offer) (resume_status l));
  _ ← set_completed c;
  _ ← report (on_phase PhTransferring);
  _ ← report (on_progress c total);
  hasher ← receive_entries (entries (manifest offer)) total [];
  sender_digest ← receive_job_complete id hasher;
  finish_job (manifest offer) id sender_digest.
End Receive.
