(* ===== verification/Provider.v ===== *)
(** The local destination provider (crates/envoix-transfer/src/destination_v2.rs):
    payloads staged in private files, verified, and moved to their final place
    by an exclusive rename with a durable intent; it is an instance of the
    interface of the data plane's sink. *)

From stdpp Require Import prelude gmap strings pretty.
From Stdlib Require Import ZArith Lia Strings.Byte.
From S2P Require Import Prelude Bytes ManifestV2 OfferCodec Frames Delivery Ledger Names Proc.
From S2P Require Import ReceivePlane LocalFs Destination.

Local Open Scope Z_scope.

Definition LOCAL_SAVE_LEDGER_SCHEMA_VERSION : Z := 1.

(** ** Data *)

(** [hasher] is the bytes hashed so far; the position of [file] is [op_pos]. *)
Record OpenPayload := mkPayload { op_file : Z; op_pos : Z; hasher : list byte; op_bytes : Z }.
Record ReuseObject := mkReuse {
  ro_file : Z;
  ro_size : Z;
  ro_digest : ContentDigestV2;
  ro_final_name : str;
}.

Inductive SavedRootResultV2 := RootSaved | RootReusedExisting.
Inductive ObjectIdentityV2 :=
| Stable (volume object : Z)
| ExactContent (root_digest : ContentDigestV2).
Inductive RootSaveStateV2 :=
| Pending
| FinalizeIntent (expected_object : ObjectIdentityV2) (plan_revision : Z) (planned_name : str)
    (reservation : path) (idempotency_key : list byte)
| SavedRoot (result : SavedRootResultV2) (final_name : str).
#[export] Instance SavedRootResultV2_eq_dec : EqDecision SavedRootResultV2.
Proof. solve_decision. Defined.
#[export] Instance ObjectIdentityV2_eq_dec : EqDecision ObjectIdentityV2.
Proof. solve_decision. Defined.
#[export] Instance RootSaveStateV2_eq_dec : EqDecision RootSaveStateV2.
Proof. solve_decision. Defined.

Record LocalSaveLedgerV2 := mkSaveLedger {
  sl_schema_version : Z;
  sl_job_id : JobIdV2;
  sl_generation : Z;
  sl_manifest_digest : ContentDigestV2;
  sl_roots : list RootSaveStateV2;
}.

(** The provider with what it works on: the file system, the files of the ledger
    directory, how the next writes there end, and what the entropy source gives. *)
Record Provider := mkProvider {
  pv_plan : DestinationWritePlanV2;
  pv_manifest : ManifestV2;
  entry_paths : list path;
  entry_overrides : list (option str);
  payloads : gmap Z OpenPayload;
  reuse_objects : gmap Z ReuseObject;
  save_ledger_of : LocalSaveLedgerV2;
  pv_fs : Fs;
  ledger_files : files;
  ledger_faults : list SaveFault;
  entropy : list (option (list byte));
}.

Definition set_payloads (v : gmap Z OpenPayload) (p : Provider) : Provider :=
  mkProvider (pv_plan p) (pv_manifest p) (entry_paths p) (entry_overrides p) v (reuse_objects p)
    (save_ledger_of p) (pv_fs p) (ledger_files p) (ledger_faults p) (entropy p).
Definition set_reuse_objects (v : gmap Z ReuseObject) (p : Provider) : Provider :=
  mkProvider (pv_plan p) (pv_manifest p) (entry_paths p) (entry_overrides p) (payloads p) v
    (save_ledger_of p) (pv_fs p) (ledger_files p) (ledger_faults p) (entropy p).
Definition set_save_ledger (v : LocalSaveLedgerV2) (p : Provider) : Provider :=
  mkProvider (pv_plan p) (pv_manifest p) (entry_paths p) (entry_overrides p) (payloads p)
    (reuse_objects p) v (pv_fs p) (ledger_files p) (ledger_faults p) (entropy p).
Definition set_pv_fs (v : Fs) (p : Provider) : Provider :=
  mkProvider (pv_plan p) (pv_manifest p) (entry_paths p) (entry_overrides p) (payloads p)
    (reuse_objects p) (save_ledger_of p) v (ledger_files p) (ledger_faults p) (entropy p).
Definition set_root_state (rid : Z) (v : RootSaveStateV2) (p : Provider) : Provider :=
  let l := save_ledger_of p in
  set_save_ledger (mkSaveLedger (sl_schema_version l) (sl_job_id l) (sl_generation l)
    (sl_manifest_digest l) (<[Z.to_nat rid := v]> (sl_roots l))) p.

(** ** Calls *)

Section Calls.
Context {E : Type}.
Local Notation M := (proc Provider E).

Definition self : M Provider := fun p => (p, Ok p).
Definition update (f : Provider -> Provider) : M unit := fun p => (f p, Ok tt).
(** A file system call, its error as a value or in the caller's type. *)
Definition on_fs {A} (call : io A) : M (result IoError A) := fun p =>
  let '(fs, r) := call (pv_fs p) in (set_pv_fs fs p, Ok r).
Definition fs_or {A} (e : E) (call : io A) : M A :=
  r ← on_fs call; pure (map_err (fun _ => e) r).
(** [?] from one error type to another. *)
Definition lift {E' A} (f : E' -> E) (call : proc Provider E' A) : M A := fun p =>
  let '(p, r) := call p in (p, map_err f r).
End Calls.

Section Provider.
Context (os : Platform) (to_lowercase : str -> str) (is_nfc : str -> bool).
Context (blake3 : list byte -> list byte) (derive_key : str -> list byte -> list byte).
Context (volume_of : path -> str) (device_of : path -> Z).
Context (plan_to_vec : DestinationWritePlanV2 -> option (list byte)).
Context (plan_from_slice : list byte -> option DestinationWritePlanV2).
Context (save_to_vec : LocalSaveLedgerV2 -> option (list byte)).
Context (save_from_slice : list byte -> option LocalSaveLedgerV2).
Local Notation D := (proc Provider DestinationPlanErrorV2).
Local Notation M := (proc Provider ManifestV2DataError).
Local Notation fsd := (fs_or PE_Io).
Local Notation fsm := (fs_or D_Io).
Local Notation dest := (lift D_Destination).
Local Notation at_index l i := (pure (ok_or PE_Panicked (vec_get l i))).

(** ** The ledger of saves *)

Definition save_ledger_stem (plan : DestinationWritePlanV2) : str :=
  lit "save-" ++ encode_job_id (pl_job_id plan) ++ lit "-" ++ lit (pretty (Z.to_N (pl_generation plan))).

Definition save_effect_ledger : D unit := fun p =>
  let '(fault, faults) :=
    match ledger_faults p with [] => (NoFault, []) | f :: rest => (f, rest) end in
  let stem := save_ledger_stem (pv_plan p) in
  let final := stem ++ lit ".json" in
  let tmp := stem ++ lit ".tmp" in
  let fs := ledger_files p in
  let '(fs, r) :=
    match fault, save_to_vec (save_ledger_of p) with
    | DirectoryFault, _ | _, None | WriteFault None, _ => (fs, Err PE_Io)
    | WriteFault (Some part), Some _ => (<[tmp := part]> fs, Err PE_Io)
    | SyncFault, Some bytes => (<[final := bytes]> (delete tmp fs), Err PE_Io)
    | NoFault, Some bytes => (<[final := bytes]> (delete tmp fs), Ok tt)
    end in
  (mkProvider (pv_plan p) (pv_manifest p) (entry_paths p) (entry_overrides p) (payloads p)
     (reuse_objects p) (save_ledger_of p) (pv_fs p) fs faults (entropy p), r).

Definition root_state (rid : Z) : D RootSaveStateV2 :=
  p ← self; at_index (sl_roots (save_ledger_of p)) rid.
Definition assign_root_state (rid : Z) (v : RootSaveStateV2) : D unit :=
  _ ← root_state rid; update (set_root_state rid v).

Definition fill_entropy : D (list byte) := fun p =>
  let '(v, rest) := match entropy p with [] => (None, []) | v :: rest => (v, rest) end in
  (mkProvider (pv_plan p) (pv_manifest p) (entry_paths p) (entry_overrides p) (payloads p)
     (reuse_objects p) (save_ledger_of p) (pv_fs p) (ledger_files p) (ledger_faults p) rest,
   ok_or PE_Io v).

Definition persist_new_save_intent (rid : Z) (expected_object : ObjectIdentityV2) : D unit :=
  p ← self;
  rp ← pure (ok_or PE_InvalidEntryState (vec_get (pl_root_plans (pv_plan p)) rid));
  _ ← throw_if (negb (rp_root_id rp =? rid)) PE_InvalidEntryState;
  reservation ← pure (ok_or PE_InvalidEntryState (vec_get (reservations (pv_plan p)) rid));
  idempotency_key ← fill_entropy;
  _ ← assign_root_state rid (FinalizeIntent expected_object (pl_plan_revision (pv_plan p))
                               (planned_name rp) reservation idempotency_key);
  save_effect_ledger.

Definition current_intent_object (rid : Z) : D ObjectIdentityV2 :=
  p ← self;
  match vec_get (sl_roots (save_ledger_of p)) rid with
  | Some (FinalizeIntent expected revision name reservation idempotency_key) =>
    if revision =? pl_plan_revision (pv_plan p) then
      rp ← at_index (pl_root_plans (pv_plan p)) rid;
      if bool_decide (name = planned_name rp) then
        r ← at_index (reservations (pv_plan p)) rid;
        if bool_decide (reservation = r) && negb (bool_decide (idempotency_key = zero_bytes 16))
        then mret expected else throw PE_InvalidEntryState
      else throw PE_InvalidEntryState
    else throw PE_InvalidEntryState
  | _ => throw PE_InvalidEntryState
  end.

(** ** Payloads *)

Definition entry_path (eid : Z) : M path :=
  p ← self; pure (ok_or D_Panicked (vec_get (entry_paths p) eid)).

(** The staging file, opened at the boundary the ledger has. *)
Definition open_payload (entry : ManifestEntryV2) (start : EntryStartV2) (next_plaintext_block : Z)
    : M OpenPayload :=
  if negb (bool_decide (kind entry = RegularFile)) then throw (D_Destination PE_InvalidEntryState)
  else
    path ← entry_path (entry_id entry);
    _ ← match parent path with Some above => fsm (create_dir_all above) | None => mret tt end;
    blocks ← pure (ok_or D_ArithmeticOverflow
                     (checked_mul u64_max next_plaintext_block (plaintext_block_bytes start)));
    let expected_bytes := Z.min blocks (plaintext_size entry) in
    ino ← fsm (open_create path);
    len ← fsm (file_len ino);
    _ ← throw_if (negb (len =? expected_bytes)) (D_Destination PE_InvalidEntryState);
    bytes ← fsm (read_all ino);
    mret (mkPayload ino expected_bytes bytes expected_bytes).

Definition begin_entry (entry : ManifestEntryV2) (start : EntryStartV2) (next_plaintext_block : Z)
    : M unit :=
  payload ← open_payload entry start next_plaintext_block;
  update (fun p => set_payloads (<[entry_id entry := payload]> (payloads p)) p).

(** [payload.file.write_all(..)]: the file's position follows what was written, also by
    a write that fails. *)
Definition going_out (bytes : list byte) (fs : Fs) : list byte :=
  match io_faults fs with Some n :: _ => take n bytes | _ => bytes end.
Definition write_payload (eid : Z) (payload : OpenPayload) (bytes : list byte) : M unit := fun p =>
  let '(fs, r) := write_all (op_file payload) (op_pos payload) bytes (pv_fs p) in
  let moved := mkPayload (op_file payload) (op_pos payload + zlen (going_out bytes (pv_fs p)))
                 (hasher payload) (op_bytes payload) in
  (set_payloads (<[eid := moved]> (payloads p)) (set_pv_fs fs p), map_err (fun _ => D_Io) r).

Definition write_block (entry : ManifestEntryV2) (block : EntryBlockV2) : M unit :=
  p ← self;
  payload ← pure (ok_or (D_Destination PE_InvalidEntryState) (payloads p !! entry_id entry));
  _ ← throw_if (negb (op_bytes payload =? plaintext_offset block)
                || negb (plaintext_length block =? zlen (encoded_bytes block)))
        (D_Destination PE_InvalidEntryState);
  _ ← write_payload (entry_id entry) payload (encoded_bytes block);
  _ ← fsm (sync_file (op_file payload));
  let hashed := hasher payload ++ encoded_bytes block in
  let pos := op_pos payload + zlen (encoded_bytes block) in
  let put bytes := update (fun p => set_payloads
        (<[entry_id entry := mkPayload (op_file payload) pos hashed bytes]> (payloads p)) p) in
  match checked_add u64_max (op_bytes payload) (plaintext_length block) with
  | None => _ ← put (op_bytes payload); throw D_ArithmeticOverflow
  | Some bytes => put bytes
  end.

Definition verify_payload (entry : ManifestEntryV2) (final_digest : ContentDigestV2) : M unit :=
  p ← self;
  payload ← pure (ok_or (D_Destination PE_InvalidEntryState) (payloads p !! entry_id entry));
  _ ← fsm (sync_file (op_file payload));
  throw_if (negb (op_bytes payload =? plaintext_size entry)
            || negb (bool_decide (blake3 (hasher payload) = final_digest))) D_FinalMismatch.

Definition stage_directory (entry : ManifestEntryV2) : M unit :=
  path ← entry_path (entry_id entry); fsm (create_dir_all path).

Definition drop_payload (eid : Z) : M unit :=
  update (fun p => set_payloads (delete eid (payloads p)) p).

(** The staging file of an entry goes, if there is one. *)
Definition remove_staged (eid : Z) : M unit :=
  path ← entry_path eid; fsm (unless_missing (remove_file path)).

Definition retire_payload (entry : ManifestEntryV2) : M unit :=
  _ ← drop_payload (entry_id entry);
  remove_staged (entry_id entry).

Definition try_open_reuse (entry : ManifestEntryV2) (digest : ContentDigestV2)
    : D (option ReuseObject) :=
  p ← self;
  if negb (sd_stable_object_identity (storage_domain (pv_plan p))) then mret None
  else
    root ← at_index (roots (pv_manifest p)) (entry_root_id entry);
    if negb (entry_id entry =? root_entry_id root) || negb (bool_decide (kind entry = RegularFile))
    then mret None
    else
      let candidate_name := provider_safe_component os (requested_name root) in
      let candidate := join (pl_target_directory (pv_plan p)) candidate_name in
      looked ← on_fs (metadata candidate);
      match looked with
      | Err IoNotFound => mret None
      | Err _ => throw PE_Io
      | Ok md =>
        if md_is_file md && (md_len md =? plaintext_size entry) then
          ino ← fsd (open_file candidate);
          candidate_digest ← fsd (hash_open_file blake3 ino);
          if negb (bool_decide (candidate_digest = digest)) then mret None
          else _ ← fsd may_fail; mret (Some (mkReuse ino (md_len md) digest candidate_name))
        else mret None
      end.

Definition keep_reuse (eid : Z) (reuse : ReuseObject) : M unit :=
  update (fun p => set_reuse_objects (<[eid := reuse]> (reuse_objects p)) p).

Definition try_choose_reuse (entry : ManifestEntryV2) (digest : ContentDigestV2) : M bool :=
  found ← dest (try_open_reuse entry digest);
  match found with
  | None => mret false
  | Some reuse =>
    _ ← drop_payload (entry_id entry);
    _ ← remove_staged (entry_id entry);
    _ ← keep_reuse (entry_id entry) reuse;
    mret true
  end.

(** ** Resuming *)

Fixpoint reopen_reuse (pending : list (Z * ContentDigestV2)) : M unit :=
  match pending with
  | [] => mret tt
  | (eid, digest) :: rest =>
    p ← self;
    entry ← pure (ok_or D_Panicked (vec_get (entries (pv_manifest p)) eid));
    found ← dest (try_open_reuse entry digest);
    reuse ← pure (ok_or (D_Destination PE_ReusedObjectLost) found);
    _ ← keep_reuse eid reuse;
    reopen_reuse rest
  end.

(** Whether the staged bytes of an entry are those the ledger counts: an entry
    whose root has its final place is left alone. *)
Definition boundary_lost (eid plaintext_bytes : Z) : M bool :=
  p ← self;
  entry ← pure (ok_or D_Panicked (vec_get (entries (pv_manifest p)) eid));
  state ← pure (ok_or D_Panicked (vec_get (sl_roots (save_ledger_of p)) (entry_root_id entry)));
  adopted ← (if bool_decide (state = Pending) then mret false
             else
               final ← pure (ok_or (D_Destination PE_InvalidEntryState)
                               (target_path_for_root (pv_plan p) (entry_root_id entry)));
               fsm (try_exists final));
  if (adopted : bool) then mret false
  else
    path ← entry_path eid;
    looked ← on_fs (metadata path);
    match looked with
    | Ok md => mret (negb (md_is_file md && (md_len md =? plaintext_bytes)))
    | Err IoNotFound => mret true
    | Err _ => throw D_Io
    end.
End Provider.
