(* ===== verification/ProviderCommit.v ===== *)
(** Committing a job in the local destination provider
    (crates/envoix-transfer/src/destination_v2.rs): the trees that are copied,
    compared and flushed, the final rename of every root under a durable intent,
    and the provider as a sink of the data plane; opening a provider and
    reconciling it with the receiver's ledger. *)

From stdpp Require Import prelude gmap strings pretty.
From Stdlib Require Import ZArith Lia Strings.Byte.
From S2P Require Import Prelude Bytes ManifestV2 OfferCodec Frames Delivery Ledger Names Proc.
From S2P Require Import ReceivePlane LocalFs Destination Provider.

Local Open Scope Z_scope.

(** ** Trees *)

(** A tree is walked with a stack of directories; every directory is visited
    once, so the number of objects in the file system is enough. *)
Definition tree_fuel : io nat := fs ← get_fs; mret (S (size (nodes fs))).

Fixpoint copy_children (from to : path) (names : list str) (pending : list (path * path))
    : io (list (path * path)) :=
  match names with
  | [] => mret pending
  | name :: names' =>
    let target := join to name in
    md ← metadata (join from name);
    if md_is_file md then
      _ ← copy_file (join from name) target;
      ino ← open_file target;
      _ ← sync_file ino;
      copy_children from to names' pending
    else
      _ ← create_dir target;
      copy_children from to names' ((join from name, target) :: pending)
  end.
Fixpoint copy_directories (fuel : nat) (pending : list (path * path)) : io unit :=
  match fuel, pending with
  | _, [] => mret tt
  | O, _ => throw IoOther
  | S fuel, (from, to) :: pending =>
    names ← read_dir from;
    pending ← copy_children from to names pending;
    copy_directories fuel pending
  end.
Definition copy_tree (source destination : path) : io unit :=
  md ← metadata source;
  if md_is_file md then
    _ ← match parent destination with Some above => create_dir_all above | None => mret tt end;
    _ ← copy_file source destination;
    ino ← open_file destination;
    sync_file ino
  else
    _ ← create_dir_all destination;
    fuel ← tree_fuel;
    copy_directories fuel [(source, destination)].

Definition remove_private_staging_path (p : path) : io unit :=
  looked ← attempt (metadata p);
  match looked with
  | Ok md => if md_is_file md then remove_file p else remove_dir_all p
  | Err IoNotFound => mret tt
  | Err e => throw e
  end.

Fixpoint push_directories (directory : path) (names : list str) (pending : list path)
    : io (list path) :=
  match names with
  | [] => mret pending
  | name :: names' =>
    md ← metadata (join directory name);
    push_directories directory names'
      (if md_is_file md then pending else join directory name :: pending)
  end.
(** The directories in the order they were visited. *)
Fixpoint walk_directories (fuel : nat) (pending visited : list path) : io (list path) :=
  match fuel, pending with
  | _, [] => mret visited
  | O, _ => throw IoOther
  | S fuel, directory :: pending =>
    names ← read_dir directory;
    pending ← push_directories directory names pending;
    walk_directories fuel pending (visited ++ [directory])
  end.
Fixpoint sync_directories (ps : list path) : io unit :=
  match ps with [] => mret tt | p :: ps' => _ ← sync_directory p; sync_directories ps' end.
Definition sync_tree_directories (p : path) : io unit :=
  md ← metadata p;
  if md_is_file md then mret tt
  else
    fuel ← tree_fuel;
    visited ← walk_directories fuel [p] [];
    sync_directories (rev visited).

Definition sync_rename_directories (source destination : path) : io unit :=
  source_parent ← pure (ok_or IoOther (parent source));
  destination_parent ← pure (ok_or IoOther (parent destination));
  _ ← sync_directory source_parent;
  if bool_decide (source_parent = destination_parent) then mret tt
  else sync_directory destination_parent.

(** ** What a root must be *)

Section Roots.
Context (os : Platform).
Context (blake3 : list byte -> list byte) (derive_key : str -> list byte -> list byte).
Context (device_of : path -> Z).
Local Notation P := (proc Fs DestinationPlanErrorV2).
Local Notation at_index l i := (pure (ok_or PE_Panicked (vec_get l i))).

Definition ROOT_CONTENT_CONTEXT : str := lit "envoix/manifest/v2/root-content".
Fixpoint root_content (es : list ManifestEntryV2) (vs : list VerifiedEntryV2) (rid : Z)
    : plan_result (list byte) :=
  match es with
  | [] => Ok []
  | entry :: es' =>
    if entry_root_id entry =? rid then
      v ← ok_or PE_InvalidEntryState (vec_get vs (entry_id entry));
      _ ← ensure (ve_entry_id v =? entry_id entry) PE_InvalidEntryState;
      rest ← root_content es' vs rid;
      Ok (push_u32 (entry_id entry) ++ push_u8 (entry_kind_id (kind entry)) ++ push_u64 (plaintext_size entry)
          ++ match ve_final_digest v with Some d => push_u8 1 ++ d | None => push_u8 0 end ++ rest)
    else root_content es' vs rid
  end.
Definition root_content_digest (m : ManifestV2) (vs : list VerifiedEntryV2) (rid : Z)
    : plan_result ContentDigestV2 :=
  content ← root_content (entries m) vs rid; Ok (derive_key ROOT_CONTENT_CONTEXT content).

(** Windows has no stable pair of a volume and an object to ask for. *)
Definition object_identity (p : path) (exact_content : ContentDigestV2) (stable : bool)
    : P ObjectIdentityV2 :=
  md ← io_plan (metadata p);
  mret (if stable && negb (bool_decide (os = Windows)) then Stable (device_of p) (md_ino md) else ExactContent exact_content).

(** The physical path of every entry of the root, checked as it is found. *)
Fixpoint verify_entries (root : ManifestRootV2) (final_root : path) (vs : list VerifiedEntryV2)
    (overrides : list (option str)) (es : list ManifestEntryV2) (physical : list path)
    (expected : gset path) : P (gset path) :=
  match es with
  | [] => mret expected
  | entry :: es' =>
    if negb (entry_root_id entry =? root_id root)
    then verify_entries root final_root vs overrides es' physical expected
    else
      p ← (if entry_id entry =? root_entry_id root then mret final_root
           else
             above ← pure (ok_or PE_InvalidEntryState (parent_entry_id entry ≫= vec_get physical));
             override ← at_index overrides (entry_id entry);
             mret (join above (default (component entry) override)));
      md ← io_plan (metadata p);
      _ ← throw_if (bool_decide (kind entry = Directory) && md_is_file md
                    || bool_decide (kind entry = RegularFile)
                       && (negb (md_is_file md) || negb (md_len md =? plaintext_size entry)))
            PE_LateCollision;
      _ ← (if bool_decide (kind entry = RegularFile) then
             v ← at_index vs (entry_id entry);
             digest ← pure (ok_or PE_InvalidEntryState (ve_final_digest v));
             ino ← io_plan (open_file p);
             found ← io_plan (hash_open_file blake3 ino);
             throw_if (negb (bool_decide (found = digest))) PE_LateCollision
           else mret tt);
      _ ← at_index physical (entry_id entry);
      verify_entries root final_root vs overrides es' (<[Z.to_nat (entry_id entry) := p]> physical)
        ({[ p ]} ∪ expected)
  end.

(** Nothing else is in the root. *)
Fixpoint check_children (directory : path) (expected : gset path) (names : list str)
    (pending : list path) : P (list path) :=
  match names with
  | [] => mret pending
  | name :: names' =>
    md ← io_plan (metadata (join directory name));
    _ ← throw_if (bool_decide (join directory name ∉ expected)) PE_LateCollision;
    check_children directory expected names'
      (if md_is_file md then pending else join directory name :: pending)
  end.
Fixpoint check_directories (fuel : nat) (expected : gset path) (pending : list path) : P unit :=
  match fuel, pending with
  | _, [] => mret tt
  | O, _ => throw PE_Io
  | S fuel, directory :: pending =>
    names ← io_plan (read_dir directory);
    pending ← check_children directory expected names pending;
    check_directories fuel expected pending
  end.

Definition verify_exact_root (final_root : path) (m : ManifestV2) (vs : list VerifiedEntryV2) (rid : Z)
    (overrides : list (option str)) : P unit :=
  root ← pure (ok_or PE_InvalidEntryState (vec_get (roots m) rid));
  _ ← throw_if (negb (root_id root =? rid)) PE_InvalidEntryState;
  let physical := replicate (length (entries m)) [] in
  root_entry ← at_index (entries m) (root_entry_id root);
  expected ← verify_entries root final_root vs overrides (entries m)
               (<[Z.to_nat (root_entry_id root) := final_root]> physical) ∅;
  if bool_decide (kind root_entry = Directory) then
    fuel ← io_plan tree_fuel;
    check_directories fuel expected [final_root]
  else mret tt.

Definition verify_adopted_root (final_path : path) (expected_object : ObjectIdentityV2) (m : ManifestV2)
    (vs : list VerifiedEntryV2) (rid : Z) (overrides : list (option str)) (stable : bool) : P unit :=
  match expected_object with
  | Stable _ _ =>
    digest ← pure (root_content_digest m vs rid);
    found ← object_identity final_path digest stable;
    throw_if (negb (bool_decide (found = expected_object))) PE_LateCollision
  | ExactContent root_digest =>
    _ ← verify_exact_root final_path m vs rid overrides;
    digest ← pure (root_content_digest m vs rid);
    throw_if (negb (bool_decide (digest = root_digest))) PE_LateCollision
  end.
End Roots.

(** ** Committing *)

Section Commit.
Context (os : Platform) (to_lowercase : str -> str) (is_nfc : str -> bool).
Context (blake3 : list byte -> list byte) (derive_key : str -> list byte -> list byte).
Context (volume_of : path -> str) (device_of : path -> Z).
Context (plan_to_vec : DestinationWritePlanV2 -> option (list byte)).
Context (plan_from_slice : list byte -> option DestinationWritePlanV2).
Context (save_to_vec : LocalSaveLedgerV2 -> option (list byte)).
Context (save_from_slice : list byte -> option LocalSaveLedgerV2).
Local Notation D := (proc Provider DestinationPlanErrorV2).
Local Notation M := (proc Provider ManifestV2DataError).
Local Notation fsd := (fs_or PE_Io).
Local Notation fsm := (fs_or D_Io).
Local Notation dest := (lift D_Destination).
Local Notation save_effect_ledger := (save_effect_ledger save_to_vec).
Local Notation persist_new_save_intent := (persist_new_save_intent save_to_vec).

(** A check of the file system in the provider. *)
Definition on_tree {A} (call : proc Fs DestinationPlanErrorV2 A) : D A := fun p =>
  let '(fs, r) := call (pv_fs p) in (set_pv_fs fs p, r).

Definition root_staging_path (p : Provider) (rid : Z) : path :=
  join (pl_staging_directory (pv_plan p)) (root_name rid).
Definition copy_root_path (p : Provider) (rid : Z) : path :=
  join (join (join (pl_target_directory (pv_plan p)) STAGING_NAME)
             (encode_job_id (pl_job_id (pv_plan p))))
       (lit "copy-root-" ++ lit (pretty (Z.to_N rid))).
Definition finalization_source_path (p : Provider) (rid : Z) : path :=
  if bool_decide (pl_mode (pv_plan p) = CopyAfterVerify) then copy_root_path p rid
  else root_staging_path p rid.

Definition prepare_finalization_source (rid : Z) (vs : list VerifiedEntryV2) : D path :=
  p ← self;
  let source := root_staging_path p rid in
  if negb (bool_decide (pl_mode (pv_plan p) = CopyAfterVerify)) then mret source
  else
    let destination_local := copy_root_path p rid in
    let verify at_path :=
      on_tree (verify_exact_root blake3 at_path (pv_manifest p) vs rid (entry_overrides p)) in
    exists_ ← fsd (try_exists destination_local);
    ready ← (if (exists_ : bool) then
               verified ← attempt (verify destination_local);
               match verified with
               | Ok _ => mret true
               | Err PE_LateCollision | Err PE_Io =>
                 _ ← fsd (remove_private_staging_path destination_local); mret false
               | Err e => throw e
               end
             else mret false);
    if (ready : bool) then mret destination_local
    else
      let partial := with_extension destination_local (lit "partial") in
      _ ← fsd (remove_private_staging_path partial);
      _ ← fsd (copy_tree source partial);
      _ ← fsd (sync_tree_directories partial);
      _ ← verify partial;
      _ ← fsd (exclusive_rename partial destination_local);
      _ ← fsd (sync_rename_directories partial destination_local);
      mret destination_local.

Definition finalize_root_source (rid : Z) (source : path) : D unit :=
  p ← self;
  final_path ← pure (ok_or PE_InvalidEntryState (target_path_for_root (pv_plan p) rid));
  reservation ← pure (ok_or PE_Panicked (vec_get (reservations (pv_plan p)) rid));
  reserved ← fsd (try_exists reservation);
  _ ← throw_if (negb reserved) PE_ReservationLost;
  renamed ← on_fs (exclusive_rename source final_path);
  match renamed with
  | Ok _ => fsd (sync_rename_directories source final_path)
  | Err IoAlreadyExists => throw PE_LateCollision
  | Err _ => throw PE_Io
  end.

(** A reused object is still what it was. *)
Fixpoint check_reuse_objects (vs : list VerifiedEntryV2) : M unit :=
  match vs with
  | [] => mret tt
  | v :: vs' =>
    _ ← (if bool_decide (ve_completion_choice v = CompletionReuseChosen) then
           p ← self;
           reuse ← pure (ok_or (D_Destination PE_ReusedObjectLost) (reuse_objects p !! ve_entry_id v));
           len ← fsm (file_len (ro_file reuse));
           if negb (len =? ro_size reuse) then throw (D_Destination PE_ReusedObjectLost)
           else
             digest ← fsm (hash_open_file blake3 (ro_file reuse));
             throw_if (negb (bool_decide (digest = ro_digest reuse))) (D_Destination PE_ReusedObjectLost)
         else mret tt);
    check_reuse_objects vs'
  end.

(** A source made ready and an intent to move it. *)
Definition intend_source (rid : Z) (vs : list VerifiedEntryV2) (digest : ContentDigestV2) : M path :=
  source ← dest (prepare_finalization_source rid vs);
  _ ← fsm (sync_tree_directories source);
  p ← self;
  expected ← dest (on_tree (object_identity os device_of source digest
                              (sd_stable_object_identity (storage_domain (pv_plan p)))));
  _ ← dest (persist_new_save_intent rid expected);
  mret source.

(** The intent of a root whose state is not [Saved], made or brought up to date. *)
Definition settle_intent (rid : Z) (vs : list VerifiedEntryV2) (digest : ContentDigestV2) : M unit :=
  state ← dest (root_state rid);
  p ← self;
  match state with
  | Pending => _ ← intend_source rid vs digest; mret tt
  | FinalizeIntent expected revision _ _ _ =>
    if revision <? pl_plan_revision (pv_plan p) then dest (persist_new_save_intent rid expected)
    else _ ← dest (current_intent_object rid); mret tt
  | SavedRoot _ _ => throw (D_Destination PE_InvalidEntryState)
  end.

(** The move, or the adoption of one made before. *)
Definition finalize_root (m : ManifestV2) (rid : Z) (vs : list VerifiedEntryV2)
    (digest : ContentDigestV2) : M unit :=
  expected ← dest (current_intent_object rid);
  p ← self;
  let source := finalization_source_path p rid in
  let stable := sd_stable_object_identity (storage_domain (pv_plan p)) in
  final_path ← pure (ok_or (D_Destination PE_InvalidEntryState) (target_path_for_root (pv_plan p) rid));
  source_exists ← fsm (try_exists source);
  outcome ←
    (if (source_exists : bool) then
       found ← dest (on_tree (object_identity os device_of source digest stable));
       if negb (bool_decide (found = expected)) then throw (D_Destination PE_InvalidEntryState)
       else attempt (dest (finalize_root_source rid source))
     else
       final_exists ← fsm (try_exists final_path);
       if (final_exists : bool) then
         attempt (dest (on_tree (verify_adopted_root os blake3 derive_key device_of final_path expected m vs
                                   rid (entry_overrides p) stable)))
       else if bool_decide (pl_mode (pv_plan p) = CopyAfterVerify) then
         source ← intend_source rid vs digest;
         attempt (dest (finalize_root_source rid source))
       else throw (D_Destination PE_InvalidEntryState));
  match outcome with
  | Ok _ => mret tt
  | Err (D_Destination PE_LateCollision) => throw (D_Destination PE_DestinationContended)
  | Err e => throw e
  end.

Definition is_saved_as (r : SavedRootResultV2) (state : RootSaveStateV2) : bool :=
  match state with SavedRoot r' _ => bool_decide (r' = r) | _ => false end.

Definition commit_root (m : ManifestV2) (vs : list VerifiedEntryV2) (root : ManifestRootV2) : M unit :=
  let rid := root_id root in
  v ← pure (ok_or D_Panicked (vec_get vs (root_entry_id root)));
  p ← self;
  if bool_decide (ve_completion_choice v = CompletionReuseChosen) then
    reuse ← pure (ok_or (D_Destination PE_ReusedObjectLost) (reuse_objects p !! root_entry_id root));
    state ← dest (root_state rid);
    if is_saved_as RootReusedExisting state then mret tt
    else
      _ ← dest (assign_root_state rid (SavedRoot RootReusedExisting (ro_final_name reuse)));
      dest save_effect_ledger
  else
    state ← dest (root_state rid);
    if is_saved_as RootSaved state then mret tt
    else
      digest ← dest (pure (root_content_digest derive_key m vs rid));
      _ ← settle_intent rid vs digest;
      _ ← finalize_root m rid vs digest;
      p ← self;
      rp ← pure (ok_or D_Panicked (vec_get (pl_root_plans (pv_plan p)) rid));
      _ ← dest (assign_root_state rid (SavedRoot RootSaved (planned_name rp)));
      dest save_effect_ledger.

Fixpoint commit_roots (m : ManifestV2) (vs : list VerifiedEntryV2) (rs : list ManifestRootV2) : M unit :=
  match rs with
  | [] => mret tt
  | root :: rs' => _ ← commit_root m vs root; commit_roots m vs rs'
  end.

(** The results, an override for a name that is not the entry's own. *)
Definition saved_entry (p : Provider) (m : ManifestV2) (entry : ManifestEntryV2) (v : VerifiedEntryV2)
    : data SavedEntryV2 :=
  root ← ok_or D_Panicked (vec_get (roots m) (entry_root_id entry));
  override_name ←
    (if entry_id entry =? root_entry_id root then
       state ← ok_or D_Panicked (vec_get (sl_roots (save_ledger_of p)) (root_id root));
       match state with
       | SavedRoot _ final_name => Ok (override_of final_name (component entry))
       | _ => Err (D_Destination PE_InvalidEntryState)
       end
     else ok_or D_Panicked (vec_get (entry_overrides p) (entry_id entry)));
  Ok (mkSavedEntry (entry_id entry)
        (if bool_decide (ve_completion_choice v = CompletionReuseChosen) then ReusedExisting else Saved)
        override_name).
Fixpoint saved_entries (p : Provider) (m : ManifestV2) (es : list ManifestEntryV2)
    (vs : list VerifiedEntryV2) : data (list SavedEntryV2) :=
  match es, vs with
  | e :: es', v :: vs' =>
    saved ← saved_entry p m e v; rest ← saved_entries p m es' vs'; Ok (saved :: rest)
  | _, _ => Ok []
  end.

Fixpoint remove_reservations (ps : list path) : M unit :=
  match ps with
  | [] => mret tt
  | r :: ps' => _ ← fsm (unless_missing (remove_file r)); remove_reservations ps'
  end.

Definition commit_job (m : ManifestV2) (vs : list VerifiedEntryV2) : M (list SavedEntryV2) :=
  p ← self;
  if negb (bool_decide (job_id m = job_id (pv_manifest p))) || negb (zlen vs =? zlen (entries m))
  then throw (D_Destination PE_InvalidEntryState)
  else
    _ ← check_reuse_objects vs;
    _ ← update (set_payloads ∅);
    _ ← commit_roots m vs (roots m);
    p ← self;
    results ← pure (saved_entries p m (entries m) vs);
    _ ← remove_reservations (reservations (pv_plan p));
    mret results.

(** ** Opening a provider *)

Definition state_malformed (state : RootSaveStateV2) : bool :=
  match state with
  | Pending => false
  | FinalizeIntent _ revision name reservation idempotency_key =>
    (revision =? 0) || bool_decide (name = [])
    || negb (bool_decide (extension reservation = Some (lit "reservation")))
    || bool_decide (idempotency_key = zero_bytes 16)
  | SavedRoot _ name =>
    bool_decide (name = []) || negb (bool_decide (provider_safe_component os name = name))
  end.

(** The plan in force: the one that the ledger directory holds, when it is later
    than or the same as the one given. *)
Definition durable_plan (plan : DestinationWritePlanV2) (lf : files) (fault : SaveFault)
    : files * plan_result DestinationWritePlanV2 :=
  match plan_load os to_lowercase plan_from_slice lf (pl_job_id plan) (pl_generation plan) with
  | Err e => (lf, Err e)
  | Ok (Some durable) =>
    (lf, if (pl_plan_revision durable <? pl_plan_revision plan)
            || negb (bool_decide (storage_domain durable = storage_domain plan))
            || (pl_plan_revision durable =? pl_plan_revision plan) && negb (bool_decide (durable = plan))
         then Err PE_InvalidEntryState else Ok durable)
  | Ok None =>
    let '(lf, saved) := plan_save os to_lowercase plan_to_vec lf plan fault in
    (lf, _ ← saved; Ok plan)
  end.

(** Calls of [new_provider], which has no provider yet. *)
Definition first_fs {A} (call : io A) : proc (Fs * files) DestinationPlanErrorV2 A := fun w =>
  let '(fs, r) := call w.1 in ((fs, w.2), map_err (fun _ => PE_Io) r).
Definition first_plan (plan : DestinationWritePlanV2) (fault : SaveFault)
    : proc (Fs * files) DestinationPlanErrorV2 DestinationWritePlanV2 := fun w =>
  let '(lf, r) := durable_plan plan w.2 fault in ((w.1, lf), r).
Definition first_state : proc (Fs * files) DestinationPlanErrorV2 (Fs * files) := fun w => (w, Ok w).

(** [LocalDestinationProviderV2::new]: on a file system and the files of the
    ledger directory.  The first fault is that of the plan's store. *)
Definition new_provider (plan : DestinationWritePlanV2) (m : ManifestV2) (faults : list SaveFault)
    (ent : list (option (list byte))) : proc (Fs * files) DestinationPlanErrorV2 Provider :=
  _ ← pure (validate_shape os to_lowercase plan);
  invalid ← pure (if plan_differs plan m then Ok true else any_reuse_invalid m (reuse_entry_ids plan));
  _ ← throw_if invalid PE_InvalidEntryState;
  current ← first_fs (local_storage_domain volume_of (pl_target_directory plan)
                        (sd_stable_object_identity (storage_domain plan)));
  _ ← throw_if (negb (bool_decide (current = storage_domain plan))) PE_InvalidEntryState;
  canonical ← first_fs (canonicalize (pl_target_directory plan));
  _ ← throw_if (negb (bool_decide (canonical = pl_target_directory plan))) PE_InvalidEntryState;
  plan ← first_plan plan (default NoFault (head faults));
  _ ← first_fs (create_dir_all (pl_staging_directory plan));
  canonical ← first_fs (canonicalize (pl_staging_directory plan));
  _ ← throw_if (negb (bool_decide (canonical = pl_staging_directory plan))) PE_InvalidEntryState;
  _ ← first_fs may_fail;
  '(paths, overrides) ← pure (build_entry_paths os to_lowercase plan m);
  offer ← pure (map_err (fun _ => PE_InvalidEntryState) (build_manifest_offer_v2 is_nfc blake3 m));
  '(fs, lf) ← first_state;
  save_ledger ← pure match lf !! (save_ledger_stem plan ++ lit ".json") with
                     | Some bytes => ok_or PE_Io (save_from_slice bytes)
                     | None => Ok (mkSaveLedger LOCAL_SAVE_LEDGER_SCHEMA_VERSION (pl_job_id plan)
                                     (pl_generation plan) (structural_digest offer)
                                     (replicate (length (roots m)) Pending))
                     end;
  _ ← throw_if (negb (sl_schema_version save_ledger =? LOCAL_SAVE_LEDGER_SCHEMA_VERSION)
          || negb (bool_decide (sl_job_id save_ledger = pl_job_id plan))
          || negb (sl_generation save_ledger =? pl_generation plan)
          || negb (bool_decide (sl_manifest_digest save_ledger = structural_digest offer))
          || negb (zlen (sl_roots save_ledger) =? zlen (roots m))
          || existsb state_malformed (sl_roots save_ledger)) PE_InvalidEntryState;
  mret (mkProvider plan m paths overrides ∅ ∅ save_ledger fs lf (tail faults) ent).

(** ** The sink *)

#[export] Instance local_sink : PayloadSink Provider := {
  ReceivePlane.begin_entry := begin_entry;
  ReceivePlane.write_block := write_block;
  ReceivePlane.try_choose_reuse := try_choose_reuse os blake3;
  ReceivePlane.verify_payload := verify_payload blake3;
  ReceivePlane.stage_directory := stage_directory;
  ReceivePlane.commit_job := commit_job;
  ReceivePlane.retire_payload := retire_payload;
}.

(** ** Reconciling with the receiver's ledger *)

Context (ledger_to_vec : ReceiverDataPlaneLedgerV2 -> option (list byte)).
Local Notation W := (proc (World ReceiverDataPlaneLedgerV2 Provider) ManifestV2DataError).

(** [ledger.reset_payload_checkpoint(manifest, entry_id, store).await?] *)
Definition reset_checkpoint (m : ManifestV2) (eid : Z) : W unit := fun w =>
  let '(fault, faults) :=
    match save_faults w with [] => (NoFault, []) | f :: rest => (f, rest) end in
  let '(l, fs, r) := reset_payload_checkpoint ledger_to_vec (record w) m eid (store w) fault in
  (mkWorld (incoming w) (outgoing w) (sends_left w) faults fs l (sink w) (completed w) (reports w), r).

Fixpoint reconcile_from (m : ManifestV2) (boundaries : list (Z * Z * Z * bool)) : W unit :=
  match boundaries with
  | [] => mret tt
  | (eid, next, bytes, complete) :: rest =>
    if (next =? 0) && negb complete then reconcile_from m rest
    else
      lost ← call_sink (boundary_lost eid bytes);
      if (lost : bool) then
        _ ← call_sink (remove_staged eid);
        _ ← reset_checkpoint m eid;
        reconcile_from m rest
      else reconcile_from m rest
  end.

Definition reconcile_resume : W unit :=
  l ← get_record;
  _ ← call_sink (reopen_reuse os blake3 (pending_reuse_entries l));
  boundaries ← pure (pending_payload_boundaries l);
  p ← call_sink self;
  reconcile_from (pv_manifest p) boundaries.
End Commit.
