(* ===== verification/FsProof.v ===== *)
(** What the file system calls leave alone.  Two relations between the file
    system before and after a call: [quiet T], when only objects at [T] may go
    and no file changes, and [keeps T], when files outside [T] stay as they are.
    Both are preorders, so a program has one as soon as its calls have it. *)

From stdpp Require Import prelude gmap strings.
From Stdlib Require Import ZArith Lia Strings.Byte.
From S2P Require Import Prelude Bytes Delivery Proc Names LocalFs Destination Provider ProviderCommit.

Local Open Scope Z_scope.

(** ** Well-formed file systems *)

(** Every object is in a directory; a file has contents, a number below the
    next, and one path. *)
Record fs_wf (fs : Fs) : Prop := {
  wf_parent : forall q n, nodes fs !! q = Some n -> q <> [] ->
    exists i, nodes fs !! removelast q = Some (DirNode i);
  wf_ino : forall q i, nodes fs !! q = Some (FileNode i) ->
    i < next_ino fs /\ is_Some (contents fs !! i);
  wf_one_path : forall q q' i, nodes fs !! q = Some (FileNode i) ->
    nodes fs !! q' = Some (FileNode i) -> q = q';
}.

Record quiet (T : path -> Prop) (fs fs' : Fs) : Prop := {
  q_next : next_ino fs <= next_ino fs';
  q_nodes : forall q n, ~ T q -> nodes fs !! q = Some n -> nodes fs' !! q = Some n;
  q_contents : forall i, i < next_ino fs -> contents fs' !! i = contents fs !! i;
  q_fresh : forall q i, nodes fs' !! q = Some (FileNode i) ->
    nodes fs !! q = Some (FileNode i) \/ next_ino fs <= i;
}.

Record keeps (T : path -> Prop) (fs fs' : Fs) : Prop := {
  k_nodes : forall q i, ~ T q -> nodes fs !! q = Some (FileNode i) -> nodes fs' !! q = Some (FileNode i);
  k_contents : forall q i, ~ T q -> nodes fs !! q = Some (FileNode i) ->
    contents fs' !! i = contents fs !! i;
}.

#[export] Instance quiet_preorder T : PreOrder (quiet T).
Proof.
  split.
  - intros fs. constructor; auto. lia.
  - intros a b c [n1 k1 c1 f1] [n2 k2 c2 f2]. constructor; [lia|auto| |].
    + intros i Hi. rewrite c2 by lia. auto.
    + intros q i Hq. destruct (f2 q i Hq) as [Hb|]; [destruct (f1 q i Hb)|]; auto. right. lia.
Qed.
#[export] Instance keeps_preorder T : PreOrder (keeps T).
Proof.
  split.
  - intros fs. by constructor.
  - intros a b c [k1 c1] [k2 c2]. constructor; [auto|]. intros q i HT Hq.
    rewrite (c2 q i HT (k1 q i HT Hq)). eauto.
Qed.

Lemma quiet_keeps T fs fs' : fs_wf fs -> quiet T fs fs' -> keeps T fs fs'.
Proof.
  intros Hwf [_ Hn Hc _]. constructor; [auto|]. intros q i _ Hq. apply Hc.
  exact (proj1 (wf_ino _ Hwf q i Hq)).
Qed.

Lemma quiet_mono (T T' : path -> Prop) fs fs' : (forall q, T q -> T' q) -> quiet T fs fs' -> quiet T' fs fs'.
Proof. intros HT []. constructor; auto. Qed.
Lemma keeps_mono (T T' : path -> Prop) fs fs' : (forall q, T q -> T' q) -> keeps T fs fs' -> keeps T' fs fs'.
Proof. intros HT []. constructor; eauto. Qed.

(** ** Programs *)

(** However a call ends, the state is well-formed and related to the one before. *)
Definition obeys {W E A} (wf : W -> Prop) (R : W -> W -> Prop) (call : proc W E A) : Prop :=
  forall w, wf w -> wf (call w).1 /\ R w (call w).1.
Notation leaves := (obeys fs_wf).
Lemma obeys_run {W E A} (wf : W -> Prop) R (call : proc W E A) w w' r :
  obeys wf R call -> wf w -> call w = (w', r) -> wf w' /\ R w w'.
Proof. intros Hc Hw Hrun. specialize (Hc w Hw). by rewrite Hrun in Hc. Qed.

Section Leaves.
Context {W E : Type} (wf : W -> Prop) (R : W -> W -> Prop) `{!PreOrder R}.

Lemma leaves_ret {A} (a : A) : obeys (E:=E) wf R (mret a).
Proof. intros w Hwf. by split. Qed.
Lemma leaves_pure {A} (r : result E A) : obeys wf R (pure r).
Proof. intros w Hwf. by split. Qed.
Lemma leaves_throw {A} (e : E) : obeys wf R (throw (A:=A) e).
Proof. intros w Hwf. by split. Qed.
Lemma leaves_throw_if b (e : E) : obeys wf R (throw_if b e).
Proof. intros w Hwf. by split. Qed.
Lemma leaves_bind {A B} (call : proc W E A) (f : A -> proc W E B) :
  obeys wf R call -> (forall a, obeys wf R (f a)) -> obeys wf R (call ≫= f).
Proof.
  intros Hc Hf w Hwf. unfold mbind, proc_bind. destruct (Hc w Hwf) as [Hwf1 H1].
  destruct (call w) as [w1 [a|e]]; [|done]. cbn in *. destruct (Hf a w1 Hwf1) as [Hwf2 H2].
  split; [done|]. by transitivity w1.
Qed.
(** A value known to be there. *)
Lemma leaves_known {A B} (r : result E A) (f : A -> proc W E B) :
  (forall a, r = Ok a -> obeys wf R (f a)) -> obeys wf R (pure r ≫= f).
Proof. intros Hf w Hwf. unfold mbind, proc_bind, pure. destruct r as [a|e]; [by apply Hf|by split]. Qed.
Lemma leaves_attempt {A} (call : proc W E A) : obeys wf R call -> obeys wf R (attempt call).
Proof. intros Hc w Hwf. unfold attempt. specialize (Hc w Hwf). by destruct (call w). Qed.
End Leaves.

Lemma leaves_get_fs R `{!PreOrder R} : leaves R get_fs.
Proof. intros fs Hwf. by split. Qed.

(** A file system that differs in the coming faults only. *)
Lemma take_fault_same fs : (take_fault fs).1 = mkFs (nodes fs) (contents fs) (next_ino fs) (tail (io_faults fs)).
Proof. unfold take_fault. destruct fs as [n c i [|f rest]]; done. Qed.

(** Relations that do not look at the faults. *)
Class FaultBlind (R : Fs -> Fs -> Prop) := fault_blind : forall fs rest,
  R fs (mkFs (nodes fs) (contents fs) (next_ino fs) rest).
#[export] Instance quiet_blind T : FaultBlind (quiet T).
Proof. intros fs rest. constructor; cbn; auto. lia. Qed.
#[export] Instance keeps_blind T : FaultBlind (keeps T).
Proof. intros fs rest. by constructor. Qed.

Lemma fs_wf_faults fs rest : fs_wf fs -> fs_wf (mkFs (nodes fs) (contents fs) (next_ino fs) rest).
Proof. intros []. by constructor. Qed.

Create HintDb fs_leaves.
#[local] Hint Resolve leaves_ret leaves_pure leaves_throw leaves_throw_if leaves_bind leaves_attempt
  leaves_get_fs : fs_leaves.

Section Reads.
Context (R : Fs -> Fs -> Prop) `{!PreOrder R} `{!FaultBlind R}.

Lemma leaves_take_fault : leaves R take_fault.
Proof.
  intros fs Hwf. rewrite take_fault_same. split; [by apply fs_wf_faults|apply fault_blind].
Qed.
#[local] Hint Resolve leaves_take_fault : fs_leaves.

Lemma leaves_may_fail : leaves R may_fail.
Proof. unfold may_fail. auto with fs_leaves. Qed.
#[local] Hint Resolve leaves_may_fail : fs_leaves.
Lemma leaves_node_at p : leaves R (node_at p).
Proof. unfold node_at. auto with fs_leaves. Qed.
#[local] Hint Resolve leaves_node_at : fs_leaves.
Lemma leaves_try_exists p : leaves R (try_exists p).
Proof. unfold try_exists. auto with fs_leaves. Qed.
Lemma leaves_metadata p : leaves R (metadata p).
Proof. unfold metadata. auto 10 with fs_leaves. Qed.
Lemma leaves_open_file p : leaves R (open_file p).
Proof. unfold open_file. apply leaves_bind; auto with fs_leaves. intros _.
  apply leaves_bind; auto with fs_leaves. intros []; auto with fs_leaves. Qed.
Lemma leaves_sync_directory p : leaves R (sync_directory p).
Proof. unfold sync_directory. auto 10 with fs_leaves. Qed.
Lemma leaves_file_len i : leaves R (file_len i).
Proof. unfold file_len. auto with fs_leaves. Qed.
Lemma leaves_read_all i : leaves R (read_all i).
Proof. unfold read_all. auto with fs_leaves. Qed.
Lemma leaves_sync_file i : leaves R (sync_file i).
Proof. unfold sync_file. auto with fs_leaves. Qed.
Lemma leaves_read_dir p : leaves R (read_dir p).
Proof. unfold read_dir. apply leaves_bind; auto with fs_leaves. intros _.
  apply leaves_bind; auto with fs_leaves. intros []; auto with fs_leaves. Qed.
Lemma leaves_canonicalize p : leaves R (canonicalize p).
Proof. unfold canonicalize. auto 10 with fs_leaves. Qed.
Lemma leaves_tree_fuel : leaves R tree_fuel.
Proof. unfold tree_fuel. auto with fs_leaves. Qed.
Lemma leaves_hash_open_file blake3 i : leaves R (hash_open_file blake3 i).
Proof. unfold hash_open_file. pose proof (leaves_read_all i). auto with fs_leaves. Qed.
End Reads.

(** [leaves_go] follows a program down to its calls: those that read are known
    for every relation that does not look at the faults, the others are in the
    database. *)
Ltac leaves_leaf :=
  first [ solve [auto with fs_leaves nocore]
        | first [ apply leaves_ret | apply leaves_pure | apply leaves_throw | apply leaves_throw_if
                | apply leaves_get_fs | apply leaves_take_fault | apply leaves_may_fail
                | apply leaves_node_at | apply leaves_try_exists | apply leaves_metadata
                | apply leaves_open_file | apply leaves_sync_directory | apply leaves_file_len
                | apply leaves_read_all | apply leaves_sync_file | apply leaves_read_dir
                | apply leaves_canonicalize | apply leaves_tree_fuel | apply leaves_hash_open_file ];
          apply _ ].
Ltac leaves_step :=
  lazymatch goal with
  | |- obeys _ _ (_ ≫= _) => apply leaves_bind; [apply _| |intros ?]
  | |- obeys _ _ (attempt _) => apply leaves_attempt
  | |- obeys _ _ (match ?x with _ => _ end) => destruct x
  | |- obeys _ _ _ => leaves_leaf
  end.
Ltac leaves_go := repeat leaves_step.

(** ** Calls that make objects *)

Lemma removelast_prefix {A} (q : list A) : removelast q `prefix_of` q.
Proof.
  destruct q as [|x q _] using rev_ind; [done|]. rewrite removelast_last. by eexists.
Qed.

(** Below an object that is not there, or that is a file, there is nothing. *)
Lemma nothing_below fs p q n :
  fs_wf fs -> (forall i, nodes fs !! p <> Some (DirNode i)) -> p `prefix_of` q -> q <> p ->
  nodes fs !! q = Some n -> False.
Proof.
  intros Hwf Hp [rel ->] Hne. revert n. induction rel as [|x rel IH] using rev_ind; intros n Hq.
  { apply Hne. apply app_nil_r. }
  destruct (wf_parent _ Hwf _ _ Hq) as [i Hi].
  { rewrite app_assoc. by destruct (p ++ rel). }
  rewrite app_assoc, removelast_last in Hi.
  destruct rel as [|y rel]; [by rewrite app_nil_r in Hi; eapply Hp|].
  apply (IH ltac:(intros Heq; apply (f_equal length) in Heq; rewrite length_app in Heq; cbn in Heq; lia) _ Hi).
Qed.

Lemma absent_is_no_dir fs p : nodes fs !! p = None -> forall i, nodes fs !! p <> Some (DirNode i).
Proof. intros Hp i. by rewrite Hp. Qed.

(** A new object in a directory that is there. *)
Lemma wf_insert_node fs p n :
  fs_wf fs -> nodes fs !! p = None ->
  (p <> [] -> exists i, nodes fs !! removelast p = Some (DirNode i)) ->
  forall q n', <[p := n]> (nodes fs) !! q = Some n' -> q <> [] ->
    exists i, <[p := n]> (nodes fs) !! removelast q = Some (DirNode i).
Proof.
  intros Hwf Hp Hpar q n' Hq Hne.
  assert (Hold : exists i, nodes fs !! removelast q = Some (DirNode i)).
  { destruct (decide (q = p)) as [->|Hqp]; [by apply Hpar|].
    rewrite lookup_insert_ne in Hq by done. by eapply wf_parent. }
  destruct Hold as [i Hi]. exists i. rewrite lookup_insert_ne; [done|]. intros ->. by rewrite Hp in Hi.
Qed.

Lemma make_dir_wf fs p :
  fs_wf fs -> nodes fs !! p = None ->
  (p <> [] -> exists i, nodes fs !! removelast p = Some (DirNode i)) -> fs_wf (make_dir p fs).
Proof.
  intros Hwf Hp Hpar. constructor; cbn.
  - by apply wf_insert_node.
  - intros q i Hq. rewrite lookup_insert_Some in Hq. destruct Hq as [[_ ?]|[_ Hq]]; [done|].
    destruct (wf_ino _ Hwf q i Hq). split; [lia|done].
  - intros q q' i Hq Hq'. rewrite lookup_insert_Some in Hq, Hq'.
    destruct Hq as [[_ ?]|[_ Hq]]; [done|]. destruct Hq' as [[_ ?]|[_ Hq']]; [done|].
    by eapply wf_one_path.
Qed.

Lemma make_dir_quiet T fs p : nodes fs !! p = None -> quiet T fs (make_dir p fs).
Proof.
  intros Hp. constructor; cbn; [lia| |done|].
  - intros q n _ Hq. rewrite lookup_insert_ne; [done|]. intros ->. congruence.
  - intros q i Hq. rewrite lookup_insert_Some in Hq. destruct Hq as [[_ ?]|[_ Hq]]; auto. done.
Qed.

Lemma create_dirs_leaves T p a k fs :
  fs_wf fs -> (a + k <= S (length p))%nat ->
  (a = 0%nat \/ exists i, nodes fs !! take (a - 1) p = Some (DirNode i)) ->
  fs_wf (create_dirs (map (fun n => take n p) (seq a k)) fs).1 /\
  quiet T fs (create_dirs (map (fun n => take n p) (seq a k)) fs).1.
Proof.
  revert a fs. induction k as [|k IH]; intros a fs Hwf Hle Ha; [by split|].
  cbn [seq map create_dirs]. unfold mbind, proc_bind, get_fs.
  assert (Hnext : forall fs1 i, fs_wf fs1 -> quiet T fs fs1 -> nodes fs1 !! take a p = Some (DirNode i) ->
    fs_wf (create_dirs (map (fun n => take n p) (seq (S a) k)) fs1).1 /\
    quiet T fs (create_dirs (map (fun n => take n p) (seq (S a) k)) fs1).1).
  { intros fs1 i Hwf1 Hq1 Hi. destruct (IH (S a) fs1 Hwf1 ltac:(lia)) as [H1 H2].
    - right. exists i. by replace (S a - 1)%nat with a by lia.
    - split; [done|]. by transitivity fs1. }
  destruct (nodes fs !! take a p) as [[i|i]|] eqn:Hn; [by eapply Hnext|by split|].
  eapply Hnext; [apply make_dir_wf; [done|done|]|by apply make_dir_quiet|cbn; apply lookup_insert_eq].
  intros Hne. destruct Ha as [->|[i Hi]]; [done|]. exists i. destruct a as [|a]; [done|].
  rewrite removelast_firstn by lia. by replace (S a - 1)%nat with a in Hi by lia.
Qed.

Lemma leaves_create_dir_all T p : leaves (quiet T) (create_dir_all p).
Proof.
  assert (Hall : forall k, (k <= S (length p))%nat ->
    leaves (quiet T) (create_dirs (map (fun n => take n p) (seq 0 k)))).
  { intros k Hk fs Hwf. apply create_dirs_leaves; [done|lia|by left]. }
  unfold create_dir_all, prefixes. apply leaves_bind; [apply _|leaves_leaf|].
  intros [n|]; [|by apply Hall]. leaves_step; [|leaves_leaf].
  rewrite firstn_map, take_seq. apply Hall. lia.
Qed.

Lemma parent_is_dir_spec fs p :
  parent_is_dir fs p = true -> p <> [] /\ exists i, nodes fs !! removelast p = Some (DirNode i).
Proof.
  unfold parent_is_dir, parent. destruct p as [|x p]; [done|]. cbn [mbind option_bind].
  destruct (nodes fs !! removelast (x :: p)) as [[i|i]|]; [|done..]. eauto.
Qed.

(** [make_file] of a path that is free. *)
Lemma make_file_leaves T p bytes fs :
  fs_wf fs -> nodes fs !! p = None ->
  fs_wf (make_file p bytes fs).1 /\ quiet T fs (make_file p bytes fs).1.
Proof.
  intros Hwf Hp. unfold make_file, mbind, proc_bind, get_fs, modify_fs.
  destruct (parent_is_dir fs p) eqn:Hd; [|by split].
  apply parent_is_dir_spec in Hd as [Hne Hpar]. cbn. split; constructor; cbn.
  - by apply wf_insert_node.
  - intros q i Hq. rewrite lookup_insert_Some in Hq. destruct Hq as [[_ [= <-]]|[_ Hq]].
    + rewrite lookup_insert_eq. split; [lia|done].
    + destruct (wf_ino _ Hwf q i Hq). rewrite lookup_insert_ne by lia. split; [lia|done].
  - intros q q' i Hq Hq'. rewrite lookup_insert_Some in Hq, Hq'.
    destruct Hq as [[<- Hi]|[_ Hq]], Hq' as [[<- Hi']|[_ Hq']]; simplify_eq; try done.
    + by apply (wf_ino _ Hwf) in Hq' as [? _]; lia.
    + by apply (wf_ino _ Hwf) in Hq as [? _]; lia.
    + by eapply wf_one_path.
  - lia.
  - intros q n _ Hq. rewrite lookup_insert_ne; [done|]. intros ->. congruence.
  - intros i Hi. rewrite lookup_insert_ne by lia. done.
  - intros q i Hq. rewrite lookup_insert_Some in Hq. destruct Hq as [[_ [= <-]]|[_ Hq]]; auto. right. lia.
Qed.

(** A call that looks at a path and acts on what is there. *)
Lemma leaves_lookup {E A} R `{!PreOrder R} p (f : Fs -> option Node -> proc Fs E A) :
  (forall fs, fs_wf fs -> fs_wf (f fs (nodes fs !! p) fs).1 /\ R fs (f fs (nodes fs !! p) fs).1) ->
  leaves R (fun fs => f fs (nodes fs !! p) fs).
Proof. intros Hf fs Hwf. by apply Hf. Qed.

Lemma leaves_open_create T p : leaves (quiet T) (open_create p).
Proof.
  unfold open_create. leaves_step; [leaves_leaf|].
  intros fs Hwf. unfold mbind, proc_bind, get_fs.
  destruct (nodes fs !! p) as [[i|i]|] eqn:Hp; [by split..|]. by apply make_file_leaves.
Qed.

Lemma leaves_create_dir T p : leaves (quiet T) (create_dir p).
Proof.
  unfold create_dir. leaves_step; [leaves_leaf|].
  intros fs Hwf. unfold mbind, proc_bind, get_fs.
  destruct (nodes fs !! p) as [n|] eqn:Hp; [by split|].
  destruct (parent_is_dir fs p) eqn:Hd; [|by split]. apply parent_is_dir_spec in Hd as [_ Hpar].
  split; [by apply make_dir_wf|by apply make_dir_quiet].
Qed.

(** ** Calls that remove and move objects *)

Lemma leaves_remove_file p : leaves (quiet (eq p)) (remove_file p).
Proof.
  unfold remove_file. leaves_step; [leaves_leaf|]. intros fs Hwf.
  unfold mbind, proc_bind, node_at, mbind, proc_bind, get_fs, pure.
  destruct (nodes fs !! p) as [[i|i]|] eqn:Hp; cbn; [by split| |by split].
  split; constructor; cbn.
  - intros q n Hq Hne. rewrite lookup_delete_Some in Hq. destruct Hq as [Hqp Hq].
    destruct (wf_parent _ Hwf q n Hq Hne) as [j Hj]. exists j. rewrite lookup_delete_ne; [done|].
    intros Heq. rewrite <- Heq in Hj. congruence.
  - intros q j Hq. rewrite lookup_delete_Some in Hq. destruct Hq as [_ Hq]. by eapply wf_ino.
  - intros q q' j Hq Hq'. rewrite lookup_delete_Some in Hq, Hq'. eapply wf_one_path; [done|apply Hq|apply Hq'].
  - lia.
  - intros q n Hne Hq. by rewrite lookup_delete_ne.
  - done.
  - intros q j Hq. rewrite lookup_delete_Some in Hq. left. apply Hq.
Qed.

Lemma outside_lookup p ns q n :
  outside p ns !! q = Some n <-> ns !! q = Some n /\ ~ p `prefix_of` q.
Proof.
  unfold outside. rewrite map_lookup_filter_Some. unfold starts_with. cbn.
  by rewrite bool_decide_eq_false.
Qed.

Lemma leaves_remove_dir_all p : leaves (quiet (prefix p)) (remove_dir_all p).
Proof.
  unfold remove_dir_all. leaves_step; [leaves_leaf|].
  leaves_step; [leaves_leaf|]. intros fs Hwf.
  unfold modify_fs. cbn. split; constructor; cbn.
  - intros q n [Hq Hnp]%outside_lookup Hne. destruct (wf_parent _ Hwf q n Hq Hne) as [j Hj].
    exists j. apply outside_lookup. split; [done|]. intros Hpre. apply Hnp.
    transitivity (removelast q); [done|apply removelast_prefix].
  - intros q j [Hq _]%outside_lookup. by eapply wf_ino.
  - intros q q' j [Hq _]%outside_lookup [Hq' _]%outside_lookup. by eapply wf_one_path.
  - lia.
  - intros q n Hnp Hq. by apply outside_lookup.
  - done.
  - intros q j [Hq _]%outside_lookup. by left.
Qed.

Lemma moved_lookup src dst ns q :
  moved src dst ns !! q = if starts_with q dst then ns !! (src ++ drop (length dst) q) else None.
Proof.
  unfold moved. set (l := omap _ _).
  assert (Hl : forall k n, (k, n) ∈ l <-> exists rel, k = dst ++ rel /\ ns !! (src ++ rel) = Some n).
  { intros k n. unfold l. rewrite list_elem_of_omap. split.
    - intros ([k0 n0] & Hin%elem_of_map_to_list & Hk). cbn in Hk. unfold starts_with in Hk.
      case_bool_decide as Hp; [|done]. injection Hk as <- <-. destruct Hp as [rel ->].
      rewrite drop_app_length. eauto.
    - intros (rel & -> & Hn). exists (src ++ rel, n). split; [by apply elem_of_map_to_list|]. cbn.
      unfold starts_with. rewrite bool_decide_eq_true_2 by (by exists rel). by rewrite drop_app_length. }
  assert (Hsome : forall n, (list_to_map l : gmap path Node) !! q = Some n <-> (q, n) ∈ l).
  { intros n. symmetry. apply elem_of_list_to_map'.
    intros n' (rel & -> & H1)%Hl (rel' & Heq & H2)%Hl. apply app_inv_head in Heq as ->. congruence. }
  apply option_eq. intros n. rewrite Hsome, Hl. unfold starts_with. case_bool_decide as Hp.
  - destruct Hp as [rel ->]. rewrite drop_app_length. split.
    + intros (rel' & ->%app_inv_head & Hn). done.
    + eauto.
  - split; [|done]. intros (rel & -> & _). exfalso. apply Hp. by exists rel.
Qed.

(** The objects after a rename: at and below [dst], those of [src]; none at and
    below [src]; the others as they were. *)
Lemma renamed_lookup fs src dst q :
  fs_wf fs -> nodes fs !! dst = None -> starts_with dst src = false ->
  (moved src dst (nodes fs) ∪ outside src (nodes fs)) !! q =
    if starts_with q dst then nodes fs !! (src ++ drop (length dst) q)
    else if starts_with q src then None else nodes fs !! q.
Proof.
  intros Hwf Hd Hsd. rewrite lookup_union, moved_lookup. unfold starts_with in *.
  assert (Hout : outside src (nodes fs) !! q = if bool_decide (src `prefix_of` q) then None else nodes fs !! q).
  { apply option_eq. intros n. rewrite outside_lookup.
    destruct (bool_decide_reflect (src `prefix_of` q)) as [Hx|Hx].
    { split; [by intros [_ ?]|intros; discriminate]. }
    split; [by intros [? _]|by intros]. }
  rewrite Hout. destruct (bool_decide (dst `prefix_of` q)) eqn:Hq; [|by rewrite (left_id _ _)].
  assert (Hnone : nodes fs !! q = None).
  { apply bool_decide_eq_true in Hq. destruct (nodes fs !! q) as [n|] eqn:Hn; [|done]. exfalso.
    destruct (decide (q = dst)) as [->|Hne]; [congruence|].
    exact (nothing_below _ _ _ _ Hwf (absent_is_no_dir _ _ Hd) Hq Hne Hn). }
  rewrite Hnone. destruct (bool_decide (src `prefix_of` q)); by rewrite (right_id _ _).
Qed.

Lemma removelast_app_prefix {A} (p q : list A) :
  p `prefix_of` q -> p `prefix_of` removelast q \/ p = q.
Proof.
  intros [rel ->]. destruct rel as [|x rel _] using rev_ind; [right; by rewrite app_nil_r|].
  left. rewrite app_assoc, removelast_last. by eexists.
Qed.

Lemma starts_with_removelast p q : starts_with q p = false -> starts_with (removelast q) p = false.
Proof.
  unfold starts_with. rewrite !bool_decide_eq_false. intros Hq Hp. apply Hq.
  transitivity (removelast q); [done|apply removelast_prefix].
Qed.

Lemma starts_with_self_removelast p : p <> [] -> starts_with (removelast p) p = false.
Proof.
  intros Hne. unfold starts_with. apply bool_decide_eq_false. intros Hp%prefix_length.
  destruct p as [|y p _] using rev_ind; [done|]. rewrite removelast_last, length_app in Hp. cbn in Hp. lia.
Qed.

Section Rename.
Context (fs : Fs) (src dst : path) (Hwf : fs_wf fs) (Hdst : nodes fs !! dst = None).
Context (Hsd : starts_with dst src = false) (Hdir : parent_is_dir fs dst = true).
Local Notation after := (moved src dst (nodes fs) ∪ outside src (nodes fs)).
Local Notation look q := (renamed_lookup fs src dst q Hwf Hdst Hsd).

(** Where an object comes from. *)
Lemma renamed_from q n :
  after !! q = Some n ->
  exists q0, nodes fs !! q0 = Some n /\
    (exists rel, q = dst ++ rel /\ q0 = src ++ rel) \/
    (starts_with q dst = false /\ starts_with q src = false /\ nodes fs !! q = Some n).
Proof.
  rewrite (look q). destruct (starts_with q dst) eqn:Hd.
  - unfold starts_with in Hd. apply bool_decide_eq_true in Hd as [rel ->]. rewrite drop_app_length.
    intros Hq. exists (src ++ rel). left. split; [done|]. eauto.
  - destruct (starts_with q src) eqn:Hs; [done|]. intros Hq. exists q. by right.
Qed.

Lemma renamed_parent q n :
  after !! q = Some n -> q <> [] -> exists i, after !! removelast q = Some (DirNode i).
Proof.
  intros Hq Hne. destruct (renamed_from q n Hq) as (q0 & [(Hq0 & rel & -> & ->)|(Hd & Hs & Hqn)]).
  - destruct rel as [|x rel _] using rev_ind.
    + rewrite !app_nil_r in *. apply parent_is_dir_spec in Hdir as [_ [i Hi]]. exists i.
      rewrite (look (removelast dst)), (starts_with_self_removelast dst Hne), (starts_with_removelast _ _ Hsd).
      done.
    + destruct (wf_parent _ Hwf _ _ Hq0) as [i Hi]; [by rewrite app_assoc; destruct (src ++ rel)|].
      exists i. rewrite app_assoc, removelast_last in Hi |- *. rewrite (look (dst ++ rel)).
      unfold starts_with. rewrite bool_decide_eq_true_2 by (by exists rel). by rewrite drop_app_length.
  - destruct (wf_parent _ Hwf _ _ Hqn Hne) as [i Hi]. exists i.
    by rewrite (look (removelast q)), (starts_with_removelast _ _ Hd), (starts_with_removelast _ _ Hs).
Qed.

Lemma renamed_one_path q q' i :
  after !! q = Some (FileNode i) -> after !! q' = Some (FileNode i) -> q = q'.
Proof.
  assert (Happ : forall rel, starts_with (src ++ rel) src = true).
  { intros rel. unfold starts_with. apply bool_decide_eq_true. by exists rel. }
  intros (q0 & [(Hq0 & rel & -> & ->)|(Hd & Hs & Hq)])%renamed_from
    (q0' & [(Hq0' & rel' & -> & ->)|(Hd' & Hs' & Hq')])%renamed_from.
  - pose proof (wf_one_path _ Hwf _ _ _ Hq0 Hq0') as Heq. by apply app_inv_head in Heq as ->.
  - pose proof (wf_one_path _ Hwf _ _ _ Hq0 Hq') as <-. by rewrite Happ in Hs'.
  - pose proof (wf_one_path _ Hwf _ _ _ Hq Hq0') as ->. by rewrite Happ in Hs.
  - by eapply wf_one_path.
Qed.

Lemma renamed_wf : fs_wf (set_nodes after fs).
Proof.
  constructor; cbn.
  - exact renamed_parent.
  - intros q i (q0 & [(Hq0 & _)|(_ & _ & Hq)])%renamed_from; by eapply wf_ino.
  - exact renamed_one_path.
Qed.

Lemma renamed_keeps : keeps (prefix src) fs (set_nodes after fs).
Proof.
  constructor; [|done]. intros q i Hns Hq. cbn. rewrite (look q). unfold starts_with.
  rewrite (bool_decide_eq_false_2 (src `prefix_of` q)) by done.
  destruct (bool_decide_reflect (dst `prefix_of` q)) as [H1|H1]; [|done]. exfalso.
  destruct (decide (q = dst)) as [->|Hne]; [congruence|].
  exact (nothing_below _ _ _ _ Hwf (absent_is_no_dir _ _ Hdst) H1 Hne Hq).
Qed.
End Rename.

(** The branch of [exclusive_rename] that moves. *)
Lemma exclusive_rename_ok src dst fs fs' :
  exclusive_rename src dst fs = (fs', Ok tt) ->
  nodes fs !! dst = None /\ starts_with dst src = false /\ parent_is_dir fs dst = true /\
  is_Some (nodes fs !! src) /\
  nodes fs' = moved src dst (nodes fs) ∪ outside src (nodes fs) /\ contents fs' = contents fs.
Proof.
  unfold exclusive_rename, may_fail, take_fault, mbind, proc_bind, throw_if, get_fs.
  destruct fs as [ns c i fl]. cbn.
  destruct fl as [|f rest]; cbn; [|destruct (bool_decide (is_Some f)); [done|]];
  (destruct (bool_decide (ns !! src = None) || _) eqn:Hg; [done|]; cbn;
   destruct (bool_decide (is_Some (ns !! dst))) eqn:Hd; [done|]; cbn;
   destruct (starts_with dst src) eqn:Hs; [done|]; intros [= <-]; bool_prop; cbn;
   apply eq_None_not_Some in Hd;
   repeat split; try done; by apply not_eq_None_Some).
Qed.

Lemma leaves_exclusive_rename src dst : leaves (keeps (prefix src)) (exclusive_rename src dst).
Proof.
  unfold exclusive_rename. leaves_step; [leaves_leaf|]. intros fs Hwf. unfold mbind, proc_bind, get_fs.
  destruct (bool_decide (nodes fs !! src = None) || _) eqn:Hg; [by split|]. bool_prop.
  destruct (bool_decide (is_Some (nodes fs !! dst))) eqn:Hd; [by split|].
  apply bool_decide_eq_false, eq_None_not_Some in Hd.
  destruct (starts_with dst src) eqn:Hsd; [by split|].
  split; [by apply renamed_wf|by apply renamed_keeps].
Qed.

(** ** Calls that change files *)

Lemma set_contents_leaves fs p i bytes :
  fs_wf fs -> nodes fs !! p = Some (FileNode i) ->
  fs_wf (set_contents (<[i := bytes]> (contents fs)) fs) /\
  keeps (eq p) fs (set_contents (<[i := bytes]> (contents fs)) fs).
Proof.
  intros Hwf Hp. split; constructor; cbn.
  - by eapply wf_parent.
  - intros q j Hq. destruct (wf_ino _ Hwf q j Hq) as [Hj Hc]. split; [done|].
    destruct (decide (j = i)) as [->|]; [by rewrite lookup_insert_eq|by rewrite lookup_insert_ne].
  - by eapply wf_one_path.
  - done.
  - intros q j Hne Hq. rewrite lookup_insert_ne; [done|]. intros ->. apply Hne.
    by eapply wf_one_path.
Qed.

Lemma leaves_copy_file src dst : leaves (keeps (eq dst)) (copy_file src dst).
Proof.
  unfold copy_file. leaves_step; [leaves_leaf|]. leaves_step; [leaves_leaf|].
  match goal with n : Node |- _ => destruct n as [i|from] end; [leaves_leaf|].
  intros fs Hwf. unfold mbind, proc_bind, get_fs, modify_fs, throw_if.
  destruct (nodes fs !! dst) as [[j|to]|] eqn:Hd.
  - by split.
  - by apply set_contents_leaves.
  - match goal with |- context [make_file dst ?b fs] =>
      destruct (make_file_leaves (eq dst) dst b fs Hwf Hd) as [H1 H2%quiet_keeps];
      [|done]; destruct (make_file dst b fs) as [fs1 [i|e]]; by split end.
Qed.
#[export] Hint Resolve leaves_exclusive_rename leaves_copy_file leaves_remove_file leaves_remove_dir_all
  leaves_create_dir_all leaves_create_dir leaves_open_create : fs_leaves.

(** ** Programs *)

Lemma leaves_weaken {E A} (R R' : Fs -> Fs -> Prop) (call : proc Fs E A) :
  (forall fs fs', fs_wf fs -> R fs fs' -> R' fs fs') -> leaves R call -> leaves R' call.
Proof. intros HR Hc fs Hwf. destruct (Hc fs Hwf). auto. Qed.

Lemma leaves_quiet_keeps {E A} T (call : proc Fs E A) : leaves (quiet T) call -> leaves (keeps T) call.
Proof. apply leaves_weaken, quiet_keeps. Qed.

Lemma leaves_io_plan {A} R (call : io A) : leaves R call -> leaves R (io_plan call).
Proof. intros Hc fs Hwf. unfold io_plan. specialize (Hc fs Hwf). by destruct (call fs). Qed.

Lemma leaves_unless_missing R `{!PreOrder R} (call : io unit) :
  leaves R call -> leaves R (unless_missing call).
Proof. intros Hc. unfold unless_missing. leaves_go; done. Qed.

(** What a call returns when it does. *)
Definition returns {E A} (P : A -> Prop) (call : proc Fs E A) : Prop :=
  forall fs a, (call fs).2 = Ok a -> P a.

Lemma leaves_bind_returns {E A B} R `{!PreOrder R} (P : A -> Prop) (call : proc Fs E A)
    (f : A -> proc Fs E B) :
  leaves R call -> returns P call -> (forall a, P a -> leaves R (f a)) -> leaves R (call ≫= f).
Proof.
  intros Hc Hr Hf fs Hwf. unfold mbind, proc_bind. destruct (Hc fs Hwf) as [Hwf1 H1].
  specialize (Hr fs). destruct (call fs) as [fs1 [a|e]]; [|done]. cbn in *.
  destruct (Hf a (Hr a eq_refl) fs1 Hwf1) as [Hwf2 H2]. split; [done|]. by transitivity fs1.
Qed.

Lemma returns_bind {E A B} (P : B -> Prop) (call : proc Fs E A) (f : A -> proc Fs E B) :
  (forall a, returns P (f a)) -> returns P (call ≫= f).
Proof.
  intros Hf fs b. unfold mbind, proc_bind. destruct (call fs) as [fs1 [a|e]]; [|done]. apply Hf.
Qed.

(** A call within an area. *)
Lemma keeps_within {E A} (T T' : path -> Prop) (call : proc Fs E A) :
  (forall q, T q -> T' q) -> leaves (keeps T) call -> leaves (keeps T') call.
Proof. intros HT. apply leaves_weaken. intros fs fs' _. by apply keeps_mono. Qed.

Lemma prefix_join (p q : path) name : p `prefix_of` q -> p `prefix_of` join q name.
Proof. intros [r ->]. exists (r ++ [name]). unfold join. by rewrite app_assoc. Qed.

Section Copy.
Context (top : path).
Local Notation K := (keeps (prefix top)).

Lemma leaves_copy_children from to names pending :
  top `prefix_of` to -> leaves K (copy_children from to names pending).
Proof.
  intros Hto. revert pending. induction names as [|name names IH]; intros pending; cbn; [leaves_leaf|].
  leaves_step; [leaves_leaf|]. leaves_step.
  - leaves_step.
    + apply (keeps_within (eq (join to name))); [|auto with fs_leaves]. intros q <-. by apply prefix_join.
    + leaves_step; [leaves_leaf|]. leaves_step; [leaves_leaf|]. apply IH.
  - leaves_step; [apply leaves_quiet_keeps; auto with fs_leaves|apply IH].
Qed.

Lemma returns_copy_children from to names pending :
  top `prefix_of` to -> Forall (fun p => top `prefix_of` p.2) pending ->
  returns (Forall (fun p => top `prefix_of` p.2)) (copy_children from to names pending).
Proof.
  intros Hto. revert pending. induction names as [|name names IH]; intros pending Hp; cbn.
  - intros fs a [= <-]. done.
  - apply returns_bind. intros md. destruct (md_is_file md).
    + do 3 (apply returns_bind; intros ?). by apply IH.
    + apply returns_bind. intros _. apply IH. constructor; [|done]. by apply prefix_join.
Qed.

Lemma leaves_copy_directories fuel pending :
  Forall (fun p => top `prefix_of` p.2) pending -> leaves K (copy_directories fuel pending).
Proof.
  revert pending. induction fuel as [|fuel IH]; intros [|[from to] pending] Hp; cbn; try leaves_leaf.
  inversion Hp as [|? ? Hto Hp']; subst. leaves_step; [leaves_leaf|].
  eapply leaves_bind_returns; [apply _|by apply leaves_copy_children|by apply returns_copy_children|].
  intros pending1 Hp1. by apply IH.
Qed.
End Copy.

Lemma leaves_copy_tree source dest : leaves (keeps (prefix dest)) (copy_tree source dest).
Proof.
  unfold copy_tree. leaves_step; [leaves_leaf|]. leaves_step.
  - leaves_step.
    { leaves_step; [apply leaves_quiet_keeps; auto with fs_leaves|leaves_leaf]. }
    leaves_step; [|leaves_go]. apply (keeps_within (eq dest)); [|auto with fs_leaves]. by intros q <-.
  - leaves_step; [apply leaves_quiet_keeps; auto with fs_leaves|]. leaves_step; [leaves_leaf|].
    apply leaves_copy_directories. by constructor.
Qed.

Lemma leaves_remove_private p : leaves (keeps (prefix p)) (remove_private_staging_path p).
Proof.
  unfold remove_private_staging_path. leaves_step; [leaves_step; leaves_leaf|].
  match goal with r : result _ _ |- _ => destruct r as [md|[]] end; try leaves_leaf.
  destruct (md_is_file md).
  - apply (keeps_within (eq p)); [by intros q <-|]. apply leaves_quiet_keeps. auto with fs_leaves.
  - apply leaves_quiet_keeps. auto with fs_leaves.
Qed.

(** Programs that only read. *)
Section ReadOnly.
Context (R : Fs -> Fs -> Prop) `{!PreOrder R} `{!FaultBlind R}.

Lemma leaves_push_directories directory names pending :
  leaves R (push_directories directory names pending).
Proof. revert pending. induction names as [|n names IH]; intros; cbn; leaves_go; apply IH. Qed.
Lemma leaves_walk_directories fuel pending visited : leaves R (walk_directories fuel pending visited).
Proof.
  revert pending visited. induction fuel as [|fuel IH]; intros [|d pending] visited; cbn; try leaves_leaf.
  leaves_step; [leaves_leaf|]. leaves_step; [apply leaves_push_directories|apply IH].
Qed.
Lemma leaves_sync_directories ps : leaves R (sync_directories ps).
Proof. induction ps as [|p ps IH]; cbn; leaves_go; apply IH. Qed.
Lemma leaves_sync_tree p : leaves R (sync_tree_directories p).
Proof.
  unfold sync_tree_directories. leaves_go; [apply leaves_walk_directories|apply leaves_sync_directories].
Qed.
Lemma leaves_sync_rename src dst : leaves R (sync_rename_directories src dst).
Proof. unfold sync_rename_directories. leaves_go. Qed.

Lemma leaves_object_identity os device p d stable : leaves R (object_identity os device p d stable).
Proof. unfold object_identity. leaves_step; [apply leaves_io_plan; leaves_leaf|leaves_leaf]. Qed.

Lemma leaves_verify_entries blake3 root top vs ov es physical expected :
  leaves R (verify_entries blake3 root top vs ov es physical expected).
Proof.
  revert physical expected. induction es as [|e es IH]; intros; cbn [verify_entries]; [leaves_leaf|].
  leaves_step; [apply IH|]. leaves_step; [leaves_go|].
  leaves_step; [apply leaves_io_plan; leaves_leaf|]. leaves_step; [leaves_leaf|].
  leaves_step; [|leaves_go; apply IH].
  destruct (bool_decide (ManifestV2.kind e = ManifestV2.RegularFile)); [|leaves_leaf].
  leaves_go; apply leaves_io_plan; leaves_leaf.
Qed.
Lemma leaves_check_children d expected names pending :
  leaves R (check_children d expected names pending).
Proof.
  revert pending. induction names as [|n names IH]; intros; cbn [check_children]; [leaves_leaf|].
  leaves_step; [apply leaves_io_plan; leaves_leaf|]. leaves_step; [leaves_leaf|apply IH].
Qed.
Lemma leaves_check_directories fuel expected pending : leaves R (check_directories fuel expected pending).
Proof.
  revert pending. induction fuel as [|fuel IH]; intros [|d pending]; cbn; try leaves_leaf.
  leaves_step; [apply leaves_io_plan; leaves_leaf|]. leaves_step; [apply leaves_check_children|apply IH].
Qed.
Lemma leaves_verify_exact_root blake3 top m vs rid ov : leaves R (verify_exact_root blake3 top m vs rid ov).
Proof.
  unfold verify_exact_root. do 3 (leaves_step; [leaves_leaf|]).
  leaves_step; [apply leaves_verify_entries|]. leaves_step; [|leaves_leaf].
  leaves_step; [apply leaves_io_plan; leaves_leaf|apply leaves_check_directories].
Qed.
Lemma leaves_verify_adopted os blake3 dk dev top obj m vs rid ov stable :
  leaves R (verify_adopted_root os blake3 dk dev top obj m vs rid ov stable).
Proof.
  unfold verify_adopted_root. destruct obj.
  - leaves_step; [leaves_leaf|]. leaves_step; [apply leaves_object_identity|leaves_leaf].
  - leaves_step; [apply leaves_verify_exact_root|]. leaves_go.
Qed.
End ReadOnly.

(** ** Calls that return *)

Lemma may_fail_ok fs fs' : may_fail fs = (fs', Ok tt) ->
  nodes fs' = nodes fs /\ contents fs' = contents fs /\ next_ino fs' = next_ino fs.
Proof.
  unfold may_fail. intros (fs1 & f & H1 & [_ ->]%throw_if_ok)%bind_ok.
  pose proof (take_fault_same fs) as Hs. rewrite H1 in Hs. cbn in Hs. by subst.
Qed.
Lemma io_plan_ok {A} (call : io A) fs fs' a : io_plan call fs = (fs', Ok a) -> call fs = (fs', Ok a).
Proof. unfold io_plan. destruct (call fs) as [fs1 [b|e]]; by intros [= <- <-]. Qed.

Lemma read_dir_ok d fs fs' names :
  read_dir d fs = (fs', Ok names) ->
  nodes fs' = nodes fs /\ is_Some (nodes fs !! d) /\ names = children d (nodes fs).
Proof.
  unfold read_dir. intros Hrun. apply bind_ok in Hrun as (fs1 & [] & (H1 & _)%may_fail_ok & Hrun).
  apply bind_ok in Hrun as (fs2 & n & H2 & Hrun). unfold node_at in H2.
  apply bind_ok in H2 as (? & ? & [= <- <-] & [H2 ->]%pure_ok). inv_ok.
  destruct n; [|done]. apply bind_ok in Hrun as (? & ? & [= <- <-] & Hrun). injection Hrun as <- <-.
  rewrite H1 in *. eauto.
Qed.

Lemma metadata_nodes p fs fs' md : metadata p fs = (fs', Ok md) -> nodes fs' = nodes fs.
Proof.
  unfold metadata. intros Hrun. apply bind_ok in Hrun as (fs1 & [] & (H1 & _)%may_fail_ok & Hrun).
  apply bind_ok in Hrun as (fs2 & n & H2 & Hrun). unfold node_at in H2.
  apply bind_ok in H2 as (? & ? & [= <- <-] & [_ ->]%pure_ok).
  apply bind_ok in Hrun as (? & ? & [= <- <-] & Hrun). by injection Hrun as <- <-.
Qed.
