(* ===== verification/LedgerInv.v ===== *)
(** The invariant of the receiver's ledger: what every checkpoint says about the
    bytes, the digest, the completion and the result of its entry; that a fresh
    ledger has it; and what a sender reads from a ledger that has it. *)

From stdpp Require Import prelude gmap strings pretty.
From Stdlib Require Import ZArith Lia Strings.Byte.
From S2P Require Import Prelude Bytes ManifestV2 ManifestSpec ValidateTheorem OfferCodec Frames.
From S2P Require Import FramesProof Delivery DeliveryStore Ledger.

Local Open Scope Z_scope.

(** [ceil(plaintext_size / block_bytes)] *)
Definition blocks_of (e : ManifestEntryV2) : Z := (plaintext_size e + (block_bytes - 1)) / block_bytes.

Lemma block_bytes_pos : 0 < block_bytes.
Proof. done. Qed.

Lemma blocks_of_cover e : 0 <= plaintext_size e -> plaintext_size e <= blocks_of e * block_bytes.
Proof.
  intros He. unfold blocks_of. pose proof block_bytes_pos.
  pose proof (Z.div_mod (plaintext_size e + (block_bytes - 1)) block_bytes ltac:(lia)) as Hd.
  pose proof (Z.mod_pos_bound (plaintext_size e + (block_bytes - 1)) block_bytes ltac:(lia)). nia.
Qed.

(** A block that starts inside the entry is one of its blocks. *)
Lemma block_lt_blocks e k : 0 <= k -> k * block_bytes < plaintext_size e -> k + 1 <= blocks_of e.
Proof.
  intros Hk Hlt. unfold blocks_of. pose proof block_bytes_pos.
  apply Z.div_le_lower_bound; [done|]. lia.
Qed.

Lemma total_blocks_ok e b : total_blocks e = Ok b -> b = blocks_of e.
Proof.
  unfold total_blocks, blocks_of. intros H. inv_ok.
  match goal with Hx : checked_add _ _ _ = Some _ |- _ => apply checked_add_Some in Hx as [-> _] end.
  done.
Qed.

Lemma collect_options_Some {A} (l : list (option A)) r :
  collect_options l = Some r <-> l = Some <$> r.
Proof.
  revert r. induction l as [|[x|] l IH]; intros r; cbn.
  - destruct r; split; intros; simplify_eq; done.
  - unfold mbind, option_bind. destruct (collect_options l) as [rest|]; split.
    + intros [= <-]. cbn. f_equal. by apply IH.
    + destruct r as [|y r]; cbn; [done|]. intros [= -> Hl]. f_equal. f_equal.
      apply IH in Hl. by simplify_eq.
    + done.
    + destruct r as [|y r]; cbn; [done|]. intros [= -> Hl]. apply IH in Hl. done.
  - destruct r; done.
Qed.

(** ** Checkpoints *)

Section Invariant.
Context (is_nfc : str -> bool) (blake3 : list byte -> list byte) (m : ManifestV2).
Local Notation ID := (mkJobGeneration (job_id m) (generation m)).
(** Whether the payload of an entry is verified to have a digest. *)
Context (verified : ManifestEntryV2 -> ContentDigestV2 -> Prop).

(** The entry's payload will be taken in default-sized blocks. *)
Definition default_start (c : ReceiverEntryCheckpointV2) : Prop :=
  forall s, cp_start c = Some s -> plaintext_block_bytes s = block_bytes.

(** How far the payload is: in blocks of the default size, the boundary is
    that of the next block, and never past the end. *)
Definition boundary_ok (e : ManifestEntryV2) (c : ReceiverEntryCheckpointV2) : Prop :=
  0 <= cp_next_plaintext_block c /\ 0 <= cp_plaintext_bytes c <= plaintext_size e /\
  (default_start c ->
   cp_next_plaintext_block c <= blocks_of e /\
   (cp_arbiter c <> ArbiterReuseChosen ->
    cp_plaintext_bytes c = Z.min (cp_next_plaintext_block c * block_bytes) (plaintext_size e))).

(** The result of an entry states its completion. *)
Definition result_states (e : ManifestEntryV2) (k : EntryCompleteV2) (r : EntryResultV2) : Prop :=
  exists name, r = mkResult ID (entry_id e) (result_kind_of (completion_choice k))
                     (plaintext_size e)
                     (if bool_decide (kind e = RegularFile) then Some (ec_final_digest k) else None)
                     name.

Record checkpoint_ok (accept : ManifestAcceptV2) (e : ManifestEntryV2)
    (c : ReceiverEntryCheckpointV2) : Prop := {
  co_entry_id : cp_entry_id c = entry_id e;
  co_start : forall s, cp_start c = Some s -> es_identity s = ID /\ es_entry_id s = entry_id e;
  co_boundary : boundary_ok e c;
  co_plan : forall plan, vec_get (entry_plans accept) (entry_id e) = Some plan ->
    disposition plan = DispositionReuseExisting -> cp_next_plaintext_block c = 0;
  co_known : forall d, known_digest e = Some d -> cp_content_digest c = Some d;
  (** The completion is the one a resuming sender computes. *)
  co_completion : forall k, cp_completion c = Some k ->
    completion_from_resume_checkpoint blake3 ID e (resume_entry_of c) = Ok k;
  co_result : forall r, cp_result c = Some r ->
    exists k, cp_completion c = Some k /\ result_states e k r;
  co_reuse : cp_arbiter c = ArbiterReuseChosen ->
    kind e = RegularFile /\ cp_next_plaintext_block c = 0 /\ is_Some (cp_content_digest c);
  co_complete : cp_arbiter c = PayloadCompleteChosen ->
    is_Some (cp_completion c) /\ cp_plaintext_bytes c = plaintext_size e;
  co_verified : forall d, cp_arbiter c = PayloadCompleteChosen -> kind e = RegularFile ->
    cp_content_digest c = Some d -> verified e d;
}.

Record ledger_ok (l : ReceiverDataPlaneLedgerV2) : Prop := {
  lo_valid : ledger_validate is_nfc blake3 l m = Ok tt;
  lo_entries : Forall2 (checkpoint_ok (rl_accept l)) (entries m) (rl_entries l);
}.

(** ** Validation of a ledger *)

(** The part of [validate] that does not look at the checkpoints. *)
Definition header_ok (l : ReceiverDataPlaneLedgerV2) : Prop :=
  exists offer, build_manifest_offer_v2 is_nfc blake3 m = Ok offer /\
    rl_schema_version l = RECEIVER_DATA_PLANE_SCHEMA_VERSION /\
    rl_identity l = ID /\ rl_manifest_digest l = structural_digest offer /\
    acc_identity (rl_accept l) = ID /\
    acc_manifest_digest (rl_accept l) = rl_manifest_digest l /\
    validate_accept offer (rl_accept l) = Ok tt /\
    canonical_manifest_v2_frame_body_digest is_nfc blake3 (Accept (rl_accept l))
      = Ok (rl_accept_body_digest l).

Lemma ledger_validate_ok l :
  ledger_validate is_nfc blake3 l m = Ok tt <->
  header_ok l /\ length (rl_entries l) = length (entries m) /\
  checkpoints_misplaced (rl_identity l) 0 (rl_entries l) = false.
Proof.
  unfold ledger_validate, header_ok. split.
  - intros H. inv_ok. bool_prop. split; [|split; [unfold zlen in *; lia|done]].
    assert (rl_identity l = ID) by (destruct (rl_identity l); cbn in *; congruence).
    eexists. repeat split; try done; try congruence.
  - intros ((offer & Hb & Hs & Hid & Hd & Hai & Had & Hva & Hcd) & Hlen & Hmis).
    rewrite Hb. cbn [map_err mbind result_bind]. rewrite Hs, Hid, Hd, Hai, Had, Hd.
    cbn [jg_job_id jg_generation]. rewrite !bool_decide_eq_true_2, !Z.eqb_refl by done.
    rewrite (proj2 (Z.eqb_eq (zlen _) _)) by (unfold zlen; lia). cbn [negb orb].
    rewrite Hva. cbn [mbind result_bind]. rewrite Hid in Hmis. rewrite Hmis, Hcd.
    cbn [map_err mbind result_bind]. by rewrite bool_decide_eq_true_2.
Qed.

Lemma checkpoints_placed id k cs :
  (forall i c, cs !! i = Some c -> checkpoint_misplaced id (k + Z.of_nat i) c = false) ->
  checkpoints_misplaced id k cs = false.
Proof.
  revert k. induction cs as [|c cs IH]; intros k Hc; [done|]. cbn. apply orb_false_iff. split.
  - specialize (Hc 0%nat c eq_refl). by rewrite Z.add_0_r in Hc.
  - apply IH. intros i c' Hi. specialize (Hc (Datatypes.S i) c' Hi).
    by replace (k + 1 + Z.of_nat i) with (k + Z.of_nat (Datatypes.S i)) by lia.
Qed.
End Invariant.

(** ** Assembling a ledger *)

Section Assemble.
Context (is_nfc : str -> bool) (blake3 : list byte -> list byte) (m : ManifestV2).
Context (Hwf : wf_manifest m = true) (Hv : valid_manifest is_nfc m).
Local Notation ID := (mkJobGeneration (job_id m) (generation m)).
Local Notation checkpoint_ok := (checkpoint_ok blake3 m).
Local Notation ledger_ok := (ledger_ok is_nfc blake3 m).

Lemma entry_id_index i e : entries m !! i = Some e -> entry_id e = Z.of_nat i.
Proof. intros He. exact (ve_id _ _ _ _ (vm_entry _ _ Hv i e He)). Qed.

Lemma entry_index_u32 i e : entries m !! i = Some e -> as_u32 (Z.of_nat i) = Z.of_nat i.
Proof.
  intros He%lookup_lt_Some. unfold as_u32. apply Z.mod_small.
  pose proof (proj2 (vm_entries_bound _ _ Hv)) as Hb. unfold zlen, MAX_MANIFEST_V2_ENTRIES in Hb. lia.
Qed.

Lemma checkpoint_placed V accept i e c :
  entries m !! i = Some e -> checkpoint_ok V accept e c ->
  checkpoint_misplaced ID (Z.of_nat i) c = false.
Proof.
  intros He Hc. unfold checkpoint_misplaced. rewrite (entry_index_u32 _ _ He).
  pose proof (co_entry_id _ _ _ _ _ _ Hc) as Hid. rewrite Hid, (entry_id_index _ _ He), Z.eqb_refl.
  cbn. rewrite <- (entry_id_index _ _ He).
  assert (Hk : forall k, cp_completion c = Some k -> ec_identity k = ID /\ ec_entry_id k = entry_id e).
  { intros k Hk%(co_completion _ _ _ _ _ _ Hc). unfold completion_from_resume_checkpoint in Hk.
    inv_ok. done. }
  assert (Hr : forall r, cp_result c = Some r -> er_identity r = ID /\ er_entry_id r = entry_id e).
  { intros r Hr. destruct (co_result _ _ _ _ _ _ Hc r Hr) as (k & _ & n & ->). done. }
  destruct (cp_result c) as [r|]; [destruct (Hr r eq_refl) as [-> ->]|];
  (destruct (cp_start c) as [s|] eqn:Hs; [destruct (co_start _ _ _ _ _ _ Hc s Hs) as [-> ->]|]);
  (destruct (cp_completion c) as [k|]; [destruct (Hk k eq_refl) as [-> ->]|]);
  rewrite ?bool_decide_eq_true_2, ?Z.eqb_refl by done; done.
Qed.

Lemma ledger_ok_intro V l :
  header_ok is_nfc blake3 m l -> Forall2 (checkpoint_ok V (rl_accept l)) (entries m) (rl_entries l) ->
  ledger_ok V l.
Proof.
  intros Hh Hall. constructor; [|done]. apply ledger_validate_ok. split; [done|].
  split; [symmetry; by eapply Forall2_length|]. destruct Hh as (o & _ & _ & -> & _).
  apply checkpoints_placed. intros i c Hc. cbn.
  destruct (Forall2_lookup_r _ _ _ _ _ Hall Hc) as (e & He & Hok). by eapply checkpoint_placed.
Qed.

Lemma ledger_ok_header V l : ledger_ok V l -> header_ok is_nfc blake3 m l.
Proof. by intros [[Hh _]%ledger_validate_ok _]. Qed.

Lemma ledger_ok_identity V l : ledger_ok V l -> rl_identity l = ID.
Proof. intros (o & _ & _ & Hid & _)%ledger_ok_header. done. Qed.

Lemma header_ok_set_entries es l :
  header_ok is_nfc blake3 m (set_rl_entries es l) <-> header_ok is_nfc blake3 m l.
Proof. done. Qed.

Lemma checkpoint_ok_weaken (V V' : ManifestEntryV2 -> ContentDigestV2 -> Prop) accept e c :
  (forall d, cp_arbiter c = PayloadCompleteChosen -> V e d -> V' e d) ->
  checkpoint_ok V accept e c -> checkpoint_ok V' accept e c.
Proof. intros HV []. constructor; auto. Qed.

(** The ledger after an assignment to one checkpoint. *)
Lemma ledger_ok_alter V l i e f :
  ledger_ok V l -> entries m !! i = Some e ->
  (forall c, rl_entries l !! i = Some c -> checkpoint_ok V (rl_accept l) e c ->
             checkpoint_ok V (rl_accept l) e (f c)) ->
  ledger_ok V (alter_entry (Z.of_nat i) f l).
Proof.
  intros Hl He Hf. apply ledger_ok_intro; [exact (ledger_ok_header _ _ Hl)|].
  unfold alter_entry. cbn [rl_accept rl_entries set_rl_entries]. rewrite Nat2Z.id.
  apply Forall2_same_length_lookup. split.
  - rewrite length_alter. exact (Forall2_length _ _ _ (lo_entries _ _ _ _ _ Hl)).
  - intros j e' c' He' Hc'. destruct (decide (i = j)) as [<-|Hne].
    + rewrite list_lookup_alter_eq in Hc'. apply fmap_Some in Hc' as (c & Hc & ->). simplify_eq.
      apply Hf; [done|]. exact (Forall2_lookup_lr _ _ _ _ _ _ (lo_entries _ _ _ _ _ Hl) He ltac:(eassumption)).
    + rewrite list_lookup_alter_ne in Hc' by done. exact (Forall2_lookup_lr _ _ _ _ _ _ (lo_entries _ _ _ _ _ Hl) He' Hc').
Qed.
End Assemble.

(** ** What the assignments of the data plane preserve *)

Section Steps.
Context (blake3 : list byte -> list byte) (m : ManifestV2).
Context (V : ManifestEntryV2 -> ContentDigestV2 -> Prop) (accept : ManifestAcceptV2).
Local Notation ID := (mkJobGeneration (job_id m) (generation m)).
Local Notation ok := (checkpoint_ok blake3 m V accept).
Implicit Types (e : ManifestEntryV2) (c : ReceiverEntryCheckpointV2).

Lemma open_no_completion e c : ok e c -> cp_arbiter c = PayloadOpen -> cp_completion c = None.
Proof.
  intros Hc Ha. destruct (cp_completion c) as [k|] eqn:Hk; [|done].
  apply (co_completion _ _ _ _ _ _ Hc) in Hk. unfold completion_from_resume_checkpoint in Hk.
  cbn in Hk. rewrite Ha in Hk. done.
Qed.

Lemma open_no_result e c : ok e c -> cp_arbiter c = PayloadOpen -> cp_result c = None.
Proof.
  intros Hc Ha. destruct (cp_result c) as [r|] eqn:Hr; [|done].
  destruct (co_result _ _ _ _ _ _ Hc r Hr) as (k & Hk & _).
  by rewrite (open_no_completion _ _ Hc Ha) in Hk.
Qed.

Lemma start_ok e c s :
  ok e c -> cp_start c = None -> es_identity s = ID -> es_entry_id s = entry_id e ->
  ok e (set_cp_start s c).
Proof.
  intros [] Hn Hi He. constructor; cbn; auto.
  - by intros ? [= <-].
  - destruct co_boundary0 as (Hn0 & Hb0 & Hd). split; [done|]. split; [done|]. cbn.
    intros _. apply Hd. intros s'. by rewrite Hn.
Qed.

Lemma retired_ok e c b : ok e c -> ok e (set_cp_retired b c).
Proof. by intros []; constructor. Qed.

Lemma digest_ok e c d :
  ok e c -> cp_arbiter c = PayloadOpen -> cp_content_digest c = None ->
  ok e (set_cp_digest (Some d) c).
Proof.
  intros Hc Ha Hn. pose proof (open_no_completion _ _ Hc Ha) as Hk. destruct Hc.
  constructor; cbn; auto; try (rewrite ?Ha, ?Hk; done).
  intros d' Hd'. rewrite (co_known0 d' Hd') in Hn. done.
Qed.

Lemma set_or_equal_ok e c d :
  ok e c -> cp_arbiter c <> PayloadCompleteChosen -> ok e (fst (set_or_equal_digest c d)).
Proof.
  intros Hc Ha. unfold set_or_equal_digest.
  destruct (cp_content_digest c) as [d'|] eqn:Hd; [by case_bool_decide|]. cbn.
  apply digest_ok; [done| |done]. destruct (cp_arbiter c) eqn:Harb; [done| |done].
  destruct (co_reuse _ _ _ _ _ _ Hc Harb) as (_ & _ & Hs). rewrite Hd in Hs. by apply is_Some_None in Hs.
Qed.

Lemma set_or_equal_digest_set c d c' :
  set_or_equal_digest c d = (c', Ok tt) -> cp_content_digest c' = Some d.
Proof.
  unfold set_or_equal_digest. destruct (cp_content_digest c) as [d'|] eqn:Hd.
  - case_bool_decide; [|done]. intros [= <-]. by subst.
  - by intros [= <-].
Qed.

(** Reuse by a late digest, and by plan. *)
Lemma reuse_ok e c :
  ok e c -> cp_arbiter c = PayloadOpen -> kind e = RegularFile -> is_Some (cp_content_digest c) ->
  ok e (set_cp_boundary 0 0 (set_cp_arbiter ArbiterReuseChosen c)).
Proof.
  intros Hc Ha Hk Hd. pose proof (open_no_completion _ _ Hc Ha) as Hn.
  pose proof (co_boundary _ _ _ _ _ _ Hc) as (_ & Hb & _).
  pose proof (open_no_result _ _ Hc Ha) as Hr. destruct Hc.
  constructor; cbn; rewrite ?Hn, ?Hr; try done.
  split; [done|]. split; [cbn; lia|]. intros _. cbn. split; [|done].
  unfold blocks_of. apply Z.div_pos; [|done]. pose proof block_bytes_pos. lia.
Qed.

Lemma planned_reuse_ok e c plan :
  ok e c -> cp_arbiter c = PayloadOpen -> kind e = RegularFile -> is_Some (cp_content_digest c) ->
  vec_get (entry_plans accept) (entry_id e) = Some plan ->
  disposition plan = DispositionReuseExisting -> ok e (set_cp_arbiter ArbiterReuseChosen c).
Proof.
  intros Hc Ha Hk Hd Hp Hr. pose proof (open_no_completion _ _ Hc Ha) as Hn.
  pose proof (open_no_result _ _ Hc Ha) as Hres.
  pose proof (co_plan _ _ _ _ _ _ Hc plan Hp Hr) as H0. destruct Hc.
  constructor; cbn; rewrite ?Hn, ?Hres; try done.
  destruct co_boundary0 as (Hb1 & Hb2 & Hb3). split; [done|]. split; [done|].
  intros Hdef. destruct (Hb3 Hdef) as [Hle _]. done.
Qed.

Lemma retire_ok e c :
  ok e c -> cp_arbiter c <> PayloadCompleteChosen -> cp_result c = None ->
  0 <= plaintext_size e -> ok e (retire_checkpoint e c).
Proof.
  intros Hc Ha Hr Hs. destruct Hc. constructor; cbn; rewrite ?Hr; try done.
  split; [done|]. split; [cbn; lia|]. intros _. cbn. split; [|lia].
  unfold blocks_of. apply Z.div_pos; [|done]. pose proof block_bytes_pos. lia.
Qed.

(** A completion that was verified. *)
Lemma complete_ok e c k :
  ok e c -> cp_arbiter c = PayloadOpen -> kind e = RegularFile ->
  ec_identity k = ID -> ec_entry_id k = entry_id e -> ec_final_size k = plaintext_size e ->
  completion_choice k = PayloadComplete -> cp_content_digest c = Some (ec_final_digest k) ->
  cp_plaintext_bytes c = plaintext_size e -> V e (ec_final_digest k) ->
  ok e (set_cp_arbiter PayloadCompleteChosen (set_cp_completion (Some k) c)).
Proof.
  intros Hc Ha Hk Hi He Hs Hch Hd Hb HV. pose proof (open_no_result _ _ Hc Ha) as Hres.
  destruct Hc. constructor; cbn; rewrite ?Hres; try done.
  - destruct co_boundary0 as (Hb1 & Hb2 & Hb3). split; [done|]. split; [done|].
    intros Hdef. destruct (Hb3 Hdef) as [Hle Heq]. split; [done|]. intros _. cbn. apply Heq. by rewrite Ha.
  - intros ? [= <-]. unfold completion_from_resume_checkpoint. cbn. rewrite Hk, Hd. cbn.
    destruct k. cbn in *. by subst.
  - intros d _ _ [= <-]%(eq_trans (eq_sym Hd)). done.
Qed.

Lemma directory_ok e c k :
  ok e c -> cp_arbiter c = PayloadOpen -> kind e = Directory -> plaintext_size e = 0 ->
  ec_identity k = ID -> ec_entry_id k = entry_id e -> ec_final_size k = 0 ->
  completion_choice k = PayloadComplete -> ec_final_digest k = empty_digest blake3 ->
  ok e (set_cp_completion (Some k) (set_cp_arbiter PayloadCompleteChosen c)).
Proof.
  intros Hc Ha Hk Hz Hi He Hs Hch Hd. pose proof (open_no_result _ _ Hc Ha) as Hres.
  destruct Hc. constructor; cbn; rewrite ?Hres; try done.
  - destruct co_boundary0 as (Hb1 & Hb2 & Hb3). split; [done|]. split; [done|].
    intros Hdef. destruct (Hb3 Hdef) as [Hle Heq]. split; [done|]. intros _. cbn. apply Heq. by rewrite Ha.
  - intros ? [= <-]. unfold completion_from_resume_checkpoint. cbn. rewrite Hk. cbn.
    rewrite Hz. destruct k. cbn in *. by subst.
  - intros _. destruct co_boundary0 as (_ & Hb & _). split; [eauto|]. lia.
  - by rewrite Hk.
Qed.

Lemma completion_ok e c k :
  ok e c -> cp_arbiter c <> PayloadOpen ->
  completion_from_resume_checkpoint blake3 ID e (resume_entry_of c) = Ok k ->
  cp_result c = None -> ok e (set_cp_completion (Some k) c).
Proof.
  intros [] Ha Hk Hr. constructor; cbn; rewrite ?Hr; try done.
  - by intros ? [= <-].
  - intros Hx. split; [eauto|]. by apply co_complete0.
Qed.

Lemma result_ok e c k r :
  ok e c -> cp_completion c = Some k -> result_states m e k r -> ok e (set_cp_result r c).
Proof.
  intros [] Hk Hr. constructor; cbn; try done. intros ? [= <-]. eauto.
Qed.

(** A block that [validate_block] accepts ends where the boundary moves. *)
Lemma block_ok e c b :
  ok e c -> cp_arbiter c = PayloadOpen -> validate_block e c b = Ok tt -> 0 < plaintext_length b ->
  0 <= plaintext_size e ->
  (forall plan, vec_get (entry_plans accept) (entry_id e) = Some plan ->
     disposition plan = ReceivePayload) ->
  ok e (set_cp_boundary (cp_next_plaintext_block c + 1)
          (plaintext_offset b + plaintext_length b) c).
Proof.
  intros Hc Ha Hv Hlen Hsize Hplan. unfold validate_block in Hv. inv_ok. bool_prop.
  repeat match goal with Hx : checked_mul _ _ _ = Some _ |- _ => unfold checked_mul in Hx end.
  match goal with Hx : (if _ then Some _ else None) = Some _ |- _ =>
    destruct (_ <=? _) in Hx; [injection Hx as <-|done] end.
  match goal with Hx : checked_add _ _ _ = Some _ |- _ => apply checked_add_Some in Hx as [-> _] end.
  destruct Hc. constructor; cbn; try done.
  - destruct co_boundary0 as (Hb1 & Hb2 & Hb3).
    match goal with Hx : cp_start c = Some ?x |- _ => rename x into s, Hx into Hs end.
    split; [cbn; lia|]. split; [cbn; nia|]. intros Hdef. cbn in *.
    assert (Hbs : plaintext_block_bytes s = block_bytes) by (by apply Hdef).
    rewrite Hbs in *.
    assert (Hend : plaintext_offset b + plaintext_length b < plaintext_size e ->
      plaintext_length b = block_bytes).
    { intros Hlt. match goal with Hx : (_ <? _) && _ = false |- _ =>
        rewrite (proj2 (Z.ltb_lt _ _) Hlt) in Hx; cbn in Hx; bool_prop; done end. }
    split.
    + apply block_lt_blocks; [done|]. nia.
    + intros _. destruct (Z.lt_ge_cases (plaintext_offset b + plaintext_length b) (plaintext_size e)).
      * rewrite Hend in * by done. nia.
      * nia.
  - intros plan Hp Hr. rewrite (Hplan plan Hp) in Hr. done.
  - by rewrite Ha.
  - by rewrite Ha.
Qed.
End Steps.
