(* ===== verification/ReceiveInv.v ===== *)
(** What [receive] keeps at every moment, for any peer, any failing write and any
    sink: the ledger in memory and the ledger on disk describe what the sink
    has, and no decision or result is sent before the ledger that records it is
    durable. *)

From stdpp Require Import prelude gmap strings pretty.
From Stdlib Require Import ZArith Lia Strings.Byte.
From S2P Require Import Prelude Bytes ManifestV2 ManifestSpec ValidateTheorem OfferCodec Frames.
From S2P Require Import FramesProof Timeline Delivery DeliveryStore Ledger Proc ReceivePlane LedgerInv.

Local Open Scope Z_scope.

(** ** The ledger's store *)

Section LedgerStore.
Context (ledger_to_vec : ReceiverDataPlaneLedgerV2 -> option (list byte)).
Context (ledger_from_slice : list byte -> option ReceiverDataPlaneLedgerV2).
Context (serde : forall l bytes, ledger_to_vec l = Some bytes -> ledger_from_slice bytes = Some l).
Local Notation load := (ledger_load ledger_from_slice).

Lemma ledger_temporary_path_ne i j : ledger_temporary_path i <> ledger_path j.
Proof.
  intros Heq%(f_equal last). unfold ledger_temporary_path, ledger_path in Heq.
  rewrite !last_app in Heq. done.
Qed.

Lemma ledger_path_inj i j :
  wf_identity i = true -> wf_identity j = true -> ledger_path i = ledger_path j -> i = j.
Proof.
  destruct i as [a g], j as [b k]. unfold wf_identity, wf_job_id, wf_bytes. intros Hi Hj Heq.
  cbn in Hi, Hj. bool_prop. unfold ledger_path, ledger_stem in Heq. cbn [jg_job_id jg_generation] in Heq.
  apply app_inv_tail, app_inv_head in Heq. apply app_inj_1 in Heq as [Ha Heq].
  - apply encode_job_id_inj in Ha as ->. apply app_inv_head, lit_inj in Heq.
    apply (inj pretty) in Heq. f_equal. unfold is_u32 in *. bool_prop. lia.
  - rewrite !length_encode_job_id. unfold zlen in *. lia.
Qed.

Lemma ledger_save_cases fs l fault fs' r :
  ledger_save ledger_to_vec fs l fault = (fs', r) ->
  (r <> Ok tt /\ forall id, load fs' id = load fs id) \/
  (load fs' (rl_identity l) = Ok (Some l) /\
   forall id, ledger_path id <> ledger_path (rl_identity l) -> load fs' id = load fs id).
Proof.
  unfold ledger_save.
  assert (Hnew : forall bytes, ledger_to_vec l = Some bytes ->
    let fs' := <[ledger_path (rl_identity l) := bytes]> (delete (ledger_temporary_path (rl_identity l)) fs) in
    load fs' (rl_identity l) = Ok (Some l) /\
    forall id, ledger_path id <> ledger_path (rl_identity l) -> load fs' id = load fs id).
  { intros bytes Hb. cbn. unfold ledger_load. split.
    - rewrite lookup_insert_eq, (serde _ _ Hb). done.
    - intros id Hne. by rewrite lookup_insert_ne, lookup_delete_ne by (done || apply ledger_temporary_path_ne). }
  destruct fault as [| |[part|]|], (ledger_to_vec l) as [bytes|]; intros [= <- <-];
    try (left; split; [done|]; done); try (right; by apply Hnew).
  left. split; [done|]. intros id. unfold ledger_load.
  by rewrite lookup_insert_ne by apply ledger_temporary_path_ne.
Qed.
End LedgerStore.

(** ** What a sink promises *)

(** [V s e d]: the sink has a payload of [e] that it verified to have digest
    [d].  A call for one entry leaves the payloads of the others alone, and
    committing a job loses none of them, however the call ends.  [ss_good s]: no
    call failed half-way, so that what the sink verifies is what it has; only a
    verification that fails leaves a sink that can go on. *)
Class SinkSafety (S : Type) `{PayloadSink S} (V : S -> ManifestEntryV2 -> ContentDigestV2 -> Prop) := {
  ss_begin e start next s s' r e' d : begin_entry e start next s = (s', r) ->
    entry_id e' <> entry_id e -> V s e' d -> V s' e' d;
  ss_write e b s s' r e' d : write_block e b s = (s', r) ->
    entry_id e' <> entry_id e -> V s e' d -> V s' e' d;
  ss_reuse e d' s s' r e' d : try_choose_reuse e d' s = (s', r) ->
    entry_id e' <> entry_id e -> V s e' d -> V s' e' d;
  ss_retire e s s' r e' d : retire_payload e s = (s', r) ->
    entry_id e' <> entry_id e -> V s e' d -> V s' e' d;
  ss_stage e s s' r e' d : stage_directory e s = (s', r) -> V s e' d -> V s' e' d;
  ss_verify e d' s s' r e' d : verify_payload e d' s = (s', r) -> V s e' d -> V s' e' d;
  ss_commit m vs s s' r e' d : commit_job m vs s = (s', r) -> V s e' d -> V s' e' d;
  ss_good : S -> Prop;
  ss_verified e d s s' : verify_payload e d s = (s', Ok tt) -> ss_good s -> V s' e d;
  ss_good_begin e start next s s' : begin_entry e start next s = (s', Ok tt) -> ss_good s -> ss_good s';
  ss_good_write e b s s' : write_block e b s = (s', Ok tt) -> ss_good s -> ss_good s';
  ss_good_reuse e d s s' chosen : try_choose_reuse e d s = (s', Ok chosen) -> ss_good s -> ss_good s';
  ss_good_stage e s s' : stage_directory e s = (s', Ok tt) -> ss_good s -> ss_good s';
  ss_good_verify e d s s' r : verify_payload e d s = (s', r) -> ss_good s -> ss_good s';
  ss_good_commit m vs s s' saved : commit_job m vs s = (s', Ok saved) -> ss_good s -> ss_good s';
}.

(** Any sink keeps the promise to promise nothing. *)
#[export] Instance trivial_safety {S} `{PayloadSink S} : SinkSafety S (fun _ _ _ => True).
Proof. by apply (Build_SinkSafety S _ _) with (ss_good := fun _ => True). Defined.

Section Safety.
Context (is_nfc : str -> bool) (blake3 : list byte -> list byte).
Context (zstd_decompress : list byte -> Z -> option (list byte)).
Context (ledger_to_vec : ReceiverDataPlaneLedgerV2 -> option (list byte)).
Context (ledger_from_slice : list byte -> option ReceiverDataPlaneLedgerV2).
Context (serde : forall l bytes, ledger_to_vec l = Some bytes -> ledger_from_slice bytes = Some l).
Context {S : Type} `{PayloadSink S} (V : S -> ManifestEntryV2 -> ContentDigestV2 -> Prop).
Context `{!SinkSafety S V}.
Context (gate : ResultGate).
Context (m : ManifestV2) (Hwf : wf_manifest m = true) (Hv : valid_manifest is_nfc m).
Local Notation ID := (mkJobGeneration (job_id m) (generation m)).
Local Notation world := (World ReceiverDataPlaneLedgerV2 S).
Local Notation load fs := (ledger_load ledger_from_slice fs ID).
Local Notation lok s l := (ledger_ok is_nfc blake3 m (V s) l).
Implicit Types (w : world) (e : ManifestEntryV2) (c : ReceiverEntryCheckpointV2).

(** The store holds a ledger of the job that is true of the sink. *)
Definition disk_true (fs : files) (s : S) : Prop :=
  exists l, load fs = Ok (Some l) /\ lok s l.

(** What a sent frame says is in the store. *)
Definition backed (f : ManifestV2Frame) (fs : files) : Prop :=
  exists l, load fs = Ok (Some l) /\
  match f with
  | EntryContentDigest d => exists c,
      vec_get (rl_entries l) (cd_entry_id d) = Some c /\ cp_content_digest c = Some (cd_digest d) /\
      decision d = (if bool_decide (cp_arbiter c = ArbiterReuseChosen)
                    then DecisionReuseExisting else ContinuePayload)
  | EntryResult r => exists c,
      vec_get (rl_entries l) (er_entry_id r) = Some c /\ cp_result c = Some r
  | _ => False
  end.

Definition safe w : Prop :=
  disk_true (store w) (sink w) /\ Forall (fun p => backed p.1 p.2) (outgoing w).

(** Entries that are complete on disk are complete in memory. *)
Definition covered (fs : files) (l : ReceiverDataPlaneLedgerV2) : Prop :=
  forall l' i c, load fs = Ok (Some l') -> rl_entries l' !! i = Some c ->
    cp_arbiter c = PayloadCompleteChosen ->
    exists c', rl_entries l !! i = Some c' /\ cp_arbiter c' = PayloadCompleteChosen.

Definition consistent w : Prop :=
  lok (sink w) (record w) /\ safe w /\ covered (store w) (record w) /\ ss_good (sink w).

(** Saved, and nothing changed since. *)
Definition durable w : Prop := load (store w) = Ok (Some (record w)).

Local Notation mwp f Q := (wp f Q (fun _ => safe)).

Lemma core_inv w' l fs s out :
  core w' = (l, fs, s, out) -> record w' = l /\ store w' = fs /\ sink w' = s /\ outgoing w' = out.
Proof. unfold core. by intros [= -> -> -> ->]. Qed.

Lemma core_same w w' :
  core w' = core w ->
  record w' = record w /\ store w' = store w /\ sink w' = sink w /\ outgoing w' = outgoing w.
Proof. unfold core. by intros [= -> -> -> ->]. Qed.

Lemma consistent_core w w' : core w' = core w -> consistent w -> consistent w'.
Proof. unfold consistent, safe. intros (-> & -> & -> & ->)%core_same. done. Qed.
Lemma safe_core w w' : core w' = core w -> safe w -> safe w'.
Proof. unfold safe. intros (_ & -> & -> & ->)%core_same. done. Qed.
Lemma durable_core w w' : core w' = core w -> durable w -> durable w'.
Proof. unfold durable. intros (-> & -> & _ & _)%core_same. done. Qed.

Lemma consistent_safe w : consistent w -> safe w.
Proof. by intros (_ & Hs & _). Qed.

Lemma durable_covered w : durable w -> covered (store w) (record w).
Proof. intros Hd l' i c Hl Hi Ha. unfold durable in Hd. rewrite Hd in Hl. simplify_eq. eauto. Qed.
(** *** Sinks *)

Lemma lok_sink_all s s' l :
  lok s l -> (forall e d, V s e d -> V s' e d) -> lok s' l.
Proof.
  intros [Hval Hall] HV. constructor; [done|]. eapply Forall2_impl; [exact Hall|].
  intros e c Hc. eapply checkpoint_ok_weaken; [|exact Hc]. auto.
Qed.

Lemma lok_sink s s' l i e c :
  lok s l -> entries m !! i = Some e -> rl_entries l !! i = Some c ->
  cp_arbiter c <> PayloadCompleteChosen ->
  (forall e' d, entry_id e' <> entry_id e -> V s e' d -> V s' e' d) -> lok s' l.
Proof.
  intros [Hval Hall] He Hi Ha HV. constructor; [done|].
  apply Forall2_same_length_lookup. split; [exact (Forall2_length _ _ _ Hall)|].
  intros j e' c' He' Hc'. pose proof (Forall2_lookup_lr _ _ _ _ _ _ Hall He' Hc') as Hok.
  eapply checkpoint_ok_weaken; [|exact Hok]. intros d Hset. apply HV.
  rewrite (entry_id_index is_nfc m Hv _ _ He), (entry_id_index is_nfc m Hv _ _ He').
  intros Heq%Nat2Z.inj. subst. congruence.
Qed.

Lemma safe_sink_all w w' s' :
  safe w -> core w' = (record w, store w, s', outgoing w) ->
  (forall e d, V (sink w) e d -> V s' e d) -> safe w'.
Proof.
  intros [(l & Ho & Hl) Hout] (_ & Hs & Hk & Hout')%core_inv HV. unfold safe.
  rewrite Hs, Hk, Hout'. split; [|done]. exists l. split; [done|]. by eapply lok_sink_all.
Qed.

Lemma consistent_sink_all w w' s' :
  consistent w -> core w' = (record w, store w, s', outgoing w) ->
  (forall e d, V (sink w) e d -> V s' e d) -> ss_good s' -> consistent w'.
Proof.
  intros (Hl & Hs & Hc & _) Hcore HV Hg. pose proof (safe_sink_all _ _ _ Hs Hcore HV) as Hs'.
  apply core_inv in Hcore as (Hr & Hf & Hk & Ho). unfold consistent. rewrite Hr, Hf, Hk in *.
  split; [by eapply lok_sink_all|done].
Qed.

(** A call for an entry that is not complete. *)
Lemma consistent_sink w w' s' i e c :
  consistent w -> core w' = (record w, store w, s', outgoing w) ->
  entries m !! i = Some e -> rl_entries (record w) !! i = Some c ->
  cp_arbiter c <> PayloadCompleteChosen ->
  (forall e' d, entry_id e' <> entry_id e -> V (sink w) e' d -> V s' e' d) ->
  safe w' /\ (ss_good s' -> consistent w').
Proof.
  intros (Hl & [(l & Ho & Hol) Hout] & Hc & _) (Hr & Hf & Hk & Hout')%core_inv He Hi Ha HV.
  assert (Hs : safe w').
  { unfold safe. rewrite Hf, Hk, Hout'. split; [|done]. exists l. split; [done|].
    destruct (lookup_lt_is_Some_2 (rl_entries l) i) as [c' Hc'].
    { rewrite <- (Forall2_length _ _ _ (lo_entries _ _ _ _ _ Hol)). by eapply lookup_lt_Some. }
    eapply (lok_sink _ _ _ i e c'); [done|done|done| |done].
    intros Hset. destruct (Hc l i c' Ho Hc' Hset) as (c'' & Hc'' & Hset'). simplify_eq. }
  split; [done|]. intros Hg. unfold consistent. rewrite Hr, Hf, Hk. split; [by eapply lok_sink|done].
Qed.

(** *** Steps on the ledger *)

Lemma wp_entry_at i c (Q : ReceiverEntryCheckpointV2 -> world -> Prop) X w :
  rl_entries (record w) !! i = Some c -> Q c w -> wp (entry_at (Z.of_nat i)) Q X w.
Proof.
  intros Hc HQ. unfold entry_at. apply wp_bind, wp_get_record, wp_pure.
  - intros a Ha. unfold index_at in Ha. rewrite vec_get_nat, Hc in Ha. cbn in Ha. by inv_ok.
  - intros e' He'. unfold index_at in He'. rewrite vec_get_nat, Hc in He'. done.
Qed.

Lemma wp_modify i c f (Q : unit -> world -> Prop) X w :
  rl_entries (record w) !! i = Some c ->
  (forall w', core w' = (alter_entry (Z.of_nat i) f (record w), store w, sink w, outgoing w) ->
     incoming w' = incoming w -> rl_entries (record w') !! i = Some (f c) -> Q tt w') ->
  wp (modify_entry (Z.of_nat i) f) Q X w.
Proof.
  intros Hc HQ. unfold modify_entry. apply wp_bind. eapply wp_entry_at; [done|].
  apply wp_bind, wp_get_record, wp_put_record. intros w' Hw Hin. apply HQ; [done|done|].
  apply core_inv in Hw as (-> & _). cbn. by rewrite Nat2Z.id, list_lookup_alter_eq, Hc.
Qed.

Lemma wp_save_ledger (Q : unit -> world -> Prop) w :
  consistent w ->
  (forall w', consistent w' -> durable w' -> record w' = record w -> sink w' = sink w ->
     outgoing w' = outgoing w -> incoming w' = incoming w -> Q tt w') ->
  mwp (save_ledger ledger_to_vec) Q w.
Proof.
  intros (Hl & [(l & Ho & Hol) Hout] & Hcov & Hg) HQ. apply wp_save_record.
  intros fault fs r w' Hsave (Hr & Hf & Hk & Hout')%core_inv Hin.
  pose proof (ledger_ok_identity _ _ _ _ _ Hl) as Hid.
  assert (Hsafe : load fs = Ok (Some (record w)) -> consistent w').
  { intros Hload. unfold consistent, safe. rewrite Hr, Hf, Hk, Hout'. split; [done|].
    split; [split; [|done]; by exists (record w)|]. split; [|done].
    intros l' i c Hl' Hi Ha. rewrite Hload in Hl'. simplify_eq. eauto. }
  destruct (ledger_save_cases _ _ serde _ _ _ _ _ Hsave) as [[Hne Hsame]|[Hload _]].
  - destruct r as [[]|er]; [done|]. unfold safe. rewrite Hf, Hk, Hout'. split; [|done].
    exists l. by rewrite Hsame.
  - rewrite Hid in Hload. destruct r as [[]|er].
    + apply HQ; [by apply Hsafe| |done..]. unfold durable. by rewrite Hf, Hr.
    + apply consistent_safe. by apply Hsafe.
Qed.

Lemma consistent_modify w w' i e c f :
  consistent w -> core w' = (alter_entry (Z.of_nat i) f (record w), store w, sink w, outgoing w) ->
  entries m !! i = Some e -> rl_entries (record w) !! i = Some c ->
  (cp_arbiter c = PayloadCompleteChosen -> cp_arbiter (f c) = PayloadCompleteChosen) ->
  (checkpoint_ok blake3 m (V (sink w)) (rl_accept (record w)) e c ->
   checkpoint_ok blake3 m (V (sink w)) (rl_accept (record w)) e (f c)) -> consistent w'.
Proof.
  intros (Hl & Hs & Hcov & Hg) (Hr & Hf & Hk & Hout)%core_inv He Hi Ha Hok. unfold consistent, safe.
  rewrite Hr, Hf, Hk, Hout. split; [|split; [done|split; [|done]]].
  - eapply ledger_ok_alter; [done..|]. intros c' Hc'. by simplify_eq.
  - intros l' j c' Hl' Hj Hset. destruct (Hcov l' j c' Hl' Hj Hset) as (c'' & Hc'' & Hset').
    cbn. rewrite Nat2Z.id. destruct (decide (i = j)) as [<-|Hne].
    + rewrite list_lookup_alter_eq, Hi. cbn. simplify_eq. eauto.
    + rewrite list_lookup_alter_ne by done. eauto.
Qed.

Lemma consistent_send f w w' :
  consistent w -> core w' = (record w, store w, sink w, outgoing w ++ [(f, store w)]) ->
  backed f (store w) -> consistent w'.
Proof.
  intros (Hl & [Hd Hout] & Hc) (Hr & Hf & Hk & Ho)%core_inv Hb. unfold consistent, safe.
  rewrite Hr, Hf, Hk, Ho. split; [done|]. split; [|done]. split; [done|].
  apply Forall_app. split; [done|]. by constructor.
Qed.

(** ** One entry *)

Section Entry.
Context (i : nat) (e : ManifestEntryV2) (He : entries m !! i = Some e) (total : Z).
(** A property of the ledger that does not depend on this entry. *)
Context (P : ReceiverDataPlaneLedgerV2 -> Prop).
Context (HP : forall f l, P l -> P (alter_entry (Z.of_nat i) f l)).
Local Notation IX := (Z.of_nat i).

(** The entry still takes payload, or was chosen for reuse. *)
Definition at_entry c w : Prop :=
  consistent w /\ P (record w) /\ rl_entries (record w) !! i = Some c /\
  cp_arbiter c <> PayloadCompleteChosen /\ cp_result c = None.

(** The entry needs no more frames. *)
Definition entry_done (_ : unit) w : Prop :=
  consistent w /\ P (record w) /\ exists c, rl_entries (record w) !! i = Some c /\
    is_Some (cp_completion c) /\ cp_arbiter c <> PayloadOpen.

Lemma at_entry_ok c w : at_entry c w ->
  checkpoint_ok blake3 m (V (sink w)) (rl_accept (record w)) e c.
Proof.
  intros (([_ Hall] & _) & _ & Hi & _). exact (Forall2_lookup_lr _ _ _ _ _ _ Hall He Hi).
Qed.

Lemma at_entry_core c w w' : core w' = core w -> at_entry c w -> at_entry c w'.
Proof.
  intros Hcore (Hcon & HPw & Hi & Ha & Hr). pose proof (consistent_core _ _ Hcore Hcon).
  apply core_same in Hcore as (Hrec & _). unfold at_entry. by rewrite Hrec.
Qed.

Lemma at_entry_safe c w : at_entry c w -> safe w.
Proof. intros (Hcon & _). by apply consistent_safe. Qed.

Lemma entry_size_nonneg : 0 <= plaintext_size e.
Proof.
  assert (Hin : e ∈ entries m) by (apply list_elem_of_lookup; eauto).
  pose proof (wf_manifest_entry m e Hwf Hin) as Hw. unfold wf_entry, is_u64 in Hw. bool_prop. done.
Qed.

(** Reading, assigning and saving the checkpoint. *)
Lemma at_entry_read c w (Q : ReceiverEntryCheckpointV2 -> world -> Prop) X :
  at_entry c w -> Q c w -> wp (entry_at IX) Q X w.
Proof. intros (_ & _ & Hi & _) HQ. by eapply wp_entry_at. Qed.

Lemma at_entry_modify c f w (Q : unit -> world -> Prop) X :
  at_entry c w -> cp_arbiter (f c) <> PayloadCompleteChosen -> cp_result (f c) = None ->
  (checkpoint_ok blake3 m (V (sink w)) (rl_accept (record w)) e c ->
   checkpoint_ok blake3 m (V (sink w)) (rl_accept (record w)) e (f c)) ->
  (forall w', at_entry (f c) w' -> incoming w' = incoming w -> sink w' = sink w -> Q tt w') ->
  wp (modify_entry IX f) Q X w.
Proof.
  intros (Hcon & HPw & Hi & Ha & Hr) Ha' Hr' Hok HQ. eapply wp_modify; [done|].
  intros w' Hcore Hin Hi'. pose proof (core_inv _ _ _ _ _ Hcore) as (Hrec & _ & Hk & _).
  apply HQ; [|done|done]. split; [by eapply consistent_modify|]. rewrite Hrec in *. auto.
Qed.

Lemma at_entry_save c w (Q : unit -> world -> Prop) :
  at_entry c w ->
  (forall w', at_entry c w' -> durable w' -> incoming w' = incoming w -> sink w' = sink w -> Q tt w') ->
  mwp (save_ledger ledger_to_vec) Q w.
Proof.
  intros (Hcon & HPw & Hi & Ha & Hr) HQ. apply wp_save_ledger; [done|].
  intros w' Hcon' Hd Hrec Hk _ Hin. apply HQ; [|done..]. unfold at_entry. by rewrite Hrec.
Qed.

(** A call of the sink for this entry. *)
Lemma at_entry_sink {A} c w (op : S -> S * data A) (Q : A -> world -> Prop) X :
  at_entry c w ->
  (forall s s' r e' d, op s = (s', r) -> entry_id e' <> entry_id e -> V s e' d -> V s' e' d) ->
  (forall s s' a, op s = (s', Ok a) -> ss_good s -> ss_good s') ->
  (forall er w', safe w' -> X er w') ->
  (forall a w', at_entry c w' -> incoming w' = incoming w -> op (sink w) = (sink w', Ok a) -> Q a w') ->
  wp (call_sink op) Q X w.
Proof.
  intros Hat Hkeep Hgood HX HQ. pose proof Hat as (Hcon & HPw & Hi & Ha & Hr).
  apply wp_call_sink. intros s r w' Hop Hcore Hin.
  pose proof (core_inv _ _ _ _ _ Hcore) as (Hrec & _ & Hk & _).
  destruct (consistent_sink w w' s i e c) as [Hs' Hcon']; [done..|intros; by eapply Hkeep|].
  destruct r as [a|er]; [|by apply HX]. apply HQ; [|done|by rewrite Hk].
  split; [|by rewrite Hrec]. apply Hcon'. eapply Hgood; [exact Hop|]. apply Hcon.
Qed.
(** An assignment [h] to the checkpoint that is not yet consistent. *)
Definition pending (h : ReceiverEntryCheckpointV2 -> ReceiverEntryCheckpointV2) c w : Prop :=
  exists w0, at_entry c w0 /\
    core w = (alter_entry IX h (record w0), store w0, sink w0, outgoing w0).

Lemma alter_entry_alter f h l : alter_entry IX f (alter_entry IX h l) = alter_entry IX (f ∘ h) l.
Proof.
  unfold alter_entry, set_rl_entries. cbn [rl_entries rl_schema_version rl_identity rl_manifest_digest
    rl_accept rl_accept_body_digest rl_sender_completion_set_digest]. by rewrite list_alter_alter_eq.
Qed.

Lemma at_entry_pending c w : at_entry c w -> pending (fun c => c) c w.
Proof.
  intros Hat. exists w. split; [done|]. unfold core, alter_entry. rewrite list_alter_id by done.
  by destruct (record w).
Qed.

Lemma pending_core h c w w' : core w' = core w -> pending h c w -> pending h c w'.
Proof. intros Hcore (w0 & Hat & Hw). exists w0. by rewrite Hcore. Qed.

Lemma pending_safe h c w : pending h c w -> safe w.
Proof.
  intros (w0 & Hat & (_ & Hf & Hk & Ho)%core_inv). unfold safe. rewrite Hf, Hk, Ho.
  by apply (at_entry_safe c).
Qed.

Lemma pending_lookup h c w : pending h c w -> rl_entries (record w) !! i = Some (h c).
Proof.
  intros (w0 & (_ & _ & Hi & _) & (Hr & _)%core_inv). rewrite Hr. cbn.
  by rewrite Nat2Z.id, list_lookup_alter_eq, Hi.
Qed.

(** The assignment that makes the ledger consistent again. *)
Lemma pending_modify h c f w (Q : unit -> world -> Prop) X :
  pending h c w ->
  (forall V' accept, checkpoint_ok blake3 m V' accept e c -> V' = V (sink w) ->
     checkpoint_ok blake3 m V' accept e (f (h c))) ->
  (forall w', consistent w' -> P (record w') -> rl_entries (record w') !! i = Some (f (h c)) ->
     incoming w' = incoming w -> Q tt w') ->
  wp (modify_entry IX f) Q X w.
Proof.
  intros Hp Hok HQ. eapply wp_modify; [by eapply pending_lookup|]. intros w' Hcore Hin Hi.
  destruct Hp as (w0 & Hat & Hw). pose proof Hat as (Hcon & HPw & Hi0 & Ha & _).
  pose proof (core_inv _ _ _ _ _ Hw) as (Hr & Hf & Hk & Ho).
  rewrite Hr, Hf, Hk, Ho, alter_entry_alter in Hcore.
  apply HQ; [|apply core_inv in Hcore as (-> & _); by apply HP|done|done].
  eapply (consistent_modify w0 w' i e c (f ∘ h)); [done|done|done|done|done|].
  intros Hc. cbn. apply Hok; [done|]. by rewrite Hk.
Qed.

Lemma retire_mismatch_safe h c w :
  pending h c w -> retire_checkpoint e (h c) = retire_checkpoint e c ->
  mwp (retire_mismatch ledger_to_vec e IX) (fun _ => safe) w.
Proof.
  intros Hp Heq. unfold retire_mismatch. apply wp_bind.
  assert (Hc : exists w0, at_entry c w0) by (destruct Hp as (w0 & Hat & _); eauto).
  destruct Hc as (w0 & Hat). destruct Hat as (_ & _ & _ & Ha & Hr).
  eapply pending_modify; [done| |].
  { intros V' accept Hc _. rewrite Heq. apply retire_ok; [done|done|done|apply entry_size_nonneg]. }
  intros w1 Hcon HP1 Hi1 _. assert (Hat1 : at_entry (retire_checkpoint e c) w1).
  { split; [done|]. split; [done|]. rewrite Hi1, Heq. done. }
  apply wp_bind. eapply at_entry_save; [done|]. intros w2 Hat2 _ _ _.
  pose proof Hat2 as (Hcon2 & _ & Hi2 & _). apply wp_call_sink. intros s r w' Hop Hcore _.
  destruct (consistent_sink w2 w' s i e (retire_checkpoint e c)) as [Hs' _];
    [done..|intros; by eapply ss_retire|]. by destruct r.
Qed.

(** A completion that both ends agree on. *)
Definition completes (k : EntryCompleteV2) c : Prop :=
  ec_identity k = ID /\ ec_entry_id k = entry_id e /\ ec_final_size k = plaintext_size e /\
  cp_content_digest c = Some (ec_final_digest k) /\ kind e = RegularFile.

Lemma finish_entry k c w :
  consistent w -> P (record w) -> rl_entries (record w) !! i = Some c ->
  cp_completion c = Some k -> cp_arbiter c <> PayloadOpen ->
  mwp (save_ledger ledger_to_vec) entry_done w.
Proof.
  intros Hcon HPw Hi Hk Ha. apply wp_save_ledger; [done|]. intros w' Hcon' _ Hr _ _ _.
  split; [done|]. rewrite Hr. split; [done|]. exists c. by rewrite Hk.
Qed.

Lemma receive_file_completion_ok k c w :
  pending (set_cp_completion (Some k)) c w -> completes k c ->
  mwp (receive_file_completion ledger_to_vec e IX (ec_final_digest k)) entry_done w.
Proof.
  intros Hp (Hid & Heid & Hsize & Hd & Hkind). unfold receive_file_completion. apply wp_bind.
  eapply wp_entry_at; [by eapply pending_lookup|]. cbn [cp_completion set_cp_completion ok_or].
  apply wp_bind, wp_pure; [|done]. intros ? [= <-].
  assert (Hc : exists w0, at_entry c w0) by (destruct Hp as (w0 & Hat & _); eauto).
  destruct Hc as (w0 & Hat). destruct Hat as (_ & _ & _ & Ha & Hr).
  destruct (completion_choice k) eqn:Hch; apply wp_bind.
  - cbn [cp_arbiter cp_plaintext_bytes set_cp_completion]. destruct (_ || _) eqn:Hguard.
    + apply wp_bind. eapply wp_mono; [by eapply retire_mismatch_safe| |done].
      intros ? w' Hsafe. by apply wp_throw.
    + bool_prop. apply wp_bind, wp_attempt.
      destruct Hp as (w1 & Hat1 & Hw). pose proof (core_inv _ _ _ _ _ Hw) as (Hrw & Hfw & Hkw & How).
      apply wp_call_sink. intros s r w2 Hop Hcore2 Hin2.
      assert (Hkeep : forall e' d', V (sink w1) e' d' -> V s e' d').
      { intros e' d' HV. rewrite Hkw in Hop. by eapply ss_verify. }
      assert (Hp2 : pending (set_cp_completion (Some k)) c w2).
      { exists (mkWorld (incoming w1) (outgoing w1) (sends_left w1) (save_faults w1) (store w1)
          (record w1) s (completed w1) (reports w1)).
        split; [|by rewrite Hcore2, Hrw, Hfw, How]. destruct Hat1 as (Hcon1 & HP1 & Hi1).
        split; [|done]. eapply (consistent_sink_all w1); [done|done|done|].
        eapply ss_good_verify; [exact Hop|]. rewrite Hkw. apply Hcon1. }
      destruct r as [[]|er].
      * apply wp_bind. eapply pending_modify; [done| |].
        { intros V' accept Hok ->. apply complete_ok; try done.
          apply core_inv in Hcore2 as (_ & _ & -> & _). eapply ss_verified; [exact Hop|].
          rewrite Hkw. apply (proj1 Hat1). }
        intros w3 Hcon3 HP3 Hi3 _. apply wp_save_ledger; [done|].
        intros w4 Hcon4 _ Hr4 _ _ _. apply wp_bind. eapply wp_modify; [by rewrite Hr4|].
        intros w5 Hcore5 _ Hi5. eapply (finish_entry k); [| |done|done|done].
        -- eapply consistent_modify; [done|done|done|by rewrite Hr4|done|].
           intros Hok5. by destruct c, Hok5; constructor.
        -- apply core_inv in Hcore5 as (-> & _). rewrite Hr4. by apply HP.
      * apply wp_bind. eapply wp_mono; [by eapply retire_mismatch_safe| |done].
        intros ? w' Hsafe. by apply wp_throw.
  - apply wp_throw_if; [intros _; by eapply pending_safe|]. intros Hguard. bool_prop.
    cbn [cp_arbiter set_cp_completion] in Hguard. apply wp_bind.
    eapply pending_modify; [done| |].
    { intros V' accept Hok _. change (set_cp_completion _ _) with (set_cp_completion (Some k) c).
      apply completion_ok; [done|by rewrite Hguard| |done].
      unfold completion_from_resume_checkpoint. cbn. rewrite Hguard, Hd. cbn.
      destruct k. cbn in *. by subst. }
    intros w3 Hcon3 HP3 Hi3 _. eapply (finish_entry k); [done|done|done|done|].
    cbn. by rewrite Hguard.
Qed.
(** *** The frames of a file *)

Context (accept : ManifestAcceptV2) (HPa : forall l, P l -> rl_accept l = accept).
Context (Hfile : kind e = RegularFile).

(** An entry planned for reuse takes no payload. *)
Definition loop_ok c w : Prop :=
  at_entry c w /\
  forall plan, vec_get (entry_plans accept) (entry_id e) = Some plan ->
    disposition plan = DispositionReuseExisting -> cp_arbiter c = ArbiterReuseChosen.

Lemma loop_ok_same c c' w w' :
  loop_ok c w -> at_entry c' w' -> cp_arbiter c' = cp_arbiter c -> loop_ok c' w'.
Proof. intros [_ Hp] Hat Ha. split; [done|]. by rewrite Ha. Qed.

Lemma digest_refused_ok c d w (Q : bool -> world -> Prop) X :
  at_entry c w ->
  (forall w', at_entry c w' -> incoming w' = incoming w -> Q true w') ->
  (forall c' w', at_entry c' w' -> incoming w' = incoming w -> cp_content_digest c' = Some d ->
     cp_arbiter c' = cp_arbiter c -> cp_plaintext_bytes c' = cp_plaintext_bytes c -> Q false w') ->
  wp (digest_refused IX d) Q X w.
Proof.
  intros Hat HQt HQf. unfold digest_refused. apply wp_bind. eapply at_entry_read; [done|].
  apply wp_bind. pose proof Hat as (_ & _ & _ & Ha & Hr).
  assert (Hsame : cp_arbiter (fst (set_or_equal_digest c d)) = cp_arbiter c /\
    cp_result (fst (set_or_equal_digest c d)) = cp_result c /\
    cp_plaintext_bytes (fst (set_or_equal_digest c d)) = cp_plaintext_bytes c).
  { unfold set_or_equal_digest. destruct (cp_content_digest c); [by case_bool_decide|done]. }
  destruct Hsame as (Ha' & Hr' & Hb').
  eapply (at_entry_modify c (fun c => fst (set_or_equal_digest c d)));
    [done|by rewrite Ha'|by rewrite Hr'| |].
  { intros Hok. by apply set_or_equal_ok. }
  intros w' Hat' Hin _. apply wp_ret. destruct (set_or_equal_digest c d) as [c' r] eqn:Hs.
  destruct r as [[]|er]; cbn in *.
  - eapply HQf; [done|done| |done|done]. by eapply set_or_equal_digest_set.
  - apply HQt; [|done]. revert Hs. unfold set_or_equal_digest.
    destruct (cp_content_digest c); [case_bool_decide|]; intros [= <- ?]; done.
Qed.

Lemma retire_then_throw {A} c er (Q : A -> world -> Prop) w :
  at_entry c w -> mwp (_ ← retire_mismatch ledger_to_vec e IX; throw er) Q w.
Proof.
  intros Hat. apply wp_bind. eapply wp_mono;
    [eapply (retire_mismatch_safe (fun c => c) c); [by apply at_entry_pending|done]| |done].
  intros ? w' Hsafe. by apply wp_throw.
Qed.

Lemma backed_digest c w d :
  at_entry c w -> durable w -> cp_content_digest c = Some d ->
  backed (EntryContentDigest (mkContentDigest ID (entry_id e) d
    (if bool_decide (cp_arbiter c = ArbiterReuseChosen)
     then DecisionReuseExisting else ContinuePayload))) (store w).
Proof.
  intros (_ & _ & Hi & _) Hd Hdig. exists (record w). split; [done|]. exists c. cbn.
  by rewrite (entry_id_index is_nfc m Hv _ _ He), vec_get_nat.
Qed.

Lemma receive_digest_ok c f w :
  loop_ok c w ->
  mwp (receive_digest ledger_to_vec e IX total f) (fun _ w' => exists c', loop_ok c' w') w.
Proof.
  intros Hloop. pose proof (proj1 Hloop) as Hat. unfold receive_digest. apply wp_bind, wp_get_record.
  pose proof Hat as ((Hlok & _) & _). rewrite (ledger_ok_identity _ _ _ _ _ Hlok).
  destruct (_ || _); [apply wp_throw; by eapply at_entry_safe|].
  destruct (negb _); [apply wp_throw; by eapply at_entry_safe|].
  apply wp_bind. eapply digest_refused_ok; [done| |].
  { intros w' Hat' _. by eapply retire_then_throw. }
  intros c1 w1 Hat1 _ Hd1 Ha1 _. pose proof (loop_ok_same _ _ _ _ Hloop Hat1 Ha1) as Hloop1.
  apply wp_bind. eapply at_entry_read; [done|]. apply wp_bind.
  assert (Hrest : forall c2 w2, loop_ok c2 w2 -> cp_content_digest c2 = Some (cd_digest f) ->
    mwp (_ ← save_ledger ledger_to_vec; c ← entry_at IX;
         send_frame (EntryContentDigest (mkContentDigest ID (entry_id e) (cd_digest f)
           (if bool_decide (cp_arbiter c = ArbiterReuseChosen)
            then DecisionReuseExisting else ContinuePayload))))
      (fun _ w' => exists c', loop_ok c' w') w2).
  { intros c2 w2 Hloop2 Hd2. apply wp_bind. eapply at_entry_save; [apply Hloop2|].
    intros w3 Hat3 Hdur _ _. apply wp_bind. eapply at_entry_read; [done|].
    apply wp_send; [by eapply at_entry_safe|]. intros w4 Hcore4 _. exists c2.
    apply (loop_ok_same c2 c2 w2); [done| |done]. destruct Hat3 as (Hcon3 & HP3 & Hi3 & Ha3).
    pose proof (core_inv _ _ _ _ _ Hcore4) as (Hr4 & _). unfold at_entry. rewrite Hr4.
    split; [|done]. eapply consistent_send; [done|done|]. by apply (backed_digest c2). }
  case_bool_decide as Hopen; [|apply wp_ret; apply wp_bind, wp_ret; by apply (Hrest c1)].
  eapply at_entry_sink; [done|intros; by eapply ss_reuse|intros; by eapply ss_good_reuse|done|].
  intros [|] w2 Hat2 _ _; apply wp_bind.
  - apply wp_bind. pose proof Hat2 as (_ & _ & _ & _ & Hr2).
    eapply (at_entry_modify c1 (fun c => set_cp_boundary 0 0 (set_cp_arbiter ArbiterReuseChosen c)));
      [done|done|done| |].
    { intros Hok. apply reuse_ok; [done|done|done|by rewrite Hd1]. }
    intros w3 Hat3 _ _. apply wp_advance; [by eapply at_entry_safe|]. intros w4 Hcore4 _.
    apply (Hrest (set_cp_boundary 0 0 (set_cp_arbiter ArbiterReuseChosen c1))); [|exact Hd1].
    split; [by eapply at_entry_core|done].
  - apply wp_ret, (Hrest c1); [|done]. by apply (loop_ok_same c1 c1 w1).
Qed.

Lemma receive_block_ok c b w :
  loop_ok c w ->
  mwp (receive_block zstd_decompress ledger_to_vec e IX total b)
    (fun _ w' => exists c', loop_ok c' w') w.
Proof.
  intros Hloop. pose proof (proj1 Hloop) as Hat. unfold receive_block. apply wp_bind.
  eapply at_entry_read; [done|]. apply wp_bind, wp_pure; [|intros ? _; by eapply at_entry_safe].
  intros [] Hval. destruct (negb _) eqn:Hopen; bool_prop; [apply wp_throw; by eapply at_entry_safe|].
  apply wp_bind, wp_pure; [|intros ? _; by eapply at_entry_safe]. intros start _.
  apply wp_bind, wp_pure; [|intros ? _; by eapply at_entry_safe]. intros pb Hdec.
  assert (Hlen : 0 < plaintext_length b).
  { unfold decode_block in Hdec. unfold validate_block in Hval. inv_ok. bool_prop.
    match goal with Hx : zlen ?l = plaintext_length b |- _ => pose proof (zlen_nonneg l) end. lia. }
  apply wp_bind. eapply at_entry_sink; 
    [done|intros; by eapply ss_write|intros ? ? []; by apply ss_good_write|done|].
  intros [] w1 Hat1 _ _. apply wp_bind, wp_pure; [|intros ? _; by eapply at_entry_safe].
  intros next Hnext. inv_ok. apply checked_add_Some in Hnext as [-> _].
  apply wp_bind. eapply wp_modify; [exact (proj1 (proj2 (proj2 Hat1)))|]. intros w2 Hcore2 _ Hi2.
  assert (Hp2 : pending (fun c0 => set_cp_boundary (cp_next_plaintext_block c + 1)
    (cp_plaintext_bytes c0) c0) c w2) by (by exists w1).
  apply wp_bind, wp_pure; [|intros ? _; by eapply pending_safe].
  intros stop Hstop. inv_ok. apply checked_add_Some in Hstop as [-> _].
  apply wp_bind. pose proof Hat1 as (_ & HP1 & _ & Ha1 & Hr1).
  eapply wp_modify; [exact (pending_lookup _ _ _ Hp2)|]. intros w3 Hcore3 _ Hi3.
  pose proof (core_inv _ _ _ _ _ Hcore2) as (Hrec2 & Hf2 & Hk2 & Ho2).
  rewrite Hrec2, Hf2, Hk2, Ho2, alter_entry_alter in Hcore3.
  assert (Hat3 : at_entry (set_cp_boundary (cp_next_plaintext_block c + 1)
    (plaintext_offset b + plaintext_length b) c) w3).
  { split; [|split; [apply core_inv in Hcore3 as (-> & _); by apply HP|by rewrite Hi3]].
    eapply (consistent_modify w1 w3 i e c); [apply Hat1|done|done|exact (proj1 (proj2 (proj2 Hat1)))|done|].
    intros Hok. refine (block_ok blake3 m _ _ e c b Hok Hopen Hval Hlen entry_size_nonneg _).
    intros plan Hplan. destruct (disposition plan) eqn:Hdisp; [done|].
    rewrite (HPa _ HP1) in Hplan. by rewrite (proj2 Hloop plan Hplan Hdisp) in Hopen. }
  apply wp_bind. eapply at_entry_save; [done|]. intros w4 Hat4 _ _ _.
  apply wp_bind, wp_report. intros w5 Hcore5 _.
  pose proof (at_entry_core _ _ _ Hcore5 Hat4) as Hat5. apply wp_advance; [by eapply at_entry_safe|].
  intros w6 Hcore6 _. pose proof (at_entry_core _ _ _ Hcore6 Hat5) as Hat6.
  eexists. by eapply (loop_ok_same c _ w).
Qed.

Lemma receive_complete_ok c k w :
  loop_ok c w -> mwp (receive_complete ledger_to_vec e IX k) entry_done w.
Proof.
  intros Hloop. pose proof (proj1 Hloop) as Hat. unfold receive_complete. apply wp_bind, wp_get_record.
  pose proof Hat as ((Hlok & _) & _). rewrite (ledger_ok_identity _ _ _ _ _ Hlok).
  destruct (_ || _) eqn:Hid; [apply wp_throw; by eapply at_entry_safe|]. bool_prop.
  apply wp_bind. eapply digest_refused_ok; [done| |].
  { intros w' Hat' _. by eapply retire_then_throw. }
  intros c1 w1 Hat1 _ Hd1 Ha1 _. destruct (negb _) eqn:Hsize; bool_prop; [by eapply retire_then_throw|].
  apply wp_bind. eapply wp_modify; [exact (proj1 (proj2 (proj2 Hat1)))|]. intros w2 Hcore2 _ _.
  assert (Hp2 : pending (set_cp_completion (Some k)) c1 w2) by (by exists w1).
  apply wp_bind, wp_report. intros w3 Hcore3 _. apply wp_bind, wp_attempt.
  eapply wp_mono; [eapply (receive_file_completion_ok k c1);
    [by eapply pending_core|by repeat split]| |].
  - intros [] w4 Hdone. apply wp_bind, wp_report. intros w5 Hcore5 _. apply wp_pure; [|done].
    intros [] _. destruct Hdone as (Hcon & HPd & c' & Hc').
    split; [by eapply consistent_core|]. apply core_same in Hcore5 as (-> & _). eauto.
  - intros er w4 Hsafe. apply wp_bind, wp_report. intros w5 Hcore5 _. apply wp_pure; [done|].
    intros _ _. by eapply safe_core.
Qed.

Lemma receive_frames_ok fuel c w :
  loop_ok c w ->
  mwp (receive_frames zstd_decompress ledger_to_vec fuel e IX total) entry_done w.
Proof.
  revert c w. induction fuel as [|fuel IH]; intros c w Hloop; cbn [receive_frames].
  { apply wp_throw. by eapply at_entry_safe, (proj1 Hloop). }
  apply wp_bind, wp_get_record. apply wp_bind, wp_recv; [by eapply at_entry_safe, (proj1 Hloop)|].
  intros f w1 Hcore1 _. pose proof (at_entry_core _ _ _ Hcore1 (proj1 Hloop)) as Hat1.
  pose proof (loop_ok_same _ _ _ _ Hloop Hat1 eq_refl) as Hloop1.
  destruct f; try (apply wp_throw; by eapply at_entry_safe).
  - apply wp_bind. eapply wp_mono; [by eapply receive_digest_ok| |done].
    intros [] w2 (c2 & Hloop2). by eapply IH.
  - apply wp_bind. eapply wp_mono; [by eapply receive_block_ok| |done].
    intros [] w2 (c2 & Hloop2). by eapply IH.
  - by eapply receive_complete_ok.
Qed.
End Entry.
End Safety.
