(* ===== verification/ProviderSafe.v ===== *)
(** The local provider keeps the promises the data plane relies on: a payload it
    verified stays, in its staging file or at its final place, whatever is done
    for other entries and however the commit of the job ends. *)

From stdpp Require Import prelude gmap strings pretty.
From Stdlib Require Import ZArith Lia Strings.Byte.
From S2P Require Import Prelude Bytes ManifestV2 OfferCodec Frames Delivery Ledger Names Proc.
From S2P Require Import ReceivePlane ReceiveInv LocalFs Destination Provider ProviderCommit FsProof.

Local Open Scope Z_scope.

(** ** The layout of a provider *)

Definition holds (fs : Fs) (q : path) (c : list byte) : Prop :=
  exists i, nodes fs !! q = Some (FileNode i) /\ contents fs !! i = Some c.

Definition same_job (p p' : Provider) : Prop :=
  pv_plan p' = pv_plan p /\ pv_manifest p' = pv_manifest p /\ entry_paths p' = entry_paths p /\
  entry_overrides p' = entry_overrides p.

#[export] Instance same_job_preorder : PreOrder same_job.
Proof. split; [done|]. intros a b c (? & ? & ? & ?) (? & ? & ? & ?). repeat split; congruence. Qed.

(** Plans whose private directories are apart from what they save.  The root
    names of a direct save are not those of the private directories; the staging
    directory is in the private one, or, for a copy, apart from the target. *)
Record plan_apart (plan : DestinationWritePlanV2) : Prop := {
  pa_private : pl_mode plan = DirectSave -> forall rid rp, vec_get (pl_root_plans plan) rid = Some rp ->
    planned_name rp <> STAGING_NAME /\ planned_name rp <> RESERVATIONS_NAME;
  pa_direct : pl_mode plan = DirectSave ->
    join (pl_target_directory plan) STAGING_NAME `prefix_of` pl_staging_directory plan;
  pa_copy : pl_mode plan = CopyAfterVerify ->
    ~ pl_target_directory plan `prefix_of` pl_staging_directory plan /\
    ~ pl_staging_directory plan `prefix_of` pl_target_directory plan;
  pa_reservations : forall r, r ∈ reservations plan ->
    parent r = Some (join (pl_target_directory plan) RESERVATIONS_NAME);
}.

(** The final place of a staged path. *)
Definition placed (p : Provider) (q q' : path) : Prop :=
  exists rid rel t, q = root_staging_path p rid ++ rel /\
    target_path_for_root (pv_plan p) rid = Some t /\ q' = t ++ rel.

Record layout (p : Provider) : Prop := {
  ly_plan : plan_apart (pv_plan p);
  ly_paths : NoDup (entry_paths p);
  ly_roots : forall q, q ∈ entry_paths p -> exists rid rel, q = root_staging_path p rid ++ rel;
  ly_fs : fs_wf (pv_fs p);
  (** The file of an open payload has no path but the entry's. *)
  ly_handles : forall eid pl, payloads p !! eid = Some pl -> op_file pl < next_ino (pv_fs p) /\
    forall q, nodes (pv_fs p) !! q = Some (FileNode (op_file pl)) -> vec_get (entry_paths p) eid = Some q;
}.

Lemma vec_get_elem {A} (l : list A) i x : vec_get l i = Some x -> x ∈ l.
Proof. intros [_ Hx]%vec_get_Some. by eapply list_elem_of_lookup_2. Qed.

Lemma paths_apart p i j q :
  layout p -> vec_get (entry_paths p) i = Some q -> vec_get (entry_paths p) j = Some q -> i = j.
Proof.
  intros Hl [Hi Hqi]%vec_get_Some [Hj Hqj]%vec_get_Some.
  pose proof (proj1 (NoDup_alt _) (ly_paths _ Hl) _ _ _ Hqi Hqj). lia.
Qed.

(** Prefixes of one path are comparable. *)
Lemma prefix_comparable {A} (a b q : list A) : a `prefix_of` q -> b `prefix_of` q ->
  a `prefix_of` b \/ b `prefix_of` a.
Proof.
  intros [r1 ->] [r2 Heq]. revert b r2 Heq. induction a as [|x a IH]; intros b r2 Heq.
  { left. apply prefix_nil. }
  destruct b as [|y b]; [right; apply prefix_nil|]. cbn in Heq. injection Heq as <- Heq.
  destruct (IH b r2 Heq); [left|right]; by apply prefix_cons.
Qed.

(** A staged path is in the staging directory. *)
Lemma staged_below p q : layout p -> q ∈ entry_paths p -> pl_staging_directory (pv_plan p) `prefix_of` q.
Proof.
  intros Hl Hq. destruct (ly_roots _ Hl q Hq) as (rid & rel & ->). unfold root_staging_path, join.
  rewrite <- app_assoc. by eexists.
Qed.

Lemma join_inj_prefix (t : path) a b q : join t a `prefix_of` q -> join t b `prefix_of` q -> a = b.
Proof.
  unfold join. intros [r1 ->] [r2 Heq]. rewrite <- !app_assoc in Heq. apply app_inv_head in Heq.
  by injection Heq.
Qed.

(** Final places are not in the staging directory. *)
Lemma placed_not_staging p q q' :
  layout p -> pl_mode (pv_plan p) = DirectSave -> placed p q q' ->
  ~ pl_staging_directory (pv_plan p) `prefix_of` q'.
Proof.
  intros Hl Hm (rid & rel & t & _ & Ht & ->) Hpre. unfold target_path_for_root in Ht.
  destruct (vec_get (pl_root_plans (pv_plan p)) rid) as [rp|] eqn:Hrp; [|done]. cbn in Ht.
  destruct (rp_root_id rp =? rid); [|done]. injection Ht as <-.
  destruct (pa_private _ (ly_plan _ Hl) Hm _ _ Hrp) as [Hns _]. apply Hns.
  eapply join_inj_prefix; [|transitivity (pl_staging_directory (pv_plan p)); [|exact Hpre]].
  - by exists rel.
  - by apply pa_direct; [apply ly_plan|].
Qed.

(** In copy mode nothing staged is in the target directory. *)
Lemma staged_not_target p q :
  layout p -> pl_mode (pv_plan p) = CopyAfterVerify -> q ∈ entry_paths p ->
  ~ pl_target_directory (pv_plan p) `prefix_of` q.
Proof.
  intros Hl Hm Hq Ht. destruct (pa_copy _ (ly_plan _ Hl) Hm) as [H1 H2].
  destruct (prefix_comparable _ _ _ Ht (staged_below _ _ Hl Hq)); auto.
Qed.

Lemma placed_same p p' q q' : same_job p p' -> placed p q q' -> placed p' q q'.
Proof.
  intros (Hp & _) (rid & rel & t & -> & Ht & ->). exists rid, rel, t.
  unfold root_staging_path. rewrite Hp. auto.
Qed.

Section Safety.
Context (blake3 : list byte -> list byte).

(** Where the bytes of an entry are. *)
Definition located (p : Provider) (q : path) (c : list byte) : Prop :=
  holds (pv_fs p) q c \/
  (pl_mode (pv_plan p) = DirectSave /\ exists q', placed p q q' /\ holds (pv_fs p) q' c).

Definition verified_in (p : Provider) (e : ManifestEntryV2) (d : ContentDigestV2) : Prop :=
  layout p /\ exists q c, vec_get (entry_paths p) (entry_id e) = Some q /\ located p q c /\
    blake3 c = d /\ zlen c = plaintext_size e.

(** A payload of the entry that has hashed what its file holds. *)
Definition payload_ok (p : Provider) (eid : Z) (pl : OpenPayload) : Prop :=
  exists q, vec_get (entry_paths p) eid = Some q /\ nodes (pv_fs p) !! q = Some (FileNode (op_file pl)) /\
    contents (pv_fs p) !! op_file pl = Some (hasher pl) /\ op_pos pl = zlen (hasher pl) /\
    op_bytes pl = zlen (hasher pl).

Definition good (p : Provider) : Prop :=
  layout p /\ forall eid pl, payloads p !! eid = Some pl -> payload_ok p eid pl.

(** ** Steps of the payload phase *)

Definition calm (T : path -> Prop) (p p' : Provider) : Prop :=
  same_job p p' /\ quiet T (pv_fs p) (pv_fs p') /\ payloads p' ⊆ payloads p.

#[export] Instance calm_preorder T : PreOrder (calm T).
Proof.
  split; [done|]. intros a b c (H1 & H2 & H3) (H4 & H5 & H6).
  split; [by transitivity b|]. split; [by transitivity (pv_fs b)|]. by transitivity (payloads b).
Qed.

Local Notation pwf := (fun p : Provider => fs_wf (pv_fs p)).

Lemma calm_layout T p p' : layout p -> fs_wf (pv_fs p') -> calm T p p' -> layout p'.
Proof.
  intros Hl Hwf ((Hp & Hm & He & Ho) & Hq & Hpl). constructor.
  - rewrite Hp. by apply ly_plan.
  - rewrite He. by apply ly_paths.
  - intros q. rewrite He. unfold root_staging_path. rewrite Hp. by apply ly_roots.
  - done.
  - intros eid pl Heid. rewrite He. destruct (ly_handles _ Hl eid pl) as [Hi Hh].
    { by eapply lookup_weaken. }
    split; [pose proof (q_next _ _ _ Hq); lia|]. intros q Hn.
    destruct (q_fresh _ _ _ Hq q _ Hn) as [Hold|Hnew]; [auto|lia].
Qed.

Lemma holds_quiet T fs fs' q c : fs_wf fs -> quiet T fs fs' -> ~ T q -> holds fs q c -> holds fs' q c.
Proof.
  intros Hwf Hq HT (i & Hn & Hc). exists i. split; [by apply (q_nodes _ _ _ Hq)|].
  rewrite (q_contents _ _ _ Hq); [done|]. exact (proj1 (wf_ino _ Hwf _ _ Hn)).
Qed.

(** What is verified for an entry stays when only the staged path of another
    entry is touched. *)
Lemma calm_verified T p p' e d :
  fs_wf (pv_fs p') -> calm T p p' ->
  (forall q, T q -> exists i, i <> entry_id e /\ vec_get (entry_paths p) i = Some q) ->
  verified_in p e d -> verified_in p' e d.
Proof.
  intros Hwf' Hcalm HT (Hl & q & c & Hq & Hloc & Hd & Hs).
  split; [by eapply calm_layout|]. destruct Hcalm as (Hsame & Hquiet & _).
  pose proof Hsame as (Hp & _ & He & _). exists q, c. rewrite He. split; [done|]. split; [|done].
  destruct Hloc as [Hh|(Hm & q' & Hpl & Hh)].
  - left. eapply holds_quiet; [by apply ly_fs|done| |done]. intros (i & Hi & Hiq)%HT.
    apply Hi. by eapply paths_apart.
  - right. rewrite Hp. split; [done|]. exists q'. split; [by eapply placed_same|].
    eapply holds_quiet; [by apply ly_fs|done| |done]. intros (i & _ & Hiq)%HT.
    eapply placed_not_staging; [done..|]. apply staged_below; [done|]. by eapply vec_get_elem.
Qed.

Lemma calm_good T p p' :
  fs_wf (pv_fs p') -> calm T p p' ->
  (forall q eid, T q -> vec_get (entry_paths p) eid = Some q -> payloads p' !! eid = None) ->
  good p -> good p'.
Proof.
  intros Hwf' Hcalm HT [Hl Hg]. split; [by eapply calm_layout|].
  destruct Hcalm as ((Hp & _ & He & _) & Hquiet & Hsub). intros eid pl Hpl.
  destruct (Hg eid pl) as (q & Hq & Hn & Hc & Hpos & Hb); [by eapply lookup_weaken|].
  exists q. rewrite He. split; [done|]. split.
  - apply (q_nodes _ _ _ Hquiet); [|done]. intros Ht. by rewrite (HT q eid Ht Hq) in Hpl.
  - rewrite (q_contents _ _ _ Hquiet); [done|]. exact (proj1 (wf_ino _ (ly_fs _ Hl) _ _ Hn)).
Qed.

(** ** The calls of the sink *)

(** Only the staged path of one entry may go. *)
Definition touches (eid : Z) (p p' : Provider) : Prop :=
  calm (fun q => vec_get (entry_paths p) eid = Some q) p p'.

#[export] Instance touches_preorder eid : PreOrder (touches eid).
Proof.
  split; [done|]. unfold touches. intros a b c H1 H2.
  assert (Heq : entry_paths b = entry_paths a) by (by destruct H1 as ((_ & _ & ? & _) & _)).
  rewrite Heq in H2. by transitivity b.
Qed.

Lemma touches_fs {E A} eid (call : io A) :
  (forall T, leaves (quiet T) call) -> obeys (E:=E) pwf (touches eid) (on_fs call).
Proof.
  intros Hc p Hwf. unfold on_fs. destruct (Hc (fun q => vec_get (entry_paths p) eid = Some q) _ Hwf) as [H1 H2].
  destruct (call (pv_fs p)) as [fs r]. cbn in *. split; [done|]. by split.
Qed.
Lemma touches_fs_or {E A} eid (e : E) (call : io A) :
  (forall T, leaves (quiet T) call) -> obeys pwf (touches eid) (fs_or e call).
Proof. intros Hc. unfold fs_or. leaves_step; [by apply touches_fs|leaves_leaf]. Qed.
Lemma touches_self {E} eid : obeys (E:=E) pwf (touches eid) self.
Proof. intros p Hwf. by split. Qed.
Lemma touches_entry_path eid i : obeys pwf (touches eid) (entry_path i).
Proof. unfold entry_path. leaves_step; [apply touches_self|leaves_leaf]. Qed.
Lemma touches_drop_payload eid i : obeys pwf (touches eid) (drop_payload i).
Proof.
  intros p Hwf. split; [done|]. split; [done|]. split; [done|]. cbn. apply delete_subseteq.
Qed.
Lemma touches_keep_reuse eid i r : obeys pwf (touches eid) (keep_reuse i r).
Proof. intros p Hwf. by split. Qed.
Lemma touches_remove eid : obeys pwf (touches eid) (remove_staged eid).
Proof.
  intros p Hwf. unfold remove_staged, entry_path, mbind, proc_bind, self, pure.
  destruct (vec_get (entry_paths p) eid) as [q|] eqn:Hq; cbn; [|by split].
  assert (Hr : leaves (quiet (eq q)) (unless_missing (remove_file q))).
  { apply leaves_unless_missing; [apply _|auto with fs_leaves]. }
  unfold fs_or, on_fs, mbind, proc_bind. destruct (Hr _ Hwf) as [H1 H2].
  destruct (unless_missing (remove_file q) (pv_fs p)) as [fs r]. cbn in *.
  destruct r; cbn; (split; [done|]; split; [done|]; split; [|done]);
    (eapply quiet_mono; [|exact H2]; by intros ? <-).
Qed.

Lemma touches_lift {E E' A} eid (f : E' -> E) (call : proc Provider E' A) :
  obeys pwf (touches eid) call -> obeys pwf (touches eid) (lift f call).
Proof. intros Hc p Hwf. unfold lift. specialize (Hc p Hwf). by destruct (call p). Qed.

Lemma touches_try_open eid os e d : obeys pwf (touches eid) (try_open_reuse os blake3 e d).
Proof.
  unfold try_open_reuse. leaves_step; [apply touches_self|]. leaves_step; [leaves_leaf|].
  leaves_step; [leaves_leaf|]. leaves_step; [leaves_leaf|].
  leaves_step; [apply touches_fs; intros; leaves_leaf|].
  match goal with r : result _ _ |- _ => destruct r as [md|[]] end; try leaves_leaf.
  leaves_step; [|leaves_leaf].
  do 2 (leaves_step; [apply touches_fs_or; intros; leaves_leaf|]). leaves_step; [leaves_leaf|].
  leaves_step; [apply touches_fs_or; intros; leaves_leaf|leaves_leaf].
Qed.

Lemma touches_choose_reuse os e d : obeys pwf (touches (entry_id e)) (try_choose_reuse os blake3 e d).
Proof.
  unfold try_choose_reuse. leaves_step; [apply touches_lift, touches_try_open|].
  leaves_step; [|leaves_leaf]. leaves_step; [apply touches_drop_payload|].
  leaves_step; [apply touches_remove|]. leaves_step; [apply touches_keep_reuse|leaves_leaf].
Qed.

Lemma touches_retire e : obeys pwf (touches (entry_id e)) (retire_payload e).
Proof. unfold retire_payload. leaves_step; [apply touches_drop_payload|apply touches_remove]. Qed.

Lemma touches_verify eid e d : obeys pwf (touches eid) (verify_payload blake3 e d).
Proof.
  unfold verify_payload. leaves_step; [apply touches_self|]. leaves_step; [leaves_leaf|].
  leaves_step; [apply touches_fs_or; intros; leaves_leaf|leaves_leaf].
Qed.

Lemma touches_stage eid e : obeys pwf (touches eid) (stage_directory e).
Proof.
  unfold stage_directory. leaves_step; [apply touches_entry_path|].
  apply touches_fs_or. intros. auto with fs_leaves.
Qed.

Lemma touches_open_payload eid e st n : obeys pwf (touches eid) (open_payload e st n).
Proof.
  unfold open_payload. leaves_step; [leaves_leaf|]. leaves_step; [apply touches_entry_path|].
  leaves_step; [leaves_step; [apply touches_fs_or; intros; auto with fs_leaves|leaves_leaf]|].
  leaves_step; [leaves_leaf|]. leaves_step; [apply touches_fs_or; intros; auto with fs_leaves|].
  leaves_step; [apply touches_fs_or; intros; leaves_leaf|]. leaves_step; [leaves_leaf|].
  leaves_step; [apply touches_fs_or; intros; leaves_leaf|leaves_leaf].
Qed.

(** What is verified for another entry stays. *)
Lemma touches_verified {E A} eid (call : proc Provider E A) p p' r e d :
  obeys pwf (touches eid) call -> call p = (p', r) -> entry_id e <> eid ->
  verified_in p e d -> verified_in p' e d.
Proof.
  intros Hc Hrun Hne Hv. pose proof Hv as (Hl & _). destruct (Hc p (ly_fs _ Hl)) as [Hwf Ht].
  rewrite Hrun in Hwf, Ht. eapply calm_verified; [done|exact Ht| |done]. eauto.
Qed.

Lemma fs_or_ok {E A} (e : E) (call : io A) p p' a :
  fs_or e call p = (p', Ok a) -> exists fs, call (pv_fs p) = (fs, Ok a) /\ p' = set_pv_fs fs p.
Proof.
  unfold fs_or, on_fs, mbind, proc_bind, pure. destruct (call (pv_fs p)) as [fs [b|er]]; [|done].
  intros [= <- <-]. eauto.
Qed.

Lemma open_create_ok q fs fs' i :
  open_create q fs = (fs', Ok i) -> nodes fs' !! q = Some (FileNode i).
Proof.
  unfold open_create. intros (fs1 & [] & _ & H2)%bind_ok. apply bind_ok in H2 as (fs2 & fs3 & [= <- <-] & H2).
  destruct (nodes fs1 !! q) as [[j|j]|] eqn:Hn; [done| |].
  - by injection H2 as <- <-.
  - unfold make_file in H2. apply bind_ok in H2 as (fs2 & fs3 & [= <- <-] & H2).
    destruct (parent_is_dir fs1 q); [|done]. apply bind_ok in H2 as (fs2 & [] & [= <-] & [= <- <-]).
    cbn. by rewrite lookup_insert_eq.
Qed.

Lemma file_len_ok i fs fs' n :
  file_len i fs = (fs', Ok n) -> n = zlen (default [] (contents fs !! i)) /\
  nodes fs' = nodes fs /\ contents fs' = contents fs /\ next_ino fs' = next_ino fs.
Proof.
  unfold file_len. intros (fs1 & [] & (Hn & Hc & Hi)%may_fail_ok & H2)%bind_ok.
  apply bind_ok in H2 as (fs2 & fs3 & [= <- <-] & [= <- <-]). by rewrite Hc.
Qed.
Lemma read_all_ok i fs fs' bytes :
  read_all i fs = (fs', Ok bytes) -> bytes = default [] (contents fs !! i) /\
  nodes fs' = nodes fs /\ contents fs' = contents fs /\ next_ino fs' = next_ino fs.
Proof.
  unfold read_all. intros (fs1 & [] & (Hn & Hc & Hi)%may_fail_ok & H2)%bind_ok.
  apply bind_ok in H2 as (fs2 & fs3 & [= <- <-] & [= <- <-]). by rewrite Hc.
Qed.

Lemma open_payload_ok e st n p p' pl :
  fs_wf (pv_fs p) -> open_payload e st n p = (p', Ok pl) -> payload_ok p' (entry_id e) pl.
Proof.
  intros Hwf Hrun. pose proof (touches_open_payload (entry_id e) e st n p Hwf) as [Hwf' _].
  rewrite Hrun in Hwf'. cbn in Hwf'. unfold open_payload in Hrun. destruct (negb _); [done|].
  apply bind_ok in Hrun as (p1 & q & H1 & Hrun). unfold entry_path in H1.
  apply bind_ok in H1 as (p2 & p3 & [= <- <-] & [Hq ->]%pure_ok). 
  destruct (vec_get (entry_paths p) (entry_id e)) as [q'|] eqn:Hpath; [|done]. injection Hq as ->.
  apply bind_ok in Hrun as (p4 & [] & H4 & Hrun).
  assert (He4 : entry_paths p4 = entry_paths p).
  { destruct (parent q); [apply fs_or_ok in H4 as (? & _ & ->)|injection H4 as <-]; done. }
  apply bind_ok in Hrun as (p5 & b & [_ ->]%pure_ok & Hrun).
  apply bind_ok in Hrun as (p6 & i & (fs6 & Ho & ->)%fs_or_ok & Hrun).
  apply open_create_ok in Ho.
  apply bind_ok in Hrun as (p7 & len & (fs7 & (Hlen & Hn7 & Hc7 & _)%file_len_ok & ->)%fs_or_ok & Hrun).
  apply bind_ok in Hrun as (p8 & [] & [Hg ->]%throw_if_ok & Hrun).
  apply bind_ok in Hrun as (p9 & bytes & (fs9 & (Hb & Hn9 & Hc9 & _)%read_all_ok & ->)%fs_or_ok & [= <- <-]).
  cbn in *. bool_prop. exists q. cbn. rewrite He4. split; [done|]. rewrite Hn9, Hn7. split; [done|].
  destruct (wf_ino _ Hwf' q i) as [_ [c Hci]]; [cbn; by rewrite Hn9, Hn7|]. cbn in Hci.
  rewrite Hci. rewrite Hc9, Hc7 in Hci. rewrite Hc7, Hci in Hb. rewrite Hci in Hlen. cbn in *. subst.
  split; [done|]. lia.
Qed.

(** *** Beginning an entry *)

Lemma verified_payloads v p e d :
  layout (set_payloads v p) -> verified_in p e d -> verified_in (set_payloads v p) e d.
Proof. intros Hl (_ & H). by split. Qed.

Lemma insert_payload_layout p eid pl :
  layout p -> payload_ok p eid pl -> layout (set_payloads (<[eid := pl]> (payloads p)) p).
Proof.
  intros Hl (q & Hq & Hn & _). destruct Hl as [H1 H2 H3 H4 H5]. constructor; try done. cbn.
  intros eid' pl'. rewrite lookup_insert_Some. intros [[<- <-]|[_ Hpl]]; [|by apply H5].
  split; [exact (proj1 (wf_ino _ H4 _ _ Hn))|]. intros q' Hq'. by rewrite (wf_one_path _ H4 _ _ _ Hq' Hn).
Qed.

Lemma begin_verified e st n p p' r e' d :
  begin_entry e st n p = (p', r) -> entry_id e' <> entry_id e -> verified_in p e' d -> verified_in p' e' d.
Proof.
  intros Hrun Hne Hv. unfold begin_entry, mbind, proc_bind in Hrun.
  destruct (open_payload e st n p) as [p1 o] eqn:Ho.
  pose proof (touches_verified (entry_id e) _ _ _ _ e' d (touches_open_payload _ e st n) Ho Hne Hv) as Hv1.
  destruct o as [pl|er]; [|by injection Hrun as <- _]. injection Hrun as <- <-.
  pose proof (open_payload_ok _ _ _ _ _ _ (ly_fs _ (proj1 Hv)) Ho) as Hok.
  apply verified_payloads; [|done]. apply insert_payload_layout; [apply Hv1|done].
Qed.

Lemma touches_good {E A} eid (call : proc Provider E A) p p' r :
  obeys pwf (touches eid) call -> call p = (p', r) ->
  (is_Some (vec_get (entry_paths p) eid) -> payloads p' !! eid = None) -> good p -> good p'.
Proof.
  intros Hc Hrun Hnone Hg. pose proof Hg as (Hl & _). destruct (Hc p (ly_fs _ Hl)) as [Hwf Ht].
  rewrite Hrun in Hwf, Ht. eapply (calm_good _ p p'); [done|exact Ht| |done]. cbn.
  intros q eid' Hq Hq'. rewrite (paths_apart _ _ _ _ Hl Hq' Hq). apply Hnone. by rewrite Hq.
Qed.

(** Calls that touch no path at all: there is no entry with a negative number. *)
Lemma touches_nothing_good {E A} (call : proc Provider E A) p p' r :
  (forall eid, obeys pwf (touches eid) call) -> call p = (p', r) -> good p -> good p'.
Proof.
  intros Hc Hrun. eapply (touches_good (-1)); [apply Hc|done|]. by intros [q [? _]%vec_get_Some].
Qed.
Lemma touches_nothing_verified {E A} (call : proc Provider E A) p p' r e d :
  (forall eid, obeys pwf (touches eid) call) -> call p = (p', r) -> verified_in p e d -> verified_in p' e d.
Proof. intros Hc Hrun. eapply (touches_verified (entry_id e + 1)); [apply Hc|done|lia]. Qed.

Lemma begin_good e st n p p' : begin_entry e st n p = (p', Ok tt) -> good p -> good p'.
Proof.
  intros (p1 & pl & Ho & [= <-])%bind_ok Hg.
  pose proof (open_payload_ok _ _ _ _ _ _ (ly_fs _ (proj1 Hg)) Ho) as Hok.
  pose proof (touches_nothing_good _ _ _ _ (fun eid => touches_open_payload eid e st n) Ho Hg) as [Hl1 Hg1].
  split; [by apply insert_payload_layout|]. cbn. intros eid pl'. rewrite lookup_insert_Some.
  intros [[<- <-]|[_ Hpl]]; [done|by apply Hg1].
Qed.

(** *** Writing a block *)

Lemma contents_wf fs i bytes : fs_wf fs -> fs_wf (set_contents (<[i := bytes]> (contents fs)) fs).
Proof.
  intros [H1 H2 H3]. constructor; cbn; [done| |done]. intros q j Hq. destruct (H2 q j Hq) as [Hj Hc].
  split; [done|]. destruct (decide (j = i)) as [->|]; [by rewrite lookup_insert_eq|by rewrite lookup_insert_ne].
Qed.

Lemma write_all_run i pos bytes fs fs' r :
  write_all i pos bytes fs = (fs', r) ->
  exists part rest, fs' = set_contents
      (<[i := write_at (Z.to_nat pos) part (default [] (contents fs !! i))]> (contents fs))
      (mkFs (nodes fs) (contents fs) (next_ino fs) rest) /\ (r = Ok tt -> part = bytes).
Proof.
  unfold write_all, mbind, proc_bind, modify_fs, throw_if, take_fault.
  destruct (io_faults fs) as [|[n|] rest]; cbn; intros [= <- <-]; eexists _, _; (split; [done|]); done.
Qed.

Lemma write_at_end bytes c : write_at (length c) bytes c = c ++ bytes.
Proof.
  unfold write_at. rewrite Nat.sub_diag, take_ge by lia. cbn. rewrite drop_ge by lia.
  by rewrite app_nil_r.
Qed.

(** A write through the payload of one entry. *)
Lemma write_layout p i bytes rest :
  layout p -> layout (set_pv_fs (set_contents (<[i := bytes]> (contents (pv_fs p)))
    (mkFs (nodes (pv_fs p)) (contents (pv_fs p)) (next_ino (pv_fs p)) rest)) p).
Proof.
  intros [H1 H2 H3 H4 H5]. constructor; try done. cbn.
  apply (contents_wf (mkFs _ _ _ rest)), fs_wf_faults. done.
Qed.

Lemma write_verified p eid pl bytes rest e d :
  payloads p !! eid = Some pl -> entry_id e <> eid -> verified_in p e d ->
  verified_in (set_pv_fs (set_contents (<[op_file pl := bytes]> (contents (pv_fs p)))
    (mkFs (nodes (pv_fs p)) (contents (pv_fs p)) (next_ino (pv_fs p)) rest)) p) e d.
Proof.
  intros Hpl Hne (Hl & q & c & Hq & Hloc & Hd). split; [by apply write_layout|]. exists q, c.
  split; [done|]. split; [|done]. destruct (ly_handles _ Hl eid pl Hpl) as [_ Hh].
  assert (Hkeep : forall q', (vec_get (entry_paths p) eid <> Some q') -> holds (pv_fs p) q' c ->
    holds (set_contents (<[op_file pl := bytes]> (contents (pv_fs p)))
      (mkFs (nodes (pv_fs p)) (contents (pv_fs p)) (next_ino (pv_fs p)) rest)) q' c).
  { intros q' Hq' (i & Hn & Hc). exists i. split; [done|]. cbn. rewrite lookup_insert_ne; [done|].
    intros <-. by apply Hq', Hh. }
  destruct Hloc as [Hold|(Hm & q' & Hpl' & Hold)].
  - left. apply Hkeep; [|done]. intros Hq2. apply Hne. by eapply paths_apart.
  - right. split; [done|]. exists q'. split; [exact Hpl'|]. apply Hkeep; [|done]. intros Hq2.
    eapply placed_not_staging; [done..|]. apply staged_below; [done|]. by eapply vec_get_elem.
Qed.

Lemma fs_or_run {E A} (e : E) (call : io A) p p' r :
  fs_or e call p = (p', r) ->
  exists fs r0, call (pv_fs p) = (fs, r0) /\ p' = set_pv_fs fs p /\ r = map_err (fun _ => e) r0.
Proof.
  unfold fs_or, on_fs, mbind, proc_bind, pure. destruct (call (pv_fs p)) as [fs r0].
  intros [= <- <-]. eauto.
Qed.

(** The payload after a block: the same file. *)
Lemma update_payload_layout p eid pl pl' :
  layout p -> payloads p !! eid = Some pl -> op_file pl' = op_file pl ->
  layout (set_payloads (<[eid := pl']> (payloads p)) p).
Proof.
  intros Hl Hpl Hf. destruct (ly_handles _ Hl eid pl Hpl) as [H1 H2]. destruct Hl. constructor; try done.
  cbn. intros eid' pl''. rewrite lookup_insert_Some. intros [[<- <-]|[_ H]]; [|by auto]. by rewrite Hf.
Qed.

Lemma write_block_verified e b p p' r e' d :
  write_block e b p = (p', r) -> entry_id e' <> entry_id e -> verified_in p e' d -> verified_in p' e' d.
Proof.
  intros Hrun Hne Hv. unfold write_block in Hrun.
  apply bind_run in Hrun as [(er & [=] & _)|(p0 & p1 & [= <- <-] & Hrun)].
  apply bind_run in Hrun as [(er & [= <- _] & _)|(p1 & pl & [Hpl ->]%pure_ok & Hrun)]; [done|].
  destruct (payloads p !! entry_id e) as [pl'|] eqn:Hpe; [|done]. injection Hpl as ->.
  apply bind_run in Hrun as [(er & [= <- _] & _)|(p1 & [] & [_ ->]%throw_if_ok & Hrun)]; [done|].
  assert (Hw : forall p1 r1, write_payload (entry_id e) pl (encoded_bytes b) p = (p1, r1) ->
    verified_in p1 e' d /\ exists pl1, op_file pl1 = op_file pl /\ payloads p1 !! entry_id e = Some pl1).
  { unfold write_payload. intros p1 r1 Hp1. destruct (write_all _ _ _ _) as [fs r0] eqn:Hwr. injection Hp1 as <- _.
    apply write_all_run in Hwr as (part & rest & -> & _).
    match goal with |- verified_in (set_payloads (<[_ := ?m]> _) ?q) _ _ /\ _ => set (pl1 := m); set (p1 := q) end.
    assert (Hv1 : verified_in p1 e' d) by (by eapply write_verified).
    split; [|exists pl1; split; [done|apply lookup_insert_eq]].
    apply verified_payloads; [|done]. by apply (update_payload_layout p1 _ pl); [apply Hv1| |]. }
  apply bind_run in Hrun as [(er & H1 & _)|(p1 & [] & H1 & Hrun)]; [by apply Hw in H1 as [? _]|].
  apply Hw in H1 as (Hv1 & pl1 & Hf1 & Hp1).
  assert (Hs : forall p2 r2, fs_or D_Io (sync_file (op_file pl)) p1 = (p2, r2) ->
    verified_in p2 e' d /\ payloads p2 !! entry_id e = Some pl1).
  { intros p2 r2 H2. split.
    - eapply (touches_nothing_verified _ p1 p2); [|exact H2|done]. intros eid.
      apply touches_fs_or. intros. leaves_leaf.
    - apply fs_or_run in H2 as (fs & r0 & _ & -> & _). done. }
  apply bind_run in Hrun as [(er & H2 & _)|(p2 & [] & H2 & Hrun)]; [by apply Hs in H2 as [? _]|].
  apply Hs in H2 as [Hv2 Hp2].
  assert (Hput : forall pl', op_file pl' = op_file pl ->
    verified_in (set_payloads (<[entry_id e := pl']> (payloads p2)) p2) e' d).
  { intros pl' Hf. apply verified_payloads; [|done].
    by eapply update_payload_layout; [apply Hv2|exact Hp2|rewrite Hf1]. }
  destruct (checked_add _ _ _); [injection Hrun as <- <-; by apply Hput|].
  apply bind_run in Hrun as [(er & [=] & _)|(p3 & [] & [= <-] & [= <- _])]. by apply Hput.
Qed.

Lemma write_payload_ok eid pl bytes p p' : write_payload eid pl bytes p = (p', Ok tt) ->
  exists part rest pl1, p' = set_payloads (<[eid := pl1]> (payloads p)) (set_pv_fs (set_contents
      (<[op_file pl := write_at (Z.to_nat (op_pos pl)) part (default [] (contents (pv_fs p) !! op_file pl))]> (contents (pv_fs p)))
      (mkFs (nodes (pv_fs p)) (contents (pv_fs p)) (next_ino (pv_fs p)) rest)) p) /\ part = bytes.
Proof.
  unfold write_payload. destruct (write_all _ _ _ _) as [fs r] eqn:Hw. intros [= <- Hr].
  apply write_all_run in Hw as (part & rest & -> & Hpart). exists part, rest. eexists. split; [done|].
  apply Hpart. by destruct r as [[]|].
Qed.
Lemma write_block_good e b p p' : write_block e b p = (p', Ok tt) -> good p -> good p'.
Proof.
  intros Hrun [Hl Hg]. unfold write_block in Hrun.
  apply bind_ok in Hrun as (p0 & p1 & [= <- <-] & Hrun).
  apply bind_ok in Hrun as (p1 & pl & [Hpl ->]%pure_ok & Hrun).
  destruct (payloads p !! entry_id e) as [pl'|] eqn:Hpe; [|done]. injection Hpl as ->.
  apply bind_ok in Hrun as (p1 & [] & [Hguard ->]%throw_if_ok & Hrun). bool_prop.
  apply bind_ok in Hrun as (p1 & [] & (part & rest & pl1 & -> & Hpart)%write_payload_ok & Hrun).
  rewrite Hpart in *. clear part Hpart.
  destruct (Hg _ _ Hpe) as (q & Hq & Hn & Hc & Hpos & Hb).
  apply bind_ok in Hrun as (p2 & [] & (fs2 & Hs & ->)%fs_or_ok & Hrun).
  apply may_fail_ok in Hs as (Hn2 & Hc2 & Hi2). cbn in Hn2, Hc2, Hi2.
  destruct (checked_add u64_max (op_bytes pl) (plaintext_length b)) as [bytes|] eqn:Hadd;
    [|by apply bind_ok in Hrun as (? & [] & _ & [=])].
  injection Hrun as <-. apply checked_add_Some in Hadd as [-> _].
  rewrite Hc, Hpos in Hc2. unfold zlen in Hc2. rewrite Nat2Z.id in Hc2. cbn in Hc2. rewrite write_at_end in Hc2.
  assert (Hwf2 : fs_wf fs2).
  { pose proof (contents_wf _ (op_file pl) (hasher pl ++ encoded_bytes b) (ly_fs _ Hl)) as [W1 W2 W3].
    constructor; rewrite ?Hn2, ?Hc2, ?Hi2; [exact W1|exact W2|exact W3]. }
  match goal with |- good ?q => change q with (set_payloads (<[entry_id e := mkPayload (op_file pl)
    (op_pos pl + zlen (encoded_bytes b)) (hasher pl ++ encoded_bytes b) (op_bytes pl + plaintext_length b)]>
    (<[entry_id e := pl1]> (payloads p))) (set_pv_fs fs2 p)) end.
  rewrite insert_insert_eq.
  assert (Hl2 : layout (set_pv_fs fs2 p)).
  { destruct Hl as [L1 L2 L3 L4 L5]. constructor; try done. cbn. rewrite Hn2, Hi2. done. }
  split.
  - apply (update_payload_layout (set_pv_fs fs2 p) (entry_id e) pl); [done|exact Hpe|done].
  - cbn. intros eid pl'. rewrite lookup_insert_Some. intros [[<- <-]|[Hne Hpl']].
    + exists q. cbn. rewrite Hn2, Hc2, lookup_insert_eq. unfold zlen in *. rewrite length_app.
      repeat split; [done|done|lia|lia].
    + destruct (Hg _ _ Hpl') as (q' & Hq' & Hn' & Hc' & Hr'). exists q'. cbn. rewrite Hn2, Hc2.
      split; [done|]. split; [done|]. rewrite lookup_insert_ne; [done|]. intros Heq. apply Hne.
      rewrite <- Heq in Hn'. rewrite (wf_one_path _ (ly_fs _ Hl) _ _ _ Hn Hn') in Hq. by eapply paths_apart.
Qed.

(** *** Verifying, reusing *)

Lemma verify_payload_verified e d p p' :
  verify_payload blake3 e d p = (p', Ok tt) -> good p -> verified_in p' e d.
Proof.
  intros Hrun Hg. pose proof (touches_nothing_good _ _ _ _ (fun eid => touches_verify eid e d) Hrun Hg) as [Hl' Hg'].
  unfold verify_payload in Hrun. apply bind_ok in Hrun as (p0 & p1 & [= <- <-] & Hrun).
  apply bind_ok in Hrun as (p1 & pl & [Hpl ->]%pure_ok & Hrun).
  destruct (payloads p !! entry_id e) as [pl'|] eqn:Hpe; [|done]. injection Hpl as ->.
  apply bind_ok in Hrun as (p1 & [] & (fs & _ & ->)%fs_or_ok & [Hguard ->]%throw_if_ok). bool_prop.
  destruct (Hg' (entry_id e) pl Hpe) as (q & Hq & Hn & Hc & Hpos & Hb).
  split; [done|]. exists q, (hasher pl). split; [done|]. split; [left; by eexists|]. split; [done|]. lia.
Qed.

Lemma choose_reuse_good os e d p p' chosen :
  try_choose_reuse os blake3 e d p = (p', Ok chosen) -> good p -> good p'.
Proof.
  intros Hrun Hg. pose proof Hrun as Hrun0. unfold try_choose_reuse in Hrun.
  apply bind_ok in Hrun as (p1 & found & H1 & Hrun). destruct found as [r|].
  - eapply (touches_good (entry_id e)); [apply touches_choose_reuse|exact Hrun0| |done]. intros _.
    apply bind_ok in Hrun as (p2 & [] & [= <-] & Hrun).
    apply bind_ok in Hrun as (p3 & [] & H3 & Hrun). apply bind_ok in Hrun as (p4 & [] & [= <-] & [= <- _]).
    destruct (touches_remove (entry_id e) (set_payloads (delete (entry_id e) (payloads p1)) p1)) as [_ (_ & _ & Hsub)].
    { destruct (touches_lift (entry_id e) D_Destination _ (touches_try_open (entry_id e) os e d) p
        (ly_fs _ (proj1 Hg))) as [Hwf _]. by rewrite H1 in Hwf. }
    rewrite H3 in Hsub. cbn in Hsub |- *. apply lookup_weaken_None with (delete (entry_id e) (payloads p1)); [|done].
    apply lookup_delete_eq.
  - injection Hrun as <- <-. eapply (touches_nothing_good _ p p1); [|exact H1|done].
    intros eid. apply touches_lift, touches_try_open.
Qed.
End Safety.
