(* ===== verification/CommitSafe.v ===== *)
(** What a commit of the local provider does to the files it has verified: they
    stay where they are staged or go to their final place, and when the commit of
    a direct save returns they are in their final place. *)

From stdpp Require Import prelude gmap strings pretty.
From Stdlib Require Import ZArith Lia Strings.Byte.
From S2P Require Import Prelude Bytes ManifestV2 OfferCodec Frames Delivery Ledger Names Proc.
From S2P Require Import ReceivePlane ReceiveInv LocalFs Destination Provider ProviderCommit FsProof ProviderSafe.

Local Open Scope Z_scope.

(** Calls that only read. *)
Definition same_tree (fs fs' : Fs) : Prop :=
  nodes fs' = nodes fs /\ contents fs' = contents fs /\ next_ino fs' = next_ino fs.
#[export] Instance same_tree_preorder : PreOrder same_tree.
Proof. split; [done|]. intros a b c (? & ? & ?) (? & ? & ?). repeat split; congruence. Qed.
#[export] Instance same_tree_blind : FaultBlind same_tree.
Proof. done. Qed.

(** [exclusive_rename] that fails changes nothing. *)
Lemma exclusive_rename_err src dst fs fs' e :
  exclusive_rename src dst fs = (fs', Err e) -> same_tree fs fs'.
Proof.
  unfold exclusive_rename, may_fail, take_fault, mbind, proc_bind, throw_if, get_fs.
  destruct fs as [ns c i fl]. cbn.
  destruct fl as [|f rest]; cbn; [|destruct (bool_decide (is_Some f)); [by intros [= <- _]|]];
  (destruct (bool_decide _ || _); [by intros [= <- _]|]; cbn;
   destruct (bool_decide _); [by intros [= <- _]|]; cbn;
   destruct (starts_with dst src); [by intros [= <- _]|done]).
Qed.


Section Carry.
(** The plan of the provider, which nothing in a commit changes. *)
Context (plan0 : DestinationWritePlanV2).
Local Notation target := (pl_target_directory plan0).
Local Notation staging := (pl_staging_directory plan0).
Local Notation mode := (pl_mode plan0).

(** During a commit no payload is open. *)
Definition committing (p : Provider) : Prop :=
  pv_plan p = plan0 /\ layout p /\ payloads p = ∅.

(** What is located stays located, and in a direct save nothing comes to the
    staging directory. *)
Definition carries (p p' : Provider) : Prop :=
  entry_paths p' = entry_paths p /\
  (forall q c, q ∈ entry_paths p -> located p q c -> located p' q c) /\
  (mode = DirectSave -> forall q, staging `prefix_of` q ->
     nodes (pv_fs p) !! q = None -> nodes (pv_fs p') !! q = None).
Local Notation step := (obeys committing carries).

#[export] Instance carries_preorder : PreOrder carries.
Proof.
  split; [done|]. intros a b c (He1 & Hl1 & Hn1) (He2 & Hl2 & Hn2).
  split; [congruence|]. split; [|auto]. intros q x Hq Hx. apply Hl2; [by rewrite He1|auto].
Qed.

(** Changes beside the file system and the payloads. *)
Lemma carries_same p p' :
  committing p -> same_job p p' -> payloads p' = payloads p -> same_tree (pv_fs p) (pv_fs p') ->
  fs_wf (pv_fs p') -> committing p' /\ carries p p'.
Proof.
  intros (Hp & Hl & He) Hs Hpl (Hn & Hc & Hi) Hwf. pose proof Hs as (H1 & H2 & H3 & H4).
  assert (Hh : forall q c, holds (pv_fs p) q c -> holds (pv_fs p') q c).
  { intros q c (i & ? & ?). exists i. by rewrite Hn, Hc. }
  split.
  - split; [by rewrite H1|]. split; [|by rewrite Hpl].
    eapply (calm_layout (fun _ => False)); [done|done|]. split; [done|]. rewrite Hpl. split; [|done].
    constructor; rewrite ?Hi, ?Hn, ?Hc; auto. lia.
  - split; [done|]. split; [|by rewrite Hn].
    intros q c _ [Hold|(Hm & q' & Hq' & Hold)]; [left; auto|]. right. rewrite H1.
    split; [done|]. exists q'. split; [by eapply placed_same|auto].
Qed.

Lemma carries_beside p p' :
  committing p -> same_job p p' -> payloads p' = payloads p -> pv_fs p' = pv_fs p ->
  committing p' /\ carries p p'.
Proof. intros Hp Hs Hpl Hf. apply carries_same; rewrite ?Hf; try done. by apply ly_fs, Hp. Qed.

Lemma step_read {E A} (call : io A) : leaves same_tree call -> step (on_fs (E:=E) call).
Proof.
  intros Hc p Hp. unfold on_fs. destruct (Hc _ (ly_fs _ (proj1 (proj2 Hp)))) as [H1 H2].
  destruct (call (pv_fs p)) as [fs r]. cbn in *. by apply carries_same.
Qed.
Lemma step_read_or {E A} (e : E) (call : io A) : leaves same_tree call -> step (fs_or e call).
Proof. intros Hc. unfold fs_or. leaves_step; [by apply step_read|leaves_leaf]. Qed.
Lemma step_tree {A} (call : proc Fs DestinationPlanErrorV2 A) : leaves same_tree call -> step (on_tree call).
Proof.
  intros Hc p Hp. unfold on_tree. destruct (Hc _ (ly_fs _ (proj1 (proj2 Hp)))) as [H1 H2].
  destruct (call (pv_fs p)) as [fs r]. cbn in *. by apply carries_same.
Qed.
Lemma step_lift {E E' A} (f : E' -> E) (call : proc Provider E' A) : step call -> step (lift f call).
Proof. intros Hc p Hp. unfold lift. specialize (Hc p Hp). by destruct (call p). Qed.
Lemma step_self {E A} (f : Provider -> proc Provider E A) :
  (forall p, committing p -> step (f p)) -> step (self ≫= f).
Proof. intros Hf p Hp. by apply Hf. Qed.

(** ** The ledger *)

Lemma step_save_ledger to_vec : step (save_effect_ledger to_vec).
Proof.
  intros p Hp. unfold save_effect_ledger.
  destruct (match ledger_faults p with [] => _ | f :: rest => _ end) as [fault faults].
  destruct (match fault, to_vec _ with DirectoryFault, _ => _ | _, _ => _ end) as [fs r].
  by apply carries_beside.
Qed.
Lemma step_root_state rid : step (root_state rid).
Proof. apply step_self. intros p _. leaves_leaf. Qed.
Lemma step_assign rid v : step (assign_root_state rid v).
Proof.
  unfold assign_root_state. leaves_step; [apply step_root_state|]. intros p Hp.
  by apply carries_beside.
Qed.
Lemma step_entropy : step fill_entropy.
Proof.
  intros p Hp. unfold fill_entropy. destruct (entropy p) as [|v rest]; by apply carries_beside.
Qed.
Lemma step_persist to_vec rid obj : step (persist_new_save_intent to_vec rid obj).
Proof.
  apply step_self. intros p _. do 3 (leaves_step; [leaves_leaf|]).
  leaves_step; [apply step_entropy|]. leaves_step; [apply step_assign|apply step_save_ledger].
Qed.
Lemma step_current_intent rid : step (current_intent_object rid).
Proof. apply step_self. intros p _. leaves_go. Qed.

(** ** Changes of the file system *)

Lemma carries_keeps T p fs :
  committing p -> fs_wf fs -> keeps T (pv_fs p) fs ->
  (forall q, q ∈ entry_paths p -> ~ T q) ->
  (mode = DirectSave -> forall q q', placed p q q' -> ~ T q') ->
  (mode = DirectSave -> forall q, staging `prefix_of` q ->
     nodes (pv_fs p) !! q = None -> nodes fs !! q = None) ->
  committing (set_pv_fs fs p) /\ carries p (set_pv_fs fs p).
Proof.
  intros (Hp & Hl & He) Hwf [Hn Hc] H1 H2 H3.
  assert (Hh : forall q c, ~ T q -> holds (pv_fs p) q c -> holds fs q c).
  { intros q c HT (i & Hi & Hci). exists i. split; [by apply Hn|]. by rewrite (Hc q i). }
  split.
  - split; [done|]. split; [|done]. destruct Hl. constructor; try done. cbn. intros eid pl. by rewrite He.
  - split; [done|]. split; [|done].
    intros q c Hq [Hs|(Hm & q' & Hq' & Hs)]; [left; by apply Hh; [apply H1|]|]. right.
    split; [done|]. exists q'. split; [done|]. apply Hh; [|done]. eapply H2; [by rewrite <- Hp|done].
Qed.

(** A copy works in the target directory. *)
Lemma step_copy {E A} (call : io A) :
  mode = CopyAfterVerify -> leaves (keeps (prefix target)) call -> step (on_fs (E:=E) call).
Proof.
  intros Hm Hc p Hp. unfold on_fs. pose proof Hp as (Hpp & Hl & _).
  destruct (Hc _ (ly_fs _ Hl)) as [H1 H2].
  destruct (call (pv_fs p)) as [fs r]. cbn in *. eapply carries_keeps; try done; [|by rewrite Hm..].
  intros q Hq. rewrite <- Hpp. apply staged_not_target; [done|by rewrite Hpp|done].
Qed.
Lemma step_copy_or {E A} (e : E) (call : io A) :
  mode = CopyAfterVerify -> leaves (keeps (prefix target)) call -> step (fs_or e call).
Proof. intros Hm Hc. unfold fs_or. leaves_step; [by apply step_copy|leaves_leaf]. Qed.

(** Reservations are apart from what is staged and saved. *)
Lemma reservation_below r : parent r = Some (join target RESERVATIONS_NAME) ->
  join target RESERVATIONS_NAME `prefix_of` r.
Proof. destruct r as [|x r]; [done|]. unfold parent. intros [= <-]. apply (removelast_prefix (x :: r)). Qed.

Lemma placed_target p q q' : placed p q q' ->
  exists rid rp, vec_get (pl_root_plans (pv_plan p)) rid = Some rp /\
    join (pl_target_directory (pv_plan p)) (planned_name rp) `prefix_of` q'.
Proof.
  intros (rid & rel & t & _ & Ht & ->). unfold target_path_for_root in Ht.
  destruct (vec_get (pl_root_plans (pv_plan p)) rid) as [rp|] eqn:Hrp; [|done]. cbn in Ht.
  destruct (rp_root_id rp =? rid); [|done]. injection Ht as <-. exists rid, rp. split; [done|]. by exists rel.
Qed.

Definition shrinks (fs fs' : Fs) : Prop := forall q, nodes fs !! q = None -> nodes fs' !! q = None.
#[local] Instance shrinks_preorder : PreOrder shrinks.
Proof. split; [by intros fs q|]. intros a b c H1 H2 q Hq. auto. Qed.
#[local] Instance shrinks_blind : FaultBlind shrinks.
Proof. by intros fs rest q. Qed.

Lemma leaves_remove_shrinks r : leaves shrinks (remove_file r).
Proof.
  intros fs Hwf. split; [exact (proj1 (leaves_remove_file r fs Hwf))|].
  unfold remove_file, may_fail, throw_if, mbind, proc_bind, node_at, mbind, proc_bind, get_fs, pure.
  pose proof (take_fault_same fs) as Ht. destruct (take_fault fs) as [fs1 [f|er]]; cbn in *; subst;
    [|by intros q].
  destruct (bool_decide _); [by intros q|]. cbn.
  destruct (nodes fs !! r) as [[i|i]|]; cbn; [by intros q| |by intros q].
  intros q Hq. cbn. apply lookup_delete_None. by right.
Qed.

Lemma step_remove_reservation (e : ManifestV2DataError) r :
  r ∈ reservations plan0 -> step (fs_or e (unless_missing (remove_file r))).
Proof.
  intros Hr. unfold fs_or. leaves_step; [|leaves_leaf]. intros p Hp. pose proof Hp as (Hpp & Hl & He).
  pose proof (ly_plan _ Hl) as Hap. rewrite Hpp in Hap.
  pose proof (reservation_below _ (pa_reservations _ Hap r Hr)) as Hbelow.
  assert (H1 : leaves (keeps (eq r)) (unless_missing (remove_file r))).
  { apply leaves_unless_missing; [apply _|]. apply leaves_quiet_keeps. auto with fs_leaves. }
  assert (H2 : leaves shrinks (unless_missing (remove_file r))).
  { apply leaves_unless_missing; [apply _|apply leaves_remove_shrinks]. }
  unfold on_fs. destruct (H1 _ (ly_fs _ Hl)) as [Hwf Hk], (H2 _ (ly_fs _ Hl)) as [_ Hs].
  destruct (unless_missing (remove_file r) (pv_fs p)) as [fs o]. cbn in *.
  eapply carries_keeps; try done.
  - intros q Hq <-. pose proof (staged_below _ _ Hl Hq) as Hst. rewrite Hpp in Hst.
    destruct mode eqn:Hm.
    + assert (Heq : STAGING_NAME = RESERVATIONS_NAME); [|by vm_compute in Heq].
      eapply join_inj_prefix; [|exact Hbelow]. transitivity (pl_staging_directory plan0); [by apply pa_direct|done].
    + eapply staged_not_target; [done|by rewrite Hpp|exact Hq|]. rewrite Hpp.
      transitivity (join target RESERVATIONS_NAME); [by eexists|done].
  - intros Hm q q' (rid & rp & Hrp & Hpre)%placed_target <-. rewrite Hpp in Hrp, Hpre.
    destruct (pa_private _ Hap Hm _ _ Hrp) as [_ Hne]. apply Hne. by eapply join_inj_prefix.
  - intros _ q _. apply Hs.
Qed.

(** ** The move of a root *)

Local Notation staged_root rid := (join staging (root_name rid)).

(** The final place of a root is not in the staging directory, nor the other way
    round. *)
Lemma target_apart rid t q :
  plan_apart plan0 -> mode = DirectSave -> target_path_for_root plan0 rid = Some t ->
  staging `prefix_of` q -> ~ t `prefix_of` q.
Proof.
  intros Hap Hm Ht Hq Htq. unfold target_path_for_root in Ht.
  destruct (vec_get (pl_root_plans plan0) rid) as [rp|] eqn:Hrp; [|done]. cbn in Ht.
  destruct (rp_root_id rp =? rid); [|done]. injection Ht as <-.
  apply (proj1 (pa_private _ Hap Hm _ _ Hrp)). eapply join_inj_prefix; [exact Htq|].
  transitivity (pl_staging_directory plan0); [by apply pa_direct|done].
Qed.

(** The file system with a root moved. *)
Lemma move_carries p fs rid t :
  committing p -> mode = DirectSave -> target_path_for_root plan0 rid = Some t ->
  exclusive_rename (staged_root rid) t (pv_fs p) = (fs, Ok tt) -> fs_wf fs ->
  committing (set_pv_fs fs p) /\ carries p (set_pv_fs fs p) /\ nodes fs !! staged_root rid = None.
Proof.
  intros (Hpp & Hl & He) Hm Ht (Hd & Hsd & _ & _ & Hn & Hc)%exclusive_rename_ok Hwf.
  pose proof (ly_plan _ Hl) as Hap. rewrite Hpp in Hap.
  assert (Hlook : forall q, nodes fs !! q = if starts_with q t then nodes (pv_fs p) !! (staged_root rid ++ drop (length t) q)
    else if starts_with q (staged_root rid) then None else nodes (pv_fs p) !! q).
  { intros q. rewrite Hn. apply renamed_lookup; [by apply ly_fs|done|done]. }
  assert (Hout : forall q, staging `prefix_of` q -> starts_with q t = false).
  { intros q Hq. apply bool_decide_eq_false. by eapply target_apart. }
  assert (Hin : forall rel, staging `prefix_of` staged_root rid ++ rel).
  { intros rel. unfold join. rewrite <- app_assoc. by eexists. }
  assert (Hstay : forall q c, starts_with q (staged_root rid) = false -> holds (pv_fs p) q c -> holds fs q c).
  { intros q c Hs (i & Hi & Hci). exists i. rewrite Hc. split; [|done]. rewrite Hlook, Hs.
    destruct (starts_with q t) eqn:Hq; [|done]. exfalso. apply bool_decide_eq_true in Hq.
    destruct (decide (q = t)) as [->|Hne]; [congruence|].
    exact (nothing_below _ _ _ _ (ly_fs _ Hl) (absent_is_no_dir _ _ Hd) Hq Hne Hi). }
  split; [|split; [split; [done|split]|]].
  - split; [done|]. split; [|done]. destruct Hl. constructor; try done. cbn. intros eid pl. by rewrite He.
  - intros q c Hq [Hs|(_ & q' & Hq' & Hs)].
    + destruct (starts_with q (staged_root rid)) eqn:Hsq; [|by left; apply Hstay]. right.
      apply bool_decide_eq_true in Hsq as [rel ->]. cbn. rewrite Hpp. split; [done|].
      exists (t ++ rel). split; [exists rid, rel, t; unfold root_staging_path; cbn; by rewrite Hpp|].
      destruct Hs as (i & Hi & Hci). exists i. rewrite Hc. split; [|done]. rewrite Hlook.
      unfold starts_with. rewrite bool_decide_eq_true_2 by (by exists rel). by rewrite drop_app_length.
    + right. cbn. rewrite Hpp. split; [done|]. exists q'. split; [done|]. apply Hstay; [|done].
      apply bool_decide_eq_false. intros [rel Heq]. eapply placed_not_staging; [done|by rewrite Hpp|exact Hq'|].
      rewrite Hpp, Heq. apply Hin.
  - intros _ q Hq Hnone. cbn. rewrite Hlook, (Hout _ Hq). by destruct (starts_with q _).
  - rewrite Hlook, Hout by (by eexists). unfold starts_with. by rewrite bool_decide_eq_true_2.
Qed.

Lemma step_move {E} rid t :
  mode = DirectSave -> target_path_for_root plan0 rid = Some t ->
  step (on_fs (E:=E) (exclusive_rename (staged_root rid) t)).
Proof.
  intros Hm Ht p Hp. unfold on_fs.
  destruct (leaves_exclusive_rename (staged_root rid) t _ (ly_fs _ (proj1 (proj2 Hp)))) as [Hwf _].
  destruct (exclusive_rename (staged_root rid) t (pv_fs p)) as [fs [[]|e]] eqn:Hr; cbn in *.
  - destruct (move_carries p fs rid t) as (H1 & H2 & _); done.
  - apply carries_same; try done. by eapply exclusive_rename_err.
Qed.

(** What is moved to the final place of a root. *)
Definition fit_source (rid : Z) (source : path) : Prop :=
  match mode with
  | DirectSave => source = staged_root rid
  | CopyAfterVerify => target `prefix_of` source
  end.

Lemma step_rename {E} rid source t :
  fit_source rid source -> target_path_for_root plan0 rid = Some t ->
  step (on_fs (E:=E) (exclusive_rename source t)).
Proof.
  unfold fit_source. intros Hs Ht. destruct mode eqn:Hm; [subst; by apply step_move|].
  apply step_copy; [done|]. apply (keeps_within (prefix source)); [|auto with fs_leaves].
  intros q Hq. by transitivity source.
Qed.

Lemma step_finalize_source rid source : fit_source rid source -> step (finalize_root_source rid source).
Proof.
  intros Hs. apply step_self. intros p (-> & _).
  apply leaves_known; [apply _|]. intros t Ht.
  destruct (target_path_for_root plan0 rid) as [t'|] eqn:Htp; [|done]. injection Ht as ->.
  leaves_step; [leaves_leaf|]. leaves_step; [apply step_read_or; leaves_leaf|]. leaves_step; [leaves_leaf|].
  leaves_step; [by apply (step_rename rid)|].
  match goal with r : result _ _ |- _ => destruct r as [md|[]] end; try leaves_leaf.
  apply step_read_or, leaves_sync_rename; apply _.
Qed.

Section Roots.
Context (os : Platform).
Context (blake3 : list byte -> list byte) (derive_key : str -> list byte -> list byte).
Context (device_of : path -> Z) (save_to_vec : LocalSaveLedgerV2 -> option (list byte)).
Local Notation prepare := (prepare_finalization_source blake3).
Local Notation intend := (intend_source os blake3 device_of save_to_vec).

Lemma copy_root_below p rid : pv_plan p = plan0 -> target `prefix_of` copy_root_path p rid.
Proof. intros Hp. unfold copy_root_path. rewrite Hp. by do 3 apply prefix_join. Qed.
Lemma partial_below p rid ext :
  pv_plan p = plan0 -> target `prefix_of` with_extension (copy_root_path p rid) ext.
Proof.
  intros Hp. unfold with_extension. unfold copy_root_path at 1. unfold join at 1. rewrite last_snoc.
  apply prefix_app_r. unfold copy_root_path. unfold join at 1. rewrite removelast_last, Hp.
  by do 2 apply prefix_join.
Qed.

Lemma step_prepare rid vs : step (prepare rid vs).
Proof.
  apply step_self. intros p (Hp & _). rewrite Hp. destruct (bool_decide_reflect (mode = CopyAfterVerify)) as [Hm|Hm];
    cbn [negb]; [|leaves_leaf].
  pose proof (copy_root_below p rid Hp) as Hd. pose proof (partial_below p rid (lit "partial") Hp) as Hpart.
  assert (Hv : forall q, step (on_tree (verify_exact_root blake3 q (pv_manifest p) vs rid (entry_overrides p)))).
  { intros q. apply step_tree, leaves_verify_exact_root; apply _. }
  assert (Hrm : forall q, target `prefix_of` q -> step (fs_or PE_Io (remove_private_staging_path q))).
  { intros q Hq. apply step_copy_or; [done|]. eapply keeps_within; [|apply leaves_remove_private].
    intros x Hx. by transitivity q. }
  leaves_step; [apply step_read_or; leaves_leaf|]. leaves_step.
  { leaves_step; [|leaves_leaf]. leaves_step; [leaves_step; apply Hv|].
    match goal with r : result _ _ |- _ => destruct r as [[]|[]] end; try leaves_leaf;
      (leaves_step; [by apply Hrm|leaves_leaf]). }
  leaves_step; [leaves_leaf|]. leaves_step; [by apply Hrm|].
  leaves_step; [apply step_copy_or; [done|]; eapply keeps_within; [|apply leaves_copy_tree];
                intros x Hx; by etransitivity|].
  leaves_step; [apply step_read_or, leaves_sync_tree; apply _|]. leaves_step; [apply Hv|].
  leaves_step; [apply step_copy_or; [done|]; eapply keeps_within; [|apply leaves_exclusive_rename];
                intros x Hx; by etransitivity|].
  leaves_step; [apply step_read_or, leaves_sync_rename; apply _|leaves_leaf].
Qed.

(** What [prepare_finalization_source] returns. *)
Lemma prepare_fits rid vs p p' source :
  pv_plan p = plan0 -> prepare rid vs p = (p', Ok source) -> fit_source rid source.
Proof.
  intros Hp. unfold prepare_finalization_source. intros (p1 & p2 & [= <- <-] & Hrun)%bind_ok.
  unfold fit_source. rewrite Hp in Hrun. destruct mode eqn:Hm.
  - cbn in Hrun. injection Hrun as _ <-. unfold root_staging_path. by rewrite Hp.
  - cbn in Hrun. pose proof (copy_root_below p rid Hp) as Hd.
    apply bind_ok in Hrun as (p1 & b & _ & Hrun). apply bind_ok in Hrun as (p2 & ready & _ & Hrun).
    destruct ready; [by injection Hrun as _ <-|].
    do 6 (apply bind_ok in Hrun as (? & ? & _ & Hrun)). by injection Hrun as _ <-.
Qed.

Lemma step_intend rid vs digest : step (intend rid vs digest).
Proof.
  unfold intend_source. leaves_step; [apply step_lift, step_prepare|].
  leaves_step; [apply step_read_or, leaves_sync_tree; apply _|]. apply step_self. intros p _.
  leaves_step; [apply step_lift, step_tree, leaves_object_identity; apply _|].
  leaves_step; [apply step_lift, step_persist|leaves_leaf].
Qed.

Lemma intend_fits rid vs digest p p' source :
  pv_plan p = plan0 -> intend rid vs digest p = (p', Ok source) -> fit_source rid source.
Proof.
  intros Hp (p1 & s & Hrun & Hrest)%bind_ok.
  do 4 (apply bind_ok in Hrest as (? & ? & _ & Hrest)). injection Hrest as _ <-.
  unfold lift in Hrun. destruct (prepare rid vs p) as [p2 [s'|e]] eqn:Hpr; [|done].
  injection Hrun as _ <-. by eapply prepare_fits.
Qed.

Lemma step_intend_then {A} rid vs digest (f : path -> proc Provider ManifestV2DataError A) :
  (forall source, fit_source rid source -> step (f source)) -> step (intend rid vs digest ≫= f).
Proof.
  intros Hf p Hp. destruct (step_intend rid vs digest p Hp) as [H1 H2].
  destruct (intend rid vs digest p) as [p1 [source|e]] eqn:Hr; cbn in H1, H2.
  - rewrite (proc_bind_eq _ _ _ _ _ Hr).
    destruct (Hf source (intend_fits _ _ _ _ _ _ (proj1 Hp) Hr) p1 H1) as [H3 H4].
    split; [done|]. by transitivity p1.
  - unfold mbind, proc_bind. by rewrite Hr.
Qed.

Lemma step_settle rid vs digest : step (settle_intent os blake3 device_of save_to_vec rid vs digest).
Proof.
  unfold settle_intent. leaves_step; [apply step_lift, step_root_state|]. apply step_self. intros p _.
  match goal with st : RootSaveStateV2 |- _ => destruct st end; [| |leaves_leaf].
  - leaves_step; [apply step_intend|leaves_leaf].
  - leaves_step; [apply step_lift, step_persist|].
    leaves_step; [apply step_lift, step_current_intent|leaves_leaf].
Qed.

Lemma finalization_source_fits p rid :
  pv_plan p = plan0 -> fit_source rid (finalization_source_path p rid).
Proof.
  intros Hp. unfold fit_source, finalization_source_path. rewrite Hp. destruct mode; cbn.
  - unfold root_staging_path. by rewrite Hp.
  - by apply copy_root_below.
Qed.

Lemma step_finalize m rid vs digest :
  step (finalize_root os blake3 derive_key device_of save_to_vec m rid vs digest).
Proof.
  unfold finalize_root. leaves_step; [apply step_lift, step_current_intent|].
  apply step_self. intros p (Hp & _). pose proof (finalization_source_fits p rid Hp) as Hfit.
  leaves_step; [leaves_leaf|]. leaves_step; [apply step_read_or; leaves_leaf|]. leaves_step.
  { leaves_step.
    - leaves_step; [apply step_lift, step_tree, leaves_object_identity; apply _|].
      leaves_step; [leaves_leaf|]. apply leaves_attempt, step_lift. by apply step_finalize_source.
    - leaves_step; [apply step_read_or; leaves_leaf|]. leaves_step.
      { apply leaves_attempt, step_lift, step_tree, leaves_verify_adopted; apply _. }
      leaves_step; [|leaves_leaf]. apply step_intend_then. intros source Hs.
      apply leaves_attempt, step_lift. by apply step_finalize_source. }
  match goal with r : result _ _ |- _ => destruct r as [[]|[]] end; try leaves_leaf.
  leaves_step; leaves_leaf.
Qed.

Lemma step_commit_root m vs root :
  step (commit_root os blake3 derive_key device_of save_to_vec m vs root).
Proof.
  unfold commit_root. leaves_step; [leaves_leaf|]. apply step_self. intros p _. leaves_step.
  - leaves_step; [leaves_leaf|]. leaves_step; [apply step_lift, step_root_state|].
    leaves_step; [leaves_leaf|]. leaves_step; [apply step_lift, step_assign|apply step_lift, step_save_ledger].
  - leaves_step; [apply step_lift, step_root_state|]. leaves_step; [leaves_leaf|].
    leaves_step; [apply step_lift; leaves_leaf|]. leaves_step; [apply step_settle|].
    leaves_step; [apply step_finalize|]. apply step_self. intros p' _. leaves_step; [leaves_leaf|].
    leaves_step; [apply step_lift, step_assign|apply step_lift, step_save_ledger].
Qed.

Lemma step_commit_roots m vs rs :
  step (commit_roots os blake3 derive_key device_of save_to_vec m vs rs).
Proof.
  induction rs as [|root rs IH]; cbn; [leaves_leaf|]. leaves_step; [apply step_commit_root|done].
Qed.

Lemma step_remove_reservations ps :
  (forall r, r ∈ ps -> r ∈ reservations plan0) -> step (remove_reservations ps).
Proof.
  induction ps as [|r ps IH]; intros Hin; cbn; [leaves_leaf|].
  leaves_step; [apply step_remove_reservation, Hin; left|]. apply IH. intros r' Hr. apply Hin. by right.
Qed.

(** After the payloads are closed. *)
Definition commit_tail (m : ManifestV2) (vs : list VerifiedEntryV2) : proc Provider ManifestV2DataError (list SavedEntryV2) :=
  _ ← commit_roots os blake3 derive_key device_of save_to_vec m vs (roots m);
  p ← self;
  results ← pure (saved_entries p m (entries m) vs);
  _ ← remove_reservations (reservations (pv_plan p));
  mret results.
Lemma step_commit_tail m vs : step (commit_tail m vs).
Proof.
  unfold commit_tail. leaves_step; [apply step_commit_roots|]. apply step_self. intros p (Hp & _).
  leaves_step; [leaves_leaf|]. leaves_step; [|leaves_leaf]. rewrite Hp. by apply step_remove_reservations.
Qed.
End Roots.
End Carry.

(** ** The commit of a job *)

Section Job.
Context (os : Platform) (to_lowercase : str -> str) (is_nfc : str -> bool).
Context (blake3 : list byte -> list byte) (derive_key : str -> list byte -> list byte).
Context (volume_of : path -> str) (device_of : path -> Z).
Context (save_to_vec : LocalSaveLedgerV2 -> option (list byte)).
Local Notation commit := (ProviderCommit.commit_job os blake3 derive_key device_of save_to_vec).
Local Notation rest := (commit_tail os blake3 derive_key device_of save_to_vec).

Lemma touches_check_reuse eid vs :
  obeys (fun p : Provider => fs_wf (pv_fs p)) (touches eid) (check_reuse_objects blake3 vs).
Proof.
  induction vs as [|v vs IH]; cbn; [leaves_leaf|]. leaves_step; [|done]. leaves_step; [|leaves_leaf].
  leaves_step; [apply touches_self|]. leaves_step; [leaves_leaf|].
  leaves_step; [apply touches_fs_or; intros; leaves_leaf|]. leaves_step; [leaves_leaf|].
  leaves_step; [apply touches_fs_or; intros; leaves_leaf|leaves_leaf].
Qed.

(** The payloads are closed. *)
Lemma close_payloads vs p p1 r :
  layout p -> check_reuse_objects blake3 vs p = (p1, r) -> committing (pv_plan p) (set_payloads ∅ p1).
Proof.
  intros Hl Hc. destruct (obeys_run _ _ _ _ _ _ (touches_check_reuse 0 vs) (ly_fs _ Hl) Hc) as [Hwf Ht].
  pose proof (calm_layout _ _ _ Hl Hwf Ht) as Hl2. destruct Ht as ((Hp & _) & _).
  split; [done|]. split; [|done]. destruct Hl2. by constructor.
Qed.

(** The phases of a commit: one that opens no root, and one without open payloads. *)
Lemma commit_phases m vs p p' r :
  layout p -> commit m vs p = (p', r) ->
  exists p1 r1, check_reuse_objects blake3 vs p = (p1, r1) /\
  (p' = p \/ p' = p1 \/ committing (pv_plan p) (set_payloads ∅ p1) /\ rest m vs (set_payloads ∅ p1) = (p', r)).
Proof.
  intros Hl Hrun. destruct (check_reuse_objects blake3 vs p) as [p1 r1] eqn:Hc. exists p1, r1. split; [done|].
  unfold ProviderCommit.commit_job in Hrun. apply bind_run in Hrun as [(e & [=] & _)|(p0 & pp & [= <- <-] & Hrun)].
  destruct (_ || _); [injection Hrun as <- _; by left|]. right.
  apply bind_run in Hrun as [(e & He & _)|(p2 & [] & Hok & Hrun)]; [rewrite Hc in He; injection He as -> _; by left|].
  right. rewrite Hc in Hok. injection Hok as -> ->.
  apply bind_run in Hrun as [(e & [=] & _)|(p3 & [] & [= <-] & Hrun)]. split; [by eapply close_payloads|exact Hrun].
Qed.

Lemma commit_tail_run m vs plan p p' r :
  committing plan p -> rest m vs p = (p', r) -> committing plan p' /\ carries plan p p'.
Proof.
  intros Hp Hrun. pose proof (step_commit_tail plan os blake3 derive_key device_of save_to_vec m vs p Hp) as H.
  by rewrite Hrun in H.
Qed.

Lemma carries_verified plan p p' e d :
  committing plan p' -> carries plan p p' -> verified_in blake3 p e d -> verified_in blake3 p' e d.
Proof.
  intros (_ & Hl & _) (He & Hloc & _) (_ & q & c & Hq & Hat & Hrest). split; [done|].
  exists q, c. rewrite He. split; [done|]. split; [|done]. apply Hloc; [by eapply vec_get_elem|done].
Qed.

Lemma commit_verified m vs p p' r e d :
  commit m vs p = (p', r) -> verified_in blake3 p e d -> verified_in blake3 p' e d.
Proof.
  intros Hrun Hv. destruct (commit_phases _ _ _ _ _ (proj1 Hv) Hrun) as (p1 & r1 & Hc & Hcase).
  pose proof (touches_nothing_verified _ _ _ _ _ _ _ (fun eid => touches_check_reuse eid vs) Hc Hv) as Hv1.
  destruct Hcase as [->|[->|[Hcom Hrest]]]; [done..|].
  destruct (commit_tail_run _ _ _ _ _ _ Hcom Hrest) as [Hcom' Hcar].
  eapply carries_verified; [done|done|]. apply verified_payloads; [apply Hcom|done].
Qed.

Lemma commit_good m vs p p' r : commit m vs p = (p', r) -> good p -> good p'.
Proof.
  intros Hrun Hg. destruct (commit_phases _ _ _ _ _ (proj1 Hg) Hrun) as (p1 & r1 & Hc & Hcase).
  destruct Hcase as [->|[->|[Hcom Hrest]]]; [done| |].
  - eapply (touches_nothing_good _ p p1); [|exact Hc|done]. intros. apply touches_check_reuse.
  - destruct (commit_tail_run _ _ _ _ _ _ Hcom Hrest) as [(_ & Hl & He) _]. split; [exact Hl|].
    intros eid pl. by rewrite He, lookup_empty.
Qed.

(** The local provider is a safe sink. *)
#[export] Instance local_sink_safety :
  @SinkSafety Provider (local_sink os blake3 derive_key device_of save_to_vec) (verified_in blake3).
Proof.
  eapply (@Build_SinkSafety Provider (local_sink os blake3 derive_key device_of save_to_vec)) with (ss_good := good).
  all: cbn.
  - apply begin_verified.
  - apply write_block_verified.
  - intros e d' s s' r e' d Hrun. eapply touches_verified; [apply touches_choose_reuse|exact Hrun].
  - intros e s s' r e' d Hrun. eapply touches_verified; [apply touches_retire|exact Hrun].
  - intros e s s' r e' d Hrun. eapply touches_nothing_verified; [intros eid; apply touches_stage|exact Hrun].
  - intros e d' s s' r e' d Hrun. eapply touches_nothing_verified; [intros eid; apply touches_verify|exact Hrun].
  - apply commit_verified.
  - apply verify_payload_verified.
  - apply begin_good.
  - apply write_block_good.
  - apply choose_reuse_good.
  - intros e s s' Hrun. eapply touches_nothing_good; [intros eid; apply touches_stage|exact Hrun].
  - intros e d s s' r Hrun. eapply touches_nothing_good; [intros eid; apply touches_verify|exact Hrun].
  - intros m vs s s' saved. apply commit_good.
Defined.
End Job.
