(* ===== verification/DirectSave.v ===== *)
(** A direct save moves every root that is not reused: when its commit returns,
    the verified files of the root are in their final place.  A first block that was
    written and not recorded, on the other hand, strands its entry. *)

From stdpp Require Import prelude gmap strings pretty.
From Stdlib Require Import ZArith Lia Strings.Byte.
From S2P Require Import Prelude Bytes ManifestV2 OfferCodec Frames Delivery Ledger Names Proc.
From S2P Require Import ReceivePlane ReceiveInv LocalFs Destination Provider ProviderCommit FsProof ProviderSafe CommitSafe.

Local Open Scope Z_scope.

(** ** Roots the save ledger counts as saved *)

Definition counted (p : Provider) (rid : Z) : Prop :=
  exists name, vec_get (sl_roots (save_ledger_of p)) rid = Some (SavedRoot RootSaved name).

(** A root counted as saved is no longer staged. *)
Definition counted_moved (p : Provider) : Prop :=
  forall rid, counted p rid -> nodes (pv_fs p) !! root_staging_path p rid = None.

(** Before a root is moved no other one is counted. *)
Definition no_new_saves (p p' : Provider) : Prop := forall rid, counted p' rid -> counted p rid.
#[export] Instance no_new_saves_preorder : PreOrder no_new_saves.
Proof. split; [by intros p rid|]. intros a b c H1 H2 rid Hr. auto. Qed.
Lemma same_ledger_saves p p' : save_ledger_of p' = save_ledger_of p -> no_new_saves p p'.
Proof. intros Heq rid. unfold counted. by rewrite Heq. Qed.
Local Notation calmly := (obeys (fun _ : Provider => True) no_new_saves).

Lemma vec_get_insert {A} (l : list A) i j x y :
  0 <= i -> vec_get (<[Z.to_nat i := x]> l) j = Some y -> j = i /\ y = x \/ vec_get l j = Some y.
Proof.
  intros Hi [Hj Hl]%vec_get_Some. apply list_lookup_insert_Some in Hl as [(Heq & -> & _)|[_ Hl]].
  - left. split; [lia|done].
  - right. by apply vec_get_Some.
Qed.

Section Calm.
Lemma calmly_fs {E A} (call : io A) : calmly (on_fs (E:=E) call).
Proof. intros p _. unfold on_fs. destruct (call (pv_fs p)). split; [done|by apply same_ledger_saves]. Qed.
Lemma calmly_fs_or {E A} (e : E) (call : io A) : calmly (fs_or e call).
Proof. unfold fs_or. leaves_step; [apply calmly_fs|leaves_leaf]. Qed.
Lemma calmly_tree {A} (call : proc Fs DestinationPlanErrorV2 A) : calmly (on_tree call).
Proof. intros p _. unfold on_tree. destruct (call (pv_fs p)). split; [done|by apply same_ledger_saves]. Qed.
Lemma calmly_self {E} : calmly (self (E:=E)).
Proof. intros p _. by split. Qed.
Lemma calmly_lift {E E' A} (f : E' -> E) (call : proc Provider E' A) : calmly call -> calmly (lift f call).
Proof. intros Hc p Hp. unfold lift. specialize (Hc p Hp). by destruct (call p). Qed.
Lemma calmly_save to_vec : calmly (save_effect_ledger to_vec).
Proof.
  intros p _. unfold save_effect_ledger.
  destruct (match ledger_faults p with [] => _ | f :: rest => _ end) as [fault faults].
  destruct (match fault, to_vec _ with DirectoryFault, _ => _ | _, _ => _ end) as [fs r].
  split; [done|by apply same_ledger_saves].
Qed.
Lemma calmly_root_state rid : calmly (root_state rid).
Proof. unfold root_state. leaves_step; [apply calmly_self|leaves_leaf]. Qed.
Lemma calmly_entropy : calmly fill_entropy.
Proof. intros p _. unfold fill_entropy. destruct (entropy p); (split; [done|by apply same_ledger_saves]). Qed.

Lemma root_state_ok rid p p' st :
  root_state rid p = (p', Ok st) -> p' = p /\ vec_get (sl_roots (save_ledger_of p)) rid = Some st.
Proof.
  unfold root_state, mbind, proc_bind, self, pure.
  destruct (vec_get _ rid) as [st'|]; intros [= <- <-]; done.
Qed.

Lemma calmly_assign rid v : (forall name, v <> SavedRoot RootSaved name) -> calmly (assign_root_state rid v).
Proof.
  intros Hv p _. unfold assign_root_state. destruct (root_state rid p) as [p1 [st|e]] eqn:Hr.
  - rewrite (proc_bind_eq _ _ _ _ _ Hr). apply root_state_ok in Hr as [-> [Hi _]%vec_get_Some].
    split; [done|]. intros rid' [name H]. apply vec_get_insert in H as [[_ Heq]|H]; [|by exists name|done].
    by destruct (Hv name).
  - destruct (calmly_root_state rid p I) as [_ H]. unfold mbind, proc_bind. rewrite Hr in H |- *. done.
Qed.
Lemma calmly_persist to_vec rid obj : calmly (persist_new_save_intent to_vec rid obj).
Proof.
  unfold persist_new_save_intent. leaves_step; [apply calmly_self|]. do 3 (leaves_step; [leaves_leaf|]).
  leaves_step; [apply calmly_entropy|]. leaves_step; [by apply calmly_assign|apply calmly_save].
Qed.
Lemma calmly_current rid : calmly (current_intent_object rid).
Proof. unfold current_intent_object. leaves_step; [apply calmly_self|]. leaves_go. Qed.
End Calm.

Section Direct.
Context (os : Platform).
Context (blake3 : list byte -> list byte) (derive_key : str -> list byte -> list byte).
Context (device_of : path -> Z) (save_to_vec : LocalSaveLedgerV2 -> option (list byte)).
Context (plan0 : DestinationWritePlanV2) (Hmode : pl_mode plan0 = DirectSave).
Local Notation committing := (committing plan0).
Local Notation carries := (carries plan0).
Local Notation step := (obeys committing carries).
Local Notation staged_root rid := (join (pl_staging_directory plan0) (root_name rid)).

Lemma calmly_prepare rid vs : calmly (prepare_finalization_source blake3 rid vs).
Proof.
  unfold prepare_finalization_source. leaves_step; [apply calmly_self|]. leaves_step; [leaves_leaf|].
  leaves_step; [apply calmly_fs_or|]. leaves_step.
  { leaves_step; [|leaves_leaf]. leaves_step; [leaves_step; apply calmly_tree|].
    match goal with r : result _ _ |- _ => destruct r as [[]|[]] end; try leaves_leaf;
      (leaves_step; [apply calmly_fs_or|leaves_leaf]). }
  leaves_step; [leaves_leaf|]. do 3 (leaves_step; [apply calmly_fs_or|]).
  leaves_step; [apply calmly_tree|]. do 2 (leaves_step; [apply calmly_fs_or|]). leaves_leaf.
Qed.
Lemma calmly_intend rid vs digest : calmly (intend_source os blake3 device_of save_to_vec rid vs digest).
Proof.
  unfold intend_source. leaves_step; [apply calmly_lift, calmly_prepare|].
  leaves_step; [apply calmly_fs_or|]. leaves_step; [apply calmly_self|].
  leaves_step; [apply calmly_lift, calmly_tree|]. leaves_step; [apply calmly_lift, calmly_persist|leaves_leaf].
Qed.
Lemma calmly_settle rid vs digest : calmly (settle_intent os blake3 device_of save_to_vec rid vs digest).
Proof.
  unfold settle_intent. leaves_step; [apply calmly_lift, calmly_root_state|].
  leaves_step; [apply calmly_self|].
  match goal with st : RootSaveStateV2 |- _ => destruct st end; [| |leaves_leaf].
  - leaves_step; [apply calmly_intend|leaves_leaf].
  - leaves_step; [apply calmly_lift, calmly_persist|].
    leaves_step; [apply calmly_lift, calmly_current|leaves_leaf].
Qed.
Lemma calmly_finalize_source rid source : calmly (finalize_root_source rid source).
Proof.
  unfold finalize_root_source. leaves_step; [apply calmly_self|]. do 2 (leaves_step; [leaves_leaf|]).
  leaves_step; [apply calmly_fs_or|]. leaves_step; [leaves_leaf|]. leaves_step; [apply calmly_fs|].
  match goal with r : result _ _ |- _ => destruct r as [[]|[]] end; try leaves_leaf. apply calmly_fs_or.
Qed.
Lemma calmly_finalize m rid vs digest :
  calmly (finalize_root os blake3 derive_key device_of save_to_vec m rid vs digest).
Proof.
  unfold finalize_root. leaves_step; [apply calmly_lift, calmly_current|]. leaves_step; [apply calmly_self|].
  leaves_step; [leaves_leaf|]. leaves_step; [apply calmly_fs_or|]. leaves_step.
  { leaves_step.
    - leaves_step; [apply calmly_lift, calmly_tree|]. leaves_step; [leaves_leaf|].
      apply leaves_attempt, calmly_lift, calmly_finalize_source.
    - leaves_step; [apply calmly_fs_or|]. leaves_step; [apply leaves_attempt, calmly_lift, calmly_tree|].
      leaves_step; [|leaves_leaf]. leaves_step; [apply calmly_intend|].
      apply leaves_attempt, calmly_lift, calmly_finalize_source. }
  match goal with r : result _ _ |- _ => destruct r as [[]|[]] end; try leaves_leaf.
  leaves_step; leaves_leaf.
Qed.

(** ** A root that is moved *)

Lemma lift_ok {E E' A} (f : E' -> E) (call : proc Provider E' A) p p' a :
  lift f call p = (p', Ok a) -> call p = (p', Ok a).
Proof. unfold lift. destruct (call p) as [p1 [b|e]]; by intros [= <- <-]. Qed.
Lemma attempt_ok {A} (call : proc Provider ManifestV2DataError A) p p' r :
  attempt call p = (p', Ok r) -> call p = (p', r).
Proof. unfold attempt. destruct (call p) as [p1 b]; by intros [= <- <-]. Qed.
Lemma read_same {E A} (e : E) (call : io A) p p' r :
  committing p -> leaves same_tree call -> fs_or e call p = (p', r) -> same_tree (pv_fs p) (pv_fs p').
Proof.
  intros Hp Hc (fs & r0 & Hrun & -> & _)%fs_or_run. destruct (Hc _ (ly_fs _ (proj1 (proj2 Hp)))) as [_ H].
  by rewrite Hrun in H.
Qed.

Lemma try_exists_false q p p' (e : ManifestV2DataError) :
  fs_or e (try_exists q) p = (p', Ok false) -> nodes (pv_fs p') !! q = None.
Proof.
  intros (fs & Hrun & ->)%fs_or_ok. unfold try_exists in Hrun.
  apply bind_ok in Hrun as (fs1 & [] & _ & Hrun). apply bind_ok in Hrun as (fs2 & fs3 & [= <- <-] & Hrun).
  injection Hrun as <- Hb. cbn. by apply bool_decide_eq_false, eq_None_not_Some in Hb.
Qed.

Lemma finalize_source_gone rid p p' :
  committing p -> finalize_root_source rid (staged_root rid) p = (p', Ok tt) ->
  nodes (pv_fs p') !! staged_root rid = None.
Proof.
  intros Hp Hrun. apply bind_ok in Hrun as (p1 & p2 & [= <- <-] & Hrun). rewrite (proj1 Hp) in Hrun.
  apply bind_ok in Hrun as (p1 & t & [Ht ->]%pure_ok & Hrun).
  destruct (target_path_for_root plan0 rid) as [t'|] eqn:Htp; [|done]. injection Ht as ->.
  apply bind_ok in Hrun as (p1 & res & [_ ->]%pure_ok & Hrun).
  apply bind_ok in Hrun as (p1 & b & Hex & Hrun).
  assert (Hp1 : committing p1).
  { eapply (obeys_run committing carries); [|exact Hp|exact Hex]. apply step_read_or. leaves_leaf. }
  apply bind_ok in Hrun as (p2 & [] & [_ ->]%throw_if_ok & Hrun).
  apply bind_ok in Hrun as (p2 & renamed & Hren & Hrun). unfold on_fs in Hren.
  destruct (leaves_exclusive_rename (staged_root rid) t _ (ly_fs _ (proj1 (proj2 Hp1)))) as [Hwf _].
  destruct (exclusive_rename (staged_root rid) t (pv_fs p1)) as [fs o] eqn:Hx. injection Hren as <- <-.
  destruct o as [[]|[]]; try done. destruct (move_carries plan0 p1 fs rid t Hp1 Hmode Htp Hx Hwf) as (Hc & _ & Hgone).
  apply read_same in Hrun as (-> & _); [done|done|]. apply leaves_sync_rename; apply _.
Qed.

Lemma finalize_gone m rid vs digest p p' :
  committing p -> finalize_root os blake3 derive_key device_of save_to_vec m rid vs digest p = (p', Ok tt) ->
  nodes (pv_fs p') !! staged_root rid = None.
Proof.
  intros Hp Hrun. apply bind_ok in Hrun as (p1 & obj & H1 & Hrun).
  assert (Hp1 : committing p1).
  { eapply (obeys_run committing carries); [|exact Hp|exact H1]. apply step_lift, step_current_intent. }
  apply bind_ok in Hrun as (p2 & p3 & [= <- <-] & Hrun).
  assert (Hsrc : finalization_source_path p1 rid = staged_root rid).
  { unfold finalization_source_path, root_staging_path. rewrite (proj1 Hp1), Hmode. done. }
  rewrite Hsrc in Hrun. apply bind_ok in Hrun as (p2 & t & [_ ->]%pure_ok & Hrun).
  apply bind_ok in Hrun as (p2 & b & H2 & Hrun).
  assert (Hp2 : committing p2).
  { eapply (obeys_run committing carries); [|exact Hp1|exact H2]. apply step_read_or. leaves_leaf. }
  apply bind_ok in Hrun as (p3 & outcome & H3 & Hrun).
  assert (Hend : outcome = Ok tt /\ p3 = p').
  { destruct outcome as [[]|[]]; try done; [by injection Hrun as ->|].
    match goal with x : DestinationPlanErrorV2 |- _ => destruct x; done end. }
  destruct Hend as [-> <-]. clear Hrun. destruct b.
  - apply bind_ok in H3 as (p4 & found & H4%lift_ok & H3). destruct (negb _); [done|].
    apply attempt_ok, lift_ok in H3. eapply finalize_source_gone; [|done].
    eapply (obeys_run committing carries); [|exact Hp2|exact H4]. apply step_tree, leaves_object_identity; apply _.
  - pose proof (try_exists_false _ _ _ _ H2) as Hgone.
    apply bind_ok in H3 as (p4 & b & H4 & H3).
    assert (Hsame : same_tree (pv_fs p2) (pv_fs p4)) by (eapply read_same; [done| |exact H4]; leaves_leaf).
    destruct b.
    + apply attempt_ok, lift_ok in H3. unfold on_tree in H3.
      assert (Hp4 : committing p4).
      { eapply (obeys_run committing carries); [|exact Hp2|exact H4]. apply step_read_or. leaves_leaf. }
      destruct (leaves_verify_adopted same_tree os blake3 derive_key device_of t obj m vs rid (entry_overrides p1)
        (sd_stable_object_identity (storage_domain (pv_plan p1))) _ (ly_fs _ (proj1 (proj2 Hp4)))) as [_ (Hn & _)].
      destruct (verify_adopted_root _ _ _ _ _ _ _ _ _ _ _ (pv_fs p4)) as [fs r]. injection H3 as <- _.
      cbn in *. by rewrite Hn, (proj1 Hsame).
    + rewrite (proj1 Hp1), Hmode in H3. done.
Qed.

(** ** All roots *)

Local Notation commit_root := (commit_root os blake3 derive_key device_of save_to_vec).
Local Notation commit_roots := (commit_roots os blake3 derive_key device_of save_to_vec).

Lemma carries_gone p p' rid :
  carries p p' -> nodes (pv_fs p) !! staged_root rid = None -> nodes (pv_fs p') !! staged_root rid = None.
Proof. intros (_ & _ & H) Hn. apply H; [done|by eexists|done]. Qed.

Lemma counted_carried p p' :
  committing p -> committing p' -> carries p p' -> no_new_saves p p' -> counted_moved p -> counted_moved p'.
Proof.
  intros (Hp & _) (Hp' & _) Hcar Hnew Hcm rid Hr. specialize (Hcm rid (Hnew rid Hr)).
  unfold root_staging_path in *. rewrite Hp in Hcm. rewrite Hp'. by eapply carries_gone.
Qed.

(** The state of a root as the commit leaves it. *)
Lemma save_counted rid name p p' :
  committing p -> (_ ← lift D_Destination (assign_root_state rid (SavedRoot RootSaved name));
    lift D_Destination (save_effect_ledger save_to_vec)) p = (p', Ok tt) ->
  committing p' /\ carries p p' /\ (forall rid', counted p' rid' -> rid' = rid \/ counted p rid').
Proof.
  intros Hp Hrun. apply bind_ok in Hrun as (p1 & [] & H1 & H2).
  destruct (obeys_run committing carries _ _ _ _ (step_lift plan0 _ _ (step_assign plan0 rid _)) Hp H1) as [Hp1 Hc1].
  destruct (obeys_run committing carries _ _ _ _ (step_lift plan0 _ _ (step_save_ledger plan0 save_to_vec)) Hp1 H2) as [Hp2 Hc2].
  destruct (obeys_run (fun _ => True) no_new_saves _ _ _ _ (calmly_lift D_Destination _ (calmly_save save_to_vec)) I H2) as [_ Hn2].
  split; [done|]. split; [by transitivity p1|]. intros rid' [name' Hr]%Hn2.
  apply lift_ok in H1. apply bind_ok in H1 as (p3 & st & [-> [Hpos _]%vec_get_Some]%root_state_ok & [= <-]).
  apply vec_get_insert in Hr as [[-> _]|Hr]; [by left|by right; exists name'|done].
Qed.

Lemma commit_root_moved m vs root v p p' :
  committing p -> counted_moved p -> vec_get vs (root_entry_id root) = Some v ->
  commit_root m vs root p = (p', Ok tt) ->
  committing p' /\ carries p p' /\ counted_moved p' /\
  (ve_completion_choice v <> CompletionReuseChosen -> 0 <= root_id root /\
     nodes (pv_fs p') !! staged_root (root_id root) = None).
Proof.
  intros Hp Hcm Hv Hrun.
  destruct (obeys_run committing carries _ _ _ _ (step_commit_root plan0 os blake3 derive_key device_of save_to_vec m vs root) Hp Hrun) as [Hp' Hcar].
  split; [done|]. split; [done|]. unfold ProviderCommit.commit_root in Hrun. rewrite Hv in Hrun.
  apply bind_ok in Hrun as (p1 & v' & [[= <-] ->]%pure_ok & Hrun).
  apply bind_ok in Hrun as (p1 & p2 & [= <- <-] & Hrun).
  destruct (bool_decide_reflect (ve_completion_choice v = CompletionReuseChosen)) as [Hreuse|Hno].
  - split; [|done]. apply bind_ok in Hrun as (p1 & reuse & [_ ->]%pure_ok & Hrun).
    eapply counted_carried; [exact Hp|done|done| |done].
    eapply (obeys_run (fun _ => True)); [|done|exact Hrun].
    leaves_step; [apply calmly_lift, calmly_root_state|]. leaves_step; [leaves_leaf|].
    leaves_step; [by apply calmly_lift, calmly_assign|apply calmly_lift, calmly_save].
  - apply bind_ok in Hrun as (p1 & st & [-> Hst]%lift_ok%root_state_ok & Hrun).
    pose proof Hst as [Hpos _]%vec_get_Some.
    destruct (is_saved_as RootSaved st) eqn:Hsaved.
    + injection Hrun as <-. split; [done|]. intros _. split; [done|].
      specialize (Hcm (root_id root)). unfold root_staging_path in Hcm. rewrite (proj1 Hp) in Hcm. apply Hcm.
      destruct st as [| |[] name]; try done. by exists name.
    + apply bind_ok in Hrun as (p1 & digest & [_ ->]%lift_ok%pure_ok & Hrun).
      apply bind_ok in Hrun as (p1 & [] & H1 & Hrun). apply bind_ok in Hrun as (p2 & [] & H2 & Hrun).
      destruct (obeys_run committing carries _ _ _ _ (step_settle plan0 os blake3 device_of save_to_vec _ _ _) Hp H1) as [Hp1 Hc1].
      destruct (obeys_run committing carries _ _ _ _ (step_finalize plan0 os blake3 derive_key device_of save_to_vec _ _ _ _) Hp1 H2) as [Hp2 Hc2].
      destruct (obeys_run (fun _ => True) no_new_saves _ _ _ _ (calmly_settle _ _ _) I H1) as [_ Hn1].
      destruct (obeys_run (fun _ => True) no_new_saves _ _ _ _ (calmly_finalize _ _ _ _) I H2) as [_ Hn2].
      pose proof (finalize_gone _ _ _ _ _ _ Hp1 H2) as Hgone.
      assert (Hcm2 : counted_moved p2).
      { eapply counted_carried; [exact Hp|done|by transitivity p1|by transitivity p1|done]. }
      apply bind_ok in Hrun as (p3 & p4 & [= <- <-] & Hrun).
      apply bind_ok in Hrun as (p3 & rp & [_ ->]%pure_ok & Hrun).
      destruct (save_counted _ _ _ _ Hp2 Hrun) as (_ & Hc3 & Hwho).
      pose proof (carries_gone _ _ _ Hc3 Hgone) as Hgone3. split; [|done].
      intros rid Hr. destruct (Hwho rid Hr) as [->|Hold].
      * unfold root_staging_path. by rewrite (proj1 Hp').
      * specialize (Hcm2 rid Hold). unfold root_staging_path in *. rewrite (proj1 Hp2) in Hcm2.
        rewrite (proj1 Hp'). by eapply carries_gone.
Qed.

Lemma commit_roots_moved m vs rs p p' :
  committing p -> counted_moved p -> commit_roots m vs rs p = (p', Ok tt) ->
  committing p' /\ carries p p' /\
  forall root v, root ∈ rs -> vec_get vs (root_entry_id root) = Some v ->
    ve_completion_choice v <> CompletionReuseChosen -> 0 <= root_id root /\
    nodes (pv_fs p') !! staged_root (root_id root) = None.
Proof.
  revert p. induction rs as [|r rs IH]; intros p Hp Hcm Hrun.
  { injection Hrun as <-. split; [done|]. split; [done|]. by intros root v Hr%not_elem_of_nil. }
  cbn in Hrun. apply bind_ok in Hrun as (p1 & [] & H1 & Hrun).
  destruct (vec_get vs (root_entry_id r)) as [vr|] eqn:Hvr;
    [|unfold ProviderCommit.commit_root in H1; by rewrite Hvr in H1].
  destruct (commit_root_moved _ _ _ _ _ _ Hp Hcm Hvr H1) as (Hp1 & Hc1 & Hcm1 & Hgone).
  destruct (IH p1 Hp1 Hcm1 Hrun) as (Hp' & Hc' & Hrest). split; [done|]. split; [by transitivity p1|].
  intros root v [->|Hin]%elem_of_cons Hv Hno; [|by eauto].
  rewrite Hvr in Hv. injection Hv as ->. destruct (Hgone Hno) as [H0 Hg]. split; [done|]. by eapply carries_gone.
Qed.

Lemma root_name_inj r1 r2 : 0 <= r1 -> 0 <= r2 -> root_name r1 = root_name r2 -> r1 = r2.
Proof.
  unfold root_name. intros H1 H2 Heq. apply app_inv_head, lit_inj, (inj pretty) in Heq. lia.
Qed.

(** What is located in a root that is no longer staged is in its final place. *)
Lemma located_placed p rid rel c :
  committing p -> 0 <= rid -> nodes (pv_fs p) !! staged_root rid = None -> located p (staged_root rid ++ rel) c ->
  exists t, target_path_for_root plan0 rid = Some t /\ holds (pv_fs p) (t ++ rel) c.
Proof.
  intros (Hp & Hl & _) H0 Hgone [(i & Hi & _)|(_ & q' & (rid' & rel' & t & Heq & Ht & ->) & Hh)].
  - exfalso. destruct (decide (staged_root rid ++ rel = staged_root rid)) as [Hsame|Hne].
    + rewrite Hsame in Hi. congruence.
    + eapply (nothing_below _ _ _ _ (ly_fs _ Hl) (absent_is_no_dir _ _ Hgone)); [by exists rel|exact Hne|exact Hi].
  - unfold root_staging_path, join in Heq. rewrite Hp in Heq, Ht. rewrite <- !app_assoc in Heq.
    apply app_inv_head in Heq. injection Heq as Hname ->. exists t. split; [|done]. rewrite <- Ht. f_equal.
    apply root_name_inj; [done| |by unfold root_name; rewrite Hname]. unfold target_path_for_root in Ht.
    destruct (vec_get (pl_root_plans plan0) rid') as [rp|] eqn:Hrp; [|done]. by apply vec_get_Some in Hrp as [? _].
Qed.
End Direct.

Section Places.
Context (os : Platform).
Context (blake3 : list byte -> list byte) (derive_key : str -> list byte -> list byte).
Context (device_of : path -> Z) (save_to_vec : LocalSaveLedgerV2 -> option (list byte)).
Local Notation commit := (ProviderCommit.commit_job os blake3 derive_key device_of save_to_vec).

(** Looking at the reused objects changes neither files nor states. *)
Definition looked (p p' : Provider) : Prop :=
  pv_plan p' = pv_plan p /\ save_ledger_of p' = save_ledger_of p /\ same_tree (pv_fs p) (pv_fs p').
#[local] Instance looked_preorder : PreOrder looked.
Proof.
  split; [done|]. intros a b c (? & ? & ?) (? & ? & ?). split; [congruence|]. split; [congruence|].
  by transitivity (pv_fs b).
Qed.
Lemma looked_fs {A} (e : ManifestV2DataError) (call : io A) :
  leaves same_tree call -> obeys (fun p : Provider => fs_wf (pv_fs p)) looked (fs_or e call).
Proof.
  intros Hc p Hwf. unfold fs_or, on_fs, mbind, proc_bind. destruct (Hc _ Hwf) as [H1 H2].
  destruct (call (pv_fs p)) as [fs r]. cbn in *. by split.
Qed.
Lemma check_reuse_counted vs p p1 r :
  layout p -> check_reuse_objects blake3 vs p = (p1, r) -> counted_moved p -> counted_moved (set_payloads ∅ p1).
Proof.
  intros Hl Hc Hcm.
  assert (Hlook : obeys (fun p : Provider => fs_wf (pv_fs p)) looked (check_reuse_objects blake3 vs)).
  { clear. induction vs as [|v vs IH]; cbn; [leaves_leaf|]. leaves_step; [|done]. leaves_step; [|leaves_leaf].
    leaves_step; [by intros p Hp|]. leaves_step; [leaves_leaf|].
    leaves_step; [apply looked_fs; leaves_leaf|]. leaves_step; [leaves_leaf|].
    leaves_step; [apply looked_fs; leaves_leaf|leaves_leaf]. }
  destruct (obeys_run _ _ _ _ _ _ Hlook (ly_fs _ Hl) Hc) as [_ (Hp & Hs & Hn & _)].
  intros rid. unfold counted, root_staging_path. cbn. rewrite Hs, Hn, Hp. apply Hcm.
Qed.

(** The roots of a commit that returned, and what came of the file system after. *)
Lemma commit_ok_phases m vs p p' saved :
  layout p -> commit m vs p = (p', Ok saved) ->
  exists p1 p2, check_reuse_objects blake3 vs p = (p1, Ok tt) /\
    committing (pv_plan p) (set_payloads ∅ p1) /\
    commit_roots os blake3 derive_key device_of save_to_vec m vs (roots m) (set_payloads ∅ p1) = (p2, Ok tt) /\
    remove_reservations (reservations (pv_plan p2)) p2 = (p', Ok tt).
Proof.
  intros Hl Hrun.
  unfold ProviderCommit.commit_job in Hrun. apply bind_ok in Hrun as (p0 & pp & [= <- <-] & Hrun).
  destruct (_ || _); [done|]. apply bind_ok in Hrun as (p1 & [] & Hc & Hrun).
  apply bind_ok in Hrun as (p2 & [] & [= <-] & Hrun). apply bind_ok in Hrun as (p2 & [] & Hroots & Hrun).
  apply bind_ok in Hrun as (p3 & p4 & [= <- <-] & Hrun). apply bind_ok in Hrun as (p3 & res & [_ ->]%pure_ok & Hrun).
  apply bind_ok in Hrun as (p3 & [] & Hres & [= <- _]). exists p1, p2. split; [done|]. split; [by eapply close_payloads|done].
Qed.

(** C23. A direct save puts what it verified in its place: when the commit of a job
    returns, a verified file of a root that is not a reused one is in the final
    place of the root, at its path in the root, with the bytes that were verified.
    A root that an earlier commit counted as saved must no longer be staged. *)
Theorem direct_save_places m vs p p' saved root v e d rel :
  layout p -> pl_mode (pv_plan p) = DirectSave -> counted_moved p ->
  commit m vs p = (p', Ok saved) ->
  root ∈ roots m -> vec_get vs (root_entry_id root) = Some v ->
  ve_completion_choice v <> CompletionReuseChosen ->
  verified_in blake3 p e d ->
  vec_get (entry_paths p) (entry_id e) = Some (root_staging_path p (root_id root) ++ rel) ->
  exists t c, target_path_for_root (pv_plan p) (root_id root) = Some t /\
    holds (pv_fs p') (t ++ rel) c /\ blake3 c = d /\ zlen c = plaintext_size e.
Proof.
  intros Hl Hm Hcm Hrun Hroot Hvs Hno Hv Hpath.
  destruct (commit_ok_phases _ _ _ _ _ Hl Hrun) as (p1 & p2 & Hc & Hcom & Hroots & Hres).
  destruct (obeys_run _ _ _ _ _ _ (touches_check_reuse blake3 0 vs) (ly_fs _ Hl) Hc) as [_ ((Hp1 & _ & He1 & _) & _)].
  pose proof (commit_verified _ _ _ _ _ _ _ _ _ _ _ _ Hrun Hv) as (_ & q & c & Hq & Hloc & Hd & Hs).
  assert (Hcm1 : counted_moved (set_payloads ∅ p1)).
  { by apply check_reuse_counted with vs p (Ok tt). }
  destruct (commit_roots_moved _ _ _ _ _ _ Hm _ _ _ _ _ Hcom Hcm1 Hroots) as (Hp2 & Hc2 & Hgone).
  destruct (Hgone root v Hroot Hvs Hno) as [H0 Hg].
  destruct (obeys_run _ _ _ _ _ _ (step_remove_reservations (pv_plan p) (reservations (pv_plan p2))
    ltac:(by rewrite (proj1 Hp2))) Hp2 Hres) as [Hp' Hc'].
  pose proof (carries_gone _ Hm _ _ _ Hc' Hg) as Hg'.
  assert (Heq : entry_paths p' = entry_paths p).
  { destruct Hc2 as [E2 _], Hc' as [E3 _]. rewrite E3, E2. exact He1. }
  rewrite Heq, Hpath in Hq. injection Hq as <-.
  destruct (located_placed (pv_plan p) p' (root_id root) rel c Hp' H0 Hg' Hloc) as (t & Ht & Hh).
  exists t, c. done.
Qed.
End Places.

(** ** A block that was not recorded *)

(** Bytes at the staging path of an entry. *)
Definition leftover (p : Provider) (e : ManifestEntryV2) : Prop :=
  exists q c, vec_get (entry_paths p) (entry_id e) = Some q /\ holds (pv_fs p) q c /\ c <> [].

Lemma open_create_there q fs fs' i j :
  open_create q fs = (fs', Ok i) -> nodes fs !! q = Some (FileNode j) -> i = j.
Proof.
  unfold open_create. intros (fs1 & [] & (Hn & _)%may_fail_ok & Hrun)%bind_ok Hq.
  apply bind_ok in Hrun as (fs2 & fs3 & [= <- <-] & Hrun). rewrite Hn, Hq in Hrun. by injection Hrun.
Qed.

(** A file is opened at block zero only if it is empty. *)
Lemma open_payload_leftover e start p p' pl :
  fs_wf (pv_fs p) -> 0 <= plaintext_size e -> leftover p e -> open_payload e start 0 p <> (p', Ok pl).
Proof.
  intros Hwf Hsize (q & c & Hq & (i & Hi & Hc) & Hne) Hrun. unfold open_payload in Hrun. destruct (negb _); [done|].
  apply bind_ok in Hrun as (p1 & q1 & H1 & Hrun). unfold entry_path in H1.
  apply bind_ok in H1 as (p2 & p3 & [= <- <-] & [Hp ->]%pure_ok). rewrite Hq in Hp. injection Hp as <-.
  apply bind_ok in Hrun as (p4 & [] & H4 & Hrun).
  assert (Hquiet : quiet (fun _ => False) (pv_fs p) (pv_fs p4) /\ fs_wf (pv_fs p4)).
  { destruct (parent q) as [above|]; [|by injection H4 as <-]. apply fs_or_ok in H4 as (fs & Hf & ->).
    destruct (leaves_create_dir_all (fun _ => False) above _ Hwf) as [H1 H2]. rewrite Hf in H1, H2. done. }
  destruct Hquiet as [Hquiet Hwf4].
  apply bind_ok in Hrun as (p5 & blocks & [Hb ->]%pure_ok & Hrun).
  apply bind_ok in Hrun as (p6 & j & (fs6 & Ho & ->)%fs_or_ok & Hrun).
  assert (Hn4 : nodes (pv_fs p4) !! q = Some (FileNode i)) by (by apply (q_nodes _ _ _ Hquiet); [intros []|]).
  pose proof (open_create_there _ _ _ _ _ Ho Hn4) as ->.
  destruct (obeys_run _ _ _ _ _ _ (leaves_open_create (fun _ => False) q) Hwf4 Ho) as [_ Hq6].
  apply bind_ok in Hrun as (p7 & len & (fs7 & (Hlen & _)%file_len_ok & ->)%fs_or_ok & Hrun).
  apply bind_ok in Hrun as (p8 & [] & [Hg _]%throw_if_ok & _). bool_prop. cbn in Hlen.
  rewrite (q_contents _ _ _ Hq6), (q_contents _ _ _ Hquiet), Hc in Hlen.
  - cbn in Hlen. unfold checked_mul in Hb. destruct (_ <=? _); [|done]. cbn in Hb. injection Hb as <-.
    destruct c; [done|]. unfold zlen in *. cbn in *. lia.
  - exact (proj1 (wf_ino _ Hwf _ _ Hi)).
  - pose proof (proj1 (wf_ino _ Hwf4 _ _ Hn4)). lia.
Qed.

Lemma leftover_stays T p p' e :
  fs_wf (pv_fs p) -> calm T p p' -> (forall q, ~ T q) -> leftover p e -> leftover p' e.
Proof.
  intros Hwf ((_ & _ & He & _) & Hq & _) HT (q & c & Hqe & Hh & Hc). exists q, c. rewrite He.
  split; [done|]. split; [|done]. by eapply holds_quiet.
Qed.

(** The first block leaves bytes. *)
Lemma first_block_leftover e b p p' :
  good p -> write_block e b p = (p', Ok tt) -> encoded_bytes b <> [] -> leftover p' e.
Proof.
  intros Hg Hrun Hb. pose proof (write_block_good _ _ _ _ Hrun Hg) as [_ Hg'].
  unfold write_block in Hrun. apply bind_ok in Hrun as (p0 & p1 & [= <- <-] & Hrun).
  apply bind_ok in Hrun as (p1 & pl & [Hpl ->]%pure_ok & Hrun).
  apply bind_ok in Hrun as (p1 & [] & [_ ->]%throw_if_ok & Hrun).
  apply bind_ok in Hrun as (p1 & [] & _ & Hrun). apply bind_ok in Hrun as (p2 & [] & _ & Hrun).
  destruct (checked_add u64_max (op_bytes pl) (plaintext_length b)); [|by apply bind_ok in Hrun as (? & [] & _ & [=])].
  injection Hrun as <-. destruct (Hg' (entry_id e) _ (lookup_insert_eq _ _ _)) as (q & Hq & Hn & Hc & _). cbn in Hq, Hn, Hc.
  exists q, (hasher pl ++ encoded_bytes b). split; [done|]. split; [by eexists|].
  intros [_ Hnil]%app_eq_nil. done.
Qed.

(** C34. A first block that is written but not recorded strands its entry: when the
    receiver stops between [write_block] and the save of the ledger, reconciling
    passes over the entry, which the ledger has at block zero, and a receiver that
    opens the same files again has no [begin_entry] at block zero that succeeds,
    however often it is tried. *)
Theorem first_block_strands ledger_to_vec m e start b p p1 p2 bytes rest w :
  good p -> 0 <= plaintext_size e -> begin_entry e start 0 p = (p1, Ok tt) ->
  write_block e b p1 = (p2, Ok tt) -> encoded_bytes b <> [] ->
  reconcile_from ledger_to_vec m ((entry_id e, 0, bytes, false) :: rest) w = reconcile_from ledger_to_vec m rest w /\
  forall p3 n, pv_fs p3 = pv_fs p2 -> entry_paths p3 = entry_paths p2 ->
    (begin_entry e start 0 (Nat.iter n (fun p => (begin_entry e start 0 p).1) p3)).2 <> Ok tt.
Proof.
  intros Hg Hsize Hbegin Hwrite Hne. split; [done|].
  pose proof (begin_good _ _ _ _ _ Hbegin Hg) as Hg1.
  pose proof (first_block_leftover _ _ _ _ Hg1 Hwrite Hne) as Hleft.
  pose proof (write_block_good _ _ _ _ Hwrite Hg1) as Hg2.
  assert (Hno : forall p, fs_wf (pv_fs p) -> leftover p e ->
    (begin_entry e start 0 p).2 <> Ok tt /\ fs_wf (pv_fs (begin_entry e start 0 p).1) /\
    leftover (begin_entry e start 0 p).1 e).
  { intros x Hwf Hl. unfold begin_entry, mbind, proc_bind.
    destruct (touches_open_payload (-1) e start 0 x Hwf) as [Hwf' Hcalm].
    destruct (open_payload e start 0 x) as [y [pl|er]] eqn:Ho; cbn in *.
    - exfalso. exact (open_payload_leftover _ _ _ _ _ Hwf Hsize Hl Ho).
    - split; [done|]. split; [done|]. eapply (leftover_stays _ x y); [done|exact Hcalm| |done].
      by intros q [? _]%vec_get_Some. }
  intros p3 n Hfs Hpaths.
  assert (Hinv : fs_wf (pv_fs (Nat.iter n (fun p => (begin_entry e start 0 p).1) p3)) /\
    leftover (Nat.iter n (fun p => (begin_entry e start 0 p).1) p3) e).
  { induction n as [|n [IH1 IH2]]; cbn; [|by apply Hno]. unfold leftover. rewrite Hfs, Hpaths.
    split; [apply ly_fs, Hg2|done]. }
  exact (proj1 (Hno _ (proj1 Hinv) (proj2 Hinv))).
Qed.
