(* ===== verification/DestinationProof.v ===== *)
(** The paths and names of a receive: no two entries share a staging path, no name
    leaves its directory, and a provider that opens is laid out as the proofs of
    its commit need it. *)

From stdpp Require Import prelude gmap strings pretty.
From Stdlib Require Import ZArith Lia Strings.Byte.
From S2P Require Import Prelude Bytes ManifestV2 ManifestSpec ValidateTheorem OfferCodec Frames Delivery Ledger Names Proc.
From S2P Require Import LocalFs Destination Provider ProviderCommit FsProof ProviderSafe DirectSave.

Local Open Scope Z_scope.

(** ** Names of one component *)

(** A file name: no separator, and not a directory's own or its parent's. *)
Definition name_byte (b : byte) : Prop := b <> x00 /\ b <> x2f /\ b <> x5c.
Definition file_name_ok (name : str) : Prop :=
  name <> [] /\ name <> lit "." /\ name <> lit ".." /\ Forall name_byte name.

(** An ASCII byte of a string is one of its characters. *)
Lemma ascii_in_chars n s l b :
  (length s <= n)%nat -> utf8_decode s = Some l -> b ∈ s -> byte_val b < 128 -> byte_val b ∈ l.
Proof.
  revert s l. induction n as [|n IH]; intros s l Hlen Hd Hb Hascii.
  { destruct s; [by apply not_elem_of_nil in Hb|cbn in Hlen; lia]. }
  assert (Hcont : forall lo hi c, 128 <= lo -> in_range lo hi c = true -> b <> c).
  { intros lo hi c Hlo Hc ->. unfold in_range in Hc. bool_prop. lia. }
  destruct s as [|b0 t0]; [by apply not_elem_of_nil in Hb|]. cbn in Hlen. cbn [utf8_decode] in Hd.
  destruct (Z.ltb_spec (byte_val b0) 128) as [H0|H0].
  { destruct (utf8_decode t0) as [l0|] eqn:Ht; [|done]. injection Hd as <-.
    apply elem_of_cons in Hb as [->|Hb]; [left|right]. eapply IH; [|exact Ht|done|done]. lia. }
  apply elem_of_cons in Hb as [->|Hb]; [lia|].
  assert (Hrest : forall k t x, (length t <= n)%nat -> cons x <$> utf8_decode t = Some l -> b ∈ k ++ t ->
    Forall (fun c => b <> c) k -> byte_val b ∈ l).
  { intros k t x Ht Hl [Hk|Hbt]%elem_of_app Hne.
    - rewrite Forall_forall in Hne. by destruct (Hne b Hk).
    - destruct (utf8_decode t) as [l0|] eqn:Hdt; [|done]. injection Hl as <-. right. by eapply IH. }
  destruct t0 as [|b1 t1]; [done|]. cbn in Hlen. destruct (_ && _) in Hd.
  { destruct (is_cont b1) eqn:H1; [|done]. eapply (Hrest [b1] t1); [lia|exact Hd|exact Hb|].
    constructor; [|done]. by eapply (Hcont 128). }
  destruct t1 as [|b2 t2]; [done|]. cbn in Hlen. destruct (_ && _) in Hd.
  { destruct (_ && is_cont b2) eqn:H2; [|done]. apply andb_true_iff in H2 as [H1 H2].
    eapply (Hrest [b1; b2] t2); [lia|exact Hd|exact Hb|].
    constructor; [|constructor; [by eapply (Hcont 128)|done]].
    destruct (_ =? _); [by eapply (Hcont 160)|]. destruct (_ =? _); by eapply (Hcont 128). }
  destruct t2 as [|b3 t3]; [done|]. cbn in Hlen. destruct (_ && _) in Hd; [|done].
  destruct (_ && is_cont b3) eqn:H3; [|done]. apply andb_true_iff in H3 as [H12 H3].
  apply andb_true_iff in H12 as [H1 H2]. eapply (Hrest [b1; b2; b3] t3); [lia|exact Hd|exact Hb|].
  constructor; [|constructor; [by eapply (Hcont 128)|constructor; [by eapply (Hcont 128)|done]]].
  destruct (_ =? _); [by eapply (Hcont 144)|]. destruct (_ =? _); by eapply (Hcont 128).
Qed.

(** A component of a valid manifest is a file name. *)
Lemma safe_component_name is_nfc c : utf8_valid c = true -> safe_component is_nfc c -> file_name_ok c.
Proof.
  intros Hu (H1 & H2 & H3 & _ & Hall & _). split; [done|]. split; [done|]. split; [done|].
  unfold utf8_valid in Hu. destruct (utf8_decode c) as [l|] eqn:Hd; [|done].
  unfold chars in Hall. rewrite Hd in Hall. cbn in Hall.
  rewrite Forall_forall in Hall. apply Forall_forall.
  assert (Hno : forall b, b ∈ c -> byte_val b < 128 ->
    is_control (byte_val b) = false /\ is_separator (byte_val b) = false).
  { intros b Hb Hlt. apply Hall. by eapply ascii_in_chars. }
  intros b Hb. repeat split; intros ->; destruct (Hno _ Hb eq_refl) as [Hc Hs]; vm_compute in Hc, Hs; done.
Qed.

Lemma name_bytes_sub (base name : str) (extra : list byte) :
  Forall name_byte base -> Forall name_byte extra -> (forall b, b ∈ name -> b ∈ base \/ b ∈ extra) ->
  Forall name_byte name.
Proof. rewrite !Forall_forall. intros Hb He Hsub b [H|H]%Hsub; auto. Qed.

(** Numbered variants. *)
Lemma suffix_name_bytes n : n ∈ SUFFIXES -> Forall name_byte (suffix_text n).
Proof.
  intros [Hd _]%suffix_digits. unfold suffix_text. rewrite forallb_forall in Hd. apply Forall_app. split.
  { by repeat constructor. }
  apply Forall_app. split; [|by repeat constructor]. apply Forall_forall. intros b Hb%list_elem_of_In%Hd.
  repeat split; intros ->; by vm_compute in Hb.
Qed.

Lemma split_extension_bytes base suffix preserve b :
  b ∈ (split_extension base suffix preserve).1 \/ b ∈ (split_extension base suffix preserve).2 -> b ∈ base.
Proof.
  assert (Hd : forall o, b ∈ take o base \/ b ∈ drop o base -> b ∈ base).
  { intros o H. rewrite <- (take_drop o base). by apply elem_of_app. }
  unfold split_extension. destruct (if preserve then _ else _) as [o|]; [|cbn; intros [H|H]; [done|by apply not_elem_of_nil in H]].
  destruct (_ <=? _)%nat; cbn; [apply Hd|]. intros [H|H]; [done|by apply not_elem_of_nil in H].
Qed.

Lemma component_with_suffix_name base n preserve :
  Forall name_byte base -> n ∈ SUFFIXES -> file_name_ok (component_with_suffix base n preserve).
Proof.
  intros Hb Hn. unfold component_with_suffix.
  pose proof (split_extension_bytes base (suffix_text n) preserve) as Hsplit.
  destruct (split_extension base (suffix_text n) preserve) as [stem ext]. cbn in Hsplit.
  set (stop := boundary_before _ _). set (name := take stop stem ++ suffix_text n ++ ext).
  assert (Hopen : x28 ∈ name).
  { apply elem_of_app. right. apply elem_of_app. left. unfold suffix_text. set_solver. }
  split; [intros Heq; rewrite Heq in Hopen; by apply not_elem_of_nil in Hopen|].
  split; [|split].
  1,2: intros Heq; rewrite Heq in Hopen; cbn in Hopen; by repeat (apply elem_of_cons in Hopen as [?|Hopen]; [done|]);
    apply not_elem_of_nil in Hopen.
  eapply (name_bytes_sub base name (suffix_text n)); [done|by apply suffix_name_bytes|].
  intros b Hin. apply elem_of_app in Hin as [Hin|[Hin|Hin]%elem_of_app]; [|by right|].
  - left. apply Hsplit. left. rewrite <- (take_drop stop stem). apply elem_of_app. by left.
  - left. apply Hsplit. by right.
Qed.

Lemma candidate_name_ok base n preserve :
  file_name_ok base -> n ∈ SUFFIXES -> file_name_ok (candidate_name base preserve n).
Proof.
  intros Hb Hn. unfold candidate_name. destruct (n =? 0)%N; [done|].
  apply component_with_suffix_name; [by apply Hb|done].
Qed.

(** Names that the platform takes. *)
Lemma trim_end_spec l b :
  (b ∈ trim_end l -> b ∈ l) /\ forall rest, trim_end l <> x2e :: rest.
Proof.
  induction l as [|c l [IH1 IH2]]; [by split|]. cbn [trim_end].
  destruct (is_byte c x20 || is_byte c x2e) eqn:Hc.
  - split; [|done]. intros Hb. right. auto.
  - split; [done|]. intros rest [= -> _]. by rewrite orb_true_r in Hc.
Qed.

Lemma provider_safe_name os c : file_name_ok c -> file_name_ok (provider_safe_component os c).
Proof.
  intros (H1 & H2 & H3 & Hall). destruct os; [|done..]. unfold provider_safe_component.
  set (v1 := map _ c). set (v2 := rev (trim_end (rev v1))).
  assert (Hv2 : Forall name_byte v2 /\ v2 <> lit "." /\ v2 <> lit "..").
  { split; [|].
    - apply (name_bytes_sub c v2 [x5f]); [done|by repeat constructor|]. intros b Hb.
      unfold v2 in Hb. apply list_elem_of_In, in_rev in Hb. apply list_elem_of_In in Hb. apply (proj1 (trim_end_spec _ _)) in Hb. apply list_elem_of_In, in_rev, list_elem_of_In in Hb.
      apply list_elem_of_fmap in Hb as (x & -> & Hx). destruct (windows_forbidden x); [right; by left|by left].
    - unfold v2. pose proof (proj2 (trim_end_spec (rev v1) x00)) as Hend.
      split; intros Heq; apply (f_equal (@rev byte)) in Heq; rewrite rev_involutive in Heq; exact (Hend _ Heq). }
  destruct Hv2 as (Hb & Hd1 & Hd2).
  set (v3 := if _ || _ || _ then x5f :: v2 else v2).
  assert (Hv3 : Forall name_byte v3 /\ v3 <> lit "." /\ v3 <> lit "..").
  { unfold v3. destruct (_ || _ || _); [|done]. split; [by constructor|done]. }
  destruct Hv3 as (Hb3 & Hd3 & Hd4). case_bool_decide; [by repeat constructor|done].
Qed.

Lemma allocate_name_ok os to_lowercase c preserve occupied name occupied' :
  file_name_ok c ->
  allocate_in_memory_name os to_lowercase (provider_safe_component os c) preserve occupied = Ok (name, occupied') ->
  file_name_ok name.
Proof.
  intros Hc (_ & _ & n & Hn & ->)%allocate_from_fresh. apply candidate_name_ok; [|done].
  by apply provider_safe_name.
Qed.

(** ** Staging paths *)

Section Paths.
Context (os : Platform) (to_lowercase : str -> str) (is_nfc : str -> bool).
Context (plan : DestinationWritePlanV2) (m : ManifestV2).
Context (Hwf : wf_manifest m = true) (Hv : valid_manifest is_nfc m).
Local Notation key := (name_equivalence_key os to_lowercase).
Local Notation top rid := (join (pl_staging_directory plan) (root_name rid)).

(** The path of entry [i], among those of the entries before it: that of its root,
    or one below its parent's under a name that is taken there. *)
Definition path_made (paths : list path) (occupied : gmap Z (gset str)) (i : nat) (q : path) : Prop :=
  exists e, entries m !! i = Some e /\
  (exists rel, q = top (entry_root_id e) ++ rel /\ Forall file_name_ok rel) /\
  match parent_entry_id e with
  | None => q = top (entry_root_id e)
  | Some pid => exists above name, vec_get paths pid = Some above /\ q = join above name /\
      key name ∈ default ∅ (occupied !! pid)
  end.
Definition paths_made (paths : list path) (occupied : gmap Z (gset str)) : Prop :=
  NoDup paths /\ forall i q, paths !! i = Some q -> path_made paths occupied i q.

Lemma path_made_mono paths occupied more occupied' i q :
  (forall pid, default ∅ (occupied !! pid) ⊆ default ∅ (occupied' !! pid)) ->
  path_made paths occupied i q -> path_made (paths ++ more) occupied' i q.
Proof.
  intros Hsub (e & He & Hrel & Hcase). exists e. split; [done|]. split; [done|].
  destruct (parent_entry_id e) as [pid|]; [|done]. destruct Hcase as (above & name & Ha & -> & Hk).
  exists above, name. split; [|split; [done|by apply Hsub]].
  apply vec_get_Some in Ha as [H0 Ha]. apply vec_get_Some. split; [done|]. by apply lookup_app_l_Some.
Qed.

(** Root paths are shorter than the others. *)
Lemma path_made_top paths occupied i q :
  paths_made paths occupied -> path_made paths occupied i q ->
  (exists e, entries m !! i = Some e /\ parent_entry_id e = None /\ q = top (entry_root_id e)) \/
  (length (pl_staging_directory plan) + 2 <= length q)%nat.
Proof.
  intros [_ Hall] (e & He & _ & Hcase). destruct (parent_entry_id e) as [pid|] eqn:Hp; [right|left; by exists e].
  destruct Hcase as (above & name & [_ Ha]%vec_get_Some & -> & _).
  destruct (Hall _ _ Ha) as (e' & _ & (rel & -> & _) & _). unfold join. rewrite !length_app. cbn. lia.
Qed.

Lemma paths_made_snoc paths occupied occupied' q :
  paths_made paths occupied -> (forall pid, default ∅ (occupied !! pid) ⊆ default ∅ (occupied' !! pid)) ->
  path_made (paths ++ [q]) occupied' (length paths) q -> q ∉ paths ->
  paths_made (paths ++ [q]) occupied'.
Proof.
  intros [Hnd Hall] Hsub Hq Hfresh. split.
  - apply NoDup_app. split; [done|]. split; [|apply NoDup_singleton]. intros x Hx ->%list_elem_of_singleton. done.
  - intros i x [Hx|[Hi Hx]]%lookup_app_Some.
    + by eapply path_made_mono; [|apply Hall].
    + apply list_lookup_singleton_Some in Hx as [Hz ->]. by replace i with (length paths) by lia.
Qed.

(** A new root path. *)
Lemma root_path_fresh paths occupied i e :
  entries m !! i = Some e -> length paths = i -> parent_entry_id e = None ->
  paths_made paths occupied -> top (entry_root_id e) ∉ paths.
Proof.
  intros He Hi Hp Hmade [j Hj]%list_elem_of_lookup. pose proof (lookup_lt_Some _ _ _ Hj) as Hlt.
  destruct (path_made_top _ _ _ _ Hmade (proj2 Hmade _ _ Hj)) as [(e' & He' & Hp' & Heq)|Hlen].
  - assert (Hr : entry_root_id e = entry_root_id e').
    { destruct (ve_parent _ _ _ _ (vm_entry _ _ Hv _ _ He)) as (r1 & [H1 _]%vec_get_Some & _).
      destruct (ve_parent _ _ _ _ (vm_entry _ _ Hv _ _ He')) as (r2 & [H2 _]%vec_get_Some & _).
      apply root_name_inj; [done|done|]. unfold join in Heq. by apply app_inj_tail in Heq as [_ ->]. }
    destruct (ve_parent _ _ _ _ (vm_entry _ _ Hv _ _ He)) as (r1 & Hr1 & H1). rewrite Hp in H1.
    destruct (ve_parent _ _ _ _ (vm_entry _ _ Hv _ _ He')) as (r2 & Hr2 & H2). rewrite Hp' in H2.
    rewrite Hr, Hr2 in Hr1. injection Hr1 as ->. lia.
  - unfold join in Hlen. rewrite length_app in Hlen. cbn in Hlen. lia.
Qed.

(** A new path below a directory. *)
Lemma child_path_fresh paths occupied pid above name :
  vec_get paths pid = Some above -> key name ∉ default ∅ (occupied !! pid) ->
  paths_made paths occupied -> join above name ∉ paths.
Proof.
  intros Ha Hk Hmade [j Hj]%list_elem_of_lookup. pose proof Hmade as [Hnd Hall].
  pose proof Ha as [H0 Ha']%vec_get_Some. destruct (Hall _ _ Ha') as (ea & _ & (rel & Hrel & _) & _).
  destruct (Hall _ _ Hj) as (e & _ & _ & Hcase). destruct (parent_entry_id e) as [pid'|] eqn:Hp.
  - destruct Hcase as (above' & name' & [H0' Hpa]%vec_get_Some & Heq & Hk'). unfold join in Heq.
    apply app_inj_tail in Heq as [-> <-]. apply Hk.
    by replace pid with pid' by (pose proof (proj1 (NoDup_alt _) Hnd _ _ _ Hpa Ha'); lia).
  - rewrite Hrel in Hcase. apply (f_equal length) in Hcase. unfold join in Hcase.
    rewrite !length_app in Hcase. cbn in Hcase. lia.
Qed.

(** The entry reached by the loop. *)
Lemma root_entry_top i e root :
  entries m !! i = Some e -> vec_get (roots m) (entry_root_id e) = Some root ->
  root_id root = entry_root_id e /\ (parent_entry_id e = None <-> entry_id e = root_entry_id root).
Proof.
  intros He Hr. pose proof Hr as [H0 Hri]%vec_get_Some.
  pose proof (vm_root _ _ Hv _ _ Hri) as Hvr. split; [rewrite (vr_id _ _ _ _ Hvr); lia|].
  pose proof (vm_entry _ _ Hv _ _ He) as Hve. destruct (ve_parent _ _ _ _ Hve) as (r & Hr' & Hcase).
  rewrite Hr in Hr'. injection Hr' as <-. split.
  - intros Hp. rewrite Hp in Hcase. destruct Hcase as [-> _]. apply (ve_id _ _ _ _ Hve).
  - intros Hid. destruct (vr_entry _ _ _ _ Hvr) as (e' & Hve' & Hp & _).
    rewrite <- Hid, (ve_id _ _ _ _ Hve), vec_get_nat, He in Hve'. by injection Hve' as <-.
Qed.

Lemma build_paths_made es paths overrides occupied paths' overrides' :
  build_paths os to_lowercase plan m es paths overrides occupied = Ok (paths', overrides') ->
  es = drop (length paths) (entries m) -> paths_made paths occupied ->
  length paths' = (length paths + length es)%nat /\ exists occupied', paths_made paths' occupied'.
Proof.
  revert paths overrides occupied. induction es as [|e es IH]; intros paths overrides occupied Hrun Hes Hmade.
  { injection Hrun as <- <-. split; [cbn; lia|by exists occupied]. }
  assert (He : entries m !! length paths = Some e).
  { pose proof (f_equal (lookup 0%nat) Hes) as H. rewrite lookup_drop, Nat.add_0_r in H. by symmetry. }
  assert (Hes' : es = drop (S (length paths)) (entries m)).
  { rewrite <- Nat.add_1_r, <- drop_drop, <- Hes. done. }
  assert (Hnext : forall q ov occupied', build_paths os to_lowercase plan m es (paths ++ [q]) ov occupied' = Ok (paths', overrides') ->
    paths_made (paths ++ [q]) occupied' -> length paths' = (length paths + length (e :: es))%nat /\ exists o, paths_made paths' o).
  { intros q ov occ H1 H2. destruct (IH _ _ _ H1) as [Hl Hex]; [|done|].
    - by rewrite length_app, Nat.add_1_r.
    - split; [|done]. rewrite Hl, length_app. cbn. lia. }
  cbn [build_paths] in Hrun. destruct (vec_get (roots m) (entry_root_id e)) as [root|] eqn:Hroot; [|done]. cbn in Hrun.
  destruct (root_entry_top _ _ _ He Hroot) as [Hrid Htop].
  destruct (Z.eqb_spec (entry_id e) (root_entry_id root)) as [Hid|Hid].
  - destruct (vec_get (pl_root_plans plan) (root_id root)) as [rp|]; [|done]. cbn in Hrun.
    apply Htop in Hid. eapply Hnext; [exact Hrun|]. rewrite Hrid. eapply paths_made_snoc; [done|done| |].
    + exists e. split; [done|]. rewrite Hid. split; [|done]. exists []. by rewrite app_nil_r.
    + by eapply root_path_fresh.
  - destruct (parent_entry_id e) as [pid|] eqn:Hp; [|by destruct Hid; apply Htop]. cbn in Hrun.
    destruct (vec_get paths pid) as [above|] eqn:Ha; [|done]. cbn in Hrun.
    destruct (allocate_in_memory_name _ _ _ _ _) as [[name siblings]|] eqn:Hal; [|done]. cbn in Hrun.
    pose proof (vm_entry _ _ Hv _ _ He) as Hve.
    pose proof (allocate_name_ok _ _ _ _ _ _ _ (safe_component_name is_nfc _
      ltac:(pose proof (wf_manifest_entry _ _ Hwf (list_elem_of_lookup_2 _ _ _ He)) as Hw; unfold wf_entry in Hw; bool_prop; done)
      (ve_component _ _ _ _ Hve)) Hal) as Hname.
    apply allocate_from_fresh in Hal as (Hfresh & -> & _).
    eapply Hnext; [exact Hrun|]. eapply paths_made_snoc; [done| | |by eapply child_path_fresh].
    + intros pid'. destruct (decide (pid' = pid)) as [->|Hne]; [rewrite lookup_insert_eq; cbn; set_solver|].
      by rewrite lookup_insert_ne.
    + exists e. split; [done|]. rewrite Hp. pose proof Ha as [H0 Ha']%vec_get_Some.
      destruct (proj2 Hmade _ _ Ha') as (ea & Hea & (rel & -> & Hrel) & _). split.
      * exists (rel ++ [name]). split; [|by apply Forall_app; auto]. unfold join. rewrite app_assoc. f_equal. f_equal.
        destruct (ve_parent _ _ _ _ Hve) as (r & _ & Hcase). rewrite Hp in Hcase.
        destruct Hcase as (_ & e' & [_ He']%vec_get_Some & Hsame & _). rewrite Hea in He'. injection He' as <-.
        by rewrite Hsame.
      * eexists _, name. split; [apply vec_get_Some; split; [done|]; by apply lookup_app_l_Some|].
        split; [done|]. rewrite lookup_insert_eq. cbn. set_solver.
Qed.

(** C24. Every entry of a valid manifest has a staging path of its own, in the
    staging directory of its root and below it only names without separators that
    are not dot or dot-dot: no entry overwrites another, and none leaves the
    directory, whatever names the peer sends and however the platform changes them. *)
Theorem staging_paths_apart paths overrides :
  build_entry_paths os to_lowercase plan m = Ok (paths, overrides) ->
  length paths = length (entries m) /\ NoDup paths /\
  forall i e q, entries m !! i = Some e -> paths !! i = Some q ->
    exists rel, q = top (entry_root_id e) ++ rel /\ Forall file_name_ok rel.
Proof.
  intros Hrun. destruct (build_paths_made _ _ _ _ _ _ Hrun) as [Hlen (occ & Hnd & Hall)]; [done| |].
  { split; [constructor|done]. }
  split; [done|]. split; [done|]. intros i e q He Hq. destruct (Hall i q Hq) as (e' & He' & Hrel & _).
  rewrite He in He'. by injection He' as <-.
Qed.
End Paths.

(** ** Opening a provider *)

(** What [validate_shape] leaves to the one who makes the plan: apart from it are the
    two private directories that the provider writes files to while it works. The
    third, [LEDGERS_NAME], is the ledger store's, whose files the model has in
    [store] and not in [Fs]; what a plan may do to it is part of C25. *)
Definition plan_private (plan : DestinationWritePlanV2) : Prop :=
  (pl_mode plan = DirectSave -> forall rid rp, vec_get (pl_root_plans plan) rid = Some rp ->
     planned_name rp <> STAGING_NAME /\ planned_name rp <> RESERVATIONS_NAME) /\
  (pl_mode plan = CopyAfterVerify ->
     ~ pl_target_directory plan `prefix_of` pl_staging_directory plan /\
     ~ pl_staging_directory plan `prefix_of` pl_target_directory plan).

Lemma validate_shape_apart os to_lowercase plan :
  validate_shape os to_lowercase plan = Ok tt -> plan_private plan -> plan_apart plan.
Proof.
  unfold validate_shape. intros Hs [Hpriv Hcopy].
  destruct (_ || _ || _ || _ || _ || _ || _ || _ || _) in Hs; [done|].
  destruct (existsb _ _) eqn:Hres in Hs; [done|].
  destruct (bool_decide (pl_mode plan = DirectSave) && _) eqn:Hdir in Hs; [done|]. constructor; [done| |done|].
  - intros Hm. rewrite bool_decide_eq_true_2 in Hdir by done. cbn in Hdir. bool_prop.
    by apply bool_decide_eq_true in Hdir.
  - intros r Hr. apply list_elem_of_In in Hr. rewrite <- not_true_iff_false, existsb_exists in Hres.
    destruct (bool_decide_reflect (parent r = Some (join (pl_target_directory plan) RESERVATIONS_NAME))) as [|Hne]; [done|].
    exfalso. apply Hres. exists r. split; [done|]. by rewrite bool_decide_eq_false_2.
Qed.

Section Open.
Context (os : Platform) (to_lowercase : str -> str) (is_nfc : str -> bool).
Context (blake3 : list byte -> list byte) (volume_of : path -> str).
Context (plan_to_vec : DestinationWritePlanV2 -> option (list byte)).
Context (plan_from_slice : list byte -> option DestinationWritePlanV2).
Context (save_from_slice : list byte -> option LocalSaveLedgerV2).
Local Notation open_provider :=
  (new_provider os to_lowercase is_nfc blake3 volume_of plan_to_vec plan_from_slice save_from_slice).
Local Notation durable := (durable_plan os to_lowercase plan_to_vec plan_from_slice).

(** The plan in force has been checked. *)
Lemma durable_plan_shape plan lf fault lf' plan' :
  validate_shape os to_lowercase plan = Ok tt -> durable plan lf fault = (lf', Ok plan') ->
  validate_shape os to_lowercase plan' = Ok tt.
Proof.
  intros Hs. unfold durable_plan.
  destruct (plan_load _ _ _ _ _ _) as [[d|]|e] eqn:Hload; [| |done].
  - destruct (_ || _ || _); [done|]. intros [= <- <-]. unfold plan_load in Hload.
    destruct (lf !! _) as [bytes|]; [|done]. destruct (plan_from_slice bytes) as [d'|]; [|done].
    cbn in Hload. destruct (validate_shape os to_lowercase d') as [[]|] eqn:Hd; [|done].
    by injection Hload as <-.
  - destruct (plan_save _ _ _ _ _ _) as [lf1 [[]|e]]; [|done]. by intros [= <- <-].
Qed.

(** Calls of the opening, on the file system alone. *)
Definition opening (w w' : Fs * files) : Prop := quiet (fun _ => False) w.1 w'.1.
Local Notation wfo := (fun w : Fs * files => fs_wf w.1).
#[local] Instance opening_preorder : PreOrder opening.
Proof. split; [intros w; unfold opening; reflexivity|]. intros a b c. unfold opening. intros. by transitivity b.1. Qed.
Lemma opening_fs {A} (call : io A) : leaves (quiet (fun _ => False)) call -> obeys wfo opening (first_fs call).
Proof.
  intros Hc [fs lf] Hwf. unfold first_fs. destruct (Hc fs Hwf) as [H1 H2]. cbn in *.
  destruct (call fs) as [fs' r]. by split.
Qed.
Lemma opening_plan plan fault :
  obeys wfo opening (first_plan os to_lowercase plan_to_vec plan_from_slice plan fault).
Proof. intros [fs lf] Hwf. unfold first_plan. cbn. destruct (durable plan lf fault). split; [done|]. unfold opening. reflexivity. Qed.
Lemma local_domain_quiet R `{!PreOrder R} `{!FaultBlind R} target stable :
  leaves R (local_storage_domain volume_of target stable).
Proof. unfold local_storage_domain. leaves_go. Qed.

(** What is known of a provider that opened. *)
Lemma opened plan m faults ent w w' p :
  fs_wf w.1 -> open_provider plan m faults ent w = (w', Ok p) ->
  fs_wf (pv_fs p) /\ validate_shape os to_lowercase (pv_plan p) = Ok tt /\ validate is_nfc m = Ok tt /\
  payloads p = ∅ /\ exists overrides,
  build_entry_paths os to_lowercase (pv_plan p) m = Ok (entry_paths p, overrides).
Proof.
  intros Hwf Hrun. unfold new_provider in Hrun.
  apply bind_ok in Hrun as (w1 & [] & [Hshape ->]%pure_ok & Hrun).
  apply bind_ok in Hrun as (w1 & b & [_ ->]%pure_ok & Hrun).
  apply bind_ok in Hrun as (w1 & [] & [_ ->]%throw_if_ok & Hrun).
  apply bind_ok in Hrun as (w1 & dom & H1 & Hrun).
  eapply (obeys_run wfo opening) in H1 as [Hw1 _]; [|apply opening_fs, local_domain_quiet; apply _|done].
  apply bind_ok in Hrun as (w2 & [] & [_ ->]%throw_if_ok & Hrun).
  apply bind_ok in Hrun as (w2 & c1 & H2 & Hrun).
  eapply (obeys_run wfo opening) in H2 as [Hw2 _]; [|apply opening_fs; leaves_leaf|done].
  apply bind_ok in Hrun as (w3 & [] & [_ ->]%throw_if_ok & Hrun).
  apply bind_ok in Hrun as (w3 & plan' & H3 & Hrun).
  assert (Hshape' : validate_shape os to_lowercase plan' = Ok tt).
  { unfold first_plan in H3. destruct (durable_plan _ _ _ _ _ _ _) as [lf r] eqn:Hd. injection H3 as _ ->.
    by eapply durable_plan_shape. }
  eapply (obeys_run wfo opening) in H3 as [Hw3 _]; [|apply opening_plan|done].
  apply bind_ok in Hrun as (w4 & [] & H4 & Hrun).
  eapply (obeys_run wfo opening) in H4 as [Hw4 _]; [|apply opening_fs; auto with fs_leaves|done].
  apply bind_ok in Hrun as (w5 & c2 & H5 & Hrun).
  eapply (obeys_run wfo opening) in H5 as [Hw5 _]; [|apply opening_fs; leaves_leaf|done].
  apply bind_ok in Hrun as (w6 & [] & [_ ->]%throw_if_ok & Hrun).
  apply bind_ok in Hrun as (w6 & [] & H6 & Hrun).
  eapply (obeys_run wfo opening) in H6 as [Hw6 _]; [|apply opening_fs; leaves_leaf|done].
  apply bind_ok in Hrun as (w7 & [paths overrides] & [Hpaths ->]%pure_ok & Hrun).
  apply bind_ok in Hrun as (w7 & offer & [Hoffer ->]%pure_ok & Hrun).
  apply bind_ok in Hrun as (w7 & [fs lf] & [= <- ->] & Hrun).
  apply bind_ok in Hrun as (w7 & ledger & [_ ->]%pure_ok & Hrun).
  apply bind_ok in Hrun as (w7 & [] & [_ ->]%throw_if_ok & [= _ <-]). cbn in *.
  split; [done|]. split; [done|]. split; [|split; [done|by exists overrides]].
  unfold build_manifest_offer_v2 in Hoffer. by destruct (validate is_nfc m) as [[]|].
Qed.

(** A provider that opens is laid out. *)
Lemma opened_good plan m faults ent w w' p :
  wf_manifest m = true -> fs_wf w.1 -> open_provider plan m faults ent w = (w', Ok p) ->
  plan_private (pv_plan p) -> good p.
Proof.
  intros Hm Hwf Hrun Hpriv. destruct (opened _ _ _ _ _ _ _ Hwf Hrun) as (Hfs & Hshape & Hval & Hpl & ov & Hpaths).
  pose proof (validate_sound is_nfc m Hm Hval) as Hv.
  destruct (build_paths_made os to_lowercase is_nfc (pv_plan p) m Hm Hv _ _ _ _ _ _ Hpaths)
    as [_ (occ & Hnd & Hall)]; [done|split; [constructor|done]|].
  split; [|intros eid pl; by rewrite Hpl].
  constructor; [by eapply validate_shape_apart|done| |done|intros eid pl; by rewrite Hpl].
  intros q [i Hq]%list_elem_of_lookup. destruct (Hall i q Hq) as (e & _ & (rel & -> & _) & _).
  by exists (entry_root_id e), rel.
Qed.

(** A provider that opens on a plan with private directories of its own is
    ready for the data plane: its staging paths are apart, the plan's directories
    too, and no payload is open.  It is what [receive] starts from. *)
Theorem opened_provider_good plan m faults ent w w' p :
  wf_manifest m = true -> fs_wf w.1 -> open_provider plan m faults ent w = (w', Ok p) ->
  plan_private (pv_plan p) -> good p.
Proof. apply opened_good. Qed.
End Open.
