(* ===== verification/ReceiveSafe.v ===== *)
(** [receive] as a whole: its entries, the end of the job, and what follows for
    every run of it. *)

From stdpp Require Import prelude gmap strings pretty.
From Stdlib Require Import ZArith Lia Strings.Byte.
From S2P Require Import Prelude Bytes ManifestV2 ManifestSpec ValidateTheorem OfferCodec Frames.
From S2P Require Import FramesProof Timeline Delivery DeliveryStore Ledger Proc ReceivePlane LedgerInv.
From S2P Require Import ReceiveInv.

Local Open Scope Z_scope.

Section Safety.
Context (is_nfc : str -> bool) (blake3 : list byte -> list byte).
Context (zstd_decompress : list byte -> Z -> option (list byte)).
Context (ledger_to_vec : ReceiverDataPlaneLedgerV2 -> option (list byte)).
Context (ledger_from_slice : list byte -> option ReceiverDataPlaneLedgerV2).
Context (serde : forall l bytes, ledger_to_vec l = Some bytes -> ledger_from_slice bytes = Some l).
Context {S : Type} `{PayloadSink S} (V : S -> ManifestEntryV2 -> ContentDigestV2 -> Prop).
Context `{!SinkSafety S V}.
Context (gate : ResultGate).
Context (m : ManifestV2) (Hwf : wf_manifest m = true) (Hv : valid_manifest is_nfc m).
Local Notation ID := (mkJobGeneration (job_id m) (generation m)).
Local Notation world := (World ReceiverDataPlaneLedgerV2 S).
Local Notation load fs := (ledger_load ledger_from_slice fs ID).
Local Notation lok s l := (ledger_ok is_nfc blake3 m (V s) l).
Local Notation consistent := (consistent is_nfc blake3 ledger_from_slice V m).
Local Notation safe := (safe is_nfc blake3 ledger_from_slice V m).
Local Notation durable := (durable ledger_from_slice m).
Local Notation backed := (backed ledger_from_slice m).
Local Notation mwp f Q := (wp f Q (fun _ => safe)).
Local Notation consistent_safe := (consistent_safe is_nfc blake3 ledger_from_slice V m).
Local Notation consistent_core := (consistent_core is_nfc blake3 ledger_from_slice V m).
Local Notation consistent_send := (consistent_send is_nfc blake3 ledger_from_slice V m).
Local Notation consistent_sink_all := (consistent_sink_all is_nfc blake3 ledger_from_slice V m).
Local Notation consistent_modify := (consistent_modify is_nfc blake3 ledger_from_slice V m Hv).
Local Notation wp_save_ledger :=
  (wp_save_ledger is_nfc blake3 ledger_to_vec ledger_from_slice serde V m).
Implicit Types (w : world) (e : ManifestEntryV2) (c : ReceiverEntryCheckpointV2).

(** ** Entries *)

Section Entry.
Context (i : nat) (e : ManifestEntryV2) (He : entries m !! i = Some e) (total : Z).
Context (P : ReceiverDataPlaneLedgerV2 -> Prop).
Context (HP : forall f l, P l -> P (alter_entry (Z.of_nat i) f l)).
Context (accept : ManifestAcceptV2) (HPa : forall l, P l -> rl_accept l = accept).
Local Notation IX := (Z.of_nat i).
Local Notation at_entry := (at_entry is_nfc blake3 ledger_from_slice V m i P).
Local Notation entry_done := (entry_done is_nfc blake3 ledger_from_slice V m i P).
Local Notation at_entry_core := (at_entry_core is_nfc blake3 ledger_from_slice V m i P).
Local Notation at_entry_safe := (at_entry_safe is_nfc blake3 ledger_from_slice V m i P).
Local Notation at_entry_read := (at_entry_read is_nfc blake3 ledger_from_slice V m i P).
Local Notation at_entry_modify := (at_entry_modify is_nfc blake3 ledger_from_slice V m Hv i e He P HP).
Local Notation at_entry_save :=
  (at_entry_save is_nfc blake3 ledger_to_vec ledger_from_slice serde V m i P).
Local Notation at_entry_sink := (at_entry_sink is_nfc blake3 ledger_from_slice V m Hv i e He P).
Local Notation finish_entry :=
  (finish_entry is_nfc blake3 ledger_to_vec ledger_from_slice serde V m i P).

Lemma done_of w c k (u : unit) :
  consistent w -> P (record w) -> rl_entries (record w) !! i = Some c ->
  cp_completion c = Some k -> cp_arbiter c <> PayloadOpen -> entry_done u w.
Proof. intros Hcon HPw Hi Hk Ha. split; [done|]. split; [done|]. exists c. by rewrite Hk. Qed.

Lemma receive_file_ok plan c w :
  at_entry c w -> cp_arbiter c = PayloadOpen -> kind e = RegularFile ->
  vec_get (entry_plans accept) (entry_id e) = Some plan ->
  mwp (receive_file zstd_decompress ledger_to_vec e plan IX total) entry_done w.
Proof.
  intros Hat Hopen Hk Hplan. unfold receive_file. apply wp_bind.
  eapply at_entry_read; [done|]. apply wp_bind.
  assert (Hframes : forall c' w', loop_ok is_nfc blake3 ledger_from_slice V m i e P accept c' w' ->
    mwp (frames ← get_incoming;
         receive_frames zstd_decompress ledger_to_vec (length frames) e IX total) entry_done w').
  { intros c' w' Hloop. apply wp_bind, wp_get_incoming. by eapply receive_frames_ok. }
  case_bool_decide as Hreuse.
  - apply wp_bind, wp_pure; [|intros ? _; by eapply at_entry_safe]. intros d Hd. inv_ok.
    apply wp_bind. eapply at_entry_sink; 
      [done|intros; by eapply ss_reuse|intros; by eapply ss_good_reuse|done|].
    intros chosen w1 Hat1 _ _. apply wp_bind, wp_throw_if; [intros _; by eapply at_entry_safe|].
    intros _. apply wp_bind. pose proof Hat as (_ & HPw & _ & _ & Hr).
    eapply at_entry_modify; [done|done|done| |].
    { intros Hok. eapply planned_reuse_ok; [done|done|done|by rewrite Hd| |done].
      pose proof Hat1 as (_ & HP1 & _). by rewrite (HPa _ HP1). }
    intros w2 Hat2 _ _. apply wp_bind. eapply at_entry_save; [done|].
    intros w3 Hat3 _ _ _. rewrite Hopen.
    rewrite bool_decide_eq_false_2 by done. cbn [negb].
    apply wp_advance; [by eapply at_entry_safe|]. intros w4 Hcore4 _. eapply Hframes.
    split; [by eapply at_entry_core|done].
  - apply wp_ret. apply (Hframes c). split; [done|]. intros plan' Hp' Hd'. simplify_eq.
Qed.

Lemma receive_directory_ok c w :
  at_entry c w -> cp_arbiter c = PayloadOpen -> kind e = Directory ->
  mwp (receive_directory blake3 ledger_to_vec e ID IX) entry_done w.
Proof.
  intros Hat Hopen Hk. unfold receive_directory. apply wp_bind, wp_recv; [by eapply at_entry_safe|].
  intros f w1 Hcore1 _. pose proof (at_entry_core _ _ _ Hcore1 Hat) as Hat1.
  destruct f; try (apply wp_throw; by eapply at_entry_safe).
  destruct (_ || _) eqn:Hguard; [apply wp_throw; by eapply at_entry_safe|]. bool_prop.
  apply wp_bind. pose proof Hat1 as (Hcon1 & HP1 & Hi1 & _).
  apply wp_call_sink. intros s r w2 Hop Hcore2 _.
  assert (Hkeep : forall e' d, V (sink w1) e' d -> V s e' d) by (intros; by eapply ss_stage).
  destruct r as [[]|er];
    [|eapply safe_sink_all; [by apply consistent_safe|done|done]].
  assert (Hg2 : ss_good s) by (eapply ss_good_stage; [exact Hop|apply Hcon1]).
  pose proof (consistent_sink_all _ _ _ Hcon1 Hcore2 Hkeep Hg2) as Hcon2.
  pose proof (core_inv _ _ _ _ _ Hcore2) as (Hrec2 & _).
  apply wp_bind. eapply wp_modify; [by rewrite Hrec2|]. intros w3 Hcore3 _ Hi3.
  assert (Hz : plaintext_size e = 0).
  { by apply (ve_directory _ _ _ _ (vm_entry _ _ Hv i e He)). }
  assert (Hcon3 : consistent w3).
  { eapply consistent_modify; [done|exact Hcore3|done|by rewrite Hrec2|by rewrite Hopen|].
    intros Hok. by eapply directory_ok. }
  eapply finish_entry; [done| |exact Hi3|done|done].
  apply core_inv in Hcore3 as (-> & _). rewrite Hrec2. by apply HP.
Qed.

(** The plan an accepted ledger has for the entry. *)
Lemma plan_at l : header_ok is_nfc blake3 m l ->
  exists plan, vec_get (entry_plans (rl_accept l)) IX = Some plan.
Proof.
  intros (o & Hb & _ & _ & _ & _ & _ & Hva & _). unfold validate_accept in Hva. inv_ok. bool_prop.
  unfold build_manifest_offer_v2 in Hb. inv_ok. cbn in *. rewrite vec_get_nat.
  apply lookup_lt_is_Some_2. apply lookup_lt_Some in He. unfold zlen in *. lia.
Qed.

Lemma commit_start_ok c start w (Q : unit -> world -> Prop) :
  at_entry c w -> es_identity start = ID -> es_entry_id start = entry_id e ->
  (forall c' w', at_entry c' w' -> cp_arbiter c' = cp_arbiter c -> Q tt w') ->
  mwp (commit_start IX start) Q w.
Proof.
  intros Hat Hid Heid HQ. unfold commit_start. apply wp_bind. eapply at_entry_read; [done|].
  assert (Hlast : forall c1 w1, at_entry c1 w1 -> cp_arbiter c1 = cp_arbiter c ->
    mwp (modify_entry IX (set_cp_retired false)) Q w1).
  { intros c1 w1 Hat1 Ha1. pose proof Hat1 as (_ & _ & _ & Hn1 & Hr1).
    eapply at_entry_modify; [done|done|done|apply retired_ok|].
    intros w2 Hat2 _ _. by eapply HQ. }
  apply wp_bind. pose proof Hat as (_ & _ & _ & Ha & Hr). destruct (cp_start c) as [s0|] eqn:Hs.
  - apply wp_throw_if; [intros _; by eapply at_entry_safe|]. intros _. by apply (Hlast c).
  - eapply at_entry_modify; [done|done|done| |].
    { intros Hok. by apply start_ok. }
    intros w1 Hat1 _ _. by eapply Hlast.
Qed.

Lemma settled_completion_spec s l c k :
  lok s l -> rl_entries l !! i = Some c -> settled_completion ID e c = Ok k ->
  cp_arbiter c <> PayloadOpen ->
  completion_from_resume_checkpoint blake3 ID e (resume_entry_of c) = Ok k.
Proof.
  intros [_ Hall] Hi Hk Ha. pose proof (Forall2_lookup_lr _ _ _ _ _ _ Hall He Hi) as Hok.
  unfold settled_completion in Hk. destruct (cp_completion c) as [k'|] eqn:Hc.
  - inv_ok. by apply (co_completion _ _ _ _ _ _ Hok).
  - case_bool_decide as Hr; [|done]. inv_ok. unfold completion_from_resume_checkpoint. cbn.
    rewrite Hr. match goal with Hd : cp_content_digest c = Some _ |- _ => rewrite Hd end. done.
Qed.

Lemma receive_entry_ok hasher w :
  consistent w -> P (record w) ->
  mwp (receive_entry is_nfc blake3 zstd_decompress ledger_to_vec e total hasher)
    (fun _ => entry_done tt) w.
Proof.
  intros Hcon HPw. unfold receive_entry. apply wp_bind, wp_get_record.
  pose proof Hcon as (Hlok & _). rewrite (ledger_ok_identity _ _ _ _ _ Hlok).
  rewrite (entry_id_index is_nfc m Hv _ _ He).
  pose proof (lo_entries _ _ _ _ _ Hlok) as Hall.
  destruct (Forall2_lookup_l _ _ _ _ _ Hall He) as (c & Hi & Hok).
  apply wp_bind. eapply wp_entry_at; [done|]. case_bool_decide as Hres.
  { destruct Hres as [r Hr]. destruct (co_result _ _ _ _ _ _ Hok r Hr) as (k & Hk & _).
    rewrite Hk. apply wp_bind, wp_pure; [|done]. intros ? [= <-].
    assert (Ha : cp_arbiter c <> PayloadOpen).
    { intros Ha. by rewrite (open_no_result _ _ _ _ _ _ Hok Ha) in Hr. }
    apply wp_pure; [intros ? _; by eapply done_of|intros ? _; by apply consistent_safe]. }
  assert (Hnone : cp_result c = None).
  { destruct (cp_result c); [|done]. exfalso. apply Hres. eauto. }
  destruct (negb _) eqn:Hopen; bool_prop.
  { apply wp_bind, wp_pure; [|intros ? _; by apply consistent_safe]. intros k Hk.
    pose proof (settled_completion_spec _ _ _ _ Hlok Hi Hk Hopen) as Hspec.
    apply wp_bind. eapply wp_modify; [done|]. intros w1 Hcore1 _ Hi1.
    assert (Hcon1 : consistent w1).
    { eapply consistent_modify; [done|done|done|done|done|]. intros _. by apply completion_ok. }
    assert (HP1 : P (record w1)) by (apply core_inv in Hcore1 as (-> & _); by apply HP).
    apply wp_bind. eapply wp_mono; [eapply finish_entry; [done|done|done|done|done]| |done].
    intros [] w2 Hdone. apply wp_pure; [done|]. intros ? _. by apply consistent_safe, (proj1 Hdone). }
  destruct (plan_at _ (ledger_ok_header _ _ _ _ _ Hlok)) as (plan & Hplan). unfold index_at.
  rewrite Hplan. apply wp_bind, wp_pure; [|done]. intros ? [= <-].
  assert (Hat : at_entry c w) by (do 3 (split; [done|]); by rewrite Hopen).
  apply wp_bind. unfold recv_entry_start. apply wp_bind, wp_recv; [by eapply at_entry_safe|].
  intros f w1 Hcore1 _. pose proof (at_entry_core _ _ _ Hcore1 Hat) as Hat1.
  destruct f; try (apply wp_throw; by eapply at_entry_safe).
  destruct (_ && _) eqn:Hid; [|apply wp_throw; by eapply at_entry_safe]. bool_prop. apply wp_ret.
  apply wp_bind. eapply commit_start_ok; [done|done|by rewrite (entry_id_index is_nfc m Hv _ _ He)|].
  intros c2 w2 Hat2 Ha2. rewrite Hopen in Ha2. apply wp_bind. eapply at_entry_save; [done|].
  intros w3 Hat3 _ _ _.
  assert (Hlast : forall w4, entry_done tt w4 ->
    mwp (c ← entry_at IX;
         completion ← pure (ok_or (D_InvalidLedger "entry completion missing") (cp_completion c));
         pure (update_completion_set is_nfc blake3 hasher completion)) (fun _ => entry_done tt) w4).
  { intros w4 Hdone. pose proof Hdone as (Hcon4 & _ & c4 & Hi4 & [k Hk] & _). apply wp_bind.
    eapply wp_entry_at; [done|]. rewrite Hk. apply wp_bind, wp_pure; [|done]. intros ? _.
    apply wp_pure; [done|]. intros ? _. by apply consistent_safe. }
  apply wp_bind. case_bool_decide as Hk.
  - eapply wp_mono; [by eapply receive_directory_ok| |done]. intros [] w4. apply Hlast.
  - apply wp_bind. eapply at_entry_read; [done|]. apply wp_bind.
    assert (Hfile : kind e = RegularFile) by (by destruct (kind e)).
    assert (Hrf : forall w4, at_entry c2 w4 ->
      mwp (receive_file zstd_decompress ledger_to_vec e plan IX total)
        (fun _ => mwp (c ← entry_at IX;
          completion ← pure (ok_or (D_InvalidLedger "entry completion missing") (cp_completion c));
          pure (update_completion_set is_nfc blake3 hasher completion)) (fun _ => entry_done tt)) w4).
    { intros w4 Hat4. eapply wp_mono; [eapply receive_file_ok; [done|done|done|]| |done].
      - rewrite (entry_id_index is_nfc m Hv _ _ He), <- (HPa _ HPw). done.
      - intros [] w5. apply Hlast. }
    case_bool_decide; [|by apply wp_ret, Hrf].
    eapply at_entry_sink; 
      [done|intros; by eapply ss_begin|intros ? ? []; by apply ss_good_begin|done|].
    intros [] w4 Hat4 _ _. by apply Hrf.
Qed.
End Entry.

(** ** The sequence of entries *)

(** Entries before [k] need no more payload. *)
Definition done_upto (accept : ManifestAcceptV2) (k : nat) (l : ReceiverDataPlaneLedgerV2) : Prop :=
  rl_accept l = accept /\
  forall j c, (j < k)%nat -> rl_entries l !! j = Some c ->
    is_Some (cp_completion c) /\ cp_arbiter c <> PayloadOpen.

Lemma done_upto_alter accept k f l :
  done_upto accept k l -> done_upto accept k (alter_entry (Z.of_nat k) f l).
Proof.
  intros [Ha Hd]. split; [done|]. intros j c Hj. cbn. rewrite Nat2Z.id, list_lookup_alter_ne by lia.
  by apply Hd.
Qed.

Lemma receive_entries_ok accept k es total hasher w :
  drop k (entries m) = es -> consistent w -> done_upto accept k (record w) ->
  mwp (receive_entries is_nfc blake3 zstd_decompress ledger_to_vec es total hasher)
    (fun _ w' => consistent w' /\ done_upto accept (length (entries m)) (record w')) w.
Proof.
  revert k hasher w. induction es as [|e es IH]; intros k hasher w Hes Hcon Hd; cbn [receive_entries].
  - apply wp_ret. split; [done|]. destruct Hd as [Ha Hd]. split; [done|]. intros j c Hj.
    apply Hd. apply (f_equal length) in Hes. rewrite length_drop in Hes. cbn in Hes. lia.
  - assert (He : entries m !! k = Some e).
    { rewrite <- (Nat.add_0_r k), <- lookup_drop, Hes. done. }
    apply wp_bind. eapply wp_mono; [eapply (receive_entry_ok k e He total (done_upto accept k));
      [intros; by apply done_upto_alter|intros l [Ha _]; exact Ha|done|done]| |done].
    intros h w1 (Hcon1 & [Ha1 Hd1] & c & Hi & Hk & Hn). apply (IH (Datatypes.S k)); [|done|].
    + by rewrite <- Nat.add_1_r, <- drop_drop, Hes.
    + split; [done|]. intros j c' Hj Hc'. destruct (decide (j = k)) as [->|].
      * by simplify_eq.
      * apply (Hd1 j); [lia|done].
Qed.

(** ** The end of the job *)

Lemma lok_set_completion s d l : lok s l -> lok s (set_rl_completion d l).
Proof.
  intros Hl. apply (ledger_ok_intro is_nfc blake3 m Hv); [exact (ledger_ok_header _ _ _ _ _ Hl)|].
  exact (lo_entries _ _ _ _ _ Hl).
Qed.

Lemma receive_job_complete_ok accept k hasher w :
  consistent w -> done_upto accept k (record w) ->
  mwp (receive_job_complete blake3 ledger_to_vec ID hasher)
    (fun d w' => consistent w' /\ durable w' /\ done_upto accept k (record w') /\
       rl_sender_completion_set_digest (record w') = Some d) w.
Proof.
  intros Hcon Hd. unfold receive_job_complete. apply wp_bind, wp_recv; [by apply consistent_safe|].
  intros f w1 Hcore1 _. pose proof (consistent_core _ _ Hcore1 Hcon) as Hcon1.
  pose proof (core_same _ _ Hcore1) as (Hrec1 & _). apply wp_bind.
  destruct f as [| | | | | | |jc| | | | |]; try (apply wp_throw; by apply consistent_safe).
  case_bool_decide; [|apply wp_throw; by apply consistent_safe]. apply wp_ret.
  apply wp_bind, wp_throw_if; [intros _; by apply consistent_safe|]. intros _.
  apply wp_bind, wp_get_record.
  assert (Hlast : forall w2, consistent w2 -> done_upto accept k (record w2) ->
    rl_sender_completion_set_digest (record w2) = Some (sender_completion_set_digest jc) ->
    mwp (_ ← save_ledger ledger_to_vec; _ ← report (on_stage StagePayloadComplete);
         mret (sender_completion_set_digest jc))
      (fun d w' => consistent w' /\ durable w' /\ done_upto accept k (record w') /\
         rl_sender_completion_set_digest (record w') = Some d) w2).
  { intros w2 Hcon2 Hd2 Hc2. apply wp_bind. apply wp_save_ledger; [done|].
    intros w3 Hcon3 Hdur3 Hr3 _ _ _. apply wp_bind, wp_report. intros w4 Hcore4 _. apply wp_ret.
    pose proof (core_same _ _ Hcore4) as (Hr4 & _).
    split; [by apply (consistent_core _ _ Hcore4)|].
    split; [by apply (durable_core _ _ _ _ Hcore4)|]. by rewrite Hr4, Hr3. }
  apply wp_bind. destruct (rl_sender_completion_set_digest (record w1)) as [d|] eqn:Hdig.
  - apply wp_throw_if; [intros _; by apply consistent_safe|]. intros Heq. bool_prop. subst.
    apply Hlast; [done|by rewrite Hrec1|done].
  - apply wp_put_record. intros w2 Hcore2 _. pose proof (core_inv _ _ _ _ _ Hcore2) as (Hr2 & Hf2 & Hk2 & Ho2).
    apply Hlast; [|rewrite Hr2; rewrite Hrec1; exact Hd|by rewrite Hr2].
    destruct Hcon1 as (Hl1 & Hs1 & Hc1 & Hg1). unfold ReceiveInv.consistent, ReceiveInv.safe.
    rewrite Hr2, Hf2, Hk2, Ho2. split; [by apply lok_set_completion|]. done.
Qed.

Lemma send_results_ok rs w :
  consistent w -> durable w ->
  (forall r, r ∈ rs -> exists c, vec_get (rl_entries (record w)) (er_entry_id r) = Some c /\
     cp_result c = Some r) ->
  mwp (send_results rs) (fun _ w' => consistent w' /\ durable w' /\ record w' = record w) w.
Proof.
  revert w. induction rs as [|r rs IH]; intros w Hcon Hdur Hrs; cbn [send_results].
  - by apply wp_ret.
  - apply wp_bind, wp_send; [by apply consistent_safe|]. intros w1 Hcore1 _.
    pose proof (core_inv _ _ _ _ _ Hcore1) as (Hr1 & Hf1 & _).
    assert (Hcon1 : consistent w1).
    { eapply consistent_send; [done|done|]. exists (record w). split; [done|]. apply Hrs. by left. }
    eapply wp_mono; [apply IH; [done| |]| |done].
    + unfold ReceiveInv.durable. by rewrite Hr1, Hf1.
    + intros r' Hr'. rewrite Hr1. apply Hrs. by right.
    + intros u w2 (Hc2 & Hd2 & Hr2). by rewrite Hr2.
Qed.

(** What a verified entry says of its checkpoint. *)
Definition verifies e c (v : VerifiedEntryV2) : Prop :=
  exists k, cp_completion c = Some k /\
    v = mkVerified (entry_id e)
          (if bool_decide (kind e = RegularFile) then Some (ec_final_digest k) else None)
          (completion_choice k).

Definition all_verified (l : ReceiverDataPlaneLedgerV2) (vs : list VerifiedEntryV2) : Prop :=
  length vs = length (entries m) /\
  forall j e c v, entries m !! j = Some e -> rl_entries l !! j = Some c -> vs !! j = Some v ->
    verifies e c v.

Lemma verified_entries_spec cs vs :
  verified_entries m cs = Ok vs ->
  length vs = length cs /\
  forall j c v, cs !! j = Some c -> vs !! j = Some v -> exists e k,
    vec_get (entries m) (cp_entry_id c) = Some e /\ cp_completion c = Some k /\
    v = mkVerified (cp_entry_id c)
          (if bool_decide (kind e = RegularFile) then Some (ec_final_digest k) else None)
          (completion_choice k).
Proof.
  revert vs. induction cs as [|c cs IH]; intros vs Hvs; cbn in Hvs; inv_ok; [done|].
  unfold index_at in *. inv_ok. match goal with Hx : verified_entries _ _ = _ |- _ =>
    destruct (IH _ Hx) as [Hlen Hall] end.
  split; [cbn; by rewrite Hlen|]. intros [|j] c' v Hc Hv'; cbn in *; simplify_eq; eauto.
Qed.

Lemma all_verified_intro s l vs :
  lok s l -> verified_entries m (rl_entries l) = Ok vs -> all_verified l vs.
Proof.
  intros [_ Hall] [Hlen Hvs]%verified_entries_spec. split.
  - rewrite Hlen. symmetry. exact (Forall2_length _ _ _ Hall).
  - intros j e c v He Hc Hj. destruct (Hvs j c v Hc Hj) as (e' & k & He' & Hk & ->).
    pose proof (Forall2_lookup_lr _ _ _ _ _ _ Hall He Hc) as Hok.
    rewrite (co_entry_id _ _ _ _ _ _ Hok), (entry_id_index is_nfc m Hv _ _ He), vec_get_nat in He'.
    simplify_eq. exists k. split; [done|]. by rewrite (co_entry_id _ _ _ _ _ _ Hok).
Qed.

Lemma commit_entries_ok vs0 saved0 j es vs saved w :
  es = drop j (entries m) -> vs = drop j vs0 -> saved = drop j saved0 ->
  length saved0 = length (entries m) -> consistent w -> all_verified (record w) vs0 ->
  mwp (commit_entries ID es vs saved)
    (fun rs w' => consistent w' /\ rl_sender_completion_set_digest (record w') =
         rl_sender_completion_set_digest (record w) /\
       (forall t, (t < j)%nat -> rl_entries (record w') !! t = rl_entries (record w) !! t) /\
       length rs = length es /\
       forall t r, rs !! t = Some r -> er_entry_id r = Z.of_nat (j + t) /\
         exists c, rl_entries (record w') !! (j + t)%nat = Some c /\ cp_result c = Some r) w.
Proof.
  revert j vs saved w. induction es as [|e es IH]; intros j vs saved w Hes Hvs Hsaved Hlen Hcon Hver.
  { cbn [commit_entries]. by apply wp_ret. }
  assert (He : entries m !! j = Some e).
  { rewrite <- (Nat.add_0_r j), <- lookup_drop, <- Hes. done. }
  pose proof (lookup_lt_Some _ _ _ He) as Hj.
  destruct (lookup_lt_is_Some_2 vs0 j) as [v Hv0]; [by rewrite (proj1 Hver)|].
  destruct (lookup_lt_is_Some_2 saved0 j) as [sv Hs0]; [by rewrite Hlen|].
  rewrite (drop_S _ _ _ Hv0) in Hvs. rewrite (drop_S _ _ _ Hs0) in Hsaved. subst vs saved.
  cbn [commit_entries]. apply wp_bind, wp_throw_if; [intros _; by apply consistent_safe|].
  intros Hguard. bool_prop. rewrite (entry_id_index is_nfc m Hv _ _ He).
  pose proof (lo_entries _ _ _ _ _ (proj1 Hcon)) as Hall.
  destruct (Forall2_lookup_l _ _ _ _ _ Hall He) as (c & Hc & Hok).
  set (r := mkResult _ _ _ _ _ _). apply wp_bind. eapply wp_modify; [done|].
  intros w1 Hcore1 _ Hi1. pose proof (core_inv _ _ _ _ _ Hcore1) as (Hr1 & _).
  destruct (proj2 Hver j e c v He Hc Hv0) as (k & Hk & Hvk).
  assert (Hcon1 : consistent w1).
  { eapply consistent_modify; [done|done|done|done|done|]. intros _. eapply result_ok; [done|done|].
    exists (se_final_component_override sv). unfold r. rewrite (entry_id_index is_nfc m Hv _ _ He).
    subst v. cbn in *. congruence. }
  assert (Hver1 : all_verified (record w1) vs0).
  { split; [apply Hver|]. intros t e' c' v' He' Hc' Hv'. rewrite Hr1 in Hc'. cbn in Hc'.
    rewrite Nat2Z.id in Hc'. destruct (decide (j = t)) as [<-|Hne].
    - rewrite list_lookup_alter_eq, Hc in Hc'. cbn in Hc'. simplify_eq. by exists k.
    - rewrite list_lookup_alter_ne in Hc' by done. by eapply Hver. }
  apply wp_bind. eapply wp_mono; [apply (IH (Datatypes.S j)); try done| |done].
  { rewrite (drop_S _ _ _ He) in Hes. by injection Hes. }
  intros rs w2 (Hcon2 & Hdig & Hsame & Hlrs & Hrs). apply wp_ret.
  split; [done|]. split; [by rewrite Hdig, Hr1|]. split; [|split; [cbn; by rewrite Hlrs|]].
  - intros t Ht. rewrite Hsame by lia. rewrite Hr1. cbn. by rewrite Nat2Z.id, list_lookup_alter_ne by lia.
  - intros [|t] r' Hr'; cbn in Hr'.
    + injection Hr' as <-. rewrite Nat.add_0_r. split; [done|]. exists (set_cp_result r c).
      by rewrite Hsame by lia.
    + destruct (Hrs t r' Hr') as [Hid Hc']. by rewrite Nat.add_succ_r.
Qed.

(** The job is recorded as finished, with this summary. *)
Definition finished (summary : ReceiverDataPlaneSummaryV2) w : Prop :=
  consistent w /\ durable w /\ completed_summary (record w) = Some summary.

Lemma finished_intro rs d w :
  consistent w -> durable w -> rl_sender_completion_set_digest (record w) = Some d ->
  map cp_result (rl_entries (record w)) = Some <$> rs -> finished (mkReceiverSummary ID d rs) w.
Proof.
  intros Hcon Hdur Hd Hrs. split; [done|]. split; [done|]. unfold completed_summary. rewrite Hd.
  cbn [mbind option_bind]. rewrite (proj2 (collect_options_Some _ rs)) by done.
  cbn [mbind option_bind]. by rewrite (ledger_ok_identity _ _ _ _ _ (proj1 Hcon)).
Qed.

(** Sending the results of a ledger that has them all. *)
Lemma send_all_ok rs d w :
  consistent w -> durable w -> rl_sender_completion_set_digest (record w) = Some d ->
  map cp_result (rl_entries (record w)) = Some <$> rs ->
  mwp (_ ← send_results rs; _ ← report (on_phase PhFinalizingDelivery);
       mret (mkReceiverSummary ID d rs)) finished w.
Proof.
  intros Hcon Hdur Hd Hrs. apply wp_bind. eapply wp_mono; [apply send_results_ok; [done|done|]| |done].
  - intros r [t Ht]%list_elem_of_lookup.
    pose proof (f_equal (lookup t) Hrs) as Hmap.
    rewrite !list_lookup_fmap, Ht in Hmap. apply fmap_Some in Hmap as (c & Hc & Hr). exists c. split; [|done].
    destruct (Forall2_lookup_r _ _ _ _ _ (lo_entries _ _ _ _ _ (proj1 Hcon)) Hc) as (e & He & Hok).
    destruct (co_result _ _ _ _ _ _ Hok r (eq_sym Hr)) as (k & _ & n & ->). cbn.
    by rewrite (entry_id_index is_nfc m Hv _ _ He), vec_get_nat.
  - intros u w1 (Hcon1 & Hdur1 & Hr1). apply wp_bind, wp_report. intros w2 Hcore2 _. apply wp_ret.
    pose proof (core_same _ _ Hcore2) as (Hr2 & _).
    apply finished_intro; rewrite ?Hr2, ?Hr1; [|by apply (durable_core _ _ _ _ Hcore2)|done..].
    by apply (consistent_core _ _ Hcore2).
Qed.

Lemma finish_job_ok d w :
  consistent w -> durable w -> rl_sender_completion_set_digest (record w) = Some d ->
  mwp (finish_job ledger_to_vec gate m ID d) finished w.
Proof.
  intros Hcon Hdur Hd. unfold finish_job. apply wp_bind, wp_get_record.
  destruct (forallb _ _) eqn:Hall.
  { apply wp_bind, wp_pure; [|intros ? _; by apply consistent_safe]. intros rs Hrs. inv_ok.
    apply collect_options_Some in Hrs. by apply send_all_ok. }
  apply wp_bind, wp_pure; [|intros ? _; by apply consistent_safe]. intros vs Hvs.
  apply wp_bind, wp_report. intros w1 Hcore1 _. pose proof (core_same _ _ Hcore1) as (Hr1 & _).
  pose proof (consistent_core _ _ Hcore1 Hcon) as Hcon1.
  apply wp_bind, wp_call_sink. intros s r w2 Hop Hcore2 _.
  assert (Hkeep : forall e d, V (sink w1) e d -> V s e d) by (intros; by eapply ss_commit).
  pose proof (core_inv _ _ _ _ _ Hcore2) as (Hr2 & _).
  destruct r as [saved|er]; [|eapply safe_sink_all; [by apply consistent_safe|done|done]].
  assert (Hcon2 : consistent w2).
  { eapply consistent_sink_all; [done|done|done|]. eapply ss_good_commit; [exact Hop|apply Hcon1]. }
  destruct (gate m saved) as [saved' gated]. apply wp_bind, wp_pure; [|intros ? _; by apply consistent_safe].
  intros _ _. apply wp_bind, wp_throw_if; [intros _; by apply consistent_safe|]. intros Hlen. bool_prop.
  assert (Hver : all_verified (record w2) vs).
  { rewrite Hr2, Hr1. eapply all_verified_intro; [apply Hcon|done]. }
  apply wp_bind. eapply wp_mono; [eapply (commit_entries_ok vs saved' 0);
    [by rewrite drop_0..|unfold zlen in Hlen; lia|done|done]| |done].
  intros rs w3 (Hcon3 & Hd3 & _ & Hlrs & Hrs). apply wp_bind. apply wp_save_ledger; [done|].
  intros w4 Hcon4 Hdur4 Hr4 _ _ _. apply send_all_ok; [done|done|by rewrite Hr4, Hd3, Hr2, Hr1|].
  rewrite Hr4. pose proof (Forall2_length _ _ _ (lo_entries _ _ _ _ _ (proj1 Hcon3))) as Hl3.
  change (map cp_result (rl_entries (record w3))) with (cp_result <$> rl_entries (record w3)).
  apply list_eq_same_length with (n := length rs); [by rewrite length_fmap|rewrite length_fmap; lia|].
  intros t x y Ht (c & -> & Hc)%list_lookup_fmap_Some_1 (r & -> & Hr)%list_lookup_fmap_Some_1.
  destruct (Hrs t r Hr) as (_ & c' & Hc' & Hres). cbn in Hc'. by simplify_eq.
Qed.

Lemma receive_ok digest w :
  consistent w ->
  mwp (receive is_nfc blake3 zstd_decompress ledger_to_vec gate (mkOffer digest m)) finished w.
Proof.
  intros Hcon. unfold receive. apply wp_bind, wp_get_record.
  apply wp_bind, wp_pure; [|intros ? _; by apply consistent_safe]. intros _ _.
  rewrite (ledger_ok_identity _ _ _ _ _ (proj1 Hcon)). cbn [manifest].
  apply wp_bind, wp_pure; [|intros ? _; by apply consistent_safe]. intros c _.
  apply wp_bind, wp_set_completed. intros w1 Hcore1 _.
  apply wp_bind, wp_report. intros w2 Hcore2 _. apply wp_bind, wp_report. intros w3 Hcore3 _.
  assert (Hcore : core w3 = core w) by congruence.
  pose proof (consistent_core _ _ Hcore Hcon) as Hcon3. apply wp_bind.
  eapply wp_mono; [apply (receive_entries_ok (rl_accept (record w3)) 0); [done|done|]| |done].
  { split; [done|]. intros; lia. }
  intros h w4 [Hcon4 Hd4]. apply wp_bind.
  eapply wp_mono; [by eapply receive_job_complete_ok| |done].
  intros d w5 (Hcon5 & Hdur5 & _ & Hdig5). by apply finish_job_ok.
Qed.
End Safety.

(** ** Theorems *)

Lemma ledger_validate_manifest is_nfc blake3 l m :
  wf_manifest m = true -> ledger_validate is_nfc blake3 l m = Ok tt -> valid_manifest is_nfc m.
Proof.
  intros Hwf Hl. apply validate_sound; [done|]. unfold ledger_validate, build_manifest_offer_v2 in Hl.
  inv_ok. done.
Qed.

Section Theorems.
Context (is_nfc : str -> bool) (blake3 : list byte -> list byte).
Context (zstd_decompress : list byte -> Z -> option (list byte)).
Context (ledger_to_vec : ReceiverDataPlaneLedgerV2 -> option (list byte)).
Context (ledger_from_slice : list byte -> option ReceiverDataPlaneLedgerV2).
Context {S : Type} `{PayloadSink S} (V : S -> ManifestEntryV2 -> ContentDigestV2 -> Prop).
Context `{!SinkSafety S V} (gate : ResultGate).
Local Notation ID m := (mkJobGeneration (job_id m) (generation m)).

(** A session starts with a ledger that is true and stored, and has sent nothing. *)
Definition session_start (m : ManifestV2) (w : World ReceiverDataPlaneLedgerV2 S) : Prop :=
  wf_manifest m = true /\
  (forall l bytes, ledger_to_vec l = Some bytes -> ledger_from_slice bytes = Some l) /\
  ledger_ok is_nfc blake3 m (V (sink w)) (record w) /\
  ledger_load ledger_from_slice (store w) (ID m) = Ok (Some (record w)) /\ outgoing w = [] /\
  ss_good (sink w).

Lemma session_start_consistent m w :
  session_start m w -> consistent is_nfc blake3 ledger_from_slice V m w.
Proof.
  intros (Hwf & Hser & Hl & Hload & Hout & Hg). split; [done|]. split.
  - split; [by exists (record w)|]. by rewrite Hout.
  - split; [|done]. apply (durable_covered ledger_from_slice m). done.
Qed.

Lemma receive_run offer w w' r :
  session_start (manifest offer) w ->
  receive is_nfc blake3 zstd_decompress ledger_to_vec gate offer w = (w', r) ->
  match r with
  | Ok summary => finished is_nfc blake3 ledger_from_slice V (manifest offer) summary w'
  | Err _ => safe is_nfc blake3 ledger_from_slice V (manifest offer) w'
  end.
Proof.
  intros Hs Hrun. pose proof Hs as (Hwf & Hser & Hl & _).
  pose proof (ledger_validate_manifest _ _ _ _ Hwf (lo_valid _ _ _ _ _ Hl)) as Hv.
  destruct offer as [digest m]. cbn [manifest] in *.
  pose proof (receive_ok is_nfc blake3 zstd_decompress ledger_to_vec ledger_from_slice Hser V gate m
    Hwf Hv digest w (session_start_consistent _ _ Hs)) as Hwp.
  unfold wp in Hwp. rewrite Hrun in Hwp. by destruct r.
Qed.
End Theorems.
