(* ===== verification/SendPlane.v ===== *)
(** The sending half of the data plane
    (crates/envoix-transfer/src/manifest_v2_engine.rs): [send], the reconnect it
    makes for a job whose accept is committed, and what they call, over any
    source of file contents. *)

From stdpp Require Import prelude gmap strings.
From Stdlib Require Import ZArith Lia Strings.Byte.
From S2P Require Import Prelude Bytes ManifestV2 OfferCodec Frames Timeline Delivery Ledger Proc.

Local Open Scope Z_scope.

(** ** Sources *)

(** What [send] uses of a sealed job and its [PreparedFileSource]s, by entry id:
    whether the entry has a source; the bytes an opened file yields to reads;
    [verify_unchanged]; whether the spawned hash task [is_finished]; and what
    awaiting it gives. *)
Class FileSource (S : Type) := {
  source_for_sealed_entry : Z -> S -> S * data unit;
  source_open : Z -> S -> S * data (list byte);
  source_verify_unchanged : Z -> S -> S * data unit;
  hash_is_finished : Z -> S -> S * data bool;
  hash_result : Z -> S -> S * data ContentDigestV2;
}.

Section Send.
Context (is_nfc : str -> bool) (blake3 : list byte -> list byte).
Context (derive_key : str -> list byte -> list byte) (keyed_hash : list byte -> list byte -> list byte).
Context (zstd_compress : list byte -> option (list byte)).
Context (sender_to_vec : SenderDeliveryRecordV2 -> option (list byte))
  (sender_from_slice : list byte -> option SenderDeliveryRecordV2).
Context {S : Type} `{FileSource S}.
Local Notation M := (proc (World SenderDeliveryRecordV2 S) ManifestV2DataError).

#[local] Instance sender_store : DeliveryRecord SenderDeliveryRecordV2 :=
  sender_delivery_store is_nfc blake3 derive_key keyed_hash sender_to_vec sender_from_slice.

(** [delivery_store.save(delivery_record).await.map_err(Delivery)?] *)
Definition save_delivery : M unit :=
  save_record (fun fs r fault => let '(fs, saved) := save fs r fault in (fs, map_err D_Delivery saved)).

(** A [&mut self] method of the record. *)
Definition on_record {A} (f : SenderDeliveryRecordV2 -> SenderDeliveryRecordV2 * delivery A) : M A :=
  r ← get_record;
  let '(r, res) := f r in
  _ ← put_record r;
  pure (map_err D_Delivery res).

Definition built_offer (m : ManifestV2) : data ManifestOfferV2 :=
  map_err (fun e => D_Codec (FE_Offer (OfferCodecRejected e))) (build_manifest_offer_v2 is_nfc blake3 m).

(** ** Encodings of a record from an older version *)

(** The sample is what one [read] into a buffer of that many bytes gives; on a regular
    file, which a sealed source is, that is a full buffer or the whole file. *)
Definition legacy_entry_encoding (entry : ManifestEntryV2) (policy : CompressionPolicyV2)
    : M EntryEncodingV2 :=
  if bool_decide (kind entry = Directory) then mret Identity
  else
    match policy with
    | Never => mret Identity
    | Always => mret Zstd
    | Smart =>
      _ ← call_sink (source_for_sealed_entry (entry_id entry));
      bytes ← call_sink (source_open (entry_id entry));
      let sample := take (Z.to_nat LEGACY_SMART_COMPRESSION_SAMPLE_BYTES) bytes in
      if bool_decide (sample = []) then mret Identity
      else
        compressed ← pure (ok_or D_InvalidCompressedBlock (zstd_compress sample));
        mret (if zlen compressed <? zlen sample then Zstd else Identity)
    end.

Fixpoint legacy_entry_encodings (es : list ManifestEntryV2) (policy : CompressionPolicyV2)
    : M (list EntryEncodingV2) :=
  match es with
  | [] => mret []
  | e :: es' =>
    encoding ← legacy_entry_encoding e policy;
    rest ← legacy_entry_encodings es' policy;
    mret (encoding :: rest)
  end.

Definition prepare_sender_entry_encodings (offer : ManifestOfferV2) : M unit :=
  r ← get_record;
  if negb (requires_entry_encoding_migration r) then mret tt
  else
    let policy := compression_policy (manifest offer) in
    let freeze encodings := on_record (fun r =>
      freeze_entry_encodings is_nfc blake3 derive_key keyed_hash r offer encodings) in
    match sd_phase r with
    | Offering =>
      freeze (map (fun entry => initial_entry_encoding entry policy) (entries (manifest offer)))
    | Transferring =>
      encodings ← legacy_entry_encodings (entries (manifest offer)) policy;
      freeze encodings
    | WaitingForReceiverSave | Delivered | TransferFailed | TransferCanceled => mret tt
    end.

(** ** Reconnecting *)

Definition resume_intent_of (p : SenderTransferPhaseV2) : data SenderResumeIntentV2 :=
  match p with
  | Transferring => Ok ContinueData
  | WaitingForReceiverSave | Delivered => Ok AwaitDelivery
  | _ => Err (D_InvalidLedger "sender phase cannot establish a reconnect")
  end.

(** [nonce] is what the entropy source gave. *)
Definition establish_sender_reconnect (sealed : option ManifestV2) (nonce : option (list byte))
    : M ResumeStatusV2 :=
  m ← pure (ok_or D_JobNotSealed sealed);
  offer ← pure (built_offer m);
  r ← get_record;
  _ ← pure (map_err D_Delivery (validate_offer is_nfc blake3 derive_key keyed_hash r offer));
  accept_digest ← pure (ok_or (D_InvalidLedger "sender Accept is not committed")
                          (sd_accept_body_digest r));
  capability ← pure (ok_or (D_InvalidLedger "sender proof capability is missing")
                       (proof_capability_of r));
  challenge_nonce ← pure (ok_or (D_Delivery DE_Entropy) nonce);
  intent ← pure (resume_intent_of (sd_phase r));
  _ ← send_frame (ResumeRequest
        (mkResumeRequest (sd_identity r) offer accept_digest
           (checkpoint_digest_of derive_key (structural_digest offer) accept_digest intent)
           challenge_nonce));
  frame ← recv;
  match frame with
  | ResumeStatus status =>
    if negb (bool_decide (rs_challenge_nonce status = challenge_nonce)) then throw D_AcceptMismatch
    else
      _ ← pure (map_err D_Delivery
                  (verify_resume_challenge derive_key keyed_hash (sd_identity r) challenge_nonce
                     (Frames.challenge_mac status) capability));
      _ ← pure (validate_resume_status blake3 m r status);
      mret status
  | _ => throw (D_UnexpectedFrame "waiting for receiver resume status")
  end.

(** ** One entry *)

Definition send_directory (id : JobGenerationV2) (entry : ManifestEntryV2) : M EntryCompleteV2 :=
  _ ← send_frame (EntryStart (mkEntryStart id (entry_id entry) Identity block_bytes));
  let completion := mkComplete id (entry_id entry) 0 (empty_digest blake3) PayloadComplete in
  _ ← send_frame (EntryComplete completion);
  mret completion.

Definition handle_sender_control {A} (frame : ManifestV2Frame) (id : JobGenerationV2) : data A :=
  match frame with
  | Cancel cancel =>
    Err (D_UnexpectedFrame (if bool_decide (ca_identity cancel = id)
                            then "peer canceled job" else "sending entry payload"))
  | Error error =>
    Err (D_UnexpectedFrame (if bool_decide (me_identity error = id)
                            then "peer reported failure" else "sending entry payload"))
  | _ => Err (D_UnexpectedFrame "sending entry payload")
  end.

Definition send_late_digest_and_receive_status (id : JobGenerationV2) (eid : Z)
    (digest : ContentDigestV2) : M bool :=
  _ ← send_frame (EntryContentDigest (mkContentDigest id eid digest Proposed));
  frame ← recv;
  match frame with
  | EntryContentDigest response =>
    if negb (bool_decide (cd_identity response = id))
       || negb (cd_entry_id response =? eid)
       || negb (bool_decide (cd_digest response = digest))
       || bool_decide (decision response = Proposed)
    then throw D_IdentityMismatch
    else mret (bool_decide (decision response = DecisionReuseExisting))
  | frame =>
    _ ← pure (handle_sender_control (A := unit) frame id);
    throw (D_UnexpectedFrame "waiting for late-digest decision")
  end.

(** [PendingHashTask]: whether there is a task.  [is_finished], and awaiting the
    task that [take] gives. *)
Definition task_is_finished (task : bool) (eid : Z) : M bool :=
  if task then call_sink (hash_is_finished eid) else mret false.
Definition await_hash_task (task : bool) (eid : Z) : M ContentDigestV2 :=
  if task then call_sink (hash_result eid) else throw D_DigestConflict.

(** The local variables of the loop of [send_file]; [unread] is what the opened
    file still yields. *)
Record SendLoop := mkSendLoop {
  unread : list byte;
  payload_hasher : list byte;
  hash_task : bool;
  late_digest : option ContentDigestV2;
  sl_block_index : Z;
  sl_plaintext_offset : Z;
}.

(** The digest of a finished hash task is offered once; [true] when the receiver
    reuses its own object. *)
Definition offer_late_digest (id : JobGenerationV2) (eid : Z) (st : SendLoop) : M (SendLoop * bool) :=
  finished ← (if bool_decide (late_digest st = None) then task_is_finished (hash_task st) eid
              else mret false);
  if (finished : bool) then
    digest ← await_hash_task (hash_task st) eid;
    reuse ← send_late_digest_and_receive_status id eid digest;
    mret (mkSendLoop (unread st) (payload_hasher st) false (Some digest) (sl_block_index st)
            (sl_plaintext_offset st), reuse)
  else mret (st, false).

(** One block is read, and sent unless the receiver has it. *)
Definition send_block (id : JobGenerationV2) (entry : ManifestEntryV2) (plan : EntryPlanV2)
    (enc : EntryEncodingV2) (total : Z) (st : SendLoop) : M SendLoop :=
  let remaining := plaintext_size entry - sl_plaintext_offset st in
  let len := Z.min remaining block_bytes in
  _ ← throw_if (zlen (unread st) <? len) D_Io;
  let bytes := take (Z.to_nat len) (unread st) in
  _ ← (if ep_next_plaintext_block plan <=? sl_block_index st then
         encoded ← pure (encode_block zstd_compress enc bytes);
         _ ← send_frame (EntryBlock (mkBlock id (entry_id entry) (sl_block_index st)
               (sl_plaintext_offset st) (as_u32 len) encoded));
         _ ← report (on_stage FirstPayload);
         advance len total
       else mret tt);
  index ← pure (ok_or D_ArithmeticOverflow (checked_add u64_max (sl_block_index st) 1));
  offset ← pure (ok_or D_ArithmeticOverflow (checked_add u64_max (sl_plaintext_offset st) len));
  mret (mkSendLoop (drop (Z.to_nat len) (unread st)) (payload_hasher st ++ bytes) (hash_task st)
          (late_digest st) index offset).

(** The loop; [true] when it stopped for a reuse. *)
Fixpoint send_blocks (fuel : nat) (id : JobGenerationV2) (entry : ManifestEntryV2)
    (plan : EntryPlanV2) (enc : EntryEncodingV2) (total : Z) (st : SendLoop) : M (SendLoop * bool) :=
  match fuel with
  | O => mret (st, false)
  | Datatypes.S fuel =>
    if sl_plaintext_offset st <? plaintext_size entry then
      '(st, reuse) ← offer_late_digest id (entry_id entry) st;
      if (reuse : bool) then mret (st, true)
      else
        st ← send_block id entry plan enc total st;
        send_blocks fuel id entry plan enc total st
    else mret (st, false)
  end.

(** A turn advances by a whole block or reaches the end. *)
Definition send_fuel (entry : ManifestEntryV2) : nat :=
  Z.to_nat ((plaintext_size entry + (block_bytes - 1)) / block_bytes).

(** What follows the loop when it was not stopped: the payload is complete, and
    a digest that was not offered yet is offered now. *)
Definition finish_payload (id : JobGenerationV2) (entry : ManifestEntryV2) (st : SendLoop)
    : M (ContentDigestV2 * bool) :=
  let payload_digest := blake3 (payload_hasher st) in
  _ ← call_sink (source_verify_unchanged (entry_id entry));
  match known_digest entry with
  | Some expected =>
    if negb (bool_decide (expected = payload_digest)) then throw D_FinalMismatch
    else mret (expected, false)
  | None =>
    digest ← match late_digest st with
             | Some digest => mret digest
             | None => await_hash_task (hash_task st) (entry_id entry)
             end;
    _ ← throw_if (negb (bool_decide (digest = payload_digest))) D_FinalMismatch;
    reuse ← (if bool_decide (late_digest st = None)
             then send_late_digest_and_receive_status id (entry_id entry) digest else mret false);
    mret (digest, reuse)
  end.

Definition send_file (id : JobGenerationV2) (entry : ManifestEntryV2) (plan : EntryPlanV2)
    (enc : EntryEncodingV2) (total resumed_entry_bytes : Z) : M EntryCompleteV2 :=
  _ ← send_frame (EntryStart (mkEntryStart id (entry_id entry) enc block_bytes));
  if bool_decide (disposition plan = DispositionReuseExisting) then
    digest ← pure (ok_or D_ReuseUnavailable (known_digest entry));
    _ ← call_sink (source_verify_unchanged (entry_id entry));
    let completion := mkComplete id (entry_id entry) (plaintext_size entry) digest
                        CompletionReuseChosen in
    _ ← send_frame (EntryComplete completion);
    _ ← advance (saturating_sub (plaintext_size entry) resumed_entry_bytes) total;
    mret completion
  else
    bytes ← call_sink (source_open (entry_id entry));
    '(st, stopped) ← send_blocks (send_fuel entry) id entry plan enc total
                       (mkSendLoop bytes [] (bool_decide (known_digest entry = None)) None 0 0);
    '(final_digest, reuse_chosen) ←
      (if (stopped : bool) then
         _ ← call_sink (source_verify_unchanged (entry_id entry));
         let entry_progress :=
           Z.max (Z.max resumed_entry_bytes (sl_plaintext_offset st))
             (Z.min (saturating_mul u64_max (ep_next_plaintext_block plan) block_bytes)
                (plaintext_size entry)) in
         _ ← advance (saturating_sub (plaintext_size entry) entry_progress) total;
         digest ← pure (ok_or D_DigestConflict (late_digest st));
         mret (digest, true)
       else finish_payload id entry st);
    let completion := mkComplete id (entry_id entry) (plaintext_size entry) final_digest
          (if (reuse_chosen : bool) then CompletionReuseChosen else PayloadComplete) in
    _ ← send_frame (EntryComplete completion);
    mret completion.

(** ** The job *)

(** [accept.entry_plans] as the receiver's checkpoints move them. *)
Fixpoint resumed_plans (plans : list EntryPlanV2) (cs : list ResumeEntryV2) : list EntryPlanV2 :=
  match plans, cs with
  | plan :: plans', c :: cs' =>
    mkEntryPlan (ep_entry_id plan)
      (if bool_decide (arbiter c = ArbiterReuseChosen) then DispositionReuseExisting
       else disposition plan)
      (re_next_plaintext_block c) :: resumed_plans plans' cs'
  | _, _ => plans
  end.

Definition with_entry_plans (plans : list EntryPlanV2) (a : ManifestAcceptV2) : ManifestAcceptV2 :=
  mkAccept (acc_identity a) (acc_manifest_digest a) (accept_nonce a) (proof_capability a)
    (acc_plan_revision a) (root_plans a) plans.

(** [status.entries[entry.entry_id as usize]], when resuming. *)
Definition resume_at (status : option ResumeStatusV2) (eid : Z) : data (option ResumeEntryV2) :=
  match status with
  | None => Ok None
  | Some status => c ← index_at (rs_entries status) eid; Ok (Some c)
  end.

(** The completion of an entry the receiver has settled already. *)
Definition settled_by (id : JobGenerationV2) (entry : ManifestEntryV2)
    (checkpoint : option ResumeEntryV2) : option (data EntryCompleteV2) :=
  match checkpoint with
  | None => None
  | Some c =>
    match entry_result c with
    | Some result => Some (completion_from_result blake3 entry result)
    | None =>
      if negb (bool_decide (arbiter c = PayloadOpen))
      then Some (completion_from_resume_checkpoint blake3 id entry c) else None
    end
  end.

Definition send_entry (id : JobGenerationV2) (accept : ManifestAcceptV2)
    (status : option ResumeStatusV2) (total : Z) (entry : ManifestEntryV2) : M EntryCompleteV2 :=
  checkpoint ← pure (resume_at status (entry_id entry));
  match settled_by id entry checkpoint with
  | Some completion => pure completion
  | None =>
    plan ← pure (index_at (entry_plans accept) (entry_id entry));
    if bool_decide (kind entry = Directory) then send_directory id entry
    else
      r ← get_record;
      enc ← pure (map_err D_Delivery (frozen_entry_encoding r (entry_id entry)));
      _ ← call_sink (source_for_sealed_entry (entry_id entry));
      resumed ← match checkpoint with
                | Some c => pure (resume_entry_plaintext_bytes entry c)
                | None => mret 0
                end;
      send_file id entry plan enc total resumed
  end.

(** The completion hasher's bytes and the completions, in order. *)
Fixpoint send_entries (id : JobGenerationV2) (accept : ManifestAcceptV2)
    (status : option ResumeStatusV2) (total : Z) (es : list ManifestEntryV2) (hasher : list byte)
    : M (list byte * list EntryCompleteV2) :=
  match es with
  | [] => mret (hasher, [])
  | entry :: es' =>
    completion ← send_entry id accept status total entry;
    hasher ← pure (update_completion_set is_nfc blake3 hasher completion);
    '(hasher, completions) ← send_entries id accept status total es' hasher;
    mret (hasher, completion :: completions)
  end.

Definition recv_entry_result (id : JobGenerationV2) (eid : Z) : M EntryResultV2 :=
  frame ← recv;
  match frame with
  | EntryResult result =>
    if bool_decide (er_identity result = id) && (er_entry_id result =? eid)
    then mret result else throw (D_UnexpectedFrame "waiting for EntryResult")
  | _ => throw (D_UnexpectedFrame "waiting for EntryResult")
  end.

Fixpoint recv_results (id : JobGenerationV2) (es : list ManifestEntryV2)
    (completions : list EntryCompleteV2) : M (list EntryResultV2) :=
  match es, completions with
  | entry :: es', completion :: completions' =>
    result ← recv_entry_result id (entry_id entry);
    _ ← pure (validate_entry_result entry id completion result);
    results ← recv_results id es' completions';
    mret (result :: results)
  | _, _ => mret []
  end.

(** The accept of this connection, and the checkpoints of a reconnect. *)
Definition negotiate (sealed : option ManifestV2) (nonce : option (list byte))
    (offer : ManifestOfferV2) : M (ManifestAcceptV2 * option ResumeStatusV2) :=
  r ← get_record;
  _ ← report (on_stage ManifestOffer);
  if bool_decide (sd_phase r = Transferring) then
    status ← establish_sender_reconnect sealed nonce;
    r ← get_record;
    accept ← pure (ok_or (D_InvalidLedger "sender Accept is missing") (sd_accept r));
    mret (with_entry_plans (resumed_plans (entry_plans accept) (rs_entries status)) accept,
          Some status)
  else
    _ ← send_frame (Offer offer);
    frame ← recv;
    match frame with
    | Accept accept => _ ← pure (validate_accept offer accept); mret (accept, None)
    | _ => throw (D_UnexpectedFrame "waiting for Accept")
    end.

Definition send (sealed : option ManifestV2) (nonce : option (list byte))
    : M SenderDataPlaneSummaryV2 :=
  m ← pure (ok_or D_JobNotSealed sealed);
  offer ← pure (built_offer m);
  _ ← prepare_sender_entry_encodings offer;
  r ← get_record;
  _ ← pure (map_err D_Delivery (validate_offer is_nfc blake3 derive_key keyed_hash r offer));
  _ ← save_delivery;
  '(accept, status) ← negotiate sealed nonce offer;
  r ← get_record;
  accept_body_digest ←
    match status with
    | Some _ => pure (ok_or (D_InvalidLedger "sender Accept digest is missing")
                        (sd_accept_body_digest r))
    | None => pure (map_err D_Codec
                      (canonical_manifest_v2_frame_body_digest is_nfc blake3 (Accept accept)))
    end;
  let id := acc_identity accept in
  _ ← (if bool_decide (status = None)
       then _ ← on_record (fun r => commit_accept r accept accept_body_digest); save_delivery
       else mret tt);
  _ ← report (on_stage ManifestAccepted);
  _ ← report (on_phase PhTransferring);
  let total := total_plaintext_bytes (totals m) in
  resumed ← match status with
            | Some status => pure (resume_plaintext_bytes m status)
            | None => mret 0
            end;
  _ ← set_completed resumed;
  _ ← report (on_progress resumed total);
  '(hasher, completions) ← send_entries id accept status total (entries m) [];
  let digest := blake3 hasher in
  _ ← report (on_stage StagePayloadComplete);
  _ ← send_frame (JobComplete (mkJobComplete id digest));
  results ← recv_results id (entries m) completions;
  let summary := mkSenderSummary id accept_body_digest digest results in
  _ ← on_record (fun r => commit_results r summary);
  _ ← save_delivery;
  _ ← report (on_phase PhWaitingForReceiverSave);
  mret summary.
End Send.
