(* ===== verification/Loops.v ===== *)
(** The loops of the model end on their own: with the fuel they are given, more
    fuel changes nothing.  One unit per incoming frame for the receiver, one per
    block for the sender, one per object of the file system for a walk over a
    tree. *)

From stdpp Require Import prelude gmap strings.
From Stdlib Require Import ZArith Lia Strings.Byte.
From S2P Require Import Prelude Bytes ManifestV2 Frames Delivery Ledger Proc LocalFs Destination.
From S2P Require Import ReceivePlane Provider ProviderCommit FsProof LedgerInv SendPlane.

Local Open Scope Z_scope.

(** Runs that agree up to what follows the first call. *)
Lemma bind_ext {W E A B} (m : proc W E A) (f g : A -> proc W E B) w :
  (forall a w', m w = (w', Ok a) -> f a w' = g a w') -> (m ≫= f) w = (m ≫= g) w.
Proof. unfold mbind, proc_bind. destruct (m w) as [w' [a|e]]; auto. Qed.

(** ** The receiver's loop *)

Definition same_incoming {R S} (w w' : World R S) : Prop := incoming w' = incoming w.
#[export] Instance same_incoming_preorder {R S} : PreOrder (@same_incoming R S).
Proof. split; unfold same_incoming; [done|congruence]. Qed.

(** A call that takes no frame from the connection. *)
Definition silent {R S A} (f : proc (World R S) ManifestV2DataError A) : Prop :=
  obeys (fun _ => True) same_incoming f.

Section Silent.
Context {R S : Type}.
Local Notation silent := (@silent R S _).

Lemma silent_save sv : silent (save_record sv).
Proof.
  intros w _. split; [done|]. unfold save_record. destruct (match save_faults w with [] => _ | _ => _ end).
  by destruct (sv _ _ _).
Qed.
Lemma silent_sink {A} (op : S -> S * data A) : silent (call_sink op).
Proof. intros w _. split; [done|]. unfold call_sink. by destruct (op _). Qed.
Lemma silent_send f : silent (send_frame f).
Proof. intros w _. split; [done|]. unfold send_frame. by destruct (sends_left w). Qed.
Lemma silent_get : silent get_record.
Proof. by intros w _. Qed.
Lemma silent_put r : silent (put_record r).
Proof. by intros w _. Qed.
Lemma silent_report r : silent (report r).
Proof. by intros w _. Qed.
Lemma silent_ret {A} (a : A) : silent (mret a).
Proof. by intros w _. Qed.
Lemma silent_pure {A} (r : data A) : silent (pure r).
Proof. by intros w _. Qed.
Lemma silent_throw {A} e : silent (throw (A := A) e).
Proof. by intros w _. Qed.
Lemma silent_bind {A B} (m : proc (World R S) ManifestV2DataError A) (f : A -> proc _ _ B) :
  silent m -> (forall a, silent (f a)) -> silent (m ≫= f).
Proof. apply leaves_bind, _. Qed.
Lemma silent_advance amount total : silent (advance amount total).
Proof. unfold advance. repeat (apply silent_bind; [|intros ?]); by intros w _. Qed.
End Silent.

Create HintDb silent.
#[export] Hint Resolve silent_save silent_sink silent_send silent_get silent_put silent_report
  silent_advance silent_ret silent_pure silent_throw : silent.
Ltac silent_go :=
  repeat first
    [ solve [auto with silent]
    | apply silent_bind; [|intros ?]
    | match goal with |- silent (if ?b then _ else _) => destruct b end ].

Section ReceiveLoop.
Context (zstd_decompress : list byte -> Z -> option (list byte)) (blake3 : list byte -> list byte).
Context (ledger_to_vec : ReceiverDataPlaneLedgerV2 -> option (list byte)).
Context {S : Type} `{PayloadSink S}.

Lemma silent_entry index : silent (S := S) (entry_at index).
Proof. unfold entry_at. silent_go. Qed.
#[local] Hint Resolve silent_entry : silent.
Lemma silent_modify index f : silent (S := S) (modify_entry index f).
Proof. unfold modify_entry. silent_go. Qed.
#[local] Hint Resolve silent_modify : silent.

Lemma silent_digest e index total f : silent (receive_digest ledger_to_vec e index total f).
Proof. unfold receive_digest, digest_refused, retire_mismatch, save_ledger. silent_go. Qed.
Lemma silent_block e index total b : silent (receive_block zstd_decompress ledger_to_vec e index total b).
Proof. unfold receive_block, save_ledger. silent_go. Qed.

Lemma receive_frames_enough fuel e index total w :
  (length (incoming w) <= fuel)%nat ->
  receive_frames zstd_decompress ledger_to_vec fuel e index total w
  = receive_frames zstd_decompress ledger_to_vec (length (incoming w)) e index total w.
Proof.
  remember (length (incoming w)) as n eqn:Hn. revert fuel w Hn.
  induction n as [|n IH]; intros [|fuel] w Hn Hle; [done| |lia|].
  - cbn [receive_frames]. unfold mbind at 1, proc_bind at 1, get_record.
    unfold mbind at 1, proc_bind at 1, recv. by destruct (incoming w).
  - cbn [receive_frames]. apply bind_ext. intros l w0 [= <- <-]. apply bind_ext. intros f w1 Hrecv.
    unfold recv in Hrecv. destruct (incoming w) as [|f' rest] eqn:Hin; [done|]. injection Hrecv as <- <-.
    cbn in Hn. injection Hn as Hn.
    assert (Hnext : forall g : proc (World ReceiverDataPlaneLedgerV2 S) ManifestV2DataError unit, silent g ->
      forall w0 w2, incoming w0 = rest -> g w0 = (w2, Ok tt) ->
      receive_frames zstd_decompress ledger_to_vec fuel e index total w2
      = receive_frames zstd_decompress ledger_to_vec n e index total w2).
    { intros g Hg w0 w2 Hw0 Hrun. destruct (Hg w0 I) as [_ Hs]. rewrite Hrun in Hs. cbn in Hs.
      unfold same_incoming in Hs. apply IH; [congruence|lia]. }
    destruct f'; try done; apply bind_ext; intros [] w2 Hrun; (eapply Hnext; [|shelve|exact Hrun]).
    all: auto using silent_digest, silent_block.
    Unshelve. all: done.
Qed.
End ReceiveLoop.

(** ** The sender's loop *)

Section SendLoop.
Context (zstd_compress : list byte -> option (list byte)).
Context {S : Type} `{FileSource S}.
Context (e : ManifestEntryV2) (Hsize : 0 <= plaintext_size e).
Implicit Types w : World SenderDeliveryRecordV2 S.

(** The offset after so many blocks. *)
Definition at_block (st : SendLoop) : Prop :=
  0 <= sl_block_index st /\
  sl_plaintext_offset st = Z.min (sl_block_index st * block_bytes) (plaintext_size e).

Lemma send_block_next id plan enc total st st' w w' :
  at_block st -> sl_plaintext_offset st < plaintext_size e ->
  send_block zstd_compress id e plan enc total st w = (w', Ok st') ->
  at_block st' /\ sl_block_index st' = sl_block_index st + 1.
Proof.
  intros [Hk Hoff] Hlt Hrun. unfold send_block in Hrun.
  do 2 apply bind_ok in Hrun as (? & ? & _ & Hrun).
  apply bind_ok in Hrun as (? & k & Hi & Hrun). apply bind_ok in Hrun as (? & o & Ho & Hrun).
  apply pure_ok in Hi as [Hi _], Ho as [Ho _]. inv_ok.
  apply checked_add_Some in Hi as [-> _], Ho as [-> _].
  injection Hrun as <- <-. unfold at_block. cbn. pose proof block_bytes_pos. lia.
Qed.

Lemma offer_late_index id eid st st' reuse w w' :
  offer_late_digest id eid st w = (w', Ok (st', reuse)) ->
  sl_block_index st' = sl_block_index st /\ sl_plaintext_offset st' = sl_plaintext_offset st.
Proof.
  unfold offer_late_digest. intros Hrun. apply bind_ok in Hrun as (? & finished & _ & Hrun).
  destruct finished; [|by injection Hrun as <- <- <-].
  do 2 apply bind_ok in Hrun as (? & ? & _ & Hrun). by injection Hrun as <- <- <-.
Qed.

Lemma send_blocks_enough fuel fuel' id plan enc total st w :
  at_block st -> Z.of_nat fuel >= blocks_of e - sl_block_index st ->
  Z.of_nat fuel' >= blocks_of e - sl_block_index st ->
  send_blocks zstd_compress fuel id e plan enc total st w
  = send_blocks zstd_compress fuel' id e plan enc total st w.
Proof.
  assert (Hend : forall st, at_block st -> 0 >= blocks_of e - sl_block_index st ->
    plaintext_size e <= sl_plaintext_offset st).
  { intros st' [Hk ->] Hle. pose proof (blocks_of_cover e Hsize). pose proof block_bytes_pos.
    assert (blocks_of e * block_bytes <= sl_block_index st' * block_bytes)
      by (apply Z.mul_le_mono_nonneg_r; lia). lia. }
  revert fuel' st w. induction fuel as [|fuel IH]; intros [|fuel'] st w Hst Hf Hf'; cbn [send_blocks].
  - done.
  - destruct (Z.ltb_spec (sl_plaintext_offset st) (plaintext_size e)); [|done].
    specialize (Hend st Hst). lia.
  - destruct (Z.ltb_spec (sl_plaintext_offset st) (plaintext_size e)); [|done].
    specialize (Hend st Hst). lia.
  - destruct (Z.ltb_spec (sl_plaintext_offset st) (plaintext_size e)); [|done].
    apply bind_ext. intros [st1 reuse] w1 Hoffer. apply offer_late_index in Hoffer as [Hi Ho].
    destruct reuse; [done|]. apply bind_ext. intros st2 w2 Hblock.
    apply send_block_next in Hblock as [Hst2 Hk2]; [|unfold at_block; by rewrite Hi, Ho|lia].
    apply IH; [done|lia..].
Qed.
End SendLoop.

(** ** Walks over a tree *)

(** The objects at and below a path. *)
Definition weight (ns : gmap path Node) (p : path) : nat :=
  length (filter (fun kv => p `prefix_of` kv.1) (map_to_list ns)).
Definition weights (ns : gmap path Node) (ps : list path) : nat := sum_list_with (weight ns) ps.

Lemma weight_le ns p : (weight ns p <= size ns)%nat.
Proof. unfold weight. rewrite <- length_map_to_list. apply length_filter. Qed.

Lemma prefix_join_inj (d q : path) a b :
  join d a `prefix_of` q -> join d b `prefix_of` q -> a = b.
Proof.
  unfold join. intros [r ->] [r' Heq]. rewrite <- !app_assoc in Heq. by apply app_inv_head in Heq as [= ->].
Qed.

(** An object is below at most one child, and a directory below none of its own. *)
Lemma one_child d q names :
  NoDup names ->
  (length (filter (fun n => join d n `prefix_of` q) names)
   <= if decide (d `prefix_of` q /\ q <> d) then 1 else 0)%nat.
Proof.
  intros Hnd. assert (Hd : forall n, join d n `prefix_of` q -> d `prefix_of` q /\ q <> d).
  { intros n [r ->]. unfold join. split; [rewrite <- app_assoc; by apply prefix_app_r|].
    rewrite <- app_assoc. intros Heq. apply (f_equal length) in Heq. rewrite length_app in Heq.
    cbn in Heq. lia. }
  destruct (filter _ names) as [|a rest] eqn:Hf; [cbn; lia|].
  assert (Ha : a ∈ filter (fun n => join d n `prefix_of` q) names) by (rewrite Hf; left).
  apply list_elem_of_filter in Ha as [Ha _]. rewrite decide_True by eauto.
  destruct rest as [|b rest]; [done|]. exfalso.
  assert (Hb : b ∈ filter (fun n => join d n `prefix_of` q) names) by (rewrite Hf; right; left).
  apply list_elem_of_filter in Hb as [Hb _]. rewrite (prefix_join_inj _ _ _ _ Ha Hb) in Hf.
  assert (Hnd' : NoDup (filter (fun n => join d n `prefix_of` q) names)) by by apply NoDup_filter.
  rewrite Hf in Hnd'. apply NoDup_cons in Hnd' as [Hnin _]. apply Hnin. left.
Qed.

Lemma length_filter_cons {A} (P : A -> Prop) `{!forall x, Decision (P x)} x l :
  length (filter P (x :: l)) = ((if decide (P x) then 1 else 0) + length (filter P l))%nat.
Proof. rewrite filter_cons. by destruct (decide (P x)). Qed.

Lemma children_below (d : path) names (l : list (path * Node)) :
  NoDup names ->
  (sum_list_with (fun n => length (filter (fun kv => join d n `prefix_of` kv.1) l)) names
   + length (filter (fun kv => kv.1 = d) l)
   <= length (filter (fun kv => d `prefix_of` kv.1) l))%nat.
Proof.
  intros Hnd. induction l as [|[q x] l IH].
  - cbn. rewrite Nat.add_0_r. clear Hnd. induction names; cbn in *; lia.
  - rewrite !length_filter_cons. cbn [fst].
    assert (Hsum : sum_list_with (fun n => length (filter (fun kv => join d n `prefix_of` kv.1) ((q, x) :: l))) names
      = (length (filter (fun n => join d n `prefix_of` q) names)
         + sum_list_with (fun n => length (filter (fun kv => join d n `prefix_of` kv.1) l)) names)%nat).
    { clear. induction names as [|n names IH]; [done|]. cbn [sum_list_with]. rewrite IH, !length_filter_cons.
      cbn [fst]. lia. }
    rewrite Hsum. pose proof (one_child d q names Hnd) as Hone.
    destruct (decide (d `prefix_of` q)) as [Hp|Hp].
    + destruct (decide (q = d)) as [->|Hne].
      * rewrite decide_False in Hone by tauto. lia.
      * rewrite decide_True in Hone by tauto. lia.
    + rewrite decide_False in Hone by tauto. rewrite (decide_False (P := q = d)); [lia|]. by intros ->.
Qed.

Lemma parent_last q d n : parent q = Some d -> last q = Some n -> q = join d n.
Proof.
  intros Hp [l ->]%last_Some. unfold parent in Hp. destruct (l ++ [n]) eqn:Hl; [by destruct l|].
  change (Some (removelast (l0 :: l1)) = Some d) in Hp. rewrite <- Hl, removelast_last in Hp.
  rewrite <- Hl. by injection Hp as ->.
Qed.

Lemma children_NoDup d ns : NoDup (children d ns).
Proof.
  assert (Hgen : forall l : list (path * Node), NoDup l.*1 -> NoDup (omap (fun kv : path * Node =>
    match parent kv.1 with Some q => if bool_decide (q = d) then last kv.1 else None | None => None end) l));
    [|apply Hgen, NoDup_fst_map_to_list].
  induction l as [|[q x] l IH]; intros Hnd; [constructor|]. cbn in Hnd. apply NoDup_cons in Hnd as [Hq Hnd].
  cbn [omap list_omap fst]. destruct (parent q) as [q'|] eqn:Hpar; [|by apply IH].
  case_bool_decide as Hd; [|by apply IH]. destruct (last q) as [n|] eqn:Hlast; [|by apply IH].
  constructor; [|by apply IH]. rewrite list_elem_of_omap. intros ([r y] & Hin & Hr). cbn in Hr.
  destruct (parent r) as [r'|] eqn:Hparr; [|done]. case_bool_decide as Hd'; [|done]. subst.
  apply Hq. apply list_elem_of_fmap. exists (r, y). split; [|done]. cbn.
  by rewrite (parent_last _ _ _ Hpar Hlast), (parent_last _ _ _ Hparr Hr).
Qed.

(** A directory weighs more than the directories in it. *)
Lemma weights_children ns d :
  is_Some (ns !! d) -> (weights ns (join d <$> children d ns) < weight ns d)%nat.
Proof.
  intros [x Hx]. pose proof (children_below d (children d ns) (map_to_list ns) (children_NoDup d ns)) as Hle.
  assert (Hself : (1 <= length (filter (fun kv : path * Node => kv.1 = d) (map_to_list ns)))%nat).
  { assert (Hin : (d, x) ∈ filter (fun kv : path * Node => kv.1 = d) (map_to_list ns)).
    { apply list_elem_of_filter. by rewrite elem_of_map_to_list. }
    destruct (filter _ _); [by apply not_elem_of_nil in Hin|cbn; lia]. }
  assert (Hsum : weights ns (join d <$> children d ns) = sum_list_with (fun n =>
    length (filter (fun kv => join d n `prefix_of` kv.1) (map_to_list ns))) (children d ns)).
  { unfold weights. generalize (children d ns). intros l. induction l as [|n l IH]; [done|].
    rewrite fmap_cons. cbn [sum_list_with]. by rewrite IH. }
  rewrite Hsum. unfold weight. lia.
Qed.

Lemma weights_cons ns p ps : weights ns (p :: ps) = (weight ns p + weights ns ps)%nat.
Proof. done. Qed.

Lemma push_directories_ok d names pending fs fs' pending' :
  push_directories d names pending fs = (fs', Ok pending') ->
  nodes fs' = nodes fs /\
  (weights (nodes fs) pending' <= weights (nodes fs) (join d <$> names) + weights (nodes fs) pending)%nat.
Proof.
  revert pending fs. induction names as [|n names IH]; intros pending fs Hrun; cbn in Hrun.
  { injection Hrun as <- <-. cbn. auto with lia. }
  apply bind_ok in Hrun as (fs1 & md & H1%metadata_nodes & Hrun). apply IH in Hrun as [Hn Hw].
  rewrite fmap_cons, weights_cons. rewrite H1 in *. split; [done|].
  destruct (md_is_file md); [lia|]. rewrite weights_cons in Hw. lia.
Qed.

Lemma walk_directories_enough fuel fuel' pending visited fs :
  (weights (nodes fs) pending < fuel)%nat -> (weights (nodes fs) pending < fuel')%nat ->
  walk_directories fuel pending visited fs = walk_directories fuel' pending visited fs.
Proof.
  revert fuel' pending visited fs. induction fuel as [|fuel IH]; intros [|fuel'] pending visited fs Hf Hf';
    [lia..|]. destruct pending as [|d pending]; [done|]. cbn [walk_directories].
  rewrite weights_cons in *.
  apply bind_ext. intros names fs1 (H1 & Hd & ->)%read_dir_ok.
  apply bind_ext. intros pending1 fs2 (H2 & Hw)%push_directories_ok.
  pose proof (weights_children _ _ Hd). rewrite H1 in *. apply IH; rewrite H2; lia.
Qed.

Lemma check_children_ok d expected names pending fs fs' pending' :
  check_children d expected names pending fs = (fs', Ok pending') ->
  nodes fs' = nodes fs /\
  (weights (nodes fs) pending' <= weights (nodes fs) (join d <$> names) + weights (nodes fs) pending)%nat.
Proof.
  revert pending fs. induction names as [|n names IH]; intros pending fs Hrun; cbn [check_children] in Hrun.
  { injection Hrun as <- <-. cbn. auto with lia. }
  apply bind_ok in Hrun as (fs1 & md & H1%io_plan_ok%metadata_nodes & Hrun).
  apply bind_ok in Hrun as (fs2 & [] & [_ ->]%throw_if_ok & Hrun). apply IH in Hrun as [Hn Hw].
  rewrite fmap_cons, weights_cons. rewrite H1 in *. split; [done|].
  destruct (md_is_file md); [lia|]. rewrite weights_cons in Hw. lia.
Qed.

Lemma check_directories_enough fuel fuel' expected pending fs :
  (weights (nodes fs) pending < fuel)%nat -> (weights (nodes fs) pending < fuel')%nat ->
  check_directories fuel expected pending fs = check_directories fuel' expected pending fs.
Proof.
  revert fuel' pending fs. induction fuel as [|fuel IH]; intros [|fuel'] pending fs Hf Hf'; [lia..|].
  destruct pending as [|d pending]; [done|]. cbn [check_directories]. rewrite weights_cons in *.
  apply bind_ext. intros names fs1 (H1 & Hd & ->)%io_plan_ok%read_dir_ok.
  apply bind_ext. intros pending1 fs2 (H2 & Hw)%check_children_ok.
  pose proof (weights_children _ _ Hd). rewrite H1 in *. apply IH; rewrite H2; lia.
Qed.

(** *** Copies *)

Section Copies.
Context (src dst : path) (Hsrc : ~ src `prefix_of` dst) (Hdst : ~ dst `prefix_of` src).

(** The tree of the source is as it was. *)
Definition same_below (fs fs' : Fs) : Prop :=
  forall q, src `prefix_of` q -> nodes fs' !! q = nodes fs !! q.
#[local] Instance same_below_preorder : PreOrder same_below.
Proof. split; unfold same_below; [done|]. intros fs1 fs2 fs3 H1 H2 q Hq. by rewrite H2, H1. Qed.
#[local] Instance same_below_blind : FaultBlind same_below.
Proof. by intros fs rest q Hq. Qed.

Lemma below_weight fs fs' p : same_below fs fs' -> src `prefix_of` p ->
  weight (nodes fs') p = weight (nodes fs) p.
Proof.
  intros Hs Hp. unfold weight. apply Permutation_length, NoDup_Permutation;
    [apply NoDup_filter, NoDup_map_to_list..|].
  intros [q n]. rewrite !list_elem_of_filter, !elem_of_map_to_list. cbn.
  split; intros [Hq Hn]; (split; [done|]); [rewrite <- Hs|rewrite Hs]; try done; by transitivity p.
Qed.

Lemma not_below_dst q : dst `prefix_of` q -> ~ src `prefix_of` q.
Proof. intros H1 H2. destruct (prefix_weak_total _ _ _ H1 H2); tauto. Qed.

Lemma same_below_insert fs fs' q n :
  nodes fs' = <[q := n]> (nodes fs) -> dst `prefix_of` q -> same_below fs fs'.
Proof.
  intros Hn Hq r Hr. rewrite Hn. apply lookup_insert_ne. intros ->. by eapply not_below_dst.
Qed.

Lemma copy_file_below from target : dst `prefix_of` target -> leaves same_below (copy_file from target).
Proof.
  intros Ht fs Hwf. split; [apply (leaves_copy_file from target fs Hwf)|].
  unfold copy_file, node_at, make_file. unfold mbind, proc_bind, get_fs, modify_fs, pure, throw, throw_if.
  assert (H0 : same_below fs (take_fault fs).1) by (rewrite take_fault_same; apply fault_blind).
  destruct (take_fault fs) as [fs1 [f|]]; cbn in *; [|exact H0].
  destruct (nodes fs1 !! from) as [[|i]|]; cbn; [exact H0| |exact H0].
  destruct (nodes fs1 !! target) as [[|j]|]; cbn; [exact H0|exact H0|]. destruct (parent_is_dir fs1 target); cbn; [|exact H0].
  etransitivity; [exact H0|]. by eapply same_below_insert.
Qed.
Lemma create_dir_below target : dst `prefix_of` target -> leaves same_below (create_dir target).
Proof.
  intros Ht fs Hwf. split; [apply (leaves_create_dir (fun _ => True) target fs Hwf)|].
  unfold create_dir, mbind, proc_bind, get_fs, modify_fs, throw.
  assert (H0 : same_below fs (may_fail fs).1) by apply (leaves_may_fail same_below fs Hwf).
  destruct (may_fail fs) as [fs1 [[]|]]; cbn in *; [|exact H0].
  destruct (nodes fs1 !! target); cbn; [exact H0|]. destruct (parent_is_dir fs1 target); cbn; [|exact H0].
  etransitivity; [exact H0|]. by eapply same_below_insert.
Qed.

Definition apart (pending : list (path * path)) : Prop :=
  Forall (fun p => src `prefix_of` p.1 /\ dst `prefix_of` p.2) pending.

Lemma below_weights fs fs' ps : same_below fs fs' -> Forall (prefix src) ps ->
  weights (nodes fs') ps = weights (nodes fs) ps.
Proof.
  intros Hs Hps. induction Hps as [|p ps Hp _ IH]; [done|]. by rewrite !weights_cons, IH, (below_weight _ _ _ Hs).
Qed.
Lemma apart_below pending : apart pending -> Forall (prefix src) pending.*1.
Proof. intros Hp. apply Forall_fmap. eapply Forall_impl; [exact Hp|]. by intros ? []. Qed.

Lemma copy_children_ok from to names pending fs fs' pending' :
  fs_wf fs -> src `prefix_of` from -> dst `prefix_of` to -> apart pending ->
  copy_children from to names pending fs = (fs', Ok pending') ->
  fs_wf fs' /\ same_below fs fs' /\ apart pending' /\
  (weights (nodes fs) pending'.*1 <= weights (nodes fs) (join from <$> names) + weights (nodes fs) pending.*1)%nat.
Proof.
  intros Hwf Hfrom Hto. revert pending fs Hwf. induction names as [|n names IH]; intros pending fs Hwf Hp Hrun;
    cbn [copy_children] in Hrun.
  { injection Hrun as <- <-. split; [done|]. split; [by intros q|]. split; [done|cbn; lia]. }
  rewrite fmap_cons, weights_cons.
  assert (Hjoins : Forall (prefix src) (join from <$> names))
    by (apply Forall_fmap, Forall_true; intros; by apply prefix_join).
  assert (Hnext : forall fs1 pending1, fs_wf fs1 /\ same_below fs fs1 -> apart pending1 ->
    (weights (nodes fs) pending1.*1 <= weight (nodes fs) (join from n) + weights (nodes fs) pending.*1)%nat ->
    copy_children from to names pending1 fs1 = (fs', Ok pending') ->
    fs_wf fs' /\ same_below fs fs' /\ apart pending' /\
    (weights (nodes fs) pending'.*1 <= weight (nodes fs) (join from n)
       + weights (nodes fs) (join from <$> names) + weights (nodes fs) pending.*1)%nat).
  { intros fs1 pending1 [Hwf1 Hs1] Hp1 Hw1 Hr. destruct (IH _ _ Hwf1 Hp1 Hr) as (Hwf2 & Hs2 & Hp2 & Hw2).
    split; [done|]. split; [by transitivity fs1|]. split; [done|].
    rewrite !(below_weights fs fs1) in Hw2 by auto using apart_below. lia. }
  pose proof (leaves_metadata same_below (join from n)) as Hmeta.
  apply bind_ok in Hrun as (fs1 & md & H1 & Hrun). apply (obeys_run _ _ _ _ _ _ Hmeta Hwf) in H1 as [Hwf1 Hs1].
  destruct (md_is_file md).
  - apply bind_ok in Hrun as (fs2 & [] & H2 & Hrun).
    apply (obeys_run _ _ _ _ _ _ (copy_file_below _ _ (prefix_join _ _ n Hto)) Hwf1) in H2 as [Hwf2 Hs2].
    apply bind_ok in Hrun as (fs3 & i & H3 & Hrun).
    apply (obeys_run _ _ _ _ _ _ (leaves_open_file same_below _) Hwf2) in H3 as [Hwf3 Hs3].
    apply bind_ok in Hrun as (fs4 & [] & H4 & Hrun).
    apply (obeys_run _ _ _ _ _ _ (leaves_sync_file same_below _) Hwf3) in H4 as [Hwf4 Hs4].
    apply (Hnext fs4 pending); [|done|lia|done]. split; [done|]. by do 3 (etransitivity; [eassumption|]).
  - apply bind_ok in Hrun as (fs2 & [] & H2 & Hrun).
    apply (obeys_run _ _ _ _ _ _ (create_dir_below _ (prefix_join _ _ n Hto)) Hwf1) in H2 as [Hwf2 Hs2].
    apply (Hnext fs2 ((join from n, join to n) :: pending)); [|..|done].
    + split; [done|]. by transitivity fs1.
    + constructor; [|done]. cbn. auto using prefix_join.
    + rewrite fmap_cons, weights_cons. done.
Qed.

Lemma copy_directories_enough fuel fuel' pending fs :
  fs_wf fs -> apart pending ->
  (weights (nodes fs) pending.*1 < fuel)%nat -> (weights (nodes fs) pending.*1 < fuel')%nat ->
  copy_directories fuel pending fs = copy_directories fuel' pending fs.
Proof.
  revert fuel' pending fs. induction fuel as [|fuel IH]; intros [|fuel'] pending fs Hwf Hp Hf Hf'; [lia..|].
  destruct pending as [|[from to] pending]; [done|]. cbn [copy_directories]. rewrite fmap_cons, weights_cons in *.
  apply Forall_cons in Hp as [[Hfrom Hto] Hp]. cbn in Hfrom, Hto.
  apply bind_ext. intros names fs1 H1. pose proof (obeys_run _ _ _ _ _ _ (leaves_read_dir same_below from) Hwf H1) as [Hwf1 _].
  apply read_dir_ok in H1 as (H1 & Hd & ->).
  apply bind_ext. intros pending1 fs2 (Hwf2 & Hs2 & Hp2 & Hw)%copy_children_ok; [|done..].
  pose proof (weights_children _ _ Hd). rewrite H1 in *. cbn [fst] in *.
  apply IH; [done..| |]; rewrite (below_weights fs1 fs2) by auto using apart_below; rewrite H1; lia.
Qed.
End Copies.

(** ** The fuel of the model is enough *)

(** C33. The loops of the two data planes end on their own.  More fuel than one
    unit per frame still to come changes nothing for the receiver, and more than
    one per block of the file nothing for the sender, whatever the peer, the
    source, the sink and the store do. *)
Theorem data_loops_end zstd_compress zstd_decompress ledger_to_vec
    {S1 S2 : Type} `{PayloadSink S1} `{FileSource S2} e index total id plan enc bytes task k :
  0 <= plaintext_size e ->
  (forall w : World ReceiverDataPlaneLedgerV2 S1,
    receive_frames zstd_decompress ledger_to_vec (length (incoming w) + k) e index total w
    = receive_frames zstd_decompress ledger_to_vec (length (incoming w)) e index total w) /\
  (forall w : World SenderDeliveryRecordV2 S2,
    send_blocks zstd_compress (send_fuel e + k) id e plan enc total (mkSendLoop bytes [] task None 0 0) w
    = send_blocks zstd_compress (send_fuel e) id e plan enc total (mkSendLoop bytes [] task None 0 0) w).
Proof.
  intros Hsize. split; intros w.
  - apply receive_frames_enough. lia.
  - assert (Hb : 0 <= blocks_of e) by (unfold blocks_of; pose proof block_bytes_pos; apply Z.div_pos; lia).
    apply send_blocks_enough; [done|..]; [|unfold send_fuel; fold (blocks_of e); cbn; lia..].
    unfold at_block. cbn. lia.
Qed.

(** The walks over a tree end on their own: with one unit of fuel per object
    of the file system and one more, more fuel changes nothing when a tree is
    synchronised, checked or, to a place that is not inside it or above it,
    copied, whatever calls fail. *)
Theorem tree_walks_end p expected src dst fs k :
  fs_wf fs -> ~ src `prefix_of` dst -> ~ dst `prefix_of` src ->
  let fuel := Datatypes.S (size (nodes fs)) in
  walk_directories (fuel + k) [p] [] fs = walk_directories fuel [p] [] fs /\
  check_directories (fuel + k) expected [p] fs = check_directories fuel expected [p] fs /\
  copy_directories (fuel + k) [(src, dst)] fs = copy_directories fuel [(src, dst)] fs.
Proof.
  intros Hwf Hsrc Hdst fuel.
  assert (Hw : forall q, (weights (nodes fs) [q] < fuel)%nat).
  { intros q. unfold weights, fuel. cbn. pose proof (weight_le (nodes fs) q). lia. }
  pose proof (Hw p). pose proof (Hw src). split; [apply walk_directories_enough; lia|].
  split; [apply check_directories_enough; lia|].
  apply (copy_directories_enough src dst); [done..| | |]; [by constructor|cbn [fmap list_fmap fst]; lia..].
Qed.
