(* ===== verification/Agreement.v ===== *)
(** The two data planes connected: what each sends is what the other receives.
    When both return, they agree on every result and on the completion set, and
    what the receiver saved is what the sender read. *)

From stdpp Require Import prelude gmap strings.
From Stdlib Require Import ZArith Lia Strings.Byte.
From S2P Require Import Prelude Bytes ManifestV2 ManifestSpec OfferCodec Frames FramesProof Timeline.
From S2P Require Import Delivery Ledger Proc ReceivePlane LedgerInv ReceiveInv ReceiveSafe SendPlane.

Local Open Scope Z_scope.

(** ** Traffic *)

(** From [w] to [w'], the frames received all have [Pin], the frames sent [Pout]. *)
Definition traffic {R S} (Pin Pout : ManifestV2Frame -> Prop) (w w' : World R S) : Prop :=
  exists ins outs, incoming w = ins ++ incoming w' /\ Forall Pin ins /\
    (outgoing w').*1 = (outgoing w).*1 ++ outs /\ Forall Pout outs.

Section Traffic.
Context {R S : Type} (Pin Pout : ManifestV2Frame -> Prop).
Local Notation traffic := (traffic (R := R) (S := S) Pin Pout).
Local Notation twp f w := (wp f (fun _ => traffic w) (fun (_ : ManifestV2DataError) _ => True) w).
Implicit Types (w : World R S).

Lemma traffic_refl w : traffic w w.
Proof. exists [], []. by rewrite app_nil_r. Qed.

Lemma traffic_trans w1 w2 w3 : traffic w1 w2 -> traffic w2 w3 -> traffic w1 w3.
Proof.
  intros (i1 & o1 & Hi1 & HPi1 & Ho1 & HPo1) (i2 & o2 & Hi2 & HPi2 & Ho2 & HPo2).
  exists (i1 ++ i2), (o1 ++ o2). rewrite Hi1, Hi2, Ho2, Ho1, !app_assoc.
  split; [done|]. split; [by apply Forall_app|]. split; [done|]. by apply Forall_app.
Qed.

(** A step without traffic. *)
Lemma traffic_silent w w' : outgoing w' = outgoing w -> incoming w' = incoming w -> traffic w w'.
Proof. intros Ho Hi. exists [], []. by rewrite Ho, Hi, app_nil_r. Qed.

Lemma traffic_bind {A B} (f : proc (World R S) ManifestV2DataError A)
    (g : A -> proc (World R S) ManifestV2DataError B) (Q : A -> Prop) w :
  wp f (fun a w' => Q a /\ traffic w w') (fun _ _ => True) w ->
  (forall a w', Q a -> twp (g a) w') -> twp (f ≫= g) w.
Proof.
  intros Hf Hg. apply wp_bind. eapply wp_mono; [exact Hf| |done]. intros a w1 [Ha H1].
  eapply wp_mono; [by apply Hg| |done]. intros b w2 H2. by eapply traffic_trans.
Qed.

Lemma traffic_seq {A B} (f : proc (World R S) ManifestV2DataError A)
    (g : A -> proc (World R S) ManifestV2DataError B) w :
  twp f w -> (forall a w', twp (g a) w') -> twp (f ≫= g) w.
Proof.
  intros Hf Hg. apply (traffic_bind _ _ (fun _ => True)); [|auto].
  eapply wp_mono; [exact Hf|auto|done].
Qed.

Lemma traffic_pure {A} (r : data A) w : twp (pure r) w.
Proof. apply wp_pure; [|done]. intros ? _. apply traffic_refl. Qed.
Lemma traffic_ret {A} (a : A) w : twp (mret a) w.
Proof. apply traffic_refl. Qed.
Lemma traffic_throw {A} e w : twp (throw (A := A) e) w.
Proof. done. Qed.
Lemma traffic_throw_if b e w : twp (throw_if b e) w.
Proof. apply wp_throw_if; [done|]. intros _. apply traffic_refl. Qed.
Lemma traffic_get_record w : twp get_record w.
Proof. apply traffic_refl. Qed.
Lemma traffic_get_incoming w : twp get_incoming w.
Proof. apply traffic_refl. Qed.
Lemma traffic_put_record r w : twp (put_record r) w.
Proof. by apply traffic_silent. Qed.
Lemma traffic_set_completed v w : twp (set_completed v) w.
Proof. by apply traffic_silent. Qed.
Lemma traffic_report v w : twp (report v) w.
Proof. by apply traffic_silent. Qed.
Lemma traffic_advance a t w : twp (advance a t) w.
Proof.
  apply wp_advance; [done|]. intros w' Hc Hi. apply traffic_silent; [|done]. by injection Hc.
Qed.
Lemma traffic_save sv w : twp (save_record sv) w.
Proof.
  apply wp_save_record. intros fault fs [[]|e] w' _ Hc Hi; [|done].
  apply traffic_silent; [|done]. by injection Hc.
Qed.
Lemma traffic_sink {A} (op : S -> S * data A) w : twp (call_sink op) w.
Proof.
  apply wp_call_sink. intros s [a|e] w' _ Hc Hi; [|done].
  apply traffic_silent; [|done]. by injection Hc.
Qed.
Lemma traffic_send f w : Pout f -> twp (send_frame f) w.
Proof.
  intros Hf. apply wp_send; [done|]. intros w' Hc Hi. exists [], [f]. injection Hc as _ _ _ Ho.
  rewrite Ho, Hi, fmap_app. split; [done|]. split; [done|]. split; [done|]. by constructor.
Qed.

(** A frame that is taken and then looked at. *)
Lemma traffic_recv {B} (g : ManifestV2Frame -> proc (World R S) ManifestV2DataError B) w :
  (forall f w', Pin f -> twp (g f) w') ->
  (forall f w', Pin f \/ wp (g f) (fun _ _ => False) (fun _ _ => True) w') -> twp (recv ≫= g) w.
Proof.
  intros Hg Hbad. apply wp_bind, wp_recv; [done|]. intros f w1 Hc Hi.
  assert (Hstep : Pin f -> traffic w w1).
  { intros Hf. exists [f], []. injection Hc as _ _ _ Ho. rewrite Ho, Hi, app_nil_r.
    split; [done|]. split; [by constructor|done]. }
  destruct (Hbad f w1) as [Hf|Hno].
  - eapply wp_mono; [by apply Hg| |done]. intros b w2 H2. eapply traffic_trans; [by apply Hstep|done].
  - eapply wp_mono; [exact Hno|done|done].
Qed.
End Traffic.

(** Exactly these frames. *)
Definition exchange {R S} (ins outs : list ManifestV2Frame) (w w' : World R S) : Prop :=
  incoming w = ins ++ incoming w' /\ (outgoing w').*1 = (outgoing w).*1 ++ outs.

Definition never (_ : ManifestV2Frame) : Prop := False.

Section Exchange.
Context {R S : Type}.
Implicit Types (w : World R S).

Lemma exchange_trans i1 o1 i2 o2 w1 w2 w3 :
  exchange i1 o1 w1 w2 -> exchange i2 o2 w2 w3 -> exchange (i1 ++ i2) (o1 ++ o2) w1 w3.
Proof. intros [Hi1 Ho1] [Hi2 Ho2]. split; [by rewrite Hi1, Hi2, app_assoc|by rewrite Ho2, Ho1, app_assoc]. Qed.

Lemma traffic_exchange Pin Pout w w' :
  traffic Pin Pout w w' <->
  exists ins outs, exchange ins outs w w' /\ Forall Pin ins /\ Forall Pout outs.
Proof.
  split.
  - intros (ins & outs & Hi & HPi & Ho & HPo). by exists ins, outs.
  - intros (ins & outs & [Hi Ho] & HPi & HPo). by exists ins, outs.
Qed.

Lemma traffic_never w w' : traffic never never w w' -> exchange [] [] w w'.
Proof.
  intros (ins & outs & He & Hi & Ho)%traffic_exchange.
  destruct ins; [|by inversion Hi]. destruct outs; [done|by inversion Ho].
Qed.

(** Running a step whose frames are known, then the rest. *)
Lemma wp_exchange {A B} (f : proc (World R S) ManifestV2DataError A)
    (g : A -> proc (World R S) ManifestV2DataError B) (Q1 : A -> World R S -> Prop)
    (Q : B -> World R S -> Prop) w :
  wp f Q1 (fun _ _ => True) w -> (forall a w1, Q1 a w1 -> wp (g a) Q (fun _ _ => True) w1) ->
  wp (f ≫= g) Q (fun _ _ => True) w.
Proof. intros Hf Hg. apply wp_bind. eapply wp_mono; [exact Hf|auto|done]. Qed.

Lemma exchange_send f w :
  wp (send_frame f) (fun _ => exchange [] [f] w) (fun (_ : ManifestV2DataError) _ => True) w.
Proof.
  apply wp_send; [done|]. intros w' Hc Hi. injection Hc as _ _ _ Ho. split; [done|].
  by rewrite Ho, fmap_app.
Qed.

Lemma exchange_recv w :
  wp recv (fun f => exchange [f] [] w) (fun (_ : ManifestV2DataError) _ => True) w.
Proof.
  apply wp_recv; [done|]. intros f w' Hc Hi. injection Hc as _ _ _ Ho. split; [done|].
  by rewrite Ho, app_nil_r.
Qed.

(** A silent step, then the rest. *)
Lemma wp_silent {A B} (f : proc (World R S) ManifestV2DataError A)
    (g : A -> proc (World R S) ManifestV2DataError B) ins outs w0 w (Q : B -> World R S -> Prop) :
  wp f (fun _ => traffic never never w) (fun _ _ => True) w -> exchange ins outs w0 w ->
  (forall a w1, exchange ins outs w0 w1 -> wp (g a) Q (fun _ _ => True) w1) ->
  wp (f ≫= g) Q (fun _ _ => True) w.
Proof.
  intros Hf Hx Hg. apply (wp_exchange _ _ _ _ _ Hf). intros a w1 Hs%traffic_never. apply Hg.
  pose proof (exchange_trans _ _ _ _ _ _ _ Hx Hs) as Ht. by rewrite !app_nil_r in Ht.
Qed.
End Exchange.

Create HintDb traffic discriminated.
#[export] Hint Resolve traffic_pure traffic_ret traffic_throw traffic_throw_if traffic_get_record
  traffic_get_incoming traffic_put_record traffic_set_completed traffic_report traffic_advance
  traffic_save traffic_sink : traffic.

(** Splits sequences and conditionals; the calls are solved by the hints. *)
Ltac traffic_step :=
  match goal with
  | |- forall _, _ => intro
  | |- wp (if ?b then _ else _) _ _ _ => destruct b
  | |- wp (let '(_, _) := ?p in _) _ _ _ => destruct p
  | |- wp (match ?x with _ => _ end) _ _ _ => destruct x
  | |- wp (recv ≫= _) _ _ _ => fail 1
  | |- wp (attempt _ ≫= _) _ _ _ => fail 1
  | |- wp (_ ≫= _) _ _ _ => apply traffic_seq
  | |- wp _ _ _ _ => solve [auto with traffic]
  end.
Ltac traffic_go := repeat traffic_step.

Definition is_digest (f : ManifestV2Frame) : Prop :=
  match f with EntryContentDigest _ => True | _ => False end.
Definition not_job_complete (f : ManifestV2Frame) : Prop :=
  match f with JobComplete _ => False | _ => True end.

(** ** The sender's traffic *)

Section SenderTraffic.
Context (is_nfc : str -> bool) (blake3 : list byte -> list byte).
Context (derive_key : str -> list byte -> list byte) (keyed_hash : list byte -> list byte -> list byte).
Context (zstd_compress : list byte -> option (list byte)).
Context (to_vec : SenderDeliveryRecordV2 -> option (list byte))
  (from_slice : list byte -> option SenderDeliveryRecordV2).
Context {S : Type} `{FileSource S}.
Local Notation twp f w :=
  (wp f (fun _ => traffic (R := SenderDeliveryRecordV2) is_digest not_job_complete w)
     (fun (_ : ManifestV2DataError) _ => True) w).
Implicit Types (w : World SenderDeliveryRecordV2 S).

Lemma late_digest_traffic id eid d w : twp (send_late_digest_and_receive_status id eid d) w.
Proof.
  unfold send_late_digest_and_receive_status. apply traffic_seq; [by apply traffic_send|].
  intros _ w1. apply traffic_recv.
  - intros f w' Hf. destruct f; try done. traffic_go.
  - intros f w'. destruct f; try (by left); by right.
Qed.

Lemma offer_late_digest_traffic id eid st w : twp (offer_late_digest id eid st) w.
Proof.
  unfold offer_late_digest, task_is_finished, await_hash_task. traffic_go. apply late_digest_traffic.
Qed.

Lemma send_block_traffic id e plan enc total st w :
  twp (send_block zstd_compress id e plan enc total st) w.
Proof. unfold send_block. traffic_go. by apply traffic_send. Qed.

Lemma send_blocks_traffic fuel id e plan enc total st w :
  twp (send_blocks zstd_compress fuel id e plan enc total st) w.
Proof.
  revert st w. induction fuel as [|fuel IH]; intros st w; cbn [send_blocks]; [apply traffic_ret|].
  traffic_go; first [apply offer_late_digest_traffic|apply send_block_traffic|apply IH].
Qed.

Lemma finish_payload_traffic id e st w : twp (finish_payload blake3 id e st) w.
Proof. unfold finish_payload, await_hash_task. traffic_go. apply late_digest_traffic. Qed.

Lemma send_file_traffic id e plan enc total resumed w :
  twp (send_file blake3 zstd_compress id e plan enc total resumed) w.
Proof.
  unfold send_file. apply traffic_seq; [by apply traffic_send|]. traffic_go;
    first [apply send_blocks_traffic|apply finish_payload_traffic|by apply traffic_send].
Qed.

Lemma send_entry_traffic id accept status total e w :
  twp (send_entry blake3 zstd_compress id accept status total e) w.
Proof.
  unfold send_entry, send_directory. traffic_go;
    first [apply send_file_traffic|by apply traffic_send].
Qed.

Lemma send_entries_traffic id accept status total es hasher w :
  twp (send_entries is_nfc blake3 zstd_compress id accept status total es hasher) w.
Proof.
  revert hasher w. induction es as [|e es IH]; intros hasher w; cbn [send_entries]; [apply traffic_ret|].
  traffic_go; first [apply send_entry_traffic|apply IH].
Qed.

Local Notation silent f w :=
  (wp f (fun _ => traffic (R := SenderDeliveryRecordV2) never never w)
     (fun (_ : ManifestV2DataError) _ => True) w).

Lemma on_record_silent {A} (f : SenderDeliveryRecordV2 -> SenderDeliveryRecordV2 * delivery A) w :
  silent (on_record f) w.
Proof. unfold on_record. traffic_go. Qed.

Lemma legacy_encodings_silent es policy w :
  silent (legacy_entry_encodings zstd_compress es policy) w.
Proof.
  revert w. induction es as [|e es IH]; intros w; cbn [legacy_entry_encodings]; [apply traffic_ret|].
  unfold legacy_entry_encoding. traffic_go.
Qed.

Lemma prepare_silent offer w :
  silent (prepare_sender_entry_encodings is_nfc blake3 derive_key keyed_hash zstd_compress offer) w.
Proof.
  unfold prepare_sender_entry_encodings. traffic_go;
    first [apply on_record_silent|apply legacy_encodings_silent].
Qed.

Lemma save_silent w :
  silent (save_delivery is_nfc blake3 derive_key keyed_hash to_vec from_slice) w.
Proof. apply traffic_save. Qed.

Lemma recv_results_exchange id es ks w :
  wp (recv_results id es ks) (fun rs => exchange (EntryResult <$> rs) [] w)
    (fun (_ : ManifestV2DataError) _ => True) w.
Proof.
  revert ks w. induction es as [|e es IH]; intros [|k ks] w; cbn [recv_results];
    try (apply wp_ret; split; by rewrite ?app_nil_r).
  unfold recv_entry_result. apply wp_bind. apply (wp_exchange _ _ _ _ _ (exchange_recv w)).
  intros f w1 Hx. destruct f as [| | | | | |r| | | | | |]; try done.
  destruct (_ && _); [|done]. apply wp_ret, wp_bind, wp_pure; [|done]. intros _ _.
  apply wp_bind. eapply wp_mono; [apply IH| |done]. intros rs w2 Hx2. apply wp_ret.
  exact (exchange_trans _ _ _ _ _ _ _ Hx Hx2).
Qed.

Lemma negotiate_exchange sealed nonce offer w :
  wp (negotiate is_nfc blake3 derive_key keyed_hash sealed nonce offer)
    (fun _ w' => exists f g, exchange [f] [g] w w') (fun (_ : ManifestV2DataError) _ => True) w.
Proof.
  unfold negotiate, establish_sender_reconnect.
  assert (Hx0 : exchange [] [] w w) by (by split; rewrite ?app_nil_r).
  apply (wp_silent _ _ _ _ _ _ _ (traffic_get_record _ _ _) Hx0). intros r w1 Hx1.
  apply (wp_silent _ _ _ _ _ _ _ (traffic_report _ _ _ _) Hx1). intros _ w2 Hx2.
  assert (Hround : forall f w3 (A : Type) (g : ManifestV2Frame ->
      proc (World SenderDeliveryRecordV2 S) ManifestV2DataError A) (Q : A -> World _ S -> Prop),
    exchange [] [] w w3 ->
    (forall h w4, exchange [h] [f] w w4 -> wp (g h) Q (fun _ _ => True) w4) ->
    wp (_ ← send_frame f; frame ← recv; g frame) Q (fun _ _ => True) w3).
  { intros f w3 A g Q Hx3 Hg. apply (wp_exchange _ _ _ _ _ (exchange_send f w3)). intros _ w4 Hx4.
    apply (wp_exchange _ _ _ _ _ (exchange_recv w4)). intros h w5 Hx5. apply Hg.
    exact (exchange_trans _ _ _ _ _ _ _ (exchange_trans _ _ _ _ _ _ _ Hx3 Hx4) Hx5). }
  case_bool_decide.
  - apply wp_bind.
    do 2 (eapply wp_silent; [apply traffic_pure|eassumption|intros ? ? ?]).
    eapply wp_silent; [apply traffic_get_record|eassumption|intros ? ? ?].
    do 5 (eapply wp_silent; [apply traffic_pure|eassumption|intros ? ? ?]).
    eapply Hround; [eassumption|]. intros h wn Hxn. destruct h; try done.
    destruct (negb _); [done|].
    do 2 (eapply wp_silent; [apply traffic_pure|eassumption|intros ? ? ?]). apply wp_ret.
    eapply wp_silent; [apply traffic_get_record|eassumption|intros ? ? ?].
    eapply wp_silent; [apply traffic_pure|eassumption|intros ? ? ?]. apply wp_ret. eauto.
  - apply Hround; [done|]. intros h w4 Hx4. destruct h; try done.
    eapply wp_silent; [apply traffic_pure|eassumption|intros ? ? ?]. apply wp_ret. eauto.
Qed.

(** The frames of a [send] that returns: one exchange, the payload with the
    decisions on late digests, the completion of the job, and the results. *)
Lemma send_exchange sealed nonce w :
  wp (send is_nfc blake3 derive_key keyed_hash zstd_compress to_vec from_slice sealed nonce)
    (fun summary w' => exists f g ins outs, Forall is_digest ins /\ Forall not_job_complete outs /\
       exchange (f :: ins ++ (EntryResult <$> ss_entry_results summary))
         (g :: outs ++ [JobComplete (mkJobComplete (ss_identity summary)
                                       (ss_completion_set_digest summary))]) w w')
    (fun (_ : ManifestV2DataError) _ => True) w.
Proof.
  unfold send. assert (Hx0 : exchange [] [] w w) by (by split; rewrite ?app_nil_r).
  do 2 (eapply wp_silent; [apply traffic_pure|eassumption|intros ? ? ?]).
  eapply wp_silent; [apply prepare_silent|eassumption|intros ? ? ?].
  eapply wp_silent; [apply traffic_get_record|eassumption|intros ? ? ?].
  eapply wp_silent; [apply traffic_pure|eassumption|intros ? ? ?].
  eapply wp_silent; [apply save_silent|eassumption|intros _ v1 Hx1].
  apply (wp_exchange _ _ _ _ _ (negotiate_exchange _ _ _ v1)).
  intros [accept status] v2 (f & g & Hn). pose proof (exchange_trans _ _ _ _ _ _ _ Hx1 Hn) as Hx2.
  cbn [app] in Hx2. clear Hn Hx1.
  eapply wp_silent; [apply traffic_get_record|eassumption|intros ? ? ?].
  eapply wp_silent; [|eassumption|intros abd ? ?]; [traffic_go|].
  eapply wp_silent; [|eassumption|intros ? ? ?];
    [traffic_go; first [apply on_record_silent|apply save_silent]|].
  do 2 (eapply wp_silent; [apply traffic_report|eassumption|intros ? ? ?]).
  eapply wp_silent; [|eassumption|intros ? ? ?]; [traffic_go|].
  eapply wp_silent; [apply traffic_set_completed|eassumption|intros ? ? ?].
  eapply wp_silent; [apply traffic_report|eassumption|intros _ v3 Hx3].
  apply (wp_exchange _ _ _ _ _ (send_entries_traffic _ _ _ _ _ _ v3)).
  intros [hasher ks] v4 (ins & outs & He & Hins & Houts)%traffic_exchange.
  pose proof (exchange_trans _ _ _ _ _ _ _ Hx3 He) as Hx4.
  eapply wp_silent; [apply traffic_report|exact Hx4|intros _ v5 Hx5].
  apply (wp_exchange _ _ _ _ _ (exchange_send _ v5)). intros _ v6 Hj.
  apply (wp_exchange _ _ _ _ _ (recv_results_exchange _ _ _ v6)). intros rs v7 Hr.
  pose proof (exchange_trans _ _ _ _ _ _ _ (exchange_trans _ _ _ _ _ _ _ Hx5 Hj) Hr) as Hx7.
  eapply wp_silent; [apply on_record_silent|exact Hx7|intros ? ? ?].
  eapply wp_silent; [apply save_silent|eassumption|intros ? ? ?].
  eapply wp_silent; [apply traffic_report|eassumption|intros _ v8 Hx8].
  apply wp_ret. exists f, g, ins, outs. split; [done|]. split; [done|]. cbn.
  by rewrite !app_nil_r in Hx8.
Qed.
End SenderTraffic.

(** ** The receiver's traffic *)

Section ReceiverTraffic.
Context (is_nfc : str -> bool) (blake3 : list byte -> list byte).
Context (zstd_decompress : list byte -> Z -> option (list byte)).
Context (to_vec : ReceiverDataPlaneLedgerV2 -> option (list byte)).
Context {S : Type} `{PayloadSink S} (gate : ResultGate).
Local Notation twp f w :=
  (wp f (fun _ => traffic (R := ReceiverDataPlaneLedgerV2) not_job_complete is_digest w)
     (fun (_ : ManifestV2DataError) _ => True) w).
Implicit Types (w : World ReceiverDataPlaneLedgerV2 S).

Lemma modify_entry_traffic Pin Pout index f w :
  wp (modify_entry index f) (fun _ => traffic Pin Pout w) (fun (_ : ManifestV2DataError) _ => True) w.
Proof. unfold modify_entry, entry_at. traffic_go. Qed.
Lemma entry_at_traffic Pin Pout index w :
  wp (entry_at index) (fun _ => traffic Pin Pout w) (fun (_ : ManifestV2DataError) _ => True) w.
Proof. unfold entry_at. traffic_go. Qed.
Lemma save_ledger_traffic Pin Pout w :
  wp (save_ledger to_vec) (fun _ => traffic Pin Pout w) (fun (_ : ManifestV2DataError) _ => True) w.
Proof. apply traffic_save. Qed.
#[local] Hint Resolve modify_entry_traffic entry_at_traffic save_ledger_traffic : traffic.

Lemma retire_traffic Pin Pout e index w :
  wp (retire_mismatch to_vec e index) (fun _ => traffic Pin Pout w)
    (fun (_ : ManifestV2DataError) _ => True) w.
Proof. unfold retire_mismatch. traffic_go. Qed.
#[local] Hint Resolve retire_traffic : traffic.

Lemma receive_digest_traffic e index total f w : twp (receive_digest to_vec e index total f) w.
Proof. unfold receive_digest, digest_refused. traffic_go. by apply traffic_send. Qed.

Lemma receive_block_traffic e index total b w :
  twp (receive_block zstd_decompress to_vec e index total b) w.
Proof. unfold receive_block. traffic_go. Qed.

(** A call whose error the caller turns into its own. *)
Lemma traffic_attempt {A B} (f : proc (World ReceiverDataPlaneLedgerV2 S) ManifestV2DataError A)
    (g : data A -> proc (World ReceiverDataPlaneLedgerV2 S) ManifestV2DataError B) w :
  twp f w -> (forall a w', twp (g (Ok a)) w') ->
  (forall e w', wp (g (Err e)) (fun _ _ => False) (fun _ _ => True) w') ->
  twp (attempt f ≫= g) w.
Proof.
  intros Hf Hok Herr. apply wp_bind, wp_attempt. eapply wp_mono; [exact Hf| |].
  - intros a w1 H1. eapply wp_mono; [apply Hok| |done]. intros b w2. by apply traffic_trans.
  - intros e w1 _. eapply wp_mono; [apply Herr|done|done].
Qed.

Lemma receive_file_completion_traffic e index d w :
  twp (receive_file_completion to_vec e index d) w.
Proof.
  unfold receive_file_completion. apply traffic_seq; [apply entry_at_traffic|]. intros c w0.
  apply traffic_seq; [apply traffic_pure|]. intros k w1.
  apply traffic_seq; [|traffic_go]. destruct (completion_choice k); [|traffic_go].
  destruct (_ || _); [traffic_go|]. apply traffic_attempt; [traffic_go|traffic_go|].
  intros er w2. apply wp_bind. eapply wp_mono; [apply (retire_traffic never never)|done|done].
Qed.

Lemma receive_complete_traffic e index k w : twp (receive_complete to_vec e index k) w.
Proof.
  unfold receive_complete, digest_refused. traffic_go.
  apply traffic_attempt; [apply receive_file_completion_traffic|traffic_go|done].
Qed.

Lemma receive_frames_traffic fuel e index total w :
  twp (receive_frames zstd_decompress to_vec fuel e index total) w.
Proof.
  revert w. induction fuel as [|fuel IH]; intros w; cbn [receive_frames]; [done|].
  apply traffic_seq; [traffic_go|]. intros l w1. apply traffic_recv.
  - intros f w2 Hf. destruct f; try done; try (apply traffic_seq; [|intros; apply IH]).
    + apply receive_digest_traffic.
    + apply receive_block_traffic.
    + apply receive_complete_traffic.
  - intros f w2. destruct f; try (by left). by right.
Qed.

Lemma receive_entry_traffic e total hasher w :
  twp (receive_entry is_nfc blake3 zstd_decompress to_vec e total hasher) w.
Proof.
  assert (Hstart : forall id eid w, twp (recv_entry_start id eid) w).
  { intros id eid w1. unfold recv_entry_start. apply traffic_recv.
    - intros f w2 Hf. traffic_go.
    - intros f w2. destruct f; try (by left). by right. }
  assert (Hdir : forall id index w, twp (receive_directory blake3 to_vec e id index) w).
  { intros id index w1. unfold receive_directory. apply traffic_recv.
    - intros f w2 Hf. traffic_go.
    - intros f w2. destruct f; try (by left). by right. }
  unfold receive_entry, commit_start, receive_file. traffic_go;
    first [apply Hstart|apply Hdir|apply receive_frames_traffic].
Qed.

Lemma receive_entries_traffic es total hasher w :
  twp (receive_entries is_nfc blake3 zstd_decompress to_vec es total hasher) w.
Proof.
  revert hasher w. induction es as [|e es IH]; intros hasher w; cbn [receive_entries]; [apply traffic_ret|].
  apply traffic_seq; [apply receive_entry_traffic|intros; apply IH].
Qed.

Lemma send_results_exchange rs w :
  wp (send_results rs) (fun _ => exchange [] (EntryResult <$> rs) w)
    (fun (_ : ManifestV2DataError) _ => True) w.
Proof.
  revert w. induction rs as [|r rs IH]; intros w; cbn [send_results].
  - apply wp_ret. by split; rewrite ?app_nil_r.
  - apply (wp_exchange _ _ _ _ _ (exchange_send _ w)). intros _ w1 Hx.
    eapply wp_mono; [apply IH| |done]. intros ? w2 Hx2. exact (exchange_trans _ _ _ _ _ _ _ Hx Hx2).
Qed.

Lemma commit_entries_silent id es vs saved w :
  wp (commit_entries id es vs saved) (fun _ => traffic never never w)
    (fun (_ : ManifestV2DataError) _ => True) w.
Proof.
  revert vs saved w. induction es as [|e es IH]; intros [|v vs] [|sv saved] w;
    cbn [commit_entries]; try apply traffic_ret. traffic_go.
Qed.

Lemma finish_job_exchange m id d w :
  wp (finish_job to_vec gate m id d)
    (fun summary w' => rsum_identity summary = id /\ rsum_completion_set_digest summary = d /\
       exchange [] (EntryResult <$> rsum_entry_results summary) w w')
    (fun (_ : ManifestV2DataError) _ => True) w.
Proof.
  unfold finish_job. assert (Hx0 : exchange [] [] w w) by (by split; rewrite ?app_nil_r).
  eapply wp_silent; [apply traffic_get_record|eassumption|intros l ? ?].
  assert (Hlast : forall rs w1, exchange [] [] w w1 ->
    wp (_ ← send_results rs; _ ← report (on_phase PhFinalizingDelivery);
        mret (mkReceiverSummary id d rs))
      (fun summary w' => rsum_identity summary = id /\ rsum_completion_set_digest summary = d /\
         exchange [] (EntryResult <$> rsum_entry_results summary) w w')
      (fun (_ : ManifestV2DataError) _ => True) w1).
  { intros rs v1 Hx1. apply (wp_exchange _ _ _ _ _ (send_results_exchange rs v1)). intros _ v2 Hx2.
    pose proof (exchange_trans _ _ _ _ _ _ _ Hx1 Hx2) as Hx.
    eapply wp_silent; [apply traffic_report|exact Hx|intros _ v3 Hx3]. apply wp_ret. done. }
  destruct (forallb _ _).
  - eapply wp_silent; [apply traffic_pure|eassumption|intros ? ? ?]. by apply Hlast.
  - eapply wp_silent; [apply traffic_pure|eassumption|intros ? ? ?].
    eapply wp_silent; [apply traffic_report|eassumption|intros ? ? ?].
    eapply wp_silent; [apply traffic_sink|eassumption|intros saved ? ?]. destruct (gate m saved).
    eapply wp_silent; [apply traffic_pure|eassumption|intros ? ? ?].
    eapply wp_silent; [apply traffic_throw_if|eassumption|intros ? ? ?].
    eapply wp_silent; [apply commit_entries_silent|eassumption|intros ? ? ?].
    eapply wp_silent; [apply save_ledger_traffic|eassumption|intros ? ? ?]. by apply Hlast.
Qed.

(** The frames of a [receive] that returns. *)
Lemma receive_exchange offer w :
  wp (receive is_nfc blake3 zstd_decompress to_vec gate offer)
    (fun summary w' => exists ins outs, Forall not_job_complete ins /\ Forall is_digest outs /\
       exchange (ins ++ [JobComplete (mkJobComplete (rsum_identity summary)
                                        (rsum_completion_set_digest summary))])
         (outs ++ (EntryResult <$> rsum_entry_results summary)) w w')
    (fun (_ : ManifestV2DataError) _ => True) w.
Proof.
  unfold receive. assert (Hx0 : exchange [] [] w w) by (by split; rewrite ?app_nil_r).
  eapply wp_silent; [apply traffic_get_record|eassumption|intros l ? ?].
  do 2 (eapply wp_silent; [apply traffic_pure|eassumption|intros ? ? ?]).
  eapply wp_silent; [apply traffic_set_completed|eassumption|intros ? ? ?].
  eapply wp_silent; [apply traffic_report|eassumption|intros ? ? ?].
  eapply wp_silent; [apply traffic_report|eassumption|intros ? v1 Hx1].
  apply (wp_exchange _ _ _ _ _ (receive_entries_traffic _ _ _ _)).
  intros hasher v2 (ins & outs & He & Hins & Houts)%traffic_exchange.
  pose proof (exchange_trans _ _ _ _ _ _ _ Hx1 He) as Hx2.
  unfold receive_job_complete. apply wp_bind. apply (wp_exchange _ _ _ _ _ (exchange_recv v2)).
  intros f v3 Hf. pose proof (exchange_trans _ _ _ _ _ _ _ Hx2 Hf) as Hx3.
  destruct f as [| | | | | | |jc| | | | |]; try done. case_bool_decide as Hid; [|done].
  apply wp_bind, wp_ret.
  eapply wp_silent; [apply traffic_throw_if|eassumption|intros ? ? ?].
  eapply wp_silent; [apply traffic_get_record|eassumption|intros ? ? ?].
  eapply wp_silent; [|eassumption|intros ? ? ?]; [traffic_go|].
  eapply wp_silent; [apply save_ledger_traffic|eassumption|intros ? ? ?].
  eapply wp_silent; [apply traffic_report|eassumption|intros ? v4 Hx4]. apply wp_ret.
  eapply wp_mono; [apply finish_job_exchange| |done]. intros summary v5 (Hi5 & Hd5 & Hx5).
  exists ins, outs. split; [done|]. split; [done|]. rewrite Hi5, Hd5.
  pose proof (exchange_trans _ _ _ _ _ _ _ Hx4 Hx5) as Hx. rewrite !app_nil_r in Hx. cbn [app] in Hx.
  destruct jc as [jid jd]. cbn in *. by subst.
Qed.
End ReceiverTraffic.

(** ** Agreement *)

#[local] Instance EntryResult_inj : Inj (=) (=) EntryResult.
Proof. by intros ? ? [= ->]. Qed.

(** The decisions on late digests come before the results on either side. *)
Lemma split_results ins1 ins2 rs1 rs2 rest :
  Forall is_digest ins1 -> Forall is_digest ins2 -> rs1 <> [] -> length rs1 = length rs2 ->
  ins1 ++ (EntryResult <$> rs1) ++ rest = ins2 ++ (EntryResult <$> rs2) -> rs1 = rs2.
Proof.
  intros H1. revert ins2. induction H1 as [|f1 ins1 Hf1 H1 IH]; intros ins2 H2 Hne Hlen Heq.
  - destruct H2 as [|f2 ins2 Hf2 H2].
    + cbn in Heq. rewrite <- (app_nil_r (EntryResult <$> rs2)) in Heq.
      apply app_inj_1 in Heq as [Heq _]; [|by rewrite !length_fmap].
      by apply (inj (fmap EntryResult)) in Heq.
    + destruct rs1 as [|r1 rs1]; [done|]. cbn in Heq. by injection Heq as <- _.
  - destruct H2 as [|f2 ins2 Hf2 H2].
    + destruct rs2 as [|r2 rs2]; [by destruct rs1|]. cbn in Heq. by injection Heq as -> _.
    + cbn in Heq. injection Heq as _ Heq. by eapply IH.
Qed.

(** The only completion of the job is the last frame. *)
Lemma split_job_complete ins outs a b rest :
  Forall not_job_complete ins -> Forall not_job_complete outs ->
  ins ++ [JobComplete a] ++ rest = outs ++ [JobComplete b] -> a = b.
Proof.
  intros H1. revert outs. induction H1 as [|f ins Hf H1 IH]; intros outs H2 Heq.
  - destruct H2 as [|g outs Hg H2]; [cbn in Heq; by injection Heq|]. cbn in Heq. by injection Heq as <- _.
  - destruct H2 as [|g outs Hg H2]; cbn in Heq; [by injection Heq as -> _|].
    injection Heq as _ Heq. by eapply IH.
Qed.

(** ** What the sender states *)

Section SenderValues.
Context (is_nfc : str -> bool) (blake3 : list byte -> list byte).
Context (derive_key : str -> list byte -> list byte) (keyed_hash : list byte -> list byte -> list byte).
Context (zstd_compress : list byte -> option (list byte)).
Context (to_vec : SenderDeliveryRecordV2 -> option (list byte))
  (from_slice : list byte -> option SenderDeliveryRecordV2).
Context {S : Type} `{FileSource S} (content : Z -> list byte).
Context (Hopen : forall eid s s' bytes, source_open eid s = (s', Ok bytes) -> bytes = content eid).
Local Notation vwp f Q w := (wp f Q (fun (_ : ManifestV2DataError) _ => True) w).
Implicit Types (w : World SenderDeliveryRecordV2 S).

Lemma wp_any {A B} (f : proc (World SenderDeliveryRecordV2 S) ManifestV2DataError A)
    (g : A -> proc (World SenderDeliveryRecordV2 S) ManifestV2DataError B) Q w :
  (forall a w1, vwp (g a) Q w1) -> vwp (f ≫= g) Q w.
Proof. intros Hg. apply wp_bind. unfold wp at 1. destruct (f w) as [w1 [a|e]]; [apply Hg|done]. Qed.

(** The payload as the sender reads it. *)
Definition payload (e : ManifestEntryV2) : list byte :=
  take (Z.to_nat (plaintext_size e)) (content (entry_id e)).

Section File.
Context (e : ManifestEntryV2) (Hsize : 0 <= plaintext_size e).
Local Notation bytes := (content (entry_id e)).

(** The loop has read the first [offset] bytes. *)
Definition loop_read (st : SendLoop) : Prop :=
  0 <= sl_block_index st /\
  sl_plaintext_offset st = Z.min (sl_block_index st * block_bytes) (plaintext_size e) /\
  unread st = drop (Z.to_nat (sl_plaintext_offset st)) bytes /\
  payload_hasher st = take (Z.to_nat (sl_plaintext_offset st)) bytes.

Lemma loop_read_block st id plan enc total w :
  loop_read st -> sl_plaintext_offset st < plaintext_size e ->
  vwp (send_block zstd_compress id e plan enc total st)
    (fun st' _ => loop_read st' /\ sl_block_index st' = sl_block_index st + 1) w.
Proof.
  intros (Hk & Hoff & Hun & Hhash) Hlt. unfold send_block. apply wp_bind, wp_throw_if; [done|].
  intros Hshort. bool_prop. apply wp_any. intros _ w1.
  apply wp_bind, wp_pure; [|done]. intros k' Hk'. apply wp_bind, wp_pure; [|done]. intros o' Ho'.
  inv_ok. apply checked_add_Some in Hk' as [-> _]. apply checked_add_Some in Ho' as [-> _].
  apply wp_ret. split; [|done]. pose proof block_bytes_pos.
  unfold loop_read. cbn [sl_block_index sl_plaintext_offset unread payload_hasher].
  split; [lia|]. split; [lia|]. rewrite Hun, Hhash. split.
  - rewrite drop_drop. f_equal. lia.
  - rewrite take_take_drop. f_equal. lia.
Qed.

Lemma send_blocks_read fuel id plan enc total st w :
  loop_read st -> Z.of_nat fuel >= blocks_of e - sl_block_index st ->
  vwp (send_blocks zstd_compress fuel id e plan enc total st)
    (fun p _ => p.2 = false -> payload_hasher p.1 = payload e) w.
Proof.
  assert (Hend : forall st, loop_read st -> plaintext_size e <= sl_plaintext_offset st ->
    payload_hasher st = payload e).
  { intros st' (_ & Hoff & _ & ->) Hle. unfold payload. f_equal. lia. }
  revert st w. induction fuel as [|fuel IH]; intros st w Hst Hfuel; cbn [send_blocks].
  - apply wp_ret. intros _. apply (Hend st); [done|]. destruct Hst as (Hk & -> & _).
    pose proof (blocks_of_cover e Hsize). pose proof block_bytes_pos.
    assert (blocks_of e * block_bytes <= sl_block_index st * block_bytes)
      by (apply Z.mul_le_mono_nonneg_r; lia). lia.
  - destruct (Z.ltb_spec (sl_plaintext_offset st) (plaintext_size e)); [|by apply wp_ret; auto].
    apply wp_bind. unfold offer_late_digest.
    assert (Hnext : forall st1 w1, loop_read st1 -> sl_block_index st1 = sl_block_index st ->
      vwp (st ← send_block zstd_compress id e plan enc total st1;
           send_blocks zstd_compress fuel id e plan enc total st)
        (fun p _ => p.2 = false -> payload_hasher p.1 = payload e) w1).
    { intros st1 w1 Hst1 Hk1. apply wp_bind. eapply wp_mono; [apply loop_read_block; [done|]| |done].
      - destruct Hst1 as (_ & -> & _), Hst as (_ & Heq & _). rewrite Hk1. lia.
      - intros st2 w2 [Hst2 Hk2]. apply IH; [done|]. lia. }
    apply wp_any. intros finished w1. destruct finished; [|by apply wp_ret, Hnext].
    apply wp_any. intros d w2. apply wp_any. intros reuse w3. apply wp_ret.
    destruct reuse; [by apply wp_ret|]. by apply Hnext.
Qed.

(** A payload that is sent is stated with its digest. *)
Definition states_payload (k : EntryCompleteV2) : Prop :=
  completion_choice k = PayloadComplete -> ec_final_digest k = blake3 (payload e).

Lemma finish_payload_states id st w :
  payload_hasher st = payload e ->
  vwp (finish_payload blake3 id e st) (fun p _ => p.1 = blake3 (payload e)) w.
Proof.
  intros Hst. unfold finish_payload. rewrite Hst. apply wp_any. intros _ w1.
  destruct (known_digest e) as [d|].
  - case_bool_decide; [|done]. by apply wp_ret.
  - apply wp_any. intros d w2. apply wp_bind, wp_throw_if; [done|]. intros Hd. bool_prop.
    apply wp_any. intros reuse w3. by apply wp_ret.
Qed.

Lemma send_file_states id plan enc total resumed w :
  vwp (send_file blake3 zstd_compress id e plan enc total resumed) (fun k _ => states_payload k) w.
Proof.
  unfold send_file. apply wp_any. intros _ w0. case_bool_decide.
  { do 4 (apply wp_any; intros ? ?). apply wp_ret. intros Hc. done. }
  apply wp_bind, wp_call_sink. intros s [bs|] w1 Hop _ _; [|done]. apply Hopen in Hop as ->.
  apply wp_bind. eapply wp_mono; [apply send_blocks_read| |done].
  { unfold loop_read. cbn. pose proof block_bytes_pos. rewrite Z.min_l by lia. done. }
  { unfold send_fuel, blocks_of. cbn [sl_block_index]. pose proof block_bytes_pos.
    rewrite Z2Nat.id; [lia|]. apply Z.div_pos; lia. }
  intros [st stopped] w2 Hst. cbn [fst snd] in Hst. destruct stopped.
  - apply wp_bind. do 3 (apply wp_any; intros ? ?). apply wp_ret, wp_any. intros ? ?. by apply wp_ret.
  - apply wp_bind. eapply wp_mono; [apply finish_payload_states; by apply Hst| |done].
    intros [d reuse] w3 Hd. cbn in Hd. apply wp_any. intros _ w4. apply wp_ret.
    intros Hc. cbn in *. by subst.
Qed.
End File.

(** Of a session that does not resume: every completion states the payload, and
    every result was checked against its completion. *)
Definition states (e : ManifestEntryV2) (k : EntryCompleteV2) : Prop :=
  kind e = RegularFile -> states_payload e k.

Lemma send_entries_states id accept total es hasher w :
  Forall (fun e => 0 <= plaintext_size e) es ->
  vwp (send_entries is_nfc blake3 zstd_compress id accept None total es hasher)
    (fun p _ => Forall2 states es p.2) w.
Proof.
  intros Hes. revert hasher w. induction Hes as [|e es He Hes IH]; intros hasher w;
    cbn [send_entries]; [by apply wp_ret|].
  assert (Hk : vwp (send_entry blake3 zstd_compress id accept None total e) (fun k _ => states e k) w).
  { unfold send_entry. cbn [resume_at settled_by]. apply wp_bind, wp_pure; [|done]. intros ? [= <-].
    cbn [settled_by]. apply wp_any. intros plan w1. case_bool_decide as Hd.
    - unfold send_directory. do 2 (apply wp_any; intros ? ?). apply wp_ret. intros Hf. congruence.
    - do 4 (apply wp_any; intros ? ?). eapply wp_mono; [by apply send_file_states| |done].
      intros k w' Hst _. done. }
  apply wp_bind. eapply wp_mono; [exact Hk| |done]. intros k w1 Hst. apply wp_any. intros h w2.
  apply wp_bind. eapply wp_mono; [apply IH| |done]. intros [h' ks] w3 Hks. apply wp_ret. by constructor.
Qed.

Lemma recv_results_checked id es ks w :
  length ks = length es ->
  vwp (recv_results id es ks)
    (fun rs _ => length rs = length es /\
       forall i e k r, es !! i = Some e -> ks !! i = Some k -> rs !! i = Some r ->
         validate_entry_result e id k r = Ok tt) w.
Proof.
  revert ks w. induction es as [|e es IH]; intros [|k ks] w Hl; cbn [recv_results]; try done.
  apply wp_any. intros r w1. apply wp_bind, wp_pure; [|done]. intros [] Hv. apply wp_bind.
  eapply wp_mono; [apply IH; cbn in Hl; lia| |done]. intros rs w2 [Hrs Hall]. apply wp_ret.
  split; [cbn; by rewrite Hrs|]. intros [|i] e' k' r' He Hk Hr; cbn in *; simplify_eq; eauto.
Qed.

Lemma on_record_phase {A} (f : SenderDeliveryRecordV2 -> SenderDeliveryRecordV2 * delivery A) w :
  (forall r, sd_phase (f r).1 = sd_phase r) ->
  vwp (on_record f) (fun _ w' => sd_phase (record w') = sd_phase (record w)) w.
Proof.
  intros Hf. unfold on_record. apply wp_bind, wp_get_record. specialize (Hf (record w)).
  destruct (f (record w)) as [r res]. apply wp_bind, wp_put_record. intros w' Hc _.
  apply wp_pure; [|done]. intros a _. cbn in Hf. injection Hc as -> _ _ _. done.
Qed.

Lemma legacy_encodings_record es policy w :
  vwp (legacy_entry_encodings zstd_compress es policy) (fun _ w' => record w' = record w) w.
Proof.
  assert (Hsink : forall B (op : S -> S * data B) w0,
    vwp (call_sink op) (fun _ w' => record w' = record w0) w0).
  { intros B op w0. apply wp_call_sink. intros s [b|] w' _ Hc _; [|done]. by injection Hc. }
  revert w. induction es as [|e es IH]; intros w; cbn [legacy_entry_encodings]; [by apply wp_ret|].
  assert (He : vwp (legacy_entry_encoding zstd_compress e policy) (fun _ w' => record w' = record w) w).
  { unfold legacy_entry_encoding. case_bool_decide; [by apply wp_ret|].
    destruct policy; [by apply wp_ret..|]. apply (wp_exchange _ _ _ _ _ (Hsink _ _ w)).
    intros _ w1 Hr1. apply (wp_exchange _ _ _ _ _ (Hsink _ _ w1)). intros bs w2 Hr2.
    case_bool_decide; [apply wp_ret; congruence|]. apply wp_bind, wp_pure; [|done].
    intros c _. apply wp_ret. congruence. }
  apply (wp_exchange _ _ _ _ _ He). intros enc w1 Hr1.
  apply (wp_exchange _ _ _ _ _ (IH w1)). intros encs w2 Hr2. apply wp_ret. congruence.
Qed.

Lemma prepare_phase offer w :
  vwp (prepare_sender_entry_encodings is_nfc blake3 derive_key keyed_hash zstd_compress offer)
    (fun _ w' => sd_phase (record w') = sd_phase (record w)) w.
Proof.
  assert (Hfreeze : forall encs w0, vwp (on_record (fun r =>
      freeze_entry_encodings is_nfc blake3 derive_key keyed_hash r offer encs))
      (fun _ w' => sd_phase (record w') = sd_phase (record w0)) w0).
  { intros encs w0. apply on_record_phase. intros r. unfold freeze_entry_encodings.
    destruct (negb _); [done|]. destruct (validate_offer _ _ _ _ r offer) as [[]|]; [|done].
    by destruct (validate_entry_encodings _ _) as [[]|]. }
  unfold prepare_sender_entry_encodings. apply wp_bind, wp_get_record.
  destruct (negb _); [by apply wp_ret|]. destruct (sd_phase (record w)) eqn:Hp;
    try (by apply wp_ret).
  - eapply wp_mono; [apply Hfreeze| |done]. intros ? w' ->. done.
  - apply (wp_exchange _ _ _ _ _ (legacy_encodings_record _ _ w)). intros encs w1 Hr.
    eapply wp_mono; [apply Hfreeze| |done]. intros ? w' ->. by rewrite Hr.
Qed.

Lemma send_entries_length id accept status total es hasher w :
  vwp (send_entries is_nfc blake3 zstd_compress id accept status total es hasher)
    (fun p _ => length p.2 = length es) w.
Proof.
  revert hasher w. induction es as [|e es IH]; intros hasher w; cbn [send_entries]; [by apply wp_ret|].
  do 2 (apply wp_any; intros ? ?). apply wp_bind. eapply wp_mono; [apply IH| |done].
  intros [h ks] w9 Hl. apply wp_ret. cbn in *. by rewrite Hl.
Qed.

(** A run that returns has a result for every entry, also when it resumes. *)
Lemma send_length m nonce w :
  vwp (send is_nfc blake3 derive_key keyed_hash zstd_compress to_vec from_slice (Some m) nonce)
    (fun summary _ => length (ss_entry_results summary) = length (entries m)) w.
Proof.
  unfold send. apply wp_bind, wp_pure; [|done]. intros ? [= <-].
  do 6 (apply wp_any; intros ? ?). match goal with p : _ * _ |- _ => destruct p as [accept status] end.
  do 8 (apply wp_any; intros ? ?). apply wp_bind. eapply wp_mono; [apply send_entries_length| |done].
  intros [hasher ks] ? Hks. do 2 (apply wp_any; intros ? ?). apply wp_bind.
  eapply wp_mono; [by apply recv_results_checked| |done].
  intros rs ? [Hlen _]. do 3 (apply wp_any; intros ? ?). by apply wp_ret.
Qed.

Lemma send_values m nonce w :
  sd_phase (record w) <> Transferring -> Forall (fun e => 0 <= plaintext_size e) (entries m) ->
  vwp (send is_nfc blake3 derive_key keyed_hash zstd_compress to_vec from_slice (Some m) nonce)
    (fun summary _ => length (ss_entry_results summary) = length (entries m) /\
       forall i e r, entries m !! i = Some e -> ss_entry_results summary !! i = Some r ->
         exists k, states e k /\ validate_entry_result e (ss_identity summary) k r = Ok tt) w.
Proof.
  intros Hphase Hsizes. unfold send. apply wp_bind, wp_pure; [|done]. intros ? [= <-].
  apply wp_bind, wp_pure; [|done]. intros offer _.
  apply (wp_exchange _ _ _ _ _ (prepare_phase offer w)). intros _ w1 Hp1.
  apply wp_bind, wp_get_record. apply wp_bind, wp_pure; [|done]. intros _ _.
  apply wp_bind, wp_save_record. intros fault fs [[]|] w2 _ Hc2 _; [|done].
  apply wp_bind. unfold negotiate. apply wp_bind, wp_get_record. apply wp_bind, wp_report.
  intros w3 Hc3 _. injection Hc2 as Hr2 _ _ _. rewrite Hr2, bool_decide_eq_false_2 by congruence.
  do 2 (apply wp_any; intros ? ?). match goal with f : ManifestV2Frame |- _ => destruct f; try done end.
  apply wp_any. intros ? ?. apply wp_ret. do 8 (apply wp_any; intros ? ?).
  apply wp_bind. eapply wp_mono; [by apply send_entries_states| |done].
  intros [hasher ks] ? Hks. do 2 (apply wp_any; intros ? ?). apply wp_bind.
  eapply wp_mono; [apply recv_results_checked; symmetry; exact (Forall2_length _ _ _ Hks)| |done].
  intros rs ? [Hlen Hall]. do 3 (apply wp_any; intros ? ?). apply wp_ret. split; [done|].
  intros i e r He Hr. destruct (Forall2_lookup_l _ _ _ _ _ Hks He) as (k & Hk & Hst). eauto.
Qed.
End SenderValues.
