(* ===== verification/Resume.v ===== *)
(** Resuming a job: a fresh ledger has the invariant, a sender takes the boundary
    that such a ledger reports, the completions both ends hash are the same, and
    a block that the sender makes is one the receiver expects and decodes. *)

From stdpp Require Import prelude gmap strings.
From Stdlib Require Import ZArith Lia Strings.Byte.
From S2P Require Import Prelude Bytes ManifestV2 ManifestSpec ValidateTheorem OfferCodec Frames.
From S2P Require Import FramesProof Timeline Delivery DeliveryStore Ledger Proc ReceivePlane LedgerInv.
From S2P Require Import SendPlane.

Local Open Scope Z_scope.

(** ** A fresh ledger *)

Section Fresh.
Context (is_nfc : str -> bool) (blake3 : list byte -> list byte).
Implicit Types (m : ManifestV2) (accept : ManifestAcceptV2).

(** The [u64]s of an accept's plans. *)
Definition wf_plans accept : Prop :=
  Forall (fun plan => 0 <= ep_next_plaintext_block plan) (entry_plans accept).

Lemma check_entry_plans_lookup es plans i e plan :
  check_entry_plans es plans = Ok tt -> es !! i = Some e -> plans !! i = Some plan ->
  check_entry_plan e plan = Ok tt.
Proof.
  revert plans i. induction es as [|e' es IH]; intros [|plan' plans] i Hc He Hp; try done. cbn in Hc. destruct (check_entry_plan e' plan') as [[]|] eqn:Hx; [|done].
  destruct i as [|i]; cbn in *; simplify_eq; [done|]. by eapply IH.
Qed.

Lemma new_checkpoint_ok m V accept e plan c :
  wf_entry e = true -> check_entry_plan e plan = Ok tt -> 0 <= ep_next_plaintext_block plan ->
  vec_get (entry_plans accept) (entry_id e) = Some plan -> new_checkpoint accept e = Ok c ->
  checkpoint_ok blake3 m V accept e c.
Proof.
  intros Hwf Hchk Hpos Hplan Hc. unfold new_checkpoint, index_at in Hc. rewrite Hplan in Hc.
  cbn in Hc. inv_ok. unfold check_entry_plan in Hchk.
  destruct (negb _ || _ || _) eqn:Hg; [done|]. inv_ok.
  match goal with Hx : total_blocks _ = Ok _ |- _ => apply total_blocks_ok in Hx; subst end.
  destruct (Z.ltb_spec (blocks_of e) (ep_next_plaintext_block plan)) as [|Hle]; [done|].
  unfold wf_entry, is_u64 in Hwf. bool_prop. pose proof block_bytes_pos.
  constructor; cbn; try done.
  - unfold saturating_mul. split; [done|]. split; [cbn; lia|]. intros _. cbn. split; [done|]. lia.
  - intros plan' Hplan' Hd. rewrite Hplan in Hplan'. injection Hplan' as <-.
    rewrite bool_decide_eq_true_2 in * by done.
    match goal with Hx : (true && (_ || _)) = false |- _ => cbn in Hx end. bool_prop. done.
Qed.

Lemma new_checkpoints_lookup accept es cs :
  new_checkpoints accept es = Ok cs -> Forall2 (fun e c => new_checkpoint accept e = Ok c) es cs.
Proof.
  revert cs. induction es as [|e es IH]; intros cs Hcs; cbn in Hcs; inv_ok; [constructor|].
  constructor; auto.
Qed.

Lemma fresh_ledger m V accept l offer :
  wf_manifest m = true -> wf_plans accept -> build_manifest_offer_v2 is_nfc blake3 m = Ok offer ->
  ledger_new is_nfc blake3 offer accept = Ok l -> ledger_ok is_nfc blake3 m V l.
Proof.
  intros Hwf Hplans Hb Hl.
  assert (Hv : valid_manifest is_nfc m).
  { apply validate_sound; [done|]. unfold build_manifest_offer_v2 in Hb. inv_ok. done. }
  assert (manifest offer = m) as <- by (unfold build_manifest_offer_v2 in Hb; inv_ok; done).
  unfold ledger_new in Hl. destruct (validate_accept offer accept) as [[]|] eqn:Hacc; [|done].
  cbn [mbind result_bind] in Hl.
  destruct (canonical_manifest_v2_frame_body_digest is_nfc blake3 (Accept accept)) as [digest|] eqn:Hd;
    [|done]. cbn [map_err mbind result_bind] in Hl. inv_ok. match goal with Hx : new_checkpoints _ _ = Ok _ |- _ => rename Hx into Hcs end.
  pose proof Hacc as Ha. unfold validate_accept in Ha.
  destruct (_ || _) eqn:Hg in Ha; [done|]. bool_prop. inv_ok.
  assert (Hid : acc_identity accept = identity_of offer)
    by (unfold identity_of; destruct (acc_identity accept); cbn in *; congruence).
  apply ledger_ok_intro; cbn [rl_accept rl_entries]; [done..| |].
  { exists offer. cbn. rewrite Hid. repeat split; try done. }
  apply new_checkpoints_lookup in Hcs. apply Forall2_same_length_lookup.
  split; [exact (Forall2_length _ _ _ Hcs)|]. intros i e c He Hc.
  pose proof (Forall2_lookup_lr _ _ _ _ _ _ Hcs He Hc) as Hnew.
  destruct (lookup_lt_is_Some_2 (entry_plans accept) i) as [plan Hplan].
  { apply lookup_lt_Some in He. unfold zlen in *. lia. }
  eapply (new_checkpoint_ok _ V accept e plan); [| | | |done].
  - eapply wf_manifest_entry; [done|]. by eapply list_elem_of_lookup_2.
  - by eapply check_entry_plans_lookup.
  - unfold wf_plans in Hplans. rewrite Forall_forall in Hplans.
    by eapply Hplans, list_elem_of_lookup_2.
  - rewrite (entry_id_index is_nfc _ Hv i e He). by rewrite vec_get_nat.
Qed.
End Fresh.

(** ** What a sender reads from a ledger *)

Section Resumable.
Context (is_nfc : str -> bool) (blake3 : list byte -> list byte).
Context (m : ManifestV2) (Hwf : wf_manifest m = true) (Hv : valid_manifest is_nfc m).
Context (V : ManifestEntryV2 -> ContentDigestV2 -> Prop) (accept : ManifestAcceptV2).
Local Notation ID := (mkJobGeneration (job_id m) (generation m)).
Local Notation ok := (checkpoint_ok blake3 m V accept).
Implicit Types (e : ManifestEntryV2) (c : ReceiverEntryCheckpointV2).

(** The number of blocks of an entry fits in a [u64]. *)
Definition countable e : Prop := plaintext_size e + (block_bytes - 1) <= u64_max.

Lemma total_blocks_count e : total_blocks e = Ok (blocks_of e) <-> countable e.
Proof.
  unfold total_blocks, countable, checked_add, blocks_of. destruct (Z.leb_spec (plaintext_size e + (block_bytes - 1)) u64_max).
  - cbn. done.
  - cbn. split; [done|]. lia.
Qed.

(** The result of an entry, as the sender rebuilds the completion from it. *)
Lemma result_rebuilds e c k r :
  ok e c -> cp_completion c = Some k -> result_states m e k r ->
  completion_from_result blake3 e r = Ok k.
Proof.
  intros Hc Hk [name ->]. unfold completion_from_result. cbn. rewrite !Z.eqb_refl. cbn.
  apply (co_completion _ _ _ _ _ _ Hc) in Hk. unfold completion_from_resume_checkpoint in Hk. cbn in Hk.
  destruct (cp_arbiter c) eqn:Ha; cbn in Hk; [done| |].
  - destruct (co_reuse _ _ _ _ _ _ Hc Ha) as (Hf & _ & d & Hd). rewrite Hf, Hd in *. cbn in *.
    inv_ok. done.
  - destruct (kind e) eqn:Hf; repeat case_bool_decide; try done; cbn in Hk; [|by inv_ok].
    destruct (cp_content_digest c); cbn in Hk; inv_ok. done.
Qed.

Lemma checkpoint_resumable e c :
  ok e c -> default_start c -> countable e ->
  check_resume_entry blake3 ID e (resume_entry_of c) = Ok tt.
Proof.
  intros Hc Hdef Hcnt. unfold check_resume_entry. rewrite (proj2 (total_blocks_count e) Hcnt).
  cbn [mbind result_bind]. pose proof (co_entry_id _ _ _ _ _ _ Hc) as Hid.
  destruct (co_boundary _ _ _ _ _ _ Hc) as (_ & _ & Hb). destruct (Hb Hdef) as [Hle _].
  cbn [re_entry_id re_next_plaintext_block entry_result resume_entry_of]. rewrite Hid, Z.eqb_refl.
  rewrite (proj2 (Z.ltb_ge _ _) Hle).
  assert (Hshape : arbiter_shape_valid e (resume_entry_of c) = true).
  { unfold arbiter_shape_valid. cbn. destruct (cp_arbiter c) eqn:Ha; [| |done].
    - by rewrite (open_no_result _ _ _ _ _ _ Hc Ha).
    - destruct (co_reuse _ _ _ _ _ _ Hc Ha) as (Hf & H0 & Hd). rewrite Hf, H0.
      by rewrite (bool_decide_eq_true_2 (is_Some _)). }
  rewrite Hshape. unfold result_matches_arbiter. cbn [entry_result resume_entry_of arbiter].
  destruct (cp_result c) as [r|] eqn:Hr; [|done].
  destruct (co_result _ _ _ _ _ _ Hc r Hr) as (k & Hk & Hst).
  rewrite (result_rebuilds _ _ _ _ Hc Hk Hst). destruct Hst as [name ->].
  apply (co_completion _ _ _ _ _ _ Hc) in Hk. unfold completion_from_resume_checkpoint in Hk. cbn in Hk.
  cbn [er_identity er_entry_id er_result is_ok].
  rewrite bool_decide_eq_true_2, Z.eqb_refl by done.
  destruct (cp_arbiter c) eqn:Ha; cbn in Hk; inv_ok; done.
Qed.

Lemma checkpoint_progress e c :
  ok e c -> default_start c -> countable e -> 0 <= plaintext_size e ->
  exists b, resume_entry_plaintext_bytes e (resume_entry_of c) = Ok b /\
    0 <= b <= plaintext_size e.
Proof.
  intros Hc Hdef Hcnt Hs. unfold resume_entry_plaintext_bytes. cbn [re_entry_id resume_entry_of].
  rewrite (co_entry_id _ _ _ _ _ _ Hc), Z.eqb_refl. cbn [negb].
  destruct (_ || _ || _); [eexists; split; [done|lia]|].
  cbn [re_next_plaintext_block resume_entry_of].
  destruct (co_boundary _ _ _ _ _ _ Hc) as (H0 & _ & Hb). destruct (Hb Hdef) as [Hle _].
  assert (Hmul : cp_next_plaintext_block c * block_bytes <= u64_max).
  { unfold countable in Hcnt. pose proof block_bytes_pos.
    assert (blocks_of e * block_bytes <= plaintext_size e + (block_bytes - 1)).
    { unfold blocks_of. rewrite Z.mul_comm. by apply Z.mul_div_le. }
    assert (cp_next_plaintext_block c * block_bytes <= blocks_of e * block_bytes)
      by (apply Z.mul_le_mono_nonneg_r; lia). lia. }
  unfold checked_mul. rewrite (proj2 (Z.leb_le _ _) Hmul). cbn [ok_or mbind result_bind].
  eexists. split; [done|]. pose proof block_bytes_pos. nia.
Qed.

Lemma check_resume_entries_ok es cs :
  Forall2 (fun e c => ok e c /\ default_start c /\ countable e) es cs ->
  check_resume_entries blake3 ID es (map resume_entry_of cs) = Ok tt.
Proof.
  induction 1 as [|e c es cs (Hc & Hd & Hn) _ IH]; [done|]. cbn [check_resume_entries map].
  by rewrite (checkpoint_resumable _ _ Hc Hd Hn).
Qed.

Lemma byte_total_nonneg es :
  Forall (fun e => 0 <= plaintext_size e /\ (kind e = Directory -> plaintext_size e = 0)) es ->
  0 <= byte_total es.
Proof.
  induction 1 as [|e es [He _] _ IH]; [done|]. cbn [byte_total foldr]. fold (byte_total es).
  destruct (is_file e); lia.
Qed.

Lemma fold_resume_bytes_ok es cs total :
  Forall2 (fun e c => ok e c /\ default_start c /\ countable e) es cs ->
  Forall (fun e => 0 <= plaintext_size e /\ (kind e = Directory -> plaintext_size e = 0)) es ->
  0 <= total -> total + byte_total es <= u64_max ->
  exists b, fold_resume_bytes total es (map resume_entry_of cs) = Ok b /\
    total <= b <= total + byte_total es.
Proof.
  intros Hall. revert total. induction Hall as [|e c es cs (Hc & Hd & Hn) _ IH]; intros total Hes H0 Ht.
  { exists total. cbn. split; [done|lia]. }
  inversion Hes as [|? ? [Hs Hdir] Hes']; subst.
  destruct (checkpoint_progress _ _ Hc Hd Hn Hs) as (b & Hb & Hbs).
  assert (Hsize : b <= (if is_file e then plaintext_size e else 0)).
  { unfold is_file. destruct (kind e) eqn:Hk; cbn; [lia|]. specialize (Hdir eq_refl). lia. }
  pose proof (byte_total_nonneg _ Hes').
  cbn [byte_total foldr] in Ht. fold (byte_total es) in Ht.
  destruct (IH (total + b)) as (b' & Hb' & Hle); [done|lia|lia|].
  exists b'. cbn [fold_resume_bytes map]. rewrite Hb. cbn [mbind result_bind].
  unfold checked_add. rewrite (proj2 (Z.leb_le _ _)) by lia. cbn [ok_or]. split; [done|].
  cbn [byte_total foldr]. fold (byte_total es). lia.
Qed.
End Resumable.

(** ** Reconnecting *)

Section Reconnect.
Context (is_nfc : str -> bool) (blake3 : list byte -> list byte).
Context (derive_key : str -> list byte -> list byte) (keyed_hash : list byte -> list byte -> list byte).
Context {S : Type} `{FileSource S}.
Implicit Types (l : ReceiverDataPlaneLedgerV2) (w : World SenderDeliveryRecordV2 S).

(** The status the receiver's session answers a request with. *)
Definition answered_status l (request : ResumeRequestV2) : ResumeStatusV2 :=
  let status := resume_status l in
  mkResumeStatus (rs_identity status) (rs_accept_body_digest status) (rs_plan_revision status)
    (rs_entries status) (rr_challenge_nonce request)
    (answer_resume_challenge derive_key keyed_hash (rl_identity l) (rr_challenge_nonce request)
       (proof_capability (rl_accept l))).

(** The sender's record is of the accept the ledger holds. *)
Definition same_accept (r : SenderDeliveryRecordV2) l : Prop :=
  sd_accept r = Some (rl_accept l) /\ sd_accept_body_digest r = Some (rl_accept_body_digest l).

(** What a sender in [Transferring] asks. *)
Definition reconnect_request (offer : ManifestOfferV2) l (nonce : list byte) : ResumeRequestV2 :=
  mkResumeRequest (identity_of offer) offer (rl_accept_body_digest l)
    (checkpoint_digest_of derive_key (structural_digest offer) (rl_accept_body_digest l) ContinueData)
    nonce.

Lemma ledger_ok_resumable m V l :
  wf_manifest m = true -> valid_manifest is_nfc m -> ledger_ok is_nfc blake3 m V l ->
  Forall default_start (rl_entries l) ->
  Forall2 (fun e c => checkpoint_ok blake3 m V (rl_accept l) e c /\ default_start c /\ countable e)
    (entries m) (rl_entries l).
Proof.
  intros Hwf Hv Hl Hd. pose proof (lo_entries _ _ _ _ _ Hl) as Hall.
  destruct (ledger_ok_header _ _ _ _ _ Hl) as (offer & Hb & _ & _ & _ & _ & _ & Hacc & _).
  assert (manifest offer = m) as Hm by (unfold build_manifest_offer_v2 in Hb; inv_ok; done).
  unfold validate_accept in Hacc. rewrite Hm in Hacc. destruct (_ || _) eqn:Hg in Hacc; [done|].
  bool_prop. apply Forall2_same_length_lookup. split; [exact (Forall2_length _ _ _ Hall)|].
  intros i e c He Hc. split; [exact (Forall2_lookup_lr _ _ _ _ _ _ Hall He Hc)|].
  split; [by eapply Forall_lookup_1|].
  destruct (lookup_lt_is_Some_2 (entry_plans (rl_accept l)) i) as [plan Hplan].
  { apply lookup_lt_Some in He. unfold zlen in *. lia. }
  destruct (check_root_plans _ _ _) as [[]|]; [|done]. cbn in Hacc.
  pose proof (check_entry_plans_lookup _ _ _ _ _ Hacc He Hplan) as Hchk. unfold check_entry_plan in Hchk.
  destruct (_ || _) eqn:Hg2 in Hchk; [done|]. apply total_blocks_count.
  destruct (total_blocks e) as [b|] eqn:Ht; [|done]. by rewrite (total_blocks_ok _ _ Ht).
Qed.

Lemma resume_status_accepted m V l r request :
  wf_manifest m = true -> valid_manifest is_nfc m -> ledger_ok is_nfc blake3 m V l ->
  Forall default_start (rl_entries l) -> same_accept r l -> sd_identity r = rl_identity l ->
  sd_phase r = Transferring ->
  validate_resume_status blake3 m r (answered_status l request) = Ok tt.
Proof.
  intros Hwf Hv Hl Hd [Ha Hdig] Hid Hph. pose proof (ledger_ok_resumable _ _ _ Hwf Hv Hl Hd) as Hall.
  unfold validate_resume_status. rewrite Ha. cbn [ok_or mbind result_bind answered_status resume_status
    rs_identity rs_accept_body_digest rs_plan_revision rs_entries].
  rewrite Hid, Hdig, Z.eqb_refl, !bool_decide_eq_true_2 by done.
  rewrite (proj2 (Z.eqb_eq _ _)).
  2: { unfold zlen. rewrite length_map. by rewrite (Forall2_length _ _ _ Hall). }
  cbn [negb orb]. rewrite (ledger_ok_identity _ _ _ _ _ Hl), (check_resume_entries_ok _ _ V (rl_accept l) _ _ Hall).
  cbn [mbind result_bind]. by rewrite Hph.
Qed.

Lemma resume_bytes_bounded m V l request :
  wf_manifest m = true -> valid_manifest is_nfc m -> ledger_ok is_nfc blake3 m V l ->
  Forall default_start (rl_entries l) ->
  exists c, resume_plaintext_bytes m (answered_status l request) = Ok c /\
    0 <= c <= total_plaintext_bytes (totals m).
Proof.
  intros Hwf Hv Hl Hd. rewrite (vm_totals _ _ Hv). cbn [total_plaintext_bytes totals_of].
  unfold resume_plaintext_bytes. cbn [rs_entries answered_status resume_status].
  eapply fold_resume_bytes_ok; [by apply ledger_ok_resumable| |done|exact (vm_bytes _ _ Hv)].
  apply Forall_lookup. intros i e He. split; [|exact (fun Hk => proj1 (ve_directory _ _ _ _ (vm_entry _ _ Hv i e He) Hk))].
  assert (Hw : wf_entry e = true) by (eapply wf_manifest_entry; [done|by eapply list_elem_of_lookup_2]).
  unfold wf_entry, is_u64 in Hw. bool_prop. done.
Qed.

(** C29. A broken transfer can go on: a sender in [Transferring] and a receiver
    with a true ledger of the same accept, for a job in blocks of the default size
    (the one that every sender of the program chooses), reconnect.  The receiver takes the
    sender's request and reads its intent; the sender takes the receiver's
    answer, and the progress that both count from it is between nothing and the
    whole. *)
Theorem reconnect_succeeds m V l offer w n rest k :
  wf_manifest m = true -> ledger_ok is_nfc blake3 m V l -> Forall default_start (rl_entries l) ->
  build_manifest_offer_v2 is_nfc blake3 m = Ok offer ->
  validate_offer is_nfc blake3 derive_key keyed_hash (record w) offer = Ok tt ->
  sd_phase (record w) = Transferring -> same_accept (record w) l -> sends_left w = Datatypes.S k ->
  incoming w = ResumeStatus (answered_status l (reconnect_request offer l n)) :: rest ->
  validate_resume_request l (reconnect_request offer l n) = Ok tt /\
  sender_resume_intent derive_key (structural_digest offer) (rl_accept_body_digest l)
    (reconnect_request offer l n) = Ok ContinueData /\
  exists w' c, establish_sender_reconnect is_nfc blake3 derive_key keyed_hash (Some m) (Some n) w
      = (w', Ok (answered_status l (reconnect_request offer l n))) /\
    outgoing w' = outgoing w ++ [(ResumeRequest (reconnect_request offer l n), store w)] /\
    incoming w' = rest /\
    resume_plaintext_bytes m (answered_status l (reconnect_request offer l n)) = Ok c /\
    0 <= c <= total_plaintext_bytes (totals m).
Proof.
  intros Hwf Hl Hd Hb Hoff Hph Hsame Hleft Hin.
  assert (Hv : valid_manifest is_nfc m).
  { apply validate_sound; [done|]. unfold build_manifest_offer_v2 in Hb. inv_ok. done. }
  assert (Hid : identity_of offer = rl_identity l).
  { rewrite (ledger_ok_identity _ _ _ _ _ Hl). unfold build_manifest_offer_v2 in Hb. inv_ok. done. }
  assert (Hrid : sd_identity (record w) = rl_identity l).
  { unfold validate_offer in Hoff. destruct (_ || _) eqn:Hg in Hoff; [done|]. bool_prop. congruence. }
  destruct (ledger_ok_header _ _ _ _ _ Hl) as (o & Hbo & _ & _ & Hdig & _).
  rewrite Hb in Hbo. injection Hbo as <-.
  split; [unfold validate_resume_request; cbn; by rewrite Hid, Hdig, !bool_decide_eq_true_2|].
  split; [unfold sender_resume_intent; cbn; by rewrite bool_decide_eq_true_2|].
  destruct (resume_bytes_bounded m V l (reconnect_request offer l n)) as (c & Hc & Hcb); [done..|].
  pose proof (resume_status_accepted m V l (record w) (reconnect_request offer l n)
    Hwf Hv Hl Hd Hsame Hrid Hph) as Hst.
  destruct Hsame as [Ha Hda].
  unfold establish_sender_reconnect, built_offer, mbind, proc_bind, pure, get_record, proof_capability_of.
  cbn [ok_or]. rewrite Hb. cbn [map_err]. rewrite Hoff, Hda, Ha. cbn. rewrite Hph. cbn.
  unfold send_frame, recv. rewrite Hleft. cbn. rewrite Hin, Hrid, <- Hid.
  rewrite (bool_decide_eq_true_2 (rs_challenge_nonce _ = n)) by done. cbn [negb].
  unfold verify_resume_challenge. rewrite bool_decide_eq_true_2
    by (cbn; unfold answer_resume_challenge; by rewrite Hid). cbn [negb map_err]. rewrite Hst.
  eexists _, c. split; [done|]. done.
Qed.
End Reconnect.

(** ** Settled entries and blocks *)

Section Pieces.
Context (blake3 : list byte -> list byte).
Context (zstd_compress : list byte -> option (list byte)).
Context (zstd_decompress : list byte -> Z -> option (list byte)).

(** Both ends hash the same completion of an entry that needs no more
    frames: the sender takes an entry of the receiver's answer as settled exactly
    when the receiver does, and rebuilds the completion that the receiver has. *)
Theorem settled_agrees m V accept e c :
  checkpoint_ok blake3 m V accept e c ->
  match settled_by blake3 (mkJobGeneration (job_id m) (generation m)) e (Some (resume_entry_of c)) with
  | None => cp_arbiter c = PayloadOpen /\ cp_result c = None
  | Some r => (cp_arbiter c <> PayloadOpen) /\ exists k, r = Ok k /\
      settled_completion (mkJobGeneration (job_id m) (generation m)) e c = Ok k
  end.
Proof.
  intros Hc. unfold settled_by, settled_completion. cbn [entry_result resume_entry_of arbiter].
  destruct (cp_result c) as [r|] eqn:Hr.
  - destruct (co_result _ _ _ _ _ _ Hc r Hr) as (k & Hk & Hst). rewrite Hk. split.
    + intros Ha. by rewrite (open_no_result _ _ _ _ _ _ Hc Ha) in Hr.
    + exists k. split; [|done]. by eapply result_rebuilds.
  - case_bool_decide as Ha; [done|]. split; [done|].
    destruct (cp_completion c) as [k|] eqn:Hk.
    + exists k. split; [|done]. by apply (co_completion _ _ _ _ _ _ Hc).
    + destruct (cp_arbiter c) eqn:Harb; [done| |].
      * destruct (co_reuse _ _ _ _ _ _ Hc Harb) as (_ & _ & d & Hd).
        unfold completion_from_resume_checkpoint. cbn. rewrite Harb, Hd. cbn. eauto.
      * destruct (co_complete _ _ _ _ _ _ Hc Harb) as [[k Hs] _]. congruence.
Qed.

(** The block that the sender makes of its next bytes is the one the
    receiver's checkpoint expects, and it decodes to those bytes, provided zstd
    restores what it compressed. *)
Theorem block_roundtrip id e c s k bytes encoded :
  (forall bs out, zstd_compress bs = Some out -> zstd_decompress out (zlen bs) = Some bs) ->
  cp_start c = Some s -> es_identity s = id -> plaintext_block_bytes s = block_bytes ->
  cp_next_plaintext_block c = k -> 0 <= k -> k * block_bytes < plaintext_size e <= u64_max ->
  zlen bytes = Z.min (plaintext_size e - k * block_bytes) block_bytes ->
  encode_block zstd_compress (encoding s) bytes = Ok encoded ->
  let block := mkBlock id (entry_id e) k (k * block_bytes) (as_u32 (zlen bytes)) encoded in
  validate_block e c block = Ok tt /\
  decode_block zstd_decompress (encoding s) block
    = Ok (mkBlock id (entry_id e) k (k * block_bytes) (as_u32 (zlen bytes)) bytes).
Proof.
  intros Hz Hs Hid Hbb Hk Hk0 Hsize Hlen Henc block. pose proof block_bytes_pos.
  assert (Hu : as_u32 (zlen bytes) = zlen bytes).
  { unfold as_u32. apply Z.mod_small. unfold block_bytes, DEFAULT_MANIFEST_V2_BLOCK_PLAINTEXT_BYTES in *. lia. }
  unfold block. rewrite Hu. subst id k. unfold encode_block in Henc.
  destruct (match encoding s with Identity => Ok bytes | Zstd => _ end) as [out|] eqn:Hout; [|done].
  cbn [mbind result_bind] in Henc. destruct (_ || _) eqn:Hg in Henc; [done|].
  injection Henc as ->. bool_prop. split.
  - unfold validate_block. rewrite Hs. cbn [ok_or mbind result_bind block_index plaintext_offset
      plaintext_length eb_identity eb_entry_id encoded_bytes]. rewrite Hbb.
    unfold checked_mul. rewrite (proj2 (Z.leb_le _ _)) by lia. cbn [ok_or mbind result_bind].
    unfold checked_add. rewrite (proj2 (Z.leb_le _ _)) by lia. cbn [ok_or mbind result_bind].
    rewrite !Z.eqb_refl, (bool_decide_eq_true_2 (es_identity s = es_identity s)),
      (bool_decide_eq_false_2 (encoded = [])) by done. cbn [negb orb].
    rewrite (proj2 (Z.ltb_ge (plaintext_size e) _)), (proj2 (Z.eqb_neq (zlen bytes) 0)),
      (proj2 (Z.ltb_ge block_bytes _)), (proj2 (Z.ltb_ge MAX_MANIFEST_V2_BLOCK_ENCODED_BYTES _)) by lia.
    cbn [orb]. assert (Hi : bool_decide (encoding s = Identity) && negb (zlen bytes =? zlen encoded) = false).
    { destruct (encoding s); [|done]. injection Hout as ->. by rewrite Z.eqb_refl. }
    rewrite Hi. cbn [orb]. destruct (Z.ltb_spec (cp_next_plaintext_block c * block_bytes + zlen bytes)
      (plaintext_size e)); [|done]. rewrite (proj2 (Z.eqb_eq (zlen bytes) block_bytes)) by lia. done.
  - unfold decode_block. cbn [plaintext_length encoded_bytes eb_identity eb_entry_id block_index
      plaintext_offset]. destruct (encoding s).
    + injection Hout as ->. cbn [mbind result_bind]. by rewrite Z.eqb_refl.
    + destruct (zstd_compress bytes) as [o|] eqn:Hc; [|done]. injection Hout as ->.
      rewrite (Hz _ _ Hc). cbn [ok_or mbind result_bind]. by rewrite Z.eqb_refl.
Qed.
End Pieces.
