(* ===== verification/Transfer.v ===== *)
(** What the data plane guarantees: the receiver's ledger stays true and ahead of
    what is sent, what it reports as saved was verified, and two ends that both
    return agree and have moved the sender's bytes. *)

From stdpp Require Import prelude gmap strings.
From Stdlib Require Import ZArith Lia Strings.Byte.
From S2P Require Import Prelude Bytes ManifestV2 ManifestSpec ValidateTheorem OfferCodec Frames.
From S2P Require Import FramesProof Timeline Delivery Ledger Proc ReceivePlane LedgerInv ReceiveInv.
From S2P Require Import ReceiveSafe SendPlane Agreement.

Local Open Scope Z_scope.

(** ** The receiver *)

Section Receiver.
Context (is_nfc : str -> bool) (blake3 : list byte -> list byte).
Context (zstd_decompress : list byte -> Z -> option (list byte)).
Context (ledger_to_vec : ReceiverDataPlaneLedgerV2 -> option (list byte)).
Context (ledger_from_slice : list byte -> option ReceiverDataPlaneLedgerV2).
Context {S : Type} `{PayloadSink S} (V : S -> ManifestEntryV2 -> ContentDigestV2 -> Prop).
Context `{!SinkSafety S V} (gate : ResultGate).
Local Notation start := (session_start is_nfc blake3 ledger_to_vec ledger_from_slice V).
Local Notation receive := (receive is_nfc blake3 zstd_decompress ledger_to_vec gate).
Local Notation ID m := (mkJobGeneration (job_id m) (generation m)).
Implicit Types (w : World ReceiverDataPlaneLedgerV2 S).

(** C4. Whatever the peer sends and however writes and sinks fail, the store
    holds, after every run of [receive], a ledger of the job that passes
    [validate] and is true of the sink: block boundaries, digests, completions
    and results are consistent, and an entry recorded as complete has a payload
    the sink verified.  A run that returns has recorded its summary there. *)
Theorem receive_keeps_ledger offer w w' r :
  start (manifest offer) w -> receive offer w = (w', r) ->
  exists l, ledger_load ledger_from_slice (store w') (ID (manifest offer)) = Ok (Some l) /\
    ledger_ok is_nfc blake3 (manifest offer) (V (sink w')) l /\
    forall summary, r = Ok summary -> completed_summary l = Some summary.
Proof.
  intros Hs Hrun. pose proof (receive_run _ _ _ _ _ _ _ _ _ _ _ Hs Hrun) as Hend.
  destruct r as [summary|e].
  - destruct Hend as ((Hl & _) & Hdur & Hsum). exists (record w'). split; [done|]. split; [done|].
    by intros ? [= <-].
  - destruct Hend as ((l & Hload & Hl) & _). by exists l.
Qed.

(** C14. Nothing is said before it is durable: every decision on a late digest
    and every result the receiver sends is recorded in the ledger that the
    store holds at that moment, and it sends nothing else. *)
Theorem receive_writes_ahead offer w w' r f fs :
  start (manifest offer) w -> receive offer w = (w', r) -> (f, fs) ∈ outgoing w' ->
  backed ledger_from_slice (manifest offer) f fs.
Proof.
  intros Hs Hrun Hin. pose proof (receive_run _ _ _ _ _ _ _ _ _ _ _ Hs Hrun) as Hend.
  assert (Hsafe : safe is_nfc blake3 ledger_from_slice V (manifest offer) w').
  { destruct r; [by eapply consistent_safe, (proj1 Hend)|done]. }
  destruct Hsafe as [_ Hout]. rewrite Forall_forall in Hout. exact (Hout _ Hin).
Qed.

(** The results of a finished job, entry by entry. *)
Lemma finished_results m summary w :
  valid_manifest is_nfc m -> finished is_nfc blake3 ledger_from_slice V m summary w ->
  length (rsum_entry_results summary) = length (entries m) /\
  forall i e r, entries m !! i = Some e -> rsum_entry_results summary !! i = Some r ->
    exists c k, checkpoint_ok blake3 m (V (sink w)) (rl_accept (record w)) e c /\
      cp_completion c = Some k /\ result_states m e k r.
Proof.
  intros Hv ((Hl & _) & _ & Hsum). unfold completed_summary in Hsum.
  destruct (rl_sender_completion_set_digest (record w)) as [d|]; [|done]. cbn in Hsum.
  destruct (collect_options _) as [rs|] eqn:Hrs; [|done]. injection Hsum as <-. cbn.
  apply collect_options_Some in Hrs.
  change (map cp_result (rl_entries (record w))) with (cp_result <$> rl_entries (record w)) in Hrs.
  pose proof (lo_entries _ _ _ _ _ Hl) as Hall. split.
  - rewrite (Forall2_length _ _ _ Hall). apply (f_equal length) in Hrs. by rewrite !length_fmap in Hrs.
  - intros i e r He Hr. destruct (Forall2_lookup_l _ _ _ _ _ Hall He) as (c & Hc & Hok).
    assert (Hres : cp_result c = Some r).
    { pose proof (f_equal (lookup i) Hrs) as Hi. rewrite !list_lookup_fmap, Hc, Hr in Hi.
      cbn in Hi. by injection Hi. }
    destruct (co_result _ _ _ _ _ _ Hok r Hres) as (k & Hk & Hst). by exists c, k.
Qed.

(** The digest a completion of a file states. *)
Lemma completion_digest m verified accept e c k :
  checkpoint_ok blake3 m verified accept e c -> cp_completion c = Some k -> kind e = RegularFile ->
  cp_content_digest c = Some (ec_final_digest k) /\
  (cp_arbiter c = ArbiterReuseChosen /\ completion_choice k = CompletionReuseChosen \/
   cp_arbiter c = PayloadCompleteChosen /\ completion_choice k = PayloadComplete).
Proof.
  intros Hok Hk Hf.
  pose proof (co_completion _ _ _ _ _ _ Hok k Hk) as Hc. unfold completion_from_resume_checkpoint in Hc.
  cbn in Hc. rewrite Hf, (bool_decide_eq_false_2 (RegularFile = Directory)) in Hc by done.
  destruct (cp_arbiter c) eqn:Ha; [done| |]; cbn in Hc;
    destruct (cp_content_digest c) as [d|] eqn:Hd; cbn in Hc; inv_ok; cbn in *; auto.
Qed.

Lemma completion_known m verified accept e c k d :
  checkpoint_ok blake3 m verified accept e c -> cp_completion c = Some k -> kind e = RegularFile ->
  known_digest e = Some d -> d = ec_final_digest k.
Proof.
  intros Hok Hk Hf Hd. destruct (completion_digest _ _ _ _ _ _ Hok Hk Hf) as [Hc _].
  pose proof (co_known _ _ _ _ _ _ Hok d Hd). congruence.
Qed.

(** What the sink verified of a file reported as saved. *)
Lemma saved_verified m (verified : ManifestEntryV2 -> ContentDigestV2 -> Prop) accept e c k r d :
  checkpoint_ok blake3 m verified accept e c -> cp_completion c = Some k -> result_states m e k r ->
  kind e = RegularFile -> er_result r = Saved -> er_final_digest r = Some d -> verified e d.
Proof.
  intros Hok Hk [name ->] Hf Hsaved Hd. cbn in Hsaved, Hd.
  rewrite bool_decide_eq_true_2 in Hd by done. injection Hd as <-.
  destruct (completion_digest _ _ _ _ _ _ Hok Hk Hf) as [Hd [[_ Hch]|[Ha _]]];
    [by rewrite Hch in Hsaved|]. by apply (co_verified _ _ _ _ _ _ Hok).
Qed.

(** A [receive] that returns has a result for every entry, of the entry's
    own size, and the result of a file has a digest, the manifest's when it is
    known there; a file reported as saved has a payload that the sink verified
    to have that digest. *)
Theorem receive_saves_verified offer w w' summary i e :
  start (manifest offer) w -> receive offer w = (w', Ok summary) ->
  entries (manifest offer) !! i = Some e ->
  exists r, rsum_entry_results summary !! i = Some r /\ er_entry_id r = entry_id e /\
    er_final_size r = plaintext_size e /\
    (kind e = RegularFile -> exists d, er_final_digest r = Some d /\
       (forall d', known_digest e = Some d' -> d = d') /\
       (er_result r = Saved -> V (sink w') e d)).
Proof.
  intros Hs Hrun He. pose proof (receive_run _ _ _ _ _ _ _ _ _ _ _ Hs Hrun) as Hend.
  pose proof Hs as (Hwf & _ & Hl & _).
  pose proof (ledger_validate_manifest _ _ _ _ Hwf (lo_valid _ _ _ _ _ Hl)) as Hv.
  destruct (finished_results _ _ _ Hv Hend) as [Hlen Hres].
  destruct (lookup_lt_is_Some_2 (rsum_entry_results summary) i) as [r Hr].
  { rewrite Hlen. by eapply lookup_lt_Some. }
  exists r. split; [done|]. destruct (Hres i e r He Hr) as (c & k & Hok & Hk & name & ->). cbn.
  split; [done|]. split; [done|]. intros Hf. exists (ec_final_digest k).
  rewrite bool_decide_eq_true_2 by done. split; [done|].
  split.
  - intros d' Hd'. symmetry. by apply (completion_known (manifest offer) _ _ _ _ _ _ Hok Hk Hf).
  - intros Hsaved. eapply (saved_verified (manifest offer) (V (sink w'))); [done|done|by exists name|done|done|cbn].
    by rewrite bool_decide_eq_true_2.
Qed.
End Receiver.

(** ** Both ends *)

Section Ends.
Context (is_nfc : str -> bool) (blake3 : list byte -> list byte).
Context (derive_key : str -> list byte -> list byte) (keyed_hash : list byte -> list byte -> list byte).
Context (zstd_compress : list byte -> option (list byte)).
Context (zstd_decompress : list byte -> Z -> option (list byte)).
Context (s_to_vec : SenderDeliveryRecordV2 -> option (list byte))
  (s_from_slice : list byte -> option SenderDeliveryRecordV2).
Context (ledger_to_vec : ReceiverDataPlaneLedgerV2 -> option (list byte)).
Context (ledger_from_slice : list byte -> option ReceiverDataPlaneLedgerV2).
Context {F : Type} `{FileSource F}.
Context {S : Type} `{PayloadSink S} (V : S -> ManifestEntryV2 -> ContentDigestV2 -> Prop).
Context `{!SinkSafety S V} (gate : ResultGate).
Local Notation start := (session_start is_nfc blake3 ledger_to_vec ledger_from_slice V).
Local Notation receive := (receive is_nfc blake3 zstd_decompress ledger_to_vec gate).
Local Notation send :=
  (send is_nfc blake3 derive_key keyed_hash zstd_compress s_to_vec s_from_slice).

(** The sender's check of a result that says a file is saved. *)
Lemma result_checked e id k r :
  kind e = RegularFile -> er_result r = Saved -> validate_entry_result e id k r = Ok tt ->
  completion_choice k = PayloadComplete /\ er_final_digest r = Some (ec_final_digest k).
Proof.
  intros Hf Hs. unfold validate_entry_result. rewrite Hf, Hs.
  destruct (_ || _) eqn:Hg; [done|]. intros _. bool_prop.
  rewrite (bool_decide_eq_true_2 (RegularFile = RegularFile)) in * by done. cbn in *. bool_prop.
  split; [by destruct (completion_choice k)|done].
Qed.

(** One connection: after the first frame of each side (offer and accept, or
    resume request and status), the frames the sender sends in its session are
    those the receiver's data plane gets, and the other way round. *)
Definition connected (ws ws' : World SenderDeliveryRecordV2 F)
    (wr wr' : World ReceiverDataPlaneLedgerV2 S) : Prop :=
  outgoing ws = [] /\
  (exists request, (outgoing ws').*1 = request :: incoming wr) /\
  (exists reply, incoming ws = reply :: (outgoing wr').*1).

Lemma wf_manifest_sizes m :
  wf_manifest m = true -> Forall (fun e => 0 <= plaintext_size e) (entries m).
Proof.
  intros Hwf. apply Forall_forall. intros e He. pose proof (wf_manifest_entry _ _ Hwf He) as Hw.
  unfold wf_entry, is_u64 in Hw. bool_prop. done.
Qed.

Lemma connected_agree m digest nonce ws ws' wr wr' ss rs :
  start m wr -> connected ws ws' wr wr' ->
  send (Some m) nonce ws = (ws', Ok ss) -> receive (mkOffer digest m) wr = (wr', Ok rs) ->
  ss_identity ss = rsum_identity rs /\
  ss_completion_set_digest ss = rsum_completion_set_digest rs /\
  ss_entry_results ss = rsum_entry_results rs.
Proof.
  intros Hs (Hout & (q & Hq) & (p & Hp)) Hsend Hrecv.
  pose proof (send_exchange is_nfc blake3 derive_key keyed_hash zstd_compress s_to_vec s_from_slice
    (Some m) nonce ws) as Hx. unfold wp in Hx. rewrite Hsend in Hx.
  destruct Hx as (f & g & ins & outs & Hins & Houts & Hin & Ho).
  pose proof (receive_exchange is_nfc blake3 zstd_decompress ledger_to_vec gate (mkOffer digest m) wr)
    as Hy. unfold wp in Hy. rewrite Hrecv in Hy.
  destruct Hy as (ins' & outs' & Hins' & Houts' & Hin' & Ho').
  rewrite Hout, Hq in Ho. cbn in Ho. injection Ho as _ Ho.
  rewrite Hp in Hin. injection Hin as _ Hin.
  assert (Hstart : outgoing wr = []) by (by destruct Hs as (_ & _ & _ & _ & ? & _)).
  rewrite Hstart in Ho'. cbn in Ho'. rewrite Ho' in Hin. rewrite Hin', <- app_assoc in Ho.
  pose proof (split_job_complete _ _ _ _ _ Hins' Houts Ho) as Hj. injection Hj as <- <-.
  split; [done|]. split; [done|].
  pose proof (receive_run is_nfc blake3 zstd_decompress ledger_to_vec ledger_from_slice V gate
    (mkOffer digest m) wr wr' (Ok rs) Hs Hrecv) as Hfin. cbn [manifest] in Hfin.
  destruct Hs as (Hwf & _ & Hl & _).
  pose proof (ledger_validate_manifest _ _ _ _ Hwf (lo_valid _ _ _ _ _ Hl)) as Hv.
  destruct (finished_results _ _ _ _ _ _ _ Hv Hfin) as [Hlen' _].
  rewrite <- app_assoc in Hin. symmetry in Hin.
  pose proof (send_length is_nfc blake3 derive_key keyed_hash zstd_compress s_to_vec s_from_slice
    m nonce ws) as Hlen. unfold wp in Hlen. rewrite Hsend in Hlen.
  apply (split_results _ _ _ _ _ Hins Houts') in Hin; [done| |congruence].
  intros Hnil. rewrite Hnil in Hlen. symmetry in Hlen. apply nil_length_inv in Hlen.
  by apply (proj1 (vm_entries_bound _ _ Hv)).
Qed.

(** Two ends of one connection that both return have the same summary: the
    same job, the same digest of all completions, the same result of every
    entry, whether the session is the job's first or resumes it. *)
Theorem summaries_agree m digest nonce ws ws' wr wr' ss rs :
  start m wr -> connected ws ws' wr wr' ->
  send (Some m) nonce ws = (ws', Ok ss) -> receive (mkOffer digest m) wr = (wr', Ok rs) ->
  ss_identity ss = rsum_identity rs /\
  ss_completion_set_digest ss = rsum_completion_set_digest rs /\
  ss_entry_results ss = rsum_entry_results rs.
Proof. apply connected_agree. Qed.

(** What the sink verified is what the sender read. *)
Lemma connected_integrity (content : Z -> list byte) m digest nonce ws ws' wr wr' ss rs i e r :
  (forall eid s s' bytes, source_open eid s = (s', Ok bytes) -> bytes = content eid) ->
  start m wr -> sd_phase (record ws) <> Transferring -> connected ws ws' wr wr' ->
  send (Some m) nonce ws = (ws', Ok ss) -> receive (mkOffer digest m) wr = (wr', Ok rs) ->
  entries m !! i = Some e -> kind e = RegularFile ->
  rsum_entry_results rs !! i = Some r -> er_result r = Saved ->
  V (sink wr') e (blake3 (payload content e)).
Proof.
  intros Hopen Hs Hphase Hconn Hsend Hrecv He Hf Hr Hsaved.
  destruct (connected_agree _ _ _ _ _ _ _ _ _ Hs Hconn Hsend Hrecv) as (_ & _ & Hsame).
  pose proof Hs as (Hwf & _ & Hl & _).
  pose proof (ledger_validate_manifest _ _ _ _ Hwf (lo_valid _ _ _ _ _ Hl)) as Hv.
  pose proof (receive_run is_nfc blake3 zstd_decompress ledger_to_vec ledger_from_slice V gate
    (mkOffer digest m) wr wr' (Ok rs) Hs Hrecv) as Hfin. cbn [manifest] in Hfin.
  destruct (finished_results _ _ _ _ _ _ _ Hv Hfin) as [_ Hres].
  pose proof (send_values is_nfc blake3 derive_key keyed_hash zstd_compress s_to_vec s_from_slice
    content Hopen m nonce ws Hphase (wf_manifest_sizes _ Hwf)) as Hvals.
  unfold wp in Hvals. rewrite Hsend in Hvals. destruct Hvals as [_ Hvals].
  destruct (Hvals i e r He) as (k & Hst & Hchk); [by rewrite Hsame|].
  destruct (result_checked _ _ _ _ Hf Hsaved Hchk) as [Hchoice Hd].
  destruct (Hres i e r He Hr) as (c & k' & Hok & Hk' & Hk).
  rewrite <- (Hst Hf Hchoice). by eapply (saved_verified blake3 m (V (sink wr')) _ e c k' r).
Qed.

(** The bytes arrive: in a first session in which both ends return, a file
    that the receiver reports as saved is a payload that its sink verified to
    have the digest of the bytes the sender's file holds, cut to the entry's
    size. *)
Theorem transfer_integrity (content : Z -> list byte) m digest nonce ws ws' wr wr' ss rs i e r :
  (forall eid s s' bytes, source_open eid s = (s', Ok bytes) -> bytes = content eid) ->
  start m wr -> sd_phase (record ws) <> Transferring -> connected ws ws' wr wr' ->
  send (Some m) nonce ws = (ws', Ok ss) -> receive (mkOffer digest m) wr = (wr', Ok rs) ->
  entries m !! i = Some e -> kind e = RegularFile ->
  rsum_entry_results rs !! i = Some r -> er_result r = Saved ->
  V (sink wr') e (blake3 (payload content e)).
Proof. apply connected_integrity. Qed.
End Ends.
