(* ===== verification/LocalTransfer.v ===== *)
(** The data plane with the local provider as its sink: what a receiver reports as
    saved is on its disk. *)

From stdpp Require Import prelude gmap strings.
From Stdlib Require Import ZArith Lia Strings.Byte.
From S2P Require Import Prelude Bytes ManifestV2 ManifestSpec ValidateTheorem OfferCodec Frames.
From S2P Require Import Timeline Delivery Ledger Names Proc ReceivePlane LedgerInv ReceiveInv ReceiveSafe SendPlane Agreement Transfer.
From S2P Require Import LocalFs Destination Provider ProviderCommit ProviderSafe CommitSafe DirectSave.

Local Open Scope Z_scope.

Section Local.
Context (os : Platform) (is_nfc : str -> bool) (blake3 : list byte -> list byte).
Context (derive_key : str -> list byte -> list byte) (keyed_hash : list byte -> list byte -> list byte).
Context (zstd_compress : list byte -> option (list byte)).
Context (zstd_decompress : list byte -> Z -> option (list byte)).
Context (s_to_vec : SenderDeliveryRecordV2 -> option (list byte))
  (s_from_slice : list byte -> option SenderDeliveryRecordV2).
Context (ledger_to_vec : ReceiverDataPlaneLedgerV2 -> option (list byte)).
Context (ledger_from_slice : list byte -> option ReceiverDataPlaneLedgerV2).
Context (device_of : path -> Z) (save_to_vec : LocalSaveLedgerV2 -> option (list byte)).
Context {F : Type} `{FileSource F} (gate : ResultGate).
Local Notation provider := (local_sink os blake3 derive_key device_of save_to_vec).
Local Notation start := (@session_start is_nfc blake3 ledger_to_vec ledger_from_slice Provider provider
  (verified_in blake3) (local_sink_safety os blake3 derive_key device_of save_to_vec)).
Local Notation receive := (@ReceivePlane.receive is_nfc blake3 zstd_decompress ledger_to_vec Provider provider gate).
Local Notation send :=
  (SendPlane.send is_nfc blake3 derive_key keyed_hash zstd_compress s_to_vec s_from_slice).

(** C1. Files on disk: in a first session between a sender and a receiver with a
    local provider in which both return, a file that is reported as saved is a
    file of the receiver's disk, staged or (in a direct save) in its final place,
    that has the size and the digest of what the sender read. *)
Theorem local_transfer (content : Z -> list byte) m digest nonce ws ws' wr wr' ss rs i e r :
  (forall eid s s' bytes, source_open eid s = (s', Ok bytes) -> bytes = content eid) ->
  start m wr -> sd_phase (record ws) <> Transferring -> connected ws ws' wr wr' ->
  send (Some m) nonce ws = (ws', Ok ss) -> receive (mkOffer digest m) wr = (wr', Ok rs) ->
  entries m !! i = Some e -> kind e = RegularFile ->
  rsum_entry_results rs !! i = Some r -> er_result r = Saved ->
  exists q c, vec_get (entry_paths (sink wr')) (entry_id e) = Some q /\ located (sink wr') q c /\
    blake3 c = blake3 (payload content e) /\ zlen c = plaintext_size e.
Proof.
  intros Hopen Hs Hphase Hconn Hsend Hrecv He Hf Hr Hsaved.
  exact (proj2 (connected_integrity is_nfc blake3 derive_key keyed_hash zstd_compress zstd_decompress
    s_to_vec s_from_slice ledger_to_vec ledger_from_slice (verified_in blake3) gate content m digest nonce
    ws ws' wr wr' ss rs i e r Hopen Hs Hphase Hconn Hsend Hrecv He Hf Hr Hsaved)).
Qed.
End Local.
