(* ===== verification/CreatePlan.v ===== *)
(** Making a plan: the names it gives to roots are free and their reservations are
    its own, what [create] returns passes the check of a plan's shape, and the accept
    that is made of it is one that both ends take. *)

From stdpp Require Import prelude gmap strings pretty sorting.
From Stdlib Require Import ZArith Lia Strings.Byte.
From S2P Require Import Prelude Bytes ManifestV2 ManifestSpec ValidateTheorem OfferCodec Frames Delivery Ledger Names Proc.
From S2P Require Import LocalFs Destination ReceivePlane LedgerInv Resume Provider ProviderCommit FsProof ProviderSafe DirectSave DestinationProof.

Local Open Scope Z_scope.

(** ** Calls that remove nothing *)

Definition grows (fs fs' : Fs) : Prop := forall q n, nodes fs !! q = Some n -> nodes fs' !! q = Some n.
#[export] Instance grows_preorder : PreOrder grows.
Proof. split; [by intros fs q n|]. intros a b c H1 H2 q n Hq. auto. Qed.
#[export] Instance grows_blind : FaultBlind grows.
Proof. by intros fs rest q n. Qed.

Lemma leaves_grows {E A} (call : proc Fs E A) : leaves (quiet (fun _ => False)) call -> leaves grows call.
Proof. apply leaves_weaken. intros fs fs' _ Hq q n. apply (q_nodes _ _ _ Hq). by intros []. Qed.

Lemma open_new_grows p : leaves grows (open_new p).
Proof.
  apply leaves_grows. unfold open_new. leaves_step; [leaves_leaf|]. intros fs Hwf.
  unfold mbind, proc_bind, get_fs. destruct (nodes fs !! p) eqn:Hp; [by split|]. by apply make_file_leaves.
Qed.
Lemma open_new_ok p fs fs' i :
  open_new p fs = (fs', Ok i) -> nodes fs !! p = None /\ is_Some (nodes fs' !! p).
Proof.
  unfold open_new. intros (fs1 & [] & (Hn & _)%may_fail_ok & Hrun)%bind_ok.
  apply bind_ok in Hrun as (fs2 & fs3 & [= <- <-] & Hrun). rewrite Hn in Hrun.
  destruct (nodes fs !! p) eqn:Hp; [done|]. split; [done|]. unfold make_file in Hrun.
  apply bind_ok in Hrun as (fs2 & fs3 & [= <- <-] & Hrun). destruct (parent_is_dir fs1 p); [|done].
  apply bind_ok in Hrun as (fs2 & [] & [= <-] & [= <- _]). cbn. by rewrite lookup_insert_eq.
Qed.
Lemma write_all_grows i pos bytes : leaves grows (write_all i pos bytes).
Proof.
  intros fs Hwf. destruct (write_all i pos bytes fs) as [fs' r] eqn:Hrun.
  apply write_all_run in Hrun as (part & rest & -> & _). cbn. split; [|by intros q n].
  apply (contents_wf (mkFs (nodes fs) (contents fs) (next_ino fs) rest)). by apply fs_wf_faults.
Qed.

(** The directories that [create_dir_all] makes. *)
Lemma create_dirs_there ps fs fs' q :
  create_dirs ps fs = (fs', Ok tt) -> q ∈ ps -> is_Some (nodes fs' !! q).
Proof.
  assert (Hgrow : forall ps fs fs' r, create_dirs ps fs = (fs', r) -> grows fs fs').
  { clear. induction ps as [|p ps IH]; intros fs fs' r Hrun; [by injection Hrun as <- _|].
    cbn in Hrun. unfold mbind, proc_bind, get_fs, modify_fs, throw in Hrun.
    destruct (nodes fs !! p) as [[i|i]|] eqn:Hp; [by eapply IH|by injection Hrun as <- _|].
    apply IH in Hrun. intros q n Hq. apply Hrun. cbn. rewrite lookup_insert_ne; [done|]. intros ->. congruence. }
  revert fs. induction ps as [|p ps IH]; intros fs Hrun Hq; [by apply not_elem_of_nil in Hq|].
  cbn in Hrun. unfold mbind, proc_bind, get_fs, modify_fs, throw in Hrun.
  destruct (nodes fs !! p) as [[i|i]|] eqn:Hp; [|done|].
  - apply elem_of_cons in Hq as [->|Hq]; [|by eapply IH]. exists (DirNode i). by eapply Hgrow.
  - apply elem_of_cons in Hq as [->|Hq]; [|by eapply IH]. eexists. eapply Hgrow; [exact Hrun|].
    cbn. by rewrite lookup_insert_eq.
Qed.
Lemma create_dir_all_there p q fs fs' :
  create_dir_all p fs = (fs', Ok tt) -> q `prefix_of` p -> is_Some (nodes fs' !! q).
Proof.
  intros (fs1 & f & _ & Hrun)%bind_ok [rel ->]. destruct f as [n|].
  - by apply bind_ok in Hrun as (? & [] & _ & [=]).
  - eapply create_dirs_there; [exact Hrun|]. unfold prefixes. apply list_elem_of_fmap.
    exists (length q). rewrite take_app_length. split; [done|]. apply elem_of_seq. rewrite length_app. lia.
Qed.

Lemma children_in p name ns n : ns !! join p name = Some n -> name ∈ children p ns.
Proof.
  intros Hn. unfold children. apply list_elem_of_omap. exists (join p name, n).
  split; [by apply elem_of_map_to_list|]. cbn. unfold join.
  assert (Hp : parent (p ++ [name]) = Some p).
  { unfold parent. destruct (p ++ [name]) as [|x l] eqn:He; [by destruct p|]. rewrite <- He, removelast_last. done. }
  rewrite Hp, bool_decide_eq_true_2 by done. apply last_snoc.
Qed.

(** ** Reservations *)

Section Reserve.
Context (os : Platform) (to_lowercase : str -> str) (blake3 : list byte -> list byte).
Context (blake3_bytes : forall bytes, length (blake3 bytes) = 32%nat).
Local Notation key := (name_equivalence_key os to_lowercase).
Local Notation reserve_all := (reserve_requested os to_lowercase blake3).

Lemma rfind_dot_last s t : forallb (fun b => negb (is_byte b x2e)) t = true ->
  rfind_dot (s ++ x2e :: t) = Some (length s).
Proof.
  intros Ht. assert (Hnone : rfind_dot t = None).
  { induction t as [|b t IH]; [done|]. cbn in *. bool_prop. rewrite IH by done. by destruct (is_byte b x2e). }
  induction s as [|b s IH]; cbn; [by rewrite Hnone|]. by rewrite IH.
Qed.

Lemma encode_job_id_length id : length (encode_job_id id) = (2 * length id)%nat.
Proof.
  unfold encode_job_id. induction id as [|b id IH]; [done|]. cbn [map concat]. rewrite length_app, IH. cbn. lia.
Qed.

Lemma reservation_shape dir k :
  parent (reservation_path blake3 dir k) = Some dir /\
  extension (reservation_path blake3 dir k) = Some (lit "reservation").
Proof.
  unfold reservation_path, join. set (hex := encode_job_id (blake3 k)).
  assert (Hhex : length hex = 64%nat) by (unfold hex; rewrite encode_job_id_length, blake3_bytes; done).
  split.
  - unfold parent. destruct (dir ++ _) as [|x l] eqn:He; [by destruct dir|]. by rewrite <- He, removelast_last.
  - unfold extension. rewrite last_snoc. cbn [mbind option_bind]. unfold extension_offset.
    change (lit ".reservation") with (x2e :: lit "reservation"). rewrite rfind_dot_last by done.
    destruct (length hex) as [|n] eqn:Hn; [lia|]. cbn [mbind option_bind]. f_equal.
    rewrite <- Hn. change (x2e :: lit "reservation") with ([x2e] ++ lit "reservation").
    rewrite app_assoc, drop_app_ge by (rewrite length_app; cbn; lia). rewrite length_app. cbn.
    by replace (S (length hex) - (length hex + 1))%nat with 0%nat by lia.
Qed.

Lemma write_reservation_grows ino job rid : leaves grows (write_reservation ino job rid).
Proof.
  unfold write_reservation. leaves_step; apply leaves_io_plan; [apply write_all_grows|leaves_leaf].
Qed.
(** One root: its name is free and so was its reservation. *)
Definition reserved_one (dir : path) (occupied : gset str) (fs fs' : Fs) (name : str) (r : path)
    (occupied' : gset str) : Prop :=
  fs_wf fs' /\ grows fs fs' /\ key name ∉ occupied /\ occupied' = {[ key name ]} ∪ occupied /\
  nodes fs !! r = None /\ is_Some (nodes fs' !! r) /\ parent r = Some dir /\
  extension r = Some (lit "reservation").

Lemma reserve_opened dir occupied job rid name fs fs1 fs' i :
  fs_wf fs -> key name ∉ occupied -> open_new (reservation_path blake3 dir (key name)) fs = (fs1, Ok i) ->
  write_reservation i job rid fs1 = (fs', Ok tt) ->
  reserved_one dir occupied fs fs' name (reservation_path blake3 dir (key name)) ({[ key name ]} ∪ occupied).
Proof.
  intros Hwf Hk Ho Hw. destruct (obeys_run _ _ _ _ _ _ (open_new_grows _) Hwf Ho) as [Hwf1 Hg1].
  destruct (obeys_run _ _ _ _ _ _ (write_reservation_grows i job rid) Hwf1 Hw) as [Hwf2 Hg2].
  apply open_new_ok in Ho as [Hnone [n Hn]]. destruct (reservation_shape dir (key name)) as [Hp He].
  split; [done|]. split; [by transitivity fs1|]. do 3 (split; [done|]). split; [by exists n; apply Hg2|done].
Qed.

Lemma reserve_from_ok ns dir base preserve occupied job rid fs fs' name r occupied' :
  fs_wf fs -> reserve_from os to_lowercase blake3 ns dir base preserve occupied job rid fs
    = (fs', Ok (name, r, occupied')) ->
  reserved_one dir occupied fs fs' name r occupied' /\ exists n, n ∈ ns /\ name = candidate_name base preserve n.
Proof.
  revert fs. induction ns as [|n ns IH]; intros fs Hwf Hrun; [done|]. cbn [reserve_from] in Hrun.
  destruct (bool_decide_reflect (key (candidate_name base preserve n) ∈ occupied)) as [Hin|Hout].
  { destruct (IH _ Hwf Hrun) as [H (k & Hk & ->)]. split; [done|]. exists k. split; [by right|done]. }
  apply bind_ok in Hrun as (fs1 & o & Ho%io_plan_ok & Hrun). unfold attempt in Ho.
  destruct (open_new _ fs) as [fs2 r2] eqn:Hopen. injection Ho as <- <-. destruct r2 as [i|[]]; try done.
  - apply bind_ok in Hrun as (fs3 & [] & Hw & [= <- <- <- <-]). split; [by eapply reserve_opened|].
    exists n. split; [by left|done].
  - destruct (obeys_run _ _ _ _ _ _ (open_new_grows _) Hwf Hopen) as [Hwf2 Hg].
    destruct (IH _ Hwf2 Hrun) as [(H1 & H2 & H3 & H4 & H5 & H6 & H7) (k & Hk & ->)].
    split; [|exists k; split; [by right|done]]. split; [done|]. split; [by transitivity fs2|]. do 2 (split; [done|]).
    split; [|done]. destruct (nodes fs !! r) eqn:Hr; [|done]. apply Hg in Hr. congruence.
Qed.

(** All roots. *)
#[local] Opaque SUFFIXES.
Definition reserved_all (dir : path) (occupied : gset str) (fs fs' : Fs) (plans : list RootPlanV2) (rs : list path) : Prop :=
  (fs_wf fs' /\ grows fs fs' /\ Forall (fun r => is_Some (nodes fs' !! r)) rs) /\
  length rs = length plans /\
  NoDup (map (fun rp => key (planned_name rp)) plans) /\
  Forall (fun rp => key (planned_name rp) ∉ occupied) plans /\ NoDup rs /\
  Forall (fun r => nodes fs !! r = None /\ parent r = Some dir /\ extension r = Some (lit "reservation")) rs.

Lemma reserved_cons dir occupied fs fs1 fs' rp r occupied' plans rs :
  reserved_one dir occupied fs fs1 (planned_name rp) r occupied' ->
  reserved_all dir occupied' fs1 fs' plans rs -> reserved_all dir occupied fs fs' (rp :: plans) (r :: rs).
Proof.
  intros (Hwf & Hg & Hk & -> & Hn & Hs & Hp & He) ((Hwf' & Hg' & Hmade) & Hlen & Hnd & Hocc & Hndr & Hall).
  rewrite Forall_forall in Hocc. rewrite Forall_forall in Hall.
  split; [split; [done|]; split; [by transitivity fs1|constructor; [destruct Hs as [n Hs]; exists n; by apply Hg'|done]]|].
  split; [cbn; lia|]. split; [|split; [|split]].
  - cbn. constructor; [|done]. intros (x & Hx & Hin)%list_elem_of_fmap. apply (Hocc x Hin). set_solver.
  - constructor; [done|]. apply Forall_forall. intros x Hx. specialize (Hocc x Hx). set_solver.
  - constructor; [|done]. intros Hin. destruct (Hall r Hin) as [Hnone _]. rewrite Hnone in Hs. by destruct Hs.
  - constructor; [done|]. apply Forall_forall. intros x Hx. destruct (Hall x Hx) as [Hnone Hrest].
    split; [|done]. destruct (nodes fs !! x) eqn:Hfx; [|done]. apply Hg in Hfx. congruence.
Qed.

Lemma reserved_nil dir occupied fs : fs_wf fs -> reserved_all dir occupied fs fs [] [].
Proof. intros Hwf. split; [by split_and!|]. repeat split; try constructor. Qed.

Lemma reserve_requested_ok m dir rs occupied fs fs' plans reserved :
  fs_wf fs -> reserve_all m dir rs occupied fs = (fs', Ok (plans, reserved)) ->
  reserved_all dir occupied fs fs' plans reserved /\
  Forall2 (fun root rp => rp_root_id rp = root_id root /\ exists preserve n, n ∈ SUFFIXES /\
    planned_name rp = candidate_name (provider_safe_component os (requested_name root)) preserve n) rs plans.
Proof.
  revert occupied fs plans reserved. induction rs as [|root rs IH]; intros occupied fs plans reserved Hwf Hrun.
  { injection Hrun as <- <- <-. split; [by apply reserved_nil|constructor]. }
  cbn [reserve_requested] in Hrun. apply bind_ok in Hrun as (fs1 & e & [_ ->]%pure_ok & Hrun).
  apply bind_ok in Hrun as (fs1 & [[name r] occupied1] & H1 & Hrun). unfold reserve_keep_both_name in H1.
  destruct (reserve_from_ok _ _ _ _ _ _ _ _ _ _ _ _ Hwf H1) as [Hone (n & Hn & ->)].
  apply bind_ok in Hrun as (fs2 & [plans2 reserved2] & H2 & [= <- <- <-]).
  destruct (IH _ _ _ _ (proj1 Hone) H2) as [Hall Hf]. split.
  - by eapply reserved_cons.
  - constructor; [|done]. split; [done|]. by eexists _, n.
Qed.

Lemma reserve_preplanned_ok dir rs occupied job fs fs' plans reserved :
  fs_wf fs -> reserve_preplanned os to_lowercase blake3 dir rs occupied job fs = (fs', Ok (plans, reserved)) ->
  reserved_all dir occupied fs fs' plans reserved /\ plans = rs.
Proof.
  revert occupied fs plans reserved. induction rs as [|root rs IH]; intros occupied fs plans reserved Hwf Hrun.
  { injection Hrun as <- <- <-. split; [by apply reserved_nil|done]. }
  cbn [reserve_preplanned] in Hrun. apply bind_ok in Hrun as (fs1 & [r occupied1] & H1 & Hrun).
  assert (Hone : reserved_one dir occupied fs fs1 (planned_name root) r occupied1).
  { unfold reserve_exact_name in H1. case_bool_decide as Hin; [done|].
    apply bind_ok in H1 as (fs2 & o & Ho%io_plan_ok & H1). unfold attempt in Ho.
    destruct (open_new _ fs) as [fs3 r2] eqn:Hopen. injection Ho as <- <-. destruct r2 as [i|[]]; try done.
    apply bind_ok in H1 as (fs4 & [] & Hw & [= <- <- <-]). by eapply reserve_opened. }
  apply bind_ok in Hrun as (fs2 & [plans2 reserved2] & H2 & [= <- <- <-]).
  destruct (IH _ _ _ _ (proj1 Hone) H2) as [Hall ->]. split; [|done]. by eapply reserved_cons.
Qed.
End Reserve.

(** ** The calls before the reservations *)

(** What is at the paths of [P] stays there. *)
Definition spares (P : path -> Prop) (fs fs' : Fs) : Prop :=
  forall q, P q -> is_Some (nodes fs !! q) -> is_Some (nodes fs' !! q).
#[export] Instance spares_preorder P : PreOrder (spares P).
Proof. split; [by intros fs q|]. intros a b c H1 H2 q Hq Hn. auto. Qed.
#[export] Instance spares_blind P : FaultBlind (spares P).
Proof. by intros fs rest q. Qed.

Section Spares.
Context (P : path -> Prop).

Lemma quiet_spares {E A} T (call : proc Fs E A) : (forall q, P q -> ~ T q) -> leaves (quiet T) call -> leaves (spares P) call.
Proof.
  intros HT. apply leaves_weaken. intros fs fs' _ Hq q Hp [n Hn]. exists n. apply (q_nodes _ _ _ Hq); [by apply HT|done].
Qed.
Lemma grows_spares {E A} (call : proc Fs E A) : leaves grows call -> leaves (spares P) call.
Proof. apply leaves_weaken. intros fs fs' _ Hg q _ [n Hn]. exists n. by apply Hg. Qed.

Lemma leaves_write_file p bytes : leaves (spares P) (write_file p bytes).
Proof.
  unfold write_file. leaves_step; [leaves_leaf|]. intros fs Hwf. unfold mbind, proc_bind, get_fs, modify_fs, throw_if.
  destruct (nodes fs !! p) as [[i|i]|] eqn:Hp; [by split| |].
  - split; [cbn; by eapply set_contents_leaves|by intros q _].
  - match goal with |- context [make_file p ?b fs] =>
      destruct (make_file_leaves (fun _ => False) p b fs Hwf Hp) as [H1 Hq];
      destruct (make_file p b fs) as [fs1 [i|e]]; (split; [done|]);
      intros q _ [n Hn]; exists n; apply (q_nodes _ _ _ Hq); [by intros []|done|by intros []|done] end.
Qed.
Lemma leaves_ignore R `{!PreOrder R} call : leaves R call -> leaves R (ignore_error call).
Proof. intros Hc. unfold ignore_error. leaves_step; [by leaves_step|leaves_leaf]. Qed.
Lemma leaves_remove_spares p : (forall q, P q -> q <> p) -> leaves (spares P) (remove_file p).
Proof. intros Hp. eapply quiet_spares; [|apply leaves_remove_file]. intros q Hq <-. by apply (Hp p). Qed.
Lemma leaves_rename_spares a b : (forall q, P q -> ~ a `prefix_of` q) -> leaves (spares P) (exclusive_rename a b).
Proof.
  intros Ha. unfold exclusive_rename. leaves_step; [leaves_leaf|]. intros fs Hwf. unfold mbind, proc_bind, get_fs.
  destruct (bool_decide (nodes fs !! a = None) || _) eqn:Hg; [by split|]. bool_prop.
  destruct (bool_decide (is_Some (nodes fs !! b))) eqn:Hd; [by split|].
  apply bool_decide_eq_false, eq_None_not_Some in Hd.
  destruct (starts_with b a) eqn:Hsd; [by split|]. split; [by apply renamed_wf|].
  intros q Hq [n Hn]. exists n. cbn. rewrite (renamed_lookup fs a b q Hwf Hd Hsd). unfold starts_with.
  rewrite (bool_decide_eq_false_2 (a `prefix_of` q)) by by apply Ha.
  destruct (bool_decide_reflect (b `prefix_of` q)) as [H1|H1]; [|done]. exfalso.
  destruct (decide (q = b)) as [->|Hne]; [congruence|].
  exact (nothing_below _ _ _ _ Hwf (absent_is_no_dir _ _ Hd) H1 Hne Hn).
Qed.
Lemma leaves_dirs_spares p : leaves (spares P) (create_dir_all p).
Proof. eapply (quiet_spares (fun _ => False)); [by intros q _ []|]. auto with fs_leaves. Qed.

(** Neither of the probe's files is above them. *)
Definition unprobed (token : str) (directory : path) : Prop := forall q, P q -> forall side,
  side = lit ".source" \/ side = lit ".target" ->
  ~ join directory (lit ".envoix-rename-probe-" ++ token ++ side) `prefix_of` q.
Lemma leaves_probe token dir : unprobed token dir -> leaves (spares P) (exclusive_rename_probe token dir).
Proof.
  intros Hp. unfold exclusive_rename_probe.
  set (s := join dir (lit ".envoix-rename-probe-" ++ token ++ lit ".source")).
  set (d := join dir (lit ".envoix-rename-probe-" ++ token ++ lit ".target")).
  assert (Hs : forall q, P q -> ~ s `prefix_of` q) by (intros q Hq; apply Hp; auto).
  assert (Hd : forall q, P q -> q <> d) by (intros q Hq ->; eapply (Hp d Hq); [by right|done]).
  assert (Hs' : forall q, P q -> q <> s) by (intros q Hq ->; by apply (Hs s)).
  pose proof (leaves_remove_spares s Hs') as Hrs. pose proof (leaves_remove_spares d Hd) as Hrd.
  pose proof (leaves_rename_spares s d Hs) as Hren. pose proof leaves_write_file as Hw.
  do 2 (leaves_step; [apply leaves_ignore; [apply _|done]|]). do 2 (leaves_step; [apply Hw|]).
  leaves_step; [by leaves_step|]. do 3 (leaves_step; [leaves_leaf|]). leaves_step; [done|].
  leaves_step; [by leaves_step|]. do 2 (leaves_step; [apply leaves_ignore; [apply _|done]|]). leaves_leaf.
Qed.
End Spares.
#[local] Hint Resolve leaves_dirs_spares : fs_leaves.
Lemma leaves_same_domain R `{!PreOrder R} `{!FaultBlind R} volume_of a b :
  leaves R (same_storage_domain volume_of a b).
Proof.
  unfold same_storage_domain. do 2 (leaves_step; [apply local_domain_quiet; apply _|]). leaves_leaf.
Qed.

Lemma canonicalize_ok p fs fs' q : canonicalize p fs = (fs', Ok q) -> q = p.
Proof.
  unfold canonicalize. intros (fs1 & [] & _ & Hrun)%bind_ok. by apply bind_ok in Hrun as (? & ? & _ & [= _ <-]).
Qed.

(** What is in the directory is among the names that are taken, also the private
    directories. *)
Lemma present_taken os to_lowercase dir name fs fs' occupied :
  is_Some (nodes fs !! join dir name) -> io_plan (destination_names os to_lowercase dir) fs = (fs', Ok occupied) ->
  name_equivalence_key os to_lowercase name ∈ occupied.
Proof.
  intros [n Hnode] Hd. apply io_plan_ok in Hd. unfold destination_names in Hd.
  apply bind_ok in Hd as (fs6 & names & (_ & _ & ->)%read_dir_ok & [= _ <-]).
  apply elem_of_list_to_set, list_elem_of_fmap. exists name. split; [done|]. by eapply children_in.
Qed.
Lemma private_taken os to_lowercase dir name rest fs fs1 fs2 fs3 occupied :
  fs_wf fs -> private_directory (join dir name ++ rest) fs = (fs1, Ok tt) ->
  grows fs1 fs2 -> io_plan (destination_names os to_lowercase dir) fs2 = (fs3, Ok occupied) ->
  name_equivalence_key os to_lowercase name ∈ occupied.
Proof.
  intros Hwf Hp Hg Hd. unfold private_directory in Hp.
  apply bind_ok in Hp as (fs5 & [] & Hc%io_plan_ok & (Hn & _)%io_plan_ok%may_fail_ok).
  destruct (create_dir_all_there _ (join dir name) _ _ Hc) as [n Hnode]; [by eexists|].
  rewrite <- Hn in Hnode. apply Hg in Hnode. eapply present_taken; [by eexists|exact Hd].
Qed.

Section Create.
Context (os : Platform) (to_lowercase : str -> str) (is_nfc : str -> bool).
Context (blake3 : list byte -> list byte) (volume_of : path -> str).
Context (blake3_bytes : forall bytes, length (blake3 bytes) = 32%nat).
Local Notation key := (name_equivalence_key os to_lowercase).
Local Notation create := (create os to_lowercase blake3 volume_of).
Local Notation discover := (discover_known_reuse_entries os blake3).

Lemma private_directory_grows p : leaves grows (private_directory p).
Proof.
  unfold private_directory. leaves_step; apply leaves_io_plan; [|leaves_leaf].
  apply leaves_grows. auto with fs_leaves.
Qed.
Lemma destination_names_grows dir : leaves grows (destination_names os to_lowercase dir).
Proof. unfold destination_names. leaves_go. Qed.

(** What the reserved names are. *)
Definition names_made (m : ManifestV2) (request : DestinationRequestV2) (plans : list RootPlanV2) : Prop :=
  match preplanned_root_names request with
  | Some preplanned => validate_preplanned_roots os to_lowercase m preplanned = Ok tt /\ plans = preplanned
  | None => Forall2 (fun root rp => rp_root_id rp = root_id root /\ exists preserve n, n ∈ SUFFIXES /\
      planned_name rp = candidate_name (provider_safe_component os (requested_name root)) preserve n) (roots m) plans
  end.

(** The part of [create] that reserves. *)
Lemma create_reserves m request target staging mode fs fs1 fs2 fs3 fs4 occupied plans reserved :
  fs_wf fs -> (mode = DirectSave -> exists rest, staging = join target STAGING_NAME ++ rest) ->
  private_directory staging fs = (fs1, Ok tt) ->
  private_directory (join target RESERVATIONS_NAME) fs1 = (fs2, Ok tt) ->
  io_plan (destination_names os to_lowercase target) fs2 = (fs3, Ok occupied) ->
  match preplanned_root_names request with
  | Some preplanned =>
    _ ← pure (validate_preplanned_roots os to_lowercase m preplanned);
    reserve_preplanned os to_lowercase blake3 (join target RESERVATIONS_NAME) preplanned occupied (job_id m)
  | None => reserve_requested os to_lowercase blake3 m (join target RESERVATIONS_NAME) (roots m) occupied
  end fs3 = (fs4, Ok (plans, reserved)) ->
  reserved_all os to_lowercase (join target RESERVATIONS_NAME) occupied fs3 fs4 plans reserved /\
  names_made m request plans /\
  (mode = DirectSave -> key STAGING_NAME ∈ occupied) /\ key RESERVATIONS_NAME ∈ occupied /\
  grows fs fs3 /\ (forall name, is_Some (nodes fs !! join target name) -> key name ∈ occupied).
Proof.
  intros Hwf Hst H1 H2 H3 H4.
  destruct (obeys_run _ _ _ _ _ _ (private_directory_grows _) Hwf H1) as [Hwf1 Hg1].
  destruct (obeys_run _ _ _ _ _ _ (private_directory_grows _) Hwf1 H2) as [Hwf2 Hg2].
  destruct (obeys_run _ _ _ _ _ _ (leaves_io_plan _ _ (destination_names_grows _)) Hwf2 H3) as [Hwf3 Hg3].
  assert (Hpriv : (mode = DirectSave -> key STAGING_NAME ∈ occupied) /\ key RESERVATIONS_NAME ∈ occupied).
  { split.
    - intros Hm. destruct (Hst Hm) as [rest Heq]. rewrite Heq in H1.
      eapply private_taken; [exact Hwf|exact H1|exact Hg2|exact H3].
    - rewrite <- (app_nil_r (join target RESERVATIONS_NAME)) in H2.
      eapply private_taken; [exact Hwf1|exact H2| |exact H3]. reflexivity. }
  assert (Hgrown : grows fs fs3) by (transitivity fs1; [done|]; by transitivity fs2).
  assert (Hthere : forall name, is_Some (nodes fs !! join target name) -> key name ∈ occupied).
  { intros name [n Hn]. eapply present_taken; [|exact H3]. exists n. by apply Hg2, Hg1. }
  unfold names_made. destruct (preplanned_root_names request) as [preplanned|].
  - apply bind_ok in H4 as (fs5 & [] & [Hval ->]%pure_ok & H4).
    destruct (reserve_preplanned_ok os to_lowercase blake3 blake3_bytes _ _ _ _ _ _ _ _ Hwf3 H4) as [Hall ->].
    destruct Hpriv. by split_and!.
  - destruct (reserve_requested_ok os to_lowercase blake3 blake3_bytes _ _ _ _ _ _ _ _ Hwf3 H4) as [Hall Hf].
    destruct Hpriv. by split_and!.
Qed.

Lemma discover_grows m target stable : leaves grows (discover m target stable).
Proof.
  unfold discover_known_reuse_entries. destruct stable; [|leaves_leaf].
  induction (roots m) as [|root rs IH]; cbn [discover_from]; [leaves_leaf|].
  leaves_step; [leaves_leaf|]. leaves_step; [|leaves_step; [exact IH|leaves_leaf]].
  repeat first [leaves_step | apply leaves_io_plan].
Qed.

(** What is known of a plan that was made. *)
Lemma created P token offer request fs fs' plan :
  fs_wf fs -> unprobed P token (dr_target_directory request) -> create token offer request fs = (fs', Ok plan) ->
  let m := manifest offer in
  pl_job_id plan = job_id m /\ pl_generation plan = generation m /\ pl_plan_revision plan = 1 /\
  pl_target_directory plan = dr_target_directory request /\
  (pl_mode plan = DirectSave -> join (pl_target_directory plan) STAGING_NAME `prefix_of` pl_staging_directory plan) /\
  names_made m request (pl_root_plans plan) /\
  (exists occupied fs1 fs2 fs3, spares P fs fs1 /\ grows fs1 fs2 /\ grows fs3 fs' /\
     reserved_all os to_lowercase (join (pl_target_directory plan) RESERVATIONS_NAME) occupied fs2 fs3
       (pl_root_plans plan) (reservations plan) /\
     (pl_mode plan = DirectSave -> key STAGING_NAME ∈ occupied) /\ key RESERVATIONS_NAME ∈ occupied /\
     (forall name, is_Some (nodes fs1 !! join (pl_target_directory plan) name) -> key name ∈ occupied)) /\
  exists stable fs1 fs2, discover m (pl_target_directory plan) stable fs1 = (fs2, Ok (reuse_entry_ids plan)).
Proof.
  intros Hwf Hprobe Hrun m. unfold Destination.create in Hrun. fold m in Hrun.
  apply bind_ok in Hrun as (f1 & [] & H & Hrun).
  eapply (obeys_run fs_wf (spares P)) in H as [Hwf1 Hs1]; [|apply leaves_io_plan; leaves_leaf|done].
  apply bind_ok in Hrun as (f2 & target & H & Hrun). pose proof H as ->%io_plan_ok%canonicalize_ok.
  eapply (obeys_run fs_wf (spares P)) in H as [Hwf2 Hs2]; [|apply leaves_io_plan; leaves_leaf|done].
  apply bind_ok in Hrun as (f3 & copy & H & Hrun).
  eapply (obeys_run fs_wf (spares P)) in H as [Hwf3 Hs3]; [|leaves_go; apply leaves_io_plan; leaves_leaf|done].
  apply bind_ok in Hrun as (f4 & available & [_ ->]%pure_ok & Hrun).
  apply bind_ok in Hrun as (f4 & [] & [_ ->]%throw_if_ok & Hrun).
  apply bind_ok in Hrun as (f4 & direct & H & Hrun). cbn [exclusive_rename_supported] in H.
  eapply (obeys_run fs_wf (spares P)) in H as [Hwf4 Hs4]; [|by apply leaves_io_plan, leaves_probe|done].
  apply bind_ok in Hrun as (f5 & mode & H & Hrun).
  assert (f5 = f4) as ->.
  { destruct (dr_decision request); [destruct direct|]; by injection H. }
  apply bind_ok in Hrun as (f5 & [] & [_ ->]%throw_if_ok & Hrun).
  apply bind_ok in Hrun as (f5 & same & H5 & Hrun).
  eapply (obeys_run fs_wf (spares P)) in H5 as [Hwf5 Hs5];
    [|leaves_go; apply leaves_io_plan; first [leaves_leaf|apply leaves_same_domain; apply _]|done].
  apply bind_ok in Hrun as (f6 & [] & [_ ->]%pure_ok & Hrun).
  apply bind_ok in Hrun as (f6 & staging & H6 & Hrun).
  assert (Hst : f6 = f5 /\ (mode = DirectSave -> exists rest,
    staging = join (dr_target_directory request) STAGING_NAME ++ rest)).
  { destruct mode; [injection H6 as -> <-; split; [done|]; intros _; by eexists|].
    apply bind_ok in H6 as (f7 & s & [_ ->]%pure_ok & [= <- _]). done. }
  destruct Hst as [-> Hst].
  apply bind_ok in Hrun as (f6 & [] & H7 & Hrun). apply bind_ok in Hrun as (f7 & [] & H8 & Hrun).
  apply bind_ok in Hrun as (f8 & occupied & H9 & Hrun).
  apply bind_ok in Hrun as (f9 & [plans reserved] & H10 & Hrun).
  destruct (create_reserves m request _ staging mode _ _ _ _ _ _ _ _ Hwf5 Hst H7 H8 H9 H10)
    as (Hall & Hnames & Hpriv & Hres & Hgrown & Hthere).
  apply bind_ok in Hrun as (f10 & reuse & H11 & Hrun). apply bind_ok in Hrun as (f11 & dom & H12 & [= <- <-]).
  pose proof (proj1 (proj1 Hall)) as Hwf9.
  assert (Hlast : grows f9 f11).
  { destruct (obeys_run _ _ _ _ _ _ (discover_grows _ _ _) Hwf9 H11) as [Hwf10 Hg].
    eapply (obeys_run fs_wf grows) in H12 as [_ Hg']; [by transitivity f10| |done].
    apply leaves_io_plan, local_domain_quiet; apply _. }
  cbn. do 4 (split; [done|]). split; [intros Hm; destruct (Hst Hm) as [rest ->]; by eexists|].
  split; [done|]. split; [|by eexists _, f9, f10].
  exists occupied, f5, f8, f9. split; [|by split_and!]. by repeat (etrans; [eassumption|]).
Qed.

(** ** The shape of a plan that was made *)

Lemma root_names_ok rs index :
  0 <= index -> index + zlen rs <= 2 ^ 32 ->
  (forall i r, rs !! i = Some r -> rp_root_id r = index + Z.of_nat i /\ planned_name r <> [] /\
     provider_safe_component os (planned_name r) = planned_name r) ->
  root_names_invalid os index rs = false.
Proof.
  revert index. induction rs as [|r rs IH]; intros index H0 Hmax Hall; [done|]. cbn [root_names_invalid].
  destruct (Hall 0%nat r eq_refl) as (Hid & Hne & Hsafe). unfold zlen in Hmax. cbn in Hmax.
  assert (Hu : as_u32 index = index) by (unfold as_u32; rewrite Z.mod_small; lia).
  rewrite Hid, Hu, Hsafe, (bool_decide_eq_false_2 (planned_name r = [])), bool_decide_eq_true_2, IH by
    (done || (unfold zlen; lia) || (intros i x Hi; destruct (Hall (S i) x Hi) as (-> & H2); split; [lia|done])).
  rewrite Z.add_0_r, Z.eqb_refl. done.
Qed.

Lemma preplanned_spec rs index names i r :
  preplanned_invalid os to_lowercase index rs names = false -> rs !! i = Some r ->
  rp_root_id r = as_u32 (index + Z.of_nat i) /\ planned_name r <> [] /\
  provider_safe_component os (planned_name r) = planned_name r.
Proof.
  revert index names i. induction rs as [|r0 rs IH]; intros index names i Hinv Hr; [done|].
  cbn [preplanned_invalid] in Hinv. rewrite !orb_false_iff in Hinv. destruct Hinv as ((((H1 & H2) & H3) & _) & H5).
  destruct i as [|i].
  - injection Hr as ->. rewrite Z.add_0_r. bool_prop. done.
  - destruct (IH _ _ _ H5 Hr) as (-> & H). split; [f_equal; lia|done].
Qed.

(** Root entries follow each other in the order of the roots. *)
Lemma root_entries_increase m i j ri rj :
  valid_manifest is_nfc m -> (i < j)%nat -> roots m !! i = Some ri -> roots m !! j = Some rj ->
  root_entry_id ri < root_entry_id rj.
Proof.
  intros Hv Hij Hi Hj.
  destruct (vr_entry _ _ _ _ (vm_root _ _ Hv _ _ Hi)) as (ei & [Hi0 Hei]%vec_get_Some & _ & Hri & _).
  destruct (vr_entry _ _ _ _ (vm_root _ _ Hv _ _ Hj)) as (ej & [Hj0 Hej]%vec_get_Some & _ & Hrj & _).
  rewrite (vr_id _ _ _ _ (vm_root _ _ Hv _ _ Hi)) in Hri. rewrite (vr_id _ _ _ _ (vm_root _ _ Hv _ _ Hj)) in Hrj.
  destruct (Z.lt_trichotomy (root_entry_id ri) (root_entry_id rj)) as [|[Heq|Hgt]]; [done| |].
  - rewrite Heq, Hej in Hei. injection Hei as <-. lia.
  - exfalso. pose proof (vm_order _ _ Hv) as Hord.
    pose proof (lookup_lt_Some _ _ _ Hei) as Hli. pose proof (lookup_lt_Some _ _ _ Hej) as Hlj.
    assert (Hlt : position_lt m (Z.to_nat (root_entry_id rj)) (Z.to_nat (root_entry_id ri))).
    { set (b := Z.to_nat (root_entry_id ri)) in *.
      replace (length (entries m)) with (b + (length (entries m) - b))%nat in Hord by lia.
      rewrite seq_app in Hord. eapply StronglySorted_app_1_elem_of; [exact Hord|..]; apply elem_of_seq; lia. }
    destruct Hlt as (a & b & Ha & Hb & [Hlt|[Heq _]]); rewrite Hej in Ha; rewrite Hei in Hb;
      injection Ha as <-; injection Hb as <-; lia.
Qed.

Lemma increasing_cons x l : Forall (fun y => x < y) l -> not_increasing l = false -> not_increasing (x :: l) = false.
Proof.
  intros Hall Hl. destruct l as [|y l]; [done|]. cbn [not_increasing]. inversion Hall; subst.
  destruct (Z.leb_spec y x); [lia|]. done.
Qed.

Lemma discover_from_increasing m target k fs fs' ids :
  valid_manifest is_nfc m ->
  discover_from os blake3 m target (drop k (roots m)) fs = (fs', Ok ids) ->
  not_increasing ids = false /\
  Forall (fun eid => exists i r, (k <= i)%nat /\ roots m !! i = Some r /\ eid = root_entry_id r) ids.
Proof.
  intros Hv. remember (drop k (roots m)) as rs eqn:Hrs. revert k fs fs' ids Hrs.
  induction rs as [|root rs IH]; intros k fs fs' ids Hrs Hrun; [by injection Hrun as _ <-|].
  assert (Hroot : roots m !! k = Some root).
  { pose proof (f_equal (lookup 0%nat) Hrs) as H. rewrite lookup_drop, Nat.add_0_r in H. by symmetry. }
  cbn [discover_from] in Hrun. apply bind_ok in Hrun as (fs1 & e & [He ->]%pure_ok & Hrun).
  apply bind_ok in Hrun as (fs1 & found & _ & Hrun). apply bind_ok in Hrun as (fs2 & rest & Hrest & [= _ <-]).
  destruct (IH (S k) _ _ _ ltac:(rewrite <- Nat.add_1_r, <- drop_drop, <- Hrs; done) Hrest) as [Hinc Hall].
  assert (Hall' : Forall (fun eid => exists i r, (k <= i)%nat /\ roots m !! i = Some r /\ eid = root_entry_id r) rest).
  { eapply Forall_impl; [exact Hall|]. cbn. intros eid (i & r & Hi & Hr). exists i, r. split; [lia|done]. }
  destruct found; [|done].
  destruct (vec_get (entries m) (root_entry_id root)) as [e'|] eqn:Hve; [|done]. injection He as ->.
  pose proof Hve as [H0 He]%vec_get_Some. assert (Hid : entry_id e = root_entry_id root).
  { rewrite (ve_id _ _ _ _ (vm_entry _ _ Hv _ _ He)). lia. }
  split.
  - apply increasing_cons; [|done]. eapply Forall_impl; [exact Hall|]. cbn. intros eid (i & r & Hi & Hr & ->).
    rewrite Hid. eapply (root_entries_increase m k i); [done|lia|done|done].
  - constructor; [|done]. exists k, root. split; [lia|done].
Qed.

(** The names of the roots, in order. *)
Lemma names_made_roots m request plans :
  wf_manifest m = true -> valid_manifest is_nfc m -> names_made m request plans ->
  length plans = length (roots m) /\
  forall i r, plans !! i = Some r -> rp_root_id r = Z.of_nat i /\ planned_name r <> [].
Proof.
  intros Hwf Hv. unfold names_made. pose proof (proj2 (vm_roots_bound _ _ Hv)) as Hmax. unfold zlen in Hmax.
  destruct (preplanned_root_names request) as [pre|].
  - intros [Hval ->]. unfold validate_preplanned_roots in Hval. destruct (_ || _) eqn:Hg; [done|]. bool_prop.
    unfold zlen in *. split; [lia|]. intros i r Hr. pose proof (lookup_lt_Some _ _ _ Hr).
    destruct (preplanned_spec _ _ _ _ _ ltac:(eassumption) Hr) as (-> & Hne & _). split; [|done].
    unfold as_u32. rewrite Z.mod_small; [lia|]. unfold MAX_MANIFEST_V2_ROOTS in Hmax. lia.
  - intros Hf. split; [symmetry; by eapply Forall2_length|]. intros i r Hr.
    destruct (Forall2_lookup_r _ _ _ _ _ Hf Hr) as (root & Hroot & Hid & preserve & n & Hn & Hname).
    pose proof (vm_root _ _ Hv _ _ Hroot) as Hvr. split; [rewrite Hid; apply (vr_id _ _ _ _ Hvr)|].
    rewrite Hname. apply (candidate_name_ok _ n preserve); [|done]. apply provider_safe_name.
    eapply safe_component_name; [|apply (vr_name _ _ _ _ Hvr)].
    pose proof (wf_manifest_root _ _ Hwf (list_elem_of_lookup_2 _ _ _ Hroot)) as Hw. unfold wf_root in Hw. by bool_prop.
Qed.

Lemma join_inj target a b rest : join target a `prefix_of` join target b ++ rest -> a = b.
Proof. unfold join. intros [k Hk]. rewrite <- !app_assoc in Hk. apply app_inv_head in Hk. by injection Hk. Qed.
(** What [create] finds in the target directory and below it, but for the files of
    its probe, is there until it lists the names. *)
Definition in_target (target : path) (q : path) : Prop :=
  exists name rest, q = join target name ++ rest /\ (name = LEDGERS_NAME \/ name = RESERVATIONS_NAME).
Lemma in_target_unprobed token target : unprobed (in_target target) token target.
Proof.
  intros q (name & rest & -> & Hname) side _ Hp%join_inj. by destruct Hname as [-> | ->].
Qed.

(** C25. On every platform but Windows, where names are rewritten, a plan that
    [create] returns for a valid manifest passes the check of its shape, so that it
    can be stored, loaded and opened: root names are distinct under the platform's
    comparison, and so are their reservations, files that were not there before
    [create] and are when it returns.  In a direct save no root has the name of the
    staging directory or of the directory of the reservations, nor that of the
    directory of the ledgers where this one is there already. *)
Theorem created_plan_valid token offer request fs fs' plan :
  os <> Windows -> wf_manifest (manifest offer) = true -> valid_manifest is_nfc (manifest offer) ->
  fs_wf fs -> create token offer request fs = (fs', Ok plan) ->
  validate_shape os to_lowercase plan = Ok tt /\
  Forall (fun r => nodes fs !! r = None /\ is_Some (nodes fs' !! r)) (reservations plan) /\
  (pl_mode plan = DirectSave -> plan_private plan /\
     (is_Some (nodes fs !! join (pl_target_directory plan) LEDGERS_NAME) ->
      Forall (fun rp => planned_name rp <> LEDGERS_NAME) (pl_root_plans plan))).
Proof.
  intros Hos Hwfm Hv Hwf Hrun. set (m := manifest offer) in *.
  destruct (created _ _ _ _ _ _ _ Hwf (in_target_unprobed token _) Hrun) as (Hj & Hg & Hr & Ht & Hst & Hnames &
    (occ & fs1 & fs2 & fs3 & Hspares & Hg12 & Hg3 & Hall & Hpriv & Hresv & Hthere) & stable & f1 & f2 & Hdisc).
  fold m in Hj, Hg, Hnames, Hdisc. destruct Hall as ((_ & _ & Hmade) & Hlen & Hndk & Hocc & Hndr & Hres).
  assert (Hid : forall c, provider_safe_component os c = c) by (by destruct os).
  assert (Hroots : length (pl_root_plans plan) = length (roots m) /\
    forall i r, pl_root_plans plan !! i = Some r -> rp_root_id r = Z.of_nat i /\ planned_name r <> []).
  { by eapply names_made_roots. }
  destruct Hroots as [Hcount Hroots]. pose proof (vm_roots_bound _ _ Hv) as [Hne Hmax]. unfold zlen in Hmax.
  rewrite Forall_forall in Hres. split.
  - assert (Hs1 : size (list_to_set (map (fun r => key (planned_name r)) (pl_root_plans plan)) : gset str)
      = length (pl_root_plans plan)) by (by rewrite size_list_to_set, length_map).
    assert (Hs2 : size (list_to_set (reservations plan) : gset path) = length (reservations plan))
      by (by apply size_list_to_set).
    assert (Hinc : not_increasing (reuse_entry_ids plan) = false).
    { unfold discover_known_reuse_entries in Hdisc. destruct stable; [|by injection Hdisc as _ <-].
      by eapply (discover_from_increasing m _ 0). }
    assert (Hnm : root_names_invalid os 0 (pl_root_plans plan) = false).
    { apply root_names_ok; [done|unfold zlen, MAX_MANIFEST_V2_ROOTS in *; lia|].
      intros i r Hr'. destruct (Hroots i r Hr') as [-> ?]. split; [lia|]. split; [done|apply Hid]. }
    assert (Hempty : pl_root_plans plan <> []).
    { intros Heq. rewrite Heq in Hcount. by apply Hne, nil_length_inv. }
    pose proof (vm_job_id _ _ Hv) as Hjob. change (Z.to_nat JOB_ID_BYTES) with 16%nat in Hjob.
    unfold validate_shape. rewrite Hj, Hg, Hr, Hs1, Hs2, Hinc, Hnm. unfold zlen. rewrite Hlen, !Z.eqb_refl.
    rewrite (proj2 (Z.eqb_neq _ _) (vm_generation _ _ Hv)).
    rewrite (bool_decide_eq_false_2 (job_id m = _)), (bool_decide_eq_false_2 (pl_root_plans plan = [])) by done.
    cbn [negb orb Z.eqb].
    destruct (existsb _ (reservations plan)) eqn:Hex.
    { apply existsb_exists in Hex as (r & Hin%list_elem_of_In & Hbad). destruct (Hres r Hin) as (_ & Hp & He).
      rewrite Hp, He in Hbad. by rewrite !bool_decide_eq_true_2 in Hbad. }
    destruct (bool_decide_reflect (pl_mode plan = DirectSave)) as [Hm|]; [|done]. cbn [andb].
    unfold starts_with. by rewrite bool_decide_eq_true_2 by (by apply Hst).
  - split.
    + apply Forall_forall. intros r Hin. rewrite Forall_forall in Hmade. destruct (Hres r Hin) as (Hnone & Hp & _).
      split; [|destruct (Hmade r Hin) as [n Hn]; exists n; by apply Hg3].
      destruct (nodes fs !! r) as [n|] eqn:Hn; [|done]. exfalso.
      destruct (Hspares r) as [n' Hn']; [|by exists n|apply Hg12 in Hn'; congruence].
      exists RESERVATIONS_NAME. unfold parent in Hp. destruct r as [|x l]; [done|]. injection Hp as Hp.
      exists [List.last (x :: l) []]. rewrite <- Ht, <- Hp. split; [by apply app_removelast_last|by right].
    + rewrite Forall_forall in Hocc. intros Hm. split.
      * split; [|by rewrite Hm]. intros _ rid rp [_ Hrp]%vec_get_Some.
        specialize (Hocc rp (list_elem_of_lookup_2 _ _ _ Hrp)). split; intros Heq; rewrite Heq in Hocc; auto.
      * intros Hled. apply Forall_forall. intros rp Hin Heq. specialize (Hocc rp Hin). rewrite Heq in Hocc.
        apply Hocc, Hthere, Hspares; [|done]. exists LEDGERS_NAME, []. rewrite app_nil_r, Ht. auto.
Qed.
End Create.

(** ** The accept *)

Section Accept.
Context (os : Platform) (to_lowercase : str -> str) (is_nfc : str -> bool).
Context (blake3 : list byte -> list byte).

Lemma root_names_spec rs index i r :
  root_names_invalid os index rs = false -> rs !! i = Some r -> rp_root_id r = as_u32 (index + Z.of_nat i).
Proof.
  revert index i. induction rs as [|r0 rs IH]; intros index i Hinv Hr; [done|].
  cbn [root_names_invalid] in Hinv. rewrite !orb_false_iff in Hinv. destruct Hinv as (((H1 & _) & _) & H4).
  destruct i as [|i]; [injection Hr as ->; rewrite Z.add_0_r; by bool_prop|].
  rewrite (IH _ _ H4 Hr). f_equal. lia.
Qed.

Lemma check_root_plans_ok index rs plans :
  (forall i r, rs !! i = Some r -> root_id r = as_u32 (index + Z.of_nat i)) ->
  (forall i p, plans !! i = Some p -> rp_root_id p = as_u32 (index + Z.of_nat i)) ->
  check_root_plans index rs plans = Ok tt.
Proof.
  revert index plans. induction rs as [|r rs IH]; intros index [|p plans] Hr Hp; try done. cbn.
  pose proof (Hr 0%nat r eq_refl) as H1. pose proof (Hp 0%nat p eq_refl) as H2. rewrite Z.add_0_r in H1, H2.
  rewrite H1, H2, !Z.eqb_refl. cbn. apply IH; intros i x Hx.
  - rewrite (Hr (S i) x Hx). f_equal. lia.
  - rewrite (Hp (S i) x Hx). f_equal. lia.
Qed.

(** The plan of one entry. *)
Definition initial_entry_plan (reuse : list Z) (e : ManifestEntryV2) : EntryPlanV2 :=
  mkEntryPlan (entry_id e) (if bool_decide (entry_id e ∈ reuse) then DispositionReuseExisting else ReceivePayload) 0.

Lemma any_reuse_valid m ids eid e :
  any_reuse_invalid m ids = Ok false -> eid ∈ ids -> vec_get (entries m) eid = Some e ->
  kind e = RegularFile /\ known_digest e <> None.
Proof.
  induction ids as [|x ids IH]; intros Hall Hin He; [by apply not_elem_of_nil in Hin|].
  cbn in Hall. destruct (reuse_is_invalid m x) as [[]|] eqn:Hx; [done| |done]. cbn in Hall.
  apply elem_of_cons in Hin as [->|Hin]; [|by apply IH]. unfold reuse_is_invalid in Hx. rewrite He in Hx.
  destruct (vec_get (roots m) (entry_root_id e)); [|done]. cbn in Hx. injection Hx as Hx.
  rewrite !orb_false_iff in Hx. destruct Hx as ((_ & H3) & H4). by bool_prop.
Qed.

Lemma check_entry_plans_ok reuse es :
  Forall (fun e => 0 <= plaintext_size e /\ plaintext_size e + block_bytes <= u64_max /\
    (entry_id e ∈ reuse -> kind e = RegularFile /\ known_digest e <> None)) es ->
  check_entry_plans es (map (initial_entry_plan reuse) es) = Ok tt.
Proof.
  induction 1 as [|e es (H0 & Hs & Hr) _ IH]; [done|]. cbn [map check_entry_plans].
  assert (Hone : check_entry_plan e (initial_entry_plan reuse e) = Ok tt); [|by rewrite Hone].
  assert (Hblocks : exists n, total_blocks e = Ok n /\ 0 <= n).
  { unfold total_blocks, checked_add. destruct (Z.leb_spec (plaintext_size e + (block_bytes - 1)) u64_max); [|lia].
    eexists. split; [reflexivity|]. apply Z.div_pos; [|done].
    unfold block_bytes in *; unfold DEFAULT_MANIFEST_V2_BLOCK_PLAINTEXT_BYTES in *; lia. }
  destruct Hblocks as (n & Hn & Hpos). unfold check_entry_plan, initial_entry_plan. cbn [ep_entry_id disposition ep_next_plaintext_block].
  rewrite Z.eqb_refl, Hn. cbn [Z.eqb negb orb]. rewrite !orb_false_r.
  destruct (bool_decide_reflect (entry_id e ∈ reuse)) as [Hin|].
  - destruct (Hr Hin) as [-> Hk]. rewrite (bool_decide_eq_false_2 (known_digest e = None)) by done.
    rewrite !andb_false_r. cbn. destruct (Z.ltb_spec n 0); [lia|done].
  - cbn. rewrite !andb_false_r. cbn. destruct (Z.ltb_spec n 0); [lia|done].
Qed.

(** No file is larger than the total. *)
Lemma entry_size_total m e :
  wf_manifest m = true -> valid_manifest is_nfc m -> e ∈ entries m -> plaintext_size e <= total_plaintext_bytes (totals m).
Proof.
  intros Hwf Hv He. rewrite (vm_totals _ _ Hv). cbn.
  assert (Hpos : Forall (fun e => 0 <= plaintext_size e) (entries m)).
  { apply Forall_forall. intros x Hx. pose proof (wf_manifest_entry _ _ Hwf Hx) as Hw. unfold wf_entry, is_u64 in Hw. by bool_prop. }
  assert (Hdir : kind e = Directory -> plaintext_size e = 0).
  { apply list_elem_of_lookup in He as [i Hi]. intros Hk. exact (proj1 (ve_directory _ _ _ _ (vm_entry _ _ Hv _ _ Hi) Hk)). }
  clear Hv Hwf. unfold byte_total. induction (entries m) as [|x es IH]; [by apply not_elem_of_nil in He|].
  inversion Hpos as [|? ? Hx Hes]; subst. cbn [foldr].
  assert (0 <= foldr (fun e n => (if is_file e then plaintext_size e else 0) + n) 0 es).
  { clear -Hes. induction Hes as [|y es Hy _ IH]; cbn; [lia|]. destruct (is_file y); lia. }
  apply elem_of_cons in He as [->|He]; [|specialize (IH He Hes); destruct (is_file x); lia].
  assert (plaintext_size x <= if is_file x then plaintext_size x else 0); [|lia].
  unfold is_file. destruct (kind x); first [lia|rewrite Hdir by done; lia].
Qed.

(** The accept that a receiver makes from a checked plan for a valid offer
    passes [validate_accept], the check of both the receiver's new ledger and the
    sender: same job and digest, a plan for every root and entry in order, reuse
    planned only for root files of known digest, and no block counted as received.
    The bound is the one the space check of the plan implies. *)
Theorem initial_accept_valid plan m offer nonce capability accept :
  wf_manifest m = true -> build_manifest_offer_v2 is_nfc blake3 m = Ok offer ->
  validate_shape os to_lowercase plan = Ok tt -> total_plaintext_bytes (totals m) + block_bytes <= u64_max ->
  create_initial_accept plan offer nonce capability = Ok accept ->
  validate_accept offer accept = Ok tt /\ wf_plans accept.
Proof.
  intros Hwf Hb Hshape Hbound Hrun.
  assert (Hv : valid_manifest is_nfc m).
  { apply validate_sound; [done|]. unfold build_manifest_offer_v2 in Hb. by destruct (validate is_nfc m) as [[]|]. }
  assert (Hm : manifest offer = m).
  { unfold build_manifest_offer_v2 in Hb. destruct (validate is_nfc m) as [[]|]; [|done]. by injection Hb as <-. }
  unfold create_initial_accept in Hrun. rewrite Hm in Hrun.
  destruct (plan_differs plan m) eqn:Hdiff; [done|]. cbn [mbind result_bind] in Hrun.
  destruct (any_reuse_invalid m (reuse_entry_ids plan)) as [[]|] eqn:Hreuse; [done| |done]. cbn in Hrun.
  destruct nonce as [n|]; [|done]. destruct capability as [cap|]; [|done]. cbn in Hrun.
  destruct (bool_decide (cap = zero_bytes 32)); [done|]. injection Hrun as <-.
  unfold plan_differs in Hdiff. bool_prop. split; [|by apply Forall_map, Forall_forall; intros e _].
  assert (Hroots : check_root_plans 0 (roots m) (pl_root_plans plan) = Ok tt).
  { apply check_root_plans_ok.
    - intros i r Hr. rewrite (vr_id _ _ _ _ (vm_root _ _ Hv _ _ Hr)). pose proof (lookup_lt_Some _ _ _ Hr).
      pose proof (proj2 (vm_roots_bound _ _ Hv)) as Hmax. unfold zlen, MAX_MANIFEST_V2_ROOTS in Hmax.
      unfold as_u32. rewrite Z.mod_small; lia.
    - intros i r. apply root_names_spec. unfold validate_shape in Hshape.
      destruct (_ || root_names_invalid os 0 (pl_root_plans plan)) eqn:Hg in Hshape; [done|].
      by rewrite orb_false_iff in Hg; destruct Hg. }
  assert (Hentries : check_entry_plans (entries m) (map (initial_entry_plan (reuse_entry_ids plan)) (entries m)) = Ok tt).
  { apply check_entry_plans_ok, Forall_lookup. intros i e He.
    pose proof (wf_manifest_entry _ _ Hwf (list_elem_of_lookup_2 _ _ _ He)) as Hw. unfold wf_entry, is_u64 in Hw. bool_prop.
    split; [done|]. split.
    - pose proof (entry_size_total m e Hwf Hv (list_elem_of_lookup_2 _ _ _ He)). lia.
    - intros Hin. eapply (any_reuse_valid m _ (entry_id e)); [exact Hreuse|done|].
      rewrite (ve_id _ _ _ _ (vm_entry _ _ Hv _ _ He)). by rewrite vec_get_nat. }
  unfold validate_accept. rewrite Hm. cbn [acc_identity acc_manifest_digest root_plans entry_plans jg_job_id jg_generation].
  rewrite Hroots. unfold initial_entry_plan in Hentries. rewrite Hentries. unfold zlen in *. rewrite length_map, !Z.eqb_refl.
  repeat (rewrite bool_decide_eq_true_2 by done). cbn.
  match goal with Hx : pl_generation plan = _ |- _ => rewrite Hx end.
  match goal with Hx : Z.of_nat (length (pl_root_plans plan)) = _ |- _ => rewrite Hx end. by rewrite !Z.eqb_refl.
Qed.
End Accept.
