(* ===== verification/DeliverySystem.v ===== *)
(** Both ends of one job: the sender's and the receiver's sessions over their
    stores, with failing writes, lost frames and crashes, as a state machine;
    and what a sender that calls a job delivered can rely on. *)

From stdpp Require Import prelude gmap strings.
From Stdlib Require Import ZArith Lia Strings.Byte.
From S2P Require Import Prelude Bytes ManifestV2 OfferCodec Frames FramesProof Delivery.
From S2P Require Import DeliveryStore.

Local Open Scope Z_scope.

(** The durable files of the two ends, the records their running sessions hold,
    and every proof the receiver has sent. *)
Record System := mkSystem {
  s_files : files;
  s_live : option SenderDeliveryRecordV2;
  r_files : files;
  r_live : option ReceiverDeliveryRecordV2;
  sent : list DeliveryProofV2;
}.

Section System.
Context (is_nfc : str -> bool) (blake3 : list byte -> list byte).
Context (derive_key : str -> list byte -> list byte) (keyed_hash : list byte -> list byte -> list byte).
Context (s_to_vec : SenderDeliveryRecordV2 -> option (list byte))
  (s_from_slice : list byte -> option SenderDeliveryRecordV2).
Context (r_to_vec : ReceiverDeliveryRecordV2 -> option (list byte))
  (r_from_slice : list byte -> option ReceiverDeliveryRecordV2).
Context (offer : ManifestOfferV2).

#[local] Instance s_store : DeliveryRecord SenderDeliveryRecordV2 :=
  sender_delivery_store is_nfc blake3 derive_key keyed_hash s_to_vec s_from_slice.
#[local] Instance r_store : DeliveryRecord ReceiverDeliveryRecordV2 :=
  receiver_delivery_store is_nfc blake3 derive_key keyed_hash r_to_vec r_from_slice.
Local Notation digest_of := (result_set_digest_of is_nfc blake3 derive_key).
Local Notation confirm :=
  (sender_confirm_delivery is_nfc blake3 derive_key keyed_hash s_to_vec s_from_slice).
Local Notation send_proof :=
  (receiver_send_proof is_nfc blake3 derive_key keyed_hash r_to_vec r_from_slice).
Local Notation ID := (identity_of offer).
Local Notation s_ok := (sender_ok is_nfc blake3 derive_key keyed_hash).
Local Notation fits := (proof_fits is_nfc blake3 derive_key keyed_hash).

(** ** Steps *)

Definition system_init : System := mkSystem ∅ None ∅ None [].

(** A session keeps its record after a successful write and ends otherwise. *)
Definition kept {E A R} (res : result E A) (r : R) : option R :=
  match res with Ok _ => Some r | Err _ => None end.

Definition with_sender (st : System) (fs : files) (live : option SenderDeliveryRecordV2) : System :=
  mkSystem fs live (r_files st) (r_live st) (sent st).

Definition wf_results (rs : list EntryResultV2) : bool := forallb wf_entry_result rs.

(** The proofs sent after a call that sent [frame]. *)
Definition sent_with (frame : option ManifestV2Frame) (l : list DeliveryProofV2) : list DeliveryProofV2 :=
  match frame with Some (DeliveryProof p) => p :: l | _ => l end.

(** The sessions of manifest_v2_session.rs and the commits of the data plane:
    a sender loads its record or makes one, checks and saves it, saves after
    every commit, and confirms with a frame the authenticated channel
    delivered, a proof only if the receiver sent it; a receiver loads its record
    or makes one from its finished data plane, and sends its proof.  An error
    ends the session, and either side may stop at any time. *)
Inductive system_step : System -> System -> Prop :=
| sys_sender_open st o fault fs saved :
    load (s_files st) ID = Ok o ->
    let r := default (sender_new offer) o in
    validate_offer is_nfc blake3 derive_key keyed_hash r offer = Ok tt ->
    save (s_files st) r fault = (fs, saved) ->
    system_step st (with_sender st fs (kept saved r))
| sys_sender_accept st r accept digest r' fault fs saved :
    s_live st = Some r -> commit_accept r accept digest = (r', Ok tt) ->
    save (s_files st) r' fault = (fs, saved) ->
    system_step st (with_sender st fs (kept saved r'))
| sys_sender_results st r summary r' fault fs saved :
    s_live st = Some r -> wf_results (ss_entry_results summary) = true ->
    commit_results r summary = (r', Ok tt) ->
    save (s_files st) r' fault = (fs, saved) ->
    system_step st (with_sender st fs (kept saved r'))
| sys_sender_confirm st r frame fault r' fs res :
    s_live st = Some r ->
    (forall p, frame = Some (DeliveryProof p) -> p ∈ sent st) ->
    confirm r (s_files st) frame fault = (r', fs, res) ->
    system_step st (with_sender st fs (kept res r'))
| sys_sender_lost st : system_step st (with_sender st (s_files st) None)
| sys_receiver_open st o accept summary r :
    load (r_files st) ID = Ok o -> wf_results (rsum_entry_results summary) = true ->
    match o with
    | Some r0 => r = r0
    | None => receiver_new is_nfc blake3 derive_key keyed_hash offer accept summary = Ok r
    end ->
    system_step st (mkSystem (s_files st) (s_live st) (r_files st) (Some r) (sent st))
| sys_receiver_prove st r nonce fault send_ok r' fs frame res :
    r_live st = Some r ->
    send_proof r (r_files st) nonce fault send_ok = (r', fs, frame, res) ->
    system_step st (mkSystem (s_files st) (s_live st) fs (kept res r')
      (sent_with frame (sent st)))
| sys_receiver_lost st :
    system_step st (mkSystem (s_files st) (s_live st) (r_files st) None (sent st)).

Definition system_reachable (st : System) : Prop := rtc system_step system_init st.

(** ** Invariant *)

Definition receiver_fits (r : ReceiverDeliveryRecordV2) (p : DeliveryProofV2) : Prop :=
  p = build_delivery_proof derive_key keyed_hash (rd_identity r) (rd_manifest_digest r)
        (rd_result_set_digest r) (proof_nonce p) (rd_proof_capability r).

Lemma receiver_validate_ok r :
  receiver_validate is_nfc blake3 derive_key keyed_hash r = Ok tt <->
  rd_schema_version r = RECEIVER_DELIVERY_SCHEMA_VERSION /\
  results_misplaced (rd_identity r) 0 (rd_entry_results r) = false /\
  digest_of (rd_entry_results r) = Ok (rd_result_set_digest r) /\
  forall p, rd_delivery_proof r = Some p -> receiver_fits r p.
Proof.
  unfold receiver_validate, receiver_fits. split.
  - intros H. inv_ok. bool_prop. split; [done|]. split; [done|]. split; [congruence|].
    intros p Hp. rewrite Hp in H. inv_ok. bool_prop.
    match goal with Hm : mac_differs _ _ _ _ = false |- _ => apply mac_differs_false in Hm end.
    congruence.
  - intros (-> & -> & -> & Hp). cbn. rewrite bool_decide_eq_true_2 by done. cbn.
    destruct (rd_delivery_proof r) as [p|]; [|done]. specialize (Hp p eq_refl).
    rewrite Hp. cbn. rewrite !bool_decide_eq_true_2 by done. cbn.
    by rewrite (proj2 (mac_differs_false _ _ _ _)).
Qed.

Definition sender_good (st : System) (r : SenderDeliveryRecordV2) : Prop :=
  sd_identity r = ID /\ sd_manifest_digest r = structural_digest offer /\
  wf_results (sd_entry_results r) = true /\
  forall p, sd_delivery_proof r = Some p -> p ∈ sent st.

Definition receiver_good (r : ReceiverDeliveryRecordV2) : Prop :=
  rd_identity r = ID /\ rd_manifest_digest r = structural_digest offer /\
  wf_results (rd_entry_results r) = true /\ record_validate r = Ok tt.

(** A sender's session holds what is stored. *)
Definition sender_inv (st : System) : Prop :=
  exists o, load (s_files st) ID = Ok o /\ (forall r, o = Some r -> sender_good st r) /\
    (forall r, s_live st = Some r -> o = Some r).

(** Records are stored with their proof, and only stored proofs are sent. *)
Definition receiver_inv (st : System) : Prop :=
  exists o, load (r_files st) ID = Ok o /\
    (forall r, o = Some r -> receiver_good r /\ is_Some (rd_delivery_proof r)) /\
    (forall r, r_live st = Some r ->
      match o with
      | Some r0 => r = r0
      | None => receiver_good r /\ rd_delivery_proof r = None
      end) /\
    (forall p, p ∈ sent st -> exists r, o = Some r /\ rd_delivery_proof r = Some p).

Context (s_serde : forall r bytes, s_to_vec r = Some bytes -> s_from_slice bytes = Some r).
Context (r_serde : forall r bytes, r_to_vec r = Some bytes -> r_from_slice bytes = Some r).

Lemma live_good st r : sender_inv st -> s_live st = Some r ->
  sender_good st r /\ s_ok r /\ load (s_files st) ID = Ok (Some r).
Proof.
  intros (o & Hl & Hg & Hlive) Hr. specialize (Hlive r Hr). subst o. split; [by apply Hg|].
  split; [|done]. apply load_valid in Hl as [_ Hv]. by apply sender_validate_ok.
Qed.

Lemma kept_some {E A R} (res : result E A) (r r' : R) :
  kept res r = Some r' -> is_ok res = true /\ r' = r.
Proof. destruct res; cbn; [|done]. by intros [= ->]. Qed.

(** A sender's step that ends with a save of a good record. *)
Lemma sender_save_inv st r fault fs (saved : delivery unit) :
  sender_inv st -> sender_good st r -> save (s_files st) r fault = (fs, saved) ->
  sender_inv (with_sender st fs (kept saved r)).
Proof.
  intros (o & Hl & Hg & _) Hr Hs. pose proof (proj1 Hr) as Hid.
  destruct (@save_load _ s_store s_serde _ _ _ _ _ Hs) as [[Hnew|[Hres Hold]] _]; cbn in *; rewrite Hid in *.
  - exists (Some r). split; [done|]. split; [by intros ? [= <-]|].
    by intros r' [_ ->]%kept_some.
  - exists o. cbn [with_sender s_files s_live]. rewrite Hold. split; [done|]. split; [done|].
    intros r' [Hok _]%kept_some. destruct saved as [[]|]; done.
Qed.

Lemma sender_lost_inv st : sender_inv st -> sender_inv (with_sender st (s_files st) None).
Proof. intros (o & Hl & Hg & _). exists o. by repeat split; try done; apply Hg. Qed.

Lemma sender_open_good st o :
  sender_inv st -> load (s_files st) ID = Ok o -> sender_good st (default (sender_new offer) o).
Proof.
  intros (o' & Hl & Hg & _) Ho. rewrite Hl in Ho. simplify_eq.
  destruct o as [r|]; cbn; [by apply Hg|]. by repeat split.
Qed.

Lemma accept_good st r accept digest r' res :
  s_ok r -> sender_good st r -> commit_accept r accept digest = (r', res) -> sender_good st r'.
Proof.
  intros Hok Hg H. eapply commit_accept_cases in H as [->|(_ & _ & ->)]; done.
Qed.

Lemma results_good st r summary r' res :
  s_ok r -> sender_good st r -> wf_results (ss_entry_results summary) = true ->
  commit_results r summary = (r', res) -> sender_good st r'.
Proof.
  intros Hok (Hid & Hm & Hw & Hp) Hsum H.
  eapply commit_results_cases in H as [->|(_ & _ & ->)]; done.
Qed.

Lemma sender_confirm_inv st r frame fault r' fs res :
  sender_inv st -> s_live st = Some r ->
  (forall p, frame = Some (DeliveryProof p) -> p ∈ sent st) ->
  confirm r (s_files st) frame fault = (r', fs, res) ->
  sender_inv (with_sender st fs (kept res r')).
Proof.
  intros Hinv Hr Hframe H. destruct (live_good _ _ Hinv Hr) as (Hg & Hok & Hl).
  apply confirm_cases in H as [(-> & -> & _)|(p & saved & Hp & _ & _ & -> & Hs & ->)].
  - destruct Hinv as (o & Ho & Hgo & Hlive). exists o. split; [done|]. split; [done|].
    intros r' [_ ->]%kept_some. by apply Hlive.
  - replace (kept _ _) with (kept saved (set_phase Delivered (set_proof p r))) by (by destruct saved).
    eapply sender_save_inv; [done| |exact Hs]. destruct Hg as (Hid & Hm & Hw & _).
    split; [done|]. split; [done|]. split; [done|]. intros ? [= <-]. by apply Hframe.
Qed.

Lemma receiver_new_fields accept summary r :
  receiver_new is_nfc blake3 derive_key keyed_hash offer accept summary = Ok r ->
  record_validate r = Ok tt /\ rd_identity r = ID /\
  rd_manifest_digest r = structural_digest offer /\ rd_delivery_proof r = None /\
  rd_proof_capability r = proof_capability accept /\
  rd_entry_results r = rsum_entry_results summary.
Proof.
  intros H. unfold receiver_new in H. inv_ok. bool_prop. repeat split; try done.
  unfold identity_of. cbn. destruct (acc_identity accept). cbn in *. congruence.
Qed.

(** What a session may hold, and may have sent, after the first save of a
    record with its proof. *)
Lemma first_proof_inv st r p fault fs (saved : delivery unit) live out :
  load (r_files st) ID = Ok None -> receiver_good (set_receiver_proof p r) ->
  save (r_files st) (set_receiver_proof p r) fault = (fs, saved) ->
  (live = None \/ live = Some (set_receiver_proof p r) /\ saved = Ok tt) ->
  (out = [] \/ out = [p] /\ saved = Ok tt) ->
  receiver_inv (mkSystem (s_files st) (s_live st) fs live out).
Proof.
  intros Hl Hgood Hs Hlive Hout.
  destruct (@save_load _ r_store r_serde _ _ _ _ _ Hs) as [Hload _]. pose proof (proj1 Hgood) as Hid.
  cbn in Hload, Hid. rewrite Hid in Hload. destruct Hload as [Hnew|[Hres Hold]].
  - exists (Some (set_receiver_proof p r)). split; [done|].
    split; [by intros ? [= <-]; cbn; eauto|]. split.
    + cbn. intros ? ->. destruct Hlive as [|[[= ->] _]]; done.
    + cbn. destruct Hout as [->|[-> _]]; [by intros ? ?%elem_of_nil|].
      intros ? ->%list_elem_of_singleton. eauto.
  - exists None. cbn. rewrite Hold. split; [done|]. split; [done|].
    destruct Hlive as [->|[_ ?]], Hout as [->|[_ ?]]; try done.
    split; [done|]. by intros ? ?%elem_of_nil.
Qed.

(** A proof that is stored already is sent again. *)
Lemma resend_inv st r p live out :
  receiver_inv st -> load (r_files st) ID = Ok (Some r) -> rd_delivery_proof r = Some p ->
  (live = None \/ live = Some r) -> (out = sent st \/ out = p :: sent st) ->
  receiver_inv (mkSystem (s_files st) (s_live st) (r_files st) live out).
Proof.
  intros (o & Hl & Hstored & _ & Hsent) Hr Hp Hlive Hout. rewrite Hl in Hr. simplify_eq.
  exists (Some r). split; [done|]. split; [done|]. cbn. split.
  - intros ? ->. destruct Hlive; congruence.
  - destruct Hout as [->| ->]; [done|]. intros q [->|Hq]%elem_of_cons; [eauto|by apply Hsent].
Qed.

Lemma receiver_prove_inv st r nonce fault send_ok r' fs frame res :
  receiver_inv st -> r_live st = Some r ->
  send_proof r (r_files st) nonce fault send_ok = (r', fs, frame, res) ->
  receiver_inv (mkSystem (s_files st) (s_live st) fs (kept res r') (sent_with frame (sent st))) /\
  sent st ⊆ sent_with frame (sent st).
Proof.
  intros Hinv Hr H. split; [|destruct frame as [[]|]; set_solver].
  pose proof Hinv as (o & Hl & Hstored & Hlive & Hsent). specialize (Hlive r Hr).
  unfold receiver_send_proof in H. destruct (rd_delivery_proof r) as [p|] eqn:Hp.
  - destruct o as [r0|]; [subst r0|by destruct Hlive].
    destruct send_ok; simplify_eq; eapply resend_inv; eauto.
  - destruct o as [r0|]; [subst r0; destruct (Hstored r eq_refl) as [_ [? ?]]; congruence|].
    destruct Hlive as [(Hid & Hm & Hw & Hv) _].
    assert (Hnone : sent st = []).
    { destruct (sent st) as [|q l]; [done|]. by destruct (Hsent q) as (? & ? & _); [left|]. }
    rewrite Hnone in *. destruct nonce as [n|].
    2: { simplify_eq. exists None. repeat split; done. }
    match type of H with context [set_receiver_proof ?q r] => set (p := q) in * end.
    assert (Hgood : receiver_good (set_receiver_proof p r)).
    { split; [done|]. split; [done|]. split; [done|]. cbn. apply receiver_validate_ok.
      cbn in Hv. apply receiver_validate_ok in Hv as (? & ? & ? & _). repeat split; try done.
      by intros ? [= <-]. }
    destruct (save (r_files st) (set_receiver_proof p r) fault) as [fs1 saved] eqn:Hs.
    destruct saved as [[]|e]; [destruct send_ok|]; simplify_eq; cbn;
      (eapply first_proof_inv; [exact Hl|exact Hgood|exact Hs|auto|auto]).
Qed.

Lemma system_step_inv st st' :
  sender_inv st /\ receiver_inv st -> system_step st st' -> sender_inv st' /\ receiver_inv st'.
Proof.
  intros [Hs Hr] Hstep.
  destruct Hstep as [st o fault fs saved Ho r Hv Hsave|st r a d r' fault fs saved Hl Hc Hsave
    |st r sm r' fault fs saved Hl Hw Hc Hsave|st r frame fault r' fs res Hl Hf Hc|st
    |st o accept sm r Ho Hw Hnew|st r nonce fault ok r' fs frame res Hl Hp|st].
  - split; [|done]. eapply sender_save_inv; [done|by eapply sender_open_good|done].
  - destruct (live_good _ _ Hs Hl) as (Hg & Hok & _). split; [|done].
    eapply sender_save_inv; [done|by eapply accept_good|done].
  - destruct (live_good _ _ Hs Hl) as (Hg & Hok & _). split; [|done].
    eapply sender_save_inv; [done|by eapply results_good|done].
  - split; [|done]. by eapply sender_confirm_inv.
  - split; [by apply sender_lost_inv|done].
  - split; [done|]. destruct Hr as (o' & Ho' & Hst & _ & Hsent). rewrite Ho in Ho'. simplify_eq.
    exists o'. split; [done|]. split; [done|]. split; [|done]. intros ? [= <-].
    destruct o' as [r0|]; [done|].
    destruct (receiver_new_fields _ _ _ Hnew) as (? & ? & ? & ? & _ & Hres).
    unfold receiver_good. by rewrite Hres.
  - destruct (receiver_prove_inv _ _ _ _ _ _ _ _ _ Hr Hl Hp) as [Hr' Hsub]. split; [|exact Hr'].
    destruct Hs as (o & Ho & Hg & Hlive). exists o. split; [done|]. split; [|done].
    intros r0 Hr0. destruct (Hg r0 Hr0) as (? & ? & ? & Hp0). repeat split; try done.
    intros p Hp1. by apply Hsub, Hp0.
  - split; [done|]. destruct Hr as (o & Ho & Hst & _ & Hsent). exists o. split; [done|]. by split.
Qed.

Lemma system_reachable_inv st : system_reachable st -> sender_inv st /\ receiver_inv st.
Proof.
  intros H. pattern st. revert st H. apply rtc_ind_r.
  - split; exists None; repeat split; try done. by intros p Hp%elem_of_nil.
  - intros x y _ Hxy IH. by eapply system_step_inv.
Qed.

(** ** What a delivered job means *)

(** C8. Delivered means delivered: whatever writes fail, frames are lost or
    processes crash on either side, if the sender's stored record says
    [Delivered], then the receiver has durably stored a record of the same
    job and manifest with the very proof the sender holds, and, as the
    key-derivation hash has no collisions, with the same result for every
    entry. *)
Theorem delivered_agreement st s :
  (forall b, zlen (blake3 b) = DIGEST_BYTES) ->
  (forall ctx a b, derive_key ctx a = derive_key ctx b -> a = b) ->
  system_reachable st -> load (s_files st) ID = Ok (Some s) -> sd_phase s = Delivered ->
  exists r p, load (r_files st) ID = Ok (Some r) /\ sd_delivery_proof s = Some p /\
    rd_delivery_proof r = Some p /\ sd_identity s = rd_identity r /\
    sd_manifest_digest s = rd_manifest_digest r /\ sd_entry_results s = rd_entry_results r.
Proof.
  intros Hhash Hinj Hreach Hload Hdel.
  destruct (system_reachable_inv st Hreach) as [(o & Hl & Hg & _) (o' & Hl' & Hg' & _ & Hsent)].
  rewrite Hload in Hl. simplify_eq. destruct (Hg s eq_refl) as (Hid & Hm & Hw & Hp).
  apply load_valid in Hload as [_ Hv]. apply sender_validate_ok in Hv.
  pose proof (so_phase _ _ _ _ _ Hv) as Hph. unfold valid_phase in Hph. rewrite Hdel in Hph.
  destruct (sd_delivery_proof s) as [p|] eqn:Hproof; [|bool_prop; done].
  destruct (Hsent p (Hp p eq_refl)) as (r & -> & Hrp).
  destruct (Hg' r eq_refl) as [(Hrid & Hrm & Hrw & Hrv) _].
  cbn in Hrv. apply receiver_validate_ok in Hrv as (_ & _ & Hrd & Hfit). specialize (Hfit p Hrp).
  destruct (so_proof _ _ _ _ _ Hv p Hproof) as (accept & digest & _ & Hd & Hpeq).
  exists r, p. repeat split; try done; try congruence.
  assert (Heq : digest = rd_result_set_digest r).
  { rewrite Hpeq in Hfit. unfold receiver_fits, build_delivery_proof in Hfit. congruence. }
  unfold result_set_digest_of in Hd, Hrd. inv_ok.
  match goal with Hx : derive_key _ ?x = rd_result_set_digest r, Hy : derive_key _ ?y = _ |- _ =>
    assert (x = y) as -> by (apply (Hinj RESULT_SET_CONTEXT); congruence) end.
  by eapply result_transcript_inj.
Qed.

(** [Delivered] is final: no step of either side, failing or not, changes
    a stored sender record that says so. *)
Theorem delivered_is_final st st' s :
  system_reachable st -> load (s_files st) ID = Ok (Some s) -> sd_phase s = Delivered ->
  system_step st st' -> load (s_files st') ID = Ok (Some s).
Proof.
  intros Hreach Hload Hdel Hstep. destruct (system_reachable_inv st Hreach) as [Hs _].
  assert (Hid : sd_identity s = ID) by (apply load_valid in Hload as [Hid _]; done).
  assert (Hsave : forall fault fs saved, save (s_files st) s fault = (fs, saved) ->
    load fs ID = Ok (Some s)).
  { intros fault fs saved [[Hn|[_ Ho]] _]%(@save_load _ s_store s_serde); cbn in *;
      rewrite Hid in *; congruence. }
  assert (Hlive : forall r, s_live st = Some r -> r = s /\ s_ok s).
  { intros r Hr. destruct (live_good _ _ Hs Hr) as (_ & Hok & Hl). split; congruence. }
  destruct Hstep as [st o fault fs saved Ho r Hv Hsv|st r a d r' fault fs saved Hl Hc Hsv
    |st r sm r' fault fs saved Hl Hw Hc Hsv|st r frame fault r' fs res Hl Hf Hc|st|?|?|?]; try done.
  - rewrite Hload in Ho. simplify_eq. by eapply Hsave.
  - destruct (Hlive r Hl) as [-> Hok].
    eapply commit_accept_cases in Hc as [->|(_ & Hp & _)]; [by eapply Hsave|congruence|done].
  - destruct (Hlive r Hl) as [-> Hok].
    eapply commit_results_cases in Hc as [->|(_ & Hp & _)]; [by eapply Hsave|congruence|done].
  - destruct (Hlive r Hl) as [-> Hok].
    apply confirm_cases in Hc as [(_ & -> & _)|(? & ? & _ & Hp & _)]; [done|congruence].
Qed.

(** C32. Delivery completes: when the receiver saved the results the sender
    was told of, under the Accept the sender committed, one fault-free
    exchange moves the sender to [Delivered], durably. *)
Theorem delivery_completes accept summary r nonce s sfs rfs :
  let p := build_delivery_proof derive_key keyed_hash ID (structural_digest offer)
             (rd_result_set_digest r) nonce (proof_capability accept) in
  let r' := set_receiver_proof p r in
  let s' := set_phase Delivered (set_proof p s) in
  is_Some (r_to_vec r') -> is_Some (s_to_vec s') ->
  receiver_new is_nfc blake3 derive_key keyed_hash offer accept summary = Ok r ->
  record_validate s = Ok tt -> sd_phase s = WaitingForReceiverSave ->
  sd_identity s = ID -> sd_manifest_digest s = structural_digest offer ->
  sd_accept s = Some accept -> sd_entry_results s = rsum_entry_results summary ->
  exists rfs' sfs',
    send_proof r rfs (Some nonce) NoFault true = (r', rfs', Some (DeliveryProof p), Ok p) /\
    load rfs' ID = Ok (Some r') /\
    confirm s sfs (Some (DeliveryProof p)) NoFault = (s', sfs', Ok p) /\
    load sfs' ID = Ok (Some s').
Proof.
  intros p r' s' Hr_vec Hs_vec Hnew Hv Hph Hid Hm Hacc Hres.
  destruct (receiver_new_fields _ _ _ Hnew) as (Hrv & Hrid & Hrm & Hnone & Hcap & Hrres).
  pose proof (proj1 (receiver_validate_ok r) Hrv) as (Hsch & Hpl & Hrd & _).
  assert (Hp : receiver_fits r' p) by (unfold receiver_fits; cbn; by rewrite Hrid, Hrm, Hcap).
  destruct (@save_succeeds _ r_store rfs r') as [rfs' Hrs]; [|done|].
  { apply receiver_validate_ok. repeat split; try done. by intros ? [= <-]. }
  assert (Hfit : fits s p).
  { exists accept, (rd_result_set_digest r). rewrite Hid, Hm, Hres, <- Hrres. done. }
  apply sender_validate_ok in Hv.
  destruct (@save_succeeds _ s_store sfs s') as [sfs' Hss];
    [by apply sender_validate_ok, delivered_ok|done|].
  exists rfs', sfs'. split; [|split; [|split]].
  - unfold receiver_send_proof. rewrite Hnone, Hrid, Hrm, Hcap. fold p r'. unfold r_store in Hrs.
    by rewrite Hrs.
  - apply (@save_ok _ r_store r_serde) in Hrs. cbn in Hrs. by rewrite Hrid in Hrs.
  - by rewrite (confirm_fitting _ _ _ _ _ _ _ _ _ _ _ _ Hph Hfit Hss).
  - apply (@save_ok _ s_store s_serde) in Hss. cbn in Hss. by rewrite Hid in Hss.
Qed.
End System.
