(* ===== verification/Broker.v ===== *)
(** The connection handler of the broker (crates/envoix-rendezvous/src/broker.rs,
    [serve_from], [wait_for_joiner], [run_pair], [observe_direct_ip],
    [record_transport_busy]): admission, the Join frame, its validation, the
    dispatch to the registry, the creator's wait and the paired relay. *)

From stdpp Require Import prelude gmap.
From Stdlib Require Import ZArith Lia Strings.Byte.
From S2P Require Import Prelude Bytes BrokerConfig TokenBucket Sources Rooms RoomsInv RoomsTheorem.
From S2P Require Import Relay.

Local Open Scope Z_scope.

Record Broker := mkBrokerService { br_sources : entries_map; br_registry : Registry }.

(** What [read_control_with_limit] under [join_timeout] came to. *)
Inductive JoinRead :=
| JoinTimedOut
| JoinFailed (e : RendezvousError)
| JoinRead_ (join : Join).

(** How [serve_from] ends, or where it waits; [key] is the source guard the
    connection holds from then on. *)
Inductive ServeOutcome :=
| NotAdmitted (r : BrokerRejection)
| JoinRefused (key : SourceKey) (r : BrokerRejection) (guard : option RoomSlotGuard)
| ReadError (key : SourceKey) (e : RendezvousError)
| CreatorWaits (key : SourceKey) (wid : Z) (expiry : Instant) (guard : RoomSlotGuard)
| JoinerHandedOff (key : SourceKey) (wid : Z) (guard : RoomSlotGuard)
| ServePanicked.

Section Service.
Context (config : BrokerConfig).

Definition count_metric (reg : Registry) (c : Counter) : Registry :=
  mkRegistry (rooms reg) (next_id reg) (metrics_add (metrics reg) c 1).

(** [validate_join] and the dispatch on the invitation side. *)
Definition serve_join (reg : Registry) (key : SourceKey) (join : Join) (now : Instant)
    (open : bool) : Registry * ServeOutcome :=
  match validate_join join with
  | Err o =>
    let reg := count_metric reg
      (if bool_decide (o = UnsupportedVersion) then UnsupportedVersions else MalformedJoins) in
    let r := rejection config o None in
    (reject reg r, JoinRefused key r None)
  | Ok _ =>
    match invitation_side join with
    | Creator =>
      match serve_creator config reg join now with
      | (reg, Parked wid expiry guard) => (reg, CreatorWaits key wid expiry guard)
      | (reg, CreatorRejected r) => (reg, JoinRefused key r None)
      end
    | Joiner =>
      match serve_joiner config reg join now open with
      | (reg, Matched wid guard) => (reg, JoinerHandedOff key wid guard)
      | (reg, JoinerRejected r guard) => (reg, JoinRefused key r guard)
      | (reg, JoinerPanicked) => (reg, ServePanicked)
      end
    end
  end.

(** Admission at [now], the Join read, the registry entered at [now']. *)
Definition serve_from (b : Broker) (source : PeerSource) (now : Instant) (read : JoinRead)
    (now' : Instant) (open : bool) : Broker * ServeOutcome :=
  match admit_source config (br_sources b) source now with
  | (m, AdmitRejected r) => (mkBrokerService m (reject (br_registry b) r), NotAdmitted r)
  | (m, AdmitPanicked) => (mkBrokerService m (br_registry b), ServePanicked)
  | (m, Granted key) =>
    let malformed reg :=
      let r := rejection config MalformedJoin None in
      (mkBrokerService m (reject reg r), JoinRefused key r None) in
    match read with
    | JoinTimedOut => malformed (count_metric (br_registry b) Timeouts)
    | JoinFailed RE_FrameTooLarge =>
      malformed (count_metric (count_metric (br_registry b) OversizedFrames) MalformedJoins)
    | JoinFailed RE_BadMessage => malformed (count_metric (br_registry b) MalformedJoins)
    | JoinFailed e => (mkBrokerService m (br_registry b), ReadError key e)
    | JoinRead_ join =>
      let '(reg, o) := serve_join (br_registry b) key join now' open in
      (mkBrokerService m reg, o)
    end
  end.

(** [observe_direct_ip]: the buckets of a path found after Join. *)
Definition observe_direct_ip (b : Broker) (ip : IpAddr) (now : Instant)
    : Broker * AdmitResult unit :=
  match observe_direct config (br_sources b) ip now with
  | (m, AdmitRejected r) => (mkBrokerService m (reject (br_registry b) r), AdmitRejected r)
  | (m, a) => (mkBrokerService m (br_registry b), a)
  end.

Definition record_transport_busy (b : Broker) : Broker :=
  mkBrokerService (br_sources b)
    (mkRegistry (rooms (br_registry b)) (next_id (br_registry b))
      (metrics_rejection (metrics (br_registry b)) ServerBusy)).

(** The [Paired] replies [run_pair] writes to the two ends. *)
Definition pair_replies (first second : Join) : result BrokerOutcome (Paired * Paired) :=
  selected ← ok_or RoomNotFound (joins_match first second);
  Ok (mkPaired (role_for first) selected, mkPaired (role_for second) selected).

(** What a reply write under [slow_frame_timeout] came to. *)
Inductive WriteEnd := WriteDone | WriteTimedOut | WriteFailed.

Definition write_reply (w : WriteEnd) : result RendezvousError unit :=
  match w with
  | WriteDone => Ok tt
  | WriteTimedOut => Err RE_Timeout
  | WriteFailed => Err RE_Io
  end.

(** One end of a pair: how its reply write ends, what it sends, how its
    stream stops, and how it takes what is relayed to it. *)
Record PairEnd := mkPairEnd {
  pe_reply : WriteEnd;
  pe_input : list byte;
  pe_stop : StreamEnd;
  pe_sink : Sink;
}.

(** [run_pair]: the replies, then both relays under [relay_ttl] ([expired]
    says whether it ran out first).  [None] is a relay out of fuel. *)
Definition run_pair (m : BrokerMetrics) (first_join second_join : Join) (first second : PairEnd)
    (expired : bool) : option (BrokerMetrics * result RendezvousError unit) :=
  match pair_replies first_join second_join with
  | Err o => Some (m, Err (RE_Rejected o))
  | Ok _ =>
    match write_reply (pe_reply first) with
    | Err e => Some (m, Err e)
    | Ok _ =>
      match write_reply (pe_reply second) with
      | Err e => Some (m, Err e)
      | Ok _ =>
        if expired then Some (metrics_add m Timeouts 1, Ok tt)
        else
          '(_, left_r) ← relay_frames (max_frame_body config)
                         (pe_input first) (pe_stop first) (pe_sink second);
          '(_, right_r) ← relay_frames (max_frame_body config)
                          (pe_input second) (pe_stop second) (pe_sink first);
          Some (record_relay_result (record_relay_result m left_r) right_r, Ok tt)
      end
    end
  end.

(** What [wait_for_joiner] selects: a partner handed over, its sender
    dropped, the waiting creator speaking or leaving, or the room's deadline,
    whose handler reads the clock again. *)
Inductive WaitEvent :=
| HandedOver (partner : Join) (creator_end joiner_end : PairEnd) (ttl_expired : bool)
| SenderDropped
| Probed (probe : result RendezvousError Join)
| WaitLapsed (now : Instant).

(** [wait_for_joiner], with the reply it writes to the creator, if any. *)
Definition wait_for_joiner (reg : Registry) (join : Join) (wid : Z) (event : WaitEvent)
    : option (Registry * option Reply * result RendezvousError unit) :=
  let rid := room_id join in
  match event with
  | HandedOver partner e1 e2 ttl_expired =>
    '(m, r) ← run_pair (metrics reg) join partner e1 e2 ttl_expired;
    Some (mkRegistry (rooms reg) (next_id reg) m, None, r)
  | SenderDropped =>
    if room_is_expired reg rid then Some (reg, Some ReplyExpired, Err RE_Expired)
    else Some (reg, None, Err (RE_Rejected ServerBusy))
  | Probed probe =>
    let reg := evict_waiter reg rid wid in
    match probe with
    | Ok _ => Some (count_metric reg MalformedJoins, None, Err (RE_Rejected MalformedJoin))
    | Err e => Some (reg, None, Err e)
    end
  | WaitLapsed now =>
    let reg := expire_room config reg rid wid now in
    Some (count_metric reg Timeouts, Some ReplyExpired, Err RE_Expired)
  end.

(** The guards of the two kinds a connection holds after the call. *)
Definition source_guard (o : ServeOutcome) : option SourceKey :=
  match o with
  | JoinRefused key _ _ | ReadError key _ | CreatorWaits key _ _ _ | JoinerHandedOff key _ _ =>
    Some key
  | NotAdmitted _ | ServePanicked => None
  end.
Definition room_guard (o : ServeOutcome) : option RoomSlotGuard :=
  match o with
  | CreatorWaits _ _ _ g | JoinerHandedOff _ _ g => Some g
  | JoinRefused _ _ g => g
  | _ => None
  end.

(** ** Properties *)

Lemma serve_join_invalid reg key join now open o reg' out :
  validate_join join = Err o -> serve_join reg key join now open = (reg', out) ->
  rooms reg' = rooms reg /\ next_id reg' = next_id reg /\ out = JoinRefused key (rejection config o None) None.
Proof. intros Hv H. unfold serve_join in H. rewrite Hv in H. by simplify_eq/=. Qed.

(** Only a well-formed Join of an admitted source reaches the registry:
    in every other case (source refused, Join late, oversized, undecodable or
    invalid) no room and no id is touched, no room guard is taken, and an
    admitted peer whose Join was read is told [malformed_join] or
    [unsupported_version] without a retry hint. *)
Theorem serve_from_gate b source now read now' open b' out :
  (forall join, read = JoinRead_ join -> validate_join join <> Ok tt) ->
  serve_from b source now read now' open = (b', out) ->
  rooms (br_registry b') = rooms (br_registry b) /\
  next_id (br_registry b') = next_id (br_registry b) /\ room_guard out = None /\
  forall key r g, out = JoinRefused key r g ->
    (outcome r = MalformedJoin \/ outcome r = UnsupportedVersion) /\ retry_after r = None.
Proof.
  intros Hinvalid H. unfold serve_from in H.
  destruct (admit_source config (br_sources b) source now) as [m [key|r|]]; [|by simplify_eq/=..].
  destruct read as [|e|join].
  - simplify_eq/=. repeat split; try done; naive_solver.
  - destruct e; simplify_eq/=; repeat split; try done; naive_solver.
  - destruct (serve_join (br_registry b) key join now' open) as [reg o'] eqn:Hs. simplify_eq/=.
    specialize (Hinvalid join eq_refl).
    destruct (validate_join join) as [[]|o] eqn:Hv; [done|].
    destruct (serve_join_invalid _ _ _ _ _ _ _ _ Hv Hs) as (-> & -> & ->).
    repeat split; try done; intros; simplify_eq/=; [|done].
    unfold validate_join in Hv. repeat case_match; simplify_eq; auto.
Qed.

(** The two ends of a pair are told opposite roles and the same method,
    whichever of them parked first: the creator responds, the joiner
    initiates. *)
Theorem pair_replies_opposite first second p q :
  pair_replies first second = Ok (p, q) ->
  paired_method p = paired_method q /\
  ((paired_role p = Responder /\ invitation_side first = Creator /\
    paired_role q = Initiator /\ invitation_side second = Joiner) \/
   (paired_role p = Initiator /\ invitation_side first = Joiner /\
    paired_role q = Responder /\ invitation_side second = Creator)).
Proof.
  unfold pair_replies. destruct (joins_match first second) as [m|] eqn:Hm; [|done].
  cbn. intros [= <- <-]. split; [done|]. unfold joins_match in Hm. unfold role_for. cbn.
  destruct (invitation_side first), (invitation_side second); naive_solver.
Qed.

Lemma run_pair_total m first second e1 e2 expired :
  exists m' r, run_pair m first second e1 e2 expired = Some (m', r).
Proof.
  unfold run_pair. destruct (pair_replies first second); [|by eauto].
  destruct (write_reply (pe_reply e1)); [|by eauto].
  destruct (write_reply (pe_reply e2)); [|by eauto]. destruct expired; [by eauto|].
  destruct (relay_loop_spec (max_frame_body config) (S (length (pe_input e1))) (pe_input e1)
    (pe_stop e1) (pe_sink e2) [] ltac:(lia)) as (out1 & r1 & H1 & _).
  destruct (relay_loop_spec (max_frame_body config) (S (length (pe_input e2))) (pe_input e2)
    (pe_stop e2) (pe_sink e1) [] ltac:(lia)) as (out2 & r2 & H2 & _).
  unfold relay_frames. rewrite H1, H2. cbn. eauto.
Qed.

Lemma evict_unwaits reg rid wid room :
  rooms (evict_waiter reg rid wid) !! rid = Some room -> waits_as room wid = false.
Proof.
  unfold evict_waiter. destruct (rooms reg !! rid) as [room0|] eqn:Hr; [|congruence].
  destruct (waits_as room0 wid) eqn:Hw; [|congruence]. cbn.
  match goal with |- context [if ?b then delete _ _ else _] => destruct b end.
  - by rewrite lookup_delete_eq.
  - rewrite lookup_insert_eq. by intros [= <-].
Qed.

Lemma expire_unwaits reg rid wid now room :
  (forall room0, rooms reg !! rid = Some room0 -> waits_as room0 wid = true -> is_live (status room0) = true) ->
  rooms (expire_room config reg rid wid now) !! rid = Some room -> waits_as room wid = false.
Proof.
  intros Hlive. unfold expire_room. destruct (rooms reg !! rid) as [room0|] eqn:Hr; [|congruence].
  specialize (Hlive room0 eq_refl). destruct (waits_as room0 wid) eqn:Hw; cbn; [|congruence].
  rewrite Hlive by done. cbn. rewrite lookup_insert_eq. by intros [= <-].
Qed.
End Service.

(** The wait of a creator ends cleanly: from every reachable state,
    whichever event comes, [wait_for_joiner] returns; a creator that spoke, left
    or reached the deadline is no longer the one its room offers to joiners; and
    a wait that ends because of the other side leaves the rooms alone. *)
Theorem creator_wait_ends config n st join wid event :
  config_validate config = Ok tt -> wf_config config = true ->
  2 * Z.of_nat n <= u64_max -> broker_reachable config n st ->
  exists reg reply r, wait_for_joiner config (registry st) join wid event = Some (reg, reply, r) /\
    match event with
    | HandedOver _ _ _ _ | SenderDropped => rooms reg = rooms (registry st)
    | Probed _ | WaitLapsed _ =>
      r <> Ok tt /\ forall room, rooms reg !! room_id join = Some room -> waits_as room wid = false
    end.
Proof.
  intros Hv Hwf Hn Hr. pose proof (valid_reachable_inv config n st Hv Hwf Hn Hr) as Hinv.
  destruct event as [partner e1 e2 expired| |probe|now]; unfold wait_for_joiner.
  - destruct (run_pair_total config (metrics (registry st)) join partner e1 e2 expired)
      as (m & r & H). rewrite H. cbn. eauto.
  - destruct (room_is_expired _ _); eauto.
  - destruct probe; do 3 eexists; (split; [done|]); (split; [done|]); apply evict_unwaits.
  - do 3 eexists. split; [done|]. split; [done|]. intros room. cbn [count_metric rooms].
    apply expire_unwaits. intros room0 Hroom Hw. unfold waits_as in Hw.
    destruct (waiter room0) as [w|] eqn:Hwait; [|done].
    by destruct (ro_waiter _ _ _ _ _ _ (bi_rooms _ _ Hinv _ _ Hroom) w Hwait) as (-> & _).
Qed.
