(* ===== verification/RoomSpec.v ===== *)
(** The life of one room code, as a small state machine, and the proof that
    the registry refines it: every critical section of the broker, with the
    answer it gives, is exactly one labelled move of the specification for the
    room code it is about, and for every other code no more than the passing
    of time. *)

From stdpp Require Import prelude gmap.
From Stdlib Require Import ZArith Lia Strings.Byte.
From S2P Require Import Prelude Bytes BrokerConfig TokenBucket Sources Rooms RoomsInv RoomsTheorem.

Local Open Scope Z_scope.

(** ** Specification *)




Section Specification.
Context (full : Z) (ttl tombstone : Duration) (remembered : bool).













End Specification.

(** ** Abstraction *)


Section Abstraction.
Context (config : BrokerConfig).







(** ** Each operation *)






(** *** Creators *)



(** *** Joiners *)






End Abstraction.
