(* ===== verification/Session.v ===== *)
(** Sessions of sender and receiver over an authenticated connection
    (crates/envoix-session/src/manifest_v2_session.rs): the offer that a receiver
    takes, its session from the offer to the delivery proof with the three stores it
    keeps, the sender's session, and the errors both report.  A connection is the
    frames still to come and the number of frames it still takes; how each write of
    a store ends is a script of the world. *)

From stdpp Require Import prelude gmap strings.
From Stdlib Require Import ZArith Lia Strings.Byte.
From S2P Require Import Prelude Bytes ManifestV2 OfferCodec Frames Timeline Delivery Ledger Names Proc.
From S2P Require Import CoreError Invite Pairing Auth ReceivePlane LocalFs Destination Provider ProviderCommit SendPlane RoomSession.

Local Open Scope Z_scope.

#[export] Instance SenderResumeIntentV2_eq_dec : EqDecision SenderResumeIntentV2.
Proof. solve_decision. Defined.

(** ** Errors *)

Definition transfer_cause (c : TransferCause) : RoomError := Returned (CauseError c "").

Section Errors.
(** What the data plane's model leaves out of an error: the kind of an [io::Error]
    and the [CoreError] of the connection. *)
Context (io_kind : IoErrorKind) (core : CoreError).

Definition session_sender_io_error : RoomError :=
  match io_kind with
  | KindPermissionDenied => transfer_cause SenderPermissionLost
  | KindNotFound => transfer_cause SenderSourceUnavailable
  | KindOther => Returned CoreIo
  end.
Definition session_receiver_io_error : RoomError :=
  match io_kind with
  | KindPermissionDenied | KindNotFound => transfer_cause ReceiverDestinationUnavailable
  | KindOther => transfer_cause ReceiverSaveFailed
  end.
Definition session_sender_job_error (e : TransferJobError) : RoomError :=
  match e with
  | JE_SourceChanged => transfer_cause SenderSourceChanged
  | JE_Canceled => transfer_cause SenderCanceled
  | JE_Io => session_sender_io_error
  | _ => transfer_cause SenderSourceUnavailable
  end.
Definition session_delivery_error (e : DeliveryAuthorityErrorV2) : RoomError :=
  match e with
  | DE_Io => Returned (StorageError "")
  | DE_Transport => Returned (Transport "")
  | _ => transfer_cause ProtocolOrIntegrityFailure
  end.
Definition session_destination_error (e : DestinationPlanErrorV2) : RoomError :=
  match e with
  | PE_CopyDecisionRequired | PE_MissingCopyStaging | PE_ExceptionalTransferApprovalRequired =>
    transfer_cause ReceiverDestinationDecisionRequired
  | PE_InsufficientSpace _ _ => transfer_cause ReceiverSpaceInsufficient
  | PE_ReusedObjectLost => transfer_cause ReceiverReusedObjectLost
  | PE_UnsupportedProvider | PE_UnknownCapacity => transfer_cause ReceiverDestinationUnavailable
  | PE_Io =>
    match io_kind with
    | KindPermissionDenied | KindNotFound => transfer_cause ReceiverDestinationUnavailable
    | KindOther => transfer_cause ReceiverSaveFailed
    end
  | PE_InvalidEntryState => transfer_cause ProtocolOrIntegrityFailure
  | PE_SpaceOverflow | PE_NameExhausted | PE_ReservationLost | PE_LateCollision | PE_DestinationContended =>
    transfer_cause ReceiverSaveFailed
  | PE_Panicked => Panicked
  end.
Definition session_sender_data_error (e : ManifestV2DataError) : RoomError :=
  match e with
  | D_Core => Returned core
  | D_Job e => session_sender_job_error e
  | D_Io => session_sender_io_error
  | D_Delivery e => session_delivery_error e
  | D_Destination e => session_destination_error e
  | D_Internal => Returned (TransferError "")
  | D_Panicked => Panicked
  | _ => transfer_cause ProtocolOrIntegrityFailure
  end.
Definition session_receiver_data_error (e : ManifestV2DataError) : RoomError :=
  match e with
  | D_Core => Returned core
  | D_Io => session_receiver_io_error
  | D_Destination e => session_destination_error e
  | D_DestinationContract what => Returned (CauseError ReceiverSaveFailed what)
  | D_Delivery e => session_delivery_error e
  | D_Job e => session_sender_job_error e
  | D_Internal => Returned (TransferError "")
  | D_Panicked => Panicked
  | _ => transfer_cause ProtocolOrIntegrityFailure
  end.
End Errors.

(** ** The receiver's world *)

(** The directories destination-plans, receiver-data and receiver-delivery. *)
Record Stores := mkStores { plan_files : files; data_files : files; delivery_files : files }.

(** The frames to come; the frames sent, each with the stores at that moment; how
    many more frames the connection takes; how the next writes of the three stores
    end; the stores; the file system and the files of the provider's own ledger with
    its faults and its entropy; the entropy of the session; the reports made. *)
Record Receiver := mkReceiver {
  rv_incoming : list ManifestV2Frame;
  rv_sent : list (ManifestV2Frame * Stores);
  rv_sends_left : nat;
  rv_faults : list SaveFault;
  rv_stores : Stores;
  rv_fs : Fs;
  rv_local : files;
  rv_local_faults : list SaveFault;
  rv_local_entropy : list (option (list byte));
  rv_entropy : list (option (list byte));
  rv_reports : list Report;
}.
Abbreviation receiving A := (proc Receiver RoomError A).

Definition rv_set_stores (st : Stores) (faults : list SaveFault) (s : Receiver) : Receiver :=
  mkReceiver (rv_incoming s) (rv_sent s) (rv_sends_left s) faults st (rv_fs s) (rv_local s) (rv_local_faults s)
    (rv_local_entropy s) (rv_entropy s) (rv_reports s).
Definition rv_set_disk (fs : Fs) (local : files) (s : Receiver) : Receiver :=
  mkReceiver (rv_incoming s) (rv_sent s) (rv_sends_left s) (rv_faults s) (rv_stores s) fs local (rv_local_faults s)
    (rv_local_entropy s) (rv_entropy s) (rv_reports s).
Definition rv_set_sent (sent : list (ManifestV2Frame * Stores)) (left : nat) (s : Receiver) : Receiver :=
  mkReceiver (rv_incoming s) sent left (rv_faults s) (rv_stores s) (rv_fs s) (rv_local s) (rv_local_faults s)
    (rv_local_entropy s) (rv_entropy s) (rv_reports s).
Definition rv_set_entropy (e : list (option (list byte))) (s : Receiver) : Receiver :=
  mkReceiver (rv_incoming s) (rv_sent s) (rv_sends_left s) (rv_faults s) (rv_stores s) (rv_fs s) (rv_local s)
    (rv_local_faults s) (rv_local_entropy s) e (rv_reports s).

Definition rv_report (r : Report) : receiving unit := fun s =>
  (mkReceiver (rv_incoming s) (rv_sent s) (rv_sends_left s) (rv_faults s) (rv_stores s) (rv_fs s) (rv_local s)
     (rv_local_faults s) (rv_local_entropy s) (rv_entropy s) (rv_reports s ++ [r]), Ok tt).
Definition rv_stores_now : receiving Stores := fun s => (s, Ok (rv_stores s)).
(** What the entropy source gives next; [None] when it fails. *)
Definition rv_random : receiving (option (list byte)) := fun s =>
  (rv_set_entropy (tail (rv_entropy s)) s, Ok (default None (head (rv_entropy s)))).
(** [connection.send_manifest_v2_frame(..).map_err(|error| CoreError::Protocol(..))] *)
Definition rv_send (f : ManifestV2Frame) : receiving unit := fun s =>
  match rv_sends_left s with
  | O => (s, Err (Returned (Protocol "")))
  | S n => (rv_set_sent (rv_sent s ++ [(f, rv_stores s)]) n s, Ok tt)
  end.
(** A write of one of the stores. *)
Definition rv_save {E} (error : E -> RoomError) (call : Stores -> SaveFault -> Stores * result E unit)
    : receiving unit := fun s =>
  let '(st, r) := call (rv_stores s) (default NoFault (head (rv_faults s))) in
  (rv_set_stores st (tail (rv_faults s)) s, map_err error r).
Definition raise {E A} (error : E -> RoomError) (r : result E A) : receiving A := pure (map_err error r).

(** ** From the offer to the proof *)

Section Receiving.
Context (io_kind : IoErrorKind) (core : CoreError).
Context (os : Platform) (to_lowercase : str -> str) (is_nfc : str -> bool).
Context (blake3 : list byte -> list byte) (derive_key : str -> list byte -> list byte).
Context (keyed_hash : list byte -> list byte -> list byte).
Context (zstd_decompress : list byte -> Z -> option (list byte)).
Context (volume_of : path -> str) (device_of : path -> Z).
Context (plan_to_vec : DestinationWritePlanV2 -> option (list byte)).
Context (plan_from_slice : list byte -> option DestinationWritePlanV2).
Context (save_to_vec : LocalSaveLedgerV2 -> option (list byte)).
Context (save_from_slice : list byte -> option LocalSaveLedgerV2).
Context (ledger_to_vec : ReceiverDataPlaneLedgerV2 -> option (list byte)).
Context (ledger_from_slice : list byte -> option ReceiverDataPlaneLedgerV2).
Context (receiver_to_vec : ReceiverDeliveryRecordV2 -> option (list byte)).
Context (receiver_from_slice : list byte -> option ReceiverDeliveryRecordV2).
Context (gate : ResultGate).

#[local] Instance session_sink : PayloadSink Provider := local_sink os blake3 derive_key device_of save_to_vec.
#[local] Instance session_delivery_store : DeliveryRecord ReceiverDeliveryRecordV2 :=
  receiver_delivery_store is_nfc blake3 derive_key keyed_hash receiver_to_vec receiver_from_slice.
Local Notation destination_error := (session_destination_error io_kind).
Local Notation data_error := (session_receiver_data_error io_kind core).

Record ReceiverManifestV2SessionSummary := mkReceiverSession {
  rms_data_plane : ReceiverDataPlaneSummaryV2;
  rms_delivery_proof_digest : ContentDigestV2;
  rms_destination_plan : DestinationWritePlanV2;
}.

(** A call of the planner on the file system. *)
Definition planning {A} (call : proc Fs DestinationPlanErrorV2 A) : receiving A := fun s =>
  let '(fs, r) := call (rv_fs s) in (rv_set_disk fs (rv_local s) s, map_err destination_error r).
Definition save_plan (plan : DestinationWritePlanV2) : receiving unit :=
  rv_save destination_error (fun st fault =>
    let '(fs, r) := plan_save os to_lowercase plan_to_vec (plan_files st) plan fault in
    (mkStores fs (data_files st) (delivery_files st), r)).
Definition save_data (l : ReceiverDataPlaneLedgerV2) : receiving unit :=
  rv_save data_error (fun st fault =>
    let '(fs, r) := ledger_save ledger_to_vec (data_files st) l fault in
    (mkStores (plan_files st) fs (delivery_files st), r)).
(** [LocalDestinationProviderV2::new(plan, manifest)] *)
Definition open_provider (plan : DestinationWritePlanV2) (m : ManifestV2) : receiving Provider := fun s =>
  let '(disk, r) := new_provider os to_lowercase is_nfc blake3 volume_of plan_to_vec plan_from_slice save_from_slice
                      plan m (rv_local_faults s) (rv_local_entropy s) (rv_fs s, rv_local s) in
  (rv_set_disk disk.1 disk.2 s, map_err destination_error r).
(** A call of the data plane with the session's ledger, provider and data store. *)
Definition on_data_plane {A} (l : ReceiverDataPlaneLedgerV2) (p : Provider)
    (call : proc (World ReceiverDataPlaneLedgerV2 Provider) ManifestV2DataError A)
    : receiving (ReceiverDataPlaneLedgerV2 * Provider * A) := fun s =>
  let st := rv_stores s in
  let with_data fs := mkStores (plan_files st) fs (delivery_files st) in
  let '(w, r) := call (mkWorld (rv_incoming s) [] (rv_sends_left s) (rv_faults s) (data_files st) l p 0 []) in
  (mkReceiver (incoming w) (rv_sent s ++ map (fun f => (f.1, with_data f.2)) (outgoing w)) (sends_left w)
     (save_faults w) (with_data (store w)) (pv_fs (sink w)) (ledger_files (sink w)) (ledger_faults (sink w))
     (entropy (sink w)) (rv_entropy s) (rv_reports s ++ reports w),
   match r with Ok a => Ok (record w, sink w, a) | Err e => Err (data_error e) end).

(** The plan of the job: the stored one, or for a first request a new one. *)
Definition session_plan (offer : ManifestOfferV2) (initial_request : bool) (destination : DestinationRequestV2)
    (token : str) : receiving DestinationWritePlanV2 :=
  st ← rv_stores_now;
  stored ← raise destination_error
    (plan_load os to_lowercase plan_from_slice (plan_files st) (job_id (manifest offer)) (generation (manifest offer)));
  match stored with
  | Some plan => _ ← planning (validate_resume_plan os to_lowercase volume_of plan offer destination); mret plan
  | None =>
    if initial_request then
      plan ← planning (create os to_lowercase blake3 volume_of token offer destination);
      _ ← save_plan plan;
      mret plan
    else throw (Returned (CauseError ReceiverDestinationUnavailable
                            "receiver destination plan needed for resume is missing"))
  end.
(** The ledger of the job, likewise. *)
Definition session_ledger (offer : ManifestOfferV2) (plan : DestinationWritePlanV2) (initial_request : bool)
    : receiving ReceiverDataPlaneLedgerV2 :=
  st ← rv_stores_now;
  stored ← raise data_error (ledger_load ledger_from_slice (data_files st) (identity_of offer));
  match stored with
  | Some l => _ ← raise data_error (ledger_validate is_nfc blake3 l (manifest offer)); mret l
  | None =>
    if initial_request then
      nonce ← rv_random;
      capability ← rv_random;
      accept ← raise destination_error (create_initial_accept plan offer nonce capability);
      l ← raise data_error (ledger_new is_nfc blake3 offer accept);
      _ ← save_data l;
      mret l
    else throw (Returned (CauseError ReceiverDestinationUnavailable
                            "receiver data ledger needed for resume is missing"))
  end.

(** [status], with the nonce of the request and the answer to its challenge. *)
Definition answer_status (id : JobGenerationV2) (accept : ManifestAcceptV2) (request : ResumeRequestV2)
    (status : ResumeStatusV2) : ResumeStatusV2 :=
  mkResumeStatus (rs_identity status) (rs_accept_body_digest status) (rs_plan_revision status) (rs_entries status)
    (rr_challenge_nonce request)
    (answer_resume_challenge derive_key keyed_hash id (rr_challenge_nonce request) (proof_capability accept)).
(** The answer to the sender: the status of the ledger, or the accept. *)
Definition session_answer (offer : ManifestOfferV2) (plan : DestinationWritePlanV2) (l : ReceiverDataPlaneLedgerV2)
    (request : option ResumeRequestV2)
    : receiving (ReceiverDataPlaneLedgerV2 * option SenderResumeIntentV2 * option Provider) :=
  let accept := rl_accept l in
  match request with
  | Some request =>
    _ ← raise data_error (validate_resume_request l request);
    intent ← raise data_error
      (sender_resume_intent derive_key (structural_digest offer) (rl_accept_body_digest l) request);
    '(l, provider) ←
      match intent with
      | ContinueData =>
        p ← open_provider plan (manifest offer);
        '(l, p, _) ← on_data_plane l p (reconcile_resume os blake3 ledger_to_vec);
        mret (l, Some p)
      | AwaitDelivery => mret (l, None)
      end;
    _ ← rv_send (ResumeStatus (answer_status (identity_of offer) accept request (resume_status l)));
    mret (l, Some intent, provider)
  | None =>
    _ ← throw_if (requires_authenticated_resume l)
          (Returned (Crypto "started Manifest v2 job requires an authenticated ResumeRequest"));
    _ ← rv_send (Accept accept);
    mret (l, None, None)
  end.

(** The delivery record, stored or new, its proof, and the digest of the proof. *)
Definition session_proof (offer : ManifestOfferV2) (accept : ManifestAcceptV2)
    (existing : option ReceiverDeliveryRecordV2) (data_plane : ReceiverDataPlaneSummaryV2) : receiving ContentDigestV2 :=
  r ← match existing with
      | Some r => mret r
      | None => raise session_delivery_error
                  (receiver_new is_nfc blake3 derive_key keyed_hash offer accept data_plane)
      end;
  nonce ← (if bool_decide (rd_delivery_proof r = None) then rv_random else mret None);
  proof ← (fun s =>
    let st := rv_stores s in
    let '(_, fs, frame, res) :=
      receiver_send_proof is_nfc blake3 derive_key keyed_hash receiver_to_vec receiver_from_slice r
        (delivery_files st) nonce (default NoFault (head (rv_faults s))) (bool_decide (rv_sends_left s <> O)) in
    let st := mkStores (plan_files st) (data_files st) fs in
    let s := rv_set_stores st
               (if bool_decide (rd_delivery_proof r = None) then tail (rv_faults s) else rv_faults s) s in
    (match frame with
     | Some f => rv_set_sent (rv_sent s ++ [(f, st)]) (pred (rv_sends_left s)) s
     | None => s
     end, map_err session_delivery_error res));
  digest ← raise (fun _ => Returned (Protocol ""))
    (canonical_manifest_v2_frame_body_digest is_nfc blake3 (DeliveryProof proof));
  _ ← rv_report (on_stage DeliveryComplete);
  mret digest.

Definition receive_after_offer (offer : ManifestOfferV2) (request : option ResumeRequestV2)
    (destination : DestinationRequestV2) (token : str) : receiving ReceiverManifestV2SessionSummary :=
  let initial_request := bool_decide (request = None) in
  _ ← throw_if match request with
               | Some r => negb (bool_decide (rr_identity r = identity_of offer))
               | None => false
               end (Returned (Protocol "ResumeRequest identity does not match its Offer"));
  plan ← session_plan offer initial_request destination token;
  l ← session_ledger offer plan initial_request;
  let accept := rl_accept l in
  '(l, intent, provider) ← session_answer offer plan l request;
  _ ← rv_report (on_stage ManifestAccepted);
  st ← rv_stores_now;
  existing ← raise session_delivery_error (load (delivery_files st) (identity_of offer));
  if bool_decide (intent = Some AwaitDelivery) then
    _ ← rv_report (on_stage StagePayloadComplete);
    data_plane ← raise (fun e => Returned (Protocol e))
      (ok_or "delivery record exists without a complete data ledger"%string (completed_summary l));
    digest ← session_proof offer accept existing data_plane;
    mret (mkReceiverSession data_plane digest plan)
  else
    p ← match provider with Some p => mret p | None => open_provider plan (manifest offer) end;
    '(_, p, data_plane) ← on_data_plane l p
      (ReceivePlane.receive is_nfc blake3 zstd_decompress ledger_to_vec gate offer);
    _ ← save_plan (pv_plan p);
    digest ← session_proof offer accept existing data_plane;
    mret (mkReceiverSession data_plane digest (pv_plan p)).
End Receiving.

(** ** Cancellation *)

(** What a future that loses the race against cancellation still does before it is
    dropped: the frames it reads and sends and how its writes end. *)
Record Cut := mkCut { cut_reads : nat; cut_sends : nat; cut_faults : list SaveFault }.

Section Cancellable.
Context {W A : Type} (shorten : Cut -> W -> W) (flag : W -> W).

(** [tokio::select!] of a future and [cancel.cancelled()] *)
Definition or_cancelled (cut : option Cut) (future : proc W RoomError A) : proc W RoomError A := fun w =>
  match cut with
  | None => future w
  | Some c => (flag (future (shorten c w)).1, Err (Returned Cancelled))
  end.
(** A failure is recorded and returned; a panic is not caught. *)
Definition recording (record_failure : proc W RoomError unit) (m : proc W RoomError A) : proc W RoomError A :=
  r ← attempt m;
  match r with
  | Ok a => mret a
  | Err (Returned e) => _ ← record_failure; throw (Returned e)
  | Err Panicked => throw Panicked
  end.
End Cancellable.

(** ** A pending receive *)

(** The receiver's world with what its handle holds open, the stages of its
    timeline, and whether the token is cancelled. *)
Record Pending := mkPendingReceive {
  pe_receiver : Receiver;
  pe_open : list Resource;
  pe_connection_open : bool;
  pe_stages : list TransferStage;
  pe_cancelled : bool;
}.
Definition pe_record (stage : TransferStage) (p : Pending) : Pending :=
  mkPendingReceive (pe_receiver p) (pe_open p) (pe_connection_open p) (pe_stages p ++ [stage]) (pe_cancelled p).
Definition pe_flag (p : Pending) : Pending :=
  mkPendingReceive (pe_receiver p) (pe_open p) (pe_connection_open p) (pe_stages p) true.
Definition pe_close_connection (p : Pending) : Pending :=
  mkPendingReceive (pe_receiver p) (pe_open p) false (pe_stages p) (pe_cancelled p).
(** The local endpoint and the bridge, if there is one. *)
Definition pe_close_endpoint (p : Pending) : Pending :=
  mkPendingReceive (pe_receiver p) [] (pe_connection_open p) (pe_stages p) (pe_cancelled p).
Definition pe_shorten (c : Cut) (p : Pending) : Pending :=
  let s := pe_receiver p in
  mkPendingReceive
    (mkReceiver (take (cut_reads c) (rv_incoming s)) (rv_sent s) (min (cut_sends c) (rv_sends_left s)) (cut_faults c)
       (rv_stores s) (rv_fs s) (rv_local s) (rv_local_faults s) (rv_local_entropy s) (rv_entropy s) (rv_reports s))
    (pe_open p) (pe_connection_open p) (pe_stages p) (pe_cancelled p).
Definition pe_lift {A} (m : receiving A) : proc Pending RoomError A := fun p =>
  let '(s, r) := m (pe_receiver p) in
  (mkPendingReceive s (pe_open p) (pe_connection_open p) (pe_stages p) (pe_cancelled p), r).

Definition pe_modify (f : Pending -> Pending) : proc Pending RoomError unit := fun p => (f p, Ok tt).

(** [cancel], [reject] and [close_with_failure] *)
Definition close_with_stage (stage : TransferStage) (p : Pending) : Pending :=
  pe_close_endpoint (pe_close_connection (pe_record stage p)).
Definition pending_cancel : Pending -> Pending := close_with_stage Canceled.
Definition pending_reject : Pending -> Pending := pending_cancel.
Definition pending_close_with_failure : Pending -> Pending := close_with_stage Failed.

(** [receive_with_result_gate] of a session [m]; after a success the connection is
    left to the peer to close. *)
Definition receive_with_result_gate {A} (cut : option Cut) (m : receiving A) : proc Pending RoomError A :=
  result ← attempt (or_cancelled pe_shorten pe_flag cut (pe_lift m));
  match result with
  | Ok summary => _ ← pe_modify pe_close_endpoint; mret summary
  | Err (Returned e) =>
    _ ← pe_modify (fun p => pe_close_endpoint (pe_close_connection (pe_record (failure_stage (pe_cancelled p)) p)));
    throw (Returned e)
  | Err Panicked => throw Panicked
  end.

(** ** Waiting for an offer *)

Definition MAX_AUTH_FAILURES : Z := 50.
Definition MAX_PRE_AUTH_CONNECTION_FAILURES : Z := 8.

(** An accepted connection: whether it negotiated Manifest v2, its authentication
    frames with the randomness of this side, how the exchange ends and whether the
    token is cancelled by then, the frames that follow, and whether it is cancelled
    while the offer is awaited. *)
Record Connection := mkConnection {
  cn_manifest_v2 : bool;
  cn_auth : AuthWorld;
  cn_seed : list byte;
  cn_auth_ends : Race;
  cn_cancelled : bool;
  cn_frames : list ManifestV2Frame;
  cn_offer_cancelled : bool;
}.
Inductive Accepted :=
| AcceptedConnection (c : Connection)
| AcceptFails (e : CoreError) (cancelled : bool)
| AcceptCancelled.

(** What the endpoint accepts next; the timelines of the attempts, the latest first;
    what the authentication handler was given; whether the token is cancelled.  That a
    connection is closed when its peer is turned away is left out. *)
Record Listener := mkListener {
  ls_accepts : list Accepted;
  ls_attempts : list (list TransferStage);
  ls_outcomes : list (option (list byte));
  ls_cancelled : bool;
}.
Abbreviation listening A := (proc Listener RoomError A).

Definition ls_start : listening unit := fun s =>
  (mkListener (ls_accepts s) ([SessionStarted] :: ls_attempts s) (ls_outcomes s) (ls_cancelled s), Ok tt).
(** [timeline.record(stage)] of the attempt under way. *)
Definition ls_record (stage : TransferStage) : listening unit := fun s =>
  (mkListener (ls_accepts s)
     match ls_attempts s with t :: rest => (t ++ [stage]) :: rest | [] => [[stage]] end
     (ls_outcomes s) (ls_cancelled s), Ok tt).
Definition ls_record_failure : listening unit := fun s => ls_record (failure_stage (ls_cancelled s)) s.
Definition ls_flag (s : Listener) : Listener :=
  mkListener (ls_accepts s) (ls_attempts s) (ls_outcomes s) true.
Definition ls_is_cancelled : listening bool := fun s => (s, Ok (ls_cancelled s)).
(** [bound_endpoint.accept_with_events(..)] against cancellation; an endpoint that
    accepts nothing more waits for it. *)
Definition ls_accept : listening Accepted := fun s =>
  match ls_accepts s with
  | [] => (ls_flag s, Ok AcceptCancelled)
  | a :: rest =>
    let s := mkListener rest (ls_attempts s) (ls_outcomes s) (ls_cancelled s) in
    (match a with AcceptCancelled | AcceptFails _ true => ls_flag s | _ => s end, Ok a)
  end.
Definition ls_hand_over (on_authenticated : option (list byte) -> session unit) (outcome : option (list byte))
    : listening (session unit) := fun s =>
  (mkListener (ls_accepts s) (ls_attempts s) (ls_outcomes s ++ [outcome]) (ls_cancelled s), Ok (on_authenticated outcome)).

Section Listening.
Context (is_nfc : str -> bool) (blake3 : list byte -> list byte).
Context `{InviteLibs, PakeLibs}.

(** What [receive_authenticated_offer] makes of the frame it received. *)
Definition check_offer (frame : ManifestV2Frame) : result RoomError (ManifestOfferV2 * option ResumeRequestV2) :=
  '(offer, request) ←
    match frame with
    | Offer offer => Ok (offer, None)
    | ResumeRequest request => Ok (rr_offer request, Some request)
    | _ => Err (Returned (Protocol "expected Manifest v2 Offer or ResumeRequest after authentication"))
    end;
  _ ← map_err (fun _ => Returned (Protocol "")) (validate is_nfc (manifest offer));
  canonical ← map_err (fun _ => Returned (Protocol "")) (build_manifest_offer_v2 is_nfc blake3 (manifest offer));
  _ ← ensure (bool_decide (structural_digest canonical = structural_digest offer))
        (Returned (Protocol "Manifest v2 structural digest does not match its canonical manifest"));
  Ok (offer, request).
Definition receive_authenticated_offer (c : Connection) : listening (ManifestOfferV2 * option ResumeRequestV2) := fun s =>
  if cn_offer_cancelled c then (ls_flag s, Err (Returned Cancelled))
  else (s, match cn_frames c with [] => Err (Returned (Protocol "")) | frame :: _ => check_offer frame end).

(** [auth_bounded(authenticate_receiver_with_remember(..))] *)
Definition authenticate_peer (config : PairingConfig) (consent : bool) (c : Connection)
    : listening (session (option (list byte))) := fun s =>
  match cn_auth_ends c with
  | CancelWins => (ls_flag s, Ok (Err Cancelled))
  | TimerWins => (if cn_cancelled c then ls_flag s else s, Ok (Err (Protocol "authentication timed out")))
  | Finishes =>
    (if cn_cancelled c then ls_flag s else s,
     Ok (authenticate_receiver_with_remember config consent (cn_seed c) (cn_auth c)).2)
  end.

(** The loop, of which [n] rounds are left; [first] says that the attempt's timeline
    has been started. *)
Fixpoint accept_rounds (n : nat) (first : bool) (connection_failures authentication_failures : Z)
    (config : PairingConfig) (consent : bool) (on_authenticated : option (list byte) -> session unit)
    : listening Connection :=
  match n with
  | O => throw Panicked
  | S n =>
    _ ← (if first then mret tt else ls_start);
    accepted ← ls_accept;
    match accepted with
    | AcceptCancelled => _ ← ls_record Canceled; throw (Returned Cancelled)
    | AcceptFails e _ =>
      _ ← ls_record_failure;
      let connection_failures := connection_failures + 1 in
      if MAX_PRE_AUTH_CONNECTION_FAILURES <=? connection_failures then throw (Returned e)
      else accept_rounds n false connection_failures authentication_failures config consent on_authenticated
    | AcceptedConnection c =>
      _ ← ls_record ConnectionReady;
      if negb (cn_manifest_v2 c) then
        _ ← ls_record Failed;
        throw (Returned (Protocol "canonical receive endpoint negotiated a non-Manifest-v2 protocol"))
      else
        _ ← ls_record AuthenticationStarted;
        outcome ← authenticate_peer config consent c;
        match outcome with
        | Ok outcome =>
          handled ← ls_hand_over on_authenticated outcome;
          match handled with
          | Ok _ => _ ← ls_record AuthenticationComplete; mret c
          | Err e => _ ← ls_record Failed; throw (Returned e)
          end
        | Err e =>
          cancelled ← ls_is_cancelled;
          if (cancelled : bool) then _ ← ls_record Canceled; throw (Returned e)
          else
            _ ← ls_record Failed;
            let authentication_failures := authentication_failures + 1 in
            if MAX_AUTH_FAILURES <=? authentication_failures
            then throw (Returned (Crypto "too many failed pairing attempts"))
            else accept_rounds n false connection_failures authentication_failures config consent on_authenticated
        end
    end
  end.
(** One round more than the failures that are let pass. *)
Definition accept_limit : nat := Z.to_nat (MAX_PRE_AUTH_CONNECTION_FAILURES + MAX_AUTH_FAILURES - 1).

(** [receive_manifest_v2_offer_with_authentication_and_timeline] *)
Definition receive_manifest_v2_offer (config : PairingConfig) (consent : bool)
    (on_authenticated : option (list byte) -> session unit) (first_timeline : bool)
    : listening (Connection * ManifestOfferV2 * option ResumeRequestV2) :=
  c ← accept_rounds accept_limit first_timeline 0 0 config consent on_authenticated;
  '(offer, request) ← recording ls_record_failure (receive_authenticated_offer c);
  _ ← ls_record ManifestOffer;
  mret (c, offer, request).

(** [receive_manifest_v2_offer_over_native_transport], whose transport accepts once. *)
Definition receive_native_offer (config : PairingConfig) : listening (Connection * ManifestOfferV2 * option ResumeRequestV2) :=
  _ ← ls_start;
  accepted ← ls_accept;
  c ← recording ls_record_failure
        match accepted with
        | AcceptedConnection c => mret c
        | AcceptFails e _ => throw (Returned e)
        | AcceptCancelled => throw (Returned Cancelled)
        end;
  _ ← ls_record ConnectionReady;
  _ ← ls_record AuthenticationStarted;
  outcome ← authenticate_peer config false c;
  outcome ← recording ls_record_failure (pure (map_err Returned outcome));
  _ ← ls_hand_over (fun _ => Ok tt) outcome;
  _ ← ls_record AuthenticationComplete;
  '(offer, request) ← recording ls_record_failure (receive_authenticated_offer c);
  _ ← ls_record ManifestOffer;
  mret (c, offer, request).
End Listening.

(** ** The sender *)

Record SenderManifestV2SessionSummary := mkSenderSession {
  sms_data_plane : SenderDataPlaneSummaryV2;
  sms_delivery_proof_digest : ContentDigestV2;
}.

(** The data plane's world, whose reports are also those of the timeline; the
    authentication frames of the connection; what the authentication handler was
    given; whether the token is cancelled. *)
Record Sending (F : Type) := mkSending {
  sg_plane : World SenderDeliveryRecordV2 F;
  sg_auth : AuthWorld;
  sg_outcomes : list (option (list byte));
  sg_cancelled : bool;
}.
Arguments mkSending {F}.
Arguments sg_plane {F}.
Arguments sg_auth {F}.
Arguments sg_outcomes {F}.
Arguments sg_cancelled {F}.

Section Sending.
Context (io_kind : IoErrorKind) (core : CoreError).
Context (is_nfc : str -> bool) (blake3 : list byte -> list byte).
Context (derive_key : str -> list byte -> list byte) (keyed_hash : list byte -> list byte -> list byte).
Context (zstd_compress : list byte -> option (list byte)).
Context (sender_to_vec : SenderDeliveryRecordV2 -> option (list byte)).
Context (sender_from_slice : list byte -> option SenderDeliveryRecordV2).
Context {F : Type} `{FileSource F} `{InviteLibs, PakeLibs}.
Local Notation world := (World SenderDeliveryRecordV2 F).
Local Notation M A := (proc (Sending F) RoomError A).

#[local] Instance sending_store : DeliveryRecord SenderDeliveryRecordV2 :=
  sender_delivery_store is_nfc blake3 derive_key keyed_hash sender_to_vec sender_from_slice.

Definition sg_set_plane (w : world) (s : Sending F) : Sending F :=
  mkSending w (sg_auth s) (sg_outcomes s) (sg_cancelled s).
Definition sg_flag (s : Sending F) : Sending F := mkSending (sg_plane s) (sg_auth s) (sg_outcomes s) true.
Definition sg_shorten (c : Cut) (s : Sending F) : Sending F :=
  let w := sg_plane s in
  sg_set_plane (mkWorld (take (cut_reads c) (incoming w)) (outgoing w) (min (cut_sends c) (sends_left w)) (cut_faults c)
                  (store w) (record w) (sink w) (completed w) (reports w)) s.
(** A call of the data plane. *)
Definition on_sender_plane {A} (m : proc world ManifestV2DataError A) : M A := fun s =>
  let '(w, r) := m (sg_plane s) in (sg_set_plane w s, map_err (session_sender_data_error io_kind core) r).
Definition sg_report (r : Report) : M unit := on_sender_plane (report r).
Definition sg_record_failure : M unit := fun s => sg_report (on_stage (failure_stage (sg_cancelled s))) s.

Definition sealed_manifest (sealed : option ManifestV2) : result RoomError ManifestV2 :=
  ok_or (Returned (InvalidInput "transfer job must be sealed before dialing")) sealed.
(** The record of the job, stored or new, checked and stored. *)
Definition prepare_sender (sealed : option ManifestV2) : M unit :=
  m ← pure (sealed_manifest sealed);
  offer ← pure (map_err (fun _ => Returned (InvalidInput "")) (build_manifest_offer_v2 is_nfc blake3 m));
  stored ← (fun s => (s, map_err session_delivery_error (load (store (sg_plane s)) (identity_of offer))));
  let r := default (sender_new offer) stored in
  _ ← pure (map_err session_delivery_error (validate_offer is_nfc blake3 derive_key keyed_hash r offer));
  _ ← on_sender_plane (put_record r);
  on_sender_plane (save_delivery is_nfc blake3 derive_key keyed_hash sender_to_vec sender_from_slice).

(** [auth_bounded]: the exchange against its time limit and cancellation. *)
Definition auth_bounded {A} (ends : Race) (m : auth A) : M A := fun s =>
  match ends with
  | CancelWins => (sg_flag s, Err (Returned Cancelled))
  | TimerWins => (s, Err (Returned (Protocol "authentication timed out")))
  | Finishes =>
    let '(a, r) := m (sg_auth s) in
    (mkSending (sg_plane s) a (sg_outcomes s) (sg_cancelled s), map_err Returned r)
  end.
(** [authentication.on_authenticated(outcome)], which is given the outcome. *)
Definition hand_over (on_authenticated : option (list byte) -> session unit) (outcome : option (list byte)) : M unit := fun s =>
  (mkSending (sg_plane s) (sg_auth s) (sg_outcomes s ++ [outcome]) (sg_cancelled s),
   map_err Returned (on_authenticated outcome)).

(** [sender_confirm_delivery] on the connection and the store. *)
Definition confirm_delivery : M DeliveryProofV2 := fun s =>
  let w := sg_plane s in
  let waits := bool_decide (sd_phase (record w) = WaitingForReceiverSave) || bool_decide (sd_phase (record w) = Delivered) in
  let '(r, fs, res) := sender_confirm_delivery is_nfc blake3 derive_key keyed_hash sender_to_vec sender_from_slice
                         (record w) (store w) (head (incoming w)) (default NoFault (head (save_faults w))) in
  (sg_set_plane (mkWorld (if waits then tail (incoming w) else incoming w) (outgoing w) (sends_left w)
     (tail (save_faults w)) fs r (sink w) (completed w) (reports w)) s, map_err session_delivery_error res).

(** What is done once the receiver is authenticated; [nonce] is what the entropy
    source gives for a challenge. *)
Definition send_authenticated (sealed : option ManifestV2) (nonce : option (list byte))
    : M SenderManifestV2SessionSummary :=
  r ← on_sender_plane get_record;
  data_plane ←
    match sd_phase r with
    | Offering | Transferring =>
      on_sender_plane (SendPlane.send is_nfc blake3 derive_key keyed_hash zstd_compress sender_to_vec sender_from_slice
                         sealed nonce)
    | WaitingForReceiverSave | Delivered =>
      _ ← sg_report (on_stage ManifestOffer);
      _ ← on_sender_plane (establish_sender_reconnect is_nfc blake3 derive_key keyed_hash sealed nonce);
      _ ← sg_report (on_stage ManifestAccepted);
      _ ← sg_report (on_stage StagePayloadComplete);
      pure (ok_or (Returned (Protocol "sender delivery phase has no durable result summary")) (completed_data_summary r))
    | TransferFailed | TransferCanceled =>
      throw (Returned (TransferError "terminal failed or canceled job cannot reconnect"))
    end;
  proof ← confirm_delivery;
  _ ← sg_report (on_phase PhFinalizingDelivery);
  digest ← pure (map_err (fun _ => Returned (Protocol ""))
    (canonical_manifest_v2_frame_body_digest is_nfc blake3 (DeliveryProof proof)));
  mret (mkSenderSession data_plane digest).

(** [send_manifest_v2_over_connection_with_authentication] *)
Definition send_over_connection (sealed : option ManifestV2) (config : PairingConfig) (consent : bool)
    (on_authenticated : option (list byte) -> session unit) (seed : list byte) (nonce : option (list byte))
    (cut_prepare : option Cut) (auth_ends : Race) (cut_transfer : option Cut) : M SenderManifestV2SessionSummary :=
  _ ← recording sg_record_failure (or_cancelled sg_shorten sg_flag cut_prepare (prepare_sender sealed));
  _ ← sg_report (on_stage AuthenticationStarted);
  outcome ← recording sg_record_failure (auth_bounded auth_ends (authenticate_sender_with_remember config consent seed));
  _ ← recording (sg_report (on_stage Failed)) (hand_over on_authenticated outcome);
  _ ← sg_report (on_stage AuthenticationComplete);
  summary ← recording sg_record_failure (or_cancelled sg_shorten sg_flag cut_transfer (send_authenticated sealed nonce));
  _ ← sg_report (on_stage DeliveryComplete);
  mret summary.
End Sending.

(** ** Opening a connection *)

(** How an awaited call outside of the session ends, and whether the token is
    cancelled by then. *)
Record Opening := mkOpening { op_error : option CoreError; op_cancelled : bool }.

(** A sender with the endpoint and bridge it has open, and whether its connection is. *)
Record Dialing (F : Type) := mkDialing {
  dl_sending : Sending F;
  dl_open : list Resource;
  dl_connected : bool;
}.
Arguments mkDialing {F}.
Arguments dl_sending {F}.
Arguments dl_open {F}.
Arguments dl_connected {F}.

Section Dialing.
Context {F : Type} (io_kind : IoErrorKind) (core : CoreError).
Local Notation D A := (proc (Dialing F) RoomError A).

Definition dl_lift {A} (m : proc (Sending F) RoomError A) : D A := fun d =>
  let '(s, r) := m (dl_sending d) in (mkDialing s (dl_open d) (dl_connected d), r).
Definition dl_record (stage : TransferStage) : D unit := dl_lift (sg_report io_kind core (on_stage stage)).
Definition dl_record_failure : D unit := dl_lift (sg_record_failure io_kind core).
Definition dl_hold (rs : list Resource) : D unit := fun d => (mkDialing (dl_sending d) rs (dl_connected d), Ok tt).
Definition dl_connection (open : bool) : D unit := fun d => (mkDialing (dl_sending d) (dl_open d) open, Ok tt).
Definition dl_await (o : Opening) : D unit := fun d =>
  (if op_cancelled o then mkDialing (sg_flag (dl_sending d)) (dl_open d) (dl_connected d) else d,
   match op_error o with Some e => Err (Returned e) | None => Ok tt end).

(** [start_manifest_v2_send_attempt] *)
Definition start_send_attempt (sealed : option ManifestV2) : D unit :=
  _ ← pure (sealed_manifest sealed); dl_record SessionStarted.
(** The session over the connection just made, which is closed after it with what
    carried it. *)
Definition over_connection {A} (session : proc (Sending F) RoomError A) : D A :=
  _ ← dl_record ConnectionReady;
  _ ← dl_connection true;
  result ← attempt (dl_lift session);
  match result with
  | Err Panicked => throw Panicked
  | _ =>
    _ ← dl_connection false;
    _ ← dl_hold [];
    pure result
  end.
(** [send_manifest_v2_from_endpoint_with_authentication] *)
Definition send_from_endpoint {A} (dial : Opening) (session : proc (Sending F) RoomError A) : D A :=
  _ ← recording (_ ← dl_record_failure; dl_hold []) (dl_await dial);
  over_connection session.
(** [send_manifest_v2_to_endpoint_addr_with_authentication] *)
Definition send_to_endpoint_addr {A} (sealed : option ManifestV2) (build dial : Opening)
    (session : proc (Sending F) RoomError A) : D A :=
  _ ← start_send_attempt sealed;
  _ ← recording dl_record_failure (dl_await build);
  _ ← dl_hold [DataEndpoint];
  send_from_endpoint dial session.
(** [send_manifest_v2_over_native_transport] *)
Definition send_over_native_transport {A} (sealed : option ManifestV2) (connect : Opening)
    (session : proc (Sending F) RoomError A) : D A :=
  _ ← start_send_attempt sealed;
  _ ← recording dl_record_failure (dl_await connect);
  over_connection session.
(** [send_manifest_v2_over_datagram_transport] *)
Definition send_over_datagram_transport {A} (sealed : option ManifestV2) (bind dial : Opening)
    (session : proc (Sending F) RoomError A) : D A :=
  _ ← start_send_attempt sealed;
  _ ← recording dl_record_failure (dl_await bind);
  _ ← dl_hold [DataEndpoint; DatagramBridge];
  send_from_endpoint dial session.
End Dialing.

(** [receive_manifest_v2_offer_over_datagram_transport] over what is open; its handler
    takes every outcome. *)
Definition receive_datagram_offer `{InviteLibs, PakeLibs} (is_nfc : str -> bool) (blake3 : list byte -> list byte)
    (bind : Opening) (config : PairingConfig)
    : proc (Listener * list Resource) RoomError (Connection * ManifestOfferV2 * option ResumeRequestV2) := fun '(s, open) =>
  let '(s, started) := (_ ← ls_start; recording ls_record_failure (fun s =>
    (if op_cancelled bind then ls_flag s else s,
     match op_error bind with Some e => Err (Returned e) | None => Ok tt end))) s in
  match started with
  | Err e => ((s, open), Err e)
  | Ok _ =>
    let '(s, r) := receive_manifest_v2_offer is_nfc blake3 config false (fun _ => Ok tt) true s in
    ((s, match r with
         | Ok _ | Err Panicked => [DataEndpoint; DatagramBridge]
         | Err (Returned _) => []
         end), r)
  end.
