(* ===== verification/SessionPlane.v ===== *)
(** What a receiver's session relies on of the data plane and the provider: the
    accept of a ledger stays, a finished ledger is not changed any more, and
    reconciling leaves a ledger of the job in the store. *)

From stdpp Require Import prelude gmap strings.
From Stdlib Require Import ZArith Lia Strings.Byte.
From S2P Require Import Prelude Bytes ManifestV2 ManifestSpec ValidateTheorem OfferCodec Frames FramesProof.
From S2P Require Import Timeline Delivery DeliveryStore Ledger Names Proc ReceivePlane LedgerInv ReceiveInv ReceiveSafe Resume.
From S2P Require Import CoreError LocalFs FsProof Destination Provider ProviderCommit ProviderSafe RoomSession Session.

Local Open Scope Z_scope.

(** ** The accept stays *)

Create HintDb retains.

Section Accept.
Context (is_nfc : str -> bool) (blake3 : list byte -> list byte).
Context (zstd_decompress : list byte -> Z -> option (list byte)).
Context (ledger_to_vec : ReceiverDataPlaneLedgerV2 -> option (list byte)).
Context {S : Type} `{PayloadSink S} (gate : ResultGate).
Local Notation M := (proc (World ReceiverDataPlaneLedgerV2 S) ManifestV2DataError).

Definition retains {A} (call : M A) : Prop :=
  forall w w' r, call w = (w', r) -> rl_accept (record w') = rl_accept (record w).

Lemma retains_bind {A B} (call : M A) (f : A -> M B) : retains call -> (forall a, retains (f a)) -> retains (call ≫= f).
Proof.
  intros Hc Hf w w' r [(e & Hm & _)|(w1 & a & Hm & Hrest)]%bind_run; [by eapply Hc|].
  by rewrite (Hf _ _ _ _ Hrest), (Hc _ _ _ Hm).
Qed.
Lemma retains_ret {A} (a : A) : retains (mret a).
Proof. by intros w w' r [= <- _]. Qed.
Lemma retains_throw {A} e : retains (throw (A:=A) e).
Proof. by intros w w' r [= <- _]. Qed.
Lemma retains_throw_if b e : retains (throw_if b e).
Proof. by intros w w' r [= <- _]. Qed.
Lemma retains_pure {A} (x : data A) : retains (pure x).
Proof. by intros w w' r [= <- _]. Qed.
Lemma retains_recv : retains recv.
Proof. intros w w' r. unfold recv. destruct (incoming w); by intros [= <- _]. Qed.
Lemma retains_send f : retains (send_frame f).
Proof. intros w w' r. unfold send_frame. destruct (sends_left w); by intros [= <- _]. Qed.
Lemma retains_get : retains get_record.
Proof. by intros w w' r [= <- _]. Qed.
Lemma retains_incoming : retains get_incoming.
Proof. by intros w w' r [= <- _]. Qed.
Lemma retains_save : retains (save_ledger ledger_to_vec).
Proof.
  intros w w' r. unfold save_ledger, save_record. destruct (match save_faults w with [] => _ | _ => _ end) as [x y].
  destruct (ledger_save _ _ _ _) as [fs saved]. by intros [= <- _].
Qed.
Lemma retains_sink {A} (op : S -> S * data A) : retains (call_sink op).
Proof. intros w w' r. unfold call_sink. destruct (op (sink w)). by intros [= <- _]. Qed.
Lemma retains_completed v : retains (set_completed v).
Proof. by intros w w' r [= <- _]. Qed.
Lemma retains_report v : retains (report v).
Proof. by intros w w' r [= <- _]. Qed.
Lemma retains_advance amount total : retains (advance amount total).
Proof.
  unfold advance. apply retains_bind; [by intros w w' r [= <- _]|]. intros c.
  apply retains_bind; [apply retains_pure|]. intros c'. apply retains_bind; [apply retains_completed|intros _; apply retains_report].
Qed.
Lemma retains_attempt {A} (call : M A) : retains call -> retains (attempt call).
Proof. intros Hc w w' r. unfold attempt. destruct (call w) as [w1 x] eqn:Hm. intros [= <- _]. by eapply Hc. Qed.
Lemma retains_entry i : retains (entry_at i).
Proof. apply retains_bind; [apply retains_get|intros l; apply retains_pure]. Qed.
Lemma retains_modify i f : retains (modify_entry i f).
Proof.
  intros w w' r. unfold modify_entry, entry_at, mbind, proc_bind, get_record, pure, put_record.
  destruct (index_at _ i); by intros [= <- _].
Qed.
End Accept.

#[export] Hint Resolve retains_ret retains_throw retains_throw_if retains_pure retains_recv retains_send retains_get retains_incoming
  retains_save retains_sink retains_completed retains_report retains_advance retains_entry retains_modify : retains.

(** Goes through a program call by call. *)
Ltac retains :=
  repeat first
    [ progress (auto with retains)
    | apply retains_bind; [|intros ?]
    | apply retains_attempt
    | match goal with |- retains (match ?x with _ => _ end) => destruct x end ].

Section AcceptKept.
Context (is_nfc : str -> bool) (blake3 : list byte -> list byte).
Context (zstd_decompress : list byte -> Z -> option (list byte)).
Context (ledger_to_vec : ReceiverDataPlaneLedgerV2 -> option (list byte)).
Context {S : Type} `{PayloadSink S} (gate : ResultGate).

Lemma retains_frames fuel e i total : retains (receive_frames zstd_decompress ledger_to_vec fuel e i total).
Proof.
  induction fuel as [|fuel IH]; cbn [receive_frames]; [auto with retains|].
  unfold receive_digest, receive_block, receive_complete, receive_file_completion, retire_mismatch, digest_refused. retains.
Qed.
Lemma retains_entries es total hasher : retains (receive_entries is_nfc blake3 zstd_decompress ledger_to_vec es total hasher).
Proof.
  revert hasher. induction es as [|e es IH]; intros hasher; cbn [receive_entries]; [auto with retains|].
  apply retains_bind; [|auto]. pose proof retains_frames.
  unfold receive_entry, recv_entry_start, commit_start, receive_directory, receive_file. retains.
Qed.
Lemma retains_results rs : retains (S:=S) (send_results rs).
Proof. induction rs as [|r rs IH]; cbn [send_results]; retains. Qed.
Lemma retains_commit id es vs saved : retains (S:=S) (commit_entries id es vs saved).
Proof. revert vs saved. induction es as [|e es IH]; intros [|v vs] [|s saved]; cbn [commit_entries]; retains. Qed.
Lemma retains_complete id hasher : retains (S:=S) (receive_job_complete blake3 ledger_to_vec id hasher).
Proof.
  unfold receive_job_complete. apply retains_bind; [auto with retains|]. intros f. apply retains_bind; [retains|]. intros d.
  apply retains_bind; [auto with retains|]. intros _. intros w w' r.
  unfold mbind at 1, proc_bind at 1, get_record at 1. intros Hrun.
  apply bind_run in Hrun as [(e & Hm & _)|(w1 & [] & Hm & Hrest)].
  - destruct (rl_sender_completion_set_digest (record w)); [by eapply retains_throw_if|done].
  - assert (rl_accept (record w1) = rl_accept (record w)) as <-.
    { destruct (rl_sender_completion_set_digest (record w)); [by eapply retains_throw_if|by injection Hm as <-]. }
    revert Hrest. generalize r. revert w1 w' Hm. intros w1 w' _ r'.
    assert (Hk : retains (S:=S) (_ ← save_ledger ledger_to_vec; _ ← report (on_stage StagePayloadComplete); mret d)) by retains.
    apply Hk.
Qed.
Lemma receive_retains_accept offer : retains (receive is_nfc blake3 zstd_decompress ledger_to_vec gate offer).
Proof.
  unfold receive. pose proof retains_entries. pose proof retains_complete. pose proof retains_results. pose proof retains_commit.
  unfold finish_job. retains.
Qed.
End AcceptKept.

(** ** A finished ledger *)

Lemma completed_results l s :
  completed_summary l = Some s -> Forall (fun c => is_Some (cp_result c)) (rl_entries l).
Proof.
  unfold completed_summary. destruct (rl_sender_completion_set_digest l); [|done]. cbn.
  destruct (collect_options _) as [rs|] eqn:Hrs; [|done]. intros _. apply collect_options_Some in Hrs.
  apply Forall_forall. intros c Hc. apply (list_elem_of_fmap_2 cp_result) in Hc.
  change (map cp_result (rl_entries l)) with (cp_result <$> rl_entries l) in Hrs. rewrite Hrs in Hc.
  apply list_elem_of_fmap in Hc as (r & -> & _). by eexists.
Qed.

Lemma completed_digest l s : completed_summary l = Some s -> is_Some (rl_sender_completion_set_digest l).
Proof. unfold completed_summary. by destruct (rl_sender_completion_set_digest l). Qed.

Lemma index_at_elem {A} (l : list A) i x : index_at l i = Ok x -> x ∈ l.
Proof. unfold index_at. intros Hx%ok_or_ok. by eapply vec_get_elem. Qed.

Section Finished.
Context (is_nfc : str -> bool) (blake3 : list byte -> list byte).
Context (zstd_decompress : list byte -> Z -> option (list byte)).
Context (ledger_to_vec : ReceiverDataPlaneLedgerV2 -> option (list byte)).
Context (ledger_from_slice : list byte -> option ReceiverDataPlaneLedgerV2).
Context (serde : forall l bytes, ledger_to_vec l = Some bytes -> ledger_from_slice bytes = Some l).
Context {S : Type} `{PayloadSink S} (gate : ResultGate).
Context (l : ReceiverDataPlaneLedgerV2) (summary : ReceiverDataPlaneSummaryV2).
Context (Hdone : completed_summary l = Some summary).
Implicit Types (w : World ReceiverDataPlaneLedgerV2 S).

(** The ledger is in memory and in the store. *)
Definition settled w : Prop :=
  record w = l /\ ledger_load ledger_from_slice (store w) (rl_identity l) = Ok (Some l).

Lemma settled_core w w' : core w' = core w -> settled w -> settled w'.
Proof. intros Hc. injection Hc as Hr Hs _ _. unfold settled. by rewrite Hr, Hs. Qed.

Lemma settled_save w : settled w -> wp (save_ledger ledger_to_vec) (fun _ => settled) (fun _ => settled) w.
Proof.
  intros [Hr Hl]. apply wp_save_record. intros fault fs r w' Hs Hc _. injection Hc as Hr' Hs' _ _.
  assert (settled w').
  { split; [congruence|]. rewrite Hs'. rewrite Hr in Hs.
    apply (ledger_save_cases _ _ serde) in Hs as [[_ Hs]|[Hs _]]; [by rewrite Hs|done]. }
  by destruct r as [[]|].
Qed.

Lemma settled_entry i w (Q : ReceiverEntryCheckpointV2 -> World ReceiverDataPlaneLedgerV2 S -> Prop) (X : ManifestV2DataError -> World ReceiverDataPlaneLedgerV2 S -> Prop) :
  settled w -> (forall c, is_Some (cp_result c) -> Q c w) -> (forall e, X e w) -> wp (entry_at i) Q X w.
Proof.
  intros [Hr _] HQ HX. unfold entry_at. apply wp_bind, wp_get_record, wp_pure; [|done].
  intros c Hc. apply HQ. rewrite Hr in Hc. apply index_at_elem in Hc.
  pose proof (completed_results _ _ Hdone) as Hall. rewrite Forall_forall in Hall. by apply Hall.
Qed.

Lemma settled_entries es total hasher w :
  settled w ->
  wp (receive_entries is_nfc blake3 zstd_decompress ledger_to_vec es total hasher) (fun _ => settled) (fun _ => settled) w.
Proof.
  revert hasher w. induction es as [|e es IH]; intros hasher w Hw; cbn [receive_entries]; [done|].
  apply wp_bind. unfold receive_entry. apply wp_bind, wp_get_record, wp_bind, settled_entry; [done| |done].
  intros c Hc. rewrite bool_decide_eq_true_2 by done. apply wp_bind, wp_pure; [|done].
  intros k _. apply wp_pure; [|done]. intros h _. by apply IH.
Qed.

Lemma settled_send rs w : settled w -> wp (send_results rs) (fun _ => settled) (fun _ => settled) w.
Proof.
  revert w. induction rs as [|r rs IH]; intros w Hw; cbn [send_results]; [done|].
  apply wp_bind, wp_send; [done|]. intros w' Hc _. injection Hc as Hr Hs _ _. apply IH.
  destruct Hw as [Hw1 Hw2]. split; [congruence|]. by rewrite Hs.
Qed.

(** The data plane changes nothing of a finished ledger. *)
Lemma receive_settled offer w :
  settled w ->
  wp (receive is_nfc blake3 zstd_decompress ledger_to_vec gate offer) (fun _ => settled) (fun _ => settled) w.
Proof.
  intros Hw. unfold receive. apply wp_bind, wp_get_record, wp_bind, wp_pure; [|done]. intros _ _.
  apply wp_bind, wp_pure; [|done]. intros c _. apply wp_bind, wp_set_completed. intros w1 Hc1 _.
  apply wp_bind, wp_report. intros w2 Hc2 _. apply wp_bind, wp_report. intros w3 Hc3 _.
  assert (H3 : settled w3) by (eapply settled_core; [|exact Hw]; congruence).
  apply wp_bind. eapply wp_mono; [by apply settled_entries| |done]. intros h w4 H4. apply wp_bind.
  unfold receive_job_complete. apply wp_bind, wp_recv; [done|]. intros f w5 Hc5 _.
  apply (settled_core w4 w5) in H4; [|done].
  apply wp_bind. eapply (wp_mono _ _ (fun _ => settled) _ (fun _ => settled)); [|intros d w6 H6|done].
  { destruct f; try done. case_bool_decide; done. }
  apply wp_bind, wp_throw_if; [done|]. intros _. apply wp_bind, wp_get_record, wp_bind.
  rewrite (proj1 H6). destruct (completed_digest _ _ Hdone) as [d' Hd]. rewrite Hd. apply wp_throw_if; [done|]. intros _.
  apply wp_bind. eapply wp_mono; [by apply settled_save| |done]. intros [] w7 H7.
  apply wp_bind, wp_report. intros w8 Hc8 _. apply wp_ret. apply (settled_core _ _ Hc8) in H7.
  unfold finish_job. apply wp_bind, wp_get_record. rewrite (proj1 H7).
  replace (forallb _ (rl_entries l)) with true.
  2: { symmetry. apply forallb_forall. intros x Hx. apply bool_decide_eq_true.
       pose proof (completed_results _ _ Hdone) as Hall. rewrite Forall_forall in Hall. apply Hall. by apply list_elem_of_In. }
  apply wp_bind, wp_pure; [|done]. intros rs _. apply wp_bind.
  eapply wp_mono; [by apply settled_send| |done]. intros [] w9 H9.
  apply wp_bind, wp_report. intros w10 Hc10 _. apply wp_ret. by eapply settled_core.
Qed.
End Finished.

(** ** Reconciling *)

(** The provider is for the manifest it was opened with. *)
Definition same_manifest (p p' : Provider) : Prop := pv_manifest p' = pv_manifest p.
#[local] Instance same_manifest_preorder : PreOrder same_manifest.
Proof. split; [done|]. intros a b c Hab Hbc. unfold same_manifest in *. congruence. Qed.

Lemma manifest_on_fs {E A} (call : io A) : obeys (E:=E) (fun _ => True) same_manifest (on_fs call).
Proof. intros p _. unfold on_fs. by destruct (call (pv_fs p)). Qed.
Lemma manifest_fs_or {E A} (e : E) (call : io A) : obeys (fun _ => True) same_manifest (fs_or e call).
Proof. apply leaves_bind; [apply _|apply manifest_on_fs|]. intros r. apply leaves_pure, _. Qed.
Lemma reopen_same_job os (blake3 : list byte -> list byte) pending :
  obeys (fun _ => True) same_manifest (reopen_reuse os blake3 pending).
Proof.
  induction pending as [|[eid digest] rest IH]; cbn [reopen_reuse]; [apply leaves_ret, _|].
  assert (Hopen : forall e, obeys (fun _ => True) same_manifest (try_open_reuse os blake3 e digest)).
  { intros e. unfold try_open_reuse.
    repeat first [ apply leaves_ret, _ | apply leaves_throw, _ | apply leaves_pure, _ | apply manifest_on_fs
      | apply manifest_fs_or | apply leaves_bind; [apply _| |intros ?]
      | match goal with |- obeys _ _ (match ?x with _ => _ end) => destruct x end | done ]. }
  apply leaves_bind; [apply _|done|]. intros p. apply leaves_bind; [apply _|apply leaves_pure, _|]. intros e.
  apply leaves_bind; [apply _| |].
  { intros q _. specialize (Hopen e q I). unfold lift. by destruct (try_open_reuse os blake3 e digest q). }
  intros found. apply leaves_bind; [apply _|apply leaves_pure, _|]. intros reuse.
  apply leaves_bind; [apply _|done|]. intros _. exact IH.
Qed.

Lemma new_provider_manifest os to_lowercase is_nfc blake3 volume_of plan_to_vec plan_from_slice save_from_slice
    plan m faults ent w w' p :
  new_provider os to_lowercase is_nfc blake3 volume_of plan_to_vec plan_from_slice save_from_slice plan m faults ent w
    = (w', Ok p) -> pv_manifest p = m.
Proof.
  intros Hrun. unfold new_provider in Hrun.
  repeat match type of Hrun with
  | (_ ≫= _) _ = _ => apply bind_ok in Hrun as (? & ? & _ & Hrun)
  | (let (_, _) := ?x in _) _ = _ => destruct x
  end. by injection Hrun as _ <-.
Qed.

Section Reconcile.
Context (os : Platform) (is_nfc : str -> bool) (blake3 : list byte -> list byte).
Context (ledger_to_vec : ReceiverDataPlaneLedgerV2 -> option (list byte)).
Context (ledger_from_slice : list byte -> option ReceiverDataPlaneLedgerV2).
Context (serde : forall l bytes, ledger_to_vec l = Some bytes -> ledger_from_slice bytes = Some l).
Context (m : ManifestV2) (Hwf : wf_manifest m = true) (Hv : valid_manifest is_nfc m).
Local Notation ID := (mkJobGeneration (job_id m) (generation m)).
Local Notation lok := (ledger_ok is_nfc blake3 m (fun _ _ => True)).
Implicit Types (w : World ReceiverDataPlaneLedgerV2 Provider) (l : ReceiverDataPlaneLedgerV2).

Lemma reset_ok V accept e c :
  checkpoint_ok blake3 m V accept e c -> cp_result c = None -> 0 <= plaintext_size e ->
  checkpoint_ok blake3 m V accept e
    (mkCheckpoint (cp_entry_id c) None PayloadOpen 0 0 (known_digest e) None (cp_result c) true).
Proof.
  intros Hc Hr Hs. destruct Hc. constructor; cbn; rewrite ?Hr; try done.
  split; [done|]. split; [cbn; lia|]. intros _. cbn. split; [|lia].
  unfold blocks_of. apply Z.div_pos; [|done]. pose proof block_bytes_pos. lia.
Qed.

(** A ledger of the job is in the store; [stored_now]: it is the one in memory. *)
Definition stored_ledger (fs : files) l : Prop := ledger_load ledger_from_slice fs ID = Ok (Some l) /\ lok l.
Definition stored_now accept w : Prop :=
  outgoing w = [] /\ stored_ledger (store w) (record w) /\ rl_accept (record w) = accept.
Definition stored_some w : Prop := outgoing w = [] /\ exists l, stored_ledger (store w) l.

Lemma stored_weaken accept w : stored_now accept w -> stored_some w.
Proof. intros (Ho & Hl & _). split; [done|]. by exists (record w). Qed.

Lemma reset_checkpoint_ok l eid fs fault l' fs' r :
  stored_ledger fs l -> reset_payload_checkpoint ledger_to_vec l m eid fs fault = (l', fs', r) ->
  rl_accept l' = rl_accept l /\ lok l' /\
  (ledger_load ledger_from_slice fs' ID = Ok (Some l') \/ r <> Ok tt /\ ledger_load ledger_from_slice fs' ID = Ok (Some l)).
Proof.
  intros [Hl Hok]. unfold reset_payload_checkpoint.
  destruct (ok_or D_EntryOrder (vec_get (entries m) eid) ≫= _) as [e|er] eqn:Hm;
    [|intros [= <- <- <-]; split; [done|]; split; [done|]; by right].
  intros Hrun. inv_ok. bool_prop.
  match goal with Hx : vec_get (entries m) _ = _ |- _ => apply vec_get_Some in Hx as [Hpos He] end.
  match goal with Hx : vec_get (rl_entries l) _ = _ |- _ => apply vec_get_Some in Hx as [_ Hat] end.
  match type of Hrun with context [alter_entry eid ?f l] => set (reset := f) in Hrun end.
  assert (Hok' : lok (set_rl_completion None (alter_entry eid reset l))).
  { apply (ledger_ok_intro is_nfc blake3 m Hv); [exact (ledger_ok_header _ _ _ _ _ Hok)|].
    rewrite <- (Z2Nat.id eid) by done.
    refine (lo_entries _ _ _ _ _ (ledger_ok_alter is_nfc blake3 m Hv _ l (Z.to_nat eid) e reset Hok He _)).
    intros c Hc Hcok. simplify_eq. apply reset_ok; [done|by apply eq_None_not_Some|].
    pose proof (wf_manifest_entry _ _ Hwf (list_elem_of_lookup_2 _ _ _ He)) as Hw. unfold wf_entry, is_u64 in Hw. by bool_prop. }
  destruct (ledger_save _ _ _ _) as [fs1 saved] eqn:Hs in Hrun. injection Hrun as <- <- <-.
  split; [done|]. split; [done|]. apply (ledger_save_cases _ _ serde) in Hs.
  cbn [rl_identity set_rl_completion alter_entry set_rl_entries] in Hs. rewrite (ledger_ok_identity _ _ _ _ _ Hok) in Hs.
  destruct Hs as [[Hr Hs]|[Hs _]]; [right; by rewrite Hs|by left].
Qed.

Lemma reset_checkpoint_stored accept eid w :
  stored_now accept w ->
  wp (reset_checkpoint ledger_to_vec m eid) (fun _ => stored_now accept) (fun _ => stored_some) w.
Proof.
  intros (Ho & Hst & Ha). unfold wp, reset_checkpoint.
  destruct (match save_faults w with [] => _ | _ => _ end) as [fault faults].
  destruct (reset_payload_checkpoint _ _ _ _ _ _) as [[l' fs'] r] eqn:Hrun.
  destruct (reset_checkpoint_ok _ _ _ _ _ _ _ Hst Hrun) as (Hacc & Hok & Hload).
  destruct r as [[]|e].
  - destruct Hload as [Hload|[]]; [|done]. repeat split; cbn; [done|done|apply Hok..|congruence].
  - split; [done|]. destruct Hload as [Hload|[_ Hload]]; [by exists l'|]. exists (record w). split; [done|]. apply Hst.
Qed.

Lemma stored_core accept w w' s :
  core w' = (record w, store w, s, outgoing w) -> stored_now accept w -> stored_now accept w'.
Proof. intros Hc. injection Hc as Hr Hs _ Ho. unfold stored_now. by rewrite Hr, Hs, Ho. Qed.

Lemma stored_sink accept {A} (op : Provider -> Provider * data A) w (Q : A -> _ -> Prop) :
  stored_now accept w -> (forall a w', stored_now accept w' -> Q a w') ->
  wp (call_sink op) Q (fun _ => stored_some) w.
Proof.
  intros Hw HQ. apply wp_call_sink. intros s [a|e] w' _ Hc _; apply (stored_core _ _ _ _ Hc) in Hw;
    [by apply HQ|by eapply stored_weaken].
Qed.

Lemma reconcile_from_stored accept bs w :
  stored_now accept w ->
  wp (reconcile_from ledger_to_vec m bs) (fun _ => stored_now accept) (fun _ => stored_some) w.
Proof.
  revert w. induction bs as [|[[[eid next] bytes] complete] bs IH]; intros w Hw; cbn [reconcile_from]; [done|].
  destruct (_ && _); [by apply IH|]. apply wp_bind. eapply stored_sink; [done|]. intros lost w1 H1.
  destruct lost; [|by apply IH]. apply wp_bind. eapply stored_sink; [done|]. intros [] w2 H2.
  apply wp_bind. eapply wp_mono; [by apply reset_checkpoint_stored| |done]. intros [] w3 H3. by apply IH.
Qed.

Lemma reconcile_stored accept w :
  stored_now accept w -> pv_manifest (sink w) = m ->
  wp (reconcile_resume os blake3 ledger_to_vec) (fun _ => stored_now accept) (fun _ => stored_some) w.
Proof.
  intros Hw Hm. unfold reconcile_resume. apply wp_bind, wp_get_record, wp_bind, wp_call_sink.
  intros s r w1 Hop Hc _. pose proof (stored_core _ _ _ _ Hc Hw) as H1.
  destruct r as [[]|e]; [|by eapply stored_weaken].
  apply wp_bind, wp_pure; [|intros ? _; by eapply stored_weaken]. intros bs _.
  apply wp_bind, wp_call_sink. intros s2 r2 w2 Hop2 Hc2 _. injection Hop2 as <- <-.
  apply (stored_core _ _ _ _ Hc2) in H1. injection Hc as _ _ Hsink _.
  destruct (reopen_same_job os blake3 (pending_reuse_entries (record w)) (sink w) I) as [_ Hsame].
  rewrite Hop in Hsame. rewrite Hsink. cbn in Hsame. rewrite Hsame, Hm. by apply reconcile_from_stored.
Qed.

(** Of a finished job nothing is pending. *)
Lemma finished_pending l s : completed_summary l = Some s ->
  pending_payload_boundaries l = Ok [].
Proof.
  intros Hall%completed_results. unfold pending_payload_boundaries.
  induction Hall as [|c cs [r Hr] _ IH]; [done|]. cbn. rewrite Hr. cbn. by rewrite IH.
Qed.
Lemma reconcile_settled l s w :
  completed_summary l = Some s -> settled ledger_from_slice l w ->
  wp (reconcile_resume os blake3 ledger_to_vec) (fun _ => settled ledger_from_slice l) (fun _ => settled ledger_from_slice l) w.
Proof.
  intros Hs Hw. unfold reconcile_resume. apply wp_bind, wp_get_record, wp_bind, wp_call_sink.
  assert (Hcore : forall w1 w2 s2, core w2 = (record w1, store w1, s2, outgoing w1) ->
    settled ledger_from_slice l w1 -> settled ledger_from_slice l w2).
  { intros w1 w2 s2 Hc [Hr Hl]. injection Hc as Hr2 Hs2 _ _. unfold settled. by rewrite Hr2, Hs2. }
  intros s1 r w1 _ Hc _. pose proof (Hcore _ _ _ Hc Hw) as H1. destruct r as [[]|e]; [|done].
  rewrite (proj1 Hw), (finished_pending _ _ Hs). apply wp_bind, wp_pure; [|done]. intros bs [= <-].
  apply wp_bind, wp_call_sink. intros s2 r2 w2 Hop2 Hc2 _. injection Hop2 as <- <-. by eapply Hcore.
Qed.
End Reconcile.
