(* ===== verification/SessionProof.v ===== *)
(** What a receiver's session keeps, for every peer and however its writes fail: the
    three stores never contradict each other, and whatever the session tells the
    sender is stored when it is said. *)

From stdpp Require Import prelude gmap strings.
From Stdlib Require Import ZArith Lia Strings.Byte.
From S2P Require Import Prelude Bytes ManifestV2 ManifestSpec ValidateTheorem OfferCodec Frames FramesProof.
From S2P Require Import Timeline Delivery DeliveryStore Ledger Names Proc ReceivePlane LedgerInv ReceiveInv ReceiveSafe Resume.
From S2P Require Import CoreError Invite Pairing Auth LocalFs Destination Provider ProviderCommit SendPlane RoomSession Session SessionPlane.

Local Open Scope Z_scope.

Section Promises.
Context (io_kind : IoErrorKind) (core_error : CoreError).
Context (os : Platform) (to_lowercase : str -> str) (is_nfc : str -> bool).
Context (blake3 : list byte -> list byte) (derive_key : str -> list byte -> list byte).
Context (keyed_hash : list byte -> list byte -> list byte).
Context (zstd_decompress : list byte -> Z -> option (list byte)).
Context (volume_of : path -> str) (device_of : path -> Z).
Context (plan_to_vec : DestinationWritePlanV2 -> option (list byte)).
Context (plan_from_slice : list byte -> option DestinationWritePlanV2).
Context (save_to_vec : LocalSaveLedgerV2 -> option (list byte)).
Context (save_from_slice : list byte -> option LocalSaveLedgerV2).
Context (ledger_to_vec : ReceiverDataPlaneLedgerV2 -> option (list byte)).
Context (ledger_from_slice : list byte -> option ReceiverDataPlaneLedgerV2).
Context (receiver_to_vec : ReceiverDeliveryRecordV2 -> option (list byte)).
Context (receiver_from_slice : list byte -> option ReceiverDeliveryRecordV2).
Context (gate : ResultGate).
Context (m : ManifestV2).

#[local] Instance promise_sink : PayloadSink Provider := local_sink os blake3 derive_key device_of save_to_vec.
#[local] Instance promise_store : DeliveryRecord ReceiverDeliveryRecordV2 :=
  receiver_delivery_store is_nfc blake3 derive_key keyed_hash receiver_to_vec receiver_from_slice.
Local Notation ID := (mkJobGeneration (job_id m) (generation m)).
Local Notation stored := (stored_ledger is_nfc blake3 ledger_from_slice m).
Implicit Types (s : Receiver) (st : Stores) (l : ReceiverDataPlaneLedgerV2).

(** ** Statements *)

(** The delivery record of a finished ledger. *)
Definition record_of l (summary : ReceiverDataPlaneSummaryV2) (r : ReceiverDeliveryRecordV2) : Prop :=
  rd_identity r = ID /\ rd_manifest_digest r = rl_manifest_digest l /\
  rd_entry_results r = rsum_entry_results summary /\ rd_proof_capability r = proof_capability (rl_accept l).

(** The stored delivery record, if there is one, is that of the stored ledger. *)
Definition delivery_backed st (r : ReceiverDeliveryRecordV2) : Prop :=
  load (delivery_files st) ID = Ok (Some r) /\
  exists l summary, stored (data_files st) l /\ completed_summary l = Some summary /\ record_of l summary r.

(** What the stores of the job say fits together. *)
Definition stores_ok st : Prop :=
  (forall l, ledger_load ledger_from_slice (data_files st) ID = Ok (Some l) -> stored (data_files st) l) /\
  (forall r, load (delivery_files st) ID = Ok (Some r) -> delivery_backed st r).

(** What a frame says is in the stores. *)
Definition recorded st (f : ManifestV2Frame) : Prop :=
  match f with
  | Accept accept => exists l, stored (data_files st) l /\ rl_accept l = accept
  | ResumeStatus status => exists l request, stored (data_files st) l /\
      status = answered_status derive_key keyed_hash l request
  | DeliveryProof proof => exists r, delivery_backed st r /\ rd_delivery_proof r = Some proof
  | _ => backed ledger_from_slice m f (data_files st)
  end.

(** A proof that was sent is that of the stored record. *)
Definition standing s : Prop :=
  forall proof st, (DeliveryProof proof, st) ∈ rv_sent s ->
    exists r, load (delivery_files (rv_stores s)) ID = Ok (Some r) /\ rd_delivery_proof r = Some proof.

Definition promises s : Prop :=
  stores_ok (rv_stores s) /\ Forall (fun p => recorded p.2 p.1) (rv_sent s) /\ standing s.

(** ** Steps that touch neither ledgers nor records *)

Definition calm s s' : Prop :=
  data_files (rv_stores s') = data_files (rv_stores s) /\
  delivery_files (rv_stores s') = delivery_files (rv_stores s) /\ rv_sent s' = rv_sent s.
#[local] Instance calm_preorder : PreOrder calm.
Proof. split; [done|]. unfold calm. intros a b c (?&?&?) (?&?&?). split_and!; congruence. Qed.

Lemma calm_promises s s' : calm s s' -> promises s -> promises s'.
Proof.
  intros (Hd & Hv & Hs) Hp. unfold promises, standing, stores_ok, delivery_backed in *. by rewrite Hd, Hv, Hs.
Qed.

Definition calmly {A} (c : receiving A) : Prop := forall s s' r, c s = (s', r) -> calm s s'.

Lemma calmly_bind {A B} (c : receiving A) (f : A -> receiving B) :
  calmly c -> (forall a, calmly (f a)) -> calmly (c ≫= f).
Proof.
  intros Hc Hf s s' r [(e & Hm & _)|(s1 & a & Hm & Hrest)]%bind_run; [by eapply Hc|].
  etransitivity; [by eapply Hc|by eapply Hf].
Qed.
Lemma calmly_ret {A} (a : A) : calmly (mret a).
Proof. by intros s s' r [= <- _]. Qed.
Lemma calmly_throw {A} e : calmly (throw (A:=A) e).
Proof. by intros s s' r [= <- _]. Qed.
Lemma calmly_raise {E A} (error : E -> RoomError) (x : result E A) : calmly (raise error x).
Proof. by intros s s' r [= <- _]. Qed.
Lemma calmly_stores : calmly rv_stores_now.
Proof. by intros s s' r [= <- _]. Qed.
Lemma calmly_random : calmly rv_random.
Proof. by intros s s' r [= <- _]. Qed.
Lemma calmly_report v : calmly (rv_report v).
Proof. by intros s s' r [= <- _]. Qed.
Lemma calmly_planning {A} (call : proc Fs DestinationPlanErrorV2 A) : calmly (planning io_kind call).
Proof. intros s s' r. unfold planning. destruct (call (rv_fs s)). by intros [= <- _]. Qed.
Lemma calmly_save_plan plan : calmly (save_plan io_kind os to_lowercase plan_to_vec plan).
Proof.
  intros s s' r. unfold save_plan, rv_save. destruct (plan_save _ _ _ _ _ _). by intros [= <- _].
Qed.
Lemma calmly_provider plan :
  calmly (open_provider io_kind os to_lowercase is_nfc blake3 volume_of plan_to_vec plan_from_slice save_from_slice plan m).
Proof. intros s s' r. unfold open_provider. destruct (new_provider _ _ _ _ _ _ _ _ _ _ _ _ _). by intros [= <- _]. Qed.
Lemma provider_manifest plan s s' p :
  open_provider io_kind os to_lowercase is_nfc blake3 volume_of plan_to_vec plan_from_slice save_from_slice plan m s
    = (s', Ok p) -> pv_manifest p = m.
Proof.
  unfold open_provider. destruct (new_provider _ _ _ _ _ _ _ _ _ _ _ _ _) as [disk r] eqn:Hrun.
  intros [= _ ->%map_err_ok]. by eapply new_provider_manifest.
Qed.
Lemma calmly_plan offer initial destination token :
  calmly (session_plan io_kind os to_lowercase blake3 volume_of plan_to_vec plan_from_slice offer initial destination token).
Proof.
  unfold session_plan. apply calmly_bind; [apply calmly_stores|]. intros st.
  apply calmly_bind; [apply calmly_raise|]. intros [plan|].
  - apply calmly_bind; [apply calmly_planning|]. intros _. apply calmly_ret.
  - destruct initial; [|apply calmly_throw]. apply calmly_bind; [apply calmly_planning|]. intros plan.
    apply calmly_bind; [apply calmly_save_plan|]. intros _. apply calmly_ret.
Qed.

(** What a calm call keeps. *)
Definition stable (P : Receiver -> Prop) : Prop := forall s s', calm s s' -> P s -> P s'.

Lemma wp_calm {A} (c : receiving A) (P X : Receiver -> Prop) (Q : A -> Receiver -> Prop) s :
  calmly c -> stable P -> P s -> (forall s', P s' -> X s') -> (forall a s', c s = (s', Ok a) -> P s' -> Q a s') ->
  wp c Q (fun _ => X) s.
Proof.
  intros Hc HP Hs HX HQ. unfold wp. destruct (c s) as [s' [a|e]] eqn:Hrun.
  - apply HQ; [done|]. eapply HP; [|exact Hs]. by eapply Hc.
  - apply HX. eapply HP; [|exact Hs]. by eapply Hc.
Qed.

Lemma stable_promises : stable promises.
Proof. intros s s'. apply calm_promises. Qed.
Lemma stable_and P P' : stable P -> stable P' -> stable (fun s => P s /\ P' s).
Proof. intros H1 H2 s s' Hc []. eauto. Qed.
Lemma stable_or P P' : stable P -> stable P' -> stable (fun s => P s \/ P' s).
Proof. intros H1 H2 s s' Hc []; eauto. Qed.
Lemma stable_const P : stable (fun _ => P).
Proof. by intros s s' _. Qed.
Lemma stable_data P : stable (fun s => P (data_files (rv_stores s))).
Proof. by intros s s' (-> & _). Qed.
Lemma stable_delivery P : stable (fun s => P (delivery_files (rv_stores s))).
Proof. by intros s s' (_ & -> & _). Qed.
Lemma stable_backed r : stable (fun s => delivery_backed (rv_stores s) r).
Proof. intros s s' (Hd & Hv & _). unfold delivery_backed. by rewrite Hd, Hv. Qed.

(** ** The ledger *)

Context (ledger_serde : forall l bytes, ledger_to_vec l = Some bytes -> ledger_from_slice bytes = Some l).
Context (receiver_serde : forall r bytes, receiver_to_vec r = Some bytes -> receiver_from_slice bytes = Some r).
Context (Hwf : wf_manifest m = true).
Context (offer : ManifestOfferV2) (Hoffer : build_manifest_offer_v2 is_nfc blake3 m = Ok offer).

Lemma offer_manifest : manifest offer = m.
Proof. unfold build_manifest_offer_v2 in Hoffer. destruct (validate is_nfc m) as [[]|]; [|done]. by injection Hoffer as <-. Qed.
Lemma offer_identity : identity_of offer = ID.
Proof. unfold identity_of. by rewrite offer_manifest. Qed.
Lemma offer_valid : valid_manifest is_nfc m.
Proof.
  apply validate_sound; [done|]. unfold build_manifest_offer_v2 in Hoffer. by destruct (validate is_nfc m) as [[]|].
Qed.

Definition with_ledger l s : Prop := promises s /\ stored (data_files (rv_stores s)) l.
Lemma with_ledger_calm l : stable (with_ledger l).
Proof. apply stable_and; [apply stable_promises|apply (stable_data (fun fs => stored fs l))]. Qed.
Lemma with_ledger_promises l s : with_ledger l s -> promises s.
Proof. by intros []. Qed.

Lemma initial_plans plan nonce capability accept :
  create_initial_accept plan offer nonce capability = Ok accept -> wf_plans accept.
Proof.
  unfold create_initial_accept. intros H. inv_ok. destruct (bool_decide _); [done|]. inv_ok.
  unfold wf_plans. cbn. by apply Forall_map, Forall_forall.
Qed.

Definition no_proof (f : ManifestV2Frame) : Prop := match f with DeliveryProof _ => False | _ => True end.

(** The data store holds another ledger of the job, and no delivery record depends on
    the one before. *)
Lemma promises_data s s' l' new :
  promises s -> delivery_files (rv_stores s') = delivery_files (rv_stores s) ->
  rv_sent s' = rv_sent s ++ new -> Forall (fun p => recorded p.2 p.1) new ->
  Forall (fun p => no_proof p.1) new -> stored (data_files (rv_stores s')) l' ->
  (forall l summary, stored (data_files (rv_stores s)) l -> completed_summary l = Some summary ->
     ledger_load ledger_from_slice (data_files (rv_stores s')) ID = Ok (Some l)) ->
  promises s'.
Proof.
  intros ([_ Hr] & Hall & Hpr) Hd Hsent Hnew Hno Hl' Hkeep. split; [|rewrite Hsent; split; [by apply Forall_app|]].
  2: { intros proof st. rewrite Hsent, Hd. intros [Hin|Hin]%elem_of_app; [by eapply Hpr|].
       rewrite Forall_forall in Hno. by destruct (Hno _ Hin). }
  split.
  - intros l Hl. pose proof Hl' as [Hl2 _]. rewrite Hl in Hl2. by injection Hl2 as ->.
  - intros r Hload. rewrite Hd in Hload. destruct (Hr r Hload) as (_ & l & summary & Hl & Hs & Hrec).
    split; [by rewrite Hd|]. exists l, summary. split; [|done]. split; [by eapply Hkeep|apply Hl].
Qed.

Lemma save_data_ok l s (Q : unit -> Receiver -> Prop) :
  promises s -> ledger_load ledger_from_slice (data_files (rv_stores s)) ID = Ok None ->
  ledger_ok is_nfc blake3 m (fun _ _ => True) l -> (forall s', with_ledger l s' -> Q tt s') ->
  wp (save_data io_kind core_error ledger_to_vec l) Q (fun _ => promises) s.
Proof.
  intros Hp Hnone Hl HQ. unfold wp, save_data, rv_save.
  destruct (ledger_save _ _ _ _) as [fs r] eqn:Hs. apply (ledger_save_cases _ _ ledger_serde) in Hs.
  rewrite (ledger_ok_identity _ _ _ _ _ Hl) in Hs. destruct Hs as [[Hr Hs]|[Hs _]].
  - destruct r as [[]|e]; [done|]. cbn. destruct Hp as ([Hd Hv] & Hall & Hpr). split; [|done]. split; cbn.
    + intros l'. rewrite Hs. intros Hl'. congruence.
    + intros r Hr'. destruct (Hv r Hr') as (_ & l' & ? & [Hl' _] & _). congruence.
  - assert (Hnew : with_ledger l (rv_set_stores (mkStores (plan_files (rv_stores s)) fs (delivery_files (rv_stores s)))
                     (tail (rv_faults s)) s)).
    { split; [|done]. eapply (promises_data s _ l []); cbn; [done|done|by rewrite app_nil_r|done|done|done|].
      intros l' ? [Hl' _]. congruence. }
    destruct r as [[]|e]; cbn; [by apply HQ|apply Hnew].
Qed.

Lemma session_ledger_ok plan initial s :
  promises s ->
  wp (session_ledger io_kind core_error is_nfc blake3 ledger_to_vec ledger_from_slice offer plan initial)
    with_ledger (fun _ => promises) s.
Proof.
  intros Hp. unfold session_ledger. apply wp_bind. unfold wp at 1, rv_stores_now.
  apply wp_bind, wp_pure; [|done]. rewrite offer_identity, offer_manifest. intros [l|] Hload%map_err_ok.
  - apply wp_bind, wp_pure; [|done]. intros _ _. apply wp_ret. split; [done|]. by apply Hp.
  - destruct initial; [|by apply wp_throw].
    set (P s := promises s /\ ledger_load ledger_from_slice (data_files (rv_stores s)) ID = Ok None).
    assert (HP : stable P)
      by (apply stable_and; [apply stable_promises|apply (stable_data (fun fs => ledger_load ledger_from_slice fs ID = Ok None))]).
    apply wp_bind. eapply (wp_calm _ P); [apply calmly_random|done|done|by intros ? []|]. intros nonce s1 _ H1.
    apply wp_bind. eapply (wp_calm _ P); [apply calmly_random|done|exact H1|by intros ? []|].
    intros capability s2 _ [H2 Hnone]. apply wp_bind, wp_pure; [|done]. intros accept Ha%map_err_ok.
    apply wp_bind, wp_pure; [|done]. intros l Hl%map_err_ok. apply wp_bind. apply save_data_ok; [done|done| |].
    + eapply fresh_ledger; [done|by eapply initial_plans|done|done].
    + intros s3 H3. by apply wp_ret.
Qed.

(** ** The data plane in a session *)

Local Notation plane_call A := (proc (World ReceiverDataPlaneLedgerV2 Provider) ManifestV2DataError A).
Definition plane_world s l (p : Provider) : World ReceiverDataPlaneLedgerV2 Provider :=
  mkWorld (rv_incoming s) [] (rv_sends_left s) (rv_faults s) (data_files (rv_stores s)) l p 0 [].
Definition plane_stores st (fs : files) : Stores := mkStores (plan_files st) fs (delivery_files st).

(** From a run of the data plane to the session: the data store is the plane's, each
    of its frames was sent with it, and the other stores stay. *)
Lemma wp_plane {A} l p (call : plane_call A) (PQ : A -> World ReceiverDataPlaneLedgerV2 Provider -> Prop)
    (PX : World ReceiverDataPlaneLedgerV2 Provider -> Prop) (Q : ReceiverDataPlaneLedgerV2 * Provider * A -> Receiver -> Prop)
    (X : Receiver -> Prop) s :
  wp call PQ (fun _ => PX) (plane_world s l p) ->
  (forall a w s', PQ a w -> rv_stores s' = plane_stores (rv_stores s) (store w) ->
     rv_sent s' = rv_sent s ++ map (fun f => (f.1, plane_stores (rv_stores s) f.2)) (outgoing w) ->
     Q (record w, sink w, a) s') ->
  (forall w s', PX w -> rv_stores s' = plane_stores (rv_stores s) (store w) ->
     rv_sent s' = rv_sent s ++ map (fun f => (f.1, plane_stores (rv_stores s) f.2)) (outgoing w) -> X s') ->
  wp (on_data_plane io_kind core_error l p call) Q (fun _ => X) s.
Proof.
  intros Hc HQ HX. unfold wp, on_data_plane in *. fold (plane_world s l p).
  destruct (call (plane_world s l p)) as [w [a|e]]; [by apply (HQ a w)|by apply (HX w)].
Qed.

(** Before a call of the plane, its ledger is in its store. *)
Lemma plane_stored l p s : with_ledger l s -> stored_now is_nfc blake3 ledger_from_slice m (rl_accept l) (plane_world s l p).
Proof. intros [_ Hl]. split_and!; done. Qed.
Lemma plane_settled l p s : with_ledger l s -> settled ledger_from_slice l (plane_world s l p).
Proof. intros [_ [Hl Hok]]. split; [done|]. by rewrite (ledger_ok_identity _ _ _ _ _ Hok). Qed.

Lemma settled_load l s (w : World ReceiverDataPlaneLedgerV2 Provider) :
  with_ledger l s -> (forall summary, completed_summary l = Some summary -> settled ledger_from_slice l w) ->
  forall summary, completed_summary l = Some summary -> ledger_load ledger_from_slice (store w) ID = Ok (Some l).
Proof.
  intros [_ [_ Hok]] Hx summary Hsum. destruct (Hx _ Hsum) as [_ Hl].
  by rewrite (ledger_ok_identity _ _ _ _ _ Hok) in Hl.
Qed.

(** A plane that leaves a ledger in the store, and a finished one as it is. *)
Definition plane_safe l (w : World ReceiverDataPlaneLedgerV2 Provider) : Prop :=
  (exists l', stored (store w) l') /\ Forall (fun f => backed ledger_from_slice m f.1 f.2) (outgoing w) /\
  forall summary, completed_summary l = Some summary -> ledger_load ledger_from_slice (store w) ID = Ok (Some l).

Lemma backed_recorded st f : backed ledger_from_slice m f (data_files st) -> recorded st f.
Proof. intros Hb. unfold recorded. destruct f; try done; by destruct Hb as (? & _ & []). Qed.

Lemma plane_promises l w s s' :
  with_ledger l s -> plane_safe l w -> rv_stores s' = plane_stores (rv_stores s) (store w) ->
  rv_sent s' = rv_sent s ++ map (fun f => (f.1, plane_stores (rv_stores s) f.2)) (outgoing w) -> promises s'.
Proof.
  intros [Hp [Hl Hok]] ((l' & Hl') & Hout & Hdone) Hst Hsent.
  eapply (promises_data s s' l'); [done|by rewrite Hst|exact Hsent| | |by rewrite Hst|].
  - apply Forall_map. eapply Forall_impl; [exact Hout|]. intros [f fs] Hb. cbn in *. by apply backed_recorded.
  - apply Forall_map. eapply Forall_impl; [exact Hout|]. intros [f fs] (l2 & _ & Hb). cbn in *. by destruct f.
  - intros l2 summary [Hl2 _] Hs. rewrite Hl in Hl2. injection Hl2 as <-. rewrite Hst. by eapply Hdone.
Qed.

(** *** Reconciling *)

Lemma reconcile_safe l p s (Q : ReceiverDataPlaneLedgerV2 * Provider * unit -> Receiver -> Prop) :
  with_ledger l s -> pv_manifest p = m ->
  (forall l' p' s', with_ledger l' s' -> rl_accept l' = rl_accept l -> Q (l', p', tt) s') ->
  wp (on_data_plane io_kind core_error l p (reconcile_resume os blake3 ledger_to_vec)) Q (fun _ => promises) s.
Proof.
  intros Hs Hp HQ.
  pose proof (reconcile_stored os is_nfc blake3 ledger_to_vec ledger_from_slice ledger_serde m Hwf offer_valid
    (rl_accept l) (plane_world s l p) (plane_stored l p s Hs) Hp) as Hw.
  assert (Hd : forall summary, completed_summary l = Some summary ->
    wp (reconcile_resume os blake3 ledger_to_vec) (fun _ => settled ledger_from_slice l) (fun _ => settled ledger_from_slice l)
      (plane_world s l p)).
  { intros summary Hsum. eapply reconcile_settled; [done|]. by apply plane_settled. }
  eapply (wp_plane _ _ _ (fun _ w => stored_now is_nfc blake3 ledger_from_slice m (rl_accept l) w /\ plane_safe l w) (plane_safe l)).
  - unfold wp in *. destruct (reconcile_resume _ _ _ _) as [w [[]|e]].
    + split; [done|]. pose proof Hw as (Ho & Hst & _). split_and!; [by exists (record w)|by rewrite Ho|].
      apply (settled_load l s); [done|]. intros summary Hsum. exact (Hd _ Hsum).
    + destruct Hw as (Ho & Hst). split_and!; [done|by rewrite Ho|].
      apply (settled_load l s); [done|]. intros summary Hsum. exact (Hd _ Hsum).
  - intros [] w s' [(Ho & Hst & Ha) Hsafe] Hst' Hsent. apply HQ; [|done]. split; [by eapply plane_promises|].
    by rewrite Hst'.
  - intros w s' Hsafe Hst' Hsent. by eapply plane_promises.
Qed.

(** *** Receiving *)

Local Notation receive_offer := (ReceivePlane.receive is_nfc blake3 zstd_decompress ledger_to_vec gate offer).

Lemma receive_safe l p s (Q : ReceiverDataPlaneLedgerV2 * Provider * ReceiverDataPlaneSummaryV2 -> Receiver -> Prop) :
  with_ledger l s ->
  (forall l' p' summary s', with_ledger l' s' -> rl_accept l' = rl_accept l -> completed_summary l' = Some summary ->
     delivery_files (rv_stores s') = delivery_files (rv_stores s) -> Q (l', p', summary) s') ->
  wp (on_data_plane io_kind core_error l p receive_offer) Q (fun _ => promises) s.
Proof.
  intros Hs HQ.
  assert (Hstart : session_start is_nfc blake3 ledger_to_vec ledger_from_slice (fun _ _ _ => True) (manifest offer) (plane_world s l p)).
  { rewrite offer_manifest. destruct Hs as [_ [Hl Hok]]. split_and!; done. }
  assert (Hd : forall summary, completed_summary l = Some summary ->
    wp receive_offer (fun _ => settled ledger_from_slice l) (fun _ => settled ledger_from_slice l) (plane_world s l p)).
  { intros summary Hsum. eapply receive_settled; [done|done|]. by apply plane_settled. }
  eapply (wp_plane _ _ _ (fun summary w => (stored (store w) (record w) /\ rl_accept (record w) = rl_accept l /\
      completed_summary (record w) = Some summary) /\ plane_safe l w) (plane_safe l)).
  - unfold wp in *. destruct (receive_offer (plane_world s l p)) as [w r] eqn:Hrun.
    pose proof (receive_retains_accept _ _ _ _ _ _ _ _ _ Hrun) as Hacc. cbn in Hacc.
    pose proof (receive_run _ _ _ _ _ _ _ _ _ _ _ Hstart Hrun) as Hend. rewrite offer_manifest in Hend.
    assert (Hfin : forall summary, completed_summary l = Some summary -> ledger_load ledger_from_slice (store w) ID = Ok (Some l)).
    { apply (settled_load l s); [done|]. intros summary Hsum. specialize (Hd _ Hsum). by destruct r. }
    destruct r as [summary|e].
    + destruct Hend as ((Hok & [_ Hout] & _) & Hdur & Hsum). split; [split_and!; done|]. split_and!; [by exists (record w)|done|done].
    + destruct Hend as [(l' & Hl' & Hok') Hout]. split_and!; [by exists l'|done|done].
  - intros summary w s' [(Hst & Ha & Hsum) Hsafe] Hst' Hsent. apply HQ; [|done|done|by rewrite Hst'].
    split; [by eapply plane_promises|]. by rewrite Hst'.
  - intros w s' Hsafe Hst' Hsent. by eapply plane_promises.
Qed.

(** ** Answering the sender *)

Lemma send_recorded f l s (Q : unit -> Receiver -> Prop) :
  with_ledger l s -> recorded (rv_stores s) f -> no_proof f ->
  (forall s', with_ledger l s' -> Q tt s') -> wp (rv_send f) Q (fun _ => promises) s.
Proof.
  intros [(Hst & Hall & Hpr) Hl] Hf Hno HQ. unfold wp, rv_send. destruct (rv_sends_left s); [done|]. apply HQ.
  split; [|done]. split; [done|]. split; [apply Forall_app; split; [done|]; by constructor|].
  intros proof st [Hin|[= <- _]%list_elem_of_singleton]%elem_of_app; [by eapply Hpr|done].
Qed.

Lemma session_answer_ok plan l request s :
  with_ledger l s ->
  wp (session_answer io_kind core_error os to_lowercase is_nfc blake3 derive_key keyed_hash volume_of plan_to_vec
        plan_from_slice save_from_slice ledger_to_vec offer plan l request)
    (fun '(l', _, _) s' => with_ledger l' s' /\ rl_accept l' = rl_accept l) (fun _ => promises) s.
Proof.
  intros Hs. assert (Hp : promises s) by apply Hs. unfold session_answer. rewrite offer_manifest.
  destruct request as [request|].
  - apply wp_bind, wp_pure; [|done]. intros _ _. apply wp_bind, wp_pure; [|done]. intros intent _.
    apply wp_bind.
    eapply (wp_mono _ _ (fun '(l', _) s' => with_ledger l' s' /\ rl_accept l' = rl_accept l) _ (fun _ => promises));
      [| |done].
    + destruct intent; [|by apply wp_ret]. apply wp_bind.
      eapply wp_calm; [apply calmly_provider|apply with_ledger_calm|done|apply with_ledger_promises|].
      intros p s1 Hm%provider_manifest H1. apply wp_bind. apply reconcile_safe; [done|done|].
      intros l' p' s' H' Ha. by apply wp_ret.
    + intros [l' p] s1 [H1 Ha]. apply wp_bind. eapply (send_recorded _ l'); [done| |done|].
      * exists l', request. split; [apply H1|]. unfold answered_status, answer_status. cbn.
        rewrite offer_identity, Ha. by rewrite (ledger_ok_identity _ _ _ _ _ (proj2 (proj2 H1))).
      * intros s2 H2. by apply wp_ret.
  - apply wp_bind, wp_throw_if; [done|]. intros _. apply wp_bind. eapply (send_recorded _ l); [done| |done|].
    + exists l. split; [apply Hs|done].
    + intros s2 H2. by apply wp_ret.
Qed.

(** ** The proof *)

(** A session that ended well: the ledger is finished, and the proof whose digest it
    reports is stored. *)
Definition proved l (summary : ReceiverDataPlaneSummaryV2) (digest : ContentDigestV2) s : Prop :=
  with_ledger l s /\ completed_summary l = Some summary /\
  exists r proof, delivery_backed (rv_stores s) r /\ rd_delivery_proof r = Some proof /\
    canonical_manifest_v2_frame_body_digest is_nfc blake3 (DeliveryProof proof) = Ok digest.

Lemma receiver_new_record l summary r s :
  with_ledger l s -> receiver_new is_nfc blake3 derive_key keyed_hash offer (rl_accept l) summary = Ok r ->
  record_of l summary r.
Proof.
  intros [_ [_ Hok]] H. destruct (ledger_ok_header _ _ _ _ _ Hok) as (o & Ho & _ & _ & Hd & Ha & _).
  rewrite Hoffer in Ho. injection Ho as <-. unfold receiver_new in H. inv_ok. split_and!; cbn; done.
Qed.

(** Another record of the finished ledger in the delivery store. *)
Lemma proved_save l summary r fault fs res s faults :
  with_ledger l s -> completed_summary l = Some summary -> record_of l summary r ->
  (forall r, load (delivery_files (rv_stores s)) ID = Ok (Some r) -> rd_delivery_proof r = None) ->
  save (delivery_files (rv_stores s)) r fault = (fs, res) ->
  let s' := rv_set_stores (mkStores (plan_files (rv_stores s)) (data_files (rv_stores s)) fs) faults s in
  with_ledger l s' /\ (res = Ok tt -> delivery_backed (rv_stores s') r).
Proof.
  intros [([Hd Hv] & Hall & Hpr) Hl] Hsum Hrec Hnone Hs s'. pose proof Hrec as (Hid & _).
  apply save_load in Hs as [Hown _]; [|exact receiver_serde]. cbn in Hown. rewrite Hid in Hown.
  assert (Hb : load fs ID = Ok (Some r) -> delivery_backed (rv_stores s') r).
  { intros Hload. split; [done|]. by exists l, summary. }
  split; [split; [|done]|].
  - split; [|split; [done|]].
    2: { intros proof st Hin. destruct (Hpr _ _ Hin) as (r0 & Hr0 & Hp0). rewrite (Hnone _ Hr0) in Hp0. done. }
    split; [done|]. intros r' Hr'. destruct Hown as [Hown|[_ Hown]].
    + cbn in Hr'. rewrite Hown in Hr'. injection Hr' as <-. by apply Hb.
    + cbn in Hr'. rewrite Hown in Hr'. destruct (Hv _ Hr') as (_ & l' & sum' & Hl' & Hs' & Hrec').
      split; [by cbn; rewrite Hown|]. by exists l', sum'.
  - intros ->. destruct Hown as [Hown|[Hown _]]; [by apply Hb|done].
Qed.

Lemma proved_send l summary r proof s n :
  with_ledger l s -> completed_summary l = Some summary -> delivery_backed (rv_stores s) r ->
  rd_delivery_proof r = Some proof ->
  let s' := rv_set_sent (rv_sent s ++ [(DeliveryProof proof, rv_stores s)]) n s in
  with_ledger l s' /\ delivery_backed (rv_stores s') r.
Proof.
  intros [(Hst & Hall & Hold) Hl] Hsum Hb Hpr s'. split; [|done]. split; [|done]. split; [done|]. split.
  - apply Forall_app. split; [done|]. constructor; [|done]. by exists r.
  - intros proof' st [Hin|Hin%list_elem_of_singleton]%elem_of_app; [by eapply Hold|]. injection Hin as -> _.
    exists r. split; [apply Hb|done].
Qed.

Lemma session_proof_ok l summary existing s :
  with_ledger l s -> completed_summary l = Some summary -> load (delivery_files (rv_stores s)) ID = Ok existing ->
  wp (session_proof is_nfc blake3 derive_key keyed_hash receiver_to_vec receiver_from_slice offer (rl_accept l) existing summary)
    (proved l summary) (fun _ => promises) s.
Proof.
  intros Hs Hsum Hload. assert (Hp : promises s) by apply Hs. unfold session_proof. apply wp_bind.
  eapply (wp_mono _ _ (fun r s' => s' = s /\ record_of l summary r /\ (existing = Some r \/ existing = None /\ rd_delivery_proof r = None))
            _ (fun _ => promises)); [| |done].
  { destruct existing as [r|].
    - apply wp_ret. split; [done|]. pose proof (proj2 (proj1 Hp) _ Hload) as Hb.
      pose proof Hb as (_ & l' & sum' & [Hl' _] & Hs' & Hrec). destruct Hs as [_ [Hl _]].
      rewrite Hl in Hl'. injection Hl' as <-. rewrite Hsum in Hs'. injection Hs' as <-. auto.
    - apply wp_pure; [|done]. intros r Hr%map_err_ok. split; [done|]. split; [by eapply receiver_new_record|].
      right. unfold receiver_new in Hr. by inv_ok. }
  intros r s0 (-> & Hrec & Hr). apply wp_bind.
  eapply (wp_calm _ (fun s' => with_ledger l s' /\ load (delivery_files (rv_stores s')) ID = Ok existing)).
  { destruct (bool_decide _); [apply calmly_random|apply calmly_ret]. }
  { apply stable_and; [apply with_ledger_calm|apply (stable_delivery (fun fs => load fs ID = Ok existing))]. }
  { done. }
  { by intros s1 [[] _]. }
  clear Hload. intros nonce s1 _ [H1 Hload]. assert (Hp1 : promises s1) by apply H1. apply wp_bind.
  eapply (wp_mono _ _ (fun proof s' => with_ledger l s' /\ exists r, delivery_backed (rv_stores s') r /\ rd_delivery_proof r = Some proof)
            _ (fun _ => promises)); [| |done].
  - unfold wp, receiver_send_proof. destruct (rd_delivery_proof r) as [proof|] eqn:Hpr.
    + destruct Hr as [->|[_ ?]]; [|done]. pose proof (proj2 (proj1 Hp1) _ Hload) as Hb1. case_bool_decide; [|done].
      set (st1 := rv_stores s1). set (st2 := mkStores (plan_files st1) (data_files st1) (delivery_files st1)).
      edestruct (proved_send l summary r proof (rv_set_stores st2 (rv_faults s1) s1)) as [H2 Hb2];
        [by eapply (with_ledger_calm _ s1)|done|exact Hb1|done|]. split; [exact H2|]. exists r. by split.
    + destruct nonce as [n|]; [|by cbn].
      assert (Hnone : forall r', load (delivery_files (rv_stores s1)) ID = Ok (Some r') -> rd_delivery_proof r' = None).
      { intros r' Hr'. rewrite Hload in Hr'. destruct Hr as [->|[-> _]]; [|done]. by injection Hr' as <-. }
      set (proof := build_delivery_proof _ _ _ _ _ _ _).
      destruct (save _ _ _) as [fs [[]|e]] eqn:Hsave.
      * destruct (proved_save l summary (set_receiver_proof proof r) _ _ _ s1 (tail (rv_faults s1)) H1 Hsum Hrec Hnone Hsave) as [H2 Hb2].
        case_bool_decide; [|apply H2]. edestruct (proved_send l summary) as [H3 Hb3]; [exact H2|done|by apply Hb2|done|].
        split; [exact H3|]. exists (set_receiver_proof proof r). split; [exact Hb3|done].
      * by destruct (proved_save l summary (set_receiver_proof proof r) _ _ _ s1 (tail (rv_faults s1)) H1 Hsum Hrec Hnone Hsave) as [[H2 _] _].
  - intros proof s2 (H2 & r2 & Hb2 & Hp2). apply wp_bind, wp_pure; [|intros ? _; apply H2].
    intros digest Hdig%map_err_ok. apply wp_bind. unfold wp at 1, rv_report. apply wp_ret.
    split; [by eapply (with_ledger_calm _ s2)|].
    split; [done|]. by exists r2, proof.
Qed.

(** ** The session *)

Definition session_ended (r : result RoomError ReceiverManifestV2SessionSummary) s : Prop :=
  promises s /\ forall summary, r = Ok summary ->
    exists l, proved l (rms_data_plane summary) (rms_delivery_proof_digest summary) s.

Lemma receive_after_offer_ok request destination token s :
  promises s ->
  wp (receive_after_offer io_kind core_error os to_lowercase is_nfc blake3 derive_key keyed_hash zstd_decompress volume_of
        device_of plan_to_vec plan_from_slice save_to_vec save_from_slice ledger_to_vec ledger_from_slice receiver_to_vec
        receiver_from_slice gate offer request destination token)
    (fun summary => session_ended (Ok summary)) (fun _ => promises) s.
Proof.
  intros Hp. unfold receive_after_offer. apply wp_bind, wp_throw_if; [done|]. intros _. apply wp_bind.
  eapply wp_calm; [apply calmly_plan|apply stable_promises|done|done|]. intros plan s1 _ H1. apply wp_bind.
  eapply wp_mono; [by apply session_ledger_ok| |done]. intros l s2 H2. apply wp_bind.
  eapply wp_mono; [by apply session_answer_ok| |done]. intros [[l' intent] provider] s3 [H3 Ha]. apply wp_bind.
  eapply wp_calm; [apply calmly_report|apply with_ledger_calm|done|apply with_ledger_promises|].
  intros [] s4 _ H4. assert (Hp4 : promises s4) by apply H4. apply wp_bind. unfold wp at 1, rv_stores_now.
  apply wp_bind, wp_pure; [|done]. rewrite offer_identity, <- Ha. intros existing Hload%map_err_ok.
  assert (HP : forall l, stable (fun s => with_ledger l s /\ load (delivery_files (rv_stores s)) ID = Ok existing)).
  { intros l2. apply stable_and; [apply with_ledger_calm|apply (stable_delivery (fun fs => load fs ID = Ok existing))]. }
  assert (Hend : forall l2 summary plan s, with_ledger l2 s /\ load (delivery_files (rv_stores s)) ID = Ok existing ->
    completed_summary l2 = Some summary -> rl_accept l2 = rl_accept l' ->
    wp (digest ← session_proof is_nfc blake3 derive_key keyed_hash receiver_to_vec receiver_from_slice offer (rl_accept l')
          existing summary; mret (mkReceiverSession summary digest plan))
      (fun summary => session_ended (Ok summary)) (fun _ => promises) s).
  { intros l2 summary plan' s' [Hs' Hload'] Hsum Hacc. apply wp_bind. rewrite <- Hacc.
    eapply wp_mono; [by apply session_proof_ok| |done]. intros digest s6 H6. apply wp_ret.
    split; [apply H6|]. intros ? [= <-]. by exists l2. }
  case_bool_decide; apply wp_bind.
  - eapply wp_calm; [apply calmly_report|apply (HP l')|done|by intros ? [[] _]|]. intros [] s5 _ H5.
    apply wp_bind, wp_pure; [|intros ? _; apply H5]. intros summary Hsum%map_err_ok%ok_or_ok. by apply (Hend l').
  - eapply wp_calm; [|apply (HP l')|done|by intros ? [[] _]|].
    { destruct provider; [apply calmly_ret|]. rewrite offer_manifest. apply calmly_provider. }
    intros p s5 _ [H5 Hload5]. apply wp_bind. apply receive_safe; [done|]. intros l2 p2 summary s6 H6 Ha6 Hsum Hdel.
    apply wp_bind. eapply wp_calm; [apply calmly_save_plan|apply (HP l2)|split; [done|by rewrite Hdel]|by intros ? [[] _]|].
    intros [] s7 _ H7. by apply (Hend l2).
Qed.
(** A session ends as it must also when it is cut. *)
Lemma gate_run request destination token cut p p' r :
  promises (pe_receiver p) ->
  receive_with_result_gate cut
    (receive_after_offer io_kind core_error os to_lowercase is_nfc blake3 derive_key keyed_hash zstd_decompress volume_of
        device_of plan_to_vec plan_from_slice save_to_vec save_from_slice ledger_to_vec ledger_from_slice receiver_to_vec
        receiver_from_slice gate offer request destination token) p = (p', r) ->
  session_ended r (pe_receiver p').
Proof.
  intros Hp Hrun. unfold receive_with_result_gate, mbind, proc_bind, attempt, or_cancelled, pe_lift in Hrun.
  pose proof (receive_after_offer_ok request destination token) as Hwp. unfold wp in Hwp. destruct cut as [c|].
  - specialize (Hwp (pe_receiver (pe_shorten c p)) Hp). cbn zeta in *.
    destruct (receive_after_offer _ _ _ _ _ _ _ _ _ _ _ _ _ _ _ _ _ _ _ _ _ _ _ _ _) as [s1 r1].
    cbn in Hrun. injection Hrun as <- <-. split; [|done]. cbn. destruct r1; [apply Hwp|done].
  - specialize (Hwp (pe_receiver p) Hp).
    destruct (receive_after_offer _ _ _ _ _ _ _ _ _ _ _ _ _ _ _ _ _ _ _ _ _ _ _ _ _) as [s1 [summary|e]].
    + by injection Hrun as <- <-.
    + destruct e; cbn in Hrun; injection Hrun as <- <-; done.
Qed.

Lemma promises_start s : stores_ok (rv_stores s) -> rv_sent s = [] -> promises s.
Proof.
  intros Hst Hsent. unfold promises, standing. rewrite Hsent. split_and!; [done|done|]. by intros ? ? ?%not_elem_of_nil.
Qed.
End Promises.

Section Session.
Context (io_kind : IoErrorKind) (core_error : CoreError).
Context (os : Platform) (to_lowercase : str -> str) (is_nfc : str -> bool).
Context (blake3 : list byte -> list byte) (derive_key : str -> list byte -> list byte).
Context (keyed_hash : list byte -> list byte -> list byte).
Context (zstd_decompress : list byte -> Z -> option (list byte)).
Context (volume_of : path -> str) (device_of : path -> Z).
Context (plan_to_vec : DestinationWritePlanV2 -> option (list byte)).
Context (plan_from_slice : list byte -> option DestinationWritePlanV2).
Context (save_to_vec : LocalSaveLedgerV2 -> option (list byte)).
Context (save_from_slice : list byte -> option LocalSaveLedgerV2).
Context (ledger_to_vec : ReceiverDataPlaneLedgerV2 -> option (list byte)).
Context (ledger_from_slice : list byte -> option ReceiverDataPlaneLedgerV2).
Context (receiver_to_vec : ReceiverDeliveryRecordV2 -> option (list byte)).
Context (receiver_from_slice : list byte -> option ReceiverDeliveryRecordV2).
Context (gate : ResultGate).
Local Notation session :=
  (receive_after_offer io_kind core_error os to_lowercase is_nfc blake3 derive_key keyed_hash zstd_decompress volume_of
     device_of plan_to_vec plan_from_slice save_to_vec save_from_slice ledger_to_vec ledger_from_slice receiver_to_vec
     receiver_from_slice gate).
Local Notation stores_ok :=
  (stores_ok is_nfc blake3 derive_key keyed_hash ledger_from_slice receiver_to_vec receiver_from_slice).
Local Notation recorded :=
  (recorded is_nfc blake3 derive_key keyed_hash ledger_from_slice receiver_to_vec receiver_from_slice).
Local Notation proved :=
  (proved is_nfc blake3 derive_key keyed_hash ledger_from_slice receiver_to_vec receiver_from_slice).

(** C3. A receiver's session keeps its word, whatever the sender sends, however its
    writes fail and whenever it is cancelled.  What it tells the sender is in its
    stores at the moment it is said: an accept and a resume status are those of the
    stored ledger, a decision and a result are recorded there, and a delivery proof is
    that of the stored delivery record, which is the record of a stored ledger that
    is finished.  The stores fit together again when the session ends, so that this
    holds over any number of sessions; and one that returns has stored the proof
    whose digest it reports, for the results it reports. *)
Theorem session_keeps_word offer request destination token cut p p' r :
  wf_manifest (manifest offer) = true -> build_manifest_offer_v2 is_nfc blake3 (manifest offer) = Ok offer ->
  (forall l bytes, ledger_to_vec l = Some bytes -> ledger_from_slice bytes = Some l) ->
  (forall r bytes, receiver_to_vec r = Some bytes -> receiver_from_slice bytes = Some r) ->
  stores_ok (manifest offer) (rv_stores (pe_receiver p)) -> rv_sent (pe_receiver p) = [] ->
  receive_with_result_gate cut (session offer request destination token) p = (p', r) ->
  stores_ok (manifest offer) (rv_stores (pe_receiver p')) /\
  (forall f st, (f, st) ∈ rv_sent (pe_receiver p') -> recorded (manifest offer) st f) /\
  (forall summary, r = Ok summary -> exists l,
     proved (manifest offer) l (rms_data_plane summary) (rms_delivery_proof_digest summary) (pe_receiver p')).
Proof.
  intros Hwf Hb Hl Hr Hst Hsent Hrun.
  eapply gate_run in Hrun as [(H1 & H2 & _) Hok]; [|done..|by apply promises_start].
  split; [done|]. split; [|done]. intros f st Hin. rewrite Forall_forall in H2. exact (H2 _ Hin).
Qed.
End Session.

(** ** Waiting for an offer *)

(** The next call of a run that evaluates. *)
Ltac run_step H := erewrite proc_bind_eq in H by reflexivity; cbn beta iota in H.

Section Listening.
Context (is_nfc : str -> bool) (blake3 : list byte -> list byte).
Context `{InviteLibs, PakeLibs}.
Context (config : PairingConfig) (consent : bool) (on_authenticated : option (list byte) -> session unit).

(** A timeline that was started and has one terminal stage, its last. *)
Definition terminal (stage : TransferStage) : bool :=
  match stage with Canceled | Failed | DeliveryComplete => true | _ => false end.
Definition closed (t : list TransferStage) : Prop :=
  exists steps stage, t = SessionStarted :: steps ++ [stage] /\ terminal stage = true /\
    Forall (fun x => terminal x = false) steps.

(** The peer of the connection is authenticated, and the handler took the outcome. *)
Definition peer_authenticated (c : Connection) : Prop :=
  cn_manifest_v2 c = true /\ cn_auth_ends c = Finishes /\
  exists secret, (authenticate_receiver_with_remember config consent (cn_seed c) (cn_auth c)).2 = Ok secret /\
    on_authenticated secret = Ok tt.

Lemma closed_intro steps stage :
  terminal stage = true -> Forall (fun x => terminal x = false) steps -> closed (SessionStarted :: steps ++ [stage]).
Proof. by exists steps, stage. Qed.

Definition accepting (base : list (list TransferStage)) (first : bool) (s : Listener) : Prop :=
  ls_attempts s = if first then [SessionStarted] :: base else base.

(** The rounds took at most [n] connections; each attempt but that of an accepted peer
    has its terminal stage. *)
Definition rounds_end (base : list (list TransferStage)) (n : nat) (accepts : list Accepted) (s' : Listener)
    (r : result RoomError Connection) : Prop :=
  exists taken new, accepts = taken ++ ls_accepts s' /\ (length taken <= n)%nat /\ ls_attempts s' = new ++ base /\
    match r with
    | Ok c => last taken = Some (AcceptedConnection c) /\ peer_authenticated c /\
        exists old, new = [SessionStarted; ConnectionReady; AuthenticationStarted; AuthenticationComplete] :: old /\
          Forall closed old
    | Err e => e <> Panicked /\ Forall closed new
    end.

Lemma rounds_end_step base n a rest t s' r :
  closed t -> rounds_end (t :: base) n rest s' r -> rounds_end base (S n) (a :: rest) s' r.
Proof.
  intros Ht (taken & new & -> & Hlen & Hnew & Hend). exists (a :: taken), (new ++ [t]). rewrite Hnew, <- app_assoc.
  split_and!; [done|cbn; lia|done|]. destruct r as [c|e].
  - destruct Hend as (Hlast & Hpeer & old & -> & Hold). split_and!; [by destruct taken|done|].
    exists (old ++ [t]). split; [done|]. apply Forall_app. split; [done|]. by constructor.
  - destruct Hend as (He & Hold). split; [done|]. apply Forall_app. split; [done|]. by constructor.
Qed.

(** A round that ends the wait. *)
Lemma rounds_end_fail base n accepts taken s' t e :
  accepts = taken ++ ls_accepts s' -> (length taken <= S n)%nat -> ls_attempts s' = t :: base -> closed t -> e <> Panicked ->
  rounds_end base (S n) accepts s' (Err e).
Proof. intros Hacc Hlen Hatt Ht He. exists taken, [t]. split_and!; try done. by constructor. Qed.

Lemma authenticate_peer_run c s : exists flag o,
  authenticate_peer config consent c s = (mkListener (ls_accepts s) (ls_attempts s) (ls_outcomes s) flag, Ok o) /\
  forall secret, o = Ok secret -> cn_auth_ends c = Finishes /\
    (authenticate_receiver_with_remember config consent (cn_seed c) (cn_auth c)).2 = Ok secret.
Proof.
  unfold authenticate_peer. destruct s as [accepts attempts outcomes cancelled].
  destruct (cn_auth_ends c), (cn_cancelled c); do 2 eexists; (split; [reflexivity|done]).
Qed.

Lemma accept_rounds_spec n base first cf af s s' r :
  0 <= cf < MAX_PRE_AUTH_CONNECTION_FAILURES -> 0 <= af < MAX_AUTH_FAILURES ->
  MAX_PRE_AUTH_CONNECTION_FAILURES - cf + (MAX_AUTH_FAILURES - af) - 1 <= Z.of_nat n -> accepting base first s ->
  accept_rounds n first cf af config consent on_authenticated s = (s', r) -> rounds_end base n (ls_accepts s) s' r.
Proof.
  revert base first cf af s. induction n as [|n IH]; intros base first cf af s Hcf Haf Hn Hbase Hrun; [lia|].
  cbn [accept_rounds] in Hrun.
  assert (Hstart : exists s0, (if first then mret tt else ls_start) s = (s0, Ok tt) /\ ls_accepts s0 = ls_accepts s /\
    ls_attempts s0 = [SessionStarted] :: base).
  { unfold accepting in Hbase. destruct first; eexists; split; try done. cbn. by rewrite Hbase. }
  destruct Hstart as (s0 & Hs0 & <- & Hatt). rewrite (proc_bind_eq _ _ _ _ _ Hs0) in Hrun. clear Hs0 Hbase s.
  destruct s0 as [accepts attempts outcomes cancelled]. cbn in Hatt. subst attempts. cbn [ls_accepts].
  assert (Hclose : forall stage, terminal stage = true -> closed [SessionStarted; stage]).
  { intros stage Hs. by apply (closed_intro []). }
  assert (Hlate : forall stage, terminal stage = true -> closed [SessionStarted; ConnectionReady; AuthenticationStarted; stage]).
  { intros stage Hs. apply (closed_intro [ConnectionReady; AuthenticationStarted]); [done|by repeat constructor]. }
  assert (Hfailed : forall b, terminal (failure_stage b) = true) by (by intros []).
  destruct accepts as [|[c|e gone|] rest].
  - injection Hrun as <- <-. eapply (rounds_end_fail _ _ _ []); [done|cbn; lia|done|by apply Hclose|done].
  - do 2 run_step Hrun. destruct (cn_manifest_v2 c) eqn:Hproto; cbn [negb] in Hrun.
    2: { injection Hrun as <- <-. eapply (rounds_end_fail _ _ _ [AcceptedConnection c]); [done|cbn; lia|done| |done].
         by apply (closed_intro [ConnectionReady]), Forall_singleton. }
    run_step Hrun. cbn [ls_attempts ls_accepts ls_outcomes ls_cancelled] in Hrun.
    destruct (authenticate_peer_run c (mkListener rest ([SessionStarted; ConnectionReady; AuthenticationStarted] :: base) outcomes cancelled))
      as (flag & o & Hpeer & Hok).
    erewrite proc_bind_eq in Hrun by exact Hpeer. cbn beta iota in Hrun. destruct o as [secret|e].
    + destruct (Hok secret eq_refl) as [Hends Hauth]. run_step Hrun.
      destruct (on_authenticated secret) as [[]|e] eqn:Hhand.
      * injection Hrun as <- <-. exists [AcceptedConnection c], [[SessionStarted; ConnectionReady; AuthenticationStarted; AuthenticationComplete]].
        split_and!; [done|cbn; lia|done|done|split_and!; [done|done|by exists secret]|by exists []].
      * injection Hrun as <- <-. eapply (rounds_end_fail _ _ _ [AcceptedConnection c]); [done|cbn; lia|done|by apply Hlate|done].
    + run_step Hrun. cbn [ls_cancelled] in Hrun. destruct flag.
      * injection Hrun as <- <-. eapply (rounds_end_fail _ _ _ [AcceptedConnection c]); [done|cbn; lia|done|by apply Hlate|done].
      * run_step Hrun. destruct (Z.leb_spec MAX_AUTH_FAILURES (af + 1)).
        -- injection Hrun as <- <-. eapply (rounds_end_fail _ _ _ [AcceptedConnection c]); [done|cbn; lia|done|by apply Hlate|done].
        -- eapply rounds_end_step; [by apply (Hlate Failed)|]. eapply IH in Hrun; [exact Hrun|lia|lia|lia|done].
  - destruct gone; do 2 run_step Hrun; destruct (Z.leb_spec MAX_PRE_AUTH_CONNECTION_FAILURES (cf + 1)).
    1, 3: injection Hrun as <- <-; eapply (rounds_end_fail _ _ _ [AcceptFails e _]); [done|cbn; lia|done|apply Hclose; first [done|apply Hfailed]|done].
    all: eapply rounds_end_step; [|eapply IH in Hrun; [exact Hrun|lia|lia|lia|done]]; apply Hclose; first [done|apply Hfailed].
  - injection Hrun as <- <-. eapply (rounds_end_fail _ _ _ [AcceptCancelled]); [done|cbn; lia|done|by apply Hclose|done].
Qed.

Lemma check_offer_ok frame offer request :
  check_offer is_nfc blake3 frame = Ok (offer, request) ->
  build_manifest_offer_v2 is_nfc blake3 (manifest offer) = Ok offer /\
  match request with
  | None => frame = Offer offer
  | Some req => frame = ResumeRequest req /\ rr_offer req = offer
  end.
Proof.
  unfold check_offer. intros Hc. destruct frame; inv_ok; bool_prop; (split; [|done]).
  all: match goal with Hb : build_manifest_offer_v2 _ _ ?m = Ok ?x |- _ = Ok ?o =>
    assert (Hm : manifest x = m) by (unfold build_manifest_offer_v2 in Hb; by inv_ok);
    rewrite Hb; f_equal; destruct x, o; cbn in *; congruence end.
Qed.

Lemma check_offer_err frame e : check_offer is_nfc blake3 frame = Err e -> e <> Panicked.
Proof.
  unfold check_offer.
  destruct frame; cbn; try (by intros [= <-]);
    (destruct (validate is_nfc _); cbn; [|by intros [= <-]]);
    (destruct (build_manifest_offer_v2 is_nfc blake3 _); cbn; [|by intros [= <-]]);
    unfold ensure; destruct (bool_decide _); cbn; by intros [= <-].
Qed.

(** C11. A receiver shows an offer only of an authenticated peer, and does not wait
    forever for one: it takes at most fifty-seven connections, however they fail; an
    offer that is returned came first on the last connection taken, which negotiated
    the protocol, passed the password-authenticated exchange and was taken by the
    handler; its manifest is valid and its digest is that of the manifest; and every
    attempt that did not lead to the offer has a timeline with exactly one terminal
    stage, its last. *)
Theorem offer_of_authenticated_peer first base s s' r :
  accepting base first s ->
  receive_manifest_v2_offer is_nfc blake3 config consent on_authenticated first s = (s', r) ->
  exists taken new, ls_accepts s = taken ++ ls_accepts s' /\ (length taken <= 57)%nat /\ ls_attempts s' = new ++ base /\
    match r with
    | Err e => e <> Panicked /\ Forall closed new
    | Ok (c, offer, request) =>
      last taken = Some (AcceptedConnection c) /\ peer_authenticated c /\
      build_manifest_offer_v2 is_nfc blake3 (manifest offer) = Ok offer /\
      (exists rest, cn_frames c = match request with None => Offer offer | Some req => ResumeRequest req end :: rest) /\
      exists old, new = [SessionStarted; ConnectionReady; AuthenticationStarted; AuthenticationComplete; ManifestOffer] :: old /\
        Forall closed old
    end.
Proof.
  intros Hbase Hrun. unfold receive_manifest_v2_offer in Hrun.
  apply bind_run in Hrun as [(e & Hr & ->)|(s1 & c & Hr & Hrun)].
  all: apply (accept_rounds_spec accept_limit base) in Hr as (taken & new & Hacc & Hlen & Hnew & Hend);
    [|done|done|done|done].
  { by exists taken, new. }
  destruct Hend as (Hlast & Hpeer & old & -> & Hold).
  destruct s1 as [accepts attempts outcomes cancelled]. cbn in Hnew. subst attempts.
  unfold receive_authenticated_offer, recording, mbind, proc_bind, attempt in Hrun.
  destruct (cn_offer_cancelled c).
  { injection Hrun as <- <-. eexists taken, (_ :: old). split_and!; [done|done|done|done|].
    constructor; [|done]. by apply (closed_intro [ConnectionReady; AuthenticationStarted; AuthenticationComplete]); [|repeat constructor]. }
  destruct (match cn_frames c with [] => _ | _ => _ end) as [[offer request]|e] eqn:Hoffer.
  - injection Hrun as <- <-. eexists taken, (_ :: old). split_and!; [done|done|done|done|done| | |by exists old].
    + destruct (cn_frames c) as [|f rest]; [done|]. by apply check_offer_ok in Hoffer as [? _].
    + destruct (cn_frames c) as [|f rest]; [done|]. apply check_offer_ok in Hoffer as [_ Hf]. exists rest.
      destruct request; [by destruct Hf as [-> _]|by subst].
  - assert (Hne : exists e', e = Returned e').
    { destruct (cn_frames c) as [|f rest]; [injection Hoffer as <-; eauto|]. apply check_offer_err in Hoffer.
      destruct e; [eauto|done]. }
    destruct Hne as [e' ->]. injection Hrun as <- <-. eexists taken, (_ :: old). split_and!; [done|done|done|done|].
    constructor; [|done]. apply (closed_intro [ConnectionReady; AuthenticationStarted; AuthenticationComplete]);
      [by destruct cancelled|by repeat constructor].
Qed.
End Listening.

(** ** Attempts to send *)

(** The stages among the reports. *)
Definition stage_of (r : Report) : option TransferStage := match r with on_stage stage => Some stage | _ => None end.
Definition under_way (r : Report) : Prop := match r with on_stage stage => terminal stage = false | _ => True end.

Section QuietIn.
Context {W E : Type} (reports_of : W -> list Report).

(** Reports no terminal stage. *)
Definition quiet_in {A} (m : proc W E A) : Prop :=
  forall w w' r, m w = (w', r) -> exists new, reports_of w' = reports_of w ++ new /\ Forall under_way new.

Lemma muted_same {A} (m : proc W E A) : (forall w, reports_of (m w).1 = reports_of w) -> quiet_in m.
Proof. intros Hm w w' r Hrun. exists []. specialize (Hm w). rewrite Hrun in Hm. cbn in Hm. by rewrite Hm, app_nil_r. Qed.
Lemma muted_bind {A B} (m : proc W E A) (f : A -> proc W E B) : quiet_in m -> (forall a, quiet_in (f a)) -> quiet_in (m ≫= f).
Proof.
  intros Hm Hf w w' r [(e & Hrun & _)|(w1 & a & Hrun & Hrest)]%bind_run; [by eapply Hm|].
  destruct (Hm _ _ _ Hrun) as (new1 & H1 & Hn1). destruct (Hf _ _ _ _ Hrest) as (new2 & H2 & Hn2).
  exists (new1 ++ new2). rewrite H2, H1, app_assoc. split; [done|]. by apply Forall_app.
Qed.
Lemma muted_pure {A} (r : result E A) : quiet_in (pure r).
Proof. by apply muted_same. Qed.
Lemma muted_ret {A} (a : A) : quiet_in (mret a).
Proof. by apply muted_same. Qed.
Lemma muted_throw {A} e : quiet_in (throw (A := A) e).
Proof. by apply muted_same. Qed.
Lemma muted_throw_if b e : quiet_in (throw_if b e).
Proof. by apply muted_same. Qed.
End QuietIn.

Section Quiet.
Context {R S : Type}.
Implicit Types (w : World R S).
Local Notation quiet := (quiet_in (E := ManifestV2DataError) (reports (R := R) (S := S))).

Lemma muted_recv : quiet Proc.recv.
Proof. apply muted_same. intros w. unfold Proc.recv. by destruct (incoming w). Qed.
Lemma muted_send f : quiet (Proc.send_frame f).
Proof. apply muted_same. intros w. unfold Proc.send_frame. by destruct (sends_left w). Qed.
Lemma muted_get_record : quiet get_record.
Proof. by apply muted_same. Qed.
Lemma muted_put_record r : quiet (put_record r).
Proof. by apply muted_same. Qed.
Lemma muted_save sv : quiet (save_record sv).
Proof.
  apply muted_same. intros w. unfold save_record. destruct (match save_faults w with [] => _ | _ => _ end) as [f fs].
  by destruct (sv _ _ _).
Qed.
Lemma muted_sink {A} (op : S -> S * data A) : quiet (call_sink op).
Proof. apply muted_same. intros w. unfold call_sink. by destruct (op _). Qed.
Lemma muted_set_completed v : quiet (set_completed v).
Proof. by apply muted_same. Qed.
Lemma muted_get_completed : quiet get_completed.
Proof. by apply muted_same. Qed.
Lemma muted_report v : under_way v -> quiet (report v).
Proof. intros Hv w w' r [= <- _]. exists [v]. split; [done|]. by constructor. Qed.
Lemma muted_advance a t : quiet (advance a t).
Proof.
  unfold advance. apply muted_bind; [apply muted_get_completed|]. intros c. apply muted_bind; [apply muted_pure|]. intros c'.
  apply muted_bind; [apply muted_set_completed|]. intros _. by apply muted_report.
Qed.
End Quiet.
Create HintDb quiet.
#[local] Hint Resolve muted_pure muted_ret muted_throw muted_throw_if muted_recv muted_send muted_get_record muted_put_record
  muted_save muted_sink muted_set_completed muted_advance : quiet.
#[local] Hint Extern 1 (quiet_in _ (report _)) => apply muted_report; done : quiet.
Ltac quiet_go :=
  repeat first
    [ solve [auto with quiet]
    | apply muted_bind; [|intros ?]
    | match goal with |- quiet_in _ (match ?x with _ => _ end) => destruct x end ].

Section SenderQuiet.
Context (is_nfc : str -> bool) (blake3 : list byte -> list byte).
Context (derive_key : str -> list byte -> list byte) (keyed_hash : list byte -> list byte -> list byte).
Context (zstd_compress : list byte -> option (list byte)).
Context (to_vec : SenderDeliveryRecordV2 -> option (list byte)) (from_slice : list byte -> option SenderDeliveryRecordV2).
Context {S : Type} `{FileSource S}.
Local Notation quiet := (quiet_in (E := ManifestV2DataError) (reports (R := SenderDeliveryRecordV2) (S := S))).

Lemma on_record_quiet {A} (f : SenderDeliveryRecordV2 -> SenderDeliveryRecordV2 * delivery A) : quiet (on_record f).
Proof. unfold on_record. quiet_go. Qed.
Lemma save_delivery_quiet : quiet (save_delivery is_nfc blake3 derive_key keyed_hash to_vec from_slice).
Proof. apply muted_save. Qed.
#[local] Hint Resolve on_record_quiet save_delivery_quiet : quiet.
Lemma legacy_encodings_quiet es policy : quiet (legacy_entry_encodings zstd_compress es policy).
Proof. induction es as [|e es IH]; cbn [legacy_entry_encodings]; unfold legacy_entry_encoding; quiet_go. Qed.
#[local] Hint Resolve legacy_encodings_quiet : quiet.
Lemma prepare_quiet offer : quiet (prepare_sender_entry_encodings is_nfc blake3 derive_key keyed_hash zstd_compress offer).
Proof. unfold prepare_sender_entry_encodings. quiet_go. Qed.
Lemma reconnect_quiet sealed nonce : quiet (establish_sender_reconnect is_nfc blake3 derive_key keyed_hash sealed nonce).
Proof. unfold establish_sender_reconnect. quiet_go. Qed.
#[local] Hint Resolve prepare_quiet reconnect_quiet : quiet.
Lemma negotiate_quiet sealed nonce offer : quiet (negotiate is_nfc blake3 derive_key keyed_hash sealed nonce offer).
Proof. unfold negotiate. quiet_go. Qed.
Lemma late_digest_quiet id eid d : quiet (send_late_digest_and_receive_status (S := S) id eid d).
Proof. unfold send_late_digest_and_receive_status. quiet_go. Qed.
#[local] Hint Resolve negotiate_quiet late_digest_quiet : quiet.
Lemma offer_late_digest_quiet id eid st : quiet (offer_late_digest id eid st).
Proof. unfold offer_late_digest, task_is_finished, await_hash_task. quiet_go. Qed.
Lemma send_block_quiet id e plan enc total st : quiet (send_block zstd_compress id e plan enc total st).
Proof. unfold send_block. quiet_go. Qed.
#[local] Hint Resolve offer_late_digest_quiet send_block_quiet : quiet.
Lemma send_blocks_quiet fuel id e plan enc total st : quiet (send_blocks zstd_compress fuel id e plan enc total st).
Proof. revert st. induction fuel as [|fuel IH]; intros st; cbn [send_blocks]; quiet_go. Qed.
Lemma finish_payload_quiet id e st : quiet (finish_payload blake3 id e st).
Proof. unfold finish_payload, await_hash_task. quiet_go. Qed.
#[local] Hint Resolve send_blocks_quiet finish_payload_quiet : quiet.
Lemma send_file_quiet id e plan enc total resumed : quiet (send_file blake3 zstd_compress id e plan enc total resumed).
Proof. unfold send_file. quiet_go. Qed.
#[local] Hint Resolve send_file_quiet : quiet.
Lemma send_entry_quiet id accept status total e : quiet (send_entry blake3 zstd_compress id accept status total e).
Proof. unfold send_entry, send_directory. quiet_go. Qed.
#[local] Hint Resolve send_entry_quiet : quiet.
Lemma send_entries_quiet id accept status total es hasher :
  quiet (send_entries is_nfc blake3 zstd_compress id accept status total es hasher).
Proof. revert hasher. induction es as [|e es IH]; intros hasher; cbn [send_entries]; quiet_go. Qed.
Lemma recv_results_quiet id es ks : quiet (recv_results (S := S) id es ks).
Proof. revert ks. induction es as [|e es IH]; intros ks; cbn [recv_results]; unfold recv_entry_result; quiet_go. Qed.
#[local] Hint Resolve send_entries_quiet recv_results_quiet : quiet.
Lemma send_quiet sealed nonce :
  quiet (SendPlane.send is_nfc blake3 derive_key keyed_hash zstd_compress to_vec from_slice sealed nonce).
Proof. unfold SendPlane.send. quiet_go. Qed.
End SenderQuiet.

(** How the reports of an attempt end. *)
Definition failed_with (new : list Report) : Prop :=
  exists steps stage, new = steps ++ [on_stage stage] /\ Forall under_way steps /\ (stage = Canceled \/ stage = Failed).
Definition delivered_last (new : list Report) : Prop :=
  exists steps, new = steps ++ [on_stage DeliveryComplete] /\ Forall under_way steps.

Section Settles.
Context {W : Type} (reports_of : W -> list Report).

(** A failure reports its terminal stage last; a success ends in [fin]. *)
Definition settles (fin : list Report -> Prop) {A} (m : proc W RoomError A) : Prop :=
  forall w w' r, m w = (w', r) -> exists new, reports_of w' = reports_of w ++ new /\
    match r with Ok _ => fin new | Err (Returned _) => failed_with new | Err Panicked => True end.

Lemma settles_bind (fin : list Report -> Prop) {A B} (m : proc W RoomError A) (f : A -> proc W RoomError B) :
  (forall steps new, Forall under_way steps -> fin new -> fin (steps ++ new)) ->
  settles (Forall under_way) m -> (forall a, settles fin (f a)) -> settles fin (m ≫= f).
Proof.
  intros Hfin Hm Hf w w' r [(e & Hrun & ->)|(w1 & a & Hrun & Hrest)]%bind_run.
  { destruct (Hm _ _ _ Hrun) as (new & Hn & He). exists new. by destruct e. }
  destruct (Hm _ _ _ Hrun) as (new1 & H1 & Hn1). destruct (Hf _ _ _ _ Hrest) as (new2 & H2 & Hn2).
  exists (new1 ++ new2). rewrite H2, H1, app_assoc. split; [done|]. destruct r as [b|[e|]]; [by apply Hfin| |done].
  destruct Hn2 as (steps & stage & -> & Hs & Hst). exists (new1 ++ steps), stage. rewrite app_assoc. split_and!; [done| |done].
  by apply Forall_app.
Qed.
Lemma settles_quiet {A} (m : proc W RoomError A) :
  quiet_in reports_of m -> (forall w, is_ok (m w).2 = true) -> settles (Forall under_way) m.
Proof.
  intros Hm Hok w w' r Hrun. destruct (Hm _ _ _ Hrun) as (new & Hn & Hu). exists new. split; [done|].
  specialize (Hok w). rewrite Hrun in Hok. by destruct r.
Qed.
Lemma settles_recording {A} (record_failure : proc W RoomError unit) (m : proc W RoomError A) :
  quiet_in reports_of m ->
  (forall w w' r, record_failure w = (w', r) -> r = Ok tt /\
     exists stage, reports_of w' = reports_of w ++ [on_stage stage] /\ (stage = Canceled \/ stage = Failed)) ->
  settles (Forall under_way) (recording record_failure m).
Proof.
  intros Hm Hrec w w' r Hrun. unfold recording, mbind, proc_bind, attempt in Hrun. destruct (m w) as [w1 r1] eqn:Hrun1.
  destruct (Hm _ _ _ Hrun1) as (new & Hn & Hu). destruct r1 as [a|[e|]]; [injection Hrun as <- <-; by exists new| |].
  - destruct (record_failure w1) as [w2 r2] eqn:Hr2. destruct (Hrec _ _ _ Hr2) as (-> & stage & Hs & Hst).
    injection Hrun as <- <-. exists (new ++ [on_stage stage]). rewrite Hs, Hn, app_assoc. split; [done|]. by exists new, stage.
  - injection Hrun as <- <-. by exists new.
Qed.
Lemma muted_or_cancelled {A} shorten flag cut (m : proc W RoomError A) :
  (forall c w, reports_of (shorten c w) = reports_of w) -> (forall w, reports_of (flag w) = reports_of w) ->
  quiet_in reports_of m -> quiet_in reports_of (or_cancelled shorten flag cut m).
Proof.
  intros Hs Hf Hm w w' r Hrun. destruct cut as [c|]; [|by eapply Hm]. cbn in Hrun.
  destruct (m (shorten c w)) as [w1 r1] eqn:Hrun1. injection Hrun as <- <-. cbn. rewrite Hf, <- (Hs c w). by eapply Hm.
Qed.
End Settles.

Lemma under_way_app (steps new : list Report) : Forall under_way steps -> Forall under_way new -> Forall under_way (steps ++ new).
Proof. intros. by apply Forall_app. Qed.
Lemma delivered_last_app steps new : Forall under_way steps -> delivered_last new -> delivered_last (steps ++ new).
Proof.
  intros Hs (mid & -> & Hm). exists (steps ++ mid). rewrite app_assoc. split; [done|]. by apply Forall_app.
Qed.

Section SendAttempt.
Context (io_kind : IoErrorKind) (core_error : CoreError).
Context (is_nfc : str -> bool) (blake3 : list byte -> list byte).
Context (derive_key : str -> list byte -> list byte) (keyed_hash : list byte -> list byte -> list byte).
Context (zstd_compress : list byte -> option (list byte)).
Context (to_vec : SenderDeliveryRecordV2 -> option (list byte)) (from_slice : list byte -> option SenderDeliveryRecordV2).
Context {F : Type} `{FileSource F} `{InviteLibs, PakeLibs}.
Definition sg_reports (s : Sending F) : list Report := reports (sg_plane s).
Local Notation quiet := (quiet_in sg_reports).

Lemma on_plane_quiet {A} (m : proc (World SenderDeliveryRecordV2 F) ManifestV2DataError A) :
  quiet_in reports m -> quiet (on_sender_plane io_kind core_error m).
Proof.
  intros Hm s s' r Hrun. unfold on_sender_plane in Hrun. destruct (m (sg_plane s)) as [w' r'] eqn:Hw.
  injection Hrun as <- _. by apply (Hm _ _ _ Hw).
Qed.
Lemma sg_report_quiet v : under_way v -> quiet (sg_report io_kind core_error v).
Proof. intros Hv. by apply on_plane_quiet, muted_report. Qed.
Lemma confirm_quiet : quiet (confirm_delivery is_nfc blake3 derive_key keyed_hash to_vec from_slice).
Proof.
  apply muted_same. intros s. unfold confirm_delivery.
  by destruct (sender_confirm_delivery _ _ _ _ _ _ _ _ _ _) as [[? ?] ?].
Qed.
#[local] Hint Resolve on_plane_quiet confirm_quiet send_quiet reconnect_quiet save_delivery_quiet : quiet.
#[local] Hint Extern 1 (quiet_in _ (sg_report _ _ _)) => apply sg_report_quiet; done : quiet.

Lemma send_authenticated_quiet sealed nonce :
  quiet (send_authenticated io_kind core_error is_nfc blake3 derive_key keyed_hash zstd_compress to_vec from_slice sealed nonce).
Proof. unfold send_authenticated. quiet_go. Qed.
Lemma prepare_sender_quiet sealed :
  quiet (prepare_sender io_kind core_error is_nfc blake3 derive_key keyed_hash to_vec from_slice sealed).
Proof. unfold prepare_sender. quiet_go. by apply muted_same. Qed.

Local Notation session sealed config consent on_authenticated seed nonce cut_prepare auth_ends cut_transfer :=
  (send_over_connection io_kind core_error is_nfc blake3 derive_key keyed_hash zstd_compress to_vec from_slice sealed config
     consent on_authenticated seed nonce cut_prepare auth_ends cut_transfer).

Lemma record_failure_reports s s' r :
  sg_record_failure io_kind core_error s = (s', r) -> r = Ok tt /\
  exists stage, sg_reports s' = sg_reports s ++ [on_stage stage] /\ (stage = Canceled \/ stage = Failed).
Proof. intros [= <- <-]. split; [done|]. eexists. split; [done|]. destruct (sg_cancelled s); auto. Qed.

Lemma send_session_settles sealed config consent on_authenticated seed nonce cut_prepare auth_ends cut_transfer :
  settles sg_reports delivered_last
    (session sealed config consent on_authenticated seed nonce cut_prepare auth_ends cut_transfer).
Proof.
  assert (Hrep : forall stage, terminal stage = false ->
    settles sg_reports (Forall under_way) (sg_report io_kind core_error (on_stage stage))).
  { intros stage Hst. by apply settles_quiet; [apply sg_report_quiet|]. }
  assert (Hcut : forall {A} cut (m : proc (Sending F) RoomError A), quiet m ->
    settles sg_reports (Forall under_way) (recording (sg_record_failure io_kind core_error) (or_cancelled sg_shorten sg_flag cut m))).
  { intros A cut m Hm. apply settles_recording; [by apply muted_or_cancelled|apply record_failure_reports]. }
  assert (Hbind : forall {A B} (m : proc (Sending F) RoomError A) (f : A -> proc (Sending F) RoomError B),
    settles sg_reports (Forall under_way) m -> (forall a, settles sg_reports delivered_last (f a)) ->
    settles sg_reports delivered_last (m ≫= f)) by (intros; by apply settles_bind; [apply delivered_last_app|..]).
  unfold send_over_connection. apply Hbind; [apply Hcut, prepare_sender_quiet|]. intros _.
  apply Hbind; [by apply Hrep|]. intros _. apply Hbind.
  { apply settles_recording; [|apply record_failure_reports]. apply muted_same. intros s. unfold auth_bounded.
    destruct auth_ends; [|done|done]. by destruct (authenticate_sender_with_remember _ _ _ _). }
  intros outcome. apply Hbind.
  { apply settles_recording; [by apply muted_same|]. intros s s' r [= <- <-]. split; [done|]. exists Failed. auto. }
  intros _. apply Hbind; [by apply Hrep|]. intros _. apply Hbind; [apply Hcut, send_authenticated_quiet|]. intros summary.
  intros s s' r [= <- <-]. eexists. split; [done|]. by exists [].
Qed.

(** *** Around the session *)

Definition dl_reports (d : Dialing F) : list Report := sg_reports (dl_sending d).

Lemma dl_lift_settles fin {A} (m : proc (Sending F) RoomError A) : settles sg_reports fin m -> settles dl_reports fin (dl_lift m).
Proof.
  intros Hm d d' r. unfold dl_lift. destruct (m (dl_sending d)) as [s' r'] eqn:Hrun. intros [= <- <-]. by apply (Hm _ _ _ Hrun).
Qed.
Lemma dl_failure_reports d d' r :
  dl_record_failure io_kind core_error d = (d', r) -> r = Ok tt /\
  exists stage, dl_reports d' = dl_reports d ++ [on_stage stage] /\ (stage = Canceled \/ stage = Failed).
Proof.
  unfold dl_record_failure, dl_lift. destruct (sg_record_failure _ _ _) as [s' r'] eqn:Hrun. intros [= <- <-].
  exact (record_failure_reports _ _ _ Hrun).
Qed.
Lemma dl_release_reports d d' r :
  (_ ← dl_record_failure io_kind core_error; dl_hold []) d = (d', r) -> r = Ok tt /\
  exists stage, dl_reports d' = dl_reports d ++ [on_stage stage] /\ (stage = Canceled \/ stage = Failed).
Proof.
  intros [(e & Hrun & ->)|(d1 & [] & Hrun & Hrest)]%bind_run.
  - by apply dl_failure_reports in Hrun as [? _].
  - apply dl_failure_reports in Hrun as [_ Hs]. by injection Hrest as <- <-.
Qed.
Lemma await_quiet o : quiet_in dl_reports (dl_await (F := F) o).
Proof. apply muted_same. intros d. unfold dl_await. by destruct (op_cancelled o). Qed.
Lemma over_connection_settles {A} (m : proc (Sending F) RoomError A) :
  settles sg_reports delivered_last m -> settles dl_reports delivered_last (over_connection io_kind core_error m).
Proof.
  intros Hm d d' r Hrun. unfold over_connection, mbind, proc_bind, attempt in Hrun. cbn in Hrun.
  apply dl_lift_settles in Hm. match type of Hrun with context [dl_lift m ?x] => destruct (dl_lift m x) as [d1 r1] eqn:Hrun1 end.
  destruct (Hm _ _ _ Hrun1) as (new & Hn & He). assert (Hd : dl_reports d' = dl_reports d1 /\ r = r1).
  { destruct r1 as [a|[e|]]; by injection Hrun as <- <-. }
  destruct Hd as [-> ->]. rewrite Hn. exists ([on_stage ConnectionReady] ++ new). split; [by rewrite app_assoc|].
  destruct r1 as [a|[e|]]; [by apply delivered_last_app; [repeat constructor|]| |done].
  destruct He as (steps & stage & -> & Hs & Hst). exists (on_stage ConnectionReady :: steps), stage.
  split_and!; [done|by constructor|done].
Qed.

(** The ways to reach the receiver. *)
Inductive Route := ToEndpoint (build dial : Opening) | OverNative (connect : Opening) | OverDatagrams (bind dial : Opening).
Definition send_by (route : Route) {A} (sealed : option ManifestV2) (m : proc (Sending F) RoomError A) : proc (Dialing F) RoomError A :=
  match route with
  | ToEndpoint build dial => send_to_endpoint_addr io_kind core_error sealed build dial m
  | OverNative connect => send_over_native_transport io_kind core_error sealed connect m
  | OverDatagrams bind dial => send_over_datagram_transport io_kind core_error sealed bind dial m
  end.

(** What follows the start of the timeline. *)
Definition send_started (route : Route) {A} (m : proc (Sending F) RoomError A) : proc (Dialing F) RoomError A :=
  let open o := recording (dl_record_failure io_kind core_error) (dl_await o) in
  match route with
  | ToEndpoint build dial => _ ← open build; _ ← dl_hold [DataEndpoint]; send_from_endpoint io_kind core_error dial m
  | OverNative connect => _ ← open connect; over_connection io_kind core_error m
  | OverDatagrams bind dial =>
    _ ← open bind; _ ← dl_hold [DataEndpoint; DatagramBridge]; send_from_endpoint io_kind core_error dial m
  end.
Lemma send_by_started route {A} sealed (m : proc (Sending F) RoomError A) :
  send_by route sealed m = (_ ← start_send_attempt io_kind core_error sealed; send_started route m).
Proof. by destruct route. Qed.

Lemma send_started_settles route {A} (m : proc (Sending F) RoomError A) :
  settles sg_reports delivered_last m -> settles dl_reports delivered_last (send_started route m).
Proof.
  intros Hm.
  assert (Hbind : forall {B} (x : proc (Dialing F) RoomError unit) (f : unit -> proc (Dialing F) RoomError B),
    settles dl_reports (Forall under_way) x -> (forall a, settles dl_reports delivered_last (f a)) ->
    settles dl_reports delivered_last (x ≫= f)) by (intros; by apply settles_bind; [apply delivered_last_app|..]).
  assert (Hawait : forall o, settles dl_reports (Forall under_way) (recording (dl_record_failure io_kind core_error) (dl_await o))).
  { intros o. apply settles_recording; [apply await_quiet|apply dl_failure_reports]. }
  assert (Hhold : forall rs, settles dl_reports (Forall under_way) (dl_hold (F := F) rs)).
  { intros rs. by apply settles_quiet; [apply muted_same|]. }
  assert (Hfrom : forall dial, settles dl_reports delivered_last (send_from_endpoint io_kind core_error dial m)).
  { intros dial. unfold send_from_endpoint. apply Hbind; [|intros _; by apply over_connection_settles].
    apply settles_recording; [apply await_quiet|apply dl_release_reports]. }
  destruct route; cbn [send_started]; (apply Hbind; [done|]; intros _); [|by apply over_connection_settles|];
    (apply Hbind; [done|]; intros _; apply Hfrom).
Qed.

(** Nothing stays open. *)
Definition released (d : Dialing F) : Prop := dl_open d = [] /\ dl_connected d = false.
Lemma over_connection_releases {A} (m : proc (Sending F) RoomError A) d d' r :
  over_connection io_kind core_error m d = (d', r) -> r <> Err Panicked -> released d'.
Proof.
  intros Hrun Hr. unfold over_connection, mbind, proc_bind, attempt in Hrun. cbn in Hrun.
  match type of Hrun with context [dl_lift m ?x] => destruct (dl_lift m x) as [d1 r1] end.
  destruct r1 as [a|[e|]]; by injection Hrun as <- <-.
Qed.
Lemma await_run (failing : proc (Dialing F) RoomError unit) o d d' r :
  recording failing (dl_await o) d = (d', r) ->
  exists d1, dl_open d1 = dl_open d /\ dl_connected d1 = dl_connected d /\
    match r with
    | Ok _ => d' = d1
    | Err Panicked => (failing d1).2 <> Ok tt
    | Err (Returned _) => d' = (failing d1).1
    end.
Proof.
  unfold recording, mbind, proc_bind, attempt, dl_await. intros Hrun.
  set (d1 := if op_cancelled o then _ else d) in *. exists d1. split_and!; [by unfold d1; destruct (op_cancelled o)..|].
  destruct (op_error o) as [e|]; [|by injection Hrun as <- <-]. destruct (failing d1) as [d2 [[]|[e'|]]]; by injection Hrun as <- <-.
Qed.
Lemma from_endpoint_releases dial {A} (m : proc (Sending F) RoomError A) d d' r :
  dl_connected d = false -> send_from_endpoint io_kind core_error dial m d = (d', r) -> r <> Err Panicked -> released d'.
Proof.
  intros Hc Hrun Hr. apply bind_run in Hrun as [(e & Hrun & ->)|(d1 & [] & Hrun & Hrest)].
  - apply await_run in Hrun as (d1 & _ & Hc1 & He). destruct e as [e|]; [|done]. subst d'. split; [done|].
    change (dl_connected d1 = false). congruence.
  - by eapply over_connection_releases.
Qed.
Lemma send_started_releases route {A} (m : proc (Sending F) RoomError A) d d' r :
  released d -> send_started route m d = (d', r) -> r <> Err Panicked -> released d'.
Proof.
  intros Hd Hrun Hr.
  assert (Hopen : forall o d2 x,
    recording (dl_record_failure io_kind core_error) (dl_await o) d = (d2, x) -> x <> Err Panicked -> released d2).
  { intros o d2 x Hrec Hx. apply await_run in Hrec as (d3 & Ho3 & Hc3 & Hd3). destruct Hd as [Ho Hc]. rewrite Ho in Ho3.
    rewrite Hc in Hc3. destruct x as [[]|[e|]]; [by subst|by subst|done]. }
  destruct route; cbn [send_started] in Hrun;
    (apply bind_run in Hrun as [(e & Hrun & ->)|(d2 & [] & Hrun2 & Hrun)];
      [eapply Hopen; [exact Hrun|]; by intros [= ->]|]).
  2: by eapply over_connection_releases.
  all: assert (Hd2 : released d2) by (by eapply Hopen);
    apply bind_run in Hrun as [(e & Hrun & ->)|(d3 & [] & Hrun3 & Hrun)]; [done|]; injection Hrun3 as <-;
    by eapply from_endpoint_releases; [|exact Hrun|]; [apply Hd2|].
Qed.

(** C26. Every attempt to send is settled, whichever way it takes to the receiver and
    wherever it fails or is cancelled: nothing it opened stays open, and its timeline
    starts with [SessionStarted] and has exactly one terminal stage, its last, which is
    [DeliveryComplete] exactly when the session returned a summary.  Only a job that is
    not sealed is refused before the timeline starts. *)
Theorem send_attempts_settle route sealed config consent on_authenticated seed nonce cut_prepare auth_ends cut_transfer d d' r :
  released d -> dl_reports d = [] ->
  send_by route sealed (session sealed config consent on_authenticated seed nonce cut_prepare auth_ends cut_transfer) d = (d', r) ->
  r <> Err Panicked ->
  released d' /\
  ((sealed = None /\ dl_reports d' = [] /\ is_ok r = false) \/
   (closed (omap stage_of (dl_reports d')) /\
    (is_ok r = true <-> last (omap stage_of (dl_reports d')) = Some DeliveryComplete))).
Proof.
  intros Hd Hrep Hrun Hr. rewrite send_by_started in Hrun. destruct sealed as [m0|].
  2: { injection Hrun as <- <-. split; [done|]. by left. }
  erewrite proc_bind_eq in Hrun by reflexivity. cbn beta in Hrun.
  set (d1 := (start_send_attempt io_kind core_error (Some m0) d).1) in *.
  split; [by eapply (send_started_releases _ _ d1)|right].
  destruct (send_started_settles route _ (send_session_settles _ _ _ _ _ _ _ _ _) d1 _ _ Hrun) as (new & Hnew & Hend).
  assert (Hd1 : dl_reports d1 = [on_stage SessionStarted]) by exact (f_equal (fun l => l ++ _) Hrep).
  rewrite Hnew, Hd1, omap_app. cbn.
  assert (Hsteps : forall steps, Forall under_way steps -> Forall (fun x => terminal x = false) (omap stage_of steps)).
  { intros steps Hs. induction Hs as [|[] steps Hx Hs IH]; cbn; [done..|]. by constructor. }
  assert (Hclose : forall steps stage, terminal stage = true -> Forall under_way steps ->
    closed (SessionStarted :: omap stage_of (steps ++ [on_stage stage])) /\
    last (SessionStarted :: omap stage_of (steps ++ [on_stage stage])) = Some stage).
  { intros steps stage Ht Hs. rewrite omap_app. cbn. split; [by apply closed_intro; [|apply Hsteps]|].
    rewrite app_comm_cons. by rewrite last_snoc. }
  destruct r as [summary|[e|]]; [| |done].
  - destruct Hend as (steps & -> & Hs). destruct (Hclose steps DeliveryComplete) as [Hc Hl]; [done..|]. by rewrite Hl.
  - destruct Hend as (steps & stage & -> & Hs & Hst). assert (Ht : terminal stage = true) by (by destruct Hst as [-> | ->]).
    destruct (Hclose steps stage Ht Hs) as [Hc Hl]. rewrite Hl. split; [done|]. split; [done|].
    intros [= ->]. by destruct Hst.
Qed.
End SendAttempt.
