(* ===== verification/SessionAgree.v ===== *)
(** A sender's session and a receiver's that both end well agree: each side has stored
    the same delivery proof, for the same results. *)

From stdpp Require Import prelude gmap strings.
From Stdlib Require Import ZArith Lia Strings.Byte.
From S2P Require Import Prelude Bytes ManifestV2 ManifestSpec OfferCodec Frames Timeline Delivery DeliveryStore Ledger Names Proc.
From S2P Require Import CoreError Invite Pairing Auth ReceivePlane LocalFs Destination Provider ProviderCommit SendPlane Agreement.
From S2P Require Import DeliverySystem RoomSession Session SessionPlane SessionProof.

Local Open Scope Z_scope.

Lemma commit_results_taken r summary r' :
  commit_results r summary = (r', Ok tt) -> sd_entry_results r' = ss_entry_results summary.
Proof.
  unfold commit_results. destruct (_ || _); [done|]. destruct (negb _); [done|]. intros H.
  destruct (negb (bool_decide (sd_entry_results r = ss_entry_results summary))) eqn:Hne.
  - case_bool_decide as Hnil; [|done]. cbn in H. destruct (sd_completion_set_digest r) in H.
    + destruct (negb _) in H; [done|]. case_bool_decide; by simplify_eq.
    + cbn in H. case_bool_decide; by simplify_eq.
  - bool_prop. rewrite andb_false_r in H. case_bool_decide as Hnil; cbn in H.
    + destruct (sd_completion_set_digest r) in H; [destruct (negb _) in H; [done|]|]; cbn in H;
        case_bool_decide; by simplify_eq.
    + destruct (sd_completion_set_digest r) in H; [destruct (negb _) in H; [done|]|]; cbn in H;
        case_bool_decide; by simplify_eq.
Qed.

Section Sender.
Context (io_kind : IoErrorKind) (core_error : CoreError).
Context (is_nfc : str -> bool) (blake3 : list byte -> list byte).
Context (derive_key : str -> list byte -> list byte) (keyed_hash : list byte -> list byte -> list byte).
Context (zstd_compress : list byte -> option (list byte)).
Context (sender_to_vec : SenderDeliveryRecordV2 -> option (list byte)).
Context (sender_from_slice : list byte -> option SenderDeliveryRecordV2).
Context {F : Type} `{FileSource F} `{InviteLibs, PakeLibs}.
Context (sender_serde : forall r bytes, sender_to_vec r = Some bytes -> sender_from_slice bytes = Some r).
Local Notation world := (World SenderDeliveryRecordV2 F).
Local Notation vwp f Q w := (wp f Q (fun (_ : ManifestV2DataError) _ => True) w).
Implicit Types (w : world) (s : Sending F).

#[local] Instance agree_store : DeliveryRecord SenderDeliveryRecordV2 :=
  sender_delivery_store is_nfc blake3 derive_key keyed_hash sender_to_vec sender_from_slice.

(** The record of the session is the stored one. *)
Definition synced w : Prop := load (store w) (sd_identity (record w)) = Ok (Some (record w)).
(** Frames were read at most. *)
Definition reads w w' : Prop := exists taken, incoming w = taken ++ incoming w'.
#[local] Instance reads_preorder : PreOrder reads.
Proof.
  split; [by exists []|]. intros a b c [x Hx] [y Hy]. exists (x ++ y). by rewrite Hx, Hy, app_assoc.
Qed.

Lemma save_delivery_synced w :
  vwp (save_delivery is_nfc blake3 derive_key keyed_hash sender_to_vec sender_from_slice)
    (fun _ w' => synced w' /\ record w' = record w /\ incoming w' = incoming w) w.
Proof.
  unfold save_delivery. apply wp_save_record. intros fault fs r w' Hs Hc Hi.
  destruct (save _ _ fault) as [fs1 saved] eqn:Hsave. injection Hs as -> <-. destruct saved as [[]|]; [|done]. cbn.
  unfold synced. injection Hc as -> -> _ _. split; [|done].
  exact (@save_ok _ agree_store sender_serde _ _ _ _ Hsave).
Qed.

(** A data plane that returns has stored the results it reports. *)
Lemma send_synced sealed nonce w :
  vwp (SendPlane.send is_nfc blake3 derive_key keyed_hash zstd_compress sender_to_vec sender_from_slice sealed nonce)
    (fun summary w' => synced w' /\ sd_entry_results (record w') = ss_entry_results summary) w.
Proof.
  unfold SendPlane.send. do 7 (apply wp_any; intros ? ?).
  match goal with p : _ * _ |- _ => destruct p as [accept status] end.
  do 9 (apply wp_any; intros ? ?). match goal with p : _ * _ |- _ => destruct p as [hasher ks] end.
  do 3 (apply wp_any; intros ? ?). apply wp_bind. unfold on_record. apply wp_bind, wp_get_record.
  destruct (commit_results _ _) as [r' res] eqn:Hcommit. apply wp_bind, wp_put_record. intros v1 Hc1 _.
  apply wp_pure; [|done]. intros [] Hok%map_err_ok. subst res. apply commit_results_taken in Hcommit.
  apply wp_bind. eapply wp_mono; [apply save_delivery_synced| |done]. intros _ v2 (Hs & Hr & _).
  apply wp_bind, wp_report. intros v3 Hc3 _. apply wp_ret. unfold synced in *.
  injection Hc3 as Hr3 Hs3 _ _. rewrite Hr3, Hs3. split; [done|]. rewrite Hr. by injection Hc1 as -> _ _ _.
Qed.

Lemma reconnect_keeps sealed nonce w :
  vwp (establish_sender_reconnect is_nfc blake3 derive_key keyed_hash sealed nonce)
    (fun _ w' => record w' = record w /\ store w' = store w /\ reads w w') w.
Proof.
  unfold establish_sender_reconnect. do 2 (apply wp_bind, wp_pure; [|done]; intros ? _).
  apply wp_bind, wp_get_record. do 5 (apply wp_bind, wp_pure; [|done]; intros ? _).
  apply wp_bind, wp_send; [done|]. intros w1 Hc1 Hi1. apply wp_bind, wp_recv; [done|]. intros f w2 Hc2 Hi2.
  destruct f; try done. destruct (negb _); [done|]. do 2 (apply wp_bind, wp_pure; [|done]; intros ? _). apply wp_ret.
  injection Hc2 as -> -> _ _. injection Hc1 as -> -> _ _. split_and!; [done..|]. rewrite Hi1 in Hi2. by eexists [_].
Qed.

(** ** The session *)

Lemma recording_ok {W A} (record_failure : proc W RoomError unit) (m : proc W RoomError A) (w w' : W) a :
  recording record_failure m w = (w', Ok a) -> m w = (w', Ok a).
Proof.
  unfold recording. intros (w1 & r & Hm & Hr)%bind_ok. unfold attempt in Hm. destruct (m w) as [w2 r2].
  injection Hm as -> <-. destruct r2 as [a2|[e|]]; [|by apply bind_ok in Hr as (? & ? & _ & ?)|done]. by injection Hr as -> ->.
Qed.
Lemma or_cancelled_ok {W A} shorten flag cut (m : proc W RoomError A) (w w' : W) a :
  or_cancelled shorten flag cut m w = (w', Ok a) -> m w = (w', Ok a).
Proof. by destruct cut. Qed.
Lemma on_plane_ok {A} (m : proc world ManifestV2DataError A) Q s s' a :
  on_sender_plane io_kind core_error m s = (s', Ok a) -> vwp m Q (sg_plane s) -> Q a (sg_plane s').
Proof.
  unfold on_sender_plane, wp. destruct (m (sg_plane s)) as [w' [b|e]]; [|done]. by intros [= <- ->].
Qed.
Lemma sg_report_ok v s s' :
  sg_report io_kind core_error v s = (s', Ok tt) ->
  core (sg_plane s') = core (sg_plane s) /\ incoming (sg_plane s') = incoming (sg_plane s).
Proof. by intros [= <-]. Qed.

(** The stored record says that [proof] was delivered for the results of [summary]. *)
Definition delivered_with w (summary : SenderManifestV2SessionSummary) (proof : DeliveryProofV2) : Prop :=
  exists r, load (store w) (sd_identity r) = Ok (Some r) /\ sd_phase r = Delivered /\ sd_delivery_proof r = Some proof /\
    sd_entry_results r = ss_entry_results (sms_data_plane summary) /\
    canonical_manifest_v2_frame_body_digest is_nfc blake3 (DeliveryProof proof) = Ok (sms_delivery_proof_digest summary).

Lemma confirm_delivery_ok s s' proof :
  synced (sg_plane s) ->
  confirm_delivery is_nfc blake3 derive_key keyed_hash sender_to_vec sender_from_slice s = (s', Ok proof) ->
  DeliveryProof proof ∈ incoming (sg_plane s) /\ exists r, load (store (sg_plane s')) (sd_identity r) = Ok (Some r) /\
    sd_phase r = Delivered /\ sd_delivery_proof r = Some proof /\ sd_entry_results r = sd_entry_results (record (sg_plane s)).
Proof.
  intros Hsync. unfold confirm_delivery. destruct (sender_confirm_delivery _ _ _ _ _ _ _ _ _ _) as [[r fs] res] eqn:Hc.
  intros [= <- Hres]. destruct res as [p|e]; [|done]. injection Hres as <-. cbn.
  assert (Hin : head (incoming (sg_plane s)) = Some (DeliveryProof p) -> DeliveryProof p ∈ incoming (sg_plane s)).
  { destruct (incoming (sg_plane s)); [done|]. intros [= ->]. by left. }
  apply confirm_cases in Hc as [(-> & -> & Hok)|(p' & saved & Hf & Hp & Hfit & -> & Hsave & Hok)].
  - destruct (Hok p eq_refl) as (Hph & Hf & Hpr). split; [by apply Hin|]. by exists (record (sg_plane s)).
  - destruct saved as [[]|]; [|done]. injection Hok as <-. split; [by apply Hin|]. eexists.
    split; [exact (@save_ok _ agree_store sender_serde _ _ _ _ Hsave)|done].
Qed.

Lemma data_plane_step sealed nonce s s' summary :
  synced (sg_plane s) ->
  (match sd_phase (record (sg_plane s)) with
   | Offering | Transferring =>
     on_sender_plane io_kind core_error
       (SendPlane.send is_nfc blake3 derive_key keyed_hash zstd_compress sender_to_vec sender_from_slice sealed nonce)
   | WaitingForReceiverSave | Delivered =>
     _ ← sg_report io_kind core_error (on_stage ManifestOffer);
     _ ← on_sender_plane io_kind core_error (establish_sender_reconnect is_nfc blake3 derive_key keyed_hash sealed nonce);
     _ ← sg_report io_kind core_error (on_stage ManifestAccepted);
     _ ← sg_report io_kind core_error (on_stage StagePayloadComplete);
     pure (ok_or (Returned (Protocol "sender delivery phase has no durable result summary"))
             (completed_data_summary (record (sg_plane s))))
   | TransferFailed | TransferCanceled =>
     throw (Returned (TransferError "terminal failed or canceled job cannot reconnect"))
   end) s = (s', Ok summary) ->
  synced (sg_plane s') /\ reads (sg_plane s) (sg_plane s') /\
  sd_entry_results (record (sg_plane s')) = ss_entry_results summary.
Proof.
  intros Hsync Hrun.
  assert (Hsend : on_sender_plane io_kind core_error (SendPlane.send is_nfc blake3 derive_key keyed_hash zstd_compress
    sender_to_vec sender_from_slice sealed nonce) s = (s', Ok summary) -> synced (sg_plane s') /\
    reads (sg_plane s) (sg_plane s') /\ sd_entry_results (record (sg_plane s')) = ss_entry_results summary).
  { intros Hs. destruct (on_plane_ok _ _ _ _ _ Hs (send_synced sealed nonce _)) as [Hy Hz].
    destruct (on_plane_ok _ _ _ _ _ Hs (send_exchange _ _ _ _ _ _ _ sealed nonce _)) as (f & g & ins & outs & _ & _ & Hx & _).
    split_and!; [done| |done]. by eexists. }
  assert (Hre : (_ ← sg_report io_kind core_error (on_stage ManifestOffer);
     _ ← on_sender_plane io_kind core_error (establish_sender_reconnect is_nfc blake3 derive_key keyed_hash sealed nonce);
     _ ← sg_report io_kind core_error (on_stage ManifestAccepted);
     _ ← sg_report io_kind core_error (on_stage StagePayloadComplete);
     pure (ok_or (Returned (Protocol "sender delivery phase has no durable result summary"))
             (completed_data_summary (record (sg_plane s))))) s = (s', Ok summary) -> synced (sg_plane s') /\
    reads (sg_plane s) (sg_plane s') /\ sd_entry_results (record (sg_plane s')) = ss_entry_results summary).
  { intros (s1 & [] & [Hc1 Hi1]%sg_report_ok & Hr)%bind_ok. apply bind_ok in Hr as (s2 & st & H2 & Hr).
    destruct (on_plane_ok _ _ _ _ _ H2 (reconnect_keeps sealed nonce _)) as (Hr2 & Hst2 & Hin2).
    apply bind_ok in Hr as (s3 & [] & [Hc3 Hi3]%sg_report_ok & Hr).
    apply bind_ok in Hr as (s4 & [] & [Hc4 Hi4]%sg_report_ok & Hr). apply pure_ok in Hr as [Hs%ok_or_ok ->].
    injection Hc1 as Hr1 Hst1 _ _. injection Hc3 as Hr3 Hst3 _ _. injection Hc4 as Hr4 Hst4 _ _. unfold synced, reads in *.
    rewrite Hr4, Hr3, Hr2, Hr1, Hst4, Hst3, Hst2, Hst1, Hi4, Hi3, <- Hi1. split_and!; [done..|].
    unfold completed_data_summary in Hs. destruct (sd_accept_body_digest _); [|done]. cbn in Hs.
    destruct (sd_completion_set_digest _); [|done]. cbn in Hs. case_bool_decide; [done|]. by injection Hs as <-. }
  destruct (sd_phase _); [by apply Hsend..|by apply Hre|by apply Hre|done|done].
Qed.

Lemma send_authenticated_ok sealed nonce s s' summary :
  synced (sg_plane s) ->
  send_authenticated io_kind core_error is_nfc blake3 derive_key keyed_hash zstd_compress sender_to_vec sender_from_slice
    sealed nonce s = (s', Ok summary) ->
  exists proof, DeliveryProof proof ∈ incoming (sg_plane s) /\ delivered_with (sg_plane s') summary proof.
Proof.
  intros Hsync. unfold send_authenticated. intros (s1 & r & Hg & Hrun)%bind_ok. injection Hg as <- <-.
  apply bind_ok in Hrun as (s2 & data_plane & H2 & Hrun).
  eapply (data_plane_step sealed nonce (sg_set_plane (sg_plane s) s)) in H2 as (Hs2 & [taken Hin2] & Hres); [|done].
  apply bind_ok in Hrun as (s3 & proof & H3 & Hrun).
  apply confirm_delivery_ok in H3 as (Hin & r & Hload & Hph & Hpr & Hr); [|done].
  apply bind_ok in Hrun as (s4 & [] & [Hc4 _]%sg_report_ok & Hrun).
  apply bind_ok in Hrun as (s5 & digest & [Hd%map_err_ok ->]%pure_ok & Hrun). injection Hrun as <- <-.
  exists proof. split; [cbn in Hin2; rewrite Hin2; apply elem_of_app; by right|].
  exists r. injection Hc4 as _ -> _ _. split_and!; [done..|by rewrite Hr|done].
Qed.

Lemma prepare_sender_ok sealed s s' :
  prepare_sender io_kind core_error is_nfc blake3 derive_key keyed_hash sender_to_vec sender_from_slice sealed s = (s', Ok tt) ->
  synced (sg_plane s') /\ incoming (sg_plane s') = incoming (sg_plane s).
Proof.
  unfold prepare_sender. intros (s1 & m & [_ ->]%pure_ok & Hrun)%bind_ok.
  apply bind_ok in Hrun as (s2 & offer & [_ ->]%pure_ok & Hrun).
  apply bind_ok in Hrun as (s3 & stored & Hload & Hrun). injection Hload as <- _.
  apply bind_ok in Hrun as (s4 & [] & [_ ->]%pure_ok & Hrun).
  apply bind_ok in Hrun as (s5 & [] & Hput & Hrun). injection Hput as <-.
  by destruct (on_plane_ok _ _ _ _ _ Hrun (save_delivery_synced _)) as (Hs & _ & Hi).
Qed.

(** A session that returns has stored the proof that was delivered to it. *)
Lemma send_over_connection_ok sealed config consent on_authenticated seed nonce cut_prepare auth_ends cut_transfer s s' summary :
  send_over_connection io_kind core_error is_nfc blake3 derive_key keyed_hash zstd_compress sender_to_vec sender_from_slice
    sealed config consent on_authenticated seed nonce cut_prepare auth_ends cut_transfer s = (s', Ok summary) ->
  exists proof, DeliveryProof proof ∈ incoming (sg_plane s) /\ delivered_with (sg_plane s') summary proof.
Proof.
  unfold send_over_connection. intros (s1 & [] & Hp%recording_ok%or_cancelled_ok & Hrun)%bind_ok.
  apply prepare_sender_ok in Hp as [Hsync Hin].
  apply bind_ok in Hrun as (s2 & [] & [Hc2 Hi2]%sg_report_ok & Hrun).
  apply bind_ok in Hrun as (s3 & outcome & Hauth%recording_ok & Hrun).
  apply bind_ok in Hrun as (s4 & [] & Hhand%recording_ok & Hrun).
  apply bind_ok in Hrun as (s5 & [] & [Hc5 Hi5]%sg_report_ok & Hrun).
  apply bind_ok in Hrun as (s6 & sent & Hsend%recording_ok%or_cancelled_ok & Hrun).
  apply bind_ok in Hrun as (s7 & [] & [Hc7 _]%sg_report_ok & Hrun). injection Hrun as <- <-.
  assert (H3 : sg_plane s3 = sg_plane s2).
  { unfold auth_bounded in Hauth. destruct auth_ends; [|done|done]. destruct (authenticate_sender_with_remember _ _ _ _).
    by injection Hauth as <- _. }
  assert (H4 : sg_plane s4 = sg_plane s3) by by injection Hhand as <- _.
  apply send_authenticated_ok in Hsend as (proof & Hproof & r & Hr).
  - exists proof. split; [congruence|]. exists r. by injection Hc7 as _ -> _ _.
  - unfold synced. injection Hc5 as -> -> _ _. rewrite H4, H3. by injection Hc2 as -> -> _ _.
Qed.
End Sender.

(** ** Both sides *)

Section Agree.
Context (sender_io receiver_io : IoErrorKind) (sender_core receiver_core : CoreError).
Context (os : Platform) (to_lowercase : str -> str) (is_nfc : str -> bool).
Context (blake3 : list byte -> list byte) (derive_key : str -> list byte -> list byte).
Context (keyed_hash : list byte -> list byte -> list byte).
Context (zstd_compress : list byte -> option (list byte)) (zstd_decompress : list byte -> Z -> option (list byte)).
Context (volume_of : path -> str) (device_of : path -> Z).
Context (plan_to_vec : DestinationWritePlanV2 -> option (list byte)).
Context (plan_from_slice : list byte -> option DestinationWritePlanV2).
Context (save_to_vec : LocalSaveLedgerV2 -> option (list byte)).
Context (save_from_slice : list byte -> option LocalSaveLedgerV2).
Context (ledger_to_vec : ReceiverDataPlaneLedgerV2 -> option (list byte)).
Context (ledger_from_slice : list byte -> option ReceiverDataPlaneLedgerV2).
Context (receiver_to_vec : ReceiverDeliveryRecordV2 -> option (list byte)).
Context (receiver_from_slice : list byte -> option ReceiverDeliveryRecordV2).
Context (sender_to_vec : SenderDeliveryRecordV2 -> option (list byte)).
Context (sender_from_slice : list byte -> option SenderDeliveryRecordV2).
Context (gate : ResultGate) {F : Type} `{FileSource F} `{InviteLibs, PakeLibs}.

#[local] Instance both_sender_store : DeliveryRecord SenderDeliveryRecordV2 :=
  sender_delivery_store is_nfc blake3 derive_key keyed_hash sender_to_vec sender_from_slice.
#[local] Instance both_receiver_store : DeliveryRecord ReceiverDeliveryRecordV2 :=
  receiver_delivery_store is_nfc blake3 derive_key keyed_hash receiver_to_vec receiver_from_slice.
Local Notation receiver_session :=
  (receive_after_offer receiver_io receiver_core os to_lowercase is_nfc blake3 derive_key keyed_hash zstd_decompress volume_of
     device_of plan_to_vec plan_from_slice save_to_vec save_from_slice ledger_to_vec ledger_from_slice receiver_to_vec
     receiver_from_slice gate).
Local Notation sender_session :=
  (send_over_connection (F := F) sender_io sender_core is_nfc blake3 derive_key keyed_hash zstd_compress sender_to_vec
     sender_from_slice).
Local Notation stores_ok :=
  (stores_ok is_nfc blake3 derive_key keyed_hash ledger_from_slice receiver_to_vec receiver_from_slice).

(** One proof determines the results it was made for. *)
Lemma proof_results (s : SenderDeliveryRecordV2) (r : ReceiverDeliveryRecordV2) p :
  (forall b, zlen (blake3 b) = DIGEST_BYTES) -> (forall ctx a b, derive_key ctx a = derive_key ctx b -> a = b) ->
  record_validate s = Ok tt -> record_validate r = Ok tt -> sd_delivery_proof s = Some p -> rd_delivery_proof r = Some p ->
  wf_results (sd_entry_results s) = true -> wf_results (rd_entry_results r) = true ->
  sd_identity s = rd_identity r /\ sd_manifest_digest s = rd_manifest_digest r /\ sd_entry_results s = rd_entry_results r.
Proof.
  intros Hhash Hinj Hs Hr Hsp Hrp Hws Hwr. cbn in Hs, Hr. apply sender_validate_ok in Hs.
  apply receiver_validate_ok in Hr as (_ & _ & Hrd & Hfit). specialize (Hfit p Hrp).
  destruct (so_proof _ _ _ _ _ Hs p Hsp) as (accept & digest & _ & Hd & Hpeq).
  rewrite Hpeq in Hfit. unfold receiver_fits, build_delivery_proof in Hfit. injection Hfit as Hid Hm Hdig _. cbn in *.
  split_and!; [done..|]. unfold result_set_digest_of in Hd, Hrd. inv_ok.
  match goal with Hx : derive_key _ ?x = rd_result_set_digest r, Hy : derive_key _ ?y = _ |- _ =>
    assert (x = y) as -> by (apply (Hinj RESULT_SET_CONTEXT); congruence) end.
  by eapply result_transcript_inj.
Qed.

(** C2. When the sender's session and the receiver's both end well, they agree.  The
    sender took the proof from a connection on which only what the receiver sent in
    its session arrives as a delivery proof; nothing else is assumed of the frames,
    of the two stores' faults, or of how far earlier sessions of the job came.  Then
    both report the same proof digest; the sender's store says [Delivered] with the
    proof that the receiver's store holds, for the same job and manifest; and, as
    the hash has no collisions, the results the sender reports are those the
    receiver reports and has in its finished ledger. *)
Theorem sessions_agree sealed config consent on_authenticated seed nonce cut_prepare auth_ends cut_transfer
    (s s' : Sending F) ss offer request destination token cut p p' rs :
  (forall b, zlen (blake3 b) = DIGEST_BYTES) -> (forall ctx a b, derive_key ctx a = derive_key ctx b -> a = b) ->
  (forall l bytes, ledger_to_vec l = Some bytes -> ledger_from_slice bytes = Some l) ->
  (forall r bytes, receiver_to_vec r = Some bytes -> receiver_from_slice bytes = Some r) ->
  (forall r bytes, sender_to_vec r = Some bytes -> sender_from_slice bytes = Some r) ->
  wf_manifest (manifest offer) = true -> build_manifest_offer_v2 is_nfc blake3 (manifest offer) = Ok offer ->
  stores_ok (manifest offer) (rv_stores (pe_receiver p)) -> rv_sent (pe_receiver p) = [] ->
  sender_session sealed config consent on_authenticated seed nonce cut_prepare auth_ends cut_transfer s = (s', Ok ss) ->
  receive_with_result_gate cut (receiver_session offer request destination token) p = (p', Ok rs) ->
  (forall proof, DeliveryProof proof ∈ incoming (sg_plane s) ->
     DeliveryProof proof ∈ (rv_sent (pe_receiver p')).*1) ->
  wf_results (ss_entry_results (sms_data_plane ss)) = true ->
  wf_results (rsum_entry_results (rms_data_plane rs)) = true ->
  sms_delivery_proof_digest ss = rms_delivery_proof_digest rs /\
  ss_entry_results (sms_data_plane ss) = rsum_entry_results (rms_data_plane rs) /\
  exists sent kept proof,
    load (store (sg_plane s')) (identity_of offer) = Ok (Some sent) /\ sd_phase sent = Delivered /\
    load (delivery_files (rv_stores (pe_receiver p'))) (identity_of offer) = Ok (Some kept) /\
    sd_delivery_proof sent = Some proof /\ rd_delivery_proof kept = Some proof /\
    sd_manifest_digest sent = rd_manifest_digest kept /\ sd_entry_results sent = rd_entry_results kept.
Proof.
  intros Hhash Hinj Hl Hr Hse Hwf Hb Hst Hsent Hs Hrun Hconn Hws Hwr.
  apply send_over_connection_ok in Hs as (proof & Hin & sent & Hload & Hph & Hpr & Hres & Hdig); [|done].
  eapply gate_run in Hrun as [(_ & _ & Hpro) Hok]; [|done..|by apply promises_start].
  destruct (Hok rs eq_refl) as (l & [_ [Hled _]] & Hsum & kept & proof' & (Hkept & l' & sum' & [Hled' _] & Hsum' & Hrec) & Hpr' & Hdig').
  rewrite Hled in Hled'. injection Hled' as <-. rewrite Hsum in Hsum'. injection Hsum' as <-.
  apply Hconn, list_elem_of_fmap in Hin as ([f st] & Hf & Hin). cbn in Hf. subst f. destruct (Hpro _ _ Hin) as (kept' & Hkept' & Hp').
  rewrite Hkept in Hkept'. injection Hkept' as <-. rewrite Hpr' in Hp'. injection Hp' as ->.
  pose proof (load_valid _ _ _ Hload) as [_ Hsv]. pose proof (load_valid _ _ _ Hkept) as [Hkid Hkv].
  destruct Hrec as (_ & _ & Hkres & _).
  destruct (proof_results sent kept proof) as (Hid & Hm & Heq); [done..|by rewrite Hres|by rewrite Hkres|].
  split; [congruence|]. split; [congruence|]. exists sent, kept, proof.
  rewrite (offer_identity is_nfc blake3 (manifest offer) offer Hb). cbn in Hkid. rewrite Hid, Hkid in Hload. by split_and!.
Qed.
End Agree.
