(* ===== verification/Job.v ===== *)
(** A transfer job on the sender's side (crates/envoix-transfer/src/job.rs): the
    selected sources, their inventory and how it is enumerated from a disk that may
    change meanwhile, the decisions of the user, sealing into a manifest, and the store
    of jobs with the staging it owns.  A [&mut self] method is a program over a world
    that holds the job, which keeps what was done before an error. *)

From stdpp Require Import prelude gmap strings.
From Stdlib Require Import ZArith Lia Strings.Byte.
From S2P Require Import Prelude Bytes ManifestV2 OfferCodec Frames Delivery Ledger Proc LocalFs.

Local Open Scope Z_scope.

(** ** Data *)

Definition TRANSFER_JOB_SCHEMA_VERSION : Z := 1.
Definition FIRST_SELECTION_REVISION : Z := 1.
Definition FIRST_GENERATION : Z := 1.
Definition FIRST_SOURCE_ITEM_ID : Z := 1.
Definition DERIVED_ITEM_ID_MASK : Z := Z.shiftl 1 63.
Definition MAX_COMPRESSION_SAMPLE_BYTES : Z := 256 * 1024.
Definition DEFAULT_INVENTORY_PAGE_SIZE : Z := 128.
Definition MAX_INVENTORY_PAGE_SIZE : Z := 512.

Abbreviation SourceItemId := Z.

Inductive LocalSourceOrigin :=
| OriginFilesystem | OriginPhotosStaging | OriginShareStaging | OriginContentUriStaging | OriginFileProviderStaging.
#[export] Instance LocalSourceOrigin_eq_dec : EqDecision LocalSourceOrigin.
Proof. solve_decision. Defined.

Inductive JobLifecycle :=
| JobPreparing | JobNeedsSourceDecision | JobReadyToSend | JobSealed | JobCanceled.
#[export] Instance JobLifecycle_eq_dec : EqDecision JobLifecycle.
Proof. solve_decision. Defined.

Inductive SourceSelectionState := SelPending | SelEnumerating | SelNeedsDecision | SelReady.
#[export] Instance SourceSelectionState_eq_dec : EqDecision SourceSelectionState.
Proof. solve_decision. Defined.

Inductive SourceIssueKind :=
| IssuePermissionDenied | IssueUnavailable | IssueInvalidName | IssueSymbolicLink | IssueSpecialFile
| IssueSourceChanged | IssueDepthLimit | IssueEntryLimit.
#[export] Instance SourceIssueKind_eq_dec : EqDecision SourceIssueKind.
Proof. solve_decision. Defined.

Record SourceIssue := mkIssue {
  issue_id : Z;
  issue_root_item_id : SourceItemId;
  issue_components : list str;
  issue_kind_of : SourceIssueKind;
}.
#[export] Instance SourceIssue_eq_dec : EqDecision SourceIssue.
Proof. solve_decision. Defined.
(** [ProviderSourceIssue], and the [PendingIssue] of an enumeration. *)
Record PendingIssue := mkPendingIssue { pi_components : list str; pi_kind : SourceIssueKind }.
Abbreviation ProviderSourceIssue := PendingIssue.

Inductive SourceDecision := Reauthorize (local_path : path) | ApprovePartial | RemoveSelection | CancelJob.

Record AddSourceResult := mkAdded {
  added_root_item_id : SourceItemId;
  folded_into_existing_selection : bool;
  removed_covered_roots : list SourceItemId;
}.
Record InventoryCursor := mkCursor { cursor_revision : Z; cursor_offset : Z }.
Record InventoryItem := mkItem {
  it_item_id : SourceItemId;
  it_root_item_id : SourceItemId;
  it_parent_item_id : option SourceItemId;
  it_name : str;
  it_kind : ManifestEntryKindV2;
  it_plaintext_size : Z;
  it_digest_known : bool;
  it_has_warning : bool;
}.
Record InventoryPage := mkPage {
  page_revision : Z;
  page_items : list InventoryItem;
  page_next_cursor : option InventoryCursor;
}.
Record InventorySummary := mkInventorySummary {
  is_root_count : Z;
  is_file_count : Z;
  is_directory_count : Z;
  is_total_plaintext_bytes : Z;
  is_warning_count : Z;
}.
Record SourceSelectionInfo := mkSelectionInfo {
  info_root_item_id : SourceItemId;
  info_requested_name : str;
  info_state : SourceSelectionState;
  info_partial_approved : bool;
  info_issues : list SourceIssue;
}.

Record SourceFingerprint := mkFingerprint {
  fp_plaintext_size : Z;
  fp_modified_unix_nanos : option Z;
  fp_canonical_path_digest : list byte;
}.
#[export] Instance SourceFingerprint_eq_dec : EqDecision SourceFingerprint.
Proof. solve_decision. Defined.
Record LocalSourceBinding := mkBinding {
  sb_path : path;
  sb_origin : LocalSourceOrigin;
  sb_job_owned_staging : bool;
  sb_fingerprint : SourceFingerprint;
}.
Record PreparedFileSource := mkSource { pf_path : path; pf_fingerprint : SourceFingerprint }.

Record SourceSelection := mkSelection {
  sel_root_item_id : SourceItemId;
  sel_order : Z;
  sel_requested_name : str;
  sel_path : path;
  sel_canonical_path : option path;
  sel_is_directory_hint : option bool;
  sel_origin : LocalSourceOrigin;
  sel_job_owned_staging : bool;
  sel_state : SourceSelectionState;
  sel_root_inventory_item_id : option SourceItemId;
  sel_completeness : SourceCompletenessV2;
  sel_issues : list SourceIssue;
}.
Record PreparedInventoryEntry := mkInventoryEntry {
  pie_item_id : SourceItemId;
  pie_root_item_id : SourceItemId;
  pie_parent_item_id : option SourceItemId;
  pie_components : list str;
  pie_name : str;
  pie_kind : ManifestEntryKindV2;
  pie_plaintext_size : Z;
  pie_modified_unix_nanos : option Z;
  pie_digest : option ContentDigestV2;
}.
Record SealedTransferJob := mkSealed {
  sj_manifest : ManifestV2;
  sj_structural_digest : ContentDigestV2;
  sj_offer_bytes : list byte;
}.
Record CanonicalTransferJob := mkJob {
  cj_schema_version : Z;
  cj_job_id : JobIdV2;
  cj_created_unix_ms : Z;
  cj_updated_unix_ms : Z;
  cj_selection_revision : Z;
  cj_generation : Z;
  cj_lifecycle : JobLifecycle;
  cj_compression_policy : CompressionPolicyV2;
  cj_next_source_item_id : Z;
  cj_next_issue_id : Z;
  cj_selections : list SourceSelection;
  cj_inventory : list PreparedInventoryEntry;
  cj_source_bindings : gmap SourceItemId LocalSourceBinding;
  cj_cleanup_pending : list path;
  cj_sealed : option SealedTransferJob;
}.

Section Setters.
Implicit Types (j : CanonicalTransferJob).
Definition set_lifecycle v j := mkJob (cj_schema_version j) (cj_job_id j) (cj_created_unix_ms j) (cj_updated_unix_ms j)
  (cj_selection_revision j) (cj_generation j) v (cj_compression_policy j) (cj_next_source_item_id j) (cj_next_issue_id j)
  (cj_selections j) (cj_inventory j) (cj_source_bindings j) (cj_cleanup_pending j) (cj_sealed j).
Definition set_revision v j := mkJob (cj_schema_version j) (cj_job_id j) (cj_created_unix_ms j) (cj_updated_unix_ms j)
  v (cj_generation j) (cj_lifecycle j) (cj_compression_policy j) (cj_next_source_item_id j) (cj_next_issue_id j)
  (cj_selections j) (cj_inventory j) (cj_source_bindings j) (cj_cleanup_pending j) (cj_sealed j).
Definition set_updated v j := mkJob (cj_schema_version j) (cj_job_id j) (cj_created_unix_ms j) v
  (cj_selection_revision j) (cj_generation j) (cj_lifecycle j) (cj_compression_policy j) (cj_next_source_item_id j)
  (cj_next_issue_id j) (cj_selections j) (cj_inventory j) (cj_source_bindings j) (cj_cleanup_pending j) (cj_sealed j).
Definition set_policy v j := mkJob (cj_schema_version j) (cj_job_id j) (cj_created_unix_ms j) (cj_updated_unix_ms j)
  (cj_selection_revision j) (cj_generation j) (cj_lifecycle j) v (cj_next_source_item_id j) (cj_next_issue_id j)
  (cj_selections j) (cj_inventory j) (cj_source_bindings j) (cj_cleanup_pending j) (cj_sealed j).
Definition set_next_ids item issue j := mkJob (cj_schema_version j) (cj_job_id j) (cj_created_unix_ms j) (cj_updated_unix_ms j)
  (cj_selection_revision j) (cj_generation j) (cj_lifecycle j) (cj_compression_policy j) item issue
  (cj_selections j) (cj_inventory j) (cj_source_bindings j) (cj_cleanup_pending j) (cj_sealed j).
Definition set_selections v j := mkJob (cj_schema_version j) (cj_job_id j) (cj_created_unix_ms j) (cj_updated_unix_ms j)
  (cj_selection_revision j) (cj_generation j) (cj_lifecycle j) (cj_compression_policy j) (cj_next_source_item_id j)
  (cj_next_issue_id j) v (cj_inventory j) (cj_source_bindings j) (cj_cleanup_pending j) (cj_sealed j).
Definition set_inventory v b j := mkJob (cj_schema_version j) (cj_job_id j) (cj_created_unix_ms j) (cj_updated_unix_ms j)
  (cj_selection_revision j) (cj_generation j) (cj_lifecycle j) (cj_compression_policy j) (cj_next_source_item_id j)
  (cj_next_issue_id j) (cj_selections j) v b (cj_cleanup_pending j) (cj_sealed j).
Definition set_cleanup v j := mkJob (cj_schema_version j) (cj_job_id j) (cj_created_unix_ms j) (cj_updated_unix_ms j)
  (cj_selection_revision j) (cj_generation j) (cj_lifecycle j) (cj_compression_policy j) (cj_next_source_item_id j)
  (cj_next_issue_id j) (cj_selections j) (cj_inventory j) (cj_source_bindings j) v (cj_sealed j).
Definition set_sealed v j := mkJob (cj_schema_version j) (cj_job_id j) (cj_created_unix_ms j) (cj_updated_unix_ms j)
  (cj_selection_revision j) (cj_generation j) (cj_lifecycle j) (cj_compression_policy j) (cj_next_source_item_id j)
  (cj_next_issue_id j) (cj_selections j) (cj_inventory j) (cj_source_bindings j) (cj_cleanup_pending j) v.
End Setters.

Definition set_selection_state v (s : SourceSelection) := mkSelection (sel_root_item_id s) (sel_order s) (sel_requested_name s)
  (sel_path s) (sel_canonical_path s) (sel_is_directory_hint s) (sel_origin s) (sel_job_owned_staging s) v
  (sel_root_inventory_item_id s) (sel_completeness s) (sel_issues s).
Definition set_selection_order v (s : SourceSelection) := mkSelection (sel_root_item_id s) v (sel_requested_name s)
  (sel_path s) (sel_canonical_path s) (sel_is_directory_hint s) (sel_origin s) (sel_job_owned_staging s) (sel_state s)
  (sel_root_inventory_item_id s) (sel_completeness s) (sel_issues s).
(** What an enumeration or a decision sets. *)
Definition set_selection_outcome state item completeness issues (s : SourceSelection) :=
  mkSelection (sel_root_item_id s) (sel_order s) (sel_requested_name s) (sel_path s) (sel_canonical_path s)
    (sel_is_directory_hint s) (sel_origin s) (sel_job_owned_staging s) state item completeness issues.

(** ** Disk, clock and errors *)

(** The file type of [std::fs::Metadata], its length and its modification time in
    nanoseconds since 1970, if it has one that fits. *)
Inductive FileType := TypeSymlink | TypeFile | TypeDirectory | TypeOther.
#[export] Instance FileType_eq_dec : EqDecision FileType.
Proof. solve_decision. Defined.
Record Metadata := mkMetadata { md_type : FileType; md_len : Z; md_modified_unix_nanos : option Z }.
(** A child of a directory: its name, unless it is not Unicode, and its path. *)
Record DirEntry := mkDirEntry { de_name : option str; de_path : path }.

(** How creating a file under a new name and copying into it ends. *)
Inductive CopyOutcome := Copied | NameTaken | OpenFails | CopyFails.

(** The file system as a job sees it; a call may find another state than the one
    before.  A directory yields its children until it ends or fails. *)
Class SourceDisk (S : Type) := {
  symlink_metadata : path -> S -> S * result IoErrorKind Metadata;
  canonicalize_ok : path -> S -> S * option path;
  is_directory : path -> S -> S * option bool;
  read_directory : path -> S -> S * result IoErrorKind (list DirEntry * option IoErrorKind);
  read_file : path -> S -> S * result IoErrorKind (list byte);
  open_for_staging : path -> path -> S -> S * result IoErrorKind unit;
  copy_new_file : path -> path -> S -> S * CopyOutcome;
  remove_file : path -> S -> S * result IoErrorKind unit;
}.

(** A method fails, or it is still trying salts for an item id. *)
Inductive JobFailure := JobFails (e : TransferJobError) | JobTrying.

(** The job, the disk, what the clock reads next, the files of the store with how its
    next writes end, the entropy, and the staged files that were removed, each with the
    store's files at that moment. *)
Record JobWorld (S : Type) := mkJobWorld {
  jw_job : CanonicalTransferJob;
  jw_disk : S;
  jw_clock : list Z;
  jw_files : files;
  jw_faults : list SaveFault;
  jw_entropy : list (option (list byte));
  jw_removed : list (path * files);
}.
Arguments mkJobWorld {S}.
Arguments jw_job {S}.
Arguments jw_disk {S}.
Arguments jw_clock {S}.
Arguments jw_files {S}.
Arguments jw_faults {S}.
Arguments jw_entropy {S}.
Arguments jw_removed {S}.

(** ** Names *)

Section Names.
Context (nfc : str -> str) (is_nfc : str -> bool).

(** [canonical_component], [validate_component], [source_name] *)
Definition canonical_component (c : str) : str := nfc c.
Definition validate_source_component (c : str) : result TransferJobError unit :=
  if bool_decide (c = []) || bool_decide (c = lit ".") || bool_decide (c = lit "..")
     || (MAX_MANIFEST_V2_COMPONENT_BYTES <? zlen c)
     || existsb (fun ch => is_control ch || is_separator ch) (chars c) || negb (is_nfc c)
  then Err JE_InvalidComponent else Ok tt.
Definition source_name (p : path) : result TransferJobError str :=
  name ← ok_or JE_InvalidComponent (name ← last p; from_utf8 name);
  let name := nfc name in
  _ ← validate_source_component name;
  Ok name.
Definition logical_path_bytes (components : list str) : Z :=
  Z.min usize_max (foldr (fun c n => zlen c + n) 0 components + saturating_sub (zlen components) 1).
Fixpoint canonical_components (cs : list str) : result TransferJobError (list str) :=
  match cs with
  | [] => Ok []
  | c :: cs =>
    let c := canonical_component c in
    _ ← validate_source_component c;
    cs ← canonical_components cs;
    Ok (c :: cs)
  end.
Fixpoint canonical_provider_issues (issues : list ProviderSourceIssue) : result TransferJobError (list ProviderSourceIssue) :=
  match issues with
  | [] => Ok []
  | i :: rest =>
    components ← canonical_components (pi_components i);
    rest ← canonical_provider_issues rest;
    Ok (mkPendingIssue components (pi_kind i) :: rest)
  end.
Definition validate_provider_issues (issues : list ProviderSourceIssue) : result TransferJobError unit :=
  if forallb (fun i => forallb (fun c => is_ok (validate_source_component c)) (pi_components i)) issues
  then Ok tt else Err JE_InvalidComponent.
End Names.

Definition issue_kind (e : IoErrorKind) : SourceIssueKind :=
  match e with KindPermissionDenied => IssuePermissionDenied | KindNotFound | KindOther => IssueUnavailable end.

(** ** Enumeration *)

(** The path of what is to be visited, its components below the root and its parent. *)
Record PendingEntry := mkPendingEntry {
  pd_path : path;
  pd_components : list str;
  pd_parent_item_id : option SourceItemId;
}.
Record EnumerationOutcome := mkOutcome {
  eo_root_inventory_item_id : option SourceItemId;
  eo_entries : list PreparedInventoryEntry;
  eo_bindings : gmap SourceItemId LocalSourceBinding;
  eo_issues : list PendingIssue;
  eo_occupied_ids : gset SourceItemId;
}.
Definition add_issue (components : list str) (kind : SourceIssueKind) (o : EnumerationOutcome) : EnumerationOutcome :=
  mkOutcome (eo_root_inventory_item_id o) (eo_entries o) (eo_bindings o)
    (eo_issues o ++ [mkPendingIssue components kind]) (eo_occupied_ids o).

Section Jobs.
Context (nfc : str -> str) (is_nfc : str -> bool) (blake3 : list byte -> list byte).
(** The platform's encoding of a path; the order in which a [HashSet] yields its
    elements; the number of salts after which a search for an item id is cut off; the
    JSON of a job; the directory of the store. *)
Context (os_bytes : path -> list byte) (hash_order : list (list str) -> list (list str)) (id_tries : nat).
Context (job_to_vec : CanonicalTransferJob -> option (list byte)) (job_from_slice : list byte -> option CanonicalTransferJob).
Context (store_directory : path).
Context {S : Type} `{SourceDisk S}.
Local Notation M A := (proc (JobWorld S) JobFailure A).
Local Notation validate_component := (validate_source_component is_nfc).

Definition set_job (j : CanonicalTransferJob) (w : JobWorld S) : JobWorld S :=
  mkJobWorld j (jw_disk w) (jw_clock w) (jw_files w) (jw_faults w) (jw_entropy w) (jw_removed w).
Definition get_job : M CanonicalTransferJob := fun w => (w, Ok (jw_job w)).
Definition modify_job (f : CanonicalTransferJob -> CanonicalTransferJob) : M unit := fun w => (set_job (f (jw_job w)) w, Ok tt).
Definition job_pure {A} (r : result TransferJobError A) : M A := pure (map_err JobFails r).
Definition job_fail {A} (e : TransferJobError) : M A := throw (JobFails e).
Definition job_fail_if (b : bool) (e : TransferJobError) : M unit := throw_if b (JobFails e).
(** A call of the file system. *)
Definition on_disk {A} (op : S -> S * A) : M A := fun w =>
  let '(d, a) := op (jw_disk w) in
  (mkJobWorld (jw_job w) d (jw_clock w) (jw_files w) (jw_faults w) (jw_entropy w) (jw_removed w), Ok a).
Definition on_disk_io {A} (op : S -> S * result IoErrorKind A) : M A :=
  r ← on_disk op; job_pure (map_err (fun _ => JE_Io) r).
(** [unix_time_ms()], which is 0 when the clock is off. *)
Definition unix_time_ms : M Z := fun w =>
  (mkJobWorld (jw_job w) (jw_disk w) (tail (jw_clock w)) (jw_files w) (jw_faults w) (jw_entropy w) (jw_removed w),
   Ok (default 0 (head (jw_clock w)))).
(** [getrandom::fill] *)
Definition job_random : M (option (list byte)) := fun w =>
  (mkJobWorld (jw_job w) (jw_disk w) (jw_clock w) (jw_files w) (jw_faults w) (tail (jw_entropy w)) (jw_removed w),
   Ok (default None (head (jw_entropy w)))).

Definition fingerprint (p : path) (md : Metadata) : SourceFingerprint :=
  mkFingerprint (if bool_decide (md_type md = TypeFile) then md_len md else 0) (md_modified_unix_nanos md) (blake3 (os_bytes p)).

(** [stable_inventory_item_id]; the salt starts at 0 and wraps. *)
Definition derived_item_id (job_id : JobIdV2) (root_item_id salt : Z) (components : list str) : SourceItemId :=
  Z.lor (be_value (take 8 (blake3 (job_id ++ push_u64 root_item_id ++ push_u64 salt ++
    concat (map (fun c => push_u32 (as_u32 (zlen c)) ++ c) components))))) DERIVED_ITEM_ID_MASK.
Fixpoint stable_inventory_item_id (tries : nat) (job_id : JobIdV2) (root_item_id salt : Z) (components : list str)
    (occupied : gset SourceItemId) : option (SourceItemId * gset SourceItemId) :=
  match tries with
  | O => None
  | Datatypes.S tries =>
    let id := derived_item_id job_id root_item_id salt components in
    if bool_decide (id ∈ occupied)
    then stable_inventory_item_id tries job_id root_item_id (wrapping_add u64_max salt 1) components occupied
    else Some (id, {[ id ]} ∪ occupied)
  end.

(** The loop over [directory.next_entry()]: the children and the issues. *)
Fixpoint read_children (components : list str) (item_id : SourceItemId) (es : list DirEntry) (o : EnumerationOutcome)
    : list PendingEntry * EnumerationOutcome :=
  match es with
  | [] => ([], o)
  | e :: es =>
    match de_name e with
    | None => read_children components item_id es (add_issue components IssueInvalidName o)
    | Some name =>
      let name := canonical_component nfc name in
      if negb (is_ok (validate_component name))
      then read_children components item_id es (add_issue (components ++ [name]) IssueInvalidName o)
      else
        let '(children, o) := read_children components item_id es o in
        (mkPendingEntry (de_path e) (components ++ [name]) (Some item_id) :: children, o)
    end
  end.
(** The components that occur again, each once. *)
Fixpoint collisions (seen : list (list str)) (collided : list (list str)) (children : list PendingEntry) : list (list str) :=
  match children with
  | [] => collided
  | c :: rest =>
    if bool_decide (pd_components c ∈ seen)
    then collisions seen (if bool_decide (pd_components c ∈ collided) then collided else collided ++ [pd_components c]) rest
    else collisions (pd_components c :: seen) collided rest
  end.
Definition remove_component_collisions (children : list PendingEntry) (o : EnumerationOutcome)
    : list PendingEntry * EnumerationOutcome :=
  let collided := collisions [] [] children in
  if bool_decide (collided = []) then (children, o)
  else (filter (fun c => pd_components c ∉ collided) children,
        foldl (fun o components => add_issue components IssueInvalidName o) o (hash_order collided)).
Definition components_leb (a b : PendingEntry) : bool :=
  match path_cmp (pd_components a) (pd_components b) with Gt => false | _ => true end.

(** One turn of the loop: the children of an entry that was added, or none was. *)
Definition visit_entry (selection : SourceSelection) (job_id : JobIdV2) (p : PendingEntry) (o : EnumerationOutcome)
    : M (EnumerationOutcome * option (list PendingEntry)) :=
  let components := pd_components p in
  let skip kind : M (EnumerationOutcome * option (list PendingEntry)) := mret (add_issue components kind o, None) in
  if (MAX_MANIFEST_V2_PATH_DEPTH <? zlen components) || (MAX_MANIFEST_V2_PATH_BYTES <? logical_path_bytes components)
  then skip IssueDepthLimit
  else
    metadata ← on_disk (symlink_metadata (pd_path p));
    match metadata with
    | Err e => skip (issue_kind e)
    | Ok md =>
      match md_type md with
      | TypeSymlink => skip IssueSymbolicLink
      | TypeOther => skip IssueSpecialFile
      | TypeFile | TypeDirectory =>
        let name := default (sel_requested_name selection) (last components) in
        if negb (is_ok (validate_component name)) then skip IssueInvalidName
        else
          match stable_inventory_item_id id_tries job_id (sel_root_item_id selection) 0 components (eo_occupied_ids o) with
          | None => throw JobTrying
          | Some (item_id, occupied) =>
            canonical ← on_disk (canonicalize_ok (pd_path p));
            let canonical_path := default (pd_path p) canonical in
            let directory := bool_decide (md_type md = TypeDirectory) in
            let entry := mkInventoryEntry item_id (sel_root_item_id selection) (pd_parent_item_id p) components name
              (if directory then Directory else RegularFile) (if directory then 0 else md_len md)
              (md_modified_unix_nanos md) None in
            let binding := mkBinding canonical_path (sel_origin selection) (sel_job_owned_staging selection)
              (fingerprint canonical_path md) in
            let o := mkOutcome (Some (default item_id (eo_root_inventory_item_id o))) (eo_entries o ++ [entry])
              (<[item_id := binding]> (eo_bindings o)) (eo_issues o) occupied in
            if directory then
              listing ← on_disk (read_directory (pd_path p));
              match listing with
              | Err e => mret (add_issue components (issue_kind e) o, Some [])
              | Ok (es, stopped) =>
                let '(children, o) := read_children components item_id es o in
                let o := match stopped with Some e => add_issue components (issue_kind e) o | None => o end in
                let '(children, o) := remove_component_collisions children o in
                mret (o, Some (sort_by components_leb children))
              end
            else mret (o, Some [])
          end
      end
    end.
(** [while let Some(..) = pending.pop()]: the head of the list is the top of the stack;
    [budget] entries can still be added.  The loop ends: a turn adds an entry, of which
    there are [budget], or takes from the stack. *)
Fixpoint enumerate_entries (selection : SourceSelection) (job_id : JobIdV2) (budget : nat)
    : list PendingEntry -> EnumerationOutcome -> M EnumerationOutcome :=
  match budget with
  | O => fun pending o =>
    mret match pending with [] => o | p :: _ => add_issue (pd_components p) IssueEntryLimit o end
  | Datatypes.S budget =>
    fix turns (pending : list PendingEntry) (o : EnumerationOutcome) : M EnumerationOutcome :=
      match pending with
      | [] => mret o
      | p :: rest =>
        '(o, added) ← visit_entry selection job_id p o;
        match added with
        | None => turns rest o
        | Some children => enumerate_entries selection job_id budget (children ++ rest) o
        end
      end
  end.
Definition enumerate_local_selection (selection : SourceSelection) (job_id : JobIdV2) (occupied : gset SourceItemId)
    (entry_budget : Z) : M EnumerationOutcome :=
  enumerate_entries selection job_id (Z.to_nat entry_budget) [mkPendingEntry (sel_path selection) [] None]
    (mkOutcome None [] ∅ [] occupied).

(** ** Helpers of the job *)

Definition selection_position (root_item_id : SourceItemId) (j : CanonicalTransferJob) : option nat :=
  fst <$> list_find (fun s => sel_root_item_id s = root_item_id) (cj_selections j).
Definition selection_index (root_item_id : SourceItemId) : M nat :=
  j ← get_job; job_pure (ok_or (JE_UnknownSelection root_item_id) (selection_position root_item_id j)).
(** [self.selections[index]], for an index that [selection_index] gave. *)
Definition selection_at (index : nat) : M SourceSelection :=
  j ← get_job; job_pure (ok_or (JE_InvalidRecord "index out of range") (cj_selections j !! index)).
Definition modify_selection (index : nat) (f : SourceSelection -> SourceSelection) : M unit :=
  modify_job (fun j => set_selections (alter f index (cj_selections j)) j).

Definition ensure_mutable : M unit :=
  j ← get_job;
  match cj_lifecycle j with
  | JobSealed => job_fail JE_SealedMutation
  | JobCanceled => job_fail JE_Canceled
  | _ => mret tt
  end.
(** The lifecycle that the selections call for. *)
Definition selections_lifecycle (ss : list SourceSelection) : JobLifecycle :=
  if existsb (fun s => bool_decide (sel_state s = SelNeedsDecision)) ss then JobNeedsSourceDecision
  else if negb (bool_decide (ss = [])) && forallb (fun s => bool_decide (sel_state s = SelReady)) ss then JobReadyToSend
  else JobPreparing.
Definition refreshed (j : CanonicalTransferJob) : CanonicalTransferJob :=
  match cj_lifecycle j with
  | JobSealed | JobCanceled => j
  | _ => set_lifecycle (selections_lifecycle (cj_selections j)) j
  end.
Definition refresh_lifecycle : M unit := modify_job refreshed.
Definition touch : M unit :=
  now ← unix_time_ms; modify_job (fun j => set_updated (Z.max now (cj_updated_unix_ms j)) j).
Definition bump_revision : M unit :=
  j ← get_job;
  revision ← job_pure (ok_or (JE_InvalidRecord "selection revision overflow") (checked_add u64_max (cj_selection_revision j) 1));
  _ ← modify_job (set_revision revision);
  touch.
Definition new_issue (root_item_id : SourceItemId) (components : list str) (kind : SourceIssueKind) : M SourceIssue :=
  j ← get_job;
  next ← job_pure (ok_or (JE_InvalidRecord "issue ID overflow") (checked_add u64_max (cj_next_issue_id j) 1));
  _ ← modify_job (fun j => set_next_ids (cj_next_source_item_id j) next j);
  mret (mkIssue (cj_next_issue_id j) root_item_id components kind).
Fixpoint new_issues (root_item_id : SourceItemId) (issues : list PendingIssue) : M (list SourceIssue) :=
  match issues with
  | [] => mret []
  | i :: rest =>
    issue ← new_issue root_item_id (pi_components i) (pi_kind i);
    rest ← new_issues root_item_id rest;
    mret (issue :: rest)
  end.
Definition allocate_source_item_id : M SourceItemId :=
  j ← get_job;
  next ← job_pure (ok_or (JE_InvalidRecord "source item ID overflow") (checked_add u64_max (cj_next_source_item_id j) 1));
  _ ← modify_job (fun j => set_next_ids next (cj_next_issue_id j) j);
  mret (cj_next_source_item_id j).
Definition reindexed (ss : list SourceSelection) : list SourceSelection :=
  imap (fun i s => set_selection_order (as_u32 (Z.of_nat i)) s) ss.
Definition item_ids (es : list PreparedInventoryEntry) : gset SourceItemId := list_to_set (map pie_item_id es).
(** The entries for which [keep] holds, with their bindings ([retain_current_bindings]). *)
Definition retain_inventory (keep : PreparedInventoryEntry -> bool) (j : CanonicalTransferJob) : CanonicalTransferJob :=
  let kept := filter (fun e => keep e = true) (cj_inventory j) in
  set_inventory kept (filter (fun kv => kv.1 ∈ item_ids kept) (cj_source_bindings j)) j.

(** ** Sources *)

(** [CanonicalTransferJob::new], with what the entropy source gave. *)
Definition job_new (policy : CompressionPolicyV2) (entropy : option (list byte)) (now : Z) : result TransferJobError CanonicalTransferJob :=
  job_id ← ok_or JE_Entropy entropy;
  if bool_decide (job_id = replicate (Z.to_nat JOB_ID_BYTES) x00) then Err JE_Entropy
  else Ok (mkJob TRANSFER_JOB_SCHEMA_VERSION job_id now now FIRST_SELECTION_REVISION FIRST_GENERATION JobPreparing policy
             FIRST_SOURCE_ITEM_ID 1 [] [] ∅ [] None).

Definition set_compression_policy (policy : CompressionPolicyV2) : M unit :=
  _ ← ensure_mutable;
  j ← get_job;
  if negb (bool_decide (cj_compression_policy j = policy)) then _ ← modify_job (set_policy policy); bump_revision
  else mret tt.

(** What is at the path: its canonical path, whether it is a directory, or an issue. *)
Definition probe_source (p : path) : M (option path * option bool * option SourceIssueKind) :=
  metadata ← on_disk (symlink_metadata p);
  match metadata with
  | Err e => mret (None, None, Some (issue_kind e))
  | Ok md =>
    match md_type md with
    | TypeSymlink => mret (None, None, Some IssueSymbolicLink)
    | TypeFile | TypeDirectory =>
      canonical ← on_disk (canonicalize_ok p);
      mret (canonical, Some (bool_decide (md_type md = TypeDirectory)), None)
    | TypeOther => mret (None, None, Some IssueSpecialFile)
    end
  end.
(** Whether the selection is the canonical path or a directory above it. *)
Definition covers (canonical : path) (s : SourceSelection) : bool :=
  bool_decide (sel_canonical_path s = Some canonical)
  || bool_decide (sel_is_directory_hint s = Some true)
     && match sel_canonical_path s with Some root => starts_with canonical root | None => false end.
Definition covered_by (canonical : path) (s : SourceSelection) : bool :=
  match sel_canonical_path s with Some existing => starts_with existing canonical | None => false end.

Definition add_local_source (p : path) (requested_name : str) (origin : LocalSourceOrigin) (job_owned_staging : bool)
    : M AddSourceResult :=
  _ ← ensure_mutable;
  let requested_name := canonical_component nfc requested_name in
  _ ← job_pure (validate_component requested_name);
  '(canonical_path, is_directory_hint, initial_issue) ← probe_source p;
  j ← get_job;
  match canonical ← canonical_path; list_find (fun s => covers canonical s = true) (cj_selections j) with
  | Some (_, existing) => mret (mkAdded (sel_root_item_id existing) true [])
  | None =>
    let directory_path := if bool_decide (is_directory_hint = Some true) then canonical_path else None in
    let covers_existing_root :=
      match directory_path with Some root => existsb (covered_by root) (cj_selections j) | None => false end in
    _ ← job_fail_if ((MAX_MANIFEST_V2_ROOTS <=? zlen (cj_selections j)) && negb covers_existing_root) JE_RootLimit;
    root_item_id ← allocate_source_item_id;
    let removed := match directory_path with
                   | Some root => map sel_root_item_id (filter (fun s => covered_by root s = true) (cj_selections j))
                   | None => []
                   end in
    _ ← match directory_path with
        | Some root => modify_job (fun j =>
            retain_inventory (fun e => negb (bool_decide (pie_root_item_id e ∈ removed)))
              (set_selections (filter (fun s => covered_by root s = false) (cj_selections j)) j))
        | None => mret tt
        end;
    issues ← new_issues root_item_id (match initial_issue with Some kind => [mkPendingIssue [] kind] | None => [] end);
    _ ← modify_job (fun j => set_selections (reindexed (cj_selections j ++
          [mkSelection root_item_id 0 requested_name p canonical_path is_directory_hint origin job_owned_staging
             (if bool_decide (issues = []) then SelPending else SelNeedsDecision) None Complete issues])) j);
    _ ← bump_revision;
    _ ← refresh_lifecycle;
    mret (mkAdded root_item_id false removed)
  end.
Definition add_local_path (p : path) : M AddSourceResult :=
  requested_name ← job_pure (source_name nfc is_nfc p);
  add_local_source p requested_name OriginFilesystem false.

(** [enumerate_local_selection] never returns [Err], so that branch is left out. *)
Definition prepare_selection (root_item_id : SourceItemId) : M unit :=
  _ ← ensure_mutable;
  index ← selection_index root_item_id;
  s ← selection_at index;
  _ ← job_fail_if (bool_decide (sel_state s = SelNeedsDecision)) JE_UnresolvedSourceDecision;
  _ ← modify_selection index (set_selection_state SelEnumerating);
  _ ← refresh_lifecycle;
  _ ← modify_job (retain_inventory (fun e => negb (bool_decide (pie_root_item_id e = root_item_id))));
  s ← selection_at index;
  j ← get_job;
  let occupied : gset SourceItemId := item_ids (cj_inventory j) ∪ list_to_set (map sel_root_item_id (cj_selections j)) in
  let remaining_entries := saturating_sub MAX_MANIFEST_V2_ENTRIES (zlen (cj_inventory j)) in
  o ← enumerate_local_selection s (cj_job_id j) occupied remaining_entries;
  issues ← new_issues root_item_id (eo_issues o);
  _ ← modify_job (fun j => set_inventory (cj_inventory j ++ eo_entries o) (eo_bindings o ∪ cj_source_bindings j) j);
  _ ← modify_selection index
        (set_selection_outcome (if bool_decide (issues = []) then SelReady else SelNeedsDecision)
           (eo_root_inventory_item_id o) Complete issues);
  _ ← bump_revision;
  refresh_lifecycle.
Fixpoint prepare_selections (roots : list SourceItemId) : M unit :=
  match roots with
  | [] => mret tt
  | root_item_id :: rest => _ ← prepare_selection root_item_id; prepare_selections rest
  end.
Definition prepare_all : M unit :=
  _ ← ensure_mutable;
  j ← get_job;
  _ ← prepare_selections (map sel_root_item_id (filter (fun s => sel_state s = SelPending) (cj_selections j)));
  refresh_lifecycle.

Definition attach_provider_issues (root_item_id : SourceItemId) (issues : list ProviderSourceIssue) : M unit :=
  if bool_decide (length issues = O) then mret tt
  else
    _ ← job_pure (validate_provider_issues is_nfc issues);
    resolved ← new_issues root_item_id issues;
    index ← selection_index root_item_id;
    _ ← modify_selection index (fun s => set_selection_outcome SelNeedsDecision (sel_root_inventory_item_id s)
          (sel_completeness s) (sel_issues s ++ resolved) s);
    _ ← bump_revision;
    refresh_lifecycle.

(** ** Decisions *)

Definition overlaps (candidate : path) (s : SourceSelection) : bool :=
  match sel_canonical_path s with
  | Some existing => bool_decide (candidate = existing) || starts_with candidate existing || starts_with existing candidate
  | None => false
  end.
Definition needs_no_issue (d : SourceDecision) : bool :=
  match d with RemoveSelection | CancelJob => true | _ => false end.

Definition resolve_source_decision (root_item_id : SourceItemId) (decision : SourceDecision) : M (option path) :=
  _ ← ensure_mutable;
  index ← selection_index root_item_id;
  s ← selection_at index;
  _ ← job_fail_if (negb (bool_decide (sel_state s = SelNeedsDecision)) && negb (needs_no_issue decision)) JE_DecisionNotRequired;
  match decision with
  | Reauthorize local_path =>
    canonical_path ← on_disk (canonicalize_ok local_path);
    j ← get_job;
    _ ← job_fail_if match canonical_path with
                    | Some candidate => existsb (fun s => negb (bool_decide (sel_root_item_id s = root_item_id)) && overlaps candidate s)
                                          (cj_selections j)
                    | None => false
                    end JE_OverlappingSelection;
    hint ← match canonical_path with Some p => on_disk (is_directory p) | None => mret None end;
    _ ← modify_selection index (fun s => mkSelection (sel_root_item_id s) (sel_order s) (sel_requested_name s) local_path
          canonical_path hint (sel_origin s) false SelPending None Complete []);
    _ ← modify_job (retain_inventory (fun e => negb (bool_decide (pie_root_item_id e = root_item_id))));
    _ ← bump_revision;
    _ ← refresh_lifecycle;
    mret None
  | ApprovePartial =>
    _ ← job_fail_if (bool_decide (sel_root_inventory_item_id s = None)
                     || existsb (fun i => bool_decide (issue_components i = [])) (sel_issues s)) JE_EmptyPartialRoot;
    _ ← job_fail_if (existsb (fun i => bool_decide (issue_kind_of i = IssueEntryLimit)) (sel_issues s)) JE_PartialNotAllowed;
    _ ← modify_selection index (fun s => set_selection_outcome SelReady (sel_root_inventory_item_id s)
          (UserApprovedPartial (zlen (sel_issues s)) None) (sel_issues s) s);
    _ ← bump_revision;
    _ ← refresh_lifecycle;
    mret None
  | RemoveSelection =>
    _ ← modify_job (fun j => retain_inventory (fun e => negb (bool_decide (pie_root_item_id e = root_item_id)))
          (set_selections (reindexed (delete index (cj_selections j))) j));
    let owned_artifact := if sel_job_owned_staging s then Some (sel_path s) else None in
    _ ← match owned_artifact with
        | Some p => modify_job (fun j => set_cleanup (cj_cleanup_pending j ++ [p]) j)
        | None => mret tt
        end;
    _ ← bump_revision;
    _ ← refresh_lifecycle;
    mret owned_artifact
  | CancelJob =>
    _ ← modify_job (set_lifecycle JobCanceled);
    _ ← bump_revision;
    mret None
  end.
Definition cancel : M unit :=
  j ← get_job;
  if bool_decide (cj_lifecycle j = JobCanceled) then mret tt
  else _ ← modify_job (set_lifecycle JobCanceled); bump_revision.

Definition add_provider_path (p : path) (requested_name : str) (origin : LocalSourceOrigin) (issues : list ProviderSourceIssue)
    : M AddSourceResult :=
  _ ← job_fail_if (bool_decide (origin = OriginFilesystem)) (JE_InvalidRecord "provider source must retain its platform origin");
  let requested_name := canonical_component nfc requested_name in
  issues ← job_pure (canonical_provider_issues nfc is_nfc issues);
  _ ← job_pure (validate_component requested_name);
  _ ← job_pure (validate_provider_issues is_nfc issues);
  added ← add_local_source p requested_name origin false;
  if folded_into_existing_selection added then mret added
  else
    _ ← prepare_selection (added_root_item_id added);
    _ ← attach_provider_issues (added_root_item_id added) issues;
    mret added.
Definition reauthorize_provider_source (root_item_id : SourceItemId) (local_path : path) (issues : list ProviderSourceIssue)
    : M unit :=
  index ← selection_index root_item_id;
  s ← selection_at index;
  _ ← job_fail_if (bool_decide (sel_origin s = OriginFilesystem)) (JE_InvalidRecord "filesystem sources must use filesystem reauthorization");
  issues ← job_pure (canonical_provider_issues nfc is_nfc issues);
  _ ← job_pure (validate_provider_issues is_nfc issues);
  _ ← resolve_source_decision root_item_id (Reauthorize local_path);
  _ ← prepare_selection root_item_id;
  attach_provider_issues root_item_id issues.
Definition add_staged_source (p : path) (requested_name : str) (origin : LocalSourceOrigin) : M AddSourceResult :=
  _ ← job_fail_if (bool_decide (origin = OriginFilesystem)) (JE_InvalidRecord "staged source must retain its platform origin");
  let requested_name := canonical_component nfc requested_name in
  _ ← job_pure (validate_component requested_name);
  add_local_source p requested_name origin true.

(** ** Contents *)

Definition verify_source_fingerprint (p : path) (expected : SourceFingerprint) : M unit :=
  md ← on_disk_io (symlink_metadata p);
  job_fail_if (bool_decide (md_type md = TypeSymlink) || negb (bool_decide (fingerprint p md = expected))) JE_SourceChanged.
Definition verify_fingerprint (b : LocalSourceBinding) : M unit := verify_source_fingerprint (sb_path b) (sb_fingerprint b).

(** [PreparedFileSource::open] (with what the file yields), [hash], [verify_unchanged] *)
Definition prepared_open (f : PreparedFileSource) : M (list byte) :=
  _ ← verify_source_fingerprint (pf_path f) (pf_fingerprint f); on_disk_io (read_file (pf_path f)).
Definition prepared_hash (f : PreparedFileSource) : M ContentDigestV2 :=
  bytes ← prepared_open f;
  _ ← verify_source_fingerprint (pf_path f) (pf_fingerprint f);
  mret (blake3 bytes).
Definition prepared_verify_unchanged (f : PreparedFileSource) : M unit :=
  verify_source_fingerprint (pf_path f) (pf_fingerprint f).

Definition set_digest (d : ContentDigestV2) (e : PreparedInventoryEntry) : PreparedInventoryEntry :=
  mkInventoryEntry (pie_item_id e) (pie_root_item_id e) (pie_parent_item_id e) (pie_components e) (pie_name e) (pie_kind e)
    (pie_plaintext_size e) (pie_modified_unix_nanos e) (Some d).
Definition hash_entry (item_id : SourceItemId) : M ContentDigestV2 :=
  j ← get_job;
  _ ← job_fail_if (bool_decide (cj_lifecycle j = JobCanceled)) JE_Canceled;
  binding ← job_pure (ok_or (JE_UnknownItem item_id) (cj_source_bindings j !! item_id));
  '(index, entry) ← job_pure (ok_or (JE_UnknownItem item_id) (list_find (fun e => pie_item_id e = item_id) (cj_inventory j)));
  _ ← job_fail_if (negb (bool_decide (pie_kind entry = RegularFile))) JE_NotRegularFile;
  _ ← verify_fingerprint binding;
  bytes ← on_disk_io (read_file (sb_path binding));
  _ ← verify_fingerprint binding;
  let digest := blake3 bytes in
  _ ← modify_job (fun j => set_inventory (alter (set_digest digest) index (cj_inventory j)) (cj_source_bindings j) j);
  _ ← (if negb (bool_decide (cj_lifecycle j = JobSealed)) then bump_revision else touch);
  mret digest.
(** One read of at most [limit] bytes, which may yield fewer. *)
Definition read_compression_sample (item_id : SourceItemId) (limit : Z) (yielded : nat) : M (list byte) :=
  _ ← job_fail_if ((limit =? 0) || (MAX_COMPRESSION_SAMPLE_BYTES <? limit)) JE_SampleLimit;
  j ← get_job;
  binding ← job_pure (ok_or (JE_UnknownItem item_id) (cj_source_bindings j !! item_id));
  _ ← verify_fingerprint binding;
  bytes ← on_disk_io (read_file (sb_path binding));
  mret (take (min yielded (Z.to_nat limit)) bytes).

(** ** Inventory *)

Implicit Types (j : CanonicalTransferJob) (e : PreparedInventoryEntry).

Definition count_item e (summary : InventorySummary) : InventorySummary :=
  match pie_kind e with
  | RegularFile =>
    mkInventorySummary (is_root_count summary) (Z.min u32_max (is_file_count summary + 1)) (is_directory_count summary)
      (Z.min u64_max (is_total_plaintext_bytes summary + pie_plaintext_size e)) (is_warning_count summary)
  | Directory =>
    mkInventorySummary (is_root_count summary) (is_file_count summary) (Z.min u32_max (is_directory_count summary + 1))
      (is_total_plaintext_bytes summary) (is_warning_count summary)
  end.
(** There are fewer than 2^32 warnings, so their sum does not overflow. *)
Definition inventory_summary j : InventorySummary :=
  foldl (fun summary e => count_item e summary)
    (mkInventorySummary (as_u32 (zlen (cj_selections j))) 0 0 0
       (foldr (fun s n => as_u32 (zlen (sel_issues s)) + n) 0 (cj_selections j)))
    (cj_inventory j).
Definition find_selection (root_item_id : SourceItemId) j : option SourceSelection :=
  snd <$> list_find (fun s => sel_root_item_id s = root_item_id) (cj_selections j).
Definition find_entry (item_id : SourceItemId) j : option PreparedInventoryEntry :=
  snd <$> list_find (fun e => pie_item_id e = item_id) (cj_inventory j).
Definition project_inventory_item j e : InventoryItem :=
  mkItem (pie_item_id e) (pie_root_item_id e) (pie_parent_item_id e) (pie_name e) (pie_kind e) (pie_plaintext_size e)
    (negb (bool_decide (pie_digest e = None)))
    match find_selection (pie_root_item_id e) j with Some s => negb (bool_decide (sel_issues s = [])) | None => false end.
Definition inventory_item (item_id : SourceItemId) j : option InventoryItem := project_inventory_item j <$> find_entry item_id j.
Definition get_item (item_id : SourceItemId) j : option InventoryItem := inventory_item item_id j.
Definition list_roots j : list InventoryItem :=
  omap (fun item_id => inventory_item item_id j) (omap sel_root_inventory_item_id (cj_selections j)).
Definition page_inventory j (es : list PreparedInventoryEntry) (cursor : option InventoryCursor) (limit : Z)
    : result TransferJobError InventoryPage :=
  _ ← ensure (negb ((limit =? 0) || (MAX_INVENTORY_PAGE_SIZE <? limit))) JE_InvalidPageLimit;
  offset ← match cursor with
           | Some c =>
             if negb (cursor_revision c =? cj_selection_revision j)
             then Err (JE_StaleInventoryCursor (cj_selection_revision j) (cursor_revision c))
             else Ok (cursor_offset c)
           | None => Ok 0
           end;
  let items := map (project_inventory_item j) (take (Z.to_nat limit) (drop (Z.to_nat offset) es)) in
  let next_offset := Z.min usize_max (offset + zlen items) in
  Ok (mkPage (cj_selection_revision j) items
        (if next_offset <? zlen es then Some (mkCursor (cj_selection_revision j) (as_u32 next_offset)) else None)).
Definition children_of (parent_item_id : SourceItemId) j : list PreparedInventoryEntry :=
  filter (fun e => pie_parent_item_id e = Some parent_item_id) (cj_inventory j).
Definition list_children (parent_item_id : SourceItemId) (cursor : option InventoryCursor) (limit : Z) j
    : result TransferJobError InventoryPage :=
  page_inventory j (children_of parent_item_id j) cursor limit.
Definition local_path_for_item (item_id : SourceItemId) j : option path :=
  match cj_source_bindings j !! item_id with
  | Some b => Some (sb_path b)
  | None => sel_path <$> find_selection item_id j
  end.
Definition content_digest_for_item (item_id : SourceItemId) j : option ContentDigestV2 := e ← find_entry item_id j; pie_digest e.
Definition source_issues (root_item_id : SourceItemId) j : option (list SourceIssue) := sel_issues <$> find_selection root_item_id j.
Definition source_selections j : list SourceSelectionInfo :=
  map (fun s => mkSelectionInfo (sel_root_item_id s) (sel_requested_name s) (sel_state s)
         match sel_completeness s with UserApprovedPartial _ _ => true | _ => false end (sel_issues s)) (cj_selections j).

(** ** Sealing *)

Definition root_entries j (root_item_id : SourceItemId) : list PreparedInventoryEntry :=
  filter (fun e => pie_root_item_id e = root_item_id) (cj_inventory j).
(** The entries in the order of the manifest. *)
Definition sealed_order j : list PreparedInventoryEntry :=
  concat (map (fun s => root_entries j (sel_root_item_id s)) (cj_selections j)).

Definition source_for_sealed_entry (eid : Z) j : result TransferJobError PreparedFileSource :=
  _ ← ensure (bool_decide (cj_lifecycle j = JobSealed)) JE_PreparationIncomplete;
  e ← ok_or (JE_UnknownItem eid) (sealed_order j !! Z.to_nat eid);
  _ ← ensure (bool_decide (pie_kind e = RegularFile)) JE_NotRegularFile;
  b ← ok_or (JE_UnknownItem (pie_item_id e)) (cj_source_bindings j !! pie_item_id e);
  Ok (mkSource (sb_path b) (sb_fingerprint b)).

(** The inner loop: the entries of root [rid] after those of [sealed]. *)
Fixpoint seal_entries (rid : Z) (es : list PreparedInventoryEntry) (sealed : list ManifestEntryV2)
    (item_to_entry : gmap SourceItemId Z) : result TransferJobError (list ManifestEntryV2 * gmap SourceItemId Z) :=
  match es with
  | [] => Ok (sealed, item_to_entry)
  | e :: rest =>
    let eid := as_u32 (zlen sealed) in
    parent ← match pie_parent_item_id e with
             | None => Ok None
             | Some p =>
               eid ← ok_or (JE_InvalidRecord "canonical inventory parent appears after its child") (item_to_entry !! p);
               Ok (Some eid)
             end;
    seal_entries rid rest
      (sealed ++ [mkEntry eid rid parent (pie_name e) (pie_kind e) (pie_plaintext_size e)
                    match pie_digest e with Some d => Known d | None => Deferred end])
      (<[pie_item_id e := eid]> item_to_entry)
  end.
Fixpoint seal_roots j (root_index : nat) (ss : list SourceSelection) (roots : list ManifestRootV2)
    (sealed : list ManifestEntryV2) (item_to_entry : gmap SourceItemId Z)
    : result TransferJobError (list ManifestRootV2 * list ManifestEntryV2) :=
  match ss with
  | [] => Ok (roots, sealed)
  | s :: rest =>
    let rid := as_u32 (Z.of_nat root_index) in
    let root := mkRoot rid (as_u32 (zlen sealed)) (sel_requested_name s) (sel_completeness s) in
    '(sealed, item_to_entry) ← seal_entries rid (root_entries j (sel_root_item_id s)) sealed item_to_entry;
    seal_roots j (Datatypes.S root_index) rest (roots ++ [root]) sealed item_to_entry
  end.
Definition job_manifest_of j : result TransferJobError ManifestV2 :=
  '(roots, sealed) ← seal_roots j 0 (cj_selections j) [] [] ∅;
  let summary := inventory_summary j in
  Ok (mkManifest (cj_job_id j) (cj_generation j) (cj_selection_revision j) (cj_compression_policy j) roots sealed
        (mkTotals (is_file_count summary) (is_directory_count summary) (is_total_plaintext_bytes summary))).
Definition seal_for_send : M ManifestV2 :=
  _ ← ensure_mutable;
  _ ← refresh_lifecycle;
  j ← get_job;
  _ ← match cj_lifecycle j with
      | JobNeedsSourceDecision => job_fail JE_UnresolvedSourceDecision
      | JobReadyToSend => mret tt
      | _ => job_fail JE_PreparationIncomplete
      end;
  m ← job_pure (job_manifest_of j);
  offer ← job_pure (map_err (fun _ => JE_Protocol) (build_manifest_offer_v2 is_nfc blake3 m));
  offer_bytes ← job_pure (map_err (fun _ => JE_Protocol) (encode_manifest_offer_v2 is_nfc blake3 (manifest offer)));
  _ ← modify_job (set_sealed (Some (mkSealed (manifest offer) (structural_digest offer) offer_bytes)));
  _ ← modify_job (set_lifecycle JobSealed);
  _ ← touch;
  mret (manifest offer).
(** [job.manifest()] *)
Definition job_sealed_manifest j : option ManifestV2 := sj_manifest <$> cj_sealed j.

(** ** The durable record *)

Definition valid_selection j (s : SourceSelection) : result TransferJobError unit :=
  _ ← map_err (fun _ => JE_InvalidRecord "selection name is invalid") (validate_component (sel_requested_name s));
  _ ← ensure (forallb (fun i => bool_decide (issue_root_item_id i = sel_root_item_id s)) (sel_issues s))
        (JE_InvalidRecord "source issue belongs to another root");
  let root_entry := item_id ← sel_root_inventory_item_id s; find_entry item_id j in
  ensure match root_entry with
         | Some e => bool_decide (pie_root_item_id e = sel_root_item_id s) && bool_decide (pie_parent_item_id e = None)
                     && bool_decide (pie_components e = [])
         | None => bool_decide (sel_root_inventory_item_id s = None)
         end (JE_InvalidRecord "selection root inventory reference is invalid").
Fixpoint valid_selections j (ss : list SourceSelection) : result TransferJobError unit :=
  match ss with [] => Ok tt | s :: rest => _ ← valid_selection j s; valid_selections j rest end.
Definition valid_entry j (root_ids seen : gset SourceItemId) e : result TransferJobError unit :=
  _ ← ensure (bool_decide (pie_root_item_id e ∈ root_ids) && is_ok (validate_component (pie_name e))
              && (zlen (pie_components e) <=? MAX_MANIFEST_V2_PATH_DEPTH)
              && (logical_path_bytes (pie_components e) <=? MAX_MANIFEST_V2_PATH_BYTES)
              && negb (bool_decide (pie_kind e = Directory) && negb (pie_plaintext_size e =? 0)))
        (JE_InvalidRecord "inventory entry violates canonical bounds");
  _ ← ensure match last (pie_components e) with Some name => bool_decide (name = pie_name e) | None => true end
        (JE_InvalidRecord "inventory component and logical path disagree");
  match pie_parent_item_id e with
  | None => Ok tt
  | Some parent_item_id =>
    parent ← ok_or (JE_InvalidRecord "inventory parent is missing") (find_entry parent_item_id j);
    ensure (bool_decide (parent_item_id ∈ seen) && bool_decide (pie_root_item_id parent = pie_root_item_id e)
            && bool_decide (pie_kind parent = Directory))
      (JE_InvalidRecord "inventory parent ordering or kind is invalid")
  end.
Fixpoint valid_entries j (root_ids seen : gset SourceItemId) (es : list PreparedInventoryEntry) : result TransferJobError unit :=
  match es with
  | [] => Ok tt
  | e :: rest => _ ← valid_entry j root_ids seen e; valid_entries j root_ids ({[ pie_item_id e ]} ∪ seen) rest
  end.
Definition valid_sealed j (sealed : SealedTransferJob) : result TransferJobError unit :=
  let m := sj_manifest sealed in
  _ ← ensure (bool_decide (cj_lifecycle j = JobSealed) || bool_decide (cj_lifecycle j = JobCanceled))
        (JE_InvalidRecord "only a sealed or canceled job may contain sealed bytes");
  _ ← ensure (bool_decide (job_id m = cj_job_id j) && (generation m =? cj_generation j)
              && (selection_revision m =? cj_selection_revision j) && bool_decide (compression_policy m = cj_compression_policy j))
        (JE_InvalidRecord "sealed Manifest identity does not match its job");
  rebuilt ← map_err (fun _ => JE_Protocol) (build_manifest_offer_v2 is_nfc blake3 m);
  encoded ← map_err (fun _ => JE_Protocol) (encode_manifest_offer_v2 is_nfc blake3 (manifest rebuilt));
  ensure (bool_decide (structural_digest rebuilt = sj_structural_digest sealed) && bool_decide (encoded = sj_offer_bytes sealed))
    (JE_InvalidRecord "sealed Manifest bytes or digest changed").
Definition validate_durable j : result TransferJobError unit :=
  _ ← ensure (cj_schema_version j =? TRANSFER_JOB_SCHEMA_VERSION) (JE_UnsupportedSchema (cj_schema_version j));
  _ ← ensure (negb (bool_decide (cj_job_id j = replicate (Z.to_nat JOB_ID_BYTES) x00)) && negb (cj_created_unix_ms j =? 0)
              && (cj_created_unix_ms j <=? cj_updated_unix_ms j) && negb (cj_selection_revision j =? 0)
              && negb (cj_generation j =? 0) && (zlen (cj_selections j) <=? MAX_MANIFEST_V2_ROOTS)
              && (zlen (cj_inventory j) <=? MAX_MANIFEST_V2_ENTRIES))
        (JE_InvalidRecord "identity, revision, generation, or bounds are invalid");
  let unique_items := item_ids (cj_inventory j) in
  _ ← ensure (Z.of_nat (size unique_items) =? zlen (cj_inventory j)) (JE_InvalidRecord "inventory item IDs are not unique");
  let root_ids : gset SourceItemId := list_to_set (map sel_root_item_id (cj_selections j)) in
  _ ← ensure ((Z.of_nat (size root_ids) =? zlen (cj_selections j))
              && forallb id (imap (fun i s => sel_order s =? as_u32 (Z.of_nat i)) (cj_selections j)))
        (JE_InvalidRecord "selection IDs or ordering are invalid");
  _ ← valid_selections j (cj_selections j);
  _ ← valid_entries j root_ids ∅ (cj_inventory j);
  _ ← ensure ((Z.of_nat (size (cj_source_bindings j)) =? zlen (cj_inventory j))
              && bool_decide (dom (cj_source_bindings j) ⊆ unique_items))
        (JE_InvalidRecord "source bindings do not match inventory");
  _ ← ensure (forallb (fun pending => forallb (fun s => negb (bool_decide (sel_path s = pending))) (cj_selections j)) (cj_cleanup_pending j))
        (JE_InvalidRecord "active sources cannot also be pending cleanup");
  _ ← ensure (bool_decide (cj_lifecycle j = JobCanceled)
              || bool_decide (cj_lifecycle j = if bool_decide (cj_sealed j = None) then selections_lifecycle (cj_selections j) else JobSealed))
        (JE_InvalidRecord "job lifecycle does not match durable facts");
  match cj_sealed j with Some sealed => valid_sealed j sealed | None => Ok tt end.

(** ** The store *)

Definition job_path (id : JobIdV2) : str := lit "job-" ++ encode_job_id id ++ lit ".json".
Definition temporary_job_path (id : JobIdV2) : str := lit ".job-" ++ encode_job_id id ++ lit ".tmp".
Definition staging_directory (id : JobIdV2) : path := store_directory ++ [lit ".envoix-staging"; encode_job_id id].

(** The final [rename] replaces the file in one step; [SyncFault] is here a fault of
    [sync_all], after which the temporary file stays. *)
Definition write_job (j : CanonicalTransferJob) : M unit := fun w =>
  let with_files fs := mkJobWorld (jw_job w) (jw_disk w) (jw_clock w) fs (tail (jw_faults w)) (jw_entropy w) (jw_removed w) in
  let final := job_path (cj_job_id j) in
  let tmp := temporary_job_path (cj_job_id j) in
  match default NoFault (head (jw_faults w)), job_to_vec j with
  | DirectoryFault, _ => (with_files (jw_files w), Err (JobFails JE_Io))
  | _, None => (with_files (jw_files w), Err (JobFails JE_Json))
  | WriteFault left_behind, Some _ =>
    (with_files match left_behind with Some bytes => <[tmp := bytes]> (jw_files w) | None => jw_files w end, Err (JobFails JE_Io))
  | SyncFault, Some bytes => (with_files (<[tmp := bytes]> (jw_files w)), Err (JobFails JE_Io))
  | NoFault, Some bytes => (with_files (<[final := bytes]> (delete tmp (jw_files w))), Ok tt)
  end.
Definition job_save : M unit :=
  j ← get_job;
  _ ← job_pure (validate_durable j);
  write_job j.
Definition job_load (fs : files) (id : JobIdV2) : result TransferJobError (option CanonicalTransferJob) :=
  match fs !! job_path id with
  | None => Ok None
  | Some bytes =>
    j ← ok_or JE_Json (job_from_slice bytes);
    _ ← validate_durable j;
    Ok (Some j)
  end.
Definition note_removal (p : path) : M unit := fun w =>
  (mkJobWorld (jw_job w) (jw_disk w) (jw_clock w) (jw_files w) (jw_faults w) (jw_entropy w) (jw_removed w ++ [(p, jw_files w)]), Ok tt).
Definition remove_staged_artifact (id : JobIdV2) (p : path) : M unit :=
  let directory := staging_directory id in
  _ ← job_fail_if (negb (starts_with p directory)) (JE_InvalidRecord "owned staging escaped its job directory");
  _ ← job_fail_if (negb (zlen (drop (length directory) p) =? 1)) (JE_InvalidRecord "owned staging path has an invalid shape");
  _ ← note_removal p;
  r ← on_disk (remove_file p);
  match r with
  | Ok _ | Err KindNotFound => mret tt
  | Err _ => job_fail JE_Io
  end.
(** The artifact is removed, and then no longer pending. *)
Definition release_artifact (p : path) : M unit :=
  j ← get_job;
  _ ← remove_staged_artifact (cj_job_id j) p;
  _ ← modify_job (fun j => set_cleanup (filter (fun q => q <> p) (cj_cleanup_pending j)) j);
  job_save.
Definition apply_source_decision (root_item_id : SourceItemId) (decision : SourceDecision) : M unit :=
  owned_artifact ← resolve_source_decision root_item_id decision;
  _ ← job_save;
  match owned_artifact with Some p => release_artifact p | None => mret tt end.
Fixpoint release_artifacts (ps : list path) : M unit :=
  match ps with [] => mret tt | p :: rest => _ ← release_artifact p; release_artifacts rest end.
Definition reconcile_pending_cleanup : M unit :=
  j ← get_job; release_artifacts (cj_cleanup_pending j).

(** The loop over random names; entropy that is used up fails. *)
Fixpoint stage_copy (tries : nat) (source_path : path) : M path :=
  match tries with
  | O => job_fail JE_Entropy
  | Datatypes.S tries =>
    random ← job_random;
    name ← job_pure (ok_or JE_Entropy random);
    j ← get_job;
    let candidate := staging_directory (cj_job_id j) ++ [encode_job_id name] in
    copied ← on_disk (copy_new_file source_path candidate);
    match copied with
    | Copied => mret candidate
    | NameTaken => stage_copy tries source_path
    | OpenFails => job_fail JE_Io
    | CopyFails => _ ← on_disk (remove_file candidate); job_fail JE_Io
    end
  end.
Definition entropy_left : M nat := fun w => (w, Ok (Datatypes.S (length (jw_entropy w)))).
Definition import_staged_file (source_path : path) (requested_name : str) (origin : LocalSourceOrigin) : M AddSourceResult :=
  _ ← job_fail_if (bool_decide (origin = OriginFilesystem)) (JE_InvalidRecord "staged import must retain its platform origin");
  let requested_name := canonical_component nfc requested_name in
  _ ← job_pure (validate_component requested_name);
  md ← on_disk_io (symlink_metadata source_path);
  _ ← job_fail_if (negb (bool_decide (md_type md = TypeFile))) JE_NotRegularFile;
  j ← get_job;
  _ ← on_disk_io (open_for_staging (staging_directory (cj_job_id j)) source_path);
  tries ← entropy_left;
  staged_path ← stage_copy tries source_path;
  r ← attempt (add_staged_source staged_path requested_name origin);
  match r with
  | Ok added => mret added
  | Err e => _ ← on_disk (remove_file staged_path); throw e
  end.

Definition is_job_file (name : str) : bool :=
  bool_decide (lit "job-" `prefix_of` name) && bool_decide (lit ".json" `suffix_of` name).
Definition created_leb j j' : bool :=
  if cj_created_unix_ms j =? cj_created_unix_ms j' then str_leb (cj_job_id j) (cj_job_id j')
  else cj_created_unix_ms j <? cj_created_unix_ms j'.
(** [load_all] of a directory that can be read; other files and jobs that do not
    parse or are inconsistent are passed over. *)
Definition job_load_all (fs : files) : list CanonicalTransferJob :=
  sort_by created_leb (omap (fun '(name, bytes) =>
    if is_job_file name then
      match job_from_slice bytes with
      | Some j => if is_ok (validate_durable j) then Some j else None
      | None => None
      end
    else None) (map_to_list fs)).
End Jobs.
