(* ===== verification/JobWalk.v ===== *)
(** The enumeration of a source (job.rs, [enumerate_local_selection]): whatever the disk
    answers, the loop adds the entries of a root as a listing, every entry after the
    directory it is in, by increasing paths and under item ids that were free. *)

From stdpp Require Import prelude gmap strings sorting.
From Stdlib Require Import ZArith Lia Strings.Byte.
From S2P Require Import Prelude Bytes ManifestV2 Traversal ManifestSpec ValidateProof OfferCodec Frames Delivery Ledger Proc LocalFs Job.

Local Open Scope Z_scope.

(** ** Lists *)

Lemma filter_keeps {A} (P : A -> Prop) `{!forall x, Decision (P x)} (l : list A) :
  (forall x, x ∈ l -> P x) -> filter P l = l.
Proof.
  induction l as [|x l IH]; intros Hl; [done|]. rewrite filter_cons, decide_True by (apply Hl; left).
  f_equal. apply IH. intros; apply Hl; by right.
Qed.
Lemma filter_drops {A} (P : A -> Prop) `{!forall x, Decision (P x)} (l : list A) :
  (forall x, x ∈ l -> ~ P x) -> filter P l = [].
Proof.
  induction l as [|x l IH]; intros Hl; [done|]. rewrite filter_cons, decide_False by (apply Hl; left).
  apply IH. intros; apply Hl; by right.
Qed.

Lemma filter_same {A} (P Q : A -> Prop) `{!forall x, Decision (P x), !forall x, Decision (Q x)} (l : list A) :
  (forall x, x ∈ l -> P x <-> Q x) -> filter P l = filter Q l.
Proof.
  induction l as [|x l IH]; intros Hl; [done|]. rewrite !filter_cons.
  rewrite IH by (intros; apply Hl; by right). pose proof (Hl x ltac:(left)) as [HP HQ].
  do 2 case_decide; tauto.
Qed.

(** ** Paths *)

(** [q] comes after [p] and is not below it. *)
Definition path_after (p q : list str) : Prop := path_lt p q /\ ~ p `prefix_of` q.

Lemma path_lt_below p q r : path_after p q -> path_lt (p ++ r) q.
Proof.
  unfold path_after, path_lt, path_cmp. intros [Hlt Hpre]. revert q Hlt Hpre.
  induction p as [|a p IH]; intros [|b q]; cbn; try easy.
  - intros _ []. apply prefix_nil.
  - destruct (str_cmp a b) eqn:Hab; [|done|done]. apply str_cmp_eq in Hab as ->.
    intros Hlt Hpre. apply IH; [done|]. intros Hp. by apply Hpre, prefix_cons.
Qed.

Lemma path_after_below p q r : path_after p q -> path_after (p ++ r) q.
Proof.
  intros Hpq. split; [by apply path_lt_below|]. intros Hp. apply Hpq. etransitivity; [|exact Hp]. by apply prefix_app_r.
Qed.

Lemma path_after_siblings p a b : str_cmp a b = Lt -> path_after (p ++ [a]) (p ++ [b]).
Proof.
  intros Hab. split; [by apply path_lt_siblings|]. intros [r Hr]. rewrite <- app_assoc in Hr.
  apply app_inv_head in Hr. cbn in Hr. injection Hr as -> _. by rewrite (proj2 (str_cmp_eq a a) eq_refl) in Hab.
Qed.

Lemma path_cmp_siblings p a b : path_cmp (p ++ [a]) (p ++ [b]) = str_cmp a b.
Proof. unfold path_cmp. rewrite (lex_cmp_app_l _ str_cmp_eq). cbn. by destruct (str_cmp a b). Qed.

(** ** Collisions *)

Lemma collisions_collided seen collided children :
  collided ⊆ collisions seen collided children.
Proof.
  revert seen collided. induction children as [|c children IH]; intros seen collided; cbn; [done|].
  repeat case_bool_decide; [apply IH| |apply IH]. etransitivity; [|apply IH]. set_solver.
Qed.

Lemma collisions_seen seen collided children c :
  c ∈ children -> pd_components c ∈ seen -> pd_components c ∈ collisions seen collided children.
Proof.
  revert seen collided. induction children as [|c' children IH]; intros seen collided Hc Hs; cbn; [set_solver|].
  apply elem_of_cons in Hc as [<-|Hc].
  - rewrite bool_decide_eq_true_2 by done. apply collisions_collided. case_bool_decide; set_solver.
  - case_bool_decide; apply IH; set_solver.
Qed.

Lemma collisions_NoDup seen collided children :
  NoDup (pd_components <$> filter (fun c => pd_components c ∉ collisions seen collided children) children).
Proof.
  revert seen collided. induction children as [|c children IH]; intros seen collided; cbn [collisions].
  - constructor.
  - rewrite filter_cons. case_decide as Hc; case_bool_decide as Hs; try apply IH.
    + by destruct Hc; apply collisions_collided; case_bool_decide; set_solver.
    + cbn. constructor; [|apply IH]. intros (c' & Heq & [Hn Hin]%list_elem_of_filter)%list_elem_of_fmap.
      apply Hn. apply collisions_seen; set_solver.
Qed.

(** ** Outcomes *)

(** [o'] is [o] with more issues. *)
Definition more_issues (o o' : EnumerationOutcome) : Prop :=
  exists issues, o' = mkOutcome (eo_root_inventory_item_id o) (eo_entries o) (eo_bindings o)
                        (eo_issues o ++ issues) (eo_occupied_ids o).

#[export] Instance more_issues_refl : Reflexive more_issues.
Proof. intros []. exists []. by rewrite app_nil_r. Qed.
#[export] Instance more_issues_trans : Transitive more_issues.
Proof. intros o ? ? [i ->] [k ->]. exists (i ++ k). cbn. by rewrite app_assoc. Qed.
Lemma more_issues_add components kind o : more_issues o (add_issue components kind o).
Proof. by eexists. Qed.
#[local] Hint Resolve more_issues_add : core.

Lemma more_issues_fold os o :
  more_issues o (foldl (fun o components => add_issue components IssueInvalidName o) o os).
Proof. revert o. induction os as [|c os IH]; intros o; cbn; [done|]. etransitivity; [|apply IH]. done. Qed.

(** ** Listings *)

Section Listing.
Context (is_nfc : str -> bool).
Implicit Types (e : PreparedInventoryEntry) (es : list PreparedInventoryEntry) (root : SourceItemId).

(** What an entry is, wherever it stands. *)
Record entry_shape root e : Prop := {
  es_root : pie_root_item_id e = root;
  es_name : validate_source_component is_nfc (pie_name e) = Ok tt;
  es_utf8 : utf8_valid (pie_name e) = true;
  es_depth : zlen (pie_components e) <= MAX_MANIFEST_V2_PATH_DEPTH;
  es_bytes : logical_path_bytes (pie_components e) <= MAX_MANIFEST_V2_PATH_BYTES;
  es_directory : pie_kind e = Directory -> pie_plaintext_size e = 0 /\ pie_digest e = None;
  es_size : is_u64 (pie_plaintext_size e) = true;
  es_digest : wf_option wf_digest (pie_digest e) = true;
}.

(** The parent and the path of an entry below the entries [es]. *)
Definition below es (parent : option SourceItemId) (components : list str) : Prop :=
  exists e name, e ∈ es /\ pie_kind e = Directory /\ parent = Some (pie_item_id e) /\
    components = pie_components e ++ [name] /\
    validate_source_component is_nfc name = Ok tt /\ utf8_valid name = true.

(** The entries of one root, which is called [name]: first the entry of the root itself,
    then every entry after the directory it is in, by increasing paths. *)
Inductive listing root (name : str) : list PreparedInventoryEntry -> Prop :=
| listing_nil : listing root name []
| listing_root e : entry_shape root e -> pie_parent_item_id e = None -> pie_components e = [] -> pie_name e = name ->
    listing root name [e]
| listing_snoc es e : listing root name es -> entry_shape root e ->
    below es (pie_parent_item_id e) (pie_components e) -> last (pie_components e) = Some (pie_name e) ->
    Forall (fun e' => path_lt (pie_components e') (pie_components e)) es -> listing root name (es ++ [e]).

Lemma below_mono es es' parent components : es ⊆ es' -> below es parent components -> below es' parent components.
Proof. intros Hes (e & name & He & Hrest). exists e, name. split; [by apply Hes|done]. Qed.

Lemma listing_shape root name es : listing root name es -> Forall (entry_shape root) es.
Proof. induction 1; [done|by constructor|]. rewrite Forall_app. split; [done|by constructor]. Qed.

Lemma listing_sorted root name es :
  listing root name es -> StronglySorted (fun e e' => path_lt (pie_components e) (pie_components e')) es.
Proof.
  induction 1 as [|e|es e Hes IH Hs Hb Hl Hlt]; [constructor|repeat constructor|].
  apply StronglySorted_app_2; [|done|repeat constructor].
  intros x y Hx ->%list_elem_of_singleton. rewrite Forall_forall in Hlt. by apply Hlt.
Qed.

(** An entry in the middle is the first one, or it is below those before it. *)
Lemma listing_middle root name l e k :
  listing root name (l ++ e :: k) ->
  (l = [] /\ pie_parent_item_id e = None /\ pie_components e = [] /\ pie_name e = name) \/
  (l <> [] /\ below l (pie_parent_item_id e) (pie_components e) /\ last (pie_components e) = Some (pie_name e)).
Proof.
  intros Hl. remember (l ++ e :: k) as es eqn:Hes. revert k Hes.
  induction Hl as [|e0 Hs Hp Hc|es e0 Hes IH Hs Hb Hla Hlt]; intros k Heq.
  - by destruct l.
  - destruct l as [|? l]; [|by destruct l]. injection Heq as -> _. by left.
  - destruct k as [|e1 k _] using rev_ind.
    + apply app_inj_tail in Heq as [-> ->]. right. split; [|done]. intros ->. destruct Hb as (? & ? & Hin & _). set_solver.
    + rewrite app_comm_cons, app_assoc in Heq. apply app_inj_tail in Heq as [-> ->]. by eapply IH.
Qed.

Lemma listing_name root name l e k :
  listing root name (l ++ e :: k) -> default name (last (pie_components e)) = pie_name e.
Proof.
  intros [(-> & _ & -> & <-)|(_ & _ & ->)]%listing_middle; done.
Qed.
End Listing.

(** ** The walk of an enumeration *)

(** What the names and the disk promise: normalisation keeps Unicode, a length is a
    [u64], the name of a child is Unicode or missing. *)
Class SourceDiskLaws (S : Type) `{SourceDisk S} (nfc : str -> str) : Prop := {
  nfc_utf8 s : utf8_valid s = true -> utf8_valid (nfc s) = true;
  symlink_metadata_len p d d' md : symlink_metadata p d = (d', Ok md) -> is_u64 (md_len md) = true;
  read_directory_names p d d' es stopped :
    read_directory p d = (d', Ok (es, stopped)) -> Forall (fun e => wf_option utf8_valid (de_name e) = true) es;
}.

Lemma components_leb_total a b : components_leb a b = true \/ components_leb b a = true.
Proof.
  unfold components_leb, path_cmp.
  rewrite (lex_cmp_antisym _ str_cmp_antisym (pd_components a) (pd_components b)).
  destruct (lex_cmp _ _ _); cbn; auto.
Qed.
Lemma components_leb_spec a b :
  components_leb a b = true <-> pd_components a = pd_components b \/ path_lt (pd_components a) (pd_components b).
Proof.
  unfold components_leb, path_lt, path_cmp. pose proof (lex_cmp_eq _ str_cmp_eq (pd_components a) (pd_components b)).
  destruct (lex_cmp _ _ _); naive_solver.
Qed.
Lemma components_leb_trans a b c : components_leb a b = true -> components_leb b c = true -> components_leb a c = true.
Proof.
  rewrite !components_leb_spec. intros [->|Hab]; [done|]. intros [<-|Hbc]; [by right|]. right. by etransitivity.
Qed.

Section Walk.
Context (nfc : str -> str) (is_nfc : str -> bool) (blake3 : list byte -> list byte).
Context (os_bytes : path -> list byte) (hash_order : list (list str) -> list (list str)) (id_tries : nat).
Context {S : Type} `{SourceDisk S}.
Implicit Types (o : EnumerationOutcome) (e : PreparedInventoryEntry) (s : SourceSelection).
Local Notation below := (below is_nfc).

(** A child to visit, in a directory at [components] that is item [item_id]. *)
Definition child_of (components : list str) (item_id : SourceItemId) (c : PendingEntry) : Prop :=
  pd_parent_item_id c = Some item_id /\ exists name, pd_components c = components ++ [name] /\
    validate_source_component is_nfc name = Ok tt /\ utf8_valid name = true.

Lemma read_children_spec (nfc_valid : forall t, utf8_valid t = true -> utf8_valid (nfc t) = true) components item_id es o :
  Forall (fun c => wf_option utf8_valid (de_name c) = true) es ->
  more_issues o (read_children nfc is_nfc components item_id es o).2 /\
  Forall (child_of components item_id) (read_children nfc is_nfc components item_id es o).1.
Proof.
  intros Hes. revert o. induction Hes as [|[[name|] p] es Hname Hes IH]; intros o; cbn; [by split| |].
  - destruct (validate_source_component is_nfc _) as [[]|] eqn:Hv; cbn.
    + destruct (IH o) as [Ho Hc]. destruct (read_children _ _ _ _ _ _) as [children o']. cbn in *.
      split; [done|]. constructor; [|done]. split; [done|]. exists (nfc name). auto.
    + destruct (IH (add_issue (components ++ [canonical_component nfc name]) IssueInvalidName o)) as [Ho Hc].
      split; [by etransitivity; [apply more_issues_add|]|done].
  - destruct (IH (add_issue components IssueInvalidName o)) as [Ho Hc].
    split; [by etransitivity; [apply more_issues_add|]|done].
Qed.

Lemma remove_collisions_spec children o :
  let '(children', o') := remove_component_collisions hash_order children o in
  more_issues o o' /\ children' ⊆ children /\ NoDup (pd_components <$> children').
Proof.
  unfold remove_component_collisions. pose proof (collisions_NoDup [] [] children) as Hnd.
  case_bool_decide as Hc.
  - split; [done|]. split; [done|]. rewrite Hc in Hnd.
    by rewrite filter_keeps in Hnd by set_solver.
  - split; [apply more_issues_fold|]. split; [|done]. intros c [_ Hin]%list_elem_of_filter. done.
Qed.

Lemma children_sorted components item_id children :
  Forall (child_of components item_id) children -> NoDup (pd_components <$> children) ->
  StronglySorted path_after (pd_components <$> sort_by components_leb children).
Proof.
  intros Hc Hnd. assert (Hperm := sort_by_perm components_leb children).
  assert (Hsort := sort_by_sorted components_leb components_leb_total components_leb_trans children).
  rewrite <- Hperm in Hc, Hnd. clear Hperm. induction Hsort as [|c l Hl IH Hle]; [constructor|].
  cbn in Hnd |- *. apply NoDup_cons in Hnd as [Hnin Hnd]. apply Forall_cons in Hc as [Hc Hcs].
  constructor; [by apply IH|]. rewrite Forall_fmap, Forall_forall. rewrite Forall_forall in Hle, Hcs.
  intros c' Hin. pose proof (Hle c' Hin) as Hcmp. apply components_leb_spec in Hcmp as [Heq|Hlt].
  - destruct Hnin. rewrite Heq. by apply list_elem_of_fmap_2.
  - destruct Hc as (_ & a & Ha & _), (Hcs c' Hin) as (_ & b & Hb & _).
    cbn. rewrite Ha, Hb in Hlt |- *. unfold path_lt in Hlt. rewrite path_cmp_siblings in Hlt. by apply path_after_siblings.
Qed.

(** What is still to visit, given the entries so far: the root or something below them. *)
Definition placed (es : list PreparedInventoryEntry) (p : PendingEntry) : Prop :=
  (es = [] /\ pd_parent_item_id p = None /\ pd_components p = []) \/ below es (pd_parent_item_id p) (pd_components p).

(** The loop from the stack [pending], where the item ids [taken] were in use at first. *)
Record walk (s : SourceSelection) (taken : gset SourceItemId) (pending : list PendingEntry) o : Prop := {
  wk_listing : listing is_nfc (sel_root_item_id s) (sel_requested_name s) (eo_entries o);
  wk_ids : NoDup (pie_item_id <$> eo_entries o);
  wk_occupied : eo_occupied_ids o = taken ∪ item_ids (eo_entries o);
  wk_fresh : taken ## item_ids (eo_entries o);
  wk_bindings : dom (eo_bindings o) = item_ids (eo_entries o);
  wk_root : eo_root_inventory_item_id o = pie_item_id <$> head (eo_entries o);
  wk_some : eo_entries o = [] -> eo_issues o = [] -> pending <> [];
  wk_placed : Forall (placed (eo_entries o)) pending;
  wk_sorted : StronglySorted path_after (pd_components <$> pending);
  wk_after e p : e ∈ eo_entries o -> p ∈ pending -> path_lt (pie_components e) (pd_components p);
}.

Lemma walk_more s taken pending o o' :
  walk s taken pending o -> more_issues o o' -> walk s taken pending o'.
Proof.
  intros [] [issues ->]. constructor; cbn; try done. intros ? [? ?]%app_nil. auto.
Qed.

Lemma walk_skip s taken p rest kind o :
  walk s taken (p :: rest) o -> walk s taken rest (add_issue (pd_components p) kind o).
Proof.
  intros [Hl Hi Ho Hf Hb Hr Hs Hp Hso Ha]. inv Hp. inv Hso. constructor; cbn; try done.
  - intros _ [_ ?]%app_nil. done.
  - intros e q He Hq. apply Ha; [done|by right].
Qed.

Lemma walk_stop s taken pending o : walk s taken pending o -> eo_issues o <> [] -> walk s taken [] o.
Proof. intros [] Hi. constructor; try done; [constructor|]. intros e p _ []%not_elem_of_nil. Qed.

Lemma item_ids_snoc es e : item_ids (es ++ [e]) = item_ids es ∪ {[ pie_item_id e ]}.
Proof. unfold item_ids. rewrite map_app, list_to_set_app_L. cbn. set_solver. Qed.
Lemma elem_of_item_ids x es : x ∈ item_ids es <-> x ∈ pie_item_id <$> es.
Proof. unfold item_ids. by rewrite elem_of_list_to_set. Qed.

(** Visiting the head of the stack: its entry goes to the end of the listing and its
    children on top of the stack. *)
Lemma walk_add s taken p rest o e children binding :
  walk s taken (p :: rest) o ->
  pie_item_id e ∉ eo_occupied_ids o -> entry_shape is_nfc (sel_root_item_id s) e ->
  pie_parent_item_id e = pd_parent_item_id p -> pie_components e = pd_components p ->
  pie_name e = default (sel_requested_name s) (last (pd_components p)) ->
  (children = [] \/ pie_kind e = Directory) ->
  Forall (child_of (pd_components p) (pie_item_id e)) children ->
  StronglySorted path_after (pd_components <$> children) ->
  walk s taken (children ++ rest)
    (mkOutcome (Some (default (pie_item_id e) (eo_root_inventory_item_id o))) (eo_entries o ++ [e])
       (<[pie_item_id e := binding]> (eo_bindings o)) (eo_issues o) ({[ pie_item_id e ]} ∪ eo_occupied_ids o)).
Proof.
  intros [Hl Hi Ho Hf Hb Hr Hs Hp Hso Ha] Hfresh Hshape Hpar Hcomp Hname Hkind Hch Hcs.
  apply Forall_cons in Hp as [Hp Hprest]. cbn in Hso. apply StronglySorted_inv in Hso as [Hso Hhd].
  rewrite Forall_fmap, Forall_forall in Hhd. rewrite Ho in Hfresh.
  assert (Hroot : eo_entries o = [] -> rest = []).
  { intros Hnil. destruct rest as [|q rest]; [done|]. exfalso.
    rewrite Hnil in Hp, Hprest. apply Forall_cons in Hprest as [Hq _].
    destruct Hp as [(_ & _ & Hp)|(? & ? & ? & _)]; [|set_solver].
    destruct Hq as [(_ & _ & Hq)|(? & ? & ? & _)]; [|set_solver].
    destruct (Hhd q ltac:(left)) as [Hlt _]. cbn in Hlt. rewrite Hp, Hq in Hlt. by apply path_lt_irrefl in Hlt. }
  constructor; cbn -[item_ids].
  - destruct Hp as [(Hnil & Hp1 & Hp2)|Hp].
    + rewrite Hnil. cbn. apply listing_root; [done|congruence|congruence|]. by rewrite Hname, Hp2.
    + apply listing_snoc; [done|done|by rewrite Hpar, Hcomp| |].
      * rewrite Hcomp, Hname. destruct Hp as (e0 & name & _ & _ & _ & -> & _). by rewrite last_snoc.
      * rewrite Forall_forall. intros e' He'. rewrite Hcomp. apply Ha; [done|left].
  - rewrite fmap_app. apply NoDup_app. split; [done|]. split; [|apply NoDup_singleton].
    intros x Hx ->%list_elem_of_singleton. apply Hfresh. apply elem_of_union_r. by apply elem_of_item_ids.
  - rewrite item_ids_snoc, Ho. set_solver.
  - rewrite item_ids_snoc. set_solver.
  - rewrite item_ids_snoc, dom_insert_L, Hb. set_solver.
  - rewrite Hr. by destruct (eo_entries o).
  - intros [_ ?]%app_nil. done.
  - apply Forall_app. split.
    + destruct Hkind as [->|Hkind]; [done|].
      eapply Forall_impl; [exact Hch|]. intros c (Hc1 & name & Hc2 & Hv & Hu). right.
      exists e, name. rewrite Hc1, Hc2, Hcomp. split; [set_solver|done].
    + rewrite Forall_forall in Hprest |- *. intros q Hin. destruct (Hprest q Hin) as [(Hnil & _)|Hq].
      * rewrite (Hroot Hnil) in Hin. set_solver.
      * right. eapply below_mono; [|exact Hq]. set_solver.
  - rewrite fmap_app. apply StronglySorted_app_2; [|done|done].
    intros x y (c & -> & Hc)%list_elem_of_fmap (q & -> & Hq)%list_elem_of_fmap.
    rewrite Forall_forall in Hch. destruct (Hch c Hc) as (_ & name & -> & _). apply path_after_below. by apply Hhd.
  - intros e' q [He'| ->%list_elem_of_singleton]%elem_of_app [Hq|Hq]%elem_of_app.
    + rewrite Forall_forall in Hch. destruct (Hch q Hq) as (_ & name & -> & _).
      transitivity (pd_components p); [apply Ha; [done|left]|apply path_lt_extend].
    + apply Ha; [done|by right].
    + rewrite Forall_forall in Hch. destruct (Hch q Hq) as (_ & name & -> & _). rewrite Hcomp. apply path_lt_extend.
    + rewrite Hcomp. by apply Hhd.
Qed.

(** ** The loop *)

Context (Hlaws : SourceDiskLaws S nfc).
Local Notation M := (proc (JobWorld S) JobFailure).

Definition with_disk (d : S) (w : JobWorld S) : JobWorld S :=
  mkJobWorld (jw_job w) d (jw_clock w) (jw_files w) (jw_faults w) (jw_entropy w) (jw_removed w).
(** [w'] is [w] but for the disk. *)
Definition only_disk (w w' : JobWorld S) : Prop := exists d, w' = with_disk d w.

#[export] Instance only_disk_refl : Reflexive only_disk.
Proof. intros []. by eexists. Qed.
#[export] Instance only_disk_trans : Transitive only_disk.
Proof. intros w ? ? [d ->] [d' ->]. by exists d'. Qed.

Lemma wp_on_disk {A} (op : S -> S * A) (Q : A -> JobWorld S -> Prop) (X : JobFailure -> JobWorld S -> Prop) w :
  (forall d a, op (jw_disk w) = (d, a) -> Q a (with_disk d w)) -> wp (on_disk op) Q X w.
Proof. unfold wp, on_disk. destruct (op (jw_disk w)) as [d a] eqn:Hop. intros HQ. by apply HQ. Qed.

Lemma stable_id_fresh tries jid root salt components occupied id occupied' :
  stable_inventory_item_id blake3 tries jid root salt components occupied = Some (id, occupied') ->
  id ∉ occupied /\ occupied' = {[ id ]} ∪ occupied.
Proof.
  revert salt. induction tries as [|tries IH]; intros salt; cbn; [done|].
  case_bool_decide; [apply IH|]. by intros [= <- <-].
Qed.

(** After a turn of the loop: the stack, and whether an entry was added. *)
Definition visited s taken rest o (r : EnumerationOutcome * option (list PendingEntry)) : Prop :=
  match r.2 with
  | None => walk s taken rest r.1 /\ eo_entries r.1 = eo_entries o
  | Some children => walk s taken (children ++ rest) r.1 /\ length (eo_entries r.1) = Datatypes.S (length (eo_entries o))
  end.

Lemma visited_skip s taken p rest kind o :
  walk s taken (p :: rest) o -> visited s taken rest o (add_issue (pd_components p) kind o, None).
Proof. intros Hw. split; [by eapply walk_skip|done]. Qed.

Lemma visited_add s taken p rest o e b o' children :
  walk s taken (p :: rest) o ->
  pie_item_id e ∉ eo_occupied_ids o -> entry_shape is_nfc (sel_root_item_id s) e ->
  pie_parent_item_id e = pd_parent_item_id p -> pie_components e = pd_components p ->
  pie_name e = default (sel_requested_name s) (last (pd_components p)) ->
  (children = [] \/ pie_kind e = Directory) -> Forall (child_of (pd_components p) (pie_item_id e)) children ->
  StronglySorted path_after (pd_components <$> children) ->
  more_issues (mkOutcome (Some (default (pie_item_id e) (eo_root_inventory_item_id o))) (eo_entries o ++ [e])
    (<[pie_item_id e := b]> (eo_bindings o)) (eo_issues o) ({[ pie_item_id e ]} ∪ eo_occupied_ids o)) o' ->
  visited s taken rest o (o', Some children).
Proof.
  intros Hw Hid Hs Hp Hc Hn Hk Hch Hso Ho. split; cbn [fst].
  - eapply walk_more; [|exact Ho]. by eapply walk_add.
  - destruct Ho as [issues ->]. cbn. rewrite length_app. cbn. lia.
Qed.

(** The root and the names below it can be the name of an entry. *)
Lemma placed_name s es p :
  utf8_valid (sel_requested_name s) = true -> placed es p ->
  utf8_valid (default (sel_requested_name s) (last (pd_components p))) = true.
Proof.
  intros Hu [(_ & _ & ->)|(e & name & _ & _ & _ & -> & _ & Hn)]; [done|]. by rewrite last_snoc.
Qed.

Lemma visit_entry_spec s jid taken p rest o w :
  utf8_valid (sel_requested_name s) = true -> walk s taken (p :: rest) o ->
  wp (visit_entry nfc is_nfc blake3 os_bytes hash_order id_tries s jid p o)
    (fun r w' => only_disk w w' /\ visited s taken rest o r) (fun err _ => err = JobTrying) w.
Proof.
  intros Hu Hw. unfold visit_entry.
  assert (Hskip : forall kind w', only_disk w w' -> only_disk w w' /\
    visited s taken rest o (add_issue (pd_components p) kind o, None)) by eauto using visited_skip.
  destruct (_ || _) eqn:Hbounds; [apply wp_ret, Hskip; done|]. bool_prop.
  apply wp_bind, wp_on_disk. intros d [md|err] Hmd; [|apply wp_ret, Hskip; by eexists].
  destruct (md_type md) eqn:Htype; try (apply wp_ret, Hskip; by eexists).
  all: destruct (validate_source_component is_nfc _) as [[]|] eqn:Hname; cbn [is_ok negb];
    [|apply wp_ret, Hskip; by eexists].
  all: destruct (stable_inventory_item_id _ _ _ _ _ _ _) as [[id occ]|] eqn:Hid; [|by apply wp_throw].
  all: apply stable_id_fresh in Hid as [Hfresh ->].
  all: apply wp_bind, wp_on_disk; intros d' canonical Hcan.
  all: assert (Hplaced := Forall_inv (wk_placed _ _ _ _ Hw)); apply (placed_name s) in Hplaced; [|done].
  all: apply (symlink_metadata_len (S := S) (nfc := nfc)) in Hmd.
  all: cbn zeta; rewrite ?bool_decide_eq_true_2, ?bool_decide_eq_false_2 by done.
  all: match goal with |- context [mkOutcome ?r (?l ++ [?x]) ?bs ?i ?c] =>
    set (e := x); set (o1 := mkOutcome r (l ++ [e]) bs i c) end.
  all: assert (Hshape : entry_shape is_nfc (sel_root_item_id s) e) by by constructor.
  all: pose proof (fun b o' children => visited_add s taken p rest o e b o' children Hw Hfresh Hshape eq_refl eq_refl eq_refl) as Hadd.
  - apply wp_ret. split; [by eexists|]. eapply (Hadd _ _ []); [by left|constructor|constructor|]. by unfold o1.
  - apply wp_bind, wp_on_disk. intros d'' [[es stopped]|err] Hdir.
    + apply (read_directory_names (S := S) (nfc := nfc)) in Hdir.
      pose proof (read_children_spec (nfc_utf8 (S := S)) (pd_components p) id es o1 Hdir) as [Ho1 Hch].
      destruct (read_children nfc is_nfc _ _ _ _) as [children o2]. cbn [fst snd] in Ho1, Hch.
      set (o3 := match stopped with Some e => add_issue _ _ o2 | None => o2 end).
      assert (Ho2 : more_issues o2 o3) by (unfold o3; destruct stopped; [apply more_issues_add|done]).
      pose proof (remove_collisions_spec children o3) as Hrem.
      destruct (remove_component_collisions hash_order children o3) as [children' o4]. destruct Hrem as (Ho3 & Hsub & Hnd).
      assert (Hch' : Forall (child_of (pd_components p) id) children').
      { rewrite Forall_forall in Hch |- *. auto. }
      apply wp_ret. split; [by eexists|]. eapply (Hadd _ o4); [by right|by rewrite sort_by_perm|by eapply children_sorted|].
      by etransitivity; [|etransitivity].
    + apply wp_ret. split; [by eexists|]. eapply (Hadd _ _ []); [by left|constructor|constructor|apply more_issues_add].
Qed.

Lemma enumerate_entries_spec s jid taken budget pending o w :
  utf8_valid (sel_requested_name s) = true -> walk s taken pending o ->
  wp (enumerate_entries nfc is_nfc blake3 os_bytes hash_order id_tries s jid budget pending o)
    (fun o' w' => only_disk w w' /\ walk s taken [] o' /\ (length (eo_entries o') <= length (eo_entries o) + budget)%nat)
    (fun err _ => err = JobTrying) w.
Proof.
  intros Hu. revert pending o w. induction budget as [|budget IH]; intros pending o w Hw.
  - apply wp_ret. split; [done|]. destruct pending as [|p rest]; [split; [done|lia]|].
    split; [|cbn; lia]. apply (walk_stop s taken rest); [by eapply walk_skip|]. cbn. by intros [_ ?]%app_nil.
  - revert o w Hw. induction pending as [|p rest IHp]; intros o w Hw.
    + apply wp_ret. split; [done|]. split; [done|lia].
    + cbn [enumerate_entries]. apply wp_bind. eapply wp_mono; [by eapply visit_entry_spec| |done].
      intros [o1 added] w1 [Hd Hv]. destruct added as [children|]; destruct Hv as [Hw1 Hn]; cbn [fst snd] in *.
      * eapply wp_mono; [by eapply IH| |done]. intros o' w' (Hd' & Hw' & Hl). split; [by etransitivity|]. split; [done|lia].
      * eapply wp_mono; [by eapply IHp| |done]. intros o' w' (Hd' & Hw' & Hl). split; [by etransitivity|]. rewrite Hn in Hl. done.
Qed.
End Walk.
