(* ===== verification/JobInv.v ===== *)
(** The invariant of a transfer job (job.rs): every operation of [CanonicalTransferJob]
    keeps a job that [validate_durable] accepts, also when it fails. *)

From stdpp Require Import prelude gmap strings sorting.
From Stdlib Require Import ZArith Lia Strings.Byte.
From S2P Require Import Prelude Bytes ManifestV2 Traversal ManifestSpec ValidateProof OfferCodec Frames Delivery Ledger Proc LocalFs Job JobWalk.

Local Open Scope Z_scope.

(** ** Lists *)

Lemma alter_middle {A} (f : A -> A) (l k : list A) x : alter f (length l) (l ++ x :: k) = l ++ f x :: k.
Proof. induction l as [|y l IH]; cbn; [done|]. by f_equal. Qed.

Lemma delete_middle_length {A} (l k : list A) x : delete (length l) (l ++ x :: k) = l ++ k.
Proof. induction l as [|y l IH]; cbn; [done|]. by f_equal. Qed.

Lemma size_item_ids es : NoDup (pie_item_id <$> es) -> size (item_ids es) = length es.
Proof. intros Hnd. apply size_list_to_set_NoDup in Hnd. rewrite length_fmap in Hnd. by rewrite <- Hnd. Qed.

(** ** The contents of a job *)

Definition of_root (inv : list PreparedInventoryEntry) (root : SourceItemId) : list PreparedInventoryEntry :=
  filter (fun e => pie_root_item_id e = root) inv.

Lemma of_root_app inv inv' root : of_root (inv ++ inv') root = of_root inv root ++ of_root inv' root.
Proof. apply filter_app. Qed.

Section Contents.
Context (is_nfc : str -> bool).
Implicit Types (s : SourceSelection) (ss : list SourceSelection) (inv es : list PreparedInventoryEntry).
Implicit Types (bs : gmap SourceItemId LocalSourceBinding) (cl : list path) (nx : Z).

(** A selection with the entries [es] of its root, when [nx] is the next issue id. *)
Record selection_inv nx es s : Prop := {
  si_name : validate_source_component is_nfc (sel_requested_name s) = Ok tt;
  si_utf8 : utf8_valid (sel_requested_name s) = true;
  si_issues : Forall (fun i => issue_root_item_id i = sel_root_item_id s) (sel_issues s);
  si_count : zlen (sel_issues s) < nx;
  si_listing : listing is_nfc (sel_root_item_id s) (sel_requested_name s) es;
  si_root : sel_root_inventory_item_id s = pie_item_id <$> head es;
  si_ready : sel_state s = SelReady -> es <> [];
  si_decision : sel_state s = SelNeedsDecision -> sel_issues s <> [];
  si_completeness : sel_completeness s = Complete \/
    exists n, sel_completeness s = UserApprovedPartial n None /\ 1 <= n <= u64_max;
}.

(** Selections, inventory, bindings and pending cleanup, when [ni] and [nx] are the next ids. *)
Record contents (ni nx : Z) ss inv bs cl : Prop := {
  ct_entries : zlen inv <= MAX_MANIFEST_V2_ENTRIES;
  ct_items : NoDup (pie_item_id <$> inv);
  ct_root_ids : NoDup (sel_root_item_id <$> ss);
  ct_fresh : Forall (fun s => sel_root_item_id s < ni) ss;
  ct_selection : Forall (fun s => selection_inv nx (of_root inv (sel_root_item_id s)) s) ss;
  ct_rooted : Forall (fun e => pie_root_item_id e ∈ sel_root_item_id <$> ss) inv;
  ct_bindings : dom bs = item_ids inv;
  ct_cleanup : Forall (fun s => sel_path s ∉ cl) ss;
}.

Lemma selection_inv_mono nx nx' es s : nx <= nx' -> selection_inv nx es s -> selection_inv nx' es s.
Proof. intros Hle []. constructor; try done. lia. Qed.

Lemma contents_mono ni ni' nx nx' ss inv bs cl :
  ni <= ni' -> nx <= nx' -> contents ni nx ss inv bs cl -> contents ni' nx' ss inv bs cl.
Proof.
  intros Hi Hx [He Hit Hr Hf Hs Hro Hb Hc]. constructor; try done.
  - eapply Forall_impl; [exact Hf|]. intros s ?. cbn in *. lia.
  - eapply Forall_impl; [exact Hs|]. intros s. by apply selection_inv_mono.
Qed.

(** *** Reindexing *)

Lemma reindexed_lookup ss i :
  reindexed ss !! i = set_selection_order (as_u32 (Z.of_nat i)) <$> ss !! i.
Proof. unfold reindexed. rewrite list_lookup_imap. by destruct (ss !! i). Qed.

Lemma reindexed_idemp ss : reindexed (reindexed ss) = reindexed ss.
Proof. apply list_eq. intros i. rewrite !reindexed_lookup. by destruct (ss !! i). Qed.

Lemma reindexed_orders ss ss' : sel_order <$> ss' = sel_order <$> ss -> reindexed ss = ss -> reindexed ss' = ss'.
Proof.
  intros Heq Hss. apply list_eq. intros i. rewrite reindexed_lookup.
  pose proof (f_equal (lookup i) Heq) as Hi. rewrite !list_lookup_fmap in Hi.
  destruct (ss' !! i) as [s'|] eqn:Hs'; [|done]. destruct (ss !! i) as [s|] eqn:Hs; [|done]. injection Hi as Hi.
  pose proof (reindexed_lookup ss i) as Ho. rewrite Hss, Hs in Ho. injection Ho as Ho.
  rewrite Ho in Hi. cbn in *. rewrite <- Hi. by destruct s'.
Qed.

Lemma length_reindexed ss : length (reindexed ss) = length ss.
Proof. apply length_imap. Qed.

Lemma reindexed_fmap {A} (f : SourceSelection -> A) ss :
  (forall n s, f (set_selection_order n s) = f s) -> f <$> reindexed ss = f <$> ss.
Proof.
  intros Hf. apply list_eq. intros i. rewrite !list_lookup_fmap, reindexed_lookup. destruct (ss !! i); cbn; [|done].
  by rewrite Hf.
Qed.

Lemma reindexed_Forall (P : SourceSelection -> Prop) ss :
  (forall n s, P s -> P (set_selection_order n s)) -> Forall P ss -> Forall P (reindexed ss).
Proof.
  intros HP Hss. rewrite Forall_lookup in Hss |- *. intros i s. rewrite reindexed_lookup.
  destruct (ss !! i) as [s0|] eqn:Hs; [|done]. intros [= <-]. eauto.
Qed.

Lemma contents_reindexed ni nx ss inv bs cl : contents ni nx ss inv bs cl -> contents ni nx (reindexed ss) inv bs cl.
Proof.
  intros []. constructor; try done; [by rewrite reindexed_fmap| | |by rewrite reindexed_fmap|];
    apply reindexed_Forall; try done. intros n s []. by constructor.
Qed.

(** *** Retaining the entries of some roots *)

Context (P : SourceItemId -> bool).
Definition kept inv : list PreparedInventoryEntry := filter (fun e => P (pie_root_item_id e) = true) inv.
Definition kept_bindings inv bs : gmap SourceItemId LocalSourceBinding := filter (fun kv => kv.1 ∈ item_ids (kept inv)) bs.

Lemma of_root_kept inv root : of_root (kept inv) root = if P root then of_root inv root else [].
Proof.
  unfold of_root, kept. destruct (P root) eqn:HP.
  - apply list_filter_filter_l. intros e <-. done.
  - apply filter_drops. intros e [He _]%list_elem_of_filter Heq. congruence.
Qed.

Lemma dom_kept_bindings inv bs : dom bs = item_ids inv -> dom (kept_bindings inv bs) = item_ids (kept inv).
Proof.
  intros Hd. apply set_eq. intros x. unfold kept_bindings. rewrite elem_of_dom. split.
  - intros [b [_ Hx]%map_lookup_filter_Some]. done.
  - intros Hx. assert (x ∈ item_ids inv) as Hin.
    { rewrite elem_of_item_ids in Hx |- *. apply list_elem_of_fmap in Hx as (e & -> & [_ He]%list_elem_of_filter).
      by apply list_elem_of_fmap_2. }
    rewrite <- Hd, elem_of_dom in Hin. destruct Hin as [b Hb]. exists b. by apply map_lookup_filter_Some.
Qed.

Lemma kept_NoDup inv : NoDup (pie_item_id <$> inv) -> NoDup (pie_item_id <$> kept inv).
Proof. intros Hnd. eapply sublist_NoDup; [exact Hnd|]. apply fmap_sublist, sublist_filter. Qed.

Lemma zlen_kept inv : zlen (kept inv) <= zlen inv.
Proof. unfold zlen, kept. pose proof (length_filter (fun e => P (pie_root_item_id e) = true) inv). lia. Qed.

(** Dropping the other selections with their entries. *)
Lemma contents_drop ni nx ss inv bs cl ss' :
  contents ni nx ss inv bs cl -> ss' = filter (fun s => P (sel_root_item_id s) = true) ss ->
  contents ni nx ss' (kept inv) (kept_bindings inv bs) cl.
Proof.
  intros [He Hi Hr Hf Hs Hro Hb Hc] ->.
  assert (Hsub : filter (fun s => P (sel_root_item_id s) = true) ss ⊆ ss) by (intros s [_ Hin]%list_elem_of_filter; done).
  constructor.
  - pose proof (zlen_kept inv). lia.
  - by apply kept_NoDup.
  - eapply sublist_NoDup; [exact Hr|]. apply fmap_sublist, sublist_filter.
  - rewrite Forall_forall in Hf |- *. auto.
  - rewrite Forall_forall in Hs |- *. intros s [Hp Hin]%list_elem_of_filter. rewrite of_root_kept, Hp. auto.
  - rewrite Forall_forall in Hro |- *. intros e [Hp Hin]%list_elem_of_filter.
    destruct (proj1 (list_elem_of_fmap _ _ _) (Hro e Hin)) as (s & Heq & Hs').
    rewrite Heq. apply list_elem_of_fmap_2. apply list_elem_of_filter. by rewrite <- Heq.
  - by apply dom_kept_bindings.
  - rewrite Forall_forall in Hc |- *. auto.
Qed.
End Contents.

Section Changes.
Context (is_nfc : str -> bool).
Implicit Types (s : SourceSelection) (ss : list SourceSelection) (inv es : list PreparedInventoryEntry).
Implicit Types (bs : gmap SourceItemId LocalSourceBinding) (cl : list path) (nx : Z).
Local Notation contents := (contents is_nfc).
Local Notation selection_inv := (selection_inv is_nfc).

(** A new selection, which has no entries. *)
Lemma contents_add ni nx ss inv bs cl s :
  contents ni nx ss inv bs cl -> sel_root_item_id s = ni -> sel_path s ∉ cl -> selection_inv nx [] s ->
  contents (ni + 1) nx (ss ++ [s]) inv bs cl.
Proof.
  intros [He Hi Hr Hf Hs Hro Hb Hc] Hroot Hpath Hsel. rewrite Forall_forall in Hf. rewrite Forall_forall in Hro.
  assert (Hno : of_root inv ni = []).
  { apply filter_drops. intros e Hin Heq. apply Hro in Hin. rewrite Heq in Hin.
    apply list_elem_of_fmap in Hin as (s0 & Hs0 & Hin). apply Hf in Hin. lia. }
  constructor; try done.
  - rewrite fmap_app. apply NoDup_app. split; [done|]. split; [|apply NoDup_singleton].
    intros x (s0 & -> & Hin)%list_elem_of_fmap Heq%list_elem_of_singleton. apply Hf in Hin. lia.
  - apply Forall_app. split; [|repeat constructor; lia]. apply Forall_forall. intros s0 Hin%Hf. lia.
  - apply Forall_app. split; [done|]. apply Forall_singleton. by rewrite Hroot, Hno.
  - apply Forall_forall. intros e Hin. rewrite fmap_app. apply elem_of_app. left. auto.
  - apply Forall_app. split; [done|]. by repeat constructor.
Qed.

(** Another selection of the same root, path and entries. *)
Lemma contents_change ni nx l s k inv bs cl s' :
  contents ni nx (l ++ s :: k) inv bs cl ->
  sel_root_item_id s' = sel_root_item_id s -> sel_path s' ∉ cl -> selection_inv nx (of_root inv (sel_root_item_id s)) s' ->
  contents ni nx (l ++ s' :: k) inv bs cl.
Proof.
  intros [He Hi Hr Hf Hs Hro Hb Hc] Hroot Hpath Hsel.
  assert (Hids : sel_root_item_id <$> (l ++ s' :: k) = sel_root_item_id <$> (l ++ s :: k))
    by (rewrite !fmap_app; cbn; by rewrite Hroot).
  constructor; rewrite ?Hids; try done; rewrite ?Forall_app, ?Forall_cons in *;
    rewrite ?Hroot; naive_solver.
Qed.

Lemma NoDup_middle_ne {A B} (f : A -> B) l x k y :
  NoDup (f <$> l ++ x :: k) -> y ∈ l ++ k -> f y <> f x.
Proof.
  rewrite fmap_app. cbn. intros (_ & Hl & Hk)%NoDup_app Hy Heq. apply NoDup_cons in Hk as [Hk _].
  apply elem_of_app in Hy as [Hy|Hy].
  - apply (Hl (f y)); [by apply list_elem_of_fmap_2|]. rewrite Heq. left.
  - apply Hk. rewrite <- Heq. by apply list_elem_of_fmap_2.
Qed.

(** Another selection of the same root, with new entries. *)
Definition other_root (root r : SourceItemId) : bool := negb (bool_decide (r = root)).

Lemma contents_replace ni nx l s k inv bs cl s' es bs' :
  contents ni nx (l ++ s :: k) inv bs cl ->
  sel_root_item_id s' = sel_root_item_id s -> sel_path s' ∉ cl -> selection_inv nx es s' ->
  NoDup (pie_item_id <$> es) -> item_ids (kept (other_root (sel_root_item_id s)) inv) ## item_ids es ->
  dom bs' = item_ids es -> zlen (kept (other_root (sel_root_item_id s)) inv) + zlen es <= MAX_MANIFEST_V2_ENTRIES ->
  contents ni nx (l ++ s' :: k) (kept (other_root (sel_root_item_id s)) inv ++ es)
    (bs' ∪ kept_bindings (other_root (sel_root_item_id s)) inv bs) cl.
Proof.
  intros [He Hi Hr Hf Hs Hro Hb Hc] Hroot Hpath Hsel Hnd Hdis Hbs Hlen.
  assert (Hids : sel_root_item_id <$> (l ++ s' :: k) = sel_root_item_id <$> (l ++ s :: k))
    by (rewrite !fmap_app; cbn; by rewrite Hroot).
  pose proof (listing_shape _ _ _ _ (si_listing _ _ _ _ Hsel)) as Hshape. rewrite Hroot in Hshape.
  assert (Hother : forall s0, s0 ∈ l ++ k ->
    of_root (kept (other_root (sel_root_item_id s)) inv ++ es) (sel_root_item_id s0) = of_root inv (sel_root_item_id s0)).
  { intros s0 Hs0. pose proof (NoDup_middle_ne _ _ _ _ _ Hr Hs0) as Hne.
    rewrite of_root_app, of_root_kept. unfold other_root. rewrite bool_decide_eq_false_2 by done. cbn.
    assert (of_root es (sel_root_item_id s0) = []) as ->; [|by rewrite app_nil_r]. apply filter_drops. rewrite Forall_forall in Hshape.
    intros e He' Heq. apply Hne. rewrite <- Heq. by apply Hshape in He' as []. }
  assert (Hself : of_root (kept (other_root (sel_root_item_id s)) inv ++ es) (sel_root_item_id s) = es).
  { rewrite of_root_app, of_root_kept. unfold other_root. rewrite bool_decide_eq_true_2 by done. cbn.
    apply filter_keeps. rewrite Forall_forall in Hshape. intros e He'. by apply Hshape in He' as []. }
  constructor; rewrite ?Hids; try done.
  - by rewrite zlen_app.
  - rewrite fmap_app. apply NoDup_app. split; [by apply kept_NoDup|]. split; [|done].
    intros x Hx Hx'. apply (Hdis x); by apply elem_of_item_ids.
  - rewrite Forall_app, Forall_cons in Hf |- *. by rewrite Hroot.
  - rewrite Forall_forall in Hs |- *. intros s0 Hs0. apply elem_of_app in Hs0 as [Hs0|[->|Hs0]%elem_of_cons].
    + rewrite Hother by set_solver. apply Hs. set_solver.
    + by rewrite Hroot, Hself.
    + rewrite Hother by set_solver. apply Hs. set_solver.
  - apply Forall_app. rewrite !Forall_forall in *. split.
    + intros e [_ Hin]%list_elem_of_filter. auto.
    + intros e Hin. destruct (Hshape e Hin) as [-> _]. apply list_elem_of_fmap_2. set_solver.
  - rewrite dom_union_L, (dom_kept_bindings (other_root (sel_root_item_id s))) by done. rewrite Hbs.
    unfold item_ids. rewrite map_app, list_to_set_app_L. set_solver.
  - rewrite Forall_app, Forall_cons in Hc |- *. naive_solver.
Qed.

(** *** Digests *)

(** [e'] is [e], perhaps with the digest of the file. *)
Definition hashed (e e' : PreparedInventoryEntry) : Prop :=
  e' = e \/ pie_kind e = RegularFile /\ exists d, wf_digest d = true /\ e' = set_digest d e.

Lemma listing_hashed root name es es' : Forall2 hashed es es' -> listing is_nfc root name es -> listing is_nfc root name es'.
Proof.
  intros He Hl. revert es' He.
  assert (Hshape : forall e e', hashed e e' -> entry_shape is_nfc root e -> entry_shape is_nfc root e' /\
    pie_parent_item_id e' = pie_parent_item_id e /\ pie_components e' = pie_components e /\ pie_name e' = pie_name e).
  { intros e e' [->|(Hk & d & Hd & ->)]; [done|]. intros []. split; [|done]. constructor; try done. cbn. by rewrite Hk. }
  induction Hl as [|e Hs Hp Hc Hn|es e Hl IH Hs Hb Hla Hlt]; intros es' He.
  - apply Forall2_nil_inv_l in He as ->. constructor.
  - apply Forall2_cons_inv_l in He as (e' & es0 & He & ->%Forall2_nil_inv_l & ->).
    destruct (Hshape _ _ He Hs) as (Hs' & Hp' & Hc' & Hn'). apply listing_root; congruence.
  - apply Forall2_app_inv_l in He as (es0 & k & He & Hk & ->).
    apply Forall2_cons_inv_l in Hk as (e' & k0 & Hk & ->%Forall2_nil_inv_l & ->).
    destruct (Hshape _ _ Hk Hs) as (Hs' & Hp' & Hc' & Hn'). apply listing_snoc; [by apply IH|done|..]; rewrite ?Hp', ?Hc'.
    + destruct Hb as (e0 & n & Hin & Hk0 & Hrest). exists e0, n. split; [|done].
      apply list_elem_of_lookup in Hin as [i Hi]. destruct (Forall2_lookup_l _ _ _ _ _ He Hi) as (e1 & Hi' & [->|(Hk1 & _)]);
        [by eapply list_elem_of_lookup_2|congruence].
    + by rewrite Hn'.
    + rewrite Forall_forall in Hlt |- *. intros e1 Hin. apply list_elem_of_lookup in Hin as [i Hi].
      destruct (Forall2_lookup_r _ _ _ _ _ He Hi) as (e2 & Hi' & [->|(_ & d & _ & ->)]); apply (Hlt e2);
        by eapply list_elem_of_lookup_2.
Qed.

Lemma hashed_of_root inv inv' root : Forall2 hashed inv inv' -> Forall2 hashed (of_root inv root) (of_root inv' root).
Proof.
  induction 1 as [|e e' inv inv' He Hinv IH]; [constructor|]. unfold of_root in *. rewrite !filter_cons.
  assert (pie_root_item_id e' = pie_root_item_id e) as -> by by destruct He as [->|(_ & d & _ & ->)].
  case_decide; [by constructor|done].
Qed.

Lemma hashed_fmap {A} (f : PreparedInventoryEntry -> A) es es' :
  (forall d e, f (set_digest d e) = f e) -> Forall2 hashed es es' -> f <$> es' = f <$> es.
Proof. intros Hf. induction 1 as [|e e' es es' [->|(_ & d & _ & ->)] Hes IH]; cbn; by rewrite ?Hf, ?IH. Qed.

Lemma hashed_refl es : Forall2 hashed es es.
Proof. apply Forall2_same_length_lookup_2; [done|]. intros i e e' He He'. left. congruence. Qed.

Lemma contents_hashed ni nx ss inv bs cl inv' :
  contents ni nx ss inv bs cl -> Forall2 hashed inv inv' -> contents ni nx ss inv' bs cl.
Proof.
  intros [He Hi Hr Hf Hs Hro Hb Hc] Hh.
  assert (Hids : pie_item_id <$> inv' = pie_item_id <$> inv) by by apply hashed_fmap.
  assert (Hroots : pie_root_item_id <$> inv' = pie_root_item_id <$> inv) by by apply hashed_fmap.
  constructor; try done.
  - unfold zlen in *. by rewrite <- (Forall2_length _ _ _ Hh).
  - by rewrite Hids.
  - eapply Forall_impl; [exact Hs|]. intros s [].
    pose proof (hashed_of_root _ _ (sel_root_item_id s) Hh) as Hh'. constructor; try done.
    + by eapply listing_hashed.
    + pose proof (hashed_fmap pie_item_id _ _ (fun _ _ => eq_refl) Hh') as Heq.
      destruct (of_root inv _), (of_root inv' _); try done. injection Heq as Heq _. cbn in *. congruence.
    + intros Hr' Hnil. rewrite Hnil in Hh'. apply Forall2_nil_inv_r in Hh'. naive_solver.
  - apply (Forall_fmap pie_root_item_id (fun r => r ∈ sel_root_item_id <$> ss)). rewrite Hroots. by apply Forall_fmap.
  - unfold item_ids. change (dom bs = list_to_set (pie_item_id <$> inv')). by rewrite Hids.
Qed.
End Changes.

(** ** The invariant *)

Section Invariant.
Context (is_nfc : str -> bool) (blake3 : list byte -> list byte).
Implicit Types (j : CanonicalTransferJob) (s : SourceSelection) (e : PreparedInventoryEntry).
Local Notation validate_durable := (validate_durable is_nfc blake3).

Record identity j : Prop := {
  id_schema : cj_schema_version j = TRANSFER_JOB_SCHEMA_VERSION;
  id_job : cj_job_id j <> replicate (Z.to_nat JOB_ID_BYTES) x00;
  id_length : wf_job_id (cj_job_id j) = true;
  id_times : 0 < cj_created_unix_ms j <= cj_updated_unix_ms j;
  id_revision : 1 <= cj_selection_revision j <= u64_max;
  id_generation : cj_generation j = FIRST_GENERATION;
  id_issues : 1 <= cj_next_issue_id j <= u64_max;
}.
Definition held j : Prop :=
  contents is_nfc (cj_next_source_item_id j) (cj_next_issue_id j) (cj_selections j) (cj_inventory j)
    (cj_source_bindings j) (cj_cleanup_pending j).

(** All but the lifecycle. *)
Record job_sound j : Prop := {
  js_identity : identity j;
  js_held : held j;
  js_roots : zlen (cj_selections j) <= MAX_MANIFEST_V2_ROOTS;
  js_order : reindexed (cj_selections j) = cj_selections j;
}.
Definition lifecycle_inv j : Prop :=
  match cj_sealed j with
  | None => cj_lifecycle j = JobCanceled \/ cj_lifecycle j = selections_lifecycle (cj_selections j)
  | Some sealed => cj_lifecycle j = JobSealed /\ valid_sealed is_nfc blake3 j sealed = Ok tt
  end.
Definition job_inv j : Prop := job_sound j /\ lifecycle_inv j.

(** *** The invariant is what [validate_durable] tests *)

Lemma find_entry_unique j e : NoDup (pie_item_id <$> cj_inventory j) -> e ∈ cj_inventory j -> find_entry (pie_item_id e) j = Some e.
Proof.
  intros Hnd [i Hi]%list_elem_of_lookup. unfold find_entry.
  assert (list_find (fun e0 => pie_item_id e0 = pie_item_id e) (cj_inventory j) = Some (i, e)) as ->; [|done].
  apply list_find_Some. split; [done|]. split; [done|]. intros k e' Hk Hlt Heq.
  assert (k = i); [|lia]. eapply (NoDup_lookup _ k i (pie_item_id e)); [exact Hnd|..]; rewrite list_lookup_fmap, ?Hk, ?Hi; cbn; congruence.
Qed.

Lemma selection_durable j s :
  NoDup (pie_item_id <$> cj_inventory j) -> selection_inv is_nfc (cj_next_issue_id j) (of_root (cj_inventory j) (sel_root_item_id s)) s ->
  valid_selection is_nfc j s = Ok tt.
Proof.
  intros Hi [Hname _ Hissues _ Hl Hroot _ _ _]. unfold valid_selection. rewrite Hname. cbn.
  assert (forallb (fun i => bool_decide (issue_root_item_id i = sel_root_item_id s)) (sel_issues s) = true) as ->.
  { apply forallb_forall. intros i Hin%list_elem_of_In. rewrite Forall_forall in Hissues. apply bool_decide_eq_true. auto. }
  cbn. rewrite Hroot. destruct (of_root _ _) as [|e es] eqn:Hes; cbn; [done|].
  assert (e ∈ of_root (cj_inventory j) (sel_root_item_id s)) as [Hr Hin]%list_elem_of_filter by (rewrite Hes; left).
  rewrite (find_entry_unique j e) by done. cbn.
  apply (listing_middle _ _ _ []) in Hl as [(_ & Hp & Hc & _)|[? _]]; [|done].
  by rewrite !bool_decide_eq_true_2.
Qed.

Lemma selections_durable j ss : Forall (fun s => valid_selection is_nfc j s = Ok tt) ss -> valid_selections is_nfc j ss = Ok tt.
Proof. induction 1 as [|s ss Hs _ IH]; cbn; [done|]. by rewrite Hs. Qed.

Lemma entry_durable j l e k (root_ids : gset SourceItemId) :
  held j -> cj_inventory j = l ++ e :: k -> root_ids = list_to_set (sel_root_item_id <$> cj_selections j) ->
  valid_entry is_nfc j root_ids (item_ids l) e = Ok tt.
Proof.
  intros Hj Hinv ->. destruct Hj as [_ Hi _ _ Hs Hro _ _].
  assert (Hin : e ∈ cj_inventory j) by (rewrite Hinv; set_solver).
  rewrite Forall_forall in Hro. rewrite Forall_forall in Hs. pose proof (Hro e Hin) as Hroot.
  apply list_elem_of_fmap in Hroot as Hsel. destruct Hsel as (s & Heq & Hsel). pose proof (si_listing _ _ _ _ (Hs s Hsel)) as Hl.
  rewrite Hinv, of_root_app in Hl. unfold of_root in Hl at 2. rewrite filter_cons, decide_True in Hl by done.
  pose proof (listing_shape _ _ _ _ Hl) as Hsh. rewrite Forall_app, Forall_cons in Hsh. destruct Hsh as (Hsl & [_ Hn _ Hd Hb Hdir _ _] & _).
  unfold valid_entry. rewrite Hn. rewrite bool_decide_eq_true_2 by by apply elem_of_list_to_set.
  rewrite (proj2 (Z.leb_le _ _) Hd), (proj2 (Z.leb_le _ _) Hb). cbn.
  assert (negb (bool_decide (pie_kind e = Directory) && negb (pie_plaintext_size e =? 0)) = true) as ->.
  { case_bool_decide as Hk; [|done]. destruct (Hdir Hk) as [-> _]. done. }
  cbn. apply listing_middle in Hl as [(_ & -> & -> & _)|(_ & Hbelow & ->)]; [done|].
  rewrite bool_decide_eq_true_2 by done. cbn. destruct Hbelow as (p & name & Hp & Hkind & -> & _).
  rewrite Forall_forall in Hsl. destruct (Hsl p Hp) as [Hpr _ _ _ _ _ _ _]. apply list_elem_of_filter in Hp as [_ Hp].
  rewrite (find_entry_unique j p) by (done || rewrite Hinv; set_solver). cbn.
  rewrite !bool_decide_eq_true_2; [done|done|congruence|]. apply elem_of_item_ids. by apply list_elem_of_fmap_2.
Qed.

Lemma entries_durable j l k (root_ids : gset SourceItemId) :
  held j -> cj_inventory j = l ++ k -> root_ids = list_to_set (sel_root_item_id <$> cj_selections j) ->
  valid_entries is_nfc j root_ids (item_ids l) k = Ok tt.
Proof.
  intros Hj Hinv Hr. revert l Hinv. induction k as [|e k IH]; intros l Hinv; [done|]. cbn [valid_entries].
  rewrite (entry_durable j l e k) by done. cbn.
  replace ({[ pie_item_id e ]} ∪ item_ids l) with (item_ids (l ++ [e])) by (rewrite item_ids_snoc; set_solver).
  apply IH. by rewrite <- app_assoc.
Qed.

Lemma order_durable ss :
  reindexed ss = ss -> forallb id (imap (fun i s => sel_order s =? as_u32 (Z.of_nat i)) ss) = true.
Proof.
  intros Hss. apply forallb_forall. intros b (i & Hi)%list_elem_of_In%list_elem_of_lookup.
  rewrite list_lookup_imap in Hi. pose proof (reindexed_lookup ss i) as Hl. rewrite Hss in Hl.
  destruct (ss !! i) as [s|]; [|done]. injection Hl as Hl. rewrite Hl in Hi. injection Hi as <-. cbn. apply Z.eqb_refl.
Qed.

Lemma ensure_step {E A} (b : bool) (err : E) (f : unit -> result E A) : b = true -> (ensure b err ≫= f) = f tt.
Proof. by intros ->. Qed.
Lemma ok_step {E A B} (r : result E A) (f : A -> result E B) a : r = Ok a -> (r ≫= f) = f a.
Proof. by intros ->. Qed.

(** Of a sound job only the lifecycle is still tested. *)
Lemma sound_durable j :
  job_sound j -> validate_durable j =
    (_ ← ensure (bool_decide (cj_lifecycle j = JobCanceled)
                 || bool_decide (cj_lifecycle j = if bool_decide (cj_sealed j = None) then selections_lifecycle (cj_selections j) else JobSealed))
           (JE_InvalidRecord "job lifecycle does not match durable facts");
     match cj_sealed j with Some sealed => valid_sealed is_nfc blake3 j sealed | None => Ok tt end).
Proof.
  intros [[Hsch Hid _ Ht Hrev Hgen _] Hj Hroots Hord]. unfold Job.validate_durable.
  pose proof Hj as [He Hi Hr _ Hs _ Hb Hc].
  rewrite ensure_step by by rewrite Hsch.
  rewrite ensure_step.
  2: { rewrite Hgen, (bool_decide_eq_false_2 _ Hid). repeat (apply andb_true_intro; split); try done;
         rewrite ?negb_true_iff, ?Z.eqb_neq, ?Z.leb_le; done || lia. }
  rewrite ensure_step by (rewrite size_item_ids by done; apply Z.eqb_refl).
  rewrite ensure_step.
  2: { rewrite order_durable, andb_true_r by done. apply Z.eqb_eq. unfold zlen. f_equal.
       rewrite <- (length_fmap sel_root_item_id). by apply size_list_to_set_NoDup. }
  erewrite ok_step.
  2: { apply selections_durable. eapply Forall_impl; [exact Hs|]. intros s. by apply selection_durable. }
  erewrite ok_step by by apply (entries_durable j [] (cj_inventory j)).
  rewrite ensure_step.
  2: { rewrite <- size_dom, Hb, bool_decide_eq_true_2, andb_true_r by done. rewrite size_item_ids by done. apply Z.eqb_refl. }
  rewrite ensure_step; [done|].
  apply forallb_forall. intros p Hp%list_elem_of_In. apply forallb_forall. intros s Hin%list_elem_of_In.
  rewrite Forall_forall in Hc. specialize (Hc s Hin). rewrite bool_decide_eq_false_2; [done|]. by intros <-.
Qed.

Lemma job_inv_durable j : job_inv j -> validate_durable j = Ok tt.
Proof.
  intros [Hj Hlc]. rewrite (sound_durable j Hj). unfold lifecycle_inv in Hlc. destruct (cj_sealed j) as [sealed|].
  - destruct Hlc as [-> Hv]. by rewrite ensure_step.
  - rewrite ensure_step; [done|]. destruct Hlc as [->|Hlc]; [done|]. apply orb_true_intro. right. by apply bool_decide_eq_true.
Qed.
End Invariant.

(** ** Rules *)

(** A counter is used up, or a search for an item id has not ended. *)
Definition exhausted (err : JobFailure) : Prop :=
  err = JobTrying \/ err = JobFails (JE_InvalidRecord "selection revision overflow") \/
  err = JobFails (JE_InvalidRecord "issue ID overflow") \/ err = JobFails (JE_InvalidRecord "source item ID overflow").

Definition mutable (j : CanonicalTransferJob) : Prop :=
  cj_sealed j = None /\ cj_lifecycle j <> JobSealed /\ cj_lifecycle j <> JobCanceled.

Section Rules.
Context {S : Type}.
Implicit Types (w : JobWorld S) (X : JobFailure -> JobWorld S -> Prop) (j : CanonicalTransferJob).
Local Notation M A := (proc (JobWorld S) JobFailure A).

Lemma wp_get_job Q X w : Q (jw_job w) w -> wp get_job Q X w.
Proof. done. Qed.
Lemma wp_modify_job f (Q : unit -> JobWorld S -> Prop) X w :
  (forall w', jw_job w' = f (jw_job w) -> Q tt w') -> wp (modify_job f) Q X w.
Proof. intros HQ. by apply HQ. Qed.
Lemma wp_job_pure {A} (r : result TransferJobError A) Q X w :
  (forall a, r = Ok a -> Q a w) -> (forall err, r = Err err -> X (JobFails err) w) -> wp (job_pure r) Q X w.
Proof. destruct r; cbn; eauto. Qed.
Lemma wp_job_fail {A} err (Q : A -> JobWorld S -> Prop) X w : X (JobFails err) w -> wp (job_fail err) Q X w.
Proof. done. Qed.
Lemma wp_job_fail_if b err (Q : unit -> JobWorld S -> Prop) X w :
  (b = true -> X (JobFails err) w) -> (b = false -> Q tt w) -> wp (job_fail_if b err) Q X w.
Proof. apply wp_throw_if. Qed.
Lemma wp_disk {A} (op : S -> S * A) (Q : A -> JobWorld S -> Prop) X w :
  (forall a w', jw_job w' = jw_job w -> Q a w') -> wp (on_disk op) Q X w.
Proof. intros HQ. unfold wp, on_disk. destruct (op (jw_disk w)) as [d a]. by apply HQ. Qed.
Lemma wp_disk_io {A} (op : S -> S * result IoErrorKind A) (Q : A -> JobWorld S -> Prop) X w :
  (forall a w', jw_job w' = jw_job w -> Q a w') -> (forall err w', jw_job w' = jw_job w -> X err w') -> wp (on_disk_io op) Q X w.
Proof. intros HQ HX. apply wp_bind, wp_disk. intros r w' Hw. apply wp_job_pure; eauto. Qed.

Lemma wp_ensure_mutable (Q : unit -> JobWorld S -> Prop) X w :
  (cj_lifecycle (jw_job w) <> JobSealed -> cj_lifecycle (jw_job w) <> JobCanceled -> Q tt w) ->
  (forall err, X err w) -> wp ensure_mutable Q X w.
Proof. intros HQ HX. apply wp_bind, wp_get_job. destruct (cj_lifecycle (jw_job w)); try (by apply HQ); apply wp_job_fail, HX. Qed.

Lemma wp_refresh (Q : unit -> JobWorld S -> Prop) X w :
  (forall w', jw_job w' = refreshed (jw_job w) -> Q tt w') -> wp refresh_lifecycle Q X w.
Proof. apply wp_modify_job. Qed.

Lemma wp_touch (Q : unit -> JobWorld S -> Prop) X w :
  (forall w' updated, cj_updated_unix_ms (jw_job w) <= updated -> jw_job w' = set_updated updated (jw_job w) -> Q tt w') ->
  wp touch Q X w.
Proof.
  intros HQ. apply wp_bind. unfold unix_time_ms, wp at 1. apply wp_modify_job. intros w' Hw. cbn in Hw. eapply HQ; [|exact Hw]. lia.
Qed.

Lemma wp_bump (Q : unit -> JobWorld S -> Prop) X w :
  (forall w' revision updated, revision = cj_selection_revision (jw_job w) + 1 -> revision <= u64_max ->
     cj_updated_unix_ms (jw_job w) <= updated ->
     jw_job w' = set_updated updated (set_revision revision (jw_job w)) -> Q tt w') ->
  (forall err w', exhausted err -> X err w') -> wp bump_revision Q X w.
Proof.
  intros HQ HX. apply wp_bind, wp_get_job, wp_bind, wp_job_pure.
  - intros revision Hr%ok_or_ok%checked_add_Some. apply wp_bind, wp_modify_job. intros w1 Hw1. apply wp_touch.
    intros w2 updated Hu Hw2. rewrite Hw1 in Hu, Hw2. cbn in Hu. eapply HQ; [| |exact Hu|exact Hw2]; lia.
  - intros err. unfold ok_or. destruct (checked_add _ _ _); intros [= <-]. apply HX. right. by left.
Qed.

Lemma wp_new_issue root components kind (Q : SourceIssue -> JobWorld S -> Prop) X w :
  (forall w' issue, issue_root_item_id issue = root -> cj_next_issue_id (jw_job w) + 1 <= u64_max ->
     jw_job w' = set_next_ids (cj_next_source_item_id (jw_job w)) (cj_next_issue_id (jw_job w) + 1) (jw_job w) -> Q issue w') ->
  (forall err w', exhausted err -> X err w') -> wp (new_issue root components kind) Q X w.
Proof.
  intros HQ HX. apply wp_bind, wp_get_job, wp_bind, wp_job_pure.
  - intros next [-> Hr]%ok_or_ok%checked_add_Some. apply wp_bind, wp_modify_job. intros w1 Hw1. apply wp_ret. by apply HQ.
  - intros err. unfold ok_or. destruct (checked_add _ _ _); intros [= <-]. apply HX. do 2 right. by left.
Qed.

Lemma wp_new_issues root issues (Q : list SourceIssue -> JobWorld S -> Prop) X w :
  cj_next_issue_id (jw_job w) <= u64_max ->
  (forall w' resolved, length resolved = length issues -> Forall (fun i => issue_root_item_id i = root) resolved ->
     cj_next_issue_id (jw_job w) + zlen issues <= u64_max ->
     jw_job w' = set_next_ids (cj_next_source_item_id (jw_job w)) (cj_next_issue_id (jw_job w) + zlen issues) (jw_job w) -> Q resolved w') ->
  (forall err w', exhausted err -> X err w') -> wp (new_issues root issues) Q X w.
Proof.
  intros Hn HQ HX. revert Q w Hn HQ. induction issues as [|i issues IH]; intros Q w Hn HQ.
  - apply wp_ret, HQ; rewrite ?zlen_nil, ?Z.add_0_r; try done. by destruct (jw_job w).
  - apply wp_bind, wp_new_issue; [|done]. intros w1 issue Hroot Hn1 Hw1. apply wp_bind, IH; rewrite Hw1; [done|].
    intros w2 resolved Hl Hr Hn2 Hw2. cbn in Hn2. apply wp_ret, HQ; cbn.
    + by rewrite Hl.
    + by constructor.
    + rewrite zlen_cons. lia.
    + rewrite Hw2. unfold set_next_ids. cbn. f_equal. rewrite zlen_cons. lia.
Qed.

Lemma wp_allocate (Q : SourceItemId -> JobWorld S -> Prop) X w :
  (forall w', jw_job w' = set_next_ids (cj_next_source_item_id (jw_job w) + 1) (cj_next_issue_id (jw_job w)) (jw_job w) ->
     Q (cj_next_source_item_id (jw_job w)) w') ->
  (forall err w', exhausted err -> X err w') -> wp allocate_source_item_id Q X w.
Proof.
  intros HQ HX. apply wp_bind, wp_get_job, wp_bind, wp_job_pure.
  - intros next [-> Hr]%ok_or_ok%checked_add_Some. apply wp_bind, wp_modify_job. intros w1 Hw1. apply wp_ret. by apply HQ.
  - intros err. unfold ok_or. destruct (checked_add _ _ _); intros [= <-]. apply HX. do 3 right. done.
Qed.

Lemma wp_selection_index root (Q : nat -> JobWorld S -> Prop) X w :
  (forall l s k, cj_selections (jw_job w) = l ++ s :: k -> sel_root_item_id s = root -> Q (length l) w) ->
  (forall err, X err w) -> wp (selection_index root) Q X w.
Proof.
  intros HQ HX. apply wp_bind, wp_get_job, wp_job_pure; [|intros; apply HX].
  intros i Hi%ok_or_ok. unfold selection_position in Hi. apply fmap_Some in Hi as ([i' s] & Hf & ->).
  apply list_find_Some in Hf as (Hi & Hs & _). apply list_elem_of_split_length in Hi as (l & k & Hl & ->). cbn. by eapply HQ.
Qed.

Lemma wp_selection_at l s k (Q : SourceSelection -> JobWorld S -> Prop) X w :
  cj_selections (jw_job w) = l ++ s :: k -> Q s w -> wp (selection_at (length l)) Q X w.
Proof.
  intros Hl HQ. apply wp_bind, wp_get_job, wp_job_pure; rewrite Hl, list_lookup_middle by done; cbn; [|done].
  by intros a [= ->].
Qed.

Lemma wp_modify_selection l s k f (Q : unit -> JobWorld S -> Prop) X w :
  cj_selections (jw_job w) = l ++ s :: k ->
  (forall w', jw_job w' = set_selections (l ++ f s :: k) (jw_job w) -> Q tt w') -> wp (modify_selection (length l) f) Q X w.
Proof. intros Hl HQ. apply wp_modify_job. intros w' Hw. apply HQ. by rewrite Hw, Hl, alter_middle. Qed.
End Rules.

(** ** Operations *)

(** The calls that change a job: those of [CanonicalTransferJob] and of its store. *)
Inductive JobOp :=
| OpSetPolicy (policy : CompressionPolicyV2)
| OpAddLocal (p : path)
| OpAddProvider (p : path) (requested_name : str) (origin : LocalSourceOrigin) (issues : list ProviderSourceIssue)
| OpImportStaged (p : path) (requested_name : str) (origin : LocalSourceOrigin)
| OpReauthorizeProvider (root : SourceItemId) (p : path) (issues : list ProviderSourceIssue)
| OpPrepare (root : SourceItemId)
| OpPrepareAll
| OpDecide (root : SourceItemId) (d : SourceDecision)
| OpApplyDecision (root : SourceItemId) (d : SourceDecision)
| OpReconcileCleanup
| OpCancel
| OpHash (item : SourceItemId)
| OpSeal
| OpSave.

Section Operations.
Context (nfc : str -> str) (is_nfc : str -> bool) (blake3 : list byte -> list byte).
Context (os_bytes : path -> list byte) (hash_order : list (list str) -> list (list str)) (id_tries : nat).
Context {S : Type} `{SourceDisk S} (Hlaws : SourceDiskLaws S nfc).
Context (blake3_digest : forall bytes, wf_digest (blake3 bytes) = true).
Implicit Types (w : JobWorld S) (j : CanonicalTransferJob) (s : SourceSelection).
Local Notation M A := (proc (JobWorld S) JobFailure A).
Local Notation job_inv := (job_inv is_nfc blake3).
Local Notation job_sound := (job_sound is_nfc).
Local Notation held := (held is_nfc).

(** When an operation fails: the job still satisfies its invariant, or something is used up. *)
Definition fails_well (err : JobFailure) w : Prop := job_inv (jw_job w) \/ exhausted err.
Definition keeps {A} (m : M A) w : Prop := wp m (fun _ w' => job_inv (jw_job w')) fails_well w.

Lemma fails_same w w' err : job_inv (jw_job w) -> jw_job w' = jw_job w -> fails_well err w'.
Proof. intros Hj Hw. left. by rewrite Hw. Qed.
Lemma fails_exhausted err w : exhausted err -> fails_well err w.
Proof. by right. Qed.
Lemma fails_inv err w : job_inv (jw_job w) -> fails_well err w.
Proof. by left. Qed.
#[local] Hint Resolve fails_exhausted fails_inv fails_same : core.

Lemma inv_mutable j : job_inv j -> cj_lifecycle j <> JobSealed -> cj_lifecycle j <> JobCanceled -> job_sound j /\ mutable j.
Proof.
  intros [Hs Hl] Hns Hnc. split; [done|]. split; [|done]. unfold lifecycle_inv in Hl. destruct (cj_sealed j); naive_solver.
Qed.

Lemma selections_lifecycle_mutable ss : selections_lifecycle ss <> JobSealed /\ selections_lifecycle ss <> JobCanceled.
Proof. unfold selections_lifecycle. destruct (existsb _ _); [done|]. by destruct (negb _ && _). Qed.

Lemma refreshed_mutable j : mutable j -> refreshed j = set_lifecycle (selections_lifecycle (cj_selections j)) j.
Proof. intros (_ & Hs & Hc). unfold refreshed. by destruct (cj_lifecycle j). Qed.

Lemma inv_refreshed j : job_sound j -> mutable j -> job_inv (refreshed j) /\ mutable (refreshed j).
Proof.
  intros [[] Hh Hr Ho] Hm. rewrite refreshed_mutable by done. destruct Hm as [Hsl _]. split.
  - split; [by constructor|]. unfold lifecycle_inv. cbn. rewrite Hsl. by right.
  - split; [done|]. apply selections_lifecycle_mutable.
Qed.

Lemma sound_updated j updated : job_sound j -> cj_updated_unix_ms j <= updated -> job_sound (set_updated updated j).
Proof. intros [[] Hh Hr Ho] Hu. constructor; try done. constructor; try done. cbn. lia. Qed.
Lemma sound_revision j revision : job_sound j -> 1 <= revision <= u64_max -> job_sound (set_revision revision j).
Proof. intros [[] Hh Hr Ho] Hu. by constructor. Qed.

(** The end of an operation: the next revision, and the lifecycle anew. *)
Lemma wp_bump_sound (Q : unit -> JobWorld S -> Prop) w :
  job_sound (jw_job w) ->
  (forall w', job_sound (jw_job w') -> cj_lifecycle (jw_job w') = cj_lifecycle (jw_job w) ->
     cj_sealed (jw_job w') = cj_sealed (jw_job w) -> cj_selections (jw_job w') = cj_selections (jw_job w) -> Q tt w') ->
  wp bump_revision Q fails_well w.
Proof.
  intros Hs HQ. apply wp_bump; [|auto]. intros w' revision updated Hr Hm Hu Hw. apply HQ; rewrite Hw; try done.
  apply sound_updated; [|done]. apply sound_revision; [done|]. destruct Hs as [[] _ _ _]. lia.
Qed.

Lemma wp_settle {A} (m : M A) (Q : A -> JobWorld S -> Prop) w :
  job_sound (jw_job w) -> mutable (jw_job w) ->
  (forall w', job_inv (jw_job w') -> mutable (jw_job w') -> wp m Q fails_well w') ->
  wp (bump_revision ≫= fun _ => refresh_lifecycle ≫= fun _ => m) Q fails_well w.
Proof.
  intros Hs [Hsl Hm] HQ. apply wp_bind, wp_bump_sound; [done|]. intros w1 Hs1 Hl1 Hsl1 _. apply wp_bind, wp_refresh. intros w2 Hw2.
  destruct (inv_refreshed (jw_job w1)) as [Hi Hm']; [done| |by apply HQ; rewrite Hw2]. split; [congruence|]. by rewrite Hl1.
Qed.
Lemma wp_settle_end (Q : unit -> JobWorld S -> Prop) w :
  job_sound (jw_job w) -> mutable (jw_job w) ->
  (forall w', job_inv (jw_job w') -> mutable (jw_job w') -> Q tt w') ->
  wp (bump_revision ≫= fun _ => refresh_lifecycle) Q fails_well w.
Proof.
  intros Hs [Hsl Hm] HQ. apply wp_bind, wp_bump_sound; [done|]. intros w1 Hs1 Hl1 Hsl1 _. apply wp_refresh. intros w2 Hw2.
  destruct (inv_refreshed (jw_job w1)) as [Hi Hm']; [done| |by apply HQ; rewrite Hw2]. split; [congruence|]. by rewrite Hl1.
Qed.

Lemma job_new_inv policy entropy now j :
  job_new policy entropy now = Ok j -> 0 < now -> (forall bytes, entropy = Some bytes -> wf_job_id bytes = true) -> job_inv j.
Proof.
  unfold job_new. destruct entropy as [bytes|]; cbn; [|done]. case_bool_decide as Hz; [done|]. intros [= <-] Hnow Hlen. split.
  - constructor; [|..]; try done.
    + constructor; cbn; [done|done|by apply Hlen|lia|done..].
    + constructor; cbn; try constructor; done.
  - by right.
Qed.

Lemma keeps_set_compression_policy policy w : job_inv (jw_job w) -> keeps (set_compression_policy policy) w.
Proof.
  intros Hj. apply wp_bind, wp_ensure_mutable; [|auto]. intros Hs Hc. apply wp_bind, wp_get_job.
  destruct (negb _); [|by apply wp_ret]. destruct (inv_mutable _ Hj) as [Hso Hm]; [done|done|].
  apply wp_bind, wp_modify_job. intros w1 Hw1. apply wp_bump_sound; rewrite Hw1.
  - destruct Hso as [[] Hh Hr Ho]. by constructor.
  - intros w2 Hs2 Hl2 Hsl2 Hss2. split; [done|]. destruct Hj as [_ Hl]. unfold lifecycle_inv in *. rewrite Hsl2. cbn in *.
    destruct Hm as [Hn _]. rewrite Hn in Hl |- *. by rewrite Hl2, Hss2.
Qed.

(** *** Sources *)

Lemma wp_probe p (Q : option path * option bool * option SourceIssueKind -> JobWorld S -> Prop) X w :
  (forall a w', jw_job w' = jw_job w -> Q a w') -> wp (probe_source p) Q X w.
Proof.
  intros HQ. apply wp_bind, wp_disk. intros [md|err] w1 Hw1; [|by apply wp_ret, HQ].
  destruct (md_type md); try by apply wp_ret, HQ.
  all: apply wp_bind, wp_disk; intros c w2 Hw2; apply wp_ret, HQ; congruence.
Qed.

(** The selections that a directory covers go, with their entries. *)
Definition not_in (removed : list SourceItemId) (r : SourceItemId) : bool := negb (bool_decide (r ∈ removed)).

Lemma covered_roots root ss :
  NoDup (sel_root_item_id <$> ss) ->
  filter (fun s => covered_by root s = false) ss =
  filter (fun s => not_in (map sel_root_item_id (filter (fun s => covered_by root s = true) ss)) (sel_root_item_id s) = true) ss.
Proof.
  intros Hnd. apply filter_same. intros s Hs. unfold not_in. rewrite negb_true_iff, bool_decide_eq_false.
  split.
  - intros Hc (s' & Heq & [Hc' Hs']%list_elem_of_filter)%list_elem_of_fmap. apply list_elem_of_lookup in Hs as [i Hi].
    apply list_elem_of_lookup in Hs' as [k Hk]. assert (i = k) as ->; [|congruence].
    eapply (NoDup_lookup _ i k (sel_root_item_id s)); [exact Hnd|..]; rewrite list_lookup_fmap, ?Hi, ?Hk; cbn; congruence.
  - intros Hn. destruct (covered_by root s) eqn:Hc; [|done]. destruct Hn. apply list_elem_of_fmap. exists s.
    split; [done|]. by apply list_elem_of_filter.
Qed.

Lemma length_uncovered root ss :
  existsb (covered_by root) ss = true -> (length (filter (fun s => covered_by root s = false) ss) < length ss)%nat.
Proof.
  induction ss as [|s ss IH]; [done|]. rewrite filter_cons. intros [Hs|Hs]%orb_true_iff.
  - rewrite decide_False by congruence. pose proof (length_filter (fun s => covered_by root s = false) ss). cbn. lia.
  - specialize (IH Hs). case_decide; cbn; lia.
Qed.

Lemma new_selection_inv nx root name p canonical hint origin owned issues :
  validate_source_component is_nfc name = Ok tt -> utf8_valid name = true ->
  Forall (fun i => issue_root_item_id i = root) issues -> zlen issues < nx ->
  selection_inv is_nfc nx [] (mkSelection root 0 name p canonical hint origin owned
    (if bool_decide (issues = []) then SelPending else SelNeedsDecision) None Complete issues).
Proof.
  intros Hn Hu Hi Hc. constructor; cbn; try done; [constructor|by case_bool_decide| |by left].
  by case_bool_decide.
Qed.

(** The roots that a new directory covers, and the step that drops them. *)
Definition covered_ids (directory_path : option path) (ss : list SourceSelection) : list SourceItemId :=
  match directory_path with
  | Some root => map sel_root_item_id (filter (fun s => covered_by root s = true) ss)
  | None => []
  end.

Lemma wp_drop_covered directory_path w w1 :
  held (jw_job w) -> jw_job w1 = set_next_ids (cj_next_source_item_id (jw_job w) + 1) (cj_next_issue_id (jw_job w)) (jw_job w) ->
  zlen (cj_selections (jw_job w)) <= MAX_MANIFEST_V2_ROOTS ->
  (MAX_MANIFEST_V2_ROOTS <=? zlen (cj_selections (jw_job w)))
    && negb match directory_path with Some root => existsb (covered_by root) (cj_selections (jw_job w)) | None => false end = false ->
  wp match directory_path with
     | Some r => modify_job (fun j =>
         retain_inventory (fun e => negb (bool_decide (pie_root_item_id e ∈ covered_ids directory_path (cj_selections (jw_job w)))))
           (set_selections (filter (fun s => covered_by r s = false) (cj_selections j)) j))
     | None => mret tt
     end
    (fun _ w2 => exists ss inv bs, jw_job w2 = set_inventory inv bs (set_selections ss (jw_job w1)) /\
      contents is_nfc (cj_next_source_item_id (jw_job w)) (cj_next_issue_id (jw_job w)) ss inv bs (cj_cleanup_pending (jw_job w)) /\
      zlen ss + 1 <= MAX_MANIFEST_V2_ROOTS) fails_well w1.
Proof.
  intros Hh Hw1 Hr Hlimit. set (ss := cj_selections (jw_job w)) in *. set (removed := covered_ids directory_path ss).
  destruct directory_path as [r|]; cbn in removed.
  - apply wp_modify_job. intros w2 Hw2. rewrite Hw1 in Hw2.
    exists (filter (fun s => covered_by r s = false) ss), (kept (not_in removed) (cj_inventory (jw_job w))),
      (kept_bindings (not_in removed) (cj_inventory (jw_job w)) (cj_source_bindings (jw_job w))).
    split; [by rewrite Hw2, Hw1|]. split.
    + eapply contents_drop; [exact Hh|]. apply covered_roots. apply Hh.
    + destruct (existsb (covered_by r) ss) eqn:Hx; unfold zlen in *; [apply length_uncovered in Hx; lia|].
      rewrite andb_true_r in Hlimit. apply Z.leb_gt in Hlimit.
      pose proof (length_filter (fun s => covered_by r s = false) ss). lia.
  - apply wp_ret. exists ss, (cj_inventory (jw_job w)), (cj_source_bindings (jw_job w)).
    split; [rewrite Hw1; by destruct (jw_job w)|]. split; [done|].
    rewrite andb_true_r in Hlimit. apply Z.leb_gt in Hlimit. lia.
Qed.

Lemma keeps_add_local_source p name origin owned w :
  job_inv (jw_job w) -> p ∉ cj_cleanup_pending (jw_job w) -> utf8_valid name = true ->
  wp (add_local_source nfc is_nfc p name origin owned) (fun _ w' => job_inv (jw_job w')) fails_well w.
Proof.
  intros Hj Hp Hu. apply wp_bind, wp_ensure_mutable; [|auto]. intros Hs Hc.
  destruct (inv_mutable _ Hj) as [[Hid Hh Hr Ho] Hm]; [done|done|].
  apply wp_bind, wp_job_pure; [|auto]. intros [] Hname. apply wp_bind, wp_probe. intros [[canonical hint] initial] w1 Hw1.
  apply wp_bind, wp_get_job. rewrite Hw1. destruct (canonical ≫= _) as [[]|]; [apply wp_ret; congruence|].
  set (directory_path := if bool_decide (hint = Some true) then canonical else None).
  apply wp_bind, wp_job_fail_if; [eauto|]. intros Hlimit. apply wp_bind, wp_allocate; [|auto]. intros w2 Hw2. rewrite Hw1 in Hw2 |- *.
  apply wp_bind. eapply wp_mono; [exact (wp_drop_covered directory_path w w2 Hh Hw2 Hr Hlimit)| |done].
  intros [] w3 (ss' & inv & bs & Hw3 & Hct & Hroots).
  assert (Hnx := id_issues _ Hid). rewrite Hw2 in Hw3.
  apply wp_bind, wp_new_issues; [rewrite Hw3; cbn; lia| |auto]. intros w4 issues Hlen Hroot Hmax Hw4. rewrite Hw3 in Hmax, Hw4. cbn in Hmax, Hw4.
  apply wp_bind, wp_modify_job. intros w5 Hw5. rewrite Hw4 in Hw5. cbn in Hw5.
  set (n := zlen _) in Hmax, Hw4, Hw5. assert (Hn : 0 <= n) by apply zlen_nonneg.
  apply wp_settle; rewrite ?Hw5; [|done|].
  - destruct Hid as []. constructor; cbn; [constructor; cbn; done || lia| |unfold zlen in *; rewrite length_reindexed, length_app; cbn; lia|apply reindexed_idemp].
    apply contents_reindexed, contents_add; [|done|done|].
    + eapply contents_mono; [| |exact Hct]; cbn; lia.
    + apply new_selection_inv; [done|by apply (nfc_utf8 (S := S))|done|]. cbn. unfold n, zlen in *. lia.
  - intros w6 Hj6 _. by apply wp_ret.
Qed.

(** *** Preparation *)

Lemma sound_replaced j j' l s k s' :
  job_sound j -> cj_selections j = l ++ s :: k -> cj_selections j' = l ++ s' :: k -> sel_order s' = sel_order s ->
  identity j' -> held j' -> job_sound j'.
Proof.
  intros [_ _ Hr Ho] Hl Hl' Hs Hid Hh. constructor; [done|done| |].
  - rewrite Hl in Hr. rewrite Hl'. unfold zlen in *. rewrite length_app in *. done.
  - apply (reindexed_orders (cj_selections j)); [|done]. rewrite Hl, Hl', !fmap_app. cbn. by rewrite Hs.
Qed.

Lemma walk_start s taken :
  walk is_nfc s taken [mkPendingEntry (sel_path s) [] None] (mkOutcome None [] ∅ [] taken).
Proof.
  constructor; cbn; try done; try by constructor.
  - set_solver.
  - apply Forall_singleton. by left.
  - repeat constructor.
  - intros e p []%not_elem_of_nil.
Qed.

Lemma wp_enumerate s jid taken budget (Q : EnumerationOutcome -> JobWorld S -> Prop) w :
  utf8_valid (sel_requested_name s) = true ->
  (forall o w', jw_job w' = jw_job w -> walk is_nfc s taken [] o -> zlen (eo_entries o) <= Z.max 0 budget -> Q o w') ->
  wp (enumerate_local_selection nfc is_nfc blake3 os_bytes hash_order id_tries s jid taken budget) Q fails_well w.
Proof.
  intros Hu HQ. eapply wp_mono; [by eapply enumerate_entries_spec, walk_start| |intros err w' ->; right; by left].
  cbn. intros o w' ([d ->] & Hw & Hl). apply HQ; [done|done|]. unfold zlen. lia.
Qed.

(** The selection and the entries that an enumeration leaves. *)
Lemma outcome_selection_inv nx s taken o issues :
  walk is_nfc s taken [] o -> validate_source_component is_nfc (sel_requested_name s) = Ok tt ->
  utf8_valid (sel_requested_name s) = true -> Forall (fun i => issue_root_item_id i = sel_root_item_id s) issues ->
  length issues = length (eo_issues o) -> zlen issues < nx ->
  selection_inv is_nfc nx (eo_entries o)
    (set_selection_outcome (if bool_decide (issues = []) then SelReady else SelNeedsDecision)
       (eo_root_inventory_item_id o) Complete issues s).
Proof.
  intros [Hl Hi Ho Hf Hb Hr Hs _ _ _] Hn Hu Hroot Hlen Hc. constructor; cbn; try done; [| |by left].
  - case_bool_decide as Hnil; [|done]. intros _ Hes. rewrite Hnil in Hlen. cbn in Hlen.
    destruct (eo_issues o) eqn:Hiss; [|done]. by destruct (Hs Hes eq_refl).
  - by case_bool_decide.
Qed.

Lemma keeps_prepare_selection root w :
  job_inv (jw_job w) ->
  wp (prepare_selection nfc is_nfc blake3 os_bytes hash_order id_tries root)
    (fun _ w' => job_inv (jw_job w') /\ mutable (jw_job w')) fails_well w.
Proof.
  intros Hj. apply wp_bind, wp_ensure_mutable; [|auto]. intros Hs Hc. destruct (inv_mutable _ Hj) as [[Hid Hh Hr Ho] Hm]; [done|done|].
  apply wp_bind, wp_selection_index; [|auto]. intros l s k Hl Hroot. apply wp_bind, (wp_selection_at l s k); [done|].
  apply wp_bind, wp_job_fail_if; [auto|]. intros _. apply wp_bind, (wp_modify_selection l s k); [done|]. intros w1 Hw1.
  apply wp_bind, wp_refresh. intros w2 Hw2. rewrite Hw1, refreshed_mutable in Hw2 by done.
  apply wp_bind, wp_modify_job. intros w3 Hw3. rewrite Hw2 in Hw3. clear w1 Hw1 w2 Hw2.
  assert (Hsel : selection_inv is_nfc (cj_next_issue_id (jw_job w)) (of_root (cj_inventory (jw_job w)) (sel_root_item_id s)) s).
  { pose proof (ct_selection _ _ _ _ _ _ _ Hh) as Hss. rewrite Forall_forall in Hss. apply Hss. rewrite Hl. set_solver. }
  destruct Hsel as [Hname Hu _ _ _ _ _ _ _].
  apply wp_bind, (wp_selection_at l (set_selection_state SelEnumerating s) k); [by rewrite Hw3|].
  apply wp_bind, wp_get_job, wp_bind, wp_enumerate; [done|]. intros o w4 Hw4 Hwalk Hbudget. rewrite Hw3 in Hw4, Hwalk, Hbudget.
  apply wp_bind, wp_new_issues; [rewrite Hw4; apply Hid| |auto]. intros w5 issues Hlen Hroots Hmax Hw5. rewrite Hw4 in Hmax, Hw5.
  apply wp_bind, wp_modify_job. intros w6 Hw6. rewrite Hw5 in Hw6.
  apply wp_bind, (wp_modify_selection l (set_selection_state SelEnumerating s) k); [by rewrite Hw6|]. intros w7 Hw7. rewrite Hw6 in Hw7.
  clear w3 Hw3 w4 Hw4 w5 Hw5 w6 Hw6. apply wp_settle_end; rewrite ?Hw7; [|by split; [apply Hm|apply selections_lifecycle_mutable]|done].
  pose proof (zlen_nonneg (eo_issues o)). subst root. pose proof Hid as [? ? ? ? ? ? Hnx]. cbn in Hmax.
  assert (Hcount : zlen issues = zlen (eo_issues o)) by (unfold zlen; by rewrite Hlen).
  eapply (sound_replaced (jw_job w) _ l s k); [by constructor|done|done|done|constructor; cbn; done || lia|].
  unfold JobInv.held in Hh |- *. cbn in Hbudget |- *. rewrite Hl in Hh.
  apply (contents_mono _ _ _ _ (cj_next_issue_id (jw_job w) + zlen (eo_issues o)) _ _ _ _ (Z.le_refl _)) in Hh; [|lia].
  eapply contents_replace; [exact Hh|done| |..].
  - cbn. pose proof (ct_cleanup _ _ _ _ _ _ _ Hh) as Hcl. rewrite Forall_app, Forall_cons in Hcl. naive_solver.
  - eapply (outcome_selection_inv _ (set_selection_state SelEnumerating s)); try done. lia.
  - by eapply wk_ids.
  - intros x Hx Hx'. apply (wk_fresh _ _ _ _ _ Hwalk x); [|done]. cbn. apply elem_of_union_l. exact Hx.
  - by eapply wk_bindings.
  - pose proof (zlen_kept (other_root (sel_root_item_id s)) (cj_inventory (jw_job w))). pose proof (ct_entries _ _ _ _ _ _ _ Hh).
    unfold saturating_sub in Hbudget. change (filter _ (cj_inventory (jw_job w))) with (kept (other_root (sel_root_item_id s)) (cj_inventory (jw_job w))) in Hbudget. lia.
Qed.

Lemma inv_refresh j : job_inv j -> job_inv (refreshed j).
Proof.
  intros Hj. destruct (decide (cj_lifecycle j = JobSealed)) as [Hl|Hs]; [unfold refreshed; by rewrite Hl|].
  destruct (decide (cj_lifecycle j = JobCanceled)) as [Hl|Hc]; [unfold refreshed; by rewrite Hl|].
  destruct (inv_mutable j) as [? ?]; [done..|]. by apply inv_refreshed.
Qed.

Lemma keeps_prepare_selections roots w :
  job_inv (jw_job w) -> keeps (prepare_selections nfc is_nfc blake3 os_bytes hash_order id_tries roots) w.
Proof.
  revert w. induction roots as [|root roots IH]; intros w Hj; [by apply wp_ret|].
  apply wp_bind. eapply wp_mono; [by apply keeps_prepare_selection| |done]. intros [] w' [Hj' _]. by apply IH.
Qed.

Lemma keeps_prepare_all w : job_inv (jw_job w) -> keeps (prepare_all nfc is_nfc blake3 os_bytes hash_order id_tries) w.
Proof.
  intros Hj. apply wp_bind, wp_ensure_mutable; [|auto]. intros _ _. apply wp_bind, wp_get_job, wp_bind.
  eapply wp_mono; [by apply keeps_prepare_selections| |done]. intros [] w' Hj'. apply wp_refresh. intros w2 ->. by apply inv_refresh.
Qed.

(** A selection of the job, with what holds of it. *)
Lemma held_selection j l s k :
  held j -> cj_selections j = l ++ s :: k ->
  selection_inv is_nfc (cj_next_issue_id j) (of_root (cj_inventory j) (sel_root_item_id s)) s /\ sel_path s ∉ cj_cleanup_pending j.
Proof.
  intros [_ _ _ _ Hs _ _ Hc] Hl. rewrite Hl, Forall_app, Forall_cons in Hs, Hc. naive_solver.
Qed.

Lemma keeps_attach_provider_issues root issues w :
  job_inv (jw_job w) -> mutable (jw_job w) -> keeps (attach_provider_issues is_nfc root issues) w.
Proof.
  intros Hj Hm. unfold keeps, attach_provider_issues. case_bool_decide as Hnil; [by apply wp_ret|].
  destruct Hj as [Hso Hlc]. pose proof Hso as [Hid Hh Hr Ho].
  apply wp_bind, wp_job_pure; [|left; by split]. intros _ _.
  apply wp_bind, wp_new_issues; [apply Hid| |auto]. intros w1 resolved Hlen Hroots Hmax Hw1. pose proof (zlen_nonneg issues).
  assert (Hcount : zlen resolved = zlen issues) by (unfold zlen; by rewrite Hlen).
  assert (Hso1 : job_sound (jw_job w1)).
  { rewrite Hw1. pose proof Hid as []. constructor; cbn; [constructor; cbn; done || lia| |done|done].
    eapply contents_mono; [| |exact Hh]; cbn; lia. }
  apply wp_bind, wp_selection_index; [|left; split; [done|]; unfold lifecycle_inv; destruct Hm as [Hn _]; rewrite Hw1; cbn;
    unfold lifecycle_inv in Hlc; by rewrite Hn in Hlc |- *].
  intros l s k Hl <-. apply wp_bind, (wp_modify_selection l s k); [done|]. intros w2 Hw2.
  apply wp_settle_end; rewrite ?Hw2; [|by rewrite Hw1|done].
  destruct (held_selection _ _ _ _ (js_held _ _ Hso1) Hl) as [[] Hpath].
  eapply (sound_replaced (jw_job w1) _ l s k); [done|done|done|done|by destruct Hso1 as [[] _ _ _]|].
  pose proof (js_held _ _ Hso1) as Hh1. unfold JobInv.held in Hh1 |- *. rewrite Hl in Hh1. cbn.
  eapply contents_change; [exact Hh1|done|done|]. constructor; cbn; try done.
  - by apply Forall_app.
  - destruct (held_selection _ l s k Hh) as [[] _]; [by rewrite Hw1 in Hl|]. rewrite zlen_app, Hw1. cbn. lia.
  - intros _ Happ. apply Hnil. rewrite <- Hlen. by apply app_nil in Happ as [_ ->].
Qed.

(** *** Decisions *)

(** What a decision must respect: a path that is to be cleaned up is not a source, neither
    before a reauthorization nor, by another selection, after a removal. *)
Definition decision_allowed j (root : SourceItemId) (d : SourceDecision) : Prop :=
  match d with
  | Reauthorize p => p ∉ cj_cleanup_pending j
  | RemoveSelection => forall s s', s ∈ cj_selections j -> s' ∈ cj_selections j -> sel_root_item_id s = root ->
      sel_job_owned_staging s = true -> sel_root_item_id s' <> root -> sel_path s' <> sel_path s
  | _ => True
  end.

Lemma filter_other_root l s k :
  NoDup (sel_root_item_id <$> l ++ s :: k) ->
  l ++ k = filter (fun s' => other_root (sel_root_item_id s) (sel_root_item_id s') = true) (l ++ s :: k).
Proof.
  intros Hnd. rewrite filter_app, filter_cons, decide_False by (unfold other_root; by rewrite bool_decide_eq_true_2).
  rewrite !filter_keeps; [done|..]; intros s' Hs'; unfold other_root;
    rewrite bool_decide_eq_false_2; try done; (eapply NoDup_middle_ne; [exact Hnd|set_solver]).
Qed.

Lemma sound_removed j l s k cl :
  job_sound j -> cj_selections j = l ++ s :: k -> Forall (fun s' => sel_path s' ∉ cl) (l ++ k) ->
  job_sound (set_cleanup cl (retain_inventory (fun e => negb (bool_decide (pie_root_item_id e = sel_root_item_id s)))
    (set_selections (reindexed (l ++ k)) j))).
Proof.
  intros [[] Hh Hr Ho] Hl Hcl. unfold JobInv.held in Hh. rewrite Hl in Hh, Hr.
  constructor; cbn; [by constructor| |unfold zlen in *; rewrite length_reindexed, length_app in *; cbn in *; lia|apply reindexed_idemp].
  apply contents_reindexed.
  pose proof (contents_drop is_nfc (other_root (sel_root_item_id s)) _ _ _ _ _ _ _ Hh (filter_other_root _ _ _ (ct_root_ids _ _ _ _ _ _ _ Hh))) as [].
  by constructor.
Qed.

Lemma keeps_remove root l s k w :
  job_inv (jw_job w) -> mutable (jw_job w) -> decision_allowed (jw_job w) root RemoveSelection ->
  cj_selections (jw_job w) = l ++ s :: k -> sel_root_item_id s = root ->
  keeps (_ ← modify_job (fun j => retain_inventory (fun e => negb (bool_decide (pie_root_item_id e = root)))
           (set_selections (reindexed (delete (length l) (cj_selections j))) j));
         _ ← match (if sel_job_owned_staging s then Some (sel_path s) else None) with
             | Some p => modify_job (fun j => set_cleanup (cj_cleanup_pending j ++ [p]) j)
             | None => mret tt
             end;
         _ ← bump_revision;
         _ ← refresh_lifecycle;
         mret (if sel_job_owned_staging s then Some (sel_path s) else None)) w.
Proof.
  intros [Hso _] Hm Hok Hl <-. pose proof (ct_cleanup _ _ _ _ _ _ _ (js_held _ _ Hso)) as Hcl. pose proof (ct_root_ids _ _ _ _ _ _ _ (js_held _ _ Hso)) as Hnd.
  apply wp_bind, wp_modify_job. intros w1 Hw1. rewrite Hl, delete_middle_length in Hw1.
  assert (Hlk : forall s', s' ∈ l ++ k -> s' ∈ cj_selections (jw_job w)) by (rewrite Hl; set_solver).
  destruct (sel_job_owned_staging s) eqn:Howned.
  - apply wp_bind, wp_modify_job. intros w2 Hw2. rewrite Hw1 in Hw2. apply wp_settle; rewrite ?Hw2; [|done|intros; by apply wp_ret].
    apply sound_removed; [done|done|]. rewrite Forall_forall in Hcl |- *. intros s' Hs'. cbn. rewrite elem_of_app, list_elem_of_singleton.
    intros [Hin|Heq]; [by apply (Hcl s'); auto|]. rewrite Hl in Hnd. pose proof (NoDup_middle_ne _ _ _ _ _ Hnd Hs').
    apply (Hok s s'); try done; [rewrite Hl; set_solver|auto].
  - apply wp_bind, wp_ret, wp_settle; rewrite ?Hw1; [|done|intros; by apply wp_ret].
    pose proof (sound_removed _ l s k (cj_cleanup_pending (jw_job w)) Hso Hl) as Hs'. apply Hs'.
    rewrite Forall_forall in Hcl |- *. auto.
Qed.

Lemma keeps_reauthorize root local_path l s k w :
  job_inv (jw_job w) -> mutable (jw_job w) -> local_path ∉ cj_cleanup_pending (jw_job w) ->
  cj_selections (jw_job w) = l ++ s :: k -> sel_root_item_id s = root ->
  keeps (canonical_path ← on_disk (canonicalize_ok local_path);
         j ← get_job;
         _ ← job_fail_if match canonical_path with
                         | Some candidate => existsb (fun s => negb (bool_decide (sel_root_item_id s = root)) && overlaps candidate s)
                                               (cj_selections j)
                         | None => false
                         end JE_OverlappingSelection;
         hint ← match canonical_path with Some p => on_disk (is_directory p) | None => mret None end;
         _ ← modify_selection (length l) (fun s => mkSelection (sel_root_item_id s) (sel_order s) (sel_requested_name s) local_path
               canonical_path hint (sel_origin s) false SelPending None Complete []);
         _ ← modify_job (retain_inventory (fun e => negb (bool_decide (pie_root_item_id e = root))));
         _ ← bump_revision;
         _ ← refresh_lifecycle;
         mret (None : option path)) w.
Proof.
  intros Hj Hm Hp Hl <-. pose proof Hj as [Hso _]. apply wp_bind, wp_disk. intros canonical w1 Hw1. apply wp_bind, wp_get_job, wp_bind, wp_job_fail_if; [eauto|].
  intros _. apply wp_bind.
  assert (Hhint : forall Q, (forall hint w', jw_job w' = jw_job w -> Q hint w') ->
    wp match canonical with Some p => on_disk (is_directory p) | None => mret None end Q fails_well w1).
  { intros Q HQ. destruct canonical; [|by apply wp_ret, HQ]. apply wp_disk. intros a w' Hw'. apply HQ. congruence. }
  apply Hhint. intros hint w2 Hw2. apply wp_bind, (wp_modify_selection l s k); [congruence|]. intros w3 Hw3.
  apply wp_bind, wp_modify_job. intros w4 Hw4. rewrite Hw3, Hw2 in Hw4. apply wp_settle; rewrite ?Hw4; [|done|intros; by apply wp_ret].
  pose proof (js_held _ _ Hso) as Hh. destruct (held_selection _ _ _ _ Hh Hl) as [[] _].
  eapply (sound_replaced (jw_job w) _ l s k); [done|done|done|done|by destruct Hso as [[] _ _ _]|].
  unfold JobInv.held in Hh |- *. rewrite Hl in Hh. cbn.
  match goal with |- context [l ++ ?x :: k] => set (s' := x) end.
  pose proof (contents_replace is_nfc _ _ l s k _ _ _ s' [] ∅ Hh) as Hnew.
  rewrite app_nil_r, (left_id_L ∅ (∪)) in Hnew. apply Hnew; clear Hnew; [done|done|..].
  - pose proof (zlen_nonneg (sel_issues s)). constructor; cbn; try done; try by constructor.
    rewrite zlen_nil. lia.
  - constructor.
  - set_solver.
  - by rewrite dom_empty_L.
  - pose proof (zlen_kept (other_root (sel_root_item_id s)) (cj_inventory (jw_job w))). destruct Hh. rewrite zlen_nil. lia.
Qed.

Lemma keeps_resolve root d w :
  job_inv (jw_job w) -> decision_allowed (jw_job w) root d -> keeps (resolve_source_decision root d) w.
Proof.
  intros Hj Hok. apply wp_bind, wp_ensure_mutable; [|auto]. intros Hs Hc. destruct (inv_mutable _ Hj) as [Hso Hm]; [done|done|].
  apply wp_bind, wp_selection_index; [|auto]. intros l s k Hl Hroot. apply wp_bind, (wp_selection_at l s k); [done|].
  apply wp_bind, wp_job_fail_if; [auto|]. intros Hneeded. destruct d as [p| | |]; cbn in Hneeded; rewrite ?andb_true_r in Hneeded.
  - by apply (keeps_reauthorize root p l s k).
  - bool_prop. apply wp_bind, wp_job_fail_if; [auto|]. intros [Hnone _]%orb_false_iff. apply wp_bind, wp_job_fail_if; [auto|]. intros _.
    apply wp_bind, (wp_modify_selection l s k); [done|]. intros w1 Hw1. apply wp_settle; rewrite ?Hw1; [|done|intros; by apply wp_ret].
    pose proof (js_held _ _ Hso) as Hh. destruct (held_selection _ _ _ _ Hh Hl) as [[] Hpath].
    eapply (sound_replaced (jw_job w) _ l s k); [done|done|done|done|by destruct Hso as [[] _ _ _]|].
    unfold JobInv.held in Hh |- *. rewrite Hl in Hh. cbn. eapply contents_change; [exact Hh|done|done|].
    destruct Hso as [[] _ _ _]. constructor; cbn; try done.
    + intros _ Hnil. rewrite Hnil in si_root0. bool_prop. done.
    + right. eexists. split; [done|]. destruct (sel_issues s) as [|i rest] eqn:Hi; [by destruct si_decision0|].
      rewrite zlen_cons in *. pose proof (zlen_nonneg rest). lia.
  - by apply (keeps_remove root l s k).
  - apply wp_bind, wp_modify_job. intros w1 Hw1. apply wp_bind, wp_bump_sound; rewrite Hw1; [by destruct Hso as [[] ? ? ?]|].
    intros w2 Hso2 Hlc Hsl _. apply wp_ret. split; [done|]. unfold lifecycle_inv. rewrite Hsl. cbn. destruct Hm as [-> _]. by left.
Qed.

Lemma keeps_cancel w : job_inv (jw_job w) -> cj_lifecycle (jw_job w) <> JobSealed -> keeps cancel w.
Proof.
  intros Hj Hs. apply wp_bind, wp_get_job. case_bool_decide as Hc; [by apply wp_ret|]. destruct (inv_mutable _ Hj) as [Hso Hm]; [done|done|].
  apply wp_bind, wp_modify_job. intros w1 Hw1. apply wp_bump_sound; rewrite Hw1; [by destruct Hso as [[] ? ? ?]|].
  intros w2 Hso2 Hlc Hsl _. split; [done|]. unfold lifecycle_inv. rewrite Hsl. cbn. destruct Hm as [-> _]. by left.
Qed.

(** *** The other ways to add a source *)

Lemma keeps_add_local_path p w :
  job_inv (jw_job w) -> p ∉ cj_cleanup_pending (jw_job w) -> keeps (add_local_path nfc is_nfc p) w.
Proof.
  intros Hj Hp. apply wp_bind, wp_job_pure; [|auto]. intros name Hn. apply keeps_add_local_source; [done|done|].
  unfold source_name in Hn. inv_ok. destruct (last p) as [raw|] eqn:?; [|done]. cbn in *. unfold from_utf8 in *.
  destruct (utf8_valid raw) eqn:Hv; [|done]. simplify_eq. by apply (nfc_utf8 (S := S)).
Qed.

Lemma keeps_add_staged_source p name origin w :
  job_inv (jw_job w) -> p ∉ cj_cleanup_pending (jw_job w) -> utf8_valid name = true ->
  keeps (add_staged_source nfc is_nfc p name origin) w.
Proof.
  intros Hj Hp Hu. apply wp_bind, wp_job_fail_if; [auto|]. intros _. apply wp_bind, wp_job_pure; [|auto]. intros _ _.
  apply keeps_add_local_source; [done|done|]. by apply (nfc_utf8 (S := S)).
Qed.

Lemma keeps_add_provider_path p name origin issues w :
  job_inv (jw_job w) -> p ∉ cj_cleanup_pending (jw_job w) -> utf8_valid name = true ->
  keeps (add_provider_path nfc is_nfc blake3 os_bytes hash_order id_tries p name origin issues) w.
Proof.
  intros Hj Hp Hu. apply wp_bind, wp_job_fail_if; [auto|]. intros _. apply wp_bind, wp_job_pure; [|auto]. intros provider _.
  apply wp_bind, wp_job_pure; [|auto]. intros _ _. apply wp_bind, wp_job_pure; [|auto]. intros _ _.
  apply wp_bind. eapply wp_mono; [apply keeps_add_local_source; [done|done|by apply (nfc_utf8 (S := S))]| |done].
  intros added w1 Hj1. destruct (folded_into_existing_selection added); [by apply wp_ret|].
  apply wp_bind. eapply wp_mono; [by apply keeps_prepare_selection| |done]. intros [] w2 [Hj2 Hm2].
  apply wp_bind. eapply wp_mono; [by apply keeps_attach_provider_issues| |done]. intros [] w3 Hj3. by apply wp_ret.
Qed.

Lemma keeps_reauthorize_provider root p issues w :
  job_inv (jw_job w) -> p ∉ cj_cleanup_pending (jw_job w) ->
  keeps (reauthorize_provider_source nfc is_nfc blake3 os_bytes hash_order id_tries root p issues) w.
Proof.
  intros Hj Hp. apply wp_bind, wp_selection_index; [|auto]. intros l s k Hl Hroot. apply wp_bind, (wp_selection_at l s k); [done|].
  apply wp_bind, wp_job_fail_if; [auto|]. intros _. apply wp_bind, wp_job_pure; [|auto]. intros provider _.
  apply wp_bind, wp_job_pure; [|auto]. intros _ _.
  apply wp_bind. eapply wp_mono; [by apply keeps_resolve| |done]. intros artifact w1 Hj1.
  apply wp_bind. eapply wp_mono; [by apply keeps_prepare_selection| |done]. intros [] w2 [Hj2 Hm2].
  by apply keeps_attach_provider_issues.
Qed.

(** *** Digests and sealing *)

Lemma wp_verify_fingerprint b (Q : unit -> JobWorld S -> Prop) w :
  job_inv (jw_job w) -> (forall w', jw_job w' = jw_job w -> Q tt w') -> wp (verify_fingerprint blake3 os_bytes b) Q fails_well w.
Proof.
  intros Hj HQ. apply wp_bind, wp_disk_io; [|eauto]. intros md w1 Hw1. apply wp_job_fail_if; eauto.
Qed.

Lemma keeps_hash_entry item w : job_inv (jw_job w) -> keeps (hash_entry blake3 os_bytes item) w.
Proof.
  intros Hj. apply wp_bind, wp_get_job, wp_bind, wp_job_fail_if; [auto|]. intros Hc. bool_prop.
  apply wp_bind, wp_job_pure; [|auto]. intros binding _. apply wp_bind, wp_job_pure; [|auto]. intros [index e] He%ok_or_ok.
  apply list_find_Some in He as (He & _). apply wp_bind, wp_job_fail_if; [auto|]. intros Hk. bool_prop.
  apply wp_bind, wp_verify_fingerprint; [done|]. intros w1 Hw1. apply wp_bind, wp_disk_io; [|intros; left; congruence]. intros bytes w2 Hw2.
  apply wp_bind, wp_verify_fingerprint; [congruence|]. intros w3 Hw3. rewrite Hw2, Hw1 in Hw3.
  apply wp_bind, wp_modify_job. intros w4 Hw4. rewrite Hw3 in Hw4. destruct Hj as [Hso Hlc].
  assert (Hso4 : job_sound (jw_job w4)).
  { rewrite Hw4. destruct Hso as [[] Hh Hr Ho]. constructor; cbn; [by constructor| |done|done]. eapply contents_hashed; [exact Hh|].
    apply list_elem_of_split_length in He as (l & k & -> & ->). rewrite alter_middle. apply Forall2_app; [|constructor].
    - apply hashed_refl.
    - right. split; [done|]. eexists. split; [apply blake3_digest|done].
    - apply hashed_refl. }
  apply wp_bind. case_bool_decide as Hsealed; cbn [negb].
  - apply wp_touch. intros w5 updated Hu Hw5. apply wp_ret. rewrite Hw5. split; [by apply sound_updated|].
    unfold lifecycle_inv, valid_sealed in *. rewrite Hw4. by cbn in *.
  - apply wp_bump_sound; [done|]. intros w5 Hso5 Hl5 Hs5 Hss5. apply wp_ret. split; [done|].
    rewrite Hw4 in Hl5, Hs5, Hss5. cbn in Hl5, Hs5, Hss5. unfold lifecycle_inv in *. rewrite Hs5, Hl5, Hss5.
    destruct (cj_sealed (jw_job w)); naive_solver.
Qed.

Lemma offer_rebuilt m offer bytes :
  build_manifest_offer_v2 is_nfc blake3 m = Ok offer -> encode_manifest_offer_v2 is_nfc blake3 (manifest offer) = Ok bytes ->
  manifest offer = m /\ build_manifest_offer_v2 is_nfc blake3 (manifest offer) = Ok offer.
Proof. unfold build_manifest_offer_v2 at 1. intros Hb _. inv_ok. cbn. split; [done|]. unfold build_manifest_offer_v2. by rewrite H0. Qed.

Lemma keeps_seal w : job_inv (jw_job w) -> keeps (seal_for_send is_nfc blake3) w.
Proof.
  intros Hj. apply wp_bind, wp_ensure_mutable; [|auto]. intros Hs Hc. destruct (inv_mutable _ Hj) as [Hso Hm]; [done|done|].
  apply wp_bind, wp_refresh. intros w1 Hw1. destruct (inv_refreshed _ Hso Hm) as [Hj1 Hm1]. rewrite <- Hw1 in Hj1, Hm1.
  apply wp_bind, wp_get_job, wp_bind. destruct (cj_lifecycle (jw_job w1)); try (apply wp_job_fail; auto).
  apply wp_ret, wp_bind, wp_job_pure; [|auto]. intros m Hman. apply wp_bind, wp_job_pure; [|auto]. intros offer Ho%map_err_ok.
  apply wp_bind, wp_job_pure; [|auto]. intros bytes Hb%map_err_ok. destruct (offer_rebuilt _ _ _ Ho Hb) as [Hoff Hre].
  apply wp_bind, wp_modify_job. intros w2 Hw2. apply wp_bind, wp_modify_job. intros w3 Hw3. rewrite Hw2 in Hw3.
  apply wp_bind, wp_touch. intros w4 updated Hu Hw4. rewrite Hw3 in Hu, Hw4. apply wp_ret. rewrite Hw4. destruct Hj1 as [Hso1 _]. split.
  - apply sound_updated; [|done]. by destruct Hso1 as [[] ? ? ?].
  - unfold lifecycle_inv. cbn. split; [done|]. unfold valid_sealed. cbn. rewrite Hoff in *.
    assert (job_id m = cj_job_id (jw_job w1) /\ generation m = cj_generation (jw_job w1) /\
      selection_revision m = cj_selection_revision (jw_job w1) /\ compression_policy m = cj_compression_policy (jw_job w1)) as (-> & -> & -> & ->).
    { unfold job_manifest_of in Hman. inv_ok. done. }
    rewrite !Z.eqb_refl, !bool_decide_eq_true_2 by done. cbn. rewrite Hre. cbn. rewrite Hoff, Hb. cbn.
    by rewrite !bool_decide_eq_true_2.
Qed.

(** *** The store *)

Context (job_to_vec : CanonicalTransferJob -> option (list byte)) (store_directory : path).

Lemma inv_cleanup j cl : job_inv j -> cl ⊆ cj_cleanup_pending j -> job_inv (set_cleanup cl j).
Proof.
  intros [[[] Hh Hr Ho] Hl] Hcl. split; [|done]. constructor; cbn; [by constructor| |done|done].
  destruct Hh as [? ? ? ? ? ? ? Hc]. constructor; try done. eapply Forall_impl; [exact Hc|]. intros s Hs Hin. apply Hs. by apply Hcl.
Qed.

Lemma wp_job_save (Q : unit -> JobWorld S -> Prop) w :
  job_inv (jw_job w) -> (forall w', jw_job w' = jw_job w -> Q tt w') -> wp (job_save is_nfc blake3 job_to_vec) Q fails_well w.
Proof.
  intros Hj HQ. apply wp_bind, wp_get_job, wp_bind, wp_job_pure; [|auto]. intros _ _. unfold wp, write_job.
  destruct (default NoFault _), (job_to_vec (jw_job w)); (by left) || by apply HQ.
Qed.

Lemma keeps_release_artifact p w : job_inv (jw_job w) -> keeps (release_artifact is_nfc blake3 job_to_vec store_directory p) w.
Proof.
  intros Hj. apply wp_bind, wp_get_job, wp_bind, wp_bind, wp_job_fail_if; [auto|]. intros _. apply wp_bind, wp_job_fail_if; [auto|]. intros _.
  apply wp_bind. unfold note_removal, wp at 1. apply wp_bind, wp_disk. intros r w1 Hw1. cbn in Hw1.
  assert (Hcont : keeps (_ ← modify_job (fun j => set_cleanup (filter (fun q => q <> p) (cj_cleanup_pending j)) j);
    job_save is_nfc blake3 job_to_vec) w1).
  { apply wp_bind, wp_modify_job. intros w2 Hw2. rewrite Hw1 in Hw2. assert (job_inv (jw_job w2)).
    { rewrite Hw2. apply inv_cleanup; [done|]. intros q [_ Hq]%list_elem_of_filter. done. }
    apply wp_job_save; [done|]. by intros w3 ->. }
  destruct r as [|[]]; try (apply wp_ret; exact Hcont); apply wp_job_fail; eauto.
Qed.

Lemma keeps_release_artifacts ps w : job_inv (jw_job w) -> keeps (release_artifacts is_nfc blake3 job_to_vec store_directory ps) w.
Proof.
  revert w. induction ps as [|p ps IH]; intros w Hj; [by apply wp_ret|].
  apply wp_bind. eapply wp_mono; [by apply keeps_release_artifact| |done]. intros [] w' Hj'. by apply IH.
Qed.

Lemma keeps_apply_decision root d w :
  job_inv (jw_job w) -> decision_allowed (jw_job w) root d ->
  keeps (apply_source_decision is_nfc blake3 job_to_vec store_directory root d) w.
Proof.
  intros Hj Hd. apply wp_bind. eapply wp_mono; [by apply keeps_resolve| |done]. intros artifact w1 Hj1.
  apply wp_bind, wp_job_save; [done|]. intros w2 Hw2. destruct artifact; [|apply wp_ret; congruence].
  apply keeps_release_artifact. congruence.
Qed.

(** No name that may be drawn is that of a file to be cleaned up. *)
Definition names_free w : Prop :=
  Forall (fun name => forall bytes, name = Some bytes ->
    staging_directory store_directory (cj_job_id (jw_job w)) ++ [encode_job_id bytes] ∉ cj_cleanup_pending (jw_job w)) (jw_entropy w).

Lemma wp_stage_copy tries p (Q : path -> JobWorld S -> Prop) w :
  job_inv (jw_job w) -> names_free w ->
  (forall staged w', jw_job w' = jw_job w -> staged ∉ cj_cleanup_pending (jw_job w) -> Q staged w') ->
  wp (stage_copy store_directory tries p) Q fails_well w.
Proof.
  revert w. induction tries as [|tries IH]; intros w Hj Hn HQ; [apply wp_job_fail; auto|].
  apply wp_bind. unfold job_random, wp at 1. apply wp_bind, wp_job_pure; [|eauto]. intros name Hname%ok_or_ok.
  apply wp_bind, wp_get_job, wp_bind. set (w1 := mkJobWorld _ _ _ _ _ _ _). cbn [jw_job w1].
  assert (Hhead : staging_directory store_directory (cj_job_id (jw_job w)) ++ [encode_job_id name] ∉ cj_cleanup_pending (jw_job w)).
  { unfold names_free in Hn. destruct (jw_entropy w) as [|o rest]; [done|]. apply Forall_cons in Hn as [Ho _]. apply Ho. exact Hname. }
  assert (Hn1 : names_free w1).
  { unfold names_free in *. cbn. destruct (jw_entropy w); [constructor|]. by apply Forall_cons in Hn as [_ ?]. }
  unfold wp, on_disk. destruct (copy_new_file _ _ _) as [d []]; cbn.
  - by apply HQ.
  - by apply IH.
  - by left.
  - unfold mbind, proc_bind, on_disk. cbn. destruct (remove_file _ _). by left.
Qed.

Lemma keeps_import p name origin w :
  job_inv (jw_job w) -> names_free w -> utf8_valid name = true ->
  keeps (import_staged_file nfc is_nfc store_directory p name origin) w.
Proof.
  intros Hj Hn Hu. apply wp_bind, wp_job_fail_if; [auto|]. intros _. apply wp_bind, wp_job_pure; [|auto]. intros _ _.
  apply wp_bind, wp_bind, wp_on_disk. intros d r _. apply wp_job_pure; [|eauto]. intros md _.
  apply wp_bind, wp_job_fail_if; [eauto|]. intros _. apply wp_bind, wp_get_job, wp_bind, wp_bind, wp_on_disk. intros d' r' _.
  apply wp_job_pure; [|eauto]. intros _ _. apply wp_bind. unfold entropy_left, wp at 1.
  apply wp_bind, wp_stage_copy; [done|done|]. intros staged w1 Hw1 Hfree. cbn in Hw1, Hfree.
  apply wp_bind, wp_attempt. eapply wp_mono.
  - apply keeps_add_staged_source; [by rewrite Hw1|by rewrite Hw1|by apply (nfc_utf8 (S := S))].
  - intros added w2 Hj2. by apply wp_ret.
  - intros err w2 Hf2. apply wp_bind, wp_disk. intros r2 w3 Hw3. apply wp_throw. destruct Hf2; [left; congruence|by right].
Qed.

(** *** Any sequence of operations *)

Definition run_op (op : JobOp) : M unit :=
  match op with
  | OpSetPolicy policy => set_compression_policy policy
  | OpAddLocal p => _ ← add_local_path nfc is_nfc p; mret tt
  | OpAddProvider p name origin issues =>
    _ ← add_provider_path nfc is_nfc blake3 os_bytes hash_order id_tries p name origin issues; mret tt
  | OpImportStaged p name origin => _ ← import_staged_file nfc is_nfc store_directory p name origin; mret tt
  | OpReauthorizeProvider root p issues =>
    reauthorize_provider_source nfc is_nfc blake3 os_bytes hash_order id_tries root p issues
  | OpPrepare root => prepare_selection nfc is_nfc blake3 os_bytes hash_order id_tries root
  | OpPrepareAll => prepare_all nfc is_nfc blake3 os_bytes hash_order id_tries
  | OpDecide root d => _ ← resolve_source_decision root d; mret tt
  | OpApplyDecision root d => apply_source_decision is_nfc blake3 job_to_vec store_directory root d
  | OpReconcileCleanup => reconcile_pending_cleanup is_nfc blake3 job_to_vec store_directory
  | OpCancel => cancel
  | OpHash item => _ ← hash_entry blake3 os_bytes item; mret tt
  | OpSeal => _ ← seal_for_send is_nfc blake3; mret tt
  | OpSave => job_save is_nfc blake3 job_to_vec
  end.

(** A call that the job can follow: strings are Unicode, a path that is to be cleaned up
    does not become a source, a staged selection that is removed shares its path with no
    other, and a sealed job is not canceled. *)
Definition op_allowed (op : JobOp) w : Prop :=
  match op with
  | OpAddLocal p | OpReauthorizeProvider _ p _ => p ∉ cj_cleanup_pending (jw_job w)
  | OpAddProvider p name _ _ => p ∉ cj_cleanup_pending (jw_job w) /\ utf8_valid name = true
  | OpImportStaged _ name _ => names_free w /\ utf8_valid name = true
  | OpDecide root d | OpApplyDecision root d => decision_allowed (jw_job w) root d
  | OpCancel => cj_lifecycle (jw_job w) <> JobSealed
  | _ => True
  end.

Lemma keeps_tt {A} (m : M A) w : keeps m w -> keeps (_ ← m; mret tt) w.
Proof. intros Hm. apply wp_bind. eapply wp_mono; [exact Hm| |done]. intros a w' Hj. by apply wp_ret. Qed.

Lemma keeps_op op w : job_inv (jw_job w) -> op_allowed op w -> keeps (run_op op) w.
Proof.
  intros Hj Hok. destruct op; cbn in Hok |- *; try apply keeps_tt.
  - by apply keeps_set_compression_policy.
  - by apply keeps_add_local_path.
  - destruct Hok. by apply keeps_add_provider_path.
  - destruct Hok. by apply keeps_import.
  - by apply keeps_reauthorize_provider.
  - eapply wp_mono; [by apply keeps_prepare_selection| |done]. by intros [] w' [? _].
  - by apply keeps_prepare_all.
  - by apply keeps_resolve.
  - by apply keeps_apply_decision.
  - apply wp_bind, wp_get_job. by apply keeps_release_artifacts.
  - by apply keeps_cancel.
  - by apply keeps_hash_entry.
  - by apply keeps_seal.
  - apply wp_job_save; [done|]. by intros w' ->.
Qed.

(** The worlds in which a job can be: after it was made, after an operation that
    returned or failed for want of something else than a counter, and after anything
    that leaves the job alone. *)
Inductive job_runs : JobWorld S -> Prop :=
| runs_new policy entropy now w :
    job_new policy entropy now = Ok (jw_job w) -> 0 < now -> (forall bytes, entropy = Some bytes -> wf_job_id bytes = true) ->
    job_runs w
| runs_op op w w' r :
    job_runs w -> op_allowed op w -> run_op op w = (w', r) -> (forall err, r = Err err -> ~ exhausted err) -> job_runs w'
| runs_around w w' : job_runs w -> jw_job w' = jw_job w -> job_runs w'.

Lemma job_runs_inv w : job_runs w -> job_inv (jw_job w).
Proof.
  induction 1 as [policy entropy now w Hnew Hnow Hlen|op w w' r _ Hj Hok Hrun Herr|w w' _ Hj Hw].
  - by eapply job_new_inv.
  - pose proof (keeps_op op w Hj Hok) as Hk. unfold keeps, wp in Hk. rewrite Hrun in Hk.
    destruct r as [|err]; [done|]. destruct Hk as [|Hex]; [done|]. by destruct (Herr err).
  - by rewrite Hw.
Qed.
End Operations.

(** C6. A job that came about by [CanonicalTransferJob::new], at a clock past zero, and
    the operations of the job and its store that [op_allowed] lets through, in any order
    and whatever the disk, the later clock and the entropy source answered them, passes
    [validate_durable]: the store never refuses to save it.  This also holds after an
    operation that failed, unless a 64-bit counter was used up or the search for a free
    id did not end in the tries it was given.  [op_allowed] keeps out: names that are not
    Unicode; a source that is added, reauthorized or staged under a freshly drawn name at
    a path that is pending cleanup; the removal of a staged selection whose path another
    selection has too; and the cancellation of a sealed job, after which C39 shows that
    the store does refuse. *)
Theorem job_stays_durable nfc is_nfc blake3 os_bytes hash_order id_tries {S : Type} `{SourceDisk S}
    job_to_vec store_directory (w : JobWorld S) :
  SourceDiskLaws S nfc -> (forall bytes, wf_digest (blake3 bytes) = true) ->
  job_runs nfc is_nfc blake3 os_bytes hash_order id_tries job_to_vec store_directory w ->
  validate_durable is_nfc blake3 (jw_job w) = Ok tt.
Proof. intros Hlaws Hb Hw. eapply job_inv_durable, job_runs_inv; [exact Hlaws|exact Hb|exact Hw]. Qed.
