(* ===== verification/JobSeal.v ===== *)
(** Sealing a transfer job (job.rs, [seal_for_send]): a job that is ready becomes a valid
    manifest that lists its inventory, and the source of every file entry is found again. *)

From stdpp Require Import prelude gmap strings sorting.
From Stdlib Require Import ZArith Lia Strings.Byte.
From S2P Require Import Prelude Bytes ManifestV2 Traversal ManifestSpec ValidateProof ValidateTheorem OfferCodec OfferProof Frames FramesProof Delivery Ledger Proc LocalFs Job JobWalk JobInv.

Local Open Scope Z_scope.

Implicit Types (e : PreparedInventoryEntry) (es done : list PreparedInventoryEntry) (j : CanonicalTransferJob).

(** ** Sorted lists *)

Lemma sorted_seq (R : nat -> nat -> Prop) a n :
  (forall x y, (x < y)%nat -> (y < a + n)%nat -> R x y) -> StronglySorted R (seq a n).
Proof.
  revert a. induction n as [|n IH]; intros a HR; cbn; [constructor|]. constructor.
  - apply IH. intros x y Hxy Hy. apply HR; lia.
  - rewrite Forall_forall. intros y Hy%elem_of_seq. apply HR; lia.
Qed.

Lemma sorted_lookup {A} (R : A -> A -> Prop) l i k x y :
  StronglySorted R l -> l !! i = Some x -> l !! k = Some y -> (i < k)%nat -> R x y.
Proof.
  intros Hs. revert i k. induction Hs as [|z l Hl IH Hz]; intros i k Hi Hk Hlt; [done|].
  destruct i as [|i], k as [|k]; try lia; cbn in Hi, Hk.
  - injection Hi as ->. rewrite Forall_forall in Hz. apply Hz. by eapply list_elem_of_lookup_2.
  - eapply IH; [exact Hi|exact Hk|lia].
Qed.

(** ** What sealing makes of an entry *)

(** The entry of a manifest for the [i]-th of the entries [es]. *)
Definition sealed_as es (rid : Z) (i : nat) e (me : ManifestEntryV2) : Prop :=
  exists parent, me = mkEntry (Z.of_nat i) rid parent (pie_name e) (pie_kind e) (pie_plaintext_size e)
      match pie_digest e with Some d => Known d | None => Deferred end /\
    match pie_parent_item_id e with
    | None => parent = None
    | Some p => exists k e', parent = Some (Z.of_nat k) /\ (k < i)%nat /\ es !! k = Some e' /\ pie_item_id e' = p
    end.

Lemma sealed_as_app es es' rid i e me : sealed_as es rid i e me -> sealed_as (es ++ es') rid i e me.
Proof.
  intros (parent & -> & Hp). exists parent. split; [done|]. destruct (pie_parent_item_id e); [|done].
  destruct Hp as (k & e' & ? & ? & Hk & ?). exists k, e'. split; [done|]. split; [done|]. split; [|done]. by apply lookup_app_l_Some.
Qed.

(** The map that the loop keeps. *)
Definition indexes done (item_to_entry : gmap SourceItemId Z) : Prop :=
  forall i e, done !! i = Some e -> item_to_entry !! pie_item_id e = Some (Z.of_nat i).

Lemma indexes_snoc done e item_to_entry :
  indexes done item_to_entry -> NoDup (pie_item_id <$> done ++ [e]) ->
  indexes (done ++ [e]) (<[pie_item_id e := Z.of_nat (length done)]> item_to_entry).
Proof.
  intros Hi Hnd i e' [Hl|[Hge Hl]]%lookup_app_Some.
  - rewrite lookup_insert_ne; [by apply Hi|]. intros Heq. rewrite fmap_app in Hnd. apply NoDup_app in Hnd as (_ & Hnd & _).
    apply (Hnd (pie_item_id e')); [apply list_elem_of_fmap_2; by eapply list_elem_of_lookup_2|]. rewrite <- Heq. left.
  - apply list_lookup_singleton_Some in Hl as [Hz ->]. rewrite lookup_insert_eq. f_equal. lia.
Qed.

Lemma seal_entries_ok rid es done sealed item_to_entry :
  length sealed = length done -> indexes done item_to_entry -> NoDup (pie_item_id <$> done ++ es) ->
  zlen (done ++ es) <= MAX_MANIFEST_V2_ENTRIES ->
  (forall l e k p, es = l ++ e :: k -> pie_parent_item_id e = Some p -> p ∈ pie_item_id <$> done ++ l) ->
  exists new item_to_entry', seal_entries rid es sealed item_to_entry = Ok (sealed ++ new, item_to_entry') /\
    length new = length es /\ indexes (done ++ es) item_to_entry' /\
    forall i e, es !! i = Some e -> exists me, new !! i = Some me /\ sealed_as (done ++ es) rid (length done + i) e me.
Proof.
  revert done sealed item_to_entry. induction es as [|e es IH]; intros done sealed m Hlen Hi Hnd Hmax Hpar.
  - exists [], m. rewrite !app_nil_r. by repeat split.
  - assert (Heid : as_u32 (zlen sealed) = Z.of_nat (length done)).
    { unfold zlen in *. rewrite Hlen. rewrite length_app in Hmax. unfold MAX_MANIFEST_V2_ENTRIES in Hmax. apply as_u32_small. unfold u32_max. lia. }
    assert (Hp : exists parent, match pie_parent_item_id e with
        | None => Ok None
        | Some p => eid ← ok_or (JE_InvalidRecord "canonical inventory parent appears after its child") (m !! p); Ok (Some eid)
        end = Ok parent /\ sealed_as (done ++ [e]) rid (length done) e
          (mkEntry (Z.of_nat (length done)) rid parent (pie_name e) (pie_kind e) (pie_plaintext_size e)
             match pie_digest e with Some d => Known d | None => Deferred end)).
    { destruct (pie_parent_item_id e) as [p|] eqn:Hpe.
      - specialize (Hpar [] e es p eq_refl Hpe). rewrite app_nil_r in Hpar. apply list_elem_of_fmap in Hpar as (e' & -> & Hin).
        apply list_elem_of_lookup in Hin as [k Hk]. rewrite (Hi _ _ Hk). exists (Some (Z.of_nat k)). split; [done|].
        eexists. split; [done|]. rewrite Hpe. exists k, e'. split; [done|]. split; [by apply lookup_lt_Some in Hk|].
        split; [by apply lookup_app_l_Some|done].
      - exists None. split; [done|]. eexists. split; [done|]. by rewrite Hpe. }
    destruct Hp as (parent & Hparent & Hself). set (me := mkEntry _ _ _ _ _ _ _) in Hself.
    rewrite cons_middle, app_assoc in Hnd, Hmax.
    destruct (IH (done ++ [e]) (sealed ++ [me]) (<[pie_item_id e := Z.of_nat (length done)]> m)) as (new & m' & Hrun & Hln & Hi' & Hnew).
    + by rewrite !length_app, Hlen.
    + apply indexes_snoc; [done|]. rewrite fmap_app in Hnd. by apply NoDup_app in Hnd as [? _].
    + done.
    + done.
    + intros l e0 k p -> Hp0. rewrite <- app_assoc. apply (Hpar (e :: l) e0 k p); done.
    + exists (me :: new), m'. cbn [seal_entries]. rewrite Heid, Hparent. cbn [mbind result_bind].
      fold me. rewrite Hrun, <- app_assoc. rewrite <- app_assoc in Hi', Hnew. split; [done|]. split; [by cbn; rewrite Hln|]. split; [done|].
      intros [|i] e0 He0; cbn in He0.
      * injection He0 as <-. exists me. split; [done|]. rewrite Nat.add_0_r, cons_middle, app_assoc. by apply sealed_as_app.
      * destruct (Hnew i e0 He0) as (me0 & Hme0 & Hs). exists me0. split; [done|]. rewrite length_app in Hs. cbn in Hs.
        by replace (length done + S i)%nat with (length done + 1 + i)%nat by lia.
Qed.

(** ** The loop over the roots *)

Section Roots.
Context (is_nfc : str -> bool) (j : CanonicalTransferJob).

Definition bucket (s : SourceSelection) : list PreparedInventoryEntry := root_entries j (sel_root_item_id s).
Definition buckets (ss : list SourceSelection) : list PreparedInventoryEntry := concat (map bucket ss).

Lemma listing_parents root name es l e k p :
  listing is_nfc root name es -> es = l ++ e :: k -> pie_parent_item_id e = Some p -> p ∈ pie_item_id <$> l.
Proof.
  intros Hl -> Hp. apply listing_middle in Hl as [(_ & Hn & _)|(_ & (e0 & name0 & He0 & _ & Heq & _) & _)]; [congruence|].
  rewrite Hp in Heq. injection Heq as ->. by apply list_elem_of_fmap_2.
Qed.

Lemma seal_roots_ok ss n roots sealed item_to_entry done :
  length sealed = length done -> indexes done item_to_entry -> NoDup (pie_item_id <$> done ++ buckets ss) ->
  zlen (done ++ buckets ss) <= MAX_MANIFEST_V2_ENTRIES -> Z.of_nat (n + length ss) <= MAX_MANIFEST_V2_ROOTS ->
  (forall s, s ∈ ss -> exists name, listing is_nfc (sel_root_item_id s) name (bucket s)) ->
  exists rs new, seal_roots j n ss roots sealed item_to_entry = Ok (roots ++ rs, sealed ++ new) /\
    length rs = length ss /\ length new = length (buckets ss) /\
    forall i s, ss !! i = Some s -> let before := (length (done ++ buckets (take i ss)))%nat in
      rs !! i = Some (mkRoot (Z.of_nat (n + i)) (Z.of_nat before) (sel_requested_name s) (sel_completeness s)) /\
      forall k e, bucket s !! k = Some e ->
        exists me, (sealed ++ new) !! (before + k)%nat = Some me /\ sealed_as (done ++ buckets ss) (Z.of_nat (n + i)) (before + k) e me.
Proof.
  revert n roots sealed item_to_entry done. induction ss as [|s ss IH]; intros n roots sealed m done Hlen Hi Hnd Hmax Hroots Hls.
  - exists [], []. cbn. by rewrite !app_nil_r.
  - assert (Hbs : done ++ buckets (s :: ss) = (done ++ bucket s) ++ buckets ss) by (cbn; by rewrite <- app_assoc).
    rewrite Hbs in Hnd, Hmax. destruct (Hls s ltac:(left)) as [name Hl].
    assert (Hrid : as_u32 (Z.of_nat n) = Z.of_nat n).
    { apply as_u32_small. unfold MAX_MANIFEST_V2_ROOTS in Hroots. cbn in Hroots. unfold u32_max. lia. }
    assert (Hrei : as_u32 (zlen sealed) = Z.of_nat (length done)).
    { unfold zlen in *. rewrite Hlen. rewrite !length_app in Hmax. unfold MAX_MANIFEST_V2_ENTRIES in Hmax. apply as_u32_small. unfold u32_max. lia. }
    destruct (seal_entries_ok (Z.of_nat n) (bucket s) done sealed m) as (new & m' & Hrun & Hln & Hi' & Hnew); [done|done| | |..].
    { rewrite fmap_app in Hnd. by apply NoDup_app in Hnd as [? _]. }
    { rewrite zlen_app in Hmax. pose proof (zlen_nonneg (buckets ss)). lia. }
    { intros l e k p Heq Hp. rewrite fmap_app. apply elem_of_app. right. by eapply listing_parents. }
    destruct (IH (S n) (roots ++ [mkRoot (Z.of_nat n) (Z.of_nat (length done)) (sel_requested_name s) (sel_completeness s)])
      (sealed ++ new) m' (done ++ bucket s)) as (rs & new' & Hrun' & Hlr & Hln' & Hall); [|done|done|done| | |].
    { by rewrite !length_app, Hlen, Hln. }
    { cbn in Hroots. lia. }
    { intros s0 Hs0. apply Hls. by right. }
    eexists (_ :: rs), (new ++ new'). cbn [seal_roots]. rewrite Hrid, Hrei. fold (bucket s). rewrite Hrun. cbn [mbind result_bind].
    rewrite Hrun', <- !app_assoc. split; [done|]. split; [cbn; by rewrite Hlr|]. split; [cbn; rewrite !length_app; unfold buckets in Hln'; lia|].
    intros [|i] s0 Hs0; cbn in Hs0.
    + injection Hs0 as <-. cbn. rewrite app_nil_r, Nat.add_0_r. split; [done|]. intros k e Hk.
      destruct (Hnew k e Hk) as (me & Hme & Hsa). exists me. rewrite app_assoc. split.
      * apply lookup_app_l_Some. rewrite lookup_app_r by lia. rewrite <- Hme. f_equal. lia.
      * rewrite app_assoc. by apply sealed_as_app.
    + destruct (Hall i s0 Hs0) as [Hr Hes]. rewrite app_assoc.
      assert (Hbefore : done ++ buckets (take (S i) (s :: ss)) = (done ++ bucket s) ++ buckets (take i ss)) by (cbn; by rewrite <- app_assoc).
      cbn zeta. rewrite Hbefore, Hbs. split.
      * transitivity (rs !! i); [done|]. rewrite Hr. do 2 f_equal. lia.
      * intros k e Hk. destruct (Hes k e Hk) as (me & Hme & Hsa). exists me. split; [done|].
        by replace (n + S i)%nat with (S n + i)%nat by lia.
Qed.
End Roots.

(** ** Positions *)

Section Positions.
Context (j : CanonicalTransferJob).
Implicit Types (ss : list SourceSelection).
Local Notation bucket := (bucket j).
Local Notation buckets := (buckets j).

(** The number of entries before those of the [i]-th selection. *)
Definition before ss (i : nat) : nat := length (buckets (take i ss)).

Lemma buckets_app ss ss' : buckets (ss ++ ss') = buckets ss ++ buckets ss'.
Proof. unfold buckets. by rewrite map_app, concat_app. Qed.

Lemma buckets_lookup ss x e :
  buckets ss !! x = Some e <-> exists i s k, ss !! i = Some s /\ bucket s !! k = Some e /\ x = (before ss i + k)%nat.
Proof.
  unfold before. revert x. induction ss as [|s ss IH]; intros x; cbn.
  - split; [done|]. intros (i & s & k & Hi & _). by destruct i.
  - fold (buckets ss). rewrite lookup_app_Some. split.
    + intros [Hx|[Hge (i & s' & k & Hi & Hk & Hx)%IH]].
      * by exists O, s, x.
      * exists (S i), s', k. split; [done|]. split; [done|]. cbn. fold (buckets (take i ss)). rewrite length_app. lia.
    + intros (i & s' & k & Hi & Hk & ->). destruct i as [|i]; cbn in Hi.
      * injection Hi as <-. cbn. by left.
      * right. cbn. fold (buckets (take i ss)). rewrite length_app. split; [lia|]. apply IH. exists i, s', k.
        split; [done|]. split; [done|]. lia.
Qed.

Lemma before_S ss i s : ss !! i = Some s -> before ss (S i) = (before ss i + length (bucket s))%nat.
Proof. intros Hi. unfold before. rewrite (take_S_r _ _ _ Hi), buckets_app, length_app. cbn. by rewrite app_nil_r. Qed.

Lemma before_mono ss i i' : (i <= i')%nat -> (before ss i <= before ss i')%nat.
Proof.
  intros Hle. unfold before. rewrite <- (take_drop i (take i' ss)), buckets_app, length_app, take_take, Nat.min_l by done. lia.
Qed.

(** The selection and the entry at a position are determined by it. *)
Lemma position_order ss i s k e i' s' k' e' :
  ss !! i = Some s -> bucket s !! k = Some e -> ss !! i' = Some s' -> bucket s' !! k' = Some e' ->
  (before ss i + k < before ss i' + k')%nat -> (i < i')%nat \/ i = i' /\ (k < k')%nat.
Proof.
  intros Hi Hk Hi' Hk' Hlt. destruct (Nat.lt_trichotomy i i') as [?|[->|Hgt]]; [by left|right; split; [done|lia]|].
  apply lookup_lt_Some in Hk'. pose proof (before_S ss i' s' Hi'). pose proof (before_mono ss (S i') i ltac:(lia)). lia.
Qed.
End Positions.

(** The entries of the roots are the inventory, in another order. *)
Lemma buckets_perm j ss :
  NoDup (sel_root_item_id <$> ss) -> Forall (fun e => pie_root_item_id e ∈ sel_root_item_id <$> ss) (cj_inventory j) ->
  buckets j ss ≡ₚ cj_inventory j.
Proof.
  unfold buckets, bucket, root_entries. generalize (cj_inventory j). induction ss as [|s ss IH]; intros inv Hnd Hin; cbn.
  - destruct inv as [|e inv]; [done|]. apply Forall_cons in Hin as [Hin _]. set_solver.
  - cbn in Hnd. apply NoDup_cons in Hnd as [Hs Hnd].
    rewrite <- (filter_app_complement (fun e => pie_root_item_id e = sel_root_item_id s) inv) at 2. apply Permutation_app_head.
    rewrite <- (IH (filter (fun e => ~ pie_root_item_id e = sel_root_item_id s) inv)); [|done|].
    + match goal with |- ?a ≡ₚ ?b => enough (a = b) as -> by done end.
      f_equal. apply map_ext_in. intros s' Hs'%list_elem_of_In. symmetry. apply list_filter_filter_l.
      intros e Heq Heq'. apply Hs. rewrite <- Heq', Heq. by apply list_elem_of_fmap_2.
    + rewrite Forall_forall in Hin |- *. intros e [Hne He]%list_elem_of_filter. specialize (Hin e He). set_solver.
Qed.

(** ** Totals *)

Definition weight (f : ManifestEntryKindV2 -> Z -> Z) es : Z :=
  foldr (fun e n => f (pie_kind e) (pie_plaintext_size e) + n) 0 es.
Definition one_file (k : ManifestEntryKindV2) (size : Z) : Z := match k with RegularFile => 1 | Directory => 0 end.
Definition one_directory (k : ManifestEntryKindV2) (size : Z) : Z := match k with RegularFile => 0 | Directory => 1 end.
Definition file_bytes (k : ManifestEntryKindV2) (size : Z) : Z := match k with RegularFile => size | Directory => 0 end.

(** The bytes of all files of a job. *)
Definition job_bytes j : Z := weight file_bytes (cj_inventory j).

Lemma weight_perm f es es' : es ≡ₚ es' -> weight f es = weight f es'.
Proof. unfold weight. induction 1; cbn; lia. Qed.

Lemma weight_nonneg f es : Forall (fun e => 0 <= f (pie_kind e) (pie_plaintext_size e)) es -> 0 <= weight f es.
Proof. unfold weight. induction 1; cbn; lia. Qed.

Lemma weight_count es : 0 <= weight one_file es /\ 0 <= weight one_directory es /\ weight one_file es + weight one_directory es = zlen es.
Proof. unfold weight. induction es as [|e es IH]; cbn; [done|]. rewrite zlen_cons. destruct (pie_kind e); cbn; lia. Qed.

Lemma summary_counts es summary :
  Forall (fun e => 0 <= pie_plaintext_size e) es -> 
  0 <= is_file_count summary -> 0 <= is_directory_count summary -> 0 <= is_total_plaintext_bytes summary ->
  is_file_count summary + weight one_file es <= u32_max -> is_directory_count summary + weight one_directory es <= u32_max ->
  is_total_plaintext_bytes summary + weight file_bytes es <= u64_max ->
  let final := foldl (fun summary e => count_item e summary) summary es in
  is_file_count final = is_file_count summary + weight one_file es /\
  is_directory_count final = is_directory_count summary + weight one_directory es /\
  is_total_plaintext_bytes final = is_total_plaintext_bytes summary + weight file_bytes es.
Proof.
  cbn zeta. revert summary. induction es as [|e es IH]; intros summary Hsize Hf Hd Hb Hf' Hd' Hb'; cbn [foldl].
  - cbn. lia.
  - apply Forall_cons in Hsize as [He Hsize]. pose proof (weight_count es) as (? & ? & _).
    assert (0 <= weight file_bytes es).
    { apply weight_nonneg. eapply Forall_impl; [exact Hsize|]. intros e0 He0. by destruct (pie_kind e0). }
    destruct (IH (count_item e summary)) as (-> & -> & ->); unfold weight in *; cbn in Hf', Hd', Hb' |- *;
      unfold count_item; destruct (pie_kind e); cbn in Hf', Hd', Hb' |- *; done || lia.
Qed.

(** ** Names *)

(** The two checks of a name, of jobs and of manifests, agree. *)
Lemma source_component_safe is_nfc c : validate_source_component is_nfc c = Ok tt <-> safe_component is_nfc c.
Proof.
  rewrite <- validate_component_ok. unfold validate_source_component, validate_component.
  do 3 (case_bool_decide; [done|]). cbn [orb]. destruct (_ <? _); [done|]. destruct (existsb _ _); [done|]. by destruct (is_nfc c).
Qed.

(** ** The manifest of a ready job *)

(** The manifest [m] has a root for every selection and an entry for every entry of the
    inventory, root by root. *)
Record manifest_of j (m : ManifestV2) : Prop := {
  mo_identity : job_id m = cj_job_id j /\ generation m = cj_generation j /\ selection_revision m = cj_selection_revision j /\
    compression_policy m = cj_compression_policy j;
  mo_roots : length (roots m) = length (cj_selections j);
  mo_entries : length (entries m) = length (sealed_order j);
  mo_root i s : cj_selections j !! i = Some s ->
    roots m !! i = Some (mkRoot (Z.of_nat i) (Z.of_nat (before j (cj_selections j) i)) (sel_requested_name s) (sel_completeness s));
  mo_entry i s k e : cj_selections j !! i = Some s -> bucket j s !! k = Some e ->
    exists me, entries m !! (before j (cj_selections j) i + k)%nat = Some me /\
      sealed_as (sealed_order j) (Z.of_nat i) (before j (cj_selections j) i + k) e me;
  mo_totals : totals m = mkTotals (is_file_count (inventory_summary j)) (is_directory_count (inventory_summary j))
                           (is_total_plaintext_bytes (inventory_summary j));
}.

Section Ready.
Context (is_nfc : str -> bool) (j : CanonicalTransferJob).
Context (Hsound : job_sound is_nfc j).
Local Notation ss := (cj_selections j).
Local Notation order := (sealed_order j).

Lemma sound_order_perm : order ≡ₚ cj_inventory j.
Proof. destruct Hsound as [_ [] _ _]. by apply buckets_perm. Qed.

Lemma sound_order_ids : NoDup (pie_item_id <$> order).
Proof. destruct Hsound as [_ [] _ _]. by rewrite sound_order_perm. Qed.

Lemma sound_order_bound : zlen order <= MAX_MANIFEST_V2_ENTRIES.
Proof. destruct Hsound as [_ [] _ _]. unfold zlen in *. by rewrite (Permutation_length sound_order_perm). Qed.

Lemma sound_bucket i s : ss !! i = Some s -> selection_inv is_nfc (cj_next_issue_id j) (bucket j s) s.
Proof.
  intros Hi%list_elem_of_lookup_2. destruct Hsound as [_ [_ _ _ _ Hs _ _ _] _ _]. rewrite Forall_forall in Hs. by apply Hs.
Qed.

Lemma job_manifest_ok : exists m, job_manifest_of j = Ok m /\ manifest_of j m.
Proof.
  destruct (seal_roots_ok is_nfc j ss 0 [] [] ∅ []) as (rs & new & Hrun & Hlr & Hln & Hall).
  - done.
  - intros i e Hi. done.
  - apply sound_order_ids.
  - apply sound_order_bound.
  - apply Hsound.
  - intros s [i Hi]%list_elem_of_lookup. eexists. apply (si_listing _ _ _ _ (sound_bucket i s Hi)).
  - eexists. split; [unfold job_manifest_of; rewrite Hrun; reflexivity|]. constructor; cbn; try done.
    + intros i s Hi. by apply Hall in Hi as [? _].
    + intros i s k e Hi Hk. apply Hall in Hi as [_ He]. by apply He.
Qed.

Lemma order_shape x e : order !! x = Some e -> exists root, entry_shape is_nfc root e.
Proof.
  intros (i & s & k & Hi & Hk%list_elem_of_lookup_2 & _)%buckets_lookup. exists (sel_root_item_id s).
  pose proof (listing_shape _ _ _ _ (si_listing _ _ _ _ (sound_bucket i s Hi))) as Hs. rewrite Forall_forall in Hs. by apply Hs.
Qed.

Context (m : ManifestV2) (Hm : manifest_of j m).

(** An entry of the manifest, where it comes from. *)
Lemma manifest_entry x me :
  entries m !! x = Some me -> exists i s l e k, ss !! i = Some s /\ bucket j s = l ++ e :: k /\ x = (before j ss i + length l)%nat /\
    order !! x = Some e /\ sealed_as order (Z.of_nat i) x e me.
Proof.
  intros Hx. assert (exists e, order !! x = Some e) as [e He].
  { apply lookup_lt_is_Some_2. rewrite <- (mo_entries _ _ Hm). by eapply lookup_lt_Some. }
  apply buckets_lookup in He as Hpos. destruct Hpos as (i & s & k & Hi & Hk & ->).
  destruct (mo_entry _ _ Hm i s k e Hi Hk) as (me' & Hme' & Hs). assert (me' = me) as -> by congruence.
  apply list_elem_of_split_length in Hk as (l & k' & Hb & ->). by exists i, s, l, e, k'.
Qed.

Lemma order_unique x y e e' : order !! x = Some e -> order !! y = Some e' -> pie_item_id e = pie_item_id e' -> x = y.
Proof.
  intros Hx Hy Heq. eapply (NoDup_lookup _ x y (pie_item_id e) sound_order_ids); rewrite list_lookup_fmap, ?Hx, ?Hy; cbn; congruence.
Qed.

(** What the listing says of an entry and its parent. *)
Lemma order_below i s l e k p :
  ss !! i = Some s -> bucket j s = l ++ e :: k -> pie_parent_item_id e = Some p ->
  exists e0 n, order !! (before j ss i + n)%nat = Some e0 /\ bucket j s !! n = Some e0 /\ (n < length l)%nat /\ pie_item_id e0 = p /\
    pie_kind e0 = Directory /\ pie_components e = pie_components e0 ++ [pie_name e].
Proof.
  intros Hi Hb Hp. pose proof (si_listing _ _ _ _ (sound_bucket i s Hi)) as Hl. rewrite Hb in Hl.
  apply listing_middle in Hl as [(_ & Hn & _)|(_ & (e0 & name & He0 & Hk & Heq & Hc & _) & Hlast)]; [congruence|].
  apply list_elem_of_lookup in He0 as [n Hn]. assert (Hbn : bucket j s !! n = Some e0) by (rewrite Hb; by apply lookup_app_l_Some).
  exists e0, n. split; [apply buckets_lookup; eauto 10|]. split; [done|]. split; [by apply lookup_lt_Some in Hn|].
  split; [congruence|]. split; [done|]. rewrite Hc, last_snoc in Hlast. injection Hlast as ->. done.
Qed.

Lemma manifest_path x me e : entries m !! x = Some me -> order !! x = Some e -> path_at (entries m) x = pie_components e.
Proof.
  revert me e. induction x as [x IH] using lt_wf_ind. intros me e Hx He.
  destruct (manifest_entry x me Hx) as (i & s & l & e1 & k & Hi & Hb & Hxl & He1 & (parent & Hme & Hp)). assert (e1 = e) as -> by congruence.
  destruct (pie_parent_item_id e) as [p|] eqn:Hpe.
  - destruct Hp as (y & e' & -> & Hy & He' & Hid). destruct (order_below i s l e k p Hi Hb Hpe) as (e0 & n & He0 & _ & _ & Hid0 & _ & Hc).
    assert (Hey : y = (before j ss i + n)%nat) by (eapply order_unique; [exact He'|exact He0|congruence]). assert (e' = e0) as -> by congruence.
    destruct (lookup_lt_is_Some_2 (entries m) y) as [mey Hmey]; [apply lookup_lt_Some in Hx; lia|].
    rewrite (path_at_child _ x me (Z.of_nat y)), Nat2Z.id by (done || lia || (by subst me)). rewrite (IH y Hy mey e0 Hmey He').
    subst me. cbn. by rewrite Hc.
  - rewrite (path_at_root _ x me) by (done || (by subst me)). pose proof (si_listing _ _ _ _ (sound_bucket i s Hi)) as Hl. rewrite Hb in Hl.
    apply listing_middle in Hl as [(_ & _ & -> & _)|(_ & (e0 & name & _ & _ & Heq & _) & _)]; [done|congruence].
Qed.

Context (Hready : Forall (fun s => sel_state s = SelReady) ss) (Hsome : ss <> []).
Context (Hpaths : Forall (fun e => path_size (pie_components e) <= MAX_MANIFEST_V2_PATH_BYTES) (cj_inventory j)).
Context (Hbytes : job_bytes j <= u64_max).

Lemma bucket_first i s : ss !! i = Some s -> exists e k, bucket j s = e :: k /\ order !! before j ss i = Some e /\
  pie_parent_item_id e = None /\ pie_name e = sel_requested_name s.
Proof.
  intros Hi. pose proof (sound_bucket i s Hi) as [_ _ _ _ Hl _ Hr _ _]. rewrite Forall_forall in Hready.
  specialize (Hr (Hready s (list_elem_of_lookup_2 _ _ _ Hi))). destruct (bucket j s) as [|e k] eqn:Hb; [done|]. exists e, k. split; [done|]. split.
  - apply buckets_lookup. exists i, s, O. rewrite Hb, Nat.add_0_r. done.
  - by apply (listing_middle _ _ _ []) in Hl as [(_ & ? & _ & ?)|[? _]].
Qed.

Lemma ready_root i r : roots m !! i = Some r -> valid_root is_nfc m i r.
Proof.
  intros Hr. destruct (lookup_lt_is_Some_2 ss i) as [s Hi]; [rewrite <- (mo_roots _ _ Hm); by eapply lookup_lt_Some|].
  rewrite (mo_root _ _ Hm i s Hi) in Hr. injection Hr as <-. pose proof (sound_bucket i s Hi) as [Hn _ _ _ _ _ _ _ Hc].
  destruct (bucket_first i s Hi) as (e & k & Hb & _ & Hp & Hname). constructor; cbn.
  - done.
  - by apply source_component_safe.
  - intros o Ho. destruct Hc as [Hc|(n & Hc & Hn')]; rewrite Hc in Ho; [done|]. injection Ho as -> _. lia.
  - destruct (mo_entry _ _ Hm i s 0 e Hi) as (me & Hme & (parent & -> & Hpar)); [by rewrite Hb|]. rewrite Nat.add_0_r in Hme.
    eexists. split; [rewrite vec_get_nat; exact Hme|]. cbn. rewrite Hp in Hpar. by rewrite Hname.
Qed.

Lemma ready_entry x me : entries m !! x = Some me -> ManifestSpec.valid_entry is_nfc m x me.
Proof.
  intros Hx. destruct (manifest_entry x me Hx) as (i & s & l & e & k & Hi & Hb & Hxl & He & Hsa).
  pose proof (sound_bucket i s Hi) as [_ _ _ _ Hl _ _ _ _]. rewrite Hb in Hl.
  pose proof (listing_shape _ _ _ _ Hl) as Hsh. rewrite Forall_app, Forall_cons in Hsh. destruct Hsh as (_ & [_ Hn _ Hd _ Hdir _ _] & _).
  pose proof (manifest_path x me e Hx He) as Hpath. destruct Hsa as (parent & -> & Hp). constructor; cbn.
  - done.
  - by apply source_component_safe.
  - eexists. rewrite vec_get_nat, (mo_root _ _ Hm i s Hi). split; [done|]. destruct (pie_parent_item_id e) as [p|] eqn:Hpe.
    + destruct Hp as (y & e' & -> & Hy & He' & Hid). split; [lia|].
      destruct (order_below i s l e k p Hi Hb Hpe) as (e0 & n & He0 & Hbn & _ & Hid0 & Hkind & _).
      assert (y = (before j ss i + n)%nat) as -> by (eapply order_unique; [exact He'|exact He0|congruence]).
      destruct (mo_entry _ _ Hm i s n e0 Hi Hbn) as (me0 & Hme0 & (parent0 & -> & _)). eexists. rewrite vec_get_nat. by split.
    + subst parent. cbn. apply listing_middle in Hl as [(-> & _ & _ & ->)|(_ & (? & ? & _ & _ & ? & _) & _)]; [|congruence].
      cbn in Hxl. rewrite Nat.add_0_r in Hxl. by subst x.
  - by rewrite Hpath.
  - rewrite Hpath. rewrite Forall_forall in Hpaths. apply Hpaths. rewrite <- sound_order_perm. by eapply list_elem_of_lookup_2.
  - intros Hk. destruct (Hdir Hk) as [-> ->]. done.
Qed.

Lemma ready_order : StronglySorted (position_lt m) (seq 0 (length (entries m))).
Proof.
  apply sorted_seq. intros x y Hxy Hy.
  destruct (lookup_lt_is_Some_2 (entries m) x) as [mx Hmx]; [lia|]. destruct (lookup_lt_is_Some_2 (entries m) y) as [my Hmy]; [lia|].
  exists mx, my. split; [done|]. split; [done|].
  destruct (manifest_entry x mx Hmx) as (i & s & l & e & k & Hi & Hb & Hxl & He & (parent & -> & _)).
  destruct (manifest_entry y my Hmy) as (i' & s' & l' & e' & k' & Hi' & Hb' & Hyl & He' & (parent' & -> & _)). cbn.
  rewrite (manifest_path x _ e Hmx He), (manifest_path y _ e' Hmy He').
  assert (Hk : bucket j s !! length l = Some e) by (rewrite Hb; by apply list_lookup_middle).
  assert (Hk' : bucket j s' !! length l' = Some e') by (rewrite Hb'; by apply list_lookup_middle).
  subst x y. destruct (position_order _ _ _ _ _ _ _ _ _ _ Hi Hk Hi' Hk' Hxy) as [Hlt|[-> Hlt]]; [left; lia|right].
  split; [done|]. assert (s' = s) as -> by congruence.
  pose proof (listing_sorted _ _ _ _ (si_listing _ _ _ _ (sound_bucket i' s Hi'))) as Hs. exact (sorted_lookup _ _ _ _ _ _ Hs Hk Hk' Hlt).
Qed.

Lemma ready_weight (f : ManifestEntryKindV2 -> Z -> Z) :
  foldr (fun me n => f (kind me) (plaintext_size me) + n) 0 (entries m) = weight f (cj_inventory j).
Proof.
  rewrite <- (weight_perm f _ _ sound_order_perm). unfold weight.
  assert (Heq : map (fun me => f (kind me) (plaintext_size me)) (entries m) = map (fun e => f (pie_kind e) (pie_plaintext_size e)) order).
  { apply list_eq. intros x. rewrite !list_lookup_fmap. destruct (entries m !! x) as [me|] eqn:Hx; cbn.
    - destruct (manifest_entry x me Hx) as (i & s & l & e & k & _ & _ & _ & -> & (parent & -> & _)). done.
    - apply lookup_ge_None in Hx. rewrite (mo_entries _ _ Hm) in Hx. by apply lookup_ge_None in Hx as ->. }
  revert Heq. generalize order. induction (entries m) as [|me mes IH]; intros [|e es] Heq; cbn in *; try done.
  injection Heq as -> Heq. by rewrite (IH es Heq).
Qed.

Lemma sound_sizes : Forall (fun e => 0 <= pie_plaintext_size e) (cj_inventory j).
Proof.
  rewrite <- sound_order_perm. apply Forall_forall. intros e [x He]%list_elem_of_lookup. apply order_shape in He as (root & []).
  unfold is_u64 in es_size. bool_prop. done.
Qed.

Lemma ready_counts : totals_of (entries m) =
  mkTotals (weight one_file (cj_inventory j)) (weight one_directory (cj_inventory j)) (job_bytes j).
Proof.
  unfold totals_of, job_bytes. rewrite <- !ready_weight. unfold file_total, directory_total, byte_total, is_file. clear.
  f_equal; (induction (entries m) as [|me mes IH]; cbn; [done|]; rewrite IH; by destruct (kind me)).
Qed.

Lemma ready_totals : totals m = totals_of (entries m).
Proof.
  rewrite (mo_totals _ _ Hm), ready_counts. unfold inventory_summary, job_bytes in *.
  pose proof (weight_count (cj_inventory j)) as (Hc1 & Hc2 & Hc3). pose proof (ct_entries _ _ _ _ _ _ _ (js_held _ _ Hsound)) as Hmax.
  unfold MAX_MANIFEST_V2_ENTRIES in Hmax.
  match goal with |- context [foldl _ ?init _] => destruct (summary_counts (cj_inventory j) init) as (-> & -> & ->) end;
    cbn; unfold u32_max; try done; try lia. apply sound_sizes.
Qed.

Lemma ready_wf_totals : wf_totals (totals m) = true.
Proof.
  rewrite ready_totals, ready_counts. unfold wf_totals. cbn. pose proof (weight_count (cj_inventory j)) as (Hc1 & Hc2 & Hc3).
  pose proof (ct_entries _ _ _ _ _ _ _ (js_held _ _ Hsound)) as Hmax. unfold MAX_MANIFEST_V2_ENTRIES in Hmax.
  assert (0 <= job_bytes j).
  { apply weight_nonneg. eapply Forall_impl; [exact sound_sizes|]. intros e He. by destruct (pie_kind e). }
  unfold is_u32, is_u64, u32_max. repeat (apply andb_true_intro; split); apply Z.leb_le; lia.
Qed.

Lemma ready_valid : valid_manifest is_nfc m.
Proof.
  destruct (mo_identity _ _ Hm) as (Hid & Hgen & Hrev & _). destruct Hsound as [[] Hh Hroots _]. 
  constructor.
  - by rewrite Hid.
  - rewrite Hgen. by rewrite id_generation.
  - rewrite Hrev. lia.
  - split; [|unfold zlen in *; by rewrite (mo_roots _ _ Hm)]. intros Hnil. apply Hsome. apply length_zero_iff_nil.
    by rewrite <- (mo_roots _ _ Hm), Hnil.
  - split; [|unfold zlen; rewrite (mo_entries _ _ Hm); apply sound_order_bound]. intros Hnil.
    destruct (lookup_lt_is_Some_2 ss 0) as [s Hs]; [destruct (nil_or_length_pos ss); done || lia|].
    destruct (bucket_first 0 s Hs) as (e & k & _ & He & _). apply lookup_lt_Some in He.
    rewrite <- (mo_entries _ _ Hm), Hnil in He. cbn in He. lia.
  - apply ready_root.
  - apply ready_entry.
  - apply ready_order.
  - apply ready_totals.
  - pose proof (f_equal total_plaintext_bytes ready_counts) as Hb. cbn in Hb. by rewrite Hb.
Qed.

Lemma is_u32_index n : Z.of_nat n <= MAX_MANIFEST_V2_ENTRIES -> is_u32 (Z.of_nat n) = true.
Proof. unfold is_u32, MAX_MANIFEST_V2_ENTRIES, u32_max. intros. apply andb_true_intro. split; apply Z.leb_le; lia. Qed.

Lemma ready_wf_root r : r ∈ roots m -> wf_root r = true.
Proof.
  intros [i Hr]%list_elem_of_lookup. pose proof (ready_root i r Hr) as [_ _ _ (me & Hme & _)].
  destruct (lookup_lt_is_Some_2 ss i) as [s Hi]; [rewrite <- (mo_roots _ _ Hm); by eapply lookup_lt_Some|].
  pose proof (lookup_lt_Some _ _ _ Hi) as Hlt. pose proof (js_roots _ _ Hsound) as Hmax.
  rewrite (mo_root _ _ Hm i s Hi) in Hr. injection Hr as <-. pose proof (sound_bucket i s Hi) as [_ Hu _ _ _ _ _ _ Hc].
  cbn in Hme. rewrite vec_get_nat in Hme. apply lookup_lt_Some in Hme. pose proof sound_order_bound as Hbound. rewrite (mo_entries _ _ Hm) in Hme.
  unfold wf_root. cbn. rewrite Hu, !is_u32_index; unfold zlen, MAX_MANIFEST_V2_ROOTS, MAX_MANIFEST_V2_ENTRIES in *; [|lia|lia].
  cbn. destruct Hc as [->|(n & -> & Hn)]; [done|]. cbn. rewrite andb_true_r. unfold is_u64. apply andb_true_intro. split; apply Z.leb_le; lia.
Qed.

Lemma ready_wf_entry me : me ∈ entries m -> wf_entry me = true.
Proof.
  intros [x Hx]%list_elem_of_lookup. pose proof (lookup_lt_Some _ _ _ Hx) as Hlt. pose proof sound_order_bound as Hbound.
  rewrite (mo_entries _ _ Hm) in Hlt.
  destruct (manifest_entry x me Hx) as (i & s & l & e & k & Hi & _ & _ & He & (parent & -> & Hp)).
  apply order_shape in He as (root & []). pose proof (lookup_lt_Some _ _ _ Hi) as Hlti. pose proof (js_roots _ _ Hsound) as Hmax.
  unfold wf_entry. cbn. rewrite es_utf8, es_size, !is_u32_index; unfold zlen, MAX_MANIFEST_V2_ROOTS, MAX_MANIFEST_V2_ENTRIES in *; [|lia|lia].
  assert (wf_option is_u32 parent = true) as ->.
  { destruct (pie_parent_item_id e); [|by subst]. destruct Hp as (y & _ & -> & Hy & _). apply is_u32_index. unfold MAX_MANIFEST_V2_ENTRIES. lia. }
  cbn. by destruct (pie_digest e).
Qed.

Lemma ready_wf : wf_manifest m = true.
Proof.
  destruct (mo_identity _ _ Hm) as (Hid & Hgen & Hrev & _). destruct Hsound as [[] _ _ _]. unfold wf_manifest.
  rewrite Hid, Hgen, Hrev, id_length, id_generation. cbn.
  assert (is_u64 (cj_selection_revision j) = true) as -> by (unfold is_u64; apply andb_true_intro; split; apply Z.leb_le; lia).
  assert (forallb wf_root (roots m) = true) as -> by (apply forallb_forall; intros r Hr%list_elem_of_In; by apply ready_wf_root).
  assert (forallb wf_entry (entries m) = true) as -> by (apply forallb_forall; intros e He%list_elem_of_In; by apply ready_wf_entry).
  apply ready_wf_totals.
Qed.
End Ready.

(** ** The two ways to count the bytes of a path *)

Lemma path_size_sum cs : path_size cs = foldr (fun c n => zlen c + n) 0 cs + zlen cs.
Proof. unfold path_size. induction cs as [|c cs IH]; cbn; [done|]. rewrite zlen_cons. lia. Qed.

Lemma long_path_bytes cs :
  logical_path_bytes cs <= MAX_MANIFEST_V2_PATH_BYTES -> MAX_MANIFEST_V2_PATH_BYTES < path_size cs ->
  logical_path_bytes cs = MAX_MANIFEST_V2_PATH_BYTES.
Proof.
  rewrite path_size_sum. unfold logical_path_bytes, saturating_sub, usize_max, u64_max, MAX_MANIFEST_V2_PATH_BYTES. lia.
Qed.

(** ** Theorems *)

Lemma ready_selections ss : selections_lifecycle ss = JobReadyToSend -> ss <> [] /\ Forall (fun s => sel_state s = SelReady) ss.
Proof.
  unfold selections_lifecycle. destruct (existsb _ _); [done|]. destruct (negb _ && _) eqn:Hb; [|done]. intros _. bool_prop. split; [done|].
  match goal with Ha : forallb _ _ = true |- _ => rewrite forallb_forall in Ha; rename Ha into Hall end.
  apply Forall_forall. intros s Hs%list_elem_of_In%Hall. by bool_prop.
Qed.

Lemma ready_job is_nfc blake3 j :
  job_inv is_nfc blake3 j -> cj_lifecycle j = JobReadyToSend ->
  job_sound is_nfc j /\ refreshed j = j /\ cj_selections j <> [] /\ Forall (fun s => sel_state s = SelReady) (cj_selections j).
Proof.
  intros [Hs Hl] Hr. split; [done|]. unfold lifecycle_inv in Hl. rewrite Hr in Hl.
  destruct (cj_sealed j) as [sealed|]; [by destruct Hl|]. destruct Hl as [|Hl]; [done|].
  split; [|by apply ready_selections]. unfold refreshed. rewrite Hr, <- Hl, <- Hr. by destruct j.
Qed.

(** The offer of the manifest is not too large. *)
Definition offer_fits (m : ManifestV2) : Prop :=
  OFFER_HEADER_BYTES + (DIGEST_BYTES + zlen (encode_manifest_body m)) <= MAX_MANIFEST_V2_ENCODED_BYTES.

Section Theorems.
Context (nfc : str -> str) (is_nfc : str -> bool) (blake3 : list byte -> list byte).
Context (os_bytes : path -> list byte) (hash_order : list (list str) -> list (list str)) (id_tries : nat).
Context (job_to_vec : CanonicalTransferJob -> option (list byte)) (store_directory : path).
Context {S : Type} `{SourceDisk S}.
Implicit Types (w : JobWorld S).
Local Notation job_runs := (job_runs nfc is_nfc blake3 os_bytes hash_order id_tries job_to_vec store_directory).

(** [seal_for_send] of a ready job up to the manifest. *)
Lemma seal_start w m :
  refreshed (jw_job w) = jw_job w -> cj_lifecycle (jw_job w) = JobReadyToSend -> job_manifest_of (jw_job w) = Ok m ->
  seal_for_send is_nfc blake3 w =
    (offer ← job_pure (map_err (fun _ => JE_Protocol) (build_manifest_offer_v2 is_nfc blake3 m));
     offer_bytes ← job_pure (map_err (fun _ => JE_Protocol) (encode_manifest_offer_v2 is_nfc blake3 (manifest offer)));
     _ ← modify_job (set_sealed (Some (mkSealed (manifest offer) (structural_digest offer) offer_bytes)));
     _ ← modify_job (set_lifecycle JobSealed);
     _ ← touch;
     mret (manifest offer)) w.
Proof.
  intros Hre Hl Hm. unfold seal_for_send.
  erewrite proc_bind_eq; [|unfold ensure_mutable; erewrite proc_bind_eq by reflexivity; rewrite Hl; reflexivity].
  erewrite proc_bind_eq by reflexivity. rewrite Hre.
  assert (Hset : set_job (jw_job w) w = w) by by destruct w. rewrite Hset.
  erewrite proc_bind_eq by reflexivity. rewrite Hl. erewrite proc_bind_eq by reflexivity.
  by erewrite proc_bind_eq; [|unfold job_pure, pure; rewrite Hm; reflexivity].
Qed.

Lemma source_found j i e b :
  cj_lifecycle j = JobSealed -> sealed_order j !! i = Some e -> pie_kind e = RegularFile ->
  cj_source_bindings j !! pie_item_id e = Some b ->
  source_for_sealed_entry (Z.of_nat i) j = Ok (mkSource (sb_path b) (sb_fingerprint b)).
Proof.
  intros Hl He Hk Hb. unfold source_for_sealed_entry. rewrite Hl. cbn. rewrite Nat2Z.id, He. cbn. rewrite Hk. cbn. by rewrite Hb.
Qed.

(** C5. Sealing a job that is ready, that the operations of C6 made, whose bytes add up
    to no more than [u64::MAX] and whose paths are all within
    [MAX_MANIFEST_V2_PATH_BYTES] as the manifest counts them (one separator a component:
    the job's own count admits a path that is one byte longer, and C40 shows that sealing
    then fails), gives its manifest: one root for every selection, in their order, and
    under it the entries of the root's inventory in the order of their paths, with
    parents, names, kinds, sizes and digests.  That manifest is valid.  When its offer is
    not too large, [seal_for_send] returns and stores it, and [source_for_sealed_entry]
    then finds for every file entry the binding of the inventory entry that it stands
    for. *)
Theorem seal_ready w :
  SourceDiskLaws S nfc -> (forall bytes, wf_digest (blake3 bytes) = true) -> job_runs w ->
  cj_lifecycle (jw_job w) = JobReadyToSend -> job_bytes (jw_job w) <= u64_max ->
  Forall (fun e => path_size (pie_components e) <= MAX_MANIFEST_V2_PATH_BYTES) (cj_inventory (jw_job w)) ->
  exists m, job_manifest_of (jw_job w) = Ok m /\ manifest_of (jw_job w) m /\ valid_manifest is_nfc m /\
    (offer_fits m -> exists w', seal_for_send is_nfc blake3 w = (w', Ok m) /\
       job_sealed_manifest (jw_job w') = Some m /\ cj_lifecycle (jw_job w') = JobSealed /\
       forall i me, entries m !! i = Some me -> kind me = RegularFile ->
         exists e b, sealed_order (jw_job w) !! i = Some e /\ cj_source_bindings (jw_job w) !! pie_item_id e = Some b /\
           pie_name e = component me /\ pie_plaintext_size e = plaintext_size me /\
           source_for_sealed_entry (Z.of_nat i) (jw_job w') = Ok (mkSource (sb_path b) (sb_fingerprint b))).
Proof.
  intros Hlaws Hb Hw Hl Hbytes Hpaths. pose proof (job_runs_inv _ _ _ _ _ _ Hlaws Hb _ _ w Hw) as Hj.
  destruct (ready_job is_nfc blake3 _ Hj Hl) as (Hso & Hre & Hsome & Hready).
  destruct (job_manifest_ok is_nfc _ Hso) as (m & Hm & Hmo). exists m. split; [done|]. split; [done|].
  assert (Hv : valid_manifest is_nfc m) by by eapply ready_valid. split; [done|]. intros Hfits.
  assert (Hval : validate is_nfc m = Ok tt) by (apply validate_complete; [by eapply ready_wf|done]).
  rewrite (seal_start w m Hre Hl Hm).
  assert (Hbuild : build_manifest_offer_v2 is_nfc blake3 m = Ok (mkOffer (blake3 (encode_manifest_body m)) m))
    by (unfold build_manifest_offer_v2; by rewrite Hval).
  erewrite proc_bind_eq; [|rewrite Hbuild; reflexivity]. cbn [manifest structural_digest].
  assert (Henc : exists bytes, encode_manifest_offer_v2 is_nfc blake3 m = Ok bytes).
  { eexists. apply encode_offer_ok. split; [done|]. split; [done|]. exact Hfits. }
  destruct Henc as [bytes Henc]. erewrite proc_bind_eq; [|rewrite Henc; reflexivity].
  do 3 (erewrite proc_bind_eq by reflexivity). eexists. split; [reflexivity|]. cbn. split; [done|]. split; [done|].
  intros i me Hi Hk. destruct (manifest_entry _ m Hmo i me Hi) as (r & s & l & e & k & _ & _ & _ & He & (parent & -> & _)).
  assert (Hin : pie_item_id e ∈ dom (cj_source_bindings (jw_job w))).
  { rewrite (ct_bindings _ _ _ _ _ _ _ (js_held _ _ Hso)). apply elem_of_item_ids, list_elem_of_fmap_2.
    rewrite <- (sound_order_perm is_nfc _ Hso). by eapply list_elem_of_lookup_2. }
  apply elem_of_dom in Hin as [b Hbind]. exists e, b. do 4 (split; [done|]). by apply source_found with (e := e).
Qed.

(** A canceled job that was sealed at an earlier revision. *)
Lemma outdated_seal j updated sealed :
  job_sound is_nfc j -> cj_sealed j = Some sealed -> selection_revision (sj_manifest sealed) = cj_selection_revision j ->
  cj_selection_revision j < u64_max -> cj_updated_unix_ms j <= updated ->
  validate_durable is_nfc blake3 (set_updated updated (set_revision (cj_selection_revision j + 1) (set_lifecycle JobCanceled j))) =
    Err (JE_InvalidRecord "sealed Manifest identity does not match its job").
Proof.
  intros Hso Hsealed Hr Hmax Hu. rewrite (sound_durable is_nfc).
  - rewrite ensure_step by done. cbn [cj_sealed set_updated set_revision set_lifecycle]. rewrite Hsealed. unfold valid_sealed.
    rewrite ensure_step by done. cbn. rewrite Hr.
    replace (cj_selection_revision j =? cj_selection_revision j + 1) with false by (symmetry; apply Z.eqb_neq; lia).
    by rewrite andb_false_r.
  - apply sound_updated; [|done]. apply sound_revision; [by destruct Hso as [[] ? ? ?]|]. destruct Hso as [[] _ _ _]. lia.
Qed.

Lemma cancel_run w :
  cj_lifecycle (jw_job w) <> JobCanceled -> cj_selection_revision (jw_job w) < u64_max ->
  exists w' updated, cancel w = (w', Ok tt) /\ cj_updated_unix_ms (jw_job w) <= updated /\
    jw_job w' = set_updated updated (set_revision (cj_selection_revision (jw_job w) + 1) (set_lifecycle JobCanceled (jw_job w))).
Proof.
  intros Hl Hr. unfold cancel. erewrite proc_bind_eq by reflexivity. rewrite bool_decide_eq_false_2 by done.
  assert (Hadd : checked_add u64_max (cj_selection_revision (jw_job w)) 1 = Some (cj_selection_revision (jw_job w) + 1)).
  { unfold checked_add. by rewrite (proj2 (Z.leb_le _ _)) by lia. }
  unfold bump_revision. do 2 (erewrite proc_bind_eq by reflexivity; cbn beta). cbn [jw_job set_job set_lifecycle cj_selection_revision].
  erewrite proc_bind_eq; [|rewrite Hadd; reflexivity]. erewrite proc_bind_eq by reflexivity.
  eexists _, _. split; [reflexivity|]. split; [|reflexivity]. apply Z.le_max_r.
Qed.

Lemma job_save_refused w err :
  validate_durable is_nfc blake3 (jw_job w) = Err err -> job_save is_nfc blake3 job_to_vec w = (w, Err (JobFails err)).
Proof. intros Hv. unfold job_save. erewrite proc_bind_eq by reflexivity. unfold mbind, proc_bind, job_pure, pure. by rewrite Hv. Qed.

(** C39. A sealed job can be canceled but no longer saved: [cancel] raises the selection
    revision, which the sealed manifest does not have, and [validate_durable] then finds
    that the two disagree, so [save] writes nothing. *)
Theorem sealed_cancel_not_saved w :
  SourceDiskLaws S nfc -> (forall bytes, wf_digest (blake3 bytes) = true) -> job_runs w ->
  cj_lifecycle (jw_job w) = JobSealed -> cj_selection_revision (jw_job w) < u64_max ->
  exists w', cancel w = (w', Ok tt) /\ cj_lifecycle (jw_job w') = JobCanceled /\
    job_save is_nfc blake3 job_to_vec w' =
      (w', Err (JobFails (JE_InvalidRecord "sealed Manifest identity does not match its job"))).
Proof.
  intros Hlaws Hb Hw Hl Hrev. pose proof (job_runs_inv _ _ _ _ _ _ Hlaws Hb _ _ w Hw) as [Hso Hlc].
  unfold lifecycle_inv in Hlc. rewrite Hl in Hlc. destruct (cj_sealed (jw_job w)) as [sealed|] eqn:Hsealed.
  2: { pose proof (selections_lifecycle_mutable (cj_selections (jw_job w))). destruct Hlc; naive_solver. }
  destruct Hlc as [_ Hv]. unfold valid_sealed in Hv. inv_ok. bool_prop.
  destruct (cancel_run w) as (w' & updated & Hrun & Hu & Hw'); [by rewrite Hl|done|].
  exists w'. split; [done|]. split; [by rewrite Hw'|]. apply job_save_refused. rewrite Hw'. by apply (outdated_seal _ _ sealed).
Qed.

(** C40. The limit on paths is not one limit.  An enumeration and [validate_durable] count
    the components of a path with the separators between them, [ManifestV2::validate]
    counts a separator more: a job may be ready and durable and have an entry that makes
    every attempt to seal it fail. *)
Theorem long_path_not_sealed w e :
  SourceDiskLaws S nfc -> (forall bytes, wf_digest (blake3 bytes) = true) -> job_runs w ->
  cj_lifecycle (jw_job w) = JobReadyToSend -> job_bytes (jw_job w) <= u64_max ->
  e ∈ cj_inventory (jw_job w) -> MAX_MANIFEST_V2_PATH_BYTES < path_size (pie_components e) ->
  logical_path_bytes (pie_components e) = MAX_MANIFEST_V2_PATH_BYTES /\ validate_durable is_nfc blake3 (jw_job w) = Ok tt /\
  seal_for_send is_nfc blake3 w = (w, Err (JobFails JE_Protocol)).
Proof.
  intros Hlaws Hb Hw Hl Hbytes He Hlong. pose proof (job_runs_inv _ _ _ _ _ _ Hlaws Hb _ _ w Hw) as Hj.
  destruct (ready_job is_nfc blake3 _ Hj Hl) as (Hso & Hre & Hsome & Hready).
  destruct (job_manifest_ok is_nfc _ Hso) as (m & Hm & Hmo).
  rewrite <- (sound_order_perm is_nfc _ Hso) in He. apply list_elem_of_lookup in He as [x He].
  destruct (order_shape is_nfc _ Hso x e He) as (root & Hshape).
  split; [|split; [by apply job_inv_durable|]].
  - pose proof (es_bytes _ _ _ Hshape) as Hlog. by apply long_path_bytes.
  - rewrite (seal_start w m Hre Hl Hm). unfold build_manifest_offer_v2.
    destruct (validate is_nfc m) as [[]|err] eqn:Hval; [exfalso|done].
    assert (Hwf : wf_manifest m = true) by by eapply ready_wf.
    apply validate_sound in Hval; [|done]. destruct (lookup_lt_is_Some_2 (entries m) x) as [me Hx].
    { rewrite (mo_entries _ _ Hmo). by eapply lookup_lt_Some. }
    pose proof (ve_size _ _ _ _ (vm_entry _ _ Hval x me Hx)) as Hsize.
    erewrite manifest_path in Hsize by done. lia.
Qed.
End Theorems.

(** ** Releasing staged files *)

Section Release.
Context (is_nfc : str -> bool) (blake3 : list byte -> list byte).
Context (job_to_vec : CanonicalTransferJob -> option (list byte)) (store_directory : path).
Context {S : Type} `{SourceDisk S}.
Implicit Types (w : JobWorld S).
Local Notation M A := (proc (JobWorld S) JobFailure A).

(** [m] removes no staged file and does not change which job it is. *)
Definition still {A} (m : M A) : Prop :=
  forall w, jw_removed (m w).1 = jw_removed w /\ cj_job_id (jw_job (m w).1) = cj_job_id (jw_job w).

Lemma still_bind {A B} (m : M A) (f : A -> M B) : still m -> (forall a, still (f a)) -> still (m ≫= f).
Proof.
  intros Hm Hf w. unfold mbind, proc_bind. specialize (Hm w). destruct (m w) as [w1 [a|err]]; [|done]. cbn in Hm.
  destruct (Hf a w1) as [Hr Hi]. rewrite Hr, Hi. done.
Qed.
Lemma still_here {A} (m : M A) : (forall w, (m w).1 = w) -> still m.
Proof. intros Hm w. by rewrite Hm. Qed.
Lemma still_modify f : (forall j, cj_job_id (f j) = cj_job_id j) -> still (modify_job f).
Proof. intros Hf w. cbn. by rewrite Hf. Qed.
Lemma still_disk {A} (op : S -> S * A) : still (on_disk op).
Proof. intros w. unfold on_disk. by destruct (op (jw_disk w)). Qed.
Lemma still_touch : still touch.
Proof. by intros w. Qed.
End Release.

(** Solves that a program is [still] from the rules of its steps. *)
Ltac still_step :=
  match goal with
  | |- still (_ ≫= _) => apply still_bind; [|intros]
  | |- still (modify_job refreshed) => apply still_modify; intros j; unfold refreshed; by destruct (cj_lifecycle j)
  | |- still (modify_job _) => apply still_modify; intros; reflexivity
  | |- still (on_disk _) => apply still_disk
  | |- still touch => apply still_touch
  | |- still (match ?x with _ => _ end) => destruct x
  | |- _ => apply still_here; intros; reflexivity
  end.

Section ReleaseTheorem.
Context (is_nfc : str -> bool) (blake3 : list byte -> list byte).
Context (job_to_vec : CanonicalTransferJob -> option (list byte)) (store_directory : path).
Context {S : Type} `{SourceDisk S}.
Implicit Types (w : JobWorld S).

Lemma still_bump : still (S := S) bump_revision.
Proof. unfold bump_revision. repeat still_step. Qed.
Lemma still_resolve root d : still (S := S) (resolve_source_decision root d).
Proof.
  unfold resolve_source_decision, ensure_mutable, selection_index, selection_at, modify_selection, refresh_lifecycle.
  repeat (apply still_bump || still_step).
Qed.
Lemma still_save : still (S := S) (job_save is_nfc blake3 job_to_vec).
Proof.
  unfold job_save. apply still_bind; [still_step|]. intros j. apply still_bind; [still_step|]. intros _ w. unfold write_job.
  by destruct (default NoFault _), (job_to_vec j).
Qed.

(** The artifact of a decision is then pending cleanup. *)
Lemma resolve_artifact root d w w' p : resolve_source_decision root d w = (w', Ok (Some p)) -> p ∈ cj_cleanup_pending (jw_job w').
Proof.
  intros Hrun. cut (wp (resolve_source_decision root d) (fun a w1 => forall q, a = Some q -> q ∈ cj_cleanup_pending (jw_job w1)) (fun _ _ => True) w).
  { unfold wp. rewrite Hrun. intros Hq. by apply Hq. }
  clear Hrun w' p. apply wp_bind, wp_ensure_mutable; [|done]. intros _ _. apply wp_bind, wp_selection_index; [|done]. intros l s k Hl _.
  apply wp_bind, (wp_selection_at l s k); [done|]. apply wp_bind, wp_job_fail_if; [done|]. intros _.
  assert (Hend : forall (a : option path) w1, (forall q, a = Some q -> q ∈ cj_cleanup_pending (jw_job w1)) ->
    wp (_ ← bump_revision; _ ← refresh_lifecycle; mret a) (fun a w1 => forall q, a = Some q -> q ∈ cj_cleanup_pending (jw_job w1)) (fun _ _ => True) w1).
  { intros a w1 Ha. apply wp_bind, wp_bump; [|done]. intros w2 rev upd _ _ _ Hw2. apply wp_bind, wp_refresh. intros w3 Hw3. apply wp_ret.
    intros q Hq. rewrite Hw3, Hw2. unfold refreshed. cbn. destruct (cj_lifecycle _); by apply Ha. }
  destruct d.
  - apply wp_bind, wp_disk. intros canonical w1 _. apply wp_bind, wp_get_job, wp_bind, wp_job_fail_if; [done|]. intros _. apply wp_bind.
    assert (Hrest : forall hint w2, wp (_ ← modify_selection (length l) (fun s => mkSelection (sel_root_item_id s) (sel_order s) (sel_requested_name s)
        local_path canonical hint (sel_origin s) false SelPending None Complete []);
      _ ← modify_job (retain_inventory (fun e => negb (bool_decide (pie_root_item_id e = root)))); _ ← bump_revision; _ ← refresh_lifecycle; mret (None : option path))
      (fun a w1 => forall q, a = Some q -> q ∈ cj_cleanup_pending (jw_job w1)) (fun _ _ => True) w2).
    { intros hint w2. apply wp_bind, wp_modify_job. intros w3 _. apply wp_bind, wp_modify_job. intros w4 _. by apply Hend. }
    destruct canonical; [apply wp_disk; intros; apply Hrest|apply wp_ret, Hrest].
  - do 2 (apply wp_bind, wp_job_fail_if; [done|]; intros _). apply wp_bind, wp_modify_job. intros w1 _. by apply Hend.
  - apply wp_bind, wp_modify_job. intros w1 _. apply wp_bind. destruct (sel_job_owned_staging s).
    + apply wp_modify_job. intros w2 Hw2. apply Hend. intros q [= <-]. rewrite Hw2. cbn. set_solver.
    + apply wp_ret. by apply Hend.
  - apply wp_bind, wp_modify_job. intros w1 _. apply wp_bind, wp_bump; [|done]. intros. by apply wp_ret.
Qed.

(** A job that is durable and whose record the files [fs] hold, with [p] pending cleanup:
    no source of it is at [p], which is a file of the job's staging directory. *)
Definition recorded_release (id : JobIdV2) (p : path) (fs : files) : Prop :=
  exists j bytes name, cj_job_id j = id /\ validate_durable is_nfc blake3 j = Ok tt /\
    job_to_vec j = Some bytes /\ fs !! job_path id = Some bytes /\
    p ∈ cj_cleanup_pending j /\ (forall s, s ∈ cj_selections j -> sel_path s <> p) /\
    p = staging_directory store_directory id ++ [name].

Lemma durable_cleanup j p s :
  validate_durable is_nfc blake3 j = Ok tt -> p ∈ cj_cleanup_pending j -> s ∈ cj_selections j -> sel_path s <> p.
Proof.
  unfold validate_durable. intros Hv Hp Hs. inv_ok.
  match goal with Hf : forallb (fun pending => forallb _ _) _ = true |- _ => rewrite forallb_forall in Hf;
    specialize (Hf p ltac:(by apply list_elem_of_In)); rewrite forallb_forall in Hf; specialize (Hf s ltac:(by apply list_elem_of_In)) end.
  by bool_prop.
Qed.

Lemma job_save_ok w w' :
  job_save is_nfc blake3 job_to_vec w = (w', Ok tt) ->
  exists bytes, validate_durable is_nfc blake3 (jw_job w) = Ok tt /\ job_to_vec (jw_job w) = Some bytes /\
    jw_files w' !! job_path (cj_job_id (jw_job w)) = Some bytes /\ jw_job w' = jw_job w.
Proof.
  unfold job_save. intros (w1 & j & Hg & Hrun)%bind_ok. injection Hg as <- <-. apply bind_ok in Hrun as (w2 & [] & Hv & Hrun).
  apply pure_ok in Hv as [Hv%map_err_ok ->]. unfold write_job in Hrun.
  destruct (default NoFault _); destruct (job_to_vec _) as [bytes|] eqn:Hvec; try done. injection Hrun as <-. exists bytes. cbn.
  by rewrite lookup_insert_eq.
Qed.

Lemma remove_staged_removed id q w w' r :
  remove_staged_artifact store_directory id q w = (w', r) ->
  (jw_removed w' = jw_removed w /\ exists err, r = Err err) \/
  (jw_removed w' = jw_removed w ++ [(q, jw_files w)] /\ exists name, q = staging_directory store_directory id ++ [name]).
Proof.
  unfold remove_staged_artifact, job_fail_if, throw_if. unfold mbind at 1, proc_bind at 1.
  destruct (starts_with q (staging_directory store_directory id)) eqn:Hpre; cbn [negb]; [|intros [= <- <-]; eauto].
  unfold mbind at 1, proc_bind at 1. destruct (_ =? 1) eqn:Hlen; cbn [negb]; [|intros [= <- <-]; eauto].
  intros Hrun. right. split.
  - erewrite proc_bind_eq in Hrun by reflexivity.
    assert (Hstill : still (r0 ← on_disk (remove_file q);
      match r0 with Ok _ | Err KindNotFound => mret tt | _ => job_fail JE_Io end)) by repeat still_step.
    destruct (Hstill (mkJobWorld (jw_job w) (jw_disk w) (jw_clock w) (jw_files w) (jw_faults w) (jw_entropy w)
      (jw_removed w ++ [(q, jw_files w)]))) as [Hr _]. by rewrite Hrun in Hr.
  - unfold starts_with in Hpre. bool_prop. destruct Hpre as [k ->]. rewrite drop_app_length in Hlen.
    destruct k as [|name [|x k]]; rewrite ?zlen_cons, ?zlen_nil in Hlen; [lia|by exists name|]. pose proof (zlen_nonneg k). lia.
Qed.

Lemma release_removed q w w' r :
  release_artifact is_nfc blake3 job_to_vec store_directory q w = (w', r) ->
  jw_removed w' = jw_removed w \/
  (jw_removed w' = jw_removed w ++ [(q, jw_files w)] /\
   exists name, q = staging_directory store_directory (cj_job_id (jw_job w)) ++ [name]).
Proof.
  unfold release_artifact. erewrite proc_bind_eq by reflexivity. intros [(err & Hrun & ->)|(w1 & [] & Hrem & Hrun)]%bind_run.
  - apply remove_staged_removed in Hrun as [[? _]|?]; auto.
  - apply remove_staged_removed in Hrem as [[_ [err Herr]]|[Hrem Hname]]; [done|]. right. split; [|done].
    assert (Hstill : still (_ ← modify_job (fun j => set_cleanup (filter (fun q0 => q0 <> q) (cj_cleanup_pending j)) j);
      job_save is_nfc blake3 job_to_vec)) by (apply still_bind; [still_step|intros; apply still_save]).
    destruct (Hstill w1) as [Hr _]. rewrite Hrun in Hr. cbn in Hr. congruence.
Qed.
End ReleaseTheorem.

(** C13. [apply_source_decision] deletes a staged file only after the decision is on disk:
    when the file goes, the store holds a durable record of the job in which the file is
    pending cleanup and no source is at its place, so a crash at any moment loses no
    source that the job still has.  What it deletes is a file of the job's own staging
    directory.  However the disk, the writes and the deletion end. *)
Theorem staged_file_released_after_save is_nfc blake3 job_to_vec store_directory {S : Type} `{SourceDisk S}
    root d (w w' : JobWorld S) r p fs :
  apply_source_decision is_nfc blake3 job_to_vec store_directory root d w = (w', r) -> (p, fs) ∈ jw_removed w' ->
  (p, fs) ∈ jw_removed w \/ recorded_release is_nfc blake3 job_to_vec store_directory (cj_job_id (jw_job w)) p fs.
Proof.
  intros Hrun Hin. unfold apply_source_decision in Hrun. apply bind_run in Hrun as [(err & Hres & ->)|(w1 & artifact & Hres & Hrun)].
  { destruct (still_resolve root d w) as [Hr _]. rewrite Hres in Hr. cbn in Hr. left. by rewrite <- Hr. }
  destruct (still_resolve root d w) as [Hr1 Hi1]. rewrite Hres in Hr1, Hi1. cbn in Hr1, Hi1.
  apply bind_run in Hrun as [(err & Hsave & ->)|(w2 & [] & Hsave & Hrun)];
    destruct (still_save is_nfc blake3 job_to_vec w1) as [Hr2 _]; rewrite Hsave in Hr2; cbn in Hr2; [left; congruence|].
  destruct artifact as [q|]; [|injection Hrun as <- _; left; congruence].
  apply job_save_ok in Hsave as (bytes & Hv & Hvec & Hfile & Hj2). apply resolve_artifact in Hres.
  apply release_removed in Hrun as [Heq|[Heq [name Hname]]]; rewrite Heq in Hin; [left; congruence|].
  apply elem_of_app in Hin as [Hin|Hin%list_elem_of_singleton]; [left; congruence|]. injection Hin as -> ->. right.
  exists (jw_job w1), bytes, name. rewrite Hj2, Hi1 in Hname. rewrite Hi1 in Hfile.
  do 5 (split; [done|]). split; [|done]. intros s Hs. by eapply durable_cleanup.
Qed.
