(* ===== verification/Witnesses.v ===== *)
(** Concrete inputs: the manifest of the golden fixture
    (crates/envoix-protocol/tests/fixtures/manifest_v2_offer.golden.hex), its
    encoding, one frame of each kind the codec properties are applied to, and
    instances of the two parameters; and each conditional property of the protocol
    crate at one of them, its hypotheses discharged by evaluation.  Then one job with
    its delivery records, from the offer to the confirmed proof, and the cancellation
    token. *)

From stdpp Require Import prelude gmap strings.
From Stdlib Require Import ZArith Lia Strings.Byte Strings.Ascii.
From S2P Require Import Prelude Bytes Reader ManifestV2 ManifestSpec ValidateTheorem OfferCodec OfferProof Frames FramesProof FramingProof.
From S2P Require Import AuthFrame Delivery DeliveryStore DeliverySystem.

Local Open Scope Z_scope.

(** ** Instances of the parameters *)

(** ASCII text is in NFC. *)
Definition ascii_nfc (s : str) : bool := forallb (fun b => byte_val b <? 128) s.

(** A 32-byte digest: the last 32 bytes, zero-padded. *)
Definition tail_digest (bs : list byte) : list byte :=
  be_bytes 32 (be_value (drop (length bs - 32) bs)).

Lemma tail_digest_length bs : zlen (tail_digest bs) = DIGEST_BYTES.
Proof. unfold zlen, tail_digest. by rewrite length_be_bytes. Qed.

(** ** The golden fixture *)

Definition hex_digit (a : ascii) : Z :=
  let n := Z.of_N (N_of_ascii a) in if n <? 58 then n - 48 else n - 87.
Fixpoint of_hex (s : string) : list byte :=
  match s with
  | String a (String b s') => byte_of (16 * hex_digit a + hex_digit b) :: of_hex s'
  | _ => []
  end.

Definition sample_manifest : ManifestV2 :=
  mkManifest (lit "job-v2-fixture!!") 7 11 Smart
    [mkRoot 0 0 (lit "Photos") (UserApprovedPartial 1 (Some 2));
     mkRoot 1 3 (lit "notes.txt") Complete]
    [mkEntry 0 0 None (lit "Photos") Directory 0 Deferred;
     mkEntry 1 0 (Some 0) (lit "Empty") Directory 0 Deferred;
     mkEntry 2 0 (Some 0) (lit "a.jpg") RegularFile 3 (Known (replicate 32 (byte_of 17)));
     mkEntry 3 1 None (lit "notes.txt") RegularFile 5 Deferred]
    (mkTotals 2 2 8).

(** What the loops of [validate] over its roots and entries leave. *)
Definition sample_root_ids : gset Z :=
  match validate_roots ascii_nfc (zlen (entries sample_manifest)) 0 (roots sample_manifest) ∅ with
  | Ok ids => ids
  | Err _ => ∅
  end.
Definition sample_entry_state : entry_state :=
  match validate_entries ascii_nfc sample_manifest 0 (entries sample_manifest)
          (initial_state (length (entries sample_manifest))) with
  | Ok st => st
  | Err _ => initial_state 0
  end.

Definition golden_offer : list byte := of_hex (
  "454e56320002000100000119727938abe4aa6ff971c1dcf8a7b3d369f971f75c712aed9be2e7255b" ++
  "7ccd947d6a6f622d76322d66697874757265212100000007000000000000000b0200000002000000" ++
  "00000000000000000650686f746f7301000000000000000101000000000000000200000001000000" ++
  "03000000096e6f7465732e7478740000000004000000000000000000000000020000000000000000" ++
  "0000000001000000000000000100000005456d707479020000000000000000000000000200000000" ++
  "0000000100000005612e6a7067010000000000000003011111111111111111111111111111111111" ++
  "11111111111111111111111111111100000003000000010000000001000000000000000500000000" ++
  "02000000020000000000000008")%string.

(** The BLAKE3 digest of the fixture's body, as the fixture carries it. *)
Definition golden_digest : list byte := take 32 (drop 12 golden_offer).

(** The encoder writes the fixture and the decoder reads it back. *)
Example golden_encode :
  encode_manifest_offer_v2 ascii_nfc (fun _ => golden_digest) sample_manifest = Ok golden_offer.
Proof. vm_compute. reflexivity. Qed.
Example golden_decode :
  decode_manifest_offer_v2 ascii_nfc (fun _ => golden_digest) golden_offer
    = Ok (mkOffer golden_digest sample_manifest).
Proof. vm_compute. reflexivity. Qed.

(** ** Frames *)

Definition ok_or_nil {E} (r : result E (list byte)) : list byte :=
  match r with Ok bs => bs | Err _ => [] end.

Definition sample_offer_bytes : list byte :=
  ok_or_nil (encode_manifest_offer_v2 ascii_nfc tail_digest sample_manifest).
Definition sample_offer : ManifestOfferV2 :=
  mkOffer (tail_digest (encode_manifest_body sample_manifest)) sample_manifest.

Definition sample_identity : JobGenerationV2 := mkJobGeneration (lit "job-v2-fixture!!") 7.
Definition sample_digest (n : Z) : list byte := replicate 32 (byte_of n).

Definition sample_accept : ManifestV2Frame :=
  Accept (mkAccept sample_identity (sample_digest 1) (sample_digest 2) (sample_digest 3) 1
    [mkRootPlan 0 (lit "Photos"); mkRootPlan 1 (lit "notes (1).txt")]
    [mkEntryPlan 0 ReceivePayload 0; mkEntryPlan 1 ReceivePayload 0;
     mkEntryPlan 2 DispositionReuseExisting 0; mkEntryPlan 3 ReceivePayload 2]).
Definition sample_block : ManifestV2Frame :=
  EntryBlock (mkBlock sample_identity 3 0 0 5 (lit "hello")).
Definition sample_result : EntryResultV2 :=
  mkResult sample_identity 0 Saved 5 (Some (sample_digest 4)) (Some (lit "notes (1).txt")).
Definition sample_status : ManifestV2Frame :=
  ResumeStatus (mkResumeStatus sample_identity (sample_digest 5) 1
    [mkResumeEntry 0 PayloadOpen 0 None (Some sample_result);
     mkResumeEntry 1 PayloadCompleteChosen 9 (Some (sample_digest 6)) None]
    (sample_digest 7) (sample_digest 8)).
Definition sample_request : ManifestV2Frame :=
  ResumeRequest (mkResumeRequest sample_identity sample_offer (sample_digest 1) (sample_digest 2)
    (sample_digest 3)).
Definition sample_cancel (eid : Z) : CancelV2 := mkCancel sample_identity ScopeEntry (Some eid) 1.

Definition sample_frames : list ManifestV2Frame :=
  [Offer sample_offer; sample_accept; sample_block; EntryResult sample_result;
   sample_request; sample_status; Cancel (sample_cancel 9999)].

Definition encoded_frame (f : ManifestV2Frame) : list byte :=
  ok_or_nil (encode_manifest_v2_frame ascii_nfc tail_digest f).
Definition sample_stream : list byte :=
  ok_or_nil (write_frames ascii_nfc tail_digest [] sample_frames).

(** ** Authentication frames *)

Definition sample_start : AuthFrame :=
  AuthStart (mkStart 1 Sender (lit "nonce") (lit "spake2 message") true).

Lemma validate_iff_witness :
  validate ascii_nfc sample_manifest = Ok tt <-> valid_manifest ascii_nfc sample_manifest.
Proof. apply validate_iff. vm_compute. reflexivity. Defined.

Lemma canonical_order_total_witness :
  exists order,
    canonical_order (entries sample_manifest) (length (entries sample_manifest))
      (roots sample_manifest) (children sample_entry_state) [] = Some order /\
    forall i, i ∈ order <-> (i < length (entries sample_manifest))%nat.
Proof.
  apply (canonical_order_total ascii_nfc sample_manifest sample_root_ids sample_entry_state);
    vm_compute; reflexivity.
Defined.

Lemma offer_roundtrip_witness :
  decode_manifest_offer_v2 ascii_nfc tail_digest sample_offer_bytes
    = Ok (mkOffer (tail_digest (encode_manifest_body sample_manifest)) sample_manifest).
Proof.
  apply offer_roundtrip; [exact tail_digest_length|vm_compute; reflexivity|vm_compute; reflexivity].
Defined.

Lemma offer_canonical_witness :
  encode_manifest_offer_v2 ascii_nfc tail_digest (manifest sample_offer) = Ok sample_offer_bytes /\
  wf_manifest (manifest sample_offer) = true /\ valid_manifest ascii_nfc (manifest sample_offer) /\
  structural_digest sample_offer = tail_digest (encode_manifest_body (manifest sample_offer)).
Proof.
  apply (offer_canonical ascii_nfc tail_digest sample_offer_bytes sample_offer);
    [exact tail_digest_length|vm_compute; reflexivity].
Defined.

Lemma frame_roundtrip_witness :
  decode_manifest_v2_frame ascii_nfc tail_digest (encoded_frame sample_status) = Ok sample_status
  <-> wire_faithful sample_status = true.
Proof.
  apply frame_roundtrip; [exact tail_digest_length|vm_compute; reflexivity|vm_compute; reflexivity].
Defined.

Lemma frame_canonical_witness :
  encode_manifest_v2_frame ascii_nfc tail_digest sample_request = Ok (encoded_frame sample_request) /\
  wf_frame sample_request = true.
Proof.
  apply (frame_canonical ascii_nfc tail_digest (encoded_frame sample_request) sample_request);
    [exact tail_digest_length|vm_compute; reflexivity].
Defined.

Lemma stream_roundtrip_witness :
  read_frames ascii_nfc tail_digest 7 (sample_stream ++ lit "rest")
    = Ok (sample_frames, lit "rest").
Proof.
  apply (stream_roundtrip ascii_nfc tail_digest sample_frames sample_stream (lit "rest"));
    [exact tail_digest_length| |vm_compute; reflexivity].
  repeat (constructor; [split; vm_compute; reflexivity|]). constructor.
Defined.

Lemma read_frame_consumes_witness :
  exists bs, encoded_frame sample_block ++ lit "rest" = bs ++ lit "rest" /\
    encode_manifest_v2_frame ascii_nfc tail_digest sample_block = Ok bs /\
    zlen bs <= HEADER_BYTES + ENTRY_BLOCK_FIXED_PAYLOAD_BYTES + MAX_MANIFEST_V2_BLOCK_ENCODED_BYTES.
Proof.
  apply read_frame_consumes; [exact tail_digest_length|vm_compute; reflexivity].
Defined.

Lemma read_frame_oversize_witness :
  read_manifest_v2_frame ascii_nfc tail_digest (frame_header FT_Accept 4194293 ++ lit "..")
    = Err FE_FrameTooLarge.
Proof.
  apply (read_frame_oversize ascii_nfc tail_digest FT_Accept 4194293 4194292 (lit ".."));
    [vm_compute; reflexivity|vm_compute; reflexivity|lia].
Defined.

Lemma cancel_entry_out_of_range_witness :
  decode_manifest_v2_frame ascii_nfc tail_digest (encoded_frame (Cancel (sample_cancel 10000)))
    = Err FE_InvalidEntryId.
Proof.
  apply (cancel_entry_out_of_range ascii_nfc tail_digest sample_identity 10000 1);
    [vm_compute; reflexivity|unfold MAX_MANIFEST_V2_ENTRIES; lia|vm_compute; reflexivity].
Defined.

Lemma auth_frame_roundtrip_witness :
  read_frame (ok_or_nil (write_frame [] sample_start) ++ lit "rest") = Ok (sample_start, lit "rest").
Proof.
  apply auth_frame_roundtrip; [vm_compute; reflexivity|vm_compute; reflexivity].
Defined.

Lemma auth_frame_canonical_witness :
  exists bs, ok_or_nil (write_frame [] sample_start) = bs ++ [] /\
    write_frame [] sample_start = Ok bs /\ wf_auth_frame sample_start = true /\
    zlen bs <= AUTH_HEADER_BYTES + MAX_AUTH_FRAME_BYTES.
Proof. apply auth_frame_canonical. vm_compute. reflexivity. Defined.

From S2P Require Import CancelToken.

(** ** Parameters of the delivery records *)

(** Collision-free stand-ins for the two BLAKE3 modes. *)
Definition plain_derive (ctx : str) (material : list byte) : list byte := material.
Definition plain_keyed (key message : list byte) : list byte := key ++ message.

#[export] Instance SenderDeliveryRecordV2_eq_dec : EqDecision SenderDeliveryRecordV2.
Proof. solve_decision. Defined.
#[export] Instance ReceiverDeliveryRecordV2_eq_dec : EqDecision ReceiverDeliveryRecordV2.
Proof. solve_decision. Defined.

(** A codec for the records of a list: the position of the record. *)
Section ListCodec.
Context {R : Type} `{EqDecision R}.

Fixpoint index_of (r : R) (l : list R) : option nat :=
  match l with
  | [] => None
  | x :: l' => if decide (x = r) then Some O else S <$> index_of r l'
  end.
Definition list_to_vec (l : list R) (r : R) : option (list byte) :=
  (fun i => replicate i (byte_of 0)) <$> index_of r l.
Definition list_from_slice (l : list R) (bytes : list byte) : option R := l !! length bytes.

Lemma index_of_lookup r l i : index_of r l = Some i -> l !! i = Some r.
Proof.
  revert i. induction l as [|x l IH]; intros i H; cbn in H; [done|]. case_decide; simplify_eq/=; [done|].
  destruct (index_of r l) as [j|]; simplify_eq/=. by apply IH.
Qed.

Lemma list_codec l r bytes : list_to_vec l r = Some bytes -> list_from_slice l bytes = Some r.
Proof.
  unfold list_to_vec, list_from_slice. destruct (index_of r l) as [i|] eqn:Hi; [|done].
  cbn. intros [= <-]. rewrite length_replicate. by apply index_of_lookup.
Qed.
End ListCodec.

(** ** A job *)

Definition job_accept : ManifestAcceptV2 :=
  mkAccept sample_identity (structural_digest sample_offer) (sample_digest 2) (sample_digest 3) 1 [] [].
Definition job_results : list EntryResultV2 :=
  map (fun i => mkResult sample_identity i Saved 0 None None) [0; 1; 2; 3].
Definition job_sender_summary : SenderDataPlaneSummaryV2 :=
  mkSenderSummary sample_identity (sample_digest 4) (sample_digest 5) job_results.
Definition job_receiver_summary : ReceiverDataPlaneSummaryV2 :=
  mkReceiverSummary sample_identity (sample_digest 5) job_results.

Definition sender_offering : SenderDeliveryRecordV2 := sender_new sample_offer.
Definition sender_transferring : SenderDeliveryRecordV2 :=
  (commit_accept sender_offering job_accept (sample_digest 4)).1.
Definition sender_waiting : SenderDeliveryRecordV2 :=
  (commit_results sender_transferring job_sender_summary).1.

Definition receiver_saved : ReceiverDeliveryRecordV2 :=
  mkReceiverRecord RECEIVER_DELIVERY_SCHEMA_VERSION sample_identity (structural_digest sample_offer)
    (match result_set_digest_of ascii_nfc tail_digest plain_derive job_results with
     | Ok d => d | Err _ => [] end)
    job_results (sample_digest 3) None.
Definition job_proof : DeliveryProofV2 :=
  build_delivery_proof plain_derive plain_keyed sample_identity (structural_digest sample_offer)
    (rd_result_set_digest receiver_saved) (sample_digest 6) (sample_digest 3).
Definition receiver_proved : ReceiverDeliveryRecordV2 := set_receiver_proof job_proof receiver_saved.
Definition sender_delivered : SenderDeliveryRecordV2 :=
  set_phase Delivered (set_proof job_proof sender_waiting).

Definition sender_records := [sender_offering; sender_transferring; sender_waiting; sender_delivered].
Definition receiver_records := [receiver_saved; receiver_proved].

Abbreviation job_step :=
  (system_step ascii_nfc tail_digest plain_derive plain_keyed (list_to_vec sender_records)
    (list_from_slice sender_records) (list_to_vec receiver_records)
    (list_from_slice receiver_records) sample_offer).
Abbreviation job_sender_store :=
  (sender_delivery_store ascii_nfc tail_digest plain_derive plain_keyed
    (list_to_vec sender_records) (list_from_slice sender_records)).
Abbreviation job_receiver_store :=
  (receiver_delivery_store ascii_nfc tail_digest plain_derive plain_keyed
    (list_to_vec receiver_records) (list_from_slice receiver_records)).

(** The files after a save. *)
Definition saved_sender (fs : files) (r : SenderDeliveryRecordV2) : files :=
  (@save _ job_sender_store fs r NoFault).1.
Definition saved_receiver (fs : files) (r : ReceiverDeliveryRecordV2) : files :=
  (@save _ job_receiver_store fs r NoFault).1.

Definition sfs1 : files := saved_sender ∅ sender_offering.
Definition sfs2 : files := saved_sender sfs1 sender_transferring.
Definition sfs3 : files := saved_sender sfs2 sender_waiting.
Definition sfs4 : files := saved_sender sfs3 sender_delivered.
Definition rfs1 : files := saved_receiver ∅ receiver_proved.

Definition job_waiting : System := mkSystem sfs3 (Some sender_waiting) ∅ None [].
Definition job_done : System :=
  mkSystem sfs4 (Some sender_delivered) rfs1 (Some receiver_proved) [job_proof].

(** A call that returns the files it is said to return, and a result. *)
Ltac returns := apply injective_projections; [reflexivity|vm_compute; reflexivity].

Lemma job_waiting_reachable : rtc job_step system_init job_waiting.
Proof.
  apply (rtc_r _ (mkSystem sfs2 (Some sender_transferring) ∅ None [])).
  - apply (rtc_r _ (mkSystem sfs1 (Some sender_offering) ∅ None [])).
    + apply rtc_once.
      apply (sys_sender_open _ _ _ _ _ _ _ _ _ system_init None NoFault sfs1 (Ok tt));
        [vm_compute; reflexivity|vm_compute; reflexivity|returns].
    + apply (sys_sender_accept _ _ _ _ _ _ _ _ _ (mkSystem sfs1 (Some sender_offering) ∅ None [])
        sender_offering job_accept (sample_digest 4) sender_transferring NoFault sfs2 (Ok tt));
        [reflexivity|returns|returns].
  - apply (sys_sender_results _ _ _ _ _ _ _ _ _ (mkSystem sfs2 (Some sender_transferring) ∅ None [])
      sender_transferring job_sender_summary sender_waiting NoFault sfs3 (Ok tt));
      [reflexivity|vm_compute; reflexivity|returns|returns].
Qed.

Lemma job_proved_reachable :
  rtc job_step system_init
    (mkSystem sfs3 (Some sender_waiting) rfs1 (Some receiver_proved) [job_proof]).
Proof.
  apply (rtc_r _ (mkSystem sfs3 (Some sender_waiting) ∅ (Some receiver_saved) [])).
  - eapply rtc_r; [exact job_waiting_reachable|].
    apply (sys_receiver_open _ _ _ _ _ _ _ _ _ job_waiting None job_accept job_receiver_summary
      receiver_saved); vm_compute; reflexivity.
  - apply (sys_receiver_prove _ _ _ _ _ _ _ _ _
      (mkSystem sfs3 (Some sender_waiting) ∅ (Some receiver_saved) []) receiver_saved
      (Some (sample_digest 6)) NoFault true receiver_proved rfs1 (Some (DeliveryProof job_proof))
      (Ok job_proof)); [reflexivity|].
    unfold receiver_send_proof. change (rd_delivery_proof receiver_saved) with (@None DeliveryProofV2).
    cbv iota beta zeta.
    change (set_receiver_proof _ receiver_saved) with receiver_proved.
    assert (H : @save _ job_receiver_store ∅ receiver_proved NoFault = (rfs1, Ok tt)) by returns.
    change (r_files _) with (∅ : files). by rewrite H.
Qed.

Lemma job_done_reachable : rtc job_step system_init job_done.
Proof.
  eapply rtc_r; [exact job_proved_reachable|].
  apply (sys_sender_confirm _ _ _ _ _ _ _ _ _
    (mkSystem sfs3 (Some sender_waiting) rfs1 (Some receiver_proved) [job_proof]) sender_waiting
    (Some (DeliveryProof job_proof)) NoFault sender_delivered sfs4 (Ok job_proof)).
  - reflexivity.
  - intros p [= <-]. by left.
  - assert (H : @save _ job_sender_store sfs3 sender_delivered NoFault = (sfs4, Ok tt)) by returns.
    rewrite (confirm_fitting _ _ _ _ _ _ sender_waiting sfs3 job_proof NoFault sfs4 (Ok tt));
      [done|reflexivity| |exact H].
    exists job_accept, (rd_result_set_digest receiver_saved).
    repeat split; vm_compute; reflexivity.
Qed.

(** ** Witnesses *)

Lemma delivered_agreement_witness :
  exists r p, @load _ job_receiver_store (r_files job_done) (identity_of sample_offer) = Ok (Some r) /\
    sd_delivery_proof sender_delivered = Some p /\ rd_delivery_proof r = Some p /\
    sd_identity sender_delivered = rd_identity r /\
    sd_manifest_digest sender_delivered = rd_manifest_digest r /\
    sd_entry_results sender_delivered = rd_entry_results r.
Proof.
  apply (delivered_agreement ascii_nfc tail_digest plain_derive plain_keyed
    (list_to_vec sender_records) (list_from_slice sender_records)
    (list_to_vec receiver_records) (list_from_slice receiver_records) sample_offer
    (list_codec sender_records) (list_codec receiver_records) job_done sender_delivered).
  - exact tail_digest_length.
  - by intros ctx a b Heq.
  - exact job_done_reachable.
  - vm_compute. reflexivity.
  - reflexivity.
Defined.

Lemma delivered_is_final_witness :
  @load _ job_sender_store (s_files job_done) (identity_of sample_offer) = Ok (Some sender_delivered).
Proof.
  apply (delivered_is_final ascii_nfc tail_digest plain_derive plain_keyed
    (list_to_vec sender_records) (list_from_slice sender_records)
    (list_to_vec receiver_records) (list_from_slice receiver_records) sample_offer
    (list_codec sender_records) (list_codec receiver_records) job_done
    (with_sender job_done (s_files job_done) None) sender_delivered).
  - exact job_done_reachable.
  - vm_compute. reflexivity.
  - reflexivity.
  - apply sys_sender_lost.
Defined.

Lemma delivery_completes_witness :
  exists rfs' sfs',
    receiver_send_proof ascii_nfc tail_digest plain_derive plain_keyed
      (list_to_vec receiver_records) (list_from_slice receiver_records) receiver_saved ∅
      (Some (sample_digest 6)) NoFault true
      = (receiver_proved, rfs', Some (DeliveryProof job_proof), Ok job_proof) /\
    @load _ job_receiver_store rfs' (identity_of sample_offer) = Ok (Some receiver_proved) /\
    sender_confirm_delivery ascii_nfc tail_digest plain_derive plain_keyed
      (list_to_vec sender_records) (list_from_slice sender_records) sender_waiting sfs3
      (Some (DeliveryProof job_proof)) NoFault = (sender_delivered, sfs', Ok job_proof) /\
    @load _ job_sender_store sfs' (identity_of sample_offer) = Ok (Some sender_delivered).
Proof.
  apply (delivery_completes ascii_nfc tail_digest plain_derive plain_keyed
    (list_to_vec sender_records) (list_from_slice sender_records)
    (list_to_vec receiver_records) (list_from_slice receiver_records) sample_offer
    (list_codec sender_records) (list_codec receiver_records)
    job_accept job_receiver_summary receiver_saved (sample_digest 6) sender_waiting sfs3 ∅).
  1-2: eexists; vm_compute; reflexivity.
  all: vm_compute; reflexivity.
Defined.

Lemma sender_record_consistent_witness :
  let '(r', res) := commit_results sender_transferring job_sender_summary in
  sender_validate ascii_nfc tail_digest plain_derive plain_keyed r' = Ok tt /\
  (res = Ok tt \/ r' = sender_transferring).
Proof.
  destruct (sender_record_consistent ascii_nfc tail_digest plain_derive plain_keyed
    (list_to_vec sender_records) (list_from_slice sender_records) sample_offer sender_transferring
    job_accept (sample_digest 4) job_sender_summary ∅ None NoFault) as [_ H].
  destruct H as (_ & H & _); [vm_compute; reflexivity|].
  apply H. split; [discriminate|vm_compute; reflexivity].
Defined.

Lemma delivery_save_atomic_witness :
  let '(fs', res) := @save _ job_sender_store sfs1 sender_transferring SyncFault in
  (@load _ job_sender_store fs' (@record_identity _ job_sender_store sender_transferring) = Ok (Some sender_transferring) \/
   res <> Ok tt /\ @load _ job_sender_store fs' (@record_identity _ job_sender_store sender_transferring)
     = @load _ job_sender_store sfs1 (@record_identity _ job_sender_store sender_transferring)) /\
  @load _ job_sender_store fs' (mkJobGeneration (replicate 16 (byte_of 9)) 1)
    = @load _ job_sender_store sfs1 (mkJobGeneration (replicate 16 (byte_of 9)) 1).
Proof.
  apply (@delivery_save_atomic _ job_sender_store (list_codec sender_records) sfs1
    sender_transferring SyncFault (mkJobGeneration (replicate 16 (byte_of 9)) 1));
    [vm_compute; reflexivity|vm_compute; reflexivity|vm_compute; discriminate].
Defined.

Lemma pause_seen_when_cancelled_witness :
  paused (pause_cancel (pause_store token_new)) = true.
Proof.
  apply pause_seen_when_cancelled; [|by left].
  eapply rtc_r; [apply rtc_once, tok_pause|]. apply tok_pause_cancel. cbn. lia.
Defined.
