(* ===== verification/BrokerWitnesses.v ===== *)
(** The conditional properties of the broker and of the stage timeline at
    concrete inputs, their hypotheses discharged by evaluation. *)

From stdpp Require Import prelude gmap strings sorting.
From Stdlib Require Import ZArith Lia Strings.Byte.
From S2P Require Import Prelude Bytes OfferCodec BrokerConfig TokenBucket Sources Rooms RoomsInv.
From S2P Require Import RoomsTheorem Timeline Relay Broker RoomSpec.

Local Open Scope Z_scope.

(** ** Sources *)

Lemma bucket_burst_witness :
  grants 100 (bucket_new (room_attempt_rate default_config) 5) 5
    = Z.min (Z.of_nat 100) (burst (room_attempt_rate default_config)).
Proof. apply bucket_burst; vm_compute; reflexivity. Defined.

Lemma source_accounting_witness :
  (forall key, active (st_entries overflow_trace) key = occ (st_guards overflow_trace) key /\
     occ (st_guards overflow_trace) key
       <= max_connections_per_endpoint (with_source_states 3 default_config)) /\
  source_size (st_entries overflow_trace) <= max_source_states (with_source_states 3 default_config) + 3.
Proof.
  apply source_accounting; [vm_compute; reflexivity|vm_compute; reflexivity|].
  unfold overflow_trace. cbv zeta.
  apply reach_admit, reach_drop, reach_admit, reach_drop, reach_admit, reach_admit, rtc_refl.
Defined.

(** ** Rooms *)

(** A creator waits in room 111111. *)
Definition one_parked : BrokerState :=
  after_creator waiting_config (invitation_creator (lit "111111")) 0 broker_init.

Lemma one_parked_reachable : broker_reachable waiting_config 1 one_parked.
Proof. apply reach_creator; [vm_compute; reflexivity|reflexivity|apply nsteps_O]. Qed.

Lemma room_accounting_witness :
  Z.of_nat (size (rooms (registry one_matched))) <= max_room_states waiting_config /\
  forall rid room, rooms (registry one_matched) !! rid = Some room ->
    active_connections room = occ (guards one_matched) (rid, instance room) /\
    active_connections room <= max_connections_per_room waiting_config.
Proof.
  apply (room_accounting waiting_config 2);
    [vm_compute; reflexivity|vm_compute; reflexivity|unfold u64_max; lia|exact one_matched_reachable].
Defined.

Lemma room_attempt_budget_witness :
  occ (matches one_matched) (lit "111111", 0) = 1 /\
  occ (matches one_matched) (lit "111111", 0)
    <= (if is_remembered_room_id (lit "111111") then 1 else room_attempt_limit waiting_config).
Proof.
  split; [vm_compute; reflexivity|]. apply (room_attempt_budget waiting_config 2);
    [vm_compute; reflexivity|vm_compute; reflexivity|unfold u64_max; lia|exact one_matched_reachable].
Defined.

Lemma joiner_matched_iff_witness :
  exists room w,
    rooms (registry one_parked) !! lit "111111" = Some room /\
    status room = Live /\ consumed room = false /\ 0 < expires_at room /\
    active_connections room < max_connections_per_room waiting_config /\
    waiter room = Some w /\ waiter_id w = 1 /\
    is_Some (joins_match (waiter_join w) (invitation_joiner (lit "111111"))) /\
    rate_grants room 0 /\ (lit "111111", 0) = (lit "111111", instance room).
Proof.
  apply (joiner_matched_iff waiting_config 1 one_parked (invitation_joiner (lit "111111")) 0 true 1
           (lit "111111", 0));
    [vm_compute; reflexivity|vm_compute; reflexivity|unfold u64_max; lia|exact one_parked_reachable|].
  vm_compute. reflexivity.
Defined.

Lemma match_pairs_complementary_witness :
  exists creator m, room_id creator = lit "111111" /\ validate_join creator = Ok tt /\
    role_for creator = Responder /\ role_for (invitation_joiner (lit "111111")) = Initiator /\
    transfer_role (invitation_joiner (lit "111111")) = complement (transfer_role creator) /\
    Some RoomCode = Some m /\ m ∈ bootstrap_methods creator.
Proof.
  apply (match_pairs_complementary waiting_config 1 one_parked (invitation_joiner (lit "111111"))
           0 true 1 (lit "111111", 0));
    [vm_compute; reflexivity|vm_compute; reflexivity|unfold u64_max; lia|exact one_parked_reachable
    |reflexivity|vm_compute; reflexivity].
Defined.

(** The room of [one_parked], expired at its deadline. *)
Definition parked_room : RoomState :=
  mkRoomState 0 0 0 false (bucket_new (room_attempt_rate waiting_config) 0) 1 None
    (Expired (from_secs 60)) true.
Definition expired_registry : Registry :=
  mkRegistry {[ lit "111111" := parked_room ]} 2 metrics_zero.

Lemma closed_room_refuses_witness :
  let '(reg1, d1) := serve_creator waiting_config expired_registry
                       (invitation_creator (lit "111111")) 7 in
  let '(reg2, d2) := serve_joiner waiting_config expired_registry
                       (invitation_creator (lit "111111")) 7 true in
  d1 = CreatorRejected (mkRejection RoomExpired None) /\
  rooms reg1 !! lit "111111" = Some parked_room /\
  d2 = JoinerRejected (mkRejection RoomExpired None) None /\
  rooms reg2 !! lit "111111" = Some parked_room.
Proof.
  apply (closed_room_refuses waiting_config expired_registry (invitation_creator (lit "111111")) 7
           true parked_room RoomExpired (from_secs 60));
    [vm_compute; reflexivity|reflexivity|left; vm_compute; reflexivity].
Defined.

Lemma retry_after_capped_witness :
  (forall reg' r, serve_creator waiting_config (registry one_parked)
      (invitation_creator (lit "111111")) 9 = (reg', CreatorRejected r) -> capped waiting_config r) /\
  (forall reg' r g, serve_joiner waiting_config (registry one_parked)
      (invitation_creator (lit "111111")) 9 true = (reg', JoinerRejected r g) ->
    capped waiting_config r).
Proof. apply retry_after_capped; vm_compute; reflexivity. Defined.

Lemma joins_match_complementary_witness :
  joins_match (invitation_creator (lit "111111")) (invitation_joiner (lit "111111")) = Some RoomCode /\
  joins_match (invitation_joiner (lit "111111")) (invitation_creator (lit "111111"))
    = joins_match (invitation_creator (lit "111111")) (invitation_joiner (lit "111111")).
Proof.
  apply (joins_match_complementary (invitation_creator (lit "111111"))
           (invitation_joiner (lit "111111"))); vm_compute; reflexivity.
Defined.


(** ** Timeline *)

(** Two stages recorded, the first popped and delivered. *)
Definition two_stages : @Dispatch Z :=
  let d := enqueue (dispatch_new (Some 1)) Send 0 SessionStarted 5 in
  let d := pop_event (enqueue d Send 0 ManifestOffer 9) in
  match in_hand d with Some event => deliver d event | None => d end.

Lemma two_stages_reachable : dispatch_reachable (Some 1) two_stages.
Proof.
  unfold dispatch_reachable. eapply rtc_r.
  - eapply rtc_r.
    + eapply rtc_r; [apply rtc_once, (dstep_record _ Send 0 SessionStarted 5)|].
      apply (dstep_record _ Send 0 ManifestOffer 9).
    + apply dstep_pop; vm_compute; reflexivity.
  - apply dstep_deliver. vm_compute. reflexivity.
Qed.

Lemma timeline_delivery_witness :
  recorded two_stages
    = delivered two_stages ++ option_list (in_hand two_stages) ++ pending_events two_stages /\
  StronglySorted later (recorded two_stages) /\
  (dispatching two_stages = false -> delivered two_stages = recorded two_stages).
Proof. apply (timeline_delivery (Some 1)). exact two_stages_reachable. Defined.

Lemma timeline_deltas_witness :
  foldr (fun e n => ev_delta_us e + n) 0 (recorded two_stages) = 9 /\
  forall e, last (recorded two_stages) = Some e -> ev_elapsed_us e = 9.
Proof. apply (timeline_deltas (Some 1) two_stages). exact two_stages_reachable. Defined.

(** ** Frames and replies *)

Lemma control_roundtrip_witness :
  read_framed_with_limit (@Some (list byte)) 16 (push_u32 4 ++ lit "join" ++ lit "rest")
    = Ok (lit "join", lit "rest").
Proof.
  apply (control_roundtrip (@Some (list byte)) Some (lit "join") (lit "join")
           (push_u32 4 ++ lit "join") 16 (lit "rest"));
    [reflexivity|reflexivity|vm_compute; reflexivity|vm_compute; discriminate].
Defined.

Lemma relay_complete_witness :
  relay_frames 64 (concat (map framed [lit "one"; lit "two"])) Relay.Closed Unlimited
    = Some (concat (map framed [lit "one"; lit "two"]), Ok tt).
Proof.
  apply relay_complete. repeat constructor; vm_compute; discriminate.
Defined.

Definition fresh_broker : Broker := mkBrokerService ∅ registry_new.
Definition first_source : PeerSource := mkSource (replicate 32 (byte_of 1)) None.
Definition bad_join : Join := invitation_creator (lit "").

Lemma serve_from_gate_witness :
  let '(b', out) := serve_from default_config fresh_broker first_source 0 (JoinRead_ bad_join) 1 true in
  rooms (br_registry b') = rooms (br_registry fresh_broker) /\
  next_id (br_registry b') = next_id (br_registry fresh_broker) /\ room_guard out = None /\
  forall key r g, out = JoinRefused key r g ->
    (outcome r = MalformedJoin \/ outcome r = UnsupportedVersion) /\ retry_after r = None.
Proof.
  destruct (serve_from default_config fresh_broker first_source 0 (JoinRead_ bad_join) 1 true)
    as [b' out] eqn:H.
  apply (serve_from_gate default_config fresh_broker first_source 0 (JoinRead_ bad_join) 1 true b' out);
    [|exact H]. intros join [= <-]. vm_compute. discriminate.
Defined.

Lemma pair_replies_opposite_witness :
  let p := mkPaired Responder RoomCode in let q := mkPaired Initiator RoomCode in
  paired_method p = paired_method q /\
  ((paired_role p = Responder /\ Creator = Creator /\ paired_role q = Initiator /\ Joiner = Joiner) \/
   (paired_role p = Initiator /\ Creator = Joiner /\ paired_role q = Responder /\ Joiner = Creator)).
Proof.
  apply (pair_replies_opposite (invitation_creator (lit "111111")) (invitation_joiner (lit "111111"))).
  vm_compute. reflexivity.
Defined.

Lemma creator_wait_ends_witness :
  exists reg reply r,
    wait_for_joiner waiting_config (registry one_parked) (invitation_creator (lit "111111")) 1
      (WaitLapsed (from_secs 601)) = Some (reg, reply, r) /\
    r <> Ok tt /\ forall room, rooms reg !! lit "111111" = Some room -> waits_as room 1 = false.
Proof.
  apply (creator_wait_ends waiting_config 1 one_parked (invitation_creator (lit "111111")) 1
           (WaitLapsed (from_secs 601)));
    [vm_compute; reflexivity|vm_compute; reflexivity|unfold u64_max; lia|exact one_parked_reachable].
Defined.
