(* ===== verification/TransferWitnesses.v ===== *)
(** The conditional properties of the data plane and of the local destination at
    concrete inputs: a job of a directory with a file and a second file, planned,
    accepted, sent and saved. *)

From stdpp Require Import prelude gmap strings.
From Stdlib Require Import ZArith Lia Strings.Byte.
From S2P Require Import Prelude Bytes ManifestV2 ManifestSpec ValidateTheorem OfferCodec Frames Timeline Delivery Ledger Names Proc.
From S2P Require Import ReceivePlane LedgerInv ReceiveInv ReceiveSafe SendPlane Agreement Resume Transfer LocalTransfer.
From S2P Require Import LocalFs Destination Provider ProviderCommit FsProof ProviderSafe CommitSafe DirectSave DestinationProof CreatePlan.
From S2P Require Import Witnesses.

Local Open Scope Z_scope.

(** ** The job *)

Definition content_of (eid : Z) : list byte := if eid =? 1 then lit "abc" else lit "xy".
Definition job_manifest : ManifestV2 :=
  mkManifest (lit "0123456789abcdef") 1 1 Never
    [mkRoot 0 0 (lit "docs") Complete; mkRoot 1 2 (lit "b.txt") Complete]
    [mkEntry 0 0 None (lit "docs") Directory 0 Deferred;
     mkEntry 1 0 (Some 0) (lit "a.txt") RegularFile 3 Deferred;
     mkEntry 2 1 None (lit "b.txt") RegularFile 2 (Known (tail_digest (lit "xy")))]
    (mkTotals 2 1 5).
Definition job_offer : ManifestOfferV2 := mkOffer (tail_digest (encode_manifest_body job_manifest)) job_manifest.

(** An empty disk. *)
Definition empty_disk : Fs := mkFs {[ [] := DirNode 0 ]} ∅ 1 [].
Definition job_request : DestinationRequestV2 :=
  mkRequest [lit "home"] None UseDirectSave (Some (2 ^ 40)) None true false None.
Definition no_lowercase (s : str) : str := s.
Definition one_volume (p : path) : str := lit "v".
Definition one_device (p : path) : Z := 7.

Definition made := create OtherOs no_lowercase tail_digest one_volume (lit "1") job_offer job_request empty_disk.
Definition dummy_plan : DestinationWritePlanV2 :=
  mkPlan [] 0 DirectSave (mkStorageDomain [] [] false) 0 [] false [] [] [] [].
Definition job_plan : DestinationWritePlanV2 := Eval vm_compute in match made.2 with Ok plan => plan | Err _ => dummy_plan end.

Definition opened_at := new_provider OtherOs no_lowercase ascii_nfc tail_digest one_volume (fun _ => Some [])
  (fun _ => None) (fun _ => None) job_plan job_manifest [] [Some (sample_digest 1); Some (sample_digest 2)] (made.1, ∅).
Definition dummy_provider : Provider :=
  mkProvider dummy_plan job_manifest [] [] ∅ ∅ (mkSaveLedger 0 [] 0 [] []) empty_disk ∅ [] [].
Definition job_provider : Provider := match opened_at.2 with Ok p => p | Err _ => dummy_provider end.

Definition dummy_accept : ManifestAcceptV2 := mkAccept sample_identity [] [] [] 0 [] [].
Definition accept_of_plan := create_initial_accept job_plan job_offer (Some (sample_digest 3)) (Some (sample_digest 4)).
Definition the_accept : ManifestAcceptV2 := Eval vm_compute in match accept_of_plan with Ok a => a | Err _ => dummy_accept end.
Definition dummy_ledger : ReceiverDataPlaneLedgerV2 := mkLedger 0 sample_identity [] dummy_accept [] [] None.
Definition first_ledger : ReceiverDataPlaneLedgerV2 := Eval vm_compute in
  match ledger_new ascii_nfc tail_digest job_offer the_accept with Ok l => l | Err _ => dummy_ledger end.

(** ** A session *)

#[export] Instance memory_source : FileSource unit := {
  source_for_sealed_entry := fun _ s => (s, Ok tt);
  source_open := fun eid s => (s, Ok (content_of eid));
  source_verify_unchanged := fun _ s => (s, Ok tt);
  hash_is_finished := fun _ s => (s, Ok false);
  hash_result := fun eid s => (s, Ok (tail_digest (content_of eid)));
}.
Definition no_zstd (_ : list byte) : option (list byte) := None.
Definition no_unzstd (_ : list byte) (_ : Z) : option (list byte) := None.

#[export] Instance ReceiverEntryCheckpointV2_eq_dec : EqDecision ReceiverEntryCheckpointV2.
Proof. solve_decision. Defined.
#[export] Instance ReceiverDataPlaneLedgerV2_eq_dec : EqDecision ReceiverDataPlaneLedgerV2.
Proof. solve_decision. Defined.

Abbreviation job_sink := (local_sink OtherOs tail_digest plain_derive one_device (fun _ => Some [])).
Abbreviation run_receive ledgers :=
  (@receive ascii_nfc tail_digest no_unzstd (list_to_vec ledgers) Provider job_sink noop_commit_results
     (mkOffer (structural_digest job_offer) job_manifest)).
Abbreviation run_send records :=
  (send ascii_nfc tail_digest plain_derive plain_keyed no_zstd (list_to_vec records) (list_from_slice records)
     (Some job_manifest) (Some (sample_digest 5))).

Definition ledger_files_of (ledgers : list ReceiverDataPlaneLedgerV2) : files :=
  (ledger_save (list_to_vec ledgers) ∅ first_ledger NoFault).1.
Definition receiver_world (ledgers : list ReceiverDataPlaneLedgerV2) (frames : list ManifestV2Frame) :=
  mkWorld frames [] 100 [] (ledger_files_of ledgers) first_ledger job_provider 0 [].
Definition first_record : SenderDeliveryRecordV2 := sender_new job_offer.
Definition sender_world (frames : list ManifestV2Frame) :=
  mkWorld frames [] 100 [] ∅ first_record tt 0 [].

(** A run that meets a record outside of the list stops there: the list grows until
    none does, and the conversation until both ends return. *)
Fixpoint talk (n : nat) (ledgers : list ReceiverDataPlaneLedgerV2) (records : list SenderDeliveryRecordV2)
    (to_receiver to_sender : list ManifestV2Frame) :=
  match n with
  | O => (ledgers, records, to_receiver, to_sender)
  | S n =>
    let '(ws, _) := run_send records (sender_world to_sender) in
    let '(wr, _) := run_receive ledgers (receiver_world ledgers to_receiver) in
    let grow {A} `{EqDecision A} (l : list A) x := if decide (x ∈ l) then l else l ++ [x] in
    talk n (grow ledgers (record wr)) (grow records (record ws))
      (tail (outgoing ws).*1) (Accept the_accept :: (outgoing wr).*1)
  end.
Definition talked := Eval vm_compute in talk 30 [first_ledger] [first_record] [] [Accept the_accept].

(** ** What holds of it *)

(** [fs_wf], decided. *)
Definition fs_check (fs : Fs) : bool :=
  let l := map_to_list (nodes fs) in
  let files := omap (fun kv : path * Node => match kv.2 with FileNode i => Some i | DirNode _ => None end) l in
  forallb (fun kv : path * Node => bool_decide (kv.1 = []) ||
    match nodes fs !! removelast kv.1 with Some (DirNode _) => true | _ => false end) l
  && forallb (fun i => (i <? next_ino fs) && bool_decide (is_Some (contents fs !! i))) files
  && bool_decide (NoDup files).
Lemma fs_check_wf fs : fs_check fs = true -> fs_wf fs.
Proof.
  unfold fs_check. set (l := map_to_list (nodes fs)). set (files := omap _ l). intros H.
  apply andb_true_iff in H as [H H3]. apply andb_true_iff in H as [H1 H2]. rewrite forallb_forall in H1.
  rewrite forallb_forall in H2. apply bool_decide_eq_true in H3.
  assert (Hin : forall q n, nodes fs !! q = Some n -> (q, n) ∈ l) by (intros; by apply elem_of_map_to_list).
  assert (Hfile : forall q i, nodes fs !! q = Some (FileNode i) -> i ∈ files).
  { intros q i Hq. apply list_elem_of_omap. exists (q, FileNode i). auto. }
  constructor.
  - intros q n Hq Hne. specialize (H1 _ (proj1 (list_elem_of_In _ _) (Hin q n Hq))). cbn in H1.
    rewrite bool_decide_eq_false_2 in H1 by done. cbn in H1. destruct (nodes fs !! removelast q) as [[i|i]|]; [eauto|done..].
  - intros q i Hq. specialize (H2 _ (proj1 (list_elem_of_In _ _) (Hfile q i Hq))).
    apply andb_true_iff in H2 as [H2 Hc]. apply bool_decide_eq_true in Hc. split; [lia|done].
  - intros q q' i Hq Hq'. apply Hin, list_elem_of_lookup in Hq as [a Ha]. apply Hin, list_elem_of_lookup in Hq' as [b Hb].
    assert (Hab : a = b); [|subst; rewrite Ha in Hb; by injection Hb].
    clear -Ha Hb H3. unfold files in H3. clear files. revert a b Ha Hb. induction l as [|x l IH]; intros a b Ha Hb; [done|].
    assert (Hlater : forall (k : nat) q, l !! k = Some (q, FileNode i) ->
      i ∈ omap (fun kv : path * Node => match kv.2 with FileNode i => Some i | DirNode _ => None end) l).
    { intros k q0 Hk. apply list_elem_of_omap. exists (q0, FileNode i). split; [by eapply list_elem_of_lookup_2|done]. }
    destruct a as [|a], b as [|b]; cbn in Ha, Hb; [done| | |f_equal; apply IH; [|done..]].
    + injection Ha as ->. cbn in H3. apply NoDup_cons in H3 as [Hno _]. destruct Hno. by eapply Hlater.
    + injection Hb as ->. cbn in H3. apply NoDup_cons in H3 as [Hno _]. destruct Hno. by eapply Hlater.
    + cbn in H3. destruct x as [q0 [j|j]]; cbn in H3; [done|]. by apply NoDup_cons in H3 as [_ H3].
Qed.

Lemma pair_ok {W E A} (x : W * result E A) a : x.2 = Ok a -> x = (x.1, Ok a).
Proof. destruct x as [w r]. cbn. by intros ->. Qed.
Lemma made_wf : fs_wf (made.1, ∅ : files).1.
Proof. apply fs_check_wf. vm_compute. reflexivity. Qed.
Lemma made_ok : create OtherOs no_lowercase tail_digest one_volume (lit "1") job_offer job_request empty_disk
  = (made.1, Ok job_plan).
Proof. apply (pair_ok made). vm_compute. reflexivity. Qed.
Lemma opened_ok : new_provider OtherOs no_lowercase ascii_nfc tail_digest one_volume (fun _ => Some [])
  (fun _ => None) (fun _ => None) job_plan job_manifest [] [Some (sample_digest 1); Some (sample_digest 2)] (made.1, ∅)
  = (opened_at.1, Ok job_provider).
Proof.
  assert (H : is_ok opened_at.2 = true) by (vm_compute; reflexivity). unfold job_provider.
  match goal with |- ?x = _ => change x with opened_at end. by destruct opened_at as [w [p|e]].
Qed.
Lemma accept_ok : accept_of_plan = Ok the_accept.
Proof. vm_compute. reflexivity. Qed.

Lemma forall_vec_get {A} (P : A -> Prop) l : Forall P l -> forall i x, vec_get l i = Some x -> P x.
Proof. intros Hl i x [_ Hx]%vec_get_Some. by eapply Forall_lookup_1. Qed.
Lemma job_plan_private : plan_private (pv_plan job_provider).
Proof.
  split; [|by vm_compute]. intros _.
  apply (forall_vec_get (fun rp => planned_name rp <> STAGING_NAME /\ planned_name rp <> RESERVATIONS_NAME)).
  apply (bool_decide_unpack _). vm_compute. exact I.
Qed.
Lemma provider_good : good job_provider.
Proof.
  apply (opened_good OtherOs no_lowercase ascii_nfc tail_digest one_volume (fun _ => Some []) (fun _ => None)
    (fun _ => None) job_plan job_manifest [] [Some (sample_digest 1); Some (sample_digest 2)] (made.1, ∅) opened_at.1).
  - vm_compute. reflexivity.
  - exact made_wf.
  - exact opened_ok.
  - exact job_plan_private.
Qed.

(** The first ledger is true, and stored. *)
Definition ledgers := Eval vm_compute in talked.1.1.1.
Definition records := Eval vm_compute in talked.1.1.2.
Definition to_receiver := Eval vm_compute in talked.1.2.
Definition to_sender := Eval vm_compute in talked.2.
Definition receiver_at := receiver_world ledgers to_receiver.
Definition sender_at := sender_world to_sender.
Definition received := run_receive ledgers receiver_at.
Definition sent := run_send records sender_at.
Definition dummy_receiver_summary : ReceiverDataPlaneSummaryV2 := mkReceiverSummary sample_identity [] [].
Definition dummy_sender_summary : SenderDataPlaneSummaryV2 := mkSenderSummary sample_identity [] [] [].
Definition receiver_summary := Eval vm_compute in match received.2 with Ok s => s | Err _ => dummy_receiver_summary end.
Definition sender_summary := Eval vm_compute in match sent.2 with Ok s => s | Err _ => dummy_sender_summary end.

Lemma received_ok : run_receive ledgers receiver_at = (received.1, Ok receiver_summary).
Proof. apply (pair_ok received). vm_compute. reflexivity. Qed.
Lemma sent_ok : run_send records sender_at = (sent.1, Ok sender_summary).
Proof. apply (pair_ok sent). vm_compute. reflexivity. Qed.

Lemma first_ledger_ok V : ledger_ok ascii_nfc tail_digest job_manifest V first_ledger.
Proof.
  apply (fresh_ledger ascii_nfc tail_digest _ V the_accept _ job_offer).
  - vm_compute. reflexivity.
  - unfold wf_plans. apply (bool_decide_unpack _). vm_compute. exact I.
  - vm_compute. reflexivity.
  - vm_compute. reflexivity.
Qed.

Abbreviation job_start := (@session_start ascii_nfc tail_digest (list_to_vec ledgers) (list_from_slice ledgers)
  Provider job_sink (verified_in tail_digest)
  (local_sink_safety OtherOs tail_digest plain_derive one_device (fun _ => Some []))).
Lemma session_ready : job_start job_manifest receiver_at.
Proof.
  split; [vm_compute; reflexivity|]. split; [apply list_codec|]. split; [apply first_ledger_ok|].
  split; [vm_compute; reflexivity|]. split; [reflexivity|]. exact provider_good.
Qed.
Lemma session_connected : connected sender_at sent.1 receiver_at received.1.
Proof. split; [reflexivity|]. split; eexists; vm_compute; reflexivity. Qed.

(** ** The data plane *)

Lemma receive_keeps_ledger_witness :
  exists l, ledger_load (list_from_slice ledgers) (store received.1)
    (mkJobGeneration (job_id job_manifest) (generation job_manifest)) = Ok (Some l) /\
    completed_summary l = Some receiver_summary.
Proof.
  destruct (receive_keeps_ledger ascii_nfc tail_digest no_unzstd (list_to_vec ledgers) (list_from_slice ledgers)
    (verified_in tail_digest) noop_commit_results (mkOffer (structural_digest job_offer) job_manifest) receiver_at received.1 (Ok receiver_summary)
    session_ready received_ok) as (l & Hload & _ & Hsum).
  exists l. split; [exact Hload|apply Hsum; reflexivity].
Defined.

Lemma received_answers : exists f fs, (f, fs) ∈ outgoing received.1.
Proof.
  assert (H : (match outgoing received.1 with [] => false | _ => true end) = true) by (vm_compute; reflexivity).
  revert H. generalize (outgoing received.1). intros [|[f fs] rest] H; [discriminate H|]. exists f, fs. left.
Qed.
Lemma receive_writes_ahead_witness :
  exists f fs, (f, fs) ∈ outgoing received.1 /\ backed (list_from_slice ledgers) job_manifest f fs.
Proof.
  destruct received_answers as (f & fs & Hin). exists f, fs. split; [exact Hin|].
  exact (receive_writes_ahead ascii_nfc tail_digest no_unzstd (list_to_vec ledgers) (list_from_slice ledgers)
    (verified_in tail_digest) noop_commit_results (mkOffer (structural_digest job_offer) job_manifest) receiver_at received.1 (Ok receiver_summary)
    f fs session_ready received_ok Hin).
Defined.

Definition file_entry : ManifestEntryV2 := mkEntry 1 0 (Some 0) (lit "a.txt") RegularFile 3 Deferred.

Lemma receive_saves_verified_witness :
  exists r, rsum_entry_results receiver_summary !! 1%nat = Some r /\ er_entry_id r = 1.
Proof.
  destruct (receive_saves_verified ascii_nfc tail_digest no_unzstd (list_to_vec ledgers) (list_from_slice ledgers)
    (verified_in tail_digest) noop_commit_results (mkOffer (structural_digest job_offer) job_manifest) receiver_at received.1 receiver_summary 1 file_entry
    session_ready received_ok eq_refl) as (r & Hr & Hid & _).
  exists r. split; [exact Hr|exact Hid].
Defined.

Lemma summaries_agree_witness :
  ss_identity sender_summary = rsum_identity receiver_summary /\
  ss_completion_set_digest sender_summary = rsum_completion_set_digest receiver_summary /\
  ss_entry_results sender_summary = rsum_entry_results receiver_summary.
Proof.
  exact (summaries_agree ascii_nfc tail_digest plain_derive plain_keyed no_zstd no_unzstd
    (list_to_vec records) (list_from_slice records) (list_to_vec ledgers) (list_from_slice ledgers)
    (verified_in tail_digest) noop_commit_results job_manifest (structural_digest job_offer)
    (Some (sample_digest 5)) sender_at sent.1 receiver_at received.1 sender_summary receiver_summary
    session_ready session_connected sent_ok received_ok).
Defined.

Definition file_result : EntryResultV2 :=
  mkResult (mkJobGeneration (job_id job_manifest) 1) 1 Saved 3 (Some (tail_digest (lit "abc"))) None.
Lemma file_result_saved : rsum_entry_results receiver_summary !! 1%nat = Some file_result.
Proof. vm_compute. reflexivity. Qed.
Lemma source_reads eid (s s' : unit) bytes : source_open eid s = (s', Ok bytes) -> bytes = content_of eid.
Proof. intros [= <- <-]. reflexivity. Qed.

Lemma transfer_integrity_witness : verified_in tail_digest (sink received.1) file_entry (tail_digest (lit "abc")).
Proof.
  apply (transfer_integrity ascii_nfc tail_digest plain_derive plain_keyed no_zstd no_unzstd
    (list_to_vec records) (list_from_slice records) (list_to_vec ledgers) (list_from_slice ledgers)
    (verified_in tail_digest) noop_commit_results content_of job_manifest (structural_digest job_offer)
    (Some (sample_digest 5)) sender_at sent.1 receiver_at received.1 sender_summary receiver_summary
    1 file_entry file_result source_reads session_ready ltac:(discriminate) session_connected sent_ok received_ok
    eq_refl eq_refl file_result_saved eq_refl).
Defined.

Lemma local_transfer_witness :
  exists q c, vec_get (entry_paths (sink received.1)) 1 = Some q /\ located (sink received.1) q c /\
    tail_digest c = tail_digest (lit "abc") /\ zlen c = 3.
Proof.
  exact (local_transfer OtherOs ascii_nfc tail_digest plain_derive plain_keyed no_zstd no_unzstd
    (list_to_vec records) (list_from_slice records) (list_to_vec ledgers) (list_from_slice ledgers)
    one_device (fun _ => Some []) noop_commit_results content_of job_manifest (structural_digest job_offer)
    (Some (sample_digest 5)) sender_at sent.1 receiver_at received.1 sender_summary receiver_summary
    1 file_entry file_result source_reads session_ready ltac:(discriminate) session_connected sent_ok received_ok
    eq_refl eq_refl file_result_saved eq_refl).
Defined.

(** The files are where a reader of the directory looks for them. *)
Example saved_on_disk :
  let fs := pv_fs (sink received.1) in
  let at_path p := match nodes fs !! p with Some (FileNode i) => contents fs !! i | _ => None end in
  at_path [lit "home"; lit "docs"; lit "a.txt"] = Some (lit "abc") /\
  at_path [lit "home"; lit "b.txt"] = Some (lit "xy").
Proof. vm_compute. split; reflexivity. Qed.

(** ** Reconnecting *)

(** The sender after it took the accept, and its answer to a break then. *)
Definition transferring_record : SenderDeliveryRecordV2 := Eval vm_compute in
  default first_record (records !! 1%nat).
Definition reconnect_world :=
  mkWorld [ResumeStatus (answered_status plain_derive plain_keyed first_ledger
    (reconnect_request plain_derive job_offer first_ledger (sample_digest 5)))]
    [] 1 [] ∅ transferring_record tt 0 [].

Lemma reconnect_succeeds_witness :
  validate_resume_request first_ledger (reconnect_request plain_derive job_offer first_ledger (sample_digest 5)) = Ok tt.
Proof.
  destruct (reconnect_succeeds ascii_nfc tail_digest plain_derive plain_keyed job_manifest (fun _ _ => True) first_ledger
    job_offer reconnect_world (sample_digest 5) [] 0) as (H & _).
  - vm_compute. reflexivity.
  - apply first_ledger_ok.
  - apply Forall_forall. intros c Hc s Hs.
    assert (Hnone : forallb (fun c => match cp_start c with None => true | Some _ => false end) (rl_entries first_ledger) = true)
      by (vm_compute; reflexivity).
    rewrite forallb_forall in Hnone. specialize (Hnone c (proj1 (list_elem_of_In _ _) Hc)). rewrite Hs in Hnone.
    discriminate Hnone.
  - vm_compute. reflexivity.
  - vm_compute. reflexivity.
  - vm_compute. reflexivity.
  - split; vm_compute; reflexivity.
  - reflexivity.
  - reflexivity.
  - exact H.
Defined.

(** A checkpoint of the directory: settled before any frame of the session. *)
Definition open_checkpoint : ReceiverEntryCheckpointV2 := mkCheckpoint 1 None PayloadOpen 0 0 None None None false.
Lemma open_checkpoint_ok : checkpoint_ok tail_digest job_manifest (fun _ _ => True) the_accept file_entry open_checkpoint.
Proof.
  pose proof (lo_entries _ _ _ _ _ (first_ledger_ok (fun _ _ => True))) as Hall.
  destruct (Forall2_lookup_l _ _ _ 1%nat file_entry Hall eq_refl) as (c & Hc & Hok).
  assert (Heq : rl_entries first_ledger !! 1%nat = Some open_checkpoint) by (vm_compute; reflexivity).
  rewrite Heq in Hc. injection Hc as <-.
  assert (Ha : rl_accept first_ledger = the_accept) by (vm_compute; reflexivity). rewrite Ha in Hok. exact Hok.
Qed.
Lemma settled_agrees_witness :
  settled_by tail_digest (mkJobGeneration (job_id job_manifest) (generation job_manifest)) file_entry
    (Some (resume_entry_of open_checkpoint)) = None /\ cp_result open_checkpoint = None.
Proof.
  pose proof (settled_agrees tail_digest job_manifest (fun _ _ => True) the_accept file_entry open_checkpoint
    open_checkpoint_ok) as H.
  split; [reflexivity|]. exact (proj2 H).
Defined.

(** A stand-in for zstd that keeps the bytes. *)
Definition same_zstd (bs : list byte) : option (list byte) := Some bs.
Definition same_unzstd (bs : list byte) (n : Z) : option (list byte) := if zlen bs =? n then Some bs else None.
Definition started : ReceiverEntryCheckpointV2 :=
  mkCheckpoint 1 (Some (mkEntryStart sample_identity 1 Zstd block_bytes)) PayloadOpen 0 0 None None None false.
Lemma block_roundtrip_witness :
  decode_block same_unzstd Zstd (mkBlock sample_identity 1 0 0 3 (lit "abc"))
    = Ok (mkBlock sample_identity 1 0 0 3 (lit "abc")).
Proof.
  refine (proj2 (block_roundtrip same_zstd same_unzstd sample_identity file_entry started
    (mkEntryStart sample_identity 1 Zstd block_bytes) 0 (lit "abc") (lit "abc") _ _ _ _ _ _ _ _ _)).
  - intros bs out [= <-]. unfold same_unzstd. rewrite Z.eqb_refl. reflexivity.
  - reflexivity.
  - reflexivity.
  - reflexivity.
  - reflexivity.
  - lia.
  - vm_compute. split; [reflexivity|discriminate].
  - reflexivity.
  - reflexivity.
Defined.

(** ** The destination *)

Lemma job_valid : valid_manifest ascii_nfc job_manifest.
Proof. apply validate_sound; vm_compute; reflexivity. Qed.

Definition job_paths : list path * list (option str) := Eval vm_compute in
  match build_entry_paths OtherOs no_lowercase job_plan job_manifest with Ok r => r | Err _ => ([], []) end.
Lemma staging_paths_apart_witness : length job_paths.1 = 3%nat /\ NoDup job_paths.1.
Proof.
  destruct (staging_paths_apart OtherOs no_lowercase ascii_nfc job_plan job_manifest ltac:(vm_compute; reflexivity)
    job_valid job_paths.1 job_paths.2) as (Hlen & Hnd & _); [vm_compute; reflexivity|].
  split; [exact Hlen|exact Hnd].
Defined.

Lemma opened_provider_good_witness : good job_provider.
Proof.
  exact (opened_provider_good OtherOs no_lowercase ascii_nfc tail_digest one_volume (fun _ => Some []) (fun _ => None)
    (fun _ => None) job_plan job_manifest [] [Some (sample_digest 1); Some (sample_digest 2)] (made.1, ∅) opened_at.1
    job_provider ltac:(vm_compute; reflexivity) made_wf opened_ok job_plan_private).
Defined.

Lemma digest_32 bytes : length (tail_digest bytes) = 32%nat.
Proof. unfold tail_digest. by rewrite length_be_bytes. Qed.
Lemma created_plan_valid_witness :
  validate_shape OtherOs no_lowercase job_plan = Ok tt /\
  Forall (fun r => nodes empty_disk !! r = None /\ is_Some (nodes made.1 !! r)) (reservations job_plan) /\
  plan_private job_plan.
Proof.
  destruct (created_plan_valid OtherOs no_lowercase ascii_nfc tail_digest one_volume digest_32 (lit "1") job_offer
    job_request empty_disk made.1 job_plan) as (Hshape & Hreserved & Hpriv).
  - discriminate.
  - vm_compute. reflexivity.
  - exact job_valid.
  - apply fs_check_wf. vm_compute. reflexivity.
  - exact made_ok.
  - split; [exact Hshape|]. split; [exact Hreserved|]. apply Hpriv. vm_compute. reflexivity.
Defined.

(** *** A root that takes the name of the ledgers *)

Definition ledger_named : ManifestV2 :=
  mkManifest (lit "0123456789abcdef") 1 1 Never
    [mkRoot 0 0 LEDGERS_NAME Complete] [mkEntry 0 0 None LEDGERS_NAME RegularFile 2 Deferred] (mkTotals 1 0 2).
(** The directory of the ledgers is made when a plan is opened, after [create]: on a
    disk that no transfer went to before, [create] gives its name to the root of a
    valid manifest. *)
Theorem ledger_name_taken :
  validate ascii_nfc ledger_named = Ok tt /\
  exists fs plan, create OtherOs no_lowercase tail_digest one_volume (lit "1")
      (mkOffer (tail_digest (encode_manifest_body ledger_named)) ledger_named) job_request empty_disk = (fs, Ok plan) /\
    pl_mode plan = DirectSave /\ map planned_name (pl_root_plans plan) = [LEDGERS_NAME].
Proof.
  split; [vm_compute; reflexivity|].
  set (run := create _ _ _ _ _ _ _ _).
  assert (Hrun : match run.2 with
    | Ok plan => bool_decide (pl_mode plan = DirectSave) && bool_decide (map planned_name (pl_root_plans plan) = [LEDGERS_NAME])
    | Err _ => false end = true) by (vm_compute; reflexivity).
  destruct run.2 as [plan|] eqn:Hplan; [|discriminate]. bool_prop.
  exists run.1, plan. split; [by apply pair_ok|]. by split.
Qed.

Lemma initial_accept_valid_witness : validate_accept job_offer the_accept = Ok tt.
Proof.
  apply (initial_accept_valid OtherOs no_lowercase ascii_nfc tail_digest job_plan job_manifest job_offer
    (Some (sample_digest 3)) (Some (sample_digest 4)) the_accept).
  - vm_compute. reflexivity.
  - vm_compute. reflexivity.
  - vm_compute. reflexivity.
  - vm_compute. discriminate.
  - exact accept_ok.
Defined.

(** *** A payload, and its commit *)

Definition file_start : EntryStartV2 := mkEntryStart (mkJobGeneration (job_id job_manifest) 1) 1 Identity block_bytes.
Definition file_block : EntryBlockV2 := mkBlock (mkJobGeneration (job_id job_manifest) 1) 1 0 0 3 (lit "abc").
Definition begun := begin_entry file_entry file_start 0 job_provider.
Definition written := write_block file_entry file_block begun.1.
Definition checked := verify_payload tail_digest file_entry (tail_digest (lit "abc")) written.1.

Lemma begun_ok : begin_entry file_entry file_start 0 job_provider = (begun.1, Ok tt).
Proof. apply (pair_ok begun). vm_compute. reflexivity. Qed.
Lemma written_ok : write_block file_entry file_block begun.1 = (written.1, Ok tt).
Proof. apply (pair_ok written). vm_compute. reflexivity. Qed.
Lemma checked_ok : verify_payload tail_digest file_entry (tail_digest (lit "abc")) written.1 = (checked.1, Ok tt).
Proof. apply (pair_ok checked). vm_compute. reflexivity. Qed.
Lemma written_good : good written.1.
Proof. exact (write_block_good _ _ _ _ written_ok (begin_good _ _ _ _ _ begun_ok provider_good)). Qed.

Lemma set_payloads_fs v p : pv_fs (set_payloads v p) = pv_fs p.
Proof. reflexivity. Qed.
Lemma set_payloads_paths v p : entry_paths (set_payloads v p) = entry_paths p.
Proof. reflexivity. Qed.
Lemma first_block_strands_witness :
  (begin_entry file_entry file_start 0 (set_payloads ∅ written.1)).2 <> Ok tt.
Proof.
  destruct (first_block_strands (fun _ => None) job_manifest file_entry file_start file_block job_provider begun.1
    written.1 0 [] (mkWorld [] [] 0 [] ∅ first_ledger job_provider 0 [])) as [_ H].
  - exact provider_good.
  - discriminate.
  - exact begun_ok.
  - exact written_ok.
  - discriminate.
  - exact (H (set_payloads ∅ written.1) 0%nat (set_payloads_fs _ _) (set_payloads_paths _ _)).
Defined.

(** The other file stays out of this commit: a manifest of the directory alone. *)
Definition docs_manifest : ManifestV2 :=
  mkManifest (lit "0123456789abcdef") 1 1 Never [mkRoot 0 0 (lit "docs") Complete]
    [mkEntry 0 0 None (lit "docs") Directory 0 Deferred; file_entry] (mkTotals 1 1 3).
Definition docs_verified : list VerifiedEntryV2 :=
  [mkVerified 0 None PayloadComplete; mkVerified 1 (Some (tail_digest (lit "abc"))) PayloadComplete].
Definition committed := commit_job OtherOs tail_digest plain_derive one_device (fun _ => Some []) docs_manifest docs_verified checked.1.
Definition committed_entries := Eval vm_compute in match committed.2 with Ok l => l | Err _ => [] end.

Lemma committed_ok : commit_job OtherOs tail_digest plain_derive one_device (fun _ => Some []) docs_manifest docs_verified checked.1
  = (committed.1, Ok committed_entries).
Proof. apply (pair_ok committed). vm_compute. reflexivity. Qed.
Lemma checked_layout : layout checked.1.
Proof. exact (proj1 (verify_payload_verified _ _ _ _ _ checked_ok written_good)). Qed.
Lemma none_counted : counted_moved checked.1.
Proof.
  intros rid [name Hr]. exfalso. revert rid name Hr.
  assert (H : Forall (fun st => st = Pending) (sl_roots (save_ledger_of checked.1)))
    by (apply (bool_decide_unpack _); vm_compute; exact I).
  intros rid name Hr. pose proof (forall_vec_get _ _ H rid _ Hr) as Heq. discriminate Heq.
Qed.
Definition docs_root : ManifestRootV2 := mkRoot 0 0 (lit "docs") Complete.
Lemma file_staged : vec_get (entry_paths checked.1) (entry_id file_entry)
  = Some (root_staging_path checked.1 (root_id docs_root) ++ [lit "a.txt"]).
Proof. vm_compute. reflexivity. Qed.

Lemma direct_save_places_witness :
  exists t c, target_path_for_root (pv_plan checked.1) 0 = Some t /\
    holds (pv_fs committed.1) (t ++ [lit "a.txt"]) c /\ tail_digest c = tail_digest (lit "abc").
Proof.
  destruct (direct_save_places OtherOs tail_digest plain_derive one_device (fun _ => Some []) docs_manifest docs_verified
    checked.1 committed.1 committed_entries docs_root (mkVerified 0 None PayloadComplete) file_entry
    (tail_digest (lit "abc")) [lit "a.txt"] checked_layout ltac:(vm_compute; reflexivity) none_counted committed_ok)
    as (t & c & Ht & Hh & Hd & _).
  - left.
  - reflexivity.
  - discriminate.
  - exact (verify_payload_verified _ _ _ _ _ checked_ok written_good).
  - exact file_staged.
  - exists t, c. split; [exact Ht|]. split; [exact Hh|exact Hd].
Defined.
