(* ===== verification/JobWitnesses.v ===== *)
(** The properties of transfer jobs at concrete inputs: a directory with two files that
    is added, prepared and sealed; a source that is staged and removed again; and a chain
    of directories whose path is as long as a job takes. *)

From stdpp Require Import prelude gmap strings.
From Stdlib Require Import ZArith Lia Strings.Byte.
From S2P Require Import Prelude Bytes ManifestV2 ManifestSpec OfferCodec Frames Delivery Ledger Proc LocalFs Job JobWalk JobInv JobSeal Witnesses.

Local Open Scope Z_scope.

(** ** A disk *)

(** Files with their bytes and directories. *)
Abbreviation tree := (list (path * option (list byte))).
Definition node_at (p : path) (t : tree) : option (option (list byte)) :=
  snd <$> (snd <$> list_find (fun kv => kv.1 = p) t).
Definition tree_metadata (p : path) (t : tree) : result IoErrorKind Metadata :=
  match node_at p t with
  | None => Err KindNotFound
  | Some None => Ok (mkMetadata TypeDirectory 0 None)
  | Some (Some bytes) => Ok (mkMetadata TypeFile (Z.min u64_max (zlen bytes)) (Some 7))
  end.
Definition tree_child (p q : path) : option DirEntry :=
  match last q with
  | Some name => if bool_decide (q = p ++ [name]) then Some (mkDirEntry (from_utf8 name) q) else None
  | None => None
  end.
#[export] Instance tree_disk : SourceDisk tree := {
  symlink_metadata := fun p t => (t, tree_metadata p t);
  canonicalize_ok := fun p t => (t, match node_at p t with Some _ => Some p | None => None end);
  is_directory := fun p t => (t, (fun n => match n with None => true | Some _ => false end) <$> node_at p t);
  read_directory := fun p t => (t, Ok (omap (fun kv => tree_child p kv.1) t, None));
  read_file := fun p t => (t, match node_at p t with Some (Some bytes) => Ok bytes | _ => Err KindNotFound end);
  open_for_staging := fun _ _ t => (t, Ok tt);
  copy_new_file := fun p q t =>
    match node_at q t, node_at p t with
    | Some _, _ => (t, NameTaken)
    | None, Some (Some bytes) => (t ++ [(q, Some bytes)], Copied)
    | None, _ => (t, CopyFails)
    end;
  remove_file := fun p t =>
    match node_at p t with
    | Some _ => (filter (fun kv => kv.1 <> p) t, Ok tt)
    | None => (t, Err KindNotFound)
    end;
}.

Lemma tree_laws : SourceDiskLaws tree id.
Proof.
  split.
  - done.
  - intros p d d' md Hmd. cbn in Hmd. injection Hmd as _ Hmd. unfold tree_metadata in Hmd.
    destruct (node_at p d) as [[bytes|]|]; [|by injection Hmd as <-|done]. injection Hmd as <-.
    pose proof (zlen_nonneg bytes). unfold is_u64. apply andb_true_intro. cbn. split; apply Z.leb_le; unfold u64_max; lia.
  - intros p d d' es stopped Hr. cbn in Hr. injection Hr as _ <- _. apply Forall_forall.
    intros c ([q n] & _ & Hc)%list_elem_of_omap. unfold tree_child in Hc. cbn in Hc. destruct (last q) as [name|]; [|done].
    case_bool_decide; [|done]. injection Hc as <-. cbn. unfold from_utf8. by destruct (utf8_valid name) eqn:Hu.
Qed.

(** ** The other parameters *)

Definition mixed (bs : list byte) : Z := foldl (fun h b => Z.land (h * 257 + byte_val b + 1) 0xFFFFFFFFFFFFFFFF) 7 bs.
Definition mixed_digest (bs : list byte) : list byte := be_bytes 8 (mixed bs) ++ replicate 24 x00.
Lemma mixed_digest_wf bs : wf_digest (mixed_digest bs) = true.
Proof. unfold wf_digest, mixed_digest, zlen. by rewrite length_app, length_be_bytes, length_replicate. Qed.

Definition path_bytes_of (p : path) : list byte := concat (map (fun c => x2f :: c) p).
Definition job_store : path := [lit "store"].
(** A record that tells its job. *)
Definition job_text (j : CanonicalTransferJob) : option (list byte) := Some (cj_job_id j ++ push_u64 (cj_selection_revision j)).

Definition run := run_op id ascii_nfc mixed_digest path_bytes_of id 8 job_text job_store (S := tree).
Definition runs := job_runs id ascii_nfc mixed_digest path_bytes_of id 8 job_text job_store (S := tree).

Definition fresh_id : JobIdV2 := lit "0123456789abcdef".
Definition fresh_job : CanonicalTransferJob :=
  match job_new Never (Some fresh_id) 5 with Ok j => j | Err _ => mkJob 0 [] 0 0 0 0 JobCanceled Never 0 0 [] [] ∅ [] None end.
Definition started (t : tree) : JobWorld tree := mkJobWorld fresh_job t [10; 20; 30] ∅ [] [Some (lit "fedcba9876543210")] [].

Lemma started_runs t : runs (started t).
Proof. eapply (runs_new _ _ _ _ _ _ _ _ Never (Some fresh_id) 5); [done|lia|]. by intros bytes [= <-]. Qed.

(** One operation that returns. *)
Lemma runs_step op w : runs w -> op_allowed job_store op w -> (run op w).2 = Ok tt -> runs (run op w).1.
Proof.
  intros Hw Hok Hr. eapply (runs_op _ _ _ _ _ _ _ _ op w _ (run op w).2); [done|done|apply surjective_pairing|]. by rewrite Hr.
Qed.

(** ** A directory with two files *)

Definition docs_tree : tree :=
  [([lit "home"; lit "docs"], None); ([lit "home"; lit "docs"; lit "b.txt"], Some (lit "xy"));
   ([lit "home"; lit "docs"; lit "a.txt"], Some (lit "abc"))].
Definition docs_added : JobWorld tree := (run (OpAddLocal [lit "home"; lit "docs"]) (started docs_tree)).1.
Definition docs_ready : JobWorld tree := (run OpPrepareAll docs_added).1.
Definition docs_sealed : JobWorld tree := (run OpSeal docs_ready).1.

Lemma docs_ready_runs : runs docs_ready.
Proof.
  apply runs_step; [|done|vm_compute; reflexivity]. apply runs_step; [apply started_runs| |vm_compute; reflexivity].
  cbn. apply not_elem_of_nil.
Qed.
Lemma docs_sealed_runs : runs docs_sealed.
Proof. apply runs_step; [apply docs_ready_runs|done|vm_compute; reflexivity]. Qed.

(** The enumeration sorted the children. *)
Example docs_listed : map pie_components (cj_inventory (jw_job docs_ready)) = [[]; [lit "a.txt"]; [lit "b.txt"]].
Proof. vm_compute. reflexivity. Qed.

Lemma job_stays_durable_witness : validate_durable ascii_nfc mixed_digest (jw_job docs_sealed) = Ok tt.
Proof. apply (job_stays_durable id ascii_nfc mixed_digest path_bytes_of id 8 job_text job_store); [apply tree_laws|apply mixed_digest_wf|apply docs_sealed_runs]. Defined.

Lemma paths_within es :
  forallb (fun e => path_size (pie_components e) <=? MAX_MANIFEST_V2_PATH_BYTES) es = true ->
  Forall (fun e => path_size (pie_components e) <= MAX_MANIFEST_V2_PATH_BYTES) es.
Proof. rewrite forallb_forall. intros Hes. apply Forall_forall. intros e He%list_elem_of_In. by apply Z.leb_le, Hes. Qed.

Definition docs_manifest : ManifestV2 := Eval vm_compute in
  match job_manifest_of (jw_job docs_ready) with Ok m => m | Err _ => sample_manifest end.
Example docs_entries : map component (entries docs_manifest) = [lit "docs"; lit "a.txt"; lit "b.txt"].
Proof. reflexivity. Qed.
Lemma docs_manifest_made : job_manifest_of (jw_job docs_ready) = Ok docs_manifest.
Proof. vm_compute. reflexivity. Qed.

Lemma seal_ready_witness :
  valid_manifest ascii_nfc docs_manifest /\
  exists w' b, seal_for_send ascii_nfc mixed_digest docs_ready = (w', Ok docs_manifest) /\
    Job.source_for_sealed_entry 1 (jw_job w') = Ok (mkSource (sb_path b) (sb_fingerprint b)).
Proof.
  destruct (seal_ready id ascii_nfc mixed_digest path_bytes_of id 8 job_text job_store docs_ready) as (m & Hm & _ & Hv & Hs).
  - apply tree_laws.
  - apply mixed_digest_wf.
  - apply docs_ready_runs.
  - vm_compute. reflexivity.
  - vm_compute. discriminate.
  - apply paths_within. vm_compute. reflexivity.
  - rewrite docs_manifest_made in Hm. injection Hm as <-. split; [done|].
    destruct Hs as (w' & Hrun & _ & _ & Hsrc); [vm_compute; discriminate|].
    destruct (Hsrc 1%nat (mkEntry 1 0 (Some 0) (lit "a.txt") RegularFile 3 Deferred)) as (e & b & _ & _ & _ & _ & Hf); [vm_compute; reflexivity|done|].
    exists w', b. by split.
Defined.

Lemma sealed_cancel_not_saved_witness :
  exists w', cancel docs_sealed = (w', Ok tt) /\
    (job_save ascii_nfc mixed_digest job_text w').2 = Err (JobFails (JE_InvalidRecord "sealed Manifest identity does not match its job")).
Proof.
  destruct (sealed_cancel_not_saved id ascii_nfc mixed_digest path_bytes_of id 8 job_text job_store docs_sealed) as (w' & Hrun & _ & Hsave).
  - apply tree_laws.
  - apply mixed_digest_wf.
  - apply docs_sealed_runs.
  - vm_compute. reflexivity.
  - vm_compute. reflexivity.
  - exists w'. rewrite Hsave. by split.
Defined.

(** ** A chain of directories *)

(** Seventeen directories in each other, each with a name of 240 bytes. *)
Definition long_name : str := replicate 240 x61.
Definition long_tree : tree :=
  map (fun n => (lit "home" :: lit "deep" :: replicate n long_name, None)) (seq 0 18).
Definition long_ready : JobWorld tree := (run OpPrepareAll (run (OpAddLocal [lit "home"; lit "deep"]) (started long_tree)).1).1.

Lemma long_ready_runs : runs long_ready.
Proof.
  apply runs_step; [|done|vm_compute; reflexivity]. apply runs_step; [apply started_runs| |vm_compute; reflexivity].
  cbn. apply not_elem_of_nil.
Qed.

Definition no_entry : PreparedInventoryEntry := mkInventoryEntry 0 0 None [] [] Directory 0 None None.
Definition long_entry : PreparedInventoryEntry := Eval vm_compute in default no_entry (cj_inventory (jw_job long_ready) !! 17%nat).

Lemma long_path_not_sealed_witness :
  cj_lifecycle (jw_job long_ready) = JobReadyToSend /\ (seal_for_send ascii_nfc mixed_digest long_ready).2 = Err (JobFails JE_Protocol).
Proof.
  split; [vm_compute; reflexivity|].
  destruct (long_path_not_sealed id ascii_nfc mixed_digest path_bytes_of id 8 job_text job_store long_ready long_entry) as (_ & _ & Hseal).
  - apply tree_laws.
  - apply mixed_digest_wf.
  - apply long_ready_runs.
  - vm_compute. reflexivity.
  - vm_compute. discriminate.
  - apply (list_elem_of_lookup_2 _ 17). vm_compute. reflexivity.
  - vm_compute. reflexivity.
  - by rewrite Hseal.
Defined.

(** ** A staged file *)

Definition photo_tree : tree := [([lit "photo"], Some (lit "pixels"))].
Definition photo_staged : JobWorld tree := (run (OpImportStaged [lit "photo"] (lit "photo.jpg") OriginPhotosStaging) (started photo_tree)).1.
Definition photo_path : path := staging_directory job_store fresh_id ++ [encode_job_id (lit "fedcba9876543210")].
Definition photo_removed := apply_source_decision ascii_nfc mixed_digest job_text job_store 1 RemoveSelection photo_staged.

Lemma listed_first (p : path) (l : list (path * files)) : map fst l = [p] -> exists fs, (p, fs) ∈ l.
Proof. destruct l as [|[q fs] [|]]; intros [= ->]. exists fs. left. Qed.

Lemma staged_file_released_after_save_witness :
  node_at photo_path (jw_disk photo_removed.1) = None /\
  exists fs, recorded_release ascii_nfc mixed_digest job_text job_store fresh_id photo_path fs.
Proof.
  split; [vm_compute; reflexivity|].
  destruct (listed_first photo_path (jw_removed photo_removed.1)) as [fs Hin]; [vm_compute; reflexivity|]. exists fs.
  assert (Hid : cj_job_id (jw_job photo_staged) = fresh_id) by (vm_compute; reflexivity). rewrite <- Hid.
  assert (Hnone : length (jw_removed photo_staged) = O) by (vm_compute; reflexivity). apply length_zero_iff_nil in Hnone.
  destruct (staged_file_released_after_save ascii_nfc mixed_digest job_text job_store 1 RemoveSelection photo_staged
    photo_removed.1 photo_removed.2 photo_path fs) as [Hold|Hrec].
  - unfold photo_removed. apply surjective_pairing.
  - exact Hin.
  - rewrite Hnone in Hold. exfalso. exact (not_elem_of_nil _ Hold).
  - exact Hrec.
Defined.
