(* ===== verification/RoomWitnesses.v ===== *)
(** Concrete invitations: URL-safe base64 without padding, which stands in for the
    library's, and an invitation made with it.  Then the conditional properties of
    invitations and rooms, and of the loops of the data plane, at concrete inputs: one
    invitation with its two ends, one room
    invitation, and a room in which an offer is made, shown, accepted and told. *)

From stdpp Require Import prelude gmap strings.
From Stdlib Require Import ZArith Lia Strings.Byte.
From S2P Require Import Prelude Bytes Text BrokerConfig CoreError Proc Invite InviteProof Auth RoomInvite RoomControl RoomControlProof RoomSystem.
From S2P Require Import ManifestV2 Frames Delivery Ledger LocalFs FsProof Provider ProviderCommit ReceivePlane SendPlane Loops Witnesses TransferWitnesses.

Local Open Scope Z_scope.

(** ** Base64 *)

Definition sextet_char (n : Z) : byte :=
  byte_of (if n <? 26 then 65 + n else if n <? 52 then 71 + n else if n <? 62 then n - 4 else if n =? 62 then 45 else 95).
Definition char_sextet (b : byte) : Z :=
  let v := byte_val b in
  if v =? 45 then 62 else if v =? 95 then 63 else if v <? 58 then v + 4 else if v <? 91 then v - 65 else v - 71.

(** Three bytes as a number, and its four digits. *)
Definition group (a b c : byte) : Z := 65536 * byte_val a + 256 * byte_val b + byte_val c.
Definition digit1 (n : Z) : byte := sextet_char (n / 262144).
Definition digit2 (n : Z) : byte := sextet_char (n / 4096 mod 64).
Definition digit3 (n : Z) : byte := sextet_char (n / 64 mod 64).
Definition digit4 (n : Z) : byte := sextet_char (n mod 64).
Fixpoint base64_encode (bs : list byte) : str :=
  match bs with
  | a :: b :: c :: rest =>
    let n := group a b c in digit1 n :: digit2 n :: digit3 n :: digit4 n :: base64_encode rest
  | [a; b] => let n := group a b x00 in [digit1 n; digit2 n; digit3 n]
  | [a] => let n := group a x00 x00 in [digit1 n; digit2 n]
  | [] => []
  end.

Definition number_of (w x y z : byte) : Z :=
  262144 * char_sextet w + 4096 * char_sextet x + 64 * char_sextet y + char_sextet z.
Fixpoint base64_bytes (s : str) : list byte :=
  match s with
  | w :: x :: y :: z :: rest =>
    let n := number_of w x y z in byte_of (n / 65536) :: byte_of (n / 256 mod 256) :: byte_of (n mod 256) :: base64_bytes rest
  | [w; x; y] => let n := number_of w x y x41 in [byte_of (n / 65536); byte_of (n / 256 mod 256)]
  | [w; x] => let n := number_of w x x41 x41 in [byte_of (n / 65536)]
  | _ => []
  end.
(** Only the text that the encoder writes is taken. *)
Definition base64_decode (s : str) : option (list byte) :=
  if bool_decide (base64_encode (base64_bytes s) = s) then Some (base64_bytes s) else None.

Lemma sextets n : 0 <= n < 64 -> char_sextet (sextet_char n) = n /\ url_safe (sextet_char n) = true.
Proof.
  intros Hn. assert (Hall : forallb (fun k => (char_sextet (sextet_char (Z.of_nat k)) =? Z.of_nat k) && url_safe (sextet_char (Z.of_nat k))) (seq 0 64) = true)
    by (vm_compute; reflexivity).
  rewrite forallb_forall in Hall. specialize (Hall (Z.to_nat n)). rewrite Z2Nat.id in Hall by lia.
  rewrite in_seq in Hall. apply andb_true_iff in Hall as [?%Z.eqb_eq ?]; [done|lia].
Qed.
Lemma group_bounds a b c : 0 <= group a b c < 16777216.
Proof. unfold group. pose proof (byte_val_bounds a). pose proof (byte_val_bounds b). pose proof (byte_val_bounds c). lia. Qed.
Lemma digits_bounds n : 0 <= n < 16777216 ->
  0 <= n / 262144 < 64 /\ 0 <= n / 4096 mod 64 < 64 /\ 0 <= n / 64 mod 64 < 64 /\ 0 <= n mod 64 < 64.
Proof. intros Hn. repeat split; try apply Z.mod_pos_bound; try apply Z.div_pos; try apply Z.div_lt_upper_bound; lia. Qed.
Lemma digits_number n : 0 <= n < 16777216 ->
  number_of (digit1 n) (digit2 n) (digit3 n) (digit4 n) = n /\
  (n mod 64 = 0 -> number_of (digit1 n) (digit2 n) (digit3 n) x41 = n) /\
  (n mod 4096 = 0 -> number_of (digit1 n) (digit2 n) x41 x41 = n).
Proof.
  intros Hn. destruct (digits_bounds n Hn) as (H1 & H2 & H3 & H4). unfold number_of, digit1, digit2, digit3, digit4.
  rewrite (proj1 (sextets _ H1)), (proj1 (sextets _ H2)), (proj1 (sextets _ H3)), (proj1 (sextets _ H4)). change (char_sextet x41) with 0.
  replace (n / 262144) with (n / 64 / 64 / 64) by (rewrite !Z.div_div by lia; done).
  replace (n / 4096) with (n / 64 / 64) by (rewrite !Z.div_div by lia; done).
  assert (n mod 4096 = n mod 64 + 64 * ((n / 64) mod 64)) by (change 4096 with (64 * 64); apply Z.rem_mul_r; lia).
  assert (H0 : 64 <> 0) by done. pose proof (Z.div_mod n 64 H0). pose proof (Z.div_mod (n / 64) 64 H0).
  pose proof (Z.div_mod (n / 64 / 64) 64 H0). assert (Hp : 0 < 64) by done.
  pose proof (Z.mod_pos_bound n 64 Hp). pose proof (Z.mod_pos_bound (n / 64) 64 Hp).
  generalize dependent (n mod 4096). generalize dependent (n / 64 / 64 / 64). generalize dependent ((n / 64 / 64) mod 64).
  intros. split_and!; intros; lia.
Qed.
Lemma group_bytes a b c : let n := group a b c in
  byte_of (n / 65536) = a /\ byte_of (n / 256 mod 256) = b /\ byte_of (n mod 256) = c.
Proof.
  intros n. pose proof (byte_val_bounds a). pose proof (byte_val_bounds b). pose proof (byte_val_bounds c).
  assert (Hn : n / 65536 = byte_val a /\ n / 256 mod 256 = byte_val b /\ n mod 256 = byte_val c)
    by (unfold n, group; Z.div_mod_to_equations; lia).
  destruct Hn as (-> & -> & ->). by rewrite !byte_of_val.
Qed.

Lemma base64_read bs : base64_bytes (base64_encode bs) = bs.
Proof.
  induction bs as [bs IH] using (induction_ltof1 _ length). unfold ltof in IH.
  destruct bs as [|a [|b [|c rest]]]; [done|..]; cbn [base64_encode base64_bytes].
  - destruct (digits_number (group a x00 x00) (group_bounds _ _ _)) as (_ & _ & ->).
    + destruct (group_bytes a x00 x00) as (-> & _). done.
    + unfold group. change (byte_val x00) with 0. rewrite Z.mul_0_r, !Z.add_0_r. change 65536 with (16 * 4096).
      rewrite <- Z.mul_assoc, (Z.mul_comm 4096), Z.mul_assoc. apply Z.mod_mul. done.
  - destruct (digits_number (group a b x00) (group_bounds _ _ _)) as (_ & -> & _).
    + destruct (group_bytes a b x00) as (-> & -> & _). done.
    + unfold group. change (byte_val x00) with 0.
      replace (65536 * byte_val a + 256 * byte_val b + 0) with ((1024 * byte_val a + 4 * byte_val b) * 64) by lia. by apply Z.mod_mul.
  - destruct (digits_number (group a b c) (group_bounds _ _ _)) as (-> & _). destruct (group_bytes a b c) as (-> & -> & ->).
    rewrite IH by (cbn; lia). done.
Qed.
Lemma base64_decode_encode bs : base64_decode (base64_encode bs) = Some bs.
Proof. unfold base64_decode. by rewrite base64_read, bool_decide_eq_true_2. Qed.
Lemma base64_encode_decode s bs : base64_decode s = Some bs -> base64_encode bs = s.
Proof. unfold base64_decode. destruct (bool_decide_reflect (base64_encode (base64_bytes s) = s)); [|done]. by intros [= <-]. Qed.
Lemma base64_url_safe bs : forallb url_safe (base64_encode bs) = true.
Proof.
  induction bs as [bs IH] using (induction_ltof1 _ length). unfold ltof in IH.
  assert (Hd : forall n, 0 <= n < 16777216 -> url_safe (digit1 n) = true /\ url_safe (digit2 n) = true /\
    url_safe (digit3 n) = true /\ url_safe (digit4 n) = true).
  { intros n Hn. destruct (digits_bounds n Hn) as (H1 & H2 & H3 & H4). split_and!; by apply sextets. }
  destruct bs as [|a [|b [|c rest]]]; [done|..]; cbn [base64_encode forallb].
  - destruct (Hd _ (group_bounds a x00 x00)) as (-> & -> & _). done.
  - destruct (Hd _ (group_bounds a b x00)) as (-> & -> & -> & _). done.
  - destruct (Hd _ (group_bounds a b c)) as (-> & -> & -> & ->). cbn [andb]. apply IH. cbn. lia.
Qed.
(** 32 bytes are 43 characters. *)
Lemma base64_length bs : length bs = 32%nat -> length (base64_encode bs) = 43%nat.
Proof. intros Hl. do 32 (destruct bs as [|? bs]; [done|]). by destruct bs. Qed.

(** ** The libraries of invitations *)

(** Fields, each with its length before it. *)
Definition field (s : str) : list byte := be_bytes 2 (zlen s) ++ s.
Definition fields (l : list str) : list byte := concat (field <$> l).
Fixpoint read_fields (fuel : nat) (bs : list byte) : option (list str) :=
  match fuel, bs with
  | _, [] => Some []
  | O, _ => None
  | S fuel, _ =>
    let n := Z.to_nat (be_value (take 2 bs)) in
    rest ← read_fields fuel (drop (2 + n) bs); Some (take n (drop 2 bs) :: rest)
  end.
Definition read (bs : list byte) : option (list str) := read_fields (length bs) bs.
Definition number (n : Z) : str := be_bytes 8 n.
Definition role_text (r : TransferRole) : str := transfer_role_bytes r.
Definition read_role (s : str) : TransferRole :=
  if bool_decide (s = role_text TransferSender) then TransferSender else TransferReceiver.
Definition option_text (o : option str) : list byte := fields (option_list o).
Definition read_option (bs : list byte) : option (option str) :=
  l ← read bs; match l with [] => Some None | [x] => Some (Some x) | _ => None end.
Definition method_text (d : BootstrapDocument) : list byte :=
  fields [bd_id d; bd_pake d; option_text (bd_ticket_commitment d); option_text (bd_room_id d)].
Definition read_method (bs : list byte) : option BootstrapDocument :=
  l ← read bs;
  match l with
  | [a; b; c; d] => c ← read_option c; d ← read_option d; Some (mkBootstrapDocument a b c d)
  | _ => None
  end.
Definition context_text (d : PublicContextDocument) : list byte :=
  fields [number (cd_version d); cd_invite_id d; number (cd_protocol_version d); role_text (cd_creator_transfer_role d);
    role_text (cd_joiner_transfer_role d); cd_broker d; fields (cd_relay_urls d);
    fields (required (cd_capabilities d)); fields (optional (cd_capabilities d)); number (cd_expires_at d);
    fields (method_text <$> cd_bootstrap_methods d)].
Definition read_context (bs : list byte) : option PublicContextDocument :=
  l ← read bs;
  match l with
  | [v; i; p; c; j; b; r; rq; o; e; m] =>
    r ← read r; rq ← read rq; o ← read o; m ← read m; m ← mapM read_method m;
    Some (mkContextDocument (be_value v) i (be_value p) (read_role c) (read_role j) b r (mkCapabilities rq o) (be_value e) m)
  | _ => None
  end.
Definition invite_text (d : InviteDocument) : list byte :=
  fields [context_text (id_context d); id_context_commitment d; presented_method d; presented_ticket d].
Definition read_invite (bs : list byte) : option InviteDocument :=
  l ← read bs;
  match l with
  | [c; k; m; t] => c ← read_context c; Some (mkInviteDocument c k m t)
  | _ => None
  end.
#[export] Instance BootstrapDocument_eq_dec : EqDecision BootstrapDocument.
Proof. solve_decision. Defined.
#[export] Instance PublicContextDocument_eq_dec : EqDecision PublicContextDocument.
Proof. solve_decision. Defined.
#[export] Instance InviteDocument_eq_dec : EqDecision InviteDocument.
Proof. solve_decision. Defined.

(** What is written is what can be read back. *)
Definition written_text {A} `{EqDecision A} (write : A -> list byte) (read : list byte -> option A) (a : A) : option (list byte) :=
  let bs := write a in if bool_decide (read bs = Some a) && negb (bool_decide (bs = [])) then Some bs else None.
Lemma written_text_read {A} `{EqDecision A} write (read : list byte -> option A) a bs :
  written_text write read a = Some bs -> read bs = Some a /\ bs <> [].
Proof. unfold written_text. destruct (_ && _) eqn:Hc; [|done]. bool_prop. by intros [= <-]. Qed.

#[export] Instance sample_libs : InviteLibs := {|
  sha256 := tail_digest;
  hkdf salt ikm info := tail_digest (salt ++ ikm ++ info);
  b64_encode := base64_encode;
  b64_decode := base64_decode;
  endpoint_id_valid _ := true;
  parse_relay_url := Some;
  invite_to_json := written_text invite_text read_invite;
  invite_from_json := read_invite;
  context_to_json := written_text context_text read_context;
  context_from_json := read_context;
|}.
#[export] Instance sample_laws : InviteLaws.
Proof.
  split; cbn.
  - done.
  - apply base64_decode_encode.
  - apply base64_encode_decode.
  - intros x Hx. pose proof (base64_url_safe x) as Hs. rewrite forallb_forall in Hs. apply list_elem_of_In in Hx. by apply Hs in Hx.
  - done.
  - intros d bs. apply written_text_read.
  - intros d bs Hd. by apply written_text_read in Hd as [? _].
Qed.

(** ** One invitation *)

Definition sample_entropy : list byte := lit "0123456789abcdefghijklmnopqrstuvwxyz0123456789abcdefghijklmnopqrstuvwxyz".
Definition sample_broker : str := lit "node@127.0.0.1:4443".
Abbreviation create_run := (invite_create sample_broker [] TransferReceiver current_capabilities 1000 sample_entropy).
Definition no_invitation : CreatedInvitation := mkCreated [] [] TransferSender TransferSender 0
  (mkInvite (mkPublicContext 0 [] 0 TransferSender TransferSender [] [] (mkCapabilities [] []) 0 []) [] []).
Definition created : CreatedInvitation :=
  Eval vm_compute in match create_run with (_, Ok c) => c | _ => no_invitation end.
Definition left_entropy : list byte := Eval vm_compute in create_run.1.
Lemma create_runs : create_run = (left_entropy, Ok created).
Proof. vm_compute. reflexivity. Qed.

Lemma sample_fair_witness :
  0 < 10 <= u8_max /\
  Z.of_nat (length (filter (fun b => sample_outcome 10 b = Some 3) all_bytes)) = u8_max / 10.
Proof. split; [done|]. apply (sample_fair 10 3); done. Defined.

Lemma invite_roundtrip_witness :
  created_payload created <> [] /\ invite_parse (created_payload created) 1299 = Ok (created_invitation created).
Proof.
  split; [done|]. apply (invite_roundtrip _ _ _ _ _ _ _ _ 1299 create_runs). vm_compute. reflexivity.
Defined.

Definition parsed_context : InvitationPublicContext := public_context (created_invitation created).
Lemma invite_canonical_witness :
  1299 < pc_expires_at parsed_context /\ commitment_for_context parsed_context
  = Ok (context_commitment (created_invitation created)).
Proof.
  assert (Hp : invite_parse (created_payload created) 1299 = Ok (created_invitation created))
    by (vm_compute; reflexivity).
  destruct (invite_canonical _ _ _ Hp) as (_ & Hn & _ & Hc & _). by split.
Defined.

(** ** Room invitations and sessions *)

Definition a_relay : str := lit "https://relay.example/".
Definition room_invite : RoomControlInvite :=
  Eval vm_compute in
    match room_invite_from_parts (lit " 123456-ABCD-2345") (lit " node@127.0.0.1:4443 ") (Some a_relay) 2000 with
    | Ok i => i | Err _ => mkRoomInvite [] [] None 0
    end.
Lemma room_invite_roundtrip_witness :
  ri_relay room_invite = Some a_relay /\
  room_invite_parse (room_invite_payload room_invite) (lit "other") None (Some 5) = Ok room_invite.
Proof.
  split; [vm_compute; reflexivity|].
  apply (room_invite_roundtrip (lit " 123456-ABCD-2345") (lit " node@127.0.0.1:4443 ") (Some a_relay) 2000);
    vm_compute; done.
Defined.

(** An offer of a transfer invitation without a relay. *)
Definition sender_payload : str :=
  Eval vm_compute in match invite_create sample_broker [] TransferSender current_capabilities 1000 sample_entropy with
                     | (_, Ok c) => created_payload c | _ => [] end.
Definition direct_offer : RoomTransferOffer := mkRoomOffer (lit "o-1") sender_payload [lit "docs"] 2 1 10.
Lemma relay_fallback_refuses_witness :
  offer_validate direct_offer sample_broker None (Some 1100) = Ok tt /\
  exists j, room_invite_parse (room_invite_payload (mkRoomInvite (ri_code room_invite) sample_broker None 2000))
    (lit "other") (Some a_relay) (Some 5) = Ok j /\
    offer_validate direct_offer (ri_broker j) (ri_relay j) (Some 1100)
    = Err (InvalidInput "room offer transfer route differs from room control route").
Proof.
  destruct (relay_fallback_refuses (lit " 123456-ABCD-2345") sample_broker 2000
    (mkRoomInvite (ri_code room_invite) sample_broker None 2000) (lit "other") a_relay (Some 5))
    as (j & Hj & _ & _ & Hoff); [vm_compute; done..|].
  assert (Ho : offer_validate direct_offer sample_broker None (Some 1100) = Ok tt) by (vm_compute; reflexivity).
  split; [exact Ho|].
  exists j. split; [exact Hj|]. apply Hoff, Ho.
Defined.

Lemma control_joins_match_witness :
  exists locator, room_invite_locator room_invite = Some locator /\
    joins_match (control_join true locator RoomCode) (control_join false locator RoomCode) = Some RoomCode.
Proof.
  destruct (control_joins_match (lit " 123456-ABCD-2345") (lit " node@127.0.0.1:4443 ") (Some a_relay) 2000 room_invite)
    as (locator & Hl & _ & _ & _ & Hm & _); [vm_compute; reflexivity|]. by exists locator.
Defined.

Definition active_machine : RoomLifetimeMachine := mkMachine (mkLifetime 2 Idle15Minutes None) true false.
Lemma lifetime_invariant_witness :
  machine_set_local true 5 (machine_new (lifetime_initial 0)) = (active_machine, Ok (Some (lm_state active_machine))) /\
  lifetime_ok active_machine.
Proof.
  assert (Hrun : machine_set_local true 5 (machine_new (lifetime_initial 0))
    = (active_machine, Ok (Some (lm_state active_machine)))) by (vm_compute; reflexivity).
  split; [done|].
  refine (proj1 (lifetime_invariant _ 5 (machine_new (lifetime_initial 0)) _ _ (TLocal true) _ _ Hrun));
    [split; [done|]; cbn; naive_solver|done].
Defined.

(** Messages as text: pings and answers. *)
Definition message_text (m : ControlMessage) : list byte :=
  match m with CPing n => field (number n) | COfferAccepted id => fields [[]; id] | _ => [] end.
Definition read_message (bs : list byte) : option ControlMessage :=
  l ← read bs; match l with [n] => Some (CPing (be_value n)) | [[]; id] => Some (COfferAccepted id) | _ => None end.
Lemma control_frame_roundtrip_witness :
  exists bytes, write_control_message (written_text message_text read_message) (CPing 7) = Ok bytes /\
    read_control_message read_message (bytes ++ lit "next") = Ok (CPing 7, lit "next").
Proof.
  eexists. split; [vm_compute; reflexivity|].
  apply (control_frame_roundtrip (written_text message_text read_message) read_message (CPing 7)).
  - intros m payload Hm. by apply written_text_read in Hm as [? _].
  - vm_compute. reflexivity.
Defined.

Abbreviation hello_of mode name := (control_hello mode (lit name) (lit "hash") (local_lifetime mode 0)).
Lemma hello_agreement_witness :
  lifetime_ok (machine_new (lifetime_initial 0)) /\
  validate_control_hello (hello_of (ModeInvitation false) "b") (ModeInvitation true) (lit "hash")
    (Some (lifetime_initial 0)) = Ok (lit "b", lifetime_initial 0).
Proof.
  split; [|vm_compute; reflexivity].
  apply (hello_agreement (ModeInvitation true) (ModeInvitation false) (lit "a") (lit "b") (lit "hash") (lit "hash") 0 0
    (lit "b") (lit "a") (lifetime_initial 0) (lifetime_initial 0)); vm_compute; reflexivity.
Defined.

(** A session with an offer of its own to make. *)
Definition any_text (m : ControlMessage) : option (list byte) := Some [x7b].
Definition joiner_session (offers : OfferState) (writes : list SendOutcome) : RoomControlSession :=
  mkSession offers (machine_new (lifetime_initial 0)) sample_broker None (ModeInvitation false) true [] [] writes [].
Definition asked : OfferState := mkOffers None (Some (lit "a")) {[ lit "a" ]} [lit "a"].

(** A creator whose room stays open in the foreground, and a joiner that has told it
    of a transfer. *)
Definition told_session : RoomControlSession :=
  mkSession no_offers (mkMachine (mkLifetime 2 UntilForegroundEnds None) false false) sample_broker None
    (ModeInvitation true) true [] [CTransferActive true] [] [Some 7].

(** The answer cannot be written: the decision is taken back by closing. The
    connection is lost after the joiner's flag was read: the flag stays. *)
Lemma failed_mutation_closes_witness :
  (exists s', (_ ← accept_offer any_text (lit "a"); mret tt) (joiner_session asked [SendOk; SendFails]) = (s', Err CoreIo) /\
    rc_offers s' <> asked /\ rc_open s' = false) /\
  (exists s', (_ ← next_event any_text; mret tt) told_session = (s', Err CoreIo) /\ rc_open s' = true /\
    peer_transfer_active (rc_lifetime s') = true /\ revision (lm_state (rc_lifetime s')) = 2).
Proof.
  split.
  - assert (Hneq : mkOffers None None {[ lit "a" ]} [lit "a"] <> asked) by (intros [=]).
    eexists. split; [reflexivity|]. split; [exact Hneq|].
    destruct (failed_mutation_closes any_text false _ (joiner_session asked [SendOk; SendFails]) _ CoreIo
      (MethodOwn any_text _ (OpAccept any_text (lit "a"))) ltac:(done) eq_refl) as [Hc|[Ho _]]; [exact Hc|].
    destruct (Hneq Ho).
  - eexists. split; [reflexivity|]. split; [reflexivity|]. split; [reflexivity|].
    destruct (failed_mutation_closes any_text true _ told_session _ CoreIo (MethodNext any_text) ltac:(done) eq_refl)
      as [Hc|(_ & Hst & _)]; [discriminate Hc|]. rewrite Hst. reflexivity.
Defined.

(** ** A room of two *)

Definition an_offer : RoomTransferOffer := mkRoomOffer (lit "a") (lit "invite") [lit "docs"] 2 1 10.
Definition offering : OfferState := (begin_local_offer (lit "a") no_offers).1.
Definition showing : OfferState := (receive_offer (lit "a") no_offers).1.
Definition answered : OfferState := (resolve_remote_offer (lit "a") showing).1.
Definition offerer (unsent wire : list ControlMessage) : Offers.party :=
  Offers.mkParty offering unsent wire [an_offer] [] [] [].
Definition answerer (unsent wire : list ControlMessage) : Offers.party :=
  Offers.mkParty answered unsent wire [] [an_offer] [lit "a"] [].

(** The offer is made, written and shown; it is accepted and the answer written. *)
Lemma room_run : Offers.reachable (offerer [] [], answerer [] [COfferAccepted (lit "a")]).
Proof.
  unfold Offers.reachable.
  eapply rtc_l; [apply Offers.StepLeft, (Offers.ActOffer an_offer offering); reflexivity|].
  eapply rtc_l; [apply Offers.StepLeft, (Offers.ActWrite (CTransferOffer an_offer) [] []); reflexivity|].
  eapply rtc_l; [apply Offers.StepRight; eapply (Offers.ActRead (CTransferOffer an_offer) []);
    [reflexivity|apply (Offers.ReadOffer an_offer _ showing); reflexivity]|].
  eapply rtc_l; [apply Offers.StepRight, (Offers.ActAnswer (COfferAccepted (lit "a")) (lit "a") true answered); reflexivity|].
  eapply rtc_l; [apply Offers.StepRight, (Offers.ActWrite (COfferAccepted (lit "a")) [] []); reflexivity|].
  apply rtc_refl.
Qed.

Lemma answers_known_witness :
  exists st, resolve_local_offer (lit "a") offering = (st, Ok tt) /\ pending_local st = None.
Proof.
  apply (Offers.answers_known _ _ (COfferAccepted (lit "a")) [] (lit "a") true room_run); reflexivity.
Defined.
Lemma offers_agree_witness :
  [an_offer] `sublist_of` [an_offer] /\ [lit "a"] `sublist_of` (offer_id <$> [an_offer]) /\
  pending_local offering = Some (lit "a").
Proof.
  destruct (Offers.offers_agree _ _ room_run) as (Hs & Ha & _). by split_and!.
Defined.
Lemma methods_are_steps_witness :
  exists p' s', (_ ← accept_offer any_text (lit "a"); mret tt) (joiner_session showing []) = (s', Ok tt) /\
    rtc Offers.step (Offers.mkParty showing [] [] [] [an_offer] [] [], offerer [] [])
      (p', Offers.read_from (offerer [] []) []) /\ Offers.p_offers p' = answered.
Proof.
  assert (Hrun : exists s', (_ ← accept_offer any_text (lit "a"); mret tt) (joiner_session showing []) = (s', Ok tt) /\
    rc_offers s' = answered) by (eexists; split; reflexivity).
  destruct Hrun as (s' & Hrun & Ho).
  destruct (Offers.methods_are_steps any_text None _ _ s' (Offers.mkParty showing [] [] [] [an_offer] [] []) (offerer [] []) []
    (OpAccept any_text (lit "a")) Hrun eq_refl eq_refl) as (p' & Hsteps & Hp & _).
  exists p', s'. split; [done|]. split; [done|]. by rewrite Hp.
Defined.

(** The creator starts a transfer and publishes that the room has no deadline. *)
Definition published_room : Lifetime.room :=
  Lifetime.mkRoom active_machine None [lm_state active_machine] (machine_new (lifetime_initial 0)) None [].
Lemma lifetime_run : Lifetime.reachable 0 published_room.
Proof.
  eapply rtc_l; [apply (Lifetime.Update (machine_set_local true) 5 active_machine (Some (lm_state active_machine)));
    [constructor|vm_compute; reflexivity]|].
  eapply rtc_l; [apply Lifetime.Publish|]. apply rtc_refl.
Qed.
Lemma lifetime_agreed_witness :
  Lifetime.published published_room <> [] /\
  exists m, apply_authoritative (lm_state active_machine) (Lifetime.joiner_machine published_room)
    = (m, Ok (lm_state active_machine)).
Proof.
  split; [done|]. destruct (Lifetime.lifetime_agreed 0 published_room lifetime_run) as (Hread & _).
  by apply (Hread _ []).
Defined.

(** ** The loops of the data plane and of the local destination *)

Definition two_dirs : Fs := mkFs {[ [] := DirNode 0; [lit "home"] := DirNode 1; [lit "home"; lit "docs"] := DirNode 2 ]} ∅ 3 [].
Lemma two_dirs_wf : fs_wf two_dirs.
Proof. apply fs_check_wf. vm_compute. reflexivity. Qed.
Lemma tree_walks_end_witness :
  let fuel := Datatypes.S (size (nodes two_dirs)) in
  copy_directories (fuel + 9) [([lit "home"], [lit "copy"])] two_dirs
  = copy_directories fuel [([lit "home"], [lit "copy"])] two_dirs.
Proof.
  intros fuel.
  refine (proj2 (proj2 (tree_walks_end [lit "home"] ∅ [lit "home"] [lit "copy"] two_dirs 9 two_dirs_wf _ _))).
  - by intros [k Hk].
  - by intros [k Hk].
Defined.

Definition first_entry : ManifestEntryV2 := mkEntry 1 0 (Some 0) (lit "a.txt") RegularFile 3 Deferred.
Abbreviation whole_file := (mkEntryPlan 1 ReceivePayload 0).
Abbreviation from_start := (mkSendLoop (lit "abc") [] true None 0 0).
Lemma data_loops_end_witness :
  0 <= plaintext_size first_entry /\
  forall w : World SenderDeliveryRecordV2 unit,
    send_blocks no_zstd (send_fuel first_entry + 5) (identity_of job_offer) first_entry whole_file Identity 3 from_start w
    = send_blocks no_zstd (send_fuel first_entry) (identity_of job_offer) first_entry whole_file Identity 3 from_start w.
Proof.
  split; [done|].
  refine (proj2 (@data_loops_end no_zstd no_unzstd (fun _ => Some []) Provider unit job_sink memory_source first_entry 0%Z 3
    (identity_of job_offer) whole_file Identity (lit "abc") true 5 _)). done.
Defined.
