(* ===== verification/PairingWitnesses.v ===== *)
(** The conditional properties of pairing and authentication at concrete inputs: two
    ends of the sample invitation that pair with the room code, and one data
    connection on which both ends want to remember each other. *)

From stdpp Require Import prelude strings.
From Stdlib Require Import ZArith Lia Strings.Byte.
From S2P Require Import Prelude Bytes Text BrokerConfig CoreError AuthFrame Proc Invite InviteProof Pairing PairingProof.
From S2P Require Import Auth AuthProof RoomSession RoomSessionProof RoomWitnesses Witnesses.

Local Open Scope Z_scope.

(** ** Stand-ins for the cryptographic libraries and for JSON *)

(** The decimal digits of a byte, and a JSON array of bytes. *)
Definition digit (n : Z) : byte := byte_of (48 + n).
Definition json_byte (b : byte) : list byte :=
  let n := byte_val b in
  if n <? 10 then [digit n]
  else if n <? 100 then [digit (n / 10); digit (n mod 10)]
  else [digit (n / 100); digit (n / 10 mod 10); digit (n mod 10)].
Definition json_array (bs : list byte) : list byte :=
  match bs with
  | [] => lit "[]"
  | b :: rest => lit "[" ++ json_byte b ++ concat (map (fun b => lit "," ++ json_byte b) rest) ++ lit "]"
  end.
Lemma json_byte_size b : zlen (json_byte b) <= 3.
Proof. unfold json_byte. repeat case_match; done. Qed.
Lemma json_array_size bs : zlen (json_array bs) <= 4 * zlen bs + 2.
Proof.
  destruct bs as [|b rest]; [done|]. cbn [json_array].
  assert (Hrest : zlen (concat (map (fun b => lit "," ++ json_byte b) rest)) <= 4 * zlen rest).
  { induction rest as [|c rest IH]; [done|]. cbn [map concat]. rewrite !zlen_app, zlen_cons.
    pose proof (json_byte_size c). change (zlen (lit ",")) with 1. lia. }
  rewrite !zlen_app, zlen_cons. pose proof (json_byte_size b).
  change (zlen (lit "[")) with 1. change (zlen (lit "]")) with 1. lia.
Qed.

Definition sample_opening (nonce message : list byte) : list byte :=
  lit "{'nonce':" ++ json_array nonce ++ lit ",'msg':" ++ json_array message ++ lit "}".
Definition sample_confirm (mac : list byte) : list byte := lit "{'mac':" ++ json_array mac ++ lit "}".
Lemma sample_opening_size nonce message : zlen (sample_opening nonce message) <= 4 * (zlen nonce + zlen message) + 21.
Proof.
  unfold sample_opening. rewrite !zlen_app. pose proof (json_array_size nonce). pose proof (json_array_size message).
  change (zlen (lit "{'nonce':")) with 9. change (zlen (lit ",'msg':")) with 7. change (zlen (lit "}")) with 1. lia.
Qed.
Lemma sample_confirm_size mac : zlen (sample_confirm mac) <= 4 * zlen mac + 10.
Proof.
  unfold sample_confirm. rewrite !zlen_app. pose proof (json_array_size mac).
  change (zlen (lit "{'mac':")) with 7. change (zlen (lit "}")) with 1. lia.
Qed.

(** The key is the digest of the password, nothing is hidden, and JSON is written
    with the other quotes. *)
#[export] Instance sample_pake : PakeLibs := {|
  Spake2 := list byte;
  start_a password _ _ seed := (password, x41 :: take 32 seed);
  start_b password _ _ seed := (password, x42 :: take 32 seed);
  spake_finish password _ := Some (tail_digest password);
  hmac key message := tail_digest (key ++ message);
  derive_key context key := tail_digest (context ++ key);
  aead_encrypt _ _ _ text := Some text;
  aead_decrypt _ _ _ sealed := Some sealed;
  opening_json nonce message := Some (sample_opening nonce message);
  confirm_json mac := Some (sample_confirm mac);
  bytes_json bytes := Some (json_array bytes);
|}.
#[export] Instance sample_pake_laws : PakeLaws.
Proof.
  split; cbn.
  - intros. by eexists.
  - intros. by eexists.
  - by intros ? ? ? ? ? [= ->].
  - intros _ _ _ seed. change (zlen (x41 :: take 32 seed) <= 33). unfold zlen. cbn [length]. rewrite length_take. lia.
  - intros _ _ _ seed. change (zlen (x42 :: take 32 seed) <= 33). unfold zlen. cbn [length]. rewrite length_take. lia.
  - intros key message. pose proof (tail_digest_length (key ++ message)) as Hd. change (zlen (tail_digest (key ++ message)) = 32) in Hd. change (zlen (tail_digest (key ++ message)) <= 32). lia.
  - intros ? ? ? ? ? [= ->]. lia.
  - intros nonce message. eexists. split; [reflexivity|]. apply sample_opening_size.
  - intros mac. eexists. split; [reflexivity|]. apply sample_confirm_size.
  - intros bytes. eexists. split; [reflexivity|]. apply json_array_size.
Qed.
#[export] Instance sample_encoding_laws : EncodingLaws.
Proof.
  split; cbn.
  - done.
  - done.
  - apply base64_length.
  - apply base64_url_safe.
Qed.

#[export] Instance context_json : Json ContextBundle := {|
  to_json b := Some match bundle_context b with None => [x30] | Some bytes => x31 :: bytes end;
  from_json bs := match bs with [x30] => Some (mkContextBundle None) | x31 :: bytes => Some (mkContextBundle (Some bytes)) | _ => None end;
|}.
#[export] Instance context_json_laws : JsonLaws ContextBundle.
Proof. split. by intros [[]] ? [= <-]. Qed.

Definition addr_text (a : TransportAddr) : list byte :=
  match a with AddrIp ip => fields [[x30]; ip] | AddrRelay url => fields [[x31]; url] | AddrCustom id data => fields [[x32]; number id; data] end.
Definition read_addr (bs : list byte) : option TransportAddr :=
  l ← read bs;
  match l with
  | [[x30]; ip] => Some (AddrIp ip)
  | [[x31]; url] => Some (AddrRelay url)
  | [[x32]; id; data] => Some (AddrCustom (be_value id) data)
  | _ => None
  end.
Definition descriptor_text (b : DescriptorBundle EndpointAddr) : list byte :=
  match bundle_peer b with
  | None => fields [[]]
  | Some a => fields [ep_id a; fields (addr_text <$> ep_addrs a)]
  end.
Definition read_descriptor (bs : list byte) : option (DescriptorBundle EndpointAddr) :=
  l ← read bs;
  match l with
  | [[]] => Some (mkDescriptorBundle None)
  | [id; addrs] => addrs ← read addrs; addrs ← mapM read_addr addrs; Some (mkDescriptorBundle (Some (mkEndpointAddr id addrs)))
  | _ => None
  end.
#[local] Instance DescriptorBundle_eq_dec : EqDecision (DescriptorBundle EndpointAddr).
Proof. solve_decision. Defined.
#[export] Instance descriptor_json : Json (DescriptorBundle EndpointAddr) := {|
  to_json := written_text descriptor_text read_descriptor;
  from_json := read_descriptor;
|}.
#[export] Instance descriptor_json_laws : JsonLaws (DescriptorBundle EndpointAddr).
Proof. split. intros d bs Hd. by apply written_text_read in Hd as [? _]. Qed.

(** ** The control handshake *)

Definition nonce_i : list byte := lit "iiiiiiiiiiiiiiiiiiiiiiiiiiiiiiii".
Definition nonce_r : list byte := lit "rrrrrrrrrrrrrrrrrrrrrrrrrrrrrrrr".
Definition room_context : InvitationControlContext := mkControlContext (lit "123456") RoomCode TransferReceiver TransferSender.
Definition opening_i : PakeMessage := mkPake nonce_i (x41 :: lit "one").
Definition opening_r : PakeMessage := mkPake nonce_r (x42 :: lit "two").
Definition pake_key : list byte := tail_digest (lit "password").
Definition sample_transcript : list byte := pake_transcript room_context opening_i opening_r.
Definition confirm_i : list byte := pake_proof pake_key sample_transcript INITIATOR_CONFIRM_LABEL.
Definition confirm_r : list byte := pake_proof pake_key sample_transcript RESPONDER_CONFIRM_LABEL.
Definition sample_key : PairedKey := mkPaired_ pake_key (sha256 sample_transcript).

(** The responder accepts the joiner's confirmation; its own one is lost, so the
    joiner's run fails. *)
Lemma pairing_authenticated_witness :
  (room_context = room_context /\ opening_i = opening_i /\ opening_r = opening_r /\ paired_hash sample_key = sha256 sample_transcript) \/
  exists k k', responder_shared (lit "password") (lit "two") opening_i = Some k /\
    initiator_shared (lit "password") (lit "one") opening_r = Some k' /\
    tag_clash k (confirmed room_context opening_i opening_r INITIATOR_CONFIRM_LABEL)
              k' (confirmed room_context opening_i opening_r INITIATOR_CONFIRM_LABEL).
Proof.
  assert (Hr : run_responder (lit "password") room_context (lit "two")
    (mkControl [PakeOpening opening_i; PakeConfirm confirm_i] [] nonce_r)
    = (mkControl [] [PakeOpening opening_r; PakeConfirm confirm_r] [], Ok sample_key)) by (vm_compute; reflexivity).
  assert (Hi : run_initiator (lit "password") room_context (lit "one")
    (mkControl [PakeOpening opening_r] [] nonce_i)
    = (mkControl [] [PakeOpening opening_i; PakeConfirm confirm_i] [], Err StreamFailed)) by (vm_compute; reflexivity).
  assert (Hroom : room_sized room_context) by (split; vm_compute; discriminate).
  assert (Hs : Forall sized [opening_i; opening_r; opening_i; opening_r]) by (repeat constructor; vm_compute; discriminate).
  destruct (pairing_authenticated _ _ _ _ _ _ _ _ _ _ _ _ _ _ _ _ _ _ _ _ Hr eq_refl eq_refl Hi eq_refl eq_refl
    Hroom Hroom Hs) as [Haccepts _].
  exact (Haccepts sample_key confirm_i eq_refl eq_refl (list_elem_of_here _ _)).
Defined.

(** ** The data authentication *)

Definition data_context : InvitationAuthContext :=
  mkAuthContext (lit "0123456789abcdef") (tail_digest []) RoomCode TransferReceiver TransferSender (Some (tail_digest [])).
Definition data_config : PairingConfig := InvitationV2 (lit "the data password") data_context.
Definition keying_material (domain context : list byte) : session (list byte) := Ok (tail_digest (domain ++ context)).
Definition sixty_four : list byte := nonce_i ++ nonce_r.

Lemma auth_completes_witness :
  exists sent_s sent_r secret es' er',
    authenticate_sender_with_remember data_config true (lit "s") (mkAuthWorld sent_r [] sixty_four keying_material)
    = (mkAuthWorld [] sent_s es' keying_material, Ok (Some secret)) /\
    authenticate_receiver_with_remember data_config true (lit "r") (mkAuthWorld sent_s [] sixty_four keying_material)
    = (mkAuthWorld [] sent_r er' keying_material, Ok (Some secret)).
Proof.
  destruct (auth_completes data_config true true (lit "s") (lit "r") sixty_four sixty_four keying_material
    (tail_digest (profile_domain (auth_profile data_config) ++ exporter_context (auth_profile data_config))))
    as (sent_s & sent_r & secret & es' & er' & Hs & Hr & Hsecret);
    [vm_compute; reflexivity|reflexivity|vm_compute; lia|vm_compute; lia|].
  destruct secret as [secret|]; [|discriminate Hsecret]. exists sent_s, sent_r, secret, es', er'.
  specialize (Hs [] []). specialize (Hr [] []). rewrite !app_nil_r in Hs, Hr. by split.
Defined.

Definition shared_key : list byte := tail_digest (lit "the data password").
Definition data_start : Spake2Start := mkStart PROTOCOL_VERSION Sender nonce_i (x41 :: lit "s") true.
Definition data_message : Spake2Message := mkMessage nonce_i (x42 :: lit "r") true.
Definition data_exporter : list byte :=
  Eval vm_compute in tail_digest (profile_domain (auth_profile data_config) ++ exporter_context (auth_profile data_config)).
Definition data_transcript : ConfirmationTranscript := transcript_of (auth_profile data_config) data_exporter data_start data_message.
Definition confirm_s : Spake2Confirm :=
  mkConfirm (confirmation_proof shared_key data_transcript SENDER_CONFIRM_LABEL (Some nonce_r) None) (Some nonce_r).
Definition confirm_d : Spake2Confirm :=
  mkConfirm (confirmation_proof shared_key data_transcript RECEIVER_CONFIRM_LABEL (Some nonce_r) (Some nonce_r)) (Some nonce_r).
Definition data_secret : option (list byte) :=
  combine_remember true (Some nonce_r) (Some nonce_r) (invitation_binding (auth_profile data_config)).

(** The receiver accepts the sender's confirmation; its own one is lost, so the
    sender's run fails. *)
Lemma auth_authenticated_witness :
  agrees (auth_profile data_config) data_exporter data_start data_message
    (auth_profile data_config) data_exporter data_start data_message \/
  exists key key', sender_key (auth_profile data_config) (lit "s") data_message = Ok key /\
    receiver_key (auth_profile data_config) (lit "r") data_start = Ok key' /\
    tag_clash key (sender_confirms data_transcript confirm_s) key' (sender_confirms data_transcript confirm_s).
Proof.
  assert (Hs : authenticate_sender_with_remember data_config true (lit "s")
      (mkAuthWorld [AuthMessage data_message] [] sixty_four keying_material)
    = (mkAuthWorld [] [AuthStart data_start; AuthConfirm confirm_s] [] keying_material, Err CoreIo)) by (vm_compute; reflexivity).
  assert (Hr : authenticate_receiver_with_remember data_config true (lit "r")
      (mkAuthWorld [AuthStart data_start; AuthConfirm confirm_s] [] sixty_four keying_material)
    = (mkAuthWorld [] [AuthMessage data_message; AuthConfirm confirm_d] [] keying_material, Ok data_secret)) by (vm_compute; reflexivity).
  assert (Ht : transcript_sized data_transcript) by (repeat constructor; vm_compute; discriminate).
  destruct (auth_authenticated _ _ _ _ _ _ _ _ _ _ data_exporter _ _ _ _ _ _ _ _ _ _ data_exporter Hs eq_refl eq_refl Hr eq_refl eq_refl
    eq_refl eq_refl Ht Ht) as [Haccepts _].
  exact (Haccepts data_secret confirm_s eq_refl eq_refl (list_elem_of_here _ _)).
Defined.

(** ** Pairing through a room *)

Definition no_seed (_ : nat) : list byte := [].
Definition busy : Answer := Replied (ReplyRejected (mkRejection ServerBusy (Some 5))) [] true.
Definition busy_world : RoomWorld :=
  mkRoomWorld [busy; busy; busy] [] [] [] (mkControl [] [] []) true [] false [] [] [] [].
Definition creator_end : InvitationBootstrap := created_end created.
Definition code_end : InvitationBootstrap := RoomCodeJoiner (created_room_code created) TransferSender.
Definition a_join : Join := mkJoin RENDEZVOUS_PROTOCOL_VERSION (room_code_id (created_room_code created)) Joiner TransferSender [] (Some RoomCode).
Lemma room_joins_bounded_witness :
  exists w' r, authenticate_in_room_retrying no_seed code_end None (mkPolicy 1 2 (from_secs 30)) busy_world = (w', r) /\
    r <> Err Panicked /\ slept w' = [from_secs 5; from_secs 5] /\ joined_within a_join (mkPolicy 1 2 (from_secs 30)) 3 2 busy_world w'.
Proof.
  destruct (authenticate_in_room_retrying no_seed code_end None (mkPolicy 1 2 (from_secs 30)) busy_world) as [w' r] eqn:Hrun.
  exists w', r. split; [done|].
  destruct (proj1 (room_joins_bounded no_seed (mkPolicy 1 2 (from_secs 30)) ltac:(done)) code_end a_join None busy_world w' r eq_refl Hrun)
    as [Hp Hw].
  split; [exact Hp|]. split; [|exact Hw]. vm_compute in Hrun. injection Hrun as <- _. reflexivity.
Defined.

Definition context_bytes : list byte :=
  Eval vm_compute in match jcs_context (public_context (created_invitation created)) with Ok bs => bs | Err _ => [] end.
(** The code is typed without its dashes. *)
Definition typed_code : str := filter (fun b => b <> x2d) (created_room_code created).
Definition receiver_addr : EndpointAddr := mkEndpointAddr (lit "receiver") [AddrIp (lit "10.0.0.2:4443"); AddrRelay (lit "https://relay")].
Definition long_entropy : list byte := nonce_i ++ nonce_r.
Definition plain_config : SessionConfig := mkSessionConfig None false false default_policy.
Ltac sends := eexists; split; [vm_compute; reflexivity|vm_compute; discriminate].

Lemma invitation_pairs_witness :
  exists from_s from_r auth w,
    config_valid auth = Ok tt /\
    pair_room_sender no_seed code_end plain_config (matched Initiator RoomCode from_r long_entropy [Ok 1010; Ok 1011])
    = (w, Ok (receiver_addr, auth)) /\ ct_written (stream w) = from_s.
Proof.
  assert (Hj : joins_with created 1299 RoomCode code_end).
  { exists typed_code, (created_room_code created). split; [|done]. vm_compute. reflexivity. }
  destruct (invitation_pairs created RoomCode code_end context_bytes _ _ _ _ _ 1299 _ _ receiver_addr no_seed no_seed long_entropy long_entropy
    1010 1011 1010 1012 create_runs Hj) as (js & jr & Hjs & Hjr & Hmeet & from_s & from_r & auth & Hv & Hs & Hr).
  - vm_compute. reflexivity.
  - vm_compute. discriminate.
  - sends.
  - sends.
  - sends.
  - sends.
  - vm_compute. lia.
  - vm_compute. lia.
  - repeat constructor; vm_compute; reflexivity.
  - destruct (Hs plain_config) as (w & Hw & Hwr). exists from_s, from_r, auth, w. split; [exact Hv|]. split; [|exact Hwr].
    vm_compute in Hjs. injection Hjs as <-. exact Hw.
Defined.

Definition device_secret : RememberedCredential := tail_digest (lit "secret").
Lemma remembered_pairs_witness :
  let s := derive_session device_secret 3 in
  joins_match (remembered_join s TransferSender) (remembered_join s TransferReceiver) = Some FullTicket /\
  exists from_s from_r auth, config_valid auth = Ok tt /\
    forall config, exists w,
      send_via_remembered no_seed (fun _ _ _ w => (w, mkAttempt true true ∅ (Ok tt))) (lit "broker") s config
        (matched Initiator FullTicket from_r long_entropy []) = (w, Ok tt) /\ ct_written (stream w) = from_s.
Proof.
  intros s.
  destruct (remembered_pairs device_secret 3 (lit "broker") receiver_addr no_seed no_seed long_entropy long_entropy)
    as ((_ & _ & Hm & _) & from_s & from_r & auth & Hv & Hs & _); [done|sends|sends|sends|vm_compute; lia|vm_compute; lia|].
  split; [exact Hm|]. exists from_s, from_r, auth. split; [exact Hv|]. intros config.
  destruct (Hs unit (fun _ _ _ w => (w, mkAttempt true true ∅ (Ok tt))) config) as (w & Hw & Hwr).
  exists w. split; [exact Hw|exact Hwr].
Defined.

(** The receiver of the invitation waits nearby, and the broker cannot be reached. *)
Definition unreachable_world : RoomWorld :=
  mkRoomWorld [Unreachable JoinTransport] [] [] [] (mkControl [] [] []) true [] false [] [] [] [].
Lemma hybrid_receive_releases_witness :
  exists w', receive_via_room_hybrid no_seed (fun _ w => (w, mkAttempt true true ∅ (Ok tt))) creator_end plain_config receiver_addr
      unreachable_world = (w', Err (Returned (Transport "")))%string /\ is_open w' = [].
Proof.
  destruct (receive_via_room_hybrid no_seed (fun _ w => (w, mkAttempt true true ∅ (Ok tt))) creator_end plain_config receiver_addr unreachable_world)
    as [w' r] eqn:Hrun.
  assert (Hr : r = Err (Returned (Transport ""))) by (vm_compute in Hrun; injection Hrun as _ <-; reflexivity).
  exists w'. split; [by rewrite Hr|].
  assert (Hpublic : creator_public_context creator_end = Ok (Some context_bytes)) by (vm_compute; reflexivity).
  pose proof (hybrid_receive_releases no_seed (fun _ w => (w, mkAttempt true true ∅ (Ok tt))) creator_end plain_config receiver_addr
    (Some context_bytes) unreachable_world w' r Hpublic (fun _ _ => eq_refl) eq_refl Hrun) as Hopen.
  rewrite Hr in Hopen. exact Hopen.
Defined.
