(* ===== verification/SessionWitnesses.v ===== *)
(** The conditional properties of the sessions at concrete inputs: the sample job, from
    an accepted connection over its authentication to the delivery proof, with the
    session of the sender and that of the receiver over one conversation. *)

From stdpp Require Import prelude gmap strings.
From Stdlib Require Import ZArith Lia Strings.Byte.
From S2P Require Import Prelude Bytes ManifestV2 ManifestSpec OfferCodec Frames FramesProof Timeline Delivery DeliveryStore Ledger Names Proc.
From S2P Require Import CoreError AuthFrame Invite Pairing Auth ReceivePlane LocalFs Destination Provider ProviderCommit SendPlane.
From S2P Require Import DeliverySystem RoomSession Session SessionProof SessionAgree.
From S2P Require Import Witnesses TransferWitnesses RoomWitnesses PairingWitnesses.

Local Open Scope Z_scope.

(** ** The session of the receiver *)

Definition proof_nonce_bytes : list byte := sample_digest 6.
Definition dummy_receiver_record : ReceiverDeliveryRecordV2 := mkReceiverRecord 0 sample_identity [] [] [] [] None.
Definition first_receipt : ReceiverDeliveryRecordV2 := Eval vm_compute in
  match receiver_new ascii_nfc tail_digest plain_derive plain_keyed job_offer the_accept receiver_summary with
  | Ok r => r | Err _ => dummy_receiver_record end.
Definition session_delivery_proof : DeliveryProofV2 := Eval vm_compute in
  build_delivery_proof plain_derive plain_keyed (rd_identity first_receipt) (rd_manifest_digest first_receipt)
    (rd_result_set_digest first_receipt) proof_nonce_bytes (rd_proof_capability first_receipt).
Definition receipts : list ReceiverDeliveryRecordV2 :=
  Eval vm_compute in [first_receipt; set_receiver_proof session_delivery_proof first_receipt].

Definition fresh_receiver : Receiver :=
  mkReceiver to_receiver [] 100 [] (mkStores ∅ ∅ ∅) empty_disk ∅ [] [Some (sample_digest 1); Some (sample_digest 2)]
    [Some (sample_digest 3); Some (sample_digest 4); Some proof_nonce_bytes] [].
Definition fresh_pending : Pending := mkPendingReceive fresh_receiver [] true [] false.
Abbreviation job_session :=
  (receive_after_offer KindOther (Protocol "") OtherOs no_lowercase ascii_nfc tail_digest plain_derive plain_keyed no_unzstd
     one_volume one_device (fun _ => Some []) (fun _ => None) (fun _ => Some []) (fun _ => None)
     (list_to_vec ledgers) (list_from_slice ledgers) (list_to_vec receipts) (list_from_slice receipts) noop_commit_results
     job_offer None job_request (lit "1")).
Definition session_run := receive_with_result_gate None job_session fresh_pending.
Definition dummy_receiver_session : ReceiverManifestV2SessionSummary := mkReceiverSession dummy_receiver_summary [] dummy_plan.
Definition receiver_ended : ReceiverManifestV2SessionSummary := Eval vm_compute in
  match session_run.2 with Ok s => s | Err _ => dummy_receiver_session end.

Lemma session_run_ok : receive_with_result_gate None job_session fresh_pending = (session_run.1, Ok receiver_ended).
Proof. apply (pair_ok session_run). vm_compute. reflexivity. Qed.
Lemma no_stores : stores_ok ascii_nfc tail_digest plain_derive plain_keyed (list_from_slice ledgers) (list_to_vec receipts)
  (list_from_slice receipts) job_manifest (mkStores ∅ ∅ ∅).
Proof. split; intros x Hx; vm_compute in Hx; discriminate Hx. Qed.
Lemma job_built : build_manifest_offer_v2 ascii_nfc tail_digest job_manifest = Ok job_offer.
Proof. vm_compute. reflexivity. Qed.

Lemma session_keeps_word_witness :
  recorded ascii_nfc tail_digest plain_derive plain_keyed (list_from_slice ledgers) (list_to_vec receipts)
    (list_from_slice receipts) job_manifest (rv_stores (pe_receiver session_run.1)) (DeliveryProof session_delivery_proof) /\
  exists l, completed_summary l = Some (rms_data_plane receiver_ended).
Proof.
  destruct (session_keeps_word KindOther (Protocol "") OtherOs no_lowercase ascii_nfc tail_digest plain_derive plain_keyed
    no_unzstd one_volume one_device (fun _ => Some []) (fun _ => None) (fun _ => Some []) (fun _ => None) (list_to_vec ledgers)
    (list_from_slice ledgers) (list_to_vec receipts) (list_from_slice receipts) noop_commit_results job_offer None job_request
    (lit "1") None fresh_pending session_run.1 (Ok receiver_ended)) as (_ & Hsent & Hok).
  - vm_compute. reflexivity.
  - exact job_built.
  - apply list_codec.
  - apply list_codec.
  - exact no_stores.
  - reflexivity.
  - exact session_run_ok.
  - split.
    + apply Hsent. apply list_elem_of_lookup. eexists (pred (length (rv_sent (pe_receiver session_run.1)))).
      vm_compute. reflexivity.
    + destruct (Hok _ eq_refl) as (l & _ & Hsum & _). exists l. exact Hsum.
Defined.

(** ** The session of the sender *)

Definition dummy_sender_session : SenderManifestV2SessionSummary := mkSenderSession dummy_sender_summary [].
Definition confirmed_record : SenderDeliveryRecordV2 := Eval vm_compute in
  set_phase Delivered (set_proof session_delivery_proof (record sent.1)).
Definition session_records : list SenderDeliveryRecordV2 := Eval vm_compute in records ++ [confirmed_record].
Definition sender_auth : AuthWorld := mkAuthWorld [AuthMessage data_message; AuthConfirm confirm_d] [] sixty_four keying_material.
Definition fresh_sender : Sending unit :=
  mkSending (mkWorld (to_sender ++ [DeliveryProof session_delivery_proof]) [] 100 [] ∅ first_record tt 0 []) sender_auth [] false.
Definition taken_by_anyone (outcome : option (list byte)) : session unit := Ok tt.
Abbreviation job_sending :=
  (send_over_connection KindOther (Protocol "") ascii_nfc tail_digest plain_derive plain_keyed no_zstd
     (list_to_vec session_records) (list_from_slice session_records) (Some job_manifest) data_config true taken_by_anyone
     (lit "s") (Some (sample_digest 5)) None Finishes None).
Definition sending_run := job_sending fresh_sender.
Definition sender_ended : SenderManifestV2SessionSummary := Eval vm_compute in
  match sending_run.2 with Ok s => s | Err _ => dummy_sender_session end.
Lemma sending_run_ok : job_sending fresh_sender = (sending_run.1, Ok sender_ended).
Proof. apply (pair_ok sending_run). vm_compute. reflexivity. Qed.

(** The conversation is the receiver's side of the session. *)
Lemma conversation : incoming (sg_plane fresh_sender) = (rv_sent (pe_receiver session_run.1)).*1.
Proof. vm_compute. reflexivity. Qed.

Lemma sessions_agree_witness :
  sms_delivery_proof_digest sender_ended = rms_delivery_proof_digest receiver_ended /\
  ss_entry_results (sms_data_plane sender_ended) = rsum_entry_results (rms_data_plane receiver_ended).
Proof.
  destruct (sessions_agree KindOther KindOther (Protocol "") (Protocol "") OtherOs no_lowercase ascii_nfc tail_digest
    plain_derive plain_keyed no_zstd no_unzstd one_volume one_device (fun _ => Some []) (fun _ => None) (fun _ => Some [])
    (fun _ => None) (list_to_vec ledgers) (list_from_slice ledgers) (list_to_vec receipts) (list_from_slice receipts)
    (list_to_vec session_records) (list_from_slice session_records) noop_commit_results (Some job_manifest) data_config true
    taken_by_anyone (lit "s") (Some (sample_digest 5)) None Finishes None fresh_sender sending_run.1 sender_ended job_offer None
    job_request (lit "1") None fresh_pending session_run.1 receiver_ended) as (Hdigest & Hresults & _).
  - intros b. unfold zlen. rewrite digest_32. reflexivity.
  - intros ctx a b Heq. exact Heq.
  - apply list_codec.
  - apply list_codec.
  - apply list_codec.
  - vm_compute. reflexivity.
  - exact job_built.
  - exact no_stores.
  - reflexivity.
  - exact sending_run_ok.
  - exact session_run_ok.
  - intros proof Hin. rewrite conversation in Hin. exact Hin.
  - vm_compute. reflexivity.
  - vm_compute. reflexivity.
  - split; [exact Hdigest|exact Hresults].
Defined.

(** ** The offer *)

(** A connection that fails, one whose peer does not know the password, and the peer. *)
Definition peer_auth : AuthWorld := mkAuthWorld [AuthStart data_start; AuthConfirm confirm_s] [] sixty_four keying_material.
Definition the_peer : Connection := mkConnection true peer_auth (lit "r") Finishes false [Offer job_offer] false.
Definition a_stranger : Connection :=
  mkConnection true (mkAuthWorld [AuthStart data_start; AuthConfirm confirm_d] [] sixty_four keying_material) (lit "r") Finishes
    false [Offer job_offer] false.
Definition listener : Listener :=
  mkListener [AcceptFails (Transport "") false; AcceptedConnection a_stranger; AcceptedConnection the_peer; AcceptCancelled]
    [[SessionStarted]] [] false.
Definition listened : Listener * result RoomError (Connection * ManifestOfferV2 * option ResumeRequestV2) :=
  receive_manifest_v2_offer ascii_nfc tail_digest data_config true taken_by_anyone true listener.

Lemma offer_of_authenticated_peer_witness :
  listened.2 = Ok (the_peer, job_offer, None) /\ ls_accepts listened.1 = [AcceptCancelled] /\
  peer_authenticated data_config true taken_by_anyone the_peer.
Proof.
  assert (Hr : listened.2 = Ok (the_peer, job_offer, None)) by (vm_compute; reflexivity).
  destruct (offer_of_authenticated_peer ascii_nfc tail_digest data_config true taken_by_anyone true [] listener listened.1
    (Ok (the_peer, job_offer, None))) as (taken & new & _ & _ & _ & _ & Hpeer & _).
  - reflexivity.
  - exact (pair_ok listened _ Hr).
  - split; [exact Hr|]. split; [vm_compute; reflexivity|exact Hpeer].
Defined.

(** ** The attempt *)

Definition goes_well : Opening := mkOpening None false.
Definition fresh_dialing : Dialing unit := mkDialing fresh_sender [] false.
Definition attempt_run := send_by KindOther (Protocol "") (ToEndpoint goes_well goes_well) (Some job_manifest) job_sending fresh_dialing.
Lemma attempt_run_ok :
  send_by KindOther (Protocol "") (ToEndpoint goes_well goes_well) (Some job_manifest) job_sending fresh_dialing
  = (attempt_run.1, Ok sender_ended).
Proof. apply (pair_ok attempt_run). vm_compute. reflexivity. Qed.
Lemma send_attempts_settle_witness :
  released attempt_run.1 /\ last (omap stage_of (dl_reports attempt_run.1)) = Some DeliveryComplete.
Proof.
  destruct (send_attempts_settle KindOther (Protocol "") ascii_nfc tail_digest plain_derive plain_keyed no_zstd
    (list_to_vec session_records) (list_from_slice session_records) (ToEndpoint goes_well goes_well) (Some job_manifest)
    data_config true taken_by_anyone (lit "s") (Some (sample_digest 5)) None Finishes None fresh_dialing attempt_run.1
    (Ok sender_ended)) as [Hreleased [(Hnone & _)|(_ & Hlast)]].
  - split; reflexivity.
  - reflexivity.
  - exact attempt_run_ok.
  - discriminate.
  - discriminate Hnone.
  - split; [exact Hreleased|]. apply Hlast. reflexivity.
Defined.
